(* ===== verification/_CoqProject ===== *)
-Q . S2P
Prelude.v
Types.v
Skiplist.v
ObSlices.v
ObSlicesRun.v
ObSlicesThms.v
TrunkAllocator.v
StorageAllocator.v
StorageAllocSpec.v
StorageAllocThms.v
StorageAllocUsed.v
ObSlicesMain.v
ObSlicesGet.v
ObIndex.v
ObIndexSpec.v
ObIndexOps.v
ObIndexThms.v
ObIndexMain.v
ObIndexDemo.v
Binlog.v
BinlogSpec.v
BinlogThms.v
BinlogDemo.v
SliceOp.v
StoreAlloc.v
StoreWrite.v
DataThread.v
TrunkWrite.v
TrunkWriteSpec.v
TrunkWriteThms.v
TrunkWriteLoop.v
TrunkWriteDemo.v
DataThreadThms.v
DataThreadDemo.v
StoreIov.v
StoreRead.v
StoreAllocate.v
StoreReadData.v
DataThreadRead.v
StoreDemo.v
StoreLog.v
RecoveryDemo.v
Reclaim.v
ReclaimThms.v
ReclaimDemo.v
RpcResultRing.v
Replication.v
ReplicationThms.v
ReplicationDemo.v
Cluster.v
Topology.v
MasterElection.v
Leader.v
ClusterHandler.v
ClusterInv.v
ClusterThms.v
LeaderThms.v
LeaderElection.v
ClusterMain.v
ClusterWaiting.v
MasterElectionThms.v
ClusterPublish.v
ClusterView.v
ClusterSystem.v
ClusterDemo.v
WriteCombine.v
WCombineThms.v
WCombineMain.v
WCombineSteps.v
WCombineLive.v
WCombineDemo.v
BinlogDedup.v
BinlogDedupThms.v
BinlogDedupMain.v
BinlogDedupDemo.v
BinlogReplay.v
BinlogReplaySpec.v
BinlogReplayThms.v
BinlogReplayMain.v
BinlogReplayDemo.v
