(* ===== verification/Prelude.v ===== *)
(** * A verification of FastStore

    FastStore keeps files as blocks of 4 MB. A data group of servers holds the blocks that
    hash to it; its master takes the updates of the clients, applies them to its disks and
    sends them to the slaves; a leader among the servers watches them all and chooses the
    masters. The development models the server (under [src/server]) from the index of the
    blocks up to the election, and the part of the client library (under [src/api]) that
    combines small writes. Definitions carry the names of the C functions, types and macros
    they model; where a definition is a piece of a function, or a step of a thread, its
    comment says which.

    ** The parts, from the bottom

    - Bases. [Prelude.v]: errors, machine integers, lists. [Types.v]: the records of
      [common/fs_types.h] and [server/storage/storage_types.h]. [Skiplist.v]: the class of the
      [uniq_skiplist] of libfastcommon, with an instance.
    - Slices of a block, [server/storage/object_block_index.c]: [ObSlices.v] is the code,
      [ObSlicesRun.v], [ObSlicesThms.v], [ObSlicesGet.v] the proofs,
      [ObSlicesMain.v] a concrete block. A block is a partial map from bytes to places in trunk
      files; adding overrides it on an extent, deleting removes an extent, reading returns it.
    - Object block index, the hash table of the same file: [ObIndex.v] (chains as pointers, the
      reclaim lock, callers that wait), [ObIndexSpec.v], [ObIndexOps.v],
      [ObIndexThms.v], [ObIndexMain.v], [ObIndexDemo.v].
    - Space, [trunk_allocator.c], [trunk_freelist.c], [storage_allocator.c]: [TrunkAllocator.v]
      and [StorageAllocator.v] are the code, [StorageAllocSpec.v], [StorageAllocThms.v],
      [StorageAllocUsed.v] the proofs: handed out space is fresh and disjoint, the bytes of
      the trunks and the arrays of paths stay right. The index uses the allocator through a
      class of accounting operations, which the allocator implements.
    - Operations on slices, [slice_op.c]: [SliceOp.v]; [StoreAlloc.v], [StoreWrite.v],
      [StoreIov.v], [StoreRead.v], [StoreReadData.v], [StoreAllocate.v] show
      that index, allocator and disks together are a store of bytes.
    - Data threads, [data_thread.c]: [DataThread.v] is the step relation of a thread and the
      I/O threads; [DataThreadThms.v] (a write), [DataThreadRead.v] (a read), with the demos
      [DataThreadDemo.v] and [StoreDemo.v].
    - Reclaiming a trunk, [trunk_reclaim.c]: [Reclaim.v] is the thread of a trunk maker that
      moves the slices of a trunk elsewhere, as a step relation over the same store and I/O
      threads; [ReclaimThms.v] its invariant ([reclaim_inv]), [ReclaimDemo.v] the theorems and
      a run. [runs] are the steps of a reclaim that has not returned in which no read
      has 2^15 slices or more (they are counted in a short); with [strict], no read failed
      with [ENOENT] either, which the thread takes for an extent deleted meanwhile.
    - Write threads, [dio/trunk_write_thread.c]: [TrunkWrite.v] over a model of files and
      system calls; [TrunkWriteSpec.v], [TrunkWriteThms.v],
      [TrunkWriteLoop.v], [TrunkWriteDemo.v]: batches refine one request after the other.
    - Binlogs: [Binlog.v] prints and parses the lines of [slice_binlog.c],
      [replica_binlog.c], [trunk_binlog.c] and compares logs; [BinlogSpec.v], [BinlogThms.v],
      [BinlogDemo.v]. [StoreLog.v] is the application of the slice binlog at a start
      ([slice_loader.c]) and shows that a restart gives the same store,
      [RecoveryDemo.v] runs one. [BinlogDedup.v] and its proofs
      [BinlogDedupThms.v], [BinlogDedupMain.v], [BinlogDedupDemo.v] are the compaction of a
      binlog that a recovering slave fetched ([recovery/binlog_dedup.c]). [BinlogReplay.v] are
      the threads that replay it with data read from the master ([recovery/binlog_replay.c]),
      [BinlogReplaySpec.v] their invariant, [BinlogReplayThms.v], [BinlogReplayMain.v] the
      proofs, [BinlogReplayDemo.v] runs.
    - Replication: [RpcResultRing.v] ([rpc_result_ring.c]) and
      [Replication.v], [ReplicationThms.v], [ReplicationDemo.v] ([replication_caller.c],
      [replication_processor.c]): the data thread is told exactly once, when the last slave
      has answered or was lost.
    - Cluster: [Cluster.v] the state, [Topology.v] ([cluster_topology.c]),
      [MasterElection.v] ([master_election.c]), [Leader.v] ([cluster_relationship.c]),
      [ClusterHandler.v] ([cluster_handler.c]); the invariants in [ClusterInv.v],
      [ClusterThms.v], [LeaderThms.v], [ClusterMain.v], [ClusterWaiting.v],
      [MasterElectionThms.v]; agreement on a leader in [LeaderElection.v]; what followers see
      in [ClusterPublish.v], [ClusterView.v], [ClusterSystem.v]; runs in [ClusterDemo.v].
    - Write combining of the client: [WriteCombine.v] is the code of [api/write_combine] and
      the calls of [fs_api.c]; [WCombineThms.v] the abstract store with buffers,
      [WCombineMain.v], [WCombineSteps.v] the invariant and the
      refinement, [WCombineLive.v] progress and the timer, [WCombineDemo.v] a run.

    ** How the code is modelled

    A function of C is a function of the state it works on, in a small monad of the component
    ([GM], [IM], [OM], [WM], [CM]: state, and an option or an answer where the code waits or
    fails). What runs under one lock, or with atomic operations on one variable, is one step;
    threads are step relations ([step] of [DataThread.v], of [WriteCombine.v] and of [BinlogReplay.v],
    [loader_step], [reclaim_step], [replication_step], [cluster_step], [election_step], [system_step]), so the
    theorems about them hold for every interleaving. Failures of
    allocation, of system calls and of the network are arguments or part of the steps, so
    every error path is there. Integers are [Z], with [cast32], [u32], [u64] where the C type
    can wrap. Libraries outside the repository are classes or parameters: the skip list, the
    splitting of lines, the configuration of the cluster, the file system's answers.

    ** What the theorems show

    - Space: what is handed out is fresh, disjoint from all that is in use, and never given
      out twice while it is in use, also with trunks of 2 GB and more, for which an
      allocation can abort; the store is shown over smaller ones ([alloc_safe]). A reclaim keeps every byte of the store in every state, leaves nothing in the
      trunk when it returns 0 and no read failed with [ENOENT], gives its locks back and comes
      to an end.
    - Data: a write through a data thread, whatever its I/O does, is the write of the abstract
      store; a read that succeeds returns it in its buffers; several buffers are as one;
      requests pushed to a write thread land in the trunk files after its turn.
    - Durability: the binlogs are parsed back to what was logged, and replay rebuilds the
      store; the compacted log does what the fetched log does, and a replay of it executes its
      records in order with the data the master answered ([rc_answers] keeps the answers), all
      of them when it succeeds.
    - Replication: the counting of waiting slaves; the ring refines a set of waiting updates.
    - Cluster: one candidate wins; leader, masters, statuses and queues agree in every
      reachable state; groups without a master keep waiting for an election; followers see
      the leader's view, up to the servers a follower changed itself ([sy_marks]) and the
      changes the leader publishes to no one ([sy_unsent]).
    - Client: reads are regular although writes are buffered; no call waits forever for a
      slice; no slice is kept longer than [max_wait_time_ms].
    - Errors, termination and bounds: what is left after an error, the loops that end, and
      the limits of the buffers and of the allocation.

    ** Fuel

    Loops that are not structural have fuel, always enough: [chain_walk], [free_chain] and
    [chain_obs] the number of entries (a chain has each once), the loops over the ring its
    size, [write_chunks] the number of vectors, [deal_requests] the number of waiting
    requests, [parse_buffer] and [deal_lines] the length of the buffer (each round takes a
    byte), [print_digits] 20 (a 64-bit number), [double_until] 31 (an int), [holes_loop] the
    number of times the slices may still change under it, [waiting_rounds] the 10 rounds of
    the source, [storage_allocator_normal_alloc_ex] the retries of the source. [write_loop]
    follows the answers of the system. Termination theorems state it where it matters.

    ** Not modelled

    - Files and processes: reading and writing the binlog files, status and configuration
      files, thread creation, start-up and termination, logging, statistics.
    - The queues of the read threads, their submission of reads and the file descriptor cache
      (a read is one step that fills its buffer with aligned blocks of the disk), binlog check and repair, the fetch of a binlog by a slave, the
      making and preallocation of trunks, the packing of messages and the checks of their lengths and
      signs, the calls of the client over its connections, the read cache of the client
      (the client model has [read_ahead.enabled] false).
    - In a reclaim, the choice of the trunk by its usage, operations of data threads on other
      blocks between its steps, and the end of its waits when the server terminates.
    - In the index, its iterator; in the replication, the reference count of an entry of the queue; in the cluster, the source of
      an event, memory that runs out when an event is queued, requests of an election that
      arrive after their sender gave up, and the check of the term.
    - In the client, entries of its hash tables that are reclaimed, the callback after a
      write, a timer entry that is added twice, and the moment between reading the block of
      a slice and locking it, in which the slice may move to another block. *)
From Stdlib Require Export ZArith Lia.
From Stdlib Require Export Sorting.Sorted Sorting.Permutation.
From stdpp Require Export base gmap numbers list.
From stdpp Require sorting.
Export list_basics.list list_relations.list list_monad.list list_misc.list.
#[export] Set Default Goal Selector "!".

Open Scope Z_scope.

(** ** errno values (Linux numbering, [errno.h]) *)
Definition ENOENT : Z := 2.
Definition EINTR : Z := 4.
Definition EAGAIN : Z := 11.
Definition ENOMEM : Z := 12.
Definition EBUSY : Z := 16.
Definition EEXIST : Z := 17.
Definition EINVAL : Z := 22.
Definition ENOSPC : Z := 28.
Definition EOVERFLOW : Z := 75.
Definition ETIMEDOUT : Z := 110.

(** ** Machine integers

    Values are kept in [Z]; the helpers below state the range of the C type
    or wrap a value around at its width. *)
Definition in_int32 (x : Z) : Prop := - 2 ^ 31 <= x < 2 ^ 31.
Definition in_int64 (x : Z) : Prop := - 2 ^ 63 <= x < 2 ^ 63.
Definition u32 (x : Z) : Z := x mod 2 ^ 32.
Definition u64 (x : Z) : Z := x mod 2 ^ 64.

(** Conversion to [int]: the low 32 bits, read as two's complement. *)
Definition cast32 (x : Z) : Z := (x + 2 ^ 31) mod 2 ^ 32 - 2 ^ 31.

Lemma cast32_id x : in_int32 x → cast32 x = x.
Proof. unfold in_int32, cast32. intros. rewrite Z.mod_small; lia. Qed.
Lemma cast32_range x : in_int32 (cast32 x).
Proof.
  unfold in_int32, cast32. pose proof (Z.mod_pos_bound (x + 2 ^ 31) (2 ^ 32)). lia.
Qed.

(** [fc_compare_int64] of fastcommon: the three-way comparison of two
    64-bit integers. *)
Definition cmp3 (a b : Z) : Z := if a <? b then -1 else if b <? a then 1 else 0.

Lemma cmp3_zero a b : cmp3 a b = 0 ↔ a = b.
Proof. unfold cmp3. destruct (Z.ltb_spec a b), (Z.ltb_spec b a); lia. Qed.
Lemma cmp3_neg a b : cmp3 a b < 0 ↔ a < b.
Proof. unfold cmp3. destruct (Z.ltb_spec a b), (Z.ltb_spec b a); lia. Qed.
Lemma cmp3_pos a b : 0 < cmp3 a b ↔ b < a.
Proof. unfold cmp3. destruct (Z.ltb_spec a b), (Z.ltb_spec b a); lia. Qed.

(** ** Error-and-state monad

    A C function that returns an [errno] and changes some state is a function
    of the state to either an error code or a value, together with the state
    it leaves behind: a state changed before the error stays changed, as in
    the source. *)
Definition M (S A : Type) : Type := S → (Z + A) * S.

#[export] Instance M_ret S : MRet (M S) := λ A a s, (inr a, s).
#[export] Instance M_bind S : MBind (M S) := λ A B k m s,
  match m s with
  | (inl e, s') => (inl e, s')
  | (inr a, s') => k a s'
  end.

Section Monad.
Context {S : Type}.
Definition mfail {A} (e : Z) : M S A := λ s, (inl e, s).
Definition mget : M S S := λ s, (inr s, s).
Definition mput (s : S) : M S unit := λ _, (inr tt, s).
Definition mmodify (f : S → S) : M S unit := λ s, (inr tt, f s).

(** [errno r] is [if (r != 0) return r;]. *)
Definition errno (r : Z) : M S unit := if r =? 0 then mret tt else mfail r.

Lemma bind_inr {A B} (m : M S A) (k : A → M S B) s b s' :
  (m ≫= k) s = (inr b, s') ↔
  ∃ a s1, m s = (inr a, s1) ∧ k a s1 = (inr b, s').
Proof.
  unfold mbind, M_bind. destruct (m s) as [[e|a] s1]; split.
  - done.
  - by intros (a & s2 & ? & ?).
  - eauto.
  - by intros (a' & s2 & [= -> ->] & ?).
Qed.

Lemma bind_inl {A B} (m : M S A) (k : A → M S B) s e s' :
  (m ≫= k) s = (inl e, s') ↔
  m s = (inl e, s') ∨ ∃ a s1, m s = (inr a, s1) ∧ k a s1 = (inl e, s').
Proof.
  unfold mbind, M_bind. destruct (m s) as [[e0|a] s1]; split.
  - intros [= -> ->]. by left.
  - intros [[= -> ->]|(a & s2 & ? & ?)]; done.
  - intros H. right. eauto.
  - intros [?|(a' & s2 & [= -> ->] & ?)]; done.
Qed.
End Monad.

(** The [errno] view of a monadic result: 0 on success. *)
Definition code {A} (r : Z + A) : Z := match r with inl e => e | inr _ => 0 end.

(** ** Automation *)

(** Turn boolean comparisons of [Z] into propositions. *)
Ltac zbool :=
  repeat match goal with
  | H : (_ <? _) = true |- _ => apply Z.ltb_lt in H
  | H : (_ <? _) = false |- _ => apply Z.ltb_ge in H
  | H : (_ <=? _) = true |- _ => apply Z.leb_le in H
  | H : (_ <=? _) = false |- _ => apply Z.leb_gt in H
  | H : (_ =? _) = true |- _ => apply Z.eqb_eq in H
  | H : (_ =? _) = false |- _ => apply Z.eqb_neq in H
  | H : (_ && _)%bool = true |- _ => apply andb_true_iff in H as [? ?]
  | H : (_ || _)%bool = false |- _ => apply orb_false_iff in H as [? ?]
  | H : negb _ = true |- _ => apply negb_true_iff in H
  | H : negb _ = false |- _ => apply negb_false_iff in H
  end.

(** Case split on the [if]s over [Z] comparisons of the goal. *)
Ltac zcase :=
  repeat match goal with
  | |- context [?a <? ?b] => destruct (Z.ltb_spec a b)
  | |- context [?a <=? ?b] => destruct (Z.leb_spec a b)
  | |- context [?a =? ?b] => destruct (Z.eqb_spec a b)
  end.

(** Split a successful or failed monadic run into the runs of its parts. *)
Ltac minv :=
  repeat match goal with
  | H : (_ ≫= _) _ = (inr _, _) |- _ => apply bind_inr in H as (? & ? & ? & ?)
  | H : mret _ _ = (_, _) |- _ => unfold mret, M_ret in H; simplify_eq
  | H : mfail _ _ = (inr _, _) |- _ => discriminate H
  | H : mget _ = (_, _) |- _ => unfold mget in H; simplify_eq
  | H : mput _ _ = (_, _) |- _ => unfold mput in H; simplify_eq
  | H : mmodify _ _ = (_, _) |- _ => unfold mmodify in H; simplify_eq
  end.

(** ** Filtering *)
Section Filter.
Context {A : Type} (P Q : A → Prop) `{∀ x, Decision (P x), ∀ x, Decision (Q x)}.
Lemma filter_ext_in (l : list A) : (∀ x, x ∈ l → P x ↔ Q x) → filter P l = filter Q l.
Proof.
  induction l as [|x l IH]; intros Hl; [done|]. rewrite !filter_cons.
  assert (P x ↔ Q x) as Hx by (apply Hl; by left).
  rewrite IH by (intros y Hy; apply Hl; by right).
  do 2 case_decide; tauto.
Qed.
Lemma filter_true_in (l : list A) : (∀ x, x ∈ l → P x) → filter P l = l.
Proof.
  induction l as [|x l IH]; intros Hl; [done|].
  rewrite filter_cons_True by (apply Hl; by left).
  f_equal. apply IH. intros y Hy. apply Hl. by right.
Qed.
Lemma filter_nil_iff (l : list A) : filter P l = [] ↔ ∀ x, x ∈ l → ¬ P x.
Proof.
  split.
  - intros Hn x Hx Hp. assert (Hin : x ∈ filter P l) by (by apply list_elem_of_filter).
    rewrite Hn in Hin. by apply elem_of_nil in Hin.
  - intros Hn. destruct (filter P l) as [|x k] eqn:E; [done|]. exfalso.
    assert (Hin : x ∈ filter P l) by (rewrite E; by left).
    apply list_elem_of_filter in Hin as [? ?]. by apply (Hn x).
Qed.
End Filter.

(** ** Sums over lists *)
Definition sumZ {A} (f : A → Z) (l : list A) : Z := foldr (λ x n, f x + n) 0 l.

Section Sum.
Context {A : Type} (f : A → Z).
Implicit Types (l k : list A).

Lemma sumZ_nil : sumZ f [] = 0.
Proof. done. Qed.
Lemma sumZ_cons x l : sumZ f (x :: l) = f x + sumZ f l.
Proof. done. Qed.
Lemma sumZ_app l k : sumZ f (l ++ k) = sumZ f l + sumZ f k.
Proof. induction l; simpl; rewrite ?sumZ_cons; lia. Qed.
Lemma sumZ_perm l k : l ≡ₚ k → sumZ f l = sumZ f k.
Proof. induction 1; rewrite ?sumZ_cons; lia. Qed.
Lemma sumZ_nonneg l : (∀ x, x ∈ l → 0 <= f x) → 0 <= sumZ f l.
Proof.
  induction l as [|x l IH]; intros H; [done|].
  rewrite sumZ_cons. specialize (H x) as Hx.
  assert (0 <= sumZ f l) by (apply IH; intros y Hy; apply H; by right).
  specialize (Hx (list_elem_of_here _ _)). lia.
Qed.
Lemma sumZ_filter_split (P : A → Prop) `{∀ x, Decision (P x)} l :
  sumZ f l = sumZ f (filter P l) + sumZ f (filter (λ x, ¬ P x) l).
Proof.
  induction l as [|x l IH]; [done|]. rewrite sumZ_cons.
  destruct (decide (P x)).
  - rewrite filter_cons_True, filter_cons_False by naive_solver.
    rewrite sumZ_cons. lia.
  - rewrite filter_cons_False, filter_cons_True by naive_solver.
    rewrite sumZ_cons. lia.
Qed.
End Sum.

Lemma sumZ_ext {A} (f g : A → Z) l :
  (∀ x, x ∈ l → f x = g x) → sumZ f l = sumZ g l.
Proof.
  induction l as [|x l IH]; intros H; [done|].
  rewrite !sumZ_cons, IH by (intros y Hy; apply H; by right).
  by rewrite (H x) by left.
Qed.

(** ** Sorted lists *)
Lemma sorted_app_in {A} (R : A → A → Prop) l1 l2 x y :
  StronglySorted R (l1 ++ l2) → x ∈ l1 → y ∈ l2 → R x y.
Proof.
  induction l1 as [|a l1 IH]; simpl; intros H Hx Hy; [by apply elem_of_nil in Hx|].
  inversion H as [|? ? H1 H2]; subst. apply elem_of_cons in Hx as [->|Hx]; [|by apply IH].
  rewrite Forall_forall in H2. apply H2. apply elem_of_app. by right.
Qed.
Lemma sorted_app_r {A} (R : A → A → Prop) l1 l2 : StronglySorted R (l1 ++ l2) → StronglySorted R l2.
Proof. induction l1 as [|a l1 IH]; simpl; intros H; [done|]. inversion H; auto. Qed.

Lemma sorted_tail {A} (R : A → A → Prop) x l : StronglySorted R (x :: l) → StronglySorted R l.
Proof. by inversion 1. Qed.
Lemma sorted_filter {A} (R : A → A → Prop) (P : A → Prop) `{∀ x, Decision (P x)} l :
  StronglySorted R l → StronglySorted R (filter P l).
Proof.
  induction 1 as [|x l Hs IH Hx]; [constructor|]. rewrite filter_cons. case_decide; [|done].
  constructor; [done|]. rewrite Forall_forall in *. intros y [_ Hy]%list_elem_of_filter. by apply Hx.
Qed.
Lemma sorted_del {A} (R : A → A → Prop) l1 x l2 : StronglySorted R (l1 ++ x :: l2) → StronglySorted R (l1 ++ l2).
Proof.
  induction l1 as [|a l1 IH]; simpl; intros H; inversion H as [|? ? H1 H2]; subst; [done|].
  constructor; [by apply IH|]. rewrite Forall_app, Forall_cons in H2. apply Forall_app. tauto.
Qed.

Lemma exists_last_or_nil {A} (l : list A) : l = [] ∨ ∃ k x, l = k ++ [x].
Proof. destruct l as [|x l _] using rev_ind; [by left|right; by exists l, x]. Qed.

Lemma sorted_lookup {A} (R : A → A → Prop) l i j x y :
  StronglySorted R l → l !! i = Some x → l !! j = Some y → (i < j)%nat → R x y.
Proof.
  intros Hs Hx Hy Hij. rewrite <- (take_drop_middle l i x Hx) in Hs.
  eapply (sorted_app_in R (take i l ++ [x]) (drop (S i) l)).
  - by rewrite <- app_assoc.
  - apply elem_of_app. right. by left.
  - apply list_elem_of_lookup. exists (j - S i)%nat. rewrite lookup_drop. by replace (S i + (j - S i))%nat with j by lia.
Qed.

Create HintDb fstore discriminated.
Create Rewrite HintDb fstore.
#[export] Hint Rewrite @sumZ_nil @sumZ_cons @sumZ_app : fstore.

(** ** The C library *)

(** [qsort] of the C library: the elements in some order that the comparison allows. *)
Class Qsort := {
  qsort : ∀ {A}, (A → A → Z) → list A → list A;
  qsort_permutation : ∀ {A} (cmp : A → A → Z) l, qsort cmp l ≡ₚ l;
  qsort_sorted : ∀ {A} (cmp : A → A → Z) l,
    (∀ x y, cmp x y <= 0 ∨ cmp y x <= 0) →
    (∀ x y z, cmp x y <= 0 → cmp y z <= 0 → cmp x z <= 0) →
    StronglySorted (λ x y, cmp x y <= 0) (qsort cmp l);
}.
(** A merge sort, for concrete runs. *)
#[local] Instance cmp_decision {A} (cmp : A → A → Z) x y : Decision (cmp x y <= 0) := decide _.
Definition merge_qsort : Qsort.
Proof.
  refine {| qsort A cmp l := sorting.merge_sort (λ x y, cmp x y <= 0) l |}.
  - intros A cmp l. apply sorting.merge_sort_Permutation.
  - intros A cmp l Ht Htr. apply sorting.StronglySorted_merge_sort; [exact Htr|exact Ht].
Defined.
