(* ===== verification/Types.v ===== *)
(** * Types shared by the server components

    The data of [src/common/fs_types.h] and
    [src/server/storage/storage_types.h]: block keys, slice extents, trunk
    spaces and slice entries, with the helpers the headers define on them. *)
From S2P Require Import Prelude.

(** [FS_FILE_BLOCK_SIZE]: a file block is 4 MB. *)
Definition FS_FILE_BLOCK_SIZE : Z := 4 * 1024 * 1024.

(** [FS_FILE_BLOCK_ALIGN(offset)]: the block boundary at or below [offset]. *)
Definition FS_FILE_BLOCK_ALIGN (offset : Z) : Z :=
  Z.land offset (Z.lnot (FS_FILE_BLOCK_SIZE - 1)).

(** [fs_block_key]. *)
Record FSBlockKey := mkBlockKey {
  bk_oid : Z;
  bk_offset : Z;
  bk_hash_code : Z;
}.

(** [fs_slice_size]. *)
Record FSSliceSize := mkSliceSize {
  ss_offset : Z;
  ss_length : Z;
}.

(** [fs_block_slice_key_info]. *)
Record FSBlockSliceKeyInfo := mkBlockSliceKey {
  bs_block : FSBlockKey;
  bs_slice : FSSliceSize;
}.

(** [FSTrunkIdInfo]. *)
Record FSTrunkIdInfo := mkTrunkId {
  ti_id : Z;
  ti_subdir : Z;
}.

(** [FSTrunkSpaceInfo]; the [store] pointer is represented by the index of
    the store path it points to. *)
Record FSTrunkSpaceInfo := mkTrunkSpace {
  sp_store : Z;
  sp_id_info : FSTrunkIdInfo;
  sp_offset : Z;
  sp_size : Z;
}.

(** [FSTrunkSpaceWithVersion]. *)
Record FSTrunkSpaceWithVersion := mkSpaceVersion {
  sv_space : FSTrunkSpaceInfo;
  sv_version : Z;
}.

(** [OBSliceType]: ['F'] in file, ['A'] allocated space only. *)
Inductive OBSliceType := OB_SLICE_TYPE_FILE | OB_SLICE_TYPE_ALLOC.

(** [OBSliceEntry]. [se_id] is the identity (the address) of the entry: its
    reference count, which changes while the entry is shared, is kept in a
    store indexed by it; the other fields are fixed once the entry is
    published. [se_ob] is the address of the block entry [ob]. *)
Record OBSliceEntry := mkSlice {
  se_id : Z;
  se_ob : Z;
  se_type : OBSliceType;
  se_ssize : FSSliceSize;
  se_space : FSTrunkSpaceInfo;
}.

#[export] Instance FSBlockKey_eq_dec : EqDecision FSBlockKey.
Proof. solve_decision. Defined.
#[export] Instance FSSliceSize_eq_dec : EqDecision FSSliceSize.
Proof. solve_decision. Defined.
#[export] Instance FSTrunkIdInfo_eq_dec : EqDecision FSTrunkIdInfo.
Proof. solve_decision. Defined.
#[export] Instance FSTrunkSpaceInfo_eq_dec : EqDecision FSTrunkSpaceInfo.
Proof. solve_decision. Defined.
#[export] Instance OBSliceType_eq_dec : EqDecision OBSliceType.
Proof. solve_decision. Defined.
#[export] Instance OBSliceEntry_eq_dec : EqDecision OBSliceEntry.
Proof. solve_decision. Defined.

(** Abbreviations for [slice->ssize.offset], [slice->ssize.length] and their
    sum. *)
Definition soff (s : OBSliceEntry) : Z := ss_offset (se_ssize s).
Definition slen (s : OBSliceEntry) : Z := ss_length (se_ssize s).
Definition send (s : OBSliceEntry) : Z := soff s + slen s.

(** [ob_index_compare_block_key]: by object id, then by block offset. *)
Definition ob_index_compare_block_key (k1 k2 : FSBlockKey) : Z :=
  let sub := cmp3 (bk_oid k1) (bk_oid k2) in
  if negb (sub =? 0) then sub else cmp3 (bk_offset k1) (bk_offset k2).

(** [FS_BLOCK_KEY_EQUAL]. *)
Definition FS_BLOCK_KEY_EQUAL (k1 k2 : FSBlockKey) : bool :=
  (bk_oid k1 =? bk_oid k2) && (bk_offset k1 =? bk_offset k2).

(** The order [ob_index_compare_block_key] decides. *)
Definition bkey_lt (k1 k2 : FSBlockKey) : Prop :=
  bk_oid k1 < bk_oid k2 ∨ (bk_oid k1 = bk_oid k2 ∧ bk_offset k1 < bk_offset k2).

Lemma compare_block_key_neg k1 k2 :
  ob_index_compare_block_key k1 k2 < 0 ↔ bkey_lt k1 k2.
Proof.
  unfold ob_index_compare_block_key, bkey_lt, cmp3.
  zcase; simpl; lia.
Qed.
Lemma compare_block_key_zero k1 k2 :
  ob_index_compare_block_key k1 k2 = 0 ↔ FS_BLOCK_KEY_EQUAL k1 k2 = true.
Proof.
  unfold ob_index_compare_block_key, FS_BLOCK_KEY_EQUAL, cmp3.
  zcase; simpl; lia.
Qed.
Lemma compare_block_key_antisym k1 k2 :
  ob_index_compare_block_key k1 k2 = - ob_index_compare_block_key k2 k1.
Proof. unfold ob_index_compare_block_key, cmp3. zcase; simpl; lia. Qed.
Lemma bkey_lt_trans k1 k2 k3 : bkey_lt k1 k2 → bkey_lt k2 k3 → bkey_lt k1 k3.
Proof. unfold bkey_lt. lia. Qed.

(** The aligned offset is the largest multiple of the block size that does
    not exceed the offset. *)
Lemma FS_FILE_BLOCK_ALIGN_eq offset :
  FS_FILE_BLOCK_ALIGN offset = offset - offset mod FS_FILE_BLOCK_SIZE.
Proof.
  unfold FS_FILE_BLOCK_ALIGN.
  change (FS_FILE_BLOCK_SIZE - 1) with (Z.ones 22).
  change FS_FILE_BLOCK_SIZE with (2 ^ 22).
  rewrite <- Z.ldiff_land, Z.ldiff_ones_r, Z.shiftl_mul_pow2, Z.shiftr_div_pow2 by lia.
  rewrite Z.mul_comm.
  pose proof (Z.div_mod offset (2 ^ 22)). lia.
Qed.

(** [fs_calc_block_hashcode]: 64-bit unsigned arithmetic on signed operands. *)
Definition fs_calc_block_hashcode (oid offset : Z) : FSBlockKey :=
  mkBlockKey oid offset (u64 (oid + offset + Z.quot offset FS_FILE_BLOCK_SIZE)).

(** [fs_slice_is_overlap]. *)
Definition fs_slice_is_overlap (s1 s2 : FSSliceSize) : bool :=
  if ss_offset s1 <? ss_offset s2
  then ss_offset s2 <? ss_offset s1 + ss_length s1
  else ss_offset s1 <? ss_offset s2 + ss_length s2.

(** Keys made by [fs_calc_block_hashcode]: the hash code is determined by the object
    and the offset, so the comparison of two of them decides their equality. *)
Definition key_ok (k : FSBlockKey) : Prop :=
  k = fs_calc_block_hashcode (bk_oid k) (bk_offset k).
Lemma key_ok_eq k1 k2 : key_ok k1 → key_ok k2 → ob_index_compare_block_key k1 k2 = 0 → k1 = k2.
Proof.
  unfold key_ok. intros -> ->. rewrite compare_block_key_zero. unfold FS_BLOCK_KEY_EQUAL. simpl.
  intros [->%Z.eqb_eq ->%Z.eqb_eq]%andb_prop. done.
Qed.
Lemma bkey_lt_irrefl k : ¬ bkey_lt k k.
Proof. unfold bkey_lt. lia. Qed.
Lemma compare_block_key_refl k : ob_index_compare_block_key k k = 0.
Proof. unfold ob_index_compare_block_key, cmp3. by rewrite !Z.ltb_irrefl. Qed.
