(* ===== verification/Skiplist.v ===== *)
(** * The [uniq_skiplist] interface

    The ordered containers of the server are [uniq_skiplist]s of libfastcommon,
    a library outside the repository. The class below states the operations the
    server calls and the behaviour they are documented to have: a list ordered
    by the comparison function given at initialisation, holding at most one of
    the elements that compare equal. A node of the list is its position on level
    0 (the header [top] is the position before the first one). The instance
    [list_skiplist] realises the interface by a sorted list, so that every
    definition that uses it can be executed. *)
From S2P Require Import Prelude.

(** A [skiplist_compare_func] that is a strict order on keys. *)
Class SkiplistOrder {E : Type} (cmp : E → E → Z) : Prop := {
  cmp_antisym : ∀ x y, cmp x y = - cmp y x;
  cmp_trans : ∀ x y z, cmp x y < 0 → cmp y z < 0 → cmp x z < 0;
  cmp_eq_l : ∀ x y z, cmp x y = 0 → cmp x z = cmp y z;
}.

Section Order.
Context {E : Type} (cmp : E → E → Z) `{!SkiplistOrder cmp}.

Definition cmp_lt (x y : E) : Prop := cmp x y < 0.

Lemma cmp_refl x : cmp x x = 0.
Proof using SkiplistOrder0. pose proof (cmp_antisym (cmp := cmp) x x). lia. Qed.
Lemma cmp_lt_trans x y z : cmp_lt x y → cmp_lt y z → cmp_lt x z.
Proof using SkiplistOrder0. apply (cmp_trans (cmp := cmp)). Qed.
Lemma cmp_eq_r x y z : cmp x y = 0 → cmp z x = cmp z y.
Proof using SkiplistOrder0.
  intros H. rewrite (cmp_antisym z x), (cmp_antisym z y).
  by rewrite (cmp_eq_l x y z).
Qed.

(** A sorted list holds one element of each key. *)
Lemma sorted_unique l x y :
  StronglySorted cmp_lt l → x ∈ l → y ∈ l → cmp x y = 0 → x = y.
Proof using SkiplistOrder0.
  induction 1 as [|z l Hl IH Hz]; intros Hx Hy He; [by apply elem_of_nil in Hx|].
  rewrite Forall_forall in Hz. unfold cmp_lt in Hz.
  apply elem_of_cons in Hx as [->|Hx]; apply elem_of_cons in Hy as [->|Hy]; [done|..].
  - specialize (Hz _ Hy). lia.
  - specialize (Hz _ Hx). rewrite (cmp_antisym (cmp := cmp)) in Hz. lia.
  - by apply IH.
Qed.

(** Two sorted lists with the same elements are equal. *)
Lemma sorted_perm_eq l k :
  StronglySorted cmp_lt l → StronglySorted cmp_lt k → l ≡ₚ k → l = k.
Proof using SkiplistOrder0.
  intros Hl. revert k. induction Hl as [|x l Hl IH Hx]; intros k Hk Hp.
  { by apply Permutation_nil in Hp as ->. }
  destruct Hk as [|y k Hk Hy].
  { by apply Permutation_sym, Permutation_nil in Hp. }
  rewrite Forall_forall in Hx, Hy.
  assert (x = y) as <-.
  { assert (x ∈ y :: k) as Hxk by (rewrite <- Hp; by left).
    assert (y ∈ x :: l) as Hyl by (rewrite Hp; by left).
    apply elem_of_cons in Hxk as [->|Hxk]; [done|].
    apply elem_of_cons in Hyl as [->|Hyl]; [done|].
    apply Hy in Hxk. apply Hx in Hyl.
    pose proof (cmp_antisym (cmp := cmp) x y). unfold cmp_lt in *. lia. }
  f_equal. apply IH; [done|]. by apply Permutation_cons_inv in Hp.
Qed.
End Order.

(** The operations of [fastcommon/uniq_skiplist.h] the server uses. *)
Class UniqSkiplist (E T : Type) := {
  uniq_skiplist_new : T;
  (** the elements on level 0, from the header to the tail *)
  sl_level0 : T → list E;
  uniq_skiplist_insert : T → E → Z * T;
  uniq_skiplist_delete : T → E → Z * T;
  uniq_skiplist_find : T → E → option E;
  uniq_skiplist_find_ge_node : T → E → option nat;
}.

(** What they promise. *)
Class UniqSkiplistSpec {E T : Type} (cmp : E → E → Z) `{!UniqSkiplist E T} : Prop := {
  sl_new_level0 : sl_level0 uniq_skiplist_new = [];
  sl_insert_exists : ∀ (s : T) e, StronglySorted (cmp_lt cmp) (sl_level0 s) →
    (∃ x, x ∈ sl_level0 s ∧ cmp x e = 0) →
    uniq_skiplist_insert s e = (EEXIST, s);
  sl_insert_new : ∀ (s : T) e, StronglySorted (cmp_lt cmp) (sl_level0 s) →
    (∀ x, x ∈ sl_level0 s → cmp x e ≠ 0) →
    (uniq_skiplist_insert s e).1 = 0 ∧
    sl_level0 (uniq_skiplist_insert s e).2 ≡ₚ e :: sl_level0 s ∧
    StronglySorted (cmp_lt cmp) (sl_level0 (uniq_skiplist_insert s e).2);
  sl_delete_found : ∀ (s : T) e, StronglySorted (cmp_lt cmp) (sl_level0 s) →
    (∃ x, x ∈ sl_level0 s ∧ cmp x e = 0) →
    (uniq_skiplist_delete s e).1 = 0 ∧
    sl_level0 (uniq_skiplist_delete s e).2 = filter (λ x, cmp x e ≠ 0) (sl_level0 s);
  sl_delete_missing : ∀ (s : T) e, StronglySorted (cmp_lt cmp) (sl_level0 s) →
    (∀ x, x ∈ sl_level0 s → cmp x e ≠ 0) →
    uniq_skiplist_delete s e = (ENOENT, s);
  sl_find_spec : ∀ (s : T) e x, StronglySorted (cmp_lt cmp) (sl_level0 s) →
    uniq_skiplist_find s e = Some x ↔ x ∈ sl_level0 s ∧ cmp x e = 0;
  sl_find_ge_some : ∀ (s : T) e i, StronglySorted (cmp_lt cmp) (sl_level0 s) →
    uniq_skiplist_find_ge_node s e = Some i →
    (i < length (sl_level0 s))%nat ∧
    (∀ x, x ∈ take i (sl_level0 s) → cmp x e < 0) ∧
    (∀ x, x ∈ drop i (sl_level0 s) → 0 <= cmp x e);
  sl_find_ge_none : ∀ (s : T) e, StronglySorted (cmp_lt cmp) (sl_level0 s) →
    uniq_skiplist_find_ge_node s e = None →
    ∀ x, x ∈ sl_level0 s → cmp x e < 0;
}.

(** ** Node macros

    [UNIQ_SKIPLIST_LEVEL0_TAIL_NODE] and [UNIQ_SKIPLIST_LEVEL0_PREV_NODE]:
    the position before a node; [None] is the header [top]. *)
Section Nodes.
Context {E T : Type} `{!UniqSkiplist E T}.

Definition level0_tail_node (s : T) : option nat :=
  match length (sl_level0 s) with O => None | S n => Some n end.
Definition level0_prev_node (i : nat) : option nat :=
  match i with O => None | S n => Some n end.
Definition node_data (s : T) (i : nat) : option E := sl_level0 s !! i.
(** the nodes from [i] on, in the order [LEVEL0_NEXT_NODE] visits them *)
Definition nodes_from (s : T) (i : nat) : list E := drop i (sl_level0 s).
Definition uniq_skiplist_empty (s : T) : bool :=
  match sl_level0 s with [] => true | _ => false end.

(** The element of the node before [node] ([None] as [node] stands for the
    end of the list), and the elements from [node] on. *)
Definition prev_data (s : T) (node : option nat) : option E :=
  match (match node with
         | None => level0_tail_node s
         | Some i => level0_prev_node i
         end) with
  | None => None
  | Some j => node_data s j
  end.
Definition nodes_of (s : T) (node : option nat) : list E :=
  match node with None => [] | Some i => nodes_from s i end.

Lemma prev_nodes_split (s : T) (node : option nat) :
  (∀ i, node = Some i → (i < length (sl_level0 s))%nat) →
  ∃ pre, sl_level0 s =
    pre ++ option_list (prev_data s node) ++ nodes_of s node ∧
    pre ++ option_list (prev_data s node) =
      match node with None => sl_level0 s | Some i => take i (sl_level0 s) end ∧
    (prev_data s node = None → pre = []).
Proof.
  intros Hi. unfold prev_data, nodes_of, level0_tail_node, level0_prev_node,
    nodes_from, node_data.
  destruct node as [[|j]|].
  - exists []. done.
  - specialize (Hi _ eq_refl).
    destruct (sl_level0 s !! j) as [x|] eqn:Hj.
    2:{ apply lookup_ge_None in Hj. lia. }
    exists (take j (sl_level0 s)). simpl. split_and!; [|by rewrite (take_S_r _ _ _ Hj)|done].
    symmetry. by apply take_drop_middle.
  - destruct (length (sl_level0 s)) as [|n] eqn:Hl.
    + exists []. simpl. apply nil_length_inv in Hl. done.
    + destruct (sl_level0 s !! n) as [x|] eqn:Hn.
      2:{ apply lookup_ge_None in Hn. lia. }
      exists (take n (sl_level0 s)). simpl.
      rewrite <- (take_S_r _ _ _ Hn), take_ge by lia. done.
Qed.
End Nodes.

(** The list around the node [uniq_skiplist_find_ge_node] returns. *)
Lemma find_ge_split {E T : Type} (cmp : E → E → Z) `{!UniqSkiplist E T}
    `{!UniqSkiplistSpec cmp} (s : T) (e : E) :
  StronglySorted (cmp_lt cmp) (sl_level0 s) →
  let node := uniq_skiplist_find_ge_node s e in
  ∃ pre, sl_level0 s = pre ++ option_list (prev_data s node) ++ nodes_of s node ∧
    (∀ x, x ∈ pre ++ option_list (prev_data s node) → cmp x e < 0) ∧
    (∀ x, x ∈ nodes_of s node → 0 <= cmp x e) ∧
    (prev_data s node = None → pre = []).
Proof.
  intros Hs node. subst node.
  destruct (prev_nodes_split s (uniq_skiplist_find_ge_node s e)) as (pre & H1 & H2 & H3).
  { intros i Hi. by destruct (sl_find_ge_some (cmp := cmp) s e i Hs Hi). }
  exists pre. split_and!; [done| | |done].
  - rewrite H2. destruct (uniq_skiplist_find_ge_node s e) as [i|] eqn:Hi.
    + by destruct (sl_find_ge_some (cmp := cmp) s e i Hs Hi) as (_ & ? & _).
    + by apply (sl_find_ge_none (cmp := cmp)).
  - unfold nodes_of, nodes_from.
    destruct (uniq_skiplist_find_ge_node s e) as [i|] eqn:Hi.
    + by destruct (sl_find_ge_some (cmp := cmp) s e i Hs Hi) as (_ & _ & ?).
    + by intros x ?%elem_of_nil.
Qed.

(** ** A sorted list realises the interface *)
Section ListSkiplist.
Context {E : Type} (cmp : E → E → Z) `{!SkiplistOrder cmp}.

Fixpoint ins (e : E) (l : list E) : Z * list E :=
  match l with
  | [] => (0, [e])
  | x :: l' =>
      if cmp x e =? 0 then (EEXIST, l)
      else if cmp x e <? 0 then let '(r, k) := ins e l' in (r, x :: k)
      else (0, e :: l)
  end.
Fixpoint del (e : E) (l : list E) : Z * list E :=
  match l with
  | [] => (ENOENT, [])
  | x :: l' =>
      if cmp x e =? 0 then (0, l')
      else let '(r, k) := del e l' in (r, x :: k)
  end.
Fixpoint find_eq (e : E) (l : list E) : option E :=
  match l with
  | [] => None
  | x :: l' => if cmp x e =? 0 then Some x else find_eq e l'
  end.
Fixpoint find_ge (e : E) (l : list E) : option nat :=
  match l with
  | [] => None
  | x :: l' => if cmp x e <? 0 then S <$> find_ge e l' else Some O
  end.

Definition list_skiplist : UniqSkiplist E (list E) := {|
  uniq_skiplist_new := [];
  sl_level0 := λ l, l;
  uniq_skiplist_insert := λ l e, ins e l;
  uniq_skiplist_delete := λ l e, del e l;
  uniq_skiplist_find := λ l e, find_eq e l;
  uniq_skiplist_find_ge_node := λ l e, find_ge e l;
|}.

Lemma ins_exists e l x :
  StronglySorted (cmp_lt cmp) l → x ∈ l → cmp x e = 0 → ins e l = (EEXIST, l).
Proof using SkiplistOrder0.
  induction 1 as [|y l Hl IH Hy]; intros Hx He; [by apply elem_of_nil in Hx|]. simpl.
  destruct (Z.eqb_spec (cmp y e) 0); [done|].
  apply elem_of_cons in Hx as [->|Hx]; [done|].
  rewrite Forall_forall in Hy. specialize (Hy _ Hx). unfold cmp_lt in Hy.
  rewrite (cmp_eq_r cmp x e y He) in Hy. apply Z.ltb_lt in Hy. by rewrite Hy, IH.
Qed.

Lemma ins_new e l :
  StronglySorted (cmp_lt cmp) l → (∀ x, x ∈ l → cmp x e ≠ 0) →
  (ins e l).1 = 0 ∧ (ins e l).2 ≡ₚ e :: l ∧ StronglySorted (cmp_lt cmp) (ins e l).2.
Proof using SkiplistOrder0.
  induction 1 as [|y l Hl IH Hy]; intros He; simpl.
  { repeat constructor. }
  destruct (Z.eqb_spec (cmp y e) 0) as [H0|H0].
  { exfalso. apply (He y); [by left|done]. }
  destruct (Z.ltb_spec (cmp y e) 0) as [H1|H1].
  - destruct IH as (IH1 & IH2 & IH3). { intros x Hx. apply He. by right. }
    destruct (ins e l) as [r k]. simpl in *. split_and!; [done| |].
    + rewrite IH2. apply Permutation_swap.
    + constructor; [done|]. rewrite IH2. constructor; [done|done].
  - split_and!; [done|done|]. constructor; [by constructor|].
    assert (cmp_lt cmp e y) as Hey.
    { unfold cmp_lt. rewrite (cmp_antisym (cmp := cmp)). lia. }
    constructor; [done|]. eapply Forall_impl; [exact Hy|].
    intros z Hz. by apply (cmp_lt_trans cmp e y z).
Qed.

Lemma del_found e l x :
  StronglySorted (cmp_lt cmp) l → x ∈ l → cmp x e = 0 →
  (del e l).1 = 0 ∧ (del e l).2 = filter (λ y, cmp y e ≠ 0) l.
Proof using SkiplistOrder0.
  induction 1 as [|y l Hl IH Hy]; intros Hx He; [by apply elem_of_nil in Hx|]. simpl.
  destruct (Z.eqb_spec (cmp y e) 0) as [H0|H0].
  - rewrite filter_cons_False by (intros H; by apply H). split; [done|].
    rewrite Forall_forall in Hy. simpl. clear IH Hl Hx.
    induction l as [|z l IH']; [done|].
    rewrite filter_cons_True; [f_equal; apply IH'; intros w Hw; apply Hy; by right|].
    assert (cmp_lt cmp y z) as Hz by (apply Hy; by left). unfold cmp_lt in Hz.
    rewrite (cmp_eq_l y e z H0), (cmp_antisym (cmp := cmp)) in Hz. lia.
  - apply elem_of_cons in Hx as [->|Hx]; [done|].
    rewrite filter_cons_True by done. destruct (IH Hx He) as [IH1 IH2].
    destruct (del e l) as [r k]. simpl in *. by subst.
Qed.

Lemma del_missing e l :
  (∀ x, x ∈ l → cmp x e ≠ 0) → del e l = (ENOENT, l).
Proof using.
  induction l as [|y l IH]; intros He; [done|]. simpl.
  destruct (Z.eqb_spec (cmp y e) 0) as [H0|H0].
  { exfalso. apply (He y); [by left|done]. }
  rewrite IH; [done|]. intros x Hx. apply He. by right.
Qed.

Lemma find_eq_spec e l x :
  StronglySorted (cmp_lt cmp) l → find_eq e l = Some x ↔ x ∈ l ∧ cmp x e = 0.
Proof using SkiplistOrder0.
  induction 1 as [|y l Hl IH Hy]; simpl.
  { split; [done|]. intros [H _]. by apply elem_of_nil in H. }
  destruct (Z.eqb_spec (cmp y e) 0) as [H0|H0].
  - split; [intros [= ->]; split; [by left|done]|].
    intros [Hx He]. apply elem_of_cons in Hx as [->|Hx]; [done|].
    rewrite Forall_forall in Hy. specialize (Hy _ Hx). unfold cmp_lt in Hy.
    rewrite (cmp_eq_r cmp x e y He) in Hy. lia.
  - rewrite IH. split; [intros [? ?]; split; [by right|done]|].
    intros [Hx He]. apply elem_of_cons in Hx as [->|Hx]; done.
Qed.

Lemma find_ge_some e l i :
  StronglySorted (cmp_lt cmp) l → find_ge e l = Some i →
  (i < length l)%nat ∧ (∀ x, x ∈ take i l → cmp x e < 0) ∧
  (∀ x, x ∈ drop i l → 0 <= cmp x e).
Proof using SkiplistOrder0.
  intros Hl. revert i. induction Hl as [|y l Hl IH Hy]; intros i; simpl; [done|].
  destruct (Z.ltb_spec (cmp y e) 0) as [H1|H1].
  - intros Hi. destruct (find_ge e l) as [j|]; [|done]. simplify_eq/=.
    destruct (IH j eq_refl) as (IH1 & IH2 & IH3). split_and!; [lia| |done].
    intros x Hx. apply elem_of_cons in Hx as [->|Hx]; [done|]. by apply IH2.
  - intros [= <-]. simpl. split_and!; [lia|intros x Hx; by apply elem_of_nil in Hx|].
    intros x Hx. apply elem_of_cons in Hx as [->|Hx]; [done|].
    rewrite Forall_forall in Hy. specialize (Hy _ Hx). unfold cmp_lt in Hy.
    destruct (Z.le_gt_cases 0 (cmp x e)) as [|H2]; [done|].
    pose proof (cmp_trans (cmp := cmp) y x e Hy H2). lia.
Qed.

Lemma find_ge_none e l x : find_ge e l = None → x ∈ l → cmp x e < 0.
Proof using.
  induction l as [|y l IH]; simpl; [by intros ? ?%elem_of_nil|].
  destruct (Z.ltb_spec (cmp y e) 0) as [H1|H1]; [|done].
  intros H Hx. apply elem_of_cons in Hx as [->|Hx]; [done|].
  apply IH; [|done]. by destruct (find_ge e l).
Qed.

Lemma list_skiplist_spec : @UniqSkiplistSpec E (list E) cmp list_skiplist.
Proof using SkiplistOrder0.
  split; simpl.
  - done.
  - intros s e Hs (x & Hx & He). by apply (ins_exists e s x).
  - intros s e. apply ins_new.
  - intros s e Hs (x & Hx & He). by apply (del_found e s x).
  - intros s e _. apply del_missing.
  - intros s e x Hs. by apply find_eq_spec.
  - intros s e i. apply find_ge_some.
  - intros s e _ H x Hx. by apply (find_ge_none e s x).
Qed.
End ListSkiplist.
