(* ===== verification/ObSlices.v ===== *)
(** * The slices of one block: the interval algorithms of the object block index

    [src/server/storage/object_block_index.c], the part that works on one block
    entry: [slice_dup], [add_slice], [delete_slices], [get_slices] and their
    helpers, over the [uniq_skiplist] of the block. The hash table above it is
    in [ObIndex.v]. *)
From S2P Require Import Prelude Types Skiplist.

(** ** The accounting interface

    What the index asks of the storage allocator when a slice enters or leaves
    it: [storage_allocator_add_slice] and [storage_allocator_delete_slice], and
    the used bytes of a trunk they keep ([None]: no such trunk). *)
Class SliceAccount (A : Type) := {
  acct_add_slice : A → OBSliceEntry → bool → Z * A;
  acct_delete_slice : A → OBSliceEntry → bool → Z * A;
  acct_used : A → Z → Z → option Z;
}.

Definition in_trunk (store id : Z) (s : OBSliceEntry) : bool :=
  (sp_store (se_space s) =? store) && (ti_id (sp_id_info (se_space s)) =? id).

(** The space a slice holds in a trunk. *)
Definition size_in (store id : Z) (s : OBSliceEntry) : Z :=
  if in_trunk store id s then sp_size (se_space s) else 0.

Class SliceAccountSpec (A : Type) `{!SliceAccount A} : Prop := {
  acct_add_spec : ∀ (a : A) s f,
    is_Some (acct_used a (sp_store (se_space s)) (ti_id (sp_id_info (se_space s)))) →
    (acct_add_slice a s f).1 = 0 ∧
    ∀ st id, acct_used (acct_add_slice a s f).2 st id =
      (λ u, u + size_in st id s) <$> acct_used a st id;
  acct_add_missing : ∀ (a : A) s f,
    acct_used a (sp_store (se_space s)) (ti_id (sp_id_info (se_space s))) = None →
    (acct_add_slice a s f).1 = ENOENT ∧
    ∀ st id, acct_used (acct_add_slice a s f).2 st id = acct_used a st id;
  acct_delete_spec : ∀ (a : A) s f,
    is_Some (acct_used a (sp_store (se_space s)) (ti_id (sp_id_info (se_space s)))) →
    ∀ st id, acct_used (acct_delete_slice a s f).2 st id =
      (λ u, u - size_in st id s) <$> acct_used a st id;
}.

(** ** Memory, reference counts and the accounting state *)

(** [w_mem] are the answers the allocators ([fc_malloc], [fast_mblock]) will
    give: [false] is [NULL], and an exhausted list answers [true]. [w_refs] maps
    a live slice entry to its [ref_count]; a freed entry has no binding. *)
Record World (A : Type) := mkWorld {
  w_mem : list bool;
  w_next : Z;
  w_refs : gmap Z Z;
  w_acct : A;
  w_sn : Z;  (** [SLICE_BINLOG_SN] *)
}.
Arguments mkWorld {A}.
Arguments w_mem {A}.
Arguments w_next {A}.
Arguments w_refs {A}.
Arguments w_acct {A}.
Arguments w_sn {A}.

(** The two switches of [OBHashtable]. *)
Record OBFlags := mkOBFlags {
  modify_sallocator : bool;
  modify_used_space : bool;
}.

(** [slice_compare]: by the offset within the block. *)
Definition slice_compare (p1 p2 : OBSliceEntry) : Z := soff p1 - soff p2.

#[export] Instance slice_compare_order : SkiplistOrder slice_compare.
Proof. split; unfold slice_compare; intros; lia. Qed.

(** [OBSlicePtrSmartArray] and [OBSlicePtrArray]; [count] is the length. *)
Record SlicePtrArray := mkSliceArray {
  sa_alloc : Z;
  sa_slices : list OBSliceEntry;
}.
Definition sa_count (a : SlicePtrArray) : Z := Z.of_nat (length (sa_slices a)).

Definition SLICE_ARRAY_FIXED_COUNT : Z := 64.
(** [INIT_SLICE_PTR_ARRAY]. *)
Definition INIT_SLICE_PTR_ARRAY : SlicePtrArray :=
  mkSliceArray SLICE_ARRAY_FIXED_COUNT [].

Section Ops.
Context {T A : Type} `{!UniqSkiplist OBSliceEntry T} `{!SliceAccount A}.
Implicit Types (w : World A) (slice curr : OBSliceEntry) (arr : SlicePtrArray).

Definition set_mem m w : World A :=
  mkWorld m (w_next w) (w_refs w) (w_acct w) (w_sn w).
Definition set_refs r w : World A :=
  mkWorld (w_mem w) (w_next w) r (w_acct w) (w_sn w).
Definition set_acct a w : World A :=
  mkWorld (w_mem w) (w_next w) (w_refs w) a (w_sn w).

(** One allocation: does it succeed? *)
Definition alloc_ok : M (World A) bool := λ w,
  match w_mem w with
  | [] => (inr true, w)
  | b :: m => (inr b, set_mem m w)
  end.

(** The next entry [fast_mblock_alloc_object] hands out. *)
Definition fresh_id : M (World A) Z := λ w,
  (inr (w_next w),
   mkWorld (w_mem w) (w_next w + 1) (w_refs w) (w_acct w) (w_sn w)).

Definition ref_count w (id : Z) : Z := default 0 (w_refs w !! id).

(** [__sync_add_and_fetch(&slice->ref_count, n)]. *)
Definition ref_add (id n : Z) w : World A :=
  set_refs (<[id := ref_count w id + n]> (w_refs w)) w.

(** [slice_free_func] and [ob_index_free_slice]: drop one reference; the
    entry is freed when none is left. *)
Definition slice_free_func slice w : World A :=
  let n := ref_count w (se_id slice) - 1 in
  if n =? 0 then set_refs (delete (se_id slice) (w_refs w)) w
  else set_refs (<[se_id slice := n]> (w_refs w)) w.
Definition ob_index_free_slice := slice_free_func.

(** [slice_dup]. *)
Definition slice_dup (src : OBSliceEntry) (offset length : Z)
    : M (World A) OBSliceEntry :=
  ok ← alloc_ok;
  if negb ok then mfail ENOMEM else
  id ← fresh_id;
  let extra_offset := offset - soff src in
  let sp := se_space src in
  let space :=
    if 0 <? extra_offset
    then mkTrunkSpace (sp_store sp) (sp_id_info sp) (sp_offset sp + extra_offset) (sp_size sp)
    else sp in
  let off := if 0 <? extra_offset then offset else soff src in
  mmodify (ref_add id 1);;
  mret (mkSlice id (se_ob src) (se_type src) (mkSliceSize off length) space).

(** [add_to_slice_ptr_smart_array]. *)
Definition add_to_slice_ptr_smart_array arr slice : M (World A) SlicePtrArray :=
  if sa_alloc arr <=? sa_count arr then
    ok ← alloc_ok;
    if negb ok then mfail ENOMEM
    else mret (mkSliceArray (sa_alloc arr * 2) (sa_slices arr ++ [slice]))
  else mret (mkSliceArray (sa_alloc arr) (sa_slices arr ++ [slice])).

(** [dup_slice_to_smart_array]: the copy's trunk space is cut to its length. *)
Definition dup_slice_to_smart_array (src : OBSliceEntry) (offset length : Z) arr
    : M (World A) SlicePtrArray :=
  new_slice ← slice_dup src offset length;
  let sp := se_space new_slice in
  add_to_slice_ptr_smart_array arr
    (mkSlice (se_id new_slice) (se_ob new_slice) (se_type new_slice)
       (se_ssize new_slice)
       (mkTrunkSpace (sp_store sp) (sp_id_info sp) (sp_offset sp) length)).

(** [do_delete_slice]: the skip list frees the element it removes. *)
Definition do_delete_slice (f : OBFlags) slice (tw : T * World A) : Z * (T * World A) :=
  let '(t, w) := tw in
  let w1 := if modify_sallocator f
            then set_acct (acct_delete_slice (w_acct w) slice (modify_used_space f)).2 w
            else w in
  let '(r, t') := uniq_skiplist_delete t slice in
  match uniq_skiplist_find t slice with
  | Some x => (r, (t', slice_free_func x w1))
  | None => (r, (t', w1))
  end.

(** [do_add_slice]. *)
Definition do_add_slice (f : OBFlags) slice (tw : T * World A) : Z * (T * World A) :=
  let '(t, w) := tw in
  let '(r, t') := uniq_skiplist_insert t slice in
  if negb (r =? 0) then (r, (t', w))
  else if modify_sallocator f then
    let '(r', a') := acct_add_slice (w_acct w) slice (modify_used_space f) in
    (r', (t', set_acct a' w))
  else (0, (t', w)).

(** The loops of [add_slice] and [delete_slices] that apply the collected
    changes; the source ignores the results. *)
Definition del_all (f : OBFlags) (l : list OBSliceEntry) (tw : T * World A) : T * World A :=
  foldl (λ tw s, (do_delete_slice f s tw).2) tw l.
Definition add_all (f : OBFlags) (l : list OBSliceEntry) (tw : T * World A) : T * World A :=
  foldl (λ tw s, (do_add_slice f s tw).2) tw l.

(** Run a computation on the world alone. *)
Definition on_world {B} (m : M (World A) B) : M (T * World A) B := λ tw,
  let '(r, w') := m tw.2 in (r, (tw.1, w')).

(** The locals of [add_slice] and [delete_slices]: the two smart arrays, the
    running [*inc_alloc] ([*dec_alloc]) and [new_space_start]. *)
Record Scan := mkScan {
  sc_del : SlicePtrArray;
  sc_add : SlicePtrArray;
  sc_alloc : Z;
  sc_start : Z;
}.

(** *** [add_slice] *)

(** The slice before the insertion point, when it overlaps. *)
Definition add_slice_previous slice (previous : option OBSliceEntry)
    : M (World A) Scan :=
  let start := soff slice in
  let slice_end := send slice in
  let sc0 := mkScan INIT_SLICE_PTR_ARRAY INIT_SLICE_PTR_ARRAY 0 start in
  match previous with
  | None => mret sc0
  | Some curr =>
      let curr_end := send curr in
      if soff slice <? curr_end then
        del ← add_to_slice_ptr_smart_array (sc_del sc0) curr;
        add ← dup_slice_to_smart_array curr (soff curr) (soff slice - soff curr) (sc_add sc0);
        add' ← (if slice_end <? curr_end
                then dup_slice_to_smart_array curr slice_end (curr_end - slice_end) add
                else mret add);
        mret (mkScan del add' 0 curr_end)
      else mret sc0
  end.

(** The [do ... while] over the nodes from the insertion point on. *)
Fixpoint add_slice_loop (slice_end : Z) (nodes : list OBSliceEntry) (sc : Scan)
    : M (World A) Scan :=
  match nodes with
  | [] => mret sc
  | curr :: rest =>
      if slice_end <=? soff curr then mret sc else
      del ← add_to_slice_ptr_smart_array (sc_del sc) curr;
      let inc := if sc_start sc <? soff curr
                 then sc_alloc sc + (soff curr - sc_start sc) else sc_alloc sc in
      let curr_end := send curr in
      if slice_end <? curr_end then
        add ← dup_slice_to_smart_array curr slice_end (curr_end - slice_end) (sc_add sc);
        mret (mkScan del add inc curr_end)
      else add_slice_loop slice_end rest (mkScan del (sc_add sc) inc curr_end)
  end.

(** [add_slice]: the value is [*inc_alloc]. *)
Definition add_slice (f : OBFlags) slice : M (T * World A) Z :=
  '(slices, _) ← mget;
  let node := uniq_skiplist_find_ge_node slices slice in
  match node, prev_data slices node with
  | None, None =>
      tw ← mget;
      let '(r, tw') := do_add_slice f slice tw in
      mput tw';; errno r;; mret (slen slice)
  | _, previous =>
      sc0 ← on_world (add_slice_previous slice previous);
      sc ← on_world (add_slice_loop (send slice) (nodes_of slices node) sc0);
      let inc := if sc_start sc <? send slice
                 then sc_alloc sc + (send slice - sc_start sc) else sc_alloc sc in
      mmodify (del_all f (sa_slices (sc_del sc)));;
      mmodify (add_all f (sa_slices (sc_add sc)));;
      tw ← mget;
      let '(r, tw') := do_add_slice f slice tw in
      mput tw';; errno r;; mret inc
  end.

(** *** [delete_slices] *)

Definition delete_slices_previous (ss : FSSliceSize) (previous : option OBSliceEntry)
    : M (World A) Scan :=
  let slice_end := ss_offset ss + ss_length ss in
  let sc0 := mkScan INIT_SLICE_PTR_ARRAY INIT_SLICE_PTR_ARRAY 0 0 in
  match previous with
  | None => mret sc0
  | Some curr =>
      let curr_end := send curr in
      if ss_offset ss <? curr_end then
        del ← add_to_slice_ptr_smart_array (sc_del sc0) curr;
        add ← dup_slice_to_smart_array curr (soff curr) (ss_offset ss - soff curr) (sc_add sc0);
        if slice_end <? curr_end then
          add' ← dup_slice_to_smart_array curr slice_end (curr_end - slice_end) add;
          mret (mkScan del add' (ss_length ss) 0)
        else mret (mkScan del add (curr_end - ss_offset ss) 0)
      else mret sc0
  end.

Fixpoint delete_slices_loop (slice_end : Z) (nodes : list OBSliceEntry) (sc : Scan)
    : M (World A) Scan :=
  match nodes with
  | [] => mret sc
  | curr :: rest =>
      if slice_end <=? soff curr then mret sc else
      del ← add_to_slice_ptr_smart_array (sc_del sc) curr;
      let curr_end := send curr in
      if slice_end <? curr_end then
        add ← dup_slice_to_smart_array curr slice_end (curr_end - slice_end) (sc_add sc);
        mret (mkScan del add (sc_alloc sc + (slice_end - soff curr)) 0)
      else delete_slices_loop slice_end rest
             (mkScan del (sc_add sc) (sc_alloc sc + slen curr) 0)
  end.

(** A [OBSliceEntry target] on the stack of which only [ssize] is set. *)
Definition target_of (ss : FSSliceSize) : OBSliceEntry :=
  mkSlice 0 0 OB_SLICE_TYPE_FILE ss
    (mkTrunkSpace 0 (mkTrunkId 0 0) 0 0).

(** [delete_slices]: the value is [( *count, *dec_alloc)]. *)
Definition delete_slices (f : OBFlags) (bs_key : FSBlockSliceKeyInfo)
    : M (T * World A) (Z * Z) :=
  '(slices, _) ← mget;
  let ss := bs_slice bs_key in
  let node := uniq_skiplist_find_ge_node slices (target_of ss) in
  match node, prev_data slices node with
  | None, None => mfail ENOENT
  | _, previous =>
      sc0 ← on_world (delete_slices_previous ss previous);
      sc ← on_world (delete_slices_loop (ss_offset ss + ss_length ss)
                       (nodes_of slices node) sc0);
      if sa_count (sc_del sc) =? 0 then mfail ENOENT else
      mmodify (del_all f (sa_slices (sc_del sc)));;
      mmodify (add_all f (sa_slices (sc_add sc)));;
      mret (sa_count (sc_del sc), sc_alloc sc)
  end.

(** *** [get_slices] *)

(** [add_to_slice_ptr_array]. *)
Definition add_to_slice_ptr_array arr slice : M (World A) SlicePtrArray :=
  if sa_alloc arr <=? sa_count arr then
    let alloc := if sa_alloc arr =? 0 then 256 else sa_alloc arr * 2 in
    ok ← alloc_ok;
    if negb ok then mfail ENOMEM
    else mret (mkSliceArray alloc (sa_slices arr ++ [slice]))
  else mret (mkSliceArray (sa_alloc arr) (sa_slices arr ++ [slice])).

(** The callers of [get_slices] keep [sarray] when it fails, so the array is
    state here: it is threaded next to the world. *)
Definition GM := M (SlicePtrArray * World A).

Definition push_array slice : GM unit := λ aw,
  match add_to_slice_ptr_array aw.1 slice aw.2 with
  | (inl e, w') => (inl e, (aw.1, w'))
  | (inr arr', w') => (inr tt, (arr', w'))
  end.
Definition on_world_arr {B} (m : M (World A) B) : GM B := λ aw,
  let '(r, w') := m aw.2 in (r, (aw.1, w')).

(** [dup_slice_to_array]. *)
Definition dup_slice_to_array (src : OBSliceEntry) (offset length : Z) : GM unit :=
  new_slice ← on_world_arr (slice_dup src offset length);
  push_array new_slice.

(** The [do ... while] of [get_slices]. *)
Fixpoint get_slices_loop (slice_end : Z) (nodes : list OBSliceEntry) : GM unit :=
  match nodes with
  | [] => mret tt
  | curr :: rest =>
      if slice_end <=? soff curr then mret tt else
      (if slice_end <? send curr
       then dup_slice_to_array curr (soff curr) (slice_end - soff curr)
       else on_world_arr (mmodify (ref_add (se_id curr) 1));; push_array curr);;
      get_slices_loop slice_end rest
  end.

Definition get_slices (slices : T) (bs_key : FSBlockSliceKeyInfo) : GM unit :=
  let ss := bs_slice bs_key in
  let node := uniq_skiplist_find_ge_node slices (target_of ss) in
  let slice_end := ss_offset ss + ss_length ss in
  match prev_data slices node with
  | Some curr =>
      if ss_offset ss <? send curr
      then dup_slice_to_array curr (ss_offset ss)
             (Z.min (send curr) slice_end - ss_offset ss)
      else mret tt
  | None => mret tt
  end;;
  get_slices_loop slice_end (nodes_of slices node);;
  '(arr, _) ← mget;
  if 0 <? sa_count arr then mret tt else mfail ENOENT.

(** [free_slices]: drop the references an array holds. *)
Definition free_slices arr w : SlicePtrArray * World A :=
  (mkSliceArray (sa_alloc arr) [],
   foldl (λ w s, ob_index_free_slice s w) w (sa_slices arr)).
End Ops.
