(* ===== verification/ObSlicesRun.v ===== *)
(** * What the slices of a block mean, and the correctness of the algorithms

    A block is abstractly a partial map from its byte offsets to locations in
    trunk files. The lemmas below show that the list of slices stays an ordered
    list of disjoint extents, that adding a slice overrides the map on its
    extent and nothing else, that deleting removes exactly the given extent and
    that reading returns the map on it; that the returned byte counts are the
    change of the number of mapped bytes; and that reference counts and trunk
    accounting follow the list. *)
From stdpp Require Import sorting.
From S2P Require Import Prelude Types Skiplist ObSlices.

(** ** The abstract content of a block *)

Definition covers (s : OBSliceEntry) (p : Z) : Prop := soff s <= p < send s.
#[export] Instance covers_dec s p : Decision (covers s p).
Proof. unfold covers. apply _. Defined.

(** Where a byte is stored: store path, trunk, position in the trunk file, and
    whether it has been written or only allocated. *)
Record DiskLoc := mkLoc {
  dl_store : Z;
  dl_trunk : FSTrunkIdInfo;
  dl_pos : Z;
  dl_type : OBSliceType;
}.
Definition loc_at (s : OBSliceEntry) (p : Z) : DiskLoc :=
  mkLoc (sp_store (se_space s)) (sp_id_info (se_space s))
    (sp_offset (se_space s) + (p - soff s)) (se_type s).

Fixpoint lookup_byte (l : list OBSliceEntry) (p : Z) : option DiskLoc :=
  match l with
  | [] => None
  | s :: l' => if decide (covers s p) then Some (loc_at s p) else lookup_byte l' p
  end.

(** ** Well-formed slice lists *)

Definition valid_slice (s : OBSliceEntry) : Prop :=
  0 <= soff s ∧ 0 < slen s ∧ send s <= FS_FILE_BLOCK_SIZE.
Definition before (x y : OBSliceEntry) : Prop := send x <= soff y.
Definition slices_wf (l : list OBSliceEntry) : Prop :=
  StronglySorted before l ∧ Forall valid_slice l.
Definition disjoint_slices (x y : OBSliceEntry) : Prop := before x y ∨ before y x.

Lemma slices_wf_nil : slices_wf [].
Proof. repeat constructor. Qed.

Lemma slices_wf_sorted l : slices_wf l → StronglySorted (cmp_lt slice_compare) l.
Proof.
  intros [Hs Hv]. induction Hs as [|x l Hl IH Hx]; constructor.
  - apply IH. by inversion Hv.
  - rewrite Forall_forall in Hx, Hv. rewrite Forall_forall. intros y Hy.
    specialize (Hx _ Hy). assert (valid_slice x) as Hvx by (apply Hv; by left).
    unfold cmp_lt, slice_compare, before, send, valid_slice in *. lia.
Qed.

Lemma slices_wf_valid l x : slices_wf l → x ∈ l → valid_slice x.
Proof. intros [_ Hv] Hx. by apply (proj1 (Forall_forall _ _) Hv). Qed.

Lemma slices_wf_disjoint l x y : slices_wf l → x ∈ l → y ∈ l → x ≠ y → disjoint_slices x y.
Proof.
  intros [Hs _]. induction Hs as [|z l Hl IH Hz]; intros Hx Hy Hne.
  { by apply elem_of_nil in Hx. }
  rewrite Forall_forall in Hz. unfold disjoint_slices.
  apply elem_of_cons in Hx as [->|Hx]; apply elem_of_cons in Hy as [->|Hy]; [done|..].
  - left. by apply Hz.
  - right. by apply Hz.
  - by apply IH.
Qed.

Lemma slices_wf_app_l l k : slices_wf (l ++ k) → slices_wf l.
Proof.
  intros [Hs Hv]. apply Forall_app in Hv as [Hv _]. split; [|done].
  induction l as [|x l IH]; [constructor|]. inversion Hs; subst. inversion Hv; subst.
  constructor; [by apply IH|]. match goal with H : Forall _ (l ++ k) |- _ => by apply Forall_app in H as [? _] end.
Qed.
Lemma slices_wf_app_r l k : slices_wf (l ++ k) → slices_wf k.
Proof.
  induction l as [|x l IH]; [done|]. intros [Hs Hv].
  apply IH. inversion Hs; inversion Hv; by split.
Qed.

(** Sorted, valid and pairwise disjoint is well-formed. *)
Lemma slices_wf_intro l :
  StronglySorted (cmp_lt slice_compare) l → (∀ x, x ∈ l → valid_slice x) →
  (∀ x y, x ∈ l → y ∈ l → x ≠ y → disjoint_slices x y) → slices_wf l.
Proof.
  intros Hs Hv Hd. split; [|by apply Forall_forall].
  induction Hs as [|x l Hl IH Hx]; constructor.
  - apply IH; intros; [apply Hv|apply Hd]; try by right. done.
  - rewrite Forall_forall in Hx. rewrite Forall_forall. intros y Hy.
    specialize (Hx _ Hy).
    assert (valid_slice y) as Hvy by (apply Hv; by right).
    assert (x ≠ y) as Hne.
    { intros ->. unfold cmp_lt, slice_compare in Hx. lia. }
    destruct (Hd x y) as [?|?]; [by left|by right|done|done|].
    unfold cmp_lt, slice_compare, before, valid_slice, send in *. lia.
Qed.

Lemma lookup_byte_Some l p d :
  slices_wf l → lookup_byte l p = Some d ↔ ∃ s, s ∈ l ∧ covers s p ∧ d = loc_at s p.
Proof.
  intros Hwf. induction l as [|x l IH]; simpl.
  { split; [done|]. by intros (s & ?%elem_of_nil & _). }
  assert (slices_wf l) as Hwf' by (eapply (slices_wf_app_r [x]); done).
  destruct (decide (covers x p)) as [Hc|Hc].
  - split; [intros [= <-]; exists x; split_and!; [by left|done|done]|].
    intros (s & Hs & Hsc & ->). f_equal.
    destruct (decide (x = s)) as [->|Hne]; [done|].
    destruct (slices_wf_disjoint _ x s Hwf); [by left|done|done|..];
      unfold covers, before in *; lia.
  - rewrite IH by done. split; intros (s & Hs & Hsc & ->).
    + exists s. split_and!; [by right|done|done].
    + apply elem_of_cons in Hs as [->|Hs]; [done|]. eauto.
Qed.

Lemma lookup_byte_None l p :
  lookup_byte l p = None ↔ ∀ s, s ∈ l → ¬ covers s p.
Proof.
  induction l as [|x l IH]; simpl.
  { split; [|done]. by intros _ s ?%elem_of_nil. }
  destruct (decide (covers x p)) as [Hc|Hc].
  - split; [done|]. intros H. exfalso. apply (H x); [by left|done].
  - rewrite IH. split; intros H s Hs.
    + apply elem_of_cons in Hs as [->|Hs]; [done|by apply H].
    + apply H. by right.
Qed.

Lemma lookup_byte_perm l k p : slices_wf l → slices_wf k → l ≡ₚ k →
  lookup_byte l p = lookup_byte k p.
Proof.
  intros Hl Hk Hp. apply option_eq. intros d.
  rewrite !lookup_byte_Some by done. by setoid_rewrite Hp.
Qed.

(** ** Mapped bytes *)
Definition total_len (l : list OBSliceEntry) : Z := sumZ slen l.

(** ** Cutting a slice *)

Definition overlaps (a b : Z) (s : OBSliceEntry) : Prop := a < send s ∧ soff s < b.
#[export] Instance overlaps_dec a b s : Decision (overlaps a b s).
Proof. unfold overlaps. apply _. Defined.

(** A slice without its identity. *)
Definition strip (s : OBSliceEntry) : OBSliceEntry :=
  mkSlice 0 (se_ob s) (se_type s) (se_ssize s) (se_space s).

(** The part of a slice from [o] to [e], as [dup_slice_to_smart_array] makes it. *)
Definition piece (s : OBSliceEntry) (o e : Z) : OBSliceEntry :=
  mkSlice 0 (se_ob s) (se_type s) (mkSliceSize o (e - o))
    (mkTrunkSpace (sp_store (se_space s)) (sp_id_info (se_space s))
       (sp_offset (se_space s) + (o - soff s)) (e - o)).
(** What is left of a slice when the extent [a, b) is cut out. *)
Definition pieces (a b : Z) (s : OBSliceEntry) : list OBSliceEntry :=
  (if soff s <? a then [piece s (soff s) a] else []) ++
  (if b <? send s then [piece s b (send s)] else []).
(** The number of bytes of a slice within [a, b). *)
Definition overlap_len (a b : Z) (s : OBSliceEntry) : Z :=
  Z.min b (send s) - Z.max a (soff s).

Lemma pieces_len a b s : a <= b → overlaps a b s → valid_slice s →
  total_len (pieces a b s) = slen s - overlap_len a b s.
Proof.
  unfold overlaps, valid_slice, pieces, total_len, overlap_len, send. intros.
  zcase; simpl; unfold slen, piece; simpl; fold (slen s); unfold send; lia.
Qed.

Lemma piece_elem a b s x : a < b → x ∈ pieces a b s → overlaps a b s → valid_slice s →
  valid_slice x ∧ soff s <= soff x ∧ send x <= send s ∧ (send x <= a ∨ b <= soff x) ∧
  (∀ p, covers x p → loc_at x p = loc_at s p).
Proof.
  intros Hab Hx Ho Hv. unfold overlaps in Ho. unfold pieces in Hx.
  pose proof Hv as Hv'. unfold valid_slice in Hv'.
  assert (∀ o e, soff s <= o → o < e → e <= send s →
    let x := piece s o e in valid_slice x ∧ soff x = o ∧ send x = e ∧
    (∀ p, covers x p → loc_at x p = loc_at s p)) as Hp.
  { intros o e H1 H2 H3 y. unfold valid_slice, send, soff, slen, y; simpl.
    fold (soff s). split_and!; try lia.
    intros p _. unfold loc_at. simpl. f_equal.
    unfold soff; simpl. fold (soff s). lia. }
  apply elem_of_app in Hx as [Hx|Hx].
  - destruct (Z.ltb_spec (soff s) a); [|by apply elem_of_nil in Hx].
    apply list_elem_of_singleton in Hx as ->.
    destruct (Hp (soff s) a) as (? & Ho1 & Ho2 & ?); [lia..|]. rewrite Ho1, Ho2.
    split_and!; [done|lia|lia|lia|done].
  - destruct (Z.ltb_spec b (send s)); [|by apply elem_of_nil in Hx].
    apply list_elem_of_singleton in Hx as ->.
    destruct (Hp b (send s)) as (? & Ho1 & Ho2 & ?); [lia..|]. rewrite Ho1, Ho2.
    split_and!; [done|lia|lia|lia|done].
Qed.

(** The pieces cover what was covered outside the cut. *)
Lemma pieces_cover a b s p : covers s p → ¬ a <= p < b →
  ∃ x, x ∈ pieces a b s ∧ covers x p.
Proof.
  unfold covers. intros Hc Hp.
  destruct (decide (p < a)).
  - exists (piece s (soff s) a). split.
    + unfold pieces. rewrite (proj2 (Z.ltb_lt _ _)) by lia. by left.
    + unfold send, soff, slen; simpl. fold (soff s). lia.
  - exists (piece s b (send s)). split.
    + unfold pieces. rewrite (proj2 (Z.ltb_lt b _)) by lia. apply elem_of_app. right. by left.
    + unfold send, soff, slen; simpl. fold (soff s) (slen s) (send s). lia.
Qed.

Lemma strip_facts s : soff (strip s) = soff s ∧ slen (strip s) = slen s ∧
  send (strip s) = send s ∧ ∀ p, loc_at (strip s) p = loc_at s p.
Proof. done. Qed.

(** ** Running the interval algorithms

    What a run of the scanning part of [add_slice] and [delete_slices] collects
    (the slices to delete, the pieces to add, the byte count), and what applying
    the collected changes to the skip list does to the list of slices, to the
    reference counts and to the trunk accounting. *)

(** The number of entries of a list with a given identity. *)
Definition occ (id : Z) (l : list OBSliceEntry) : Z :=
  sumZ (λ s, if se_id s =? id then 1 else 0) l.
#[global] Arguments occ : simpl never.

Lemma occ_nil id : occ id [] = 0.
Proof. done. Qed.
Lemma occ_cons id s l : occ id (s :: l) = (if se_id s =? id then 1 else 0) + occ id l.
Proof. done. Qed.
Lemma occ_app id l k : occ id (l ++ k) = occ id l + occ id k.
Proof. apply sumZ_app. Qed.
Lemma occ_perm id l k : l ≡ₚ k → occ id l = occ id k.
Proof. apply sumZ_perm. Qed.
Lemma occ_nonneg id l : 0 <= occ id l.
Proof. apply sumZ_nonneg. intros s _. by case_match. Qed.
Lemma occ_elem s l : s ∈ l → 0 < occ (se_id s) l.
Proof.
  induction 1 as [s l|s y l _ IH]; rewrite occ_cons.
  - rewrite Z.eqb_refl. pose proof (occ_nonneg (se_id s) l). lia.
  - case_match; lia.
Qed.

#[export] Hint Rewrite occ_nil occ_cons occ_app : fstore.

Section Run.
Context {T A : Type} `{!UniqSkiplist OBSliceEntry T} `{!SliceAccount A}.
Implicit Types (w : World A) (s slice curr : OBSliceEntry) (arr : SlicePtrArray).

(** ** Reference counts *)

Definition refs_pos w : Prop := ∀ id n, w_refs w !! id = Some n → 0 < n.

(** From [w] to [w'] only allocations happened, and the entries [new] were
    created, each with one reference. *)
Record grew (w w' : World A) (new : list OBSliceEntry) : Prop := {
  g_next : w_next w <= w_next w';
  g_refs : ∀ id, ref_count w' id = ref_count w id + occ id new;
  g_pos : refs_pos w → refs_pos w';
  g_acct : w_acct w' = w_acct w;
  g_sn : w_sn w' = w_sn w;
  g_ids : ∀ s, s ∈ new → w_next w <= se_id s < w_next w';
}.

Lemma grew_refl w : grew w w [].
Proof.
  split; intros; rewrite ?occ_nil; try done; try lia.
  by apply elem_of_nil in H.
Qed.
Lemma grew_mem w m : grew w (set_mem m w) [].
Proof.
  split; intros; rewrite ?occ_nil; try done; try (unfold ref_count; simpl; lia).
  by apply elem_of_nil in H.
Qed.

Lemma grew_trans w1 w2 w3 l k : grew w1 w2 l → grew w2 w3 k → grew w1 w3 (l ++ k).
Proof.
  intros [] []. split; try (etrans; eassumption); try (by auto).
  - intros id. rewrite occ_app, g_refs1, g_refs0. lia.
  - intros s Hs. apply elem_of_app in Hs as [Hs|Hs];
      [apply g_ids0 in Hs|apply g_ids1 in Hs]; lia.
Qed.
Lemma grew_trans_l w1 w2 w3 k : grew w1 w2 [] → grew w2 w3 k → grew w1 w3 k.
Proof. intros H1 H2. apply (grew_trans _ _ _ _ _ H1 H2). Qed.

Lemma ref_count_add w id n i :
  ref_count (ref_add id n w) i = ref_count w i + (if id =? i then n else 0).
Proof.
  unfold ref_count, ref_add. simpl. destruct (Z.eqb_spec id i) as [->|Hne].
  - by rewrite lookup_insert_eq.
  - rewrite lookup_insert_ne by done. lia.
Qed.
Lemma refs_pos_nonneg w id : refs_pos w → 0 <= ref_count w id.
Proof.
  intros H. unfold ref_count. destruct (w_refs w !! id) eqn:E; simpl; [|done].
  apply H in E. lia.
Qed.
Lemma refs_pos_add w id n : 0 < n → refs_pos w → refs_pos (ref_add id n w).
Proof.
  intros Hn H i m. unfold ref_add. simpl. destruct (decide (id = i)) as [->|Hne].
  - rewrite lookup_insert_eq. intros [= <-]. pose proof (refs_pos_nonneg w i H). lia.
  - rewrite lookup_insert_ne by done. apply H.
Qed.

Lemma ref_count_free w s i : 
  ref_count (slice_free_func s w) i = ref_count w i - (if se_id s =? i then 1 else 0).
Proof.
  unfold slice_free_func. destruct (Z.eqb_spec (ref_count w (se_id s) - 1) 0) as [H0|H0];
    destruct (Z.eqb_spec (se_id s) i) as [<-|Hne]; unfold ref_count in *; simpl.
  - rewrite lookup_delete_eq. simpl. lia.
  - rewrite lookup_delete_ne by done. lia.
  - rewrite lookup_insert_eq. simpl. lia.
  - rewrite lookup_insert_ne by done. lia.
Qed.
Lemma refs_pos_free w s :
  0 < ref_count w (se_id s) → refs_pos w → refs_pos (slice_free_func s w).
Proof.
  intros Hc H i m. unfold slice_free_func.
  destruct (Z.eqb_spec (ref_count w (se_id s) - 1) 0) as [H0|H0]; simpl;
    destruct (decide (se_id s = i)) as [<-|Hne].
  - by rewrite lookup_delete_eq.
  - rewrite lookup_delete_ne by done. apply H.
  - rewrite lookup_insert_eq. intros [= <-]. lia.
  - rewrite lookup_insert_ne by done. apply H.
Qed.

(** ** The allocating primitives *)

Lemma alloc_ok_run w r w' : alloc_ok w = (r, w') → ∃ b, r = inr b ∧ grew w w' [].
Proof.
  unfold alloc_ok. destruct (w_mem w) as [|b m]; intros [= <- <-].
  - eauto using grew_refl.
  - eauto using grew_mem.
Qed.

Lemma push_run arr s w arr' w' :
  add_to_slice_ptr_smart_array arr s w = (inr arr', w') →
  sa_slices arr' = sa_slices arr ++ [s] ∧ grew w w' [].
Proof.
  unfold add_to_slice_ptr_smart_array. case_match.
  - intros H'. minv. destruct (alloc_ok_run _ _ _ H0) as (b & [= ->] & ?).
    destruct b; simpl in *; [|discriminate].
    unfold mret, M_ret in *. simplify_eq. done.
  - intros [= <- <-]. eauto using grew_refl.
Qed.

Lemma slice_dup_run src o len w s w' :
  slice_dup src o len w = (inr s, w') →
  grew w w' [s] ∧ se_ob s = se_ob src ∧ se_type s = se_type src ∧
  sp_store (se_space s) = sp_store (se_space src) ∧
  sp_id_info (se_space s) = sp_id_info (se_space src) ∧
  sp_offset (se_space s) = sp_offset (se_space src) + Z.max 0 (o - soff src) ∧
  se_ssize s = mkSliceSize (Z.max (soff src) o) len.
Proof.
  unfold slice_dup. intros H. minv.
  destruct (alloc_ok_run _ _ _ H) as (b & [= ->] & Hg).
  destruct b; simpl in *; [|discriminate].
  unfold mbind, M_bind, fresh_id, mmodify, mret, M_ret in *. simplify_eq.
  split.
  - apply (grew_trans_l _ _ _ _ Hg). split; simpl; try done; try lia.
    + intros id. rewrite ref_count_add. unfold occ, ref_count. simpl. lia.
    + intros Hp. by apply refs_pos_add.
    + intros y ->%list_elem_of_singleton. simpl. lia.
  - simpl. destruct (Z.ltb_spec 0 (o - soff src)); simpl; split_and!; try done; try lia;
      f_equal; lia.
Qed.

Lemma dup_run curr o len arr w arr' w' :
  soff curr <= o →
  dup_slice_to_smart_array curr o len arr w = (inr arr', w') →
  ∃ s, sa_slices arr' = sa_slices arr ++ [s] ∧ strip s = piece curr o (o + len) ∧
    grew w w' [s].
Proof.
  unfold dup_slice_to_smart_array. intros Ho H. minv.
  destruct (slice_dup_run _ _ _ _ _ _ H) as (Hg & H1 & H2 & H3 & H4 & H5 & H6).
  destruct (push_run _ _ _ _ _ H0) as [Ha Hg'].
  eexists. split; [exact Ha|]. split.
  - unfold strip, piece. simpl. rewrite H1, H2, H3, H4, H5, H6.
    f_equal; f_equal; lia.
  - rewrite <- (app_nil_r [_]). eapply grew_trans; [|exact Hg'].
    destruct Hg as [? Hr ? ? ? Hi]. split; try done.
    + intros y ->%list_elem_of_singleton. simpl. apply Hi. by left.
Qed.

(** ** What the scans collect *)

Section ScanSpec.
Variables (a b : Z).
Hypothesis Hab : a < b.

(** The scan collected exactly the overlapping slices of [l] after those of
    [sc], and the pieces they leave. *)
Definition collected (l : list OBSliceEntry) (sc sc' : Scan) (w w' : World A) : Prop :=
  ∃ new, sa_slices (sc_del sc') = sa_slices (sc_del sc) ++ filter (overlaps a b) l ∧
    sa_slices (sc_add sc') = sa_slices (sc_add sc) ++ new ∧
    strip <$> new = filter (overlaps a b) l ≫= pieces a b ∧
    grew w w' new.

Definition overlap_sum (l : list OBSliceEntry) : Z :=
  sumZ (overlap_len a b) (filter (overlaps a b) l).

Lemma filter_overlaps_ge l : (∀ x, x ∈ l → b <= soff x) → filter (overlaps a b) l = [].
Proof using.
  clear Hab. intros H. induction l as [|x l IH]; [done|].
  rewrite filter_cons_False.
  - apply IH. intros y Hy. apply H. by right.
  - unfold overlaps. specialize (H x (list_elem_of_here _ _)). lia.
Qed.
Lemma filter_overlaps_le l : (∀ x, x ∈ l → send x <= a) → filter (overlaps a b) l = [].
Proof using.
  clear Hab. intros H. induction l as [|x l IH]; [done|].
  rewrite filter_cons_False.
  - apply IH. intros y Hy. apply H. by right.
  - unfold overlaps. specialize (H x (list_elem_of_here _ _)). lia.
Qed.

Lemma collected_nil sc w w' : grew w w' [] → collected [] sc sc w w'.
Proof using. intros Hg. exists []. rewrite !app_nil_r. done. Qed.

Lemma slices_wf_cons_after curr l x :
  slices_wf (curr :: l) → x ∈ l → send curr <= soff x.
Proof using.
  intros [Hs _] Hx. apply StronglySorted_inv in Hs as [_ Hf].
  by apply (proj1 (Forall_forall _ _) Hf) in Hx.
Qed.

(** [sc_alloc] with the final gap, as [add_slice] computes it. *)
Definition final_alloc (sc : Scan) : Z := sc_alloc sc + Z.max 0 (b - sc_start sc).

Lemma pieces_right curr : a <= soff curr → b < send curr →
  pieces a b curr = [piece curr b (send curr)].
Proof using.
  clear Hab. intros H1 H2. unfold pieces.
  rewrite (proj2 (Z.ltb_ge _ _) H1), (proj2 (Z.ltb_lt _ _) H2). done.
Qed.
Lemma pieces_none curr : a <= soff curr → send curr <= b → pieces a b curr = [].
Proof using.
  clear Hab. intros H1 H2. unfold pieces.
  by rewrite (proj2 (Z.ltb_ge _ _) H1), (proj2 (Z.ltb_ge _ _) H2).
Qed.

Lemma add_slice_loop_run nodes sc w sc' w' :
  slices_wf nodes → (∀ x, x ∈ nodes → a <= soff x) →
  (∀ x, x ∈ nodes → sc_start sc <= soff x) →
  add_slice_loop b nodes sc w = (inr sc', w') →
  collected nodes sc sc' w w' ∧ final_alloc sc' = final_alloc sc - overlap_sum nodes.
Proof using Hab.
  revert sc w. induction nodes as [|curr rest IH]; intros sc w Hwf Ha Hst H; simpl in H.
  { unfold mret, M_ret in H. simplify_eq. split; [apply collected_nil, grew_refl|].
    change (overlap_sum []) with 0. lia. }
  assert (Hv : valid_slice curr) by (eapply slices_wf_valid; [exact Hwf|by left]).
  assert (Hac : a <= soff curr) by (apply Ha; by left).
  assert (Hsc : sc_start sc <= soff curr) by (apply Hst; by left).
  assert (Hpos : soff curr < send curr) by (unfold valid_slice, send in *; lia).
  assert (Hafter : ∀ x, x ∈ rest → send curr <= soff x)
    by (intros x Hx; by eapply slices_wf_cons_after).
  destruct (Z.leb_spec b (soff curr)) as [Hb|Hb].
  - unfold mret, M_ret in H. simplify_eq. unfold overlap_sum, collected.
    rewrite filter_overlaps_ge.
    2:{ intros x [->|Hx]%elem_of_cons; [done|]. specialize (Hafter _ Hx). lia. }
    split; [|simpl; lia]. apply collected_nil, grew_refl.
  - minv. destruct (push_run _ _ _ _ _ H) as [Hd Hg].
    assert (Ho : overlaps a b curr) by (unfold overlaps; lia).
    unfold overlap_sum, collected. rewrite filter_cons_True by done.
    rewrite sumZ_cons, bind_cons.
    assert (Hinc : (if sc_start sc <? soff curr
                    then sc_alloc sc + (soff curr - sc_start sc) else sc_alloc sc)
                   = sc_alloc sc + (soff curr - sc_start sc)).
    { destruct (Z.ltb_spec (sc_start sc) (soff curr)); lia. }
    rewrite Hinc in H0. destruct (Z.ltb_spec b (send curr)) as [He|He].
    + minv. apply dup_run in H0 as (s & Hs & Hstrip & Hg'); [|lia].
      rewrite filter_overlaps_ge by (intros y Hy; specialize (Hafter _ Hy); lia).
      rewrite (pieces_right curr Hac He). simpl. split.
      * exists [s]. rewrite Hd, Hs. split_and!; [done|done| |].
        -- rewrite list_fmap_singleton, Hstrip. do 2 f_equal. lia.
        -- by apply (grew_trans_l _ _ _ _ Hg).
      * unfold final_alloc, overlap_len. simpl. lia.
    + apply IH in H0 as ((new & Hn1 & Hn2 & Hn3 & Hn4) & Hn5); cycle 1.
      { by apply (slices_wf_app_r [curr]). }
      { intros y Hy. specialize (Hafter _ Hy). lia. }
      { done. }
      rewrite (pieces_none curr Hac He). split.
      * exists new. simpl in *. rewrite Hn1, Hd, <- app_assoc. split_and!; try done.
        by apply (grew_trans_l _ _ _ _ Hg).
      * rewrite Hn5. unfold final_alloc, overlap_sum, overlap_len. simpl. lia.
Qed.

Lemma delete_slices_loop_run nodes sc w sc' w' :
  slices_wf nodes → (∀ x, x ∈ nodes → a <= soff x) →
  delete_slices_loop b nodes sc w = (inr sc', w') →
  collected nodes sc sc' w w' ∧ sc_alloc sc' = sc_alloc sc + overlap_sum nodes.
Proof using Hab.
  revert sc w. induction nodes as [|curr rest IH]; intros sc w Hwf Ha H; simpl in H.
  { unfold mret, M_ret in H. simplify_eq. split; [apply collected_nil, grew_refl|].
    change (overlap_sum []) with 0. lia. }
  assert (Hv : valid_slice curr) by (eapply slices_wf_valid; [exact Hwf|by left]).
  assert (Hac : a <= soff curr) by (apply Ha; by left).
  assert (Hpos : soff curr < send curr) by (unfold valid_slice, send in *; lia).
  assert (Hafter : ∀ x, x ∈ rest → send curr <= soff x)
    by (intros x Hx; by eapply slices_wf_cons_after).
  destruct (Z.leb_spec b (soff curr)) as [Hb|Hb].
  - unfold mret, M_ret in H. simplify_eq. unfold overlap_sum, collected.
    rewrite filter_overlaps_ge.
    2:{ intros x [->|Hx]%elem_of_cons; [done|]. specialize (Hafter _ Hx). lia. }
    split; [|simpl; lia]. apply collected_nil, grew_refl.
  - minv. destruct (push_run _ _ _ _ _ H) as [Hd Hg].
    assert (Ho : overlaps a b curr) by (unfold overlaps; lia).
    unfold overlap_sum, collected. rewrite filter_cons_True by done.
    rewrite sumZ_cons, bind_cons.
    destruct (Z.ltb_spec b (send curr)) as [He|He].
    + minv. apply dup_run in H0 as (s & Hs & Hstrip & Hg'); [|lia].
      rewrite filter_overlaps_ge by (intros y Hy; specialize (Hafter _ Hy); lia).
      rewrite (pieces_right curr Hac He). simpl. split.
      * exists [s]. rewrite Hd, Hs. split_and!; [done|done| |].
        -- rewrite list_fmap_singleton, Hstrip. do 2 f_equal. lia.
        -- by apply (grew_trans_l _ _ _ _ Hg).
      * unfold overlap_len. simpl. lia.
    + apply IH in H0 as ((new & Hn1 & Hn2 & Hn3 & Hn4) & Hn5); cycle 1.
      { by apply (slices_wf_app_r [curr]). }
      { intros y Hy. specialize (Hafter _ Hy). lia. }
      rewrite (pieces_none curr Hac He). split.
      * exists new. simpl in *. rewrite Hn1, Hd, <- app_assoc. split_and!; try done.
        by apply (grew_trans_l _ _ _ _ Hg).
      * rewrite Hn5. unfold overlap_sum, overlap_len, send in *. simpl. lia.
Qed.

Lemma collected_trans l1 l2 sc0 sc1 sc2 w0 w1 w2 :
  collected l1 sc0 sc1 w0 w1 → collected l2 sc1 sc2 w1 w2 →
  collected (l1 ++ l2) sc0 sc2 w0 w2.
Proof using.
  intros (n1 & Hd1 & Ha1 & Hp1 & Hg1) (n2 & Hd2 & Ha2 & Hp2 & Hg2).
  exists (n1 ++ n2). rewrite filter_app, Hd2, Hd1, Ha2, Ha1, fmap_app, Hp1, Hp2,
    bind_app, <- !app_assoc. split_and!; try done. by eapply grew_trans.
Qed.

Lemma collected_pre pre l sc sc' w w' :
  (∀ x, x ∈ pre → send x <= a) → collected l sc sc' w w' →
  collected (pre ++ l) sc sc' w w'.
Proof using.
  intros Hp Hc. apply (collected_trans _ _ _ sc _ _ w); [|done].
  exists []. rewrite (filter_overlaps_le pre Hp), !app_nil_r.
  split_and!; try done. apply grew_refl.
Qed.

Definition scan0 (start : Z) : Scan :=
  mkScan INIT_SLICE_PTR_ARRAY INIT_SLICE_PTR_ARRAY 0 start.

Lemma pieces_left curr : soff curr < a → send curr <= b →
  pieces a b curr = [piece curr (soff curr) a].
Proof using.
  clear Hab. intros H1 H2. unfold pieces.
  rewrite (proj2 (Z.ltb_lt _ _) H1), (proj2 (Z.ltb_ge _ _) H2). done.
Qed.
Lemma pieces_both curr : soff curr < a → b < send curr →
  pieces a b curr = [piece curr (soff curr) a; piece curr b (send curr)].
Proof using.
  clear Hab. intros H1 H2. unfold pieces.
  rewrite (proj2 (Z.ltb_lt _ _) H1), (proj2 (Z.ltb_lt _ _) H2). done.
Qed.

(** Cutting the slice before the insertion point: the common part of
    [add_slice_previous] and [delete_slices_previous]. *)
Lemma cut_previous curr w del w1 add w2 add' w3 start alloc start' :
  soff curr < a → a < send curr →
  add_to_slice_ptr_smart_array INIT_SLICE_PTR_ARRAY curr w = (inr del, w1) →
  dup_slice_to_smart_array curr (soff curr) (a - soff curr) INIT_SLICE_PTR_ARRAY w1
    = (inr add, w2) →
  (if b <? send curr then dup_slice_to_smart_array curr b (send curr - b) add
   else mret add) w2 = (inr add', w3) →
  collected [curr] (scan0 start) (mkScan del add' alloc start') w w3.
Proof using Hab.
  intros H1 H2 Hd Ha Ha'.
  destruct (push_run _ _ _ _ _ Hd) as [Hd1 Hg1].
  apply dup_run in Ha as (s & Hs & Hst & Hg2); [|lia].
  assert (Ho : overlaps a b curr) by (unfold overlaps; lia).
  unfold collected. rewrite filter_cons_True, filter_nil by done.
  rewrite bind_cons. change ([] ≫= pieces a b) with (@nil OBSliceEntry).
  rewrite app_nil_r. simpl.
  destruct (Z.ltb_spec b (send curr)) as [He|He].
  - apply dup_run in Ha' as (s' & Hs' & Hst' & Hg3); [|lia].
    exists [s; s']. rewrite Hs', Hs, Hd1, (pieces_both curr H1 He).
    split_and!; [done|done| |].
    + rewrite !fmap_cons, fmap_nil, Hst, Hst'. repeat f_equal; lia.
    + apply (grew_trans_l _ _ _ _ Hg1). change [s; s'] with ([s] ++ [s']).
      by eapply grew_trans.
  - unfold mret, M_ret in Ha'. simplify_eq.
    exists [s]. rewrite Hs, Hd1, (pieces_left curr H1 He).
    split_and!; [done|done| |].
    + rewrite list_fmap_singleton, Hst. repeat f_equal; lia.
    + by apply (grew_trans_l _ _ _ _ Hg1).
Qed.

Lemma collected_none_previous curr sc w :
  send curr <= a → collected [curr] sc sc w w.
Proof using.
  intros H. apply (collected_pre [curr] []).
  - intros x ->%list_elem_of_singleton. done.
  - apply collected_nil, grew_refl.
Qed.

Lemma overlap_sum_one curr : overlaps a b curr → overlap_sum [curr] = overlap_len a b curr.
Proof using.
  intros Ho. unfold overlap_sum. rewrite filter_cons_True, filter_nil by done.
  simpl. lia.
Qed.
Lemma overlap_sum_app l k : overlap_sum (l ++ k) = overlap_sum l + overlap_sum k.
Proof using. unfold overlap_sum. by rewrite filter_app, sumZ_app. Qed.
Lemma overlap_sum_le l : (∀ x, x ∈ l → send x <= a) → overlap_sum l = 0.
Proof using. intros H. unfold overlap_sum. by rewrite filter_overlaps_le. Qed.
End ScanSpec.

Lemma add_slice_previous_run slice previous w sc w' :
  0 < slen slice →
  (∀ c, previous = Some c → soff c < soff slice) →
  add_slice_previous slice previous w = (inr sc, w') →
  collected (soff slice) (send slice) (option_list previous) (scan0 (soff slice)) sc w w' ∧
  final_alloc (send slice) sc =
    slen slice - overlap_sum (soff slice) (send slice) (option_list previous) ∧
  (sc_start sc = soff slice ∨ ∃ c, previous = Some c ∧ sc_start sc = send c).
Proof.
  intros Hlen Hp H. assert (Hab : soff slice < send slice) by (unfold send; lia).
  unfold add_slice_previous in H. destruct previous as [curr|]; simpl.
  2:{ unfold mret, M_ret in H. simplify_eq. split_and!; [|unfold final_alloc, send; simpl|by left].
      - apply collected_nil, grew_refl.
      - change (overlap_sum (soff slice) (soff slice + slen slice) []) with 0. lia. }
  specialize (Hp _ eq_refl).
  destruct (Z.ltb_spec (soff slice) (send curr)) as [Ho|Ho].
  - minv. split_and!; [by eapply cut_previous| |right; eauto].
    rewrite overlap_sum_one by (unfold overlaps; lia).
    unfold final_alloc, overlap_len, send in *. simpl. lia.
  - unfold mret, M_ret in H. simplify_eq. split_and!; [|unfold final_alloc; simpl|by left].
    + by apply collected_none_previous.
    + rewrite overlap_sum_le by (intros x ->%list_elem_of_singleton; lia).
      unfold send. lia.
Qed.

Lemma delete_slices_previous_run ss previous w sc w' :
  0 < ss_length ss →
  (∀ c, previous = Some c → soff c < ss_offset ss) →
  delete_slices_previous ss previous w = (inr sc, w') →
  let a := ss_offset ss in let b := ss_offset ss + ss_length ss in
  collected a b (option_list previous) (scan0 0) sc w w' ∧
  sc_alloc sc = overlap_sum a b (option_list previous).
Proof.
  intros Hlen Hp H. cbn zeta. unfold delete_slices_previous in H.
  set (a := ss_offset ss) in *. set (b := a + ss_length ss) in *.
  assert (Hab : a < b) by lia. destruct previous as [curr|]; simpl.
  2:{ unfold mret, M_ret in H. simplify_eq. split; [apply collected_nil, grew_refl|done]. }
  specialize (Hp _ eq_refl).
  destruct (Z.ltb_spec a (send curr)) as [Ho|Ho].
  - assert (Hov : overlaps a b curr) by (unfold overlaps; lia).
    rewrite (overlap_sum_one _ _ _ Hov). minv.
    destruct (b <? send curr) eqn:Hb; minv; simpl.
    + split; [|zbool; unfold overlap_len; lia].
      eapply cut_previous; try done. by rewrite Hb.
    + split; [|zbool; unfold overlap_len; lia].
      eapply cut_previous; try done. by rewrite Hb.
  - unfold mret, M_ret in H. simplify_eq. split.
    + by apply collected_none_previous.
    + by rewrite overlap_sum_le by (intros x ->%list_elem_of_singleton; lia).
Qed.
End Run.

(** ** Applying the collected changes

    The effect of [do_delete_slice], [do_add_slice] and of the loops over them on
    the list of slices, the reference counts and the trunk accounting. *)

Section Apply.
Context {T A : Type} `{!UniqSkiplist OBSliceEntry T} `{!SliceAccount A}.
Context `{!UniqSkiplistSpec slice_compare} `{!SliceAccountSpec A}.
Implicit Types (w : World A) (s slice : OBSliceEntry) (t : T).

(** ** Accounting *)

(** The trunk of a slice exists. *)
Definition known w s : Prop :=
  is_Some (acct_used (w_acct w) (sp_store (se_space s)) (ti_id (sp_id_info (se_space s)))).

(** The used bytes of every trunk moved by [δ] (when accounting is on). *)
Definition acct_shift (f : OBFlags) (w w' : World A) (δ : Z → Z → Z) : Prop :=
  if modify_sallocator f
  then ∀ st id, acct_used (w_acct w') st id = (λ u, u + δ st id) <$> acct_used (w_acct w) st id
  else w_acct w' = w_acct w.

Lemma acct_shift_refl f w w' : w_acct w' = w_acct w → acct_shift f w w' (λ _ _, 0).
Proof using.
  unfold acct_shift. intros ->. case_match; [|done]. intros st id.
  destruct (acct_used (w_acct w) st id); simpl; [|done]. f_equal. lia.
Qed.
Lemma acct_shift_trans f w1 w2 w3 d1 d2 :
  acct_shift f w1 w2 d1 → acct_shift f w2 w3 d2 →
  acct_shift f w1 w3 (λ st id, d1 st id + d2 st id).
Proof using.
  unfold acct_shift. case_match; [|congruence]. intros H1 H2 st id.
  rewrite H2, H1. destruct (acct_used (w_acct w1) st id); simpl; [|done]. f_equal. lia.
Qed.
Lemma acct_shift_ext f w w' d1 d2 :
  (∀ st id, d1 st id = d2 st id) → acct_shift f w w' d1 → acct_shift f w w' d2.
Proof using. unfold acct_shift. case_match; [|done]. intros Hd H0 st id. by rewrite <- Hd. Qed.
Lemma acct_shift_eq_l f w w1 w' d :
  w_acct w1 = w_acct w → acct_shift f w1 w' d → acct_shift f w w' d.
Proof using. unfold acct_shift. by intros ->. Qed.
Lemma acct_shift_known f w w' d s : acct_shift f w w' d → known w s → known w' s.
Proof using.
  unfold acct_shift, known. case_match; intros H0 H1; [|by rewrite H0].
  rewrite H0. by apply fmap_is_Some.
Qed.

Definition sizes_in (st id : Z) (l : list OBSliceEntry) : Z := sumZ (size_in st id) l.

(** Nothing but reference counts and accounting changed. *)
Definition same_rest (w w' : World A) : Prop :=
  w_mem w' = w_mem w ∧ w_next w' = w_next w ∧ w_sn w' = w_sn w.
Lemma same_rest_refl w : same_rest w w.
Proof using. done. Qed.
Lemma same_rest_trans w1 w2 w3 : same_rest w1 w2 → same_rest w2 w3 → same_rest w1 w3.
Proof using. unfold same_rest. intuition congruence. Qed.

(** ** One step *)

Lemma do_delete_slice_run f s t w :
  slices_wf (sl_level0 t) → s ∈ sl_level0 t →
  let tw' := (do_delete_slice f s (t, w)).2 in
  sl_level0 tw'.1 = filter (λ x, x ≠ s) (sl_level0 t) ∧
  (∀ id, ref_count tw'.2 id = ref_count w id - occ id [s]) ∧
  (0 < ref_count w (se_id s) → refs_pos w → refs_pos tw'.2) ∧
  (known w s → acct_shift f w tw'.2 (λ st id, - sizes_in st id [s])) ∧
  same_rest w tw'.2.
Proof using UniqSkiplistSpec0 SliceAccountSpec0.
  intros Hwf Hs. pose proof (slices_wf_sorted _ Hwf) as Hsort.
  assert (Hfind : uniq_skiplist_find t s = Some s).
  { apply (sl_find_spec (cmp := slice_compare)); [done|]. split; [done|].
    unfold slice_compare. lia. }
  destruct (sl_delete_found (cmp := slice_compare) t s Hsort) as [Hd1 Hd2].
  { exists s. split; [done|unfold slice_compare; lia]. }
  unfold do_delete_slice. rewrite Hfind.
  destruct (uniq_skiplist_delete t s) as [r t']. simpl in *.
  set (w1 := if modify_sallocator f then _ else w).
  assert (Hrc : ∀ id, ref_count w1 id = ref_count w id) by (intros; unfold w1; by case_match).
  assert (Hrp : refs_pos w → refs_pos w1) by (unfold w1; by case_match).
  split_and!.
  - rewrite Hd2. apply filter_ext_in. intros x Hx. split; intros Hne H.
    + subst x. apply Hne. unfold slice_compare. lia.
    + apply Hne. by apply (sorted_unique slice_compare _ x s Hsort).
  - intros id. rewrite ref_count_free, Hrc, occ_cons, occ_nil. lia.
  - intros H1 H2. apply refs_pos_free; [by rewrite Hrc|by apply Hrp].
  - intros Hk. unfold acct_shift. 
    assert (w_acct (slice_free_func s w1) = w_acct w1) as ->
      by (unfold slice_free_func; by case_match).
    unfold w1. destruct (modify_sallocator f); simpl; [|done]. intros st id.
    rewrite (acct_delete_spec _ _ _ Hk). unfold sizes_in. simpl.
    destruct (acct_used (w_acct w) st id); simpl; [|done]. f_equal. lia.
  - unfold same_rest, slice_free_func, w1. by repeat case_match.
Qed.

Lemma do_add_slice_run f s t w :
  slices_wf (sl_level0 t) → valid_slice s →
  (∀ x, x ∈ sl_level0 t → disjoint_slices x s) →
  let '(r, (t', w')) := do_add_slice f s (t, w) in
  sl_level0 t' ≡ₚ s :: sl_level0 t ∧ slices_wf (sl_level0 t') ∧
  w_refs w' = w_refs w ∧
  (known w s → r = 0 ∧ acct_shift f w w' (λ st id, sizes_in st id [s])) ∧
  same_rest w w'.
Proof using UniqSkiplistSpec0 SliceAccountSpec0.
  intros Hwf Hv Hd. pose proof (slices_wf_sorted _ Hwf) as Hsort.
  destruct (sl_insert_new (cmp := slice_compare) t s Hsort) as (Hr & Hp & Hsort').
  { intros x Hx. specialize (Hd x Hx). apply (slices_wf_valid _ _ Hwf) in Hx.
    unfold disjoint_slices, before, valid_slice, slice_compare, send in *. lia. }
  assert (Hwf' : slices_wf (sl_level0 (uniq_skiplist_insert t s).2)).
  { apply slices_wf_intro; [done| |].
    - intros x. rewrite Hp, elem_of_cons. intros [->|Hx]; [done|].
      by apply (slices_wf_valid _ _ Hwf).
    - intros x y. rewrite Hp, !elem_of_cons. intros [->|Hx] [->|Hy] Hne; [done|..].
      + destruct (Hd y Hy); [by right|by left].
      + by apply Hd.
      + by apply (slices_wf_disjoint (sl_level0 t)). }
  unfold do_add_slice. destruct (uniq_skiplist_insert t s) as [r t']. simpl in *. subst r.
  simpl. destruct (modify_sallocator f) eqn:Hm.
  - destruct (acct_add_slice (w_acct w) s (modify_used_space f)) as [r a'] eqn:Ha.
    split_and!; try done. intros Hk. destruct (acct_add_spec (w_acct w) s (modify_used_space f) Hk)
      as [H1 H2]. rewrite Ha in H1, H2. simpl in *. split; [done|].
    unfold acct_shift. rewrite Hm. simpl. intros st id. rewrite H2. unfold sizes_in. simpl.
    destruct (acct_used (w_acct w) st id); simpl; [|done]. f_equal. lia.
  - split_and!; try done. intros _. split; [done|].
    unfold acct_shift. by rewrite Hm.
Qed.

(** ** The loops *)

Lemma filter_not_in_cons (l dels : list OBSliceEntry) s :
  filter (λ x, x ∉ dels) (filter (λ x, x ≠ s) l) = filter (λ x, x ∉ s :: dels) l.
Proof using.
  rewrite list_filter_filter. apply list_filter_iff. intros x. rewrite not_elem_of_cons. tauto.
Qed.

Lemma slices_wf_filter (P : OBSliceEntry → Prop) `{∀ x, Decision (P x)} l :
  slices_wf l → slices_wf (filter P l).
Proof using.
  intros Hwf. apply slices_wf_intro.
  - apply slices_wf_sorted in Hwf. induction Hwf as [|x l Hl IH Hx]; [constructor|].
    rewrite filter_cons. case_decide; [|done]. constructor; [done|].
    rewrite Forall_forall in Hx. apply Forall_forall. intros y [_ Hy]%list_elem_of_filter.
    by apply Hx.
  - intros x [_ Hx]%list_elem_of_filter. by apply (slices_wf_valid l).
  - intros x y [_ Hx]%list_elem_of_filter [_ Hy]%list_elem_of_filter.
    by apply (slices_wf_disjoint l).
Qed.

Lemma del_all_run f dels t w :
  slices_wf (sl_level0 t) → NoDup dels → (∀ s, s ∈ dels → s ∈ sl_level0 t) →
  let tw' := del_all f dels (t, w) in
  sl_level0 tw'.1 = filter (λ x, x ∉ dels) (sl_level0 t) ∧
  (∀ id, ref_count tw'.2 id = ref_count w id - occ id dels) ∧
  ((∀ id, occ id dels <= ref_count w id) → refs_pos w → refs_pos tw'.2) ∧
  ((∀ s, s ∈ dels → known w s) →
     acct_shift f w tw'.2 (λ st id, - sizes_in st id dels)) ∧
  same_rest w tw'.2.
Proof using UniqSkiplistSpec0 SliceAccountSpec0.
  revert t w. induction dels as [|s dels IH]; intros t w Hwf Hnd Hin.
  { simpl. split_and!; try done.
    - symmetry. apply filter_true_in. intros. apply not_elem_of_nil.
    - intros. rewrite occ_nil. lia.
    - intros _. by apply (acct_shift_refl f w w). }
  apply NoDup_cons in Hnd as [Hns Hnd].
  change (del_all f (s :: dels) (t, w))
    with (del_all f dels (do_delete_slice f s (t, w)).2).
  destruct (do_delete_slice_run f s t w Hwf) as (H1 & H2 & H3 & H4 & H5).
  { apply Hin. by left. }
  destruct (do_delete_slice f s (t, w)) as [r [t1 w1]]. simpl in *.
  destruct (IH t1 w1) as (I1 & I2 & I3 & I4 & I5); [|done| |].
  { rewrite H1. by apply slices_wf_filter. }
  { intros x Hx. rewrite H1. apply list_elem_of_filter. split; [congruence|].
    apply Hin. by right. }
  split_and!.
  - rewrite I1, H1. apply filter_not_in_cons.
  - intros id. rewrite I2, H2, !occ_cons, occ_nil. lia.
  - intros Hc Hp. apply I3.
    + intros id. specialize (Hc id). rewrite H2. rewrite !occ_cons, occ_nil in *. lia.
    + apply H3; [|done]. specialize (Hc (se_id s)). rewrite occ_cons, Z.eqb_refl in Hc.
      pose proof (occ_nonneg (se_id s) dels). lia.
  - intros Hk. assert (Hk1 : known w s) by (apply Hk; by left).
    eapply acct_shift_ext; [|eapply acct_shift_trans; [by apply H4|apply I4]].
    + intros st id. unfold sizes_in. simpl. lia.
    + intros x Hx. eapply acct_shift_known; [by apply H4|]. apply Hk. by right.
  - by eapply same_rest_trans.
Qed.

Lemma add_all_run f adds t w :
  slices_wf (sl_level0 t) → slices_wf adds →
  (∀ x y, x ∈ sl_level0 t → y ∈ adds → disjoint_slices x y) →
  let tw' := add_all f adds (t, w) in
  sl_level0 tw'.1 ≡ₚ adds ++ sl_level0 t ∧ slices_wf (sl_level0 tw'.1) ∧
  w_refs tw'.2 = w_refs w ∧
  ((∀ s, s ∈ adds → known w s) → acct_shift f w tw'.2 (λ st id, sizes_in st id adds)) ∧
  same_rest w tw'.2.
Proof using UniqSkiplistSpec0 SliceAccountSpec0.
  revert t w. induction adds as [|s adds IH]; intros t w Hwf Ha Hd.
  { simpl. split_and!; try done. intros _. by apply (acct_shift_refl f w w). }
  change (add_all f (s :: adds) (t, w))
    with (add_all f adds (do_add_slice f s (t, w)).2).
  pose proof (do_add_slice_run f s t w Hwf) as H.
  destruct (do_add_slice f s (t, w)) as [r [t1 w1]].
  destruct H as (H1 & H2 & H3 & H4 & H5).
  { apply (slices_wf_valid _ _ Ha). by left. }
  { intros x Hx. apply Hd; [done|by left]. }
  destruct (IH t1 w1) as (I1 & I2 & I3 & I4 & I5); [done| | |].
  { by apply (slices_wf_app_r [s]). }
  { intros x y. rewrite H1, elem_of_cons. intros [->|Hx] Hy.
    - left. by apply (slices_wf_cons_after s adds).
    - apply Hd; [done|by right]. }
  simpl. split_and!; [|done|by rewrite I3| |by eapply same_rest_trans].
  - rewrite I1, H1. apply Permutation_sym, Permutation_middle.
  - intros Hk. assert (Hk1 : known w s) by (apply Hk; by left).
    eapply acct_shift_ext; [|eapply acct_shift_trans; [by apply H4|apply I4]].
    + intros st id. unfold sizes_in. simpl. lia.
    + intros x Hx. eapply acct_shift_known; [by apply H4|]. apply Hk. by right.
Qed.

(** ** The pieces left by a cut *)

Lemma pieces_wf a b s : a < b → valid_slice s → overlaps a b s → slices_wf (pieces a b s).
Proof using.
  intros Hab Hv Ho.
  assert (Hval : Forall valid_slice (pieces a b s)).
  { apply Forall_forall. intros x Hx. by destruct (piece_elem a b s x Hab Hx Ho Hv). }
  split; [|done]. unfold pieces. repeat case_match; simpl; repeat constructor.
  unfold before, send, soff, slen. simpl. fold (soff s). lia.
Qed.

Lemma slices_wf_app l k :
  slices_wf l → slices_wf k → (∀ x y, x ∈ l → y ∈ k → before x y) → slices_wf (l ++ k).
Proof using.
  intros [Hl1 Hl2] [Hk1 Hk2] H. split; [|by apply Forall_app].
  apply StronglySorted_app. split_and!; try done.
Qed.

Lemma cut_wf a b l :
  a < b → slices_wf l → slices_wf (filter (overlaps a b) l ≫= pieces a b).
Proof using.
  intros Hab. induction l as [|s l IH]; intros Hwf; [apply slices_wf_nil|].
  pose proof (slices_wf_app_r [s] l Hwf) as Hwfl.
  assert (Hvs : valid_slice s) by (apply (slices_wf_valid _ _ Hwf); by left).
  rewrite filter_cons. case_decide as Ho; [|by apply IH].
  rewrite bind_cons. apply slices_wf_app; [by apply pieces_wf|by apply IH|].
  intros x y Hx (z & Hy & [Hoz Hz]%list_elem_of_filter)%list_elem_of_bind.
  destruct (piece_elem a b s x Hab Hx Ho Hvs) as (_ & _ & ? & _).
  destruct (piece_elem a b z y Hab Hy Hoz (slices_wf_valid _ _ Hwfl Hz)) as (_ & ? & _).
  pose proof (slices_wf_cons_after s l z Hwf Hz). unfold before. lia.
Qed.

Lemma slices_wf_strip l : slices_wf (strip <$> l) → slices_wf l.
Proof using.
  intros [Hs Hv]. split.
  - clear Hv. induction l as [|s l IH]; [constructor|].
    rewrite fmap_cons in Hs. apply StronglySorted_inv in Hs as [Hs Hf].
    constructor; [by apply IH|]. rewrite Forall_fmap in Hf. exact Hf.
  - rewrite Forall_fmap in Hv. exact Hv.
Qed.
End Apply.
