(* ===== verification/ObSlicesThms.v ===== *)
(** * Correctness of [add_slice], [delete_slices] and [get_slices] on one block

    The theorems of this file relate the three algorithms to the abstract content
    of a block ([lookup_byte]), and state what happens on their error paths. *)
From S2P Require Import Prelude Types Skiplist ObSlices ObSlicesRun.

#[local] Arguments do_add_slice : simpl never.

Section Thms.
Context {T A : Type} `{!UniqSkiplist OBSliceEntry T} `{!SliceAccount A}.
Context `{!UniqSkiplistSpec slice_compare} `{!SliceAccountSpec A}.
Implicit Types (w : World A) (s slice : OBSliceEntry) (t : T).

(** ** Allocating computations

    A computation that only allocates adds references and leaves the accounting alone, fails with
    [ENOMEM] only, and succeeds when memory is available. *)
Record refs_up w w' : Prop := {
  ru_acct : w_acct w' = w_acct w;
  ru_sn : w_sn w' = w_sn w;
  ru_refs : ∀ id, ref_count w id <= ref_count w' id;
  ru_pos : refs_pos w → refs_pos w';
}.
Lemma refs_up_refl w : refs_up w w.
Proof using. split; auto with lia. Qed.
Lemma refs_up_trans w1 w2 w3 : refs_up w1 w2 → refs_up w2 w3 → refs_up w1 w3.
Proof using.
  intros [] []. split; [congruence|congruence| |auto].
  intros id. etransitivity; [apply ru_refs0|apply ru_refs1].
Qed.

Definition allocating {B} (m : M (World A) B) : Prop :=
  ∀ w r w', m w = (r, w') →
    refs_up w w' ∧ (∀ e, r = inl e → e = ENOMEM) ∧
    (w_mem w = [] → (∃ x, r = inr x) ∧ w_mem w' = []).

Lemma allocating_ret {B} (x : B) : allocating (mret x).
Proof using. intros w r w' [= <- <-]. split_and!; [apply refs_up_refl|done|eauto]. Qed.
Lemma allocating_bind {B C} (m : M (World A) B) (k : B → M (World A) C) :
  allocating m → (∀ x, allocating (k x)) → allocating (m ≫= k).
Proof using.
  intros Hm Hk w r w'. unfold mbind, M_bind.
  destruct (m w) as [[e|x] w1] eqn:E; destruct (Hm _ _ _ E) as (H1 & H2 & H3).
  - intros [= <- <-]. split_and!; [done| |].
    + intros e' [= <-]. by apply H2.
    + intros Hw. by destruct (H3 Hw) as [[x ?] _].
  - intros E'. destruct (Hk x _ _ _ E') as (K1 & K2 & K3).
    split_and!; [by eapply refs_up_trans|done|].
    intros Hw. apply K3. by apply H3.
Qed.
Lemma refs_up_mem w m : refs_up w (set_mem m w).
Proof using. by split. Qed.
Lemma allocating_alloc_ok {B} (k : M (World A) B) :
  allocating k →
  allocating (ok ← alloc_ok; if negb ok then mfail ENOMEM else k).
Proof using.
  intros Hk w r w'. unfold mbind, M_bind, alloc_ok.
  destruct (w_mem w) as [|[] m] eqn:E; simpl.
  - intros H%Hk. rewrite E in H. exact H.
  - intros H%Hk. destruct H as (H1 & H2 & H3).
    split_and!; [|done|done]. eapply refs_up_trans; [|exact H1]. apply refs_up_mem.
  - intros [= <- <-]. split_and!; [apply refs_up_mem|by intros e [= <-]|done].
Qed.
Lemma allocating_modify (g : World A → World A) :
  (∀ w, refs_up w (g w) ∧ w_mem (g w) = w_mem w) → allocating (mmodify g).
Proof using.
  intros Hg w r w' [= <- <-]. destruct (Hg w) as [? ?].
  split_and!; [done|done|]. intros Hw. split; [eauto|congruence].
Qed.
Lemma allocating_fresh : allocating fresh_id.
Proof using.
  intros w r w' [= <- <-]. split_and!; [by split|done|eauto].
Qed.

Lemma allocating_push arr s : allocating (add_to_slice_ptr_smart_array arr s).
Proof using.
  unfold add_to_slice_ptr_smart_array. case_match; [apply allocating_alloc_ok|];
    apply allocating_ret.
Qed.
Lemma allocating_slice_dup src o len : allocating (slice_dup src o len).
Proof using.
  apply allocating_alloc_ok, allocating_bind; [apply allocating_fresh|]. intros id.
  apply allocating_bind; [|intros _; apply allocating_ret].
  apply allocating_modify. intros w. split; [|done]. split; try done.
  - intros i. rewrite ref_count_add. case_match; lia.
  - by apply refs_pos_add.
Qed.
Lemma allocating_dup src o len arr : allocating (dup_slice_to_smart_array src o len arr).
Proof using.
  apply allocating_bind; [apply allocating_slice_dup|]. intros s. apply allocating_push.
Qed.

Hint Resolve allocating_ret allocating_push allocating_dup : fstore.
Ltac alloc_solve :=
  repeat first
    [ progress eauto with fstore
    | apply allocating_bind; [|intros ?]
    | case_match ].

Lemma allocating_add_previous s prev : allocating (add_slice_previous s prev).
Proof using. unfold add_slice_previous. alloc_solve. Qed.
Lemma allocating_delete_previous ss prev : allocating (delete_slices_previous ss prev).
Proof using. unfold delete_slices_previous. alloc_solve. Qed.
Lemma allocating_add_loop b nodes sc : allocating (add_slice_loop b nodes sc).
Proof using. revert sc. induction nodes; intros sc; simpl; alloc_solve. Qed.
Lemma allocating_delete_loop b nodes sc : allocating (delete_slices_loop b nodes sc).
Proof using. revert sc. induction nodes; intros sc; simpl; alloc_solve. Qed.

(** ** The two scans, as one computation *)

Definition add_scan slice t : M (World A) Scan :=
  let node := uniq_skiplist_find_ge_node t slice in
  sc0 ← add_slice_previous slice (prev_data t node);
  add_slice_loop (send slice) (nodes_of t node) sc0.
Definition delete_scan ss t : M (World A) Scan :=
  let node := uniq_skiplist_find_ge_node t (target_of ss) in
  sc0 ← delete_slices_previous ss (prev_data t node);
  delete_slices_loop (ss_offset ss + ss_length ss) (nodes_of t node) sc0.

Lemma on_world_bind {B C} (m : M (World A) B) (k : B → M (World A) C) tw :
  on_world (T := T) (m ≫= k) tw = (on_world m ≫= λ x, on_world (k x)) tw.
Proof using.
  unfold on_world, mbind, M_bind. destruct tw as [t w]. simpl.
  by destruct (m w) as [[e|x] w1].
Qed.

Lemma find_ge_around (slice : OBSliceEntry) t :
  slices_wf (sl_level0 t) →
  let node := uniq_skiplist_find_ge_node t slice in
  ∃ pre, sl_level0 t = pre ++ option_list (prev_data t node) ++ nodes_of t node ∧
    (∀ c, prev_data t node = Some c → soff c < soff slice) ∧
    (∀ x, x ∈ nodes_of t node → soff slice <= soff x) ∧
    (∀ x, x ∈ pre → send x <= soff slice) ∧
    (∀ c x, prev_data t node = Some c → x ∈ nodes_of t node → send c <= soff x).
Proof using UniqSkiplistSpec0.
  intros Hwf node.
  destruct (find_ge_split slice_compare t slice (slices_wf_sorted _ Hwf))
    as (pre & Hl & H1 & H2 & H3). fold node in Hl, H1, H2, H3.
  exists pre. split_and!; [done|..].
  - intros c Hc. specialize (H1 c). rewrite Hc in H1. unfold slice_compare in H1.
    assert (soff c - soff slice < 0); [|lia]. apply H1. apply elem_of_app. right. by left.
  - intros x Hx. specialize (H2 x Hx). unfold slice_compare in H2. lia.
  - intros x Hx. destruct (prev_data t node) as [c|] eqn:Hc.
    + assert (send x <= soff c).
      { rewrite Hl in Hwf. destruct Hwf as [Hs _].
        apply (sorting.StronglySorted_app_1_elem_of _ _ _ x c) in Hs; [done|done|].
        apply elem_of_app. left. by left. }
      specialize (H1 c). unfold slice_compare in H1.
      assert (soff c - soff slice < 0); [|lia]. apply H1. apply elem_of_app. right. by left.
    + rewrite H3 in Hx by done. by apply elem_of_nil in Hx.
  - intros c x Hc Hx. rewrite Hl, Hc in Hwf.
    apply slices_wf_app_r in Hwf. by apply (slices_wf_cons_after c (nodes_of t node)).
Qed.

Lemma add_scan_run slice t w sc w' :
  slices_wf (sl_level0 t) → valid_slice slice →
  add_scan slice t w = (inr sc, w') →
  let a := soff slice in let b := send slice in
  collected a b (sl_level0 t) (scan0 a) sc w w' ∧
  final_alloc b sc = slen slice - overlap_sum a b (sl_level0 t).
Proof using UniqSkiplistSpec0.
  intros Hwf (Hv1 & Hv2 & Hv3) H. cbn zeta.
  destruct (find_ge_around slice t Hwf) as (pre & Hl & Hprev & Hnodes & Hpre & Hbetween).
  unfold add_scan in H. set (node := uniq_skiplist_find_ge_node t slice) in *. minv.
  apply add_slice_previous_run in H as (Hc1 & Hf1 & Hst); [|done|done].
  apply (add_slice_loop_run (soff slice) (send slice)) in H0 as [Hc2 Hf2].
  - rewrite Hl. split.
    + apply collected_pre; [done|]. by eapply collected_trans.
    + rewrite Hf2. rewrite Hf1, !overlap_sum_app, (overlap_sum_le _ _ pre Hpre). lia.
  - unfold send. lia.
  - rewrite Hl in Hwf. by apply slices_wf_app_r, slices_wf_app_r in Hwf.
  - done.
  - intros y Hy. destruct Hst as [->|(c & Hc & ->)]; [by apply Hnodes|].
    by apply (Hbetween c).
Qed.

Lemma delete_scan_run ss t w sc w' :
  slices_wf (sl_level0 t) → 0 < ss_length ss →
  delete_scan ss t w = (inr sc, w') →
  let a := ss_offset ss in let b := ss_offset ss + ss_length ss in
  collected a b (sl_level0 t) (scan0 0) sc w w' ∧
  sc_alloc sc = overlap_sum a b (sl_level0 t).
Proof using UniqSkiplistSpec0.
  intros Hwf Hlen H. cbn zeta.
  destruct (find_ge_around (target_of ss) t Hwf) as (pre & Hl & Hprev & Hnodes & Hpre & Hbetween).
  unfold delete_scan in H. set (node := uniq_skiplist_find_ge_node t (target_of ss)) in *. minv.
  apply delete_slices_previous_run in H as (Hc1 & Hf1); [|done|done].
  apply (delete_slices_loop_run (ss_offset ss) (ss_offset ss + ss_length ss)) in H0 as [Hc2 Hf2].
  - rewrite Hl. split.
    + apply collected_pre; [done|]. by eapply collected_trans.
    + rewrite Hf2. rewrite Hf1, !overlap_sum_app,
        (overlap_sum_le _ _ pre Hpre). lia.
  - lia.
  - rewrite Hl in Hwf. by apply slices_wf_app_r, slices_wf_app_r in Hwf.
  - done.
Qed.

(** [add_slice] is the scan followed by the changes it collected; the case of
    an empty list is no exception. *)
Definition apply_scan (f : OBFlags) (sc : Scan) : T * World A → T * World A :=
  λ tw, add_all f (sa_slices (sc_add sc)) (del_all f (sa_slices (sc_del sc)) tw).

Lemma add_slice_eq f slice t w :
  valid_slice slice →
  add_slice f slice (t, w) =
    match add_scan slice t w with
    | (inl e, w1) => (inl e, (t, w1))
    | (inr sc, w1) =>
        let '(r, tw) := do_add_slice f slice (apply_scan f sc (t, w1)) in
        if r =? 0 then (inr (final_alloc (send slice) sc), tw) else (inl r, tw)
    end.
Proof using.
  intros (Hv1 & Hv2 & Hv3). unfold add_slice, add_scan.
  unfold mbind at 1, M_bind at 1, mget at 1. cbn beta iota.
  set (node := uniq_skiplist_find_ge_node t slice).
  assert (Hgap : ∀ sc, (if sc_start sc <? send slice
      then sc_alloc sc + (send slice - sc_start sc) else sc_alloc sc)
      = final_alloc (send slice) sc).
  { intros sc. unfold final_alloc. destruct (Z.ltb_spec (sc_start sc) (send slice)); lia. }
  assert (Hgen : ∀ prev nodes,
    (sc0 ← on_world (add_slice_previous slice prev);
     sc ← on_world (add_slice_loop (send slice) nodes sc0);
     mmodify (del_all f (sa_slices (sc_del sc)));;
     mmodify (add_all f (sa_slices (sc_add sc)));;
     tw ← mget;
     let '(r, tw') := do_add_slice f slice tw in
     mput tw';; errno r;;
     mret (if sc_start sc <? send slice
           then sc_alloc sc + (send slice - sc_start sc) else sc_alloc sc)) (t, w) =
    match (sc0 ← add_slice_previous slice prev; add_slice_loop (send slice) nodes sc0) w with
    | (inl e, w1) => (inl e, (t, w1))
    | (inr sc, w1) =>
        let '(r, tw) := do_add_slice f slice (apply_scan f sc (t, w1)) in
        if r =? 0 then (inr (final_alloc (send slice) sc), tw) else (inl r, tw)
    end).
  { intros prev nodes. unfold mbind, M_bind, on_world. simpl.
    destruct (add_slice_previous slice prev w) as [[e|sc0] w1]; [done|]. simpl.
    destruct (add_slice_loop (send slice) nodes sc0 w1) as [[e|sc] w2]; [done|].
    unfold mmodify, mget. simpl. fold (apply_scan f sc (t, w2)).
    destruct (do_add_slice f slice _) as [r tw]. unfold mput, errno. simpl.
    rewrite Hgap. by destruct (r =? 0). }
  destruct node as [i|] eqn:Hn; [apply Hgen|].
  destruct (prev_data t None) as [c|] eqn:Hp; [apply Hgen|].
  unfold mbind, M_bind, mget, mput, errno, mret, M_ret, final_alloc, apply_scan. simpl.
  destruct (do_add_slice f slice (t, w)) as [r tw].
  destruct (r =? 0); unfold mret, M_ret; [|done]. do 2 f_equal. unfold send. lia.
Qed.

Lemma delete_slices_eq f bs t w :
  0 < ss_length (bs_slice bs) →
  delete_slices f bs (t, w) =
    match delete_scan (bs_slice bs) t w with
    | (inl e, w1) => (inl e, (t, w1))
    | (inr sc, w1) =>
        if sa_count (sc_del sc) =? 0 then (inl ENOENT, (t, w1))
        else (inr (sa_count (sc_del sc), sc_alloc sc), apply_scan f sc (t, w1))
    end.
Proof using.
  intros Hlen. unfold delete_slices, delete_scan.
  unfold mbind at 1, M_bind at 1, mget at 1. cbn beta iota.
  set (ss := bs_slice bs) in *. set (node := uniq_skiplist_find_ge_node t (target_of ss)).
  assert (Hgen : ∀ prev nodes,
    (sc0 ← on_world (delete_slices_previous ss prev);
     sc ← on_world (delete_slices_loop (ss_offset ss + ss_length ss) nodes sc0);
     if sa_count (sc_del sc) =? 0 then mfail ENOENT else
     mmodify (del_all f (sa_slices (sc_del sc)));;
     mmodify (add_all f (sa_slices (sc_add sc)));;
     mret (sa_count (sc_del sc), sc_alloc sc)) (t, w) =
    match (sc0 ← delete_slices_previous ss prev;
           delete_slices_loop (ss_offset ss + ss_length ss) nodes sc0) w with
    | (inl e, w1) => (inl e, (t, w1))
    | (inr sc, w1) =>
        if sa_count (sc_del sc) =? 0 then (inl ENOENT, (t, w1))
        else (inr (sa_count (sc_del sc), sc_alloc sc), apply_scan f sc (t, w1))
    end).
  { intros prev nodes. unfold mbind, M_bind, on_world. simpl.
    destruct (delete_slices_previous ss prev w) as [[e|sc0] w1]; [done|]. simpl.
    destruct (delete_slices_loop _ nodes sc0 w1) as [[e|sc] w2]; [done|].
    by destruct (sa_count (sc_del sc) =? 0). }
  destruct node as [i|] eqn:Hn; [apply Hgen|].
  by destruct (prev_data t None) as [c|] eqn:Hp; [apply Hgen|].
Qed.

(** ** The list after a cut *)

(** [l] without the extent [a, b): the slices outside it and the [new] pieces
    of those that overlapped it. *)
Record cut_to (a b : Z) (l new l' : list OBSliceEntry) : Prop := {
  ct_perm : l' ≡ₚ new ++ filter (λ x, ¬ overlaps a b x) l;
  ct_new : strip <$> new = filter (overlaps a b) l ≫= pieces a b;
  ct_wf : slices_wf l';
}.

Lemma cut_new_elem a b l new l' x :
  a < b → slices_wf l → cut_to a b l new l' → x ∈ new →
  ∃ d, d ∈ l ∧ overlaps a b d ∧ strip x ∈ pieces a b d ∧
    soff d <= soff x ∧ send x <= send d ∧ (send x <= a ∨ b <= soff x) ∧
    (∀ p, covers x p → loc_at x p = loc_at d p).
Proof using.
  intros Hab Hwf Hc Hx.
  assert (Hs : strip x ∈ strip <$> new) by (apply list_elem_of_fmap; eauto).
  rewrite (ct_new _ _ _ _ _ Hc) in Hs.
  apply list_elem_of_bind in Hs as (d & Hp & [Ho Hd]%list_elem_of_filter).
  exists d. split_and!; try done;
    destruct (piece_elem a b d (strip x) Hab Hp Ho (slices_wf_valid _ _ Hwf Hd))
      as (_ & ? & ? & ? & ?); done.
Qed.

(** Every slice after a cut lies in the block and the trunk of one before it. *)
Lemma cut_origin a b l new l' x :
  a < b → slices_wf l → cut_to a b l new l' → x ∈ l' →
  ∃ d, d ∈ l ∧ se_ob x = se_ob d ∧ sp_store (se_space x) = sp_store (se_space d) ∧
    sp_id_info (se_space x) = sp_id_info (se_space d).
Proof using.
  intros Hab Hwf Hc. rewrite (ct_perm _ _ _ _ _ Hc), elem_of_app.
  intros [Hx|[_ Hx]%list_elem_of_filter]; [|by exists x].
  destruct (cut_new_elem _ _ _ _ _ x Hab Hwf Hc Hx) as (d & Hd & _ & Hp & _).
  exists d. split; [done|]. unfold pieces in Hp.
  apply elem_of_app in Hp as [Hp|Hp]; case_match; try (by apply elem_of_nil in Hp);
    apply list_elem_of_singleton in Hp;
    pose proof (f_equal se_ob Hp) as E1; pose proof (f_equal se_space Hp) as E2;
    simpl in E1, E2; by rewrite E1, E2.
Qed.

Lemma cut_elem_outside a b l new l' x :
  a < b → slices_wf l → cut_to a b l new l' → x ∈ l' → send x <= a ∨ b <= soff x.
Proof using.
  intros Hab Hwf Hc. rewrite (ct_perm _ _ _ _ _ Hc), elem_of_app.
  intros [Hx|[Ho _]%list_elem_of_filter].
  - by destruct (cut_new_elem _ _ _ _ _ x Hab Hwf Hc Hx) as (d & _ & _ & _ & _ & _ & ? & _).
  - unfold overlaps in Ho. lia.
Qed.

Lemma cut_lookup a b l new l' p :
  a < b → slices_wf l → cut_to a b l new l' →
  lookup_byte l' p = if decide (a <= p < b) then None else lookup_byte l p.
Proof using.
  intros Hab Hwf Hc. case_decide as Hp.
  - apply lookup_byte_None. intros x Hx Hcov.
    destruct (cut_elem_outside _ _ _ _ _ x Hab Hwf Hc Hx); unfold covers in Hcov; lia.
  - apply option_eq. intros d.
    rewrite !lookup_byte_Some by (done || apply (ct_wf _ _ _ _ _ Hc)).
    setoid_rewrite (ct_perm _ _ _ _ _ Hc). split.
    + intros (x & [Hx|[Ho Hx]%list_elem_of_filter]%elem_of_app & Hcov & ->); [|eauto].
      destruct (cut_new_elem _ _ _ _ _ x Hab Hwf Hc Hx) as (y & Hy & _ & _ & ? & ? & _ & Hl).
      exists y. split_and!; [done| |by apply Hl]. unfold covers in *. lia.
    + intros (x & Hx & Hcov & ->). destruct (decide (overlaps a b x)) as [Ho|Ho].
      * destruct (pieces_cover a b x p Hcov Hp) as (y & Hy & Hcy).
        assert (Hyn : y ∈ strip <$> new).
        { rewrite (ct_new _ _ _ _ _ Hc). apply list_elem_of_bind. exists x. split; [done|].
          by apply list_elem_of_filter. }
        apply list_elem_of_fmap in Hyn as (z & -> & Hz).
        destruct (piece_elem a b x (strip z) Hab Hy Ho (slices_wf_valid _ _ Hwf Hx))
          as (_ & _ & _ & _ & Hl).
        exists z. split_and!; [by apply elem_of_app; left|done|by rewrite <- (Hl p Hcy)].
      * exists x. split_and!; [|done|done]. apply elem_of_app. right.
        by apply list_elem_of_filter.
Qed.

Lemma total_len_strip (l : list OBSliceEntry) : total_len (strip <$> l) = total_len l.
Proof using.
  unfold total_len. induction l as [|x l IH]; [done|].
  rewrite fmap_cons, !sumZ_cons, IH. done.
Qed.

Lemma cut_len_bind a b l :
  a < b → slices_wf l → (∀ x, x ∈ l → overlaps a b x) →
  total_len (l ≫= pieces a b) = total_len l - sumZ (overlap_len a b) l.
Proof using.
  intros Hab. unfold total_len. induction l as [|x l IH]; intros Hwf Ho; [done|].
  rewrite bind_cons, sumZ_app, !sumZ_cons.
  rewrite IH; [|by apply (slices_wf_app_r [x])|intros y Hy; apply Ho; by right].
  fold (total_len (pieces a b x)).
  rewrite pieces_len; [lia|lia|apply Ho; by left|apply (slices_wf_valid _ _ Hwf); by left].
Qed.

Lemma cut_total a b l new l' :
  a < b → slices_wf l → cut_to a b l new l' →
  total_len l' = total_len l - overlap_sum a b l.
Proof using.
  intros Hab Hwf Hc. unfold total_len at 1. rewrite (sumZ_perm _ _ _ (ct_perm _ _ _ _ _ Hc)).
  rewrite sumZ_app. fold (total_len new). rewrite <- (total_len_strip new).
  rewrite (ct_new _ _ _ _ _ Hc), cut_len_bind.
  - unfold total_len, overlap_sum. rewrite (sumZ_filter_split slen (overlaps a b) l). lia.
  - done.
  - by apply slices_wf_filter.
  - by intros x [? _]%list_elem_of_filter.
Qed.

Lemma known_strip w s x : strip s = x → known w s ↔ known w x.
Proof using. by intros <-. Qed.

Lemma slices_wf_NoDup l : slices_wf l → NoDup l.
Proof using.
  intros Hwf. apply slices_wf_sorted in Hwf.
  induction Hwf as [|x l Hl IH Hx]; constructor; [|done].
  intros Hin. rewrite Forall_forall in Hx. specialize (Hx x Hin).
  unfold cmp_lt, slice_compare in Hx. lia.
Qed.

(** Applying what a scan collected cuts the extent out. *)
Lemma apply_scan_run f a b t w start sc w1 :
  a < b → slices_wf (sl_level0 t) →
  collected a b (sl_level0 t) (scan0 start) sc w w1 →
  let tw := apply_scan f sc (t, w1) in
  ∃ new, cut_to a b (sl_level0 t) new (sl_level0 tw.1) ∧
    sa_slices (sc_del sc) = filter (overlaps a b) (sl_level0 t) ∧
    (∀ id, ref_count tw.2 id =
       ref_count w id + occ id new - occ id (filter (overlaps a b) (sl_level0 t))) ∧
    ((∀ id, occ id (sl_level0 t) <= ref_count w id) → refs_pos w → refs_pos tw.2) ∧
    ((∀ s, s ∈ sl_level0 t → known w s) →
       (∀ s, known w s → known tw.2 s) ∧
       acct_shift f w tw.2 (λ st id, sizes_in st id new
         - sizes_in st id (filter (overlaps a b) (sl_level0 t)))) ∧
    w_sn tw.2 = w_sn w ∧ w_mem tw.2 = w_mem w1 ∧
    (∀ s, s ∈ new → w_next w <= se_id s < w_next tw.2) ∧ w_next w <= w_next tw.2.
Proof using UniqSkiplistSpec0 SliceAccountSpec0.
  intros Hab Hwf (new & Hd & Ha & Hn & Hg). cbn zeta. simpl in Hd, Ha.
  set (L := sl_level0 t) in *. set (dels := filter (overlaps a b) L) in *.
  destruct (del_all_run f (sa_slices (sc_del sc)) t w1 Hwf) as (D1 & D2 & D3 & D4 & D5).
  { rewrite Hd. by apply slices_wf_NoDup, slices_wf_filter. }
  { rewrite Hd. by intros s [_ ?]%list_elem_of_filter. }
  unfold apply_scan. rewrite Hd in *. rewrite Ha.
  destruct (del_all f dels (t, w1)) as [t1 w2]. simpl in D1, D2, D3, D4, D5.
  assert (Hrest : sl_level0 t1 = filter (λ x, ¬ overlaps a b x) L).
  { rewrite D1. apply filter_ext_in. intros x Hx. unfold dels.
    rewrite list_elem_of_filter. tauto. }
  assert (Hnwf : slices_wf new) by (apply slices_wf_strip; rewrite Hn; by apply cut_wf).
  assert (Hel : ∀ y, y ∈ new → ∃ d, d ∈ dels ∧ strip y ∈ pieces a b d).
  { intros y Hy. assert (strip y ∈ strip <$> new) as H by (apply list_elem_of_fmap; eauto).
    rewrite Hn in H. apply list_elem_of_bind in H as (d & ? & ?). eauto. }
  destruct (add_all_run f new t1 w2) as (A1 & A2 & A3 & A4 & A5); [|done| |].
  { rewrite Hrest. by apply slices_wf_filter. }
  { intros x y Hx Hy. rewrite Hrest in Hx. apply list_elem_of_filter in Hx as [Hx1 Hx2].
    destruct (Hel y Hy) as (d & [Ho Hdl]%list_elem_of_filter & Hp).
    destruct (piece_elem a b d (strip y) Hab Hp Ho (slices_wf_valid _ _ Hwf Hdl))
      as (_ & H1 & H2 & _).
    destruct (strip_facts y) as (E1 & _ & E2 & _). rewrite E1 in H1. rewrite E2 in H2.
    destruct (slices_wf_disjoint L x d Hwf Hx2 Hdl) as [H|H]; [by intros ->|..];
      unfold disjoint_slices, before in *; lia. }
  destruct (add_all f new (t1, w2)) as [t2 w3]. simpl in *.
  assert (Hrc : ∀ id, ref_count w3 id = ref_count w2 id) by (intros; unfold ref_count; by rewrite A3).
  destruct D5 as (D5 & D6 & D7). destruct A5 as (A5 & A6 & A7). destruct Hg.
  assert (Hk1 : ∀ s, known w s ↔ known w1 s) by (intros; unfold known; by rewrite g_acct).
  exists new. split_and!.
  - split; [by rewrite A1, Hrest|done|done].
  - done.
  - intros id. rewrite Hrc, D2, g_refs. lia.
  - intros Hc Hp. assert (refs_pos w2) as H.
    { apply D3; [|by apply g_pos]. intros id. rewrite g_refs. specialize (Hc id).
      pose proof (occ_nonneg id new). unfold occ in *. fold L in Hc.
      rewrite (sumZ_filter_split _ (overlaps a b) L) in Hc. fold dels in Hc.
      pose proof (occ_nonneg id (filter (λ x, ¬ overlaps a b x) L)). unfold occ in *. lia. }
    unfold refs_pos. rewrite A3. exact H.
  - intros Hk.
    assert (Hk2 : ∀ s, s ∈ dels → known w1 s).
    { intros s [_ Hs]%list_elem_of_filter. by apply Hk1, Hk. }
    specialize (D4 Hk2).
    assert (Hk3 : ∀ s, known w1 s → known w2 s) by (intros s; by apply (acct_shift_known _ _ _ _ s D4)).
    assert (Hk4 : ∀ s, s ∈ new → known w2 s).
    { intros s Hs. destruct (Hel s Hs) as (d & Hd' & Hp). apply Hk3.
      specialize (Hk2 d Hd'). unfold known in *.
      apply elem_of_app in Hp as [Hp|Hp]; case_match; try (by apply elem_of_nil in Hp);
        apply list_elem_of_singleton, (f_equal se_space) in Hp; simpl in Hp; by rewrite Hp. }
    specialize (A4 Hk4). split.
    + intros s Hs. apply (acct_shift_known _ _ _ _ s A4), Hk3. by apply Hk1.
    + apply (acct_shift_eq_l f w w1); [done|].
      eapply acct_shift_ext; [|eapply acct_shift_trans; [exact D4|exact A4]].
      intros st id. simpl. lia.
  - congruence.
  - congruence.
  - intros s Hs. apply g_ids in Hs. lia.
  - lia.
Qed.
End Thms.
