(* ===== verification/TrunkAllocator.v ===== *)
(** * Trunk files, free lists and the storage allocator

    [src/server/storage/trunk_allocator.c/.h], [trunk_freelist.c] and
    [storage_allocator.c/.h]: the trunk files of every store path, the pools of
    trunks space is allocated from, and the arrays of store paths with and
    without available trunks. A trunk is identified by its store path index and
    its trunk id; [trunks.by_id] is represented by a finite map from ids to
    trunks. The locks are held for the whole of every operation, so each one is a
    function of the manager's state; [pthread_cond_wait] is a parameter. *)
From S2P Require Import Prelude Types ObSlices.

Definition FS_SPACE_ALIGN_SIZE : Z := 8.
(** [MEM_ALIGN_CEIL(size, n)] for a power of two [n]. *)
Definition MEM_ALIGN_CEIL (size n : Z) : Z := Z.land (size + (n - 1)) (Z.lnot (n - 1)).
(** [MEM_ALIGN_FLOOR(x, n)]. *)
Definition MEM_ALIGN_FLOOR (x n : Z) : Z := Z.land x (Z.lnot (n - 1)).

(** [trunk->status] and [trunk->util.event]. *)
Inductive TrunkStatus := TRUNK_STATUS_NONE | TRUNK_STATUS_REPUSH
  | TRUNK_STATUS_ALLOCING | TRUNK_STATUS_RECLAIMING.
Inductive UtilEvent := UTIL_EVENT_NONE | UTIL_EVENT_CREATE | UTIL_EVENT_UPDATE.
#[export] Instance TrunkStatus_eq_dec : EqDecision TrunkStatus.
Proof. solve_decision. Defined.
#[export] Instance UtilEvent_eq_dec : EqDecision UtilEvent.
Proof. solve_decision. Defined.

(** [FSTrunkFileInfo]; [tf_slices] is the list [used.slice_head] of slice
    entries, and [tf_allocator] the store path index of [allocator]. *)
Record FSTrunkFileInfo := mkTrunk {
  tf_allocator : Z;
  tf_id_info : FSTrunkIdInfo;
  tf_status : TrunkStatus;
  tf_used_count : Z;
  tf_used_bytes : Z;
  tf_slices : list Z;
  tf_size : Z;
  tf_free_start : Z;
  tf_event : UtilEvent;
}.
(** [FS_TRUNK_AVAIL_SPACE]. *)
Definition FS_TRUNK_AVAIL_SPACE (t : FSTrunkFileInfo) : Z := tf_size t - tf_free_start t.

Definition trunk_key : Type := Z * Z.

(** [FSTrunkFreelist]: [count] is the length of the chain from head to tail. *)
Record FSTrunkFreelist := mkFreelist {
  fl_water_mark_trunks : Z;
  fl_trunks : list trunk_key;
}.
Definition fl_count (fl : FSTrunkFreelist) : Z := Z.of_nat (length (fl_trunks fl)).

(** [FSTrunkAllocator] with the [trunk_stat] of its path. *)
Record FSTrunkAllocator := mkAllocator {
  ta_stat_total : Z;
  ta_stat_used : Z;
  ta_stat_avail : Z;
  ta_stat_last_used : Z;
  ta_trunks : gmap Z FSTrunkFileInfo;
  ta_freelist : FSTrunkFreelist;
  ta_last_trigger_time : Z;
  ta_creating_trunks : Z;
  ta_waiting_callers : Z;
  ta_current_version : Z;
  ta_last_errno : Z;
  ta_reclaim_queue : list Z;
}.

(** [FSTrunkAllocatorPtrArray], by store path index. *)
Record AptrArray := mkAptr { ap_alloc : Z; ap_allocators : list Z }.

(** [FSStorageAllocatorManager], with the queue of the trunk maker threads
    (the allocator and the urgency of each task) and the answers of the memory
    allocators. *)
Record Mgr := mkMgr {
  mg_mem : list bool;
  mg_allocators : gmap Z FSTrunkAllocator;
  mg_reclaim_freelist : FSTrunkFreelist;
  mg_avail : AptrArray;
  mg_full : AptrArray;
  mg_maker_queue : list (Z * bool);
}.

(** ** Field updates *)
Definition set_allocators a m :=
  mkMgr (mg_mem m) a (mg_reclaim_freelist m) (mg_avail m) (mg_full m) (mg_maker_queue m).
Definition set_reclaim_freelist fl m :=
  mkMgr (mg_mem m) (mg_allocators m) fl (mg_avail m) (mg_full m) (mg_maker_queue m).
Definition set_aptrs av fu m :=
  mkMgr (mg_mem m) (mg_allocators m) (mg_reclaim_freelist m) av fu (mg_maker_queue m).
Definition set_mgr_mem mem m :=
  mkMgr mem (mg_allocators m) (mg_reclaim_freelist m) (mg_avail m) (mg_full m) (mg_maker_queue m).
Definition set_maker_queue q m :=
  mkMgr (mg_mem m) (mg_allocators m) (mg_reclaim_freelist m) (mg_avail m) (mg_full m) q.
Definition upd_allocator (i : Z) (g : FSTrunkAllocator → FSTrunkAllocator) (m : Mgr) : Mgr :=
  set_allocators (alter g i (mg_allocators m)) m.

Definition ta_set_stats total used avail a :=
  mkAllocator total used avail (ta_stat_last_used a) (ta_trunks a) (ta_freelist a)
    (ta_last_trigger_time a) (ta_creating_trunks a) (ta_waiting_callers a)
    (ta_current_version a) (ta_last_errno a) (ta_reclaim_queue a).
Definition ta_add_used n a :=
  ta_set_stats (ta_stat_total a) (ta_stat_used a + n) (ta_stat_avail a) a.
Definition ta_add_avail n a :=
  ta_set_stats (ta_stat_total a) (ta_stat_used a) (ta_stat_avail a + n) a.
Definition ta_set_last_used n a :=
  mkAllocator (ta_stat_total a) (ta_stat_used a) (ta_stat_avail a) n (ta_trunks a) (ta_freelist a)
    (ta_last_trigger_time a) (ta_creating_trunks a) (ta_waiting_callers a)
    (ta_current_version a) (ta_last_errno a) (ta_reclaim_queue a).
Definition ta_set_trunks ts a :=
  mkAllocator (ta_stat_total a) (ta_stat_used a) (ta_stat_avail a) (ta_stat_last_used a) ts
    (ta_freelist a) (ta_last_trigger_time a) (ta_creating_trunks a) (ta_waiting_callers a)
    (ta_current_version a) (ta_last_errno a) (ta_reclaim_queue a).
Definition ta_set_freelist fl a :=
  mkAllocator (ta_stat_total a) (ta_stat_used a) (ta_stat_avail a) (ta_stat_last_used a)
    (ta_trunks a) fl (ta_last_trigger_time a) (ta_creating_trunks a) (ta_waiting_callers a)
    (ta_current_version a) (ta_last_errno a) (ta_reclaim_queue a).
Definition ta_set_alloc trig creating waiting version a :=
  mkAllocator (ta_stat_total a) (ta_stat_used a) (ta_stat_avail a) (ta_stat_last_used a)
    (ta_trunks a) (ta_freelist a) trig creating waiting version
    (ta_last_errno a) (ta_reclaim_queue a).
Definition ta_set_reclaim err q a :=
  mkAllocator (ta_stat_total a) (ta_stat_used a) (ta_stat_avail a) (ta_stat_last_used a)
    (ta_trunks a) (ta_freelist a) (ta_last_trigger_time a) (ta_creating_trunks a)
    (ta_waiting_callers a) (ta_current_version a) err q.

Definition tf_set_used count bytes slices t :=
  mkTrunk (tf_allocator t) (tf_id_info t) (tf_status t) count bytes slices
    (tf_size t) (tf_free_start t) (tf_event t).
Definition tf_set_free_start n t :=
  mkTrunk (tf_allocator t) (tf_id_info t) (tf_status t) (tf_used_count t) (tf_used_bytes t)
    (tf_slices t) (tf_size t) n (tf_event t).
(** [fs_set_trunk_status]: the CAS loop stores the new status. *)
Definition fs_set_trunk_status st t :=
  mkTrunk (tf_allocator t) (tf_id_info t) st (tf_used_count t) (tf_used_bytes t)
    (tf_slices t) (tf_size t) (tf_free_start t) (tf_event t).
Definition tf_set_event e t :=
  mkTrunk (tf_allocator t) (tf_id_info t) (tf_status t) (tf_used_count t) (tf_used_bytes t)
    (tf_slices t) (tf_size t) (tf_free_start t) e.

Definition ta_upd_trunk (id : Z) (g : FSTrunkFileInfo → FSTrunkFileInfo) a :=
  ta_set_trunks (alter g id (ta_trunks a)) a.
Definition upd_trunk (k : trunk_key) g m := upd_allocator k.1 (ta_upd_trunk k.2 g) m.
Definition get_trunk (m : Mgr) (k : trunk_key) : option FSTrunkFileInfo :=
  a ← mg_allocators m !! k.1; ta_trunks a !! k.2.

(** ** [trunk_allocator.c] *)

(** [push_trunk_util_change_event]: queue the trunk unless an event is pending. *)
Definition push_trunk_util_change_event (id : Z) (event : UtilEvent) a :=
  match ta_trunks a !! id with
  | Some t =>
      if decide (tf_event t = UTIL_EVENT_NONE) then
        ta_set_reclaim (ta_last_errno a) (ta_reclaim_queue a ++ [id])
          (ta_upd_trunk id (tf_set_event event) a)
      else a
  | None => a
  end.

(** [push_trunk_util_event_force] of [trunk_freelist.c]: the event replaces a
    pending one; the trunk is queued when none was pending. *)
Definition push_trunk_util_event_force (id : Z) (event : UtilEvent) a :=
  match ta_trunks a !! id with
  | Some t =>
      if decide (event = tf_event t) then a
      else
        let a' := ta_upd_trunk id (tf_set_event event) a in
        if decide (tf_event t = UTIL_EVENT_NONE)
        then ta_set_reclaim (ta_last_errno a') (ta_reclaim_queue a' ++ [id]) a'
        else a'
  | None => a
  end.

(** [trunk_allocator_add]. *)
Definition trunk_allocator_add (i : Z) (id_info : FSTrunkIdInfo) (size : Z) (m : Mgr) : Z * Mgr :=
  let '(ok, m1) := match mg_mem m with
                   | [] => (true, m)
                   | b :: r => (b, set_mgr_mem r m)
                   end in
  if negb ok then (ENOMEM, m1) else
  match mg_allocators m1 !! i with
  | None => (0, m1)
  | Some a =>
      match ta_trunks a !! ti_id id_info with
      | Some _ => (EEXIST, m1)
      | None =>
          let t := mkTrunk i id_info TRUNK_STATUS_NONE 0 0 [] size 0 UTIL_EVENT_NONE in
          (0, upd_allocator i (λ a, ta_set_trunks (<[ti_id id_info := t]> (ta_trunks a)) a) m1)
      end
  end.

(** [trunk_allocator_delete]. *)
Definition trunk_allocator_delete (i id : Z) (m : Mgr) : Z * Mgr :=
  match get_trunk m (i, id) with
  | None => (ENOENT, m)
  | Some _ => (0, upd_allocator i (λ a, ta_set_trunks (delete id (ta_trunks a)) a) m)
  end.

(** [trunk_allocator_add_slice]. *)
Definition trunk_allocator_add_slice (i : Z) (slice : OBSliceEntry) (m : Mgr) : Z * Mgr :=
  let id := ti_id (sp_id_info (se_space slice)) in
  match get_trunk m (i, id) with
  | None => (ENOENT, m)
  | Some _ =>
      (0, upd_trunk (i, id) (λ t,
            tf_set_used (tf_used_count t + 1) (tf_used_bytes t + sp_size (se_space slice))
              (tf_slices t ++ [se_id slice]) t) m)
  end.

(** [trunk_allocator_delete_slice]. *)
Definition trunk_allocator_delete_slice (i : Z) (slice : OBSliceEntry) (m : Mgr) : Z * Mgr :=
  let id := ti_id (sp_id_info (se_space slice)) in
  match get_trunk m (i, id) with
  | None => (ENOENT, m)
  | Some _ =>
      let m1 := upd_trunk (i, id) (λ t,
            tf_set_used (tf_used_count t - 1) (tf_used_bytes t - sp_size (se_space slice))
              (filter (λ x, x ≠ se_id slice) (tf_slices t)) t) m in
      (0, upd_allocator i (push_trunk_util_change_event id UTIL_EVENT_UPDATE) m1)
  end.

(** [trunk_allocator_batch_add_slices]: the slices are of one trunk, the one of
    the first; while loading the binlog the free space starts after the last
    slice. *)
Definition batch_add_one (t : FSTrunkFileInfo) (slice : OBSliceEntry) : FSTrunkFileInfo :=
  let e := sp_offset (se_space slice) + sp_size (se_space slice) in
  let t1 := if tf_free_start t <? e then tf_set_free_start e t else t in
  tf_set_used (tf_used_count t1 + 1) (tf_used_bytes t1 + sp_size (se_space slice))
    (tf_slices t1 ++ [se_id slice]) t1.
Definition trunk_allocator_batch_add_slices (slices : list OBSliceEntry) (m : Mgr) : Z * Mgr :=
  match slices with
  | [] => (0, m)
  | s0 :: _ =>
      let k := (sp_store (se_space s0), ti_id (sp_id_info (se_space s0))) in
      match get_trunk m k with
      | None => (ENOENT, m)
      | Some _ => (0, upd_trunk k (λ t, foldl batch_add_one t slices) m)
      end
  end.

(** ** [storage_allocator.h]: slice accounting *)

Definition storage_allocator_add_slice (m : Mgr) (slice : OBSliceEntry)
    (modify_used_space : bool) : Z * Mgr :=
  let i := sp_store (se_space slice) in
  let m1 := if modify_used_space
            then upd_allocator i (ta_add_used (sp_size (se_space slice))) m else m in
  trunk_allocator_add_slice i slice m1.

Definition storage_allocator_delete_slice (m : Mgr) (slice : OBSliceEntry)
    (modify_used_space : bool) : Z * Mgr :=
  let i := sp_store (se_space slice) in
  let m1 := if modify_used_space
            then upd_allocator i (ta_add_used (- sp_size (se_space slice))) m else m in
  trunk_allocator_delete_slice i slice m1.

#[export] Instance mgr_account : SliceAccount Mgr := {|
  acct_add_slice := storage_allocator_add_slice;
  acct_delete_slice := storage_allocator_delete_slice;
  acct_used := λ m st id, tf_used_bytes <$> get_trunk m (st, id);
|}.

(** ** The manager implements the accounting interface *)

Lemma get_upd_allocator m i g k :
  (∀ a, ta_trunks (g a) = ta_trunks a) → get_trunk (upd_allocator i g m) k = get_trunk m k.
Proof.
  intros Hg. unfold get_trunk, upd_allocator. simpl. rewrite lookup_alter.
  case_decide as Hk; [subst i|done].
  by destruct (mg_allocators m !! k.1) as [a|]; simpl; rewrite ?Hg.
Qed.

Lemma get_upd_trunk m k g k' :
  get_trunk (upd_trunk k g m) k' = if decide (k = k') then g <$> get_trunk m k' else get_trunk m k'.
Proof.
  unfold get_trunk, upd_trunk, upd_allocator. simpl. rewrite lookup_alter.
  destruct k as [i id], k' as [i' id']. simpl. destruct (decide (i = i')) as [->|Hi].
  - destruct (mg_allocators m !! i') as [a|]; simpl; [|by case_decide].
    rewrite lookup_alter. destruct (decide (id = id')) as [->|Hid].
    + by rewrite decide_True.
    + by rewrite decide_False by congruence.
  - by rewrite decide_False by congruence.
Qed.

Lemma get_push_event m i id e k :
  tf_used_bytes <$> get_trunk (upd_allocator i (push_trunk_util_change_event id e) m) k
  = tf_used_bytes <$> get_trunk m k.
Proof.
  unfold get_trunk, upd_allocator. simpl. rewrite lookup_alter. case_decide as Hi; [subst i|done].
  destruct (mg_allocators m !! k.1) as [a|]; simpl; [|done].
  unfold push_trunk_util_change_event. destruct (ta_trunks a !! id) as [t|] eqn:Ht; [|done].
  case_decide; [|done]. simpl. rewrite lookup_alter. case_decide; [|done]. subst. by rewrite Ht.
Qed.

Lemma mgr_used_upd m i id (g : FSTrunkFileInfo → FSTrunkFileInfo) n st id' :
  (∀ t, tf_used_bytes (g t) = tf_used_bytes t + n) →
  tf_used_bytes <$> get_trunk (upd_trunk (i, id) g m) (st, id') =
  (λ u, u + (if (i =? st) && (id =? id') then n else 0)) <$> (tf_used_bytes <$> get_trunk m (st, id')).
Proof.
  intros Hg. rewrite get_upd_trunk.
  destruct (get_trunk m (st, id')) as [t|] eqn:Ht; [|by case_decide].
  case_decide as Hk; simpl.
  - injection Hk as -> ->. by rewrite !Z.eqb_refl, Hg.
  - f_equal. destruct (Z.eqb_spec i st), (Z.eqb_spec id id'); simpl; try lia. congruence.
Qed.

#[export] Instance mgr_account_spec : SliceAccountSpec Mgr.
Proof.
  assert (Hget : ∀ (m : Mgr) (f : bool) i n k,
    get_trunk (if f then upd_allocator i (ta_add_used n) m else m) k = get_trunk m k).
  { intros m [] i n k; [|done]. by apply get_upd_allocator. }
  split; simpl.
  - intros m s f [u Hu]. unfold storage_allocator_add_slice, trunk_allocator_add_slice.
    rewrite Hget. destruct (get_trunk m _) as [t|]; [|done]. split; [done|]. intros st id. simpl.
    rewrite (mgr_used_upd _ _ _ _ (sp_size (se_space s))) by done. rewrite Hget.
    unfold size_in, in_trunk. done.
  - intros m s f Hu. unfold storage_allocator_add_slice, trunk_allocator_add_slice.
    rewrite Hget. destruct (get_trunk m _) as [t|]; [done|]. split; [done|]. intros st id.
    simpl. by rewrite Hget.
  - intros m s f [u Hu] st id. unfold storage_allocator_delete_slice, trunk_allocator_delete_slice.
    rewrite Hget. destruct (get_trunk m _) as [t|]; [|done]. simpl. rewrite get_push_event.
    rewrite (mgr_used_upd _ _ _ _ (- sp_size (se_space s))) by (intros; simpl; lia). rewrite Hget.
    unfold size_in, in_trunk. destruct (get_trunk m (st, id)); simpl; [|done].
    f_equal. case_match; lia.
Qed.
