(* ===== verification/StorageAllocator.v ===== *)
(** * Space allocation from the free lists

    [src/server/storage/trunk_freelist.c], the arrays of available and full store
    paths of [storage_allocator.c], and the allocation entry points of
    [storage_allocator.h]. *)
From S2P Require Import Prelude Types ObSlices TrunkAllocator.

(** A free list of the manager: that of a store path or [reclaim_freelist]. *)
Inductive FreelistSel := NormalFreelist (i : Z) | ReclaimFreelist.

Definition get_freelist (sel : FreelistSel) (m : Mgr) : FSTrunkFreelist :=
  match sel with
  | ReclaimFreelist => mg_reclaim_freelist m
  | NormalFreelist i =>
      from_option ta_freelist (mkFreelist 0 []) (mg_allocators m !! i)
  end.
Definition set_freelist (sel : FreelistSel) (fl : FSTrunkFreelist) (m : Mgr) : Mgr :=
  match sel with
  | ReclaimFreelist => set_reclaim_freelist fl m
  | NormalFreelist i => upd_allocator i (ta_set_freelist fl) m
  end.
Definition freelist_head (sel : FreelistSel) (m : Mgr) : option trunk_key :=
  head (fl_trunks (get_freelist sel m)).

(** [trunk_allocator_is_available]. *)
Definition trunk_allocator_is_available (a : FSTrunkAllocator) : bool :=
  fl_water_mark_trunks (ta_freelist a) <=? fl_count (ta_freelist a).

(** [trunk_allocator_before_make_trunk]. *)
Definition trunk_allocator_before_make_trunk (i : Z) : Mgr → Mgr :=
  upd_allocator i (λ a, ta_set_alloc (ta_last_trigger_time a) (ta_creating_trunks a + 1)
                          (ta_waiting_callers a) (ta_current_version a) a).
(** [trunk_allocator_after_make_trunk]; the broadcast wakes the waiters. *)
Definition trunk_allocator_after_make_trunk (i result : Z) : Mgr → Mgr :=
  upd_allocator i (λ a,
    ta_set_alloc (ta_last_trigger_time a) (ta_creating_trunks a - 1)
      (ta_waiting_callers a) (ta_current_version a)
      (ta_set_reclaim result (ta_reclaim_queue a) a)).

(** [trunk_maker_allocate_ex]: queue a task for the maker thread. *)
Definition trunk_maker_allocate_ex (i : Z) (urgent : bool) (m : Mgr) : Z * Mgr :=
  let '(ok, m1) := match mg_mem m with
                   | [] => (true, m)
                   | b :: r => (b, set_mgr_mem r m)
                   end in
  if negb ok then (ENOMEM, m1) else
  let m2 := trunk_allocator_before_make_trunk i m1 in
  (0, set_maker_queue (mg_maker_queue m2 ++ [(i, urgent)]) m2).

(** [trunk_freelist_add]. *)
Definition trunk_freelist_add (sel : FreelistSel) (k : trunk_key) (m : Mgr) : Mgr :=
  let fl := get_freelist sel m in
  let m1 := set_freelist sel (mkFreelist (fl_water_mark_trunks fl) (fl_trunks fl ++ [k])) m in
  let m2 := upd_trunk k (fs_set_trunk_status TRUNK_STATUS_ALLOCING) m1 in
  match get_trunk m2 k with
  | Some t => upd_allocator k.1 (ta_add_avail (FS_TRUNK_AVAIL_SPACE t)) m2
  | None => m2
  end.

(** [trunk_allocator_add_to_freelist]: the reclaim list is filled first. *)
Definition trunk_allocator_add_to_freelist (k : trunk_key) (m : Mgr) : FreelistSel * Mgr :=
  let sel := if fl_count (mg_reclaim_freelist m) <?
                fl_water_mark_trunks (mg_reclaim_freelist m)
             then ReclaimFreelist else NormalFreelist k.1 in
  (sel, trunk_freelist_add sel k m).

(** The end of [do_reclaim_trunk] of [trunk_maker.c] when [trunk_reclaim] returned 0: the trunk starts afresh, in
    a free list. *)
Definition recycle_trunk (key : trunk_key) (m : Mgr) : Mgr :=
  (trunk_allocator_add_to_freelist key (upd_trunk key (tf_set_free_start 0) m)).2.

(** [trunk_freelist_remove]: drop the head. *)
Definition trunk_freelist_remove (sel : FreelistSel) (m : Mgr) : Mgr :=
  let fl := get_freelist sel m in
  match fl_trunks fl with
  | [] => m
  | k :: rest =>
      let m1 := set_freelist sel (mkFreelist (fl_water_mark_trunks fl) rest) m in
      let m2 := upd_trunk k (fs_set_trunk_status TRUNK_STATUS_REPUSH) m1 in
      let m3 := upd_allocator k.1 (push_trunk_util_event_force k.2 UTIL_EVENT_CREATE) m2 in
      let m4 := upd_trunk k (fs_set_trunk_status TRUNK_STATUS_NONE) m3 in
      if Z.of_nat (length rest) <? fl_water_mark_trunks fl
      then (trunk_maker_allocate_ex k.1 true m4).2 else m4
  end.

(** [trunk_freelist_keep_water_mark]. *)
Definition trunk_freelist_keep_water_mark (i : Z) (m : Mgr) : Mgr :=
  let fl := get_freelist (NormalFreelist i) m in
  let count := fl_water_mark_trunks fl - fl_count fl in
  if count <=? 0 then m
  else Nat.iter (Z.to_nat count) (λ m, (trunk_maker_allocate_ex i false m).2) m.

(** [TRUNK_ALLOC_SPACE]. *)
Definition TRUNK_ALLOC_SPACE (k : trunk_key) (t : FSTrunkFileInfo) (alloc_size : Z) (m : Mgr)
    : FSTrunkSpaceWithVersion * Mgr :=
  let version := from_option ta_current_version 0 (mg_allocators m !! k.1) + 1 in
  (mkSpaceVersion (mkTrunkSpace k.1 (tf_id_info t) (tf_free_start t) alloc_size) version,
   upd_allocator k.1 (λ a,
     ta_add_avail (- alloc_size)
       (ta_set_alloc (ta_last_trigger_time a) (ta_creating_trunks a)
          (ta_waiting_callers a) version a))
     (upd_trunk k (λ t, tf_set_free_start (tf_free_start t + alloc_size) t) m)).

(** ** The arrays of available and full paths *)

(** [add_to_aptr_array]: insertion by path index. *)
Fixpoint aptr_insert (i : Z) (l : list Z) : option (list Z) :=
  match l with
  | [] => Some [i]
  | x :: l' =>
      if i - x <? 0 then Some (i :: l)
      else if i - x =? 0 then None
      else (x ::.) <$> aptr_insert i l'
  end.
Definition add_to_aptr_array (arr : AptrArray) (i : Z) : Z * AptrArray :=
  match aptr_insert i (ap_allocators arr) with
  | None => (EEXIST, arr)
  | Some l =>
      if ap_alloc arr <=? Z.of_nat (length (ap_allocators arr)) then (ENOSPC, arr)
      else (0, mkAptr (ap_alloc arr) l)
  end.

(** [remove_from_aptr_array]. *)
Fixpoint aptr_remove (i : Z) (l : list Z) : option (list Z) :=
  match l with
  | [] => None
  | x :: l' => if x - i =? 0 then Some l' else (x ::.) <$> aptr_remove i l'
  end.
Definition remove_from_aptr_array (arr : AptrArray) (i : Z) : Z * AptrArray :=
  match aptr_remove i (ap_allocators arr) with
  | None => (ENOENT, arr)
  | Some l => (0, mkAptr (ap_alloc arr) l)
  end.

(** [bsearch] by path index on a sorted array finds an element iff it is there. *)
Definition aptr_mem (i : Z) (l : list Z) : bool := existsb (Z.eqb i) l.

(** [fs_move_allocator_ptr_array]: copies are changed and then switched in, the
    source before the destination. *)
Definition fs_move_allocator_ptr_array (src dest : AptrArray) (i : Z) (mem : list bool)
    : Z * (AptrArray * AptrArray * list bool) :=
  if negb (aptr_mem i (ap_allocators src)) then (ENOENT, (src, dest, mem)) else
  let take m := match m with [] => (true, []) | b :: r => (b, r) end in
  let '(ok1, mem1) := take mem in
  if negb (ok1 : bool) then (ENOMEM, (src, dest, mem1)) else
  let '(ok2, mem2) := take mem1 in
  if negb (ok2 : bool) then (ENOMEM, (src, dest, mem2)) else
  let '(r1, src') := remove_from_aptr_array src i in
  if negb (r1 =? 0) then (r1, (src, dest, mem2)) else
  let '(r2, dest') := add_to_aptr_array dest i in
  if negb (r2 =? 0) then (r2, (src', dest, mem2))
  else (0, (src', dest', mem2)).

(** [fs_add_to_avail_aptr_array] and [fs_remove_from_avail_aptr_array]. *)
Definition fs_add_to_avail_aptr_array (i : Z) (m : Mgr) : Z * Mgr :=
  let '(r, (full', avail', mem)) :=
    fs_move_allocator_ptr_array (mg_full m) (mg_avail m) i (mg_mem m) in
  (r, set_mgr_mem mem (set_aptrs avail' full' m)).
Definition fs_remove_from_avail_aptr_array (i : Z) (m : Mgr) : Z * Mgr :=
  let '(r, (avail', full', mem)) :=
    fs_move_allocator_ptr_array (mg_avail m) (mg_full m) i (mg_mem m) in
  let m1 := set_mgr_mem mem (set_aptrs avail' full' m) in
  (r, if r =? 0 then upd_allocator i (λ a, ta_set_last_used (ta_stat_used a) a) m1 else m1).

(** ** Allocation *)

(** [spaces[0 .. count-1]], an error, or the [abort()] of the sanity check. *)
Inductive AllocResult :=
  | Allocated (spaces : list FSTrunkSpaceWithVersion)
  | AllocFailed (e : Z)
  | Aborted.

Section Alloc.
(** [g_current_time], [SF_G_CONTINUE_FLAG], [STORAGE_CFG.discard_remain_space_size],
    and what the other threads do while a caller is blocked in
    [pthread_cond_wait]. *)
Variables (now : Z) (continue_flag : bool) (discard_remain_space_size : Z).
Variable blocked : Z → Mgr → Mgr.

Definition is_nil {X} (l : list X) : bool := match l with [] => true | _ => false end.

Definition alloc_field {X} (g : FSTrunkAllocator → X) (d : X) (i : Z) (m : Mgr) : X :=
  from_option g d (mg_allocators m !! i).

(** The wait loop of [waiting_avail_trunk]. *)
Definition wait_creating (i : Z) (sel : FreelistSel) (m : Mgr) : Mgr :=
  if (0 <? alloc_field ta_creating_trunks 0 i m)
     && is_nil (fl_trunks (get_freelist sel m)) && continue_flag
  then blocked i m else m.

Definition add_waiting (i n : Z) : Mgr → Mgr :=
  upd_allocator i (λ a, ta_set_alloc (ta_last_trigger_time a) (ta_creating_trunks a)
                          (ta_waiting_callers a + n) (ta_current_version a) a).

(** [waiting_avail_trunk]: at most [fuel] rounds, the first being round 0. *)
Fixpoint waiting_rounds (fuel : nat) (round : Z) (i : Z) (sel : FreelistSel) (m : Mgr)
    : Z * Mgr :=
  match fuel with
  | O => (0, m)
  | S fuel' =>
      let trigger := (alloc_field ta_creating_trunks 0 i m =? 0)
        && ((0 <? now - alloc_field ta_last_trigger_time 0 i m) || (0 <? round)) in
      let '(r, m1) :=
        if trigger then
          trunk_maker_allocate_ex i true
            (upd_allocator i (λ a, ta_set_alloc now (ta_creating_trunks a)
               (ta_waiting_callers a) (ta_current_version a) a) m)
        else (0, m) in
      if negb (r =? 0) then (r, m1) else
      let m2 := add_waiting i (-1) (wait_creating i sel (add_waiting i 1 m1)) in
      if negb (is_nil (fl_trunks (get_freelist sel m2)))
         || negb (alloc_field ta_last_errno 0 i m2 =? 0)
      then (0, m2)
      else waiting_rounds fuel' (round + 1) i sel m2
  end.
Definition waiting_avail_trunk (i : Z) (sel : FreelistSel) : Mgr → Z * Mgr :=
  waiting_rounds 10 0 i sel.

(** The second half of [trunk_freelist_alloc_space]: allocate the remaining
    [aligned_size] bytes from the head of the list. *)
Definition alloc_from_head (sel : FreelistSel) (aligned_size : Z)
    (spaces : list FSTrunkSpaceWithVersion) (m : Mgr) : AllocResult * Mgr :=
  match freelist_head sel m with
  | None => (AllocFailed (if continue_flag then ENOSPC else EINTR), m)
  | Some k =>
      match get_trunk m k with
      | None => (Aborted, m)
      | Some t =>
          if FS_TRUNK_AVAIL_SPACE t <? aligned_size then (AllocFailed EAGAIN, m) else
          let '(sp, m1) := TRUNK_ALLOC_SPACE k t aligned_size m in
          let left := FS_TRUNK_AVAIL_SPACE t - aligned_size in
          let m2 := if left <? discard_remain_space_size
                    then upd_allocator k.1 (ta_add_avail (- left)) (trunk_freelist_remove sel m1)
                    else m1 in
          (Allocated (spaces ++ [sp]), m2)
      end
  end.

(** The first half: use up the remains of the head when it is too small for the
    request. [remain_bytes] is an [int]. *)
Definition use_remains (sel : FreelistSel) (aligned_size : Z) (is_normal : bool) (m : Mgr)
    : AllocResult * (Z * Mgr) :=
  match freelist_head sel m with
  | None => (Allocated [], (aligned_size, m))
  | Some k =>
      match get_trunk m k with
      | None => (Aborted, (aligned_size, m))
      | Some t =>
          let remain_bytes := cast32 (FS_TRUNK_AVAIL_SPACE t) in
          if remain_bytes <? aligned_size then
            if negb is_normal && (fl_count (get_freelist sel m) <=? 1)
            then (AllocFailed EAGAIN, (aligned_size, m)) else
            if remain_bytes <=? 0 then (Aborted, (aligned_size, m)) else
            let '(sp, m1) := TRUNK_ALLOC_SPACE k t remain_bytes m in
            (Allocated [sp], (aligned_size - remain_bytes, trunk_freelist_remove sel m1))
          else (Allocated [], (aligned_size, m))
      end
  end.

(** [trunk_freelist_alloc_space]; [i] is [allocator] (used only when
    [is_normal]). *)
Definition trunk_freelist_alloc_space (i : Z) (sel : FreelistSel) (size : Z)
    (is_normal : bool) (m : Mgr) : AllocResult * Mgr :=
  let '(res, m') :=
    match use_remains sel (MEM_ALIGN_CEIL size FS_SPACE_ALIGN_SIZE) is_normal m with
    | (Allocated spaces, (aligned_size, m1)) =>
        if is_nil (fl_trunks (get_freelist sel m1)) then
          if negb is_normal then (AllocFailed EAGAIN, m1) else
          let '(r, m2) := waiting_avail_trunk i sel m1 in
          if negb (r =? 0) then (AllocFailed r, m2)
          else alloc_from_head sel aligned_size spaces m2
        else alloc_from_head sel aligned_size spaces m1
    | (r, (_, m1)) => (r, m1)
    end in
  match res with
  | AllocFailed e =>
      if (e =? ENOSPC) && is_normal
      then (res, (fs_remove_from_avail_aptr_array i m').2) else (res, m')
  | _ => (res, m')
  end.

(** [storage_allocator_normal_alloc_ex]: retried while the path has no space,
    at most [fuel] times here. [None]: still retrying. *)
Fixpoint storage_allocator_normal_alloc_ex (fuel : nat) (blk_hc size : Z)
    (is_normal : bool) (m : Mgr) : option (AllocResult * Mgr) :=
  match ap_allocators (mg_avail m) !! Z.to_nat
          (blk_hc mod Z.of_nat (length (ap_allocators (mg_avail m)))) with
  | None => Some (AllocFailed ENOSPC, m)  (** [avail_array->count == 0] *)
  | Some i =>
      let '(res, m') := trunk_freelist_alloc_space i (NormalFreelist i) size is_normal m in
      match res with
      | AllocFailed e =>
          if ((e =? ENOSPC) || (e =? EAGAIN)) && is_normal then
            match fuel with
            | O => None
            | S fuel' => storage_allocator_normal_alloc_ex fuel' blk_hc size is_normal m'
            end
          else Some (res, m')
      | _ => Some (res, m')
      end
  end.

(** [storage_allocator_reclaim_alloc]: the free lists of the paths first, then
    the reclaim list. *)
Definition storage_allocator_reclaim_alloc (blk_hc size : Z) (m : Mgr)
    : option (AllocResult * Mgr) :=
  match storage_allocator_normal_alloc_ex 0 blk_hc size false m with
  | Some (AllocFailed _, m') =>
      Some (trunk_freelist_alloc_space 0 ReclaimFreelist size false m')
  | r => r
  end.
End Alloc.

(** [check_trunk_avail], one path of the full array; [path_avail] tells whether
    the disk still has room for a trunk ([storage_config_calc_path_avail_space]). *)
Definition check_trunk_avail_one (trunk_file_size : Z) (path_avail : bool) (i : Z) (m : Mgr)
    : Z * Mgr :=
  match mg_allocators m !! i with
  | None => (0, m)
  | Some a =>
      if trunk_allocator_is_available a then fs_add_to_avail_aptr_array i m
      else if trunk_file_size <=? ta_stat_last_used a - ta_stat_used a then
        (0, (trunk_maker_allocate_ex i true
               (upd_allocator i (λ a, ta_set_last_used (ta_stat_used a) a) m)).2)
      else if path_avail then (0, (trunk_maker_allocate_ex i false m).2)
      else (0, m)
  end.
(** [check_trunk_avail]: the loop runs over the array as it was when it started. *)
Definition check_trunk_avail (trunk_file_size : Z) (path_avail : Z → bool) (m : Mgr) : Z * Mgr :=
  foldl (λ '(result, m) i,
    let '(r, m') := check_trunk_avail_one trunk_file_size (path_avail i) i m in
    (if r =? 0 then result else r, m')) (0, m) (ap_allocators (mg_full m)).

(** [init_allocator_ptr_array]: every path starts in one of the two arrays. *)
Definition init_allocator_ptr_array (trunk_file_size count : Z) (paths : list Z) (m : Mgr) : Mgr :=
  foldl (λ m i,
    match mg_allocators m !! i with
    | None => m
    | Some a =>
        if trunk_allocator_is_available a then
          set_aptrs (add_to_aptr_array (mg_avail m) i).2 (mg_full m) m
        else
          let m1 := upd_allocator i
            (λ a, ta_set_last_used (ta_stat_used a + trunk_file_size) a) m in
          set_aptrs (mg_avail m1) (add_to_aptr_array (mg_full m1) i).2 m1
    end) (set_aptrs (mkAptr count []) (mkAptr count []) m) paths.
