(* ===== verification/StorageAllocSpec.v ===== *)
(** * Correctness of space allocation

    What allocation does to the trunks (their free space) and to the free lists,
    seen through [view] and [lists]; the invariant of the allocator; and the
    arrays of available and full paths. *)
From S2P Require Import Prelude Types ObSlices TrunkAllocator StorageAllocator.

(** The free start and the size of a trunk; the trunks of a free list. *)
Definition view (m : Mgr) (k : trunk_key) : option (Z * Z) :=
  (λ t, (tf_free_start t, tf_size t)) <$> get_trunk m k.
Definition tid (m : Mgr) (k : trunk_key) : option FSTrunkIdInfo :=
  tf_id_info <$> get_trunk m k.
Definition lists (m : Mgr) (sel : FreelistSel) : list trunk_key :=
  fl_trunks (get_freelist sel m).

#[export] Instance FreelistSel_eq_dec : EqDecision FreelistSel.
Proof. solve_decision. Defined.

(** Two states with the same trunks and free lists. *)
Definition same_space (m m' : Mgr) : Prop :=
  (∀ k, view m' k = view m k) ∧ (∀ sel, lists m' sel = lists m sel) ∧
  (∀ k, tid m' k = tid m k).

#[export] Instance same_space_equiv : Equivalence same_space.
Proof.
  split.
  - by intros m.
  - intros m m' (H1 & H2 & H3). split_and!; intros; by rewrite ?H1, ?H2, ?H3.
  - intros m1 m2 m3 (H1 & H2 & H3) (K1 & K2 & K3).
    split_and!; intros; by rewrite ?K1, ?K2, ?K3.
Qed.

Lemma same_space_upd m i g :
  (∀ a, ta_trunks (g a) = ta_trunks a) → (∀ a, ta_freelist (g a) = ta_freelist a) →
  same_space m (upd_allocator i g m).
Proof.
  intros Ht Hf. split_and!.
  - intros k. unfold view. by rewrite get_upd_allocator.
  - intros [j|]; [|done]. unfold lists, get_freelist, upd_allocator. simpl.
    rewrite lookup_alter. case_decide as Hi; [subst j|done].
    destruct (mg_allocators m !! i); simpl; [by rewrite Hf|done].
  - intros k. unfold tid. by rewrite get_upd_allocator.
Qed.

Lemma lists_upd_trunk m k g sel : lists (upd_trunk k g m) sel = lists m sel.
Proof.
  destruct sel as [j|]; [|done]. unfold lists, get_freelist, upd_trunk, upd_allocator. simpl.
  rewrite lookup_alter. case_decide as Hi; [subst j|done].
  by destruct (mg_allocators m !! k.1).
Qed.

Lemma same_space_upd_trunk m k g :
  (∀ t, tf_free_start (g t) = tf_free_start t ∧ tf_size (g t) = tf_size t ∧
        tf_id_info (g t) = tf_id_info t) →
  same_space m (upd_trunk k g m).
Proof.
  intros Hg. split_and!; [|apply lists_upd_trunk|]; intros k'; unfold view, tid;
    rewrite get_upd_trunk; (case_decide; [|done]); (destruct (get_trunk m k') as [t|]; [|done]);
    simpl; destruct (Hg t) as (E1 & E2 & E3); by rewrite ?E1, ?E2, ?E3.
Qed.

Lemma event_force_trunk a id0 e id :
  (λ t, (tf_free_start t, tf_size t, tf_id_info t)) <$>
    ta_trunks (push_trunk_util_event_force id0 e a) !! id =
  (λ t, (tf_free_start t, tf_size t, tf_id_info t)) <$> ta_trunks a !! id.
Proof.
  unfold push_trunk_util_event_force.
  destruct (ta_trunks a !! id0) as [t|] eqn:Ht; [|done]. case_decide; [done|].
  assert (Hu : ta_trunks (ta_upd_trunk id0 (tf_set_event e) a) !! id =
    (if decide (id0 = id) then tf_set_event e <$> ta_trunks a !! id0 else ta_trunks a !! id)).
  { apply lookup_alter. }
  set (a' := ta_upd_trunk id0 (tf_set_event e) a) in *. cbn zeta.
  transitivity ((λ t, (tf_free_start t, tf_size t, tf_id_info t)) <$> ta_trunks a' !! id).
  { by destruct (decide (tf_event t = UTIL_EVENT_NONE)). }
  rewrite Hu. case_decide as Hid; [|done]. by rewrite <- Hid, Ht.
Qed.

Lemma same_space_event_force m k e :
  same_space m (upd_allocator k.1 (push_trunk_util_event_force k.2 e) m).
Proof.
  assert (Hg : ∀ k', (λ t, (tf_free_start t, tf_size t, tf_id_info t)) <$>
      get_trunk (upd_allocator k.1 (push_trunk_util_event_force k.2 e) m) k' =
      (λ t, (tf_free_start t, tf_size t, tf_id_info t)) <$> get_trunk m k').
  { intros k'. unfold get_trunk, upd_allocator. simpl. rewrite lookup_alter.
    case_decide as Hi; [|done]. rewrite <- Hi.
    destruct (mg_allocators m !! k.1) as [a|]; simpl; [|done]. apply event_force_trunk. }
  split_and!.
  - intros k'. specialize (Hg k'). unfold view.
    destruct (get_trunk _ k'), (get_trunk m k'); simpl in *; congruence.
  - intros [j|]; [|done]. unfold lists, get_freelist, upd_allocator. simpl.
    rewrite lookup_alter. case_decide as Hi; [subst j|done].
    destruct (mg_allocators m !! k.1) as [a|]; simpl; [|done].
    unfold push_trunk_util_event_force. by repeat case_match.
  - intros k'. specialize (Hg k'). unfold tid.
    destruct (get_trunk _ k'), (get_trunk m k'); simpl in *; congruence.
Qed.

Lemma same_space_maker m i u : same_space m (trunk_maker_allocate_ex i u m).2.
Proof.
  unfold trunk_maker_allocate_ex. destruct (mg_mem m) as [|[] r].
  - apply (same_space_upd m i); done.
  - apply (same_space_upd (set_mgr_mem r m) i); done.
  - done.
Qed.

Lemma view_set_freelist m sel fl k : view (set_freelist sel fl m) k = view m k.
Proof.
  destruct sel as [i|]; [|done]. unfold view, set_freelist.
  by rewrite get_upd_allocator.
Qed.
Lemma tid_set_freelist m sel fl k : tid (set_freelist sel fl m) k = tid m k.
Proof.
  destruct sel as [i|]; [|done]. unfold tid, set_freelist.
  by rewrite get_upd_allocator.
Qed.
Lemma lists_set_freelist m sel fl sel' :
  lists m sel ≠ [] →
  lists (set_freelist sel fl m) sel' = if decide (sel = sel') then fl_trunks fl else lists m sel'.
Proof.
  intros Hne. destruct sel as [i|], sel' as [j|]; unfold lists, set_freelist, get_freelist in *;
    simpl in *; try done.
  rewrite lookup_alter. destruct (decide (i = j)) as [<-|Hij].
  - rewrite decide_True by done. by destruct (mg_allocators m !! i).
  - by rewrite decide_False by congruence.
Qed.

(** Removing the head of a free list. *)
Lemma freelist_remove_space m sel k rest :
  lists m sel = k :: rest →
  let m' := trunk_freelist_remove sel m in
  (∀ k', view m' k' = view m k') ∧
  (∀ sel', lists m' sel' = if decide (sel = sel') then rest else lists m sel') ∧
  (∀ k', tid m' k' = tid m k').
Proof.
  intros Hl m'. subst m'. unfold trunk_freelist_remove. unfold lists in Hl. rewrite Hl.
  set (fl := get_freelist sel m) in *.
  set (m1 := set_freelist sel _ m).
  assert (H1 : (∀ k', view m1 k' = view m k') ∧
    (∀ sel', lists m1 sel' = if decide (sel = sel') then rest else lists m sel') ∧
    (∀ k', tid m1 k' = tid m k')).
  { split_and!; intros; [apply view_set_freelist| |apply tid_set_freelist].
    unfold m1. rewrite lists_set_freelist; [done|]. unfold lists. fold fl. by rewrite Hl. }
  set (m2 := upd_trunk k (fs_set_trunk_status TRUNK_STATUS_REPUSH) m1).
  set (m3 := upd_allocator k.1 (push_trunk_util_event_force k.2 UTIL_EVENT_CREATE) m2).
  set (m4 := upd_trunk k (fs_set_trunk_status TRUNK_STATUS_NONE) m3).
  assert (H4 : same_space m1 m4).
  { transitivity m2; [by apply same_space_upd_trunk|].
    transitivity m3; [apply same_space_event_force|by apply same_space_upd_trunk]. }
  assert (H5 : ∀ m5, same_space m4 m5 →
    (∀ k', view m5 k' = view m k') ∧
    (∀ sel', lists m5 sel' = if decide (sel = sel') then rest else lists m sel') ∧
    (∀ k', tid m5 k' = tid m k')).
  { intros m5 H5. destruct (transitivity H4 H5) as (K1 & K2 & K3).
    destruct H1 as (H1 & H1' & H1''). split_and!; intros; by rewrite ?K1, ?K2, ?K3, ?H1, ?H1', ?H1''. }
  apply H5. case_match; [apply same_space_maker|done].
Qed.

(** Taking space from a trunk. *)
Lemma alloc_space_space m k t n :
  get_trunk m k = Some t →
  let m' := (TRUNK_ALLOC_SPACE k t n m).2 in
  (∀ k', view m' k' = if decide (k = k') then Some (tf_free_start t + n, tf_size t) else view m k') ∧
  (∀ sel, lists m' sel = lists m sel) ∧ (∀ k', tid m' k' = tid m k').
Proof.
  intros Ht m'. subst m'. unfold TRUNK_ALLOC_SPACE. simpl.
  set (m1 := upd_trunk k _ m).
  match goal with |- context [upd_allocator _ ?g m1] =>
    destruct (same_space_upd m1 k.1 g) as (H1 & H2 & H3); [done|done|] end.
  split_and!; intros.
  - rewrite H1. unfold m1, view. rewrite get_upd_trunk. case_decide as Hk; [subst k'|done].
    by rewrite Ht.
  - rewrite H2. apply lists_upd_trunk.
  - rewrite H3. unfold m1, tid. rewrite get_upd_trunk. case_decide; [|done].
    by destruct (get_trunk m k').
Qed.

(** ** The invariant *)

(** Free space is within the trunk; a trunk of a free list exists and has space;
    no trunk is in two places of the free lists. [size_ok] tells which sizes of trunks
    are considered. *)
Record mgr_ok (size_ok : Z → Prop) (m : Mgr) : Prop := {
  wf_view : ∀ k f s, view m k = Some (f, s) → 0 <= f <= s ∧ size_ok s;
  wf_list : ∀ sel k, k ∈ lists m sel → ∃ f s, view m k = Some (f, s) ∧ f < s;
  wf_nodup : ∀ sel, NoDup (lists m sel);
  wf_id : ∀ k d, tid m k = Some d → ti_id d = k.2;
  wf_disjoint : ∀ sel sel' k, k ∈ lists m sel → k ∈ lists m sel' → sel = sel';
}.
Arguments wf_view {size_ok} m _.
Arguments wf_list {size_ok} m _.
Arguments wf_nodup {size_ok} m _.
Arguments wf_id {size_ok} m _.
Arguments wf_disjoint {size_ok} m _.
(** Trunks of any size; and trunks of less than 2 GB, with which the [abort()] of
    [trunk_freelist_alloc_space] cannot be reached (its [remain_bytes] is an [int]; the
    configuration allows 4 GB). *)
Definition mgr_wf : Mgr → Prop := mgr_ok (λ _, True).
Definition alloc_safe : Mgr → Prop := mgr_ok (λ size, size < 2 ^ 31).

#[export] Instance mgr_ok_proper B : Proper (same_space ==> iff) (mgr_ok B).
Proof.
  assert (∀ m m', same_space m m' → mgr_ok B m → mgr_ok B m') as H.
  { intros m m' (H1 & H2 & H3) []. split; intros *; rewrite ?H1, ?H2, ?H3; eauto. }
  intros m m' Hm. split; apply H; [done|by symmetry].
Qed.

(** Space only grows used. *)
Definition space_mono (m m' : Mgr) : Prop :=
  ∀ k f s, view m k = Some (f, s) → ∃ f', view m' k = Some (f', s) ∧ f <= f' ∧ tid m' k = tid m k.
#[export] Instance space_mono_preorder : PreOrder space_mono.
Proof.
  split.
  - intros m k f s H. exists f. split_and!; [done|lia|done].
  - intros m1 m2 m3 H1 H2 k f s H. destruct (H1 _ _ _ H) as (f' & H' & ? & ?).
    destruct (H2 _ _ _ H') as (f'' & ? & ? & ?). exists f''. split_and!; [done|lia|congruence].
Qed.
Lemma same_space_mono m m' : same_space m m' → space_mono m m'.
Proof. intros (H & _ & H') k f s Hv. exists f. rewrite H, H'. split_and!; [done|lia|done]. Qed.

Lemma view_trunk m k f s :
  view m k = Some (f, s) ↔ ∃ t, get_trunk m k = Some t ∧ tf_free_start t = f ∧ tf_size t = s.
Proof.
  unfold view. destruct (get_trunk m k) as [t|]; simpl; split.
  - intros [= <- <-]. eauto.
  - by intros (? & [= <-] & <- & <-).
  - done.
  - by intros (? & ? & _).
Qed.

(** A space that an allocation going from [m] to [m'] handed out lies within one
    trunk of its store path, above the free start that trunk had and below the one
    it has now. *)
Definition space_key (sp : FSTrunkSpaceWithVersion) : trunk_key :=
  (sp_store (sv_space sp), ti_id (sp_id_info (sv_space sp))).
Definition space_end (sp : FSTrunkSpaceWithVersion) : Z :=
  sp_offset (sv_space sp) + sp_size (sv_space sp).
Definition space_ok (m m' : Mgr) (sp : FSTrunkSpaceWithVersion) : Prop :=
  0 < sp_size (sv_space sp) ∧ 0 <= sp_offset (sv_space sp) ∧
  (∃ f' sz, view m' (space_key sp) = Some (f', sz) ∧ space_end sp <= f' <= sz) ∧
  (∀ f sz, view m (space_key sp) = Some (f, sz) → f <= sp_offset (sv_space sp)).
Definition space_disjoint (s1 s2 : FSTrunkSpaceWithVersion) : Prop :=
  space_key s1 = space_key s2 →
  space_end s1 <= sp_offset (sv_space s2) ∨ space_end s2 <= sp_offset (sv_space s1).

Lemma space_ok_l m m1 m' sp : space_mono m m1 → space_ok m1 m' sp → space_ok m m' sp.
Proof.
  intros Hm (H1 & H2 & H3 & H4). split_and!; [done..|]. intros f sz Hv.
  destruct (Hm _ _ _ Hv) as (f' & Hv' & ? & _). specialize (H4 _ _ Hv'). lia.
Qed.
Section Wf.
Context {B : Z → Prop}.
Lemma space_ok_r m m1 m' sp :
  mgr_ok B m' → space_ok m m1 sp → space_mono m1 m' → space_ok m m' sp.
Proof.
  intros W (H1 & H2 & (f & sz & Hv & ?) & H4) Hm. split_and!; [done..| |done].
  destruct (Hm _ _ _ Hv) as (f' & Hv' & ? & _). exists f', sz. split; [done|].
  pose proof (wf_view _ W _ _ _ Hv'). lia.
Qed.
(** Spaces handed out one after the other do not overlap. *)
Lemma space_ok_disjoint m m1 m2 m' s1 s2 :
  space_ok m m1 s1 → space_mono m1 m2 → space_ok m2 m' s2 → space_disjoint s1 s2.
Proof.
  intros (_ & _ & (f & sz & Hv & ?) & _) Hm (_ & _ & _ & H4) Hk. left.
  destruct (Hm _ _ _ Hv) as (f' & Hv' & ? & _). rewrite Hk in Hv'. specialize (H4 _ _ Hv'). lia.
Qed.

(** The list without its head stays well-formed. *)
Lemma mgr_wf_remove m sel k rest :
  mgr_ok B m → lists m sel = k :: rest → mgr_ok B (trunk_freelist_remove sel m).
Proof.
  intros [W1 W2 W3 W5 W4] Hl. destruct (freelist_remove_space m sel k rest Hl) as (H1 & H2 & H3).
  assert (Hsub : ∀ sel' k', k' ∈ lists (trunk_freelist_remove sel m) sel' → k' ∈ lists m sel').
  { intros sel' k'. rewrite H2. case_decide; [subst|done]. rewrite Hl. by right. }
  split.
  - intros k' f s. rewrite H1. apply W1.
  - intros sel' k' Hk. destruct (W2 _ _ (Hsub _ _ Hk)) as (f & s & ? & ?). exists f, s.
    by rewrite H1.
  - intros sel'. rewrite H2. case_decide; [|apply W3]. specialize (W3 sel). rewrite Hl in W3.
    by apply NoDup_cons in W3 as [_ ?].
  - intros k' d. rewrite H3. apply W5.
  - intros sel1 sel2 k' K1 K2. eauto.
Qed.

(** Consuming space of the head: the head may only stay if space is left. *)
Lemma mgr_wf_alloc m sel k rest t n :
  mgr_ok B m → lists m sel = k :: rest → get_trunk m k = Some t →
  0 < n <= FS_TRUNK_AVAIL_SPACE t →
  let m1 := (TRUNK_ALLOC_SPACE k t n m).2 in
  (n < FS_TRUNK_AVAIL_SPACE t → mgr_ok B m1) ∧ mgr_ok B (trunk_freelist_remove sel m1).
Proof.
  intros [W1 W2 W3 W5 W4] Hl Ht Hn m1.
  destruct (alloc_space_space m k t n Ht) as (H1 & H2 & H3). fold m1 in H1, H2, H3.
  unfold FS_TRUNK_AVAIL_SPACE in *.
  assert (Hv : view m k = Some (tf_free_start t, tf_size t)) by (unfold view; by rewrite Ht).
  assert (Hv1 : ∀ k' f s, view m1 k' = Some (f, s) → 0 <= f <= s ∧ B s).
  { intros k' f s. rewrite H1. case_decide; [|by apply W1].
    intros [= <- <-]. destruct (W1 _ _ _ Hv). split; [lia|done]. }
  assert (Hother : ∀ sel' k', k' ∈ lists m sel' → k' ≠ k → ∃ f s, view m1 k' = Some (f, s) ∧ f < s).
  { intros sel' k' Hk Hne. destruct (W2 _ _ Hk) as (f & s & ? & ?). exists f, s.
    rewrite H1. by rewrite decide_False. }
  split.
  - intros Hlt. split; [done|..].
    + intros sel' k'. rewrite H2. intros Hk. destruct (decide (k' = k)) as [->|Hne]; [|by eapply Hother].
      eexists _, _. rewrite H1, decide_True by done. split; [done|lia].
    + intros sel'. rewrite H2. apply W3.
    + intros k' d. rewrite H3. apply W5.
    + intros sel1 sel2 k'. rewrite !H2. apply W4.
  - destruct (freelist_remove_space m1 sel k rest) as (R1 & R2 & R3); [by rewrite H2|].
    assert (Hsub : ∀ sel' k', k' ∈ lists (trunk_freelist_remove sel m1) sel' →
      k' ∈ lists m sel' ∧ k' ≠ k).
    { intros sel' k'. rewrite R2, H2. pose proof (W3 sel) as Hnd. rewrite Hl in Hnd.
      apply NoDup_cons in Hnd as [Hnk _]. case_decide as Hs; [subst sel'|].
      - rewrite Hl. intros Hk. split; [by right|]. by intros ->.
      - intros Hk. split; [done|]. intros ->. apply Hs, (W4 sel sel' k); [|done].
        rewrite Hl. by left. }
    split.
    + intros k' f s. rewrite R1. apply Hv1.
    + intros sel' k' [Hk Hne]%Hsub. destruct (Hother _ _ Hk Hne) as (f & s & ? & ?).
      exists f, s. by rewrite R1.
    + intros sel'. rewrite R2, H2. specialize (W3 sel'). case_decide as Hs; [|done]. subst sel'.
      rewrite Hl in W3. by apply NoDup_cons in W3 as [_ ?].
    + intros k' d. rewrite R3, H3. apply W5.
    + intros sel1 sel2 k' [? _]%Hsub [? _]%Hsub. eauto.
Qed.

Lemma MEM_ALIGN_CEIL_8 size :
  MEM_ALIGN_CEIL size FS_SPACE_ALIGN_SIZE = (size + 7) / 8 * 8.
Proof.
  unfold MEM_ALIGN_CEIL, FS_SPACE_ALIGN_SIZE. change (8 - 1) with (Z.ones 3).
  rewrite <- Z.ldiff_land, Z.ldiff_ones_r, Z.shiftl_mul_pow2, Z.shiftr_div_pow2 by lia.
  done.
Qed.

(** ** The steps of an allocation *)

#[local] Arguments TRUNK_ALLOC_SPACE : simpl never.
#[local] Arguments FS_TRUNK_AVAIL_SPACE : simpl never.

Lemma freelist_remove_mono m sel : space_mono m (trunk_freelist_remove sel m).
Proof.
  destruct (lists m sel) as [|k rest] eqn:Hl.
  - unfold trunk_freelist_remove. unfold lists in Hl. by rewrite Hl.
  - destruct (freelist_remove_space m sel k rest Hl) as (H1 & _ & H3). intros k' f s Hv.
    exists f. rewrite H1, H3. split_and!; [done|lia|done].
Qed.
Lemma mgr_wf_remove_any m sel : mgr_ok B m → mgr_ok B (trunk_freelist_remove sel m).
Proof.
  intros W. destruct (lists m sel) as [|k rest] eqn:Hl; [|by eapply mgr_wf_remove].
  unfold trunk_freelist_remove. unfold lists in Hl. by rewrite Hl.
Qed.

(** One [TRUNK_ALLOC_SPACE] at the head of a list, with the removal that follows
    when [drop] says so. *)
Lemma alloc_head_run m sel k rest t n (drop : bool) :
  mgr_ok B m → lists m sel = k :: rest → get_trunk m k = Some t →
  0 < n <= FS_TRUNK_AVAIL_SPACE t → (drop = false → n < FS_TRUNK_AVAIL_SPACE t) →
  let '(sp, m1) := TRUNK_ALLOC_SPACE k t n m in
  let m2 := if drop then trunk_freelist_remove sel m1 else m1 in
  mgr_ok B m2 ∧ space_mono m m2 ∧ space_ok m m2 sp ∧ sp_size (sv_space sp) = n.
Proof.
  intros W Hl Ht Hn Hd.
  destruct (mgr_wf_alloc m sel k rest t n W Hl Ht Hn) as (Wkeep & Wdrop).
  destruct (alloc_space_space m k t n Ht) as (H1 & _ & H3).
  assert (Hsp : (TRUNK_ALLOC_SPACE k t n m).1.(sv_space)
    = mkTrunkSpace k.1 (tf_id_info t) (tf_free_start t) n) by done.
  destruct (TRUNK_ALLOC_SPACE k t n m) as [sp m1]. simpl in *.
  assert (Hv : view m k = Some (tf_free_start t, tf_size t)) by (unfold view; by rewrite Ht).
  assert (Hid : ti_id (tf_id_info t) = k.2).
  { apply (wf_id _ W). unfold tid. by rewrite Ht. }
  assert (M1 : space_mono m m1).
  { intros k' f s Hv'. rewrite H1, H3. case_decide as Hk; [subst k'|exists f; split_and!; [done|lia|done]].
    rewrite Hv in Hv'. injection Hv' as <- <-. eexists. split_and!; [done|lia|done]. }
  assert (O1 : space_ok m m1 sp).
  { unfold space_ok, space_key, space_end. rewrite Hsp. simpl. rewrite Hid, <- surjective_pairing.
    pose proof (wf_view _ W _ _ _ Hv). unfold FS_TRUNK_AVAIL_SPACE in Hn. split_and!; [lia|lia| |].
    - eexists _, _. rewrite H1, decide_True by done. split; [done|lia].
    - intros f sz. rewrite Hv. intros [= <- <-]. lia. }
  assert (Hsz : sp_size (sv_space sp) = n) by (by rewrite Hsp).
  destruct drop; [|auto].
  split_and!; [done| | |done].
  - etransitivity; [exact M1|apply freelist_remove_mono].
  - by eapply space_ok_r, freelist_remove_mono.
Qed.

Section AllocThms.
Variables (now : Z) (cont : bool) (discard : Z) (blocked : Z → Mgr → Mgr).
Hypothesis Hdiscard : 0 < discard.
(** What the other threads do while a caller waits keeps the manager
    well-formed and takes no space back. *)
Hypothesis Hblocked : ∀ i m, mgr_ok B m → mgr_ok B (blocked i m) ∧ space_mono m (blocked i m).

Definition goes (m m' : Mgr) : Prop := mgr_ok B m' ∧ space_mono m m'.
Lemma goes_same m m' : mgr_ok B m → same_space m m' → goes m m'.
Proof using. intros W H. split; [by rewrite <- H|by apply same_space_mono]. Qed.
Lemma goes_trans m m1 m' : goes m m1 → (mgr_ok B m1 → goes m1 m') → goes m m'.
Proof using. intros [W1 M1] H. destruct (H W1). split; [done|by etransitivity]. Qed.

Lemma waiting_goes fuel round i sel m :
  mgr_ok B m → goes m (waiting_rounds now cont blocked fuel round i sel m).2.
Proof using Hblocked.
  revert round m. induction fuel as [|fuel IH]; intros round m W; simpl.
  { by apply goes_same. }
  set (p := if _ : bool then trunk_maker_allocate_ex _ _ _ else (0, m)).
  assert (Hp : goes m p.2).
  { unfold p. case_match; [|by apply goes_same]. apply goes_same; [done|].
    etransitivity; [|apply same_space_maker]. by apply same_space_upd. }
  destruct p as [r m1]. simpl in Hp. case_match; [done|].
  set (m2 := add_waiting i (-1) _).
  assert (H2 : goes m m2).
  { eapply goes_trans; [exact Hp|]. intros W1.
    eapply goes_trans; [apply (goes_same m1 (add_waiting i 1 m1)); [done|by apply same_space_upd]|].
    intros W2. eapply goes_trans; [|intros W3; apply goes_same; [done|by apply same_space_upd]].
    unfold wait_creating. case_match; [by apply Hblocked|by apply goes_same]. }
  case_match; [done|]. eapply goes_trans; [exact H2|]. intros W2. by apply IH.
Qed.

Lemma waiting_result fuel round i sel m :
  (waiting_rounds now cont blocked fuel round i sel m).1 = 0 ∨
  (waiting_rounds now cont blocked fuel round i sel m).1 = ENOMEM.
Proof using.
  revert round m. induction fuel as [|fuel IH]; intros round m; simpl; [by left|].
  set (p := if _ : bool then trunk_maker_allocate_ex _ _ _ else (0, m)).
  assert (Hp : p.1 = 0 ∨ p.1 = ENOMEM).
  { unfold p. case_match; [|by left]. unfold trunk_maker_allocate_ex.
    destruct (mg_mem _) as [|[] l]; simpl; auto. }
  destruct p as [r m1]. simpl in Hp. case_match; [done|]. case_match; [by left|apply IH].
Qed.

Lemma alloc_from_head_run sel n sps m :
  mgr_ok B m → 0 < n →
  let '(res, m') := alloc_from_head cont discard sel n sps m in
  goes m m' ∧
  match res with
  | Allocated l => ∃ sp, l = sps ++ [sp] ∧ space_ok m m' sp ∧ sp_size (sv_space sp) = n
  | AllocFailed e => 0 < e < 2 ^ 15
  | Aborted => False
  end.
Proof using Hdiscard.
  intros W Hn. unfold alloc_from_head, freelist_head. fold (lists m sel).
  destruct (lists m sel) as [|k rest] eqn:Hl; cbn [head].
  { split; [by apply goes_same|]. destruct cont; unfold ENOSPC, EINTR; lia. }
  destruct (wf_list _ W sel k) as (f & s & Hv & Hfs); [rewrite Hl; by left|].
  apply view_trunk in Hv as (t & Ht & Hf & Hs). rewrite Ht.
  destruct (Z.ltb_spec (FS_TRUNK_AVAIL_SPACE t) n) as [?|Hle]; [split; [by apply goes_same|unfold EAGAIN; lia]|].
  set (drop := _ <? discard).
  assert (Hd : drop = false → n < FS_TRUNK_AVAIL_SPACE t) by (unfold drop; intros; zbool; lia).
  pose proof (alloc_head_run m sel k rest t n drop W Hl Ht (conj Hn Hle) Hd) as H.
  destruct (TRUNK_ALLOC_SPACE k t n m) as [sp m1] eqn:E. destruct H as (W2 & M2 & O2 & S2).
  destruct drop; [|split; [by split|eauto]].
  match goal with |- context [upd_allocator ?i ?g ?m0] =>
    pose proof (same_space_upd m0 i g ltac:(done) ltac:(done)) as Hs2 end.
  split.
  - eapply goes_trans; [split; [exact W2|exact M2]|]. intros _. by apply goes_same.
  - exists sp. split_and!; [done| |done].
    eapply space_ok_r; [|exact O2|by apply same_space_mono]. by rewrite <- Hs2.
Qed.

(** The first trunk of a list has 2 GB or more to give. *)
Definition big_head sel m : Prop :=
  ∃ k t, head (lists m sel) = Some k ∧ get_trunk m k = Some t ∧ 2 ^ 31 <= FS_TRUNK_AVAIL_SPACE t.
Lemma cast32_le x : 0 <= x → cast32 x <= x ∧ (x < 2 ^ 31 → cast32 x = x).
Proof using.
  intros Hx. split; [|intros; apply cast32_id; unfold in_int32; lia]. unfold cast32.
  pose proof (Z.mod_le (x + 2 ^ 31) (2 ^ 32)). lia.
Qed.
Lemma use_remains_run sel n is_normal m :
  mgr_ok B m → 0 < n →
  let '(res, (n', m')) := use_remains sel n is_normal m in
  goes m m' ∧
  match res with
  | Allocated l => 0 < n' ∧ (l = [] ∧ n' = n ∨
      ∃ sp, l = [sp] ∧ space_ok m m' sp ∧ sp_size (sv_space sp) = n - n')
  | AllocFailed e => e = EAGAIN
  | Aborted => big_head sel m
  end.
Proof using.
  intros W Hn. unfold use_remains, freelist_head. fold (lists m sel).
  destruct (lists m sel) as [|k rest] eqn:Hl; cbn [head].
  { split; [by apply goes_same|auto]. }
  destruct (wf_list _ W sel k) as (f & s & Hv & Hfs); [rewrite Hl; by left|].
  pose proof (wf_view _ W _ _ _ Hv) as [Hb _].
  apply view_trunk in Hv as (t & Ht & <- & <-). rewrite Ht.
  set (avail := FS_TRUNK_AVAIL_SPACE t). assert (0 < avail) by (unfold avail, FS_TRUNK_AVAIL_SPACE; lia).
  destruct (cast32_le avail) as [Hc1 Hc2]; [lia|]. set (c := cast32 avail) in *.
  destruct (Z.ltb_spec c n) as [Hlt|?]; [|split; [by apply goes_same|split; [done|by left]]].
  destruct (negb is_normal && _); [split; [by apply goes_same|done]|].
  destruct (Z.leb_spec c 0) as [?|?].
  { split; [by apply goes_same|]. exists k, t. rewrite Hl. split_and!; [done|done|]. fold avail.
    destruct (Z.le_gt_cases (2 ^ 31) avail) as [?|Hlt2]; [done|]. specialize (Hc2 Hlt2). lia. }
  pose proof (alloc_head_run m sel k rest t c true W Hl Ht) as H'. fold avail in H'.
  specialize (H' ltac:(lia) ltac:(done)).
  destruct (TRUNK_ALLOC_SPACE k t c m) as [sp m1] eqn:E. destruct H' as (W2 & M2 & O2 & S2).
  split; [by split|]. split; [lia|]. right. exists sp. split_and!; [done|done|lia].
Qed.

(** Every allocation from a well-formed manager ends with the requested space or
    with an error, or it aborts because of a first trunk with 2 GB or more. *)
Lemma trunk_freelist_alloc_space_run i sel size is_normal m :
  mgr_ok B m → 0 < size → in_int32 (size + 7) →
  let '(res, m') :=
    trunk_freelist_alloc_space now cont discard blocked i sel size is_normal m in
  goes m m' ∧
  match res with
  | Allocated l =>
      Forall (space_ok m m') l ∧ sumZ (λ sp, sp_size (sv_space sp)) l = (size + 7) / 8 * 8 ∧
      (length l = 1%nat ∨ ∃ s1 s2, l = [s1; s2] ∧ space_disjoint s1 s2)
  | AllocFailed e => 0 < e < 2 ^ 15
  | Aborted => big_head sel m
  end.
Proof using Hdiscard Hblocked.
  intros W Hs Hi. unfold trunk_freelist_alloc_space. rewrite MEM_ALIGN_CEIL_8.
  set (n := (size + 7) / 8 * 8).
  assert (Hn : 0 < n) by (unfold n; pose proof (Z.div_str_pos (size + 7) 8); lia).
  pose proof (use_remains_run sel n is_normal m W Hn) as Hu.
  destruct (use_remains sel n is_normal m) as [res1 [n' m1]]. destruct Hu as [G1 P1].
  set (inner := match res1 with Allocated _ => _ | _ => _ end).
  assert (Hin : goes m inner.2 ∧
    match inner.1 with
    | Allocated l =>
        Forall (space_ok m inner.2) l ∧ sumZ (λ sp, sp_size (sv_space sp)) l = n ∧
        (length l = 1%nat ∨ ∃ s1 s2, l = [s1; s2] ∧ space_disjoint s1 s2)
    | AllocFailed e => 0 < e < 2 ^ 15
    | Aborted => big_head sel m
    end).
  { unfold inner. destruct res1 as [l1|e1|]; simpl; [|subst e1; split; [done|unfold EAGAIN; lia]|done].
    destruct P1 as [Hn' Pl]. 
    assert (Hhead : ∀ m2, goes m1 m2 →
      let inner := alloc_from_head cont discard sel n' l1 m2 in
      goes m inner.2 ∧
      match inner.1 with
      | Allocated l =>
          Forall (space_ok m inner.2) l ∧ sumZ (λ sp, sp_size (sv_space sp)) l = n ∧
          (length l = 1%nat ∨ ∃ s1 s2, l = [s1; s2] ∧ space_disjoint s1 s2)
      | AllocFailed e => 0 < e < 2 ^ 15
      | Aborted => big_head sel m
      end).
    { intros m2 [W2 M2]. pose proof (alloc_from_head_run sel n' l1 m2 W2 Hn') as Ha.
      destruct (alloc_from_head cont discard sel n' l1 m2) as [res m3]. simpl.
      destruct Ha as [[W3 M3] Pa]. destruct G1 as [W1 M1].
      assert (G : goes m m3) by (split; [done|by do 2 (etransitivity; [eassumption|])]).
      split; [done|]. destruct res as [l| |]; [|done..].
      destruct Pa as (sp & -> & O3 & S3).
      assert (space_ok m m3 sp) by (eapply space_ok_l; [|exact O3]; by etransitivity).
      destruct Pl as [[-> ->]|(s1 & -> & O1 & S1)]; simpl; autorewrite with fstore.
      - split_and!; [by apply Forall_singleton|lia|by left].
      - split_and!; [|lia|].
        + rewrite Forall_cons, Forall_singleton. split; [|done].
          eapply space_ok_r; [done|exact O1|by etransitivity].
        + right. exists s1, sp. split; [done|]. by eapply space_ok_disjoint. }
    destruct (is_nil _); [|apply Hhead, goes_same; [by apply G1|done]].
    destruct (negb is_normal); [split; [exact G1|unfold EAGAIN; simpl; lia]|].
    unfold waiting_avail_trunk.
    pose proof (waiting_goes 10 0 i sel m1 (proj1 G1)) as Hw.
    pose proof (waiting_result 10 0 i sel m1) as Hr.
    destruct (waiting_rounds now cont blocked 10 0 i sel m1) as [r m2]. simpl in Hw, Hr.
    destruct (Z.eqb_spec r 0); [by apply Hhead|]. split; [|simpl; unfold ENOMEM in Hr; lia].
    eapply goes_trans; [exact G1|done]. }
  destruct inner as [res m2]. simpl in Hin. destruct Hin as [G P].
  destruct res as [l|e|]; [by split| |done]. destruct (_ && is_normal); [|by split].
  split; [|done].
  eapply goes_trans; [exact G|]. intros W2. apply goes_same; [done|].
  unfold fs_remove_from_avail_aptr_array.
  destruct (fs_move_allocator_ptr_array _ _ _ _) as [r [[a1 a2] mem]]. simpl.
  destruct (r =? 0); [|done]. etransitivity; [|by apply same_space_upd]. done.
Qed.
End AllocThms.
End Wf.

Lemma safe_no_big_head sel m : alloc_safe m → ¬ big_head sel m.
Proof.
  intros W (k & t & Hk & Ht & Ha). unfold FS_TRUNK_AVAIL_SPACE in Ha.
  destruct (wf_view m W k (tf_free_start t) (tf_size t)) as [? ?]; [|lia]. unfold view. by rewrite Ht.
Qed.
Lemma safe_wf m : alloc_safe m → mgr_wf m.
Proof. intros [V1 V2 V3 V4 V5]. split; try done. intros k f s Hv. by destruct (V1 k f s Hv). Qed.
