(* ===== verification/StorageAllocThms.v ===== *)
(** * Properties of the storage allocator

    Allocation hands out fresh, disjoint space of exactly the requested size; the
    allocator's states reachable by its operations are well-formed; the arrays of
    available and full paths always partition the paths. *)
From S2P Require Import Prelude Types ObSlices TrunkAllocator StorageAllocator StorageAllocSpec.

(** ** The operations keep the manager well-formed *)

Lemma lists_set_trunks m i g sel :
  lists (upd_allocator i (λ a, ta_set_trunks (g a) a) m) sel = lists m sel.
Proof.
  destruct sel as [j|]; [|done]. unfold lists, get_freelist, upd_allocator. simpl.
  rewrite lookup_alter. case_decide as Hi; [subst j|done]. by destruct (mg_allocators m !! i).
Qed.

Lemma mgr_wf_new_trunk {B : Z → Prop} m i id_info size :
  mgr_ok B m → get_trunk m (i, ti_id id_info) = None → 0 <= size → B size →
  mgr_ok B (upd_allocator i (λ a, ta_set_trunks (<[ti_id id_info :=
    mkTrunk i id_info TRUNK_STATUS_NONE 0 0 [] size 0 UTIL_EVENT_NONE]> (ta_trunks a)) a) m).
Proof.
  intros [W1 W2 W3 W4 W5] Hn Hs HB. set (m' := upd_allocator _ _ m).
  assert (Hg : ∀ k, get_trunk m' k = get_trunk m k ∨
    (k = (i, ti_id id_info) ∧ get_trunk m' k =
       Some (mkTrunk i id_info TRUNK_STATUS_NONE 0 0 [] size 0 UTIL_EVENT_NONE))).
  { intros [j id]. unfold m', get_trunk, upd_allocator. simpl. rewrite lookup_alter.
    case_decide as Hi; [subst j|by left]. destruct (mg_allocators m !! i) as [a|]; simpl; [|by left].
    rewrite lookup_insert. case_decide as Hj; [subst id; by right|by left]. }
  assert (Hl : ∀ sel, lists m' sel = lists m sel).
  { intros sel. apply lists_set_trunks. }
  assert (Hold : ∀ k f s, view m k = Some (f, s) → view m' k = Some (f, s)).
  { intros k f s. unfold view. destruct (Hg k) as [->|[-> _]]; [done|]. by rewrite Hn. }
  split.
  - intros k f s. unfold view. destruct (Hg k) as [->|[_ ->]]; [apply W1|]. simpl.
    intros [= <- <-]. split; [lia|done].
  - intros sel k. rewrite Hl. intros Hk. destruct (W2 _ _ Hk) as (f & s & ? & ?). eauto.
  - intros sel. by rewrite Hl.
  - intros k d. unfold tid. destruct (Hg k) as [->|[-> ->]]; [apply W4|]. by intros [= <-].
  - intros sel sel' k. rewrite !Hl. apply W5.
Qed.

Lemma mgr_wf_trunk_allocator_add {B : Z → Prop} m i id_info size :
  mgr_ok B m → 0 <= size → B size → mgr_ok B (trunk_allocator_add i id_info size m).2.
Proof.
  intros W Hs HB. unfold trunk_allocator_add.
  assert (Hgo : ∀ m1, same_space m m1 → mgr_ok B m1) by (intros m1 <-; done).
  set (p := match mg_mem m with [] => _ | _ => _ end).
  assert (Hp : mgr_ok B p.2) by (apply Hgo; unfold p; by destruct (mg_mem m)).
  destruct p as [ok m1]. simpl in Hp. destruct ok; [|done]. simpl.
  destruct (mg_allocators m1 !! i) as [a|] eqn:Ha; [|done].
  destruct (ta_trunks a !! ti_id id_info) eqn:Ht; [done|].
  apply mgr_wf_new_trunk; [done| |done..]. unfold get_trunk. simpl. by rewrite Ha.
Qed.

Lemma mgr_wf_freelist_add {B : Z → Prop} m sel k t :
  mgr_ok B m → get_trunk m k = Some t → 0 < FS_TRUNK_AVAIL_SPACE t →
  (∀ sel', k ∉ lists m sel') → mgr_ok B (trunk_freelist_add sel k m).
Proof.
  intros W Ht Hav Hno. unfold trunk_freelist_add. set (fl := get_freelist sel m).
  set (m1 := set_freelist sel _ m). set (m2 := upd_trunk k _ m1).
  assert (H12 : same_space m1 m2) by (by apply same_space_upd_trunk).
  assert (W1 : mgr_ok B m1).
  { assert (Hl : ∀ sel', lists m1 sel' = lists m sel' ∨
       (sel = sel' ∧ lists m1 sel' = lists m sel ++ [k])).
    { intros sel'. destruct sel as [i|], sel' as [j|]; unfold lists, m1, set_freelist, get_freelist;
        simpl; try (by left); [|by right].
      rewrite lookup_alter. case_decide as Hi; [subst j|by left].
      destruct (mg_allocators m !! i) eqn:Ha; simpl; [|by left].
      right. unfold fl, get_freelist. by rewrite Ha. }
    assert (Hin : ∀ sel' x, x ∈ lists m1 sel' → x ∈ lists m sel' ∨ (x = k ∧ sel = sel')).
    { intros sel' x. destruct (Hl sel') as [->|[<- ->]]; [auto|].
      rewrite elem_of_app, list_elem_of_singleton. intros [?|?]; auto. }
    destruct W as [V1 V2 V3 V4 V5]. split.
    - intros k' f s. unfold m1. rewrite view_set_freelist. apply V1.
    - intros sel' k' [Hk|[-> _]]%Hin; unfold m1; rewrite view_set_freelist; [by eapply V2|].
      unfold view. rewrite Ht. unfold FS_TRUNK_AVAIL_SPACE in Hav. simpl. eexists _, _.
      split; [done|]. lia.
    - intros sel'. destruct (Hl sel') as [->|[<- ->]]; [apply V3|]. apply NoDup_app.
      split_and!; [apply V3| |by apply NoDup_singleton].
      intros x Hx ->%list_elem_of_singleton. by apply (Hno sel).
    - intros k' d. unfold m1. rewrite tid_set_freelist. apply V4.
    - intros s1 s2 x [H1|[-> <-]]%Hin [H2|[? <-]]%Hin; subst; eauto; exfalso; by eapply Hno. }
  assert (W2 : mgr_ok B m2) by (by rewrite <- H12).
  destruct (get_trunk m2 k) as [t2|]; [|done].
  match goal with |- mgr_ok _ (upd_allocator ?i ?g ?m0) =>
    pose proof (same_space_upd m0 i g ltac:(done) ltac:(done)) as Hs end.
  by rewrite <- Hs.
Qed.

Lemma same_space_add_slice m s f : same_space m (storage_allocator_add_slice m s f).2.
Proof.
  unfold storage_allocator_add_slice, trunk_allocator_add_slice.
  set (m1 := if f then _ else m).
  assert (H : same_space m m1) by (destruct f; [by apply same_space_upd|done]).
  destruct (get_trunk m1 _); [|done]. etransitivity; [exact H|]. by apply same_space_upd_trunk.
Qed.

Lemma same_space_change_event m i id e :
  same_space m (upd_allocator i (push_trunk_util_change_event id e) m).
Proof.
  set (m' := upd_allocator _ _ m).
  assert (Hg : ∀ k', (λ t, (tf_free_start t, tf_size t, tf_id_info t)) <$> get_trunk m' k' =
      (λ t, (tf_free_start t, tf_size t, tf_id_info t)) <$> get_trunk m k').
  { intros k'. unfold m', get_trunk, upd_allocator. simpl. rewrite lookup_alter.
    case_decide as Hi; [|done]. rewrite <- Hi. destruct (mg_allocators m !! i) as [a|]; simpl; [|done].
    unfold push_trunk_util_change_event. destruct (ta_trunks a !! id) as [t|] eqn:Ht; [|done].
    destruct (decide (tf_event t = UTIL_EVENT_NONE)); [|done]. simpl. rewrite lookup_alter.
    case_decide as Hj; [|done]. by rewrite <- Hj, Ht. }
  split_and!.
  - intros k'. specialize (Hg k'). unfold view.
    destruct (get_trunk m' k'), (get_trunk m k'); simpl in *; congruence.
  - intros [j|]; [|done]. unfold lists, get_freelist, m', upd_allocator. simpl.
    rewrite lookup_alter. case_decide as Hi; [subst j|done].
    destruct (mg_allocators m !! i) as [a|]; simpl; [|done].
    unfold push_trunk_util_change_event. by repeat case_match.
  - intros k'. specialize (Hg k'). unfold tid.
    destruct (get_trunk m' k'), (get_trunk m k'); simpl in *; congruence.
Qed.

Lemma same_space_delete_slice m s f : same_space m (storage_allocator_delete_slice m s f).2.
Proof.
  unfold storage_allocator_delete_slice, trunk_allocator_delete_slice.
  set (m1 := if f then _ else m).
  assert (H : same_space m m1) by (destruct f; [by apply same_space_upd|done]).
  destruct (get_trunk m1 _); [|done]. etransitivity; [exact H|]. simpl.
  etransitivity; [|apply same_space_change_event]. by apply same_space_upd_trunk.
Qed.

(** ** Recycling a trunk *)

(** A trunk enters a free list: its data stay. *)
Lemma freelist_add_trunk sel key m k :
  (λ t, (tf_free_start t, tf_size t, tf_id_info t, tf_used_bytes t)) <$> get_trunk (trunk_freelist_add sel key m) k =
  (λ t, (tf_free_start t, tf_size t, tf_id_info t, tf_used_bytes t)) <$> get_trunk m k.
Proof.
  unfold trunk_freelist_add. set (m1 := set_freelist sel _ m). set (m2 := upd_trunk key _ m1).
  assert (H1 : get_trunk m1 k = get_trunk m k).
  { unfold m1. destruct sel as [i|]; [|done]. unfold set_freelist. by rewrite get_upd_allocator. }
  assert (H2 : (λ t, (tf_free_start t, tf_size t, tf_id_info t, tf_used_bytes t)) <$> get_trunk m2 k =
    (λ t, (tf_free_start t, tf_size t, tf_id_info t, tf_used_bytes t)) <$> get_trunk m k).
  { unfold m2. rewrite get_upd_trunk, H1. case_decide; [|done]. by destruct (get_trunk m k). }
  destruct (get_trunk m2 key) as [t|]; [|exact H2]. rewrite <- H2. f_equal. by rewrite get_upd_allocator.
Qed.
Lemma recycle_trunk_data key m k :
  (λ t, (tf_free_start t, tf_size t, tf_id_info t, tf_used_bytes t)) <$> get_trunk (recycle_trunk key m) k =
  (λ t, ((if decide (key = k) then 0 else tf_free_start t), tf_size t, tf_id_info t, tf_used_bytes t)) <$> get_trunk m k.
Proof.
  unfold recycle_trunk, trunk_allocator_add_to_freelist. cbn [snd].
  rewrite freelist_add_trunk, get_upd_trunk. by case_decide; destruct (get_trunk m k).
Qed.
Lemma recycle_trunk_view key m k :
  view (recycle_trunk key m) k = (λ p, (if decide (key = k) then 0 else p.1, p.2)) <$> view m k.
Proof.
  pose proof (recycle_trunk_data key m k) as H. unfold view.
  destruct (get_trunk (recycle_trunk key m) k), (get_trunk m k); simpl in *; congruence.
Qed.
Lemma recycle_trunk_used key m st id : acct_used (recycle_trunk key m) st id = acct_used m st id.
Proof.
  pose proof (recycle_trunk_data key m (st, id)) as H. simpl.
  destruct (get_trunk (recycle_trunk key m) (st, id)), (get_trunk m (st, id)); simpl in *; congruence.
Qed.
Lemma recycle_trunk_wf {B : Z → Prop} key m f sz :
  mgr_ok B m → view m key = Some (f, sz) → 0 < sz → (∀ sel, key ∉ lists m sel) → mgr_ok B (recycle_trunk key m).
Proof.
  intros W Hv Hs Hno. unfold recycle_trunk, trunk_allocator_add_to_freelist. cbn [snd].
  apply view_trunk in Hv as (t & Ht & _ & Hsz). set (m1 := upd_trunk key _ m).
  assert (Hg : ∀ k, get_trunk m1 k = if decide (key = k) then tf_set_free_start 0 <$> get_trunk m k else get_trunk m k)
    by (intros k; apply get_upd_trunk).
  assert (Ht1 : get_trunk m1 key = Some (tf_set_free_start 0 t)) by (rewrite Hg, decide_True, Ht; done).
  eapply mgr_wf_freelist_add; [|exact Ht1|unfold FS_TRUNK_AVAIL_SPACE; simpl; lia|].
  - destruct W as [V1 V2 V3 V4 V5].
    assert (Hvw : ∀ k, view m1 k = (λ p, (if decide (key = k) then 0 else p.1, p.2)) <$> view m k).
    { intros k. unfold view. rewrite Hg. by case_decide; destruct (get_trunk m k). }
    assert (Hli : ∀ sel, lists m1 sel = lists m sel) by (intros sel; apply lists_upd_trunk).
    split.
    + intros k f' s'. rewrite Hvw. destruct (view m k) as [[f0 s0]|] eqn:E; [|done]. simpl.
      destruct (V1 _ _ _ E). intros [= <- <-]. split; [case_decide; lia|done].
    + intros sel k. rewrite Hli. intros Hk. destruct (V2 _ _ Hk) as (f0 & s0 & E & Hlt). rewrite Hvw, E.
      specialize (V1 _ _ _ E). eexists _, _. split; [done|]. simpl. case_decide; lia.
    + intros sel. by rewrite Hli.
    + intros k d Hd. apply V4. revert Hd. unfold tid. rewrite Hg. by case_decide; destruct (get_trunk m k).
    + intros s1 s2 k. rewrite !Hli. apply V5.
  - intros sel. unfold m1. rewrite lists_upd_trunk. apply Hno.
Qed.

(** ** The steps of the allocator

    What the threads do to the manager, each step under one lock: an allocation that waits
    for a trunk gives the lock away, so its parts are steps of their own. A step tells which
    space it hands out, and which trunk it empties (a trunk that is recycled or deleted can
    give all its space again). *)
Inductive MgrEvent :=
  | EvNone
  | EvHanded (spaces : list FSTrunkSpaceWithVersion)
  | EvCleared (k : trunk_key).

(** The slices of the binlog that are loaded into a trunk lie in it. *)
Definition loaded_slice (k : trunk_key) (size : Z) (s : OBSliceEntry) : Prop :=
  (sp_store (se_space s), ti_id (sp_id_info (se_space s))) = k ∧
  sp_offset (se_space s) + sp_size (se_space s) <= size.

(** The callers add to a free list only trunks that are in none, and recycle, delete and load
    such trunks only. *)
Inductive mgr_step (discard : Z) : Mgr → MgrEvent → Mgr → Prop :=
  | step_trunk_allocator_add m i id_info size :
      0 <= size → mgr_step discard m EvNone (trunk_allocator_add i id_info size m).2
  | step_trunk_allocator_delete m i id :
      (∀ sel, (i, id) ∉ lists m sel) →
      mgr_step discard m (EvCleared (i, id)) (trunk_allocator_delete i id m).2
  | step_batch_add_slices m slices k t :
      (∀ sel, k ∉ lists m sel) → get_trunk m k = Some t → Forall (loaded_slice k (tf_size t)) slices →
      mgr_step discard m EvNone (trunk_allocator_batch_add_slices slices m).2
  | step_recycle m k f size :
      (∀ sel, k ∉ lists m sel) → view m k = Some (f, size) → 0 < size →
      mgr_step discard m (EvCleared k) (recycle_trunk k m)
  | step_trunk_freelist_add m sel k t :
      get_trunk m k = Some t → 0 < FS_TRUNK_AVAIL_SPACE t → (∀ sel', k ∉ lists m sel') →
      mgr_step discard m EvNone (trunk_freelist_add sel k m)
  | step_trunk_freelist_remove m sel : mgr_step discard m EvNone (trunk_freelist_remove sel m)
  | step_keep_water_mark m i : mgr_step discard m EvNone (trunk_freelist_keep_water_mark i m)
  | step_use_remains m sel n is_normal l n' m' :
      0 < n → use_remains sel n is_normal m = (Allocated l, (n', m')) →
      mgr_step discard m (EvHanded l) m'
  | step_from_head m cont sel n l m' :
      0 < n → alloc_from_head cont discard sel n [] m = (Allocated l, m') →
      mgr_step discard m (EvHanded l) m'
  | step_waiting m i trigger waiting :
      mgr_step discard m EvNone
        (upd_allocator i (λ a, ta_set_alloc (trigger a) (ta_creating_trunks a) (waiting a)
                                 (ta_current_version a) a) m)
  | step_maker m i urgent : mgr_step discard m EvNone (trunk_maker_allocate_ex i urgent m).2
  | step_after_make m i result : mgr_step discard m EvNone (trunk_allocator_after_make_trunk i result m)
  | step_add_avail m i : mgr_step discard m EvNone (fs_add_to_avail_aptr_array i m).2
  | step_remove_avail m i : mgr_step discard m EvNone (fs_remove_from_avail_aptr_array i m).2
  | step_last_used m i n : mgr_step discard m EvNone (upd_allocator i (ta_set_last_used n) m)
  | step_add_slice m s f : mgr_step discard m EvNone (storage_allocator_add_slice m s f).2
  | step_delete_slice m s f : mgr_step discard m EvNone (storage_allocator_delete_slice m s f).2.

Inductive mgr_trace (discard : Z) : Mgr → list MgrEvent → Mgr → Prop :=
  | trace_nil m : mgr_trace discard m [] m
  | trace_snoc m evs m1 ev m' :
      mgr_trace discard m evs m1 → mgr_step discard m1 ev m' → mgr_trace discard m (evs ++ [ev]) m'.

(** The space in use after a trace: handed out, and its trunk not emptied since. *)
Definition live_after (l : list FSTrunkSpaceWithVersion) (ev : MgrEvent) : list FSTrunkSpaceWithVersion :=
  match ev with
  | EvNone => l
  | EvHanded spaces => l ++ spaces
  | EvCleared k => filter (λ sp, space_key sp ≠ k) l
  end.
Definition live (evs : list MgrEvent) : list FSTrunkSpaceWithVersion := foldl live_after [] evs.
Definition handed (evs : list MgrEvent) : list FSTrunkSpaceWithVersion :=
  evs ≫= λ ev, match ev with EvHanded l => l | _ => [] end.

Definition mgr_init (m : Mgr) : Prop :=
  (∀ k, get_trunk m k = None) ∧ (∀ sel, lists m sel = []).

(** ** What the steps keep *)

Lemma mgr_init_wf {B : Z → Prop} m : mgr_init m → mgr_ok B m.
Proof.
  intros [H1 H2]. split.
  - intros k f s. unfold view. by rewrite H1.
  - intros sel k. rewrite H2. by intros ?%elem_of_nil.
  - intros sel. rewrite H2. constructor.
  - intros k d. unfold tid. by rewrite H1.
  - intros sel sel' k. rewrite H2. by intros ?%elem_of_nil.
Qed.

(** Other trunks only. *)
Lemma mono_new_trunk m i id_info size : space_mono m (trunk_allocator_add i id_info size m).2.
Proof.
  unfold trunk_allocator_add.
  set (p := match mg_mem m with [] => _ | _ => _ end).
  assert (Hp : space_mono m p.2) by (apply same_space_mono; unfold p; by destruct (mg_mem m)).
  destruct p as [ok m1]. simpl in Hp. destruct ok; [|done]. simpl.
  destruct (mg_allocators m1 !! i) as [a|] eqn:Ha; [|done].
  destruct (ta_trunks a !! ti_id id_info) eqn:Ht; [done|]. etransitivity; [exact Hp|]. simpl.
  intros k f s Hv. exists f. revert Hv. unfold view, tid, get_trunk, upd_allocator. simpl. rewrite lookup_alter.
  case_decide as Hi; [rewrite <- Hi, Ha; simpl|by intros ->]. rewrite lookup_insert.
  case_decide as Hj; [by rewrite <- Hj, Ht|by intros ->].
Qed.

(** The manager without a trunk of no free list. *)
Lemma get_delete_trunk m i id k : get_trunk (trunk_allocator_delete i id m).2 k =
  if decide (k = (i, id)) then None else get_trunk m k.
Proof.
  unfold trunk_allocator_delete. destruct (get_trunk m (i, id)) as [t|] eqn:E.
  - simpl. destruct k as [j id']. unfold get_trunk, upd_allocator in *. simpl in *. rewrite lookup_alter.
    destruct (decide (i = j)) as [->|Hi]; [|by rewrite decide_False by congruence].
    destruct (mg_allocators m !! j) as [a|] eqn:Ha; simpl in *; [|done]. rewrite lookup_delete.
    destruct (decide (id = id')) as [->|Hid]; [by rewrite decide_True|by rewrite decide_False by congruence].
  - simpl. case_decide as Hk; [by rewrite Hk|done].
Qed.
Lemma lists_delete_trunk m i id sel : lists (trunk_allocator_delete i id m).2 sel = lists m sel.
Proof. unfold trunk_allocator_delete. destruct (get_trunk m (i, id)); [|done]. apply lists_set_trunks. Qed.
Lemma mgr_wf_delete_trunk {B : Z → Prop} m i id :
  mgr_ok B m → (∀ sel, (i, id) ∉ lists m sel) → mgr_ok B (trunk_allocator_delete i id m).2.
Proof.
  intros [V1 V2 V3 V4 V5] Hno.
  assert (Hv : ∀ k, view (trunk_allocator_delete i id m).2 k = if decide (k = (i, id)) then None else view m k).
  { intros k. unfold view. rewrite get_delete_trunk. by case_decide. }
  split.
  - intros k f s. rewrite Hv. case_decide; [done|apply V1].
  - intros sel k. rewrite lists_delete_trunk. intros Hk. rewrite Hv, decide_False; [by eapply V2|]. by intros ->; apply (Hno sel).
  - intros sel. rewrite lists_delete_trunk. apply V3.
  - intros k d. unfold tid. rewrite get_delete_trunk. case_decide; [done|apply V4].
  - intros s1 s2 k. rewrite !lists_delete_trunk. apply V5.
Qed.

(** Loading the binlog moves the start of the free space up, to the end of the last slice. *)
Lemma batch_add_fields slices t k size :
  Forall (loaded_slice k size) slices → tf_size t = size → 0 <= tf_free_start t <= size →
  let t' := foldl batch_add_one t slices in
  tf_size t' = size ∧ tf_id_info t' = tf_id_info t ∧ tf_free_start t <= tf_free_start t' <= size.
Proof.
  intros Hs. revert t. induction Hs as [|s slices [_ Hs] _ IH]; intros t Ht Hf; simpl; [by split_and!; try lia|].
  set (t1 := batch_add_one t s).
  assert (H1 : tf_size t1 = size ∧ tf_id_info t1 = tf_id_info t ∧ tf_free_start t <= tf_free_start t1 <= size).
  { unfold t1, batch_add_one. case_match; simpl; zbool; split_and!; done || lia. }
  destruct H1 as (E1 & E2 & H1). destruct (IH t1 E1) as (K1 & K2 & K3); [lia|].
  split_and!; [done|congruence|lia|lia].
Qed.
Lemma batch_add_run {B : Z → Prop} m slices k t :
  mgr_ok B m → (∀ sel, k ∉ lists m sel) → get_trunk m k = Some t → Forall (loaded_slice k (tf_size t)) slices →
  mgr_ok B (trunk_allocator_batch_add_slices slices m).2 ∧
  space_mono m (trunk_allocator_batch_add_slices slices m).2.
Proof.
  intros W Hno Ht Hs. unfold trunk_allocator_batch_add_slices. destruct slices as [|s0 slices'] eqn:Es; [done|].
  assert (Hk : (sp_store (se_space s0), ti_id (sp_id_info (se_space s0))) = k) by (by apply Forall_cons in Hs as [[? _] _]).
  rewrite Hk, Ht. rewrite <- Es in *. cbn [snd]. set (m1 := upd_trunk k _ m).
  destruct W as [V1 V2 V3 V4 V5].
  assert (Hv0 : view m k = Some (tf_free_start t, tf_size t)) by (unfold view; by rewrite Ht).
  destruct (V1 _ _ _ Hv0) as [Hf HB].
  destruct (batch_add_fields slices t k (tf_size t) Hs eq_refl Hf) as (E1 & E2 & E3).
  set (t' := foldl batch_add_one t slices) in *.
  assert (Hg : ∀ k', get_trunk m1 k' = if decide (k = k') then Some t' else get_trunk m k').
  { intros k'. unfold m1. rewrite get_upd_trunk. case_decide as E; [|done]. by rewrite <- E, Ht. }
  assert (Hl : ∀ sel, lists m1 sel = lists m sel) by (intros sel; apply lists_upd_trunk).
  split; [split|].
  - intros k' f s. unfold view. rewrite Hg. case_decide; [|apply V1]. intros [= <- <-]. rewrite E1. split; [lia|done].
  - intros sel k'. rewrite Hl. intros Hin. unfold view. rewrite Hg, decide_False; [by eapply V2|]. by intros ->; apply (Hno sel).
  - intros sel. rewrite Hl. apply V3.
  - intros k' d. unfold tid. rewrite Hg. case_decide as E; [|apply V4]. intros [= <-]. rewrite E2.
    apply V4. unfold tid. by rewrite <- E, Ht.
  - intros s1 s2 k'. rewrite !Hl. apply V5.
  - intros k' f s Hv. unfold view, tid. rewrite Hg. case_decide as E.
    + subst k'. rewrite Hv0 in Hv. injection Hv as <- <-. exists (tf_free_start t'). rewrite Ht. simpl.
      split_and!; [by rewrite E1|lia|by rewrite E2].
    + exists f. by split_and!.
Qed.

Lemma water_mark_same m i : same_space m (trunk_freelist_keep_water_mark i m).
Proof.
  unfold trunk_freelist_keep_water_mark. case_match; [done|].
  generalize (Z.to_nat (fl_water_mark_trunks (get_freelist (NormalFreelist i) m) - fl_count (get_freelist (NormalFreelist i) m))).
  intros n. induction n as [|n IH]; [done|]. etransitivity; [exact IH|apply same_space_maker].
Qed.
Lemma aptr_same m i : same_space m (fs_add_to_avail_aptr_array i m).2 ∧ same_space m (fs_remove_from_avail_aptr_array i m).2.
Proof.
  split.
  - unfold fs_add_to_avail_aptr_array. by destruct (fs_move_allocator_ptr_array _ _ _ _) as [r [[a1 a2] mem]].
  - unfold fs_remove_from_avail_aptr_array. destruct (fs_move_allocator_ptr_array _ _ _ _) as [r [[a1 a2] mem]].
    simpl. destruct (r =? 0); [|done]. by apply (same_space_upd (set_mgr_mem mem (set_aptrs a1 a2 m))).
Qed.

(** Every step keeps the invariant, takes no space back but by emptying a trunk, and hands
    out space that was free. *)
Lemma mgr_step_ok {B : Z → Prop} discard m ev m' :
  0 < discard → (∀ size, B size) → mgr_step discard m ev m' → mgr_ok B m →
  mgr_ok B m' ∧
  match ev with
  | EvNone => space_mono m m'
  | EvHanded l => space_mono m m' ∧ (l = [] ∨ ∃ sp, l = [sp] ∧ space_ok m m' sp)
  | EvCleared k => ∀ k', k' ≠ k → view m' k' = view m k'
  end.
Proof.
  intros Hd HB H W. assert (Hsame : ∀ m', same_space m m' → mgr_ok B m' ∧ space_mono m m').
  { intros m1 Hs. split; [by rewrite <- Hs|by apply same_space_mono]. }
  destruct H.
  - split; [by apply mgr_wf_trunk_allocator_add|apply mono_new_trunk].
  - split; [by apply mgr_wf_delete_trunk|]. intros k' Hk. unfold view. by rewrite get_delete_trunk, decide_False.
  - by eapply batch_add_run.
  - split; [by eapply recycle_trunk_wf|]. intros k' Hk. rewrite recycle_trunk_view.
    destruct (view m k') as [[f1 s1]|]; [|done]. simpl. by rewrite decide_False by congruence.
  - split; [by eapply mgr_wf_freelist_add|]. intros k' f s Hv. exists f.
    pose proof (freelist_add_trunk sel k m k') as E. revert Hv. unfold view, tid.
    destruct (get_trunk (trunk_freelist_add sel k m) k'), (get_trunk m k'); simpl in *; try done.
    injection E as E1 E2 E3 E4. intros [= <- <-]. rewrite E1, E2, E3. split_and!; [done|lia|done].
  - split; [by apply mgr_wf_remove_any|apply freelist_remove_mono].
  - apply Hsame, water_mark_same.
  - pose proof (use_remains_run (B := B) sel n is_normal m W) as Hr. rewrite H0 in Hr.
    destruct Hr as [[? ?] [_ Hr]]; [done|]. split; [done|]. split; [done|].
    destruct Hr as [[-> _]|(sp & -> & ? & _)]; eauto.
  - pose proof (alloc_from_head_run (B := B) cont discard Hd sel n [] m W) as Hr. rewrite H0 in Hr.
    destruct Hr as [[? ?] (sp & -> & ? & _)]; [done|]. split; [done|]. split; [done|]. eauto.
  - apply Hsame. by apply same_space_upd.
  - apply Hsame, same_space_maker.
  - apply Hsame. by apply same_space_upd.
  - apply Hsame, aptr_same.
  - apply Hsame, aptr_same.
  - apply Hsame. by apply same_space_upd.
  - apply Hsame, same_space_add_slice.
  - apply Hsame, same_space_delete_slice.
Qed.

(** Space that is in use lies below the free start of its trunk. *)
Definition below_free (m : Mgr) (sp : FSTrunkSpaceWithVersion) : Prop :=
  ∃ f sz, view m (space_key sp) = Some (f, sz) ∧ space_end sp <= f.
Definition live_ok (m : Mgr) (l : list FSTrunkSpaceWithVersion) : Prop :=
  Forall (below_free m) l ∧ StronglySorted space_disjoint l.

Lemma below_free_mono m m' sp : space_mono m m' → below_free m sp → below_free m' sp.
Proof.
  intros Hm (f & sz & Hv & Hle). destruct (Hm _ _ _ Hv) as (f' & Hv' & ? & _). exists f', sz. split; [done|lia].
Qed.
Lemma sorted_snoc {X} (R : X → X → Prop) l x :
  StronglySorted R l → Forall (λ y, R y x) l → StronglySorted R (l ++ [x]).
Proof.
  induction 1 as [|y l Hs IH Hy]; simpl; [by repeat constructor|].
  intros [Hyx Hl]%Forall_cons. constructor; [by apply IH|]. apply Forall_app. split; [done|by apply Forall_singleton].
Qed.

Lemma live_ok_step discard m ev m' l :
  0 < discard → mgr_step discard m ev m' → mgr_wf m → live_ok m l → live_ok m' (live_after l ev).
Proof.
  intros Hd Hs W [Hp Ho]. destruct (mgr_step_ok discard m ev m' Hd (λ _, I) Hs W) as [W' H].
  destruct ev as [|l1|k]; simpl.
  - split; [|done]. eapply Forall_impl; [exact Hp|]. intros sp. by apply below_free_mono.
  - destruct H as [Hm Hl]. assert (Hp' : Forall (below_free m') l).
    { eapply Forall_impl; [exact Hp|]. intros sp. by apply below_free_mono. }
    destruct Hl as [->|(sp & -> & _ & _ & (f & sz & Hv & Hle) & Hfree)]; [by rewrite app_nil_r|].
    split.
    + apply Forall_app. split; [done|]. apply Forall_singleton. exists f, sz. split; [done|lia].
    + apply sorted_snoc; [done|]. rewrite Forall_forall in *. intros s1 Hin Hk. left.
      destruct (Hp _ Hin) as (f1 & sz1 & Hv1 & Hle1). rewrite Hk in Hv1. specialize (Hfree _ _ Hv1). lia.
  - split; [|by apply sorted_filter]. rewrite Forall_forall in *. intros sp [Hk Hin]%list_elem_of_filter.
    destruct (Hp _ Hin) as (f & sz & Hv & Hle). exists f, sz. by rewrite H.
Qed.
Lemma mgr_trace_ok discard m0 evs m :
  0 < discard → mgr_init m0 → mgr_trace discard m0 evs m → mgr_wf m ∧ live_ok m (live evs).
Proof.
  intros Hd Hi H. induction H as [m|m evs m1 ev m' _ IH Hs].
  - split; [by apply mgr_init_wf|]. split; constructor.
  - destruct (IH Hi) as [W L]. split; [by eapply (mgr_step_ok discard)|].
    unfold live. rewrite foldl_snoc. by eapply live_ok_step.
Qed.

(** C30: every state that the steps of the allocator reach from an empty manager is
    well-formed, whatever the sizes of the trunks: the free space of a trunk lies within it, a
    trunk of a free list exists and has space, and no trunk is in two places of the free lists.
    The steps include the loading of slices from the binlog, and the recycling and the deletion
    of trunks. *)
Theorem mgr_reachable_wf discard m0 evs m :
  0 < discard → mgr_init m0 → mgr_trace discard m0 evs m → mgr_wf m.
Proof. intros Hd Hi H. by eapply mgr_trace_ok. Qed.

Lemma trace_app discard m evs1 m1 evs2 m2 :
  mgr_trace discard m evs1 m1 → mgr_trace discard m1 evs2 m2 → mgr_trace discard m (evs1 ++ evs2) m2.
Proof.
  intros H1 H2. induction H2 as [|m1 evs m3 ev m' _ IH Hs]; [by rewrite app_nil_r|].
  rewrite app_assoc. eapply trace_snoc; [by apply IH|done].
Qed.
Lemma trace_one discard m ev m' : mgr_step discard m ev m' → mgr_trace discard m [ev] m'.
Proof. intros H. apply (trace_snoc discard m [] m ev m'); [constructor|done]. Qed.

(** ** An allocation, as steps of the allocator and of the threads it lets in *)
Section AllocTrace.
Variables (now : Z) (cont : bool) (discard : Z) (blocked : Z → Mgr → Mgr).
Hypothesis Hblocked : ∀ i m, ∃ evs, mgr_trace discard m evs (blocked i m).

Lemma waiting_trace fuel round i sel m :
  ∃ evs, mgr_trace discard m evs (waiting_rounds now cont blocked fuel round i sel m).2.
Proof using Hblocked.
  revert round m. induction fuel as [|fuel IH]; intros round m; simpl; [by exists []; constructor|].
  set (p := if _ : bool then trunk_maker_allocate_ex _ _ _ else (0, m)).
  assert (Hp : ∃ evs, mgr_trace discard m evs p.2).
  { unfold p. case_match; [|by exists []; constructor]. eexists. eapply trace_snoc; [|apply step_maker].
    apply trace_one, (step_waiting discard m i (λ _, now) ta_waiting_callers). }
  destruct p as [r m1]. simpl in Hp. destruct Hp as [e1 H1]. case_match; [by eauto|].
  set (m2 := add_waiting i (-1) _).
  assert (H2 : ∃ evs, mgr_trace discard m evs m2).
  { assert (Hw : ∀ n m, mgr_step discard m EvNone (add_waiting i n m)).
    { intros n m0. apply (step_waiting discard m0 i ta_last_trigger_time (λ a, ta_waiting_callers a + n)). }
    assert (Hc : ∃ evs, mgr_trace discard (add_waiting i 1 m1) evs (wait_creating cont blocked i sel (add_waiting i 1 m1))).
    { unfold wait_creating. case_match; [apply Hblocked|by exists []; constructor]. }
    destruct Hc as [e2 H2]. eexists. eapply trace_snoc; [|apply Hw].
    eapply trace_app; [|exact H2]. eapply trace_snoc; [exact H1|apply Hw]. }
  case_match; [done|]. destruct H2 as [e2 H2]. destruct (IH (round + 1) m2) as [e3 H3].
  eexists. by eapply trace_app.
Qed.

Lemma alloc_from_head_app sel n sps m :
  alloc_from_head cont discard sel n sps m =
  let '(res, m') := alloc_from_head cont discard sel n [] m in
  (match res with Allocated l => Allocated (sps ++ l) | r => r end, m').
Proof using.
  unfold alloc_from_head. destruct (freelist_head sel m) as [k|]; [|done].
  destruct (get_trunk m k) as [t|]; [|done]. case_match; [done|].
  by destruct (TRUNK_ALLOC_SPACE k t n m).
Qed.
Lemma alloc_from_head_trace sel n sps m : 0 < n →
  let '(res, m') := alloc_from_head cont discard sel n sps m in
  ∃ evs, mgr_trace discard m evs m' ∧
    match res with Allocated l => l = sps ++ handed evs | _ => True end.
Proof using.
  intros Hn. rewrite alloc_from_head_app. destruct (alloc_from_head cont discard sel n [] m) as [res m'] eqn:E.
  destruct res as [l|e|].
  - exists [EvHanded l]. split; [by eapply trace_one, step_from_head|]. unfold handed. simpl. by rewrite app_nil_r.
  - exists []. split; [|done]. replace m' with m; [constructor|]. revert E. unfold alloc_from_head.
    repeat case_match; congruence.
  - exists []. split; [|done]. replace m' with m; [constructor|]. revert E. unfold alloc_from_head.
    repeat case_match; congruence.
Qed.
Lemma use_remains_trace sel n is_normal m : 0 < n →
  let '(res, (n', m')) := use_remains sel n is_normal m in
  match res with
  | Allocated l => 0 < n' ∧ mgr_step discard m (EvHanded l) m'
  | _ => m' = m
  end.
Proof using.
  intros Hn. destruct (use_remains sel n is_normal m) as [res [n' m']] eqn:E. destruct res as [l|e|].
  - split; [|by eapply step_use_remains]. revert E. unfold use_remains. repeat case_match; zbool; intros; simplify_eq; lia.
  - revert E. unfold use_remains. repeat case_match; congruence.
  - revert E. unfold use_remains. repeat case_match; congruence.
Qed.

Lemma alloc_trace i sel size is_normal m :
  0 < size →
  let '(res, m') := trunk_freelist_alloc_space now cont discard blocked i sel size is_normal m in
  ∃ evs, mgr_trace discard m evs m' ∧ match res with Allocated l => l ⊆ handed evs | _ => True end.
Proof using Hblocked.
  intros Hs. unfold trunk_freelist_alloc_space. rewrite MEM_ALIGN_CEIL_8.
  assert (Hn : 0 < (size + 7) / 8 * 8) by (pose proof (Z.div_str_pos (size + 7) 8); lia).
  pose proof (use_remains_trace sel _ is_normal m Hn) as Hu.
  destruct (use_remains sel _ is_normal m) as [res1 [n' m1]].
  set (inner := match res1 with Allocated _ => _ | _ => _ end).
  assert (Hin : ∃ evs, mgr_trace discard m evs inner.2 ∧
    match inner.1 with Allocated l => l ⊆ handed evs | _ => True end).
  { unfold inner. destruct res1 as [l1|e1|]; simpl; [|rewrite Hu; exists []; split; [constructor|done]..].
    destruct Hu as [Hn' H1].
    assert (Hhead : ∀ e2 m2, mgr_trace discard m1 e2 m2 →
      let inner := alloc_from_head cont discard sel n' l1 m2 in
      ∃ evs, mgr_trace discard m evs inner.2 ∧
        match inner.1 with Allocated l => l ⊆ handed evs | _ => True end).
    { intros e2 m2 H2. pose proof (alloc_from_head_trace sel n' l1 m2 Hn') as Ha.
      destruct (alloc_from_head cont discard sel n' l1 m2) as [res m3]. simpl. destruct Ha as (e3 & H3 & Hl).
      exists ([EvHanded l1] ++ e2 ++ e3). split; [|destruct res; [|done..]; rewrite Hl].
      - eapply trace_app; [by apply trace_one|]. by eapply trace_app.
      - unfold handed. rewrite !bind_app. simpl. rewrite app_nil_r. set_solver. }
    destruct (is_nil _); [|apply (Hhead []); constructor].
    destruct (negb is_normal); [exists [EvHanded l1]; split; [by apply trace_one|done]|].
    destruct (waiting_trace 10 0 i sel m1) as [e2 H2]. unfold waiting_avail_trunk.
    destruct (waiting_rounds now cont blocked 10 0 i sel m1) as [r m2]. simpl in H2.
    destruct (negb (r =? 0)); [|by apply (Hhead e2)].
    exists ([EvHanded l1] ++ e2). split; [|done]. by eapply trace_app; [apply trace_one|]. }
  destruct inner as [res m2]. simpl in Hin. destruct Hin as (evs & H & P).
  destruct res as [l|e|]; [by eauto| |by eauto]. destruct (_ && is_normal); [|by eauto].
  exists (evs ++ [EvNone]). split; [|done]. eapply trace_snoc; [exact H|apply step_remove_avail].
Qed.
End AllocTrace.

(** What was handed out is in use, unless its trunk was emptied. *)
Lemma handed_live sp evs l :
  sp ∈ l ∨ sp ∈ handed evs → sp ∈ foldl live_after l evs ∨ EvCleared (space_key sp) ∈ evs.
Proof.
  revert l. induction evs as [|ev evs IH]; intros l; simpl; [intros [?|?%elem_of_nil]; [by left|done]|].
  intros Hin. assert (Hn : ev = EvCleared (space_key sp) ∨ sp ∈ live_after l ev ∨ sp ∈ handed evs).
  { unfold handed in Hin. simpl in Hin. destruct ev as [|l1|k]; simpl in *.
    - set_solver.
    - set_solver.
    - destruct (decide (k = space_key sp)) as [->|Hk]; [by left|right]. destruct Hin as [?|?]; [left|by right].
      apply list_elem_of_filter. split; [congruence|done]. }
  destruct Hn as [->|Hn]; [right; by left|]. destruct (IH _ Hn); [by left|right; by right].
Qed.


(** An allocator for one path, and the state after a trunk of [size] bytes was
    created and put on its free list. *)
Definition one_path : Mgr :=
  mkMgr [] {[ 1 := mkAllocator 0 0 0 0 ∅ (mkFreelist 0 []) 0 0 0 0 0 [] ]}
    (mkFreelist 0 []) (mkAptr 4 [1]) (mkAptr 4 []) [].
Definition one_trunk (size : Z) : Mgr :=
  trunk_freelist_add (NormalFreelist 1) (1, 7)
    (trunk_allocator_add 1 (mkTrunkId 7 1) size one_path).2.

Lemma one_path_init : mgr_init one_path.
Proof.
  split.
  - intros [i id]. unfold get_trunk, one_path. simpl.
    destruct (decide (i = 1)) as [->|Hi]; [done|]. by rewrite lookup_singleton_ne.
  - intros [j|]; [|done]. unfold lists, get_freelist, one_path. simpl.
    destruct (decide (j = 1)) as [->|Hi]; [done|]. by rewrite lookup_singleton_ne.
Qed.

Lemma one_path_empty sel k : k ∉ lists one_path sel.
Proof. rewrite (proj2 one_path_init). apply not_elem_of_nil. Qed.

(** The state before the trunk entered its list. *)
Lemma one_trunk_made size :
  get_trunk (trunk_allocator_add 1 (mkTrunkId 7 1) size one_path).2 (1, 7) =
    Some (mkTrunk 1 (mkTrunkId 7 1) TRUNK_STATUS_NONE 0 0 [] size 0 UTIL_EVENT_NONE) ∧
  ∀ sel, lists (trunk_allocator_add 1 (mkTrunkId 7 1) size one_path).2 sel = [].
Proof.
  split; [done|]. intros sel. unfold trunk_allocator_add. cbn [mg_mem one_path negb].
  repeat case_match; try apply one_path_init. etransitivity; [apply lists_set_trunks|]. apply one_path_init.
Qed.
Lemma one_trunk_ok {B : Z → Prop} size : 0 < size → B size → mgr_ok B (one_trunk size).
Proof.
  intros Hs HB. destruct (one_trunk_made size) as [Ht Hl]. eapply mgr_wf_freelist_add; [|exact Ht|unfold FS_TRUNK_AVAIL_SPACE; simpl; lia|].
  - apply mgr_wf_trunk_allocator_add; [apply mgr_init_wf, one_path_init|lia|done].
  - intros sel. rewrite Hl. apply not_elem_of_nil.
Qed.
Lemma one_trunk_wf size : 0 < size < 2 ^ 31 → alloc_safe (one_trunk size).
Proof. intros. apply one_trunk_ok; lia. Qed.
Lemma one_trunk_trace size : 0 < size → mgr_trace 256 one_path [EvNone; EvNone] (one_trunk size).
Proof.
  intros Hs. destruct (one_trunk_made size) as [Ht Hl].
  apply (trace_app 256 _ [EvNone] (trunk_allocator_add 1 (mkTrunkId 7 1) size one_path).2 [EvNone]); apply trace_one.
  - apply step_trunk_allocator_add. lia.
  - eapply step_trunk_freelist_add; [exact Ht|unfold FS_TRUNK_AVAIL_SPACE; simpl; lia|].
    intros sel. rewrite Hl. apply not_elem_of_nil.
Qed.
Lemma one_trunk_alloc_wf {B : Z → Prop} size n :
  mgr_ok B (one_trunk size) → 0 < n → in_int32 (n + 7) →
  mgr_ok B (trunk_freelist_alloc_space 10 true 256 (λ _ m, m) 1 (NormalFreelist 1) n true
              (one_trunk size)).2.
Proof.
  intros W Hn Hi. pose proof (trunk_freelist_alloc_space_run (B := B) 10 true 256 (λ _ m, m) ltac:(lia)
    (λ _ m W, conj W (reflexivity m)) 1 (NormalFreelist 1) n true _ W Hn Hi) as H.
  destruct (trunk_freelist_alloc_space _ _ _ _ _ _ _ _ _) as [res m']. apply H.
Qed.

(** A trunk of 4 GB, the largest the configuration allows. *)
Lemma mgr_reachable_wf_witness : mgr_wf (one_trunk (2 ^ 32)).
Proof.
  apply (mgr_reachable_wf 256 one_path [EvNone; EvNone]); [lia|apply one_path_init|by apply one_trunk_trace].
Defined.

(** ** Allocation *)

(** C28: from a well-formed manager an allocation of [size] bytes ends with an error
    or with one or two spaces of together [size] rounded up to 8 bytes; they lie in
    trunks that exist, above everything handed out before and below the new free
    start, and do not overlap; the manager stays well-formed. The sanity check's [abort()]
    is reached only when the first trunk of the list has 2 GB or more to give, so never with
    trunks of less than 2 GB. *)
Theorem trunk_freelist_alloc_space_ok now cont discard blocked i sel size is_normal m :
  0 < discard →
  (∀ i m, mgr_wf m → mgr_wf (blocked i m) ∧ space_mono m (blocked i m)) →
  mgr_wf m → 0 < size → in_int32 (size + 7) →
  let '(res, m') := trunk_freelist_alloc_space now cont discard blocked i sel size is_normal m in
  mgr_wf m' ∧ space_mono m m' ∧
  match res with
  | Allocated l =>
      Forall (space_ok m m') l ∧ sumZ (λ sp, sp_size (sv_space sp)) l = (size + 7) / 8 * 8 ∧
      (length l = 1%nat ∨ ∃ s1 s2, l = [s1; s2] ∧ space_disjoint s1 s2)
  | AllocFailed e => 0 < e < 2 ^ 15
  | Aborted => big_head sel m ∧ ¬ alloc_safe m
  end.
Proof.
  intros Hd Hb W Hs Hi.
  pose proof (trunk_freelist_alloc_space_run now cont discard blocked Hd Hb i sel size is_normal
    m W Hs Hi) as H.
  destruct (trunk_freelist_alloc_space _ _ _ _ _ _ _ _ _) as [res m'].
  destruct H as [[W' M'] P]. split_and!; [done|done|]. destruct res; [done|done|].
  split; [done|]. intros Hsafe. by apply (safe_no_big_head sel m Hsafe).
Qed.

Lemma trunk_freelist_alloc_space_ok_witness :
  let r := trunk_freelist_alloc_space 10 true 256 (λ _ m, m) 1 (NormalFreelist 1) 1001 true
             (one_trunk 4096) in
  mgr_wf r.2 ∧
  r.1 = Allocated [mkSpaceVersion (mkTrunkSpace 1 (mkTrunkId 7 1) 0 1008) 1].
Proof.
  pose proof (trunk_freelist_alloc_space_ok 10 true 256 (λ _ m, m) 1 (NormalFreelist 1) 1001 true
    (one_trunk 4096) ltac:(lia) (λ _ m W, conj W (reflexivity m)) (one_trunk_ok 4096 ltac:(lia) I)
    ltac:(lia) ltac:(unfold in_int32; lia)) as H.
  split; [|vm_compute; reflexivity].
  destruct (trunk_freelist_alloc_space _ _ _ _ _ _ _ _ _) as [res m']. exact (proj1 H).
Defined.

(** C29: no two spaces in use overlap. Take any run of the allocator from an empty manager, and
    an allocation of [size] bytes in its last state, during which the other threads run on
    whenever the caller waits. The whole is a run again, whose events hand out the spaces that
    the allocation returns; and the spaces that are in use after it (handed out by any
    allocation of the run, and their trunk not recycled or deleted since, these new ones among
    them) do not overlap. *)
Theorem allocations_disjoint now cont discard blocked i sel size is_normal m0 evs m l m' :
  0 < discard → mgr_init m0 → mgr_trace discard m0 evs m →
  (∀ i m, ∃ evs, mgr_trace discard m evs (blocked i m)) → 0 < size →
  trunk_freelist_alloc_space now cont discard blocked i sel size is_normal m = (Allocated l, m') →
  ∃ evs', mgr_trace discard m evs' m' ∧
    (∀ sp, sp ∈ l → sp ∈ handed evs' ∧ (sp ∈ live (evs ++ evs') ∨ EvCleared (space_key sp) ∈ evs')) ∧
    StronglySorted space_disjoint (live (evs ++ evs')).
Proof.
  intros Hd Hi Ht Hb Hs Ha. pose proof (alloc_trace now cont discard blocked Hb i sel size is_normal m Hs) as H.
  rewrite Ha in H. destruct H as (evs' & Ht' & Hl). exists evs'. split_and!; [done| |].
  - intros sp Hsp. split; [by apply Hl|]. unfold live. rewrite foldl_app. apply handed_live. right. by apply Hl.
  - destruct (mgr_trace_ok discard m0 (evs ++ evs') m' Hd Hi) as (_ & _ & ?); [|done]. by eapply trace_app.
Qed.

Lemma allocations_disjoint_witness :
  let alloc := trunk_freelist_alloc_space 10 true 256 (λ _ m, m) 1 (NormalFreelist 1) 1001 true in
  let r1 := alloc (one_trunk 4096) in let r2 := alloc r1.2 in
  let s1 := mkSpaceVersion (mkTrunkSpace 1 (mkTrunkId 7 1) 0 1008) 1 in
  let s2 := mkSpaceVersion (mkTrunkSpace 1 (mkTrunkId 7 1) 1008 1008) 2 in
  r1.1 = Allocated [s1] ∧ r2.1 = Allocated [s2] ∧
  ∃ evs, mgr_trace 256 one_path evs r2.2 ∧ StronglySorted space_disjoint (live evs).
Proof.
  intros alloc r1 r2 s1 s2. split; [vm_compute; reflexivity|]. split; [vm_compute; reflexivity|].
  assert (Hb : ∀ (i : Z) (m : Mgr), ∃ evs, mgr_trace 256 m evs m) by (intros; exists []; constructor).
  destruct (allocations_disjoint 10 true 256 (λ _ m, m) 1 (NormalFreelist 1) 1001 true one_path
    [EvNone; EvNone] (one_trunk 4096) [s1] r1.2) as (e1 & H1 & _).
  { lia. } { apply one_path_init. } { apply (one_trunk_trace 4096). lia. } { exact Hb. } { lia. } { vm_compute. reflexivity. }
  destruct (allocations_disjoint 10 true 256 (λ _ m, m) 1 (NormalFreelist 1) 1001 true one_path
    ([EvNone; EvNone] ++ e1) r1.2 [s2] r2.2) as (e2 & H2 & _ & H3).
  { lia. } { apply one_path_init. } { eapply trace_app; [apply (one_trunk_trace 4096); lia|exact H1]. } { exact Hb. } { lia. }
  { vm_compute. reflexivity. }
  exists (([EvNone; EvNone] ++ e1) ++ e2). split; [|exact H3].
  eapply trace_app; [|exact H2]. eapply trace_app; [apply (one_trunk_trace 4096); lia|exact H1].
Defined.

(** the reclaim allocation, which tries the paths and then the reclaim list,
    always returns, and with the same guarantees. *)
Theorem storage_allocator_reclaim_alloc_ok now cont discard blocked blk_hc size m :
  0 < discard →
  (∀ i m, alloc_safe m → alloc_safe (blocked i m) ∧ space_mono m (blocked i m)) →
  alloc_safe m → 0 < size → in_int32 (size + 7) →
  ∃ res m', storage_allocator_reclaim_alloc now cont discard blocked blk_hc size m = Some (res, m') ∧
  alloc_safe m' ∧ space_mono m m' ∧
  match res with
  | Allocated l =>
      Forall (space_ok m m') l ∧ sumZ (λ sp, sp_size (sv_space sp)) l = (size + 7) / 8 * 8
  | AllocFailed e => 0 < e < 2 ^ 15
  | Aborted => False
  end.
Proof.
  intros Hd Hb W Hs Hi. unfold storage_allocator_reclaim_alloc, storage_allocator_normal_alloc_ex.
  pose proof (λ i sel m W, trunk_freelist_alloc_space_run (B := λ size, size < 2 ^ 31) now cont discard blocked Hd Hb i sel size
    false m W Hs Hi) as Hrun.
  assert (Hlast : ∀ e m1, alloc_safe m1 → space_mono m m1 → 0 < e < 2 ^ 15 →
    ∃ res m', Some (trunk_freelist_alloc_space now cont discard blocked 0 ReclaimFreelist size false m1)
      = Some (res, m') ∧ alloc_safe m' ∧ space_mono m m' ∧
    match res with
    | Allocated l =>
        Forall (space_ok m m') l ∧ sumZ (λ sp, sp_size (sv_space sp)) l = (size + 7) / 8 * 8
    | AllocFailed e => 0 < e < 2 ^ 15
    | Aborted => False
    end).
  { intros e m1 W1 M1 _. specialize (Hrun 0 ReclaimFreelist m1 W1).
    destruct (trunk_freelist_alloc_space _ _ _ _ 0 _ _ _ _) as [res m2]. destruct Hrun as [[W2 M2] P].
    exists res, m2. split_and!; [done|done|by etransitivity|]. destruct res as [l| |]; [|done|].
    - destruct P as (P1 & P2 & _). split; [|done]. rewrite Forall_forall in *.
      intros s Hin. by eapply space_ok_l; [|apply P1].
    - by apply (safe_no_big_head ReclaimFreelist m1 W1). }
  destruct (ap_allocators (mg_avail m) !! _) as [i|]; [|by apply (Hlast ENOSPC)].
  specialize (Hrun i (NormalFreelist i) m W).
  destruct (trunk_freelist_alloc_space _ _ _ _ i _ _ _ _) as [res m1]. destruct Hrun as [[W1 M1] P].
  destruct res as [l|e|]; [|rewrite andb_false_r; by apply (Hlast e)|by destruct (safe_no_big_head _ m W P)].
  destruct P as (P1 & P2 & _). eexists _, _. by split_and!.
Qed.

Lemma storage_allocator_reclaim_alloc_ok_witness : ∃ m',
  storage_allocator_reclaim_alloc 10 true 256 (λ _ m, m) 5 1001 (one_trunk 4096) =
    Some (Allocated [mkSpaceVersion (mkTrunkSpace 1 (mkTrunkId 7 1) 0 1008) 1], m') ∧ alloc_safe m'.
Proof.
  destruct (storage_allocator_reclaim_alloc_ok 10 true 256 (λ _ m, m) 5 1001 (one_trunk 4096))
    as (res & m' & H & W & _).
  - lia.
  - intros _ m W. split; [exact W|reflexivity].
  - apply one_trunk_wf. lia.
  - lia.
  - unfold in_int32. lia.
  - exists m'. split; [|exact W]. rewrite H. do 2 f_equal.
    assert (Hc : fst <$> storage_allocator_reclaim_alloc 10 true 256 (λ _ m, m) 5 1001 (one_trunk 4096)
      = Some (Allocated [mkSpaceVersion (mkTrunkSpace 1 (mkTrunkId 7 1) 0 1008) 1]))
      by (vm_compute; reflexivity).
    rewrite H in Hc. simpl in Hc. by injection Hc.
Defined.

(** the free bytes of the head trunk are kept in an [int]: with 2 to 4 GB free
    a normal allocation of any size reaches the [abort()]. *)
Theorem big_trunk_aborts now cont discard blocked i size m k rest t :
  lists m (NormalFreelist i) = k :: rest → get_trunk m k = Some t →
  2 ^ 31 <= FS_TRUNK_AVAIL_SPACE t <= 2 ^ 32 → 0 < size →
  (trunk_freelist_alloc_space now cont discard blocked i (NormalFreelist i) size true m).1 = Aborted.
Proof.
  intros Hl Ht Ha Hs. unfold trunk_freelist_alloc_space, use_remains, freelist_head.
  fold (lists m (NormalFreelist i)). rewrite Hl. cbn [head]. rewrite Ht.
  assert (Hc : cast32 (FS_TRUNK_AVAIL_SPACE t) <= 0).
  { unfold cast32. destruct (decide (FS_TRUNK_AVAIL_SPACE t = 2 ^ 32)) as [->|]; [done|].
    rewrite (Z.mod_eq _ (2 ^ 32)) by lia.
    assert ((FS_TRUNK_AVAIL_SPACE t + 2 ^ 31) / 2 ^ 32 = 1) as ->; [|lia].
    symmetry. apply (Z.div_unique _ _ _ (FS_TRUNK_AVAIL_SPACE t + 2 ^ 31 - 2 ^ 32)); lia. }
  rewrite MEM_ALIGN_CEIL_8.
  assert (0 < (size + 7) / 8 * 8) by (pose proof (Z.div_str_pos (size + 7) 8); lia).
  destruct (Z.ltb_spec (cast32 (FS_TRUNK_AVAIL_SPACE t)) ((size + 7) / 8 * 8)); [|lia].
  cbn [negb andb]. destruct (Z.leb_spec (cast32 (FS_TRUNK_AVAIL_SPACE t)) 0); [done|lia].
Qed.

Lemma big_trunk_aborts_witness :
  (trunk_freelist_alloc_space 10 true 256 (λ _ m, m) 1 (NormalFreelist 1) 64 true
     (one_trunk (3 * 2 ^ 30))).1 = Aborted.
Proof.
  apply (big_trunk_aborts 10 true 256 (λ _ m, m) 1 64 (one_trunk (3 * 2 ^ 30)) (1, 7) []
    (mkTrunk 1 (mkTrunkId 7 1) TRUNK_STATUS_ALLOCING 0 0 [] (3 * 2 ^ 30) 0 UTIL_EVENT_NONE)).
  - vm_compute. reflexivity.
  - vm_compute. reflexivity.
  - unfold FS_TRUNK_AVAIL_SPACE. simpl. lia.
  - lia.
Defined.

(** ** The arrays of available and full paths *)

Lemma aptr_insert_perm i l l' : aptr_insert i l = Some l' → l' ≡ₚ i :: l.
Proof.
  revert l'. induction l as [|x l IH]; intros l'; simpl; [by intros [= <-]|].
  case_match; [by intros [= <-]|]. case_match; [done|].
  intros (k & Hk & ->)%fmap_Some. rewrite (IH _ Hk). apply perm_swap.
Qed.
Lemma aptr_insert_sorted i l :
  StronglySorted Z.lt l → i ∉ l → ∃ l', aptr_insert i l = Some l' ∧ StronglySorted Z.lt l'.
Proof.
  induction 1 as [|x l Hs IH Hx]; intros Hi; simpl.
  { eexists. split; [done|]. repeat constructor. }
  destruct (Z.ltb_spec (i - x) 0).
  { eexists. split; [done|]. constructor; [by constructor|]. rewrite Forall_forall in *.
    intros y [->|Hy]%elem_of_cons; [lia|]. specialize (Hx _ Hy). lia. }
  destruct (Z.eqb_spec (i - x) 0) as [|Hne]; [exfalso; apply Hi, elem_of_cons; left; lia|].
  destruct IH as (l' & Hl & Hs'); [intros ?; apply Hi; by right|].
  rewrite Hl. eexists. split; [done|]. constructor; [done|]. rewrite Forall_forall in *.
  intros y. rewrite (aptr_insert_perm _ _ _ Hl). intros [->|Hy]%elem_of_cons; [lia|by apply Hx].
Qed.
Lemma aptr_remove_spec i l :
  StronglySorted Z.lt l → i ∈ l →
  ∃ l', aptr_remove i l = Some l' ∧ l ≡ₚ i :: l' ∧ StronglySorted Z.lt l'.
Proof.
  induction 1 as [|x l Hs IH Hx]; intros Hi; simpl; [by apply elem_of_nil in Hi|].
  destruct (Z.eqb_spec (x - i) 0) as [|Hne].
  { eexists. split_and!; [done| |done]. assert (x = i) as -> by lia. done. }
  apply elem_of_cons in Hi as [->|Hi]; [lia|].
  destruct (IH Hi) as (l' & Hl & Hp & Hs'). rewrite Hl. eexists. split_and!; [done| |].
  - rewrite Hp. apply perm_swap.
  - constructor; [done|]. rewrite Forall_forall in *. intros y Hy. apply Hx. rewrite Hp. by right.
Qed.

(** The two arrays share no path and have room for all of them. *)
Record paths_wf (src dest : AptrArray) : Prop := {
  pw_src : StronglySorted Z.lt (ap_allocators src);
  pw_dest : StronglySorted Z.lt (ap_allocators dest);
  pw_disjoint : ∀ i, i ∈ ap_allocators src → i ∉ ap_allocators dest;
  pw_room : Z.of_nat (length (ap_allocators src) + length (ap_allocators dest)) <=
            Z.min (ap_alloc src) (ap_alloc dest);
}.

(** moving a path between the arrays keeps both sorted, disjoint and together
    the same paths; when it succeeds the path is in the destination and no longer
    in the source, and when it fails (no such path, or no memory) neither array
    changes. *)
Theorem fs_move_allocator_ptr_array_ok src dest i mem :
  paths_wf src dest →
  let '(r, (src', dest', _)) := fs_move_allocator_ptr_array src dest i mem in
  paths_wf src' dest' ∧
  ap_allocators src' ++ ap_allocators dest' ≡ₚ ap_allocators src ++ ap_allocators dest ∧
  (r = ENOENT ↔ i ∉ ap_allocators src) ∧
  (mem = [] → r = 0 ∨ r = ENOENT) ∧
  (r = 0 → i ∈ ap_allocators src ∧ (i ∉ ap_allocators src') ∧ i ∈ ap_allocators dest') ∧
  (r ≠ 0 → src' = src ∧ dest' = dest).
Proof.
  intros W. unfold fs_move_allocator_ptr_array.
  assert (Hmem : ∀ l, aptr_mem i l = true ↔ i ∈ l).
  { intros l. unfold aptr_mem. rewrite existsb_exists. split.
    - intros (x & Hx & ->%Z.eqb_eq). by apply list_elem_of_In.
    - intros Hx. exists i. split; [by apply list_elem_of_In|apply Z.eqb_refl]. }
  destruct (aptr_mem i (ap_allocators src)) eqn:Hm; simpl; cycle 1.
  { split_and!; try done; [|auto]. split; [|done]. by intros _ Hi%Hmem; rewrite Hi in Hm. }
  apply Hmem in Hm.
  assert (Hfail : (ENOMEM = ENOENT ↔ i ∉ ap_allocators src) ∧ (ENOMEM = 0 → False)) by (by split).
  destruct Hfail as [Hf1 Hf2].
  destruct (match mem with [] => (true, []) | b :: r => (b, r) end) as [ok1 mem1] eqn:E1.
  destruct ok1; simpl; cycle 1.
  { split_and!; try done. by intros ->. }
  destruct (match mem1 with [] => (true, []) | b :: r => (b, r) end) as [ok2 mem2] eqn:E2.
  destruct ok2; simpl; cycle 1.
  { split_and!; try done. intros ->. by simplify_eq. }
  destruct W as [W1 W2 W3 W4].
  destruct (aptr_remove_spec i _ W1 Hm) as (l1 & R1 & P1 & S1).
  destruct (aptr_insert_sorted i _ W2 (W3 i Hm)) as (l2 & R2 & S2).
  pose proof (aptr_insert_perm _ _ _ R2) as P2.
  unfold remove_from_aptr_array, add_to_aptr_array. rewrite R1, R2. simpl.
  pose proof (Permutation_length P1) as L1. pose proof (Permutation_length P2) as L2. simpl in L1, L2.
  destruct (Z.leb_spec (ap_alloc dest) (Z.of_nat (length (ap_allocators dest)))); [lia|]. simpl.
  assert (Hnd : NoDup (i :: l1)).
  { rewrite <- P1. clear - W1. induction W1 as [|x l Hs IH Hx]; constructor; [|done].
    intros Hin. rewrite Forall_forall in Hx. specialize (Hx _ Hin). lia. }
  apply NoDup_cons in Hnd as [Hnd _].
  split_and!; try done.
  - split; simpl; [done|done| |lia]. intros x Hx. rewrite P2, elem_of_cons.
    intros [->|Hx2]; [done|]. apply (W3 x); [|done]. rewrite P1. by right.
  - by rewrite P1, P2, <- Permutation_middle.
  - auto.
  - intros _. split_and!; [done|done|]. rewrite P2. by left.
Qed.

Lemma fs_move_allocator_ptr_array_ok_witness :
  paths_wf (mkAptr 4 [1; 3]) (mkAptr 4 [2]) ∧
  paths_wf (fs_move_allocator_ptr_array (mkAptr 4 [1; 3]) (mkAptr 4 [2]) 3 []).2.1.1
           (fs_move_allocator_ptr_array (mkAptr 4 [1; 3]) (mkAptr 4 [2]) 3 []).2.1.2.
Proof.
  assert (W : paths_wf (mkAptr 4 [1; 3]) (mkAptr 4 [2])).
  { split; simpl.
    - repeat constructor.
    - repeat constructor.
    - intros i. rewrite !elem_of_cons, elem_of_nil. lia.
    - lia. }
  split; [exact W|].
  exact (proj1 (fs_move_allocator_ptr_array_ok (mkAptr 4 [1; 3]) (mkAptr 4 [2]) 3 [] W)).
Defined.
