(* ===== verification/StorageAllocUsed.v ===== *)
(** * Allocation and the accounting of the slices

    Handing out space does not touch the bytes a trunk's slices use; and the two entry
    points of the allocator, with their retries, have the guarantees of one allocation. *)
From S2P Require Import Prelude Types ObSlices TrunkAllocator StorageAllocator StorageAllocSpec.

(** The used bytes of every trunk stay; new trunks start empty. *)
Definition used (m : Mgr) (k : trunk_key) : option Z := tf_used_bytes <$> get_trunk m k.
Definition used_kept (m m' : Mgr) : Prop :=
  ∀ k, used m' k = used m k ∨ used m k = None ∧ used m' k = Some 0.
#[export] Instance used_kept_preorder : PreOrder used_kept.
Proof.
  split; [by left|]. intros m1 m2 m3 H1 H2 k.
  destruct (H1 k) as [E1|[E1 E1']], (H2 k) as [E2|[E2 E2']]; [left|right|right|]; rewrite ?E1, ?E2 in *;
    try done; congruence.
Qed.
Lemma used_kept_eq m m' : (∀ k, used m' k = used m k) → used_kept m m'.
Proof. by left. Qed.

Lemma used_upd_allocator m i g : (∀ a, ta_trunks (g a) = ta_trunks a) → used_kept m (upd_allocator i g m).
Proof. intros Hg. apply used_kept_eq. intros k. unfold used. by rewrite get_upd_allocator. Qed.
Lemma used_upd_trunk m k g :
  (∀ t, tf_used_bytes (g t) = tf_used_bytes t) → used_kept m (upd_trunk k g m).
Proof.
  intros Hg. apply used_kept_eq. intros k'. unfold used. rewrite get_upd_trunk. destruct (decide (k = k')); [|done].
  destruct (get_trunk m k') as [t|]; [|done]. simpl. by rewrite Hg.
Qed.
Lemma used_maker m i u : used_kept m (trunk_maker_allocate_ex i u m).2.
Proof.
  unfold trunk_maker_allocate_ex. destruct (mg_mem m) as [|[] r].
  - by apply (used_upd_allocator m).
  - by apply (used_upd_allocator (set_mgr_mem r m)).
  - by apply used_kept_eq.
Qed.
Lemma used_event_force m i id e : used_kept m (upd_allocator i (push_trunk_util_event_force id e) m).
Proof.
  apply used_kept_eq. intros k. unfold used, get_trunk, upd_allocator. simpl. rewrite lookup_alter.
  case_decide as Hi; [subst i|done]. destruct (mg_allocators m !! k.1) as [a|]; simpl; [|done].
  unfold push_trunk_util_event_force. destruct (ta_trunks a !! id) as [t|] eqn:Ht; [|done].
  case_decide; [done|].
  assert (tf_used_bytes <$> ta_trunks (ta_upd_trunk id (tf_set_event e) a) !! k.2
    = tf_used_bytes <$> ta_trunks a !! k.2) as E.
  { simpl. rewrite lookup_alter. case_decide; [subst id|done]. by rewrite Ht. }
  by case_decide.
Qed.
Lemma used_set_freelist m sel fl : used_kept m (set_freelist sel fl m).
Proof. destruct sel; [by apply used_upd_allocator|by apply used_kept_eq]. Qed.

Lemma used_freelist_remove m sel : used_kept m (trunk_freelist_remove sel m).
Proof.
  unfold trunk_freelist_remove. destruct (fl_trunks _) as [|k rest]; [done|].
  set (m4 := upd_trunk k _ _).
  assert (H : used_kept m m4).
  { unfold m4. etransitivity; [|by apply used_upd_trunk]. etransitivity; [|by apply used_event_force].
    etransitivity; [|by apply used_upd_trunk]. apply used_set_freelist. }
  case_match; [|done]. etransitivity; [exact H|apply used_maker].
Qed.
Lemma used_alloc_space m k t n : used_kept m (TRUNK_ALLOC_SPACE k t n m).2.
Proof.
  unfold TRUNK_ALLOC_SPACE. simpl. etransitivity; [|by apply used_upd_allocator].
  by apply used_upd_trunk.
Qed.
Lemma used_aptr m i : used_kept m (fs_remove_from_avail_aptr_array i m).2.
Proof.
  unfold fs_remove_from_avail_aptr_array. destruct (fs_move_allocator_ptr_array _ _ _ _) as [r [[a f] mem]].
  simpl. case_match; [|by apply used_kept_eq]. etransitivity; [|by apply used_upd_allocator].
  by apply used_kept_eq.
Qed.

Section Alloc.
Context (now : Z) (cont : bool) (discard : Z) (blocked : Z → Mgr → Mgr).
Context (Hblocked : ∀ i m, used_kept m (blocked i m)).

Lemma used_waiting fuel round i sel m :
  used_kept m (waiting_rounds now cont blocked fuel round i sel m).2.
Proof using Hblocked.
  revert round m. induction fuel as [|fuel IH]; intros round m; simpl; [done|].
  set (p := if _ : bool then trunk_maker_allocate_ex _ _ _ else (0, m)).
  assert (Hp : used_kept m p.2).
  { unfold p. case_match; [|done]. etransitivity; [|apply used_maker]. by apply used_upd_allocator. }
  destruct p as [r m1]. simpl in Hp. case_match; [done|].
  set (m2 := add_waiting i (-1) _).
  assert (H2 : used_kept m m2).
  { etransitivity; [exact Hp|]. unfold m2. etransitivity; [|by apply used_upd_allocator].
    etransitivity; [by apply (used_upd_allocator m1 i (λ a, ta_set_alloc (ta_last_trigger_time a)
      (ta_creating_trunks a) (ta_waiting_callers a + 1) (ta_current_version a) a))|].
    unfold wait_creating, add_waiting. by case_match. }
  case_match; [done|]. etransitivity; [exact H2|apply IH].
Qed.
Lemma used_from_head sel n sps m : used_kept m (alloc_from_head cont discard sel n sps m).2.
Proof using.
  unfold alloc_from_head. destruct (freelist_head sel m) as [k|]; [|done].
  destruct (get_trunk m k) as [t|]; [|done]. case_match; [done|].
  pose proof (used_alloc_space m k t n) as Hs. destruct (TRUNK_ALLOC_SPACE k t n m) as [sp m1].
  simpl in *. case_match; [|done]. simpl. etransitivity; [|by apply used_upd_allocator].
  etransitivity; [exact Hs|apply used_freelist_remove].
Qed.
Lemma used_use_remains sel n is_normal m : used_kept m (use_remains sel n is_normal m).2.2.
Proof using.
  unfold use_remains. destruct (freelist_head sel m) as [k|]; [|done].
  destruct (get_trunk m k) as [t|]; [|done]. case_match; [|done]. case_match; [done|].
  case_match; [done|]. pose proof (used_alloc_space m k t (cast32 (FS_TRUNK_AVAIL_SPACE t))) as Hs.
  destruct (TRUNK_ALLOC_SPACE k t _ m) as [sp m1]. simpl in *.
  etransitivity; [exact Hs|apply used_freelist_remove].
Qed.

Lemma used_trunk_freelist_alloc_space i sel size is_normal m :
  used_kept m (trunk_freelist_alloc_space now cont discard blocked i sel size is_normal m).2.
Proof using Hblocked.
  unfold trunk_freelist_alloc_space.
  pose proof (used_use_remains sel (MEM_ALIGN_CEIL size FS_SPACE_ALIGN_SIZE) is_normal m) as H1.
  destruct (use_remains _ _ _ _) as [res1 [n' m1]]. simpl in H1.
  set (inner := match res1 with Allocated _ => _ | _ => _ end).
  assert (Hin : used_kept m inner.2).
  { unfold inner. destruct res1 as [l| |]; [|done..]. case_match.
    - case_match; [done|]. pose proof (used_waiting 10 0 i sel m1) as H2. unfold waiting_avail_trunk.
      destruct (waiting_rounds _ _ _ _ _ _ _ _) as [r m2]. simpl in H2.
      case_match; [by etransitivity|]. do 2 (etransitivity; [eassumption|]). apply used_from_head.
    - etransitivity; [exact H1|apply used_from_head]. }
  destruct inner as [res m']. simpl in Hin. destruct res as [|e|]; [done| |done]. case_match; [|done].
  etransitivity; [exact Hin|apply used_aptr].
Qed.

(** ** Alignment

    While all trunk sizes and free starts are multiples of 8, so is every space. *)
Definition aligned8 (m : Mgr) : Prop := ∀ k f s, view m k = Some (f, s) → (8 | f) ∧ (8 | s).
Definition spaces_aligned (l : list FSTrunkSpaceWithVersion) : Prop :=
  Forall (λ sp, (8 | sp_size (sv_space sp))) l.
Definition result_aligned (res : AllocResult) : Prop :=
  match res with Allocated l => spaces_aligned l | _ => True end.
Lemma aligned_same m m' : same_space m m' → aligned8 m → aligned8 m'.
Proof using. intros (H & _) Ha k f s. rewrite H. apply Ha. Qed.
Lemma aligned_remove m sel : aligned8 m → aligned8 (trunk_freelist_remove sel m).
Proof using.
  intros Ha. destruct (lists m sel) as [|k rest] eqn:Hl.
  - unfold trunk_freelist_remove. unfold lists in Hl. by rewrite Hl.
  - destruct (freelist_remove_space m sel k rest Hl) as (H & _). intros k' f s. rewrite H. apply Ha.
Qed.
Lemma aligned_alloc_space m k t n :
  get_trunk m k = Some t → (8 | n) → aligned8 m → aligned8 (TRUNK_ALLOC_SPACE k t n m).2.
Proof using.
  intros Ht Hn Ha. destruct (alloc_space_space m k t n Ht) as (H & _). intros k' f s. rewrite H.
  case_decide; [|apply Ha]. intros [= <- <-].
  destruct (Ha k (tf_free_start t) (tf_size t)) as [? ?]; [apply view_trunk; eauto|].
  split; [by apply Z.divide_add_r|done].
Qed.

Context (Haligned : ∀ i m, aligned8 m → aligned8 (blocked i m)).
Lemma aligned_waiting fuel round i sel m :
  aligned8 m → aligned8 (waiting_rounds now cont blocked fuel round i sel m).2.
Proof using Haligned.
  revert round m. induction fuel as [|fuel IH]; intros round m Ha; simpl; [done|].
  set (p := if _ : bool then trunk_maker_allocate_ex _ _ _ else (0, m)).
  assert (Hp : aligned8 p.2).
  { unfold p. case_match; [|done]. eapply aligned_same; [apply same_space_maker|].
    eapply aligned_same; [by apply same_space_upd|done]. }
  destruct p as [r m1]. simpl in Hp. case_match; [done|].
  set (m2 := add_waiting i (-1) _).
  assert (H2 : aligned8 m2).
  { eapply aligned_same; [by apply same_space_upd|]. unfold wait_creating.
    assert (aligned8 (add_waiting i 1 m1)) by (eapply aligned_same; [by apply same_space_upd|done]).
    case_match; [by apply Haligned|done]. }
  case_match; [done|]. by apply IH.
Qed.
Lemma aligned_from_head sel n sps m :
  aligned8 m → (8 | n) → spaces_aligned sps →
  let r := alloc_from_head cont discard sel n sps m in aligned8 r.2 ∧ result_aligned r.1.
Proof using.
  intros Ha Hn Hs r. subst r. unfold alloc_from_head.
  destruct (freelist_head sel m) as [k|]; [|done].
  destruct (get_trunk m k) as [t|] eqn:Ht; [|done]. case_match; [done|].
  pose proof (aligned_alloc_space m k t n Ht Hn Ha) as Hal.
  destruct (TRUNK_ALLOC_SPACE k t n m) as [sp m1] eqn:E. simpl in *. split.
  - case_match; [|done]. eapply aligned_same; [by apply same_space_upd|by apply aligned_remove].
  - apply Forall_app. split; [done|]. constructor; [|done].
    unfold TRUNK_ALLOC_SPACE in E. injection E as <- _. done.
Qed.
Lemma aligned_use_remains sel n is_normal m :
  alloc_safe m → aligned8 m → (8 | n) →
  let r := use_remains sel n is_normal m in
  aligned8 r.2.2 ∧ (8 | r.2.1) ∧ result_aligned r.1.
Proof using.
  intros W Ha Hn r. subst r. unfold use_remains.
  destruct (freelist_head sel m) as [k|]; [|by split_and!; [| |constructor]].
  destruct (get_trunk m k) as [t|] eqn:Ht; [|done].
  destruct (Ha k (tf_free_start t) (tf_size t)) as [Hf Hs]; [apply view_trunk; eauto|].
  assert (Hr : (8 | cast32 (FS_TRUNK_AVAIL_SPACE t))).
  { rewrite cast32_id; [by apply Z.divide_sub_r|].
    destruct (wf_view _ W k (tf_free_start t) (tf_size t)) as [? ?]; [apply view_trunk; eauto|].
    unfold in_int32, FS_TRUNK_AVAIL_SPACE. lia. }
  case_match; [|by split_and!; [| |constructor]]. case_match; [done|]. case_match; [done|].
  pose proof (aligned_alloc_space m k t (cast32 (FS_TRUNK_AVAIL_SPACE t)) Ht Hr Ha) as Hal.
  destruct (TRUNK_ALLOC_SPACE k t _ m) as [sp m1] eqn:E. simpl in *.
  split_and!; [by apply aligned_remove|by apply Z.divide_sub_r|].
  constructor; [|constructor]. unfold TRUNK_ALLOC_SPACE in E. injection E as <- _. done.
Qed.
Lemma aligned_freelist_alloc i sel size is_normal m :
  alloc_safe m → aligned8 m →
  let r := trunk_freelist_alloc_space now cont discard blocked i sel size is_normal m in
  aligned8 r.2 ∧ result_aligned r.1.
Proof using Haligned.
  intros W Ha. cbv zeta. unfold trunk_freelist_alloc_space.
  assert (Hn : (8 | MEM_ALIGN_CEIL size FS_SPACE_ALIGN_SIZE)).
  { rewrite MEM_ALIGN_CEIL_8. apply Z.divide_factor_r. }
  destruct (aligned_use_remains sel _ is_normal m W Ha Hn) as (H1 & H2 & H3).
  destruct (use_remains _ _ _ _) as [res1 [n' m1]]. simpl in H1, H2, H3.
  set (inner := match res1 with Allocated _ => _ | _ => _ end).
  assert (Hin : aligned8 inner.2 ∧ result_aligned inner.1).
  { unfold inner. destruct res1 as [l| |]; [|done..]. case_match.
    - case_match; [done|]. pose proof (aligned_waiting 10 0 i sel m1 H1) as Hw.
      unfold waiting_avail_trunk. destruct (waiting_rounds _ _ _ _ _ _ _ _) as [r m2]. simpl in Hw.
      case_match; [done|]. by apply aligned_from_head.
    - by apply aligned_from_head. }
  destruct inner as [res m']. simpl in Hin. destruct Hin as [Hm Hr].
  destruct res as [|e|]; [done| |done]. case_match; [|done]. split; [|done]. simpl.
  unfold fs_remove_from_avail_aptr_array. destruct (fs_move_allocator_ptr_array _ _ _ _) as [? [[? ?] ?]].
  simpl. case_match; [|by eapply aligned_same, Hm]. eapply aligned_same; [by apply same_space_upd|].
  by eapply aligned_same, Hm.
Qed.

(** ** The entry points *)
Context (Hdiscard : 0 < discard).
Context (Hspace : ∀ i m, alloc_safe m → alloc_safe (blocked i m) ∧ space_mono m (blocked i m)).

(** What an allocation of [size] bytes gives. *)
Definition alloc_post (size : Z) (m : Mgr) (res : AllocResult) (m' : Mgr) : Prop :=
  alloc_safe m' ∧ space_mono m m' ∧ used_kept m m' ∧ aligned8 m' ∧
  match res with
  | Allocated l =>
      Forall (space_ok m m') l ∧ sumZ (λ sp, sp_size (sv_space sp)) l = (size + 7) / 8 * 8 ∧
      (length l = 1%nat ∨ ∃ s1 s2, l = [s1; s2] ∧ space_disjoint s1 s2) ∧ spaces_aligned l
  | AllocFailed e => 0 < e < 2 ^ 15
  | Aborted => False
  end.

Lemma alloc_post_later size m m1 res m' :
  space_mono m m1 → used_kept m m1 → alloc_post size m1 res m' → alloc_post size m res m'.
Proof using.
  intros M1 U1 (W & M & U & A & P). split_and!; [done|by etransitivity|by etransitivity|done|].
  destruct res as [l|e|]; [|done..]. destruct P as (P1 & P). split; [|done].
  rewrite Forall_forall in *. intros s Hs. by eapply space_ok_l; [|apply P1].
Qed.
Lemma freelist_alloc_post i sel size is_normal m :
  alloc_safe m → aligned8 m → 0 < size → in_int32 (size + 7) →
  let r := trunk_freelist_alloc_space now cont discard blocked i sel size is_normal m in
  alloc_post size m r.1 r.2.
Proof using All.
  intros W Ha Hs Hi r. subst r.
  pose proof (trunk_freelist_alloc_space_run now cont discard blocked Hdiscard Hspace i sel size
    is_normal m W Hs Hi) as H.
  pose proof (used_trunk_freelist_alloc_space i sel size is_normal m) as U.
  destruct (aligned_freelist_alloc i sel size is_normal m W Ha) as [A R].
  destruct (trunk_freelist_alloc_space _ _ _ _ _ _ _ _ _) as [res m']. simpl in *.
  destruct H as [[W' M'] P]. split_and!; try done. destruct res; [|done|by destruct (safe_no_big_head _ m W P)]. by destruct P as (? & ? & ?).
Qed.

Lemma normal_alloc_post fuel blk_hc size is_normal m res m' :
  alloc_safe m → aligned8 m → 0 < size → in_int32 (size + 7) →
  storage_allocator_normal_alloc_ex now cont discard blocked fuel blk_hc size is_normal m
    = Some (res, m') → alloc_post size m res m'.
Proof using All.
  intros W Ha Hs Hi. revert m W Ha. induction fuel as [|fuel IH]; intros m W Ha; simpl;
    (destruct (ap_allocators (mg_avail m) !! _) as [i|];
      [|intros [= <- <-]; split_and!; [done..|unfold ENOSPC; lia]]);
    pose proof (freelist_alloc_post i (NormalFreelist i) size is_normal m W Ha Hs Hi) as P;
    destruct (trunk_freelist_alloc_space _ _ _ _ _ _ _ _ _) as [r m1]; simpl in P;
    (destruct r as [l|e|]; [by intros [= <- <-]| |by intros [= <- <-]]);
    (case_match; [|by intros [= <- <-]]); [done|].
  destruct P as (W1 & M1 & U1 & A1 & _). intros Hr. eapply alloc_post_later; [done|done|]. by apply IH.
Qed.
Lemma reclaim_alloc_post blk_hc size m res m' :
  alloc_safe m → aligned8 m → 0 < size → in_int32 (size + 7) →
  storage_allocator_reclaim_alloc now cont discard blocked blk_hc size m = Some (res, m') →
  alloc_post size m res m'.
Proof using All.
  intros W Ha Hs Hi. unfold storage_allocator_reclaim_alloc.
  destruct (storage_allocator_normal_alloc_ex now cont discard blocked 0 blk_hc size false m)
    as [[r m1]|] eqn:E; [|done].
  apply normal_alloc_post in E as P; [|done..]. destruct r as [l|e|]; [by intros [= <- <-]| |by destruct P as (_ & _ & _ & _ & [])].
  destruct P as (W1 & M1 & U1 & A1 & _). intros Hr.
  pose proof (freelist_alloc_post 0 ReclaimFreelist size false m1 W1 A1 Hs Hi) as P.
  injection Hr as Hr. rewrite Hr in P. by eapply alloc_post_later.
Qed.
End Alloc.
