(* ===== verification/ObSlicesMain.v ===== *)
(** * A concrete block

    A block with two slices in one trunk, on the sorted-list realisation of the skip
    list and with the real storage allocator as accounting: the witnesses of the
    properties of the slice algorithms run on it. *)
From S2P Require Import Prelude Types Skiplist ObSlices ObSlicesRun ObSlicesThms TrunkAllocator.

#[export] Instance slice_list : UniqSkiplist OBSliceEntry (list OBSliceEntry) :=
  list_skiplist slice_compare.
#[export] Instance slice_list_spec : UniqSkiplistSpec (T := list OBSliceEntry) slice_compare :=
  list_skiplist_spec slice_compare.

(** The address and the key of its block entry. *)
Definition demo_ob : Z := 100.
Definition demo_key : FSBlockKey := mkBlockKey 5 0 5.
Definition demo_slice (id off len pos : Z) : OBSliceEntry :=
  mkSlice id demo_ob OB_SLICE_TYPE_FILE (mkSliceSize off len)
    (mkTrunkSpace 1 (mkTrunkId 7 1) pos len).
Definition demo_trunk : FSTrunkFileInfo :=
  mkTrunk 1 (mkTrunkId 7 1) TRUNK_STATUS_ALLOCING 3 400 [1; 2; 3] 65536 400 UTIL_EVENT_NONE.
Definition demo_mgr : Mgr :=
  mkMgr [] {[ 1 := mkAllocator 65536 400 65136 0 {[ 7 := demo_trunk ]} (mkFreelist 0 [(1, 7)])
    0 0 0 0 0 [] ]} (mkFreelist 0 []) (mkAptr 4 [1]) (mkAptr 4 []) [].

(** Bytes 0-99 and 200-299 are mapped; entry 3 is new. *)
Definition demo_slices : list OBSliceEntry := [demo_slice 1 0 100 0; demo_slice 2 200 100 100].
Definition demo_new : OBSliceEntry := demo_slice 3 50 200 200.
Definition demo_world (mem : list bool) : World Mgr :=
  mkWorld mem 10 {[ 1 := 1; 2 := 1; 3 := 1 ]} demo_mgr 0.
Definition demo_flags : OBFlags := mkOBFlags true true.
Definition demo_bs (off len : Z) : FSBlockSliceKeyInfo :=
  mkBlockSliceKey demo_key (mkSliceSize off len).

Lemma demo_wf : slices_wf (sl_level0 demo_slices).
Proof.
  change (slices_wf demo_slices).
  assert (H : valid_slice (demo_slice 1 0 100 0) ∧ valid_slice (demo_slice 2 200 100 100))
    by (unfold valid_slice; split_and!; by vm_compute).
  destruct H as [H1 H2]. split; [|by repeat apply Forall_cons_2].
  constructor; [repeat constructor|]. apply Forall_singleton. by vm_compute.
Qed.
Lemma demo_new_valid : valid_slice demo_new.
Proof. unfold valid_slice. split_and!; by vm_compute. Qed.
Lemma demo_known mem id off len pos : known (demo_world mem) (demo_slice id off len pos).
Proof. eexists. vm_compute. reflexivity. Qed.
Lemma demo_known_all mem s : s ∈ sl_level0 demo_slices → known (demo_world mem) s.
Proof.
  change (s ∈ demo_slices → known (demo_world mem) s).
  intros [->|[->|[]%elem_of_nil]%elem_of_cons]%elem_of_cons; apply demo_known. Qed.
Lemma demo_refs_pos mem : refs_pos (demo_world mem).
Proof.
  intros id n. unfold demo_world. simpl.
  intros [[_ <-]|[_ [[_ <-]|[_ [_ <-]%lookup_singleton_Some]]%lookup_insert_Some]]%lookup_insert_Some;
    lia.
Qed.
Definition demo_ext (id : Z) : Z := if id =? 3 then 1 else 0.
Lemma demo_ext_nonneg id : 0 <= demo_ext id.
Proof. unfold demo_ext. by case_match. Qed.
Lemma demo_refs mem id : ref_count (demo_world mem) id = occ id (sl_level0 demo_slices) + demo_ext id.
Proof.
  change (sl_level0 demo_slices) with demo_slices.
  unfold demo_ext, demo_slices, ref_count, demo_world. cbn [w_refs].
  rewrite !occ_cons, occ_nil. cbn [demo_slice se_id].
  destruct (decide (id = 1)) as [->|H1]; [done|]. destruct (decide (id = 2)) as [->|H2]; [done|].
  destruct (decide (id = 3)) as [->|H3]; [done|].
  rewrite !lookup_insert_ne, lookup_singleton_ne by done.
  destruct (Z.eqb_spec 1 id), (Z.eqb_spec 2 id), (Z.eqb_spec id 3); simpl; lia || congruence.
Qed.

(** ** The contract of [add_slice], [delete_slices] and [get_slices]

    The properties of the three algorithms on one block: what they do to the
    content of the block, to the reference counts and to the trunk accounting, and
    how they fail. *)

#[local] Arguments do_add_slice : simpl never.

Section Main.
Context {T A : Type} `{!UniqSkiplist OBSliceEntry T} `{!SliceAccount A}.
Context `{!UniqSkiplistSpec slice_compare} `{!SliceAccountSpec A}.
Implicit Types (w : World A) (s slice : OBSliceEntry) (t : T).

(** ** [add_slice] *)

(** The list after [slice] was put over what was there. *)
Record added_to (slice : OBSliceEntry) (l new l' : list OBSliceEntry) : Prop := {
  ad_perm : l' ≡ₚ slice :: new ++ filter (λ x, ¬ overlaps (soff slice) (send slice) x) l;
  ad_wf : slices_wf l';
  ad_cut : ∃ l1, cut_to (soff slice) (send slice) l new l1 ∧ l' ≡ₚ slice :: l1;
}.

Lemma added_lookup slice l new l' p :
  slices_wf l → valid_slice slice → added_to slice l new l' →
  lookup_byte l' p = if decide (covers slice p) then Some (loc_at slice p) else lookup_byte l p.
Proof using.
  intros Hwf Hv Hadd. destruct Hadd as [Hp Hwf' (l1 & Hc & Hp1)].
  assert (Hab : soff slice < send slice) by (unfold valid_slice, send in *; lia).
  case_decide as Hcov.
  - apply lookup_byte_Some; [done|]. exists slice. split_and!; [|done|done].
    rewrite Hp1. by left.
  - pose proof (cut_lookup _ _ _ _ _ p Hab Hwf Hc) as Hl.
    rewrite decide_False in Hl by done. rewrite <- Hl. apply option_eq. intros d.
    rewrite !lookup_byte_Some by (done || apply (ct_wf _ _ _ _ _ Hc)).
    setoid_rewrite Hp1. setoid_rewrite elem_of_cons. split.
    + intros (s & [->|Hs] & Hsc & ->); [done|eauto].
    + intros (s & Hs & Hsc & ->). eauto.
Qed.

Lemma added_total slice l new l' :
  slices_wf l → valid_slice slice → added_to slice l new l' →
  total_len l' = total_len l + slen slice - overlap_sum (soff slice) (send slice) l.
Proof using.
  intros Hwf Hv Hadd. destruct Hadd as [Hp Hwf' (l1 & Hc & Hp1)].
  assert (Hab : soff slice < send slice) by (unfold valid_slice, send in *; lia).
  unfold total_len at 1. rewrite (sumZ_perm _ _ _ Hp1), sumZ_cons. fold (total_len l1).
  rewrite (cut_total _ _ _ _ _ Hab Hwf Hc). lia.
Qed.

(** A run of [add_slice], on every branch. *)
Lemma add_slice_run f slice t w :
  slices_wf (sl_level0 t) → valid_slice slice →
  known w slice → (∀ s, s ∈ sl_level0 t → known w s) →
  let '(r, (t', w')) := add_slice f slice (t, w) in
  (w_mem w = [] → ∃ inc, r = inr inc) ∧
  match r with
  | inl e => e = ENOMEM ∧ t' = t ∧ refs_up w w'
  | inr inc => ∃ new,
      added_to slice (sl_level0 t) new (sl_level0 t') ∧
      inc = slen slice - overlap_sum (soff slice) (send slice) (sl_level0 t) ∧
      (∀ id, ref_count w' id = ref_count w id + occ id new
         - occ id (filter (overlaps (soff slice) (send slice)) (sl_level0 t))) ∧
      ((∀ id, occ id (sl_level0 t) <= ref_count w id) → refs_pos w → refs_pos w') ∧
      acct_shift f w w' (λ st id, sizes_in st id [slice] + sizes_in st id new
         - sizes_in st id (filter (overlaps (soff slice) (send slice)) (sl_level0 t))) ∧
      (∀ s, known w s → known w' s) ∧ w_sn w' = w_sn w ∧ w_next w <= w_next w' ∧
      (∀ s, s ∈ new → w_next w <= se_id s < w_next w')
  end.
Proof using UniqSkiplistSpec0 SliceAccountSpec0.
  intros Hwf Hv Hk HkL. rewrite add_slice_eq by done.
  assert (Hal : allocating (A := A) (add_scan slice t)).
  { apply allocating_bind; [apply allocating_add_previous|]. intros. apply allocating_add_loop. }
  destruct (add_scan slice t w) as [[e|sc] w1] eqn:E; destruct (Hal _ _ _ E) as (Ha1 & Ha2 & Ha3).
  { split; [|split_and!; [by apply Ha2|done|done]].
    intros Hm. by destruct (Ha3 Hm) as [[x ?] _]. }
  destruct (add_scan_run slice t w sc w1 Hwf Hv E) as [Hcol Hinc].
  assert (Hab : soff slice < send slice) by (unfold valid_slice, send in *; lia).
  destruct (apply_scan_run f _ _ t w _ sc w1 Hab Hwf Hcol)
    as (new & Hcut & Hdels & Hrefs & Hpos & Hacct & Hsn & _ & Hids & Hnext).
  destruct (apply_scan f sc (t, w1)) as [t2 w2]. simpl in *.
  destruct (Hacct HkL) as [Hkn Hsh].
  pose proof (do_add_slice_run f slice t2 w2 (ct_wf _ _ _ _ _ Hcut) Hv) as Hadd.
  destruct (do_add_slice f slice (t2, w2)) as [r [t3 w3]].
  destruct Hadd as (B1 & B2 & B3 & B4 & B5).
  { intros x Hx. pose proof (cut_elem_outside _ _ _ _ _ x Hab Hwf Hcut Hx).
    unfold disjoint_slices, before. lia. }
  destruct (B4 (Hkn _ Hk)) as [-> Hsh']. simpl. destruct B5 as (B5 & B6 & B7).
  assert (Hrc : ∀ id, ref_count w3 id = ref_count w2 id) by (intros; unfold ref_count; by rewrite B3).
  split; [eauto|]. exists new. split_and!.
  - split; [|done|eauto]. by rewrite B1, (ct_perm _ _ _ _ _ Hcut).
  - done.
  - intros id. by rewrite Hrc.
  - intros H1 H2. unfold refs_pos. rewrite B3. by apply Hpos.
  - eapply acct_shift_ext; [|eapply acct_shift_trans; [exact Hsh|exact Hsh']].
    intros st id. simpl. lia.
  - intros s Hs. by apply (acct_shift_known _ _ _ _ s Hsh'), Hkn.
  - congruence.
  - lia.
  - intros s Hs. specialize (Hids s Hs). lia.
Qed.

Lemma sizes_in_split st id a b l :
  sizes_in st id l = sizes_in st id (filter (overlaps a b) l)
    + sizes_in st id (filter (λ x, ¬ overlaps a b x) l).
Proof using. apply sumZ_filter_split. Qed.
Lemma occ_split id a b l :
  occ id l = occ id (filter (overlaps a b) l) + occ id (filter (λ x, ¬ overlaps a b x) l).
Proof using. apply sumZ_filter_split. Qed.

Lemma added_sizes slice l new l' st id : added_to slice l new l' →
  sizes_in st id [slice] + sizes_in st id new
    - sizes_in st id (filter (overlaps (soff slice) (send slice)) l)
  = sizes_in st id l' - sizes_in st id l.
Proof using.
  intros H. pose proof (sizes_in_split st id (soff slice) (send slice) l) as Hs.
  unfold sizes_in in *. rewrite (sumZ_perm _ _ _ (ad_perm _ _ _ _ H)).
  autorewrite with fstore. lia.
Qed.
Lemma added_occ slice l new l' id : added_to slice l new l' →
  occ id l' = occ id [slice] + occ id new
    - occ id (filter (overlaps (soff slice) (send slice)) l) + occ id l.
Proof using.
  intros H. pose proof (occ_split id (soff slice) (send slice) l) as Hs.
  rewrite (occ_perm _ _ _ (ad_perm _ _ _ _ H)). autorewrite with fstore. lia.
Qed.

(** C25: when [add_slice] succeeds the block maps every byte of the slice to the
    slice's place on disk and every other byte to where it was; the list stays an
    ordered list of disjoint extents; and [*inc_alloc] is exactly the change of
    the number of mapped bytes. *)
Theorem add_slice_content f slice t w inc t' w' :
  slices_wf (sl_level0 t) → valid_slice slice →
  known w slice → (∀ s, s ∈ sl_level0 t → known w s) →
  add_slice f slice (t, w) = (inr inc, (t', w')) →
  slices_wf (sl_level0 t') ∧
  (∀ p, lookup_byte (sl_level0 t') p =
     if decide (covers slice p) then Some (loc_at slice p) else lookup_byte (sl_level0 t) p) ∧
  inc = total_len (sl_level0 t') - total_len (sl_level0 t).
Proof using UniqSkiplistSpec0 SliceAccountSpec0.
  intros Hwf Hv Hk HkL E. pose proof (add_slice_run f slice t w Hwf Hv Hk HkL) as H.
  rewrite E in H. destruct H as (_ & new & Hadd & -> & _). split_and!.
  - apply Hadd.
  - intros p. by apply (added_lookup _ _ new).
  - rewrite (added_total _ _ _ _ Hwf Hv Hadd). lia.
Qed.

(** when [add_slice] succeeds the caller's reference to the slice has become
    the list's: every entry's count stays its occurrences in the list plus the
    references held elsewhere, no live entry has count 0, and the used bytes of
    every trunk move with the bytes the list holds in it. *)
Theorem add_slice_refs_accounting f slice t w inc t' w' (ext : Z → Z) :
  slices_wf (sl_level0 t) → valid_slice slice →
  known w slice → (∀ s, s ∈ sl_level0 t → known w s) → refs_pos w →
  (∀ id, 0 <= ext id) → (∀ id, ref_count w id = occ id (sl_level0 t) + ext id) →
  add_slice f slice (t, w) = (inr inc, (t', w')) →
  (∀ id, ref_count w' id = occ id (sl_level0 t') + (ext id - occ id [slice])) ∧
  refs_pos w' ∧
  acct_shift f w w' (λ st id, sizes_in st id (sl_level0 t') - sizes_in st id (sl_level0 t)) ∧
  (∀ s, known w s → known w' s).
Proof using UniqSkiplistSpec0 SliceAccountSpec0.
  intros Hwf Hv Hk HkL Hpos Hext Hrefs E.
  pose proof (add_slice_run f slice t w Hwf Hv Hk HkL) as H.
  rewrite E in H. destruct H as (_ & new & Hadd & _ & Hr & Hp & Hs & Hkn & _). split_and!.
  - intros id. rewrite Hr, Hrefs, (added_occ _ _ _ _ id Hadd). lia.
  - apply Hp; [|done]. intros id. rewrite Hrefs. specialize (Hext id). lia.
  - eapply acct_shift_ext; [|exact Hs]. intros st id. by apply added_sizes.
  - done.
Qed.

(** [add_slice] fails with [ENOMEM] only, and only when an allocation failed;
    the list and the accounting are then as they were. *)
Theorem add_slice_errors f slice t w r t' w' :
  slices_wf (sl_level0 t) → valid_slice slice →
  known w slice → (∀ s, s ∈ sl_level0 t → known w s) →
  add_slice f slice (t, w) = (r, (t', w')) →
  (w_mem w = [] → ∃ inc, r = inr inc) ∧
  (∀ e, r = inl e → e = ENOMEM ∧ t' = t ∧ w_acct w' = w_acct w).
Proof using UniqSkiplistSpec0 SliceAccountSpec0.
  intros Hwf Hv Hk HkL E. pose proof (add_slice_run f slice t w Hwf Hv Hk HkL) as H.
  rewrite E in H. destruct H as (Hm & H). split; [exact Hm|]. intros e ->.
  destruct H as (H1 & H2 & H3). split_and!; [done|done|apply H3].
Qed.

(** ** [delete_slices] *)

Lemma delete_slices_run f bs t w :
  slices_wf (sl_level0 t) → 0 < ss_length (bs_slice bs) →
  (∀ s, s ∈ sl_level0 t → known w s) →
  let a := ss_offset (bs_slice bs) in let b := a + ss_length (bs_slice bs) in
  let dels := filter (overlaps a b) (sl_level0 t) in
  let '(r, (t', w')) := delete_slices f bs (t, w) in
  (w_mem w = [] → r = inl ENOENT ∧ dels = [] ∨ ∃ x, r = inr x) ∧
  match r with
  | inl e => (e = ENOMEM ∨ e = ENOENT ∧ dels = []) ∧ t' = t ∧ refs_up w w'
  | inr (count, dec) => ∃ new,
      cut_to a b (sl_level0 t) new (sl_level0 t') ∧
      count = Z.of_nat (length dels) ∧ 0 < count ∧
      dec = overlap_sum a b (sl_level0 t) ∧
      (∀ id, ref_count w' id = ref_count w id + occ id new - occ id dels) ∧
      ((∀ id, occ id (sl_level0 t) <= ref_count w id) → refs_pos w → refs_pos w') ∧
      acct_shift f w w' (λ st id, sizes_in st id new - sizes_in st id dels) ∧
      (∀ s, known w s → known w' s) ∧ w_sn w' = w_sn w ∧ w_next w <= w_next w'
  end.
Proof using UniqSkiplistSpec0 SliceAccountSpec0.
  intros Hwf Hlen HkL a b dels. rewrite delete_slices_eq by done.
  assert (Hal : allocating (A := A) (delete_scan (bs_slice bs) t)).
  { apply allocating_bind; [apply allocating_delete_previous|]. intros.
    apply allocating_delete_loop. }
  destruct (delete_scan (bs_slice bs) t w) as [[e|sc] w1] eqn:E;
    destruct (Hal _ _ _ E) as (Ha1 & Ha2 & Ha3).
  { split; [|split_and!; [left; by apply Ha2|done|done]].
    intros Hm. by destruct (Ha3 Hm) as [[x ?] _]. }
  destruct (delete_scan_run (bs_slice bs) t w sc w1 Hwf Hlen E) as [Hcol Hdec].
  fold a b in Hcol, Hdec. assert (Hab : a < b) by (unfold b; lia).
  destruct (apply_scan_run f _ _ t w _ sc w1 Hab Hwf Hcol)
    as (new & Hcut & Hdels & Hrefs & Hpos & Hacct & Hsn & _ & Hids & Hnext).
  fold dels in Hdels, Hrefs, Hacct. unfold sa_count. rewrite Hdels.
  destruct (Z.eqb_spec (Z.of_nat (length dels)) 0) as [H0|H0].
  { assert (dels = []) by (destruct dels; [done|simpl in H0; lia]).
    split; [auto|]. split_and!; auto. }
  destruct (apply_scan f sc (t, w1)) as [t2 w2]. simpl in *.
  destruct (Hacct HkL) as [Hkn Hsh]. split; [eauto|].
  exists new. split_and!; try done. lia.
Qed.

(** C26: when [delete_slices] succeeds no byte of the extent is mapped any more and
    every other byte is where it was; [*dec_alloc] is the number of bytes that were
    mapped and [*count] the number of slices that overlapped. *)
Theorem delete_slices_content f bs t w count dec t' w' :
  slices_wf (sl_level0 t) → 0 < ss_length (bs_slice bs) →
  (∀ s, s ∈ sl_level0 t → known w s) →
  delete_slices f bs (t, w) = (inr (count, dec), (t', w')) →
  let a := ss_offset (bs_slice bs) in let b := a + ss_length (bs_slice bs) in
  slices_wf (sl_level0 t') ∧
  (∀ p, lookup_byte (sl_level0 t') p =
     if decide (a <= p < b) then None else lookup_byte (sl_level0 t) p) ∧
  dec = total_len (sl_level0 t) - total_len (sl_level0 t') ∧
  count = Z.of_nat (length (filter (overlaps a b) (sl_level0 t))) ∧ 0 < count.
Proof using UniqSkiplistSpec0 SliceAccountSpec0.
  intros Hwf Hlen HkL E a b. pose proof (delete_slices_run f bs t w Hwf Hlen HkL) as H.
  cbn zeta in H. rewrite E in H. destruct H as (_ & new & Hcut & Hc & Hpos & -> & _).
  assert (Hab : a < b) by (unfold b; lia). split_and!; try done.
  - apply (ct_wf _ _ _ _ _ Hcut).
  - intros p. by apply (cut_lookup a b _ new).
  - rewrite (cut_total a b _ _ _ Hab Hwf Hcut). fold a b. lia.
Qed.

(** [delete_slices] keeps the reference counts and the trunk accounting in step
    with the list. *)
Theorem delete_slices_refs_accounting f bs t w x t' w' (ext : Z → Z) :
  slices_wf (sl_level0 t) → 0 < ss_length (bs_slice bs) →
  (∀ s, s ∈ sl_level0 t → known w s) → refs_pos w →
  (∀ id, 0 <= ext id) → (∀ id, ref_count w id = occ id (sl_level0 t) + ext id) →
  delete_slices f bs (t, w) = (inr x, (t', w')) →
  (∀ id, ref_count w' id = occ id (sl_level0 t') + ext id) ∧ refs_pos w' ∧
  acct_shift f w w' (λ st id, sizes_in st id (sl_level0 t') - sizes_in st id (sl_level0 t)) ∧
  (∀ s, known w s → known w' s).
Proof using UniqSkiplistSpec0 SliceAccountSpec0.
  intros Hwf Hlen HkL Hpos Hext Hrefs E.
  pose proof (delete_slices_run f bs t w Hwf Hlen HkL) as H. cbn zeta in H.
  rewrite E in H. destruct x as [count dec].
  destruct H as (_ & new & Hcut & _ & _ & _ & Hr & Hp & Hs & Hkn & _).
  set (a := ss_offset (bs_slice bs)) in *. set (b := a + ss_length (bs_slice bs)) in *.
  split_and!.
  - intros id. rewrite Hr, Hrefs, (occ_perm _ _ _ (ct_perm _ _ _ _ _ Hcut)), occ_app.
    rewrite (occ_split id a b (sl_level0 t)). lia.
  - apply Hp; [|done]. intros id. rewrite Hrefs. specialize (Hext id). lia.
  - eapply acct_shift_ext; [|exact Hs]. intros st id. unfold sizes_in.
    rewrite (sumZ_perm _ _ _ (ct_perm _ _ _ _ _ Hcut)), sumZ_app.
    pose proof (sizes_in_split st id a b (sl_level0 t)). unfold sizes_in in *. lia.
  - done.
Qed.

(** with memory available [delete_slices] answers [ENOENT] exactly when no slice
    overlaps the extent; on every error the list and the accounting are as they
    were. *)
Theorem delete_slices_errors f bs t w r t' w' :
  slices_wf (sl_level0 t) → 0 < ss_length (bs_slice bs) →
  (∀ s, s ∈ sl_level0 t → known w s) →
  delete_slices f bs (t, w) = (r, (t', w')) →
  let a := ss_offset (bs_slice bs) in let b := a + ss_length (bs_slice bs) in
  (w_mem w = [] → r = inl ENOENT ↔ ∀ s, s ∈ sl_level0 t → ¬ overlaps a b s) ∧
  (∀ e, r = inl e → (e = ENOMEM ∨ e = ENOENT) ∧ t' = t ∧ w_acct w' = w_acct w).
Proof using UniqSkiplistSpec0 SliceAccountSpec0.
  intros Hwf Hlen HkL E a b. pose proof (delete_slices_run f bs t w Hwf Hlen HkL) as H.
  cbn zeta in H. rewrite E in H. fold a b in H. destruct H as (Hm & H). split.
  - intros Hmem. rewrite <- filter_nil_iff. split.
    + intros ->. destruct H as ([?|[_ ?]] & _); done.
    + intros H0. destruct (Hm Hmem) as [[? _]|[[count dec] ->]]; [done|].
      destruct H as (new & _ & Hc & Hpos & _). rewrite Hc, H0 in Hpos. simpl in Hpos. lia.
  - intros e ->. destruct H as (He & Ht & Hup). split_and!; [|done|apply Hup].
    destruct He as [?|[? _]]; auto.
Qed.
End Main.

(** ** The properties on the block of [ObSlicesDemo] *)

Definition demo_added : (Z + Z) * (list OBSliceEntry * World Mgr) :=
  add_slice demo_flags demo_new (demo_slices, demo_world []).
Definition demo_deleted : (Z + Z * Z) * (list OBSliceEntry * World Mgr) :=
  delete_slices demo_flags (demo_bs 50 200) (demo_slices, demo_world []).

Lemma demo_added_eq : add_slice demo_flags demo_new (demo_slices, demo_world []) = (inr 100,
  (demo_added.2.1, demo_added.2.2)).
Proof. vm_compute. reflexivity. Qed.
Lemma demo_deleted_eq :
  delete_slices demo_flags (demo_bs 50 200) (demo_slices, demo_world []) = (inr (2, 100),
  (demo_deleted.2.1, demo_deleted.2.2)).
Proof. vm_compute. reflexivity. Qed.

Lemma add_slice_content_witness :
  slices_wf (sl_level0 demo_added.2.1) ∧
  lookup_byte (sl_level0 demo_added.2.1) 60 = Some (mkLoc 1 (mkTrunkId 7 1) 210 OB_SLICE_TYPE_FILE).
Proof.
  destruct (add_slice_content demo_flags demo_new demo_slices (demo_world []) 100 _ _
    demo_wf demo_new_valid (demo_known [] 3 50 200 200) (demo_known_all []) demo_added_eq)
    as (H1 & H2 & _).
  split; [exact H1|]. rewrite H2. vm_compute. reflexivity.
Defined.

Lemma add_slice_refs_accounting_witness :
  refs_pos demo_added.2.2 ∧ ref_count demo_added.2.2 3 = occ 3 (sl_level0 demo_added.2.1).
Proof.
  destruct (add_slice_refs_accounting demo_flags demo_new demo_slices (demo_world []) 100 _ _
    demo_ext demo_wf demo_new_valid (demo_known [] 3 50 200 200) (demo_known_all [])
    (demo_refs_pos []) demo_ext_nonneg (demo_refs []) demo_added_eq) as (H1 & H2 & _).
  split; [exact H2|]. rewrite H1. vm_compute. reflexivity.
Defined.

Lemma add_slice_errors_witness :
  let r := add_slice demo_flags demo_new (demo_slices, demo_world [true; false]) in
  r.1 = inl ENOMEM ∧ r.2.1 = demo_slices.
Proof.
  intros r. assert (E : add_slice demo_flags demo_new (demo_slices, demo_world [true; false])
    = (inl ENOMEM, (r.2.1, r.2.2))) by (vm_compute; reflexivity).
  destruct (add_slice_errors demo_flags demo_new demo_slices (demo_world [true; false]) _ _ _
    demo_wf demo_new_valid (demo_known _ 3 50 200 200) (demo_known_all _) E) as (_ & H).
  split; [vm_compute; reflexivity|]. destruct (H ENOMEM eq_refl) as (_ & H1 & _). exact H1.
Defined.

Lemma delete_slices_content_witness :
  slices_wf (sl_level0 demo_deleted.2.1) ∧ lookup_byte (sl_level0 demo_deleted.2.1) 60 = None.
Proof.
  destruct (delete_slices_content demo_flags (demo_bs 50 200) demo_slices (demo_world []) 2 100 _ _
    demo_wf ltac:(done) (demo_known_all []) demo_deleted_eq) as (H1 & H2 & _).
  split; [exact H1|]. rewrite H2. vm_compute. reflexivity.
Defined.

Lemma delete_slices_refs_accounting_witness : refs_pos demo_deleted.2.2.
Proof.
  destruct (delete_slices_refs_accounting demo_flags (demo_bs 50 200) demo_slices (demo_world [])
    (2, 100) _ _ demo_ext demo_wf ltac:(done) (demo_known_all []) (demo_refs_pos [])
    demo_ext_nonneg (demo_refs []) demo_deleted_eq) as (_ & H & _).
  exact H.
Defined.

Lemma delete_slices_errors_witness :
  (delete_slices demo_flags (demo_bs 120 50) (demo_slices, demo_world [])).1 = inl ENOENT.
Proof.
  set (r := delete_slices demo_flags (demo_bs 120 50) (demo_slices, demo_world [])).
  assert (E : delete_slices demo_flags (demo_bs 120 50) (demo_slices, demo_world [])
    = (r.1, (r.2.1, r.2.2))) by (vm_compute; reflexivity).
  destruct (delete_slices_errors demo_flags (demo_bs 120 50) demo_slices (demo_world []) _ _ _
    demo_wf ltac:(done) (demo_known_all []) E) as (H & _).
  apply H; [reflexivity|].
  intros s [->|[->|[]%elem_of_nil]%elem_of_cons]%elem_of_cons; unfold overlaps; vm_compute; intuition congruence.
Defined.
