(* ===== verification/ObSlicesGet.v ===== *)
(** * The contract of [get_slices]

    Reading an extent of a block: which entries the array receives, what they map,
    which references they hold, and what is left behind when memory runs out. *)
From S2P Require Import Prelude Types Skiplist ObSlices ObSlicesRun.
From S2P Require Import ObSlicesThms TrunkAllocator ObSlicesMain.

(** The part of a slice within [a, b), as the array receives it. *)
Definition clip (a b : Z) (s : OBSliceEntry) : OBSliceEntry :=
  mkSlice 0 (se_ob s) (se_type s)
    (mkSliceSize (Z.max a (soff s)) (Z.min b (send s) - Z.max a (soff s)))
    (mkTrunkSpace (sp_store (se_space s)) (sp_id_info (se_space s))
       (sp_offset (se_space s) + (Z.max a (soff s) - soff s)) (sp_size (se_space s))).

Lemma clip_facts a b s : overlaps a b s → valid_slice s → a < b →
  soff (clip a b s) = Z.max a (soff s) ∧ send (clip a b s) = Z.min b (send s) ∧
  valid_slice (clip a b s) ∧ (∀ p, loc_at (clip a b s) p = loc_at s p).
Proof.
  intros Ho Hv Hab. assert (E1 : soff (clip a b s) = Z.max a (soff s)) by done.
  assert (E2 : send (clip a b s) = Z.min b (send s)).
  { unfold send at 1. rewrite E1. unfold slen, clip. simpl. lia. }
  assert (Hse : soff s < send s) by (unfold valid_slice, send in *; lia).
  split_and!; [done|done| |].
  - unfold valid_slice, overlaps, slen in *. rewrite E1, E2. simpl. lia.
  - intros p. unfold loc_at. rewrite E1. simpl. f_equal. lia.
Qed.

Lemma clip_wf a b l : a < b → slices_wf l → slices_wf (clip a b <$> filter (overlaps a b) l).
Proof.
  intros Hab [Hs Hv]. induction Hs as [|x l Hl IH Hx]; [apply slices_wf_nil|].
  inversion Hv as [|? ? Hvx Hvl]; subst. specialize (IH Hvl).
  rewrite filter_cons. case_decide as Ho; [|done]. rewrite fmap_cons. destruct IH as [I1 I2].
  destruct (clip_facts a b x Ho Hvx Hab) as (E1 & E2 & E3 & _).
  split; constructor; [done| |done|done]. apply Forall_forall. intros y.
  intros (z & -> & [Hz Hzl]%list_elem_of_filter)%list_elem_of_fmap.
  rewrite Forall_forall in Hx, Hvl. specialize (Hx _ Hzl). specialize (Hvl _ Hzl).
  destruct (clip_facts a b z Hz Hvl Hab) as (F1 & _). unfold before in *. rewrite E2, F1.
  unfold overlaps in *. lia.
Qed.

Lemma clip_lookup a b l p : a < b → slices_wf l →
  lookup_byte (clip a b <$> filter (overlaps a b) l) p =
  if decide (a <= p < b) then lookup_byte l p else None.
Proof.
  intros Hab Hwf. pose proof (clip_wf a b l Hab Hwf) as Hcw. case_decide as Hp.
  - apply option_eq. intros d. rewrite !lookup_byte_Some by done. split.
    + intros (s & (z & -> & [Hz Hzl]%list_elem_of_filter)%list_elem_of_fmap & Hc & ->).
      destruct (clip_facts a b z Hz (slices_wf_valid _ _ Hwf Hzl) Hab) as (E1 & E2 & _ & E3).
      exists z. rewrite E3. split_and!; [done| |done]. unfold covers in *. lia.
    + intros (z & Hzl & Hc & ->). assert (Hz : overlaps a b z) by (unfold overlaps, covers in *; lia).
      destruct (clip_facts a b z Hz (slices_wf_valid _ _ Hwf Hzl) Hab) as (E1 & E2 & _ & E3).
      exists (clip a b z). split_and!; [|unfold covers in *; lia|by rewrite E3].
      apply list_elem_of_fmap. exists z. split; [done|]. by apply list_elem_of_filter.
  - apply lookup_byte_None. intros s (z & -> & [Hz Hzl]%list_elem_of_filter)%list_elem_of_fmap Hc.
    destruct (clip_facts a b z Hz (slices_wf_valid _ _ Hwf Hzl) Hab) as (E1 & E2 & _ & E3).
    unfold covers in Hc. lia.
Qed.

Lemma strip_lookup l p : lookup_byte (strip <$> l) p = lookup_byte l p.
Proof. induction l as [|x l IH]; [done|]. rewrite fmap_cons. simpl. by rewrite IH. Qed.

Section Get.
Context {T A : Type} `{!UniqSkiplist OBSliceEntry T} `{!SliceAccount A}.
Context `{!UniqSkiplistSpec slice_compare}.
Implicit Types (w : World A) (s slice curr : OBSliceEntry) (t : T)
  (aw : SlicePtrArray * World A) (res leak : list OBSliceEntry).

(** From [aw] to [aw'] the entries [res] were appended to the array and each took a
    reference; [leak] took a reference without being in the array. *)
Record got aw aw' res leak : Prop := {
  got_slices : sa_slices aw'.1 = sa_slices aw.1 ++ res;
  got_refs : ∀ id, ref_count aw'.2 id = ref_count aw.2 id + occ id res + occ id leak;
  got_pos : refs_pos aw.2 → refs_pos aw'.2;
  got_acct : w_acct aw'.2 = w_acct aw.2;
  got_sn : w_sn aw'.2 = w_sn aw.2;
  got_mem : w_mem aw.2 = [] → w_mem aw'.2 = [];
}.

(** A computation that appends entries satisfying [P] or runs out of memory. *)
Definition gives (P : list OBSliceEntry → Prop) (m : GM (A := A) unit) : Prop :=
  ∀ aw r aw', m aw = (r, aw') →
  match r with
  | inr _ => ∃ res, P res ∧ got aw aw' res []
  | inl e => e = ENOMEM ∧ w_mem aw.2 ≠ [] ∧
      ∃ res leak, (length leak <= 1)%nat ∧ got aw aw' res leak
  end.

Lemma got_refl aw : got aw aw [] [].
Proof using. split; try done. { by rewrite app_nil_r. } intros id. rewrite occ_nil. lia. Qed.
Lemma got_trans aw1 aw2 aw3 res1 res2 leak :
  got aw1 aw2 res1 [] → got aw2 aw3 res2 leak → got aw1 aw3 (res1 ++ res2) leak.
Proof using.
  intros [] []. split; try (by auto); try congruence.
  - rewrite app_assoc. congruence.
  - intros id. rewrite got_refs1, got_refs0, occ_app, occ_nil. lia.
Qed.

Lemma gives_ret : gives (λ res, res = []) (mret tt).
Proof using. intros aw r aw' [= <- <-]. exists []. split; [done|apply got_refl]. Qed.
Lemma gives_bind P Q m1 m2 :
  gives P m1 → gives Q m2 →
  gives (λ res, ∃ r1 r2, res = r1 ++ r2 ∧ P r1 ∧ Q r2) (m1;; m2).
Proof using.
  intros H1 H2 aw r aw'. unfold mbind, M_bind.
  destruct (m1 aw) as [[e|[]] aw1] eqn:E; specialize (H1 _ _ _ E); simpl in H1.
  { by intros [= <- <-]. }
  destruct H1 as (r1 & HP & G1). intros E2. specialize (H2 _ _ _ E2). destruct r as [e|[]].
  - destruct H2 as (? & Hm & res & leak & Hl & G2). split_and!; [done| |].
    + intros Hm'. apply Hm, (got_mem _ _ _ _ G1 Hm').
    + exists (r1 ++ res), leak. split; [done|by eapply got_trans].
  - destruct H2 as (r2 & HQ & G2). exists (r1 ++ r2). split; [eauto|by eapply got_trans].
Qed.
Lemma gives_weaken (P Q : list OBSliceEntry → Prop) m :
  (∀ res, P res → Q res) → gives P m → gives Q m.
Proof using.
  intros HPQ Hm aw r aw' E. specialize (Hm aw r aw' E). destruct r; [done|].
  destruct Hm as (res & ? & ?). eauto.
Qed.

(** [push_array] takes over a reference that was counted before. *)
Lemma push_array_run s aw r aw' :
  push_array s aw = (r, aw') →
  w_refs aw'.2 = w_refs aw.2 ∧ w_acct aw'.2 = w_acct aw.2 ∧ w_sn aw'.2 = w_sn aw.2 ∧
  (w_mem aw.2 = [] → w_mem aw'.2 = []) ∧
  match r with
  | inr _ => sa_slices aw'.1 = sa_slices aw.1 ++ [s]
  | inl e => e = ENOMEM ∧ w_mem aw.2 ≠ [] ∧ sa_slices aw'.1 = sa_slices aw.1
  end.
Proof using.
  unfold push_array, add_to_slice_ptr_array. destruct (_ <=? _).
  - unfold mbind, M_bind, alloc_ok. destruct (w_mem aw.2) as [|[] m] eqn:E; simpl;
      intros [= <- <-]; simpl; rewrite ?E; split_and!; done.
  - intros [= <- <-]. by split_and!.
Qed.

Lemma gives_dup curr o len :
  soff curr <= o →
  gives (λ res, ∃ s, res = [s] ∧ strip s = mkSlice 0 (se_ob curr) (se_type curr) (mkSliceSize o len)
      (mkTrunkSpace (sp_store (se_space curr)) (sp_id_info (se_space curr))
         (sp_offset (se_space curr) + (o - soff curr)) (sp_size (se_space curr))))
    (dup_slice_to_array curr o len).
Proof using.
  intros Ho aw r aw'. unfold dup_slice_to_array, slice_dup, on_world_arr.
  unfold mbind, M_bind, alloc_ok, fresh_id, mmodify, mret, M_ret, mfail.
  set (w1 := match w_mem aw.2 with [] => aw.2 | _ :: m => set_mem m aw.2 end).
  assert (Hw1 : w_refs w1 = w_refs aw.2 ∧ w_acct w1 = w_acct aw.2 ∧ w_sn w1 = w_sn aw.2 ∧
    (w_mem aw.2 = [] → w_mem w1 = [])).
  { unfold w1. destruct (w_mem aw.2) eqn:E; by split_and!. }
  destruct Hw1 as (R1 & R2 & R3 & R4).
  assert (Halloc : (match w_mem aw.2 with [] => (inr true, aw.2) | b :: m => (inr b, set_mem m aw.2) end)
    = (inr (match w_mem aw.2 with [] => true | b :: _ => b end) : Z + bool, w1)).
  { unfold w1. by destruct (w_mem aw.2). }
  rewrite Halloc. clear Halloc. cbn beta iota.
  destruct (match w_mem aw.2 with [] => true | b :: _ => b end) eqn:Hb; cbn [negb]; cycle 1.
  { intros [= <- <-]. split_and!; [done|intros H0; by rewrite H0 in Hb|].
    exists [], []. split; [simpl; lia|]. split; simpl; try done.
    - by rewrite app_nil_r.
    - intros id. unfold ref_count. rewrite R1, occ_nil. lia.
    - unfold refs_pos. by rewrite R1. }
  set (s := mkSlice _ _ _ _ _). set (w0 := mkWorld _ _ _ _ _).
  set (w2 := ref_add (w_next w1) 1 w0). intros E.
  assert (Hst : strip s = mkSlice 0 (se_ob curr) (se_type curr) (mkSliceSize o len)
      (mkTrunkSpace (sp_store (se_space curr)) (sp_id_info (se_space curr))
         (sp_offset (se_space curr) + (o - soff curr)) (sp_size (se_space curr)))).
  { unfold s, strip. simpl. destruct (Z.ltb_spec 0 (o - soff curr)); simpl; [done|].
    assert (o - soff curr = 0) as -> by lia. assert (o = soff curr) as -> by lia.
    f_equal. destruct (se_space curr) eqn:E'. simpl. f_equal. lia. }
  assert (Hr2 : ∀ id, ref_count w2 id = ref_count aw.2 id + occ id [s]).
  { intros id. unfold w2. rewrite ref_count_add. unfold ref_count, w0. simpl.
    rewrite R1, occ_cons, occ_nil. simpl. lia. }
  assert (Hp2 : refs_pos aw.2 → refs_pos w2).
  { intros Hp. apply refs_pos_add; [lia|]. unfold refs_pos, w0. simpl. by rewrite R1. }
  destruct (push_array_run _ _ _ _ E) as (P1 & P2 & P3 & P4 & P5). cbn [snd fst] in *.
  assert (Hr3 : ∀ id, ref_count aw'.2 id = ref_count w2 id) by (intros; unfold ref_count; by rewrite P1).
  destruct r as [e|[]].
  - destruct P5 as (-> & Hm & P6). split_and!; [done|intros H0; apply Hm, R4, H0|].
    exists [], [s]. split; [simpl; lia|]. split; try done.
    + by rewrite app_nil_r.
    + intros id. rewrite Hr3, Hr2, occ_nil. lia.
    + intros Hp. unfold refs_pos. rewrite P1. by apply Hp2.
    + by rewrite P2.
    + by rewrite P3.
    + auto.
  - exists [s]. split; [eauto|]. split; try done.
    + intros id. rewrite Hr3, Hr2, occ_nil. lia.
    + intros Hp. unfold refs_pos. rewrite P1. by apply Hp2.
    + by rewrite P2.
    + by rewrite P3.
    + auto.
Qed.

Lemma gives_share curr :
  gives (λ res, res = [curr])
    (on_world_arr (mmodify (ref_add (se_id curr) 1));; push_array curr).
Proof using.
  intros aw r aw'. unfold on_world_arr, mmodify, mbind, M_bind. cbn beta iota.
  intros E. destruct (push_array_run _ _ _ _ E) as (P1 & P2 & P3 & P4 & P5). cbn [snd fst] in *.
  assert (Hr : ∀ id, ref_count aw'.2 id = ref_count aw.2 id + occ id [curr]).
  { intros id. unfold ref_count at 1. rewrite P1. fold (ref_count (ref_add (se_id curr) 1 aw.2) id).
    rewrite ref_count_add, occ_cons, occ_nil. lia. }
  assert (Hp : refs_pos aw.2 → refs_pos aw'.2).
  { intros Hp. unfold refs_pos. rewrite P1. by apply (refs_pos_add aw.2 (se_id curr) 1). }
  destruct r as [e|[]].
  - destruct P5 as (-> & Hm & P6). split_and!; [done|done|]. exists [], [curr].
    split; [simpl; lia|]. split; try done.
    + by rewrite app_nil_r.
    + intros id. rewrite Hr, occ_nil. lia.
  - exists [curr]. split; [done|]. split; try done. intros id. rewrite Hr, occ_nil. lia.
Qed.

Lemma clip_shared a b curr : a <= soff curr → send curr <= b → strip curr = clip a b curr.
Proof using.
  intros Ha Hb. unfold strip, clip. rewrite Z.max_r, Z.min_r by lia.
  destruct curr as [i ob ty [o l] [st id off sz]]. unfold send, soff, slen in *. simpl in *.
  f_equal; f_equal; lia.
Qed.

Definition clipped (a b : Z) (l res : list OBSliceEntry) : Prop :=
  strip <$> res = clip a b <$> filter (overlaps a b) l.

Lemma get_slices_loop_gives a b nodes :
  slices_wf nodes → (∀ x, x ∈ nodes → a <= soff x) → a < b →
  gives (clipped a b nodes) (get_slices_loop b nodes).
Proof using.
  intros Hwf Ha Hab. induction nodes as [|curr rest IH]; simpl.
  { eapply gives_weaken; [|apply gives_ret]. by intros res ->. }
  assert (Hv : valid_slice curr) by (apply (slices_wf_valid _ _ Hwf); by left).
  assert (Hse : soff curr < send curr) by (unfold valid_slice, send in *; lia).
  assert (Hac : a <= soff curr) by (apply Ha; by left).
  destruct (Z.leb_spec b (soff curr)) as [Hle|Hlt].
  { eapply gives_weaken; [|apply gives_ret]. intros res ->. unfold clipped.
    rewrite filter_overlaps_ge; [done|]. intros x [->|Hx]%elem_of_cons; [done|].
    pose proof (slices_wf_cons_after _ _ _ Hwf Hx). lia. }
  eapply gives_weaken;
    [|apply (gives_bind (λ res, strip <$> res = [clip a b curr]) (clipped a b rest))].
  - intros res (r1 & r2 & -> & H1 & H2). unfold clipped in *.
    rewrite fmap_app, H1, H2, filter_cons_True by (unfold overlaps; lia). done.
  - destruct (Z.ltb_spec b (send curr)).
    + eapply gives_weaken; [|apply gives_dup; lia]. intros res (s & -> & Hs). simpl.
      rewrite Hs. unfold clip. rewrite Z.max_r, Z.min_l by lia.
      by rewrite Z.sub_diag, Z.add_0_r.
    + eapply gives_weaken; [|apply gives_share]. intros res ->. simpl.
      by rewrite (clip_shared a b).
  - apply IH; [by apply (slices_wf_app_r [curr])|]. intros x Hx. apply Ha. by right.
Qed.

(** Everything [get_slices] does before it looks whether something was found. *)
Lemma get_slices_eq t bs arr w :
  slices_wf (sl_level0 t) → 0 < ss_length (bs_slice bs) →
  let a := ss_offset (bs_slice bs) in let b := a + ss_length (bs_slice bs) in
  ∃ m : GM unit, gives (clipped a b (sl_level0 t)) m ∧
  get_slices t bs (arr, w) =
    match m (arr, w) with
    | (inl e, aw) => (inl e, aw)
    | (inr _, aw) => (if 0 <? sa_count aw.1 then inr tt else inl ENOENT, aw)
    end.
Proof using UniqSkiplistSpec0.
  intros Hwf Hlen a b.
  destruct (find_ge_around (target_of (bs_slice bs)) t Hwf) as (pre & Hl & Hprev & Hnodes & Hpre & Hbet).
  set (node := uniq_skiplist_find_ge_node t (target_of (bs_slice bs))) in *.
  set (m1 := match prev_data t node with
    | Some curr => if a <? send curr
        then dup_slice_to_array curr a (Z.min (send curr) b - a) else mret tt
    | None => mret tt end : GM (A := A) unit).
  assert (Hab : a < b) by (unfold b; lia).
  assert (Hwf2 : slices_wf (option_list (prev_data t node) ++ nodes_of t node)).
  { rewrite Hl in Hwf. by apply slices_wf_app_r in Hwf. }
  exists (m1;; get_slices_loop b (nodes_of t node)). split.
  - eapply gives_weaken; [|apply (gives_bind (clipped a b (option_list (prev_data t node)))
      (clipped a b (nodes_of t node)))].
    + intros res (r1 & r2 & -> & H1 & H2). unfold clipped in *.
      rewrite fmap_app, H1, H2, Hl, !filter_app, (filter_overlaps_le a b pre) by apply Hpre.
      by rewrite app_nil_l, fmap_app.
    + unfold m1. destruct (prev_data t node) as [curr|] eqn:Hc.
      * assert (Hv : valid_slice curr) by (apply (slices_wf_valid _ _ Hwf2); by left).
        assert (Hsa : soff curr < a) by (by apply Hprev).
        destruct (Z.ltb_spec a (send curr)).
        -- eapply gives_weaken; [|apply gives_dup; lia]. intros res (s & -> & Hs). unfold clipped.
           simpl. rewrite filter_cons_True by (unfold overlaps; lia).
           rewrite filter_nil, Hs. simpl. unfold clip. rewrite Z.max_l by lia.
           by rewrite (Z.min_comm b).
        -- eapply gives_weaken; [|apply gives_ret]. intros res ->. unfold clipped.
           simpl. by rewrite filter_cons_False by (unfold overlaps; lia).
      * eapply gives_weaken; [|apply gives_ret]. by intros res ->.
    + apply get_slices_loop_gives; [by apply slices_wf_app_r in Hwf2|exact Hnodes|done].
  - assert (Hg : get_slices (A := A) t bs = (m1;; (get_slices_loop b (nodes_of t node);;
      '(arr, _) ← mget; if 0 <? sa_count arr then mret tt else mfail ENOENT))) by done.
    rewrite Hg. unfold mbind, M_bind, mget.
    destruct (m1 (arr, w)) as [[e|[]] aw1]; [done|].
    destruct (get_slices_loop b (nodes_of t node) aw1) as [[e|[]] [arr2 w2]]; [done|].
    simpl. by destruct (0 <? sa_count arr2).
Qed.

(** The entries of the array map what the block maps in the extent. *)
Lemma clipped_spec a b l res : a < b → slices_wf l → clipped a b l res →
  slices_wf res ∧
  (∀ p, lookup_byte res p = if decide (a <= p < b) then lookup_byte l p else None) ∧
  (res = [] ↔ ∀ s, s ∈ l → ¬ overlaps a b s).
Proof using.
  unfold clipped. intros Hab Hwf Hres. split_and!.
  - apply slices_wf_strip. rewrite Hres. by apply clip_wf.
  - intros p. rewrite <- strip_lookup, Hres. by apply clip_lookup.
  - rewrite <- filter_nil_iff. split; intros H0; rewrite H0 in Hres.
    + by apply symmetry, fmap_nil_inv in Hres.
    + by apply fmap_nil_inv in Hres.
Qed.

(** A run of [get_slices] into an empty array. *)
Lemma get_slices_run t bs alloc w r arr' w' :
  slices_wf (sl_level0 t) → 0 < ss_length (bs_slice bs) →
  get_slices t bs (mkSliceArray alloc [], w) = (r, (arr', w')) →
  let a := ss_offset (bs_slice bs) in let b := a + ss_length (bs_slice bs) in
  (clipped a b (sl_level0 t) (sa_slices arr') ∧
     got (mkSliceArray alloc [], w) (arr', w') (sa_slices arr') [] ∧
     r = match sa_slices arr' with [] => inl ENOENT | _ => inr tt end) ∨
  (r = inl ENOMEM ∧ w_mem w ≠ [] ∧
     ∃ leak, (length leak <= 1)%nat ∧
       got (mkSliceArray alloc [], w) (arr', w') (sa_slices arr') leak).
Proof using UniqSkiplistSpec0.
  intros Hwf Hlen E a b. destruct (get_slices_eq t bs (mkSliceArray alloc []) w Hwf Hlen) as (m & Hm & Heq).
  rewrite E in Heq. fold a b in Hm.
  destruct (m (mkSliceArray alloc [], w)) as [[e|[]] aw] eqn:Em; specialize (Hm _ _ _ Em).
  - right. injection Heq as -> <-. destruct Hm as (-> & Hmem & res & leak & Hl & G).
    split_and!; [done|done|]. exists leak. split; [done|].
    pose proof (got_slices _ _ _ _ G) as Hs. simpl in Hs. by rewrite Hs.
  - left. destruct Hm as (res & Hres & G). injection Heq as -> <-.
    pose proof (got_slices _ _ _ _ G) as Hs. simpl in Hs. unfold sa_count. simpl. rewrite Hs.
    split_and!; [done|done|]. destruct res as [|x res]; [done|].
    destruct (Z.ltb_spec 0 (Z.of_nat (length (x :: res)))) as [_|H0]; [done|]. simpl in H0. lia.
Qed.

(** C27: [get_slices] into an empty array: on success the array maps exactly the
    bytes of the extent, each to where the block has it, in order; every entry of
    the array took one reference, and nothing else changed. *)
Theorem get_slices_content t bs alloc w arr' w' :
  slices_wf (sl_level0 t) → 0 < ss_length (bs_slice bs) →
  get_slices t bs (mkSliceArray alloc [], w) = (inr tt, (arr', w')) →
  let a := ss_offset (bs_slice bs) in let b := a + ss_length (bs_slice bs) in
  (∀ p, lookup_byte (sa_slices arr') p =
     if decide (a <= p < b) then lookup_byte (sl_level0 t) p else None) ∧
  slices_wf (sa_slices arr') ∧
  (∀ id, ref_count w' id = ref_count w id + occ id (sa_slices arr')) ∧
  w_acct w' = w_acct w ∧ w_sn w' = w_sn w.
Proof using UniqSkiplistSpec0.
  intros Hwf Hlen E a b. assert (Hab : a < b) by (unfold b; lia).
  destruct (get_slices_run t bs alloc w _ arr' w' Hwf Hlen E)
    as [(Hres & [_ G2 _ G4 G5 _] & _)|(? & _)]; [|done].
  destruct (clipped_spec a b _ _ Hab Hwf Hres) as (R1 & R2 & _).
  split_and!; try done. intros id. specialize (G2 id). simpl in G2. rewrite G2, occ_nil. lia.
Qed.

(** the errors of [get_slices]: [ENOENT] exactly when memory sufficed, the array
    was empty and nothing overlaps the extent; otherwise [ENOMEM], after an
    allocation failed. The array then holds what was appended so far, and at most
    one more entry has taken a reference that the array does not hold. *)
Theorem get_slices_errors t bs arr w r arr' w' :
  slices_wf (sl_level0 t) → 0 < ss_length (bs_slice bs) →
  get_slices t bs (arr, w) = (r, (arr', w')) →
  let a := ss_offset (bs_slice bs) in let b := a + ss_length (bs_slice bs) in
  (w_mem w = [] → r = inl ENOENT ↔
     sa_slices arr = [] ∧ ∀ s, s ∈ sl_level0 t → ¬ overlaps a b s) ∧
  (∀ e, r = inl e →
     e = ENOENT ∧ sa_slices arr' = [] ∧ (∀ id, ref_count w' id = ref_count w id) ∨
     e = ENOMEM ∧ w_mem w ≠ [] ∧
     ∃ res leak, (length leak <= 1)%nat ∧ sa_slices arr' = sa_slices arr ++ res ∧
       ∀ id, ref_count w' id = ref_count w id + occ id res + occ id leak).
Proof using UniqSkiplistSpec0.
  intros Hwf Hlen E a b. assert (Hab : a < b) by (unfold b; lia).
  destruct (get_slices_eq t bs arr w Hwf Hlen) as (m & Hm & Heq).
  rewrite E in Heq. fold a b in Hm.
  destruct (m (arr, w)) as [[e|[]] aw] eqn:Em; specialize (Hm _ _ _ Em); cbn [fst snd] in Hm.
  - injection Heq as -> <-. destruct Hm as (-> & Hmem & res & leak & Hl & [G1 G2 G3 G4 G5 G6]).
    split; [done|]. intros e [= <-]. right. eauto 10.
  - destruct Hm as (res & Hres & [G1 G2 G3 G4 G5 G6]). injection Heq as -> <-.
    cbn [fst snd] in *. unfold sa_count. rewrite G1.
    assert (Hempty : sa_slices arr ++ res = [] ↔
      sa_slices arr = [] ∧ ∀ s, s ∈ sl_level0 t → ¬ overlaps a b s).
    { rewrite app_nil. unfold clipped in Hres.
      assert (Hnil : res = [] ↔ filter (overlaps a b) (sl_level0 t) = []).
      { split; intros H0.
        - rewrite H0 in Hres. by apply symmetry, fmap_nil_inv in Hres.
        - rewrite H0 in Hres. by apply fmap_nil_inv in Hres. }
      by rewrite Hnil, filter_nil_iff. }
    destruct (sa_slices arr ++ res) as [|x k] eqn:El.
    + simpl. split; [intros _; split; [intros _; by apply Hempty|done]|].
      intros e [= <-]. left. split_and!; [done|done|].
      intros id. rewrite G2. apply app_nil in El as [_ ->]. rewrite !occ_nil. lia.
    + assert (Hpos : (0 <? Z.of_nat (length (x :: k))) = true) by (apply Z.ltb_lt; simpl; lia).
      rewrite Hpos. split; [|done]. intros _. split; [done|]. intros H. apply Hempty in H. done.
Qed.
End Get.

(** ** The properties on the block of [ObSlicesDemo] *)

Definition demo_get (mem : list bool) (off len : Z) : (Z + unit) * (SlicePtrArray * World Mgr) :=
  get_slices demo_slices (demo_bs off len) (mkSliceArray 0 [], demo_world mem).

Lemma get_slices_content_witness :
  slices_wf (sa_slices (demo_get [] 50 200).2.1) ∧
  lookup_byte (sa_slices (demo_get [] 50 200).2.1) 60
    = Some (mkLoc 1 (mkTrunkId 7 1) 60 OB_SLICE_TYPE_FILE).
Proof.
  assert (E : get_slices demo_slices (demo_bs 50 200) (mkSliceArray 0 [], demo_world []) = (inr tt, ((demo_get [] 50 200).2.1, (demo_get [] 50 200).2.2)))
    by (vm_compute; reflexivity).
  destruct (get_slices_content demo_slices (demo_bs 50 200) 0 (demo_world []) _ _ demo_wf
    ltac:(done) E) as (H1 & H2 & _).
  split; [exact H2|]. rewrite H1. vm_compute. reflexivity.
Defined.

(** Entry 1 lies within the extent: its reference is taken, the array cannot grow,
    and the reference stays behind. *)
Lemma get_slices_errors_witness :
  (demo_get [false] 0 100).1 = inl ENOMEM ∧ sa_slices (demo_get [false] 0 100).2.1 = [] ∧
  ref_count (demo_get [false] 0 100).2.2 1 = 2.
Proof.
  assert (E : get_slices demo_slices (demo_bs 0 100) (mkSliceArray 0 [], demo_world [false]) = (inl ENOMEM,
    ((demo_get [false] 0 100).2.1, (demo_get [false] 0 100).2.2))) by (vm_compute; reflexivity).
  destruct (get_slices_errors demo_slices (demo_bs 0 100) (mkSliceArray 0 []) (demo_world [false])
    _ _ _ demo_wf ltac:(done) E) as (_ & H).
  destruct (H ENOMEM eq_refl) as [(H1 & _)|_]; [discriminate H1|].
  split_and!; vm_compute; reflexivity.
Defined.
