(* ===== verification/ObIndex.v ===== *)
(** * The object block index

    [src/server/storage/object_block_index.c], the hash table of block entries: the
    bucket chains are linked through the [next] pointers of the entries, as in the
    source, so that what a thread that waited does with the pointers it found
    before is part of the model. The algorithms on the slices of one entry are in
    [ObSlices.v]. *)
From S2P Require Import Prelude Types Skiplist ObSlices.

(** [OBEntry]; [next] is an address, [None] is [NULL]. *)
Record OBEntry (T : Type) := mkOBEntry {
  ob_bkey : FSBlockKey;
  ob_reclaiming_count : Z;
  ob_slices : T;
  ob_next : option Z;
}.
Arguments mkOBEntry {T}.
Arguments ob_bkey {T}.
Arguments ob_reclaiming_count {T}.
Arguments ob_slices {T}.
Arguments ob_next {T}.

(** [OBHashtable]; a bucket that is [NULL] has no binding. *)
Record OBHashtable := mkHtable {
  ht_capacity : Z;
  ht_buckets : gmap Z Z;
  ht_flags : OBFlags;
}.

(** The index with the memory its entries live in: [ix_obs] holds the live entries
    by address. *)
Record Index (T A : Type) := mkIndex {
  ix_htable : OBHashtable;
  ix_obs : gmap Z (OBEntry T);
  ix_next_ob : Z;
  ix_world : World A;
}.
Arguments mkIndex {T A}.
Arguments ix_htable {T A}.
Arguments ix_obs {T A}.
Arguments ix_next_ob {T A}.
Arguments ix_world {T A}.

(** A computation on the index. [None]: an address that is not a live entry was
    followed, or a chain did not end. *)
Definition IM (T A B : Type) : Type := Index T A → option (B * Index T A).
#[export] Instance IM_ret T A : MRet (IM T A) := λ B b ix, Some (b, ix).
#[export] Instance IM_bind T A : MBind (IM T A) := λ B C k m ix,
  match m ix with
  | None => None
  | Some (b, ix') => k b ix'
  end.

Section Index.
Context {T A : Type} `{!UniqSkiplist OBSliceEntry T} `{!SliceAccount A}.
Implicit Types (ix : Index T A) (k : FSBlockKey) (p : Z) (e : OBEntry T).

Definition set_world w ix : Index T A := mkIndex (ix_htable ix) (ix_obs ix) (ix_next_ob ix) w.
Definition set_obs obs ix : Index T A := mkIndex (ix_htable ix) obs (ix_next_ob ix) (ix_world ix).
Definition set_buckets b ix : Index T A :=
  mkIndex (mkHtable (ht_capacity (ix_htable ix)) b (ht_flags (ix_htable ix)))
    (ix_obs ix) (ix_next_ob ix) (ix_world ix).

Definition iget : IM T A (Index T A) := λ ix, Some (ix, ix).
Definition imod (g : Index T A → Index T A) : IM T A unit := λ ix, Some (tt, g ix).
(** Follow a pointer to an entry. *)
Definition deref p : IM T A (OBEntry T) := λ ix, e ← ix_obs ix !! p; Some (e, ix).
Definition store p e : IM T A unit :=
  deref p;; imod (λ ix, set_obs (<[p := e]> (ix_obs ix)) ix).
Definition iworld {B} (m : World A → B * World A) : IM T A B := λ ix,
  let '(b, w) := m (ix_world ix) in Some (b, set_world w ix).

Definition ob_set_next n e : OBEntry T :=
  mkOBEntry (ob_bkey e) (ob_reclaiming_count e) (ob_slices e) n.
Definition ob_set_count n e : OBEntry T := mkOBEntry (ob_bkey e) n (ob_slices e) (ob_next e).
Definition ob_set_slices t e : OBEntry T :=
  mkOBEntry (ob_bkey e) (ob_reclaiming_count e) t (ob_next e).

(** [OB_INDEX_SET_BUCKET_AND_LOCK]: the bucket of a key. *)
Definition bucket_index (ht : OBHashtable) k : Z := bk_hash_code k mod ht_capacity ht.

(** ** [get_ob_entry_ex] *)

(** The [while] loop: [pprev] precedes the place of the key. *)
Fixpoint chain_walk (fuel : nat) (obs : gmap Z (OBEntry T)) k (pprev : Z)
    : option (option Z * Z) :=
  match fuel with
  | O => None
  | S fuel =>
      pe ← obs !! pprev;
      match ob_next pe with
      | None => Some (None, pprev)
      | Some nx =>
          ne ← obs !! nx;
          let cmpr := ob_index_compare_block_key k (ob_bkey ne) in
          if cmpr =? 0 then Some (Some nx, pprev)
          else if cmpr <? 0 then Some (None, pprev)
          else chain_walk fuel obs k nx
      end
  end.

(** The search: the entry if it is there, and [*pprev]. *)
Definition chain_search (obs : gmap Z (OBEntry T)) (head : option Z) k
    : option (option Z * option Z) :=
  match head with
  | None => Some (None, None)
  | Some h =>
      he ← obs !! h;
      let cmpr := ob_index_compare_block_key k (ob_bkey he) in
      if cmpr =? 0 then Some (Some h, None)
      else if cmpr <? 0 then Some (None, None)
      else '(r, pprev) ← chain_walk (S (size obs)) obs k h; Some (r, Some pprev)
  end.

(** The value is the entry ([None]: [NULL]) and [*pprev]. *)
Definition get_ob_entry_ex k (create_flag : bool) : IM T A (option Z * option Z) :=
  ix ← iget;
  let b := bucket_index (ix_htable ix) k in
  let bucket := ht_buckets (ix_htable ix) !! b in
  '(ob, pprev) ← (λ ix, r ← chain_search (ix_obs ix) bucket k; Some (r, ix));
  match ob with
  | Some p => mret (Some p, pprev)
  | None =>
      if negb create_flag then mret (None, pprev) else
      ok ← iworld alloc_ok;
      if negb (match ok with inr b => b | inl _ => false end) then mret (None, pprev) else
      ok ← iworld alloc_ok;  (** [uniq_skiplist_new] *)
      if negb (match ok with inr b => b | inl _ => false end) then mret (None, pprev) else
      ix ← iget;
      let p := ix_next_ob ix in
      next ← match pprev with
             | None => mret bucket
             | Some q => qe ← deref q; mret (ob_next qe)
             end;
      imod (λ ix, mkIndex (ix_htable ix)
        (<[p := mkOBEntry k 0 uniq_skiplist_new next]> (ix_obs ix)) (p + 1) (ix_world ix));;
      match pprev with
      | None => imod (λ ix, set_buckets (<[b := p]> (ht_buckets (ix_htable ix))) ix)
      | Some q => qe ← deref q; store q (ob_set_next (Some p) qe)
      end;;
      mret (Some p, pprev)
  end.

(** [ob_index_get_ob_entry_ex]. *)
Definition ob_index_get_ob_entry_ex k : IM T A (option Z) :=
  '(ob, _) ← get_ob_entry_ex k false; mret ob.

(** [ob_index_reclaim_lock]. *)
Definition ob_index_reclaim_lock k : IM T A (option Z) :=
  '(ob, _) ← get_ob_entry_ex k false;
  match ob with
  | Some p => e ← deref p; store p (ob_set_count (ob_reclaiming_count e + 1) e)
  | None => mret tt
  end;;
  mret ob.

(** [ob_index_reclaim_unlock]: the value tells whether the waiters are woken. *)
Definition ob_index_reclaim_unlock p : IM T A bool :=
  e ← deref p;
  let n := ob_reclaiming_count e - 1 in
  store p (ob_set_count n e);;
  mret (n =? 0).

(** [ob_index_alloc_slice_ex]: the new slice's address and its [ob]. *)
Definition ob_index_alloc_slice_ex k (init_refer : Z) : IM T A (option (Z * Z)) :=
  '(ob, _) ← get_ob_entry_ex k true;
  match ob with
  | None => mret None
  | Some p =>
      ok ← iworld alloc_ok;
      if negb (match ok with inr b => b | inl _ => false end) then mret None else
      r ← iworld fresh_id;
      match r with
      | inl _ => mret None
      | inr id =>
          (if 0 <? init_refer
           then iworld (λ w, (tt, ref_add id init_refer w)) else mret tt);;
          mret (Some (id, p))
      end
  end.

(** ** The operations on the slices of a block *)

(** Run an algorithm of [ObSlices.v] on the slices of an entry. *)
Definition on_slices {B} p (m : M (T * World A) B) : IM T A (Z + B) :=
  e ← deref p;
  ix ← iget;
  let '(r, (t, w)) := m (ob_slices e, ix_world ix) in
  store p (ob_set_slices t e);;
  imod (set_world w);;
  mret r.

(** [CHECK_AND_WAIT_RECLAIM_DONE]: does the caller have to wait? *)
Definition must_wait p (is_reclaim : bool) : IM T A bool :=
  e ← deref p; mret (negb is_reclaim && (0 <? ob_reclaiming_count e)).

(** The outcome of an operation that may wait: it waits (with the lock released), or
    it is done with [result]. *)
Inductive Outcome (B : Type) := Waits | Done (result : Z + B).
#[global] Arguments Waits {B}.
#[global] Arguments Done {B}.

(** [*sn = __sync_add_and_fetch(&SLICE_BINLOG_SN, 1)] if [sn] is given. *)
Definition next_sn (sn : bool) : IM T A (option Z) :=
  if sn then iworld (λ w, (Some (w_sn w + 1),
    mkWorld (w_mem w) (w_next w) (w_refs w) (w_acct w) (w_sn w + 1)))
  else mret None.

Definition get_flags : IM T A OBFlags := ix ← iget; mret (ht_flags (ix_htable ix)).

(** [ob_index_add_slice_ex]: the value is [( *inc_alloc, *sn)]. *)
Definition ob_index_add_slice_ex (slice : OBSliceEntry) (sn is_reclaim : bool)
    : IM T A (Outcome (Z * option Z)) :=
  wait ← must_wait (se_ob slice) is_reclaim;
  if wait : bool then mret Waits else
  f ← get_flags;
  r ← on_slices (se_ob slice) (add_slice f slice);
  match r with
  | inl err => mret (Done (inl err))
  | inr inc =>
      iworld (λ w, (tt, ref_add (se_id slice) 1 w));;
      n ← next_sn sn;
      mret (Done (inr (inc, n)))
  end.

(** [ob_index_add_slice_by_binlog]. *)
Definition ob_index_add_slice_by_binlog (slice : OBSliceEntry) : IM T A (Z + Z) :=
  f ← get_flags; on_slices (se_ob slice) (add_slice f slice).

(** [uniq_skiplist_free] calls the free function for every element. *)
Definition uniq_skiplist_free (t : T) (w : World A) : World A :=
  foldl (λ w s, slice_free_func s w) w (sl_level0 t).

(** [OB_INDEX_DELETE_OB_ENTRY]. *)
Definition OB_INDEX_DELETE_OB_ENTRY (b p : Z) (previous : option Z) : IM T A unit :=
  e ← deref p;
  match previous with
  | None => imod (λ ix, set_buckets (match ob_next e with
                                     | Some n => <[b := n]> (ht_buckets (ix_htable ix))
                                     | None => delete b (ht_buckets (ix_htable ix))
                                     end) ix)
  | Some q => qe ← deref q; store q (ob_set_next (ob_next e) qe)
  end;;
  iworld (λ w, (tt, uniq_skiplist_free (ob_slices e) w));;
  imod (λ ix, set_obs (delete p (ix_obs ix)) ix).

(** [ob_index_delete_slices_ex] from [CHECK_AND_WAIT_RECLAIM_DONE] on, with the
    pointers found before; a thread that waited comes back here. *)
Definition delete_slices_locked (bs_key : FSBlockSliceKeyInfo) (p : Z) (previous : option Z)
    (sn is_reclaim : bool) : IM T A (Outcome (Z * option Z)) :=
  wait ← must_wait p is_reclaim;
  if wait : bool then mret Waits else
  f ← get_flags;
  r ← on_slices p (delete_slices f bs_key);
  match r with
  | inl err => mret (Done (inl err))
  | inr (_, dec) =>
      e ← deref p;
      ix ← iget;
      (if uniq_skiplist_empty (ob_slices e)
       then OB_INDEX_DELETE_OB_ENTRY (bucket_index (ix_htable ix) (bs_block bs_key)) p previous
       else mret tt);;
      n ← next_sn sn;
      mret (Done (inr (dec, n)))
  end.

(** [ob_index_delete_slices_ex]: the value is [( *dec_alloc, *sn)]. *)
Definition ob_index_delete_slices_ex (bs_key : FSBlockSliceKeyInfo) (sn is_reclaim : bool)
    : IM T A (Outcome (Z * option Z)) :=
  '(ob, previous) ← get_ob_entry_ex (bs_block bs_key) false;
  match ob with
  | None => mret (Done (inl ENOENT))
  | Some p => delete_slices_locked bs_key p previous sn is_reclaim
  end.

(** [ob_index_delete_block_ex] from [CHECK_AND_WAIT_RECLAIM_DONE] on. *)
Definition delete_block_locked k (p : Z) (previous : option Z) (sn is_reclaim : bool)
    : IM T A (Outcome (Z * option Z)) :=
  wait ← must_wait p is_reclaim;
  if wait : bool then mret Waits else
  f ← get_flags;
  e ← deref p;
  let slices := sl_level0 (ob_slices e) in
  let dec_alloc := sumZ slen slices in
  iworld (λ w, (tt, if modify_sallocator f
    then foldl (λ w s, set_acct (acct_delete_slice (w_acct w) s (modify_used_space f)).2 w) w slices
    else w));;
  ix ← iget;
  OB_INDEX_DELETE_OB_ENTRY (bucket_index (ix_htable ix) k) p previous;;
  if 0 <? dec_alloc then
    n ← next_sn sn;
    mret (Done (inr (dec_alloc, n)))
  else mret (Done (inl ENOENT)).

(** [ob_index_delete_block_ex]. *)
Definition ob_index_delete_block_ex k (sn is_reclaim : bool) : IM T A (Outcome (Z * option Z)) :=
  '(ob, previous) ← get_ob_entry_ex k false;
  match ob with
  | None => mret (Done (inl ENOENT))
  | Some p => delete_block_locked k p previous sn is_reclaim
  end.

(** [ob_index_get_slices_ex] from [CHECK_AND_WAIT_RECLAIM_DONE] on, with the release
    of the array when it fails. *)
Definition get_slices_locked (bs_key : FSBlockSliceKeyInfo) (p : Z) (sarray : SlicePtrArray)
    (is_reclaim : bool) : IM T A (Outcome unit * SlicePtrArray) :=
  wait ← must_wait p is_reclaim;
  if wait : bool then mret (Waits, sarray) else
  e ← deref p;
  '(r, arr) ← iworld (λ w, let '(r, (arr, w')) := get_slices (ob_slices e) bs_key (sarray, w) in
                           ((r, arr), w'));
  match r with
  | inl err =>
      if 0 <? sa_count arr then
        arr' ← iworld (free_slices arr);
        mret (Done (inl err), arr')
      else mret (Done (inl err), arr)
  | inr _ => mret (Done (inr tt), arr)
  end.

(** [ob_index_get_slices_ex]. *)
Definition ob_index_get_slices_ex (bs_key : FSBlockSliceKeyInfo) (sarray : SlicePtrArray)
    (is_reclaim : bool) : IM T A (Outcome unit * SlicePtrArray) :=
  let sarray := mkSliceArray (sa_alloc sarray) [] in
  '(ob, _) ← get_ob_entry_ex (bs_block bs_key) false;
  match ob with
  | None => mret (Done (inl ENOENT), sarray)
  | Some p => get_slices_locked bs_key p sarray is_reclaim
  end.

(** [ob_index_delete_slices_by_binlog] and [ob_index_delete_block_by_binlog]. *)
Definition ob_index_delete_slices_by_binlog (bs_key : FSBlockSliceKeyInfo)
    : IM T A (Outcome (Z * option Z)) := ob_index_delete_slices_ex bs_key false false.
Definition ob_index_delete_block_by_binlog k : IM T A (Outcome (Z * option Z)) :=
  ob_index_delete_block_ex k false false.

(** ** Setting up and tearing down *)

(** [ob_index_init_htable_ex]; [fc_ceil_prime] is libfastcommon's. *)
Definition ob_index_init_htable_ex (fc_ceil_prime : Z → Z) (capacity : Z) : OBHashtable :=
  mkHtable (fc_ceil_prime capacity) ∅ (mkOBFlags false false).

(** The chain of a bucket, freed entry by entry. *)
Fixpoint free_chain (fuel : nat) (p : option Z) : IM T A unit :=
  match p with
  | None => mret tt
  | Some p =>
      match fuel with
      | O => λ _, None
      | S fuel =>
          e ← deref p;
          iworld (λ w, (tt, uniq_skiplist_free (ob_slices e) w));;
          imod (λ ix, set_obs (delete p (ix_obs ix)) ix);;
          free_chain fuel (ob_next e)
      end
  end.

(** [ob_index_destroy_htable]. *)
Fixpoint destroy_buckets (n : nat) (b : Z) : IM T A unit :=
  match n with
  | O => mret tt
  | S n =>
      ix ← iget;
      free_chain (S (size (ix_obs ix))) (ht_buckets (ix_htable ix) !! b);;
      destroy_buckets n (b + 1)
  end.
Definition ob_index_destroy_htable : IM T A unit :=
  ix ← iget;
  destroy_buckets (Z.to_nat (ht_capacity (ix_htable ix))) 0;;
  imod (set_buckets ∅).
End Index.
