(* ===== verification/ObIndexSpec.v ===== *)
(** * What the index operations leave alone

    An index operation changes the accounting state only by adding and deleting slices, and
    never the flags of the hash table: structural facts, proved along the monads, that carry
    properties of the allocator through the operations of the index. *)
From S2P Require Import Prelude Types Skiplist ObSlices ObIndex.

Section Frame.
Context {T A : Type} `{!UniqSkiplist OBSliceEntry T} `{!SliceAccount A}.
Implicit Types (w : World A) (ix : Index T A).

(** A sequence of slices entering and leaving the accounting. *)
Inductive acct_steps : A → A → Prop :=
  | acct_refl a : acct_steps a a
  | acct_add a s f a' : acct_steps (acct_add_slice a s f).2 a' → acct_steps a a'
  | acct_delete a s f a' : acct_steps (acct_delete_slice a s f).2 a' → acct_steps a a'.

#[export] Instance acct_steps_preorder : PreOrder acct_steps.
Proof.
  split; [intros a; apply acct_refl|]. intros a b c Hab. revert c.
  induction Hab as [a|a s f b H IH|a s f b H IH]; intros c Hc; [done|..].
  - eapply acct_add, IH, Hc.
  - eapply acct_delete, IH, Hc.
Qed.

(** ** The algorithms on one block *)
Definition acct_same {B} (m : M (World A) B) : Prop := ∀ w, w_acct (m w).2 = w_acct w.
Lemma acct_same_bind {B C} (m : M (World A) B) (k : B → M (World A) C) :
  acct_same m → (∀ b, acct_same (k b)) → acct_same (m ≫= k).
Proof using.
  intros Hm Hk w. unfold mbind, M_bind. specialize (Hm w).
  destruct (m w) as [[e|b] w']; [done|]. simpl in Hm. by rewrite Hk.
Qed.
Lemma acct_same_ret {B} (b : B) : acct_same (mret b).
Proof using. done. Qed.
Lemma acct_same_fail {B} e : acct_same (mfail (A := B) e).
Proof using. done. Qed.
Lemma acct_same_alloc : acct_same alloc_ok.
Proof using. intros w. unfold alloc_ok. by destruct (w_mem w). Qed.
Lemma acct_same_fresh : acct_same fresh_id.
Proof using. done. Qed.
Lemma acct_same_ref id n : acct_same (mmodify (ref_add id n)).
Proof using. done. Qed.
Create HintDb frame.
Create HintDb frames.
Hint Resolve acct_same_ret acct_same_fail acct_same_alloc acct_same_fresh acct_same_ref : frame.
Ltac frame := repeat (first
  [ solve [auto with frame] | apply acct_same_bind; [|intros ?] | progress cbv zeta
  | match goal with |- acct_same (if ?b then _ else _) => destruct b end
  | match goal with |- acct_same (let '(_, _) := ?x in _) => destruct x end
  | match goal with |- acct_same (match ?x with _ => _ end) => destruct x end ]).

Lemma acct_same_dup s o l : acct_same (slice_dup s o l).
Proof using. unfold slice_dup. frame. Qed.
Lemma acct_same_smart arr s : acct_same (add_to_slice_ptr_smart_array arr s).
Proof using. unfold add_to_slice_ptr_smart_array. frame. Qed.
Hint Resolve acct_same_dup acct_same_smart : frame.
Lemma acct_same_dup_smart s o l arr : acct_same (dup_slice_to_smart_array s o l arr).
Proof using. unfold dup_slice_to_smart_array. frame. Qed.
Hint Resolve acct_same_dup_smart : frame.
Lemma acct_same_previous s p : acct_same (add_slice_previous s p).
Proof using. unfold add_slice_previous. frame. Qed.
Lemma acct_same_delete_previous ss p : acct_same (delete_slices_previous ss p).
Proof using. unfold delete_slices_previous. frame. Qed.
Lemma acct_same_loop e nodes sc : acct_same (add_slice_loop e nodes sc).
Proof using. revert sc. induction nodes as [|x nodes IH]; intros sc; simpl; frame. Qed.
Lemma acct_same_delete_loop e nodes sc : acct_same (delete_slices_loop e nodes sc).
Proof using. revert sc. induction nodes as [|x nodes IH]; intros sc; simpl; frame. Qed.

Definition acct_goes {B} (m : M (T * World A) B) : Prop :=
  ∀ tw, acct_steps (w_acct tw.2) (w_acct (m tw).2.2).
Lemma acct_goes_bind {B C} (m : M (T * World A) B) (k : B → M (T * World A) C) :
  acct_goes m → (∀ b, acct_goes (k b)) → acct_goes (m ≫= k).
Proof using.
  intros Hm Hk tw. unfold mbind, M_bind. specialize (Hm tw).
  destruct (m tw) as [[e|b] tw']; [done|]. etransitivity; [exact Hm|apply Hk].
Qed.
Lemma acct_goes_world {B} (m : M (World A) B) : acct_same m → acct_goes (on_world m).
Proof using.
  intros Hm [t w]. unfold on_world. simpl. specialize (Hm w).
  destruct (m w) as [r w']. simpl in *. by rewrite Hm.
Qed.
Lemma acct_goes_here {B} (m : M (T * World A) B) : (∀ tw, (m tw).2 = tw) → acct_goes m.
Proof using. intros Hm tw. by rewrite Hm. Qed.
Lemma free_acct s w : w_acct (slice_free_func s w) = w_acct w.
Proof using. unfold slice_free_func. by case_match. Qed.
Lemma do_delete_goes f s tw : acct_steps (w_acct tw.2) (w_acct (do_delete_slice f s tw).2.2).
Proof using.
  destruct tw as [t w]. unfold do_delete_slice. simpl.
  set (w1 := if modify_sallocator f then _ else w).
  assert (H1 : acct_steps (w_acct w) (w_acct w1)).
  { unfold w1. destruct (modify_sallocator f); [|done]. eapply acct_delete. apply acct_refl. }
  destruct (uniq_skiplist_delete t s) as [r t'].
  destruct (uniq_skiplist_find t s); simpl; by rewrite ?free_acct.
Qed.
Lemma do_add_goes f s tw : acct_steps (w_acct tw.2) (w_acct (do_add_slice f s tw).2.2).
Proof using.
  destruct tw as [t w]. unfold do_add_slice. simpl. destruct (uniq_skiplist_insert t s) as [r t'].
  destruct (negb (r =? 0)); [done|]. destruct (modify_sallocator f); [|done].
  destruct (acct_add_slice (w_acct w) s (modify_used_space f)) as [r' a'] eqn:E. simpl.
  eapply acct_add. rewrite E. apply acct_refl.
Qed.
Lemma del_all_goes f l tw : acct_steps (w_acct tw.2) (w_acct (del_all f l tw).2).
Proof using.
  revert tw. induction l as [|s l IH]; intros tw; [done|]. simpl.
  etransitivity; [apply (do_delete_goes f s)|apply IH].
Qed.
Lemma add_all_goes f l tw : acct_steps (w_acct tw.2) (w_acct (add_all f l tw).2).
Proof using.
  revert tw. induction l as [|s l IH]; intros tw; [done|]. simpl.
  etransitivity; [apply (do_add_goes f s)|apply IH].
Qed.
Lemma acct_goes_modify g : (∀ tw, acct_steps (w_acct tw.2) (w_acct (g tw).2)) → acct_goes (mmodify g).
Proof using. intros H tw. apply H. Qed.

(** The end of [add_slice]: enter the slice itself. *)
Lemma enter_goes f s (n : Z) :
  acct_goes (tw ← mget; let '(r, tw') := do_add_slice f s tw in mput tw';; errno r;; mret n).
Proof using.
  intros tw. unfold mget, mbind, M_bind. pose proof (do_add_goes f s tw) as H.
  destruct (do_add_slice f s tw) as [r tw']. simpl in *. unfold errno. by destruct (r =? 0).
Qed.
Lemma add_slice_goes f s : acct_goes (add_slice (T := T) f s).
Proof using.
  unfold add_slice. apply acct_goes_bind; [by apply acct_goes_here|]. intros [t _]. cbv zeta.
  assert (H : ∀ previous nodes, acct_goes (
    sc0 ← on_world (add_slice_previous s previous);
    sc ← on_world (add_slice_loop (send s) nodes sc0);
    mmodify (del_all f (sa_slices (sc_del sc)));;
    mmodify (add_all (T := T) f (sa_slices (sc_add sc)));;
    tw ← mget;
    let '(r, tw') := do_add_slice f s tw in
    mput tw';; errno r;; mret (if sc_start sc <? send s
                 then sc_alloc sc + (send s - sc_start sc) else sc_alloc sc))).
  { intros previous nodes. apply acct_goes_bind; [apply acct_goes_world, acct_same_previous|].
    intros sc0. apply acct_goes_bind; [apply acct_goes_world, acct_same_loop|]. intros sc.
    apply acct_goes_bind; [apply acct_goes_modify, del_all_goes|]. intros _.
    apply acct_goes_bind; [apply acct_goes_modify, add_all_goes|]. intros _. apply enter_goes. }
  destruct (uniq_skiplist_find_ge_node t s) as [i|], (prev_data t _) as [p|];
    first [apply H|apply enter_goes].
Qed.
Lemma delete_slices_goes f bs : acct_goes (delete_slices (T := T) f bs).
Proof using.
  unfold delete_slices. apply acct_goes_bind; [by apply acct_goes_here|]. intros [t _]. cbv zeta.
  assert (H : ∀ ss e previous nodes, acct_goes (
    sc0 ← on_world (delete_slices_previous ss previous);
    sc ← on_world (delete_slices_loop e nodes sc0);
    if sa_count (sc_del sc) =? 0 then mfail ENOENT else
    mmodify (del_all f (sa_slices (sc_del sc)));;
    mmodify (add_all (T := T) f (sa_slices (sc_add sc)));;
    mret (sa_count (sc_del sc), sc_alloc sc))).
  { intros ss e previous nodes.
    apply acct_goes_bind; [apply acct_goes_world, acct_same_delete_previous|].
    intros sc0. apply acct_goes_bind; [apply acct_goes_world, acct_same_delete_loop|]. intros sc.
    case_match; [by apply acct_goes_here|].
    apply acct_goes_bind; [apply acct_goes_modify, del_all_goes|]. intros _.
    apply acct_goes_bind; [apply acct_goes_modify, add_all_goes|]. intros _. by apply acct_goes_here. }
  destruct (uniq_skiplist_find_ge_node t _) as [i|], (prev_data t _) as [p|];
    first [apply H|by apply acct_goes_here].
Qed.

(** ** The operations of the index *)
Record framed ix ix' : Prop := {
  fr_acct : acct_steps (w_acct (ix_world ix)) (w_acct (ix_world ix'));
  fr_flags : ht_flags (ix_htable ix') = ht_flags (ix_htable ix);
  fr_capacity : ht_capacity (ix_htable ix') = ht_capacity (ix_htable ix);
}.
#[export] Instance framed_preorder : PreOrder framed.
Proof.
  split; [by split|]. intros ix1 ix2 ix3 [H1 F1 C1] [H2 F2 C2].
  split; [by etransitivity|congruence|congruence].
Qed.
Definition frames {B} (m : IM T A B) : Prop := ∀ ix b ix', m ix = Some (b, ix') → framed ix ix'.

Lemma frames_bind {B C} (m : IM T A B) (k : B → IM T A C) :
  frames m → (∀ b, frames (k b)) → frames (m ≫= k).
Proof using.
  intros Hm Hk ix c ix'. unfold mbind, IM_bind. destruct (m ix) as [[b ix1]|] eqn:E; [|done].
  intros E2. etransitivity; [by eapply Hm|by eapply Hk].
Qed.
Lemma frames_ret {B} (b : B) : frames (mret b).
Proof using. by intros ix b' ix' [= _ <-]. Qed.
Lemma frames_get : frames (iget (T := T) (A := A)).
Proof using. by intros ix b ix' [= _ <-]. Qed.
Lemma frames_flags : frames (get_flags (T := T) (A := A)).
Proof using. by intros ix b ix' [= _ <-]. Qed.
Lemma frames_mod g : (∀ ix, framed ix (g ix)) → frames (imod g).
Proof using. intros H ix b ix' [= _ <-]. apply H. Qed.
Lemma frames_deref p : frames (deref (T := T) (A := A) p).
Proof using. intros ix b ix'. unfold deref. destruct (ix_obs ix !! p); by intros [= _ <-]. Qed.
Lemma frames_store p e : frames (store (T := T) (A := A) p e).
Proof using. apply frames_bind; [apply frames_deref|]. intros _. apply frames_mod. by split. Qed.
Lemma frames_world {B} (m : World A → B * World A) :
  (∀ w, acct_steps (w_acct w) (w_acct (m w).2)) → frames (iworld (T := T) m).
Proof using.
  intros H ix b ix'. unfold iworld. specialize (H (ix_world ix)).
  destruct (m (ix_world ix)) as [b' w]. intros [= _ <-]. by split.
Qed.
Lemma frames_alloc : frames (iworld (T := T) (A := A) alloc_ok).
Proof using. apply frames_world. intros w. by rewrite acct_same_alloc. Qed.
Lemma frames_fresh : frames (iworld (T := T) (A := A) fresh_id).
Proof using. by apply frames_world. Qed.
Lemma frames_ref id n : frames (iworld (T := T) (A := A) (λ w, (tt, ref_add id n w))).
Proof using. by apply frames_world. Qed.
Lemma frames_on_slices {B} p (m : M (T * World A) B) : acct_goes m → frames (on_slices p m).
Proof using.
  intros Hm. unfold on_slices. apply frames_bind; [apply frames_deref|]. intros e ix b ix'.
  unfold iget, mbind, IM_bind. specialize (Hm (ob_slices e, ix_world ix)).
  destruct (m (ob_slices e, ix_world ix)) as [r [t w]]. simpl in Hm.
  unfold store, deref, imod, mbind, IM_bind, mret, IM_ret.
  destruct (ix_obs ix !! p); simpl; [|done]. intros [= _ <-]. by split.
Qed.
Lemma frames_next_sn sn : frames (next_sn (T := T) (A := A) sn).
Proof using. destruct sn; [by apply frames_world|apply frames_ret]. Qed.
Lemma frames_wait p r : frames (must_wait (T := T) (A := A) p r).
Proof using. apply frames_bind; [apply frames_deref|intros e; apply frames_ret]. Qed.
Lemma frames_search (f : Index T A → option (option Z * option Z)) :
  frames (λ ix, r ← f ix; Some (r, ix)).
Proof using. intros ix b ix'. simpl. destruct (f ix); by intros [= _ <-]. Qed.

Lemma frames_buckets b : frames (imod (T := T) (A := A) (set_buckets b)).
Proof using. apply frames_mod. by split. Qed.
Lemma frames_free_all t : frames (iworld (T := T) (A := A) (λ w, (tt, uniq_skiplist_free t w))).
Proof using.
  apply frames_world. intros w. simpl. unfold uniq_skiplist_free. revert w.
  induction (sl_level0 t) as [|s l IH]; intros w; [done|]. simpl. by rewrite <- IH, free_acct.
Qed.
Hint Resolve frames_ret frames_get frames_flags frames_deref frames_store frames_alloc frames_fresh
  frames_ref frames_on_slices add_slice_goes delete_slices_goes frames_next_sn frames_wait frames_buckets frames_free_all : frames.
Ltac frames := repeat (first
  [ solve [auto with frames] | apply frames_bind; [|intros ?] | progress cbv zeta
  | match goal with |- frames (imod _) => apply frames_mod; by split end
  | match goal with |- frames (λ _, None) => done end
  | match goal with |- frames (if ?b then _ else _) => destruct b end
  | match goal with |- frames (let '(_, _) := ?x in _) => destruct x end
  | match goal with |- frames (match ?x with _ => _ end) => destruct x end ]).

Lemma frames_get_ob_entry k c : frames (get_ob_entry_ex (T := T) (A := A) k c).
Proof using.
  unfold get_ob_entry_ex. apply frames_bind; [auto with frames|]. intros ix. cbv zeta.
  apply frames_bind; [apply frames_search|]. intros [ob pprev]. frames.
Qed.
Hint Resolve frames_get_ob_entry : frames.
Lemma frames_alloc_slice k n : frames (ob_index_alloc_slice_ex (T := T) (A := A) k n).
Proof using. unfold ob_index_alloc_slice_ex. frames. Qed.
Lemma frames_add_slice s sn r : frames (ob_index_add_slice_ex (T := T) (A := A) s sn r).
Proof using. unfold ob_index_add_slice_ex. frames. Qed.
Lemma frames_delete_entry b p prev : frames (OB_INDEX_DELETE_OB_ENTRY (T := T) (A := A) b p prev).
Proof using. unfold OB_INDEX_DELETE_OB_ENTRY. frames. Qed.
Hint Resolve frames_delete_entry : frames.
Lemma frames_delete_slices bs sn r : frames (ob_index_delete_slices_ex (T := T) (A := A) bs sn r).
Proof using.
  unfold ob_index_delete_slices_ex, delete_slices_locked. frames.
Qed.
Lemma drop_all_goes f (l : list OBSliceEntry) w : acct_steps (w_acct w)
  (w_acct (foldl (λ w s, set_acct (acct_delete_slice (w_acct w) s f).2 w) w l)).
Proof using.
  revert w. induction l as [|s l IH]; intros w; [done|]. simpl. etransitivity; [|apply IH].
  simpl. eapply acct_delete, acct_refl.
Qed.
Lemma frames_delete_block k sn r : frames (ob_index_delete_block_ex (T := T) (A := A) k sn r).
Proof using.
  unfold ob_index_delete_block_ex, delete_block_locked. frames.
  apply frames_world. intros w. simpl. case_match; [|done]. apply drop_all_goes.
Qed.

Definition garr_same {B} (m : GM (A := A) B) : Prop := ∀ aw, w_acct (m aw).2.2 = w_acct aw.2.
Lemma garr_bind {B C} (m : GM (A := A) B) (k : B → GM C) :
  garr_same m → (∀ b, garr_same (k b)) → garr_same (m ≫= k).
Proof using.
  intros Hm Hk aw. unfold mbind, M_bind. specialize (Hm aw).
  destruct (m aw) as [[e|b] aw']; [done|]. simpl in Hm. by rewrite Hk.
Qed.
Lemma garr_world {B} (m : M (World A) B) : acct_same m → garr_same (on_world_arr m).
Proof using.
  intros Hm [arr w]. unfold on_world_arr. simpl. specialize (Hm w). by destruct (m w).
Qed.
Lemma garr_push s : garr_same (push_array s).
Proof using.
  intros [arr w]. unfold push_array. simpl.
  assert (H : acct_same (add_to_slice_ptr_array arr s)) by (unfold add_to_slice_ptr_array; frame).
  specialize (H w). by destruct (add_to_slice_ptr_array arr s w) as [[e|b] w'].
Qed.
Lemma garr_dup s o l : garr_same (dup_slice_to_array s o l).
Proof using. apply garr_bind; [apply garr_world, acct_same_dup|intros; apply garr_push]. Qed.
Lemma garr_get_slices t bs : garr_same (get_slices (T := T) t bs).
Proof using.
  unfold get_slices. cbv zeta. apply garr_bind.
  { destruct (prev_data t _) as [p|]; [|done]. case_match; [apply garr_dup|done]. }
  intros _. apply garr_bind.
  { generalize (nodes_of t (uniq_skiplist_find_ge_node t (target_of (bs_slice bs)))).
    intros nodes. induction nodes as [|s nodes IH]; [done|]. cbn [get_slices_loop].
    case_match; [done|]. apply garr_bind; [|done]. case_match; [apply garr_dup|].
    apply garr_bind; [by apply garr_world|intros; apply garr_push]. }
  intros _. apply garr_bind; [done|]. intros [arr w]. by case_match.
Qed.
Lemma free_slices_acct arr w : w_acct (free_slices arr w).2 = w_acct w.
Proof using.
  unfold free_slices. simpl. revert w. induction (sa_slices arr) as [|s l IH]; intros w; [done|].
  simpl. unfold ob_index_free_slice in *. by rewrite IH, free_acct.
Qed.
Lemma frames_get_slices bs arr r : frames (ob_index_get_slices_ex (T := T) (A := A) bs arr r).
Proof using.
  unfold ob_index_get_slices_ex, get_slices_locked. cbv zeta.
  apply frames_bind; [auto with frames|]. intros [[p|] x]; [|auto with frames].
  apply frames_bind; [auto with frames|]. intros [|]; [auto with frames|].
  apply frames_bind; [auto with frames|]. intros e. apply frames_bind.
  - apply frames_world. intros w. pose proof (garr_get_slices (ob_slices e) bs (mkSliceArray (sa_alloc arr) [], w)) as H.
    destruct (get_slices _ _ _) as [r0 [arr' w']]. simpl in *. by rewrite H.
  - intros [r0 arr']. frames. apply frames_world. intros w. by rewrite free_slices_acct.
Qed.
End Frame.

(** ** The chains of the object block index

    Well-formed indexes: every bucket is a chain of live entries, ordered by block
    key, of the keys that hash to it, and every live entry is in its chain; and what
    the search and the two link updates (insertion, removal) do to such chains. *)

Section Chains.
Context {T A : Type}.
Implicit Types (ix : Index T A) (k : FSBlockKey) (p q : Z) (e : OBEntry T)
  (obs : gmap Z (OBEntry T)) (l pre post : list (Z * OBEntry T)).

(** Following [next] from [h] visits the entries [l] and arrives at [t]. *)
Fixpoint is_seg obs (h : option Z) l (t : option Z) : Prop :=
  match l with
  | [] => h = t
  | (p, e) :: l' => h = Some p ∧ obs !! p = Some e ∧ is_seg obs (ob_next e) l' t
  end.

Definition key_lt (x y : Z * OBEntry T) : Prop := bkey_lt (ob_bkey x.2) (ob_bkey y.2).

Definition last_ptr pre : option Z := fst <$> last pre.

(** The chain of bucket [b]. *)
Record bucket_chain ix (b : Z) l : Prop := {
  bc_seg : is_seg (ix_obs ix) (ht_buckets (ix_htable ix) !! b) l None;
  bc_sorted : StronglySorted key_lt l;
  bc_hash : ∀ p e, (p, e) ∈ l → bucket_index (ix_htable ix) (ob_bkey e) = b;
}.

Record index_wf ix : Prop := {
  iw_chain : ∀ b, ∃ l, bucket_chain ix b l;
  iw_all : ∀ p e, ix_obs ix !! p = Some e →
    ∃ l, bucket_chain ix (bucket_index (ix_htable ix) (ob_bkey e)) l ∧ (p, e) ∈ l;
  iw_keys : ∀ p e, ix_obs ix !! p = Some e → key_ok (ob_bkey e);
  iw_fresh : ∀ p e, ix_obs ix !! p = Some e → p < ix_next_ob ix;
}.

(** ** Segments *)

Lemma is_seg_app obs h l1 l2 t :
  is_seg obs h (l1 ++ l2) t ↔ ∃ m, is_seg obs h l1 m ∧ is_seg obs m l2 t.
Proof using.
  revert h. induction l1 as [|[p e] l1 IH]; intros h; simpl.
  - split; [eauto|]. by intros (m & -> & ?).
  - rewrite IH. split.
    + intros (-> & He & m & H1 & H2). eauto 10.
    + intros (m & (-> & He & H1) & H2). eauto 10.
Qed.
Lemma is_seg_elem obs h l t p e : is_seg obs h l t → (p, e) ∈ l → obs !! p = Some e.
Proof using.
  revert h. induction l as [|[q f] l IH]; intros h; simpl; [by intros _ ?%elem_of_nil|].
  intros (_ & He & Hs) [[= -> ->]|Hl]%elem_of_cons; [done|by eapply IH].
Qed.
Lemma is_seg_frame obs obs' h l t :
  (∀ p e, (p, e) ∈ l → obs' !! p = Some e) → is_seg obs h l t → is_seg obs' h l t.
Proof using.
  revert h. induction l as [|[p e] l IH]; intros h Hin; simpl; [done|].
  intros (-> & _ & Hs). split_and!; [done|apply Hin; by left|].
  apply IH; [|done]. intros q f Hq. apply Hin. by right.
Qed.
Lemma is_seg_fun obs h l1 l2 : is_seg obs h l1 None → is_seg obs h l2 None → l1 = l2.
Proof using.
  revert h l2. induction l1 as [|[p e] l1 IH]; intros h [|[q f] l2]; simpl.
  - done.
  - intros -> (? & _). done.
  - by intros (-> & _) ?.
  - intros (-> & He & H1) ([= <-] & Hf & H2). rewrite He in Hf. injection Hf as <-.
    f_equal. by eapply IH.
Qed.

(** No entry is twice in a sorted chain. *)
Lemma seg_NoDup obs h l t : is_seg obs h l t → StronglySorted key_lt l → NoDup l.*1.
Proof using.
  intros Hs Hso. revert h Hs. induction Hso as [|[p e] l Hl IH Hx]; intros h Hs; simpl; constructor.
  - intros (x & -> & Hin)%list_elem_of_fmap. destruct x as [q f]. simpl in *.
    destruct Hs as (_ & He & Hs). pose proof (is_seg_elem _ _ _ _ _ _ Hs Hin) as Hf.
    rewrite He in Hf. injection Hf as ->. rewrite Forall_forall in Hx. specialize (Hx _ Hin).
    by apply bkey_lt_irrefl in Hx.
  - destruct Hs as (_ & _ & Hs). by eapply IH.
Qed.
Lemma NoDup_length_size obs h l t : is_seg obs h l t → NoDup l.*1 → (length l <= size obs)%nat.
Proof using.
  intros Hs Hnd. rewrite <- (length_fmap fst), <- (size_list_to_set (C := gset Z) l.*1) by done.
  rewrite <- size_dom. apply subseteq_size. intros p. rewrite elem_of_list_to_set, elem_of_dom.
  intros (x & -> & Hin)%list_elem_of_fmap. destruct x as [q f]. simpl.
  eexists. by eapply is_seg_elem.
Qed.

Lemma bucket_chain_fun ix b l1 l2 : bucket_chain ix b l1 → bucket_chain ix b l2 → l1 = l2.
Proof using. intros [H1 _ _] [H2 _ _]. by eapply is_seg_fun. Qed.

(** ** The search *)

Lemma compare_key_cases k e :
  (ob_index_compare_block_key k (ob_bkey e) = 0 ∧ FS_BLOCK_KEY_EQUAL k (ob_bkey e) = true) ∨
  (ob_index_compare_block_key k (ob_bkey e) < 0 ∧ bkey_lt k (ob_bkey e)) ∨
  (0 < ob_index_compare_block_key k (ob_bkey e) ∧ bkey_lt (ob_bkey e) k).
Proof using.
  set (c := ob_index_compare_block_key k (ob_bkey e)).
  destruct (Z.lt_trichotomy c 0) as [H|[H|H]].
  - right. left. split; [done|]. by apply compare_block_key_neg.
  - left. split; [done|]. by apply compare_block_key_zero.
  - right. right. split; [done|]. apply compare_block_key_neg.
    rewrite compare_block_key_antisym. unfold c in H. lia.
Qed.

(** What a search in the chain [pre ++ post] for [k] finds. *)
Definition found k pre post (r : option Z) : Prop :=
  (∀ x, x ∈ pre → bkey_lt (ob_bkey x.2) k) ∧
  match r with
  | Some p => ∃ e rest, post = (p, e) :: rest ∧ ob_index_compare_block_key k (ob_bkey e) = 0
  | None => ∀ x, x ∈ post → bkey_lt k (ob_bkey x.2)
  end.

Lemma found_none_sorted k p e post : StronglySorted key_lt ((p, e) :: post) →
  bkey_lt k (ob_bkey e) → ∀ x, x ∈ (p, e) :: post → bkey_lt k (ob_bkey x.2).
Proof using.
  intros Hs Hk x [->|Hx]%elem_of_cons; [done|].
  apply StronglySorted_inv in Hs as [_ Hf]. rewrite Forall_forall in Hf.
  eapply bkey_lt_trans; [exact Hk|]. by apply (Hf x).
Qed.

Lemma chain_walk_spec fuel obs k p e l :
  obs !! p = Some e → is_seg obs (ob_next e) l None → StronglySorted key_lt l →
  (length l < fuel)%nat →
  ∃ pre post r, l = pre ++ post ∧ found k pre post r ∧
    chain_walk fuel obs k p = Some (r, default p (last_ptr pre)).
Proof using.
  revert p e l. induction fuel as [|fuel IH]; intros p e l Hp Hs Hso Hf; [lia|].
  simpl. rewrite Hp. simpl. destruct l as [|[q f] l]; simpl in Hs.
  - rewrite Hs. exists [], [], None. split_and!; [done| |done].
    split; [by intros x ?%elem_of_nil|by intros x ?%elem_of_nil].
  - destruct Hs as (-> & Hq & Hs). rewrite Hq. simpl.
    destruct (compare_key_cases k f) as [[E K]|[[E K]|[E K]]].
    + rewrite E. simpl. exists [], ((q, f) :: l), (Some q). split_and!; [done| |done].
      split; [by intros x ?%elem_of_nil|]. eauto.
    + destruct (Z.eqb_spec (ob_index_compare_block_key k (ob_bkey f)) 0); [lia|].
      destruct (Z.ltb_spec (ob_index_compare_block_key k (ob_bkey f)) 0); [|lia].
      exists [], ((q, f) :: l), None. split_and!; [done| |done].
      split; [by intros x ?%elem_of_nil|]. by apply found_none_sorted.
    + destruct (Z.eqb_spec (ob_index_compare_block_key k (ob_bkey f)) 0); [lia|].
      destruct (Z.ltb_spec (ob_index_compare_block_key k (ob_bkey f)) 0); [lia|].
      apply StronglySorted_inv in Hso as [Hso Hall].
      destruct (IH q f l Hq Hs Hso) as (pre & post & r & -> & [Hpre Hr] & Hw);
        [simpl in Hf; lia|].
      exists ((q, f) :: pre), post, r. split_and!; [done| |].
      * split; [|done]. intros x [->|Hx]%elem_of_cons; [done|by apply Hpre].
      * rewrite Hw. do 2 f_equal. unfold last_ptr. destruct pre as [|y pre]; [done|].
        rewrite last_cons_cons. destruct (last (y :: pre)) eqn:E2; [done|].
        by apply last_None in E2.
Qed.

Lemma chain_search_spec obs h k l :
  is_seg obs h l None → StronglySorted key_lt l →
  ∃ pre post r, l = pre ++ post ∧ found k pre post r ∧
    chain_search obs h k = Some (r, last_ptr pre).
Proof using.
  intros Hs Hso. pose proof (NoDup_length_size _ _ _ _ Hs (seg_NoDup _ _ _ _ Hs Hso)) as Hlen.
  unfold chain_search. remember (S (size obs)) as fuel eqn:Hfuel.
  destruct l as [|[p e] l]; simpl in Hs.
  { subst h. exists [], [], None. split_and!; [done| |done].
    split; [by intros x ?%elem_of_nil|by intros x ?%elem_of_nil]. }
  destruct Hs as (-> & Hp & Hs). rewrite Hp. simpl.
  destruct (compare_key_cases k e) as [[E K]|[[E K]|[E K]]].
  - rewrite E. simpl. exists [], ((p, e) :: l), (Some p). split_and!; [done| |done].
    split; [by intros x ?%elem_of_nil|]. eauto.
  - destruct (Z.eqb_spec (ob_index_compare_block_key k (ob_bkey e)) 0); [lia|].
    destruct (Z.ltb_spec (ob_index_compare_block_key k (ob_bkey e)) 0); [|lia].
    exists [], ((p, e) :: l), None. split_and!; [done| |done].
    split; [by intros x ?%elem_of_nil|]. by apply found_none_sorted.
  - destruct (Z.eqb_spec (ob_index_compare_block_key k (ob_bkey e)) 0); [lia|].
    destruct (Z.ltb_spec (ob_index_compare_block_key k (ob_bkey e)) 0); [lia|].
    apply StronglySorted_inv in Hso as [Hso _].
    destruct (chain_walk_spec fuel obs k p e l Hp Hs Hso)
      as (pre & post & r & -> & [Hpre Hr] & Hw); [simpl in Hlen; lia|].
    exists ((p, e) :: pre), post, r. split_and!; [done| |].
    + split; [|done]. intros x [->|Hx]%elem_of_cons; [done|by apply Hpre].
    + rewrite Hw. simpl. do 2 f_equal. unfold last_ptr. destruct pre as [|y pre]; [done|].
      rewrite last_cons_cons. destruct (last (y :: pre)) eqn:E2; [done|].
      by apply last_None in E2.
Qed.

(** ** Changing a link *)

(** The chain [pre] with the link after its last entry changed to [t]. *)
Fixpoint relink (t : option Z) pre : list (Z * OBEntry T) :=
  match pre with
  | [] => []
  | [(q, e)] => [(q, ob_set_next t e)]
  | x :: pre' => x :: relink t pre'
  end.

Definition core (e : OBEntry T) : FSBlockKey * Z * T :=
  (ob_bkey e, ob_reclaiming_count e, ob_slices e).
Definition cores l : list (Z * (FSBlockKey * Z * T)) := (λ x, (x.1, core x.2)) <$> l.

Lemma relink_cores t pre : cores (relink t pre) = cores pre.
Proof using.
  induction pre as [|[q e] [|y pre] IH]; [done|done|].
  change (relink t ((q, e) :: y :: pre)) with ((q, e) :: relink t (y :: pre)).
  unfold cores in *. rewrite !fmap_cons in *. by rewrite IH.
Qed.
Lemma relink_elem t pre p e : (p, e) ∈ pre → last_ptr pre ≠ Some p → (p, e) ∈ relink t pre.
Proof using.
  induction pre as [|[q f] [|y pre] IH].
  - done.
  - intros [= -> ->]%list_elem_of_singleton. by intros [].
  - change (relink t ((q, f) :: y :: pre)) with ((q, f) :: relink t (y :: pre)).
    unfold last_ptr. rewrite last_cons_cons. intros [->|H]%elem_of_cons Hl; [by left|].
    right. by apply IH.
Qed.
Lemma relink_last t pre q e : last pre = Some (q, e) → (q, ob_set_next t e) ∈ relink t pre.
Proof using.
  induction pre as [|[r f] [|y pre] IH]; [done| |].
  - intros [= -> ->]. by left.
  - rewrite last_cons_cons. intros H. right. by apply IH.
Qed.
Lemma relink_inv t pre p e : (p, e) ∈ relink t pre →
  ∃ f, (p, f) ∈ pre ∧ core f = core e ∧
    (last pre = Some (p, f) ∧ e = ob_set_next t f ∨ e = f).
Proof using.
  induction pre as [|[q f] [|y pre] IH]; [by intros ?%elem_of_nil| |].
  - intros [= -> ->]%list_elem_of_singleton. exists f. split_and!; [by left|done|by left].
  - change (relink t ((q, f) :: y :: pre)) with ((q, f) :: relink t (y :: pre)).
    intros [[= -> ->]|H]%elem_of_cons.
    + exists f. split_and!; [by left|done|by right].
    + destruct (IH H) as (g & ? & ? & ?). exists g. rewrite last_cons_cons.
      split_and!; [by right|done|done].
Qed.
Lemma last_ptr_elem pre q : last_ptr pre = Some q → ∃ e, last pre = Some (q, e) ∧ (q, e) ∈ pre.
Proof using.
  unfold last_ptr. destruct (last pre) as [[r e]|] eqn:E; [|done]. simpl. intros [= ->].
  exists e. split; [done|]. apply last_Some in E as (l & ->). apply elem_of_app. right. by left.
Qed.

Lemma cores_sorted l l' : cores l = cores l' → StronglySorted key_lt l → StronglySorted key_lt l'.
Proof using.
  intros Hc Hs. revert l' Hc. induction Hs as [|x l Hs IH Hx]; intros [|y l'] Hc; try done.
  { constructor. }
  unfold cores in Hc. rewrite !fmap_cons in Hc. injection Hc as Hp Hk Hr Ht Hl.
  constructor; [by apply IH|]. apply Forall_forall. intros z Hz.
  assert (Hzc : (z.1, core z.2) ∈ ((λ x, (x.1, core x.2)) <$> l)).
  { rewrite Hl. apply list_elem_of_fmap. eauto. }
  apply list_elem_of_fmap in Hzc as (w & Hw & Hwl). rewrite Forall_forall in Hx.
  specialize (Hx _ Hwl). unfold key_lt in *. unfold core in *. congruence.
Qed.

(** The link after [pre]: of the bucket [b] or of the last entry. *)
Definition set_link (b : Z) (prev : option Z) (t : option Z) ix : option (Index T A) :=
  match prev with
  | None => Some (set_buckets (match t with
                               | Some n => <[b := n]> (ht_buckets (ix_htable ix))
                               | None => delete b (ht_buckets (ix_htable ix))
                               end) ix)
  | Some q => qe ← ix_obs ix !! q; Some (set_obs (<[q := ob_set_next t qe]> (ix_obs ix)) ix)
  end.

Lemma set_link_seg b pre m t ix :
  is_seg (ix_obs ix) (ht_buckets (ix_htable ix) !! b) pre m → NoDup pre.*1 →
  ∃ ix', set_link b (last_ptr pre) t ix = Some ix' ∧
    is_seg (ix_obs ix') (ht_buckets (ix_htable ix') !! b) (relink t pre) t ∧
    (∀ b', b' ≠ b → ht_buckets (ix_htable ix') !! b' = ht_buckets (ix_htable ix) !! b') ∧
    (∀ r, last_ptr pre ≠ Some r → ix_obs ix' !! r = ix_obs ix !! r) ∧
    (∀ q e, last pre = Some (q, e) → ix_obs ix' !! q = Some (ob_set_next t e)) ∧
    ht_capacity (ix_htable ix') = ht_capacity (ix_htable ix) ∧
    ht_flags (ix_htable ix') = ht_flags (ix_htable ix) ∧
    ix_next_ob ix' = ix_next_ob ix ∧ ix_world ix' = ix_world ix.
Proof using.
  intros Hs Hnd. unfold last_ptr. destruct (last pre) as [[q e]|] eqn:El; simpl; cycle 1.
  - apply last_None in El as ->. simpl. eexists. split; [done|]. simpl.
    split_and!; try done.
    + destruct t; [by rewrite lookup_insert_eq|by rewrite lookup_delete_eq].
    + intros b' Hb. destruct t; [by rewrite lookup_insert_ne|by rewrite lookup_delete_ne].
  - apply last_Some in El as (l & ->). rewrite is_seg_app in Hs. destruct Hs as (h & Hs & -> & Hq & Hm).
    rewrite Hq. simpl. eexists. split; [done|]. simpl. split_and!; try done.
    + assert (Hr : relink t (l ++ [(q, e)]) = l ++ [(q, ob_set_next t e)]).
      { clear. induction l as [|x [|y l] IH]; simpl in *; [done|by destruct x|].
        destruct x. by rewrite IH. }
      rewrite Hr, is_seg_app. exists (Some q). split; [|simpl; by rewrite lookup_insert_eq].
      eapply is_seg_frame; [|exact Hs]. intros r f Hr'. rewrite lookup_insert_ne.
      * exact (is_seg_elem _ _ _ _ _ _ Hs Hr').
      * intros <-. rewrite fmap_app in Hnd. apply NoDup_app in Hnd as (_ & Hnd & _).
        apply (Hnd q); [|by left]. apply list_elem_of_fmap. by exists (q, f).
    + intros r Hr. rewrite lookup_insert_ne; [done|congruence].
    + intros q' e' [= <- <-]. by rewrite lookup_insert_eq.
Qed.

(** ** Replacing a stretch of a chain *)

(** The chain of bucket [b] was [pre ++ old ++ post] and is now [pre ++ new ++ post],
    where [old] and [new] hold entries that exist only before and only after. *)
Lemma wf_rechain ix ix' b pre old new post t :
  index_wf ix → bucket_chain ix b (pre ++ old ++ post) →
  is_seg (ix_obs ix') (ht_buckets (ix_htable ix') !! b) (relink t pre) t →
  is_seg (ix_obs ix') t (new ++ post) None →
  (∀ b', b' ≠ b → ht_buckets (ix_htable ix') !! b' = ht_buckets (ix_htable ix) !! b') →
  (∀ r, last_ptr pre ≠ Some r → r ∉ old.*1 → r ∉ new.*1 → ix_obs ix' !! r = ix_obs ix !! r) →
  (∀ q e, last pre = Some (q, e) → ix_obs ix' !! q = Some (ob_set_next t e)) →
  (∀ r, r ∈ old.*1 → ix_obs ix' !! r = None) →
  (∀ r e, (r, e) ∈ new → ix_obs ix !! r = None ∧ key_ok (ob_bkey e) ∧ r < ix_next_ob ix' ∧
     bucket_index (ix_htable ix) (ob_bkey e) = b) →
  StronglySorted key_lt (pre ++ new ++ post) →
  ht_capacity (ix_htable ix') = ht_capacity (ix_htable ix) →
  ix_next_ob ix <= ix_next_ob ix' →
  index_wf ix'.
Proof using.
  intros W Hc Hs1 Hs2 Hb Hsame Hlast Hold Hnew Hso Hcap Hnext.
  assert (Hidx : ∀ k, bucket_index (ix_htable ix') k = bucket_index (ix_htable ix) k)
    by (intros; unfold bucket_index; by rewrite Hcap).
  set (l := relink t pre ++ new ++ post).
  assert (Hmem : ∀ p e, (p, e) ∈ l → (∃ f, (p, f) ∈ pre ∧ core f = core e) ∨
    (p, e) ∈ new ∨ (p, e) ∈ post).
  { intros p e. unfold l. rewrite !elem_of_app. intros [H|[H|H]]; [|auto|auto].
    left. destruct (relink_inv _ _ _ _ H) as (f & ? & ? & _). eauto. }
  assert (Hold_el : ∀ p e, (p, e) ∈ pre ++ old ++ post → ix_obs ix !! p = Some e)
    by (intros p e; apply (is_seg_elem _ _ _ _ _ _ (bc_seg _ _ _ Hc))).
  assert (Hchain_b : bucket_chain ix' b l).
  { split.
    - unfold l. apply is_seg_app. eauto.
    - eapply cores_sorted; [|exact Hso]. unfold cores, l. rewrite !fmap_app.
      f_equal. symmetry. apply (relink_cores t pre).
    - intros p e Hpe. rewrite Hidx. destruct (Hmem p e Hpe) as [(f & Hf & Hco)|[Hp|Hp]].
      + assert (ob_bkey e = ob_bkey f) as -> by (unfold core in Hco; congruence).
        apply (bc_hash _ _ _ Hc p). apply elem_of_app. by left.
      + by destruct (Hnew p e Hp) as (_ & _ & _ & ?).
      + apply (bc_hash _ _ _ Hc p). rewrite !elem_of_app. auto. }
  assert (Hother : ∀ b' l', b' ≠ b → bucket_chain ix b' l' → bucket_chain ix' b' l').
  { intros b' l' Hne [C1 C2 C3]. split; [|done|intros; rewrite Hidx; by eapply C3].
    rewrite Hb by done. eapply is_seg_frame; [|exact C1]. intros r e Hr.
    pose proof (is_seg_elem _ _ _ _ _ _ C1 Hr) as Hre. rewrite Hsame; [done|..].
    - intros Hq. destruct (last_ptr_elem _ _ Hq) as (f & _ & Hf). apply Hne.
      assert (Hff : (r, f) ∈ pre ++ old ++ post) by (apply elem_of_app; by left).
      pose proof (Hold_el _ _ Hff) as Hf'. rewrite Hre in Hf'. injection Hf' as ->.
      by rewrite <- (C3 _ _ Hr), <- (bc_hash _ _ _ Hc _ _ Hff).
    - intros ([q f] & -> & Hf)%list_elem_of_fmap. apply Hne. simpl in Hre.
      assert (Hff : (q, f) ∈ pre ++ old ++ post) by (rewrite !elem_of_app; auto).
      pose proof (Hold_el _ _ Hff) as Hf'. rewrite Hre in Hf'. injection Hf' as ->.
      by rewrite <- (C3 _ _ Hr), <- (bc_hash _ _ _ Hc _ _ Hff).
    - intros ([q f] & -> & Hf)%list_elem_of_fmap. destruct (Hnew _ _ Hf) as [Hno _].
      simpl in Hre. congruence. }
  (** where a live entry of [ix'] comes from *)
  assert (Hlive : ∀ p e, ix_obs ix' !! p = Some e → (p, e) ∈ new ∨ (p, e) ∈ relink t pre ∨
    (ix_obs ix !! p = Some e ∧ last_ptr pre ≠ Some p ∧ (p ∉ old.*1) ∧ (p ∉ new.*1))).
  { intros p e He. destruct (decide (p ∈ new.*1)) as [Hn|Hn].
    - left. apply list_elem_of_fmap in Hn as ([q f] & -> & Hn). simpl in *.
      assert (Hin : (q, f) ∈ new ++ post) by (apply elem_of_app; by left).
      pose proof (is_seg_elem _ _ _ _ q f Hs2 Hin) as Hf. rewrite He in Hf. by injection Hf as ->.
    - right. destruct (decide (last_ptr pre = Some p)) as [Hl|Hl].
      + left. destruct (last_ptr_elem _ _ Hl) as (f & Hf & _).
        rewrite (Hlast _ _ Hf) in He. injection He as <-. by apply relink_last.
      + right. destruct (decide (p ∈ old.*1)) as [Ho|Ho]; [by rewrite Hold in He|].
        split_and!; try done. by rewrite <- Hsame. }
  split.
  - intros b'. destruct (decide (b' = b)) as [->|Hne]; [eauto|].
    destruct (iw_chain _ W b') as (l' & Hl'). eauto.
  - intros p e He. rewrite Hidx.
    destruct (Hlive p e He) as [Hn|[Hn|(He' & Hl & Ho & Hn)]].
    + destruct (Hnew _ _ Hn) as (_ & _ & _ & ->). exists l. split; [done|].
      unfold l. rewrite !elem_of_app. auto.
    + assert (Hp : (p, e) ∈ l) by (unfold l; apply elem_of_app; by left).
      pose proof (bc_hash _ _ _ Hchain_b _ _ Hp) as Hh. rewrite Hidx in Hh. rewrite Hh. eauto.
    + destruct (iw_all _ W _ _ He') as (l' & Hl' & Hin).
      destruct (decide (bucket_index (ix_htable ix) (ob_bkey e) = b)) as [Hh|Hh].
      * rewrite Hh in *. exists l. split; [done|].
        rewrite (bucket_chain_fun _ _ _ _ Hl' Hc) in Hin. unfold l.
        rewrite !elem_of_app in *. destruct Hin as [Hin|[Hin|Hin]]; [|exfalso|auto].
        -- left. by apply relink_elem.
        -- apply Ho, list_elem_of_fmap. by exists (p, e).
      * exists l'. split; [by apply Hother|done].
  - intros p e He. destruct (Hlive p e He) as [Hn|[Hn|(He' & _)]].
    + by destruct (Hnew _ _ Hn) as (_ & ? & _).
    + destruct (relink_inv _ _ _ _ Hn) as (f & Hf & Hco & _).
      assert (ob_bkey e = ob_bkey f) as -> by (unfold core in Hco; congruence).
      apply (iw_keys _ W p). apply Hold_el. apply elem_of_app. by left.
    + by apply (iw_keys _ W p).
  - intros p e He. destruct (Hlive p e He) as [Hn|[Hn|(He' & _)]].
    + by destruct (Hnew _ _ Hn) as (_ & _ & ? & _).
    + destruct (relink_inv _ _ _ _ Hn) as (f & Hf & Hco & _).
      assert (p < ix_next_ob ix); [|lia]. apply (iw_fresh _ W p f), Hold_el, elem_of_app. by left.
    + pose proof (iw_fresh _ W _ _ He'). lia.
Qed.
End Chains.
