(* ===== verification/ObIndexOps.v ===== *)
(** * The operations on the chains

    Finding, creating, changing and removing a block entry in a well-formed index:
    each keeps the index well-formed and changes the entry it is about only. *)
From stdpp Require Import sorting.
From S2P Require Import Prelude Types Skiplist ObSlices ObSlicesRun ObIndex ObIndexSpec.

Section Ops.
Context {T A : Type} `{!UniqSkiplist OBSliceEntry T} `{!SliceAccount A}.
Implicit Types (ix : Index T A) (k : FSBlockKey) (p q : Z) (e : OBEntry T)
  (pre post l : list (Z * OBEntry T)).

(** At address [p] lives the entry of block [k] with these slices; [c] reclaims are
    going on. *)
Definition lives ix p k (c : Z) (t : T) : Prop := core <$> ix_obs ix !! p = Some (k, c, t).

Lemma lives_entry ix p k c t :
  lives ix p k c t ↔ ∃ e, ix_obs ix !! p = Some e ∧ core e = (k, c, t).
Proof using.
  unfold lives. rewrite fmap_Some. split; intros (e & ? & ?); eauto.
Qed.
Lemma lives_fun ix p k1 c1 t1 k2 c2 t2 :
  lives ix p k1 c1 t1 → lives ix p k2 c2 t2 → k1 = k2 ∧ c1 = c2 ∧ t1 = t2.
Proof using. unfold lives. intros -> [=]. auto. Qed.

(** There is one entry per block. *)
Lemma lives_unique ix p1 p2 k c1 c2 t1 t2 :
  index_wf ix → lives ix p1 k c1 t1 → lives ix p2 k c2 t2 → p1 = p2.
Proof using.
  intros W (e1 & H1 & C1)%lives_entry (e2 & H2 & C2)%lives_entry.
  destruct (iw_all _ W _ _ H1) as (l & Hl & L1). destruct (iw_all _ W _ _ H2) as (l2 & Hl2 & L2).
  unfold core in *. assert (K1 : ob_bkey e1 = k) by congruence.
  assert (K2 : ob_bkey e2 = k) by congruence. rewrite K1 in Hl. rewrite K2 in Hl2.
  rewrite (bucket_chain_fun _ _ _ _ Hl2 Hl) in L2. destruct Hl as [_ Hso _].
  clear - Hso L1 L2 K1 K2. induction Hso as [|[q f] l Hs IH Hx]; [by apply elem_of_nil in L1|].
  rewrite Forall_forall in Hx.
  apply elem_of_cons in L1 as [[= -> ->]|L1]; apply elem_of_cons in L2 as [[= -> ->]|L2]; [done|..].
  - specialize (Hx _ L2). unfold key_lt in Hx. simpl in Hx. rewrite K1, K2 in Hx.
    by apply bkey_lt_irrefl in Hx.
  - specialize (Hx _ L1). unfold key_lt in Hx. simpl in Hx. rewrite K1, K2 in Hx.
    by apply bkey_lt_irrefl in Hx.
  - by apply IH.
Qed.

(** ** Finding *)

Lemma get_ob_entry_search k ix :
  get_ob_entry_ex k false ix =
  match chain_search (ix_obs ix) (ht_buckets (ix_htable ix) !! bucket_index (ix_htable ix) k) k with
  | None => None
  | Some r => Some (r, ix)
  end.
Proof using.
  unfold get_ob_entry_ex, mbind, IM_bind, iget, mret, IM_ret. simpl.
  by destruct (chain_search _ _ k) as [[[p|] pprev]|].
Qed.

Lemma get_ob_entry_found k ix :
  index_wf ix →
  ∃ pre post r, bucket_chain ix (bucket_index (ix_htable ix) k) (pre ++ post) ∧
    found k pre post r ∧
    chain_search (ix_obs ix) (ht_buckets (ix_htable ix) !! bucket_index (ix_htable ix) k) k
      = Some (r, last_ptr pre).
Proof using.
  intros W. destruct (iw_chain _ W (bucket_index (ix_htable ix) k)) as (l & Hl).
  destruct (chain_search_spec _ _ k l (bc_seg _ _ _ Hl) (bc_sorted _ _ _ Hl))
    as (pre & post & r & -> & Hf & Hs). eauto 10.
Qed.

Lemma found_lives k ix pre post r :
  index_wf ix → key_ok k → bucket_chain ix (bucket_index (ix_htable ix) k) (pre ++ post) →
  found k pre post r →
  match r with
  | Some p => ∃ e rest, post = (p, e) :: rest ∧ ix_obs ix !! p = Some e ∧ ob_bkey e = k
  | None => ∀ p c t, ¬ lives ix p k c t
  end.
Proof using.
  intros W Hk Hc [Hpre Hr]. destruct r as [p|].
  - destruct Hr as (e & rest & -> & He). exists e, rest.
    assert (Hp : ix_obs ix !! p = Some e).
    { apply (is_seg_elem _ _ _ _ p e (bc_seg _ _ _ Hc)). apply elem_of_app. right. by left. }
    split_and!; [done|done|]. symmetry. apply key_ok_eq; [done|by eapply iw_keys|done].
  - intros p c t (e & He & Hco)%lives_entry. destruct (iw_all _ W _ _ He) as (l & Hl & Hin).
    assert (Hke : ob_bkey e = k) by (unfold core in Hco; congruence). rewrite Hke in Hl.
    rewrite (bucket_chain_fun _ _ _ _ Hl Hc) in Hin.
    apply elem_of_app in Hin as [Hin|Hin]; [apply Hpre in Hin|apply Hr in Hin];
      simpl in Hin; rewrite Hke in Hin; by apply bkey_lt_irrefl in Hin.
Qed.

(** ** Creating *)

Lemma last_ptr_link obs h pre m : is_seg obs h pre m →
  m = match last pre with None => h | Some (_, e) => ob_next e end.
Proof using.
  destruct (last pre) as [[q e]|] eqn:El.
  - apply last_Some in El as (l & ->). rewrite is_seg_app.
    intros (h' & _ & -> & _ & <-). done.
  - by apply last_None in El as ->.
Qed.

(** The effect of linking a new entry at [p] after [pre]. *)
Definition insert_entry k (t : T) (pprev : option Z) ix : option (Index T A) :=
  let b := bucket_index (ix_htable ix) k in
  let p := ix_next_ob ix in
  next ← match pprev with
         | None => Some (ht_buckets (ix_htable ix) !! b)
         | Some q => ob_next <$> ix_obs ix !! q
         end;
  set_link b pprev (Some p)
    (mkIndex (ix_htable ix) (<[p := mkOBEntry k 0 t next]> (ix_obs ix)) (p + 1) (ix_world ix)).

Lemma insert_entry_run k t ix pre post :
  index_wf ix → key_ok k → bucket_chain ix (bucket_index (ix_htable ix) k) (pre ++ post) →
  found k pre post None →
  ∃ ix', insert_entry k t (last_ptr pre) ix = Some ix' ∧ index_wf ix' ∧
    lives ix' (ix_next_ob ix) k 0 t ∧
    (∀ q k' c t', q ≠ ix_next_ob ix → lives ix' q k' c t' ↔ lives ix q k' c t') ∧
    ix_world ix' = ix_world ix ∧
    ht_capacity (ix_htable ix') = ht_capacity (ix_htable ix) ∧
    ht_flags (ix_htable ix') = ht_flags (ix_htable ix).
Proof using.
  intros W Hk Hc [Hpre Hpost]. set (b := bucket_index (ix_htable ix) k) in *.
  set (p := ix_next_ob ix). pose proof (bc_seg _ _ _ Hc) as Hs. apply is_seg_app in Hs as (m & S1 & S2).
  pose proof (seg_NoDup _ _ _ _ (bc_seg _ _ _ Hc) (bc_sorted _ _ _ Hc)) as Hnd.
  rewrite fmap_app in Hnd. apply NoDup_app in Hnd as (Hnd1 & Hnd & Hnd2).
  assert (Hfresh : ∀ r f, ix_obs ix !! r = Some f → r ≠ p)
    by (intros r f Hf; pose proof (iw_fresh _ W _ _ Hf); unfold p; lia).
  assert (Hel : ∀ r f, (r, f) ∈ pre ++ post → ix_obs ix !! r = Some f)
    by (intros r f; apply (is_seg_elem _ _ _ _ _ _ (bc_seg _ _ _ Hc))).
  assert (Hnp : ix_obs ix !! p = None).
  { destruct (ix_obs ix !! p) as [f|] eqn:E; [|done]. by apply Hfresh in E. }
  set (e := mkOBEntry k 0 t m).
  set (ix1 := mkIndex (ix_htable ix) (<[p := e]> (ix_obs ix)) (p + 1) (ix_world ix)).
  assert (S1' : is_seg (ix_obs ix1) (ht_buckets (ix_htable ix1) !! b) pre m).
  { eapply is_seg_frame; [|exact S1]. intros r f Hr. simpl.
    assert (Hrf : ix_obs ix !! r = Some f) by (apply Hel, elem_of_app; by left).
    rewrite lookup_insert_ne; [done|]. by apply not_eq_sym, (Hfresh r f). }
  destruct (set_link_seg b pre m (Some p) ix1 S1' Hnd1)
    as (ix' & E & R1 & R2 & R3 & R4 & R5 & R6 & R7 & R8).
  simpl in R2, R5, R6, R7, R8.
  assert (Hp' : ix_obs ix' !! p = Some e).
  { rewrite R3; [by simpl; rewrite lookup_insert_eq|]. intros Hl.
    destruct (last_ptr_elem _ _ Hl) as (f & _ & Hin). by apply (Hfresh p f); [apply Hel, elem_of_app; left|]. }
  assert (Hmono : ∀ r, last_ptr pre ≠ Some r → r ≠ p → ix_obs ix' !! r = ix_obs ix !! r).
  { intros r H1 H2. rewrite R3 by done. simpl. by rewrite lookup_insert_ne. }
  exists ix'. split.
  { unfold insert_entry. fold b p. assert (Hm : match last_ptr pre with
        | None => Some (ht_buckets (ix_htable ix) !! b)
        | Some q => ob_next <$> ix_obs ix !! q end = Some m).
    { rewrite (last_ptr_link _ _ _ _ S1). unfold last_ptr.
      destruct (last pre) as [[q f]|] eqn:El; simpl; [|done].
      apply last_Some in El as (l & ->). rewrite (Hel q f); [done|].
      rewrite !elem_of_app. left. right. by left. }
    rewrite Hm. simpl. fold e. fold ix1. exact E. }
  split.
  - eapply (wf_rechain ix ix' b pre [] [(p, e)] post (Some p)); try done.
    + simpl. split_and!; [done|done|]. eapply is_seg_frame; [|exact S2].
      intros r f Hr. rewrite Hmono; [apply Hel, elem_of_app; by right|..].
      * intros Hl. destruct (last_ptr_elem _ _ Hl) as (g & _ & Hg). apply (Hnd r).
        -- apply list_elem_of_fmap. by exists (r, g).
        -- apply list_elem_of_fmap. by exists (r, f).
      * apply (Hfresh r f). apply Hel, elem_of_app. by right.
    + intros r H1 _ H2. apply Hmono; [done|]. intros ->. apply H2. simpl. by left.
    + by intros r ?%elem_of_nil.
    + intros r f [= -> ->]%list_elem_of_singleton. split_and!; [done|done|rewrite R7; lia|done].
    + destruct Hc as [_ Hso _]. apply sorting.StronglySorted_app in Hso as (Hx & So1 & So2).
      apply sorting.StronglySorted_app. split_and!; [|done|].
      * intros x y Hxl [->|Hy]%elem_of_cons; [by apply Hpre|by apply Hx].
      * simpl. constructor; [done|]. apply Forall_forall. intros y Hy. by apply Hpost.
    + rewrite R7. unfold p. lia.
  - split_and!; [by unfold lives; rewrite Hp'| |done|done|done].
    intros q k' c t' Hq. unfold lives. destruct (decide (last_ptr pre = Some q)) as [Hl|Hl].
    + destruct (last_ptr_elem _ _ Hl) as (f & Hf & Hin). rewrite (R4 _ _ Hf).
      rewrite (Hel q f); [done|]. apply elem_of_app. by left.
    + by rewrite Hmono.
Qed.

(** One allocation. *)
Definition take_mem (w : World A) : bool * World A :=
  match w_mem w with [] => (true, w) | b :: m => (b, set_mem m w) end.
Lemma alloc_ok_take w : alloc_ok w = (inr (take_mem w).1, (take_mem w).2).
Proof using. unfold alloc_ok, take_mem. by destruct (w_mem w). Qed.
Lemma take_mem_ok (w : World A) : w_mem w = [] → take_mem w = (true, w).
Proof using. unfold take_mem. by intros ->. Qed.
Lemma take_mem_rest (w : World A) : w_refs (take_mem w).2 = w_refs w ∧
  w_acct (take_mem w).2 = w_acct w ∧ w_sn (take_mem w).2 = w_sn w ∧ w_next (take_mem w).2 = w_next w.
Proof using. unfold take_mem. by destruct (w_mem w). Qed.

(** The code of [get_ob_entry_ex] with [create_flag]: search, two allocations,
    insertion. *)
Lemma get_ob_entry_create k ix :
  get_ob_entry_ex k true ix =
  match chain_search (ix_obs ix) (ht_buckets (ix_htable ix) !! bucket_index (ix_htable ix) k) k with
  | None => None
  | Some (Some p, pprev) => Some ((Some p, pprev), ix)
  | Some (None, pprev) =>
      let '(ok1, w1) := take_mem (ix_world ix) in
      if negb ok1 then Some ((None, pprev), set_world w1 ix) else
      let '(ok2, w2) := take_mem w1 in
      if negb ok2 then Some ((None, pprev), set_world w2 ix) else
      match insert_entry k uniq_skiplist_new pprev (set_world w2 ix) with
      | None => None
      | Some ix' => Some ((Some (ix_next_ob ix), pprev), ix')
      end
  end.
Proof using.
  unfold get_ob_entry_ex, insert_entry, set_link, deref, store, iworld, imod, iget.
  unfold mbind, IM_bind, mret, IM_ret. simpl.
  destruct (chain_search _ _ k) as [[[p|] pprev]|]; [done| |done]. simpl.
  rewrite alloc_ok_take. destruct (take_mem (ix_world ix)) as [[] w1]; simpl; [|done].
  rewrite alloc_ok_take. destruct (take_mem w1) as [[] w2]; simpl; [|done].
destruct pprev as [q|]; simpl; [|done]. destruct (ix_obs ix !! q) as [qe|] eqn:Hq; simpl; [|done].
  match goal with |- context [option_bind _ _ _ ?o] => destruct o as [qe2|] eqn:Hq2 end; simpl; [|done].
  unfold deref. simpl. by rewrite Hq2.
Qed.

(** ** Changing the content of an entry *)

Lemma upd_chain ix p e e' h l t :
  ix_obs ix !! p = Some e → ob_next e' = ob_next e →
  is_seg (ix_obs ix) h l t →
  is_seg (<[p := e']> (ix_obs ix)) h ((λ x, if decide (x.1 = p) then (p, e') else x) <$> l) t.
Proof using.
  intros He Hn. revert h. induction l as [|[q f] l IH]; intros h; simpl; [done|].
  intros (-> & Hq & Hs). destruct (decide (q = p)) as [->|Hne]; simpl.
  - rewrite He in Hq. injection Hq as <-. rewrite lookup_insert_eq. split_and!; [done|done|].
    rewrite Hn. by apply IH.
  - rewrite lookup_insert_ne by done. split_and!; [done|done|]. by apply IH.
Qed.

(** A chain after the entry at [p] was replaced by [e']. *)
Definition replace_entry p e' (x : Z * OBEntry T) : Z * OBEntry T :=
  if decide (x.1 = p) then (p, e') else x.

Lemma replace_entry_fst p e' (x : Z * OBEntry T) : (replace_entry p e' x).1 = x.1.
Proof using. unfold replace_entry. by case_decide. Qed.
Lemma replace_last_ptr p e' pre : last_ptr (replace_entry p e' <$> pre) = last_ptr pre.
Proof using.
  unfold last_ptr. rewrite fmap_last. destruct (last pre) as [x|]; simpl; [|done].
  by rewrite replace_entry_fst.
Qed.

Lemma bucket_chain_store ix p e e' w b l :
  ix_obs ix !! p = Some e → ob_next e' = ob_next e → ob_bkey e' = ob_bkey e →
  bucket_chain ix b l →
  bucket_chain (set_world w (set_obs (<[p := e']> (ix_obs ix)) ix)) b (replace_entry p e' <$> l).
Proof using.
  intros He Hn Hk [C1 C2 C3]. unfold replace_entry. set (ix' := set_world _ _).
  set (g := λ x : Z * OBEntry T, if decide (x.1 = p) then (p, e') else x).
  assert (Hg : ∀ x, x ∈ l → (g x).1 = x.1 ∧ ob_bkey (g x).2 = ob_bkey x.2).
  { intros [q f] Hx. unfold g. simpl. case_decide as Hq; [|done]. subst q. split; [done|].
    pose proof (is_seg_elem _ _ _ _ _ _ C1 Hx) as Hf. rewrite He in Hf. by injection Hf as <-. }
  split.
  - by apply (upd_chain ix p e e').
  - clear C1 C3. induction C2 as [|x l Hs IH Hx]; [constructor|]. simpl. constructor.
    + apply IH. intros y Hy. apply Hg. by right.
    + apply Forall_forall. intros y (z & -> & Hz)%list_elem_of_fmap.
      rewrite Forall_forall in Hx. specialize (Hx _ Hz). unfold key_lt in *.
      destruct (Hg x) as [_ ->]; [by left|]. destruct (Hg z) as [_ ->]; [by right|]. done.
  - intros q f (x & Hx & Hin)%list_elem_of_fmap. destruct (Hg _ Hin) as [_ Hb].
    rewrite <- Hx in Hb. simpl in Hb. rewrite Hb. destruct x as [r f0]. by apply (C3 r f0).
Qed.

Lemma wf_store ix p e e' w :
  index_wf ix → ix_obs ix !! p = Some e → ob_next e' = ob_next e → ob_bkey e' = ob_bkey e →
  index_wf (set_world w (set_obs (<[p := e']> (ix_obs ix)) ix)).
Proof using.
  intros W He Hn Hk. set (ix' := set_world _ _).
  assert (Hch : ∀ b l, bucket_chain ix b l → bucket_chain ix' b (replace_entry p e' <$> l))
    by (intros b l; by apply (bucket_chain_store ix p e e')).
  assert (Hl : ∀ q f, ix_obs ix' !! q = Some f → ∃ f0, ix_obs ix !! q = Some f0 ∧
    ob_bkey f0 = ob_bkey f ∧ (q, f) = replace_entry p e' (q, f0)).
  { intros q f. simpl. unfold replace_entry. simpl. destruct (decide (q = p)) as [->|Hne].
    - rewrite lookup_insert_eq. intros [= <-]. eauto.
    - rewrite lookup_insert_ne by done. eauto. }
  split.
  - intros b. destruct (iw_chain _ W b) as (l & Hc). eauto.
  - intros q f Hf. destruct (Hl q f Hf) as (f0 & Hf0 & Hb & Hg).
    destruct (iw_all _ W _ _ Hf0) as (l & Hc & Hin). rewrite Hb in Hc.
    exists (replace_entry p e' <$> l). split; [by apply Hch|]. apply list_elem_of_fmap. eauto.
  - intros q f Hf. destruct (Hl q f Hf) as (f0 & Hf0 & <- & _). by apply (iw_keys _ W q).
  - intros q f Hf. destruct (Hl q f Hf) as (f0 & Hf0 & _). by apply (iw_fresh _ W q f0).
Qed.

Lemma wf_world ix w : index_wf ix → index_wf (set_world w ix).
Proof using.
  intros [W1 W2 W3 W4]. split; try done.
  - intros b. destruct (W1 b) as (l & [C1 C2 C3]). exists l. by split.
  - intros p e He. destruct (W2 p e He) as (l & [C1 C2 C3] & Hin). exists l. split; [by split|done].
Qed.

(** Running an algorithm on the slices of an entry. *)
Lemma on_slices_eq {B} (m : M (T * World A) B) p ix e :
  ix_obs ix !! p = Some e →
  on_slices p m ix =
    Some ((m (ob_slices e, ix_world ix)).1,
      set_world (m (ob_slices e, ix_world ix)).2.2
        (set_obs (<[p := ob_set_slices (m (ob_slices e, ix_world ix)).2.1 e]> (ix_obs ix)) ix)).
Proof using.
  intros He. unfold on_slices, store, deref, imod, iget, mbind, IM_bind, mret, IM_ret.
  simpl. rewrite He. simpl. destruct (m (ob_slices e, ix_world ix)) as [r [t w]]. simpl.
  by rewrite He.
Qed.

Lemma lives_set_slices ix p e t w q k c t' :
  ix_obs ix !! p = Some e →
  lives (set_world w (set_obs (<[p := ob_set_slices t e]> (ix_obs ix)) ix)) q k c t' ↔
  if decide (q = p) then k = ob_bkey e ∧ c = ob_reclaiming_count e ∧ t' = t
  else lives ix q k c t'.
Proof using.
  intros He. unfold lives. simpl. case_decide as Hq.
  - subst q. rewrite lookup_insert_eq. simpl. unfold core. simpl. split; [by intros [= <- <- <-]|].
    by intros (-> & -> & ->).
  - by rewrite lookup_insert_ne.
Qed.

(** ** Removing an entry *)

Lemma OB_INDEX_DELETE_OB_ENTRY_eq b p previous ix :
  OB_INDEX_DELETE_OB_ENTRY b p previous ix =
  match ix_obs ix !! p with
  | None => None
  | Some e =>
      ix1 ← set_link b previous (ob_next e) ix;
      Some (tt, set_obs (delete p (ix_obs ix1))
        (set_world (uniq_skiplist_free (ob_slices e) (ix_world ix1)) ix1))
  end.
Proof using.
  unfold OB_INDEX_DELETE_OB_ENTRY, deref, store, imod, iworld, iget, mbind, IM_bind, mret, IM_ret.
  simpl. destruct (ix_obs ix !! p) as [e|]; [|done]. simpl.
  destruct previous as [q|]; [|done]. simpl. destruct (ix_obs ix !! q) as [qe|] eqn:Hq; [|done].
  simpl. unfold deref. simpl. by rewrite Hq.
Qed.

Lemma OB_INDEX_DELETE_OB_ENTRY_run ix b pre post p e :
  index_wf ix → bucket_chain ix b (pre ++ (p, e) :: post) →
  ∃ ix', OB_INDEX_DELETE_OB_ENTRY b p (last_ptr pre) ix = Some (tt, ix') ∧ index_wf ix' ∧
    (∀ q k c t, lives ix' q k c t ↔ q ≠ p ∧ lives ix q k c t) ∧
    ix_world ix' = uniq_skiplist_free (ob_slices e) (ix_world ix) ∧
    ht_capacity (ix_htable ix') = ht_capacity (ix_htable ix) ∧
    ht_flags (ix_htable ix') = ht_flags (ix_htable ix).
Proof using.
  intros W Hc. pose proof (bc_seg _ _ _ Hc) as Hs. apply is_seg_app in Hs as (m & S1 & S2).
  destruct S2 as (-> & Hp & S2).
  pose proof (seg_NoDup _ _ _ _ (bc_seg _ _ _ Hc) (bc_sorted _ _ _ Hc)) as Hnd.
  rewrite fmap_app in Hnd. apply NoDup_app in Hnd as (Hnd1 & Hnd & Hnd2).
  simpl in Hnd, Hnd2. apply NoDup_cons in Hnd2 as [Hnp Hnd2].
  assert (Hel : ∀ r f, (r, f) ∈ pre ++ (p, e) :: post → ix_obs ix !! r = Some f)
    by (intros r f; apply (is_seg_elem _ _ _ _ _ _ (bc_seg _ _ _ Hc))).
  assert (Hlp : last_ptr pre ≠ Some p).
  { intros Hl. destruct (last_ptr_elem _ _ Hl) as (f & _ & Hin). apply (Hnd p); [|by left].
    apply list_elem_of_fmap. by exists (p, f). }
  assert (Hlq : ∀ r f, (r, f) ∈ post → last_ptr pre ≠ Some r).
  { intros r f Hr Hl. destruct (last_ptr_elem _ _ Hl) as (g & _ & Hin). apply (Hnd r).
    - apply list_elem_of_fmap. by exists (r, g).
    - right. apply list_elem_of_fmap. by exists (r, f). }
  destruct (set_link_seg b pre (Some p) (ob_next e) ix S1 Hnd1)
    as (ix1 & E & R1 & R2 & R3 & R4 & R5 & R6 & R7 & R8).
  rewrite OB_INDEX_DELETE_OB_ENTRY_eq, Hp, E. simpl. eexists. split; [done|].
  assert (Hdel : ∀ r, r ≠ p → last_ptr pre ≠ Some r → delete p (ix_obs ix1) !! r = ix_obs ix !! r).
  { intros r H1 H2. rewrite lookup_delete_ne by done. by apply R3. }
  split.
  - eapply (wf_rechain ix _ b pre [(p, e)] [] post (ob_next e)); simpl; try done.
    + eapply is_seg_frame; [|exact R1]. intros r f Hr. rewrite lookup_delete_ne.
      * by apply (is_seg_elem _ _ _ _ _ _ R1).
      * intros <-. destruct (relink_inv _ _ _ _ Hr) as (g & Hg & _).
        apply (Hnd p); [|by left]. apply list_elem_of_fmap. by exists (p, g).
    + eapply is_seg_frame; [|exact S2]. intros r f Hr. rewrite Hdel; [|..].
      * apply Hel, elem_of_app. right. by right.
      * intros ->. apply Hnp, list_elem_of_fmap. by exists (p, f).
      * by eapply Hlq.
    + intros r H1 H2 _. apply Hdel; [|done]. intros ->. apply H2. by left.
    + intros q f Hf. rewrite lookup_delete_ne; [by apply R4|]. intros <-.
      apply Hlp. unfold last_ptr. by rewrite Hf.
    + intros r ->%list_elem_of_singleton. apply lookup_delete_eq.
    + intros r f ?%elem_of_nil. done.
    + destruct Hc as [_ Hso _]. apply StronglySorted_app in Hso as (Hx & So1 & So2).
      apply StronglySorted_inv in So2 as [So2 _].
      apply StronglySorted_app. split_and!; [|done|done].
      intros x y Hx1 Hy. apply Hx; [done|by right].
    + lia.
  - split_and!; [|by simpl; rewrite R8|done|done].
    intros q k c t. unfold lives. simpl. destruct (decide (q = p)) as [->|Hq].
    + rewrite lookup_delete_eq. split; [done|by intros [? _]].
    + rewrite lookup_delete_ne by done. destruct (decide (last_ptr pre = Some q)) as [Hl|Hl].
      * destruct (last_ptr_elem _ _ Hl) as (f & Hf & Hin). rewrite (R4 _ _ Hf).
        rewrite (Hel q f); [|by apply elem_of_app; left]. simpl. split; [done|by intros [_ ?]].
      * rewrite R3 by done. split; [done|by intros [_ ?]].
Qed.
End Ops.
