(* ===== verification/ObIndexThms.v ===== *)
(** * The contract of the object block index

    The invariant of the whole index (chains, slices, reference counts, trunk
    accounting), and for every operation what it answers, what it does to the block
    it is about, and that it leaves every other block alone. *)
From stdpp Require Import sorting.
From S2P Require Import Prelude Types Skiplist ObSlices ObSlicesRun.
From S2P Require Import ObSlicesThms ObSlicesMain ObSlicesGet ObIndex ObIndexSpec ObIndexOps.

Section Contract.
Context {T A : Type} `{!UniqSkiplist OBSliceEntry T} `{!SliceAccount A}.
Context `{!UniqSkiplistSpec slice_compare} `{!SliceAccountSpec A}.
Implicit Types (ix : Index T A) (k : FSBlockKey) (p q : Z) (e : OBEntry T) (t : T)
  (w : World A) (base : Z → Z → Z) (ext : Z → Z).

(** All slices of the index. *)
Definition obs_slices (obs : gmap Z (OBEntry T)) : list OBSliceEntry :=
  (map_to_list obs).*2 ≫= λ e, sl_level0 (ob_slices e).
Definition all_slices ix : list OBSliceEntry := obs_slices (ix_obs ix).

Definition block_ok w p t : Prop :=
  slices_wf (sl_level0 t) ∧ ∀ s, s ∈ sl_level0 t → se_ob s = p ∧ known w s.

(** The invariant. [ext id] are the references to entry [id] that are held outside
    the index, [base] the bytes used in a trunk by slices that are not in it. *)
Record index_ok base ext ix : Prop := {
  io_wf : index_wf ix;
  io_block : ∀ p k c t, lives ix p k c t → block_ok (ix_world ix) p t ∧ 0 <= c;
  io_refs : ∀ id, ref_count (ix_world ix) id = occ id (all_slices ix) + ext id;
  io_pos : refs_pos (ix_world ix);
  io_ext : ∀ id, 0 <= ext id;
  io_acct : modify_sallocator (ht_flags (ix_htable ix)) = true → ∀ st id u,
    acct_used (w_acct (ix_world ix)) st id = Some u → u = base st id + sizes_in st id (all_slices ix);
}.

(** ** The slices of the index when an entry changes *)

Lemma obs_slices_insert obs p e :
  obs !! p = None → obs_slices (<[p := e]> obs) ≡ₚ sl_level0 (ob_slices e) ++ obs_slices obs.
Proof using.
  intros Hp. unfold obs_slices. by rewrite map_to_list_insert by done.
Qed.
Lemma obs_slices_delete obs p e :
  obs !! p = Some e → obs_slices obs ≡ₚ sl_level0 (ob_slices e) ++ obs_slices (delete p obs).
Proof using.
  intros Hp. rewrite <- (insert_delete_id obs p e Hp) at 1.
  apply obs_slices_insert, lookup_delete_eq.
Qed.
Lemma obs_slices_update obs p e e' :
  obs !! p = Some e →
  obs_slices (<[p := e']> obs) ≡ₚ sl_level0 (ob_slices e') ++ obs_slices (delete p obs).
Proof using.
  intros Hp. rewrite <- insert_delete_eq. apply obs_slices_insert, lookup_delete_eq.
Qed.

(** Only the slices of the entries matter. *)
Lemma obs_slices_core obs obs' :
  (∀ p, core <$> obs' !! p = core <$> obs !! p) → obs_slices obs' ≡ₚ obs_slices obs.
Proof using.
  intros Hc. assert (He : core <$> obs' = core <$> obs).
  { apply map_eq. intros p. by rewrite !lookup_fmap. }
  assert (H : ∀ m : gmap Z (OBEntry T),
    obs_slices m = (map_to_list (core <$> m)).*2 ≫= λ c, sl_level0 c.2).
  { intros m. unfold obs_slices. rewrite map_to_list_fmap.
    induction (map_to_list m) as [|[p e] l IH]; [done|].
    rewrite !fmap_cons, !bind_cons, IH. done. }
  by rewrite !H, He.
Qed.

Lemma lives_core ix ix' :
  (∀ p k c t, lives ix' p k c t ↔ lives ix p k c t) →
  ∀ p, core <$> ix_obs ix' !! p = core <$> ix_obs ix !! p.
Proof using.
  intros H p. apply option_eq. intros [[k c] t]. apply H.
Qed.

Lemma block_ok_known w w' p t : (∀ s, known w s → known w' s) → block_ok w p t → block_ok w' p t.
Proof using. intros Hk [H1 H2]. split; [done|]. intros s Hs. destruct (H2 s Hs). auto. Qed.

(** A step that replaces the slices [old] by [new] keeps the invariant when counts
    and accounting follow. *)
Lemma index_ok_change base ext ext' ix ix' old new rest :
  index_ok base ext ix → index_wf ix' →
  all_slices ix ≡ₚ old ++ rest → all_slices ix' ≡ₚ new ++ rest →
  (∀ q k c t, lives ix' q k c t →
     0 <= c ∧ (block_ok (ix_world ix') q t ∨ ∃ c0, lives ix q k c0 t)) →
  ht_flags (ix_htable ix') = ht_flags (ix_htable ix) →
  (∀ s, known (ix_world ix) s → known (ix_world ix') s) →
  (∀ id, ref_count (ix_world ix') id - occ id new - ext' id
       = ref_count (ix_world ix) id - occ id old - ext id) →
  refs_pos (ix_world ix') → (∀ id, 0 <= ext' id) →
  acct_shift (ht_flags (ix_htable ix)) (ix_world ix) (ix_world ix')
    (λ st id, sizes_in st id new - sizes_in st id old) →
  index_ok base ext' ix'.
Proof using.
  intros [W B R P X U] W' H1 H2 Hl Hf Hk Hr Hp Hx Hs. split; try done.
  - intros q k c t Hq. destruct (Hl _ _ _ _ Hq) as [Hc [Hb|(c0 & Hq0)]]; [done|].
    split; [|done]. eapply block_ok_known; [exact Hk|]. by eapply B.
  - intros id. rewrite (occ_perm _ _ _ H2), occ_app. specialize (Hr id). specialize (R id).
    rewrite (occ_perm _ _ _ H1), occ_app in R. lia.
  - rewrite Hf. intros Hm st id u Hu. unfold acct_shift in Hs. rewrite Hm in Hs.
    rewrite Hs in Hu. destruct (acct_used (w_acct (ix_world ix)) st id) as [v|] eqn:E; [|done].
    injection Hu as <-. specialize (U Hm st id v E). rewrite U. unfold sizes_in.
    rewrite (sumZ_perm _ _ _ H1), (sumZ_perm _ _ _ H2). autorewrite with fstore. lia.
Qed.

(** A step that leaves slices and world alone. *)
Lemma index_ok_lives base ext ix ix' :
  index_ok base ext ix → index_wf ix' →
  all_slices ix' ≡ₚ all_slices ix →
  (∀ q k c t, lives ix' q k c t → 0 <= c ∧ (block_ok (ix_world ix) q t ∨ ∃ c0, lives ix q k c0 t)) →
  ht_flags (ix_htable ix') = ht_flags (ix_htable ix) →
  refs_up (ix_world ix) (ix_world ix') →
  ∃ ext', index_ok base ext' ix' ∧ (∀ id, ext id <= ext' id) ∧
    ((∀ id, ref_count (ix_world ix') id = ref_count (ix_world ix) id) → ∀ id, ext' id = ext id).
Proof using.
  intros I W' Ha Hl Hf [U1 U2 U3 U4].
  exists (λ id, ext id + (ref_count (ix_world ix') id - ref_count (ix_world ix) id)). split_and!.
  - apply (index_ok_change base ext _ ix ix' [] [] (all_slices ix)); try done.
    + intros q k c t Hq. destruct (Hl q k c t Hq) as [? [Hb|?]]; [|auto]. split; [done|]. left.
      eapply block_ok_known; [|exact Hb]. unfold known. by rewrite U1.
    + unfold known. by rewrite U1.
    + intros id. rewrite occ_nil. lia.
    + apply U4, I.
    + intros id. pose proof (io_ext _ _ _ I id). specialize (U3 id). lia.
    + eapply acct_shift_ext; [|by apply (acct_shift_refl _ (ix_world ix))]. done.
  - intros id. specialize (U3 id). lia.
  - intros H id. rewrite H. lia.
Qed.

(** ** Finding and creating entries *)

Lemma index_ok_ext base ext ext' ix :
  (∀ id, ext' id = ext id) → index_ok base ext' ix → index_ok base ext ix.
Proof using. intros H []. split; try done; intros id; rewrite <- H; auto. Qed.

(** What a call of [get_ob_entry_ex] promises: the entry [ob] of the block [k] is the
    one of the index afterwards, no other block changed, and nothing changed at all
    unless an entry had to be made. *)
Definition get_ob_post base ext ix k (create : bool) (ob : option Z) ix' : Prop :=
  index_ok base ext ix' ∧
  (∀ q k' c t, k' ≠ k → lives ix' q k' c t ↔ lives ix q k' c t) ∧
  (∀ p, ob = Some p ↔ ∃ c t, lives ix' p k c t) ∧
  ((∃ p c t, lives ix p k c t) ∨ create = false → ix' = ix) ∧
  (create = true → w_mem (ix_world ix) = [] → ob ≠ None) ∧
  ((∀ p c t, ¬ lives ix p k c t) → ∀ p, ob = Some p → lives ix' p k 0 uniq_skiplist_new).

(** The search alone. *)
Lemma get_ob_post_search base ext ix k create r :
  index_ok base ext ix →
  (∀ p, r = Some p ↔ ∃ c t, lives ix p k c t) → (create = true → r ≠ None) →
  get_ob_post base ext ix k create r ix.
Proof using.
  intros I Hs Hc. split_and!; try done; [auto|]. intros Hno p ->. exfalso.
  destruct (proj1 (Hs p) eq_refl) as (c & t & Hl). by eapply Hno.
Qed.

(** An allocation failed. *)
Lemma get_ob_post_nomem base ext ix k w1 :
  index_ok base ext ix → (∀ p c t, ¬ lives ix p k c t) →
  refs_up (ix_world ix) w1 → (∀ id, ref_count w1 id = ref_count (ix_world ix) id) →
  w_mem (ix_world ix) ≠ [] →
  get_ob_post base ext ix k true None (set_world w1 ix).
Proof using.
  intros I Hno Hup Hrc Hmem.
  destruct (index_ok_lives base ext ix (set_world w1 ix) I (wf_world _ _ (io_wf _ _ _ I)))
    as (ext' & I' & _ & He); [done| |done|done|].
  { intros q k' c t Hq. split; [by eapply (io_block _ _ _ I)|]. right. by exists c. }
  split_and!; try done.
  - by apply (index_ok_ext base ext ext'); [apply He|].
  - intros p. split; [done|]. intros (c & t & Hl). by apply Hno in Hl.
  - intros [(p & c & t & Hl)|?]; [|done]. by apply Hno in Hl.
Qed.

(** The entry was made. *)
Lemma get_ob_post_insert base ext ix k w2 pre post :
  index_ok base ext ix → key_ok k → bucket_chain ix (bucket_index (ix_htable ix) k) (pre ++ post) →
  found k pre post None → (∀ p c t, ¬ lives ix p k c t) →
  refs_up (ix_world ix) w2 → (∀ id, ref_count w2 id = ref_count (ix_world ix) id) →
  ∃ ix', insert_entry k uniq_skiplist_new (last_ptr pre) (set_world w2 ix) = Some ix' ∧
    get_ob_post base ext ix k true (Some (ix_next_ob ix)) ix'.
Proof using UniqSkiplistSpec0.
  intros I Hk Hc Hf Hno U R. pose proof (io_wf _ _ _ I) as W.
  destruct (insert_entry_run k uniq_skiplist_new (set_world w2 ix) pre post)
    as (ix' & E & W' & Hnew & Hothers & Hw & Hcap & Hfl); [by apply wf_world|done| |done|].
  { destruct Hc as [C1 C2 C3]. by split. }
  simpl in *. exists ix'. split; [done|].
  assert (Hfresh : ix_obs ix !! ix_next_ob ix = None).
  { destruct (ix_obs ix !! ix_next_ob ix) as [f|] eqn:Ef; [|done].
    pose proof (iw_fresh _ W _ _ Ef). lia. }
  assert (Hlv : ∀ q k' c t, lives ix' q k' c t → q = ix_next_ob ix ∧ k' = k ∧ c = 0 ∧ t = uniq_skiplist_new
    ∨ lives ix q k' c t).
  { intros q k' c t Hq. destruct (decide (q = ix_next_ob ix)) as [->|Hne].
    - left. destruct (lives_fun _ _ _ _ _ _ _ _ Hq Hnew) as (-> & -> & ->). done.
    - right. by apply Hothers in Hq. }
  destruct (index_ok_lives base ext ix ix' I W') as (ext' & I' & _ & He).
  - unfold all_slices. apply lives_entry in Hnew as (e & Hne & Hco).
    rewrite (obs_slices_delete _ _ _ Hne).
    assert (sl_level0 (ob_slices e) = []) as ->.
    { unfold core in Hco. injection Hco as _ _ ->. apply sl_new_level0. }
    simpl. apply obs_slices_core. intros q. destruct (decide (q = ix_next_ob ix)) as [->|Hq].
    + by rewrite lookup_delete_eq, Hfresh.
    + rewrite lookup_delete_ne by done. apply option_eq. intros [[k' c] t]. by apply Hothers.
  - intros q k' c t Hq. destruct (Hlv _ _ _ _ Hq) as [(-> & -> & -> & ->)|Hq'].
    + split; [done|]. left. split; rewrite sl_new_level0; [apply slices_wf_nil|].
      by intros s ?%elem_of_nil.
    + split; [by eapply (io_block _ _ _ I)|]. right. by exists c.
  - done.
  - by rewrite Hw.
  - split_and!; [| | | |done|].
    + apply (index_ok_ext base ext ext'); [|done]. apply He. intros. by rewrite Hw, R.
    + intros q k' c t Hk'. split.
      * intros Hq. by destruct (Hlv _ _ _ _ Hq) as [(_ & ? & _)|?].
      * intros Hq. apply Hothers; [|done]. intros ->. unfold lives in Hq. by rewrite Hfresh in Hq.
    + intros p. split; [intros [= <-]; eauto|]. intros (c & t & Hl).
      destruct (Hlv _ _ _ _ Hl) as [(-> & _)|Hl']; [done|by apply Hno in Hl'].
    + intros [(p & c & t & Hl)|?]; [|done]. by apply Hno in Hl.
    + by intros _ p [= <-].
Qed.

Lemma take_mem_up w : refs_up w (take_mem w).2 ∧ (∀ id, ref_count (take_mem w).2 id = ref_count w id).
Proof using.
  unfold take_mem. destruct (w_mem w); (split; [|done]); [apply refs_up_refl|apply refs_up_mem].
Qed.

(** The search finds the entry of the block and the link before it. *)
Lemma get_ob_search_run base ext ix k :
  index_ok base ext ix → key_ok k →
  ∃ pre post r, bucket_chain ix (bucket_index (ix_htable ix) k) (pre ++ post) ∧ found k pre post r ∧
    chain_search (ix_obs ix) (ht_buckets (ix_htable ix) !! bucket_index (ix_htable ix) k) k
      = Some (r, last_ptr pre) ∧
    (∀ p, r = Some p ↔ ∃ c t, lives ix p k c t) ∧
    match r with
    | Some p => ∃ e rest, post = (p, e) :: rest ∧ ix_obs ix !! p = Some e ∧ ob_bkey e = k
    | None => ∀ p c t, ¬ lives ix p k c t
    end.
Proof using.
  intros I Hk. pose proof (io_wf _ _ _ I) as W.
  destruct (get_ob_entry_found k ix W) as (pre & post & r & Hc & Hf & Hsearch).
  pose proof (found_lives k ix pre post r W Hk Hc Hf) as Hr.
  exists pre, post, r. split_and!; try done. intros p. destruct r as [p'|].
  - destruct Hr as (e & rest & _ & He & Hke).
    assert (Hp' : lives ix p' k (ob_reclaiming_count e) (ob_slices e)).
    { apply lives_entry. exists e. split; [done|]. unfold core. by rewrite Hke. }
    split; [intros [= <-]; eauto|]. intros (c & t & Hl). f_equal. by eapply lives_unique.
  - split; [done|]. intros (c & t & Hl). by apply Hr in Hl.
Qed.

Lemma get_ob_entry_ex_run base ext ix k (create_flag : bool) :
  index_ok base ext ix → key_ok k →
  ∃ ob pprev ix', get_ob_entry_ex k create_flag ix = Some ((ob, pprev), ix') ∧
    get_ob_post base ext ix k create_flag ob ix'.
Proof using UniqSkiplistSpec0.
  intros I Hk.
  destruct (get_ob_search_run base ext ix k I Hk) as (pre & post & r & Hc & Hf & Hs & Hsame & Hr).
  destruct create_flag; cycle 1.
  { rewrite get_ob_entry_search, Hs. eexists _, _, _. split; [done|]. by apply get_ob_post_search. }
  rewrite get_ob_entry_create, Hs. destruct r as [p|].
  { eexists _, _, _. split; [done|]. by apply get_ob_post_search. }
  destruct (take_mem_up (ix_world ix)) as [U1 R1].
  destruct (take_mem (ix_world ix)) as [ok1 w1] eqn:T1. simpl in U1, R1. destruct ok1; simpl; cycle 1.
  { eexists _, _, _. split; [done|]. apply get_ob_post_nomem; try done.
    intros Hm. rewrite take_mem_ok in T1; done. }
  destruct (take_mem_up w1) as [U2 R2]. destruct (take_mem w1) as [ok2 w2] eqn:T2. simpl in U2, R2.
  assert (U : refs_up (ix_world ix) w2) by (by eapply refs_up_trans).
  assert (R : ∀ id, ref_count w2 id = ref_count (ix_world ix) id) by (intros; by rewrite R2).
  destruct ok2; simpl; cycle 1.
  { eexists _, _, _. split; [done|]. apply get_ob_post_nomem; try done.
    intros Hm. rewrite take_mem_ok in T1 by done. injection T1 as <-. rewrite take_mem_ok in T2; done. }
  destruct (get_ob_post_insert base ext ix k w2 pre post I Hk Hc Hf Hr U R) as (ix' & E & Hp).
  rewrite E. eauto 10.
Qed.

(** the search of a bucket chain ends, and finds exactly the entry of the block if
    there is one; with [create_flag] it otherwise makes an empty entry for it, unless
    memory runs out; every other entry stays as it is. *)
Theorem get_ob_entry_ex_ok base ext ix k (create_flag : bool) :
  index_ok base ext ix → key_ok k →
  ∃ ob pprev ix', get_ob_entry_ex k create_flag ix = Some ((ob, pprev), ix') ∧
    get_ob_post base ext ix k create_flag ob ix'.
Proof using UniqSkiplistSpec0. apply get_ob_entry_ex_run. Qed.

(** ** The operations on the slices of a block *)

(** The entry at [p] now has the slices [t'] (and [c'] reclaims); nothing else
    changed. *)
Definition block_changed ix ix' p k (c' : Z) (t' : T) : Prop :=
  ∀ q k1 c1 t1, lives ix' q k1 c1 t1 ↔
    if decide (q = p) then k1 = k ∧ c1 = c' ∧ t1 = t' else lives ix q k1 c1 t1.
Definition unchanged ix ix' : Prop := ∀ q k c t, lives ix' q k c t ↔ lives ix q k c t.

Lemma must_wait_run ix p k c t is_reclaim :
  lives ix p k c t → must_wait p is_reclaim ix = Some (negb is_reclaim && (0 <? c), ix).
Proof using.
  intros (e & He & Hc)%lives_entry. unfold must_wait, deref, mbind, IM_bind, mret, IM_ret.
  rewrite He. simpl. by injection Hc as _ -> _.
Qed.

(** An algorithm on the slices of a live entry, as a change of the index. *)
Lemma on_slices_run {B} (m : M (T * World A) B) ix p k c t r t' w' :
  index_wf ix → lives ix p k c t → m (t, ix_world ix) = (r, (t', w')) →
  ∃ ix', on_slices p m ix = Some (r, ix') ∧ index_wf ix' ∧ block_changed ix ix' p k c t' ∧
    ix_world ix' = w' ∧ ht_flags (ix_htable ix') = ht_flags (ix_htable ix) ∧
    ix_htable ix' = ix_htable ix ∧
    (∃ rest, all_slices ix ≡ₚ sl_level0 t ++ rest ∧ all_slices ix' ≡ₚ sl_level0 t' ++ rest) ∧
    ∃ e, ix_obs ix !! p = Some e ∧ core e = (k, c, t) ∧
      ix' = set_world w' (set_obs (<[p := ob_set_slices t' e]> (ix_obs ix)) ix).
Proof using.
  intros W (e & He & Hc)%lives_entry Hm. rewrite (on_slices_eq m p ix e He).
  assert (Ht : ob_slices e = t) by (unfold core in Hc; congruence).
  assert (Hk : ob_bkey e = k) by (unfold core in Hc; congruence).
  assert (Hrc : ob_reclaiming_count e = c) by (unfold core in Hc; congruence).
  rewrite Ht, Hm. simpl. eexists. split; [done|]. split_and!; try done.
  - by eapply wf_store.
  - intros q k1 c1 t1. rewrite (lives_set_slices _ _ _ _ _ _ _ _ _ He), Hk, Hrc. done.
  - exists (obs_slices (delete p (ix_obs ix))). unfold all_slices. simpl. split.
    + by rewrite (obs_slices_delete _ _ _ He), Ht.
    + by rewrite (obs_slices_update _ _ _ _ He).
  - eauto.
Qed.

Lemma unchanged_same ix ix' p k c t :
  lives ix p k c t → block_changed ix ix' p k c t → unchanged ix ix'.
Proof using.
  intros Hl Hb q k1 c1 t1. rewrite (Hb q k1 c1 t1). case_decide as Hq; [|done]. subst q. split.
  - by intros (-> & -> & ->).
  - intros Hq. by destruct (lives_fun _ _ _ _ _ _ _ _ Hq Hl) as (-> & -> & ->).
Qed.

(** An error of an algorithm: the slices are the same, at most references were added. *)
Lemma index_ok_error base ext ix ix' p k c t rest :
  index_ok base ext ix → index_wf ix' → lives ix p k c t → block_changed ix ix' p k c t →
  all_slices ix ≡ₚ sl_level0 t ++ rest → all_slices ix' ≡ₚ sl_level0 t ++ rest →
  ht_flags (ix_htable ix') = ht_flags (ix_htable ix) → refs_up (ix_world ix) (ix_world ix') →
  ∃ ext', index_ok base ext' ix' ∧ ∀ id, ext id <= ext' id.
Proof using.
  intros I W' Hl Hb H1 H2 Hf Hup. pose proof (unchanged_same _ _ _ _ _ _ Hl Hb) as Hu.
  destruct (index_ok_lives base ext ix ix' I W') as (ext' & I' & Hle & _); eauto.
  - by rewrite H1, H2.
  - intros q k1 c1 t1 Hq. apply Hu in Hq. split; [by eapply (io_block _ _ _ I)|]. eauto.
Qed.

(** Taking the next [sn] and changing counts keeps the chains. *)
Lemma next_sn_run sn ix :
  next_sn sn ix = Some (if sn then Some (w_sn (ix_world ix) + 1) else None,
    if sn then set_world (mkWorld (w_mem (ix_world ix)) (w_next (ix_world ix)) (w_refs (ix_world ix))
      (w_acct (ix_world ix)) (w_sn (ix_world ix) + 1)) ix else ix).
Proof using. by destruct sn. Qed.

(** The world changed only in its counts of references (by [d]) and in [w_sn]. *)
Lemma index_ok_world base ext ix w' (d : Z → Z) :
  index_ok base ext ix → w_acct w' = w_acct (ix_world ix) →
  (∀ id, ref_count w' id = ref_count (ix_world ix) id + d id) → refs_pos w' →
  (∀ id, 0 <= ext id + d id) →
  index_ok base (λ id, ext id + d id) (set_world w' ix).
Proof using.
  intros I Ha Hr Hp Hd.
  apply (index_ok_change base ext _ ix _ [] [] (all_slices ix)); try done.
  - by apply wf_world, I.
  - intros q k c t Hq. split; [by eapply (io_block _ _ _ I)|]. right. by exists c.
  - unfold known. simpl. by rewrite Ha.
  - intros id. simpl. rewrite Hr, occ_nil. lia.
  - eapply acct_shift_ext; [|by apply (acct_shift_refl _ (ix_world ix))]. done.
Qed.
End Contract.
