(* ===== verification/ObIndexMain.v ===== *)
(** * The operations of the object block index

    [ob_index_add_slice_ex], [ob_index_delete_slices_ex], [ob_index_delete_block_ex],
    [ob_index_get_slices_ex], the reclaim lock and [ob_index_alloc_slice_ex] in a
    well-formed index. *)
From S2P Require Import Prelude Types Skiplist ObSlices ObSlicesRun.
From S2P Require Import ObSlicesThms ObSlicesMain ObSlicesGet ObIndex ObIndexSpec ObIndexOps ObIndexThms.

Section Operations.
Context {T A : Type} `{!UniqSkiplist OBSliceEntry T} `{!SliceAccount A}.
Context `{!UniqSkiplistSpec slice_compare} `{!SliceAccountSpec A}.
Implicit Types (ix : Index T A) (k : FSBlockKey) (p q : Z) (e : OBEntry T) (t : T)
  (w : World A) (base : Z → Z → Z) (ext : Z → Z).

Lemma ibind_run {B C} (m : IM T A B) (f : B → IM T A C) ix b ix1 :
  m ix = Some (b, ix1) → (m ≫= f) ix = f b ix1.
Proof using. intros H. unfold mbind, IM_bind. by rewrite H. Qed.
Lemma ibind_flags {C} (f : OBFlags → IM T A C) ix :
  (get_flags ≫= f) ix = f (ht_flags (ix_htable ix)) ix.
Proof using. done. Qed.
Lemma ibind_world {B C} (m : World A → B * World A) (f : B → IM T A C) ix :
  (iworld m ≫= f) ix = f (m (ix_world ix)).1 (set_world (m (ix_world ix)).2 ix).
Proof using. unfold mbind, IM_bind, iworld. by destruct (m (ix_world ix)). Qed.

Lemma lives_block base ext ix p k c t :
  index_ok base ext ix → lives ix p k c t →
  slices_wf (sl_level0 t) ∧ (∀ s, s ∈ sl_level0 t → known (ix_world ix) s) ∧ 0 <= c.
Proof using.
  intros I Hl. destruct (io_block _ _ _ I _ _ _ _ Hl) as [[H1 H2] H3].
  split_and!; [done| |done]. intros s Hs. by apply H2.
Qed.

(** The next number of the slice binlog, if one is asked for. *)
Definition sn_taken (sn : bool) ix ix' (n : option Z) : Prop :=
  n = (if sn then Some (w_sn (ix_world ix) + 1) else None) ∧
  w_sn (ix_world ix') = w_sn (ix_world ix) + (if sn then 1 else 0).

(** [next_sn] after the index was brought to [ix1]. *)
Lemma sn_taken_run base ext sn ix ix1 :
  index_ok base ext ix1 → w_sn (ix_world ix1) = w_sn (ix_world ix) →
  ∃ n ix', next_sn sn ix1 = Some (n, ix') ∧ index_ok base ext ix' ∧ sn_taken sn ix ix' n ∧
    ix_obs ix' = ix_obs ix1.
Proof using.
  intros I Hsn. rewrite next_sn_run. eexists _, _. split; [done|]. destruct sn.
  - split_and!; [|split; simpl; by rewrite Hsn|done].
    apply (index_ok_ext base ext (λ id, ext id + 0)); [intros; lia|].
    apply index_ok_world; try done; try apply I.
    + intros id. unfold ref_count. simpl. lia.
    + intros id. pose proof (io_ext _ _ _ I id). lia.
  - split_and!; [done| |done]. split; [done|]. rewrite Hsn. lia.
Qed.

Lemma block_changed_obs ix ix1 ix2 p k c t :
  ix_obs ix2 = ix_obs ix1 → block_changed ix ix1 p k c t → block_changed ix ix2 p k c t.
Proof using. intros He H q k1 c1 t1. unfold lives. rewrite He. apply H. Qed.

(** ** Adding a slice *)

(** The part of [ob_index_add_slice_ex] after the wait, when [add_slice] succeeded. The list
    holds a reference that is only counted afterwards: [d] is what is counted. *)
Lemma add_slice_changes base ext ix slice p k c t inc t' w' :
  index_ok base ext ix → lives ix p k c t → se_ob slice = p → valid_slice slice →
  known (ix_world ix) slice →
  add_slice (ht_flags (ix_htable ix)) slice (t, ix_world ix) = (inr inc, (t', w')) →
  ∃ ix1, on_slices p (add_slice (ht_flags (ix_htable ix)) slice) ix = Some (inr inc, ix1) ∧
    (∀ w2 (d : Z → Z), w_acct w2 = w_acct (ix_world ix1) →
       (∀ id, ref_count w2 id = ref_count (ix_world ix1) id + d id) → refs_pos w2 →
       (∀ id, 0 <= ext id - occ id [slice] + d id) →
       index_ok base (λ id, ext id - occ id [slice] + d id) (set_world w2 ix1)) ∧
    refs_pos (ix_world ix1) ∧ (∀ id, ref_count (ix_world ix1) id + occ id [slice] >= 0) ∧
    block_changed ix ix1 p k c t' ∧
    w_sn (ix_world ix1) = w_sn (ix_world ix) ∧ ht_flags (ix_htable ix1) = ht_flags (ix_htable ix) ∧
    slices_wf (sl_level0 t') ∧
    (∀ b, lookup_byte (sl_level0 t') b =
       if decide (covers slice b) then Some (loc_at slice b) else lookup_byte (sl_level0 t) b) ∧
    inc = total_len (sl_level0 t') - total_len (sl_level0 t).
Proof using UniqSkiplistSpec0 SliceAccountSpec0.
  intros I Hl Hp Hv Hk E. destruct (lives_block _ _ _ _ _ _ _ I Hl) as (Hwf & HkL & Hc).
  pose proof (add_slice_run (ht_flags (ix_htable ix)) slice t (ix_world ix) Hwf Hv Hk HkL) as Hrun.
  rewrite E in Hrun.
  destruct Hrun as (_ & new & Hadd & Hinc & Hr & Hpos & Hacct & Hkn & Hsn & _).
  destruct (on_slices_run (add_slice (ht_flags (ix_htable ix)) slice) ix p k c t (inr inc) t' w'
    (io_wf _ _ _ I) Hl E) as (ix1 & Eq & W1 & Hb & Hw & Hf & _ & (rest & P1 & P2) & _).
  exists ix1. split; [done|]. assert (Hpw : refs_pos w').
  { apply Hpos; [|apply I]. intros id. rewrite (io_refs _ _ _ I), (occ_perm _ _ _ P1), occ_app.
    pose proof (occ_nonneg id rest). pose proof (io_ext _ _ _ I id). lia. }
  assert (Hrc : ∀ id, ref_count w' id = ref_count (ix_world ix) id + occ id (sl_level0 t') - occ id [slice] - occ id (sl_level0 t)).
  { intros id. rewrite Hr, (added_occ _ _ _ _ id Hadd). lia. }
  split_and!; try done.
  - intros w2 d Hwa Hwr Hwp Hd. rewrite Hw in Hwa, Hwr.
    apply (index_ok_change base ext _ ix (set_world w2 ix1) (sl_level0 t) (sl_level0 t') rest); try done.
    + by apply wf_world.
    + intros q k1 c1 t1 Hq. apply Hb in Hq. case_decide as Hqp; [|].
      * destruct Hq as (-> & -> & ->). subst q. split; [done|]. left. split; [apply Hadd|].
        destruct Hadd as [Hperm Hwf' (l1 & Hcut & Hp1)]. intros s Hs.
        rewrite Hp1 in Hs. unfold known. simpl. rewrite Hwa.
        apply elem_of_cons in Hs as [->|Hs]; [split; [done|by apply Hkn]|].
        assert (Hab : soff slice < send slice) by (unfold valid_slice, send in *; lia).
        destruct (cut_origin _ _ _ _ _ s Hab Hwf Hcut Hs) as (x & Hx & E1 & E2 & E3).
        destruct (io_block _ _ _ I _ _ _ _ Hl) as [[_ Hd2] _]. destruct (Hd2 x Hx) as [Hob Hdk].
        split; [congruence|]. apply Hkn in Hdk. unfold known in *. by rewrite E2, E3.
      * split; [by eapply (io_block _ _ _ I)|]. right. by exists c1.
    + unfold known. simpl. rewrite Hwa. exact Hkn.
    + intros id. simpl. rewrite Hwr, Hrc. lia.
    + simpl. eapply acct_shift_ext; [intros st id; by apply added_sizes|].
      unfold acct_shift in *. simpl. rewrite Hwa. exact Hacct.
  - by rewrite Hw.
  - intros id. rewrite Hw, Hrc, (io_refs _ _ _ I), (occ_perm _ _ _ P1), occ_app.
    pose proof (occ_nonneg id rest). pose proof (io_ext _ _ _ I id). pose proof (occ_nonneg id (sl_level0 t')). lia.
  - by rewrite Hw.
  - apply Hadd.
  - intros b. by apply (added_lookup _ _ new).
  - rewrite Hinc, (added_total _ _ _ _ Hwf Hv Hadd). lia.
Qed.

(** The outcomes of [ob_index_add_slice_ex]. *)
Definition add_slice_outcome base ext ix slice (sn is_reclaim : bool) k c t out ix' : Prop :=
    (out = Waits ↔ is_reclaim = false ∧ 0 < c) ∧
    (w_mem (ix_world ix) = [] → ∀ err, out ≠ Done (inl err)) ∧
    match out with
    | Waits => ix' = ix
    | Done (inl err) => err = ENOMEM ∧ unchanged ix ix' ∧
        ∃ ext', index_ok base ext' ix' ∧ ∀ id, ext id <= ext' id
    | Done (inr (inc, n)) => ∃ t', index_ok base ext ix' ∧
        block_changed ix ix' (se_ob slice) k c t' ∧ sn_taken sn ix ix' n ∧
        (∀ b, lookup_byte (sl_level0 t') b =
           if decide (covers slice b) then Some (loc_at slice b) else lookup_byte (sl_level0 t) b) ∧
        inc = total_len (sl_level0 t') - total_len (sl_level0 t)
    end.

Lemma ob_index_add_slice_ex_run base ext ix slice (sn is_reclaim : bool) k c t :
  index_ok base ext ix → lives ix (se_ob slice) k c t → valid_slice slice →
  known (ix_world ix) slice →
  ∃ out ix', ob_index_add_slice_ex slice sn is_reclaim ix = Some (out, ix') ∧
    add_slice_outcome base ext ix slice sn is_reclaim k c t out ix'.
Proof using UniqSkiplistSpec0 SliceAccountSpec0.
  intros I Hl Hv Hk. unfold ob_index_add_slice_ex, add_slice_outcome.
  rewrite (ibind_run _ _ _ _ _ (must_wait_run _ _ _ _ _ is_reclaim Hl)).
  destruct (negb is_reclaim && (0 <? c)) eqn:Hwait.
  { eexists _, _. split; [done|]. zbool. destruct is_reclaim; [done|]. by split_and!. }
  assert (Hnw : ¬ (is_reclaim = false ∧ 0 < c)).
  { intros [-> H]. simpl in Hwait. zbool. lia. }
  rewrite ibind_flags. destruct (lives_block _ _ _ _ _ _ _ I Hl) as (Hwf & HkL & Hc).
  destruct (add_slice (ht_flags (ix_htable ix)) slice (t, ix_world ix)) as [[e|inc] [t' w']] eqn:E.
  - pose proof (add_slice_run (ht_flags (ix_htable ix)) slice t (ix_world ix) Hwf Hv Hk HkL) as Hrun.
    rewrite E in Hrun. destruct Hrun as (Hmem & -> & -> & Hup).
    destruct (on_slices_run (add_slice (ht_flags (ix_htable ix)) slice) ix _ k c t _ _ _
      (io_wf _ _ _ I) Hl E) as (ix1 & Eq & W1 & Hb & Hw & Hf & _ & (rest & P1 & P2) & _).
    rewrite (ibind_run _ _ _ _ _ Eq). eexists _, _. split; [done|].
    split_and!; [by split|intros Hm; destruct (Hmem Hm) as (? & ?); done|done| |].
    + by eapply unchanged_same.
    + eapply index_ok_error; try done. by rewrite Hw.
  - destruct (add_slice_changes base ext ix slice _ k c t inc t' w' I Hl eq_refl Hv Hk E)
      as (ix1 & Eq & I1 & Hp1 & Hr1 & Hb & Hsn & Hf & _ & Hlk & Hinc).
    rewrite (ibind_run _ _ _ _ _ Eq), ibind_world. simpl.
    set (ix2 := set_world _ ix1).
    assert (Hc1 : ∀ id, occ id [slice] = if decide (se_id slice = id) then 1 else 0).
    { intros id. rewrite occ_cons, occ_nil. case_decide as Hd; destruct (Z.eqb_spec (se_id slice) id); done. }
    assert (I2 : index_ok base ext ix2).
    { apply (index_ok_ext base ext (λ id, ext id - occ id [slice] + occ id [slice])); [intros; lia|].
      apply I1; [done| | |].
      - intros id. rewrite ref_count_add, occ_cons, occ_nil. lia.
      - apply refs_pos_add; [|done]. specialize (Hr1 (se_id slice)). rewrite Hc1, decide_True in Hr1 by done. lia.
      - intros id. pose proof (io_ext _ _ _ I id). lia. }
    destruct (sn_taken_run base ext sn ix ix2 I2) as (n & ix3 & E3 & I3 & Hn & Ho); [done|].
    rewrite (ibind_run _ _ _ _ _ E3). eexists _, _. split; [done|].
    split_and!; [by split|done|]. exists t'. split_and!; try done.
    eapply block_changed_obs; [exact Ho|done].
Qed.

(** [ob_index_add_slice_ex] always returns. It waits exactly when the block is
    being reclaimed and the caller is not the reclaimer, and then changes nothing. On
    success the block maps the slice's bytes to the slice and every other byte as
    before, every other block is untouched, the caller keeps its reference (the list
    has its own), [*inc_alloc] is the number of bytes newly mapped, and a number of
    the slice binlog is taken if asked for. It can fail with [ENOMEM] only, and then
    no block changed. *)
Theorem ob_index_add_slice_ex_ok base ext ix slice (sn is_reclaim : bool) k c t :
  index_ok base ext ix → lives ix (se_ob slice) k c t → valid_slice slice →
  known (ix_world ix) slice → 0 < ext (se_id slice) →
  ∃ out ix', ob_index_add_slice_ex slice sn is_reclaim ix = Some (out, ix') ∧
    add_slice_outcome base ext ix slice sn is_reclaim k c t out ix'.
Proof using UniqSkiplistSpec0 SliceAccountSpec0. intros I Hl Hv Hk _. by apply ob_index_add_slice_ex_run. Qed.

(** ** Deleting an extent *)

(** The entry at [p] is gone. *)
Definition block_removed ix ix' p : Prop := ∀ q k c t, lives ix' q k c t ↔ q ≠ p ∧ lives ix q k c t.

(** The block of [p] after its slices became [t']: an empty block is removed. *)
Definition block_after ix ix' p k c t' : Prop :=
  if uniq_skiplist_empty t' then block_removed ix ix' p else block_changed ix ix' p k c t'.

Lemma removed_after_change ix ix1 ix2 p k c t :
  block_changed ix ix1 p k c t → block_removed ix1 ix2 p → block_removed ix ix2 p.
Proof using.
  intros H1 H2 q k1 c1 t1. rewrite (H2 q k1 c1 t1), (H1 q k1 c1 t1).
  case_decide; [by split; intros [? _]|done].
Qed.

(** Removing an entry the search found. *)
Lemma remove_found base ext ix b pre post p e :
  index_ok base ext ix → bucket_chain ix b (pre ++ (p, e) :: post) →
  ∃ ix', OB_INDEX_DELETE_OB_ENTRY b p (last_ptr pre) ix = Some (tt, ix') ∧ index_wf ix' ∧
    block_removed ix ix' p ∧ ix_world ix' = uniq_skiplist_free (ob_slices e) (ix_world ix) ∧
    ht_flags (ix_htable ix') = ht_flags (ix_htable ix) ∧
    ∃ rest, all_slices ix ≡ₚ sl_level0 (ob_slices e) ++ rest ∧ all_slices ix' ≡ₚ rest.
Proof using.
  intros I Hc. destruct (OB_INDEX_DELETE_OB_ENTRY_run ix b pre post p e (io_wf _ _ _ I) Hc)
    as (ix' & E & W' & Hl & Hw & _ & Hf).
  exists ix'. split_and!; try done.
  assert (He : ix_obs ix !! p = Some e).
  { apply (is_seg_elem _ _ _ _ p e (bc_seg _ _ _ Hc)). apply elem_of_app. right. by left. }
  exists (obs_slices (delete p (ix_obs ix))). split; [by apply obs_slices_delete|].
  apply obs_slices_core. intros q. destruct (decide (q = p)) as [->|Hq].
  - rewrite lookup_delete_eq. simpl. destruct (ix_obs ix' !! p) as [f|] eqn:Ef; [|done].
    assert (Hlf : lives ix' p (ob_bkey f) (ob_reclaiming_count f) (ob_slices f))
      by (unfold lives; by rewrite Ef).
    apply Hl in Hlf as [? _]. done.
  - rewrite lookup_delete_ne by done. apply option_eq. intros [[k c] t].
    split; intros H; [by apply Hl in H as [_ ?]|by apply Hl].
Qed.

Lemma free_empty t w : uniq_skiplist_empty t = true → uniq_skiplist_free t w = w.
Proof using.
  unfold uniq_skiplist_empty, uniq_skiplist_free. by destruct (sl_level0 t).
Qed.

(** [delete_slices] on a live entry, when it succeeded. *)
Lemma delete_slices_success base ext ix bs p k c t x t' w' :
  index_ok base ext ix → lives ix p k c t → 0 < ss_length (bs_slice bs) →
  delete_slices (ht_flags (ix_htable ix)) bs (t, ix_world ix) = (inr x, (t', w')) →
  ∃ ix1 e, on_slices p (delete_slices (ht_flags (ix_htable ix)) bs) ix = Some (inr x, ix1) ∧
    index_ok base ext ix1 ∧ block_changed ix ix1 p k c t' ∧
    w_sn (ix_world ix1) = w_sn (ix_world ix) ∧ ix_htable ix1 = ix_htable ix ∧
    ix_obs ix !! p = Some e ∧ core e = (k, c, t) ∧
    ix1 = set_world w' (set_obs (<[p := ob_set_slices t' e]> (ix_obs ix)) ix).
Proof using UniqSkiplistSpec0 SliceAccountSpec0.
  intros I Hl Hlen E. destruct (lives_block _ _ _ _ _ _ _ I Hl) as (Hwf & HkL & Hc).
  pose proof (delete_slices_run (ht_flags (ix_htable ix)) bs t (ix_world ix) Hwf Hlen HkL) as Hrun.
  cbn zeta in Hrun. rewrite E in Hrun. destruct x as [count dec].
  set (a := ss_offset (bs_slice bs)) in *. set (b := a + ss_length (bs_slice bs)) in *.
  destruct Hrun as (_ & new & Hcut & _ & _ & _ & Hr & Hpos & Hacct & Hkn & Hsn & _).
  destruct (on_slices_run (delete_slices (ht_flags (ix_htable ix)) bs) ix p k c t _ t' w'
    (io_wf _ _ _ I) Hl E) as (ix1 & Eq & W1 & Hb & Hw & Hf & Hht & (rest & P1 & P2) & e & He & Hco & Hix).
  exists ix1, e. split; [done|].
  assert (Hpw : refs_pos w').
  { apply Hpos; [|apply I]. intros id. rewrite (io_refs _ _ _ I), (occ_perm _ _ _ P1), occ_app.
    pose proof (occ_nonneg id rest). pose proof (io_ext _ _ _ I id). lia. }
  split_and!; try done; [|by rewrite Hw].
  apply (index_ok_change base ext ext ix ix1 (sl_level0 t) (sl_level0 t') rest); try done.
  - intros q k1 c1 t1 Hq. apply Hb in Hq. case_decide as Hqp.
    + destruct Hq as (-> & -> & ->). subst q. split; [done|]. left.
      split; [apply (ct_wf _ _ _ _ _ Hcut)|]. rewrite Hw. intros s Hs.
      assert (Hab : a < b) by (unfold b; lia).
      destruct (cut_origin _ _ _ _ _ s Hab Hwf Hcut Hs) as (d & Hd & E1 & E2 & E3).
      destruct (io_block _ _ _ I _ _ _ _ Hl) as [[_ Hd2] _]. destruct (Hd2 d Hd) as [Hob Hdk].
      split; [congruence|]. apply Hkn. unfold known in *. by rewrite E2, E3.
    + split; [by eapply (io_block _ _ _ I)|]. right. by exists c1.
  - by rewrite Hw.
  - intros id. rewrite Hw, Hr, (occ_perm _ _ _ (ct_perm _ _ _ _ _ Hcut)), occ_app.
    rewrite (occ_split id a b (sl_level0 t)). lia.
  - by rewrite Hw.
  - apply I.
  - rewrite Hw. eapply acct_shift_ext; [|exact Hacct]. intros st id. unfold sizes_in.
    rewrite (sumZ_perm _ _ _ (ct_perm _ _ _ _ _ Hcut)), sumZ_app.
    pose proof (sizes_in_split st id a b (sl_level0 t)). unfold sizes_in in *. lia.
Qed.

(** The removal of a block that became empty. *)
Lemma drop_if_empty base ext ix bs pre post p e k c t t' w' :
  let ix1 := set_world w' (set_obs (<[p := ob_set_slices t' e]> (ix_obs ix)) ix) in
  ix_obs ix !! p = Some e → core e = (k, c, t) → index_ok base ext ix1 →
  bucket_chain ix (bucket_index (ix_htable ix) (bs_block bs)) (pre ++ (p, e) :: post) →
  block_changed ix ix1 p k c t' →
  ∃ ix2, (if uniq_skiplist_empty t'
          then OB_INDEX_DELETE_OB_ENTRY (bucket_index (ix_htable ix1) (bs_block bs)) p (last_ptr pre)
          else mret tt) ix1 = Some (tt, ix2) ∧
    index_ok base ext ix2 ∧ block_after ix ix2 p k c t' ∧ ix_world ix2 = w'.
Proof using.
  intros ix1 He Hco I1 Hc Hb. unfold block_after.
  destruct (uniq_skiplist_empty t') eqn:Hemp; [|eexists; by split].
  pose proof (bucket_chain_store ix p e (ob_set_slices t' e) w' _ _ He eq_refl eq_refl Hc) as Hc1.
  rewrite fmap_app, fmap_cons in Hc1. unfold replace_entry at 2 in Hc1. simpl in Hc1.
  rewrite decide_True in Hc1 by done. rewrite <- (replace_last_ptr p (ob_set_slices t' e) pre).
  destruct (remove_found base ext ix1 _ _ _ _ _ I1 Hc1)
    as (ix2 & E & W2 & Hr & Hw & Hf & rest & P1 & P2).
  exists ix2. split; [exact E|]. simpl in Hw. rewrite free_empty in Hw by done.
  split_and!; [|by eapply removed_after_change|done].
  assert (Hnil : sl_level0 t' = []).
  { unfold uniq_skiplist_empty in Hemp. by destruct (sl_level0 t'). }
  simpl in P1. rewrite Hnil in P1.
  apply (index_ok_change base ext ext ix1 ix2 [] [] rest); try done.
  - intros q k1 c1 t1 [_ Hq]%Hr. split; [by eapply (io_block _ _ _ I1)|]. right. by exists c1.
  - unfold known. by rewrite Hw.
  - intros id. by rewrite Hw.
  - rewrite Hw. apply I1.
  - apply I1.
  - eapply acct_shift_ext; [|apply (acct_shift_refl _ (ix_world ix1)); by rewrite Hw]. done.
Qed.

(** The entry a search found, as [lives]. *)
Lemma found_entry_lives ix p e k :
  ix_obs ix !! p = Some e → ob_bkey e = k →
  lives ix p k (ob_reclaiming_count e) (ob_slices e).
Proof using. intros He <-. unfold lives. by rewrite He. Qed.

Definition extent_start (bs : FSBlockSliceKeyInfo) : Z := ss_offset (bs_slice bs).
Definition extent_end (bs : FSBlockSliceKeyInfo) : Z := ss_offset (bs_slice bs) + ss_length (bs_slice bs).

(** The outcomes of [ob_index_delete_slices_ex]. *)
Definition delete_slices_outcome base ext ix bs (sn is_reclaim : bool) out ix' : Prop :=
    (out = Waits ↔ is_reclaim = false ∧ ∃ p c t, lives ix p (bs_block bs) c t ∧ 0 < c) ∧
    match out with
    | Waits => ix' = ix
    | Done (inl err) => unchanged ix ix' ∧
        (err = ENOMEM ∧ w_mem (ix_world ix) ≠ [] ∨
         err = ENOENT ∧ ∀ p c t b, lives ix p (bs_block bs) c t →
           extent_start bs <= b < extent_end bs → lookup_byte (sl_level0 t) b = None) ∧
        ∃ ext', index_ok base ext' ix' ∧ ∀ id, ext id <= ext' id
    | Done (inr (dec, n)) => ∃ p c t t', lives ix p (bs_block bs) c t ∧ index_ok base ext ix' ∧
        block_after ix ix' p (bs_block bs) c t' ∧ sn_taken sn ix ix' n ∧
        (∀ b, lookup_byte (sl_level0 t') b =
           if decide (extent_start bs <= b < extent_end bs) then None
           else lookup_byte (sl_level0 t) b) ∧
        dec = total_len (sl_level0 t) - total_len (sl_level0 t')
    end.

Lemma ob_index_delete_slices_ex_run base ext ix bs (sn is_reclaim : bool) :
  index_ok base ext ix → key_ok (bs_block bs) → 0 < ss_length (bs_slice bs) →
  ∃ out ix', ob_index_delete_slices_ex bs sn is_reclaim ix = Some (out, ix') ∧
    delete_slices_outcome base ext ix bs sn is_reclaim out ix'.
Proof using UniqSkiplistSpec0 SliceAccountSpec0.
  intros I Hk Hlen. unfold ob_index_delete_slices_ex, delete_slices_outcome.
  destruct (get_ob_search_run base ext ix _ I Hk) as (pre & post & r & Hc & Hfd & Hs & Hsame & Hr).
  assert (E0 : get_ob_entry_ex (bs_block bs) false ix = Some ((r, last_ptr pre), ix))
    by (by rewrite get_ob_entry_search, Hs).
  rewrite (ibind_run _ _ _ _ _ E0). cbn beta iota. destruct r as [p|]; cycle 1.
  { eexists _, _. split; [done|]. split; [|split_and!; [done| |eauto with lia]].
    - split; [done|]. intros (_ & p & c & t & Hl & _). by apply Hr in Hl.
    - right. split; [done|]. intros p c t b Hl. by apply Hr in Hl. }
  destruct Hr as (e & rest & -> & He & Hke).
  pose proof (found_entry_lives _ _ _ _ He Hke) as Hl.
  set (c := ob_reclaiming_count e) in *. set (t := ob_slices e) in *.
  assert (Hone : ∀ p' c' t', lives ix p' (bs_block bs) c' t' → c' = c ∧ t' = t).
  { intros p' c' t' Hl'. rewrite (lives_unique _ _ _ _ _ _ _ _ (io_wf _ _ _ I) Hl' Hl) in Hl'.
    by destruct (lives_fun _ _ _ _ _ _ _ _ Hl' Hl) as (_ & ? & ?). }
  unfold delete_slices_locked. rewrite (ibind_run _ _ _ _ _ (must_wait_run _ _ _ _ _ is_reclaim Hl)).
  destruct (negb is_reclaim && (0 <? c)) eqn:Hwait.
  { eexists _, _. split; [done|]. zbool. destruct is_reclaim; [done|]. split; [|done].
    split; [|done]. intros _. split; [done|]. eauto 10. }
  assert (Hnw : ¬ (is_reclaim = false ∧ ∃ p c t, lives ix p (bs_block bs) c t ∧ 0 < c)).
  { intros [-> (p' & c' & t' & Hl' & Hpos)]. destruct (Hone _ _ _ Hl') as [-> _].
    simpl in Hwait. zbool. lia. }
  rewrite ibind_flags. destruct (lives_block _ _ _ _ _ _ _ I Hl) as (Hwf & HkL & Hcc).
  pose proof (delete_slices_run (ht_flags (ix_htable ix)) bs t (ix_world ix) Hwf Hlen HkL) as Hrun.
  cbn zeta in Hrun.
  destruct (delete_slices (ht_flags (ix_htable ix)) bs (t, ix_world ix)) as [[err|x] [t' w']] eqn:E.
  - destruct Hrun as (Hmem & Herr & -> & Hup).
    destruct (on_slices_run (delete_slices (ht_flags (ix_htable ix)) bs) ix p _ c t _ _ _
      (io_wf _ _ _ I) Hl E) as (ix1 & Eq & W1 & Hb & Hw & Hf & _ & (rst & P1 & P2) & _).
    rewrite (ibind_run _ _ _ _ _ Eq). eexists _, _. split; [done|]. split; [by split|].
    split_and!; [by eapply unchanged_same| |].
    + destruct (decide (w_mem (ix_world ix) = [])) as [Hm|Hm].
      * right. destruct (Hmem Hm) as [[[= ->] H0]|[y ?]]; [|done]. split; [done|].
        intros p' c' t' b Hl' Hbb. destruct (Hone _ _ _ Hl') as [_ ->].
        apply lookup_byte_None. intros s Hsin Hcov.
        apply (proj1 (filter_nil_iff _ _) H0 s Hsin).
        unfold overlaps, covers, extent_start, extent_end in *. lia.
      * destruct Herr as [->|[-> H0]]; [by left|]. right. split; [done|].
        intros p' c' t' b Hl' Hbb. destruct (Hone _ _ _ Hl') as [_ ->].
        apply lookup_byte_None. intros s Hsin Hcov.
        apply (proj1 (filter_nil_iff _ _) H0 s Hsin).
        unfold overlaps, covers, extent_start, extent_end in *. lia.
    + eapply index_ok_error; try done. by rewrite Hw.
  - destruct (delete_slices_success base ext ix bs p _ c t x t' w' I Hl Hlen E)
      as (ix1 & e1 & Eq & I1 & Hb & Hsn & Hht & He1 & Hco & Hix).
    rewrite He in He1. injection He1 as <-. rewrite (ibind_run _ _ _ _ _ Eq).
    destruct x as [count dec]. destruct Hrun as (_ & new & Hcut & _ & _ & Hdec & _).
    assert (Hd : deref p ix1 = Some (ob_set_slices t' e, ix1)).
    { unfold deref. rewrite Hix. simpl. by rewrite lookup_insert_eq. }
    rewrite (ibind_run _ _ _ _ _ Hd). unfold iget at 1. rewrite (ibind_run _ _ ix1 ix1 ix1 eq_refl).
    rewrite Hix in I1, Hb.
    destruct (drop_if_empty base ext ix bs pre rest p e _ c t t' w' He Hco I1 Hc Hb)
      as (ix2 & E2 & I2 & Ha & Hw2).
    rewrite <- Hix in E2. rewrite (ibind_run _ _ _ _ _ E2).
    destruct (sn_taken_run base ext sn ix ix2 I2) as (n & ix3 & E3 & I3 & Hn & Ho).
    { rewrite Hw2. rewrite Hix in Hsn. exact Hsn. }
    rewrite (ibind_run _ _ _ _ _ E3). eexists _, _. split; [done|]. split; [by split|].
    exists p, c, t, t'. assert (Hab : extent_start bs < extent_end bs)
      by (unfold extent_start, extent_end; lia).
    split_and!; try done.
    + unfold block_after, block_removed, block_changed, lives in *. by rewrite Ho.
    + intros b. by apply (cut_lookup _ _ _ new).
    + rewrite (cut_total _ _ _ _ _ Hab Hwf Hcut). unfold extent_start, extent_end. lia.
Qed.

(** C32: [ob_index_delete_slices_ex] always returns. On success the block maps no byte
    of the extent and every other byte as before, a block left without slices is
    removed from its chain, every other block is untouched, [*dec_alloc] is the
    number of bytes unmapped, and counts and accounting stay exact. It answers
    [ENOENT] only when nothing in the extent was mapped, and no error changes a
    block. *)
Theorem ob_index_delete_slices_ex_ok base ext ix bs (sn is_reclaim : bool) :
  index_ok base ext ix → key_ok (bs_block bs) → 0 < ss_length (bs_slice bs) →
  ∃ out ix', ob_index_delete_slices_ex bs sn is_reclaim ix = Some (out, ix') ∧
    delete_slices_outcome base ext ix bs sn is_reclaim out ix'.
Proof using UniqSkiplistSpec0 SliceAccountSpec0. apply ob_index_delete_slices_ex_run. Qed.

(** ** Deleting a block *)

(** The frees of a whole list. *)
Lemma free_all_run (l : list OBSliceEntry) w :
  (∀ id, occ id l <= ref_count w id) → refs_pos w →
  let w' := foldl (λ w s, slice_free_func s w) w l in
  (∀ id, ref_count w' id = ref_count w id - occ id l) ∧ refs_pos w' ∧
  w_acct w' = w_acct w ∧ w_sn w' = w_sn w ∧ w_mem w' = w_mem w.
Proof using.
  revert w. induction l as [|s l IH]; intros w Hc Hp; simpl.
  { split_and!; try done. intros id. rewrite occ_nil. lia. }
  assert (Hs : ∀ v : World A, w_acct (slice_free_func s v) = w_acct v ∧
    w_sn (slice_free_func s v) = w_sn v ∧ w_mem (slice_free_func s v) = w_mem v)
    by (intros v; unfold slice_free_func; by case_match).
  destruct (Hs w) as (S1 & S2 & S3).
  destruct (IH (slice_free_func s w)) as (I1 & I2 & I3 & I4 & I5).
  - intros id. specialize (Hc id). rewrite occ_cons in Hc. rewrite ref_count_free. lia.
  - apply refs_pos_free; [|done]. specialize (Hc (se_id s)).
    rewrite occ_cons, Z.eqb_refl in Hc. pose proof (occ_nonneg (se_id s) l). lia.
  - split_and!; [|done|congruence..]. intros id. rewrite I1, ref_count_free, occ_cons. lia.
Qed.

(** The accounting of a whole list. *)
Lemma account_delete_all f (l : list OBSliceEntry) w :
  (∀ s, s ∈ l → known w s) →
  let w' := if modify_sallocator f
    then foldl (λ w s, set_acct (acct_delete_slice (w_acct w) s (modify_used_space f)).2 w) w l
    else w in
  acct_shift f w w' (λ st id, - sizes_in st id l) ∧ w_refs w' = w_refs w ∧ w_sn w' = w_sn w ∧
  w_mem w' = w_mem w.
Proof using SliceAccountSpec0.
  unfold acct_shift. destruct (modify_sallocator f); [|done].
  revert w. induction l as [|s l IH]; intros w Hk; simpl.
  { split_and!; try done. intros st id. destruct (acct_used (w_acct w) st id); simpl; [|done].
    f_equal. unfold sizes_in. simpl. lia. }
  assert (Hs : known w s) by (apply Hk; by left).
  assert (Hd : ∀ st id, acct_used (acct_delete_slice (w_acct w) s (modify_used_space f)).2 st id
    = (λ u, u - size_in st id s) <$> acct_used (w_acct w) st id) by (by apply acct_delete_spec).
  set (w1 := set_acct _ w). destruct (IH w1) as (I1 & I2 & I3 & I4).
  { intros s' Hs'. unfold known, w1. simpl. rewrite Hd. apply fmap_is_Some, Hk. by right. }
  split_and!; try done. intros st id. rewrite I1. unfold w1. simpl. rewrite Hd.
  destruct (acct_used (w_acct w) st id); simpl; [|done]. f_equal. unfold sizes_in. simpl. lia.
Qed.

(** Dropping a block with all its slices. *)
Lemma drop_block base ext ix k pre post p e w1 :
  index_ok base ext ix → bucket_chain ix (bucket_index (ix_htable ix) k) (pre ++ (p, e) :: post) →
  acct_shift (ht_flags (ix_htable ix)) (ix_world ix) w1
    (λ st id, - sizes_in st id (sl_level0 (ob_slices e))) →
  w_refs w1 = w_refs (ix_world ix) → w_sn w1 = w_sn (ix_world ix) →
  ∃ ix2, OB_INDEX_DELETE_OB_ENTRY (bucket_index (ix_htable ix) k) p (last_ptr pre)
      (set_world w1 ix) = Some (tt, ix2) ∧
    index_ok base ext ix2 ∧ block_removed ix ix2 p ∧ w_sn (ix_world ix2) = w_sn (ix_world ix).
Proof using.
  intros I Hc Hs Hr Hsn. set (ix1 := set_world w1 ix).
  assert (Hc1 : bucket_chain ix1 (bucket_index (ix_htable ix) k) (pre ++ (p, e) :: post))
    by (destruct Hc; by split).
  destruct (OB_INDEX_DELETE_OB_ENTRY_run ix1 _ pre post p e (wf_world _ _ (io_wf _ _ _ I)) Hc1)
    as (ix2 & E & W2 & Hl & Hw & _ & Hf).
  exists ix2. split; [exact E|].
  assert (He : ix_obs ix !! p = Some e).
  { apply (is_seg_elem _ _ _ _ p e (bc_seg _ _ _ Hc)). apply elem_of_app. right. by left. }
  set (rest := obs_slices (delete p (ix_obs ix))).
  assert (P1 : all_slices ix ≡ₚ sl_level0 (ob_slices e) ++ rest) by (by apply obs_slices_delete).
  assert (P2 : all_slices ix2 ≡ₚ rest).
  { apply obs_slices_core. intros q. apply option_eq. intros [[k' c'] t'].
    fold (lives ix2 q k' c' t'). rewrite (Hl q k' c' t'). unfold lives. simpl.
    destruct (decide (q = p)) as [->|Hq].
    - rewrite lookup_delete_eq. simpl. split; [by intros [? _]|done].
    - rewrite lookup_delete_ne by done. split; [by intros [_ ?]|done]. }
  assert (Hrc : ∀ id, ref_count w1 id = ref_count (ix_world ix) id)
    by (intros; unfold ref_count; by rewrite Hr).
  destruct (free_all_run (sl_level0 (ob_slices e)) w1) as (F1 & F2 & F3 & F4 & _).
  { intros id. rewrite Hrc, (io_refs _ _ _ I), (occ_perm _ _ _ P1), occ_app.
    pose proof (occ_nonneg id rest). pose proof (io_ext _ _ _ I id). lia. }
  { unfold refs_pos. rewrite Hr. apply I. }
  unfold uniq_skiplist_free in Hw. simpl in Hw. rewrite <- Hw in F1, F2, F3, F4.
  split_and!; [|done|congruence].
  apply (index_ok_change base ext ext ix ix2 (sl_level0 (ob_slices e)) [] rest); try done.
  - intros q k1 c1 t1 [_ Hq]%Hl. split; [by eapply (io_block _ _ _ I)|]. right. by exists c1.
  - intros s Hks. unfold known. rewrite F3. by apply (acct_shift_known _ _ _ _ s Hs).
  - intros id. rewrite F1, Hrc, occ_nil. lia.
  - apply I.
  - unfold acct_shift in *. destruct (modify_sallocator _); [|congruence].
    intros st id. rewrite F3, Hs. apply option_fmap_ext. intros u. unfold sizes_in. simpl. lia.
Qed.

(** The outcomes of [ob_index_delete_block_ex]. *)
Definition delete_block_outcome base ext ix k (sn is_reclaim : bool) out ix' : Prop :=
    index_ok base ext ix' ∧
    (out = Waits ↔ is_reclaim = false ∧ ∃ p c t, lives ix p k c t ∧ 0 < c) ∧
    match out with
    | Waits => ix' = ix
    | Done r =>
        (∀ q k' c t, lives ix' q k' c t ↔ k' ≠ k ∧ lives ix q k' c t) ∧
        match r with
        | inl err => err = ENOENT ∧ ∀ p c t, lives ix p k c t → total_len (sl_level0 t) = 0
        | inr (dec, n) => sn_taken sn ix ix' n ∧ 0 < dec ∧
            ∃ p c t, lives ix p k c t ∧ dec = total_len (sl_level0 t)
        end
    end.

Lemma ob_index_delete_block_ex_run base ext ix k (sn is_reclaim : bool) :
  index_ok base ext ix → key_ok k →
  ∃ out ix', ob_index_delete_block_ex k sn is_reclaim ix = Some (out, ix') ∧
    delete_block_outcome base ext ix k sn is_reclaim out ix'.
Proof using UniqSkiplistSpec0 SliceAccountSpec0.
  intros I Hk. unfold ob_index_delete_block_ex, delete_block_outcome.
  destruct (get_ob_search_run base ext ix _ I Hk) as (pre & post & r & Hc & Hfd & Hs & Hsame & Hr).
  assert (E0 : get_ob_entry_ex k false ix = Some ((r, last_ptr pre), ix))
    by (by rewrite get_ob_entry_search, Hs).
  rewrite (ibind_run _ _ _ _ _ E0). cbn beta iota. destruct r as [p|]; cycle 1.
  { eexists _, _. split; [done|]. split_and!; [done| | |done|].
    - split; [done|]. intros (_ & p & c & t & Hl & _). by apply Hr in Hl.
    - intros q k' c t. split; [|by intros [_ ?]]. intros Hl. split; [|done].
      intros ->. by apply Hr in Hl.
    - intros p c t Hl. by apply Hr in Hl. }
  destruct Hr as (e & rest & -> & He & Hke).
  pose proof (found_entry_lives _ _ _ _ He Hke) as Hl.
  set (c := ob_reclaiming_count e) in *. set (t := ob_slices e) in *.
  assert (Hone : ∀ p' c' t', lives ix p' k c' t' → p' = p ∧ c' = c ∧ t' = t).
  { intros p' c' t' Hl'. pose proof (lives_unique _ _ _ _ _ _ _ _ (io_wf _ _ _ I) Hl' Hl) as ->.
    by destruct (lives_fun _ _ _ _ _ _ _ _ Hl' Hl) as (_ & ? & ?). }
  unfold delete_block_locked. rewrite (ibind_run _ _ _ _ _ (must_wait_run _ _ _ _ _ is_reclaim Hl)).
  destruct (negb is_reclaim && (0 <? c)) eqn:Hwait.
  { eexists _, _. split; [done|]. zbool. destruct is_reclaim; [done|]. split; [done|]. split; [|done].
    split; [|done]. intros _. split; [done|]. eauto 10. }
  assert (Hnw : ¬ (is_reclaim = false ∧ ∃ p c t, lives ix p k c t ∧ 0 < c)).
  { intros [-> (p' & c' & t' & Hl' & Hpos)]. destruct (Hone _ _ _ Hl') as (_ & -> & _).
    simpl in Hwait. zbool. lia. }
  rewrite ibind_flags. assert (Hd : deref p ix = Some (e, ix)) by (unfold deref; by rewrite He).
  rewrite (ibind_run _ _ _ _ _ Hd), ibind_world. cbn [fst snd].
  destruct (lives_block _ _ _ _ _ _ _ I Hl) as (Hwf & HkL & Hcc).
  destruct (account_delete_all (ht_flags (ix_htable ix)) (sl_level0 t) (ix_world ix) HkL)
    as (A1 & A2 & A3 & _).
  fold t. set (w1 := if modify_sallocator _ then _ else _) in *.
  unfold iget at 1. rewrite (ibind_run _ _ _ _ _ eq_refl).
  destruct (drop_block base ext ix k pre rest p e w1 I Hc A1 A2 A3) as (ix2 & E2 & I2 & Hrm & Hsn).
  change (ix_htable (set_world w1 ix)) with (ix_htable ix). rewrite (ibind_run _ _ _ _ _ E2).
  assert (Hrm' : ∀ ix3, ix_obs ix3 = ix_obs ix2 →
    ∀ q k' c t, lives ix3 q k' c t ↔ k' ≠ k ∧ lives ix q k' c t).
  { intros ix3 Ho q k' c' t'. unfold lives at 1. rewrite Ho. fold (lives ix2 q k' c' t').
    rewrite (Hrm q k' c' t'). split; intros [Hq Hlq]; (split; [|done]).
    - intros ->. by destruct (Hone _ _ _ Hlq).
    - intros ->. by destruct (lives_fun _ _ _ _ _ _ _ _ Hlq Hl). }
  fold (total_len (sl_level0 t)). destruct (Z.ltb_spec 0 (total_len (sl_level0 t))) as [Hpos|Hz].
  - destruct (sn_taken_run base ext sn ix ix2 I2 Hsn) as (n & ix3 & E3 & I3 & Hn & Ho).
    rewrite (ibind_run _ _ _ _ _ E3). eexists _, _. split; [done|].
    split_and!; [done|by split|by apply Hrm'|done|done|]. eauto.
  - eexists _, _. split; [done|]. split_and!; [done|by split|by apply Hrm'|done|].
    intros p' c' t' Hl'. destruct (Hone _ _ _ Hl') as (_ & _ & ->).
    assert (0 <= total_len (sl_level0 t)); [|lia]. apply sumZ_nonneg. intros s Hsin.
    pose proof (slices_wf_valid _ _ Hwf Hsin) as Hv. unfold valid_slice in Hv. lia.
Qed.

(** [ob_index_delete_block_ex] always returns. When it does not wait the block's
    entry is gone from its chain, every other block is untouched, and the counts and
    the accounting of its slices are given back; [*dec_alloc] is the number of bytes
    the block mapped, and the answer is [ENOENT] when that is 0. *)
Theorem ob_index_delete_block_ex_ok base ext ix k (sn is_reclaim : bool) :
  index_ok base ext ix → key_ok k →
  ∃ out ix', ob_index_delete_block_ex k sn is_reclaim ix = Some (out, ix') ∧
    delete_block_outcome base ext ix k sn is_reclaim out ix'.
Proof using UniqSkiplistSpec0 SliceAccountSpec0. apply ob_index_delete_block_ex_run. Qed.

(** ** Reading an extent *)

(** Releasing the array after an error. *)
Lemma free_slices_got alloc w arr' w' leak :
  refs_pos w → got (mkSliceArray alloc [], w) (arr', w') (sa_slices arr') leak →
  let r := if 0 <? sa_count arr' then free_slices arr' w' else (arr', w') in
  sa_slices r.1 = [] ∧ (∀ id, ref_count r.2 id = ref_count w id + occ id leak) ∧
  refs_pos r.2 ∧ w_acct r.2 = w_acct w.
Proof using.
  intros Hp [_ G2 G3 G4 G5 G6]. simpl in *.
  destruct (Z.ltb_spec 0 (sa_count arr')) as [H|H].
  - destruct (free_all_run (sa_slices arr') w') as (F1 & F2 & F3 & _ & _).
    + intros id. rewrite G2. pose proof (refs_pos_nonneg w id Hp).
      pose proof (occ_nonneg id leak). lia.
    + by apply G3.
    + unfold free_slices. simpl. split_and!; [done| |done|exact (eq_trans F3 G4)].
      intros id. unfold ob_index_free_slice. rewrite F1, G2. lia.
  - assert (Hn : sa_slices arr' = []).
    { unfold sa_count in H. destruct (sa_slices arr'); [done|]. simpl in H. lia. }
    simpl. rewrite Hn in *. split_and!; [done| |by apply G3|done]. intros id. rewrite G2, occ_nil. lia.
Qed.

(** The outcomes of [ob_index_get_slices_ex]. *)
Definition get_slices_outcome base ext ix bs (is_reclaim : bool) (out : Outcome unit) arr' ix' : Prop :=
    unchanged ix ix' ∧
    (out = Waits ↔ is_reclaim = false ∧ ∃ p c t, lives ix p (bs_block bs) c t ∧ 0 < c) ∧
    match out with
    | Waits => ix' = ix
    | Done (inr _) =>
        index_ok base (λ id, ext id + occ id (sa_slices arr')) ix' ∧ slices_wf (sa_slices arr') ∧
        ∃ p c t, lives ix p (bs_block bs) c t ∧
          ∀ b, lookup_byte (sa_slices arr') b =
            if decide (extent_start bs <= b < extent_end bs) then lookup_byte (sl_level0 t) b else None
    | Done (inl err) => sa_slices arr' = [] ∧
        (err = ENOMEM ∧ w_mem (ix_world ix) ≠ [] ∧
           (∃ ext', index_ok base ext' ix' ∧ ∀ id, ext id <= ext' id) ∨
         err = ENOENT ∧ index_ok base ext ix' ∧
           ∀ p c t b, lives ix p (bs_block bs) c t →
             extent_start bs <= b < extent_end bs → lookup_byte (sl_level0 t) b = None)
    end.

Lemma ob_index_get_slices_ex_run base ext ix bs arr (is_reclaim : bool) :
  index_ok base ext ix → key_ok (bs_block bs) → 0 < ss_length (bs_slice bs) →
  ∃ out arr' ix', ob_index_get_slices_ex bs arr is_reclaim ix = Some ((out, arr'), ix') ∧
    get_slices_outcome base ext ix bs is_reclaim out arr' ix'.
Proof using UniqSkiplistSpec0.
  intros I Hk Hlen. unfold ob_index_get_slices_ex, get_slices_outcome. set (arr0 := mkSliceArray (sa_alloc arr) []).
  destruct (get_ob_search_run base ext ix _ I Hk) as (pre & post & r & Hc & Hfd & Hs & Hsame & Hr).
  assert (E0 : get_ob_entry_ex (bs_block bs) false ix = Some ((r, last_ptr pre), ix))
    by (by rewrite get_ob_entry_search, Hs).
  rewrite (ibind_run _ _ _ _ _ E0). cbn beta iota. destruct r as [p|]; cycle 1.
  { eexists _, _, _. split; [done|]. split_and!; [done| |done|].
    - split; [done|]. intros (_ & p & c & t & Hl & _). by apply Hr in Hl.
    - right. split_and!; [done|done|]. intros p c t b Hl. by apply Hr in Hl. }
  destruct Hr as (e & rest & -> & He & Hke).
  pose proof (found_entry_lives _ _ _ _ He Hke) as Hl.
  set (c := ob_reclaiming_count e) in *. set (t := ob_slices e) in *.
  assert (Hone : ∀ p' c' t', lives ix p' (bs_block bs) c' t' → c' = c ∧ t' = t).
  { intros p' c' t' Hl'. rewrite (lives_unique _ _ _ _ _ _ _ _ (io_wf _ _ _ I) Hl' Hl) in Hl'.
    by destruct (lives_fun _ _ _ _ _ _ _ _ Hl' Hl) as (_ & ? & ?). }
  unfold get_slices_locked. rewrite (ibind_run _ _ _ _ _ (must_wait_run _ _ _ _ _ is_reclaim Hl)).
  destruct (negb is_reclaim && (0 <? c)) eqn:Hwait.
  { eexists _, _, _. split; [done|]. zbool. destruct is_reclaim; [done|]. split_and!; [done| |done].
    split; [|done]. intros _. split; [done|]. eauto 10. }
  assert (Hnw : ¬ (is_reclaim = false ∧ ∃ p c t, lives ix p (bs_block bs) c t ∧ 0 < c)).
  { intros [-> (p' & c' & t' & Hl' & Hpos)]. destruct (Hone _ _ _ Hl') as [-> _].
    simpl in Hwait. zbool. lia. }
  assert (Hd : deref p ix = Some (e, ix)) by (unfold deref; by rewrite He).
  rewrite (ibind_run _ _ _ _ _ Hd), ibind_world. fold t.
  destruct (lives_block _ _ _ _ _ _ _ I Hl) as (Hwf & HkL & Hcc).
  destruct (get_slices t bs (arr0, ix_world ix)) as [r [arr' w']] eqn:E. cbn [fst snd].
  destruct (get_slices_run t bs _ _ r arr' w' Hwf Hlen E) as [(Hres & G & ->)|(-> & Hm & leak & _ & G)].
  - assert (Hab : extent_start bs < extent_end bs) by (unfold extent_start, extent_end; lia).
    destruct (clipped_spec _ _ _ _ Hab Hwf Hres) as (R1 & R2 & R3).
    destruct (sa_slices arr') as [|x l] eqn:Ea.
    + assert (Hn : (0 <? sa_count arr') = false) by (unfold sa_count; by rewrite Ea).
      rewrite Hn. eexists _, _, _. split; [done|]. split_and!; [done|by split|done|]. right.
      destruct G as [_ G2 G3 G4 _ _]. simpl in *. split_and!; [done| |].
      * apply (index_ok_ext base ext (λ id, ext id + 0)); [intros; lia|].
        apply index_ok_world; try done; [|apply G3, I|].
        -- intros id. rewrite G2, !occ_nil. lia.
        -- intros id. pose proof (io_ext _ _ _ I id). lia.
      * intros p' c' t' b Hl' Hb. destruct (Hone _ _ _ Hl') as [_ ->].
        specialize (R2 b). rewrite decide_True in R2 by done. by rewrite <- R2.
    + eexists _, _, _. split; [done|]. destruct G as [_ G2 G3 G4 _ _]. simpl in *.
      split_and!; [done|by split| |by rewrite Ea|].
      * apply index_ok_world; try done; [|apply G3, I|].
        -- intros id. rewrite G2, occ_nil, Ea. lia.
        -- intros id. pose proof (io_ext _ _ _ I id). rewrite Ea.
           pose proof (occ_nonneg id (x :: l)). lia.
      * exists p, c, t. rewrite Ea. done.
  - destruct (free_slices_got _ _ _ _ leak (io_pos _ _ _ I) G) as (F1 & F2 & F3 & F4).
    assert (Hgo : ∃ arr2 w2, (if 0 <? sa_count arr'
        then arr2 ← iworld (free_slices arr'); mret (Done (inl ENOMEM), arr2)
        else mret (Done (inl ENOMEM) : Outcome unit, arr')) (set_world w' ix)
      = Some ((Done (inl ENOMEM), arr2), set_world w2 ix) ∧ sa_slices arr2 = [] ∧
      (∀ id, ref_count w2 id = ref_count (ix_world ix) id + occ id leak) ∧ refs_pos w2 ∧
      w_acct w2 = w_acct (ix_world ix)).
    { destruct (0 <? sa_count arr'); [rewrite ibind_world|]; eexists _, _; by split. }
    destruct Hgo as (arr2 & w2 & E2 & K1 & K2 & K3 & K4). rewrite E2.
    eexists _, _, _. split; [done|]. split_and!; [done|by split|done|]. left.
    split_and!; [done|done|]. exists (λ id, ext id + occ id leak). split.
    + apply index_ok_world; try done. intros id. pose proof (io_ext _ _ _ I id).
      pose proof (occ_nonneg id leak). lia.
    + intros id. pose proof (occ_nonneg id leak). lia.
Qed.

(** [ob_index_get_slices_ex] always returns and never changes a block. On success
    the array maps exactly the bytes of the extent the block maps, each to its place,
    and the caller holds one reference per entry; otherwise the array is empty, and
    the answer is [ENOENT] exactly when nothing in the extent is mapped. *)
Theorem ob_index_get_slices_ex_ok base ext ix bs arr (is_reclaim : bool) :
  index_ok base ext ix → key_ok (bs_block bs) → 0 < ss_length (bs_slice bs) →
  ∃ out arr' ix', ob_index_get_slices_ex bs arr is_reclaim ix = Some ((out, arr'), ix') ∧
    get_slices_outcome base ext ix bs is_reclaim out arr' ix'.
Proof using UniqSkiplistSpec0. apply ob_index_get_slices_ex_run. Qed.
End Operations.

(** ** The bytes of the index *)
Section Bytes.
Context {T A : Type} `{!UniqSkiplist OBSliceEntry T} `{!SliceAccount A}.
Implicit Types (ix : Index T A) (k : FSBlockKey) (p b : Z) (d : DiskLoc) (t : T) (s : OBSliceEntry).

(** Byte [b] of block [k] is mapped to [d]. *)
Definition maps ix k b d : Prop := ∃ p c t, lives ix p k c t ∧ lookup_byte (sl_level0 t) b = Some d.
Definition same_maps ix ix' : Prop := ∀ k b d, maps ix' k b d ↔ maps ix k b d.
(** No block is being reclaimed. *)
Definition idle ix : Prop := ∀ p k c t, lives ix p k c t → c = 0.
Lemma maps_fun ix k b d1 d2 : index_wf ix → maps ix k b d1 → maps ix k b d2 → d1 = d2.
Proof using.
  intros W (p1 & c1 & t1 & L1 & E1) (p2 & c2 & t2 & L2 & E2).
  rewrite (lives_unique _ _ _ _ _ _ _ _ W L1 L2) in L1.
  destruct (lives_fun _ _ _ _ _ _ _ _ L1 L2) as (_ & _ & ->). congruence.
Qed.
Lemma unchanged_maps ix ix' : unchanged ix ix' → same_maps ix ix'.
Proof using. intros H k b d. unfold maps. by setoid_rewrite (λ q c t, H q k c t). Qed.
Lemma maps_lives ix p k c t b d :
  index_wf ix → lives ix p k c t → maps ix k b d ↔ lookup_byte (sl_level0 t) b = Some d.
Proof using.
  intros W L. split; [|intros H; by exists p, c, t]. intros (q & c' & t' & L' & H).
  rewrite (lives_unique _ _ _ _ _ _ _ _ W L' L) in L'.
  by destruct (lives_fun _ _ _ _ _ _ _ _ L L') as (_ & _ & <-).
Qed.

(** The bytes of [s] in block [k] are now at the places of [s]; all others are as before. *)
Definition overlaid ix ix' k s : Prop :=
  ∀ k' b d, maps ix' k' b d ↔ if decide (k' = k ∧ covers s b) then d = loc_at s b else maps ix k' b d.
Lemma changed_overlaid ix ix' p k c t t' s :
  index_wf ix → index_wf ix' → lives ix p k c t → block_changed ix ix' p k c t' →
  (∀ b, lookup_byte (sl_level0 t') b =
     if decide (covers s b) then Some (loc_at s b) else lookup_byte (sl_level0 t) b) →
  overlaid ix ix' k s.
Proof using.
  intros W W' L Hb Hl k' b d. assert (L' : lives ix' p k c t') by (apply Hb; by rewrite decide_True).
  destruct (decide (k' = k)) as [->|Hne].
  - rewrite (maps_lives ix' p k c t') by done. rewrite Hl. destruct (decide (covers s b)).
    + rewrite decide_True by done. split; [by intros [= <-]|by intros ->].
    + rewrite decide_False by (by intros [_ ?]). by rewrite (maps_lives ix p k c t).
  - rewrite decide_False by (by intros [? _]). unfold maps.
    assert (H : ∀ q c' u, lives ix' q k' c' u ↔ lives ix q k' c' u); [|by setoid_rewrite H].
    intros q c' u. rewrite (Hb q k' c' u). case_decide as Hq; [subst q|done]. split.
    + by intros (? & _).
    + intros L2. destruct (lives_fun _ _ _ _ _ _ _ _ L L2) as (? & _). congruence.
Qed.

(** A block that was changed or removed. *)
Lemma block_after_maps ix ix' p k c t t' :
  index_wf ix → lives ix p k c t → block_after ix ix' p k c t' → ∀ k' b d,
  maps ix' k' b d ↔ if decide (k' = k) then lookup_byte (sl_level0 t') b = Some d else maps ix k' b d.
Proof using.
  intros W L Hb k' b d. unfold maps, block_after in *.
  assert (Hp : ∀ q c1 t1, lives ix q k' c1 t1 → q = p ↔ k' = k).
  { intros q c1 t1 L1. split.
    - intros ->. by destruct (lives_fun _ _ _ _ _ _ _ _ L1 L) as (-> & _ & _).
    - intros ->. by eapply lives_unique. }
  destruct (uniq_skiplist_empty t') eqn:Et.
  - unfold uniq_skiplist_empty in Et. split.
    + intros (q & c1 & t1 & [Hq L1]%Hb & Hl). rewrite decide_False; [eauto|]. intros Hk. by apply Hq, (Hp q c1 t1).
    + case_decide as Hk.
      * destruct (sl_level0 t'); [done|discriminate].
      * intros (q & c1 & t1 & L1 & Hl). exists q, c1, t1. split; [|done]. apply Hb. split; [|done].
        intros Hq. by apply Hk, (Hp q c1 t1).
  - split.
    + intros (q & c1 & t1 & L1%Hb & Hl). destruct (decide (q = p)) as [->|Hq].
      * destruct L1 as (-> & -> & ->). by rewrite decide_True.
      * rewrite decide_False; [eauto|]. intros Hk. by apply Hq, (Hp q c1 t1).
    + case_decide as Hk.
      * intros Hl. exists p, c, t'. split; [|done]. apply Hb. by rewrite decide_True.
      * intros (q & c1 & t1 & L1 & Hl). exists q, c1, t1. split; [|done]. apply Hb.
        rewrite decide_False; [done|]. intros Hq. by apply Hk, (Hp q c1 t1).
Qed.
Lemma block_after_idle ix ix' p k c t t' :
  lives ix p k c t → block_after ix ix' p k c t' → idle ix → idle ix'.
Proof using.
  intros L Hb Hi q k1 c1 t1 H1. unfold block_after in Hb. destruct (uniq_skiplist_empty t'); apply Hb in H1.
  - by eapply Hi, H1.
  - case_decide; [|by eapply Hi]. destruct H1 as (-> & -> & ->). by eapply Hi.
Qed.
End Bytes.
