(* ===== verification/ObIndexDemo.v ===== *)
(** * Locking a block for reclaiming, and what waiting callers do afterwards

    The reclaim lock keeps every other caller waiting; [ob_index_alloc_slice_ex]; the
    states an index goes through; and what a caller that waited does with the
    pointers it found before it waited. *)
From S2P Require Import Prelude Types Skiplist ObSlices ObSlicesRun ObSlicesThms TrunkAllocator ObSlicesMain ObSlicesGet ObIndex ObIndexSpec ObIndexOps ObIndexThms ObIndexMain.

Section Reclaim.
Context {T A : Type} `{!UniqSkiplist OBSliceEntry T} `{!SliceAccount A}.
Context `{!UniqSkiplistSpec slice_compare} `{!SliceAccountSpec A}.
Implicit Types (ix : Index T A) (k : FSBlockKey) (p q : Z) (e : OBEntry T) (t : T)
  (w : World A) (base : Z → Z → Z) (ext : Z → Z).

(** Changing the reclaim count of an entry. *)
Lemma store_count base ext ix p e n :
  index_ok base ext ix → ix_obs ix !! p = Some e → 0 <= n →
  ∃ ix', store p (ob_set_count n e) ix = Some (tt, ix') ∧ index_ok base ext ix' ∧
    block_changed ix ix' p (ob_bkey e) n (ob_slices e) ∧ ix_world ix' = ix_world ix.
Proof using.
  intros I He Hn. set (ix' := set_world (ix_world ix) (set_obs (<[p := ob_set_count n e]> (ix_obs ix)) ix)).
  exists ix'. assert (E : store p (ob_set_count n e) ix = Some (tt, ix')).
  { unfold store, deref, imod, mbind, IM_bind. rewrite He. done. }
  assert (Hb : block_changed ix ix' p (ob_bkey e) n (ob_slices e)).
  { intros q k1 c1 t1. unfold lives. simpl. case_decide as Hq.
    - subst q. rewrite lookup_insert_eq. simpl. unfold core. simpl.
      split; [by intros [= <- <- <-]|by intros (-> & -> & ->)].
    - by rewrite lookup_insert_ne. }
  split_and!; try done.
  assert (Hl : lives ix p (ob_bkey e) (ob_reclaiming_count e) (ob_slices e)) by (by apply found_entry_lives).
  apply (index_ok_change base ext ext ix ix' [] [] (all_slices ix)); try done.
  - apply wf_store with e; try done. apply I.
  - simpl. unfold all_slices. simpl. rewrite (obs_slices_update _ _ _ _ He). simpl.
    by rewrite <- (obs_slices_delete _ _ _ He).
  - intros q k1 c1 t1 Hq. apply Hb in Hq. case_decide as Hqp.
    + destruct Hq as (-> & -> & ->). subst q. split; [done|]. right. eauto.
    + split; [by eapply (io_block _ _ _ I)|]. right. by exists c1.
  - apply I.
  - apply I.
  - eapply acct_shift_ext; [|by apply (acct_shift_refl _ (ix_world ix))]. done.
Qed.

(** [ob_index_reclaim_lock] counts one more reclaim of the block, if it has an
    entry, and changes nothing else; from then on every caller but the reclaimer
    waits on that block. *)
Theorem ob_index_reclaim_lock_ok base ext ix k :
  index_ok base ext ix → key_ok k →
  ∃ ob ix', ob_index_reclaim_lock k ix = Some (ob, ix') ∧ index_ok base ext ix' ∧
    match ob with
    | None => ix' = ix ∧ ∀ p c t, ¬ lives ix p k c t
    | Some p => ∃ c t, lives ix p k c t ∧ block_changed ix ix' p k (c + 1) t ∧
        must_wait p false ix' = Some (true, ix') ∧ must_wait p true ix' = Some (false, ix')
    end.
Proof using.
  intros I Hk. unfold ob_index_reclaim_lock.
  destruct (get_ob_search_run base ext ix _ I Hk) as (pre & post & r & Hc & Hfd & Hs & Hsame & Hr).
  assert (E0 : get_ob_entry_ex k false ix = Some ((r, last_ptr pre), ix))
    by (by rewrite get_ob_entry_search, Hs).
  rewrite (ibind_run _ _ _ _ _ E0). cbn beta iota. destruct r as [p|]; cycle 1.
  { eexists _, _. split; [done|]. by split_and!. }
  destruct Hr as (e & rest & -> & He & Hke).
  pose proof (found_entry_lives _ _ _ _ He Hke) as Hl.
  destruct (io_block _ _ _ I _ _ _ _ Hl) as [_ Hc0].
  destruct (store_count base ext ix p e (ob_reclaiming_count e + 1) I He) as (ix' & E & I' & Hb & _); [lia|].
  rewrite Hke in Hb.
  assert (Hst : (e0 ← deref p; store p (ob_set_count (ob_reclaiming_count e0 + 1) e0)) ix = Some (tt, ix')).
  { unfold mbind, IM_bind, deref. rewrite He. exact E. }
  rewrite (ibind_run _ _ _ _ _ Hst). eexists _, _. split; [done|]. split; [done|].
  exists (ob_reclaiming_count e), (ob_slices e).
  assert (Hl' : lives ix' p k (ob_reclaiming_count e + 1) (ob_slices e))
    by (apply Hb; rewrite decide_True; done).
  split_and!; [done|done|..]; rewrite (must_wait_run _ _ _ _ _ _ Hl'); [|done].
  destruct (Z.ltb_spec 0 (ob_reclaiming_count e + 1)); [done|lia].
Qed.

(** [ob_index_reclaim_unlock] undoes one lock, and wakes the waiters exactly when
    it was the last. *)
Theorem ob_index_reclaim_unlock_ok base ext ix p k c t :
  index_ok base ext ix → lives ix p k c t → 0 < c →
  ∃ woken ix', ob_index_reclaim_unlock p ix = Some (woken, ix') ∧ index_ok base ext ix' ∧
    block_changed ix ix' p k (c - 1) t ∧ (woken = true ↔ must_wait p false ix' = Some (false, ix')).
Proof using.
  intros I (e & He & Hco)%lives_entry Hc. unfold ob_index_reclaim_unlock.
  assert (Hd : deref p ix = Some (e, ix)) by (unfold deref; by rewrite He).
  rewrite (ibind_run _ _ _ _ _ Hd). unfold core in Hco. injection Hco as <- <- <-.
  destruct (store_count base ext ix p e (ob_reclaiming_count e - 1) I He) as (ix' & E & I' & Hb & _); [lia|].
  cbn zeta. rewrite (ibind_run _ _ _ _ _ E). eexists _, _. split; [done|]. split_and!; [done|done|].
  assert (Hl' : lives ix' p (ob_bkey e) (ob_reclaiming_count e - 1) (ob_slices e))
    by (apply Hb; rewrite decide_True; done).
  rewrite (must_wait_run _ _ _ _ _ _ Hl'). simpl.
  destruct (Z.eqb_spec (ob_reclaiming_count e - 1) 0), (Z.ltb_spec 0 (ob_reclaiming_count e - 1));
    split; try done; lia.
Qed.
End Reclaim.

(** ** A concrete index

    The block of [ObSlicesDemo] in a hash table: the witnesses of the properties of the
    index operations; and a run in which a caller that waited follows a pointer to an
    entry that was freed meanwhile. *)

Abbreviation DemoIndex := (Index (list OBSliceEntry) Mgr).

Definition demo_entry (c : Z) : OBEntry (list OBSliceEntry) := mkOBEntry demo_key c demo_slices None.
Definition demo_index (c : Z) : DemoIndex :=
  mkIndex (mkHtable 11 {[ 5 := demo_ob ]} demo_flags) {[ demo_ob := demo_entry c ]} (demo_ob + 1)
    (demo_world []).
Definition demo_base (st id : Z) : Z :=
  default 0 (acct_used demo_mgr st id) - sizes_in st id demo_slices.

Lemma demo_obs c p e : ix_obs (demo_index c) !! p = Some e → p = demo_ob ∧ e = demo_entry c.
Proof. simpl. intros [<- <-]%lookup_singleton_Some. done. Qed.
Lemma demo_lives c : lives (demo_index c) demo_ob demo_key c demo_slices.
Proof. vm_compute. reflexivity. Qed.
Lemma demo_key_ok : key_ok demo_key.
Proof. vm_compute. reflexivity. Qed.

Lemma demo_chain c b :
  bucket_chain (demo_index c) b (if decide (b = 5) then [(demo_ob, demo_entry c)] else []).
Proof.
  case_decide as Hb.
  - subst b. split; [by split_and!|repeat constructor|].
    intros p e [= -> ->]%list_elem_of_singleton. vm_compute. reflexivity.
  - split; [|constructor|by intros p e ?%elem_of_nil]. simpl. by rewrite lookup_singleton_ne.
Qed.

Lemma demo_index_wf c : index_wf (demo_index c).
Proof.
  split.
  - intros b. eexists. apply demo_chain.
  - intros p e [-> ->]%demo_obs. exists [(demo_ob, demo_entry c)]. split; [|by left].
    pose proof (demo_chain c 5) as H. exact H.
  - intros p e [-> ->]%demo_obs. apply demo_key_ok.
  - intros p e [-> ->]%demo_obs. simpl. lia.
Qed.

Lemma demo_index_ok c : 0 <= c → index_ok demo_base demo_ext (demo_index c).
Proof.
  intros Hc. split.
  - apply demo_index_wf.
  - intros p k n t (e & [-> ->]%demo_obs & [= <- <- <-])%lives_entry. split; [|done].
    split; [apply demo_wf|]. intros s Hs. split; [|by apply (demo_known_all [])].
    revert s Hs. change (∀ s, s ∈ demo_slices → se_ob s = demo_ob).
    by intros s [->|[->|[]%elem_of_nil]%elem_of_cons]%elem_of_cons.
  - exact (demo_refs []).
  - apply (demo_refs_pos []).
  - apply demo_ext_nonneg.
  - intros _ st id u Hu. change (acct_used demo_mgr st id = Some u) in Hu.
    change (all_slices (demo_index c)) with demo_slices. unfold demo_base. rewrite Hu. simpl. lia.
Qed.

Lemma get_ob_entry_ex_ok_witness :
  ∃ ob pprev ix', get_ob_entry_ex demo_key true (demo_index 0) = Some ((ob, pprev), ix') ∧
    ob = Some demo_ob.
Proof.
  destruct (get_ob_entry_ex_ok demo_base demo_ext (demo_index 0) demo_key true
    (demo_index_ok 0 ltac:(lia)) demo_key_ok) as (ob & pprev & ix' & E & _ & _ & H & Hsame & _).
  exists ob, pprev, ix'. split; [exact E|]. apply H. rewrite Hsame.
  - exists 0, demo_slices. apply demo_lives.
  - left. exists demo_ob, 0, demo_slices. apply demo_lives.
Defined.

Lemma ob_index_add_slice_ex_ok_witness :
  ∃ ix', ob_index_add_slice_ex demo_new true false (demo_index 0) = Some (Done (inr (100, Some 1)), ix')
    ∧ index_ok demo_base demo_ext ix'.
Proof.
  destruct (ob_index_add_slice_ex_ok demo_base demo_ext (demo_index 0) demo_new true false
    demo_key 0 demo_slices (demo_index_ok 0 ltac:(lia)) (demo_lives 0) demo_new_valid
    (demo_known [] 3 50 200 200) ltac:(vm_compute; reflexivity)) as (out & ix' & E & _ & _ & H).
  exists ix'. assert (Ho : out = Done (inr (100, Some 1))).
  { pose proof (f_equal (fmap fst) E) as E1. simpl in E1. 
    assert (E2 : fst <$> ob_index_add_slice_ex demo_new true false (demo_index 0)
      = Some (Done (inr (100, Some 1)))) by (vm_compute; reflexivity).
    rewrite E2 in E1. by injection E1. }
  rewrite Ho in E, H. destruct H as (t' & H & _). split; [exact E|exact H].
Defined.

Lemma ob_index_delete_slices_ex_ok_witness :
  ∃ ix', ob_index_delete_slices_ex (demo_bs 0 400) true false (demo_index 0)
      = Some (Done (inr (200, Some 1)), ix') ∧ index_ok demo_base demo_ext ix'.
Proof.
  destruct (ob_index_delete_slices_ex_ok demo_base demo_ext (demo_index 0) (demo_bs 0 400) true false
    (demo_index_ok 0 ltac:(lia)) demo_key_ok ltac:(vm_compute; reflexivity)) as (out & ix' & E & _ & H).
  exists ix'. assert (Ho : out = Done (inr (200, Some 1))).
  { assert (E2 : fst <$> ob_index_delete_slices_ex (demo_bs 0 400) true false (demo_index 0)
      = Some (Done (inr (200, Some 1)))) by (vm_compute; reflexivity).
    rewrite E in E2. by injection E2. }
  rewrite Ho in E, H. destruct H as (p & c & t & t' & _ & H & _). split; [exact E|exact H].
Defined.

Lemma ob_index_delete_block_ex_ok_witness :
  ∃ ix', ob_index_delete_block_ex demo_key true false (demo_index 0)
      = Some (Done (inr (200, Some 1)), ix') ∧ index_ok demo_base demo_ext ix'.
Proof.
  destruct (ob_index_delete_block_ex_ok demo_base demo_ext (demo_index 0) demo_key true false
    (demo_index_ok 0 ltac:(lia)) demo_key_ok) as (out & ix' & E & I & _ & _).
  exists ix'. split; [|exact I]. rewrite E. do 2 f_equal.
  assert (E2 : fst <$> ob_index_delete_block_ex demo_key true false (demo_index 0)
    = Some (Done (inr (200, Some 1)))) by (vm_compute; reflexivity).
  rewrite E in E2. by injection E2.
Defined.

Lemma ob_index_get_slices_ex_ok_witness :
  ∃ out arr' ix', ob_index_get_slices_ex (demo_bs 50 200) (mkSliceArray 0 []) false (demo_index 0)
      = Some ((out, arr'), ix') ∧ out = Done (inr tt) ∧ slices_wf (sa_slices arr').
Proof.
  destruct (ob_index_get_slices_ex_ok demo_base demo_ext (demo_index 0) (demo_bs 50 200)
    (mkSliceArray 0 []) false (demo_index_ok 0 ltac:(lia)) demo_key_ok ltac:(vm_compute; reflexivity))
    as (out & arr' & ix' & E & _ & _ & H).
  exists out, arr', ix'. assert (Ho : out = Done (inr tt)).
  { assert (E2 : (λ r, fst (fst r)) <$> ob_index_get_slices_ex (demo_bs 50 200) (mkSliceArray 0 []) false
      (demo_index 0) = Some (Done (inr tt))) by (vm_compute; reflexivity).
    rewrite E in E2. by injection E2. }
  split; [exact E|]. split; [exact Ho|]. rewrite Ho in H. exact (proj1 (proj2 H)).
Defined.

Lemma ob_index_reclaim_lock_ok_witness :
  ∃ p ix', ob_index_reclaim_lock demo_key (demo_index 0) = Some (Some p, ix') ∧
    must_wait p false ix' = Some (true, ix').
Proof.
  destruct (ob_index_reclaim_lock_ok demo_base demo_ext (demo_index 0) demo_key
    (demo_index_ok 0 ltac:(lia)) demo_key_ok) as ([p|] & ix' & E & _ & H).
  - exists p, ix'. destruct H as (c & t & _ & _ & H & _). split; [exact E|exact H].
  - exfalso. destruct H as [_ H]. exact (H _ _ _ (demo_lives 0)).
Defined.

Lemma ob_index_reclaim_unlock_ok_witness :
  ∃ ix', ob_index_reclaim_unlock demo_ob (demo_index 1) = Some (true, ix') ∧
    must_wait demo_ob false ix' = Some (false, ix').
Proof.
  destruct (ob_index_reclaim_unlock_ok demo_base demo_ext (demo_index 1) demo_ob demo_key 1 demo_slices
    (demo_index_ok 1 ltac:(lia)) (demo_lives 1) ltac:(lia)) as (woken & ix' & E & _ & _ & H).
  assert (Hw : woken = true).
  { assert (E2 : fst <$> ob_index_reclaim_unlock demo_ob (demo_index 1) = Some true)
      by (vm_compute; reflexivity).
    rewrite E in E2. by injection E2. }
  exists ix'. rewrite Hw in E, H. split; [exact E|]. by apply H.
Defined.

(** ** Pointers found before a wait *)

(** Two blocks whose keys share a bucket; the second follows the first in the chain. *)
Definition key_x : FSBlockKey := fs_calc_block_hashcode 5 0.
Definition key_y : FSBlockKey := fs_calc_block_hashcode 16 0.
Definition empty_index : DemoIndex :=
  mkIndex (ob_index_init_htable_ex (λ c, c) 11) ∅ 1000 (demo_world []).

(** Both blocks get an entry, and the second is locked for reclaiming. *)
Definition two_blocks : IM (list OBSliceEntry) Mgr (option Z) :=
  ob_index_alloc_slice_ex key_x 1;; ob_index_alloc_slice_ex key_y 1;; ob_index_reclaim_lock key_y.

(** A caller of [ob_index_delete_block_ex] for the second block looks it up and waits;
    meanwhile the first block is deleted and the reclaim ends; the caller goes on. *)
Definition delete_after_wait (delete_first : bool) : IM (list OBSliceEntry) Mgr (Outcome (Z * option Z)) :=
  two_blocks;;
  '(ob, previous) ← get_ob_entry_ex key_y false;
  match ob with
  | None => mret Waits
  | Some p =>
      r ← delete_block_locked key_y p previous false false;
      match r with
      | Waits =>
          (if delete_first then ob_index_delete_block_ex key_x false false else mret Waits);;
          ob_index_reclaim_unlock p;;
          delete_block_locked key_y p previous false false
      | Done _ => mret r
      end
  end.

(** a deletion that waits for a reclaim goes on with the chain pointers it found
    before it waited: when the entry before it in the bucket was removed meanwhile, it
    follows a pointer to a freed entry; without that removal it completes. *)
Theorem delete_after_wait_stale :
  delete_after_wait true empty_index = None ∧
  fst <$> delete_after_wait false empty_index = Some (Done (inl ENOENT)) ∧
  fst <$> (two_blocks;; ob_index_delete_block_ex key_y false false) empty_index = Some Waits.
Proof. split_and!; vm_compute; reflexivity. Qed.
