(* ===== verification/Binlog.v ===== *)
(** * The text format of the binlogs

    The records of [src/server/binlog/slice_binlog.c], [replica_binlog.c] and
    [trunk_binlog.c], as [sprintf] writes them, and the parsers of [slice_loader.c],
    [replica_binlog.c] and [trunk_binlog.c] that read them back. A buffer is a list of
    bytes. [split_string_ex] of libfastcommon is a parameter. *)
From Stdlib Require Import Ascii.
From S2P Require Import Prelude Types.

Definition bytes : Type := list Z.
Definition chr (c : ascii) : Z := Z.of_nat (nat_of_ascii c).
Definition SPACE : Z := 32.
Definition NEWLINE : Z := 10.

(** ** [sprintf] and [strtol] of the C library *)

(** Decimal digits; 20 are enough for 64 bits. *)
Fixpoint print_digits (fuel : nat) (n : Z) (acc : bytes) : bytes :=
  match fuel with
  | O => acc
  | S fuel =>
      if n <? 10 then 48 + n :: acc
      else print_digits fuel (n / 10) (48 + n mod 10 :: acc)
  end.
(** [%d] and [%"PRId64"] of a value of the type. *)
Definition dec (n : Z) : bytes :=
  if n <? 0 then chr "-" :: print_digits 20 (- n) [] else print_digits 20 n [].
(** An unsigned 64-bit value printed with [%"PRId64"]. *)
Definition cast64 (x : Z) : Z := (x + 2 ^ 63) mod 2 ^ 64 - 2 ^ 63.
Definition dec_u64 (n : Z) : bytes := dec (cast64 n).

Definition isspace (c : Z) : bool := (c =? 32) || ((9 <=? c) && (c <=? 13)).
Definition isdigit (c : Z) : bool := (48 <=? c) && (c <=? 57).
Fixpoint skip_space (s : bytes) : bytes :=
  match s with
  | c :: s' => if isspace c then skip_space s' else s
  | [] => []
  end.
Fixpoint scan_digits (acc : Z) (s : bytes) : Z * bytes :=
  match s with
  | c :: s' => if isdigit c then scan_digits (acc * 10 + (c - 48)) s' else (acc, s)
  | [] => (acc, [])
  end.
Definition starts_digit (s : bytes) : bool :=
  match s with c :: _ => isdigit c | [] => false end.
(** [strtol(s, &endptr, 10)] with the bytes from [endptr] on; [long] has 64 bits. *)
Definition strtol (s : bytes) : Z * bytes :=
  let t := skip_space s in
  let '(neg, t1) := match t with
                    | c :: t' => if c =? chr "-" then (true, t')
                                 else if c =? chr "+" then (false, t') else (false, t)
                    | [] => (false, t)
                    end in
  if starts_digit t1 then
    let '(n, endptr) := scan_digits 0 t1 in
    ((if neg : bool then Z.max (- 2 ^ 63) (- n) else Z.min (2 ^ 63 - 1) n), endptr)
  else (0, s).

(** Fields separated by [sep]; with a newline at the end, the shape of every format
    string of the binlogs. *)
Fixpoint join (sep : Z) (fields : list bytes) : bytes :=
  match fields with
  | [] => []
  | [f] => f
  | f :: fs => f ++ sep :: join sep fs
  end.
Definition sprintf_line (fields : list bytes) : bytes := join SPACE fields ++ [NEWLINE].

(** ** Record types and sources *)
Definition BINLOG_OP_TYPE_WRITE_SLICE : Z := chr "w".
Definition BINLOG_OP_TYPE_ALLOC_SLICE : Z := chr "a".
Definition BINLOG_OP_TYPE_DEL_SLICE : Z := chr "d".
Definition BINLOG_OP_TYPE_DEL_BLOCK : Z := chr "D".
Definition BINLOG_OP_TYPE_NO_OP : Z := chr "N".
Definition BINLOG_SOURCE_RECLAIM : Z := chr "M".
Definition BINLOG_SOURCE_RPC_MASTER : Z := chr "C".
Definition BINLOG_SOURCE_RPC_SLAVE : Z := chr "c".
Definition BINLOG_SOURCE_REPLAY : Z := chr "r".

Definition FS_SLICE_BINLOG_MAX_RECORD_SIZE : Z := 256.
Definition FS_REPLICA_BINLOG_MAX_RECORD_SIZE : Z := 128.
Definition FS_TRUNK_BINLOG_MAX_RECORD_SIZE : Z := 128.

(** ** Writing *)

(** [SFBinlogWriterBuffer]: what is queued for the writer thread, which orders the
    records of a binlog by version. *)
Record WriterBuffer := mkWbuffer {
  wb_tag : Z;
  wb_version : Z;
  wb_buff : bytes;
}.

(** The record [slice_binlog_log_add_slice] formats; [ob] is the key of the slice's
    block. *)
Definition add_slice_line (ob : FSBlockKey) (slice : OBSliceEntry)
    (current_time data_version source : Z) : bytes :=
  sprintf_line
    [dec current_time; dec_u64 data_version; [source];
     [match se_type slice with
      | OB_SLICE_TYPE_FILE => BINLOG_OP_TYPE_WRITE_SLICE
      | OB_SLICE_TYPE_ALLOC => BINLOG_OP_TYPE_ALLOC_SLICE
      end];
     dec (bk_oid ob); dec (bk_offset ob); dec (soff slice); dec (slen slice);
     dec (sp_store (se_space slice)); dec (ti_id (sp_id_info (se_space slice)));
     dec (ti_subdir (sp_id_info (se_space slice)));
     dec (sp_offset (se_space slice)); dec (sp_size (se_space slice))].

(** [slice_binlog_log_add_slice], [slice_binlog_log_del_slice] and
    [slice_binlog_log_del_block]; [ok] tells whether a buffer could be allocated. *)
Definition slice_binlog_log_add_slice (ob : FSBlockKey) (slice : OBSliceEntry)
    (current_time sn data_version source : Z) (ok : bool) : Z + WriterBuffer :=
  if negb ok then inl ENOMEM
  else inr (mkWbuffer data_version sn (add_slice_line ob slice current_time data_version source)).

Definition slice_binlog_log_del_slice (bs_key : FSBlockSliceKeyInfo)
    (current_time sn data_version source : Z) (ok : bool) : Z + WriterBuffer :=
  if negb ok then inl ENOMEM
  else inr (mkWbuffer data_version sn
    (sprintf_line
       [dec current_time; dec_u64 data_version; [source]; [BINLOG_OP_TYPE_DEL_SLICE];
        dec (bk_oid (bs_block bs_key)); dec (bk_offset (bs_block bs_key));
        dec (ss_offset (bs_slice bs_key)); dec (ss_length (bs_slice bs_key))])).

Definition slice_binlog_log_del_block (bkey : FSBlockKey)
    (current_time sn data_version source : Z) (ok : bool) : Z + WriterBuffer :=
  if negb ok then inl ENOMEM
  else inr (mkWbuffer data_version sn
    (sprintf_line
       [dec current_time; dec_u64 data_version; [source]; [BINLOG_OP_TYPE_DEL_BLOCK];
        dec (bk_oid bkey); dec (bk_offset bkey)])).

(** [replica_binlog_log_slice] and [replica_binlog_log_block]; the version of the
    buffer is the data version. *)
Definition replica_binlog_log_slice (current_time data_version : Z)
    (bs_key : FSBlockSliceKeyInfo) (source op_type : Z) (ok : bool) : Z + WriterBuffer :=
  if negb ok then inl ENOMEM
  else inr (mkWbuffer source data_version
    (sprintf_line
       [dec current_time; dec data_version; [source]; [op_type];
        dec (bk_oid (bs_block bs_key)); dec (bk_offset (bs_block bs_key));
        dec (ss_offset (bs_slice bs_key)); dec (ss_length (bs_slice bs_key))])).
Definition replica_binlog_log_block (current_time data_version : Z)
    (bkey : FSBlockKey) (source op_type : Z) (ok : bool) : Z + WriterBuffer :=
  if negb ok then inl ENOMEM
  else inr (mkWbuffer source data_version
    (sprintf_line
       [dec current_time; dec data_version; [source]; [op_type];
        dec (bk_oid bkey); dec (bk_offset bkey)])).

(** [trunk_binlog_write]. *)
Definition FS_IO_TYPE_CREATE_TRUNK : Z := chr "C".
Definition FS_IO_TYPE_DELETE_TRUNK : Z := chr "D".
Definition trunk_binlog_write (g_current_time op_type path_index : Z) (id_info : FSTrunkIdInfo)
    (file_size : Z) (ok : bool) : Z + bytes :=
  if negb ok then inl ENOMEM
  else inr (sprintf_line
    [dec (cast32 g_current_time); [op_type]; dec path_index; dec (ti_id id_info);
     dec (ti_subdir id_info); dec file_size]).

(** ** Parsing *)

(** A parser fails with an error number. *)
Definition Err (A : Type) : Type := Z + A.
#[export] Instance Err_ret : MRet Err := λ A a, inr a.
#[export] Instance Err_bind : MBind Err := λ A B k m,
  match m with inl e => inl e | inr a => k a end.
Definition check (b : bool) (e : Z) : Err unit := if b then inr tt else inl e.

Definition BINLOG_COMMON_FIELD_INDEX_DATA_VERSION : nat := 1.
Definition BINLOG_COMMON_FIELD_INDEX_SOURCE : nat := 2.
Definition BINLOG_COMMON_FIELD_INDEX_OP_TYPE : nat := 3.
Definition BINLOG_COMMON_FIELD_INDEX_BLOCK_OID : nat := 4.
Definition BINLOG_COMMON_FIELD_INDEX_BLOCK_OFFSET : nat := 5.
Definition BINLOG_COMMON_FIELD_INDEX_SLICE_OFFSET : nat := 6.
Definition BINLOG_COMMON_FIELD_INDEX_SLICE_LENGTH : nat := 7.
Definition ADD_SLICE_FIELD_INDEX_SPACE_PATH_INDEX : nat := 8.
Definition ADD_SLICE_FIELD_INDEX_SPACE_TRUNK_ID : nat := 9.
Definition ADD_SLICE_FIELD_INDEX_SPACE_SUBDIR : nat := 10.
Definition ADD_SLICE_FIELD_INDEX_SPACE_OFFSET : nat := 11.
Definition ADD_SLICE_FIELD_INDEX_SPACE_SIZE : nat := 12.
Definition ADD_SLICE_EXPECT_FIELD_COUNT : nat := 13.
Definition SLICE_EXPECT_FIELD_COUNT : nat := 8.
Definition BLOCK_EXPECT_FIELD_COUNT : nat := 6.

(** [string_t cols[]]: where each column starts in the buffer, and its length. *)
Definition Cols : Type := list (nat * nat).
(** [cols[index].str], with everything that follows it in the buffer; the callers
    check the number of columns first. *)
Definition col_str (mem : bytes) (cols : Cols) (index : nat) : bytes :=
  match cols !! index with Some (off, _) => drop off mem | None => [] end.
(** [cols[index].str[0]]. *)
Definition col_char (mem : bytes) (cols : Cols) (index : nat) : Z :=
  hd 0 (col_str mem cols index).

(** [BINLOG_PARSE_INT_EX] and [BINLOG_PARSE_INT_SILENCE]; [cast] is the conversion to
    the type of the variable. *)
Definition BINLOG_PARSE_INT (cast : Z → Z) (mem : bytes) (cols : Cols) (index : nat)
    (endchr min_val : Z) : Err Z :=
  let '(v, endptr) := strtol (col_str mem cols index) in
  let var := cast v in
  if negb (hd (-1) endptr =? endchr) || (var <? min_val) then inl EINVAL else inr var.
Definition int64 (x : Z) : Z := x.

(** [SliceBinlogRecord]. *)
Record SliceBinlogRecord := mkSliceRecord {
  sr_op_type : Z;
  sr_slice_type : OBSliceType;
  sr_bs_key : FSBlockSliceKeyInfo;
  sr_space : FSTrunkSpaceInfo;
}.
(** [ReplicaBinlogRecord]. *)
Record ReplicaBinlogRecord := mkReplicaRecord {
  rr_op_type : Z;
  rr_source : Z;
  rr_bs_key : FSBlockSliceKeyInfo;
  rr_data_version : Z;
}.

Section Parse.
(** [split_string_ex(line, seperator, cols, max_count, ignore_empty)]: the line is the
    first [len] bytes of the buffer. *)
Variable split_string_ex : bytes → nat → Z → nat → bool → Cols.
(** [STORAGE_CFG.max_store_path_index], and whether [PATHS_BY_INDEX_PPTR] has an entry. *)
Variables (max_store_path_index : Z) (path_exists : Z → bool).
Implicit Types (mem : bytes) (cols : Cols).

(** [add_slice_set_fields]. *)
Definition add_slice_set_fields (record : SliceBinlogRecord) mem cols : Err SliceBinlogRecord :=
  check (length cols =? ADD_SLICE_EXPECT_FIELD_COUNT)%nat EINVAL;;
  off ← BINLOG_PARSE_INT cast32 mem cols BINLOG_COMMON_FIELD_INDEX_SLICE_OFFSET SPACE 0;
  len ← BINLOG_PARSE_INT cast32 mem cols BINLOG_COMMON_FIELD_INDEX_SLICE_LENGTH SPACE 1;
  path_index ← BINLOG_PARSE_INT cast32 mem cols ADD_SLICE_FIELD_INDEX_SPACE_PATH_INDEX SPACE 0;
  check (path_index <=? max_store_path_index) EINVAL;;
  check (path_exists path_index) ENOENT;;
  id ← BINLOG_PARSE_INT int64 mem cols ADD_SLICE_FIELD_INDEX_SPACE_TRUNK_ID SPACE 1;
  subdir ← BINLOG_PARSE_INT int64 mem cols ADD_SLICE_FIELD_INDEX_SPACE_SUBDIR SPACE 1;
  offset ← BINLOG_PARSE_INT int64 mem cols ADD_SLICE_FIELD_INDEX_SPACE_OFFSET SPACE 0;
  size ← BINLOG_PARSE_INT int64 mem cols ADD_SLICE_FIELD_INDEX_SPACE_SIZE NEWLINE 0;
  mret (mkSliceRecord (sr_op_type record) (sr_slice_type record)
    (mkBlockSliceKey (bs_block (sr_bs_key record)) (mkSliceSize off len))
    (mkTrunkSpace path_index (mkTrunkId id subdir) offset size)).

(** [del_slice_set_fields]. *)
Definition del_slice_set_fields (record : SliceBinlogRecord) mem cols : Err SliceBinlogRecord :=
  check (length cols =? SLICE_EXPECT_FIELD_COUNT)%nat EINVAL;;
  off ← BINLOG_PARSE_INT cast32 mem cols BINLOG_COMMON_FIELD_INDEX_SLICE_OFFSET SPACE 0;
  len ← BINLOG_PARSE_INT cast32 mem cols BINLOG_COMMON_FIELD_INDEX_SLICE_LENGTH NEWLINE 1;
  mret (mkSliceRecord (sr_op_type record) (sr_slice_type record)
    (mkBlockSliceKey (bs_block (sr_bs_key record)) (mkSliceSize off len)) (sr_space record)).

(** [del_block_set_fields]. *)
Definition del_block_set_fields (record : SliceBinlogRecord) cols : Err SliceBinlogRecord :=
  check (length cols =? BLOCK_EXPECT_FIELD_COUNT)%nat EINVAL;; mret record.

Definition MAX_BINLOG_FIELD_COUNT : nat := 16.
(** [slice_parse_line]: the fields are stored into the given record. *)
Definition slice_parse_line mem (len : nat) (record : SliceBinlogRecord) : Err SliceBinlogRecord :=
  let cols := split_string_ex mem len SPACE MAX_BINLOG_FIELD_COUNT false in
  check (BLOCK_EXPECT_FIELD_COUNT <=? length cols)%nat EINVAL;;
  let op_type := col_char mem cols BINLOG_COMMON_FIELD_INDEX_OP_TYPE in
  oid ← BINLOG_PARSE_INT int64 mem cols BINLOG_COMMON_FIELD_INDEX_BLOCK_OID SPACE 1;
  offset ← BINLOG_PARSE_INT int64 mem cols BINLOG_COMMON_FIELD_INDEX_BLOCK_OFFSET
             (if op_type =? BINLOG_OP_TYPE_DEL_BLOCK then NEWLINE else SPACE) 0;
  let set_key t := mkSliceRecord op_type t
    (mkBlockSliceKey (fs_calc_block_hashcode oid offset) (bs_slice (sr_bs_key record)))
    (sr_space record) in
  if op_type =? BINLOG_OP_TYPE_WRITE_SLICE then
    add_slice_set_fields (set_key OB_SLICE_TYPE_FILE) mem cols
  else if op_type =? BINLOG_OP_TYPE_ALLOC_SLICE then
    add_slice_set_fields (set_key OB_SLICE_TYPE_ALLOC) mem cols
  else if op_type =? BINLOG_OP_TYPE_DEL_SLICE then
    del_slice_set_fields (set_key (sr_slice_type record)) mem cols
  else if op_type =? BINLOG_OP_TYPE_DEL_BLOCK then
    del_block_set_fields (set_key (sr_slice_type record)) cols
  else inl EINVAL.

(** [memchr(s, c, len)]: the offset of the first [c]. *)
Fixpoint memchr (c : Z) (s : bytes) : option nat :=
  match s with
  | [] => None
  | x :: s' => if x =? c then Some O else S <$> memchr c s'
  end.

(** [parse_buffer]: the records of the complete lines, in order, with the error that
    stopped it. The records come from the free list; [freelist] holds those at hand and
    [more] the batches [fast_mblock_batch_alloc] will still give. The fuel bounds the
    number of lines. *)
Fixpoint parse_buffer (fuel : nat) (buffer : bytes) (freelist : list SliceBinlogRecord)
    (more : list (list SliceBinlogRecord)) : Z * list SliceBinlogRecord :=
  match fuel with
  | O => (0, [])
  | S fuel =>
      match memchr NEWLINE buffer with
      | None => (0, [])
      | Some len =>
          let go node freelist more :=
            match slice_parse_line buffer len node with
            | inl e => (e, [])
            | inr record =>
                let '(result, l) := parse_buffer fuel (drop (S len) buffer) freelist more in
                (result, record :: l)
            end in
          match freelist, more with
          | node :: freelist, _ => go node freelist more
          | [], (node :: freelist) :: more => go node freelist more
          | [], _ => (ENOMEM, [])
          end
      end
  end.

(** [unpack_slice_record] and [unpack_block_record]. *)
Definition unpack_slice_record mem cols (source op_type dv : Z)
    (old : FSBlockSliceKeyInfo) : Err ReplicaBinlogRecord :=
  check (length cols =? SLICE_EXPECT_FIELD_COUNT)%nat EINVAL;;
  oid ← BINLOG_PARSE_INT int64 mem cols BINLOG_COMMON_FIELD_INDEX_BLOCK_OID SPACE 1;
  boff ← BINLOG_PARSE_INT int64 mem cols BINLOG_COMMON_FIELD_INDEX_BLOCK_OFFSET SPACE 0;
  off ← BINLOG_PARSE_INT cast32 mem cols BINLOG_COMMON_FIELD_INDEX_SLICE_OFFSET SPACE 0;
  len ← BINLOG_PARSE_INT cast32 mem cols BINLOG_COMMON_FIELD_INDEX_SLICE_LENGTH NEWLINE 1;
  mret (mkReplicaRecord op_type source
    (mkBlockSliceKey (mkBlockKey oid boff (bk_hash_code (bs_block old))) (mkSliceSize off len)) dv).
Definition unpack_block_record mem cols (source op_type dv : Z)
    (old : FSBlockSliceKeyInfo) : Err ReplicaBinlogRecord :=
  check (length cols =? BLOCK_EXPECT_FIELD_COUNT)%nat EINVAL;;
  oid ← BINLOG_PARSE_INT int64 mem cols BINLOG_COMMON_FIELD_INDEX_BLOCK_OID SPACE 1;
  boff ← BINLOG_PARSE_INT int64 mem cols BINLOG_COMMON_FIELD_INDEX_BLOCK_OFFSET NEWLINE 0;
  mret (mkReplicaRecord op_type source
    (mkBlockSliceKey (mkBlockKey oid boff (bk_hash_code (bs_block old))) (bs_slice old)) dv).

Definition REPLICA_MAX_FIELD_COUNT : nat := 8.
(** [replica_binlog_record_unpack]. [old] is the key of the record before: its hash code
    stays, and so does its slice when the record is one of a block. *)
Definition replica_binlog_record_unpack mem (len : nat) (old : FSBlockSliceKeyInfo)
    : Err ReplicaBinlogRecord :=
  let cols := split_string_ex mem len SPACE REPLICA_MAX_FIELD_COUNT false in
  check (BLOCK_EXPECT_FIELD_COUNT <=? length cols)%nat EINVAL;;
  let source := col_char mem cols BINLOG_COMMON_FIELD_INDEX_SOURCE in
  let op_type := col_char mem cols BINLOG_COMMON_FIELD_INDEX_OP_TYPE in
  dv ← BINLOG_PARSE_INT int64 mem cols BINLOG_COMMON_FIELD_INDEX_DATA_VERSION SPACE 1;
  if (op_type =? BINLOG_OP_TYPE_WRITE_SLICE) || (op_type =? BINLOG_OP_TYPE_ALLOC_SLICE)
     || (op_type =? BINLOG_OP_TYPE_DEL_SLICE)
  then unpack_slice_record mem cols source op_type dv old
  else if (op_type =? BINLOG_OP_TYPE_DEL_BLOCK) || (op_type =? BINLOG_OP_TYPE_NO_OP)
  then unpack_block_record mem cols source op_type dv old
  else inl EINVAL.

(** [replica_binlog_unpack_records]: at most [size] records; the lines include their
    newline. [old] are the keys the entries of the array [records] hold. *)
Fixpoint replica_binlog_unpack_records (size : nat) (buffer : bytes)
    (old : list FSBlockSliceKeyInfo) : Z * list ReplicaBinlogRecord :=
  match buffer, size, old with
  | [], _, _ => (0, [])
  | _, S size, o :: old =>
      match memchr NEWLINE buffer with
      | None => (EINVAL, [])
      | Some n =>
          match replica_binlog_record_unpack buffer (S n) o with
          | inl e => (e, [])
          | inr record =>
              let '(result, l) := replica_binlog_unpack_records size (drop (S n) buffer) old in
              (result, record :: l)
          end
      end
  | _, _, _ => (0, [])
  end.

(** The checks and conversions of [trunk_parse_line], up to the call that adds or deletes
    the trunk: its type, path index, id and size. *)
Definition FS_TRUNK_FILE_MIN_SIZE : Z := 64 * 1024 * 1024.
Definition FS_TRUNK_FILE_MAX_SIZE : Z := 4 * 1024 * 1024 * 1024.
Definition trunk_parse_fields mem (len : nat) : Err (Z * Z * FSTrunkIdInfo * Z) :=
  let cols := split_string_ex mem len SPACE 8 false in
  check (6 <=? length cols)%nat EINVAL;;
  let op_type := col_char mem cols 1 in
  path_index ← BINLOG_PARSE_INT cast32 mem cols 2 SPACE 0;
  check (path_index <=? max_store_path_index) EINVAL;;
  id ← BINLOG_PARSE_INT int64 mem cols 3 SPACE 1;
  subdir ← BINLOG_PARSE_INT int64 mem cols 4 SPACE 1;
  trunk_size ← BINLOG_PARSE_INT int64 mem cols 5 NEWLINE FS_TRUNK_FILE_MIN_SIZE;
  check (trunk_size <=? FS_TRUNK_FILE_MAX_SIZE) EINVAL;;
  check ((op_type =? FS_IO_TYPE_CREATE_TRUNK) || (op_type =? FS_IO_TYPE_DELETE_TRUNK)) EINVAL;;
  mret (op_type, path_index, mkTrunkId id subdir, trunk_size).
End Parse.

(** ** Comparing the binlogs of a slave and its master *)

(** [FS_IS_BINLOG_SOURCE_RPC]. *)
Definition FS_IS_BINLOG_SOURCE_RPC (source : Z) : bool :=
  (source =? BINLOG_SOURCE_RPC_MASTER) || (source =? BINLOG_SOURCE_RPC_SLAVE).

(** [compare_record]. *)
Definition compare_record (r1 r2 : ReplicaBinlogRecord) : Z :=
  let sub := rr_op_type r1 - rr_op_type r2 in
  if negb (sub =? 0) then sub else
  let k1 := bs_block (rr_bs_key r1) in let k2 := bs_block (rr_bs_key r2) in
  let sub := cmp3 (bk_oid k1) (bk_oid k2) in
  if negb (sub =? 0) then sub else
  let sub := cmp3 (bk_offset k1) (bk_offset k2) in
  if negb (sub =? 0) then sub else
  if (rr_op_type r1 =? BINLOG_OP_TYPE_DEL_BLOCK) || (rr_op_type r1 =? BINLOG_OP_TYPE_NO_OP)
  then 0 else
  let s1 := bs_slice (rr_bs_key r1) in let s2 := bs_slice (rr_bs_key r2) in
  let sub := ss_offset s1 - ss_offset s2 in
  if negb (sub =? 0) then sub else ss_length s1 - ss_length s2.

(** [check_records_consistency]: [Some dv] is [SF_CLUSTER_ERROR_BINLOG_INCONSISTENT] with
    [*first_unmatched_dv]. *)
Fixpoint check_records_consistency (slave_records : list ReplicaBinlogRecord)
    : list ReplicaBinlogRecord → option Z :=
  fix merge (master_records : list ReplicaBinlogRecord) : option Z :=
    match slave_records, master_records with
    | sr :: slave_rest, mr :: master_rest =>
        if rr_data_version sr <? rr_data_version mr then
          check_records_consistency slave_rest master_records
        else if rr_data_version sr =? rr_data_version mr then
          if FS_IS_BINLOG_SOURCE_RPC (rr_source sr) && FS_IS_BINLOG_SOURCE_RPC (rr_source mr)
             && negb (compare_record sr mr =? 0)
          then Some (rr_data_version sr)
          else check_records_consistency slave_rest master_rest
        else merge master_rest
    | _, _ => None
    end.
