(* ===== verification/BinlogSpec.v ===== *)
(** * Reading back what was printed

    [strtol] undoes [%d]; the columns of a line the binlogs print are the fields; what
    [split_string_ex] is relied on for. *)
From Stdlib Require Import Ascii.
From S2P Require Import Prelude Types Binlog.

(** ** Decimal numbers *)
Lemma print_digits_scan fuel n acc :
  0 <= n < 10 ^ Z.of_nat fuel → (0 < fuel)%nat →
  scan_digits 0 (print_digits fuel n acc) = scan_digits n acc.
Proof.
  revert n acc. induction fuel as [|fuel IH]; intros n acc Hn Hf; [lia|]. simpl.
  assert (Hd : ∀ d s a, 0 <= d < 10 → scan_digits a (48 + d :: s) = scan_digits (a * 10 + d) s).
  { intros d s a Hd. cbn [scan_digits]. unfold isdigit.
    rewrite (proj2 (Z.leb_le 48 (48 + d))), (proj2 (Z.leb_le (48 + d) 57)) by lia. simpl.
    f_equal. lia. }
  destruct (Z.ltb_spec n 10).
  - rewrite Hd by lia. f_equal.
  - rewrite Nat2Z.inj_succ, Z.pow_succ_r in Hn by lia.
    assert (0 <= n / 10 < 10 ^ Z.of_nat fuel).
    { split; [apply Z.div_pos; lia|apply Z.div_lt_upper_bound; lia]. }
    rewrite IH; [|done|destruct fuel; [|lia]].
    + rewrite Hd by (apply Z.mod_pos_bound; lia). f_equal. pose proof (Z.div_mod n 10). lia.
    + simpl in *. assert (n / 10 = 0) by lia. pose proof (Z.div_mod n 10).
      pose proof (Z.mod_pos_bound n 10). lia.
Qed.

Lemma print_digits_digits fuel n acc :
  0 <= n → Forall (λ c, isdigit c = true) acc →
  Forall (λ c, isdigit c = true) (print_digits fuel n acc).
Proof.
  revert n acc. induction fuel as [|fuel IH]; intros n acc Hn Ha; [done|]. simpl.
  assert (Hd : ∀ d, 0 <= d < 10 → isdigit (48 + d) = true) by (unfold isdigit; intros; lia).
  destruct (Z.ltb_spec n 10).
  - constructor; [apply Hd; lia|done].
  - apply IH; [apply Z.div_pos; lia|]. constructor; [|done]. apply Hd, Z.mod_pos_bound. lia.
Qed.

Lemma print_digits_length (k fuel : nat) n acc :
  0 <= n < 10 ^ Z.of_nat k → (0 < k)%nat →
  (length (print_digits fuel n acc) <= k + length acc)%nat.
Proof.
  revert k n acc. induction fuel as [|fuel IH]; intros k n acc Hn Hk; simpl; [lia|].
  destruct (Z.ltb_spec n 10); [simpl; lia|].
  destruct k as [|k]; [lia|]. rewrite Nat2Z.inj_succ, Z.pow_succ_r in Hn by lia.
  destruct k as [|k]; [simpl in Hn; lia|].
  etransitivity; [apply (IH (S k))|simpl; lia]; [|lia].
  split; [apply Z.div_pos; lia|apply Z.div_lt_upper_bound; lia].
Qed.

Lemma print_digits_cons fuel n acc :
  (0 < fuel)%nat → ∃ c s, print_digits fuel n acc = c :: s.
Proof.
  assert (H : ∀ f m a, a ≠ [] → print_digits f m a ≠ []).
  { induction f as [|f IH]; intros m a Ha; simpl; [done|]. destruct (_ <? _); [done|]. by apply IH. }
  destruct fuel as [|fuel]; [lia|]. intros _. simpl. destruct (_ <? _); [by eexists _, _|].
  destruct (print_digits fuel (n / 10) _) eqn:E; [by apply H in E|by eexists _, _].
Qed.

Lemma scan_digits_app acc l rest :
  Forall (λ c, isdigit c = true) l → starts_digit rest = false →
  scan_digits acc (l ++ rest) = ((scan_digits acc l).1, rest).
Proof.
  revert acc. induction l as [|c l IH]; intros acc Hl Hr; simpl.
  - destruct rest as [|c rest]; [done|]. simpl in *. by rewrite Hr.
  - apply Forall_cons in Hl as [Hc Hl]. rewrite Hc. by apply IH.
Qed.

Lemma print_number n rest :
  0 <= n < 2 ^ 64 → starts_digit rest = false →
  scan_digits 0 (print_digits 20 n [] ++ rest) = (n, rest).
Proof.
  intros Hn Hr. rewrite scan_digits_app; [|apply print_digits_digits; [lia|done]|done].
  by rewrite print_digits_scan by (simpl; lia).
Qed.

Lemma isdigit_not_space c : isdigit c = true → isspace c = false ∧ c ≠ chr "-" ∧ c ≠ chr "+".
Proof. unfold isdigit, isspace. change (chr "-") with 45. change (chr "+") with 43. lia. Qed.

Lemma starts_print n rest :
  0 <= n → ∃ c s, print_digits 20 n [] ++ rest = c :: s ∧ isdigit c = true.
Proof.
  intros Hn. destruct (print_digits_cons 20 n [] ltac:(lia)) as (c & s & E). exists c, (s ++ rest).
  rewrite E. split; [done|]. pose proof (print_digits_digits 20 n [] Hn ltac:(done)) as H.
  rewrite E in H. by apply Forall_cons in H as [? _].
Qed.

(** [strtol] reads what [%d] printed and stops behind it. *)
Lemma strtol_dec n rest :
  in_int64 n → starts_digit rest = false → strtol (dec n ++ rest) = (n, rest).
Proof.
  unfold in_int64. intros Hn Hr. unfold dec. destruct (Z.ltb_spec n 0).
  - unfold strtol. destruct (starts_print (- n) rest) as (c & s & E & Hc); [lia|].
    pose proof (print_number (- n) rest ltac:(lia) Hr) as H1.
    rewrite <- app_comm_cons, E. rewrite E in H1.
    change (skip_space (chr "-" :: c :: s)) with (chr "-" :: c :: s). cbv iota beta.
    rewrite Z.eqb_refl. cbn [starts_digit]. rewrite Hc, H1. f_equal. lia.
  - unfold strtol. destruct (starts_print n rest) as (c & s & E & Hc); [lia|].
    pose proof (print_number n rest ltac:(lia) Hr) as H1. rewrite E in H1 |- *.
    destruct (isdigit_not_space c Hc) as (Hs & Hm & Hp). simpl skip_space. rewrite Hs.
    apply Z.eqb_neq in Hm, Hp. rewrite Hm, Hp. cbn [starts_digit]. rewrite Hc, H1. f_equal. lia.
Qed.

Definition clean (f : bytes) : Prop := f ≠ [] ∧ (SPACE ∉ f) ∧ (NEWLINE ∉ f).
Lemma dec_clean n : clean (dec n).
Proof.
  assert (Hd : ∀ m, 0 <= m → clean (print_digits 20 m [])).
  { intros m Hm. pose proof (print_digits_digits 20 m [] Hm ltac:(done)) as H.
    rewrite Forall_forall in H. split_and!.
    - destruct (print_digits_cons 20 m [] ltac:(lia)) as (? & ? & ->). done.
    - intros Hi%H. done.
    - intros Hi%H. done. }
  unfold dec. destruct (Z.ltb_spec n 0); [|by apply Hd].
  destruct (Hd (- n)) as (_ & H1 & H2); [lia|]. split_and!; [done|..]; rewrite elem_of_cons; by intros [?|?].
Qed.
Lemma char_clean c : c ≠ SPACE → c ≠ NEWLINE → clean [c].
Proof. intros. split_and!; [done|by rewrite list_elem_of_singleton..]. Qed.

Lemma dec_length (k : nat) n :
  - 10 ^ Z.of_nat k < n < 10 ^ Z.of_nat (S k) → (0 < k)%nat → (length (dec n) <= S k)%nat.
Proof.
  intros Hn Hk. unfold dec. destruct (Z.ltb_spec n 0).
  - simpl. pose proof (print_digits_length k 20 (- n) []). simpl in *. lia.
  - pose proof (print_digits_length (S k) 20 n []). simpl length in *. lia.
Qed.
Lemma dec_length64 n : in_int64 n → (length (dec n) <= 20)%nat.
Proof. unfold in_int64. intros. apply dec_length; simpl; lia. Qed.
Lemma dec_length32 n : in_int32 n → (length (dec n) <= 11)%nat.
Proof. unfold in_int32. intros. apply dec_length; simpl; lia. Qed.
Lemma cast64_range x : in_int64 (cast64 x).
Proof.
  unfold in_int64, cast64. pose proof (Z.mod_pos_bound (x + 2 ^ 63) (2 ^ 64)). lia.
Qed.

(** ** Columns *)

(** The columns of a line of fields that starts at [off]. *)
Fixpoint field_cols (off : nat) (fields : list bytes) : Cols :=
  match fields with
  | [] => []
  | f :: fs => (off, length f) :: field_cols (off + length f + 1) fs
  end.

(** What is relied on of [split_string_ex]: it finds the fields of a line of non-empty
    fields joined by the separator, when there is room for all of them. *)
Definition split_spec (split : bytes → nat → Z → nat → bool → Cols) : Prop :=
  ∀ (sep : Z) fields rest (max_count : nat),
    fields ≠ [] → Forall (λ f, f ≠ [] ∧ sep ∉ f) fields → (length fields <= max_count)%nat →
    split (join sep fields ++ rest) (length (join sep fields)) sep max_count false
      = field_cols 0 fields.

Lemma field_cols_length off fields : length (field_cols off fields) = length fields.
Proof. revert off. induction fields as [|f fs IH]; intros off; simpl; [done|]. by rewrite IH. Qed.

(** What follows the [i]-th column in a line. *)
Lemma col_str_join sep fields rest i f :
  fields !! i = Some f →
  ∃ rest', col_str (join sep fields ++ rest) (field_cols 0 fields) i
    = f ++ (if (S i =? length fields)%nat then rest else sep :: rest').
Proof.
  unfold col_str.
  assert (H : ∀ pre off, length pre = off → fields !! i = Some f →
    ∃ rest', match field_cols off fields !! i with
             | Some (o, _) => drop o (pre ++ join sep fields ++ rest) | None => [] end
      = f ++ (if (S i =? length fields)%nat then rest else sep :: rest')).
  2:{ intros Hf. apply (H [] 0%nat); done. }
  revert i. induction fields as [|g fs IH]; intros i pre off Hp Hf; [done|].
  destruct i as [|i].
  - injection Hf as [= ->]. simpl. rewrite <- Hp, drop_app_length. destruct fs as [|g fs].
    + exists []. done.
    + eexists. simpl. by rewrite <- app_assoc, <- app_comm_cons.
  - simpl in Hf. cbn [field_cols lookup list_lookup]. destruct fs as [|g' fs]; [done|].
    specialize (IH i (pre ++ g ++ [sep]) (off + length g + 1)%nat) as (rest' & Hr);
      [rewrite !length_app; simpl; lia|done|].
    exists rest'. cbn [length]. replace (S (S i) =? S (S (length fs)))%nat
      with (S i =? length (g' :: fs))%nat by done. rewrite <- Hr.
    change (list_lookup i) with (lookup (M := list (nat * nat)) i).
    cbn [join]. by rewrite <- !app_assoc, <- app_comm_cons.
Qed.

(** Parsing a column that is a printed number. *)
Lemma parse_int_ok cast sep fields rest i n endchr min_val :
  fields !! i = Some (dec n) → in_int64 n → cast n = n → min_val <= n →
  isdigit endchr = false →
  (endchr = if (S i =? length fields)%nat then hd (-1) rest else sep) →
  BINLOG_PARSE_INT cast (join sep fields ++ rest) (field_cols 0 fields) i endchr min_val = inr n.
Proof.
  intros Hf Hn Hc Hm Hd He. unfold BINLOG_PARSE_INT.
  destruct (col_str_join sep fields rest i (dec n) Hf) as (rest' & ->).
  rewrite strtol_dec; [|done|].
  - rewrite Hc. assert (Hh : hd (-1) (if (S i =? length fields)%nat then rest else sep :: rest') = endchr).
    { rewrite He. by destruct (S i =? length fields)%nat. }
    rewrite Hh, Z.eqb_refl. simpl. destruct (Z.ltb_spec n min_val); [lia|done].
  - destruct (S i =? length fields)%nat; [|by simpl; rewrite <- He].
    destruct rest as [|c rest]; [done|]. simpl in *. by rewrite <- He.
Qed.

Lemma col_char_ok sep fields rest i c :
  fields !! i = Some [c] → col_char (join sep fields ++ rest) (field_cols 0 fields) i = c.
Proof.
  intros Hf. unfold col_char. by destruct (col_str_join sep fields rest i [c] Hf) as (r & ->).
Qed.

(** Lines of clean fields. *)
Lemma join_no_newline fields : Forall clean fields → NEWLINE ∉ join SPACE fields.
Proof.
  induction fields as [|f fs IH]; intros H; [by intros ?%elem_of_nil|].
  apply Forall_cons in H as [(_ & _ & Hf) H]. destruct fs as [|g fs]; [done|].
  cbn [join]. rewrite elem_of_app, elem_of_cons. intros [?|[?|?]]; [done|done|]. by apply IH.
Qed.
Lemma memchr_app c s rest : c ∉ s → memchr c (s ++ c :: rest) = Some (length s).
Proof.
  induction s as [|x s IH]; intros Hc; simpl; [by rewrite Z.eqb_refl|].
  rewrite not_elem_of_cons in Hc. destruct Hc as [Hx Hs]. destruct (Z.eqb_spec x c); [congruence|].
  by rewrite IH.
Qed.

(** A line that includes its newline has the same columns. *)
Fixpoint add_nl (fields : list bytes) : list bytes :=
  match fields with
  | [] => []
  | [f] => [f ++ [NEWLINE]]
  | f :: fs => f :: add_nl fs
  end.
Lemma join_add_nl fields rest :
  fields ≠ [] → join SPACE (add_nl fields) ++ rest = join SPACE fields ++ NEWLINE :: rest.
Proof.
  induction fields as [|f fs IH]; [done|]. intros _. destruct fs as [|g fs].
  - simpl. by rewrite <- app_assoc.
  - destruct (add_nl (g :: fs)) as [|h hs] eqn:E; [by destruct fs|].
    change (add_nl (f :: g :: fs)) with (f :: add_nl (g :: fs)). rewrite E. cbn [join].
    cbn [join] in IH. rewrite <- !app_assoc, <- !app_comm_cons, IH by done. done.
Qed.
Lemma length_add_nl fields : length (add_nl fields) = length fields.
Proof. induction fields as [|f [|g fs] IH]; [done..|]. simpl in *. by rewrite IH. Qed.
Lemma join_add_nl_length fields :
  fields ≠ [] → length (join SPACE (add_nl fields)) = S (length (join SPACE fields)).
Proof.
  intros Hf. pose proof (f_equal length (join_add_nl fields [] Hf)) as H.
  rewrite !length_app in H. simpl in H. lia.
Qed.
Lemma col_str_add_nl mem off fields i :
  col_str mem (field_cols off (add_nl fields)) i = col_str mem (field_cols off fields) i.
Proof.
  unfold col_str. revert off i. induction fields as [|f [|g fs] IH]; intros off i; [done|by destruct i|].
  destruct i as [|i]; [done|]. apply (IH (off + length f + 1)%nat i).
Qed.
Lemma add_nl_split fields :
  Forall clean fields → Forall (λ f, f ≠ [] ∧ SPACE ∉ f) (add_nl fields).
Proof.
  induction fields as [|f [|g fs] IH]; intros Hc; [constructor| |].
  - apply Forall_cons in Hc as [(? & Hs & _) _]. constructor; [|constructor].
    split; [by destruct f|]. rewrite elem_of_app, list_elem_of_singleton. by intros [?|?].
  - apply Forall_cons in Hc as [(? & ? & _) Hc]. constructor; [done|]. by apply IH.
Qed.
