(* ===== verification/BinlogThms.v ===== *)
(** * The binlogs can be read back

    Everything the update operations log is parsed back to what was logged, and every
    record fits its buffer. *)
From Stdlib Require Import Ascii.
From S2P Require Import Prelude Types Binlog BinlogSpec.

(** What is logged in the slice binlog. *)
Inductive SliceEvent :=
  | EvAddSlice (ob : FSBlockKey) (slice : OBSliceEntry)
  | EvDelSlice (bs_key : FSBlockSliceKeyInfo)
  | EvDelBlock (bkey : FSBlockKey).
Definition log_event (ev : SliceEvent) (current_time sn data_version source : Z)
    : bool → Z + WriterBuffer :=
  match ev with
  | EvAddSlice ob slice => slice_binlog_log_add_slice ob slice current_time sn data_version source
  | EvDelSlice bs_key => slice_binlog_log_del_slice bs_key current_time sn data_version source
  | EvDelBlock bkey => slice_binlog_log_del_block bkey current_time sn data_version source
  end.

Definition event_fields (ev : SliceEvent) (t dv src : Z) : list bytes :=
  match ev with
  | EvAddSlice ob s =>
      [dec t; dec_u64 dv; [src];
       [match se_type s with
        | OB_SLICE_TYPE_FILE => BINLOG_OP_TYPE_WRITE_SLICE
        | OB_SLICE_TYPE_ALLOC => BINLOG_OP_TYPE_ALLOC_SLICE end];
       dec (bk_oid ob); dec (bk_offset ob); dec (soff s); dec (slen s); dec (sp_store (se_space s));
       dec (ti_id (sp_id_info (se_space s))); dec (ti_subdir (sp_id_info (se_space s)));
       dec (sp_offset (se_space s)); dec (sp_size (se_space s))]
  | EvDelSlice bs =>
      [dec t; dec_u64 dv; [src]; [BINLOG_OP_TYPE_DEL_SLICE]; dec (bk_oid (bs_block bs));
       dec (bk_offset (bs_block bs)); dec (ss_offset (bs_slice bs)); dec (ss_length (bs_slice bs))]
  | EvDelBlock k =>
      [dec t; dec_u64 dv; [src]; [BINLOG_OP_TYPE_DEL_BLOCK]; dec (bk_oid k); dec (bk_offset k)]
  end.
Lemma log_event_fields ev t sn dv src :
  log_event ev t sn dv src true = inr (mkWbuffer dv sn (sprintf_line (event_fields ev t dv src))).
Proof. by destruct ev. Qed.

(** A record that says what an event says. *)
Definition record_of (ev : SliceEvent) (r : SliceBinlogRecord) : Prop :=
  match ev with
  | EvAddSlice ob s =>
      r = mkSliceRecord (match se_type s with
                         | OB_SLICE_TYPE_FILE => BINLOG_OP_TYPE_WRITE_SLICE
                         | OB_SLICE_TYPE_ALLOC => BINLOG_OP_TYPE_ALLOC_SLICE end)
            (se_type s) (mkBlockSliceKey ob (se_ssize s)) (se_space s)
  | EvDelSlice bs => sr_op_type r = BINLOG_OP_TYPE_DEL_SLICE ∧ sr_bs_key r = bs
  | EvDelBlock k => sr_op_type r = BINLOG_OP_TYPE_DEL_BLOCK ∧ bs_block (sr_bs_key r) = k
  end.

(** ** What the server's values satisfy *)
Definition key_logged (k : FSBlockKey) : Prop :=
  key_ok k ∧ 1 <= bk_oid k < 2 ^ 63 ∧ 0 <= bk_offset k < 2 ^ 63.
Definition ssize_logged (ss : FSSliceSize) : Prop :=
  0 <= ss_offset ss < 2 ^ 31 ∧ 1 <= ss_length ss < 2 ^ 31.
Definition space_logged (max_store_path_index : Z) (path_exists : Z → bool)
    (sp : FSTrunkSpaceInfo) : Prop :=
  0 <= sp_store sp <= max_store_path_index ∧ path_exists (sp_store sp) = true ∧
  1 <= ti_id (sp_id_info sp) < 2 ^ 63 ∧ 1 <= ti_subdir (sp_id_info sp) < 2 ^ 63 ∧
  0 <= sp_offset sp < 2 ^ 63 ∧ 0 <= sp_size sp < 2 ^ 63.
Definition event_logged max_store_path_index path_exists (ev : SliceEvent) : Prop :=
  match ev with
  | EvAddSlice ob s => key_logged ob ∧ ssize_logged (se_ssize s) ∧
      space_logged max_store_path_index path_exists (se_space s)
  | EvDelSlice bs => key_logged (bs_block bs) ∧ ssize_logged (bs_slice bs)
  | EvDelBlock k => key_logged k
  end.

(** ** One line *)
Lemma check_true b e {B} (m : Err B) r : b = true → m = r → (check b e ;; m) = r.
Proof. by intros -> <-. Qed.
Lemma parse_bind {B} cast sep fields rest i n endchr min_val (k : Z → Err B) r :
  fields !! i = Some (dec n) → in_int64 n → cast n = n → min_val <= n →
  isdigit endchr = false →
  (endchr = if (S i =? length fields)%nat then hd (-1) rest else sep) → k n = r →
  mbind (M := Err) k
    (BINLOG_PARSE_INT cast (join sep fields ++ rest) (field_cols 0 fields) i endchr min_val) = r.
Proof. intros ?????? <-. by rewrite (parse_int_ok cast sep fields rest i n). Qed.

Lemma chars_clean : Forall (λ c, clean [c])
  [BINLOG_OP_TYPE_WRITE_SLICE; BINLOG_OP_TYPE_ALLOC_SLICE; BINLOG_OP_TYPE_DEL_SLICE;
   BINLOG_OP_TYPE_DEL_BLOCK; BINLOG_OP_TYPE_NO_OP].
Proof. repeat constructor; try done; by intros ?%list_elem_of_singleton. Qed.
Lemma event_fields_clean ev t dv src : clean [src] → Forall clean (event_fields ev t dv src).
Proof.
  intros Hs. pose proof chars_clean as Hc.
  repeat (apply Forall_cons in Hc as [? Hc]).
  destruct ev; repeat (constructor; [first [apply dec_clean|assumption|by destruct (se_type slice)]|]);
    constructor.
Qed.
Lemma clean_split fields : Forall clean fields → Forall (λ f, f ≠ [] ∧ SPACE ∉ f) fields.
Proof. intros H. eapply Forall_impl; [exact H|]. by intros f (? & ? & _). Qed.

(** Read the next column: the fields are known, so the column and the character behind
    it are found by computation. *)
Ltac parse_field :=
  eapply parse_bind;
    [reflexivity|unfold in_int64, soff, slen; lia
    |first [reflexivity|apply cast32_id; unfold in_int32, soff, slen; lia]
    |unfold soff, slen; lia|reflexivity|reflexivity|].
Ltac parse_check := eapply check_true; [first [reflexivity|assumption|lia]|].

Section Roundtrip.
Context (split_string_ex : bytes → nat → Z → nat → bool → Cols) (Hsplit : split_spec split_string_ex).
Context (max_store_path_index : Z) (path_exists : Z → bool) (Hmax : max_store_path_index < 2 ^ 31).

Lemma add_slice_set_fields_ok r ob s t dv src rest :
  ssize_logged (se_ssize s) → space_logged max_store_path_index path_exists (se_space s) →
  let fields := event_fields (EvAddSlice ob s) t dv src in
  add_slice_set_fields max_store_path_index path_exists r
    (join SPACE fields ++ NEWLINE :: rest) (field_cols 0 fields)
  = inr (mkSliceRecord (sr_op_type r) (sr_slice_type r)
      (mkBlockSliceKey (bs_block (sr_bs_key r)) (se_ssize s)) (se_space s)).
Proof.
  intros [? ?] (? & ? & ? & ? & ? & ?) fields. unfold add_slice_set_fields.
  parse_check. do 3 parse_field. do 2 parse_check. do 4 parse_field.
  destruct s as [? ? ? [] [? [] ? ?]]. done.
Qed.

Lemma slice_parse_line_ok ev t dv src r rest :
  event_logged max_store_path_index path_exists ev → clean [src] →
  let line := join SPACE (event_fields ev t dv src) in
  ∃ r', slice_parse_line split_string_ex max_store_path_index path_exists
          (line ++ NEWLINE :: rest) (length line) r = inr r' ∧ record_of ev r'.
Proof.
  intros Hev Hsrc line. unfold slice_parse_line.
  pose proof (event_fields_clean ev t dv src Hsrc) as Hcl.
  assert (Hne : event_fields ev t dv src ≠ []) by (by destruct ev).
  assert (Hlen : (length (event_fields ev t dv src) <= MAX_BINLOG_FIELD_COUNT)%nat)
    by (destruct ev; vm_compute; lia).
  unfold line. rewrite Hsplit by (done || by apply clean_split). cbv zeta.
  assert (Hk : ∀ k, key_logged k → fs_calc_block_hashcode (bk_oid k) (bk_offset k) = k).
  { intros k (Hk & _). symmetry. exact Hk. }
  destruct ev as [ob s|bs|k].
  - destruct Hev as ((Hob & ? & ?) & Hss & Hsp). eexists. split; [|reflexivity]. parse_check.
    rewrite (col_char_ok SPACE _ _ _ (match se_type s with
      | OB_SLICE_TYPE_FILE => BINLOG_OP_TYPE_WRITE_SLICE
      | OB_SLICE_TYPE_ALLOC => BINLOG_OP_TYPE_ALLOC_SLICE end)) by done.
    parse_field. eapply parse_bind; [reflexivity|unfold in_int64; lia|reflexivity|lia
      |by destruct (se_type s)|by destruct (se_type s)|].
    rewrite Hk by done. rewrite !add_slice_set_fields_ok by done. by destruct (se_type s).
  - destruct Hev as ((Hob & ? & ?) & ? & ?). eexists. split.
    { parse_check. rewrite (col_char_ok SPACE _ _ _ BINLOG_OP_TYPE_DEL_SLICE) by done.
      do 2 parse_field. rewrite Hk by done. unfold del_slice_set_fields. simpl Z.eqb. cbv iota.
      parse_check. do 2 parse_field. reflexivity. }
    split; [done|]. by destruct bs as [? []].
  - destruct Hev as (Hob & ? & ?). eexists. split.
    { parse_check. rewrite (col_char_ok SPACE _ _ _ BINLOG_OP_TYPE_DEL_BLOCK) by done.
      do 2 parse_field. rewrite Hk by done. reflexivity. }
    done.
Qed.

(** An entry of the log: the event with its time, number, data version and source. *)
Definition LogEntry : Type := SliceEvent * (Z * Z * Z * Z).
Definition entry_logged (e : LogEntry) : Prop :=
  event_logged max_store_path_index path_exists e.1 ∧ clean [e.2.2].
Definition entry_line (e : LogEntry) : bytes :=
  let '(ev, (t, sn, dv, src)) := e in
  match log_event ev t sn dv src true with inr wb => wb_buff wb | inl _ => [] end.

Lemma entry_line_eq ev t sn dv src :
  entry_line (ev, (t, sn, dv, src)) = join SPACE (event_fields ev t dv src) ++ [NEWLINE].
Proof. unfold entry_line. by rewrite log_event_fields. Qed.

Lemma drop_line (l : bytes) c rest : drop (S (length l)) (l ++ c :: rest) = rest.
Proof. induction l; done. Qed.
Lemma memchr_none s : NEWLINE ∉ s → memchr NEWLINE s = None.
Proof.
  induction s as [|c s IH]; [done|]. rewrite not_elem_of_cons. intros [Hc Hs]. simpl.
  destruct (Z.eqb_spec c NEWLINE); [congruence|]. by rewrite IH.
Qed.

(** The records [parse_buffer] has at its disposal. *)
Definition nodes (freelist : list SliceBinlogRecord) (more : list (list SliceBinlogRecord)) : nat :=
  length (freelist ++ concat more).

(** C33: What the update operations write to the slice binlog is what the loader reads back:
    the buffer of the lines of any sequence of records, followed by an incomplete line, is
    parsed without an error into exactly these records, in order. The hypotheses: the library
    splits fields as documented, the values are those a server logs, and there are
    enough records to store them in. *)
Theorem slice_binlog_roundtrip (entries : list LogEntry) tail fuel freelist more :
  Forall entry_logged entries → NEWLINE ∉ tail → Forall (λ l, l ≠ []) more →
  (length entries <= nodes freelist more)%nat →
  let buffer := concat (entry_line <$> entries) ++ tail in
  (length buffer <= fuel)%nat →
  ∃ records, parse_buffer split_string_ex max_store_path_index path_exists fuel buffer freelist more
      = (0, records) ∧ Forall2 (λ e r, record_of e.1 r) entries records.
Proof.
  intros He Ht. revert fuel freelist more.
  induction entries as [|[ev [[[t sn] dv] src]] entries IH]; intros fuel freelist more Hm Hn buffer Hf.
  { exists []. split; [|constructor]. destruct fuel; [done|]. unfold buffer. simpl.
    by rewrite memchr_none. }
  apply Forall_cons in He as [[Hev Hsrc] He]. simpl in Hsrc. specialize (IH He).
  set (line := join SPACE (event_fields ev t dv src)).
  set (rest := concat (entry_line <$> entries) ++ tail).
  assert (Hb : buffer = line ++ NEWLINE :: rest).
  { unfold buffer, rest. cbn [fmap list_fmap concat]. rewrite entry_line_eq.
    by rewrite <- !app_assoc. }
  rewrite Hb in Hf |- *. rewrite length_app in Hf. simpl in Hf. destruct fuel as [|fuel]; [lia|].
  cbn [parse_buffer].
  rewrite memchr_app by (apply join_no_newline, event_fields_clean; done). fold line.
  assert (Hgo : ∀ node fl mo, Forall (λ l, l ≠ []) mo → (length entries <= nodes fl mo)%nat →
    ∃ records, match slice_parse_line split_string_ex max_store_path_index path_exists
        (line ++ NEWLINE :: rest) (length line) node with
      | inl e => (e, [])
      | inr record => let '(result, l) := parse_buffer split_string_ex max_store_path_index
          path_exists fuel (drop (S (length line)) (line ++ NEWLINE :: rest)) fl mo in
          (result, record :: l)
      end = (0, records) ∧ Forall2 (λ e r, record_of e.1 r) ((ev, (t, sn, dv, src)) :: entries) records).
  { intros node fl mo Hmo Hn'.
    destruct (slice_parse_line_ok ev t dv src node rest Hev Hsrc) as (r & E & Hr).
    fold line in E. rewrite E, drop_line. destruct (IH fuel fl mo Hmo Hn') as (records & Hp & H2); [fold rest; lia|].
    fold rest in Hp. rewrite Hp. exists (r :: records). split; [done|]. by constructor. }
  unfold nodes in *. simpl in Hn. destruct freelist as [|node freelist].
  - destruct more as [|[|node fl] more]; [simpl in Hn; lia|by apply Forall_cons in Hm as [? _]|].
    apply Hgo; [by apply Forall_cons in Hm as [_ ?]|]. simpl in Hn. rewrite length_app in Hn |- *. lia.
  - apply Hgo; [done|]. simpl in Hn. lia.
Qed.
End Roundtrip.

(** ** The replica binlog *)

(** What is logged: the time, the data version, the source, the operation and its key. *)
Record ReplicaEvent := mkReplicaEvent {
  re_time : Z;
  re_dv : Z;
  re_source : Z;
  re_op : Z;
  re_bs_key : FSBlockSliceKeyInfo;
}.
Definition is_slice_op (op : Z) : bool :=
  (op =? BINLOG_OP_TYPE_WRITE_SLICE) || (op =? BINLOG_OP_TYPE_ALLOC_SLICE)
  || (op =? BINLOG_OP_TYPE_DEL_SLICE).
Definition is_block_op (op : Z) : bool :=
  (op =? BINLOG_OP_TYPE_DEL_BLOCK) || (op =? BINLOG_OP_TYPE_NO_OP).
Definition replica_log (e : ReplicaEvent) : bool → Z + WriterBuffer :=
  if is_slice_op (re_op e)
  then replica_binlog_log_slice (re_time e) (re_dv e) (re_bs_key e) (re_source e) (re_op e)
  else replica_binlog_log_block (re_time e) (re_dv e) (bs_block (re_bs_key e)) (re_source e) (re_op e).
Definition replica_line (e : ReplicaEvent) : bytes :=
  match replica_log e true with inr wb => wb_buff wb | inl _ => [] end.
Definition replica_logged (e : ReplicaEvent) : Prop :=
  is_slice_op (re_op e) || is_block_op (re_op e) = true ∧ clean [re_source e] ∧
  1 <= re_dv e < 2 ^ 63 ∧
  1 <= bk_oid (bs_block (re_bs_key e)) < 2 ^ 63 ∧ 0 <= bk_offset (bs_block (re_bs_key e)) < 2 ^ 63 ∧
  (is_slice_op (re_op e) = true → ssize_logged (bs_slice (re_bs_key e))).
(** The hash code is not set, the slice only by the records of a slice. *)
Definition replica_record_of (e : ReplicaEvent) (r : ReplicaBinlogRecord) : Prop :=
  rr_op_type r = re_op e ∧ rr_source r = re_source e ∧ rr_data_version r = re_dv e ∧
  bk_oid (bs_block (rr_bs_key r)) = bk_oid (bs_block (re_bs_key e)) ∧
  bk_offset (bs_block (rr_bs_key r)) = bk_offset (bs_block (re_bs_key e)) ∧
  (is_slice_op (re_op e) = true → bs_slice (rr_bs_key r) = bs_slice (re_bs_key e)).

Definition replica_fields (e : ReplicaEvent) : list bytes :=
  [dec (re_time e); dec (re_dv e); [re_source e]; [re_op e];
   dec (bk_oid (bs_block (re_bs_key e))); dec (bk_offset (bs_block (re_bs_key e)))]
  ++ (if is_slice_op (re_op e)
      then [dec (ss_offset (bs_slice (re_bs_key e))); dec (ss_length (bs_slice (re_bs_key e)))] else []).
Lemma replica_line_eq e : replica_line e = join SPACE (replica_fields e) ++ [NEWLINE].
Proof. unfold replica_line, replica_log, replica_fields. by destruct (is_slice_op (re_op e)). Qed.

Lemma op_cases e :
  is_slice_op (re_op e) || is_block_op (re_op e) = true → clean [re_op e].
Proof.
  unfold is_slice_op, is_block_op. intros H.
  pose proof chars_clean as Hc. repeat (apply Forall_cons in Hc as [? Hc]).
  repeat (apply orb_prop in H as [H|H]); apply Z.eqb_eq in H; by rewrite H.
Qed.
Lemma replica_fields_clean e : replica_logged e → Forall clean (replica_fields e).
Proof.
  intros (Hop & Hs & _). apply op_cases in Hop. apply Forall_app. split.
  - repeat (constructor; [first [apply dec_clean|assumption]|]). constructor.
  - destruct (is_slice_op _); repeat (constructor; [apply dec_clean|]); constructor.
Qed.

Lemma parse_bind_nl {B} cast fields rest i n endchr min_val (k : Z → Err B) r :
  fields !! i = Some (dec n) → in_int64 n → cast n = n → min_val <= n →
  isdigit endchr = false →
  (endchr = if (S i =? length fields)%nat then NEWLINE else SPACE) → k n = r →
  mbind (M := Err) k (BINLOG_PARSE_INT cast (join SPACE fields ++ NEWLINE :: rest)
    (field_cols 0 (add_nl fields)) i endchr min_val) = r.
Proof.
  intros. unfold BINLOG_PARSE_INT. rewrite col_str_add_nl. by eapply parse_bind.
Qed.
Ltac parse_field_nl :=
  eapply parse_bind_nl;
    [reflexivity|unfold in_int64; lia
    |first [reflexivity|apply cast32_id; unfold in_int32; lia]|lia|reflexivity|reflexivity|].

Section Replica.
Context (split_string_ex : bytes → nat → Z → nat → bool → Cols) (Hsplit : split_spec split_string_ex).

Lemma replica_unpack_ok e rest old :
  replica_logged e →
  ∃ r, replica_binlog_record_unpack split_string_ex (replica_line e ++ rest)
         (length (replica_line e)) old = inr r ∧ replica_record_of e r.
Proof.
  intros He. pose proof (replica_fields_clean e He) as Hcl. rewrite replica_line_eq, <- app_assoc.
  destruct He as (Hop & Hs & ? & ? & ? & Hss).
  assert (Hne : replica_fields e ≠ []) by done.
  unfold replica_binlog_record_unpack.
  assert (Hcols : split_string_ex (join SPACE (replica_fields e) ++ [NEWLINE] ++ rest)
    (length (join SPACE (replica_fields e) ++ [NEWLINE])) SPACE REPLICA_MAX_FIELD_COUNT false
    = field_cols 0 (add_nl (replica_fields e))).
  { assert (Hl : length (join SPACE (replica_fields e) ++ [NEWLINE])
      = length (join SPACE (add_nl (replica_fields e)))).
    { rewrite join_add_nl_length by done. rewrite length_app. simpl. lia. }
    rewrite Hl. change ([NEWLINE] ++ rest) with (NEWLINE :: rest).
    rewrite <- join_add_nl by done. apply Hsplit.
    - intros E. apply (f_equal length) in E. by rewrite length_add_nl in E.
    - by apply add_nl_split.
    - rewrite length_add_nl. unfold replica_fields. destruct (is_slice_op _); vm_compute; lia. }
  rewrite Hcols. cbv zeta. change ([NEWLINE] ++ rest) with (NEWLINE :: rest). unfold col_char. rewrite !col_str_add_nl.
  fold (col_char (join SPACE (replica_fields e) ++ NEWLINE :: rest)
    (field_cols 0 (replica_fields e)) BINLOG_COMMON_FIELD_INDEX_SOURCE).
  fold (col_char (join SPACE (replica_fields e) ++ NEWLINE :: rest)
    (field_cols 0 (replica_fields e)) BINLOG_COMMON_FIELD_INDEX_OP_TYPE).
  rewrite (col_char_ok _ _ _ BINLOG_COMMON_FIELD_INDEX_SOURCE (re_source e)) by reflexivity.
  rewrite (col_char_ok _ _ _ BINLOG_COMMON_FIELD_INDEX_OP_TYPE (re_op e)) by reflexivity.
  destruct (is_slice_op (re_op e)) eqn:Eop.
  - destruct (Hss eq_refl) as [? ?]. eexists. split.
    { unfold replica_fields. rewrite Eop. parse_check. parse_field_nl.
      pose proof Eop as Eop'. unfold is_slice_op in Eop'. rewrite Eop'. unfold unpack_slice_record. parse_check.
      do 4 parse_field_nl. reflexivity. }
    split_and!; try done. intros _. simpl. by destruct (bs_slice _).
  - simpl in Hop. eexists. split.
    { unfold replica_fields. rewrite Eop. parse_check. parse_field_nl.
      pose proof Eop as Eop'. unfold is_slice_op in Eop'. rewrite Eop'.
      unfold is_block_op in Hop. rewrite Hop.
      unfold unpack_block_record. parse_check. do 2 parse_field_nl. reflexivity. }
    unfold replica_record_of. rewrite Eop. by split_and!.
Qed.

(** C34: What the update operations write to the replica binlog is read back as it was
    written: of the lines of any sequence of records, as many as the array has room for are
    unpacked into exactly these records, in order. *)
Theorem replica_binlog_roundtrip (events : list ReplicaEvent) (size : nat) old :
  Forall replica_logged events → (size <= length old)%nat →
  ∃ records, replica_binlog_unpack_records split_string_ex size
      (concat (replica_line <$> events)) old = (0, records) ∧
    Forall2 replica_record_of (take size events) records.
Proof.
  intros He. revert size old. induction events as [|e events IH]; intros size old Ho.
  { exists []. rewrite take_nil. split; [by destruct size, old|constructor]. }
  apply Forall_cons in He as [He Hes]. specialize (IH Hes).
  destruct size as [|size].
  { exists []. split; [|constructor]. simpl. by destruct (replica_line e ++ _), old. }
  destruct old as [|o old]; [simpl in Ho; lia|]. simpl in Ho.
  set (rest := concat (replica_line <$> events)).
  assert (Hb : concat (replica_line <$> (e :: events)) = join SPACE (replica_fields e) ++ NEWLINE :: rest).
  { change (concat _) with (replica_line e ++ rest). by rewrite replica_line_eq, <- app_assoc. }
  destruct (replica_unpack_ok e rest o He) as (r & Hr & Hrr).
  destruct (IH size old ltac:(lia)) as (records & Hp & H2). exists (r :: records).
  fold rest in Hp. split; [|by constructor]. rewrite Hb.
  rewrite replica_line_eq, <- app_assoc, length_app, Nat.add_comm in Hr.
  change ([NEWLINE] ++ rest) with (NEWLINE :: rest) in Hr. cbn [length Nat.add] in Hr.
  pose proof (memchr_app NEWLINE _ rest (join_no_newline _ (replica_fields_clean e He))) as Hm.
  pose proof (drop_line (join SPACE (replica_fields e)) NEWLINE rest) as Hd.
  revert Hr Hm Hd. generalize (length (join SPACE (replica_fields e))).
  destruct (join SPACE (replica_fields e) ++ NEWLINE :: rest) as [|c s] eqn:E.
  { by destruct (join SPACE (replica_fields e)). }
  intros n Hr Hm Hd. cbn [replica_binlog_unpack_records]. by rewrite Hm, Hr, Hd, Hp.
Qed.
End Replica.

(** ** The consistency check of the replica binlogs, and record sizes

    [check_records_consistency] finds the first record a slave and its master disagree on;
    no record is longer than its buffer; the concrete instances of the properties of the
    binlogs. *)

(** ** Consistency of two binlogs *)

(** Two records of the same update. *)
Definition same_update (r1 r2 : ReplicaBinlogRecord) : Prop :=
  rr_op_type r1 = rr_op_type r2 ∧
  bk_oid (bs_block (rr_bs_key r1)) = bk_oid (bs_block (rr_bs_key r2)) ∧
  bk_offset (bs_block (rr_bs_key r1)) = bk_offset (bs_block (rr_bs_key r2)) ∧
  (is_block_op (rr_op_type r1) = false → bs_slice (rr_bs_key r1) = bs_slice (rr_bs_key r2)).

Lemma compare_record_zero r1 r2 : compare_record r1 r2 = 0 ↔ same_update r1 r2.
Proof.
  unfold compare_record, same_update. fold (is_block_op (rr_op_type r1)).
  destruct (Z.eqb_spec (rr_op_type r1 - rr_op_type r2) 0); simpl; [|intuition lia].
  pose proof (cmp3_zero (bk_oid (bs_block (rr_bs_key r1))) (bk_oid (bs_block (rr_bs_key r2)))).
  destruct (Z.eqb_spec (cmp3 (bk_oid (bs_block (rr_bs_key r1)))
    (bk_oid (bs_block (rr_bs_key r2)))) 0); simpl; [|intuition lia].
  pose proof (cmp3_zero (bk_offset (bs_block (rr_bs_key r1))) (bk_offset (bs_block (rr_bs_key r2)))).
  destruct (Z.eqb_spec (cmp3 (bk_offset (bs_block (rr_bs_key r1)))
    (bk_offset (bs_block (rr_bs_key r2)))) 0); simpl; [|intuition lia].
  destruct (is_block_op (rr_op_type r1)).
  - split; [|done]. intros _. split_and!; [lia|tauto|tauto|done].
  - destruct (bs_slice (rr_bs_key r1)) as [o1 l1], (bs_slice (rr_bs_key r2)) as [o2 l2]. simpl.
    destruct (Z.eqb_spec (o1 - o2) 0); simpl.
    + split.
      * intros. split_and!; [lia|tauto|tauto|]. intros _. f_equal; lia.
      * intros (_ & _ & _ & Heq). injection (Heq eq_refl). lia.
    + split; [lia|]. intros (_ & _ & _ & Heq). injection (Heq eq_refl). lia.
Qed.

(** Both came in by remote procedure calls, with the same version, and differ. *)
Definition mismatch (s m : ReplicaBinlogRecord) : Prop :=
  rr_data_version s = rr_data_version m ∧ FS_IS_BINLOG_SOURCE_RPC (rr_source s) = true ∧
  FS_IS_BINLOG_SOURCE_RPC (rr_source m) = true ∧ ¬ same_update s m.

Definition dv_lt (r1 r2 : ReplicaBinlogRecord) : Prop := rr_data_version r1 < rr_data_version r2.

Lemma check_nil_l ml : check_records_consistency [] ml = None.
Proof. by destruct ml. Qed.
Lemma check_nil_r sl : check_records_consistency sl [] = None.
Proof. by destruct sl. Qed.

Lemma mismatch_test s m :
  rr_data_version s = rr_data_version m →
  FS_IS_BINLOG_SOURCE_RPC (rr_source s) && FS_IS_BINLOG_SOURCE_RPC (rr_source m)
    && negb (compare_record s m =? 0) = true ↔ mismatch s m.
Proof.
  intros Hdv. unfold mismatch. rewrite <- compare_record_zero, !andb_true_iff, negb_true_iff, Z.eqb_neq.
  tauto.
Qed.

(** What the check says of the two lists. *)
Definition consistency_spec (sl ml : list ReplicaBinlogRecord) (r : option Z) : Prop :=
  match r with
  | None => ∀ s m, s ∈ sl → m ∈ ml → ¬ mismatch s m
  | Some dv => (∃ s m, s ∈ sl ∧ m ∈ ml ∧ mismatch s m ∧ rr_data_version s = dv) ∧
      ∀ s m, s ∈ sl → m ∈ ml → mismatch s m → dv <= rr_data_version s
  end.
(** Records that cannot be part of a mismatch may be left out. *)
Lemma consistency_weaken sl ml sl' ml' r :
  (∀ s, s ∈ sl → s ∈ sl') → (∀ m, m ∈ ml → m ∈ ml') →
  (∀ s m, s ∈ sl' → m ∈ ml' → mismatch s m → s ∈ sl ∧ m ∈ ml) →
  consistency_spec sl ml r → consistency_spec sl' ml' r.
Proof.
  intros Hs Hm Hin. destruct r as [dv|]; simpl.
  - intros [(s & m & Hs1 & Hm1 & Hmis & Hdv) Hmin]. split; [exists s, m; split_and!; auto|].
    intros s' m' Hs' Hm' Hx. destruct (Hin _ _ Hs' Hm' Hx). by apply (Hmin s' m').
  - intros Hno s m Hs' Hm' Hmis. destruct (Hin _ _ Hs' Hm' Hmis). by apply (Hno s m).
Qed.

(** C35: The consistency check finds disagreements exactly: over binlogs ordered by data
    version it answers "consistent" iff no two records of the same version that came from
    clients describe different updates, and otherwise reports the smallest version they
    disagree on. *)
Theorem check_records_consistency_ok slave_records master_records :
  StronglySorted dv_lt slave_records → StronglySorted dv_lt master_records →
  consistency_spec slave_records master_records
    (check_records_consistency slave_records master_records).
Proof.
  intros Hs. revert master_records. induction Hs as [|sr sl Hsl IHs Hsr]; intros ml Hm.
  { rewrite check_nil_l. by intros s m ?%elem_of_nil. }
  induction Hm as [|mr ml Hml IHm Hmr].
  { rewrite check_nil_r. by intros s m _ ?%elem_of_nil. }
  rewrite Forall_forall in Hsr, Hmr. unfold dv_lt in Hsr, Hmr. cbn [check_records_consistency].
  destruct (Z.ltb_spec (rr_data_version sr) (rr_data_version mr)) as [Hlt|Hge].
  - eapply consistency_weaken; [by right|done| |apply IHs; by constructor; [|apply Forall_forall]].
    intros s m [->|?]%elem_of_cons Hmm (Hdv & _); [|done].
    apply elem_of_cons in Hmm as [->|Hmm]; [lia|]. specialize (Hmr _ Hmm). lia.
  - destruct (Z.eqb_spec (rr_data_version sr) (rr_data_version mr)) as [Heq|Hne].
    + destruct (_ && _) eqn:Et.
      * apply mismatch_test in Et; [|done]. split; [exists sr, mr; split_and!; by try left|].
        intros s m [->|Hin]%elem_of_cons _ _; [lia|]. specialize (Hsr _ Hin). lia.
      * eapply consistency_weaken; [by right|by right| |apply IHs; done].
        intros s m [->|Hi]%elem_of_cons [->|Hj]%elem_of_cons Hmis; [|..|done].
        -- apply mismatch_test in Hmis; [congruence|done].
        -- destruct Hmis as (Hdv & _). specialize (Hmr _ Hj). lia.
        -- destruct Hmis as (Hdv & _). specialize (Hsr _ Hi). lia.
    + eapply consistency_weaken; [done|by right| |exact IHm].
      intros s m Hi [->|Hj]%elem_of_cons (Hdv & _); [|done].
      apply elem_of_cons in Hi as [->|Hi]; [lia|]. specialize (Hsr _ Hi). lia.
Qed.

(** ** Sizes of the records *)
Definition key_typed (k : FSBlockKey) : Prop := in_int64 (bk_oid k) ∧ in_int64 (bk_offset k).
Definition ssize_typed (ss : FSSliceSize) : Prop := in_int32 (ss_offset ss) ∧ in_int32 (ss_length ss).
Definition event_typed (ev : SliceEvent) : Prop :=
  match ev with
  | EvAddSlice ob s => key_typed ob ∧ ssize_typed (se_ssize s) ∧ in_int32 (sp_store (se_space s)) ∧
      in_int64 (ti_id (sp_id_info (se_space s))) ∧ in_int64 (ti_subdir (sp_id_info (se_space s))) ∧
      in_int64 (sp_offset (se_space s)) ∧ in_int64 (sp_size (se_space s))
  | EvDelSlice bs => key_typed (bs_block bs) ∧ ssize_typed (bs_slice bs)
  | EvDelBlock k => key_typed k
  end.

Lemma join_length fields :
  (length (join SPACE fields) <= sum_list (length <$> fields) + length fields)%nat.
Proof.
  induction fields as [|f [|g fs] IH]; simpl in *; [lia..|].
  rewrite length_app. simpl. lia.
Qed.
(** Add the bound of every printed number in sight. *)
Ltac print_lengths :=
  unfold id;
  repeat match goal with
  | H : in_int64 ?n |- context [length (dec ?n)] =>
      lazymatch goal with _ : (length (dec n) <= 20)%nat |- _ => fail | _ => pose proof (dec_length64 n H) end
  | H : in_int32 ?n |- context [length (dec ?n)] =>
      lazymatch goal with _ : (length (dec n) <= 11)%nat |- _ => fail | _ => pose proof (dec_length32 n H) end
  end; intros; rewrite ?length_app; cbn [length]; lia.

(** No record overflows the buffer [sprintf] writes it to, whatever values of their
    types the fields have: a record of the slice binlog fits into 256 bytes, one of the
    replica binlog into 128, with the terminating zero. *)
Theorem records_fit_buffers ev t sn dv src e wb wb' :
  event_typed ev → in_int64 t → in_int64 (re_time e) → in_int64 (re_dv e) →
  key_typed (bs_block (re_bs_key e)) → ssize_typed (bs_slice (re_bs_key e)) →
  log_event ev t sn dv src true = inr wb → replica_log e true = inr wb' →
  Z.of_nat (length (wb_buff wb)) + 1 <= FS_SLICE_BINLOG_MAX_RECORD_SIZE ∧
  Z.of_nat (length (wb_buff wb')) + 1 <= FS_REPLICA_BINLOG_MAX_RECORD_SIZE.
Proof.
  intros Hev Ht Hrt Hrd [Hk1 Hk2] [Hs1 Hs2]. rewrite log_event_fields. intros [= <-] Hwb'.
  pose proof (cast64_range dv) as Hdv. split.
  - simpl wb_buff. unfold sprintf_line. rewrite length_app.
    pose proof (join_length (event_fields ev t dv src)) as Hj. revert Hj.
    unfold FS_SLICE_BINLOG_MAX_RECORD_SIZE.
    destruct ev as [ob s|bs|k]; cbn [event_fields fmap list_fmap sum_list length]; unfold dec_u64, soff, slen.
    + destruct Hev as ([? ?] & [? ?] & ? & ? & ? & ? & ?). print_lengths.
    + destruct Hev as ([? ?] & [? ?]). print_lengths.
    + destruct Hev as [? ?]. print_lengths.
  - assert (Hl : wb_buff wb' = replica_line e) by (unfold replica_line; by rewrite Hwb').
    rewrite Hl, replica_line_eq, length_app.
    pose proof (join_length (replica_fields e)) as Hj. revert Hj.
    unfold FS_REPLICA_BINLOG_MAX_RECORD_SIZE, replica_fields.
    destruct (is_slice_op _); cbn [app fmap list_fmap sum_list length]; print_lengths.
Qed.
