(* ===== verification/BinlogDemo.v ===== *)
(** * Concrete binlogs

    A splitter with the documented behaviour of [split_string_ex], and the properties of the
    binlogs at concrete records. *)
From Stdlib Require Import Ascii.
From S2P Require Import Prelude Types Binlog BinlogSpec BinlogThms.

(** Split at every separator. *)
Fixpoint split_fields (sep : Z) (l : bytes) : list bytes :=
  match l with
  | [] => [[]]
  | c :: l' =>
      if c =? sep then [] :: split_fields sep l' else
      match split_fields sep l' with
      | f :: fs => (c :: f) :: fs
      | [] => [[c]]
      end
  end.
Definition demo_split (mem : bytes) (len : nat) (sep : Z) (max_count : nat) (ignore_empty : bool)
    : Cols := field_cols 0 (split_fields sep (take len mem)).

Lemma split_fields_app sep f l :
  sep ∉ f → ∃ g gs, split_fields sep l = g :: gs ∧ split_fields sep (f ++ l) = (f ++ g) :: gs.
Proof.
  assert (Hne : ∀ l, ∃ g gs, split_fields sep l = g :: gs).
  { intros l'. destruct l' as [|c l']; [by eexists _, _|]. simpl. destruct (_ =? _); [by eexists _, _|].
    destruct (split_fields sep l'); by eexists _, _. }
  destruct (Hne l) as (g & gs & Hg). exists g, gs. split; [done|].
  induction f as [|c f IH]; [done|]. rewrite not_elem_of_cons in H. destruct H as [Hc Hf].
  simpl. destruct (Z.eqb_spec c sep); [congruence|]. by rewrite IH.
Qed.
Lemma split_fields_join sep fields :
  fields ≠ [] → Forall (λ f, f ≠ [] ∧ sep ∉ f) fields → split_fields sep (join sep fields) = fields.
Proof.
  induction fields as [|f fs IH]; intros Hn Hf; [done|]. apply Forall_cons in Hf as [[_ Hf] Hfs].
  destruct fs as [|g fs].
  - destruct (split_fields_app sep f [] Hf) as (h & hs & Hh & Hs). simpl in Hh. injection Hh as [= <- <-].
    cbn [join]. by rewrite !app_nil_r in Hs.
  - cbn [join]. destruct (split_fields_app sep f (sep :: join sep (g :: fs)) Hf) as (h & hs & Hh & Hs).
    cbn [join] in Hs. rewrite Hs. cbn [split_fields] in Hh. rewrite Z.eqb_refl in Hh.
    injection Hh as [= <- <-]. rewrite app_nil_r. f_equal. by apply IH.
Qed.
Lemma demo_split_spec : split_spec demo_split.
Proof.
  intros sep fields rest max_count Hne Hf _. unfold demo_split. rewrite take_app_length.
  by rewrite split_fields_join.
Qed.

Definition bin_key : FSBlockKey := fs_calc_block_hashcode 100 (4 * FS_FILE_BLOCK_SIZE).
Definition bin_slice : OBSliceEntry :=
  mkSlice 1 1 OB_SLICE_TYPE_FILE (mkSliceSize 0 4096)
    (mkTrunkSpace 0 (mkTrunkId 7 1) 65536 4096).
Definition bin_entries : list LogEntry :=
  [(EvAddSlice bin_key bin_slice, (1600000000, 1, 5, BINLOG_SOURCE_RPC_MASTER));
   (EvDelSlice (mkBlockSliceKey bin_key (mkSliceSize 10 20)), (1600000001, 2, 6, BINLOG_SOURCE_RPC_SLAVE));
   (EvDelBlock bin_key, (1600000002, 3, 7, BINLOG_SOURCE_REPLAY))].
Definition bin_record : SliceBinlogRecord :=
  mkSliceRecord 0 OB_SLICE_TYPE_ALLOC (mkBlockSliceKey bin_key (mkSliceSize 0 0)) (se_space bin_slice).

Ltac char_ok := split_and!; [done|..]; intros ?%list_elem_of_singleton; done.

Lemma slice_binlog_roundtrip_witness :
  ∃ records, parse_buffer demo_split 3 (λ i, i =? 0) 500
      (concat (entry_line <$> bin_entries) ++ [chr "1"]) [] [[bin_record; bin_record]; [bin_record]]
    = (0, records) ∧ Forall2 (λ e r, record_of e.1 r) bin_entries records.
Proof.
  apply (slice_binlog_roundtrip demo_split demo_split_spec 3 (λ i, i =? 0)).
  - lia.
  - assert (Hk : key_logged bin_key) by (split_and!; vm_compute; done).
    repeat (apply Forall_cons; split; [|]); [split|split|split|apply Forall_nil; done]; try char_ok.
    + split_and!; [done|vm_compute; done..].
    + split_and!; [done|vm_compute; done..].
    + done.
  - by intros ?%list_elem_of_singleton.
  - repeat constructor; done.
  - vm_compute. lia.
  - vm_compute. lia.
Defined.

Definition bin_replica (dv op : Z) : ReplicaEvent :=
  mkReplicaEvent 1600000000 dv BINLOG_SOURCE_RPC_MASTER op (mkBlockSliceKey bin_key (mkSliceSize 0 100)).
Definition bin_events : list ReplicaEvent :=
  [bin_replica 1 BINLOG_OP_TYPE_WRITE_SLICE; bin_replica 2 BINLOG_OP_TYPE_DEL_BLOCK].
Lemma replica_binlog_roundtrip_witness :
  ∃ records, replica_binlog_unpack_records demo_split 2 (concat (replica_line <$> bin_events))
      [sr_bs_key bin_record; sr_bs_key bin_record] = (0, records) ∧
    Forall2 replica_record_of (take 2 bin_events) records.
Proof.
  apply (replica_binlog_roundtrip demo_split demo_split_spec).
  - repeat constructor; try done; try (by intros ?%list_elem_of_singleton); vm_compute; done.
  - simpl. lia.
Defined.

Definition bin_rrecord (dv oid : Z) : ReplicaBinlogRecord :=
  mkReplicaRecord BINLOG_OP_TYPE_DEL_BLOCK BINLOG_SOURCE_RPC_SLAVE
    (mkBlockSliceKey (mkBlockKey oid 0 0) (mkSliceSize 0 0)) dv.
Lemma check_records_consistency_ok_witness :
  check_records_consistency [bin_rrecord 3 1; bin_rrecord 4 1; bin_rrecord 5 9]
    [bin_rrecord 1 1; bin_rrecord 4 1; bin_rrecord 5 8] = Some 5 ∧
  consistency_spec [bin_rrecord 3 1; bin_rrecord 4 1; bin_rrecord 5 9]
    [bin_rrecord 1 1; bin_rrecord 4 1; bin_rrecord 5 8] (Some 5).
Proof.
  split; [reflexivity|].
  change (Some 5) with (check_records_consistency [bin_rrecord 3 1; bin_rrecord 4 1; bin_rrecord 5 9]
    [bin_rrecord 1 1; bin_rrecord 4 1; bin_rrecord 5 8]).
  apply check_records_consistency_ok; repeat constructor.
Defined.

Lemma records_fit_buffers_witness :
  ∃ wb wb', log_event (EvAddSlice bin_key bin_slice) 1600000000 1 (2 ^ 64 - 1)
      BINLOG_SOURCE_RPC_MASTER true = inr wb ∧
    replica_log (bin_replica 1 BINLOG_OP_TYPE_WRITE_SLICE) true = inr wb' ∧
    Z.of_nat (length (wb_buff wb)) + 1 <= FS_SLICE_BINLOG_MAX_RECORD_SIZE ∧
    Z.of_nat (length (wb_buff wb')) + 1 <= FS_REPLICA_BINLOG_MAX_RECORD_SIZE.
Proof.
  eexists _, _. split; [reflexivity|]. split; [reflexivity|].
  eapply (records_fit_buffers (EvAddSlice bin_key bin_slice) 1600000000 1 (2 ^ 64 - 1)
    BINLOG_SOURCE_RPC_MASTER (bin_replica 1 BINLOG_OP_TYPE_WRITE_SLICE));
    try reflexivity; repeat split; vm_compute; try done; intros [=].
Defined.
