(* ===== verification/SliceOp.v ===== *)
(** * The operations on slices

    [src/server/storage/slice_op.c]: what a data thread does for a write, an allocation, a
    read or a deletion: it allocates trunk space, creates the slice entries, queues the
    disk I/O, enters the slices into the index and logs the update. The state is the
    operation's context with the index, the allocator (the accounting state of the index)
    and everything that was handed to the I/O threads and the binlog writers. The I/O
    threads' notifications are the steps of [DataThread.v]. *)
From S2P Require Import Prelude Types Skiplist ObSlices TrunkAllocator StorageAllocator ObIndex Binlog.

(** [FSSliceSNPair]. *)
Record FSSliceSNPair := mkPair {
  pr_version : Z;
  pr_sn : Z;
  pr_slice : OBSliceEntry;
}.

(** A request queued for a trunk write thread; the data are the bytes of the buffer or of
    the I/O vectors. *)
Record WriteRequest := mkWrite {
  wr_version : Z;
  wr_slice : OBSliceEntry;
  wr_data : bytes;
}.

(** [AlignedReadBuffer], with the [alloc] bytes of its memory. *)
Record AlignedReadBuffer := mkAligned {
  ab_offset : Z;
  ab_length : Z;
  ab_buff : bytes;
}.
(** An element of [aio_buffer_parray]: zeros for a hole or an allocated slice; [NULL] until
    the read thread sets it to the buffer it reads the slice into; that buffer. *)
Inductive ReadBuffer :=
  | ZeroBuffer (path_index length : Z)
  | FileBuffer (slice : OBSliceEntry)
  | DataBuffer (buffer : AlignedReadBuffer).

#[export] Instance AlignedReadBuffer_eq_dec : EqDecision AlignedReadBuffer.
Proof. solve_decision. Defined.
#[export] Instance ReadBuffer_eq_dec : EqDecision ReadBuffer.
Proof. solve_decision. Defined.
(** [FC_SET_IOVEC] at the start of a buffer: the bytes the vector refers to. *)
Definition iovec (b : AlignedReadBuffer) (len : Z) : bytes :=
  take (Z.to_nat len) (drop (Z.to_nat (ab_offset b)) (ab_buff b)).

(** The buffers of the array, if no element is [NULL]. *)
Definition buffer_at (b : ReadBuffer) : option AlignedReadBuffer :=
  match b with
  | ZeroBuffer _ n => Some (mkAligned 0 n (replicate (Z.to_nat n) 0))
  | FileBuffer _ => None
  | DataBuffer b => Some b
  end.
Definition buffers_at (l : list ReadBuffer) : option (list AlignedReadBuffer) := mapM buffer_at l.

(** [FSSliceOpContext]. *)
Record FSSliceOpContext := mkOp {
  op_counter : Z;          (** [volatile short] *)
  op_result : Z;
  op_done_bytes : Z;
  op_log_replica : bool;
  op_source : Z;
  op_data_version : Z;
  op_sn : Z;
  op_bs_key : FSBlockSliceKeyInfo;
  op_buff : bytes;
  op_space_changed : Z;
  op_sarray_alloc : Z;
  op_sarray : list FSSliceSNPair;
  op_slices : SlicePtrArray;
  op_buffers_alloc : Z;
  op_buffers : list ReadBuffer;
}.

(** The context with everything else an operation touches: [myself->data.version], the
    calls of [rw_done_callback], the writes and reads that are queued for the I/O threads
    (of all paths, in the order they were pushed) and the logged records. *)
Record OpState (T : Type) := mkState {
  os_op : FSSliceOpContext;
  os_index : Index T Mgr;
  os_version : Z;
  os_callbacks : Z;
  os_writes : list WriteRequest;
  os_reads : list OBSliceEntry;
  os_slice_log : list WriterBuffer;
  os_replica_log : list WriterBuffer;
}.
Arguments mkState {T}.
Arguments os_op {T}.
Arguments os_index {T}.
Arguments os_version {T}.
Arguments os_callbacks {T}.
Arguments os_writes {T}.
Arguments os_reads {T}.
Arguments os_slice_log {T}.
Arguments os_replica_log {T}.

(** ** Field updates *)
Definition op_set_io counter result done_bytes o :=
  mkOp counter result done_bytes (op_log_replica o) (op_source o) (op_data_version o) (op_sn o)
    (op_bs_key o) (op_buff o) (op_space_changed o) (op_sarray_alloc o) (op_sarray o) (op_slices o)
    (op_buffers_alloc o) (op_buffers o).
Definition op_set_data_version n o :=
  mkOp (op_counter o) (op_result o) (op_done_bytes o) (op_log_replica o) (op_source o) n (op_sn o)
    (op_bs_key o) (op_buff o) (op_space_changed o) (op_sarray_alloc o) (op_sarray o) (op_slices o)
    (op_buffers_alloc o) (op_buffers o).
Definition op_set_update sn space_changed alloc sarray o :=
  mkOp (op_counter o) (op_result o) (op_done_bytes o) (op_log_replica o) (op_source o)
    (op_data_version o) sn (op_bs_key o) (op_buff o) space_changed alloc sarray (op_slices o)
    (op_buffers_alloc o) (op_buffers o).
Definition op_set_slices arr o :=
  mkOp (op_counter o) (op_result o) (op_done_bytes o) (op_log_replica o) (op_source o)
    (op_data_version o) (op_sn o) (op_bs_key o) (op_buff o) (op_space_changed o)
    (op_sarray_alloc o) (op_sarray o) arr (op_buffers_alloc o) (op_buffers o).
Definition op_set_buffers alloc buffers o :=
  mkOp (op_counter o) (op_result o) (op_done_bytes o) (op_log_replica o) (op_source o)
    (op_data_version o) (op_sn o) (op_bs_key o) (op_buff o) (op_space_changed o)
    (op_sarray_alloc o) (op_sarray o) (op_slices o) alloc buffers.

(** Conversion to [short]. *)
Definition cast16 (x : Z) : Z := (x + 2 ^ 15) mod 2 ^ 16 - 2 ^ 15.

(** The outcome of a step: an invalid pointer or [abort()], a wait (for a reclaim of the
    block to end, or an allocation that is still being retried), or an error number or
    value. *)
Inductive Res (S B : Type) := Crash | Hang | Ret (r : Z + B) (s : S).
Arguments Crash {S B}.
Arguments Hang {S B}.
Arguments Ret {S B}.

Definition OM (T B : Type) : Type := OpState T → Res (OpState T) B.
#[export] Instance OM_ret T : MRet (OM T) := λ B b s, Ret (inr b) s.
#[export] Instance OM_bind T : MBind (OM T) := λ B C k m s,
  match m s with
  | Crash => Crash
  | Hang => Hang
  | Ret (inl e) s' => Ret (inl e) s'
  | Ret (inr b) s' => k b s'
  end.

Section Ops.
Context {T : Type} `{!UniqSkiplist OBSliceEntry T}.
(** [g_current_time], [SF_G_CONTINUE_FLAG], [STORAGE_CFG.discard_remain_space_size], what the
    other threads do while an allocation is blocked, and the retries considered. *)
Variables (now : Z) (continue_flag : bool) (discard_remain_space_size : Z).
Variables (blocked : Z → Mgr → Mgr) (retries : nat).

Definition ofail {B} (e : Z) : OM T B := λ s, Ret (inl e) s.
(** A wait that does not end here, and an invalid pointer. *)
Definition ohang {B} : OM T B := λ _, Hang.
Definition ocrash {B} : OM T B := λ _, Crash.
Definition oget : OM T (OpState T) := λ s, Ret (inr s) s.
Definition omod (f : OpState T → OpState T) : OM T unit := λ s, Ret (inr tt) (f s).
Definition oerrno (r : Z) : OM T unit := if r =? 0 then mret tt else ofail r.
(** [result = f()], to be tested by the caller. *)
Definition otry {B} (m : OM T B) : OM T (Z + B) := λ s,
  match m s with Crash => Crash | Hang => Hang | Ret r s' => Ret (inr r) s' end.

Definition set_op o (s : OpState T) : OpState T := mkState o (os_index s) (os_version s) (os_callbacks s)
  (os_writes s) (os_reads s) (os_slice_log s) (os_replica_log s).
Definition upd_op f (s : OpState T) : OpState T := set_op (f (os_op s)) s.
Definition set_index (ix : Index T Mgr) (s : OpState T) : OpState T := mkState (os_op s) ix (os_version s) (os_callbacks s)
  (os_writes s) (os_reads s) (os_slice_log s) (os_replica_log s).
Definition op_field {B} (f : FSSliceOpContext → B) : OM T B := s ← oget; mret (f (os_op s)).

(** Run a computation on the index, or on its accounting state. *)
Definition oindex {B} (m : IM T Mgr B) : OM T B := λ s,
  match m (os_index s) with Some (b, ix) => Ret (inr b) (set_index ix s) | None => Crash end.
(** An operation of the index that may have to wait for a reclaim. *)
Definition owait {B} (m : IM T Mgr (Outcome B)) : OM T B := λ s,
  match m (os_index s) with
  | Some (Done r, ix) => Ret r (set_index ix s)
  | Some (Waits, _) => Hang
  | None => Crash
  end.
(** [fc_malloc], [fast_mblock_alloc_object]: does the allocation succeed? *)
Definition oalloc : OM T bool :=
  r ← oindex (iworld alloc_ok); mret (match r with inr b => b | inl _ => false end).
Definition omgr {B} (m : Mgr → option (B * Mgr)) : OM T B := λ s,
  let ix := os_index s in
  match m (w_acct (ix_world ix)) with
  | Some (b, a) => Ret (inr b) (set_index (set_world (set_acct a (ix_world ix)) ix) s)
  | None => Hang
  end.
Definition ob_index_free : OBSliceEntry → OM T unit := λ slice,
  oindex (iworld (λ w, (tt, ob_index_free_slice slice w))).

(** ** Versions and reference counts *)

(** [set_data_version]. The loop of the [else] branch ends when the version kept is not
    smaller; with nobody else changing it, after one exchange. *)
Definition set_data_version : OM T unit :=
  s ← oget;
  let o := os_op s in
  if negb (op_log_replica o) then mret tt else
  if op_data_version o =? 0 then
    let v := u64 (os_version s + 1) in
    omod (λ s, mkState (op_set_data_version v (os_op s)) (os_index s) v (os_callbacks s)
                 (os_writes s) (os_reads s) (os_slice_log s) (os_replica_log s))
  else if op_data_version o <=? os_version s then mret tt
  else omod (λ s, mkState (os_op s) (os_index s) (op_data_version o) (os_callbacks s)
                 (os_writes s) (os_reads s) (os_slice_log s) (os_replica_log s)).

Definition set_sarray sarray : OM T unit :=
  omod (upd_op (λ o, op_set_update (op_sn o) (op_space_changed o) (op_sarray_alloc o) sarray o)).
Definition add_space_changed n : OM T unit :=
  omod (upd_op (λ o, op_set_update (op_sn o) (op_space_changed o + n) (op_sarray_alloc o)
                       (op_sarray o) o)).

Fixpoint free_pairs (l : list FSSliceSNPair) : OM T unit :=
  match l with
  | [] => mret tt
  | p :: l => ob_index_free (pr_slice p);; free_pairs l
  end.
(** [free_slice_array]. *)
Definition free_slice_array : OM T unit :=
  l ← op_field op_sarray; free_pairs l;; set_sarray [].

Definition is_reclaim (o : FSSliceOpContext) : bool := op_source o =? BINLOG_SOURCE_RECLAIM.

(** ** Allocating slices *)

(** [alloc_init_slice]. *)
Definition alloc_init_slice (bkey : FSBlockKey) (space : FSTrunkSpaceInfo) (ty : OBSliceType)
    (offset length : Z) : OM T (option OBSliceEntry) :=
  r ← oindex (ob_index_alloc_slice_ex bkey 1);
  mret (match r with
        | None => None
        | Some (id, ob) => Some (mkSlice id ob ty (mkSliceSize offset length) space)
        end).

(** The loop of [fs_slice_alloc] over the spaces. *)
Fixpoint alloc_slices (bkey : FSBlockKey) (ty : OBSliceType)
    (spaces : list FSTrunkSpaceWithVersion) (offset remain : Z) : OM T (list FSSliceSNPair) :=
  match spaces with
  | [] => mret []
  | sv :: spaces =>
      r ← alloc_init_slice bkey (sv_space sv) ty offset
            (if sp_size (sv_space sv) <? remain then sp_size (sv_space sv) else remain);
      match r with
      | None => ofail ENOMEM
      | Some slice =>
          l ← alloc_slices bkey ty spaces (offset + slen slice) (remain - slen slice);
          mret (mkPair (sv_version sv) 0 slice :: l)
      end
  end.

(** [fs_slice_alloc]: the value is what it stores into [slice_sn_pairs]. After an error the
    callers do not look at the array. *)
Definition fs_slice_alloc (bs_key : FSBlockSliceKeyInfo) (ty : OBSliceType) (reclaim_alloc : bool)
    : OM T (list FSSliceSNPair) :=
  let blk_hc := u32 (bk_hash_code (bs_block bs_key)) in
  let ss := bs_slice bs_key in
  r ← omgr (if reclaim_alloc
            then storage_allocator_reclaim_alloc now continue_flag discard_remain_space_size
                   blocked blk_hc (ss_length ss)
            else storage_allocator_normal_alloc_ex now continue_flag discard_remain_space_size
                   blocked retries blk_hc (ss_length ss) true);
  match r with
  | Aborted => ocrash
  | AllocFailed e => ofail e
  | Allocated [sv] =>
      r ← alloc_init_slice (bs_block bs_key) (sv_space sv) ty (ss_offset ss) (ss_length ss);
      match r with
      | None => ofail ENOMEM
      | Some slice => mret [mkPair (sv_version sv) 0 slice]
      end
  | Allocated spaces => alloc_slices (bs_block bs_key) ty spaces (ss_offset ss) (ss_length ss)
  end.

(** ** Writing *)

(** [trunk_write_thread_push], for a slice. *)
Definition trunk_write_thread_push (version : Z) (slice : OBSliceEntry) (data : bytes) : OM T unit :=
  ok ← oalloc;
  if negb ok then ofail ENOMEM else
  omod (λ s, mkState (os_op s) (os_index s) (os_version s) (os_callbacks s)
    (os_writes s ++ [mkWrite version slice data]) (os_reads s) (os_slice_log s) (os_replica_log s)).

(** The loop of [fs_slice_write] over the slices; [ps] is the rest of the buffer. *)
Fixpoint write_slices (l : list FSSliceSNPair) (ps : bytes) : OM T unit :=
  match l with
  | [] => mret tt
  | p :: l =>
      let n := Z.to_nat (slen (pr_slice p)) in
      trunk_write_thread_push (pr_version p) (pr_slice p) (take n ps);;
      write_slices l (drop n ps)
  end.

(** The inner loop of [write_iovec_array]: the vectors of one slice, the buffers that are
    left and [buffer_total_length]. *)
Fixpoint fill_iovecs (buffers : list AlignedReadBuffer) (slice_total buffer_total : Z)
    (iovs : list bytes) : list bytes * list AlignedReadBuffer * Z :=
  match buffers with
  | [] => (iovs, [], buffer_total)
  | b :: buffers' =>
      let total := buffer_total + ab_length b in
      if total <=? slice_total then
        let iovs := iovs ++ [iovec b (ab_length b)] in
        if total =? slice_total then (iovs, buffers', total)
        else fill_iovecs buffers' slice_total total iovs
      else
        let remain := total - slice_total in
        let len := ab_length b - remain in
        (iovs ++ [iovec b len], mkAligned (ab_offset b + len) remain (ab_buff b) :: buffers', slice_total)
  end.
(** The outer loop. *)
Fixpoint write_iovecs (l : list FSSliceSNPair) (buffers : list AlignedReadBuffer)
    (slice_total buffer_total : Z) : OM T unit :=
  match l with
  | [] => mret tt
  | p :: l =>
      let slice_total := slice_total + slen (pr_slice p) in
      let '(iovs, buffers, buffer_total) := fill_iovecs buffers slice_total buffer_total [] in
      trunk_write_thread_push (pr_version p) (pr_slice p) (concat iovs);;
      write_iovecs l buffers slice_total buffer_total
  end.
(** [write_iovec_array]. *)
Definition write_iovec_array (buffers : list AlignedReadBuffer) : OM T unit :=
  o ← op_field id;
  ok ← oalloc;
  if negb ok then ofail ENOMEM else
  match op_sarray o with
  | [p] =>
      trunk_write_thread_push (pr_version p) (pr_slice p)
        (concat (map (λ b, iovec b (ab_length b)) buffers))
  | l => write_iovecs l buffers 0 0
  end.

(** [fs_slice_write]. [buffers] are those of [aio_buffer_parray] when [info.buffer_type] is
    [fs_buffer_type_array] and [None] when the data are in [info.buff]. *)
Definition fs_slice_write (buffers : option (list AlignedReadBuffer)) : OM T unit :=
  omod (upd_op (λ o, op_set_update (op_sn o) 0 (op_sarray_alloc o) (op_sarray o)
                       (op_set_io (op_counter o) (op_result o) 0 o)));;
  o ← op_field id;
  r ← otry (fs_slice_alloc (op_bs_key o) OB_SLICE_TYPE_FILE (is_reclaim o));
  match r with
  | inl e =>
      omod (λ s, let o := os_op s in
        mkState (op_set_io (op_counter o) (cast16 e) (op_done_bytes o) o) (os_index s) (os_version s)
          (os_callbacks s + 1) (os_writes s) (os_reads s) (os_slice_log s) (os_replica_log s));;
      ofail e
  | inr pairs =>
      set_sarray pairs;;
      omod (upd_op (λ o, op_set_io (cast16 (Z.of_nat (length pairs))) 0 (op_done_bytes o) o));;
      match buffers with
      | Some buffers => write_iovec_array buffers
      | None => write_slices pairs (op_buff o)
      end
  end.

(** The loop that enters the slices of the array into the index and stores their numbers;
    on an error the array is as it was. *)
Fixpoint add_slices_to_index (before l : list FSSliceSNPair) : OM T unit :=
  match l with
  | [] => mret tt
  | p :: l =>
      o ← op_field id;
      '(inc_alloc, sn) ← owait (ob_index_add_slice_ex (pr_slice p) true (is_reclaim o));
      add_space_changed inc_alloc;;
      let p' := mkPair (pr_version p) (default 0 sn) (pr_slice p) in
      set_sarray (before ++ p' :: l);;
      add_slices_to_index (before ++ [p']) l
  end.

(** [fs_write_finish]. *)
Definition fs_write_finish : OM T unit :=
  o ← op_field id;
  (if op_result o =? 0 then
     r ← otry (add_slices_to_index [] (op_sarray o));
     match r with
     | inl e => omod (upd_op (λ o, op_set_io (op_counter o) (cast16 e) (op_done_bytes o) o))
     | inr _ => set_data_version
     end
   else mret tt);;
  o ← op_field id;
  if op_result o =? 0 then mret tt else free_slice_array.

(** ** Logging *)
Definition push_slice_log (m : bool → Z + WriterBuffer) : OM T unit :=
  ok ← oalloc;
  match m ok with
  | inl e => ofail e
  | inr wb => omod (λ s, mkState (os_op s) (os_index s) (os_version s) (os_callbacks s)
      (os_writes s) (os_reads s) (os_slice_log s ++ [wb]) (os_replica_log s))
  end.
Definition push_replica_log (m : bool → Z + WriterBuffer) : OM T unit :=
  ok ← oalloc;
  match m ok with
  | inl e => ofail e
  | inr wb => omod (λ s, mkState (os_op s) (os_index s) (os_version s) (os_callbacks s)
      (os_writes s) (os_reads s) (os_slice_log s) (os_replica_log s ++ [wb]))
  end.
(** [slice->ob->bkey], of a live entry. *)
Definition ob_bkey_of (slice : OBSliceEntry) : OM T FSBlockKey :=
  oindex (e ← deref (se_ob slice); mret (ob_bkey e)).

(** [slice_binlog_log_add_slice] of one slice of the array. *)
Definition log_add_slice (p : FSSliceSNPair) : OM T unit :=
  o ← op_field id;
  bkey ← ob_bkey_of (pr_slice p);
  push_slice_log (slice_binlog_log_add_slice bkey (pr_slice p) now (pr_sn p)
    (op_data_version o) (op_source o)).
Fixpoint log_add_slices (l : list FSSliceSNPair) : OM T unit :=
  match l with
  | [] => mret tt
  | p :: l => log_add_slice p;; log_add_slices l
  end.
(** The record of the operation in the replica binlog, if it is to be logged there. *)
Definition log_replica (op_type : Z) (block : bool) : OM T unit :=
  o ← op_field id;
  if op_log_replica o then
    push_replica_log (if block
      then replica_binlog_log_block now (op_data_version o) (bs_block (op_bs_key o)) (op_source o) op_type
      else replica_binlog_log_slice now (op_data_version o) (op_bs_key o) (op_source o) op_type)
  else mret tt.

(** [fs_log_slice_write]. *)
Definition fs_log_slice_write : OM T unit :=
  o ← op_field id;
  r ← otry (log_add_slices (op_sarray o);; log_replica BINLOG_OP_TYPE_WRITE_SLICE false);
  free_slice_array;;
  match r with inl e => ofail e | inr _ => mret tt end.

(** ** Allocating the holes of an extent *)

(** [ob_index_get_slices_ex] into [op_ctx->slice_ptr_array]. *)
Definition get_slice_array : OM T (Z + unit) :=
  o ← op_field id;
  '(out, arr) ← oindex (ob_index_get_slices_ex (op_bs_key o) (op_slices o) (is_reclaim o));
  omod (upd_op (op_set_slices arr));;
  match out with Waits => ohang | Done r => mret r end.

(** The loop of [get_slice_index_holes]; every hole found is appended, [*count] is the
    number of holes. *)
Fixpoint scan_holes (slices : list OBSliceEntry) (offset : Z) (holes : list FSSliceSize)
    : OM T (Z * list FSSliceSize) :=
  match slices with
  | [] => mret (offset, holes)
  | s :: slices =>
      let hole_len := soff s - offset in
      let holes := if 0 <? hole_len then holes ++ [mkSliceSize offset hole_len] else holes in
      ob_index_free s;;
      scan_holes slices (send s) holes
  end.

(** [get_slice_index_holes]: the holes with their number; [-ENOSPC] if there are more than
    [max_size], of which only the first [max_size] are stored. *)
Definition get_slice_index_holes (max_size : Z) : OM T (Z * (list FSSliceSize * Z)) :=
  r ← get_slice_array;
  o ← op_field id;
  let ss := bs_slice (op_bs_key o) in
  match r with
  | inl e => if e =? ENOENT then mret (0, ([ss], 1)) else mret (e, ([], 0))
  | inr _ =>
      '(offset, holes) ← scan_holes (sa_slices (op_slices o)) (ss_offset ss) [];
      let slice_end := ss_offset ss + ss_length ss in
      let holes := if offset <? slice_end
                   then holes ++ [mkSliceSize offset (slice_end - offset)] else holes in
      let count := Z.of_nat (length holes) in
      mret (if count <=? max_size then 0 else - ENOSPC, (take (Z.to_nat max_size) holes, count))
  end.

Definition FS_SLICE_HOLES_FIXED_COUNT : Z := 256.
Definition FS_SLICE_SN_PARRAY_INIT_ALLOC_COUNT : Z := 4.
Definition FS_MAX_SPLIT_COUNT_PER_SPACE_ALLOC : Z := 2.

(** The [while] loop of [fs_slice_allocate]: ask again with a larger array. *)
Fixpoint holes_loop (fuel : nat) (count : Z) : OM T (list FSSliceSize) :=
  match fuel with
  | O => ohang
  | S fuel =>
      let alloc := count + FS_SLICE_SN_PARRAY_INIT_ALLOC_COUNT in
      ok ← oalloc;
      if negb ok then ofail ENOMEM else
      '(result, (holes, count)) ← get_slice_index_holes alloc;
      if result =? 0 then mret holes
      else if negb (result =? - ENOSPC) then ofail result
      else holes_loop fuel count
  end.

(** [realloc_slice_sn_pairs]. *)
Definition realloc_slice_sn_pairs (capacity : Z) : OM T unit :=
  ok ← oalloc;
  if negb ok then ofail ENOMEM
  else omod (upd_op (λ o, op_set_update (op_sn o) (op_space_changed o) capacity (op_sarray o) o)).

Fixpoint alloc_holes (bkey : FSBlockKey) (holes : list FSSliceSize) : OM T unit :=
  match holes with
  | [] => mret tt
  | ss :: holes =>
      pairs ← fs_slice_alloc (mkBlockSliceKey bkey ss) OB_SLICE_TYPE_ALLOC false;
      l ← op_field op_sarray;
      set_sarray (l ++ pairs);;
      alloc_holes bkey holes
  end.

(** [fs_slice_allocate]. *)
Definition fs_slice_allocate : OM T unit :=
  omod (upd_op (λ o, op_set_update (op_sn o) 0 (op_sarray_alloc o) [] o));;
  '(result, (holes, count)) ← get_slice_index_holes FS_SLICE_HOLES_FIXED_COUNT;
  holes ← (if result =? 0 then mret holes
           else if negb (result =? - ENOSPC) then ofail result
           else holes_loop (S retries) count);
  o ← op_field id;
  let capacity := Z.of_nat (length holes) * FS_MAX_SPLIT_COUNT_PER_SPACE_ALLOC in
  (if op_sarray_alloc o <? capacity then realloc_slice_sn_pairs capacity else mret tt);;
  alloc_holes (bs_block (op_bs_key o)) holes;;
  l ← op_field op_sarray;
  r ← otry (add_slices_to_index [] l);
  match r with
  | inl e => free_slice_array;; ofail e
  | inr _ => set_data_version
  end.

(** [fs_log_slice_allocate]. *)
Fixpoint log_and_free (l : list FSSliceSNPair) : OM T unit :=
  match l with
  | [] => mret tt
  | p :: l => log_add_slice p;; ob_index_free (pr_slice p);; log_and_free l
  end.
Definition fs_log_slice_allocate : OM T unit :=
  o ← op_field id;
  log_and_free (op_sarray o);;
  log_replica BINLOG_OP_TYPE_ALLOC_SLICE false;;
  if FS_SLICE_SN_PARRAY_INIT_ALLOC_COUNT <? op_sarray_alloc o
  then otry (realloc_slice_sn_pairs FS_SLICE_SN_PARRAY_INIT_ALLOC_COUNT);; mret tt
  else mret tt.

(** ** Reading *)

(** [do_read_done] and [slice_write_done]: one I/O is done. *)
Definition io_done (length result : Z) : OM T unit :=
  omod (upd_op (λ o,
    if result =? 0 then op_set_io (op_counter o) (op_result o) (op_done_bytes o + length) o
    else op_set_io (op_counter o) (cast16 result) (op_done_bytes o) o)).
Definition io_count_down : OM T unit :=
  omod (λ s, let o := os_op s in let n := cast16 (op_counter o - 1) in
    mkState (op_set_io n (op_result o) (op_done_bytes o) o) (os_index s) (os_version s)
      (if n =? 0 then os_callbacks s + 1 else os_callbacks s)
      (os_writes s) (os_reads s) (os_slice_log s) (os_replica_log s)).
Definition slice_write_done (slice : OBSliceEntry) (result : Z) : OM T unit :=
  io_done (slen slice) result;; io_count_down.
Definition do_read_done (slice : OBSliceEntry) (result : Z) : OM T unit :=
  io_done (slen slice) result;; ob_index_free slice;; io_count_down.

(** [check_realloc_buffer_ptr_array]: the capacity is doubled until it is enough. *)
Fixpoint double_until (fuel : nat) (alloc target : Z) : Z :=
  match fuel with
  | O => alloc
  | S fuel => if alloc <? target then double_until fuel (alloc * 2) target else alloc
  end.
Definition new_buffers_alloc (alloc target : Z) : Z :=
  double_until 31 (if alloc =? 0 then 256 else alloc * 2) target.
Definition check_realloc_buffer_ptr_array (target : Z) : OM T unit :=
  o ← op_field id;
  if target <=? op_buffers_alloc o then mret tt else
  ok ← oalloc;
  if negb ok then ofail ENOMEM
  else omod (upd_op (op_set_buffers (new_buffers_alloc (op_buffers_alloc o) target) [])).

(** [add_zero_aligned_buffer]. *)
Definition add_zero_aligned_buffer (path_index length : Z) : OM T unit :=
  ok ← oalloc;
  if negb ok then ofail ENOMEM
  else omod (upd_op (λ o, op_set_buffers (op_buffers_alloc o)
                            (op_buffers o ++ [ZeroBuffer path_index length]) o)).
(** [trunk_read_thread_push]. *)
Definition trunk_read_thread_push (slice : OBSliceEntry) : OM T unit :=
  ok ← oalloc;
  if negb ok then ofail ENOMEM else
  omod (λ s, mkState (os_op s) (os_index s) (os_version s) (os_callbacks s) (os_writes s)
    (os_reads s ++ [slice]) (os_slice_log s) (os_replica_log s)).

(** The loop of [fs_slice_read]. The slot of the buffer array is taken before the push. *)
Fixpoint read_slices (slices : list OBSliceEntry) (offset : Z) : OM T unit :=
  match slices with
  | [] => mret tt
  | s :: slices =>
      let path_index := sp_store (se_space s) in
      let hole_len := soff s - offset in
      (if 0 <? hole_len then
         add_zero_aligned_buffer path_index hole_len;;
         omod (upd_op (λ o, op_set_io (op_counter o) (op_result o) (op_done_bytes o + hole_len) o))
       else mret tt);;
      match se_type s with
      | OB_SLICE_TYPE_ALLOC =>
          add_zero_aligned_buffer path_index (slen s);; do_read_done s 0
      | OB_SLICE_TYPE_FILE =>
          omod (upd_op (λ o, op_set_buffers (op_buffers_alloc o) (op_buffers o ++ [FileBuffer s]) o));;
          trunk_read_thread_push s
      end;;
      read_slices slices (send s)
  end.

(** [fs_slice_read] (Linux). *)
Definition fs_slice_read : OM T unit :=
  r ← get_slice_array;
  match r with
  | inl e => ofail e
  | inr _ =>
      o ← op_field id;
      let count := sa_count (op_slices o) in
      check_realloc_buffer_ptr_array (count * 2);;
      omod (upd_op (λ o, op_set_buffers (op_buffers_alloc o) [] (op_set_io (cast16 count) 0 0 o)));;
      read_slices (sa_slices (op_slices o)) (ss_offset (bs_slice (op_bs_key o)))
  end.

(** ** Deleting *)
Definition set_deleted (sn dec_alloc : Z) : OM T unit :=
  omod (upd_op (λ o, op_set_update sn dec_alloc (op_sarray_alloc o) (op_sarray o) o)).

(** [fs_delete_slices] and [fs_delete_block]. *)
Definition fs_delete_slices : OM T unit :=
  o ← op_field id;
  '(dec_alloc, sn) ← owait (ob_index_delete_slices_ex (op_bs_key o) true (is_reclaim o));
  set_deleted (default 0 sn) dec_alloc;;
  set_data_version.
Definition fs_delete_block : OM T unit :=
  o ← op_field id;
  '(dec_alloc, sn) ← owait (ob_index_delete_block_ex (bs_block (op_bs_key o)) true (is_reclaim o));
  set_deleted (default 0 sn) dec_alloc;;
  set_data_version.

(** [fs_log_delete_slices] and [fs_log_delete_block]. *)
Definition fs_log_delete_slices : OM T unit :=
  o ← op_field id;
  push_slice_log (slice_binlog_log_del_slice (op_bs_key o) now (op_sn o) (op_data_version o) (op_source o));;
  log_replica BINLOG_OP_TYPE_DEL_SLICE false.
Definition fs_log_delete_block : OM T unit :=
  o ← op_field id;
  push_slice_log (slice_binlog_log_del_block (bs_block (op_bs_key o)) now (op_sn o)
    (op_data_version o) (op_source o));;
  log_replica BINLOG_OP_TYPE_DEL_BLOCK true.
End Ops.
