(* ===== verification/StoreAlloc.v ===== *)
(** * The contract of the block store

    A data server is abstractly a partial map from the bytes of the blocks to places in
    trunk files. [store_ok] is the invariant of the index and the allocator together: every
    mapped byte lies in space that was allocated, no two bytes share a place, and the space
    an operation holds but has not entered into the index yet ([R]) is nobody else's. *)
From S2P Require Import Prelude Types Skiplist ObSlices ObSlicesRun ObSlicesThms TrunkAllocator StorageAllocator StorageAllocSpec StorageAllocThms StorageAllocUsed ObSlicesMain ObSlicesGet ObIndex ObIndexSpec ObIndexOps ObIndexThms ObIndexMain.

Definition same_place (d1 d2 : DiskLoc) : Prop :=
  dl_store d1 = dl_store d2 ∧ ti_id (dl_trunk d1) = ti_id (dl_trunk d2) ∧ dl_pos d1 = dl_pos d2.
(** Within the allocated part of its trunk. *)
Definition placed (m : Mgr) (d : DiskLoc) : Prop :=
  ∃ f sz, view m (dl_store d, ti_id (dl_trunk d)) = Some (f, sz) ∧ 0 <= dl_pos d < f.
(** The places of a slice. *)
Definition holds (s : OBSliceEntry) (d : DiskLoc) : Prop := ∃ b, covers s b ∧ d = loc_at s b.
Definition apart (s1 s2 : OBSliceEntry) : Prop :=
  ∀ d1 d2, holds s1 d1 → holds s2 d2 → ¬ same_place d1 d2.

#[export] Instance same_place_sym : Symmetric same_place.
Proof. intros d1 d2 (? & ? & ?). by split_and!. Qed.
#[export] Instance apart_sym : Symmetric apart.
Proof. intros s1 s2 H d1 d2 H1 H2 Hp. by apply (H d2 d1). Qed.

Lemma placed_same m m' d : same_space m m' → placed m d → placed m' d.
Proof. intros (Hv & _) (f & sz & H & Hb). exists f, sz. by rewrite Hv. Qed.
Lemma placed_mono m m' d : space_mono m m' → placed m d → placed m' d.
Proof.
  intros Hm (f & sz & H & Hb). destruct (Hm _ _ _ H) as (f' & H' & ? & _). exists f', sz.
  split; [done|lia].
Qed.

Lemma apart_perm l k : l ≡ₚ k → StronglySorted apart l → StronglySorted apart k.
Proof.
  induction 1 as [|x l k Hp IH|x y l|]; intros Hs; [done|..|auto].
  - inversion Hs as [|? ? Hl Hx]; subst. constructor; [by apply IH|]. by rewrite <- Hp.
  - inversion Hs as [|? ? Hl Hx]; subst. inversion Hl as [|? ? Hl' Hy]; subst.
    apply Forall_cons in Hx as [Hxy Hx]. constructor; [by constructor|]. constructor; [by symmetry|done].
Qed.

(** A space, as the slice of all its bytes. *)
Definition whole (sp : FSTrunkSpaceInfo) : OBSliceEntry :=
  mkSlice 0 0 OB_SLICE_TYPE_ALLOC (mkSliceSize 0 (sp_size sp)) sp.
Definition pseudo (sv : FSTrunkSpaceWithVersion) : OBSliceEntry := whole (sv_space sv).
Lemma covers_whole sp b : covers (whole sp) b ↔ 0 <= b < sp_size sp.
Proof. done. Qed.
Lemma holds_whole s d :
  slen s <= sp_size (se_space s) → holds s d → ∃ d', holds (whole (se_space s)) d' ∧ same_place d d'.
Proof.
  intros Hl (b & Hb & ->). exists (loc_at (whole (se_space s)) (b - soff s)). split.
  - exists (b - soff s). split; [|done]. rewrite covers_whole. unfold covers, send in *. lia.
  - split_and!; try done. simpl. change (soff (whole _)) with 0. lia.
Qed.

Lemma acct_steps_space (m m' : Mgr) : acct_steps m m' → same_space m m'.
Proof.
  induction 1 as [m|m s f m' _ IH|m s f m' _ IH]; [done|..]; (etransitivity; [|exact IH]).
  - apply same_space_add_slice.
  - apply same_space_delete_slice.
Qed.

Section Store.
Context {T : Type} `{!UniqSkiplist OBSliceEntry T} `{!UniqSkiplistSpec slice_compare}.
Implicit Types (ix : Index T Mgr) (k : FSBlockKey) (p b : Z) (d : DiskLoc) (t : T)
  (base : Z → Z → Z) (ext : Z → Z) (R : list OBSliceEntry).

Definition mgr_of ix : Mgr := w_acct (ix_world ix).

Record store_ok base ext R ix : Prop := {
  so_index : index_ok base ext ix;
  so_mgr : alloc_safe (mgr_of ix);
  so_aligned : aligned8 (mgr_of ix);
  so_placed : ∀ k b d, maps ix k b d → placed (mgr_of ix) d;
  so_alias : ∀ k1 b1 d1 k2 b2 d2, maps ix k1 b1 d1 → maps ix k2 b2 d2 → same_place d1 d2 →
    k1 = k2 ∧ b1 = b2;
  so_reserved : ∀ s d, s ∈ R → holds s d →
    placed (mgr_of ix) d ∧ ∀ k b d', maps ix k b d' → ¬ same_place d d';
  so_apart : StronglySorted apart R;
}.


(** A step that maps nothing new and leaves the space alone. *)
Lemma store_ok_maps base ext base' ext' R ix ix' :
  store_ok base ext R ix → same_space (mgr_of ix) (mgr_of ix') → index_ok base' ext' ix' →
  (∀ k b d, maps ix' k b d → maps ix k b d) → store_ok base' ext' R ix'.
Proof using.
  intros [S1 S2 S3 S4 S5 S6 S7] Hs I Hm. split; try done.
  - by rewrite <- Hs.
  - by eapply aligned_same.
  - intros k b d H. eapply placed_same; [exact Hs|eauto].
  - eauto.
  - intros s d H1 H2. destruct (S6 s d H1 H2) as [? ?]. split; [by eapply placed_same|eauto].
Qed.
Lemma store_ok_perm base ext R R' ix : R ≡ₚ R' → store_ok base ext R ix → store_ok base ext R' ix.
Proof using.
  intros HR [S1 S2 S3 S4 S5 S6 S7]. split; try done.
  - intros s d Hs. rewrite <- HR in Hs. eauto.
  - by eapply apart_perm.
Qed.
Lemma store_ok_ext base ext ext' R ix :
  (∀ id, ext' id = ext id) → store_ok base ext R ix → store_ok base ext' R ix.
Proof using. intros He []. split; try done. by apply (index_ok_ext _ _ ext). Qed.
Lemma store_ok_drop base ext s R ix : store_ok base ext (s :: R) ix → store_ok base ext R ix.
Proof using.
  intros [S1 S2 S3 S4 S5 S6 S7]. split; try done.
  - intros s' d Hs. apply S6. by right.
  - by inversion S7.
Qed.
(** A space becomes a slice. *)
Lemma store_ok_take base ext s R ix :
  slen s <= sp_size (se_space s) →
  store_ok base ext (whole (se_space s) :: R) ix → store_ok base ext (s :: R) ix.
Proof using.
  intros Hl [S1 S2 S3 S4 S5 S6 S7]. split; try done.
  - intros s' d [->|Hs]%elem_of_cons Hd; [|apply (S6 s'); [by right|done]].
    destruct (holds_whole s d Hl Hd) as (d' & Hd' & Hp).
    destruct (S6 (whole (se_space s)) d') as [(f & sz & Hv & Hb) Hn]; [by left|done|]. destruct Hp as (E1 & E2 & E3).
    split.
    + exists f, sz. rewrite E1, E2, E3. done.
    + intros k b d'' Hm Hx. apply (Hn k b d'' Hm). destruct Hx as (X1 & X2 & X3).
      split_and!; congruence.
  - inversion S7 as [|? ? H1 H2]; subst. constructor; [done|]. rewrite Forall_forall in *.
    intros x Hx d1 d2 Hd1 Hd2 Hp. destruct (holds_whole s d1 Hl Hd1) as (d' & Hd' & Hp').
    apply (H2 x Hx d' d2 Hd' Hd2). destruct Hp as (? & ? & ?), Hp' as (? & ? & ?). split_and!; congruence.
Qed.
End Store.

(** ** Space for a slice, and a slice in the index

    The two steps a write is made of, on the store of [StoreAlloc.v]: an allocation reserves
    fresh space, and [ob_index_add_slice] maps exactly the bytes of a slice to its reserved
    space. *)

Lemma mgr_used_some (m : Mgr) st id : is_Some (acct_used m st id) ↔ is_Some (view m (st, id)).
Proof. unfold acct_used, view. simpl. rewrite !fmap_is_Some. done. Qed.
Lemma mgr_used_mono (m m' : Mgr) st id :
  space_mono m m' → is_Some (acct_used m st id) → is_Some (acct_used m' st id).
Proof.
  intros Hm. rewrite !mgr_used_some. intros [[f s] Hv]. destruct (Hm _ _ _ Hv) as (f' & -> & _). eauto.
Qed.

(** A space handed out between [m] and [m'] is new, and all of it is allocated. *)
Lemma space_ok_placed m m' sv d : space_ok m m' sv → holds (pseudo sv) d → placed m' d ∧ ¬ placed m d.
Proof.
  intros (H1 & H2 & (f' & sz & Hv & He) & H4) (b & Hb & ->).
  apply (proj1 (covers_whole _ _)) in Hb. unfold loc_at, placed, soff. simpl. unfold space_end, space_key in *. split.
  - exists f', sz. split; [done|lia].
  - intros (f & sz' & Hv' & Hd). specialize (H4 f sz' Hv'). lia.
Qed.
Lemma placed_place m d d' : same_place d d' → placed m d → placed m d'.
Proof. intros (E1 & E2 & E3) (f & sz & Hv & Hd). exists f, sz. by rewrite <- E1, <- E2, <- E3. Qed.
Lemma pseudo_apart s1 s2 : space_disjoint s1 s2 → apart (pseudo s1) (pseudo s2).
Proof.
  intros Hd d1 d2 (b1 & H1 & ->) (b2 & H2 & ->) (E1 & E2 & E3). simpl in *.
  apply (proj1 (covers_whole _ _)) in H1, H2. unfold soff in *. simpl in *. unfold space_disjoint, space_key, space_end in Hd.
  destruct Hd; [congruence|lia..].
Qed.

Section Store.
Context {T : Type} `{!UniqSkiplist OBSliceEntry T} `{!UniqSkiplistSpec slice_compare}.
Implicit Types (ix : Index T Mgr) (k : FSBlockKey) (p b : Z) (d : DiskLoc) (t : T)
  (base : Z → Z → Z) (ext : Z → Z) (R : list OBSliceEntry).

(** ** Reserving space *)

(** The bytes of the trunks made meanwhile: none of the index's slices is in them. *)
Definition base_after (m m' : Mgr) base (l : list OBSliceEntry) st id : Z :=
  match used m (st, id) with Some _ => base st id | None => - sizes_in st id l end.

Lemma index_ok_alloc base ext ix m' :
  index_ok base ext ix → space_mono (mgr_of ix) m' → used_kept (mgr_of ix) m' →
  index_ok (base_after (mgr_of ix) m' base (all_slices ix)) ext
    (set_world (set_acct m' (ix_world ix)) ix).
Proof using.
  intros [W B R P X U] Hm Hu. split; try done.
  - by apply wf_world.
  - intros p k c t Hl. destruct (B p k c t Hl) as [[H1 H2] H3]. split; [|done]. split; [done|].
    intros s Hs. destruct (H2 s Hs) as [? Hk]. split; [done|]. by eapply mgr_used_mono.
  - intros Hf st id u Hv. simpl in Hf, Hv. change (used m' (st, id) = Some u) in Hv.
    change (all_slices (set_world _ ix)) with (all_slices ix). unfold base_after.
    destruct (Hu (st, id)) as [E|[E E']].
    + rewrite E in Hv. rewrite Hv. by apply U.
    + rewrite E. rewrite Hv in E'. injection E' as ->. lia.
Qed.

Lemma store_ok_alloc base ext R ix size m' l :
  store_ok base ext R ix → alloc_post size (mgr_of ix) (Allocated l) m' →
  store_ok (base_after (mgr_of ix) m' base (all_slices ix)) ext ((pseudo <$> l) ++ R)
    (set_world (set_acct m' (ix_world ix)) ix).
Proof using.
  intros [S1 S2 S3 S4 S5 S6 S7] (W & M & U & A & Hok & _ & Hd & _). rewrite Forall_forall in Hok.
  set (ix' := set_world _ ix). assert (Hs : ∀ k b d, maps ix' k b d ↔ maps ix k b d) by done.
  assert (Hnew : ∀ s, s ∈ pseudo <$> l → ∀ d, holds s d → placed m' d ∧ ¬ placed (mgr_of ix) d).
  { intros s (sv & -> & Hsv)%list_elem_of_fmap d Hd'. by eapply space_ok_placed; [apply Hok|]. }
  split.
  - by apply index_ok_alloc.
  - done.
  - done.
  - intros k b d Hm. eapply placed_mono; [exact M|]. eapply S4. by apply Hs.
  - done.
  - intros s d [Hs'|Hs']%elem_of_app Hd'.
    + destruct (Hnew s Hs' d Hd') as [P1 P2]. split; [done|]. intros k b d' Hm Hp. apply P2.
      eapply placed_place; [by symmetry|]. eapply S4. by apply Hs.
    + destruct (S6 s d Hs' Hd') as [P1 P2]. split; [by eapply placed_mono|done].
  - assert (Hx : ∀ s, s ∈ pseudo <$> l → Forall (apart s) R).
    { intros s Hs'. apply Forall_forall. intros r Hr d1 d2 H1 H2 Hp.
      destruct (Hnew s Hs' d1 H1) as [_ Hn]. apply Hn. eapply placed_place; [by symmetry|].
      by destruct (S6 r d2 Hr H2). }
    destruct Hd as [Hl|(s1 & s2 & -> & Hd)].
    + destruct l as [|s [|]]; try done. constructor; [done|]. apply Hx. by left.
    + constructor; [constructor; [done|]|constructor; [|]].
      * apply Hx. right. by left.
      * by apply pseudo_apart.
      * apply Hx. by left.
Qed.
(** A failed allocation. *)
Lemma store_ok_alloc_fail base ext R ix size m' e :
  store_ok base ext R ix → alloc_post size (mgr_of ix) (AllocFailed e) m' →
  store_ok (base_after (mgr_of ix) m' base (all_slices ix)) ext R
    (set_world (set_acct m' (ix_world ix)) ix).
Proof using.
  intros [S1 S2 S3 S4 S5 S6 S7] (W & M & U & A & _). split; try done.
  - by apply index_ok_alloc.
  - intros k b d Hm. eapply placed_mono; [exact M|]. by eapply S4.
  - intros s d H1 H2. destruct (S6 s d H1 H2). split; [by eapply placed_mono|done].
Qed.

(** ** Steps of the index *)

(** The entries stay, with their blocks, and so do the trunks. *)
Record kept ix ix' : Prop := {
  kp_space : space_mono (mgr_of ix) (mgr_of ix');
  kp_lives : ∀ q k c t, lives ix q k c t → ∃ t', lives ix' q k c t';
}.
#[export] Instance kept_preorder : PreOrder kept.
Proof using.
  split.
  - intros ix. split; [done|eauto].
  - intros ix1 ix2 ix3 [F1 L1] [F2 L2]. split; [by etransitivity|].
    intros q k c t H. destruct (L1 _ _ _ _ H) as (? & H2). eauto.
Qed.
Lemma framed_space ix ix' : framed ix ix' → same_space (mgr_of ix) (mgr_of ix').
Proof using. intros [H _]. by apply acct_steps_space. Qed.
Lemma framed_kept ix ix' :
  framed ix ix' → (∀ q k c t, lives ix q k c t → ∃ t', lives ix' q k c t') → kept ix ix'.
Proof using. intros Hf Hl. split; [by apply same_space_mono, framed_space|done]. Qed.
Lemma unchanged_kept ix ix' : framed ix ix' → unchanged ix ix' → kept ix ix'.
Proof using. intros Hf Hu. apply framed_kept; [done|]. intros q k c t H. exists t. by apply Hu. Qed.

(** A slice of block [k] ready to be entered into the index. *)
Definition usable ix k (s : OBSliceEntry) : Prop :=
  valid_slice s ∧ known (ix_world ix) s ∧ ∃ c t, lives ix (se_ob s) k c t.
Lemma known_kept ix ix' s : kept ix ix' → known (ix_world ix) s → known (ix_world ix') s.
Proof using. intros H. apply mgr_used_mono, H. Qed.
Lemma usable_kept ix ix' k s : kept ix ix' → usable ix k s → usable ix' k s.
Proof using.
  intros H (V & K & c & t & L). split_and!; [done|by eapply known_kept|].
  exists c. by eapply (kp_lives _ _ H).
Qed.

(** [ob_index_alloc_slice]: a new slice entry with one reference, of a live block entry. *)
Definition ext_new id ext : Z → Z := λ i, ext i + if decide (i = id) then 1 else 0.
(** The index has a new entry at most, without slices. *)
Record allocated ix ix' : Prop := {
  al_kept : kept ix ix';
  al_maps : same_maps ix ix';
  al_space : same_space (mgr_of ix) (mgr_of ix');
  al_idle : idle ix → idle ix';
  al_flags : ht_flags (ix_htable ix') = ht_flags (ix_htable ix);
}.
Lemma allocated_trans ix1 ix2 ix3 : allocated ix1 ix2 → allocated ix2 ix3 → allocated ix1 ix3.
Proof using.
  intros [K1 M1 S1 H1 F1] [K2 M2 S2 H2 F2]. split; [by etransitivity| |by etransitivity|auto|congruence].
  intros k b d. etransitivity; [apply (M2 k b d)|apply (M1 k b d)].
Qed.
Lemma allocated_world ix w : w_acct w = w_acct (ix_world ix) → allocated ix (set_world w ix).
Proof using.
  intros Ha. assert (Hs : same_space (mgr_of ix) (mgr_of (set_world w ix))) by (unfold mgr_of; simpl; by rewrite Ha).
  split; [split; [by apply same_space_mono|intros q k c t H; by exists t]|done|done|done|done].
Qed.

Lemma get_ob_entry_allocated base ext ix k :
  index_ok base ext ix → key_ok k →
  ∃ ob pprev ix1, get_ob_entry_ex k true ix = Some ((ob, pprev), ix1) ∧ index_ok base ext ix1 ∧
    allocated ix ix1 ∧ (∀ p, ob = Some p ↔ ∃ c t, lives ix1 p k c t).
Proof using UniqSkiplistSpec0.
  intros I Hk. destruct (get_ob_entry_ex_run base ext ix k true I Hk) as (ob & pprev & ix1 & E & Hp).
  destruct Hp as (I1 & Hother & Hob & Hsame & _ & Hnew). exists ob, pprev, ix1. split_and!; try done.
  assert (Hfr1 : framed ix ix1) by (by eapply frames_get_ob_entry).
  destruct (get_ob_search_run base ext ix k I Hk) as (pre & post & r & _ & _ & _ & Hr & Hno).
  destruct r as [p|].
  { rewrite Hsame by (left; exists p; by apply Hr). split; try done. }
  assert (Hone : ∀ q c t, lives ix1 q k c t → c = 0 ∧ t = uniq_skiplist_new).
  { intros q c t H. assert (Hq : ob = Some q) by (apply Hob; eauto). specialize (Hnew Hno q Hq).
    by destruct (lives_fun _ _ _ _ _ _ _ _ H Hnew) as (_ & -> & ->). }
  split.
  - apply framed_kept; [done|]. intros q k' c t H. exists t. apply Hother; [|done]. intros ->. by eapply Hno.
  - intros k' b d. unfold maps. destruct (decide (k' = k)) as [->|Hne].
    + split; [|by intros (q & c & t & H & _); apply Hno in H].
      intros (q & c & t & H & Hb). destruct (Hone _ _ _ H) as [_ ->]. by rewrite sl_new_level0 in Hb.
    + by setoid_rewrite (λ q c t, Hother q k' c t Hne).
  - by apply framed_space.
  - intros Hi q k' c t H. destruct (decide (k' = k)) as [->|Hne]; [by apply (Hone _ _ _ H)|].
    apply Hother in H; [|done]. by eapply Hi.
  - by apply Hfr1.
Qed.

Lemma alloc_slice_index base ext ix k :
  index_ok base ext ix → key_ok k →
  ∃ r ix', ob_index_alloc_slice_ex k 1 ix = Some (r, ix') ∧ allocated ix ix' ∧
    match r with
    | None => index_ok base ext ix'
    | Some (id, p) => index_ok base (ext_new id ext) ix' ∧ ∃ c t, lives ix' p k c t
    end.
Proof using UniqSkiplistSpec0.
  intros I Hk. destruct (get_ob_entry_allocated base ext ix k I Hk) as (ob & pprev & ix1 & E & I1 & A1 & Hob).
  unfold ob_index_alloc_slice_ex. rewrite (ibind_run _ _ _ _ _ E). cbn beta iota.
  destruct ob as [p|]; [|by eexists _, _].
  destruct (proj1 (Hob p) eq_refl) as (c & t & Hl).
  rewrite ibind_world, alloc_ok_take. destruct (take_mem_up (ix_world ix1)) as [U1 R1].
  destruct (take_mem (ix_world ix1)) as [ok w1]. simpl in U1, R1. cbn [fst snd].
  assert (I2 : index_ok base ext (set_world w1 ix1)).
  { apply (index_ok_ext base ext (λ id, ext id + 0)); [intros; lia|].
    apply index_ok_world; [done|apply (ru_acct _ _ U1)| |by apply (ru_pos _ _ U1), I1|].
    - intros id. rewrite R1. lia.
    - intros id. pose proof (io_ext _ _ _ I id). lia. }
  assert (A2 : allocated ix (set_world w1 ix1)).
  { eapply allocated_trans; [exact A1|]. apply allocated_world, (ru_acct _ _ U1). }
  destruct ok; cbn [negb]; cycle 1.
  { eexists _, _. by split_and!. }
  rewrite ibind_world. cbn [fresh_id fst snd]. change (0 <? 1) with true. cbn iota. rewrite ibind_world.
  eexists _, _. split; [done|]. cbn [fst snd]. split_and!.
  - eapply allocated_trans; [exact A2|]. by apply (allocated_world (set_world w1 ix1)).
  - apply (index_ok_ext _ _ (λ i, ext i + if decide (i = w_next w1) then 1 else 0)); [done|].
    apply (index_ok_world base ext (set_world w1 ix1) _ (λ i, if decide (i = w_next w1) then 1 else 0)).
    + done.
    + done.
    + intros i. unfold ref_count at 1. simpl. destruct (decide (i = w_next w1)) as [->|Hi].
      * by rewrite lookup_insert_eq.
      * rewrite lookup_insert_ne by done. unfold ref_count. simpl. lia.
    + intros i n. simpl. destruct (decide (i = w_next w1)) as [->|Hi].
      * rewrite lookup_insert_eq. intros [= <-]. pose proof (io_refs _ _ _ I2 (w_next w1)) as Hrc.
        simpl in Hrc. unfold ref_count in *. simpl in *.
        pose proof (occ_nonneg (w_next w1) (all_slices (set_world w1 ix1))).
        pose proof (io_ext _ _ _ I (w_next w1)). lia.
      * rewrite lookup_insert_ne by done. apply (io_pos _ _ _ I2).
    + intros i. pose proof (io_ext _ _ _ I i). case_decide; lia.
  - by exists c, t.
Qed.

Lemma alloc_slice_run base ext R ix k :
  store_ok base ext R ix → key_ok k →
  ∃ r ix', ob_index_alloc_slice_ex k 1 ix = Some (r, ix') ∧ kept ix ix' ∧ same_maps ix ix' ∧
    match r with
    | None => store_ok base ext R ix'
    | Some (id, p) => store_ok base (ext_new id ext) R ix' ∧ ∃ c t, lives ix' p k c t
    end.
Proof using UniqSkiplistSpec0.
  intros S Hk. destruct (alloc_slice_index base ext ix k (so_index _ _ _ _ S) Hk)
    as (r & ix' & E & [K M Hs _ _] & H). exists r, ix'. split_and!; [done..|].
  assert (Hok : ∀ ext', index_ok base ext' ix' → store_ok base ext' R ix').
  { intros ext' I. eapply store_ok_maps; [exact S|done|exact I|]. intros k' b d. apply (M k' b d). }
  destruct r as [[id p]|]; [|by apply Hok]. destruct H as [H1 H2]. split; [by apply Hok|done].
Qed.

(** ** Entering a slice into the index *)



(** Mapping reserved space keeps the store consistent: nothing else is there. *)
Lemma store_ok_overlaid base ext base' ext' R ix ix' k s :
  store_ok base ext (s :: R) ix → index_ok base' ext' ix' → framed ix ix' →
  overlaid ix ix' k s → store_ok base' ext' R ix'.
Proof using.
  intros [S1 S2 S3 S4 S5 S6 S7] I F O. pose proof (framed_space _ _ F) as Hs.
  assert (Hmine : ∀ k1 b1 d1, maps ix' k1 b1 d1 →
    k1 = k ∧ covers s b1 ∧ d1 = loc_at s b1 ∧ holds s d1 ∨ maps ix k1 b1 d1).
  { intros k1 b1 d1 H. apply O in H. case_decide as Hd; [|by right]. destruct Hd as [-> Hc].
    subst d1. left. split_and!; [done|done|done|by exists b1]. }
  assert (Hres : ∀ d, holds s d → placed (mgr_of ix) d ∧ ∀ k b d', maps ix k b d' → ¬ same_place d d')
    by (intros d; apply S6; by left).
  inversion S7 as [|? ? Hso Hap]; subst. rewrite Forall_forall in Hap. split.
  - done.
  - by rewrite <- Hs.
  - by eapply aligned_same.
  - intros k1 b d H. eapply placed_same; [exact Hs|].
    destruct (Hmine _ _ _ H) as [(_ & _ & _ & Hh)|H']; [by apply Hres|by eapply S4].
  - intros k1 b1 d1 k2 b2 d2 H1 H2 Hp.
    destruct (Hmine _ _ _ H1) as [(-> & C1 & -> & Hh1)|H1'],
      (Hmine _ _ _ H2) as [(-> & C2 & -> & Hh2)|H2'].
    + split; [done|]. destruct Hp as (_ & _ & E). simpl in E. lia.
    + exfalso. by apply (proj2 (Hres _ Hh1) _ _ _ H2').
    + exfalso. apply (proj2 (Hres _ Hh2) _ _ _ H1'). by symmetry.
    + by eapply S5.
  - intros r d Hr Hd. destruct (S6 r d) as [P N]; [by right|done|]. split; [by eapply placed_same|].
    intros k1 b d' H. destruct (Hmine _ _ _ H) as [(_ & _ & _ & Hh)|H']; [|by eapply N].
    intros Hp. apply (Hap r Hr d' d); [done|done|by symmetry].
  - done.
Qed.

Lemma add_slice_store base ext R ix s (sn is_reclaim : bool) k :
  store_ok base ext (s :: R) ix → usable ix k s → 0 < ext (se_id s) →
  ∃ out ix', ob_index_add_slice_ex s sn is_reclaim ix = Some (out, ix') ∧ kept ix ix' ∧
    match out with
    | Waits => ix' = ix ∧ is_reclaim = false ∧ ∃ c t, lives ix (se_ob s) k c t ∧ 0 < c
    | Done (inl e) => e = ENOMEM ∧ w_mem (ix_world ix) ≠ [] ∧ same_maps ix ix' ∧
        ∃ ext', (∀ id, ext id <= ext' id) ∧ store_ok base ext' (s :: R) ix'
    | Done (inr (inc, n)) => overlaid ix ix' k s ∧ store_ok base ext R ix' ∧ sn_taken sn ix ix' n
    end.
Proof using UniqSkiplistSpec0.
  intros S (V & Kn & c & t & L) Hx. pose proof (so_index _ _ _ _ S) as I.
  destruct (ob_index_add_slice_ex_run base ext ix s sn is_reclaim k c t I L V Kn)
    as (out & ix' & E & Hw & Hm & H).
  pose proof (frames_add_slice s sn is_reclaim ix out ix' E) as Hf. exists out, ix'. split; [done|].
  destruct out as [|[e|[inc n]]].
  - subst ix'. split; [done|]. destruct (proj1 Hw eq_refl) as [-> Hc]. split_and!; [done|done|by exists c, t].
  - destruct H as (-> & Hu & ext' & I' & He). pose proof (unchanged_kept _ _ Hf Hu) as K.
    split_and!; [done|done|by intros X; apply (Hm X ENOMEM)|by apply unchanged_maps|].
    exists ext'. split; [done|]. eapply store_ok_maps; [exact S|by apply framed_space|done|].
    intros k' b d. apply (unchanged_maps _ _ Hu).
  - destruct H as (t' & I' & Hb & Hsn & Hl & _).
    assert (K : kept ix ix').
    { apply framed_kept; [done|]. intros q k' c' u L'. destruct (decide (q = se_ob s)) as [->|Hq].
      - destruct (lives_fun _ _ _ _ _ _ _ _ L L') as (<- & <- & <-). exists t'. apply Hb.
        by rewrite decide_True.
      - exists u. apply Hb. by rewrite decide_False. }
    assert (O : overlaid ix ix' k s).
    { eapply changed_overlaid; [by apply I|by apply I'|exact L|exact Hb|exact Hl]. }
    split_and!; [done|done|by eapply store_ok_overlaid|done..].
Qed.
End Store.
