(* ===== verification/StoreWrite.v ===== *)
(** * A write, from the allocation to the index

    [fs_slice_alloc] cuts an extent into slices over fresh space; [fs_write_finish] enters
    them into the index. Together they move the bytes of the extent to new places and
    nothing else. *)
From stdpp Require Import sorting.
From S2P Require Import Prelude Types Skiplist ObSlices ObSlicesRun ObSlicesThms TrunkAllocator StorageAllocator StorageAllocSpec StorageAllocThms StorageAllocUsed ObSlicesMain ObIndex ObIndexSpec ObIndexOps ObIndexThms ObIndexMain Binlog SliceOp StoreAlloc.

(** The slices of a list follow each other without gap from [o] to [e]. *)
Fixpoint tiles (o : Z) (l : list OBSliceEntry) (e : Z) : Prop :=
  match l with
  | [] => o = e
  | s :: l => soff s = o ∧ 0 < slen s ∧ tiles (send s) l e
  end.

Lemma tiles_le o l e : tiles o l e → o <= e.
Proof.
  revert o. induction l as [|s l IH]; intros o; simpl; [lia|]. intros (<- & Hl & H%IH).
  unfold send in *. lia.
Qed.
Lemma tiles_bounds o l e s : tiles o l e → s ∈ l → o <= soff s ∧ 0 < slen s ∧ send s <= e.
Proof.
  revert o. induction l as [|x l IH]; intros o; simpl; [by intros _ ?%elem_of_nil|].
  intros (<- & Hl & H) [->|Hs]%elem_of_cons.
  - pose proof (tiles_le _ _ _ H). lia.
  - destruct (IH _ H Hs). unfold send in *. lia.
Qed.
(** Every byte of the extent is in one of them, and in no other. *)
Lemma tiles_cover o l e b : tiles o l e → o <= b < e ↔ ∃ s, s ∈ l ∧ covers s b.
Proof.
  revert o. induction l as [|x l IH]; intros o; simpl.
  - intros ->. split; [lia|]. by intros (s & ?%elem_of_nil & _).
  - intros (<- & Hl & H). pose proof (tiles_le _ _ _ H). specialize (IH _ H). split.
    + intros Hb. destruct (decide (covers x b)) as [Hc|Hc]; [exists x; split; [by left|done]|].
      unfold covers, send in *. destruct (proj1 IH) as (s & ? & ?); [lia|]. exists s. split; [by right|done].
    + intros (s & [->|Hs]%elem_of_cons & Hc).
      * unfold covers, send in *. lia.
      * assert (send x <= b < e) by (apply IH; eauto). unfold send in *. lia.
Qed.
Lemma tiles_unique o l e s1 s2 b : tiles o l e → s1 ∈ l → s2 ∈ l → covers s1 b → covers s2 b → s1 = s2.
Proof.
  revert o. induction l as [|x l IH]; intros o; simpl; [by intros _ ?%elem_of_nil|].
  intros (<- & Hl & H) [->|H1]%elem_of_cons [->|H2]%elem_of_cons C1 C2; [done|..|by eapply IH].
  - pose proof (tiles_bounds _ _ _ _ H H2). unfold covers, send in *. lia.
  - pose proof (tiles_bounds _ _ _ _ H H1). unfold covers, send in *. lia.
Qed.
Lemma tiles_app o l1 l2 e : tiles o (l1 ++ l2) e ↔ ∃ m, tiles o l1 m ∧ tiles m l2 e.
Proof.
  revert o. induction l1 as [|x l1 IH]; intros o; simpl.
  - split; [intros H; by exists o|]. by intros (m & -> & ?).
  - rewrite IH. split.
    + intros (? & ? & m & ? & ?). exists m. by split_and!.
    + intros (m & (? & ? & ?) & ?). split_and!; [done|done|]. by exists m.
Qed.
Lemma tiles_length o l e : tiles o l e → sumZ slen l = e - o.
Proof.
  revert o. induction l as [|x l IH]; intros o; simpl; [intros ->; lia|].
  intros (<- & _ & H%IH). rewrite H. unfold send. lia.
Qed.
Lemma tiles_sorted o l e : tiles o l e → StronglySorted before l.
Proof.
  revert o. induction l as [|x l IH]; intros o; simpl; [constructor|]. intros (_ & _ & H).
  constructor; [by eapply IH|]. apply Forall_forall. intros y Hy. unfold before.
  by pose proof (tiles_bounds _ _ _ _ H Hy) as (? & _ & _).
Qed.

Section Write.
Context {T : Type} `{!UniqSkiplist OBSliceEntry T} `{!UniqSkiplistSpec slice_compare}.
Implicit Types (s : OpState T) (ix : Index T Mgr) (k : FSBlockKey) (b : Z) (sl : OBSliceEntry)
  (base : Z → Z → Z) (ext : Z → Z) (R : list OBSliceEntry).

(** ** The monad of the operations *)
Lemma obind_ret {B C} (m : OM T B) (f : B → OM T C) s y s1 :
  m s = Ret (inr y) s1 → (m ≫= f) s = f y s1.
Proof using. intros H. unfold mbind, OM_bind. by rewrite H. Qed.
Lemma obind_fail {B C} (m : OM T B) (f : B → OM T C) s e s1 :
  m s = Ret (inl e) s1 → (m ≫= f) s = Ret (inl e) s1.
Proof using. intros H. unfold mbind, OM_bind. by rewrite H. Qed.
Lemma otry_ret {B} (m : OM T B) s r s1 : m s = Ret r s1 → otry m s = Ret (inr r) s1.
Proof using. unfold otry. by intros ->. Qed.
Lemma oindex_run {B} (m : IM T Mgr B) s y ix :
  m (os_index s) = Some (y, ix) → oindex m s = Ret (inr y) (set_index ix s).
Proof using. unfold oindex. by intros ->. Qed.
Lemma ofield_run {B C} (g : FSSliceOpContext → B) (f : B → OM T C) s :
  (op_field g ≫= f) s = f (g (os_op s)) s.
Proof using. done. Qed.

Lemma omod_run {C} g (f : unit → OM T C) s : (omod g ≫= f) s = f tt (g s).
Proof using. done. Qed.
Lemma otry_run {B C} (m : OM T B) (f : Z + B → OM T C) s r s1 :
  m s = Ret r s1 → (otry m ≫= f) s = f r s1.
Proof using. intros H. unfold mbind, OM_bind, otry. by rewrite H. Qed.

(** Only the index changed. *)
Definition only_index s s' : Prop := ∃ ix, s' = set_index ix s.
#[export] Instance only_index_preorder : PreOrder only_index.
Proof using.
  split.
  - intros s. exists (os_index s). by destruct s.
  - intros s1 s2 s3 [ix1 ->] [ix2 ->]. by exists ix2.
Qed.
Lemma only_index_set ix s : only_index s (set_index ix s).
Proof using. by exists ix. Qed.

(** ** Slices over reserved space *)
Record reserved k (ty : OBSliceType) o e ext0 ext ix (l : list OBSliceEntry) : Prop := {
  rs_tiles : tiles o l e;
  rs_usable : Forall (usable ix k) l;
  rs_fits : Forall (λ sl, slen sl <= sp_size (se_space sl)) l;
  rs_type : Forall (λ sl, se_type sl = ty) l;
  rs_ext : ∀ id, ext0 id + occ id l <= ext id;
}.

Lemma reserved_known base ext sv R ix sl :
  store_ok base ext (pseudo sv :: R) ix → 0 < sp_size (sv_space sv) → se_space sl = sv_space sv →
  known (ix_world ix) sl.
Proof using.
  intros S Hz Hs. unfold known. rewrite Hs. apply mgr_used_some.
  destruct (so_reserved _ _ _ _ S (pseudo sv) (loc_at (pseudo sv) 0)) as [(f & sz & Hv & _) _];
    [by left| |by eexists].
  exists 0. split; [|done]. apply covers_whole. lia.
Qed.

(** [alloc_init_slice] turns a reserved space into a slice. *)
Lemma alloc_init_slice_run base ext R s k ty sv o n :
  store_ok base ext (pseudo sv :: R) (os_index s) → key_ok k →
  0 < n <= sp_size (sv_space sv) → 0 <= o → o + n <= FS_FILE_BLOCK_SIZE →
  ∃ r ix', alloc_init_slice k (sv_space sv) ty o n s = Ret (inr r) (set_index ix' s) ∧
    kept (os_index s) ix' ∧ same_maps (os_index s) ix' ∧
    match r with
    | None => store_ok base ext R ix'
    | Some sl => store_ok base (ext_new (se_id sl) ext) (whole (se_space sl) :: R) ix' ∧
        usable ix' k sl ∧ slen sl <= sp_size (se_space sl) ∧
        soff sl = o ∧ slen sl = n ∧ se_type sl = ty
    end.
Proof using UniqSkiplistSpec0.
  intros S Hk Hn Ho He.
  destruct (alloc_slice_run base ext _ (os_index s) k S Hk) as (r & ix' & E & K & M & H).
  unfold alloc_init_slice. rewrite (obind_ret _ _ _ _ _ (oindex_run _ _ _ _ E)).
  destruct r as [[id p]|]; cycle 1.
  { exists None, ix'. split_and!; [done|done|done|by eapply store_ok_drop]. }
  set (sl := mkSlice id p ty (mkSliceSize o n) (sv_space sv)). exists (Some sl), ix'.
  destruct H as [S' Hl]. split; [done|]. split; [done|]. split; [done|]. split; [done|].
  split; [|split; [apply Hn|done]].
  - split_and!; [|by eapply reserved_known; [exact S'|lia|]|done].
    split_and!; [done|apply Hn|done].
Qed.

Lemma reserved_nil k ty o ext ix : reserved k ty o o ext ext ix [].
Proof using. split; [done|constructor|constructor|constructor|]. intros id. rewrite occ_nil. lia. Qed.
Lemma ext_new_le id ext i : ext i <= ext_new id ext i.
Proof using. unfold ext_new. case_decide; lia. Qed.
Lemma reserved_cons k ty e ext0 ext ix ix' sl l :
  usable ix k sl → slen sl <= sp_size (se_space sl) → se_type sl = ty → kept ix ix' →
  reserved k ty (send sl) e (ext_new (se_id sl) ext0) ext ix' l →
  reserved k ty (soff sl) e ext0 ext ix' (sl :: l).
Proof using.
  intros U Hf Ht K [R1 R2 R5 R3 R4]. split.
  - split_and!; [done|apply U|done].
  - constructor; [by eapply usable_kept|done].
  - by constructor.
  - by constructor.
  - intros i. specialize (R4 i). unfold ext_new in R4. rewrite occ_cons.
    destruct (Z.eqb_spec (se_id sl) i); case_decide; lia.
Qed.

(** The spaces of the slices of an array, whole. *)
Definition spaces_of (l : list FSSliceSNPair) : list OBSliceEntry := (λ p, whole (se_space (pr_slice p))) <$> l.

(** What the slices of an allocation are, and what a failed one leaves. *)
Definition slices_outcome base' k ty o e (N : nat) ext R s (r : Z + list FSSliceSNPair) s' : Prop :=
  ∃ ix' ext', s' = set_index ix' s ∧ kept (os_index s) ix' ∧ same_maps (os_index s) ix' ∧
    (∀ id, ext id <= ext' id) ∧
    match r with
    | inl err => 0 < err < 2 ^ 15 ∧ store_ok base' ext' R ix'
    | inr l => store_ok base' ext' ((spaces_of l) ++ R) ix' ∧
        reserved k ty o e ext ext' ix' (pr_slice <$> l) ∧ (length l <= N)%nat
    end.

Lemma alloc_slices_run base ext R s k ty spaces o n :
  store_ok base ext ((pseudo <$> spaces) ++ R) (os_index s) → key_ok k →
  Forall (λ sv, 0 < sp_size (sv_space sv)) spaces → spaces_aligned spaces →
  sumZ (λ sp, sp_size (sv_space sp)) spaces = (n + 7) / 8 * 8 → 0 <= n → 0 <= o →
  o + n <= FS_FILE_BLOCK_SIZE →
  ∃ r s', alloc_slices k ty spaces o n s = Ret r s' ∧ slices_outcome base k ty o (o + n) (length spaces) ext R s r s'.
Proof using UniqSkiplistSpec0.
  revert o n ext R s. induction spaces as [|sv spaces IH]; intros o n ext R s S Hk Hp Ha Hsum Hn Ho He.
  { exists (inr []), s. split; [done|]. exists (os_index s), ext. split_and!; [by destruct s|done|done|lia|done| |done].
    rewrite sumZ_nil in Hsum. replace (o + n) with o by (Z.to_euclidean_division_equations; lia).
    apply reserved_nil. }
  apply Forall_cons in Hp as [Hp0 Hp]. apply Forall_cons in Ha as [[q Hq] Ha].
  rewrite sumZ_cons in Hsum.
  assert (Hrest : 0 <= sumZ (λ sp, sp_size (sv_space sp)) spaces).
  { apply sumZ_nonneg. intros x Hx. rewrite Forall_forall in Hp. specialize (Hp x Hx). lia. }
  cbn [alloc_slices]. set (m := if _ <? n then _ else n).
  assert (Hm : 0 < m <= sp_size (sv_space sv) ∧ m <= n ∧
    sumZ (λ sp, sp_size (sv_space sp)) spaces = (n - m + 7) / 8 * 8).
  { unfold m. destruct (Z.ltb_spec (sp_size (sv_space sv)) n); 
      split_and!; Z.to_euclidean_division_equations; lia. }
  destruct Hm as (Hm & Hmn & Hsum').
  destruct (alloc_init_slice_run base ext ((pseudo <$> spaces) ++ R) s k ty sv o m)
    as (r & ix1 & E & K & M & H); [done|done|done|done|lia|].
  rewrite (obind_ret _ _ _ _ _ E). destruct r as [sl|]; cycle 1.
  { exists (inl ENOMEM), (set_index ix1 s). split; [done|]. exists ix1, ext.
    split_and!; [done|done|done|lia|done|done|]. clear -H.
    induction (pseudo <$> spaces) as [|x l IH]; [done|]. by apply IH, (store_ok_drop _ _ x). }
  destruct H as (S1 & U & Hfit & Hso & Hsl & Hty).
  destruct (IH (o + slen sl) (n - slen sl) (ext_new (se_id sl) ext) (whole (se_space sl) :: R) (set_index ix1 s))
    as (r & s2 & E2 & ix2 & ext2 & -> & K2 & M2 & Hext & H); rewrite ?Hsl; try done; try lia.
  { eapply store_ok_perm; [|exact S1]. by rewrite Permutation_middle. }
  rewrite Hsl in E2. exists (match r with inl e => inl e | inr l => inr (mkPair (sv_version sv) 0 sl :: l) end),
    (set_index ix2 s). split.
  { destruct r; [by rewrite (obind_fail _ _ _ _ _ E2)|by rewrite (obind_ret _ _ _ _ _ E2)]. }
  exists ix2, ext2. split_and!; [done|by etransitivity| | |].
  - intros k' b d. by rewrite (M2 k' b d), (M k' b d).
  - intros id. specialize (Hext id). pose proof (ext_new_le (se_id sl) ext id). lia.
  - destruct r as [err|l].
    + destruct H as [? H]. split; [done|]. by eapply store_ok_drop.
    + destruct H as (H & Hr & Hlen). rewrite Hsl in Hr. replace (o + m + (n - m)) with (o + n) in Hr by lia. split_and!.
      * eapply store_ok_perm; [|exact H]. unfold spaces_of. by rewrite fmap_cons, <- Permutation_middle.
      * rewrite fmap_cons. cbn [pr_slice]. rewrite <- Hso. eapply reserved_cons; [done|done|done|done|].
        unfold send. rewrite Hso, Hsl. done.
      * simpl. lia.
Qed.

(** ** Queueing the disk writes *)

(** The requests for a list of slices, whose bytes are consecutive in [data]. *)
Fixpoint chunks (l : list FSSliceSNPair) (data : bytes) : list WriteRequest :=
  match l with
  | [] => []
  | p :: l =>
      let n := Z.to_nat (slen (pr_slice p)) in
      mkWrite (pr_version p) (pr_slice p) (take n data) :: chunks l (drop n data)
  end.
Lemma chunks_data l data o e :
  tiles o (pr_slice <$> l) e → Z.of_nat (length data) = e - o →
  concat (wr_data <$> chunks l data) = data ∧
  Forall2 (λ p w, wr_slice w = pr_slice p ∧ wr_version w = pr_version p ∧
    Z.of_nat (length (wr_data w)) = slen (pr_slice p)) l (chunks l data).
Proof using.
  revert o data. induction l as [|p l IH]; intros o data.
  { simpl. intros -> H. split; [|constructor]. symmetry. apply nil_length_inv. lia. }
  rewrite fmap_cons. intros (Ho & Hp & Ht) Hl. pose proof (tiles_le _ _ _ Ht) as Hle. cbn [chunks].
  destruct (IH _ (drop (Z.to_nat (slen (pr_slice p))) data) Ht) as [H1 H2].
  { rewrite length_drop. unfold send in *. lia. }
  split; [rewrite fmap_cons; simpl; by rewrite H1, take_drop|]. constructor; [|done].
  simpl. split_and!; [done|done|]. rewrite length_take. unfold send in *. lia.
Qed.

(** Memory was asked for; nothing else happened to the index. *)
Definition mem_only ix ix' : Prop :=
  ∃ m, ix' = set_world (set_mem m (ix_world ix)) ix ∧ (w_mem (ix_world ix) = [] → m = []).
#[export] Instance mem_only_preorder : PreOrder mem_only.
Proof using.
  split.
  - intros ix. exists (w_mem (ix_world ix)). split; [|done]. by destruct ix as [? ? ? []].
  - intros ix1 ix2 ix3 (m2 & -> & H2) (m3 & -> & H3). exists m3. split; [done|]. auto.
Qed.
Lemma mem_only_kept ix ix' : mem_only ix ix' → kept ix ix' ∧ same_maps ix ix'.
Proof using. intros (m & -> & _). split; [|done]. split; [done|]. intros q k c t L. by exists t. Qed.
Lemma mem_only_store base ext R ix ix' : mem_only ix ix' → store_ok base ext R ix → store_ok base ext R ix'.
Proof using.
  intros (m & -> & _) S. eapply store_ok_maps; [exact S|done| |done].
  apply (index_ok_ext base ext (λ id, ext id + 0)); [intros; lia|].
  apply index_ok_world; [apply S|done| |apply (io_pos _ _ _ (so_index _ _ _ _ S))|].
  - intros id. unfold ref_count. simpl. lia.
  - intros id. pose proof (io_ext _ _ _ (so_index _ _ _ _ S) id). lia.
Qed.
Lemma oalloc_run s : ∃ ok ix', oalloc s = Ret (inr ok) (set_index ix' s) ∧ mem_only (os_index s) ix' ∧
  (w_mem (ix_world (os_index s)) = [] → ok = true).
Proof using.
  unfold oalloc, oindex, iworld, mbind, OM_bind, mret, OM_ret, alloc_ok.
  destruct s as [o [ht obs nx [mem nxt refs acct sn]] v c ws rs sl rl]. simpl.
  destruct mem as [|ok mem]; simpl.
  - eexists _, _. split; [done|]. split; [|done]. by exists [].
  - eexists _, _. split; [done|]. split; [|done]. by exists mem.
Qed.

(** The requests [ws] were queued, and memory was asked for. *)
Record queued s s' (ws : list WriteRequest) : Prop := {
  qd_index : mem_only (os_index s) (os_index s');
  qd_rest : s' = mkState (os_op s) (os_index s') (os_version s) (os_callbacks s) (os_writes s ++ ws)
              (os_reads s) (os_slice_log s) (os_replica_log s);
}.
Lemma queued_nil s ix : mem_only (os_index s) ix → queued s (set_index ix s) [].
Proof using. intros H. split; [done|]. by rewrite app_nil_r. Qed.
Lemma queued_app s1 s2 s3 w1 w2 : queued s1 s2 w1 → queued s2 s3 w2 → queued s1 s3 (w1 ++ w2).
Proof using.
  intros [I1 R1] [I2 R2]. split; [by etransitivity|]. rewrite R2, R1. simpl. by rewrite app_assoc.
Qed.

Lemma queue_push_run version sl data s :
  ∃ r s', trunk_write_thread_push version sl data s = Ret r s' ∧
    (w_mem (ix_world (os_index s)) = [] → r = inr tt) ∧
    match r with
    | inr _ => queued s s' [mkWrite version sl data]
    | inl e => e = ENOMEM ∧ queued s s' []
    end.
Proof using.
  destruct (oalloc_run s) as (ok & ix & E & M & Hok). unfold trunk_write_thread_push.
  rewrite (obind_ret _ _ _ _ _ E). destruct ok; simpl.
  - eexists _, _. split; [done|]. split; [done|]. by split.
  - eexists _, _. split; [done|]. split; [by intros ?%Hok|]. split; [done|]. by apply queued_nil.
Qed.
Lemma write_slices_run l data s :
  ∃ r s' ws, write_slices l data s = Ret r s' ∧ queued s s' ws ∧
    (w_mem (ix_world (os_index s)) = [] → r = inr tt) ∧
    match r with
    | inr _ => ws = chunks l data
    | inl e => e = ENOMEM ∧ ∃ w rest, chunks l data = ws ++ w :: rest
    end.
Proof using.
  revert data s. induction l as [|p l IH]; intros data s; cbn [write_slices].
  { exists (inr tt), s, []. split_and!; [done|by destruct s; apply queued_nil|done|done]. }
  cbn [chunks]. set (n := Z.to_nat (slen (pr_slice p))).
  destruct (queue_push_run (pr_version p) (pr_slice p) (take n data) s) as (r & s1 & E & Hm & H).
  destruct r as [e|[]].
  { destruct H as [-> H]. rewrite (obind_fail _ _ _ _ _ E).
    exists (inl ENOMEM), s1, []. split_and!; [done|done|by intros ?%Hm|done|]. by eexists _, _. }
  rewrite (obind_ret _ _ _ _ _ E). destruct (IH (drop n data) s1) as (r & s2 & ws & E2 & Q & Hm2 & H2).
  exists r, s2, (mkWrite (pr_version p) (pr_slice p) (take n data) :: ws).
  split_and!; [done|by eapply (queued_app _ _ _ [_])| |].
  - intros Hw. apply Hm2. destruct H as [(m & -> & Hmm) _]. simpl. by apply Hmm.
  - destruct r as [e|[]]; [|by subst ws]. destruct H2 as (-> & w & rest & ->). split; [done|]. by exists w, rest.
Qed.

(** ** [fs_slice_alloc] *)
Context (now : Z) (continue_flag : bool) (discard_remain_space_size : Z).
Context (blocked : Z → Mgr → Mgr) (retries : nat).
Context (Hused : ∀ i m, used_kept m (blocked i m)).
Context (Haligned : ∀ i m, aligned8 m → aligned8 (blocked i m)).
Context (Hdiscard : 0 < discard_remain_space_size).
Context (Hspace : ∀ i m, alloc_safe m → alloc_safe (blocked i m) ∧ space_mono m (blocked i m)).

(** An extent within a block. *)
Definition extent_ok (bs : FSBlockSliceKeyInfo) : Prop :=
  key_ok (bs_block bs) ∧ 0 <= ss_offset (bs_slice bs) ∧ 0 < ss_length (bs_slice bs) ∧
  ss_offset (bs_slice bs) + ss_length (bs_slice bs) <= FS_FILE_BLOCK_SIZE.

Lemma fs_slice_alloc_run base ext R s bs ty (reclaim_alloc : bool) :
  store_ok base ext R (os_index s) → extent_ok bs →
  match fs_slice_alloc now continue_flag discard_remain_space_size blocked retries bs ty reclaim_alloc s with
  | Crash => False
  | Hang => reclaim_alloc = false
  | Ret r s' => ∃ base', slices_outcome base' (bs_block bs) ty (extent_start bs) (extent_end bs) 2 ext R s r s'
  end.
Proof using All.
  intros S (Hk & Ho & Hn & He). unfold fs_slice_alloc.
  set (m := if reclaim_alloc then _ else _).
  assert (Hi : in_int32 (ss_length (bs_slice bs) + 7)) by (unfold in_int32, FS_FILE_BLOCK_SIZE in *; lia).
  assert (Hm : match m (mgr_of (os_index s)) with
    | None => reclaim_alloc = false
    | Some (res, m') => alloc_post (ss_length (bs_slice bs)) (mgr_of (os_index s)) res m'
    end).
  { destruct (m (mgr_of (os_index s))) as [[res m']|] eqn:E; unfold m in E; destruct reclaim_alloc.
    - eapply reclaim_alloc_post; [..|exact E]; try done; apply S.
    - eapply normal_alloc_post; [..|exact E]; try done; apply S.
    - exfalso. unfold storage_allocator_reclaim_alloc, storage_allocator_normal_alloc_ex in E.
      destruct (ap_allocators _ !! _); [|done].
      destruct (trunk_freelist_alloc_space _ _ _ _ _ _ _ _ _) as [[| |] ?]; try done.
      by rewrite andb_false_r in E.
    - done. }
  unfold omgr, mbind at 1, OM_bind at 1. change (w_acct (ix_world (os_index s))) with (mgr_of (os_index s)).
  destruct (m (mgr_of (os_index s))) as [[res m']|]; [|done].
  set (ix1 := set_world (set_acct m' (ix_world (os_index s))) (os_index s)).
  set (base' := base_after (mgr_of (os_index s)) m' base (all_slices (os_index s))).
  assert (K1 : kept (os_index s) ix1).
  { split; [apply Hm|]. intros q k' c t L. by exists t. }
  destruct res as [l|e|]; [| |by destruct Hm as (_ & _ & _ & _ & [])]; cycle 1.
  { exists base', ix1, ext. split_and!; [done|done|done|done|by apply Hm|by apply Hm|].
    by eapply store_ok_alloc_fail. }
  pose proof (store_ok_alloc _ _ _ _ _ _ _ S Hm) as S1. fold ix1 base' in S1.
  destruct Hm as (W & M & U & A & Hok & Hsum & Hcount & Hal).
  destruct (alloc_slices_run base' ext R (set_index ix1 s) (bs_block bs) ty l
    (ss_offset (bs_slice bs)) (ss_length (bs_slice bs))) as (r & s2 & E & ix2 & ext2 & -> & K2 & M2 & H);
    try done; [|lia|].
  { eapply Forall_impl; [exact Hok|]. intros sv Hsv. apply Hsv. }
  assert (Hout : slices_outcome base' (bs_block bs) ty (extent_start bs) (extent_end bs) 2 ext R s r
    (set_index ix2 s)).
  { exists ix2, ext2. split_and!; [done|by transitivity ix1|apply M2|apply H|].
    destruct H as [_ H]. destruct r as [err|l']; [done|]. destruct H as (H1 & H2 & H3).
    split_and!; [done|done|]. destruct Hcount as [?|(s1' & s2' & -> & _)]; simpl in *; lia. }
  destruct l as [|sv [|sv2 l]]; [by rewrite E; eauto| |by rewrite E; eauto].
  cbn [alloc_slices] in E. unfold sumZ in Hsum. simpl in Hsum. destruct (Z.ltb_spec (sp_size (sv_space sv))
    (ss_length (bs_slice bs))); [Z.to_euclidean_division_equations; lia|].
  unfold mbind, OM_bind in *. unfold mret, OM_ret in *.
  destruct (alloc_init_slice _ _ _ _ _ _) as [| |[e|[sl|]] s3]; simplify_eq; [by eauto..|].
  rewrite E. by eauto.
Qed.

(** ** [fs_slice_write] *)

(** The part of the context that says what to do. *)
Definition same_info (o o' : FSSliceOpContext) : Prop :=
  op_log_replica o' = op_log_replica o ∧ op_source o' = op_source o ∧
  op_data_version o' = op_data_version o ∧ op_bs_key o' = op_bs_key o ∧ op_buff o' = op_buff o.

(** What it leaves: on success the slices of the array hold reserved space for the extent,
    their data are queued and the counter is their number; an error of the allocation is
    reported through the callback as well, and after a failed push part of the data is
    queued. The mapping of the bytes has not changed. *)
Definition slice_write_outcome_of data ext R s (r : Z + unit) s' : Prop :=
  let o := os_op s in
  kept (os_index s) (os_index s') ∧ same_maps (os_index s) (os_index s') ∧
  os_version s' = os_version s ∧ os_slice_log s' = os_slice_log s ∧ os_replica_log s' = os_replica_log s ∧
  os_reads s' = os_reads s ∧ same_info o (os_op s') ∧
  ∃ base' ext', (∀ id, ext id <= ext' id) ∧
    let pairs := op_sarray (os_op s') in
    let done_ :=
      store_ok base' ext' (spaces_of pairs ++ R) (os_index s') ∧
      reserved (bs_block (op_bs_key o)) OB_SLICE_TYPE_FILE (extent_start (op_bs_key o))
        (extent_end (op_bs_key o)) ext ext' (os_index s') (pr_slice <$> pairs) ∧
      op_counter (os_op s') = Z.of_nat (length pairs) ∧ 0 < op_counter (os_op s') <= 2 ∧
      op_result (os_op s') = 0 ∧ op_done_bytes (os_op s') = 0 ∧ op_space_changed (os_op s') = 0 ∧
      os_callbacks s' = os_callbacks s in
    match r with
    | inr _ => done_ ∧ os_writes s' = os_writes s ++ chunks pairs data
    | inl err => 0 < err < 2 ^ 15 ∧
        (store_ok base' ext' R (os_index s') ∧ os_writes s' = os_writes s ∧
           op_result (os_op s') = cast16 err ∧ os_callbacks s' = os_callbacks s + 1 ∨
         done_ ∧ err = ENOMEM ∧ ∃ ws w rest, os_writes s' = os_writes s ++ ws ∧
           chunks pairs data = ws ++ w :: rest)
    end.
Definition slice_write_outcome ext R s : Z + unit → OpState T → Prop :=
  slice_write_outcome_of (op_buff (os_op s)) ext R s.

Lemma reserved_kept k ty o e ext0 ext ix ix' l :
  kept ix ix' → reserved k ty o e ext0 ext ix l → reserved k ty o e ext0 ext ix' l.
Proof using.
  intros K [R1 R2 R5 R3 R4]. split; try done. eapply Forall_impl; [exact R2|].
  intros sl. by apply usable_kept.
Qed.

(** The requests of a write: from one buffer, or from several (whose bytes are [data]). *)
Definition push_data (buffers : option (list AlignedReadBuffer)) (pairs : list FSSliceSNPair) (buff : bytes) : OM T unit :=
  match buffers with
  | Some buffers => write_iovec_array buffers
  | None => write_slices pairs buff
  end.
Definition pushes (data : bytes) (pairs : list FSSliceSNPair) (m : OM T unit) s : Prop :=
  ∃ r s' ws, m s = Ret r s' ∧ queued s s' ws ∧
    match r with
    | inr _ => ws = chunks pairs data
    | inl e => e = ENOMEM ∧ ∃ w rest, chunks pairs data = ws ++ w :: rest
    end.
Lemma fs_slice_write_any_run base ext R s buffers data :
  store_ok base ext R (os_index s) → extent_ok (op_bs_key (os_op s)) →
  (∀ pairs s', tiles (extent_start (op_bs_key (os_op s))) (pr_slice <$> pairs) (extent_end (op_bs_key (os_op s))) →
     op_sarray (os_op s') = pairs → pushes data pairs (push_data buffers pairs (op_buff (os_op s))) s') →
  match fs_slice_write now continue_flag discard_remain_space_size blocked retries buffers s with
  | Crash => False
  | Hang => is_reclaim (os_op s) = false
  | Ret r s' => slice_write_outcome_of data ext R s r s'
  end.
Proof using All.
  intros S Hx Hpush. unfold fs_slice_write. rewrite omod_run.
  match goal with |- context [upd_op ?f s] => set (s0 := upd_op f s) end. rewrite ofield_run. change (op_bs_key (id (os_op s0))) with (op_bs_key (os_op s)).
  change (is_reclaim (id (os_op s0))) with (is_reclaim (os_op s)).
  pose proof (fs_slice_alloc_run base ext R s0 (op_bs_key (os_op s)) OB_SLICE_TYPE_FILE
    (is_reclaim (os_op s)) S Hx) as H.
  destruct (fs_slice_alloc _ _ _ _ _ _ _ _ s0) as [| |r s1] eqn:E0;
    [done|unfold mbind, OM_bind, otry; by rewrite E0|]. rewrite (otry_run _ _ _ _ _ E0).
  destruct H as (base' & ix1 & ext1 & -> & K1 & M1 & He & H). destruct r as [err|pairs].
  { destruct H as [Hne H]. rewrite omod_run. unfold ofail, slice_write_outcome_of. cbv zeta.
    split_and!; try done. exists base', ext1. split_and!; try done; try lia. by left. }
  destruct H as (H & Hr & Hlen). unfold set_sarray. rewrite omod_run, omod_run.
  match goal with |- context [upd_op ?f (upd_op ?g ?x)] => set (s2 := upd_op f (upd_op g x)) end.
  change (op_buff (id (os_op s0))) with (op_buff (os_op s)).
  destruct (Hpush pairs s2 (rs_tiles _ _ _ _ _ _ _ _ Hr) eq_refl) as (r & s3 & ws & E & [Q1 Q2] & Hw).
  unfold push_data in E. rewrite E. destruct (mem_only_kept _ _ Q1) as [K2 M2]. change (os_index s2) with ix1 in *.
  change (slice_write_outcome_of data ext R s r s3). rewrite Q2. clear E.
  unfold slice_write_outcome_of. cbv zeta. split; [by transitivity ix1|]. split.
  { intros k' b d. change (os_index (mkState _ ?i _ _ _ _ _ _)) with i. by rewrite (M2 k' b d), (M1 k' b d). }
  split_and!; [done|done|done|done|done|]. exists base', ext1. split; [done|].
  assert (Hp : (0 < length pairs <= 2)%nat).
  { split; [|done]. pose proof (rs_tiles _ _ _ _ _ _ _ _ Hr) as Ht. destruct pairs; [|simpl; lia].
    simpl in Ht. unfold extent_end, extent_start in Ht. destruct Hx as (_ & _ & Hx & _). lia. }
  assert (Hc : cast16 (Z.of_nat (length pairs)) = Z.of_nat (length pairs)).
  { unfold cast16. rewrite Z.mod_small; lia. }
  set (D := _ ∧ _ ∧ _ ∧ _ ∧ _ ∧ _ ∧ _ ∧ _).
  assert (HD : D).
  { unfold D. simpl. rewrite Hc. split_and!; try done; try lia.
    - by eapply mem_only_store.
    - by eapply reserved_kept. }
  destruct r as [err|[]]; [|by subst ws].
  destruct Hw as (-> & w & rest & Hw). split; [unfold ENOMEM; lia|]. right.
  split; [done|]. split; [done|]. by exists ws, w, rest.
Qed.

Lemma fs_slice_write_run base ext R s :
  store_ok base ext R (os_index s) → extent_ok (op_bs_key (os_op s)) →
  match fs_slice_write now continue_flag discard_remain_space_size blocked retries None s with
  | Crash => False
  | Hang => is_reclaim (os_op s) = false
  | Ret r s' => slice_write_outcome ext R s r s'
  end.
Proof using All.
  intros S Hx. apply (fs_slice_write_any_run base ext R s None (op_buff (os_op s)) S Hx).
  intros pairs s' _ _. destruct (write_slices_run pairs (op_buff (os_op s)) s') as (r & s3 & ws & E & Q & _ & H).
  by exists r, s3, ws.
Qed.
End Write.

(** ** Finishing a write

    [fs_write_finish]: the slices of the array enter the index one after the other, the
    data version moves on; after an error the references are given back. *)

Section Finish.
Context {T : Type} `{!UniqSkiplist OBSliceEntry T} `{!UniqSkiplistSpec slice_compare}.
Implicit Types (s : OpState T) (ix : Index T Mgr) (k : FSBlockKey) (b : Z) (sl : OBSliceEntry)
  (base : Z → Z → Z) (ext : Z → Z) (R : list OBSliceEntry) (l : list FSSliceSNPair).

(** ** Giving references back *)
Lemma free_ref_store base ext R ix sl :
  store_ok base ext R ix → 0 < ext (se_id sl) →
  store_ok base (λ id, ext id - occ id [sl]) R (set_world (ob_index_free_slice sl (ix_world ix)) ix).
Proof using UniqSkiplistSpec0.
  intros S Hx. unfold ob_index_free_slice.
  eapply store_ok_maps; [exact S| | |done].
  - change (mgr_of (set_world _ ix)) with (w_acct (slice_free_func sl (ix_world ix))).
    by rewrite free_acct.
  - apply (index_ok_ext _ _ (λ id, ext id + - occ id [sl])); [intros; lia|].
    pose proof (so_index _ _ _ _ S) as I. apply index_ok_world; [done|by rewrite free_acct|..].
    + intros id. rewrite ref_count_free, occ_cons, occ_nil. lia.
    + apply refs_pos_free; [|apply I]. rewrite (io_refs _ _ _ I).
      pose proof (occ_nonneg (se_id sl) (all_slices ix)). lia.
    + intros id. pose proof (io_ext _ _ _ I id). rewrite occ_cons, occ_nil.
      destruct (Z.eqb_spec (se_id sl) id); subst; lia.
Qed.
Lemma free_pairs_run base ext R l s :
  store_ok base ext R (os_index s) → (∀ id, occ id (pr_slice <$> l) <= ext id) →
  ∃ ix', free_pairs l s = Ret (inr tt) (set_index ix' s) ∧ kept (os_index s) ix' ∧
    same_maps (os_index s) ix' ∧ store_ok base (λ id, ext id - occ id (pr_slice <$> l)) R ix'.
Proof using UniqSkiplistSpec0.
  revert ext s. induction l as [|p l IH]; intros ext s S Hx.
  { exists (os_index s). split_and!; [by destruct s|done|done|]. eapply store_ok_ext; [|exact S].
    intros id. simpl. rewrite occ_nil. lia. }
  cbn [free_pairs]. rewrite fmap_cons in *.
  assert (H0 : 0 < ext (se_id (pr_slice p))).
  { specialize (Hx (se_id (pr_slice p))). rewrite occ_cons, Z.eqb_refl in Hx.
    pose proof (occ_nonneg (se_id (pr_slice p)) (pr_slice <$> l)). lia. }
  pose proof (free_ref_store base ext R (os_index s) (pr_slice p) S H0) as S1.
  set (ix1 := set_world (ob_index_free_slice (pr_slice p) (ix_world (os_index s))) (os_index s)) in *.
  rewrite (obind_ret _ _ s tt (set_index ix1 s)) by done.
  destruct (IH (λ id, ext id - occ id [pr_slice p]) (set_index ix1 s) S1) as (ix2 & E & K & M & S2).
  { intros id. specialize (Hx id). rewrite occ_cons in *. rewrite occ_nil. lia. }
  exists ix2. rewrite E. split_and!; [done| |done|].
  - etransitivity; [|exact K]. split; [|intros q k c t L; by exists t].
    apply same_space_mono. change (same_space (mgr_of (os_index s))
      (w_acct (slice_free_func (pr_slice p) (ix_world (os_index s))))). by rewrite free_acct.
  - eapply store_ok_ext; [|exact S2]. intros id. simpl. rewrite !occ_cons, occ_nil. lia.
Qed.

(** ** Entering the slices *)

(** The bytes of the slices [l], which do not overlap, are mapped to their places. *)
Definition in_slices (l : list OBSliceEntry) b d : Prop := ∃ sl, sl ∈ l ∧ covers sl b ∧ d = loc_at sl b.
Definition overlaid_all ix ix' k (l : list OBSliceEntry) : Prop :=
  ∀ k' b d, maps ix' k' b d ↔
    (k' = k ∧ in_slices l b d) ∨ ¬ (k' = k ∧ ∃ sl, sl ∈ l ∧ covers sl b) ∧ maps ix k' b d.

Lemma overlaid_nil ix ix' k : same_maps ix ix' → overlaid_all ix ix' k [].
Proof using.
  intros H k' b d. rewrite (H k' b d). split.
  - intros Hm. right. split; [|done]. by intros [_ (sl & ?%elem_of_nil & _)].
  - intros [[_ (sl & ?%elem_of_nil & _)]|[_ ?]]; done.
Qed.
Lemma overlaid_cons ix ix1 ix2 k sl (l : list OBSliceEntry) :
  StronglySorted before (sl :: l) → overlaid ix ix1 k sl → overlaid_all ix1 ix2 k l → overlaid_all ix ix2 k (sl :: l).
Proof using.
  intros Ht H1 H2 k' b d. inversion Ht as [|? ? _ Hbef]; subst. rewrite Forall_forall in Hbef.
  rewrite (H2 k' b d). unfold in_slices. split.
  - intros [(-> & x & Hx & Hc & ->)|[Hn Hm]].
    + left. split; [done|]. exists x. split_and!; [by right|done|done].
    + apply H1 in Hm. case_decide as Hd.
      * left. destruct Hd as [-> Hd]. split; [done|]. exists sl. split_and!; [by left|done|done].
      * right. split; [|done]. intros (-> & x & [->|Hx]%elem_of_cons & Hc); [by apply Hd|].
        apply Hn. split; [done|]. by exists x.
  - intros [(-> & x & [->|Hx]%elem_of_cons & Hc & ->)|[Hn Hm]].
    + right. split; [|by apply H1; rewrite decide_True].
      intros (_ & y & Hy & Hcy). specialize (Hbef y Hy). unfold covers, before in *. lia.
    + left. split; [done|]. exists x. by split_and!.
    + right. split.
      * intros (-> & x & Hx & Hc). apply Hn. split; [done|]. exists x. split; [by right|done].
      * apply H1. rewrite decide_False; [done|]. intros [-> Hc]. apply Hn. split; [done|].
        exists sl. split; [by left|done].
Qed.

(** What the loop leaves: the slices [fin] are in the index, with the next numbers of the
    binlog; the rest is not. *)
Definition add_outcome base k before l ext R s (r : Z + unit) s' : Prop :=
  ∃ ix' ext' fin fin' rest changed, l = fin ++ rest ∧
    s' = upd_op (op_set_update (op_sn (os_op s)) changed (op_sarray_alloc (os_op s)) (before ++ fin' ++ rest))
           (set_index ix' s) ∧
    pr_slice <$> fin' = pr_slice <$> fin ∧ pr_version <$> fin' = pr_version <$> fin ∧
    pr_sn <$> fin' = seqZ (w_sn (ix_world (os_index s)) + 1) (Z.of_nat (length fin)) ∧
    kept (os_index s) ix' ∧ overlaid_all (os_index s) ix' k (pr_slice <$> fin) ∧
    store_ok base ext' ((pr_slice <$> rest) ++ R) ix' ∧ (∀ id, ext id <= ext' id) ∧
    match r with
    | inl err => err = ENOMEM ∧ rest ≠ []
    | inr _ => rest = [] ∧ w_sn (ix_world ix') = w_sn (ix_world (os_index s)) + Z.of_nat (length fin)
    end.

Lemma add_slices_run base ext k pre l R s :
  store_ok base ext ((pr_slice <$> l) ++ R) (os_index s) → StronglySorted before (pr_slice <$> l) →
  Forall (usable (os_index s) k) (pr_slice <$> l) → Forall (λ sl, 0 < ext (se_id sl)) (pr_slice <$> l) →
  op_sarray (os_op s) = pre ++ l →
  match add_slices_to_index pre l s with
  | Crash => False
  | Hang => is_reclaim (os_op s) = false ∧ ∃ p c t, lives (os_index s) p k c t ∧ 0 < c
  | Ret r s' => add_outcome base k pre l ext R s r s'
  end.
Proof using UniqSkiplistSpec0.
  revert pre ext s. induction l as [|p l IH]; intros pre ext s S Ht HU Hx Hsa; cbn [add_slices_to_index].
  { exists (os_index s), ext, [], [], [], (op_space_changed (os_op s)). split_and!; try done.
    - destruct s as [[] ? ? ? ? ? ? ?]. unfold upd_op, set_op, op_set_update. simpl in *. by rewrite Hsa.
    - by apply overlaid_nil.
    - by rewrite Z.add_0_r. }
  rewrite fmap_cons in *. apply Forall_cons in HU as [U HU], Hx as [Hx0 Hx].
  rewrite ofield_run. change (is_reclaim (id (os_op s))) with (is_reclaim (os_op s)).
  destruct (add_slice_store base ext ((pr_slice <$> l) ++ R) (os_index s) (pr_slice p) true
    (is_reclaim (os_op s)) k S U Hx0) as (out & ix1 & E & K & H).
  unfold owait at 1. unfold mbind at 1, OM_bind at 1. rewrite E. destruct out as [|[err|[inc n]]].
  { destruct H as (_ & Hr & c & t & L & Hc). split; [done|]. by exists (se_ob (pr_slice p)), c, t. }
  { destruct H as (-> & _ & M & ext' & He & S'). exists ix1, ext', [], [], (p :: l), (op_space_changed (os_op s)).
    split_and!; try done.
    - destruct s as [[] ? ? ? ? ? ? ?]. unfold upd_op, set_op, op_set_update. simpl in *. by rewrite Hsa.
    - by apply overlaid_nil. }
  destruct H as (O & S1 & Hn & Hsn). simpl in Hn. subst n. cbn [default].
  unfold add_space_changed, set_sarray. rewrite !omod_run.
  match goal with |- context [upd_op ?f (upd_op ?g ?x)] => set (s2 := upd_op f (upd_op g x)) end.
  set (p' := mkPair _ _ _). pose proof Ht as Ht0. inversion Ht as [|? ? Ht1 _]; subst.
  assert (HU2 : Forall (usable (os_index s2) k) (pr_slice <$> l)).
  { eapply Forall_impl; [exact HU|]. intros x. by apply usable_kept. }
  assert (Hsa2 : op_sarray (os_op s2) = (pre ++ [p']) ++ l) by (simpl; by rewrite <- app_assoc).
  specialize (IH (pre ++ [p']) ext s2 S1 Ht1 HU2 Hx Hsa2).
  destruct (add_slices_to_index (pre ++ [p']) l s2) as [| |r s3]; [done|..].
  { destruct IH as (Hr & q & c & t & L & Hc). split; [done|].
    destruct U as (_ & _ & c0 & t0 & L0). exists (se_ob (pr_slice p)), c0, t0. split; [done|].
    destruct (kp_lives _ _ K _ _ _ _ L0) as (t1 & L1).
    pose proof (io_wf _ _ _ (so_index _ _ _ _ S1)) as W.
    rewrite (lives_unique _ _ _ _ _ _ _ _ W L L1) in L.
    by destruct (lives_fun _ _ _ _ _ _ _ _ L L1) as (_ & <- & _). }
  destruct IH as (ix' & ext' & fin & fin' & rest & ch & -> & -> & F1 & F2 & F3 & K2 & O2 & S2 & He & H).
  exists ix', ext', (p :: fin), (p' :: fin'), rest, ch.
  rewrite !fmap_cons in *. split_and!; try done.
  - unfold s2, upd_op, set_op, set_index, op_set_update. simpl. by rewrite <- app_assoc.
  - by rewrite F1.
  - by rewrite F2.
  - rewrite F3. simpl. rewrite Hsn. rewrite (seqZ_cons (w_sn (ix_world (os_index s)) + 1)) by lia.
    do 2 f_equal; lia.
  - by etransitivity.
  - eapply overlaid_cons; [|exact O|exact O2]. rewrite fmap_app in Ht0. change (?x :: ?a ++ ?b) with ((x :: a) ++ b) in Ht0.
    by apply StronglySorted_app_1_l in Ht0.
  - destruct r as [err|]; [done|]. destruct H as [-> Hw]. split; [done|].
    rewrite Hw. simpl. rewrite Hsn. lia.
Qed.

Lemma store_ok_drops base ext (l : list OBSliceEntry) R ix :
  store_ok base ext (l ++ R) ix → store_ok base ext R ix.
Proof using. induction l as [|x l IH]; [done|]. intros H. by apply IH, (store_ok_drop _ _ x). Qed.

(** The slices instead of their whole spaces. *)
Lemma store_ok_take_all base ext l R ix :
  Forall (λ sl, slen sl <= sp_size (se_space sl)) (pr_slice <$> l) →
  store_ok base ext (spaces_of l ++ R) ix → store_ok base ext ((pr_slice <$> l) ++ R) ix.
Proof using.
  revert R. induction l as [|p l IH]; intros R Hf S; [done|].
  rewrite fmap_cons in Hf. apply Forall_cons in Hf as [Hp Hf].
  apply (store_ok_take _ _ (pr_slice p)) in S; [|done].
  assert (S' : store_ok base ext (spaces_of l ++ (pr_slice p :: R)) ix).
  { eapply store_ok_perm; [|exact S]. by rewrite <- Permutation_middle. }
  apply (IH (pr_slice p :: R) Hf) in S'. eapply store_ok_perm; [|exact S'].
  by rewrite <- Permutation_middle.
Qed.

(** ** [set_data_version] *)
Definition version_moved s s' : Prop :=
  let o := os_op s in
  os_version s' = (if negb (op_log_replica o) then os_version s
                   else if op_data_version o =? 0 then u64 (os_version s + 1)
                   else os_version s `max` op_data_version o) ∧
  op_data_version (os_op s') =
    (if op_log_replica o && (op_data_version o =? 0) then os_version s' else op_data_version o) ∧
  s' = mkState (op_set_data_version (op_data_version (os_op s')) o) (os_index s) (os_version s')
         (os_callbacks s) (os_writes s) (os_reads s) (os_slice_log s) (os_replica_log s).
Lemma set_data_version_run s : ∃ s', set_data_version s = Ret (inr tt) s' ∧ version_moved s s'.
Proof using.
  unfold set_data_version, oget, omod, version_moved. unfold mbind, OM_bind, mret, OM_ret.
  destruct s as [[] ? v ? ? ? ? ?]. simpl. destruct op_log_replica; simpl; [|by eexists].
  destruct (Z.eqb_spec op_data_version 0); simpl; [by eexists|].
  destruct (Z.leb_spec op_data_version v); (eexists; split; [done|]; simpl; split_and!; [lia|done|done]).
Qed.

(** ** [fs_write_finish] *)
Lemma free_slice_array_run base ext R s :
  store_ok base ext R (os_index s) → (∀ id, occ id (pr_slice <$> op_sarray (os_op s)) <= ext id) →
  ∃ ix', free_slice_array s = Ret (inr tt)
      (upd_op (λ o, op_set_update (op_sn o) (op_space_changed o) (op_sarray_alloc o) [] o) (set_index ix' s)) ∧
    kept (os_index s) ix' ∧ same_maps (os_index s) ix' ∧
    store_ok base (λ id, ext id - occ id (pr_slice <$> op_sarray (os_op s))) R ix'.
Proof using UniqSkiplistSpec0.
  intros S Hx. destruct (free_pairs_run base ext R _ s S Hx) as (ix' & E & H). exists ix'.
  split; [|done]. unfold free_slice_array. rewrite ofield_run. by rewrite (obind_ret _ _ _ _ _ E).
Qed.

(** What a finished write leaves. With [result] 0 all slices are in the index, which still
    counts the references of the array; otherwise those that were entered before the error
    stay, and the array is empty. *)
Definition write_finish_outcome base k (ext0 : Z → Z) R s s' : Prop :=
  let slices := pr_slice <$> op_sarray (os_op s) in
  kept (os_index s) (os_index s') ∧ os_writes s' = os_writes s ∧ os_reads s' = os_reads s ∧
  os_callbacks s' = os_callbacks s ∧
  os_slice_log s' = os_slice_log s ∧ os_replica_log s' = os_replica_log s ∧
  op_bs_key (os_op s') = op_bs_key (os_op s) ∧
  ∃ ext', (∀ id, ext0 id <= ext' id) ∧ store_ok base ext' R (os_index s') ∧
    if decide (op_result (os_op s') = 0) then
      op_result (os_op s) = 0 ∧ overlaid_all (os_index s) (os_index s') k slices ∧
      pr_slice <$> op_sarray (os_op s') = slices ∧
      pr_sn <$> op_sarray (os_op s') = seqZ (w_sn (ix_world (os_index s)) + 1) (Z.of_nat (length slices)) ∧
      (∀ id, ext0 id + occ id slices <= ext' id) ∧
      ∃ s1, version_moved s1 s' ∧ os_version s1 = os_version s ∧
        op_data_version (os_op s1) = op_data_version (os_op s) ∧
        op_log_replica (os_op s1) = op_log_replica (os_op s)
    else
      op_sarray (os_op s') = [] ∧ os_version s' = os_version s ∧
      ∃ fin rest, slices = fin ++ rest ∧ overlaid_all (os_index s) (os_index s') k fin ∧
        (op_result (os_op s) ≠ 0 → fin = []).

Lemma fs_write_finish_run base ext0 ext R s k ty o e :
  store_ok base ext (spaces_of (op_sarray (os_op s)) ++ R) (os_index s) →
  reserved k ty o e ext0 ext (os_index s) (pr_slice <$> op_sarray (os_op s)) →
  (∀ id, 0 <= ext0 id) →
  match fs_write_finish s with
  | Crash => False
  | Hang => op_result (os_op s) = 0 ∧ is_reclaim (os_op s) = false ∧
      ∃ p c t, lives (os_index s) p k c t ∧ 0 < c
  | Ret r s' => r = inr tt ∧ write_finish_outcome base k ext0 R s s'
  end.
Proof using UniqSkiplistSpec0.
  intros S Hr H0. apply (store_ok_take_all _ _ _ _ _ (rs_fits _ _ _ _ _ _ _ _ Hr)) in S.
  unfold fs_write_finish. rewrite ofield_run. change (id (os_op s)) with (os_op s).
  assert (Hpos : Forall (λ sl, 0 < ext (se_id sl)) (pr_slice <$> op_sarray (os_op s))).
  { apply Forall_forall. intros sl Hsl. pose proof (rs_ext _ _ _ _ _ _ _ _ Hr (se_id sl)).
    specialize (H0 (se_id sl)). pose proof (occ_elem _ _ Hsl). lia. }
  destruct (Z.eqb_spec (op_result (os_op s)) 0) as [Hz|Hz]; cycle 1.
  { rewrite (obind_ret _ _ s tt s) by done. rewrite ofield_run.
    change (op_result (id (os_op s))) with (op_result (os_op s)). rewrite (proj2 (Z.eqb_neq _ _) Hz).
    destruct (free_slice_array_run base ext R s) as (ix' & E & K & M & S').
    { by eapply store_ok_drops. }
    { intros id. pose proof (rs_ext _ _ _ _ _ _ _ _ Hr id). specialize (H0 id). lia. }
    rewrite E. split; [done|]. split_and!; try done. eexists. split; [|split; [exact S'|]].
    - intros id. simpl. pose proof (rs_ext _ _ _ _ _ _ _ _ Hr id). lia.
    - simpl. rewrite decide_False by done. split_and!; [done|done|]. exists [], (pr_slice <$> op_sarray (os_op s)).
      split_and!; [done|by apply overlaid_nil|done]. }
  pose proof (add_slices_run base ext k [] (op_sarray (os_op s)) R s S (tiles_sorted _ _ _ (rs_tiles _ _ _ _ _ _ _ _ Hr))
    (rs_usable _ _ _ _ _ _ _ _ Hr) Hpos eq_refl) as H.
  destruct (add_slices_to_index [] (op_sarray (os_op s)) s) as [| |r s1] eqn:E; [done|..].
  { unfold mbind at 1, OM_bind at 1. unfold mbind at 1, OM_bind at 1, otry. by rewrite E. }
  destruct H as (ix' & ext' & fin & fin' & rest & ch & Hl & Hs1 & F1 & F2 & F3 & K & O & S' & He & H).
  assert (Hsl : pr_slice <$> op_sarray (os_op s1) = pr_slice <$> op_sarray (os_op s)).
  { rewrite Hs1, Hl. simpl. by rewrite !fmap_app, F1. }
  assert (Hext : ∀ id, ext0 id + occ id (pr_slice <$> op_sarray (os_op s)) <= ext' id).
  { intros id. pose proof (rs_ext _ _ _ _ _ _ _ _ Hr id). specialize (He id). lia. }
  destruct r as [err|[]].
  - destruct H as [-> Hne].
    set (s2 := upd_op (λ o, op_set_io (op_counter o) (cast16 ENOMEM) (op_done_bytes o) o) s1).
    rewrite (obind_ret _ _ s tt s2) by (by rewrite (otry_run _ _ _ _ _ E)).
    rewrite ofield_run. change (op_result (id (os_op s2)) =? 0) with false. cbn iota.
    destruct (free_slice_array_run base ext' R s2) as (ix2 & E2 & K2 & M2 & S2).
    { apply (store_ok_drops _ _ (pr_slice <$> rest)). change (os_index s2) with (os_index s1). by rewrite Hs1. }
    { intros id. change (op_sarray (os_op s2)) with (op_sarray (os_op s1)). rewrite Hsl.
      specialize (Hext id). specialize (H0 id). lia. }
    change (op_sarray (os_op s2)) with (op_sarray (os_op s1)) in S2. rewrite Hsl in S2.
    rewrite E2. split; [done|]. unfold s2 in *. rewrite Hs1 in *. simpl in *.
    split_and!; try done; [by etransitivity|]. eexists. split; [|split; [exact S2|]].
    + intros id. specialize (Hext id). simpl. lia.
    + rewrite decide_False by done. split_and!; [done|done|].
      exists (pr_slice <$> fin), (pr_slice <$> rest). rewrite Hl, fmap_app. split_and!; [done| |done].
      intros k' b d. rewrite (M2 k' b d). apply O.
  - destruct H as [-> Hsn]. destruct (set_data_version_run s1) as (s2 & E2 & V).
    rewrite (obind_ret _ _ s tt s2) by (by rewrite (otry_run _ _ _ _ _ E)).
    pose proof V as (V1 & V2 & V3). rewrite ofield_run.
    assert (Hres : op_result (id (os_op s2)) = 0) by (rewrite V3, Hs1; exact Hz).
    rewrite Hres. cbn [Z.eqb]. split; [done|]. rewrite app_nil_r in *. subst fin.
    assert (Hix : os_index s2 = ix') by (by rewrite V3, Hs1).
    rewrite <- Hix in K, O. rewrite <- Hix in S'.
    split_and!; [done|rewrite V3; by rewrite Hs1..|].
    exists ext'. split_and!; [|done|].
    + intros id. specialize (Hext id). pose proof (occ_nonneg id (pr_slice <$> op_sarray (os_op s))). lia.
    + rewrite decide_True by done.
      assert (Hsa : op_sarray (os_op s2) = fin') by (by rewrite V3, Hs1).
      split_and!; [done|done|by rewrite Hsa|by rewrite Hsa, length_fmap|done|].
      exists s1. rewrite Hs1. split_and!; [by rewrite <- Hs1|done..].
Qed.
End Finish.
