(* ===== verification/DataThread.v ===== *)
(** * The data threads

    [src/server/data_thread.c]: a data thread takes the operations of its data groups one
    after the other, waits for their disk I/O and logs them. The I/O threads run
    concurrently: the thread, the I/O and the notification between them are a step
    relation. Every operation has a context of its own; the model follows a thread from an
    operation to the next and asks that no I/O of an earlier one is in flight. *)
From S2P Require Import Prelude Types Skiplist ObSlices ObSlicesRun TrunkAllocator StorageAllocator.
From S2P Require Import ObIndex Binlog SliceOp.

(** The operations, with their codes. *)
Inductive DataOperation :=
  | DATA_OPERATION_NONE
  | DATA_OPERATION_SLICE_READ
  | DATA_OPERATION_SLICE_WRITE
  | DATA_OPERATION_SLICE_ALLOCATE
  | DATA_OPERATION_SLICE_DELETE
  | DATA_OPERATION_BLOCK_DELETE.
Inductive DataSource :=
  | DATA_SOURCE_MASTER_SERVICE
  | DATA_SOURCE_SLAVE_REPLICA
  | DATA_SOURCE_SLAVE_RECOVERY.
#[export] Instance DataOperation_eq_dec : EqDecision DataOperation.
Proof. solve_decision. Defined.
#[export] Instance DataSource_eq_dec : EqDecision DataSource.
Proof. solve_decision. Defined.

(** [FSDataOperation]; the context is in the state of the thread. *)
Record FSDataOperation := mkDataOp {
  do_operation : DataOperation;
  do_source : DataSource;
  do_binlog_write_done : bool;
}.
Definition is_update (op : FSDataOperation) : bool :=
  match do_operation op with
  | DATA_OPERATION_NONE | DATA_OPERATION_SLICE_READ => false
  | _ => true
  end.

(** The bytes of the trunk files: by store path, trunk and position. *)
Definition Disk : Type := Z → Z → Z → Z.
Definition in_space (sp : FSTrunkSpaceInfo) (st id pos : Z) : Prop :=
  st = sp_store sp ∧ id = ti_id (sp_id_info sp) ∧ sp_offset sp <= pos < sp_offset sp + sp_size sp.
(** What a write thread does to the disk for a request: [trunk_write_thread.c] writes the
    whole space of the slice, the data first; the bytes after them are of no account. A
    write that fails leaves any bytes in the space. *)
Definition untouched (w : WriteRequest) (d d' : Disk) : Prop :=
  ∀ st id pos, ¬ in_space (se_space (wr_slice w)) st id pos → d' st id pos = d st id pos.
Definition wrote (w : WriteRequest) (d d' : Disk) : Prop :=
  untouched w d d' ∧ ∀ i, 0 <= i < slen (wr_slice w) →
    wr_data w !! Z.to_nat i = Some (d' (sp_store (se_space (wr_slice w)))
      (ti_id (sp_id_info (se_space (wr_slice w)))) (sp_offset (se_space (wr_slice w)) + i)).

(** What a read thread reads for a slice ([trunk_read_thread.c], direct I/O): whole blocks of
    the path, from [new_offset] on; the slice starts at [offset] in the buffer. *)
Definition prepare_read_slice (block_size : Z) (sl : OBSliceEntry) : Z * Z * Z :=
  let new_offset := MEM_ALIGN_FLOOR (sp_offset (se_space sl)) block_size in
  let read_bytes := MEM_ALIGN_CEIL (slen sl) block_size in
  let offset := sp_offset (se_space sl) - new_offset in
  let read_bytes :=
    if 0 <? offset then
      if new_offset + read_bytes <? sp_offset (se_space sl) + slen sl
      then read_bytes + block_size else read_bytes
    else read_bytes in
  (new_offset, offset, read_bytes).
(** The buffer a read of the slice ends with: a failed one leaves any bytes in it. (A read
    that cannot be submitted terminates the server.) *)
Definition read_into (d : Disk) (sl : OBSliceEntry) (result : Z) (b : AlignedReadBuffer) : Prop :=
  ∃ k, 0 <= k ∧
    let '(new_offset, offset, read_bytes) := prepare_read_slice (2 ^ k) sl in
    ab_offset b = offset ∧ ab_length b = slen sl ∧ read_bytes <= Z.of_nat (length (ab_buff b)) ∧
    (result = 0 → ∀ i, 0 <= i < read_bytes → ab_buff b !! Z.to_nat i =
      Some (d (sp_store (se_space sl)) (ti_id (sp_id_info (se_space sl))) (new_offset + i))).
(** [*(iob->aligned_buffer)] is element [j] of the array. *)
Definition fill_buffer {T} (j : nat) (b : AlignedReadBuffer) : OpState T → OpState T :=
  upd_op (λ o, op_set_buffers (op_buffers_alloc o) (<[j := DataBuffer b]> (op_buffers o)) o).

(** [FSDataThreadContext], with the context of the current operation, the index and the
    disk. *)
Record Thread (T : Type) := mkThread {
  th_notify_done : bool;
  th_state : OpState T;
  th_disk : Disk;
}.
Arguments mkThread {T}.
Arguments th_notify_done {T}.
Arguments th_state {T}.
Arguments th_disk {T}.

(** Where the thread is in [deal_one_operation]: between operations; after the operation
    function returned [result] but before it is stored; in [DATA_THREAD_COND_WAIT]; in
    [deal_operation_finish], and there waiting for the slaves; terminated. *)
Inductive Pc :=
  | PcIdle
  | PcIssued (op : FSDataOperation) (result : Z)
  | PcWait (op : FSDataOperation)
  | PcFinish (op : FSDataOperation)
  | PcReplicate (op : FSDataOperation) (wait : bool)
  | PcTerminated.

Section Thread.
Context {T : Type} `{!UniqSkiplist OBSliceEntry T}.
Variables (now : Z) (continue_flag : bool) (discard_remain_space_size : Z).
Variables (blocked : Z → Mgr → Mgr) (retries : nat).
(** [MASTER_ELECTION_FAILOVER]. *)
Variable (failover : bool).

(** An error number, or 0. *)
Definition code {B} (r : Z + B) : Z := match r with inl e => e | inr _ => 0 end.

(** The operation function of an operation: what [deal_one_operation] calls first. *)
Definition issue (op : FSDataOperation) : OM T unit :=
  match do_operation op with
  | DATA_OPERATION_SLICE_READ => fs_slice_read
  | DATA_OPERATION_SLICE_WRITE =>
      fs_slice_write now continue_flag discard_remain_space_size blocked retries None
  | DATA_OPERATION_SLICE_ALLOCATE =>
      fs_slice_allocate now continue_flag discard_remain_space_size blocked retries
  | DATA_OPERATION_SLICE_DELETE => fs_delete_slices
  | DATA_OPERATION_BLOCK_DELETE => fs_delete_block
  | DATA_OPERATION_NONE => ofail EINVAL
  end.

(** [rw_done_callback] is [data_thread_rw_done_callback], that is [data_thread_notify]: a
    call sets [notify_done]. *)
Definition set_state (s : OpState T) (th : Thread T) : Thread T :=
  mkThread (th_notify_done th || negb (os_callbacks s =? os_callbacks (th_state th))) s (th_disk th).
Definition set_disk d (th : Thread T) : Thread T := mkThread (th_notify_done th) (th_state th) d.
Definition set_notify b (th : Thread T) : Thread T := mkThread b (th_state th) (th_disk th).

(** What becomes of [result]: [op->ctx->result] is assigned except by a write that
    succeeded; the thread waits for the I/O of a read or a write that succeeded. *)
Definition store_result (op : FSDataOperation) (result : Z) (s : OpState T) : OpState T :=
  match do_operation op with
  | DATA_OPERATION_SLICE_WRITE =>
      if result =? 0 then s
      else upd_op (λ o, op_set_io (op_counter o) (cast16 result) (op_done_bytes o) o) s
  | _ => upd_op (λ o, op_set_io (op_counter o) (cast16 result) (op_done_bytes o) o) s
  end.
Definition waits (op : FSDataOperation) (result : Z) : bool :=
  match do_operation op with
  | DATA_OPERATION_SLICE_READ | DATA_OPERATION_SLICE_WRITE => result =? 0
  | _ => false
  end.

(** After the wait. *)
Definition after_wait (op : FSDataOperation) : OM T unit :=
  match do_operation op with
  | DATA_OPERATION_SLICE_WRITE => fs_write_finish
  | _ => mret tt
  end.

(** [log_data_update]. *)
Definition log_data_update (op : FSDataOperation) : OM T FSDataOperation :=
  if do_binlog_write_done op then mret op else
  otry (match do_operation op with
        | DATA_OPERATION_SLICE_WRITE => fs_log_slice_write now
        | DATA_OPERATION_SLICE_ALLOCATE => fs_log_slice_allocate now
        | DATA_OPERATION_SLICE_DELETE => fs_log_delete_slices now
        | DATA_OPERATION_BLOCK_DELETE => fs_log_delete_block now
        | _ => ofail EINVAL
        end);;
  mret (mkDataOp (do_operation op) (do_source op) true).

(** [deal_operation_finish] up to the wait for the slaves, and after it. *)
Definition terminates (op : FSDataOperation) (s : OpState T) : bool :=
  negb (op_result (os_op s) =? 0) && is_update op && bool_decide (do_source op = DATA_SOURCE_SLAVE_REPLICA).
Definition finish_before (op : FSDataOperation) : OM T FSDataOperation :=
  o ← op_field id;
  if negb (op_result o =? 0) || negb (is_update op) then mret op else
  let op := mkDataOp (do_operation op) (do_source op) false in
  if bool_decide (do_source op = DATA_SOURCE_MASTER_SERVICE) && negb failover
  then log_data_update op else mret op.
Definition finish_after (op : FSDataOperation) : OM T unit :=
  o ← op_field id;
  if negb (op_result o =? 0) || negb (is_update op) then mret tt
  else log_data_update op;; mret tt.

Definition remove_at {B} (i : nat) (l : list B) : list B := take i l ++ drop (S i) l.
Definition set_writes ws (s : OpState T) : OpState T := mkState (os_op s) (os_index s) (os_version s)
  (os_callbacks s) ws (os_reads s) (os_slice_log s) (os_replica_log s).
Definition set_reads rs (s : OpState T) : OpState T := mkState (os_op s) (os_index s) (os_version s)
  (os_callbacks s) (os_writes s) rs (os_slice_log s) (os_replica_log s).

(** The steps of the thread, of the I/O threads and of the slaves' acknowledgement
    ([wait]: [replication_caller_push_to_slave_queues] says [TASK_STATUS_CONTINUE]). The
    server keeps running ([SF_G_CONTINUE_FLAG]). *)
Inductive step : Pc * Thread T → Pc * Thread T → Prop :=
  | step_issue op ctx th r s :
      os_writes (th_state th) = [] → os_reads (th_state th) = [] →
      issue op (set_op ctx (th_state th)) = Ret r s →
      step (PcIdle, th) (PcIssued op (code r), set_state s th)
  | step_store op result th :
      step (PcIssued op result, th)
        (if waits op result then PcWait op else PcFinish op,
         set_state (store_result op result (th_state th)) th)
  | step_write_done pc th i w result s d :
      os_writes (th_state th) !! i = Some w → 0 <= result < 2 ^ 15 →
      (if result =? 0 then wrote w (th_disk th) d else untouched w (th_disk th) d) →
      slice_write_done (wr_slice w) result (set_writes (remove_at i (os_writes (th_state th))) (th_state th))
        = Ret (inr tt) s →
      step (pc, th) (pc, set_disk d (set_state s th))
  | step_read_done pc th i j sl b result s :
      os_reads (th_state th) !! i = Some sl → 0 <= result < 2 ^ 15 →
      op_buffers (os_op (th_state th)) !! j = Some (FileBuffer sl) →
      read_into (th_disk th) sl result b →
      do_read_done sl result
        (fill_buffer j b (set_reads (remove_at i (os_reads (th_state th))) (th_state th)))
        = Ret (inr tt) s →
      step (pc, th) (pc, set_state s th)
  | step_wake op th r s :
      th_notify_done th = true → after_wait op (th_state th) = Ret r s →
      step (PcWait op, th) (PcFinish op, set_state s (set_notify false th))
  | step_finish op op' th s (wait : bool) :
      terminates op (th_state th) = false →
      finish_before op (th_state th) = Ret (inr op') s →
      (wait = true → do_source op = DATA_SOURCE_MASTER_SERVICE ∧ is_update op = true ∧
         op_result (os_op (th_state th)) = 0) →
      step (PcFinish op, th) (PcReplicate op' wait, set_state s th)
  | step_terminate op th :
      terminates op (th_state th) = true → step (PcFinish op, th) (PcTerminated, th)
  | step_slaves_done op th :
      step (PcReplicate op true, th) (PcReplicate op true, set_notify true th)
  | step_replicated op (wait : bool) th r s :
      (wait = true → th_notify_done th = true) → finish_after op (th_state th) = Ret r s →
      step (PcReplicate op wait, th)
        (PcIdle, set_state s (if wait then set_notify false th else th)).
End Thread.
