(* ===== verification/TrunkWrite.v ===== *)
(** * The trunk write threads

    [src/server/dio/trunk_write_thread.c]: a write thread takes the requests of its queue in
    the order of their versions, gathers the writes to successive spaces of a trunk into one
    [writev], creates and deletes trunk files, and notifies each request of its result. The
    file system is modelled as inodes and names; what a system call answers (an error, how
    many bytes of a [writev] were written) comes from the list [fs_answers], one answer for
    each call: a computation is [None] while the call it makes has not been answered. *)
From S2P Require Import Prelude Types Skiplist Binlog.

(** ** I/O vectors *)

(** [struct iovec]; [iov_base i] is the byte [i] places after the base address. *)
Record Iovec := mkIovec {
  iov_base : Z → Z;
  iov_len : Z;
}.
Definition iov_bytes (v : Iovec) : bytes := map (iov_base v) (seqZ 0 (iov_len v)).
Definition iovs_bytes (l : list Iovec) : bytes := concat (map iov_bytes l).
(** [iov->iov_base += n; iov->iov_len = remain]. *)
Definition iov_advance (n remain : Z) (v : Iovec) : Iovec := mkIovec (λ i, iov_base v (n + i)) remain.

(** ** The file system *)

Definition IOV_MAX : Z := 1024.
Definition EIO : Z := 5.
Definition EBADF : Z := 9.

(** An open file, and the name of a trunk file: the path, the subdirectory and the trunk. *)
Record Fd := mkFd {
  fd_inode : Z;
  fd_pos : Z;
}.
Definition FileName : Type := Z * Z * Z.

Record FileSystem := mkFs {
  fs_dirs : gset (Z * Z);
  fs_files : gmap FileName Z;
  fs_data : Z → Z → Z;
  fs_next : Z;              (** the next inode *)
  fs_answers : list Z;
}.
(** [writev] at a position of an inode. *)
Definition write_at (ino pos : Z) (bs : list Z) (d : Z → Z → Z) : Z → Z → Z := λ i p,
  if (i =? ino) && (pos <=? p) then default (d i p) (bs !! Z.to_nat (p - pos)) else d i p.

(** ** Requests *)

(** [type] with the members of the unions it selects. *)
Inductive IORequest :=
  | FS_IO_CREATE_TRUNK (space : FSTrunkSpaceInfo)
  | FS_IO_DELETE_TRUNK (space : FSTrunkSpaceInfo)
  | FS_IO_WRITE_SLICE_BY_BUFF (slice : OBSliceEntry) (buff : Z → Z)
  | FS_IO_WRITE_SLICE_BY_IOVEC (slice : OBSliceEntry) (iovs : list Iovec).

(** [TrunkWriteIOBuffer]; [ib_notify]: is there a [notify.func]? *)
Record TrunkWriteIOBuffer := mkIob {
  ib_version : Z;
  ib_request : IORequest;
  ib_notify : bool;
}.

(** [WriteFileHandle]; [fd] is [None] for [-1]. *)
Record WriteFileHandle := mkHandle {
  fh_trunk_id : Z;
  fh_offset : Z;
  fh_fd : option Fd;
}.

(** [compare_by_version]: the difference of 64-bit versions, returned as an [int]. *)
Definition compare_by_version (p1 p2 : TrunkWriteIOBuffer) : Z :=
  cast32 (ib_version p1 - ib_version p2).

(** [TrunkWriteThreadContext], the file system, the answers of the allocations, the records
    of the trunk binlog, the notifications, and whether [sf_terminate_myself] was called. *)
Record WriteCtx (T : Type) := mkCtx {
  wc_handle : WriteFileHandle;
  wc_skiplist : T;
  wc_iovec_bytes : Z;
  wc_iovec_array : list Iovec;
  wc_iobs : list TrunkWriteIOBuffer;
  wc_success : Z;
  wc_fs : FileSystem;
  wc_allocs : list bool;
  wc_binlog : list bytes;
  wc_notified : list (TrunkWriteIOBuffer * Z);
  wc_terminated : bool;
}.
Arguments mkCtx {T}.
Arguments wc_handle {T}.
Arguments wc_skiplist {T}.
Arguments wc_iovec_bytes {T}.
Arguments wc_iovec_array {T}.
Arguments wc_iobs {T}.
Arguments wc_success {T}.
Arguments wc_fs {T}.
Arguments wc_allocs {T}.
Arguments wc_binlog {T}.
Arguments wc_notified {T}.
Arguments wc_terminated {T}.

(** [None]: the system has not answered yet. *)
Definition WM (T B : Type) : Type := WriteCtx T → option (B * WriteCtx T).
#[export] Instance WM_ret T : MRet (WM T) := λ B b s, Some (b, s).
#[export] Instance WM_bind T : MBind (WM T) := λ B C k m s,
  match m s with None => None | Some (b, s') => k b s' end.

Section Thread.
Context {T : Type} `{!UniqSkiplist TrunkWriteIOBuffer T}.
(** [g_current_time] and [iob_array.alloc], that is [FC_MIN(IOV_MAX, IO_THREAD_IOB_MAX)]. *)
Variable (g_current_time : Z).
Definition IO_THREAD_IOB_MAX : Z := 256.
Definition IO_THREAD_BYTES_MAX : Z := 64 * 1024 * 1024.
Definition iob_array_alloc : Z := Z.min IOV_MAX IO_THREAD_IOB_MAX.

(** The call has not returned. *)
Definition wblock {B} : WM T B := λ _, None.
Definition wget : WM T (WriteCtx T) := λ s, Some (s, s).
Definition wmod (f : WriteCtx T → WriteCtx T) : WM T unit := λ s, Some (tt, f s).
Definition set_handle h (c : WriteCtx T) : WriteCtx T :=
  mkCtx h (wc_skiplist c) (wc_iovec_bytes c) (wc_iovec_array c) (wc_iobs c) (wc_success c)
    (wc_fs c) (wc_allocs c) (wc_binlog c) (wc_notified c) (wc_terminated c).
Definition set_skiplist t (c : WriteCtx T) : WriteCtx T :=
  mkCtx (wc_handle c) t (wc_iovec_bytes c) (wc_iovec_array c) (wc_iobs c) (wc_success c)
    (wc_fs c) (wc_allocs c) (wc_binlog c) (wc_notified c) (wc_terminated c).
Definition set_batch n iovs iobs (c : WriteCtx T) : WriteCtx T :=
  mkCtx (wc_handle c) (wc_skiplist c) n iovs iobs (wc_success c)
    (wc_fs c) (wc_allocs c) (wc_binlog c) (wc_notified c) (wc_terminated c).
Definition set_success n (c : WriteCtx T) : WriteCtx T :=
  mkCtx (wc_handle c) (wc_skiplist c) (wc_iovec_bytes c) (wc_iovec_array c) (wc_iobs c) n
    (wc_fs c) (wc_allocs c) (wc_binlog c) (wc_notified c) (wc_terminated c).
Definition set_fs fs (c : WriteCtx T) : WriteCtx T :=
  mkCtx (wc_handle c) (wc_skiplist c) (wc_iovec_bytes c) (wc_iovec_array c) (wc_iobs c)
    (wc_success c) fs (wc_allocs c) (wc_binlog c) (wc_notified c) (wc_terminated c).
Definition set_allocs l (c : WriteCtx T) : WriteCtx T :=
  mkCtx (wc_handle c) (wc_skiplist c) (wc_iovec_bytes c) (wc_iovec_array c) (wc_iobs c)
    (wc_success c) (wc_fs c) l (wc_binlog c) (wc_notified c) (wc_terminated c).
Definition add_binlog (b : list bytes) (c : WriteCtx T) : WriteCtx T :=
  mkCtx (wc_handle c) (wc_skiplist c) (wc_iovec_bytes c) (wc_iovec_array c) (wc_iobs c)
    (wc_success c) (wc_fs c) (wc_allocs c) (wc_binlog c ++ b) (wc_notified c) (wc_terminated c).
Definition add_notified l (c : WriteCtx T) : WriteCtx T :=
  mkCtx (wc_handle c) (wc_skiplist c) (wc_iovec_bytes c) (wc_iovec_array c) (wc_iobs c)
    (wc_success c) (wc_fs c) (wc_allocs c) (wc_binlog c) (wc_notified c ++ l) (wc_terminated c).
Definition set_terminated (c : WriteCtx T) : WriteCtx T :=
  mkCtx (wc_handle c) (wc_skiplist c) (wc_iovec_bytes c) (wc_iovec_array c) (wc_iobs c)
    (wc_success c) (wc_fs c) (wc_allocs c) (wc_binlog c) (wc_notified c) true.

Definition fs_upd f : WM T unit := wmod (λ c, set_fs (f (wc_fs c)) c).
Definition set_answers l (fs : FileSystem) : FileSystem :=
  mkFs (fs_dirs fs) (fs_files fs) (fs_data fs) (fs_next fs) l.
Definition set_files m (fs : FileSystem) : FileSystem :=
  mkFs (fs_dirs fs) m (fs_data fs) (fs_next fs) (fs_answers fs).
Definition set_data d (fs : FileSystem) : FileSystem :=
  mkFs (fs_dirs fs) (fs_files fs) d (fs_next fs) (fs_answers fs).
Definition new_file name (fs : FileSystem) : FileSystem :=
  mkFs (fs_dirs fs) (<[name := fs_next fs]> (fs_files fs))
    (λ i p, if i =? fs_next fs then 0 else fs_data fs i p) (fs_next fs + 1) (fs_answers fs).
Definition add_dir dir (fs : FileSystem) : FileSystem :=
  mkFs ({[ dir ]} ∪ fs_dirs fs) (fs_files fs) (fs_data fs) (fs_next fs) (fs_answers fs).

(** The system's answer to the next call: [errno], or 0 for success. *)
Definition answer : WM T Z :=
  c ← wget;
  match fs_answers (wc_fs c) with
  | [] => wblock
  | a :: l => fs_upd (set_answers l);; mret a
  end.

(** [get_trunk_filename]. *)
Definition get_trunk_filename (space : FSTrunkSpaceInfo) : FileName :=
  (sp_store space, ti_subdir (sp_id_info space), ti_id (sp_id_info space)).

(** [open(name, O_WRONLY)] and [open(name, O_WRONLY | O_CREAT)]: an error or the new
    descriptor, at position 0. *)
Definition sys_open (name : FileName) : WM T (Z + Fd) :=
  a ← answer;
  if negb (a =? 0) then mret (inl a) else
  c ← wget;
  match fs_files (wc_fs c) !! name with
  | Some ino => mret (inr (mkFd ino 0))
  | None => mret (inl ENOENT)
  end.
Definition sys_creat (name : FileName) : WM T (Z + Fd) :=
  a ← answer;
  if negb (a =? 0) then mret (inl a) else
  c ← wget;
  match fs_files (wc_fs c) !! name with
  | Some ino => mret (inr (mkFd ino 0))
  | None =>
      if bool_decide (name.1 ∈ fs_dirs (wc_fs c))
      then fs_upd (new_file name);; mret (inr (mkFd (fs_next (wc_fs c)) 0))
      else mret (inl ENOENT)
  end.
Definition sys_mkdir (dir : Z * Z) : WM T Z :=
  a ← answer;
  if negb (a =? 0) then mret a else
  c ← wget;
  if bool_decide (dir ∈ fs_dirs (wc_fs c)) then mret EEXIST
  else fs_upd (add_dir dir);; mret 0.
Definition sys_unlink (name : FileName) : WM T Z :=
  a ← answer;
  if negb (a =? 0) then mret a else
  c ← wget;
  match fs_files (wc_fs c) !! name with
  | Some _ => fs_upd (λ fs, set_files (delete name (fs_files fs)) fs);; mret 0
  | None => mret ENOENT
  end.

(** ** The file handle *)

(** [clear_write_fd]. *)
Definition clear_write_fd : WM T unit :=
  wmod (λ c, match fh_fd (wc_handle c) with
             | Some _ => set_handle (mkHandle 0 (fh_offset (wc_handle c)) None) c
             | None => c
             end).

(** [get_write_fd]; the descriptor is the one of the handle, in both cases. *)
Definition get_write_fd (space : FSTrunkSpaceInfo) : WM T Z :=
  c ← wget;
  if ti_id (sp_id_info space) =? fh_trunk_id (wc_handle c) then mret 0 else
  r ← sys_open (get_trunk_filename space);
  match r with
  | inl e => mret e
  | inr fd => wmod (set_handle (mkHandle (ti_id (sp_id_info space)) 0 (Some fd)));; mret 0
  end.

(** ** Trunk files *)

(** [do_create_trunk]. The lengths of the files are not modelled: [fc_fallocate] of
    libfastcommon succeeds or not. *)
Definition write_trunk_binlog (op_type : Z) (space : FSTrunkSpaceInfo) : WM T Z :=
  c ← wget;
  let '(ok, allocs) := match wc_allocs c with [] => (true, []) | b :: l => (b, l) end in
  wmod (set_allocs allocs);;
  match trunk_binlog_write g_current_time op_type (sp_store space) (sp_id_info space) (sp_size space) ok with
  | inl e => mret e
  | inr wb => wmod (add_binlog [wb]);; mret 0
  end.
Definition do_create_trunk (space : FSTrunkSpaceInfo) : WM T Z :=
  let name := get_trunk_filename space in
  r ← sys_creat name;
  r ← match r with
      | inl e =>
          if e =? ENOENT then
            m ← sys_mkdir name.1;
            if negb (m =? 0) then mret (inl m) else sys_creat name
          else mret (inl e)
      | inr fd => mret (inr fd)
      end;
  match r with
  | inl e => mret e
  | inr _ =>
      a ← answer;
      if a =? 0 then write_trunk_binlog FS_IO_TYPE_CREATE_TRUNK space else mret a
  end.
(** [do_delete_trunk]. *)
Definition do_delete_trunk (space : FSTrunkSpaceInfo) : WM T Z :=
  r ← sys_unlink (get_trunk_filename space);
  if r =? 0 then write_trunk_binlog FS_IO_TYPE_DELETE_TRUNK space else mret r.

(** ** Writing *)

(** The inner loop of [write_iovec]: the vectors left after [write_bytes] bytes. *)
Fixpoint skip_iovecs (write_bytes iov_sum : Z) (iovs : list Iovec) : list Iovec :=
  match iovs with
  | [] => []
  | iov :: iovs' =>
      let iov_sum := iov_sum + iov_len iov in
      let iov_remain := iov_sum - write_bytes in
      if iov_remain =? 0 then iovs'
      else if 0 <? iov_remain then iov_advance (iov_len iov - iov_remain) iov_remain iov :: iovs'
      else skip_iovecs write_bytes iov_sum iovs'
  end.
(** [write_iovec]: the answer to [writev] is minus the error number, or how many bytes the
    system is ready to write. *)
Fixpoint write_loop (answers : list Z) (fd : Fd) (data : Z → Z → Z) (iovs : list Iovec)
    (remain_bytes : Z) : option (Z * Z * Fd * (Z → Z → Z) * list Z) :=
  match iovs with
  | [] => Some (0, remain_bytes, fd, data, answers)
  | _ =>
      match answers with
      | [] => None
      | a :: answers =>
          if IOV_MAX <? Z.of_nat (length iovs) then Some (EINVAL, remain_bytes, fd, data, answers)
          else if a <? 0 then
            if - a =? EINTR then write_loop answers fd data iovs remain_bytes
            else Some (- a, remain_bytes, fd, data, answers)
          else
            let write_bytes := Z.min a (sumZ iov_len iovs) in
            let data := write_at (fd_inode fd) (fd_pos fd)
                          (take (Z.to_nat write_bytes) (iovs_bytes iovs)) data in
            let fd := mkFd (fd_inode fd) (fd_pos fd + write_bytes) in
            let remain_bytes := remain_bytes - write_bytes in
            if remain_bytes =? 0 then Some (0, remain_bytes, fd, data, answers)
            else write_loop answers fd data (skip_iovecs write_bytes 0 iovs) remain_bytes
      end
  end.
Definition write_iovec (iovs : list Iovec) (remain_bytes : Z) : WM T (Z * Z) :=
  c ← wget;
  match fh_fd (wc_handle c) with
  | None => a ← answer; mret (EBADF, remain_bytes)
  | Some fd =>
      match write_loop (fs_answers (wc_fs c)) fd (fs_data (wc_fs c)) iovs remain_bytes with
      | None => wblock
      | Some (r, remain_bytes, fd, data, answers) =>
          wmod (set_fs (set_answers answers (set_data data (wc_fs c))));;
          wmod (set_handle (mkHandle (fh_trunk_id (wc_handle c)) (fh_offset (wc_handle c)) (Some fd)));;
          mret (r, remain_bytes)
      end
  end.

(** [do_write_slices]. *)
Fixpoint write_chunks (fuel : nat) (iovecs : list Iovec) (remain_bytes : Z) : WM T (Z * Z) :=
  match fuel, iovecs with
  | S fuel, _ :: _ =>
      let iovcnt := Z.to_nat (if Z.of_nat (length iovecs) <? IOV_MAX
                              then Z.of_nat (length iovecs) else IOV_MAX) in
      r ← write_iovec (take iovcnt iovecs) remain_bytes;
      let '(result, remain_bytes) := r in
      if negb (result =? 0) then mret (result, remain_bytes)
      else write_chunks fuel (drop iovcnt iovecs) remain_bytes
  | _, _ => mret (0, remain_bytes)
  end.
Definition slice_of (iob : TrunkWriteIOBuffer) : option OBSliceEntry :=
  match ib_request iob with
  | FS_IO_WRITE_SLICE_BY_BUFF slice _ | FS_IO_WRITE_SLICE_BY_IOVEC slice _ => Some slice
  | _ => None
  end.
Definition set_offset off (c : WriteCtx T) : WriteCtx T :=
  set_handle (mkHandle (fh_trunk_id (wc_handle c)) off (fh_fd (wc_handle c))) c.
(** [lseek(fd, offset, SEEK_SET)]. *)
Definition sys_lseek (offset : Z) : WM T Z :=
  a ← answer;
  if negb (a =? 0) then mret a else
  c ← wget;
  match fh_fd (wc_handle c) with
  | None => mret EBADF
  | Some fd =>
      wmod (set_handle (mkHandle (fh_trunk_id (wc_handle c)) (fh_offset (wc_handle c))
                          (Some (mkFd (fd_inode fd) offset))));; mret 0
  end.
Definition do_write_slices : WM T Z :=
  c ← wget;
  match head (wc_iobs c) ≫= slice_of with
  | None => wblock       (* [batch_write] is only called with a write in the array *)
  | Some first =>
      let offset := sp_offset (se_space first) in
      result ← get_write_fd (se_space first);
      if negb (result =? 0) then wmod (set_success 0);; mret result else
      h ← wget;
      result ← if negb (fh_offset (wc_handle h) =? offset) then sys_lseek offset else mret 0;
      if negb (result =? 0) then clear_write_fd;; wmod (set_success 0);; mret result else
      r ← if Z.of_nat (length (wc_iovec_array c)) <=? IOV_MAX
          then write_iovec (wc_iovec_array c) (wc_iovec_bytes c)
          else write_chunks (length (wc_iovec_array c)) (wc_iovec_array c) (wc_iovec_bytes c);
      let '(result, _) := r in
      if negb (result =? 0) then
        clear_write_fd;; wmod (set_offset (-1));; wmod (set_success 0);; mret result
      else
        wmod (set_success (Z.of_nat (length (wc_iobs c))));;
        wmod (set_offset (offset + wc_iovec_bytes c));;
        mret 0
  end.

(** [iob->notify.func(iob, result)], if there is one. *)
Definition notify (result : Z) (iob : TrunkWriteIOBuffer) : WM T unit :=
  if ib_notify iob then wmod (add_notified [(iob, result)]) else mret tt.
Fixpoint notify_all (result : Z) (iobs : list TrunkWriteIOBuffer) : WM T unit :=
  match iobs with
  | [] => mret tt
  | iob :: iobs => notify result iob;; notify_all result iobs
  end.
(** [batch_write]. *)
Definition batch_write : WM T Z :=
  result ← do_write_slices;
  c ← wget;
  let success := Z.to_nat (wc_success c) in
  (if 0 <? wc_success c then notify_all 0 (take success (wc_iobs c)) else mret tt);;
  (if negb (result =? 0)
   then notify_all result (if 0 <? wc_success c then drop success (wc_iobs c) else wc_iobs c)
   else mret tt);;
  wmod (set_batch 0 [] []);;
  mret result.

(** ** The queue *)

(** [pop_to_request_skiplist]; [popped] is what [fc_queue_pop_all] returned. *)
Fixpoint insert_requests (popped : list TrunkWriteIOBuffer) (count : Z) : WM T Z :=
  match popped with
  | [] => mret count
  | iob :: popped =>
      c ← wget;
      let '(result, t) := uniq_skiplist_insert (wc_skiplist c) iob in
      wmod (set_skiplist t);;
      if negb (result =? 0) then wmod set_terminated;; mret (-1)
      else insert_requests popped (count + 1)
  end.
Definition pop_to_request_skiplist (popped : list TrunkWriteIOBuffer) : WM T Z :=
  insert_requests popped 0.

(** [IOB_IS_SUCCESSIVE]. *)
Definition IOB_IS_SUCCESSIVE (last current : OBSliceEntry) : bool :=
  (ti_id (sp_id_info (se_space current)) =? ti_id (sp_id_info (se_space last))) &&
  (sp_offset (se_space last) + sp_size (se_space last) =? sp_offset (se_space current)).

(** [fc_check_realloc_iovec_array]. *)
Definition realloc_iovec_array : WM T Z :=
  c ← wget;
  match wc_allocs c with
  | [] => mret 0
  | ok :: allocs => wmod (set_allocs allocs);; mret (if ok then 0 else ENOMEM)
  end.
(** [(dest - 1)->iov_len += padding]. *)
Definition pad_last (padding : Z) (iovs : list Iovec) : list Iovec :=
  match last iovs with
  | None => iovs
  | Some v => removelast iovs ++ [mkIovec (iov_base v) (iov_len v + padding)]
  end.
(** The vectors of a request are appended to the array. *)
Definition append_iovecs (req : IORequest) (size : Z) (iovecs : list Iovec) : list Iovec :=
  match req with
  | FS_IO_WRITE_SLICE_BY_BUFF _ buff => iovecs ++ [mkIovec buff size]
  | FS_IO_WRITE_SLICE_BY_IOVEC _ [v] => iovecs ++ [mkIovec (iov_base v) size]
  | FS_IO_WRITE_SLICE_BY_IOVEC _ iovs =>
      let padding := size - sumZ iov_len iovs in
      if 0 <? padding then pad_last padding (iovecs ++ iovs) else iovecs ++ iovs
  | _ => iovecs
  end.

(** One turn of the loop of [deal_request_skiplist] for the request [iob]: a trunk is
    created or deleted, or a write is put into the batch. [None] for the [return] when there
    is no memory; [io_count] else. *)
Definition deal_trunk (iob : TrunkWriteIOBuffer) (m : WM T Z) (io_count : Z) : WM T (option Z) :=
  c ← wget;
  io_count ← (match wc_iovec_array c with
              | [] => mret io_count
              | _ => batch_write;; mret (io_count + 1)
              end : WM T Z);
  result ← m;
  notify result iob;;
  mret (Some (io_count + 1)).
(** Has the batch to be written before [slice] is added? *)
Definition batch_is_full (c : WriteCtx T) (slice : OBSliceEntry) : bool :=
  match last (wc_iobs c) ≫= slice_of with
  | None => false
  | Some l =>
      negb (IOB_IS_SUCCESSIVE l slice
            && (Z.of_nat (length (wc_iobs c)) <? iob_array_alloc)
            && (Z.of_nat (length (wc_iovec_array c)) <? IOV_MAX)
            && (wc_iovec_bytes c <? IO_THREAD_BYTES_MAX))
  end.
Definition deal_slice (iob : TrunkWriteIOBuffer) (slice : OBSliceEntry) (io_count : Z)
    : WM T (option Z) :=
  c ← wget;
  io_count ← (if batch_is_full c slice then batch_write;; mret (io_count + 1) else mret io_count);
  result ← realloc_iovec_array;
  if negb (result =? 0) then mret None else
  let size := sp_size (se_space slice) in
  wmod (λ c, set_batch (wc_iovec_bytes c + size)
                (append_iovecs (ib_request iob) size (wc_iovec_array c))
                (wc_iobs c ++ [iob]) c);;
  mret (Some io_count).
Definition deal_request (iob : TrunkWriteIOBuffer) (io_count : Z) : WM T (option Z) :=
  match ib_request iob with
  | FS_IO_CREATE_TRUNK space => deal_trunk iob (do_create_trunk space) io_count
  | FS_IO_DELETE_TRUNK space => deal_trunk iob (do_delete_trunk space) io_count
  | FS_IO_WRITE_SLICE_BY_BUFF slice _ | FS_IO_WRITE_SLICE_BY_IOVEC slice _ =>
      deal_slice iob slice io_count
  end.
(** [deal_request_skiplist]; the fuel is the number of requests. *)
Fixpoint deal_requests (fuel : nat) (io_count : Z) : WM T unit :=
  c ← wget;
  match sl_level0 (wc_skiplist c) with
  | [] =>
      match wc_iovec_array c with
      | [] => mret tt
      | _ => if io_count =? 0 then batch_write;; mret tt else mret tt
      end
  | iob :: _ =>
      match fuel with
      | O => wblock
      | S fuel =>
          r ← deal_request iob io_count;
          match r with
          | None => mret tt
          | Some io_count =>
              c ← wget;
              let '(result, t) := uniq_skiplist_delete (wc_skiplist c) iob in
              wmod (set_skiplist t);;
              if negb (result =? 0) then wmod set_terminated
              else deal_requests fuel io_count
          end
      end
  end.
Definition deal_request_skiplist : WM T unit :=
  c ← wget; deal_requests (length (sl_level0 (wc_skiplist c))) 0.

(** One turn of [trunk_write_thread_func]. *)
Definition write_thread_turn (popped : list TrunkWriteIOBuffer) : WM T unit :=
  count ← pop_to_request_skiplist popped;
  if count <? 0 then mret tt else
  if count =? 0 then
    c ← wget;
    match wc_iovec_array c with [] => mret tt | _ => batch_write;; mret tt end
  else deal_request_skiplist.
End Thread.
