(* ===== verification/TrunkWriteSpec.v ===== *)
(** * [write_iovec]

    The loop around [writev] writes the bytes of the vectors one after the other, however
    many bytes each call takes, and whatever interrupts it. *)
From S2P Require Import Prelude Types Skiplist ObSlices ObSlicesRun TrunkAllocator StorageAllocator ObIndex Binlog SliceOp DataThread TrunkWrite.

(** ** Vectors and their bytes *)
Lemma iov_bytes_length v : Z.of_nat (length (iov_bytes v)) = Z.max 0 (iov_len v).
Proof. unfold iov_bytes. rewrite length_map, length_seqZ. lia. Qed.
Lemma iovs_bytes_cons v l : iovs_bytes (v :: l) = iov_bytes v ++ iovs_bytes l.
Proof. done. Qed.
Lemma iovs_bytes_app l k : iovs_bytes (l ++ k) = iovs_bytes l ++ iovs_bytes k.
Proof. unfold iovs_bytes. by rewrite map_app, concat_app. Qed.
Definition vectors (l : list Iovec) : Prop := Forall (λ v, 0 < iov_len v) l.
Lemma iovs_bytes_length l : vectors l → Z.of_nat (length (iovs_bytes l)) = sumZ iov_len l.
Proof.
  induction 1 as [|v l Hv Hl IH]; [done|]. rewrite iovs_bytes_cons, length_app, sumZ_cons.
  rewrite Nat2Z.inj_add, IH, iov_bytes_length. lia.
Qed.
Lemma vectors_nonneg l : vectors l → 0 <= sumZ iov_len l.
Proof. intros H. rewrite <- (iovs_bytes_length _ H). lia. Qed.
Lemma vectors_pos l : vectors l → l ≠ [] → 0 < sumZ iov_len l.
Proof.
  intros H Hne. destruct H as [|v l Hv Hl]; [done|]. pose proof (vectors_nonneg l Hl).
  rewrite sumZ_cons. lia.
Qed.

Lemma advance_bytes n r v :
  0 <= n → 0 < r → iov_len v = n + r → iov_bytes (iov_advance n r v) = drop (Z.to_nat n) (iov_bytes v).
Proof.
  intros Hn Hr Hl. unfold iov_bytes, iov_advance; simpl. rewrite Hl, seqZ_app by lia.
  rewrite map_app, drop_app_length' by (rewrite length_map, length_seqZ; done).
  replace (0 + n) with (n + 0) by lia. rewrite <- (fmap_add_seqZ n 0 r).
  change (map ?f ?l) with (f <$> l). by rewrite <- list_fmap_compose.
Qed.

(** The vectors left are those of the bytes left. *)
Lemma skip_iovecs_run n s l :
  vectors l → s <= n → n - s <= sumZ iov_len l →
  vectors (skip_iovecs n s l) ∧ (length (skip_iovecs n s l) <= length l)%nat ∧
  sumZ iov_len (skip_iovecs n s l) = sumZ iov_len l - (n - s) ∧
  iovs_bytes (skip_iovecs n s l) = drop (Z.to_nat (n - s)) (iovs_bytes l).
Proof.
  intros H. revert s. induction H as [|v l Hv Hl IH]; intros s Hs Hn; [|].
  { change (sumZ iov_len []) with 0 in *. replace (n - s) with 0 by lia.
    by split_and!; [constructor|..]. }
  rewrite !sumZ_cons in *. cbn [skip_iovecs]. rewrite iovs_bytes_cons.
  pose proof (iov_bytes_length v) as Lv.
  destruct (Z.eqb_spec (s + iov_len v - n) 0) as [E|E].
  { split_and!; [done|simpl; lia|lia|]. rewrite drop_app_length'; [done|lia]. }
  destruct (Z.ltb_spec 0 (s + iov_len v - n)) as [L|L].
  - split_and!; [constructor; [simpl; lia|done]|done|rewrite sumZ_cons; simpl; lia|].
    rewrite iovs_bytes_cons, advance_bytes by lia.
    rewrite drop_app_le by lia. do 2 f_equal. lia.
  - destruct (IH (s + iov_len v)) as (H1 & H2 & H3 & H4); [lia|lia|]. split_and!; [done|simpl; lia|lia|].
    rewrite H4. rewrite drop_app_ge by lia. f_equal. lia.
Qed.

(** ** Writing bytes one after the other *)
Definition same_data (d d' : Z → Z → Z) : Prop := ∀ i p, d i p = d' i p.
#[export] Instance same_data_equiv : Equivalence same_data.
Proof. split; unfold same_data; [done|by intros d d' H i p; rewrite H|]. intros d1 d2 d3 H1 H2 i p. by rewrite H1, H2. Qed.
#[export] Instance write_at_proper ino pos bs : Proper (same_data ==> same_data) (write_at ino pos bs).
Proof. intros d d' H i p. unfold write_at. by rewrite H. Qed.

Lemma write_at_nil ino pos d : same_data (write_at ino pos [] d) d.
Proof. intros i p. unfold write_at. by destruct (_ && _). Qed.
Lemma write_at_app ino pos a b d :
  same_data (write_at ino pos (a ++ b) d)
    (write_at ino (pos + Z.of_nat (length a)) b (write_at ino pos a d)).
Proof.
  intros i p. unfold write_at.
  destruct (Z.eqb_spec i ino) as [->|]; simpl; [|done].
  destruct (Z.leb_spec pos p); simpl.
  2:{ destruct (Z.leb_spec (pos + Z.of_nat (length a)) p); [lia|done]. }
  destruct (Z.leb_spec (pos + Z.of_nat (length a)) p).
  - rewrite lookup_app_r by lia.
    replace (Z.to_nat (p - pos) - length a)%nat with (Z.to_nat (p - (pos + Z.of_nat (length a)))) by lia.
    destruct (b !! _) as [x|] eqn:E; simpl; [done|].
    rewrite (lookup_ge_None_2 a) by lia. done.
  - by rewrite lookup_app_l by lia.
Qed.
Lemma write_at_in ino pos bs d p x :
  pos <= p → bs !! Z.to_nat (p - pos) = Some x → write_at ino pos bs d ino p = x.
Proof. intros H E. unfold write_at. rewrite Z.eqb_refl. destruct (Z.leb_spec pos p); [|lia]. simpl. by rewrite E. Qed.
Lemma write_at_out ino pos bs d i p :
  ¬ (i = ino ∧ pos <= p < pos + Z.of_nat (length bs)) → write_at ino pos bs d i p = d i p.
Proof.
  intros H. unfold write_at. destruct (Z.eqb_spec i ino) as [->|]; [|done].
  destruct (Z.leb_spec pos p); [|done]. simpl. rewrite (lookup_ge_None_2 bs); [done|lia].
Qed.

(** ** The loop *)

(** [k] bytes of [bs] were written at the position of the descriptor. *)
Definition written (bs : bytes) (k : Z) (fd fd' : Fd) (d d' : Z → Z → Z) : Prop :=
  fd' = mkFd (fd_inode fd) (fd_pos fd + k) ∧
  same_data d' (write_at (fd_inode fd) (fd_pos fd) (take (Z.to_nat k) bs) d).

Lemma written_nil bs fd d : written bs 0 fd fd d d.
Proof.
  split; [destruct fd; simpl; f_equal; lia|]. simpl. symmetry. apply write_at_nil.
Qed.
Lemma written_trans bs k fd fd1 fd' d d1 d' j :
  0 <= k <= Z.of_nat (length bs) → 0 <= j → written bs k fd fd1 d d1 →
  written (drop (Z.to_nat k) bs) j fd1 fd' d1 d' → written bs (k + j) fd fd' d d'.
Proof.
  intros Hk Hj [E1 D1] [E2 D2]. subst fd1 fd'. simpl in *. split; [f_equal; lia|].
  rewrite D2, D1. rewrite Z2Nat.inj_add by lia. rewrite <- (take_take_drop bs (Z.to_nat k) (Z.to_nat j)).
  rewrite write_at_app. rewrite length_take. rewrite Nat.min_l by lia.
  by rewrite Z2Nat.id by lia.
Qed.

Definition useful (a : Z) : Prop := a ≠ 0 ∧ a ≠ - EINTR.
#[export] Instance useful_dec a : Decision (useful a).
Proof. unfold useful. apply _. Defined.
(** [n] answers that are neither 0 nor an interruption. *)
Definition plenty (n : nat) (answers : list Z) : Prop := (n <= length (filter useful answers))%nat.
#[export] Instance plenty_dec n l : Decision (plenty n l).
Proof. unfold plenty. apply _. Defined.
Lemma plenty_cons n a l : plenty n (a :: l) → ¬ useful a → plenty n l.
Proof. intros H Hu. unfold plenty in *. by rewrite filter_cons_False in H. Qed.
Lemma plenty_tail n a l : plenty (S n) (a :: l) → plenty n l.
Proof.
  unfold plenty. destruct (decide (useful a)).
  - rewrite filter_cons_True by done. simpl. lia.
  - rewrite filter_cons_False by done. lia.
Qed.
Lemma plenty_le n m l : plenty m l → (n <= m)%nat → plenty n l.
Proof. unfold plenty. lia. Qed.

(** The loop ends when the system makes progress: it has written [k] bytes, all of them
    unless [writev] failed with the error the loop returns. *)
Lemma write_loop_run answers : ∀ fd d iovs remain n,
  vectors iovs → sumZ iov_len iovs <= remain → Z.of_nat (length iovs) <= IOV_MAX →
  plenty (Z.to_nat (sumZ iov_len iovs) + n) answers →
  ∃ r k fd' d' answers', write_loop answers fd d iovs remain = Some (r, remain - k, fd', d', answers') ∧
    0 <= k <= sumZ iov_len iovs ∧ written (iovs_bytes iovs) k fd fd' d d' ∧ plenty n answers' ∧
    (r = 0 ∧ k = sumZ iov_len iovs ∨ 0 < r ∧ r ≠ EINTR ∧ - r ∈ answers).
Proof.
  induction answers as [|a answers IH]; intros fd d iovs remain n Hv Hr Hlen Hp.
  { destruct iovs as [|v l].
    - exists 0, 0, fd, d, []. rewrite sumZ_nil, Z.sub_0_r. split_and!; try done; [apply written_nil|by left].
    - exfalso. pose proof (vectors_pos _ Hv) as Hpos. unfold plenty in Hp. change (length (filter useful [])) with 0%nat in Hp.
      assert (0 < sumZ iov_len (v :: l)) by (by apply Hpos). lia. }
  destruct iovs as [|v l].
  { exists 0, 0, fd, d, (a :: answers). rewrite sumZ_nil, Z.sub_0_r in *.
    split_and!; try done; [apply written_nil|by left]. }
  assert (0 < sumZ iov_len (v :: l)) as Hpos by (by apply vectors_pos).
  set (iovs := v :: l) in *. set (total := sumZ iov_len iovs) in *.
  assert (write_loop (a :: answers) fd d iovs remain =
    if IOV_MAX <? Z.of_nat (length iovs) then Some (EINVAL, remain, fd, d, answers)
    else if a <? 0 then if - a =? EINTR then write_loop answers fd d iovs remain
                        else Some (- a, remain, fd, d, answers)
    else let w := Z.min a total in
      let d1 := write_at (fd_inode fd) (fd_pos fd) (take (Z.to_nat w) (iovs_bytes iovs)) d in
      let fd1 := mkFd (fd_inode fd) (fd_pos fd + w) in
      if remain - w =? 0 then Some (0, remain - w, fd1, d1, answers)
      else write_loop answers fd1 d1 (skip_iovecs w 0 iovs) (remain - w)) as -> by done.
  destruct (Z.ltb_spec IOV_MAX (Z.of_nat (length iovs))); [lia|].
  destruct (Z.ltb_spec a 0) as [Ha|Ha].
  { destruct (Z.eqb_spec (- a) EINTR) as [He|He].
    - apply plenty_cons in Hp; [|unfold useful; lia].
      destruct (IH fd d iovs remain n Hv Hr Hlen Hp) as (r & k & fd' & d' & ans & E & Hk & Hw & Hn & Ho).
      exists r, k, fd', d', ans. split_and!; try (done || lia).
      destruct Ho as [Ho|(? & ? & Ho)]; [by left|right; split_and!; [done|done|by right]].
    - exists (- a), 0, fd, d, answers. rewrite Z.sub_0_r. split_and!; [done|lia|lia|apply written_nil| |].
      + apply plenty_tail with a, (plenty_le _ _ _ Hp). lia.
      + right. split_and!; [lia|done|]. rewrite Z.opp_involutive. by left. }
  cbv zeta. set (w := Z.min a total).
  assert (Hw0 : written (iovs_bytes iovs) w fd (mkFd (fd_inode fd) (fd_pos fd + w)) d
    (write_at (fd_inode fd) (fd_pos fd) (take (Z.to_nat w) (iovs_bytes iovs)) d)) by done.
  destruct (Z.eqb_spec (remain - w) 0) as [H0|H0].
  { eexists 0, w, _, _, answers. split_and!; [done|lia|lia|done| |left; lia].
    apply plenty_tail with a, (plenty_le _ _ _ Hp). lia. }
  destruct (skip_iovecs_run w 0 iovs Hv) as (S1 & S2 & S3 & S4); [lia|lia|]. rewrite Z.sub_0_r in *.
  edestruct (IH (mkFd (fd_inode fd) (fd_pos fd + w))
    (write_at (fd_inode fd) (fd_pos fd) (take (Z.to_nat w) (iovs_bytes iovs)) d)
    (skip_iovecs w 0 iovs) (remain - w) n) as (r & k & fd' & d' & ans & E & Hk & Hw & Hn & Ho); [done|lia|lia| |].
  { rewrite S3. destruct (decide (a = 0)) as [->|Hne].
    - replace w with 0 by lia. rewrite Z.sub_0_r. apply plenty_cons in Hp; [done|]. unfold useful. lia.
    - apply plenty_tail with a, (plenty_le _ _ _ Hp). fold total. lia. }
  exists r, (w + k), fd', d', ans. rewrite E, S4 in *. replace (remain - (w + k)) with (remain - w - k) by lia.
  split_and!; [done|lia|lia| |done|].
  - eapply written_trans; [|lia|exact Hw0|exact Hw]. rewrite iovs_bytes_length by done. fold total. lia.
  - destruct Ho as [Ho|(? & ? & Ho)]; [left; lia|right; split_and!; [done|done|by right]].
Qed.

(** C38: whatever [writev] answers, partial writes and interruptions included, [write_iovec]
    returns once the system has made progress; it then has written a prefix of the bytes of
    the vectors, in order and nowhere else, and all of them unless it returns the error
    number with which a [writev] failed. *)
Theorem write_iovec_writes answers fd d iovs :
  vectors iovs → Z.of_nat (length iovs) <= IOV_MAX →
  plenty (Z.to_nat (sumZ iov_len iovs)) answers →
  ∃ r k fd' d' answers',
    write_loop answers fd d iovs (sumZ iov_len iovs) = Some (r, sumZ iov_len iovs - k, fd', d', answers') ∧
    fd' = mkFd (fd_inode fd) (fd_pos fd + k) ∧
    (∀ p x, 0 <= p < k → iovs_bytes iovs !! Z.to_nat p = Some x → d' (fd_inode fd) (fd_pos fd + p) = x) ∧
    (∀ i p, ¬ (i = fd_inode fd ∧ fd_pos fd <= p < fd_pos fd + k) → d' i p = d i p) ∧
    (r = 0 ∧ k = sumZ iov_len iovs ∨ 0 < r ∧ r ≠ EINTR ∧ - r ∈ answers ∧ 0 <= k <= sumZ iov_len iovs).
Proof.
  intros Hv Hlen Hp.
  destruct (write_loop_run answers fd d iovs (sumZ iov_len iovs) 0 Hv) as
    (r & k & fd' & d' & ans & E & Hk & [Hf Hd] & _ & Ho); [lia|done|by rewrite Nat.add_0_r|].
  exists r, k, fd', d', ans. split_and!; [done|done| | |destruct Ho as [Ho|(?&?&?)]; [by left|right; split_and!; (done || lia)]].
  - intros p x Hpk Hx. rewrite Hd. apply write_at_in; [lia|]. rewrite lookup_take_lt by lia.
    by replace (fd_pos fd + p - fd_pos fd) with p by lia.
  - intros i p Hn. rewrite Hd. apply write_at_out. rewrite length_take.
    pose proof (iovs_bytes_length _ Hv). intros [-> ?]. apply Hn. split; [done|lia].
Qed.
Lemma write_iovec_writes_witness :
  let iovs := [mkIovec (λ i, 10 + i) 3; mkIovec (λ i, 20 + i) 2] in
  plenty (Z.to_nat (sumZ iov_len iovs)) [2; -4; 0; 2; -4; 7; 1; 1; 1] ∧
  ∃ d', write_loop [2; -4; 0; 2; -4; 7; 1; 1; 1] (mkFd 7 100) (λ _ _, 0) iovs 5
    = Some (0, 0, mkFd 7 105, d', [1; 1; 1]) ∧ map (d' 7) [99; 100; 101; 102; 103; 104; 105] = [0; 10; 11; 12; 20; 21; 0].
Proof.
  split; [by apply (bool_decide_unpack _)|].
  assert (vectors [mkIovec (λ i, 10 + i) 3; mkIovec (λ i, 20 + i) 2]) as Hv by (repeat constructor).
  destruct (write_iovec_writes [2; -4; 0; 2; -4; 7; 1; 1; 1] (mkFd 7 100) (λ _ _, 0) _ Hv)
    as (r & k & fd' & d' & ans & E & _).
  - by vm_compute.
  - by apply (bool_decide_unpack _).
  - exists d'. vm_compute in E. injection E as _ _ _ <- _. split; reflexivity.
Defined.

(** ** What a write thread does to the trunk files

    [performs iob r fs fs']: the request [iob], notified with the result [r], took the files
    from [fs] to [fs']. A batch of writes performs its requests one after the other. *)

(** ** Requests *)
Definition space_of (iob : TrunkWriteIOBuffer) : FSTrunkSpaceInfo :=
  match ib_request iob with
  | FS_IO_CREATE_TRUNK sp | FS_IO_DELETE_TRUNK sp => sp
  | FS_IO_WRITE_SLICE_BY_BUFF s _ | FS_IO_WRITE_SLICE_BY_IOVEC s _ => se_space s
  end.
Definition trunk_of (iob : TrunkWriteIOBuffer) : Z := ti_id (sp_id_info (space_of iob)).
Definition offset_of (iob : TrunkWriteIOBuffer) : Z := sp_offset (space_of iob).
Definition size_of (iob : TrunkWriteIOBuffer) : Z := sp_size (space_of iob).
Definition creates (iob : TrunkWriteIOBuffer) : Prop :=
  match ib_request iob with FS_IO_CREATE_TRUNK _ => True | _ => False end.
Definition deletes (iob : TrunkWriteIOBuffer) : Prop :=
  match ib_request iob with FS_IO_DELETE_TRUNK _ => True | _ => False end.
Definition writes (iob : TrunkWriteIOBuffer) : Prop :=
  match slice_of iob with Some _ => True | None => False end.
(** The bytes of a write: those of the vectors it adds to the batch. *)
Definition image (iob : TrunkWriteIOBuffer) : bytes :=
  iovs_bytes (append_iovecs (ib_request iob) (size_of iob) []).
(** The write as the data threads see it. *)
Definition write_request (iob : TrunkWriteIOBuffer) (s : OBSliceEntry) : WriteRequest :=
  mkWrite (ib_version iob) s (image iob).

(** The vectors of a request are within its space. *)
Definition fits (req : IORequest) (size : Z) : Prop :=
  match req with
  | FS_IO_WRITE_SLICE_BY_IOVEC _ iovs => iovs ≠ [] ∧ vectors iovs ∧ sumZ iov_len iovs <= size
  | _ => True
  end.

Lemma pad_last_snoc n l v : pad_last n (l ++ [v]) = l ++ [mkIovec (iov_base v) (iov_len v + n)].
Proof. unfold pad_last. rewrite last_snoc. by rewrite removelast_last. Qed.
Lemma append_iovecs_run req size iovecs : fits req size →
  append_iovecs req size iovecs = iovecs ++ append_iovecs req size [].
Proof.
  intros H. destruct req as [sp|sp|s b|s iovs]; simpl; rewrite ?app_nil_r; try done.
  destruct H as (Hne & _ & _). destruct iovs as [|v [|v2 l]]; [done|done|]. 
  destruct (exists_last Hne) as (l' & x & ->). simpl.
  destruct (0 <? _); [|done]. by rewrite app_assoc, !pad_last_snoc, <- app_assoc.
Qed.
Lemma padded_iovecs size l v : vectors (l ++ [v]) → sumZ iov_len (l ++ [v]) <= size →
  let vs := if 0 <? size - sumZ iov_len (l ++ [v]) then pad_last (size - sumZ iov_len (l ++ [v])) (l ++ [v])
            else l ++ [v] in
  vectors vs ∧ sumZ iov_len vs = size ∧ vs ≠ [].
Proof.
  intros H Hsum vs. subst vs. pose proof H as [Hl [Hv _]%Forall_cons]%Forall_app.
  destruct (Z.ltb_spec 0 (size - sumZ iov_len (l ++ [v]))) as [Hp|Hp].
  - rewrite pad_last_snoc. rewrite !sumZ_app, !sumZ_cons, !sumZ_nil in *. simpl in *. split_and!; [|lia|by destruct l].
    apply Forall_app. split; [done|]. apply Forall_singleton. simpl. lia.
  - split_and!; [done|lia|by destruct l].
Qed.
Lemma append_iovecs_size iob size : 0 < size → fits (ib_request iob) size → writes iob →
  let vs := append_iovecs (ib_request iob) size [] in
  vectors vs ∧ sumZ iov_len vs = size ∧ vs ≠ [].
Proof.
  intros Hs H Hw. unfold writes, slice_of in Hw.
  assert (Hone : ∀ b, vectors [mkIovec b size] ∧ sumZ iov_len [mkIovec b size] = size ∧ [mkIovec b size] ≠ []).
  { intros b. split_and!; [by apply Forall_singleton|rewrite sumZ_cons, sumZ_nil; simpl; lia|done]. }
  destruct (ib_request iob) as [sp|sp|s b|s iovs]; try done; [apply (Hone b)|].
  destruct H as (Hne & Hv & Hsum). destruct iovs as [|v [|v2 l]]; [done|apply (Hone (iov_base v))|].
  destruct (exists_last Hne) as (l' & x & E).
  assert (append_iovecs (FS_IO_WRITE_SLICE_BY_IOVEC s (v :: v2 :: l)) size [] =
    let vs := v :: v2 :: l in
    if 0 <? size - sumZ iov_len vs then pad_last (size - sumZ iov_len vs) vs else vs) as -> by done.
  rewrite E in *. by apply padded_iovecs.
Qed.

Section Performs.
(** The store path of the thread, and the subdirectory of each trunk. *)
Variables (path : Z) (subdir : Z → Z).
Implicit Types (iob q : TrunkWriteIOBuffer) (fs : FileSystem).

Record iob_ok iob : Prop := {
  io_store : sp_store (space_of iob) = path;
  io_subdir : ti_subdir (sp_id_info (space_of iob)) = subdir (trunk_of iob);
  io_trunk : 0 < trunk_of iob;
  io_offset : 0 <= offset_of iob;
  io_size : writes iob → 0 < size_of iob <= FS_FILE_BLOCK_SIZE;
  io_slice : ∀ s, slice_of iob = Some s → slen s <= size_of iob;
  io_fits : fits (ib_request iob) (size_of iob);
  io_notify : ib_notify iob = true;
}.

Lemma slice_of_space iob s : slice_of iob = Some s → space_of iob = se_space s.
Proof using. unfold slice_of, space_of. by destruct (ib_request iob); intros [= ->]. Qed.
Lemma slice_of_writes iob s : slice_of iob = Some s → writes iob.
Proof using. unfold writes. by intros ->. Qed.
Lemma writes_slice iob : writes iob → ∃ s, slice_of iob = Some s.
Proof using. unfold writes. destruct (slice_of iob) as [s|]; [by exists s|done]. Qed.
Lemma image_ok iob : iob_ok iob → writes iob →
  vectors (append_iovecs (ib_request iob) (size_of iob) []) ∧
  append_iovecs (ib_request iob) (size_of iob) [] ≠ [] ∧
  Z.of_nat (length (image iob)) = size_of iob.
Proof using.
  intros H Hw. destruct (append_iovecs_size iob (size_of iob)) as (H1 & H2 & H3); [by apply H|apply H|done|].
  split_and!; [done|done|]. unfold image. by rewrite iovs_bytes_length.
Qed.

(** ** The disk *)
Definition file_of (st id : Z) : FileName := (st, subdir id, id).
Definition disk_of fs : Disk := λ st id pos,
  match fs_files fs !! file_of st id with Some ino => fs_data fs ino pos | None => 0 end.
(** Different files are different inodes, and new ones are new. *)
Record fs_wf fs : Prop := {
  fw_inj : ∀ n1 n2 i, fs_files fs !! n1 = Some i → fs_files fs !! n2 = Some i → n1 = n2;
  fw_next : ∀ n i, fs_files fs !! n = Some i → i < fs_next fs;
}.
Definition same_fs fs fs' : Prop := fs_files fs' = fs_files fs ∧ same_data (fs_data fs') (fs_data fs).
Lemma same_fs_disk fs fs' st id pos : same_fs fs fs' → disk_of fs' st id pos = disk_of fs st id pos.
Proof using. intros [E D]. unfold disk_of. rewrite E. by destruct (_ !! _) as [i|]; [apply D|]. Qed.
#[export] Instance same_fs_equiv : Equivalence same_fs.
Proof.
  split.
  - by intros fs.
  - intros a b [E D]. by split.
  - intros a b c [E1 D1] [E2 D2]. split; [congruence|]. by rewrite D2.
Qed.

Definition other_trunk iob fs fs' : Prop :=
  (∀ st id pos, ¬ (st = path ∧ id = trunk_of iob) → disk_of fs' st id pos = disk_of fs st id pos) ∧
  (∀ st id, ¬ (st = path ∧ id = trunk_of iob) →
    fs_files fs' !! file_of st id = fs_files fs !! file_of st id).
Definition performs iob (r : Z) fs fs' : Prop :=
  match ib_request iob with
  | FS_IO_CREATE_TRUNK _ =>
      other_trunk iob fs fs' ∧ (r = 0 → is_Some (fs_files fs' !! file_of path (trunk_of iob)))
  | FS_IO_DELETE_TRUNK _ =>
      other_trunk iob fs fs' ∧ (r = 0 → fs_files fs' !! file_of path (trunk_of iob) = None)
  | FS_IO_WRITE_SLICE_BY_BUFF s _ | FS_IO_WRITE_SLICE_BY_IOVEC s _ =>
      fs_files fs' = fs_files fs ∧
      if r =? 0 then wrote (write_request iob s) (disk_of fs) (disk_of fs')
      else untouched (write_request iob s) (disk_of fs) (disk_of fs')
  end.
(** The requests notified, with their results, one after the other. *)
Inductive exec : list (TrunkWriteIOBuffer * Z) → FileSystem → FileSystem → Prop :=
  | exec_nil fs fs' : same_fs fs fs' → exec [] fs fs'
  | exec_cons iob r l fs fs1 fs' : performs iob r fs fs1 → exec l fs1 fs' → exec ((iob, r) :: l) fs fs'.

Lemma performs_write iob s r fs fs' : slice_of iob = Some s →
  performs iob r fs fs' ↔ fs_files fs' = fs_files fs ∧
      if r =? 0 then wrote (write_request iob s) (disk_of fs) (disk_of fs')
      else untouched (write_request iob s) (disk_of fs) (disk_of fs').
Proof using. unfold slice_of, performs. by destruct (ib_request iob); intros [= ->]. Qed.

Lemma performs_same_l iob r fs0 fs fs' : same_fs fs0 fs → performs iob r fs fs' → performs iob r fs0 fs'.
Proof using.
  intros S. pose proof (λ st id pos, same_fs_disk _ _ st id pos S) as D. destruct S as [E _].
  assert (Ho : other_trunk iob fs fs' → other_trunk iob fs0 fs').
  { intros [H1 H2]. split; intros; [rewrite <- D; auto|rewrite <- E; auto]. }
  assert (Hu : ∀ w, untouched w (disk_of fs) (disk_of fs') → untouched w (disk_of fs0) (disk_of fs')).
  { intros w H st id pos Hn. rewrite <- D. auto. }
  unfold performs. rewrite E. destruct (ib_request iob), (r =? 0); intros [H1 H2]; (split; [by auto|]); auto.
  all: by destruct H2; split; [apply Hu|].
Qed.
Lemma exec_same_l l fs0 fs fs' : same_fs fs0 fs → exec l fs fs' → exec l fs0 fs'.
Proof using.
  intros S H. destruct H as [fs fs' S'|iob r l fs fs1 fs' Hp He].
  - constructor. by etransitivity.
  - econstructor; [|exact He]. by eapply performs_same_l.
Qed.
Lemma exec_app l k fs fs1 fs' : exec l fs fs1 → exec k fs1 fs' → exec (l ++ k) fs fs'.
Proof using.
  induction 1 as [fs fs1 S|iob r l fs fs2 fs1 Hp He IH]; intros H; simpl; [by eapply exec_same_l|].
  econstructor; [exact Hp|by apply IH].
Qed.

(** ** Bytes written to the space of a request *)
Lemma write_performs iob s ino k r fs fs' :
  iob_ok iob → slice_of iob = Some s → fs_wf fs → fs_files fs !! file_of path (trunk_of iob) = Some ino →
  fs_files fs' = fs_files fs →
  same_data (fs_data fs') (write_at ino (offset_of iob) (take k (image iob)) (fs_data fs)) →
  (r = 0 → (length (image iob) <= k)%nat) → performs iob r fs fs'.
Proof using.
  intros Hok Hs Hwf Hf Hfs Hd Hr. pose proof (slice_of_writes _ _ Hs) as Hw.
  destruct (image_ok iob Hok Hw) as (_ & _ & Hl). pose proof (slice_of_space _ _ Hs) as Hsp.
  apply (performs_write _ s _ _ _ Hs). split; [done|].
  assert (Hu : untouched (write_request iob s) (disk_of fs) (disk_of fs')).
  { intros st id pos Hn. unfold disk_of. rewrite Hfs. destruct (fs_files fs !! file_of st id) as [i|] eqn:E; [|done].
    rewrite Hd. apply write_at_out. intros [-> Hp]. apply Hn. pose proof (fw_inj _ Hwf _ _ _ Hf E) as [= <- _ <-].
    unfold write_request; simpl. rewrite <- Hsp. rewrite length_take in Hp. unfold offset_of, size_of in *.
    unfold in_space. split_and!; [by rewrite (io_store _ Hok)|done|lia|lia]. }
  destruct (Z.eqb_spec r 0) as [->|]; [|done]. split; [done|]. intros i Hi. simpl in *.
  rewrite <- Hsp. rewrite (io_store _ Hok). unfold disk_of. rewrite Hfs. change (ti_id _) with (trunk_of iob). rewrite Hf.
  pose proof (io_slice _ Hok _ Hs). rewrite Hd. rewrite take_ge by (by apply Hr).
  destruct (lookup_lt_is_Some_2 (image iob) (Z.to_nat i)) as [x Hx]; [lia|].
  etransitivity; [exact Hx|]. f_equal. symmetry. apply write_at_in; unfold offset_of; [lia|].
  by replace (sp_offset (space_of iob) + i - sp_offset (space_of iob)) with i by lia.
Qed.

(** The requests of a batch follow each other in one trunk. *)
Inductive laid (id : Z) : Z → list TrunkWriteIOBuffer → Prop :=
  | laid_nil pos : laid id pos []
  | laid_cons pos iob l : writes iob → trunk_of iob = id → offset_of iob = pos →
      laid id (pos + size_of iob) l → laid id pos (iob :: l).
Definition images (l : list TrunkWriteIOBuffer) : bytes := concat (map image l).

Lemma batch_exec id iobs : ∀ pos ino k r fs fs',
  laid id pos iobs → Forall iob_ok iobs → fs_wf fs → fs_files fs !! file_of path id = Some ino →
  fs_files fs' = fs_files fs →
  same_data (fs_data fs') (write_at ino pos (take k (images iobs)) (fs_data fs)) →
  (r = 0 → (length (images iobs) <= k)%nat) → exec (map (λ iob, (iob, r)) iobs) fs fs'.
Proof using.
  induction iobs as [|iob l IH]; intros pos ino k r fs fs' Hl Hok Hwf Hf Hfs Hd Hr; simpl.
  { constructor. split; [done|]. rewrite Hd. change (images []) with (@nil Z). rewrite take_nil. apply write_at_nil. }
  inversion Hl as [|? ? ? Hw Ht Ho Hl']; subst. apply Forall_cons in Hok as [Hok Hoks].
  destruct (image_ok iob Hok Hw) as (_ & _ & Hn). destruct (writes_slice iob Hw) as [s Hs].
  change (images (iob :: l)) with (image iob ++ images l) in *. rewrite length_app in Hr.
  set (fs1 := set_data (write_at ino (offset_of iob) (take k (image iob)) (fs_data fs)) fs).
  apply exec_cons with fs1.
  - apply (write_performs iob s ino k r fs fs1 Hok Hs Hwf Hf); [done|done|]. intros E. specialize (Hr E). lia.
  - apply (IH (offset_of iob + size_of iob) ino (k - length (image iob))%nat); try done.
    + by destruct Hwf.
    + rewrite Hd. simpl. rewrite take_app, write_at_app. rewrite length_take.
      destruct (decide (length (image iob) <= k)%nat) as [Hk|Hk].
      * rewrite Nat.min_r by done. by rewrite Hn.
      * replace (k - length (image iob))%nat with 0%nat by lia. rewrite !take_0. by rewrite !write_at_nil.
    + intros E. specialize (Hr E). lia.
Qed.
Lemma images_length iobs : Forall iob_ok iobs → Forall writes iobs →
  Z.of_nat (length (images iobs)) = sumZ size_of iobs.
Proof using.
  intros H. induction H as [|iob l Hok Hl IH]; intros Hw; [done|]. apply Forall_cons in Hw as [Hw1 Hw].
  change (images (iob :: l)) with (image iob ++ images l). rewrite length_app, sumZ_cons, Nat2Z.inj_add, IH by done.
  destruct (image_ok iob Hok Hw1) as (_ & _ & ->). done.
Qed.
Lemma laid_writes id pos l : laid id pos l → Forall writes l.
Proof using. induction 1; by constructor. Qed.
Lemma laid_snoc id pos l iob : laid id pos l → writes iob → trunk_of iob = id →
  offset_of iob = pos + sumZ size_of l → laid id pos (l ++ [iob]).
Proof using.
  induction 1 as [pos|pos q l Hw Ht Ho Hl IH]; intros Hw' Ht' Ho'; simpl.
  - constructor; [done|done|by rewrite sumZ_nil, Z.add_0_r in Ho'|constructor].
  - constructor; [done|done|done|]. apply IH; [done|done|]. rewrite sumZ_cons in Ho'. lia.
Qed.
Lemma laid_last id pos l iob : laid id pos (l ++ [iob]) →
  trunk_of iob = id ∧ offset_of iob + size_of iob = pos + sumZ size_of (l ++ [iob]).
Proof using.
  revert pos. induction l as [|q l IH]; intros pos H; inversion H as [|? ? ? Hw Ht Ho Hl]; subst; cbn [app].
  - rewrite sumZ_cons, sumZ_nil. split; [done|lia].
  - destruct (IH _ Hl) as [H1 H2]. split; [done|]. rewrite sumZ_cons. lia.
Qed.

(** ** The link to the data threads *)

(** The buffer or the vectors of [iob] hold the data of [w]. *)
Definition pushed (w : WriteRequest) iob : Prop :=
  ib_version iob = wr_version w ∧ slice_of iob = Some (wr_slice w) ∧
  ∀ i, 0 <= i < slen (wr_slice w) → image iob !! Z.to_nat i = wr_data w !! Z.to_nat i.

Lemma performs_pushed w iob r fs fs' : pushed w iob → performs iob r fs fs' →
  if r =? 0 then wrote w (disk_of fs) (disk_of fs') else untouched w (disk_of fs) (disk_of fs').
Proof using.
  intros (Hv & Hs & Hd) [_ H]%(performs_write _ _ _ _ _ Hs). destruct (r =? 0); [|done].
  destruct H as [Hu Hw]. split; [done|]. intros i Hi. rewrite <- Hd by done. by apply Hw.
Qed.
End Performs.
