(* ===== verification/TrunkWriteThms.v ===== *)
(** * One batch

    Total correctness of the operations of a write thread: with enough answers of the system
    they return, and what they did is described by [exec]. *)
From S2P Require Import Prelude Types Skiplist ObSlices ObSlicesRun TrunkAllocator StorageAllocator ObIndex Binlog SliceOp DataThread TrunkWrite TrunkWriteSpec.

(** ** Total correctness

    [total cost m c Q]: from [c], with [cost] useful answers, [m] returns with [Q]. *)
Section Total.
Context {T : Type}.
Implicit Types (c : WriteCtx T).

Definition answers_of c : list Z := fs_answers (wc_fs c).
Definition total {B} (cost : nat) (m : WM T B) c (Q : B → WriteCtx T → Prop) : Prop :=
  ∀ n, plenty (cost + n) (answers_of c) →
    ∃ b c', m c = Some (b, c') ∧ Q b c' ∧ plenty n (answers_of c').

Lemma total_ret {B} k (b : B) c (Q : B → WriteCtx T → Prop) : Q b c → total k (mret b) c Q.
Proof using. intros H n Hp. exists b, c. split_and!; [done|done|]. apply (plenty_le _ _ _ Hp). lia. Qed.
Lemma total_bind {B C} k1 k2 (m : WM T B) (f : B → WM T C) c Q R :
  total k1 m c Q → (∀ b c', Q b c' → total k2 (f b) c' R) → total (k1 + k2) (m ≫= f) c R.
Proof using.
  intros Hm Hf n Hp. destruct (Hm (k2 + n)%nat) as (b & c1 & E & HQ & Hp1); [by rewrite Nat.add_assoc|].
  destruct (Hf b c1 HQ n Hp1) as (x & c2 & E2 & HR & Hp2). exists x, c2.
  unfold mbind, WM_bind. by rewrite E.
Qed.
Lemma total_bind0 {B C} k (m : WM T B) (f : B → WM T C) c Q R :
  total k m c Q → (∀ b c', Q b c' → total 0 (f b) c' R) → total k (m ≫= f) c R.
Proof using. intros. rewrite <- (Nat.add_0_r k). by eapply total_bind. Qed.
Lemma total_weaken {B} k k' (m : WM T B) c (Q Q' : B → WriteCtx T → Prop) :
  total k m c Q → (k <= k')%nat → (∀ b c', Q b c' → Q' b c') → total k' m c Q'.
Proof using.
  intros H Hk HQ n Hp. destruct (H n) as (b & c' & E & ? & ?); [apply (plenty_le _ _ _ Hp); lia|eauto 6].
Qed.
Lemma total_get {B} k (f : WriteCtx T → WM T B) c R : total k (f c) c R → total k (wget ≫= f) c R.
Proof using. done. Qed.
Lemma total_mod {B} k (g : WriteCtx T → WriteCtx T) (f : unit → WM T B) c R :
  answers_of (g c) = answers_of c → total k (f tt) (g c) R → total k (wmod g ≫= f) c R.
Proof using. intros E H n Hp. apply (H n). by rewrite E. Qed.
Lemma total_mod_last (g : WriteCtx T → WriteCtx T) c (Q : unit → WriteCtx T → Prop) :
  answers_of (g c) = answers_of c → Q tt (g c) → total 0 (wmod g) c Q.
Proof using. intros E H n Hp. exists tt, (g c). by rewrite E. Qed.

(** ** System calls *)
Lemma answer_run c :
  total 1 answer c (λ a c', ∃ l, c' = set_fs (set_answers l (wc_fs c)) c ∧ answers_of c = a :: l).
Proof using.
  intros n Hp. unfold answer, mbind, WM_bind, wget, answers_of in *.
  destruct (fs_answers (wc_fs c)) as [|a l] eqn:E; [by unfold plenty in Hp; simpl in Hp; lia|].
  exists a, (set_fs (set_answers l (wc_fs c)) c). split_and!; [done|by exists l|].
  simpl. by apply plenty_tail in Hp.
Qed.
Lemma answer_bind {B} k (f : Z → WM T B) c R :
  (∀ a l, answers_of c = a :: l → total k (f a) (set_fs (set_answers l (wc_fs c)) c) R) →
  total (1 + k) (answer ≫= f) c R.
Proof using.
  intros H. eapply total_bind; [apply answer_run|]. intros a c' (l & -> & E). by apply H.
Qed.

(** [write_iovec], from an open file. *)
Definition moved (fd : Fd) (k : Z) (bs : bytes) c c' : Prop := ∃ l d',
  c' = set_handle (mkHandle (fh_trunk_id (wc_handle c)) (fh_offset (wc_handle c))
                    (Some (mkFd (fd_inode fd) (fd_pos fd + k))))
         (set_fs (set_answers l (set_data d' (wc_fs c))) c) ∧
  same_data d' (write_at (fd_inode fd) (fd_pos fd) (take (Z.to_nat k) bs) (fs_data (wc_fs c))).
Lemma moved_trans fd k j bs c c1 c' : 0 <= k <= Z.of_nat (length bs) → 0 <= j →
  moved fd k bs c c1 → moved (mkFd (fd_inode fd) (fd_pos fd + k)) j (drop (Z.to_nat k) bs) c1 c' →
  moved fd (k + j) bs c c'.
Proof using.
  intros Hk Hj (l1 & d1 & E1 & D1) (l2 & d2 & E2 & D2). subst c1. simpl in *.
  destruct (written_trans bs k fd (mkFd (fd_inode fd) (fd_pos fd + k)) (mkFd (fd_inode fd) (fd_pos fd + (k + j)))
    (fs_data (wc_fs c)) d1 d2 j Hk Hj) as [_ W]; [by split| |].
  { split; [simpl; f_equal; lia|done]. }
  exists l2, d2. split; [|done]. rewrite E2. by rewrite Z.add_assoc.
Qed.

Lemma moved_0 fd bs c : fh_fd (wc_handle c) = Some fd → moved fd 0 bs c c.
Proof using.
  intros Hfd. exists (answers_of c), (fs_data (wc_fs c)). split.
  - destruct c as [[] ? ? ? ? ? [] ? ? ? ?]. simpl in *. subst. destruct fd. by rewrite Z.add_0_r.
  - symmetry. apply write_at_nil.
Qed.
Lemma write_iovec_run iovs remain fd c :
  vectors iovs → sumZ iov_len iovs <= remain → Z.of_nat (length iovs) <= IOV_MAX →
  fh_fd (wc_handle c) = Some fd →
  total (Z.to_nat (sumZ iov_len iovs)) (write_iovec iovs remain) c (λ r c', ∃ k,
    r.2 = remain - k ∧ 0 <= k <= sumZ iov_len iovs ∧ moved fd k (iovs_bytes iovs) c c' ∧
    (r.1 = 0 → k = sumZ iov_len iovs)).
Proof using.
  intros Hv Hr Hlen Hfd n Hp.
  destruct (write_loop_run (answers_of c) fd (fs_data (wc_fs c)) iovs remain n Hv Hr Hlen Hp)
    as (r & k & fd' & d' & l & E & Hk & [Hf Hd] & Hn & Ho).
  eexists (r, remain - k), _. split; [|split].
  - unfold write_iovec. unfold mbind at 1, WM_bind at 1, wget. rewrite Hfd. unfold answers_of in E. rewrite E. done.
  - exists k. split_and!; [done|lia|lia| |simpl; lia]. exists l, d'. split; [|done]. by rewrite Hf.
  - done.
Qed.

(** Longer arrays go out in chunks. *)
Lemma write_chunks_run fuel : ∀ iovs remain fd c,
  (length iovs <= fuel)%nat → vectors iovs → sumZ iov_len iovs <= remain →
  fh_fd (wc_handle c) = Some fd →
  total (Z.to_nat (sumZ iov_len iovs)) (write_chunks fuel iovs remain) c (λ r c', ∃ k,
    0 <= k <= sumZ iov_len iovs ∧ moved fd k (iovs_bytes iovs) c c' ∧ (r.1 = 0 → k = sumZ iov_len iovs)).
Proof using.
  induction fuel as [|fuel IH]; intros iovs remain fd c Hfuel Hv Hr Hfd.
  { destruct iovs; [|simpl in Hfuel; lia]. apply total_ret. exists 0. split_and!; [done|done|by apply moved_0|done]. }
  destruct iovs as [|v l].
  { apply total_ret. exists 0. split_and!; [done|done|by apply moved_0|done]. }
  set (iovs := v :: l) in *. set (n := Z.to_nat (if Z.of_nat (length iovs) <? IOV_MAX then Z.of_nat (length iovs) else IOV_MAX)).
  assert (Hn : (0 < n)%nat ∧ Z.of_nat n <= IOV_MAX).
  { subst n. assert (0 < Z.of_nat (length iovs)) by (simpl; lia).
    destruct (Z.ltb_spec (Z.of_nat (length iovs)) IOV_MAX); unfold IOV_MAX in *; lia. }
  change (total (Z.to_nat (sumZ iov_len iovs))
    (r ← write_iovec (take n iovs) remain;
     let '(result, remain_bytes) := r in
     if negb (result =? 0) then mret (result, remain_bytes)
     else write_chunks fuel (drop n iovs) remain_bytes) c
    (λ r c', ∃ k, 0 <= k <= sumZ iov_len iovs ∧ moved fd k (iovs_bytes iovs) c c' ∧
       (r.1 = 0 → k = sumZ iov_len iovs))).
  pose proof (take_drop n iovs) as Htd.
  assert (Hv2 : vectors (take n iovs) ∧ vectors (drop n iovs)) by (by apply Forall_app; rewrite Htd).
  destruct Hv2 as [Hv1 Hv2]. pose proof (vectors_nonneg _ Hv1). pose proof (vectors_nonneg _ Hv2).
  assert (Hs : sumZ iov_len iovs = sumZ iov_len (take n iovs) + sumZ iov_len (drop n iovs))
    by (by rewrite <- sumZ_app, Htd).
  assert (Hb : iovs_bytes iovs = iovs_bytes (take n iovs) ++ iovs_bytes (drop n iovs))
    by (by rewrite <- iovs_bytes_app, Htd).
  pose proof (iovs_bytes_length _ Hv1) as L1.
  rewrite Hs, Z2Nat.inj_add by lia.
  eapply total_bind; [apply write_iovec_run; [done|lia|rewrite length_take; lia|exact Hfd]|].
  intros [r rem] c1 (k & E2 & Hk & Hm & Hr0). simpl in E2, Hr0. subst rem.
  assert (Hm1 : moved fd k (iovs_bytes iovs) c c1).
  { destruct Hm as (l1 & d1 & E1 & D1). exists l1, d1. split; [done|]. rewrite D1, Hb, take_app.
    replace (Z.to_nat k - length (iovs_bytes (take n iovs)))%nat with 0%nat by lia.
    by rewrite take_0, app_nil_r. }
  destruct (Z.eqb_spec r 0) as [->|Hne]; cbn [negb].
  2:{ apply total_ret. exists k. split_and!; [lia|lia|exact Hm1|simpl; lia]. }
  specialize (Hr0 eq_refl).
  eapply total_weaken; [apply (IH _ _ (mkFd (fd_inode fd) (fd_pos fd + k)))| |].
  - rewrite length_drop. lia.
  - done.
  - lia.
  - by destruct Hm as (l1 & d1 & -> & _).
  - lia.
  - intros [r2 rem2] c2 (k2 & Hk2 & Hm2 & Hr2). exists (k + k2). split_and!; [lia|lia| |intros E; specialize (Hr2 E); lia].
    apply moved_trans with c1; [|lia|exact Hm1|].
    + rewrite Hb, length_app. lia.
    + rewrite Hb, drop_app_length'; [exact Hm2|lia].
Qed.
End Total.

Section Batch.
Context {T : Type} `{!UniqSkiplist TrunkWriteIOBuffer T}.
Variables (path : Z) (subdir : Z → Z).
Implicit Types (c : WriteCtx T) (fs : FileSystem) (h : WriteFileHandle) (q : TrunkWriteIOBuffer)
  (L : list TrunkWriteIOBuffer).
Abbreviation ok := (iob_ok path subdir).
Abbreviation file id := (file_of subdir path id).
Abbreviation exec := (exec path subdir).

(** The handle: its offset is the position of its descriptor, and for a trunk that the
    requests [L] use it is open on the file of the trunk, which none of them creates. *)
Definition handle_good h fs L : Prop :=
  (∀ f, fh_fd h = Some f → fh_offset h = fd_pos f) ∧
  ∀ q, q ∈ L → trunk_of q = fh_trunk_id h →
    (∃ f, fh_fd h = Some f ∧ fs_files fs !! file (trunk_of q) = Some (fd_inode f)) ∧ ¬ creates q.
Lemma handle_good_fs h fs fs' L : fs_files fs' = fs_files fs → handle_good h fs L → handle_good h fs' L.
Proof using. intros E [H1 H2]. split; [done|]. by rewrite E. Qed.
Lemma handle_closed off fs L : Forall ok L → handle_good (mkHandle 0 off None) fs L.
Proof using.
  intros Hok. split; [done|]. intros q Hq Ht. simpl in Ht. rewrite Forall_forall in Hok.
  pose proof (io_trunk _ _ _ (Hok q Hq)). lia.
Qed.

Lemma get_write_fd_run sp q L c :
  space_of q = sp → ok q → q ∈ L → Forall ok L →
  (∀ q', q' ∈ L → trunk_of q' = trunk_of q → ¬ creates q') →
  handle_good (wc_handle c) (wc_fs c) L →
  total 1 (get_write_fd sp) c (λ r c', ∃ h l,
    c' = set_handle h (set_fs (set_answers l (wc_fs c)) c) ∧ handle_good h (wc_fs c) L ∧
    (r = 0 → ∃ f, h = mkHandle (trunk_of q) (fd_pos f) (Some f) ∧
                  fs_files (wc_fs c) !! file (trunk_of q) = Some (fd_inode f))).
Proof using.
  intros <- Hok Hq HL Hnc Hh. unfold get_write_fd. apply total_get. change (ti_id _) with (trunk_of q).
  assert (Hname : get_trunk_filename (space_of q) = file (trunk_of q)).
  { unfold get_trunk_filename, file_of. by rewrite (io_store _ _ _ Hok), (io_subdir _ _ _ Hok). }
  destruct (Z.eqb_spec (trunk_of q) (fh_trunk_id (wc_handle c))) as [Et|Et].
  { apply total_ret. exists (wc_handle c), (answers_of c). split_and!; [by destruct c as [[] ? ? ? ? ? [] ? ? ? ?]|done|].
    intros _. destruct Hh as [H1 H2]. destruct (H2 q Hq Et) as [(f & Hf & Hfile) _]. exists f. split; [|done].
    specialize (H1 f Hf). destruct (wc_handle c); simpl in *. congruence. }
  rewrite Hname. eapply total_bind0 with (Q := λ r c', ∃ l, c' = set_fs (set_answers l (wc_fs c)) c ∧
    match r with inl e => e ≠ 0 | inr f => fd_pos f = 0 ∧ fs_files (wc_fs c) !! file (trunk_of q) = Some (fd_inode f) end).
  - unfold sys_open. apply (answer_bind 0). intros a l _. destruct (Z.eqb_spec a 0) as [->|Ha]; simpl.
    2:{ apply total_ret. by exists l. }
    apply total_get. simpl. destruct (fs_files (wc_fs c) !! _) as [ino|] eqn:E; apply total_ret; exists l; by rewrite ?E.
  - intros [e|f] c' (l & -> & H).
    + apply total_ret. exists (wc_handle c), l. split_and!; [by destruct c as [[] ? ? ? ? ? [] ? ? ? ?]|done|done].
    + destruct H as [Hp Hf]. apply total_mod; [done|]. apply total_ret. eexists _, l. split_and!; [done| |].
      * split; [intros f' [= <-]; simpl; done|]. simpl. intros q' Hq' Ht. rewrite Ht.
        split; [by exists f|by apply Hnc].
      * intros _. exists f. by rewrite Hp.
Qed.

(** What a batch consists of. *)
Record batch_ok c : Prop := {
  bo_vectors : vectors (wc_iovec_array c);
  bo_bytes : iovs_bytes (wc_iovec_array c) = images (wc_iobs c);
  bo_count : wc_iovec_bytes c = sumZ size_of (wc_iobs c);
  bo_empty : wc_iovec_array c = [] ↔ wc_iobs c = [];
  bo_laid : ∃ id pos, laid id pos (wc_iobs c);
  bo_alloc : Z.of_nat (length (wc_iobs c)) <= iob_array_alloc;
  bo_max : wc_iovec_bytes c < IO_THREAD_BYTES_MAX + FS_FILE_BLOCK_SIZE;
}.
Lemma batch_bytes c : batch_ok c → Forall ok (wc_iobs c) →
  sumZ iov_len (wc_iovec_array c) = wc_iovec_bytes c.
Proof using.
  intros B Hok. rewrite <- iovs_bytes_length by apply B. rewrite (bo_bytes _ B), (bo_count _ B).
  apply (images_length path subdir); [done|]. destruct (bo_laid _ B) as (id & pos & H). by eapply laid_writes.
Qed.

(** After [get_write_fd]: the descriptor is brought to the offset of the batch. *)
Lemma seek_run id f off c :
  wc_handle c = mkHandle id (fd_pos f) (Some f) →
  total 1 (if negb (fh_offset (wc_handle c) =? off) then sys_lseek off else mret 0) c (λ r c', ∃ l p,
    c' = set_handle (mkHandle id (fd_pos f) (Some (mkFd (fd_inode f) p))) (set_fs (set_answers l (wc_fs c)) c) ∧
    (r = 0 → p = off)).
Proof using.
  intros Hh. rewrite Hh. cbn [fh_offset]. destruct (Z.eqb_spec (fd_pos f) off) as [E|E]; cbn [negb].
  { apply total_ret. exists (answers_of c), (fd_pos f). split; [|done].
    destruct c as [h ? ? ? ? ? [] ? ? ? ?]; simpl in *; subst h; by destruct f. }
  unfold sys_lseek. apply (answer_bind 0). intros a l _. destruct (Z.eqb_spec a 0) as [->|Ha]; simpl.
  2:{ apply total_ret. exists l, (fd_pos f). split; [|done].
      destruct c as [h ? ? ? ? ? [] ? ? ? ?]; simpl in *; subst h; by destruct f. }
  apply total_get. simpl. rewrite Hh. simpl. apply total_mod; [done|]. apply total_ret. by exists l, off.
Qed.
(** The writing itself, in one call or in chunks. *)
Lemma write_array_run fd c :
  vectors (wc_iovec_array c) → sumZ iov_len (wc_iovec_array c) = wc_iovec_bytes c →
  fh_fd (wc_handle c) = Some fd →
  total (Z.to_nat (wc_iovec_bytes c))
    (if Z.of_nat (length (wc_iovec_array c)) <=? IOV_MAX
     then write_iovec (wc_iovec_array c) (wc_iovec_bytes c)
     else write_chunks (length (wc_iovec_array c)) (wc_iovec_array c) (wc_iovec_bytes c)) c
    (λ r c', ∃ k, 0 <= k <= wc_iovec_bytes c ∧ moved fd k (iovs_bytes (wc_iovec_array c)) c c' ∧
       (r.1 = 0 → k = wc_iovec_bytes c)).
Proof using.
  intros Hv Hs Hfd. rewrite <- Hs at 1. destruct (Z.leb_spec (Z.of_nat (length (wc_iovec_array c))) IOV_MAX).
  - eapply total_weaken; [apply write_iovec_run; [done|lia|done|exact Hfd]|done|].
    intros r c' (k & _ & Hk & Hm & Hr). exists k. rewrite <- Hs. split; [done|by split].
  - eapply total_weaken; [apply write_chunks_run; [done|done|lia|exact Hfd]|done|].
    intros r c' (k & Hk & Hm & Hr). exists k. rewrite <- Hs. split; [done|by split].
Qed.

Definition no_creates L0 L : Prop :=
  ∀ q q', q' ∈ L0 → q ∈ L → trunk_of q = trunk_of q' → ¬ creates q.

Lemma batch_first c : batch_ok c → wc_iobs c ≠ [] → ∃ q s l,
  wc_iobs c = q :: l ∧ slice_of q = Some s ∧ se_space s = space_of q ∧ laid (trunk_of q) (offset_of q) (wc_iobs c).
Proof using.
  intros B Hne. destruct (bo_laid _ B) as (id & pos & Hl). destruct Hl as [|pos q l Hw Ht Ho Hl]; [done|].
  destruct (writes_slice q Hw) as [s Hs]. exists q, s, l. split_and!; [done|done|by symmetry; apply slice_of_space|].
  subst. by constructor.
Qed.

(** The result of a batch, from a seek to its offset. *)
Definition batch_done L c (r : Z) c' : Prop := ∃ h fs,
  c' = set_success (if r =? 0 then Z.of_nat (length (wc_iobs c)) else 0) (set_handle h (set_fs fs c)) ∧
  fs_files fs = fs_files (wc_fs c) ∧ fs_wf fs ∧ exec (map (λ iob, (iob, r)) (wc_iobs c)) (wc_fs c) fs ∧
  handle_good h fs (wc_iobs c ++ L).

Lemma exec_nothing c r fs : batch_ok c → Forall ok (wc_iobs c) → fs_wf (wc_fs c) → wc_iobs c ≠ [] →
  r ≠ 0 → same_fs (wc_fs c) fs →  exec (map (λ iob, (iob, r)) (wc_iobs c)) (wc_fs c) fs.
Proof using.
  intros B Hok Hwf Hne Hr [Ef Ed]. assert (∀ l fs0, Forall ok l → Forall writes l → same_fs fs0 fs →
    exec (map (λ iob, (iob, r)) l) fs0 fs) as Hgen.
  { induction l as [|q l IH]; intros fs0 H1 H2 S; simpl; [by constructor|].
    apply Forall_cons in H1 as [H1 H1']. apply Forall_cons in H2 as [H2 H2'].
    destruct (writes_slice q H2) as [s Hs]. econstructor; [|by apply IH].
    apply (performs_write _ _ _ s _ _ _ Hs). split; [by destruct S|].
    destruct (Z.eqb_spec r 0); [done|]. intros st id pos _. by apply same_fs_disk. }
  apply Hgen; [done| |done]. destruct (bo_laid _ B) as (id & pos & H). by eapply laid_writes.
Qed.

Lemma do_write_slices_run L c :
  batch_ok c → wc_iobs c ≠ [] → Forall ok (wc_iobs c ++ L) → fs_wf (wc_fs c) →
  handle_good (wc_handle c) (wc_fs c) (wc_iobs c ++ L) → no_creates (wc_iobs c) (wc_iobs c ++ L) →
  total (Z.to_nat (wc_iovec_bytes c) + 2) do_write_slices c (batch_done L c).
Proof using.
  intros B Hne Hok Hwf Hh Hnc. pose proof Hok as [Hoki _]%Forall_app.
  pose proof (batch_bytes c B Hoki) as Hbytes.
  destruct (batch_first c B Hne) as (q & s & l & E & Hs & Esp & Hlaid).
  assert (Hq : q ∈ wc_iobs c) by (rewrite E; by left).
  assert (Hokq : ok q) by (rewrite Forall_forall in Hoki; by apply Hoki).
  unfold do_write_slices. apply total_get.
  assert (head (wc_iobs c) ≫= slice_of = Some s) as -> by (by rewrite E).
  rewrite Esp. change (sp_offset (space_of q)) with (offset_of q).
  apply total_weaken with (k := (1 + (1 + Z.to_nat (wc_iovec_bytes c)))%nat) (Q := batch_done L c); [|lia|done].
  eapply total_bind; [apply (get_write_fd_run _ q (wc_iobs c ++ L)); [done|done| |done| |done]|].
  { apply elem_of_app. by left. }
  { intros q' Hq' Ht. by apply (Hnc q' q). }
  intros r c1 (h & l1 & -> & Hh1 & Hr1). destruct (Z.eqb_spec r 0) as [->|Hr]; cbn [negb].
  2:{ apply total_mod; [done|]. apply total_ret. exists h, (set_answers l1 (wc_fs c)).
      destruct (Z.eqb_spec r 0); [done|]. split_and!; [done|done|by destruct Hwf| |done].
      by apply exec_nothing. }
  destruct (Hr1 eq_refl) as (f & -> & Hfile). apply total_get.
  eapply total_bind; [by apply (seek_run (trunk_of q) f (offset_of q))|].
  intros r c2 (l2 & p & -> & Hp). destruct (Z.eqb_spec r 0) as [->|Hr]; cbn [negb].
  2:{ apply total_mod; [done|]. apply total_mod; [done|]. apply total_ret.
      eexists (mkHandle 0 _ None), (set_answers l2 (wc_fs c)).
      destruct (Z.eqb_spec r 0); [done|]. split_and!; [done|done|by destruct Hwf| |by apply handle_closed].
      by apply exec_nothing. }
  rewrite (Hp eq_refl).
  match goal with |- total _ _ ?c2 _ => eapply total_bind0;
    [exact (write_array_run (mkFd (fd_inode f) (offset_of q)) c2 (bo_vectors _ B) Hbytes eq_refl)|] end.
  intros [r rem] c3 (k & Hk & (l3 & d3 & -> & Hd) & Hr3). simpl in Hk, Hd, Hr3.
  assert (Hex : ∀ r', (r' = 0 → k = wc_iovec_bytes c) →
    exec (map (λ iob, (iob, r')) (wc_iobs c)) (wc_fs c) (set_answers l3 (set_data d3 (wc_fs c)))).
  { intros r' Hr'. apply (batch_exec _ _ (trunk_of q) _ (offset_of q) (fd_inode f) (Z.to_nat k)); try done.
    - rewrite <- (bo_bytes _ B). exact Hd.
    - intros E0. rewrite (Hr' E0). pose proof (iovs_bytes_length _ (bo_vectors _ B)) as HL.
      rewrite (bo_bytes _ B) in HL. lia. }
  destruct (Z.eqb_spec r 0) as [->|Hr]; cbn [negb].
  - specialize (Hr3 eq_refl). repeat (apply total_mod; [done|]). apply total_ret.
    eexists _, (set_answers l3 (set_data d3 (wc_fs c))). split_and!; [done|done|by destruct Hwf|by apply Hex|].
    split; [intros f' [= <-]; simpl; lia|]. intros q' Hq' Ht. simpl in Ht.
    destruct (proj2 Hh1 q' Hq' Ht) as [(f' & [= <-] & Hf') Hn]. split; [|done]. eexists. split; [done|]. exact Hf'.
  - repeat (apply total_mod; [done|]). apply total_ret.
    eexists (mkHandle 0 _ None), (set_answers l3 (set_data d3 (wc_fs c))).
    destruct (Z.eqb_spec r 0); [done|]. split_and!; [done|done|by destruct Hwf|by apply Hex|by apply handle_closed].
Qed.

(** [batch_write] notifies every request of the batch once, with the result of the batch. *)
Lemma notify_all_run r l c : Forall (λ q, ib_notify q = true) l →
  notify_all r l c = Some (tt, add_notified (map (λ q, (q, r)) l) c).
Proof using.
  intros H. revert c. induction H as [|q l Hq Hl IH]; intros c; simpl.
  { unfold add_notified. rewrite app_nil_r. by destruct c. }
  unfold notify. rewrite Hq. unfold mbind, WM_bind. simpl. rewrite IH.
  unfold add_notified; simpl. by rewrite <- app_assoc.
Qed.
Lemma batch_write_run L c :
  batch_ok c → wc_iobs c ≠ [] → Forall ok (wc_iobs c ++ L) → fs_wf (wc_fs c) →
  handle_good (wc_handle c) (wc_fs c) (wc_iobs c ++ L) → no_creates (wc_iobs c) (wc_iobs c ++ L) →
  total (Z.to_nat (wc_iovec_bytes c) + 2) batch_write c (λ r c', ∃ h fs n,
    c' = set_batch 0 [] [] (add_notified (map (λ q, (q, r)) (wc_iobs c)) (set_success n (set_handle h (set_fs fs c)))) ∧
    fs_files fs = fs_files (wc_fs c) ∧ fs_wf fs ∧ exec (map (λ q, (q, r)) (wc_iobs c)) (wc_fs c) fs ∧
    handle_good h fs L).
Proof using.
  intros B Hne Hok Hwf Hh Hnc. unfold batch_write.
  eapply total_bind0; [by apply (do_write_slices_run L c)|].
  intros r c1 (h & fs & -> & Hfs & Hwf' & Hex & Hg). apply total_get.
  assert (Hn : Forall (λ q, ib_notify q = true) (wc_iobs c)).
  { apply Forall_app in Hok as [Hok _]. eapply Forall_impl; [exact Hok|]. intros q Hq. apply Hq. }
  assert (Hlen : 0 < Z.of_nat (length (wc_iobs c))) by (destruct (wc_iobs c); [done|simpl; lia]).
  assert (Hg' : handle_good h fs L).
  { destruct Hg as [G1 G2]. split; [done|]. intros q Hq. apply G2. apply elem_of_app. by right. }
  set (n0 := if r =? 0 then Z.of_nat (length (wc_iobs c)) else 0).
  intros n Hp. exists r, (set_batch 0 [] [] (add_notified (map (λ q, (q, r)) (wc_iobs c))
    (set_success n0 (set_handle h (set_fs fs c))))). split; [|split; [by exists h, fs, n0|exact Hp]]. subst n0.
  destruct (Z.eqb_spec r 0) as [->|Hr]; simpl.
  - destruct (Z.ltb_spec 0 (Z.of_nat (length (wc_iobs c)))); [|lia].
    rewrite Nat2Z.id, take_ge by done. unfold mbind, WM_bind. by rewrite notify_all_run.
  - unfold mbind, WM_bind. simpl. by rewrite notify_all_run.
Qed.
End Batch.

(** ** The write thread

    Creation and deletion of trunk files, the loop over the requests, and one turn of the
    thread: every request is performed and notified once, in the order of the versions. *)

(** ** The requests that wait

    The list of requests is a [uniq_skiplist] ordered by [compare_by_version]. The 64-bit
    difference is cut to an [int], so it orders the requests only while their versions are
    less than [2 ^ 31] apart: what the list promises is limited to that. *)
Definition window (l : list TrunkWriteIOBuffer) : Prop :=
  ∀ x y, x ∈ l → y ∈ l → ib_version x - ib_version y < 2 ^ 31.
Definition version_lt (x y : TrunkWriteIOBuffer) : Prop := ib_version x < ib_version y.

Class VersionSkiplist (T : Type) `{!UniqSkiplist TrunkWriteIOBuffer T} : Prop := {
  vs_insert : ∀ (t : T) e, StronglySorted version_lt (sl_level0 t) → window (e :: sl_level0 t) →
    (∀ x, x ∈ sl_level0 t → ib_version x ≠ ib_version e) →
    (uniq_skiplist_insert t e).1 = 0 ∧
    sl_level0 (uniq_skiplist_insert t e).2 ≡ₚ e :: sl_level0 t ∧
    StronglySorted version_lt (sl_level0 (uniq_skiplist_insert t e).2);
  vs_delete : ∀ (t : T) e l, StronglySorted version_lt (sl_level0 t) → window (sl_level0 t) →
    sl_level0 t = e :: l →
    (uniq_skiplist_delete t e).1 = 0 ∧ sl_level0 (uniq_skiplist_delete t e).2 = l;
}.

(** A list sorted with [compare_by_version] keeps these promises. *)
#[export] Instance version_list : UniqSkiplist TrunkWriteIOBuffer (list TrunkWriteIOBuffer) :=
  list_skiplist compare_by_version.
Lemma compare_in_window l x y : window l → x ∈ l → y ∈ l →
  compare_by_version x y = ib_version x - ib_version y.
Proof.
  intros H Hx Hy. apply cast32_id. unfold in_int32. pose proof (H x y Hx Hy). pose proof (H y x Hy Hx). lia.
Qed.
Lemma window_sub l k : (∀ x, x ∈ k → x ∈ l) → window l → window k.
Proof. intros Hs H x y Hx Hy. apply H; auto. Qed.
#[export] Instance version_list_spec : VersionSkiplist (list TrunkWriteIOBuffer).
Proof.
  split; simpl.
  - intros t e Hs. induction Hs as [|y l Hl IH Hy]; intros Hw Hne; simpl; [by repeat constructor|].
    assert (compare_by_version y e = ib_version y - ib_version e) as ->.
    { apply (compare_in_window _ _ _ Hw); rewrite !elem_of_cons; auto. }
    assert (ib_version y ≠ ib_version e) by (apply Hne; by left).
    destruct (Z.eqb_spec (ib_version y - ib_version e) 0); [lia|].
    destruct (Z.ltb_spec (ib_version y - ib_version e) 0).
    + destruct IH as (H1 & H2 & H3).
      { apply (window_sub _ _) with (2 := Hw). intros x. rewrite !elem_of_cons. tauto. }
      { intros x Hx. apply Hne. by right. }
      destruct (ins _ e l) as [r k]. simpl in *. split_and!; [done|by rewrite H2; constructor|].
      constructor; [done|]. rewrite H2. constructor; [unfold version_lt; lia|done].
    + split_and!; [done|done|]. constructor; [by constructor|]. constructor; [unfold version_lt; lia|].
      eapply Forall_impl; [exact Hy|]. unfold version_lt. intros z Hz. lia.
  - intros t e l _ _ ->. simpl. assert (compare_by_version e e = 0) as ->; [|done].
    unfold compare_by_version. by rewrite Z.sub_diag.
Qed.

(** ** Trunk files *)
Section Trunks.
Context {T : Type} `{!UniqSkiplist TrunkWriteIOBuffer T}.
Variables (path : Z) (subdir : Z → Z) (g_current_time : Z).
Implicit Types (c : WriteCtx T) (fs : FileSystem) (h : WriteFileHandle) (q : TrunkWriteIOBuffer)
  (L : list TrunkWriteIOBuffer).
Abbreviation ok := (iob_ok path subdir).
Abbreviation file id := (file_of subdir path id).
Abbreviation exec := (exec path subdir).
Abbreviation handle_good := (handle_good path subdir).

(** Nothing but the file [name] has changed. *)
Record only (name : FileName) fs fs' : Prop := {
  on_wf : fs_wf fs';
  on_files : ∀ n, n ≠ name → fs_files fs' !! n = fs_files fs !! n;
  on_data : ∀ i p, i < fs_next fs → fs_data fs' i p = fs_data fs i p;
  on_next : fs_next fs <= fs_next fs';
}.
Lemma only_refl name fs fs' : fs_wf fs → fs_files fs' = fs_files fs → fs_data fs' = fs_data fs →
  fs_next fs' = fs_next fs → only name fs fs'.
Proof using. intros [W1 W2] E1 E2 E3. split; [split| | |]; rewrite ?E1, ?E2, ?E3; by eauto. Qed.
Lemma only_trans name fs fs1 fs' : only name fs fs1 → only name fs1 fs' → only name fs fs'.
Proof using.
  intros [A1 A2 A3 A4] [B1 B2 B3 B4]. split; [done| | |lia].
  - intros n Hn. by rewrite B2, A2.
  - intros i p Hi. rewrite B3, A3; [done|done|lia].
Qed.
Lemma only_new name fs : fs_wf fs → fs_files fs !! name = None → only name fs (new_file name fs).
Proof using.
  intros [W1 W2] E. split; simpl; [split| | |lia]; simpl.
  - intros n1 n2 i. rewrite !lookup_insert_Some. intros [[-> <-]|[? H1]] [[<- H2]|[? H2]]; [done| | |by eauto].
    + apply W2 in H2. lia.
    + subst i. apply W2 in H1. lia.
  - intros n i. rewrite lookup_insert_Some. intros [[_ <-]|[_ H]]; [lia|]. apply W2 in H. lia.
  - intros n Hn. by rewrite lookup_insert_ne.
  - intros i p Hi. destruct (Z.eqb_spec i (fs_next fs)); [lia|done].
Qed.
Lemma only_deleted name fs : fs_wf fs → only name fs (set_files (delete name (fs_files fs)) fs).
Proof using.
  intros [W1 W2]. split; simpl; [split; simpl| |done|lia].
  - intros n1 n2 i [_ H1]%lookup_delete_Some [_ H2]%lookup_delete_Some. eauto.
  - intros n i [_ H]%lookup_delete_Some. eauto.
  - intros n Hn. by rewrite lookup_delete_ne.
Qed.
Lemma only_other q fs fs' : fs_wf fs → only (file (trunk_of q)) fs fs' → other_trunk path subdir q fs fs'.
Proof using.
  intros [_ W] [O1 O2 O3 O4].
  assert (Hn : ∀ st id, ¬ (st = path ∧ id = trunk_of q) → file_of subdir st id ≠ file (trunk_of q)).
  { intros st id H [= -> _ ->]. by apply H. }
  split.
  - intros st id pos H. unfold disk_of. rewrite O2 by auto.
    destruct (fs_files fs !! file_of subdir st id) as [i|] eqn:E; [|done]. apply O3. by eapply W.
  - intros st id H. by rewrite O2 by auto.
Qed.
Lemma only_handle q h fs fs' L : fh_trunk_id h ≠ trunk_of q → only (file (trunk_of q)) fs fs' →
  handle_good h fs L → handle_good h fs' L.
Proof using.
  intros Hn O [H1 H2]. split; [done|]. intros q' Hq' Ht. destruct (H2 q' Hq' Ht) as [(f & Hf & E) Hc].
  split; [|done]. exists f. split; [done|]. rewrite (on_files _ _ _ O); [done|]. intros [= _ E']. congruence.
Qed.

Lemma sys_creat_run name c : fs_wf (wc_fs c) →
  total 1 (sys_creat name) c (λ r c', ∃ fs, c' = set_fs fs c ∧ only name (wc_fs c) fs ∧
    match r with inl e => e ≠ 0 | inr _ => is_Some (fs_files fs !! name) end).
Proof using.
  intros W. unfold sys_creat. apply (answer_bind 0). intros a l _.
  destruct (Z.eqb_spec a 0) as [->|Ha]; cbn [negb].
  2:{ apply total_ret. eexists. split_and!; [done|by apply only_refl|done]. }
  apply total_get. simpl. destruct (fs_files (wc_fs c) !! name) as [i|] eqn:E.
  { apply total_ret. eexists. split_and!; [done|by apply only_refl|]. simpl. by rewrite E. }
  destruct (bool_decide (name.1 ∈ fs_dirs (wc_fs c))).
  2:{ apply total_ret. eexists. split_and!; [done|by apply only_refl|done]. }
  apply total_mod; [done|]. apply total_ret. eexists. split_and!; [done| |].
  - apply (only_trans _ _ (set_answers l (wc_fs c))); [by apply only_refl|]. apply only_new; [by destruct W|done].
  - simpl. rewrite lookup_insert_eq. done.
Qed.
Lemma sys_mkdir_run name dir c : fs_wf (wc_fs c) →
  total 1 (sys_mkdir dir) c (λ r c', ∃ fs, c' = set_fs fs c ∧ only name (wc_fs c) fs).
Proof using.
  intros W. unfold sys_mkdir. apply (answer_bind 0). intros a l _.
  destruct (Z.eqb_spec a 0) as [->|Ha]; cbn [negb].
  2:{ apply total_ret. eexists. split; [done|by apply only_refl]. }
  apply total_get. simpl. destruct (bool_decide _).
  - apply total_ret. eexists. split; [done|by apply only_refl].
  - apply total_mod; [done|]. apply total_ret. eexists. split; [done|by apply only_refl].
Qed.
Lemma sys_unlink_run name c : fs_wf (wc_fs c) →
  total 1 (sys_unlink name) c (λ r c', ∃ fs, c' = set_fs fs c ∧ only name (wc_fs c) fs ∧
    (r = 0 → fs_files fs !! name = None)).
Proof using.
  intros W. unfold sys_unlink. apply (answer_bind 0). intros a l _.
  destruct (Z.eqb_spec a 0) as [->|Ha]; cbn [negb].
  2:{ apply total_ret. eexists. split_and!; [done|by apply only_refl|done]. }
  apply total_get. simpl. destruct (fs_files (wc_fs c) !! name) as [i|] eqn:E.
  2:{ apply total_ret. eexists. split_and!; [done|by apply only_refl|done]. }
  apply total_mod; [done|]. apply total_ret. eexists. split_and!; [done| |].
  - apply (only_trans _ _ (set_answers l (wc_fs c))); [by apply only_refl|]. apply only_deleted. by destruct W.
  - intros _. simpl. apply lookup_delete_eq.
Qed.

(** The binlog gets a record exactly when the operation succeeds. *)
Definition trunk_done (op_type : Z) q c (r : Z) c' : Prop := ∃ fs allocs bl,
  c' = add_binlog bl (set_allocs allocs (set_fs fs c)) ∧ only (file (trunk_of q)) (wc_fs c) fs ∧
  (wc_allocs c = [] → allocs = []) ∧
  (r = 0 → bl = [sprintf_line [dec (cast32 g_current_time); [op_type]; dec (sp_store (space_of q));
                  dec (trunk_of q); dec (ti_subdir (sp_id_info (space_of q))); dec (size_of q)]]) ∧
  (r ≠ 0 → bl = []) ∧
  (r = 0 → if op_type =? FS_IO_TYPE_CREATE_TRUNK then is_Some (fs_files fs !! file (trunk_of q))
           else fs_files fs !! file (trunk_of q) = None).
Lemma add_binlog_nil c : c = add_binlog [] c.
Proof using. unfold add_binlog. rewrite app_nil_r. by destruct c. Qed.
Lemma write_trunk_binlog_run op_type q fs c :
  only (file (trunk_of q)) (wc_fs c) fs →
  (if op_type =? FS_IO_TYPE_CREATE_TRUNK then is_Some (fs_files fs !! file (trunk_of q))
   else fs_files fs !! file (trunk_of q) = None) →
  total 0 (write_trunk_binlog g_current_time op_type (space_of q)) (set_fs fs c) (trunk_done op_type q c).
Proof using.
  intros O Hf. unfold write_trunk_binlog. apply total_get. simpl.
  destruct (wc_allocs c) as [|[] al] eqn:E; (apply total_mod; [done|]).
  - apply total_mod; [done|]. apply total_ret. eexists fs, [], _. split_and!; [done|done|done|done|done|done].
  - apply total_mod; [done|]. apply total_ret. eexists fs, al, _. split_and!; [done|done|by rewrite E|done|done|done].
  - apply total_ret. exists fs, al, []. rewrite <- add_binlog_nil. split_and!; [done|done|by rewrite E|done|done|done].
Qed.
Lemma trunk_failed op_type q fs c r : r ≠ 0 → only (file (trunk_of q)) (wc_fs c) fs →
  trunk_done op_type q c r (set_fs fs c).
Proof using.
  intros Hr O. exists fs, (wc_allocs c), []. rewrite <- add_binlog_nil.
  split_and!; [by destruct c|done|done|done|done|done].
Qed.

Lemma trunk_name q : ok q → get_trunk_filename (space_of q) = file (trunk_of q).
Proof using. intros H. unfold get_trunk_filename, file_of. by rewrite (io_store _ _ _ H), (io_subdir _ _ _ H). Qed.
Lemma do_create_trunk_run q c : ok q → fs_wf (wc_fs c) →
  total 4 (do_create_trunk g_current_time (space_of q)) c (trunk_done FS_IO_TYPE_CREATE_TRUNK q c).
Proof using.
  intros Hok W. unfold do_create_trunk. rewrite trunk_name by done.
  set (name := file (trunk_of q)).
  assert (Hc : ∀ (r : Z + Fd) c', (∃ fs, c' = set_fs fs c ∧ only name (wc_fs c) fs ∧
      match r with inl e => e ≠ 0 | inr _ => is_Some (fs_files fs !! name) end) →
    total 1 (match r with
      | inl e => mret e
      | inr _ => a ← answer;
          if a =? 0 then write_trunk_binlog g_current_time FS_IO_TYPE_CREATE_TRUNK (space_of q) else mret a
      end) c' (trunk_done FS_IO_TYPE_CREATE_TRUNK q c)).
  { intros [e|f] c' (fs & -> & O & H); [by apply total_ret, trunk_failed|].
    apply (answer_bind 0). intros a l _.
    assert (O' : only name (wc_fs c) (set_answers l fs)).
    { eapply only_trans; [exact O|]. apply only_refl; [apply O|done|done|done]. }
    destruct (Z.eqb_spec a 0) as [->|Ha].
    - apply (write_trunk_binlog_run FS_IO_TYPE_CREATE_TRUNK q (set_answers l fs) c); [done|exact H].
    - apply total_ret. exact (trunk_failed _ q (set_answers l fs) c a Ha O'). }
  change 4%nat with (1 + (2 + 1))%nat. eapply total_bind; [by apply (sys_creat_run name)|].
  intros r c1 (fs & -> & O & Hr). eapply total_bind; [|exact Hc].
  destruct r as [e|f]; [|by apply total_ret; exists fs].
  destruct (Z.eqb_spec e ENOENT); [|by apply total_ret; exists fs].
  change 2%nat with (1 + 1)%nat. eapply total_bind; [apply (sys_mkdir_run name); apply O|].
  intros m c2 (fs2 & -> & O2). simpl in O2. pose proof (only_trans _ _ _ _ O O2) as O3.
  destruct (Z.eqb_spec m 0) as [->|Hm]; cbn [negb].
  - eapply total_weaken; [apply (sys_creat_run name); apply O2|done|].
    intros r c3 (fs3 & -> & O4 & H4). simpl in O4. exists fs3. split_and!; [done|by eapply only_trans|done].
  - apply total_ret. by exists fs2.
Qed.
Lemma do_delete_trunk_run q c : ok q → fs_wf (wc_fs c) →
  total 1 (do_delete_trunk g_current_time (space_of q)) c (trunk_done FS_IO_TYPE_DELETE_TRUNK q c).
Proof using.
  intros Hok W. unfold do_delete_trunk. rewrite trunk_name by done.
  eapply total_bind0; [by apply sys_unlink_run|]. intros r c1 (fs & -> & O & Hr).
  destruct (Z.eqb_spec r 0) as [->|Hne]; [|by apply total_ret, trunk_failed].
  apply (write_trunk_binlog_run FS_IO_TYPE_DELETE_TRUNK q fs c); [done|by apply Hr].
Qed.
End Trunks.
