(* ===== verification/TrunkWriteLoop.v ===== *)
(** * The loop over the requests, and a turn of the write thread *)
From S2P Require Import Prelude Types Skiplist ObSlices ObSlicesRun TrunkAllocator StorageAllocator.
From S2P Require Import ObIndex Binlog SliceOp DataThread TrunkWrite TrunkWriteSpec TrunkWriteThms.

Lemma writes_not_creates q : writes q → ¬ creates q ∧ ¬ deletes q.
Proof. unfold writes, slice_of, creates, deletes. destruct (ib_request q); simpl; tauto. Qed.

Section Loop.
Context {T : Type} `{!UniqSkiplist TrunkWriteIOBuffer T} `{!VersionSkiplist T}.
Variables (path : Z) (subdir : Z → Z) (g_current_time : Z).
Implicit Types (c : WriteCtx T) (q : TrunkWriteIOBuffer) (L : list TrunkWriteIOBuffer)
  (l : list (TrunkWriteIOBuffer * Z)).
Abbreviation ok := (iob_ok path subdir).
Abbreviation exec := (exec path subdir).
Abbreviation handle_good := (handle_good path subdir).

(** A trunk is created before and deleted after all the other requests for it. *)
Definition in_order q q' : Prop := trunk_of q = trunk_of q' → ¬ deletes q ∧ ¬ creates q'.

(** The invariant of the thread; [L] are the requests that wait. *)
Record thread_ok c L : Prop := {
  to_batch : batch_ok c;
  to_ok : Forall ok (wc_iobs c ++ L);
  to_fs : fs_wf (wc_fs c);
  to_handle : handle_good (wc_handle c) (wc_fs c) (wc_iobs c ++ L);
  to_order : StronglySorted in_order (wc_iobs c ++ L);
  to_sorted : StronglySorted version_lt L;
  to_window : window L;
}.

(** The records of the trunk binlog. *)
Definition trunk_record (x : TrunkWriteIOBuffer * Z) : list bytes :=
  let '(q, r) := x in
  let line op := [sprintf_line [dec (cast32 g_current_time); [op]; dec (sp_store (space_of q));
                    dec (trunk_of q); dec (ti_subdir (sp_id_info (space_of q))); dec (size_of q)]] in
  match ib_request q with
  | FS_IO_CREATE_TRUNK _ => if r =? 0 then line FS_IO_TYPE_CREATE_TRUNK else []
  | FS_IO_DELETE_TRUNK _ => if r =? 0 then line FS_IO_TYPE_DELETE_TRUNK else []
  | _ => []
  end.

(** From [c] to [c'] the requests [l] were performed and notified, in this order, which is the
    order of the batch and the waiting requests; [L'] wait still. *)
Record advances L L' l c c' : Prop := {
  ad_notified : wc_notified c' = wc_notified c ++ l;
  ad_binlog : wc_binlog c' = wc_binlog c ++ l ≫= trunk_record;
  ad_requests : map fst l ++ wc_iobs c' ++ L' = wc_iobs c ++ L;
  ad_exec : exec l (wc_fs c) (wc_fs c');
  ad_allocs : wc_allocs c = [] → wc_allocs c' = [];
  ad_terminated : wc_terminated c' = wc_terminated c;
}.
Lemma advances_refl c L : advances L L [] c c.
Proof using. split; try done; [by rewrite app_nil_r|by rewrite app_nil_r|by constructor]. Qed.
Lemma advances_trans L1 L2 L3 l1 l2 c1 c2 c3 :
  advances L1 L2 l1 c1 c2 → advances L2 L3 l2 c2 c3 → advances L1 L3 (l1 ++ l2) c1 c3.
Proof using.
  intros [A1 A2 A3 A4 A5 A6] [B1 B2 B3 B4 B5 B6]. split.
  - by rewrite B1, A1, app_assoc.
  - by rewrite B2, A2, bind_app, app_assoc.
  - rewrite map_app, <- app_assoc, B3. by rewrite <- A3.
  - by eapply exec_app.
  - auto.
  - congruence.
Qed.

Lemma batch_ok_empty c : wc_iovec_bytes c = 0 → wc_iovec_array c = [] → wc_iobs c = [] → batch_ok c.
Proof using.
  intros E1 E2 E3. split; rewrite ?E1, ?E2, ?E3; try done; [constructor|].
  exists 0, 0. constructor.
Qed.
Lemma writes_no_record (r : Z) L : Forall writes L → map (λ q, (q, r)) L ≫= trunk_record = [].
Proof using.
  induction 1 as [|q L Hq HL IH]; [done|]. cbn [map]. rewrite bind_cons, IH, app_nil_r.
  unfold writes, slice_of in Hq. unfold trunk_record. by destruct (ib_request q).
Qed.
Lemma batch_writes c : batch_ok c → Forall writes (wc_iobs c).
Proof using. intros B. destruct (bo_laid _ B) as (id & pos & H). by eapply laid_writes. Qed.

Lemma flush_run c L : thread_ok c L → wc_iobs c ≠ [] →
  total (Z.to_nat (wc_iovec_bytes c) + 2) batch_write c (λ r c', ∃ l,
    thread_ok c' L ∧ wc_iobs c' = [] ∧ wc_iovec_array c' = [] ∧ wc_iovec_bytes c' = 0 ∧
    wc_skiplist c' = wc_skiplist c ∧ advances L L l c c').
Proof using.
  intros [B Hok Hwf Hh Hord Hs Hwin] Hne. pose proof (batch_writes c B) as Hws.
  eapply total_weaken; [apply (batch_write_run path subdir L c B Hne Hok Hwf Hh)|done|].
  { intros q q' Hq' Hq Ht. apply elem_of_app in Hq as [Hq|Hq].
    - rewrite Forall_forall in Hws. by apply writes_not_creates, Hws.
    - by apply (sorted_app_in _ _ _ _ _ Hord Hq' Hq). }
  intros r c' (h & fs & n & -> & Hfs & Hwf' & Hex & Hg). exists (map (λ q, (q, r)) (wc_iobs c)).
  split_and!; try done.
  - split; try done; simpl.
    + by apply batch_ok_empty.
    + by apply Forall_app in Hok as [_ Hok].
    + by apply sorted_app_r in Hord.
  - split; simpl; try done.
    + by rewrite writes_no_record, app_nil_r.
    + f_equal. rewrite map_map. apply map_id.
Qed.

(** ** One request *)

(** Is the batch written before the request is dealt with? *)
Definition flushes q c : bool :=
  match slice_of q with
  | Some s => batch_is_full c s
  | None => match wc_iovec_array c with [] => false | _ => true end
  end.
Definition kept q c : Z := if flushes q c then 0 else wc_iovec_bytes c.
Definition flush_cost q c : nat := if flushes q c then (Z.to_nat (wc_iovec_bytes c) + 2)%nat else 0%nat.
Definition weight q : Z := match slice_of q with Some _ => size_of q | None => 0 end.

Definition flushed q L c c1 : Prop := ∃ l,
  thread_ok c1 (q :: L) ∧ wc_skiplist c1 = wc_skiplist c ∧ advances (q :: L) (q :: L) l c c1 ∧
  wc_iovec_bytes c1 = kept q c ∧ flushes q c1 = false.
Lemma maybe_flush q L c {B} k (f : Z → WM T B) io_count R :
  thread_ok c (q :: L) →
  (∀ io c1, flushed q L c c1 → total k (f io) c1 R) →
  total (flush_cost q c + k) ((if flushes q c then batch_write;; mret (io_count + 1) else mret io_count) ≫= f) c R.
Proof using VersionSkiplist0.
  intros Ht Hf. unfold flush_cost. destruct (flushes q c) eqn:E.
  - eapply total_bind with (Q := λ _ c1, flushed q L c c1); [|intros; by apply Hf].
    eapply total_bind0; [apply (flush_run c (q :: L) Ht)|].
    + intros Hn. pose proof (bo_empty _ (to_batch _ _ Ht)) as [_ He]. unfold flushes in E.
      destruct (slice_of q).
      * unfold batch_is_full in E. by rewrite Hn in E.
      * by rewrite (He Hn) in E.
    + intros r c1 (l & H1 & H2 & H3 & H4 & H5 & H6). apply total_ret. exists l.
      unfold kept. rewrite E. split_and!; try done. unfold flushes, batch_is_full. rewrite H2, H3.
      by destruct (slice_of q).
  - eapply total_bind with (k1 := 0%nat) (Q := λ _ c1, flushed q L c c1); [|intros; by apply Hf].
    apply total_ret. exists []. unfold kept. rewrite E. split_and!; try done. apply advances_refl.
Qed.

Definition after_request q L c (r : option Z) c' : Prop := ∃ l L',
  thread_ok c' L' ∧ wc_skiplist c' = wc_skiplist c ∧ advances (q :: L) L' l c c' ∧
  match r with
  | Some _ => L' = L ∧ wc_iovec_bytes c' = kept q c + weight q
  | None => L' = q :: L ∧ wc_allocs c ≠ []
  end.

(** A trunk operation, the batch being empty. *)
Lemma trunk_request_run {B} (b : B) op_type q L m c :
  thread_ok c (q :: L) → wc_iobs c = [] → slice_of q = None →
  (∀ r, trunk_record (q, r) = if r =? 0 then [sprintf_line [dec (cast32 g_current_time); [op_type];
     dec (sp_store (space_of q)); dec (trunk_of q); dec (ti_subdir (sp_id_info (space_of q))); dec (size_of q)]] else []) →
  (creates q ∨ deletes q) → (creates q ↔ op_type =? FS_IO_TYPE_CREATE_TRUNK = true) →
  total 4 m c (trunk_done path subdir g_current_time op_type q c) →
  total 4 (result ← m; notify result q;; mret b) c (λ r c', r = b ∧ ∃ l,
    thread_ok c' L ∧ wc_skiplist c' = wc_skiplist c ∧ advances (q :: L) L l c c' ∧
    wc_iovec_bytes c' = wc_iovec_bytes c).
Proof using.
  intros [Bt Hok Hwf Hh Hord Hs Hwin] Hnil Hsl Hrec Hcd Hop Hm. rewrite Hnil in *. simpl in Hok, Hh, Hord.
  apply Forall_cons in Hok as [Hq Hok].
  eapply total_bind0; [exact Hm|]. intros r c1 (fs & al & bl & -> & O & Hal & Hbl & Hbl' & Hfile).
  assert (Hne : fh_trunk_id (wc_handle c) ≠ trunk_of q ∨ ∀ q', q' ∈ L → trunk_of q' ≠ trunk_of q).
  { destruct Hcd as [Hc|Hd].
    - left. intros Ht. by destruct (proj2 Hh q) as [_ []]; [by left|done|].
    - right. intros q' Hq' Ht. inversion Hord as [|? ? _ HF]; subst. rewrite Forall_forall in HF.
      by destruct (HF q' Hq') as [[] _]. }
  assert (Hg : handle_good (wc_handle c) fs L).
  { destruct Hh as [H1 H2]. destruct Hne as [Hne|Hne].
    - eapply only_handle; [exact Hne|exact O|]. split; [done|]. intros q' Hq'. apply H2. by right.
    - split; [done|]. intros q' Hq' Ht. destruct (H2 q') as [(f & Hf & Hff) Hn]; [by right|done|].
      split; [|done]. exists f. split; [done|]. rewrite (on_files _ _ _ O); [done|].
      intros [= _ E]. by apply (Hne q'). }
  unfold notify. rewrite (io_notify _ _ _ Hq). intros n Hp.
  eexists _, _. split; [done|]. split; [|exact Hp]. split; [done|]. exists [(q, r)]. split_and!; [|done| |done].
  - split; simpl; rewrite ?Hnil; simpl; try done.
    + by destruct Bt; split; simpl; rewrite ?Hnil in *.
    + apply O.
    + by eapply sorted_tail.
    + by eapply sorted_tail.
    + eapply window_sub; [|exact Hwin]. intros x Hx. by right.
  - split; simpl; try done.
    + rewrite app_nil_r. f_equal. change (bl = trunk_record (q, r)). rewrite Hrec.
      destruct (Z.eqb_spec r 0) as [->|Hr]; [by apply Hbl|by apply Hbl'].
    + by rewrite Hnil.
    + econstructor; [|by constructor]. pose proof (only_other path subdir q _ _ Hwf O) as Hot.
      unfold performs. unfold slice_of, creates, deletes in *. destruct (ib_request q) eqn:E; try done.
      * split; [done|]. intros Hr. specialize (Hfile Hr). by rewrite (proj1 Hop I) in Hfile.
      * split; [done|]. intros Hr. specialize (Hfile Hr). destruct (op_type =? FS_IO_TYPE_CREATE_TRUNK); [|done].
        by destruct (proj2 Hop eq_refl).
Qed.

(** A write is added to the batch. *)
Lemma batch_fits q s c : batch_ok c → ok q → slice_of q = Some s → Forall ok (wc_iobs c) → batch_is_full c s = false →
  (∃ id pos, laid id pos (wc_iobs c ++ [q])) ∧ Z.of_nat (length (wc_iobs c)) < iob_array_alloc ∧
  wc_iovec_bytes c < IO_THREAD_BYTES_MAX.
Proof using.
  intros B Hq Hs Hok Hf. pose proof (slice_of_writes _ _ Hs) as Hw. destruct (bo_laid _ B) as (id & pos & Hl).
  pose proof (batch_writes c B) as Hws. unfold batch_is_full in Hf.
  destruct (exists_last_or_nil (wc_iobs c)) as [E|(l & q' & E)]; rewrite E in *.
  { split_and!; [|done|].
    - exists (trunk_of q), (offset_of q). constructor; [done|done|done|constructor].
    - by rewrite (bo_count _ B), E. }
  rewrite last_snoc in Hf. cbn [mbind option_bind] in Hf.
  apply Forall_app in Hws as [_ [Hw' _]%Forall_cons]. destruct (writes_slice q' Hw') as [s' Hs'].
  rewrite Hs' in Hf. apply negb_false_iff in Hf. rewrite !andb_true_iff, !Z.ltb_lt in Hf.
  destruct Hf as (((Hsucc & Hn) & _) & Hb). split_and!; [|done|done].
  apply laid_last in Hl as Hl'. destruct Hl' as [Ht Ho]. unfold IOB_IS_SUCCESSIVE in Hsucc.
  rewrite andb_true_iff, !Z.eqb_eq in Hsucc. rewrite <- (slice_of_space _ _ Hs), <- (slice_of_space _ _ Hs') in Hsucc.
  destruct Hsucc as [S1 S2]. exists id, pos. apply laid_snoc; [done|done|by rewrite <- Ht; unfold trunk_of|].
  unfold offset_of, size_of in *. lia.
Qed.
Lemma add_write_run q s c : batch_ok c → ok q → slice_of q = Some s → Forall ok (wc_iobs c) → batch_is_full c s = false →
  batch_ok (set_batch (wc_iovec_bytes c + size_of q)
    (append_iovecs (ib_request q) (size_of q) (wc_iovec_array c)) (wc_iobs c ++ [q]) c).
Proof using.
  intros B Hq Hs Hok Hf. pose proof (slice_of_writes _ _ Hs) as Hw.
  destruct (image_ok path subdir q Hq Hw) as (V1 & V2 & V3). destruct (batch_fits q s c B Hq Hs Hok Hf) as (Hl & Ha & Hm).
  rewrite append_iovecs_run by apply Hq. split; simpl.
  - apply Forall_app. split; [apply B|done].
  - rewrite iovs_bytes_app, (bo_bytes _ B). unfold images. rewrite map_app, concat_app. simpl. by rewrite app_nil_r.
  - rewrite sumZ_app, sumZ_cons, sumZ_nil, (bo_count _ B). lia.
  - split; intros [_ H]%app_nil; done.
  - exact Hl.
  - rewrite length_app. simpl. lia.
  - pose proof (io_size _ _ _ Hq Hw). lia.
Qed.

Lemma deal_slice_run q s L c io_count : thread_ok c (q :: L) → slice_of q = Some s →
  total (flush_cost q c) (deal_slice q s io_count) c (after_request q L c).
Proof using VersionSkiplist0.
  intros Ht Hs. unfold deal_slice. apply total_get.
  assert (batch_is_full c s = flushes q c) as -> by (unfold flushes; by rewrite Hs).
  rewrite <- (Nat.add_0_r (flush_cost q c)). apply maybe_flush with (L := L); [done|].
  intros io c1 (l & Ht1 & Hsk & Had & Hb & Hfl).
  assert (Hrest : ∀ al, (wc_allocs c1 = [] → al = []) → total 0
    (wmod (λ c, set_batch (wc_iovec_bytes c + sp_size (se_space s))
                (append_iovecs (ib_request q) (sp_size (se_space s)) (wc_iovec_array c))
                (wc_iobs c ++ [q]) c);; mret (Some io)) (set_allocs al c1) (after_request q L c)).
  { intros al Hal. apply total_mod; [done|]. apply total_ret. rewrite <- (slice_of_space _ _ Hs).
    change (sp_size (space_of q)) with (size_of q). exists l, L. destruct Ht1 as [B Hok Hwf Hh Hord Hsrt Hwin].
    pose proof Hok as [Hoki [Hq HokL]%Forall_cons]%Forall_app.
    unfold flushes in Hfl. rewrite Hs in Hfl.
    pose proof (add_write_run q s c1 B Hq Hs Hoki Hfl) as B'.
    assert (Eapp : (wc_iobs c1 ++ [q]) ++ L = wc_iobs c1 ++ q :: L) by by rewrite <- app_assoc.
    split_and!; [|done| |done|].
    - split; simpl; rewrite ?Eapp; try done; [by destruct B'|by eapply sorted_tail|].
      eapply window_sub; [|exact Hwin]. intros x Hx. by right.
    - destruct Had as [A1 A2 A3 A4 A5 A6]. split; simpl; try done; [by rewrite Eapp|auto].
    - simpl. unfold weight. rewrite Hs. by rewrite Hb. }
  unfold realloc_iovec_array. unfold wget, wmod, mbind, WM_bind in *.
  intros n Hp. destruct (wc_allocs c1) as [|[] al] eqn:Eal; simpl.
  - specialize (Hrest [] (λ _, eq_refl) n Hp). destruct c1. simpl in *. subst. exact Hrest.
  - assert (Hal : true :: al = [] → al = []) by done. exact (Hrest al Hal n Hp).
  - eexists None, _. split; [done|]. split; [|exact Hp]. exists l, (q :: L). split_and!; [|done| |done|].
    + destruct Ht1 as [B Hok Hwf Hh Hord Hsrt Hwin]. by split; try done; destruct B.
    + destruct Had as [A1 A2 A3 A4 A5 A6]. split; simpl; try done. intros H. rewrite (A5 H) in Eal. done.
    + intros H. destruct Had as [_ _ _ _ A5 _]. rewrite (A5 H) in Eal. done.
Qed.

Lemma deal_trunk_run q L m op_type c io_count : thread_ok c (q :: L) → slice_of q = None →
  (∀ r, trunk_record (q, r) = if r =? 0 then [sprintf_line [dec (cast32 g_current_time); [op_type];
     dec (sp_store (space_of q)); dec (trunk_of q); dec (ti_subdir (sp_id_info (space_of q))); dec (size_of q)]] else []) →
  (creates q ∨ deletes q) → (creates q ↔ op_type =? FS_IO_TYPE_CREATE_TRUNK = true) →
  (∀ c1, fs_wf (wc_fs c1) → total 4 m c1 (trunk_done path subdir g_current_time op_type q c1)) →
  total (flush_cost q c + 4) (deal_trunk q m io_count) c (after_request q L c).
Proof using VersionSkiplist0.
  intros Ht Hs Hrec Hcd Hop Hm. unfold deal_trunk. apply total_get.
  assert (match wc_iovec_array c with [] => mret io_count | _ => batch_write;; mret (io_count + 1) end
    = (if flushes q c then batch_write;; mret (io_count + 1) else mret io_count : WM T Z)) as ->.
  { unfold flushes. rewrite Hs. by destruct (wc_iovec_array c). }
  apply maybe_flush with (L := L); [done|]. intros io c1 (l & Ht1 & Hsk & Had & Hb & Hfl).
  assert (Hnil : wc_iobs c1 = []).
  { unfold flushes in Hfl. rewrite Hs in Hfl. apply (bo_empty _ (to_batch _ _ Ht1)).
    by destruct (wc_iovec_array c1). }
  eapply total_weaken; [apply (trunk_request_run (Some (io + 1)) op_type q L m c1 Ht1 Hnil Hs Hrec Hcd Hop); apply Hm, Ht1|done|].
  intros r c' (-> & l2 & H1 & H2 & H3 & H4). exists (l ++ l2), L. split_and!; [done|by rewrite H2|by eapply advances_trans|done|].
  unfold weight. rewrite Hs, H4, Hb. lia.
Qed.

Lemma deal_request_run q L c io_count : thread_ok c (q :: L) →
  total (flush_cost q c + 4) (deal_request g_current_time q io_count) c (after_request q L c).
Proof using VersionSkiplist0.
  intros Ht. assert (Hq : ok q). { pose proof (to_ok _ _ Ht) as [_ [H _]%Forall_cons]%Forall_app. done. }
  unfold deal_request. destruct (ib_request q) as [sp|sp|s b|s iovs] eqn:E.
  - assert (sp = space_of q) as -> by (unfold space_of; by rewrite E).
    apply deal_trunk_run with FS_IO_TYPE_CREATE_TRUNK; try done.
    + unfold slice_of. by rewrite E.
    + intros r. unfold trunk_record. by rewrite E.
    + left. unfold creates. by rewrite E.
    + unfold creates. rewrite E. done.
    + intros c1 W. by apply do_create_trunk_run.
  - assert (sp = space_of q) as -> by (unfold space_of; by rewrite E).
    apply deal_trunk_run with FS_IO_TYPE_DELETE_TRUNK; try done.
    + unfold slice_of. by rewrite E.
    + intros r. unfold trunk_record. by rewrite E.
    + right. unfold deletes. by rewrite E.
    + unfold creates. rewrite E. done.
    + intros c1 W. eapply total_weaken; [by apply do_delete_trunk_run|lia|done].
  - eapply total_weaken; [apply (deal_slice_run q s L c io_count Ht)|lia|done]. unfold slice_of. by rewrite E.
  - eapply total_weaken; [apply (deal_slice_run q s L c io_count Ht)|lia|done]. unfold slice_of. by rewrite E.
Qed.

(** ** The loop *)

(** Enough answers of the system for a batch of [bytes] and the requests that wait. *)
Definition budget (bytes : Z) L : nat :=
  (Z.to_nat bytes + 2 + sum_list_with (λ q, Z.to_nat (weight q) + 6) L)%nat.
Definition loop_done L c c' : Prop := ∃ l L',
  thread_ok c' L' ∧ sl_level0 (wc_skiplist c') = L' ∧ advances L L' l c c' ∧ (wc_allocs c = [] → L' = []).

Lemma deal_requests_run fuel : ∀ L c io_count,
  (length L <= fuel)%nat → sl_level0 (wc_skiplist c) = L → thread_ok c L →
  total (budget (wc_iovec_bytes c) L) (deal_requests g_current_time fuel io_count) c (λ _, loop_done L c).
Proof using VersionSkiplist0.
  induction fuel as [|fuel IH]; intros L c io_count Hf Hsk Ht.
  all: destruct L as [|q L]; [|].
  1,3: cbn [deal_requests]; apply total_get; rewrite Hsk; unfold budget; simpl; rewrite Nat.add_0_r.
  1,2: destruct (wc_iovec_array c) eqn:Ea;
    [apply total_ret; exists [], []; split_and!; [done|done|apply advances_refl|done]|].
  1,2: destruct (io_count =? 0);
    [|apply total_ret; exists [], []; split_and!; [done|done|apply advances_refl|done]].
  1,2: eapply total_bind0; [apply (flush_run c [] Ht)|];
    [intros H; by rewrite (proj2 (bo_empty _ (to_batch _ _ Ht)) H) in Ea|];
    intros r c1 (k & H1 & H2 & H3 & H4 & H5 & H6); apply total_ret; exists k, []; split_and!; [done|congruence|done|done].
  { simpl in Hf. lia. }
  cbn [deal_requests]. apply total_get. rewrite Hsk.
  set (k1 := (flush_cost q c + 4)%nat). set (k2 := budget (kept q c + weight q) L).
  assert (Hw : 0 <= weight q ∧ 0 <= wc_iovec_bytes c).
  { pose proof (to_ok _ _ Ht) as [Hoki [Hq _]%Forall_cons]%Forall_app. split.
    - unfold weight. destruct (slice_of q) eqn:E; [|lia]. pose proof (io_size _ _ _ Hq (slice_of_writes _ _ E)). lia.
    - rewrite <- (batch_bytes path subdir c (to_batch _ _ Ht) Hoki). apply vectors_nonneg, (to_batch _ _ Ht). }
  apply total_weaken with (k := (k1 + k2)%nat) (Q := λ _, loop_done (q :: L) c); [| |done].
  2:{ unfold k1, k2, budget, flush_cost, kept. simpl. destruct (flushes q c); lia. }
  eapply total_bind; [by apply deal_request_run|]. intros r c1 (l & L' & H1 & H2 & H3 & H4).
  destruct r as [io|].
  2:{ destruct H4 as [-> Hal]. apply total_ret. exists l, (q :: L). split_and!; [done|congruence|done|done]. }
  destruct H4 as [-> Hb]. apply total_get. rewrite H2.
  destruct (vs_delete (wc_skiplist c) q L) as [D1 D2]; [rewrite Hsk; apply Ht|rewrite Hsk; apply Ht|done|].
  destruct (uniq_skiplist_delete (wc_skiplist c) q) as [res t]. simpl in D1, D2. subst res.
  apply total_mod; [done|]. cbn [negb Z.eqb].
  unfold k2. rewrite <- Hb.
  eapply total_weaken; [apply (IH L (set_skiplist t c1) io); [simpl in Hf; lia|done|]|done|].
  { destruct H1 as [[] ? ? ? ? ? ?]. by split. }
  intros _ c' (l2 & L2 & G1 & G2 & G3 & G4). exists (l ++ l2), L2. split_and!; [done|done| |].
  - eapply advances_trans; [exact H3|]. by destruct G3.
  - intros Hal. apply G4. simpl. by apply H3.
Qed.

End Loop.

(** ** A turn of the thread *)
Section Turn.
Context {T : Type} `{!UniqSkiplist TrunkWriteIOBuffer T} `{!VersionSkiplist T}.
Implicit Types (c : WriteCtx T) (q : TrunkWriteIOBuffer).

Lemma insert_requests_run popped : ∀ c count,
  StronglySorted version_lt (sl_level0 (wc_skiplist c)) → window (popped ++ sl_level0 (wc_skiplist c)) →
  NoDup (map ib_version (popped ++ sl_level0 (wc_skiplist c))) →
  ∃ t, insert_requests popped count c = Some (count + Z.of_nat (length popped), set_skiplist t c) ∧
    sl_level0 t ≡ₚ popped ++ sl_level0 (wc_skiplist c) ∧ StronglySorted version_lt (sl_level0 t).
Proof using VersionSkiplist0.
  induction popped as [|q popped IH]; intros c count Hs Hw Hn; simpl.
  { exists (wc_skiplist c). rewrite Z.add_0_r. split_and!; [by destruct c|done|done]. }
  simpl in Hn. apply NoDup_cons in Hn as [Hq Hn].
  destruct (vs_insert (wc_skiplist c) q Hs) as (I1 & I2 & I3).
  { eapply window_sub; [|exact Hw]. intros x. simpl. rewrite !elem_of_cons, elem_of_app. tauto. }
  { intros x Hx E. apply Hq. change (map ?f ?l) with (f <$> l). rewrite <- E. apply list_elem_of_fmap_2, elem_of_app. by right. }
  unfold mbind, WM_bind, wget, wmod. destruct (uniq_skiplist_insert (wc_skiplist c) q) as [res t]. simpl in *. subst res.
  destruct (IH (set_skiplist t c) (count + 1)) as (t' & E & P & S).
  - done.
  - eapply window_sub; [|exact Hw]. intros x. simpl. rewrite elem_of_app, I2, !elem_of_cons, elem_of_app. tauto.
  - simpl. change (map ?f ?l) with (f <$> l) in *. rewrite I2. rewrite <- Permutation_middle. by constructor.
  - exists t'. simpl. rewrite E. split_and!; [do 2 f_equal; lia| |done].
    rewrite P. simpl. rewrite I2. by rewrite Permutation_middle.
Qed.

Lemma turn_ok (path : Z) (subdir : Z → Z) c L t :
  batch_ok c → fs_wf (wc_fs c) → StronglySorted version_lt L → window L →
  Forall (iob_ok path subdir) (wc_iobs c ++ L) →
  handle_good path subdir (wc_handle c) (wc_fs c) (wc_iobs c ++ L) →
  (∀ q q', q ∈ wc_iobs c → q' ∈ L → in_order q q') →
  (∀ q q', q ∈ L → q' ∈ L → version_lt q q' → in_order q q') →
  thread_ok path subdir (set_skiplist t c) L.
Proof using.
  intros B Hwf Hs Hw Hok Hh Ho1 Ho2. pose proof (batch_writes c B) as Hws.
  split; try done; simpl; [by destruct B|].
  clear Hok Hh. induction Hws as [|q l Hq Hl IH]; simpl.
  - clear Ho1. revert Ho2. induction Hs as [|q L Hs IH Hq]; intros Ho2; constructor.
    + apply IH; [eapply window_sub; [|exact Hw]; intros x Hx; by right|].
      intros x y Hx Hy. apply Ho2; by right.
    + rewrite Forall_forall in *. intros q' Hq'. apply Ho2; [by left|by right|by apply Hq].
  - constructor; [apply IH; intros x y Hx Hy; apply Ho1; [by right|done]|]. apply Forall_forall. intros q' Hq'.
    apply elem_of_app in Hq' as [Hq'|Hq'].
    + rewrite Forall_forall in Hl. intros _. split; [exact (proj2 (writes_not_creates q Hq))|].
      exact (proj1 (writes_not_creates q' (Hl q' Hq'))).
    + apply Ho1; [by left|done].
Qed.
Lemma idle_turn_run (path : Z) (subdir : Z → Z) (g_current_time : Z) c L : thread_ok path subdir c L →
  total (Z.to_nat (wc_iovec_bytes c) + 2)
    (c ← wget; match wc_iovec_array c with [] => mret tt | _ => batch_write;; mret tt end) c
    (λ _ c', ∃ l, thread_ok path subdir c' L ∧ wc_iobs c' = [] ∧ wc_skiplist c' = wc_skiplist c ∧
       advances path subdir g_current_time L L l c c').
Proof using.
  intros Ht. apply total_get. pose proof (bo_empty _ (to_batch _ _ _ _ Ht)) as He. destruct (wc_iovec_array c) eqn:Ea.
  - apply total_ret. exists []. split_and!; [done|by apply He|done|apply advances_refl].
  - eapply total_bind0; [apply (flush_run path subdir g_current_time c L Ht)|].
    + intros H. by apply He in H.
    + intros r c1 (k & H1 & H2 & H3 & H4 & H5 & H6). apply total_ret. by exists k.
Qed.

(** What a turn does, from any state of the thread. *)
Lemma write_thread_turn_run (path : Z) (subdir : Z → Z) (g_current_time : Z) c popped n :
  let waiting := sl_level0 (wc_skiplist c) in
  batch_ok c → fs_wf (wc_fs c) → StronglySorted version_lt waiting →
  window (popped ++ waiting) → NoDup (map ib_version (popped ++ waiting)) →
  Forall (iob_ok path subdir) (wc_iobs c ++ popped ++ waiting) →
  handle_good path subdir (wc_handle c) (wc_fs c) (wc_iobs c ++ popped ++ waiting) →
  (∀ q q', q ∈ wc_iobs c → q' ∈ popped ++ waiting → in_order q q') →
  (∀ q q', q ∈ popped ++ waiting → q' ∈ popped ++ waiting → version_lt q q' → in_order q q') →
  plenty (budget (wc_iovec_bytes c) (popped ++ waiting) + n) (answers_of c) →
  ∃ c' sorted l L', write_thread_turn g_current_time popped c = Some (tt, c') ∧
    sorted ≡ₚ popped ++ waiting ∧ StronglySorted version_lt sorted ∧
    map fst l ++ wc_iobs c' ++ L' = wc_iobs c ++ sorted ∧
    wc_notified c' = wc_notified c ++ l ∧ exec path subdir l (wc_fs c) (wc_fs c') ∧
    wc_binlog c' = wc_binlog c ++ l ≫= trunk_record g_current_time ∧
    thread_ok path subdir c' L' ∧ L' = sl_level0 (wc_skiplist c') ∧
    (popped = [] → wc_iobs c' = []) ∧ (wc_allocs c = [] → popped ≠ [] → L' = []) ∧
    wc_terminated c' = wc_terminated c.
Proof using VersionSkiplist0.
  intros waiting B Hwf Hs Hw Hn Hok Hh Ho1 Ho2 Hp. subst waiting.
  destruct (insert_requests_run popped c 0 Hs Hw Hn) as (t & E & P & S).
  set (c1 := set_skiplist t c). set (L := sl_level0 t).
  assert (Ht : thread_ok path subdir c1 L).
  { subst c1 L. assert (Hin : ∀ x, x ∈ sl_level0 t ↔ x ∈ popped ++ sl_level0 (wc_skiplist c)) by (intros x; by rewrite P).
    apply turn_ok; try done.
    - eapply window_sub; [|exact Hw]. intros x. by rewrite Hin.
    - by rewrite P.
    - destruct Hh as [H1 H2]. split; [done|]. intros q Hq. apply H2. by rewrite <- P.
    - intros q q'. rewrite Hin. apply Ho1.
    - intros q q'. rewrite !Hin. apply Ho2. }
  unfold write_thread_turn. unfold mbind at 1, WM_bind at 1.
  change (pop_to_request_skiplist popped c) with (insert_requests popped 0 c). rewrite E.
  destruct (Z.ltb_spec (0 + Z.of_nat (length popped)) 0); [lia|].
  destruct (Z.eqb_spec (0 + Z.of_nat (length popped)) 0) as [E0|E0].
  - assert (popped = []) as -> by (destruct popped; [done|simpl in E0; lia]). clear E0.
    destruct (idle_turn_run path subdir g_current_time c1 L Ht n) as (u & c' & Ec & Hc & _).
    { eapply plenty_le; [exact Hp|]. unfold budget. simpl. lia. }
    destruct u. destruct Hc as (l & H1 & H2 & H3 & [A1 A2 A3 A4 A5 A6]).
    exists c', L, l, L. split_and!; try done; by rewrite H3.
  - destruct (deal_requests_run path subdir g_current_time (length L) L c1 0 (le_n _) eq_refl Ht n) as (u & c' & Ec & Hc & _).
    { eapply plenty_le; [exact Hp|]. unfold budget, L. simpl. rewrite P. lia. }
    destruct u. destruct Hc as (l & L' & H1 & H2 & [A1 A2 A3 A4 A5 A6] & H4).
    exists c', L, l, L'. split_and!; try done; [by intros ->; destruct E0|by intros Hal _; apply H4].
Qed.

(** C4: one turn of a write thread, on the requests [popped] from its queue: whatever the
    system answers to the calls, the turn ends, and the requests of the batch and the waiting
    and new requests, in the order of their versions, have been performed and notified once
    each, one after the other, up to those the thread still keeps in the batch (none when the
    queue was empty) or could not get memory for. A write notified with 0 has its bytes on
    the disk and any other touched only its own space; the trunk binlog has one record for
    each trunk created or deleted. *)
Theorem write_thread_turn_refines (path : Z) (subdir : Z → Z) (g_current_time : Z) c popped n :
  let waiting := sl_level0 (wc_skiplist c) in
  batch_ok c → fs_wf (wc_fs c) → StronglySorted version_lt waiting →
  window (popped ++ waiting) → NoDup (map ib_version (popped ++ waiting)) →
  Forall (iob_ok path subdir) (wc_iobs c ++ popped ++ waiting) →
  handle_good path subdir (wc_handle c) (wc_fs c) (wc_iobs c ++ popped ++ waiting) →
  (∀ q q', q ∈ wc_iobs c → q' ∈ popped ++ waiting → in_order q q') →
  (∀ q q', q ∈ popped ++ waiting → q' ∈ popped ++ waiting → version_lt q q' → in_order q q') →
  plenty (budget (wc_iovec_bytes c) (popped ++ waiting) + n) (answers_of c) →
  ∃ c' sorted l L', write_thread_turn g_current_time popped c = Some (tt, c') ∧
    sorted ≡ₚ popped ++ waiting ∧ StronglySorted version_lt sorted ∧
    map fst l ++ wc_iobs c' ++ L' = wc_iobs c ++ sorted ∧
    wc_notified c' = wc_notified c ++ l ∧ exec path subdir l (wc_fs c) (wc_fs c') ∧
    wc_binlog c' = wc_binlog c ++ l ≫= trunk_record g_current_time ∧
    thread_ok path subdir c' L' ∧ L' = sl_level0 (wc_skiplist c') ∧
    (popped = [] → wc_iobs c' = []) ∧ (wc_allocs c = [] → popped ≠ [] → L' = []) ∧
    wc_terminated c' = wc_terminated c.
Proof using VersionSkiplist0. apply write_thread_turn_run. Qed.
End Turn.
