(* ===== verification/TrunkWriteDemo.v ===== *)
(** * A turn of a write thread on a concrete queue *)
From S2P Require Import Prelude Types Skiplist ObSlices ObSlicesRun TrunkAllocator StorageAllocator.
From S2P Require Import ObIndex Binlog SliceOp DataThread TrunkWrite TrunkWriteSpec.
From S2P Require Import TrunkWriteThms TrunkWriteLoop.

(** ** The requests the data threads push *)

(** [iob] is what [trunk_write_thread_push] makes of the data of [w]: the buffer that starts
    with them, or vectors of exactly these bytes. *)
Definition holds_data (w : WriteRequest) (iob : TrunkWriteIOBuffer) : Prop :=
  ib_version iob = wr_version w ∧ slice_of iob = Some (wr_slice w) ∧
  Z.of_nat (length (wr_data w)) = slen (wr_slice w) ∧
  match ib_request iob with
  | FS_IO_WRITE_SLICE_BY_BUFF _ buff => ∀ i x, wr_data w !! i = Some x → buff (Z.of_nat i) = x
  | FS_IO_WRITE_SLICE_BY_IOVEC _ iovs => iovs_bytes iovs = wr_data w
  | _ => False
  end.

Lemma image_prefix path subdir w iob : iob_ok path subdir iob → holds_data w iob →
  ∃ rest, image iob = wr_data w ++ rest.
Proof.
  intros Hok (Hv & Hs & Hl & Hd). pose proof (io_slice _ _ _ Hok _ Hs) as Hle.
  pose proof (io_fits _ _ _ Hok) as Hfit. unfold image, append_iovecs, fits, slice_of in *.
  destruct (ib_request iob) as [sp|sp|s buff|s iovs]; try done; injection Hs as ->.
  - exists (map buff (seqZ (Z.of_nat (length (wr_data w))) (size_of iob - Z.of_nat (length (wr_data w))))).
    unfold iovs_bytes. simpl. rewrite app_nil_r. unfold iov_bytes; simpl.
    replace (size_of iob) with (Z.of_nat (length (wr_data w)) + (size_of iob - Z.of_nat (length (wr_data w)))) at 1 by lia.
    rewrite seqZ_app by lia. rewrite map_app. f_equal. unfold bytes in *. apply list_eq. intros i.
    change (map buff ?l) with (buff <$> l). rewrite list_lookup_fmap.
    destruct (decide (i < length (wr_data w))%nat) as [Hi|Hi].
    + destruct (lookup_lt_is_Some_2 _ _ Hi) as [x Hx]. rewrite lookup_seqZ_lt, Hx, Z.add_0_l by lia.
      cbn. by rewrite (Hd i x Hx).
    + rewrite (lookup_ge_None_2 (wr_data w)) by lia. by rewrite lookup_seqZ_ge by lia.
  - destruct Hfit as (Hne & Hvec & Hsum). destruct (exists_last Hne) as (l & v & ->).
    apply Forall_app in Hvec as [Hl' [Hv' _]%Forall_cons].
    assert (Hgen : ∀ n, 0 <= n → ∃ rest, iovs_bytes (l ++ [mkIovec (iov_base v) (iov_len v + n)]) =
      iovs_bytes (l ++ [v]) ++ rest).
    { intros n Hn. exists (map (iov_base v) (seqZ (iov_len v) n)). rewrite !iovs_bytes_app, <- app_assoc. f_equal.
      unfold iovs_bytes; simpl. rewrite !app_nil_r. unfold iov_bytes; simpl. rewrite seqZ_app by lia. by rewrite map_app. }
    rewrite <- Hd. set (vs := l ++ [v]) in *.
    assert (Hpad : ∃ rest, iovs_bytes (if 0 <? size_of iob - sumZ iov_len vs
      then pad_last (size_of iob - sumZ iov_len vs) ([] ++ vs) else [] ++ vs) = iovs_bytes vs ++ rest).
    { destruct (Z.ltb_spec 0 (size_of iob - sumZ iov_len vs)) as [Hp|Hp].
      - unfold vs at 2. simpl app at 1. rewrite pad_last_snoc. apply Hgen. lia.
      - exists []. by rewrite app_nil_r. }
    destruct l as [|v1 l]; simpl in vs; subst vs; simpl; [|by destruct (l ++ [v]) eqn:E; [destruct l|]].
    destruct (Hgen (size_of iob - iov_len v)) as [rest Hr]; [rewrite sumZ_cons, sumZ_nil in Hsum; lia|].
    exists rest. simpl in Hr. rewrite <- Hr. do 3 f_equal. lia.
Qed.

(** The bytes that a request may change: those of the space of its slice, or the whole file of
    the trunk that it creates or deletes. *)
Definition touches (q : TrunkWriteIOBuffer) (st id pos : Z) : Prop :=
  match slice_of q with
  | Some s => in_space (se_space s) st id pos
  | None => st = sp_store (space_of q) ∧ id = trunk_of q
  end.

Section Lands.
Variables (path : Z) (subdir : Z → Z).
Lemma performs_keeps q r fs fs' st id pos :
  iob_ok path subdir q → performs path subdir q r fs fs' → ¬ touches q st id pos →
  disk_of subdir fs' st id pos = disk_of subdir fs st id pos.
Proof using.
  intros Hok Hp Hn. unfold touches in Hn. destruct (slice_of q) as [s|] eqn:Hs.
  - destruct (proj1 (performs_write path subdir q s r fs fs' Hs) Hp) as [_ Hu].
    destruct (r =? 0); [destruct Hu as [Hu _]|]; by apply Hu.
  - rewrite (io_store _ _ _ Hok) in Hn. unfold performs in Hp. unfold slice_of in Hs.
    destruct (ib_request q); try done; destruct Hp as [[Hp _] _]; by apply Hp.
Qed.
Lemma exec_keeps l fs fs' st id pos :
  exec path subdir l fs fs' → Forall (iob_ok path subdir) (map fst l) →
  (∀ q r, (q, r) ∈ l → ¬ touches q st id pos) → disk_of subdir fs' st id pos = disk_of subdir fs st id pos.
Proof using.
  induction 1 as [fs fs' S|q r l fs fs1 fs' Hp _ IH]; intros Hok Hn; [by apply same_fs_disk|].
  apply Forall_cons in Hok as [Hq Hok]. rewrite IH; [|done|].
  - eapply performs_keeps; [exact Hq|exact Hp|]. apply (Hn q r). by left.
  - intros q' r' Hin. apply (Hn q' r'). by right.
Qed.
Lemma exec_split l1 q r l2 fs fs' : exec path subdir (l1 ++ (q, r) :: l2) fs fs' →
  ∃ fs1 fs2, performs path subdir q r fs1 fs2 ∧ exec path subdir l2 fs2 fs'.
Proof using.
  revert fs. induction l1 as [|[q1 r1] l1 IH]; intros fs H; inversion H; subst; eauto.
Qed.
Lemma exec_lands l1 q l2 w i fs fs' :
  exec path subdir (l1 ++ (q, 0) :: l2) fs fs' → Forall (iob_ok path subdir) (map fst (l1 ++ (q, 0) :: l2)) →
  holds_data w q → 0 <= i < slen (wr_slice w) →
  let sp := se_space (wr_slice w) in
  (∀ q' r, (q', r) ∈ l2 → ¬ touches q' (sp_store sp) (ti_id (sp_id_info sp)) (sp_offset sp + i)) →
  wr_data w !! Z.to_nat i = Some (disk_of subdir fs' (sp_store sp) (ti_id (sp_id_info sp)) (sp_offset sp + i)).
Proof using.
  intros He Hok Hw Hi sp Hl. destruct (exec_split _ _ _ _ _ _ He) as (fs1 & fs2 & Hp & He2).
  rewrite map_app in Hok. apply Forall_app in Hok as [_ [Hq Hok]%Forall_cons].
  rewrite (exec_keeps _ _ _ _ _ _ He2 Hok Hl).
  destruct (image_prefix path subdir w q Hq Hw) as [rest Him]. destruct Hw as (Hv & Hs & Hlen & _).
  assert (Hpu : pushed w q).
  { split_and!; [done|done|]. intros j Hj. rewrite Him. unfold bytes in *. by rewrite lookup_app_l by lia. }
  apply (performs_pushed path subdir w q 0 fs1 fs2 Hpu) in Hp as [_ Hp]. by apply Hp.
Qed.
End Lands.

Section Turn.
Context {T : Type} `{!UniqSkiplist TrunkWriteIOBuffer T} `{!VersionSkiplist T}.
Implicit Types (c : WriteCtx T) (q : TrunkWriteIOBuffer).

(** C5: the data that the data threads push arrive in the trunk files. In a turn of a write
    thread on the requests [popped] from its queue, whatever the system answers to its calls,
    a request is notified once or still kept. Take a request that is notified with 0 and
    whose buffer, or whose vectors (of the exact lengths of the data: it is the thread that
    lengthens the last one up to the aligned size), hold the data of the write [w]: after the
    turn the disk has these data at the place of the slice, except where a request notified
    later changes the same bytes. And what no notified request touches is as before. *)
Theorem pushed_write_lands (path : Z) (subdir : Z → Z) (g_current_time : Z) c popped n :
  let waiting := sl_level0 (wc_skiplist c) in
  batch_ok c → fs_wf (wc_fs c) → StronglySorted version_lt waiting →
  window (popped ++ waiting) → NoDup (map ib_version (popped ++ waiting)) →
  Forall (iob_ok path subdir) (wc_iobs c ++ popped ++ waiting) →
  handle_good path subdir (wc_handle c) (wc_fs c) (wc_iobs c ++ popped ++ waiting) →
  (∀ q q', q ∈ wc_iobs c → q' ∈ popped ++ waiting → in_order q q') →
  (∀ q q', q ∈ popped ++ waiting → q' ∈ popped ++ waiting → version_lt q q' → in_order q q') →
  plenty (budget (wc_iovec_bytes c) (popped ++ waiting) + n) (answers_of c) →
  ∃ c' l, write_thread_turn g_current_time popped c = Some (tt, c') ∧
    wc_notified c' = wc_notified c ++ l ∧
    map fst l ++ wc_iobs c' ++ sl_level0 (wc_skiplist c') ≡ₚ wc_iobs c ++ popped ++ waiting ∧
    (∀ l1 q l2 w i, l = l1 ++ (q, 0) :: l2 → holds_data w q → 0 <= i < slen (wr_slice w) →
      let sp := se_space (wr_slice w) in
      (∀ q' r, (q', r) ∈ l2 → ¬ touches q' (sp_store sp) (ti_id (sp_id_info sp)) (sp_offset sp + i)) →
      wr_data w !! Z.to_nat i =
        Some (disk_of subdir (wc_fs c') (sp_store sp) (ti_id (sp_id_info sp)) (sp_offset sp + i))) ∧
    (∀ st id pos, (∀ q r, (q, r) ∈ l → ¬ touches q st id pos) →
      disk_of subdir (wc_fs c') st id pos = disk_of subdir (wc_fs c) st id pos).
Proof using VersionSkiplist0.
  intros waiting B Hwf Hs Hw Hn Hok Hh Ho1 Ho2 Hp.
  destruct (write_thread_turn_run path subdir g_current_time c popped n B Hwf Hs Hw Hn Hok Hh Ho1 Ho2 Hp) as
    (c' & sorted & l & L' & E & P & _ & Hl & Hno & He & _ & _ & -> & _).
  assert (Hperm : map fst l ++ wc_iobs c' ++ sl_level0 (wc_skiplist c') ≡ₚ wc_iobs c ++ popped ++ waiting)
    by (by rewrite Hl, P).
  assert (Hokl : Forall (iob_ok path subdir) (map fst l)).
  { rewrite <- Hperm in Hok. by apply Forall_app in Hok as [? _]. }
  exists c', l. split_and!; [done|done|done| |].
  - intros l1 q l2 w i -> Hd Hi sp Hl2. by eapply exec_lands.
  - intros st id pos Hnt. by eapply exec_keeps.
Qed.
End Turn.

(** ** A queue of four requests *)
Module WriteDemo.
Definition sp (id off size : Z) : FSTrunkSpaceInfo := mkTrunkSpace 0 (mkTrunkId id 1) off size.
Definition sl (id off size len : Z) : OBSliceEntry :=
  mkSlice off 0 OB_SLICE_TYPE_FILE (mkSliceSize off len) (sp id off size).
Definition create5 := mkIob 1 (FS_IO_CREATE_TRUNK (sp 5 0 64)) true.
Definition first := mkIob 2 (FS_IO_WRITE_SLICE_BY_BUFF (sl 5 0 8 7) (λ i, 10 + i)) true.
Definition second := mkIob 3 (FS_IO_WRITE_SLICE_BY_IOVEC (sl 5 8 8 6)
  [mkIovec (λ i, 30 + i) 4; mkIovec (λ i, 40 + i) 2]) true.
Definition delete9 := mkIob 4 (FS_IO_DELETE_TRUNK (sp 9 0 64)) true.
Definition popped := [second; delete9; create5; first].
(** The directory is missing at first; the [writev] takes 5 bytes, is interrupted, takes
    none, and then the rest. *)
Definition files := mkFs ∅ {[ (0, 1, 9) := 3 ]} (λ _ _, 0) 4 ([0; 0; 0; 0; 0; 5; -4; 0; 100; 0] ++ repeat 1 50).
Definition ctx : WriteCtx (list TrunkWriteIOBuffer) :=
  mkCtx (mkHandle 0 0 None) [] 0 [] [] 0 files [] [] [] false.
Definition result := write_thread_turn 1600000000 popped ctx.
Definition summary (x : option (unit * WriteCtx (list TrunkWriteIOBuffer))) :=
  match x with
  | None => None
  | Some (_, c) => Some (map (λ p, (ib_version p.1, p.2)) (wc_notified c), length (wc_iobs c),
      length (wc_binlog c), map (disk_of (λ _, 1) (wc_fs c) 0 5) (seqZ 0 16))
  end.
Example summary_is : summary result = Some ([(1, 0); (2, 0); (3, 0); (4, 0)], 0%nat, 2%nat,
  [10; 11; 12; 13; 14; 15; 16; 17; 30; 31; 32; 33; 40; 41; 42; 43]).
Proof. vm_compute. reflexivity. Qed.

Lemma all_ok : Forall (iob_ok 0 (λ _, 1)) popped.
Proof.
  repeat constructor; try done; try (by intros []); try (by intros s [=]); try (by intros s [= <-]).
  all: try (vm_compute; lia). all: intros _; vm_compute; split; [done|discriminate].
Qed.
Lemma popped_order q q' : q ∈ popped → q' ∈ popped → version_lt q q' → in_order q q'.
Proof.
  unfold popped. rewrite !elem_of_cons, !elem_of_nil. unfold version_lt, in_order.
  intros [->|[->|[->|[->|[]]]]] [->|[->|[->|[->|[]]]]]; cbn; intros H1 H2; try lia; split; intros []; lia.
Qed.

Lemma write_thread_turn_refines_witness : ∃ c' l, write_thread_turn 1600000000 popped ctx = Some (tt, c') ∧
  exec 0 (λ _, 1) l files (wc_fs c') ∧ map (λ p, (ib_version p.1, p.2)) l = [(1, 0); (2, 0); (3, 0); (4, 0)].
Proof.
  destruct (write_thread_turn_refines 0 (λ _, 1) 1600000000 ctx popped 0) as
    (c' & sorted & l & L' & E & _ & _ & _ & Hn & Hex & _).
  - by apply batch_ok_empty.
  - split; simpl.
    + intros n1 n2 i. rewrite !lookup_singleton_Some. by intros [<- _] [<- _].
    + intros n i. rewrite lookup_singleton_Some. intros [_ <-]. lia.
  - constructor.
  - intros x y Hx Hy. rewrite app_nil_r in *. unfold popped in *. rewrite !elem_of_cons, !elem_of_nil in *.
    destruct Hx as [->|[->|[->|[->|[]]]]], Hy as [->|[->|[->|[->|[]]]]]; cbn; lia.
  - apply (bool_decide_unpack _). vm_compute. exact I.
  - rewrite app_nil_r. exact all_ok.
  - rewrite app_nil_r. split; [done|]. intros q Hq Ht. pose proof all_ok as Hok. rewrite Forall_forall in Hok.
    pose proof (io_trunk _ _ _ (Hok q Hq)) as Hpos. simpl in Ht. lia.
  - intros q q' Hq. by apply elem_of_nil in Hq.
  - rewrite app_nil_r. exact popped_order.
  - apply (bool_decide_unpack _). vm_compute. exact I.
  - exists c', l. split_and!; [exact E|exact Hex|]. pose proof summary_is as S. unfold result, summary in S.
    rewrite E in S. rewrite Hn in S. injection S as S _ _ _. exact S.
Defined.

(** The second request, of two vectors of together 6 bytes, in a space of 8. *)
Definition second_write := mkWrite 3 (sl 5 8 8 6) [30; 31; 32; 33; 40; 41].
Lemma second_holds : holds_data second_write second.
Proof. split_and!; done. Qed.
Lemma pushed_write_lands_witness : ∃ c', write_thread_turn 1600000000 popped ctx = Some (tt, c') ∧
  ∀ i, 0 <= i < 6 → wr_data second_write !! Z.to_nat i = Some (disk_of (λ _, 1) (wc_fs c') 0 5 (8 + i)).
Proof.
  destruct (pushed_write_lands 0 (λ _, 1) 1600000000 ctx popped 0) as (c' & l & E & Hn & _ & H & _).
  - by apply batch_ok_empty.
  - split; simpl.
    + intros n1 n2 i. rewrite !lookup_singleton_Some. by intros [<- _] [<- _].
    + intros n i. rewrite lookup_singleton_Some. intros [_ <-]. lia.
  - constructor.
  - intros x y Hx Hy. rewrite app_nil_r in *. unfold popped in *. rewrite !elem_of_cons, !elem_of_nil in *.
    destruct Hx as [->|[->|[->|[->|[]]]]], Hy as [->|[->|[->|[->|[]]]]]; cbn; lia.
  - apply (bool_decide_unpack _). vm_compute. exact I.
  - rewrite app_nil_r. exact all_ok.
  - rewrite app_nil_r. split; [done|]. intros q Hq Ht. pose proof all_ok as Hok. rewrite Forall_forall in Hok.
    pose proof (io_trunk _ _ _ (Hok q Hq)) as Hpos. simpl in Ht. lia.
  - intros q q' Hq. by apply elem_of_nil in Hq.
  - rewrite app_nil_r. exact popped_order.
  - apply (bool_decide_unpack _). vm_compute. exact I.
  - exists c'. split; [exact E|]. intros i Hi.
    assert (Hl : ∃ l1 l2, l = l1 ++ (second, 0) :: l2 ∧ ∀ q r, (q, r) ∈ l2 → q = delete9).
    { exists [(create5, 0); (first, 0)], [(delete9, 0)]. split.
      - assert (Ec : (λ x, wc_notified x.2) <$> write_thread_turn 1600000000 popped ctx =
          Some ([(create5, 0); (first, 0)] ++ (second, 0) :: [(delete9, 0)])) by (vm_compute; reflexivity).
        rewrite E in Ec. cbn in Ec. rewrite Hn in Ec. cbn in Ec. by injection Ec as Ec.
      - intros q r. rewrite list_elem_of_singleton. by intros [= -> _]. }
    destruct Hl as (l1 & l2 & El & Hl2).
    apply (H l1 second l2 second_write i El second_holds Hi).
    intros q r Hin. rewrite (Hl2 q r Hin). cbn. intros [_ ?]. lia.
Defined.
End WriteDemo.
