(* ===== verification/DataThreadThms.v ===== *)
(** * An operation on a data thread

    A write, whatever order its disk I/O completes in, leaves the wait exactly when the last
    I/O is done, and the bytes of the store are then those of the abstract one: the data in
    the extent, everything else as before. *)
From stdpp Require Import sorting.
From S2P Require Import Prelude Types Skiplist ObSlices ObSlicesRun.
From S2P Require Import ObSlicesThms ObSlicesMain ObIndex ObIndexSpec ObIndexOps.
From S2P Require Import ObIndexThms ObIndexMain TrunkAllocator StorageAllocator StorageAllocSpec.
From S2P Require Import StorageAllocThms StorageAllocUsed StoreAlloc Binlog SliceOp StoreWrite.
From S2P Require Import StoreWrite DataThread.

(** ** Places on the disk *)
Definition disk_at (d : Disk) (loc : DiskLoc) : Z := d (dl_store loc) (ti_id (dl_trunk loc)) (dl_pos loc).
Definition data_placed (w : WriteRequest) (d : Disk) : Prop := ∀ i, 0 <= i < slen (wr_slice w) →
  wr_data w !! Z.to_nat i = Some (d (sp_store (se_space (wr_slice w)))
    (ti_id (sp_id_info (se_space (wr_slice w)))) (sp_offset (se_space (wr_slice w)) + i)).
Definition request_space (w : WriteRequest) : OBSliceEntry := whole (se_space (wr_slice w)).

Lemma in_space_holds sp st id pos :
  in_space sp st id pos → ∃ loc, holds (whole sp) loc ∧ dl_store loc = st ∧ ti_id (dl_trunk loc) = id ∧ dl_pos loc = pos.
Proof.
  intros (-> & -> & Hp). exists (loc_at (whole sp) (pos - sp_offset sp)). split.
  - exists (pos - sp_offset sp). split; [apply covers_whole; lia|done].
  - split_and!; [done|done|]. simpl. change (soff (whole sp)) with 0. lia.
Qed.
Lemma apart_in_space sp1 sp2 st id pos :
  apart (whole sp1) (whole sp2) → in_space sp1 st id pos → ¬ in_space sp2 st id pos.
Proof.
  intros Ha H1 H2. destruct (in_space_holds _ _ _ _ H1) as (l1 & L1 & A1 & B1 & C1).
  destruct (in_space_holds _ _ _ _ H2) as (l2 & L2 & A2 & B2 & C2).
  apply (Ha l1 l2 L1 L2). split_and!; congruence.
Qed.
Lemma placed_untouched w w' d d' :
  apart (request_space w') (request_space w) → slen (wr_slice w') <= sp_size (se_space (wr_slice w')) →
  untouched w d d' → data_placed w' d → data_placed w' d'.
Proof.
  intros Ha Hl Hu Hp i Hi. rewrite Hu; [by apply Hp|].
  eapply apart_in_space; [exact Ha|]. split_and!; [done|done|lia..].
Qed.
Lemma remove_at_perm {B} i (l : list B) x : l !! i = Some x → l ≡ₚ x :: remove_at i l.
Proof. intros H. unfold remove_at. rewrite <- delete_take_drop. by apply delete_Permutation. Qed.
Lemma remove_at_length {B} i (l : list B) x :
  l !! i = Some x → Z.of_nat (length (remove_at i l)) = Z.of_nat (length l) - 1.
Proof. intros H. rewrite (Permutation_length (remove_at_perm i l x H)). simpl. lia. Qed.

Section Thms.
Context {T : Type} `{!UniqSkiplist OBSliceEntry T} `{!UniqSkiplistSpec slice_compare}.
Implicit Types (s : OpState T) (ix : Index T Mgr) (k : FSBlockKey) (b v : Z) (th : Thread T)
  (base : Z → Z → Z) (ext : Z → Z) (R : list OBSliceEntry) (d : Disk).

(** The store, as the bytes of its blocks: the abstract state of a data server. *)
Definition content d ix k b v : Prop := ∃ loc, maps ix k b loc ∧
  v = match dl_type loc with OB_SLICE_TYPE_ALLOC => 0 | OB_SLICE_TYPE_FILE => disk_at d loc end.

(** ** While a write is on disk *)
Record write_inv s0 ix d0 (pairs : list FSSliceSNPair) (reqs : list WriteRequest) th : Prop := {
  wi_index : os_index (th_state th) = ix;
  wi_sarray : op_sarray (os_op (th_state th)) = pairs;
  wi_info : same_info (os_op s0) (os_op (th_state th)) ∧ os_version (th_state th) = os_version s0 ∧
    os_slice_log (th_state th) = os_slice_log s0 ∧ os_replica_log (th_state th) = os_replica_log s0;
  wi_reads : os_reads (th_state th) = [];
  wi_done : ∃ fin, reqs ≡ₚ fin ++ os_writes (th_state th) ∧
    (op_result (os_op (th_state th)) = 0 → Forall (λ w, data_placed w (th_disk th)) fin);
  wi_counter : op_counter (os_op (th_state th)) = Z.of_nat (length (os_writes (th_state th)));
  wi_count : (length (os_writes (th_state th)) <= 2)%nat;
  wi_notify : th_notify_done th = true ↔ os_writes (th_state th) = [];
  wi_disk : ∀ st id pos, (∀ w, w ∈ reqs → ¬ in_space (se_space (wr_slice w)) st id pos) →
    th_disk th st id pos = d0 st id pos;
  wi_result : 0 <= op_result (os_op (th_state th)) < 2 ^ 15;
}.

Lemma slice_write_done_run sl result s :
  slice_write_done sl result s = Ret (inr tt)
    (let n := cast16 (op_counter (os_op s) - 1) in
     mkState (op_set_io n (if result =? 0 then op_result (os_op s) else cast16 result)
                (if result =? 0 then op_done_bytes (os_op s) + slen sl else op_done_bytes (os_op s)) (os_op s))
       (os_index s) (os_version s) (if n =? 0 then os_callbacks s + 1 else os_callbacks s)
       (os_writes s) (os_reads s) (os_slice_log s) (os_replica_log s)).
Proof using. unfold slice_write_done, io_done, io_count_down. rewrite !omod_run. by destruct (result =? 0). Qed.

Lemma write_inv_done s0 ix d0 pairs reqs th i w result s d :
  StronglySorted apart (request_space <$> reqs) →
  Forall (λ w, slen (wr_slice w) <= sp_size (se_space (wr_slice w))) reqs →
  write_inv s0 ix d0 pairs reqs th →
  os_writes (th_state th) !! i = Some w → 0 <= result < 2 ^ 15 →
  (if result =? 0 then wrote w (th_disk th) d else untouched w (th_disk th) d) →
  slice_write_done (wr_slice w) result (set_writes (remove_at i (os_writes (th_state th))) (th_state th))
    = Ret (inr tt) s →
  write_inv s0 ix d0 pairs reqs (set_disk d (set_state s th)).
Proof using.
  intros Ha Hf [I1 I2 I3 I4 (fin & I5 & I5') I6 I7 I8 I9 I10] Hw Hr Hd.
  rewrite slice_write_done_run. cbn zeta. simpl. intros [= <-].
  set (ws := os_writes (th_state th)) in *. pose proof (remove_at_length _ _ _ Hw) as Hlen.
  pose proof (remove_at_perm _ _ _ Hw) as Hperm.
  assert (Hn : cast16 (op_counter (os_op (th_state th)) - 1) = Z.of_nat (length (remove_at i ws))).
  { unfold cast16. rewrite I6, Z.mod_small by lia. lia. }
  rewrite Hn. assert (Hu : untouched w (th_disk th) d) by (case_match; [apply Hd|done]).
  assert (Hreqs : reqs ≡ₚ w :: fin ++ remove_at i ws).
  { rewrite I5. etransitivity; [by apply Permutation_app_head, Hperm|]. by rewrite <- Permutation_middle. }
  assert (Hws : ws ≠ []) by (intros E; by rewrite E in Hw).
  assert (Hnf : th_notify_done th = false).
  { destruct (th_notify_done th); [|done]. exfalso. by apply Hws, I8. }
  assert (Hres : cast16 result = result) by (unfold cast16; rewrite Z.mod_small by lia; lia).
  split; simpl; try done.
  - exists (w :: fin). split; [done|].
    intros Hz. assert (result = 0 ∧ op_result (os_op (th_state th)) = 0) as [-> Hz0].
    { destruct (Z.eqb_spec result 0); [done|]. lia. }
    simpl in Hd. constructor; [exact (proj2 Hd)|]. rewrite Forall_forall. intros w' Hw'.
    assert (Hin : ∀ x, x ∈ fin → x ∈ reqs) by (intros x Hx; rewrite I5; apply elem_of_app; by left).
    eapply (placed_untouched w); [|by rewrite Forall_forall in Hf; auto|done|].
    + apply (apart_perm _ (request_space <$> (w :: fin ++ remove_at i ws))) in Ha; [|by rewrite Hreqs].
      rewrite fmap_cons in Ha. inversion Ha as [|? ? _ Hall]; subst. symmetry.
      rewrite Forall_forall in Hall. apply Hall. apply list_elem_of_fmap. exists w'. split; [done|].
      apply elem_of_app. by left.
    + specialize (I5' Hz0). rewrite Forall_forall in I5'. auto.
  - unfold ws in *. lia.
  - rewrite Hnf. simpl. destruct (Z.eqb_spec (Z.of_nat (length (remove_at i ws))) 0) as [E|E]; simpl.
    + split; [intros _; by apply nil_length_inv; lia|].
      intros _. apply negb_true_iff, Z.eqb_neq. lia.
    + split; [|intros E2; by rewrite E2 in E].
      intros E2. apply negb_true_iff, Z.eqb_neq in E2. lia.
  - intros st id pos Hn'. rewrite Hu; [by apply I9|]. apply Hn'. rewrite Hreqs. by left.
  - rewrite Hres. case_match; [done|lia].
Qed.

Lemma chunks_lookup l data o e p b :
  tiles o (pr_slice <$> l) e → p ∈ l → covers (pr_slice p) b →
  ∃ w, w ∈ chunks l data ∧ wr_slice w = pr_slice p ∧
    wr_data w !! Z.to_nat (b - soff (pr_slice p)) = data !! Z.to_nat (b - o).
Proof using.
  revert o data. induction l as [|x l IH]; intros o data; [by intros _ ?%elem_of_nil|].
  rewrite fmap_cons. intros (Ho & Hp & Ht) [->|Hin]%elem_of_cons Hc; cbn [chunks].
  - eexists. split; [by left|]. split; [done|]. simpl. unfold covers, send in Hc.
    etransitivity; [apply lookup_take_lt; lia|]. f_equal. lia.
  - destruct (IH _ (drop (Z.to_nat (slen (pr_slice x))) data) Ht Hin Hc) as (w & Hw & E1 & E2).
    exists w. split; [by right|]. split; [done|]. rewrite E2. etransitivity; [apply lookup_drop|]. f_equal.
    assert (send (pr_slice x) <= soff (pr_slice p)).
    { apply (tiles_bounds _ _ _ (pr_slice p) Ht). apply list_elem_of_fmap. eauto. }
    unfold covers, send in *. lia.
Qed.
Lemma chunks_slices l data : wr_slice <$> chunks l data = pr_slice <$> l.
Proof using. revert data. induction l as [|p l IH]; intros data; [done|]. cbn [chunks]. by rewrite !fmap_cons, IH. Qed.
Lemma chunks_spaces l data : request_space <$> chunks l data = spaces_of l.
Proof using.
  change request_space with (λ w, whole (se_space (wr_slice w))). unfold spaces_of.
  rewrite (list_fmap_compose wr_slice (λ sl, whole (se_space sl))), chunks_slices.
  by rewrite <- list_fmap_compose.
Qed.

(** ** From the call to the wait *)
Context (now : Z) (continue_flag : bool) (discard_remain_space_size : Z).
Context (blocked : Z → Mgr → Mgr) (retries : nat) (failover : bool).
Context (Hused : ∀ i m, used_kept m (blocked i m)).
Context (Haligned : ∀ i m, aligned8 m → aligned8 (blocked i m)).
Context (Hdiscard : 0 < discard_remain_space_size).
Context (Hspace : ∀ i m, alloc_safe m → alloc_safe (blocked i m) ∧ space_mono m (blocked i m)).
Abbreviation step := (step now continue_flag discard_remain_space_size blocked retries failover).
Abbreviation write_call := (fs_slice_write now continue_flag discard_remain_space_size blocked retries None).

(** A write was started: the slices of the array are reserved, their data queued. *)
Definition write_started ext R ix0 d0 ctx (s0 : OpState T) th : Prop :=
  ∃ base' ext' pairs, let bs := op_bs_key ctx in
    write_inv s0 (os_index (th_state th)) d0 pairs (chunks pairs (op_buff ctx)) th ∧
    store_ok base' ext' (spaces_of pairs ++ R) (os_index (th_state th)) ∧
    reserved (bs_block bs) OB_SLICE_TYPE_FILE (extent_start bs) (extent_end bs) ext ext'
      (os_index (th_state th)) (pr_slice <$> pairs) ∧
    same_maps ix0 (os_index (th_state th)).

Lemma write_started_call base ext R th ctx s1 :
  th_notify_done th = false → os_writes (th_state th) = [] → os_reads (th_state th) = [] →
  store_ok base ext R (os_index (th_state th)) → extent_ok (op_bs_key ctx) →
  write_call (set_op ctx (th_state th)) = Ret (inr tt) s1 →
  write_started ext R (os_index (th_state th)) (th_disk th) ctx (set_op ctx (th_state th)) (set_state s1 th).
Proof using All.
  intros Hn Hw Hr S Hx E. set (s0 := set_op ctx (th_state th)) in *.
  pose proof (fs_slice_write_run now continue_flag discard_remain_space_size blocked retries
    Hused Haligned Hdiscard Hspace base ext R s0 S Hx) as H. rewrite E in H.
  destruct H as (K & M & V & L1 & L2 & Rd & I & base' & ext' & He & H). cbn zeta in H.
  destruct H as ((S1 & Rs & C1 & C2 & C3 & C4 & C5 & Cb) & W).
  change (os_writes s0) with (os_writes (th_state th)) in W. rewrite Hw in W. simpl in W.
  exists base', ext', (op_sarray (os_op s1)). split_and!; [|done|done|done].
  change (op_buff (os_op s0)) with (op_buff ctx) in W.
  assert (Hlen : length (chunks (op_sarray (os_op s1)) (op_buff ctx)) = length (op_sarray (os_op s1))).
  { rewrite <- (length_fmap wr_slice), chunks_slices. apply length_fmap. }
  split; simpl; try done.
  - rewrite Rd. exact Hr.
  - exists []. split; [by rewrite W|constructor].
  - by rewrite W, Hlen.
  - rewrite W, Hlen. lia.
  - rewrite Hn, Cb. change (os_callbacks s0) with (os_callbacks (th_state th)).
    rewrite Z.eqb_refl. simpl. rewrite W. split; [done|]. intros E2. rewrite E2 in Hlen. simpl in Hlen. lia.
  - rewrite C3. lia.
Qed.

Lemma set_state_self th : set_state (th_state th) th = th.
Proof using. unfold set_state. rewrite Z.eqb_refl, orb_false_r. by destruct th. Qed.

(** A step while the operation waits. *)
Definition busy (pc : Pc) op : Prop := pc = PcIssued op 0 ∨ pc = PcWait op.
Definition steps_of op : relation (Pc * Thread T) := λ x y, step x y ∧ busy x.1 op.

Lemma write_started_step ext R ix0 d0 ctx s0 op pc th pc' th' :
  do_operation op = DATA_OPERATION_SLICE_WRITE → busy pc op →
  write_started ext R ix0 d0 ctx s0 th → step (pc, th) (pc', th') →
  busy pc' op ∧ write_started ext R ix0 d0 ctx s0 th' ∨
  pc' = PcFinish op ∧ th_notify_done th = true ∧
    ∃ r s, fs_write_finish (th_state th) = Ret r s ∧ th' = set_state s (set_notify false th).
Proof using.
  intros Hop Hb (base' & ext' & pairs & I & S & Rs & M) Hst.
  inversion Hst as [|op' result th0|pc0 th0 i w result s d Hw Hr Hd E|pc0 th0 i j sl b result s Hi
    |op' th0 r s Hn E|op' op'' th0 s wait|op' th0|op' th0|op' wait th0 r s]; subst; try (by destruct Hb).
  - left. assert (op' = op ∧ result = 0) as [-> ->] by (destruct Hb as [[=]|[=]]; done).
    unfold waits, store_result. rewrite Hop. simpl. split; [by right|].
    rewrite set_state_self. by exists base', ext', pairs.
  - left. split; [done|]. pose proof (wi_index _ _ _ _ _ _ I) as Hix.
    assert (I' : write_inv s0 (os_index (th_state th)) d0 pairs (chunks pairs (op_buff ctx)) (set_disk d (set_state s th))).
    { eapply write_inv_done; [| |exact I|exact Hw|exact Hr|exact Hd|exact E].
      - rewrite chunks_spaces. pose proof (so_apart _ _ _ _ S) as Ha.
        by apply StronglySorted_app_1_l in Ha.
      - pose proof (rs_fits _ _ _ _ _ _ _ _ Rs) as Hf. rewrite <- (chunks_slices _ (op_buff ctx)) in Hf.
        by rewrite Forall_fmap in Hf. }
    pose proof (wi_index _ _ _ _ _ _ I') as Hix'. exists base', ext', pairs. by rewrite !Hix'.
  - exfalso. pose proof (wi_reads _ _ _ _ _ _ I) as Hrd. by rewrite Hrd in Hi.
  - right. assert (op' = op) as -> by (destruct Hb as [[=]|[=]]; done).
    split; [done|]. split; [done|]. unfold after_wait in E. rewrite Hop in E. eauto.
Qed.

(** ** After the wait *)

(** The places outside the spaces of the write keep their bytes, and nothing that was
    mapped before is in them. *)
Lemma content_kept base ext R s0 ix d0 pairs data th k b v :
  write_inv s0 ix d0 pairs (chunks pairs data) th → store_ok base ext (spaces_of pairs ++ R) ix →
  content (th_disk th) ix k b v ↔ content d0 ix k b v.
Proof using.
  intros I S. assert (Hd : ∀ loc, maps ix k b loc → disk_at (th_disk th) loc = disk_at d0 loc).
  { intros loc Hm. apply (wi_disk _ _ _ _ _ _ I). intros w Hw Hin.
    destruct (in_space_holds _ _ _ _ Hin) as (l1 & Hh & E1 & E2 & E3).
    destruct (so_reserved _ _ _ _ S (request_space w) l1) as [_ Hn]; [|done|].
    - apply elem_of_app. left. rewrite <- (chunks_spaces _ data). apply list_elem_of_fmap. eauto.
    - by apply (Hn _ _ _ Hm). }
  unfold content. split; intros (loc & Hm & ->); exists loc; (split; [done|]); by rewrite (Hd loc Hm).
Qed.
Lemma content_same_maps ix ix' d k b v : same_maps ix ix' → content d ix' k b v ↔ content d ix k b v.
Proof using. intros H. unfold content. by setoid_rewrite (H k b). Qed.

(** What a finished write means for the bytes of the store. *)
Record write_done base ext0 R d0 ix0 ctx th : Prop := {
  wd_quiet : os_writes (th_state th) = [] ∧ os_reads (th_state th) = [] ∧ th_notify_done th = false;
  wd_store : ∃ ext', (∀ id, ext0 id <= ext' id) ∧ store_ok base ext' R (os_index (th_state th));
  wd_others : ∀ k b v,
    ¬ (k = bs_block (op_bs_key ctx) ∧ extent_start (op_bs_key ctx) <= b < extent_end (op_bs_key ctx)) →
    content (th_disk th) (os_index (th_state th)) k b v ↔ content d0 ix0 k b v;
  wd_data : op_result (os_op (th_state th)) = 0 → ∀ b v,
    extent_start (op_bs_key ctx) <= b < extent_end (op_bs_key ctx) →
    content (th_disk th) (os_index (th_state th)) (bs_block (op_bs_key ctx)) b v ↔
      op_buff ctx !! Z.to_nat (b - extent_start (op_bs_key ctx)) = Some v;
}.

(** Overlaying slices changes the bytes they cover, and no others. *)
Lemma overlaid_others ix ix' k l o e d k' b v :
  overlaid_all ix ix' k l → (∀ sl, sl ∈ l → o <= soff sl ∧ send sl <= e) → ¬ (k' = k ∧ o <= b < e) →
  content d ix' k' b v ↔ content d ix k' b v.
Proof using.
  intros O Hl Hout. unfold content. assert (Hm : ∀ loc, maps ix' k' b loc ↔ maps ix k' b loc);
    [|by setoid_rewrite Hm].
  assert (Hno : ¬ (k' = k ∧ ∃ sl, sl ∈ l ∧ covers sl b)).
  { intros (-> & sl & Hsl & Hc). apply Hout. split; [done|]. specialize (Hl sl Hsl). unfold covers in Hc. lia. }
  intros loc. rewrite (O k' b loc). split; [|by right]. intros [(-> & sl & Hsl & Hc & _)|[_ ?]]; [|done].
  exfalso. apply Hno. eauto.
Qed.
Lemma overlaid_covered ix ix' k fin l data o e d p b v :
  overlaid_all ix ix' k fin → fin ⊆ pr_slice <$> l → tiles o (pr_slice <$> l) e →
  Forall (λ sl, se_type sl = OB_SLICE_TYPE_FILE) (pr_slice <$> l) →
  Forall (λ w, data_placed w d) (chunks l data) → p ∈ l → pr_slice p ∈ fin → covers (pr_slice p) b →
  content d ix' k b v ↔ data !! Z.to_nat (b - o) = Some v.
Proof using.
  intros O Hfin Ht Hty Hd Hp Hpf Hc.
  rewrite Forall_forall in Hty. specialize (Hty _ (Hfin _ Hpf)).
  assert (Hmap : ∀ loc, maps ix' k b loc ↔ loc = loc_at (pr_slice p) b).
  { intros loc. rewrite (O _ b loc). split.
    - intros [(_ & sl & Hsl & Hc2 & ->)|[Hn2 _]].
      + f_equal. eapply (tiles_unique _ _ _ sl (pr_slice p)); eauto.
      + exfalso. apply Hn2. split; [done|]. eauto.
    - intros ->. left. split; [done|]. by exists (pr_slice p). }
  destruct (chunks_lookup _ data _ _ _ _ Ht Hp Hc) as (w & Hw & Ew & El). rewrite <- El.
  rewrite Forall_forall in Hd. specialize (Hd w Hw (b - soff (pr_slice p))). rewrite Ew in Hd.
  rewrite Hd by (unfold covers, send in Hc; lia).
  unfold content. setoid_rewrite Hmap. split.
  - intros (loc & -> & ->). simpl. by rewrite Hty.
  - intros [= <-]. eexists. split; [done|]. simpl. by rewrite Hty.
Qed.
Lemma overlaid_data ix ix' k l data o e d b v :
  overlaid_all ix ix' k (pr_slice <$> l) → tiles o (pr_slice <$> l) e →
  Forall (λ sl, se_type sl = OB_SLICE_TYPE_FILE) (pr_slice <$> l) →
  Forall (λ w, data_placed w d) (chunks l data) → o <= b < e →
  content d ix' k b v ↔ data !! Z.to_nat (b - o) = Some v.
Proof using.
  intros O Ht Hty Hd Hb. destruct (proj1 (tiles_cover _ _ _ b Ht) Hb) as (sl & Hsl & Hc).
  pose proof Hsl as Hin. apply list_elem_of_fmap in Hsl as (p & -> & Hp).
  by eapply (overlaid_covered _ _ _ (pr_slice <$> l)).
Qed.

Lemma write_started_finish ext R ix0 d0 ctx s0 th r s :
  write_started ext R ix0 d0 ctx s0 th → (∀ id, 0 <= ext id) → th_notify_done th = true →
  fs_write_finish (th_state th) = Ret r s →
  ∃ base', write_done base' ext R d0 ix0 ctx (set_state s (set_notify false th)).
Proof using UniqSkiplistSpec0.
  intros (base' & ext' & pairs & I & S & Rs & M) H0 Hn E. exists base'.
  set (bs := op_bs_key ctx) in *. pose proof (wi_sarray _ _ _ _ _ _ I) as Hsa. rewrite <- Hsa in S, Rs.
  pose proof (fs_write_finish_run base' ext ext' R (th_state th) (bs_block bs) OB_SLICE_TYPE_FILE _ _ S Rs H0) as H.
  rewrite E in H. destruct H as (-> & K & W & Rd & C & _ & _ & _ & ext2 & He & S2 & H).
  assert (Hq : os_writes (th_state th) = []) by (by apply (wi_notify _ _ _ _ _ _ I)).
  pose proof (wi_reads _ _ _ _ _ _ I) as Hrd. rewrite Hsa in *.
  pose proof (rs_tiles _ _ _ _ _ _ _ _ Rs) as Ht.
  assert (Hkept : ∀ k b v, content (th_disk th) (os_index (th_state th)) k b v ↔ content d0 ix0 k b v).
  { intros k b v. rewrite (content_kept base' ext' R s0 _ d0 pairs (op_buff ctx)) by done.
    by apply content_same_maps. }
  split.
  - unfold set_state. simpl. rewrite W, Rd, C, Z.eqb_refl. by split_and!.
  - by exists ext2.
  - intros k b v Hout. rewrite <- Hkept. change (th_disk (set_state _ _)) with (th_disk th).
    change (os_index (th_state (set_state s _))) with (os_index s).
    case_decide as Hz.
    + destruct H as (_ & O & _). eapply overlaid_others; [exact O| |exact Hout].
      intros sl Hsl. by pose proof (tiles_bounds _ _ _ _ Ht Hsl) as (? & _ & ?).
    + destruct H as (_ & _ & fin & rest & Hl & O & _). eapply overlaid_others; [exact O| |exact Hout].
      intros sl Hsl. pose proof (tiles_bounds _ _ _ sl Ht) as Hb. rewrite Hl in Hb.
      destruct Hb as (? & _ & ?); [apply elem_of_app; by left|done].
  - change (op_result (os_op (th_state (set_state s _)))) with (op_result (os_op s)). intros Hz b v Hb.
    rewrite decide_True in H by done. destruct H as (Hz0 & O & _).
    eapply overlaid_data; [exact O|exact Ht|apply Rs| |exact Hb].
    destruct (wi_done _ _ _ _ _ _ I) as (fin & Hperm & Hok). rewrite Hq, app_nil_r in Hperm.
    rewrite Hperm. by apply Hok.
Qed.

(** ** The whole operation *)
Definition write_request op ctx th : Prop :=
  do_operation op = DATA_OPERATION_SLICE_WRITE ∧ extent_ok (op_bs_key ctx) ∧
  Z.of_nat (length (op_buff ctx)) = ss_length (bs_slice (op_bs_key ctx)) ∧
  th_notify_done th = false ∧ os_writes (th_state th) = [] ∧ os_reads (th_state th) = [].

Lemma write_trace ext R ix0 d0 ctx s0 op pc th pc' th' :
  do_operation op = DATA_OPERATION_SLICE_WRITE → busy pc op → write_started ext R ix0 d0 ctx s0 th →
  rtc (steps_of op) (pc, th) (pc', th') →
  busy pc' op ∧ write_started ext R ix0 d0 ctx s0 th' ∨
  pc' = PcFinish op ∧ ∃ th1 r s, write_started ext R ix0 d0 ctx s0 th1 ∧ th_notify_done th1 = true ∧
    fs_write_finish (th_state th1) = Ret r s ∧ th' = set_state s (set_notify false th1).
Proof using.
  intros Hop Hb Hs Hr. remember (pc, th) as x eqn:Ex. remember (pc', th') as y eqn:Ey.
  revert pc th Hb Hs Ex. induction Hr as [x|x [pc1 th1] z [Hst _] Hr IH]; intros pc th Hb Hs ->.
  - injection Ey as -> ->. by left.
  - destruct (write_started_step ext R ix0 d0 ctx s0 op pc th pc1 th1 Hop Hb Hs Hst)
      as [[Hb1 Hs1]|(-> & Hn & r & s & E & Hth1)]; [by apply (IH Ey pc1 th1)|].
    right. inversion Hr as [|? ? ? [_ Hb1]]; simplify_eq; [|by destruct Hb1].
    split; [done|]. by exists th, r, s.
Qed.

(** An operation that failed is over at once. *)
Lemma failed_operation_ends op th :
  terminates op (th_state th) = false → op_result (os_op (th_state th)) ≠ 0 →
  rtc step (PcFinish op, th) (PcIdle, th).
Proof using.
  intros Ht Hz%Z.eqb_neq. eapply rtc_l; [|eapply rtc_l; [|apply rtc_refl]].
  - apply (step_finish _ _ _ _ _ _ op op th (th_state th) false Ht); [|done].
    unfold finish_before. rewrite ofield_run. change (id (os_op (th_state th))) with (os_op (th_state th)).
    by rewrite Hz.
  - rewrite set_state_self. rewrite <- (set_state_self th) at 2.
    apply (step_replicated _ _ _ _ _ _ op false th (inr tt) (th_state th)); [done|].
    unfold finish_after. rewrite ofield_run. change (id (os_op (th_state th))) with (os_op (th_state th)).
    by rewrite Hz.
Qed.

Lemma write_operation_run base ext R op ctx th s1 th2 :
  write_request op ctx th → store_ok base ext R (os_index (th_state th)) →
  write_call (set_op ctx (th_state th)) = Ret (inr tt) s1 →
  rtc (steps_of op) (PcIssued op 0, set_state s1 th) (PcFinish op, th2) →
  ∃ base', write_done base' ext R (th_disk th) (os_index (th_state th)) ctx th2.
Proof using All.
  intros (Hop & Hx & Hl & Hn & Hw & Hr) S E Hst.
  pose proof (write_started_call base ext R th ctx s1 Hn Hw Hr S Hx E) as Hs.
  destruct (write_trace _ _ _ _ _ _ op _ _ _ _ Hop (or_introl eq_refl) Hs Hst) as [[Hb _]|(_ & th1 & r & s & Hs1 & Hn1 & E1 & ->)].
  - destruct Hb; done.
  - eapply write_started_finish; [done|apply S|done|done].
Qed.

(** C1: the bytes of the store after a write: in its extent the data, everywhere else the
    bytes of before, whatever order the disk I/O completes in; all I/O is done, the
    notification is consumed, and no two bytes share a place on disk. *)
Theorem write_operation_refines base ext R op ctx th s1 th2 :
  write_request op ctx th → store_ok base ext R (os_index (th_state th)) →
  write_call (set_op ctx (th_state th)) = Ret (inr tt) s1 →
  rtc (steps_of op) (PcIssued op 0, set_state s1 th) (PcFinish op, th2) →
  ∃ base', write_done base' ext R (th_disk th) (os_index (th_state th)) ctx th2.
Proof using All. apply write_operation_run. Qed.

(** C36: while a write waits, its counter is the number of requests in flight, the
    notification is given exactly when none is left, and every completion of a request
    brings it nearer. *)
Theorem write_operation_progress base ext R op ctx th s1 pc th' :
  write_request op ctx th → store_ok base ext R (os_index (th_state th)) →
  write_call (set_op ctx (th_state th)) = Ret (inr tt) s1 →
  rtc (steps_of op) (PcIssued op 0, set_state s1 th) (pc, th') → busy pc op →
  op_counter (os_op (th_state th')) = Z.of_nat (length (os_writes (th_state th'))) ∧
  (th_notify_done th' = true ↔ os_writes (th_state th') = []) ∧
  ∀ i w result d, os_writes (th_state th') !! i = Some w → 0 <= result < 2 ^ 15 →
    (if result =? 0 then wrote w (th_disk th') d else untouched w (th_disk th') d) →
    ∃ th'', step (pc, th') (pc, th'') ∧
      length (os_writes (th_state th')) = S (length (os_writes (th_state th''))).
Proof using All.
  intros (Hop & Hx & Hl & Hn & Hw & Hr) S E Hst Hb.
  pose proof (write_started_call base ext R th ctx s1 Hn Hw Hr S Hx E) as Hs.
  destruct (write_trace _ _ _ _ _ _ op _ _ _ _ Hop (or_introl eq_refl) Hs Hst) as [[_ Hs1]|(-> & _)];
    [|by destruct Hb].
  destruct Hs1 as (base' & ext' & pairs & I & _). split_and!; [apply I|apply I..|].
  intros i w result d Hi Hres Hd. eexists. split.
  - eapply step_write_done; [exact Hi|exact Hres|exact Hd|apply slice_write_done_run].
  - simpl. pose proof (remove_at_length _ _ _ Hi). lia.
Qed.
End Thms.
