(* ===== verification/DataThreadDemo.v ===== *)
(** * Data threads on a small store

    A store with one trunk of 4096 bytes: the witnesses of the theorems about a write, and
    two runs in which a notification goes wrong. *)
From S2P Require Import Prelude Types Skiplist ObSlices ObSlicesRun.
From S2P Require Import ObSlicesThms ObSlicesMain ObIndex ObIndexSpec ObIndexOps.
From S2P Require Import ObIndexThms ObIndexMain TrunkAllocator StorageAllocator StorageAllocSpec.
From S2P Require Import StorageAllocThms StorageAllocUsed StoreAlloc Binlog SliceOp StoreWrite.
From S2P Require Import StoreWrite DataThread DataThreadThms ObSlicesMain.

Definition small_index (mem : list bool) : Index (list OBSliceEntry) Mgr :=
  mkIndex (mkHtable 11 ∅ (mkOBFlags true true)) ∅ 1 (mkWorld mem 1 ∅ (one_trunk 4096) 0).
Definition small_base (st id : Z) : Z := default 0 (acct_used (one_trunk 4096) st id).

Lemma small_empty mem p k c t : ¬ lives (small_index mem) p k c t.
Proof. unfold lives. simpl. by rewrite lookup_empty. Qed.
Lemma small_index_ok mem : index_ok small_base (λ _, 0) (small_index mem).
Proof.
  assert (Hc : ∀ b, bucket_chain (small_index mem) b []).
  { intros b. split; [|constructor|by intros p e ?%elem_of_nil]. simpl. by rewrite lookup_empty. }
  split.
  - split; [eauto|..]; intros p e He; simpl in He; by rewrite lookup_empty in He.
  - intros p k c t H. by apply small_empty in H.
  - intros id. unfold ref_count. simpl. by rewrite lookup_empty.
  - intros id n. simpl. by rewrite lookup_empty.
  - done.
  - intros _ st id u Hu. change (acct_used (one_trunk 4096) st id = Some u) in Hu. unfold small_base. rewrite Hu.
    change (all_slices (small_index mem)) with (@nil OBSliceEntry). simpl. lia.
Qed.
Definition small_allocator : FSTrunkAllocator := default (mkAllocator 0 0 0 0 ∅ (mkFreelist 0 []) 0 0 0 0 0 [])
  (mg_allocators (one_trunk 4096) !! 1).
Definition small_trunk : FSTrunkFileInfo := default (mkTrunk 1 (mkTrunkId 7 1) TRUNK_STATUS_NONE 0 0 [] 0 0 UTIL_EVENT_NONE)
  (ta_trunks small_allocator !! 7).
Lemma small_view k f s : view (one_trunk 4096) k = Some (f, s) → f = 0 ∧ s = 4096.
Proof.
  assert (H1 : mg_allocators (one_trunk 4096) = {[ 1 := small_allocator ]}) by (vm_compute; reflexivity).
  assert (H2 : ta_trunks small_allocator = {[ 7 := small_trunk ]}) by (vm_compute; reflexivity).
  destruct k as [i id]. unfold view, get_trunk. rewrite H1. cbn [fst snd].
  destruct (decide (i = 1)) as [->|Hi]; [|by rewrite lookup_singleton_ne].
  rewrite lookup_singleton_eq. simpl. rewrite H2.
  destruct (decide (id = 7)) as [->|Hi]; [|by rewrite lookup_singleton_ne].
  rewrite lookup_singleton_eq. vm_compute. by intros [= <- <-].
Qed.
Lemma small_store_ok mem : store_ok small_base (λ _, 0) [] (small_index mem).
Proof.
  assert (Hm : ∀ k b d, ¬ maps (small_index mem) k b d).
  { intros k b d (p & c & t & H & _). by apply small_empty in H. }
  split.
  - apply small_index_ok.
  - apply one_trunk_wf. lia.
  - intros k f s H. apply small_view in H as [-> ->]. split; [by exists 0|by exists 512].
  - intros k b d H. by apply Hm in H.
  - intros k b d k' b' d' H. by apply Hm in H.
  - by intros s d ?%elem_of_nil.
  - constructor.
Qed.

(** A write of 16 bytes at the start of a block. *)
Definition small_data : bytes := [1; 2; 3; 4; 5; 6; 7; 8; 9; 10; 11; 12; 13; 14; 15; 16].
Definition small_ctx : FSSliceOpContext :=
  mkOp 0 0 0 true BINLOG_SOURCE_RPC_MASTER 0 0
    (mkBlockSliceKey (fs_calc_block_hashcode 1 0) (mkSliceSize 0 16)) small_data 0 4 []
    (mkSliceArray 0 []) 0 [].
Definition small_state (mem : list bool) : OpState (list OBSliceEntry) :=
  mkState small_ctx (small_index mem) 0 0 [] [] [] [].
Definition blank : Disk := λ _ _ _, 0.
Definition small_thread (mem : list bool) : Thread (list OBSliceEntry) := mkThread false (small_state mem) blank.
Definition write_op : FSDataOperation := mkDataOp DATA_OPERATION_SLICE_WRITE DATA_SOURCE_MASTER_SERVICE false.

Abbreviation small_step := (step 10 true 256 (λ _ m, m) 0 true).
Abbreviation small_write := (fs_slice_write 10 true 256 (λ _ m, m) 0 None).
Definition state_of {S B} (r : Res S B) (s0 : S) : S := match r with Ret _ s => s | _ => s0 end.

(** The write as the I/O threads do it: the data go to the space of the slice. *)
Definition write_bytes (w : WriteRequest) (d : Disk) : Disk := λ st id pos,
  let sp := se_space (wr_slice w) in
  if (st =? sp_store sp) && (id =? ti_id (sp_id_info sp)) && (sp_offset sp <=? pos)
  then default (d st id pos) (wr_data w !! Z.to_nat (pos - sp_offset sp)) else d st id pos.
Lemma wrote_write_bytes w d :
  Z.of_nat (length (wr_data w)) = slen (wr_slice w) → slen (wr_slice w) <= sp_size (se_space (wr_slice w)) →
  wrote w d (write_bytes w d).
Proof.
  intros Hl Hs. unfold wrote, write_bytes. split.
  - intros st id pos Hn. destruct (Z.eqb_spec st (sp_store (se_space (wr_slice w)))) as [E1|]; [|done].
    destruct (Z.eqb_spec id (ti_id (sp_id_info (se_space (wr_slice w))))) as [E2|]; [|done].
    destruct (Z.leb_spec (sp_offset (se_space (wr_slice w))) pos); [|done]. simpl.
    assert (Hno : wr_data w !! Z.to_nat (pos - sp_offset (se_space (wr_slice w))) = None); [|by rewrite Hno].
    apply lookup_ge_None_2.
    destruct (decide (pos < sp_offset (se_space (wr_slice w)) + sp_size (se_space (wr_slice w)))); [|lia].
    exfalso. apply Hn. by split_and!.
  - intros i Hi. rewrite !Z.eqb_refl. simpl.
    destruct (Z.leb_spec (sp_offset (se_space (wr_slice w))) (sp_offset (se_space (wr_slice w)) + i)); [|lia].
    assert (Hv : ∃ v, wr_data w !! Z.to_nat i = Some v) by (apply lookup_lt_is_Some_2; lia).
    destruct Hv as [v Hv].
    rewrite Hv. replace (_ + i - _) with i by lia. by rewrite Hv.
Qed.

Lemma small_request mem : write_request write_op small_ctx (small_thread mem).
Proof. by split_and!. Qed.
Example small_write_runs : match small_write (small_state []) with
  | Ret (inr tt) s => length (os_writes s) = 1%nat ∧ op_counter (os_op s) = 1
  | _ => False
  end.
Proof. vm_compute. done. Qed.

(** The states of the run without failures. *)
Definition after_call : OpState (list OBSliceEntry) := state_of (small_write (small_state [])) (small_state []).
Definition small_write_request : WriteRequest :=
  default (mkWrite 0 (mkSlice 0 0 OB_SLICE_TYPE_FILE (mkSliceSize 0 0) (mkTrunkSpace 0 (mkTrunkId 0 0) 0 0)) [])
    (head (os_writes after_call)).
Definition small_io : OM (list OBSliceEntry) unit := slice_write_done (wr_slice small_write_request) 0.
Definition after_io : OpState (list OBSliceEntry) := state_of (small_io (set_writes [] after_call)) after_call.
Definition after_finish : OpState (list OBSliceEntry) := state_of (fs_write_finish after_io) after_io.
Definition written : Disk := write_bytes small_write_request blank.
Definition waiting_thread : Thread (list OBSliceEntry) :=
  set_state (store_result write_op 0 (th_state (set_state after_call (small_thread []))))
    (set_state after_call (small_thread [])).
Definition woken_thread : Thread (list OBSliceEntry) := set_disk written (set_state after_io waiting_thread).
Definition done_thread : Thread (list OBSliceEntry) := set_state after_finish (set_notify false woken_thread).

Lemma small_call : small_write (small_state []) = Ret (inr tt) after_call.
Proof. vm_compute. reflexivity. Qed.
Lemma small_wrote : wrote small_write_request blank written.
Proof. apply wrote_write_bytes; vm_compute; [reflexivity|discriminate]. Qed.
Lemma small_run :
  rtc (steps_of 10 true 256 (λ _ m, m) 0 true write_op)
    (PcIssued write_op 0, set_state after_call (small_thread [])) (PcFinish write_op, done_thread).
Proof.
  eapply rtc_l; [split; [apply step_store|by left]|].
  eapply rtc_l; [split; [eapply (step_write_done _ _ _ _ _ _ _ _ 0 small_write_request 0 after_io written)|by right]|].
  - vm_compute. reflexivity.
  - lia.
  - apply small_wrote.
  - vm_compute. reflexivity.
  - eapply rtc_once. split; [|by right].
    eapply (step_wake _ _ _ _ _ _ write_op woken_thread (inr tt) after_finish); vm_compute; reflexivity.
Qed.

Lemma id_blocked_used : ∀ (i : Z) (m : Mgr), used_kept m ((λ _ m, m) i m).
Proof. reflexivity. Qed.
Lemma id_blocked_space : ∀ (i : Z) (m : Mgr), alloc_safe m → alloc_safe ((λ _ m, m) i m) ∧ space_mono m ((λ _ m, m) i m).
Proof. by split. Qed.

Lemma write_operation_refines_witness :
  op_result (os_op (th_state done_thread)) = 0 ∧
  ∃ base', write_done base' (λ _, 0) [] blank (small_index []) small_ctx done_thread.
Proof.
  split; [vm_compute; reflexivity|].
  exact (write_operation_refines 10 true 256 (λ _ m, m) 0 true id_blocked_used (λ _ _ H, H) eq_refl id_blocked_space
    small_base (λ _, 0) [] write_op small_ctx (small_thread []) after_call done_thread
    (small_request []) (small_store_ok []) small_call small_run).
Defined.

Lemma write_operation_progress_witness :
  op_counter (os_op (th_state (set_state after_call (small_thread [])))) = 1 ∧
  (th_notify_done (set_state after_call (small_thread [])) = true ↔ os_writes after_call = []).
Proof.
  destruct (write_operation_progress 10 true 256 (λ _ m, m) 0 true id_blocked_used (λ _ _ H, H) eq_refl id_blocked_space
    small_base (λ _, 0) [] write_op small_ctx (small_thread []) after_call (PcIssued write_op 0)
    (set_state after_call (small_thread [])) (small_request []) (small_store_ok []) small_call
    (rtc_refl _ _) (or_introl eq_refl)) as (H1 & H2 & _).
  split; [|exact H2]. rewrite H1. vm_compute. reflexivity.
Defined.

(** ** A notification nobody waits for *)

(** The call that fails for want of memory; the call after it. *)
Definition failed_call : OpState (list OBSliceEntry) := state_of (small_write (small_state [false])) (small_state [false]).
Definition failed_thread : Thread (list OBSliceEntry) :=
  set_state (store_result write_op ENOMEM (th_state (set_state failed_call (small_thread [false]))))
    (set_state failed_call (small_thread [false])).
Definition second_call : OpState (list OBSliceEntry) := state_of (small_write (set_op small_ctx failed_call)) failed_call.
Definition early_finish : OpState (list OBSliceEntry) := state_of (fs_write_finish second_call) second_call.
Definition second_waits : Thread (list OBSliceEntry) :=
  set_state (store_result write_op 0 (th_state (set_state second_call failed_thread)))
    (set_state second_call failed_thread).
Definition early_thread : Thread (list OBSliceEntry) := set_state early_finish (set_notify false second_waits).

Lemma failed_store : small_step (PcIssued write_op ENOMEM, set_state failed_call (small_thread [false]))
  (PcFinish write_op, failed_thread).
Proof. unfold failed_thread. apply step_store. Qed.
Lemma failed_run : rtc small_step (PcIdle, small_thread [false]) (PcIdle, failed_thread).
Proof.
  eapply rtc_l.
  { apply (step_issue _ _ _ _ _ _ write_op small_ctx (small_thread [false]) (inl ENOMEM) failed_call);
      vm_compute; reflexivity. }
  eapply rtc_l; [exact failed_store|].
  apply failed_operation_ends; vm_compute; [reflexivity|discriminate].
Qed.

(** a write whose allocation fails notifies the thread although the thread does not
    wait for it; the next write then does not wait for its I/O: it is finished with
    [result] 0 and mapped while its request is still queued and the disk still holds the
    old bytes. *)
Theorem stale_notification :
  ∃ th, rtc small_step (PcIdle, small_thread [false]) (PcFinish write_op, th) ∧
    op_result (os_op (th_state th)) = 0 ∧ os_writes (th_state th) ≠ [] ∧
    content (th_disk th) (os_index (th_state th)) (bs_block (op_bs_key small_ctx)) 0 0 ∧
    op_buff small_ctx !! 0%nat = Some 1.
Proof.
  exists early_thread. split; [|split; [|split; [|split]]].
  - etransitivity; [exact failed_run|].
    eapply rtc_l.
    { apply (step_issue _ _ _ _ _ _ write_op small_ctx failed_thread (inr tt) second_call);
        vm_compute; reflexivity. }
    eapply rtc_l; [apply step_store|]. eapply rtc_l; [|apply rtc_refl].
    eapply (step_wake _ _ _ _ _ _ write_op second_waits (inr tt) early_finish); vm_compute; reflexivity.
  - vm_compute. reflexivity.
  - vm_compute. discriminate.
  - unfold content. eexists (mkLoc 1 (mkTrunkId 7 1) _ OB_SLICE_TYPE_FILE). split; [|vm_compute; reflexivity].
    exists 1, 0. eexists. split; vm_compute; reflexivity.
  - reflexivity.
Qed.

(** ** A read error that is overwritten *)
Definition read_op : FSDataOperation := mkDataOp DATA_OPERATION_SLICE_READ DATA_SOURCE_MASTER_SERVICE false.
Definition EIO : Z := 5.
Definition read_call : OpState (list OBSliceEntry) :=
  state_of (fs_slice_read (set_op small_ctx (th_state done_thread))) (th_state done_thread).
Definition read_thread : Thread (list OBSliceEntry) := set_state read_call done_thread.
Definition read_slice : OBSliceEntry :=
  default (mkSlice 0 0 OB_SLICE_TYPE_FILE (mkSliceSize 0 0) (mkTrunkSpace 0 (mkTrunkId 0 0) 0 0)) (head (os_reads read_call)).
(** The buffer of a slice, read from a disk with blocks of 512 bytes. *)
Definition read_buffer (d : Disk) (sl : OBSliceEntry) : AlignedReadBuffer :=
  let '(new_offset, offset, read_bytes) := prepare_read_slice 512 sl in
  mkAligned offset (slen sl) ((λ i, d (sp_store (se_space sl)) (ti_id (sp_id_info (se_space sl)))
    (new_offset + Z.of_nat i)) <$> seq 0 (Z.to_nat read_bytes)).
Lemma read_buffer_into d d' sl result : (result = 0 → d' = d) → read_into d sl result (read_buffer d' sl).
Proof.
  intros Hd. exists 9. split; [lia|]. unfold read_buffer. change (2 ^ 9) with 512.
  destruct (prepare_read_slice 512 sl) as [[no o] rb]. cbn [ab_offset ab_length ab_buff]. split; [done|]. split; [done|].
  rewrite length_fmap, length_seq. split; [lia|]. intros Hz i Hi. rewrite (Hd Hz).
  etransitivity; [apply list_lookup_fmap|]. rewrite lookup_seq_lt by lia.
  simpl. do 2 f_equal. lia.
Qed.
(** The read fails: the buffer holds zeros. *)
Definition failed_buffer : AlignedReadBuffer := read_buffer (λ _ _ _, 0) read_slice.
Definition read_failed : OpState (list OBSliceEntry) :=
  state_of (do_read_done read_slice EIO (fill_buffer 0 failed_buffer (set_reads [] read_call))) read_call.
Definition read_failed_thread : Thread (list OBSliceEntry) := set_state read_failed read_thread.
Definition read_stored_thread : Thread (list OBSliceEntry) :=
  set_state (store_result read_op 0 (th_state read_failed_thread)) read_failed_thread.
Definition read_woken_thread : Thread (list OBSliceEntry) :=
  set_state (th_state read_stored_thread) (set_notify false read_stored_thread).

(** [deal_one_operation] assigns the value of [fs_slice_read] to [result] after the
    reads were queued; an error a read thread reported before the assignment is
    overwritten, and the operation ends with [result] 0 although nothing was read. *)
Theorem read_error_lost :
  small_step (PcIdle, done_thread) (PcIssued read_op 0, read_thread) ∧
  small_step (PcIssued read_op 0, read_thread) (PcIssued read_op 0, read_failed_thread) ∧
  op_result (os_op (th_state read_failed_thread)) = EIO ∧
  rtc small_step (PcIssued read_op 0, read_failed_thread) (PcFinish read_op, read_woken_thread) ∧
  op_result (os_op (th_state read_woken_thread)) = 0 ∧ op_done_bytes (os_op (th_state read_woken_thread)) = 0 ∧
  op_buffers (os_op (th_state read_woken_thread)) = [DataBuffer failed_buffer].
Proof.
  split; [|split; [|split; [|split; [|split; [|split]]]]].
  - apply (step_issue _ _ _ _ _ _ read_op small_ctx done_thread (inr tt) read_call); vm_compute; reflexivity.
  - apply (step_read_done _ _ _ _ _ _ (PcIssued read_op 0) read_thread 0 0 read_slice failed_buffer EIO read_failed).
    + vm_compute. reflexivity.
    + unfold EIO. lia.
    + vm_compute. reflexivity.
    + by apply read_buffer_into.
    + vm_compute. reflexivity.
  - vm_compute. reflexivity.
  - eapply rtc_l; [apply step_store|]. eapply rtc_l; [|apply rtc_refl].
    apply (step_wake _ _ _ _ _ _ read_op read_stored_thread (inr tt) (th_state read_stored_thread)); vm_compute; reflexivity.
  - vm_compute. reflexivity.
  - vm_compute. reflexivity.
  - vm_compute. reflexivity.
Qed.
