(* ===== verification/StoreIov.v ===== *)
(** * Writing from several buffers

    [write_iovec_array] distributes the buffers of a read over the slices of a write: the
    requests are those of a write of the same bytes from one buffer. *)
From S2P Require Import Prelude Types Skiplist ObSlices ObSlicesRun ObIndex TrunkAllocator StorageAllocator.
From S2P Require Import Binlog SliceOp StoreWrite.

(** A buffer whose data lie within its memory, and the bytes of a list of them. *)
Definition buffer_ok (b : AlignedReadBuffer) : Prop :=
  0 <= ab_offset b ∧ 0 < ab_length b ∧ ab_offset b + ab_length b <= Z.of_nat (length (ab_buff b)).
Definition buffer_data (b : AlignedReadBuffer) : bytes := iovec b (ab_length b).
Definition buffers_data (l : list AlignedReadBuffer) : bytes := concat (map buffer_data l).

Lemma iovec_length b n : buffer_ok b → 0 <= n <= ab_length b → Z.of_nat (length (iovec b n)) = n.
Proof. intros (H1 & H2 & H3) Hn. unfold iovec. rewrite length_take, length_drop. lia. Qed.
Lemma buffer_data_length b : buffer_ok b → Z.of_nat (length (buffer_data b)) = ab_length b.
Proof. intros H. apply iovec_length; [done|]. destruct H as (_ & ? & _). lia. Qed.
Lemma buffers_data_length l :
  Forall buffer_ok l → Z.of_nat (length (buffers_data l)) = sumZ ab_length l.
Proof.
  unfold buffers_data. induction 1 as [|b l Hb Hl IH]; [done|]. cbn [map concat]. rewrite length_app, sumZ_cons.
  rewrite Nat2Z.inj_add, IH. by rewrite buffer_data_length.
Qed.
(** A buffer cut in two. *)
Lemma buffer_cut b n : buffer_ok b → 0 < n < ab_length b →
  let b' := mkAligned (ab_offset b + n) (ab_length b - n) (ab_buff b) in
  buffer_ok b' ∧ buffer_data b = iovec b n ++ buffer_data b'.
Proof.
  intros (H1 & H2 & H3) Hn b'. split; [unfold b'; repeat split; simpl; lia|].
  unfold buffer_data, iovec, b'. simpl.
  rewrite <- (take_drop (Z.to_nat n) (take (Z.to_nat (ab_length b)) (drop (Z.to_nat (ab_offset b)) (ab_buff b)))).
  f_equal.
  - rewrite take_take. f_equal. lia.
  - rewrite skipn_firstn_comm, drop_drop. f_equal; [|f_equal]; lia.
Qed.

(** The inner loop takes exactly the bytes that are missing to the end of the slice. *)
Lemma fill_iovecs_run buffers slice_total buffer_total iovs :
  Forall buffer_ok buffers → 0 < slice_total - buffer_total <= sumZ ab_length buffers →
  ∃ l buffers', fill_iovecs buffers slice_total buffer_total iovs = (iovs ++ l, buffers', slice_total) ∧
    Forall buffer_ok buffers' ∧
    buffers_data buffers = concat l ++ buffers_data buffers' ∧
    Z.of_nat (length (concat l)) = slice_total - buffer_total.
Proof.
  revert buffer_total iovs. induction buffers as [|b buffers IH]; intros total iovs Hok Hw.
  { rewrite sumZ_nil in Hw. lia. }
  apply Forall_cons in Hok as [Hb Hok]. rewrite sumZ_cons in Hw. cbn [fill_iovecs].
  pose proof Hb as (_ & Hb2 & _).
  destruct (Z.leb_spec (total + ab_length b) slice_total) as [Hle|Hgt].
  - destruct (Z.eqb_spec (total + ab_length b) slice_total) as [He|Hne].
    + exists [buffer_data b], buffers. rewrite He. split_and!; [done|done|by simpl; rewrite app_nil_r|].
      simpl. rewrite app_nil_r, buffer_data_length by done. lia.
    + destruct (IH (total + ab_length b) (iovs ++ [buffer_data b]) Hok) as (l & bs & E & H1 & H2 & H3); [lia|].
      exists (buffer_data b :: l), bs. split_and!; [|done| |].
      * change (iovec b (ab_length b)) with (buffer_data b). rewrite E. by rewrite <- app_assoc.
      * change (buffers_data (b :: buffers)) with (buffer_data b ++ buffers_data buffers).
        rewrite H2. simpl. by rewrite app_assoc.
      * simpl. rewrite length_app, Nat2Z.inj_add, H3, buffer_data_length by done. lia.
  - set (n := ab_length b - (total + ab_length b - slice_total)).
    destruct (buffer_cut b n Hb) as [H1 H2]; [unfold n; lia|].
    replace (total + ab_length b - slice_total) with (ab_length b - n) by (unfold n; lia).
    eexists [iovec b n], (_ :: buffers). split_and!; [done|by constructor| |].
    + change (buffers_data (b :: buffers)) with (buffer_data b ++ buffers_data buffers).
      rewrite H2. simpl. rewrite app_nil_r. by rewrite <- app_assoc.
    + simpl. rewrite app_nil_r, iovec_length by (done || (unfold n; lia)). unfold n. lia.
Qed.

Section Iov.
Context {T : Type}.
Implicit Types (s : OpState T).

Lemma write_iovecs_run l buffers total s :
  Forall buffer_ok buffers → Forall (λ p, 0 < slen (pr_slice p)) l →
  sumZ ab_length buffers = sumZ (λ p, slen (pr_slice p)) l →
  write_iovecs l buffers total total s = write_slices l (buffers_data buffers) s.
Proof using.
  revert buffers total s. induction l as [|p l IH]; intros buffers total s Hok Hp Hsum; [done|].
  apply Forall_cons in Hp as [Hp0 Hp]. rewrite sumZ_cons in Hsum. cbn [write_iovecs write_slices].
  assert (Hnn : 0 <= sumZ (λ p, slen (pr_slice p)) l).
  { apply sumZ_nonneg. intros x Hx. rewrite Forall_forall in Hp. specialize (Hp x Hx). lia. }
  destruct (fill_iovecs_run buffers (total + slen (pr_slice p)) total [] Hok)
    as (iovs & bs & E & H1 & H2 & H3); [lia|].
  rewrite E. simpl app at 1. rewrite H2.
  assert (Hn : length (concat iovs) = Z.to_nat (slen (pr_slice p))) by lia.
  rewrite take_app_length', drop_app_length' by done.
  unfold mbind, OM_bind. destruct (trunk_write_thread_push _ _ _ s) as [| |[e|[]] s1]; try done.
  apply IH; [done|done|].
  pose proof (buffers_data_length _ Hok) as L1. pose proof (buffers_data_length _ H1) as L2.
  rewrite H2, length_app in L1. lia.
Qed.

Lemma write_iovec_array_run buffers s :
  Forall buffer_ok buffers → op_sarray (os_op s) ≠ [] →
  Forall (λ p, 0 < slen (pr_slice p)) (op_sarray (os_op s)) →
  sumZ ab_length buffers = sumZ (λ p, slen (pr_slice p)) (op_sarray (os_op s)) →
  write_iovec_array buffers s =
    (ok ← oalloc; if negb ok then ofail ENOMEM
                  else write_slices (op_sarray (os_op s)) (buffers_data buffers)) s.
Proof using.
  intros Hok Hne Hp Hsum. unfold write_iovec_array. rewrite ofield_run.
  change (op_sarray (id (os_op s))) with (op_sarray (os_op s)).
  unfold mbind, OM_bind. destruct (oalloc s) as [| |[e|ok] s1]; try done. destruct ok; [|done]. cbn [negb].
  destruct (op_sarray (os_op s)) as [|p [|p2 l]]; [done| |exact (write_iovecs_run _ _ 0 s1 Hok Hp Hsum)].
  cbn [write_slices]. rewrite sumZ_cons, sumZ_nil in Hsum.
  change (concat (map (λ b, iovec b (ab_length b)) buffers)) with (buffers_data buffers).
  rewrite take_ge; [|by pose proof (buffers_data_length _ Hok); lia].
  unfold mbind, OM_bind. by destruct (trunk_write_thread_push _ _ _ s1) as [| |[e|[]] s2].
Qed.

(** a write from the buffers of a read queues the same requests, in the same order and
    with the same errors, as a write of their bytes from one buffer; only the memory for the
    vectors can be wanting in addition. *)
Theorem write_iovec_array_equiv buffers s :
  Forall buffer_ok buffers → op_sarray (os_op s) ≠ [] →
  Forall (λ p, 0 < slen (pr_slice p)) (op_sarray (os_op s)) →
  sumZ ab_length buffers = sumZ (λ p, slen (pr_slice p)) (op_sarray (os_op s)) →
  write_iovec_array buffers s =
    (ok ← oalloc; if negb ok then ofail ENOMEM
                  else write_slices (op_sarray (os_op s)) (buffers_data buffers)) s.
Proof using. apply write_iovec_array_run. Qed.

(** A write of several buffers, for [fs_slice_write_any_run]. *)
Lemma write_iovec_array_pushes buffers pairs s o e buff :
  Forall buffer_ok buffers → tiles o (pr_slice <$> pairs) e → o < e → sumZ ab_length buffers = e - o →
  op_sarray (os_op s) = pairs → pushes (buffers_data buffers) pairs (push_data (Some buffers) pairs buff) s.
Proof using.
  intros Hok Ht Hoe Hsum Hp. unfold pushes. cbn [push_data]. rewrite write_iovec_array_run; rewrite ?Hp.
  - destruct (oalloc_run s) as (ok & ix & E & M & _). rewrite (obind_ret _ _ _ _ _ E). destruct ok; cbn [negb].
    + destruct (write_slices_run pairs (buffers_data buffers) (set_index ix s)) as (r & s' & ws & E2 & Q & _ & H).
      exists r, s', ws. split; [done|]. split; [|done].
      exact (queued_app _ _ _ [] ws (queued_nil s ix M) Q).
    + exists (inl ENOMEM), (set_index ix s), []. split; [done|]. split; [by apply queued_nil|]. split; [done|].
      destruct pairs as [|p pairs]; [simpl in Ht; lia|]. by eexists _, _.
  - done.
  - intros ->. simpl in Ht. lia.
  - apply Forall_forall. intros p Hin. apply (tiles_bounds _ _ _ (pr_slice p) Ht). apply list_elem_of_fmap. eauto.
  - rewrite Hsum. pose proof (tiles_length _ _ _ Ht) as Hl. rewrite <- Hl. clear.
    induction pairs as [|p l IH]; [done|]. rewrite fmap_cons, !sumZ_cons. by rewrite IH.
Qed.
End Iov.
