(* ===== verification/StoreRead.v ===== *)
(** * Reading the index of an extent

    [get_slice_index_holes] and [fs_slice_read] walk over the slices the index gives for an
    extent: the holes found are exactly the unmapped bytes, and the buffers of a read hold
    the bytes of the extent. *)
From stdpp Require Import sorting.
From S2P Require Import Prelude Types Skiplist ObSlices ObSlicesRun.
From S2P Require Import ObSlicesThms ObSlicesMain ObSlicesGet ObIndex ObIndexSpec ObIndexOps.
From S2P Require Import ObIndexThms ObIndexMain TrunkAllocator StorageAllocator StorageAllocSpec.
From S2P Require Import StorageAllocThms StorageAllocUsed StoreAlloc Binlog SliceOp StoreWrite.
From S2P Require Import StoreWrite.

Lemma if_snoc {A} (c : bool) (l : list A) x : (if c then l ++ [x] else l) = l ++ (if c then [x] else []).
Proof. destruct c; [done|by rewrite app_nil_r]. Qed.

(** ** Walking over ordered slices *)
Definition in_extent (ss : FSSliceSize) (b : Z) : Prop := ss_offset ss <= b < ss_offset ss + ss_length ss.

(** The gaps before the slices from [o] on, and where the last slice ends. *)
Fixpoint gaps (o : Z) (l : list OBSliceEntry) : list FSSliceSize :=
  match l with
  | [] => []
  | s :: l => (if 0 <? soff s - o then [mkSliceSize o (soff s - o)] else []) ++ gaps (send s) l
  end.
Fixpoint last_end (o : Z) (l : list OBSliceEntry) : Z :=
  match l with [] => o | s :: l => last_end (send s) l end.
Definition all_gaps (o e : Z) (l : list OBSliceEntry) : list FSSliceSize :=
  gaps o l ++ (if last_end o l <? e then [mkSliceSize (last_end o l) (e - last_end o l)] else []).

(** Ordered slices within [o, e]. *)
Inductive within : Z → list OBSliceEntry → Z → Prop :=
  | within_nil o e : o <= e → within o [] e
  | within_cons o s l e : o <= soff s → 0 < slen s → within (send s) l e → within o (s :: l) e.
Lemma within_last o l e : within o l e → o <= last_end o l <= e.
Proof. induction 1; simpl; unfold send in *; lia. Qed.
Lemma within_before o l e s : within o l e → s ∈ l → o <= soff s ∧ send s <= last_end o l.
Proof.
  intros Hw. revert s. induction Hw as [|o x l e Ho Hx Hw IH]; intros s; [by intros ?%elem_of_nil|].
  pose proof (within_last _ _ _ Hw). intros [->|Hs]%elem_of_cons; simpl; [lia|].
  destruct (IH s Hs). unfold send in *. lia.
Qed.
Lemma within_of_wf o l e :
  slices_wf l → (∀ s, s ∈ l → o <= soff s ∧ send s <= e) → o <= e → within o l e.
Proof.
  revert o. induction l as [|s l IH]; intros o Hw Hb He; [by constructor|].
  destruct Hw as [Hs Hv]. inversion Hs as [|? ? Hs' Hbef]; subst. apply Forall_cons in Hv as [Hv0 Hv].
  rewrite Forall_forall in Hbef. destruct (Hb s) as [B1 B2]; [by left|].
  constructor; [done|apply Hv0|]. apply IH; [by split| |unfold valid_slice in Hv0; lia].
  intros x Hx. split; [by apply Hbef|]. apply Hb. by right.
Qed.
Lemma lookup_byte_before o l e b : within o l e → b < o → lookup_byte l b = None.
Proof.
  induction 1 as [|o s l e Ho Hs Hw IH]; intros Hb; [done|]. simpl.
  rewrite decide_False by (unfold covers; lia). apply IH. unfold send. lia.
Qed.

Lemma gaps_bounds o l e h : within o l e → h ∈ gaps o l →
  o <= ss_offset h ∧ 0 < ss_length h ∧ ss_offset h + ss_length h < last_end o l.
Proof.
  intros Hw. revert h. induction Hw as [|o s l e Ho Hs Hw IH]; intros h; [by intros ?%elem_of_nil|].
  simpl. pose proof (within_last _ _ _ Hw). intros [Hh|Hh]%elem_of_app.
  - destruct (Z.ltb_spec 0 (soff s - o)); [|by apply elem_of_nil in Hh].
    apply list_elem_of_singleton in Hh as ->. simpl. unfold send in *. lia.
  - destruct (IH h Hh). unfold send in *. lia.
Qed.
Lemma gaps_cover o l e b : within o l e → o <= b < last_end o l →
  (∃ h, h ∈ gaps o l ∧ in_extent h b) ↔ lookup_byte l b = None.
Proof.
  intros Hw. revert b. induction Hw as [|o s l e Ho Hs Hw IH]; intros b Hb; simpl in *; [lia|].
  destruct (decide (b < soff s)) as [Hlt|Hge].
  - rewrite decide_False by (unfold covers; lia).
    rewrite (lookup_byte_before (send s) l e) by (done || (unfold send; lia)). split; [done|intros _].
    exists (mkSliceSize o (soff s - o)). split; [|unfold in_extent; simpl; lia].
    apply elem_of_app. left. destruct (Z.ltb_spec 0 (soff s - o)); [by left|lia].
  - assert (Hno : ¬ ∃ h, h ∈ (if 0 <? soff s - o then [mkSliceSize o (soff s - o)] else []) ∧ in_extent h b).
    { intros (h & Hh & Hi). destruct (0 <? soff s - o); [|by apply elem_of_nil in Hh].
      apply list_elem_of_singleton in Hh as ->. unfold in_extent in Hi. simpl in Hi. lia. }
    destruct (decide (covers s b)) as [Hc|Hc].
    + split; [|done]. intros (h & [Hh|Hh]%elem_of_app & Hi); [exfalso; apply Hno; eauto|].
      destruct (gaps_bounds _ _ _ _ Hw Hh). unfold in_extent, covers in *. lia.
    + rewrite <- IH by (unfold covers in Hc; lia). split.
      * intros (h & [Hh|Hh]%elem_of_app & Hi); [exfalso; apply Hno; eauto|eauto].
      * intros (h & Hh & Hi). exists h. split; [apply elem_of_app; by right|done].
Qed.

(** The holes are exactly the bytes of the extent outside the slices. *)
Lemma all_gaps_cover o l e b : within o l e →
  (∃ h, h ∈ all_gaps o e l ∧ in_extent h b) ↔ o <= b < e ∧ lookup_byte l b = None.
Proof.
  intros Hw. pose proof (within_last _ _ _ Hw) as Hl. unfold all_gaps.
  destruct (decide (b < last_end o l)) as [Hlt|Hge].
  - split.
    + intros (h & [Hh|Hh]%elem_of_app & Hi).
      * pose proof (gaps_bounds _ _ _ _ Hw Hh). unfold in_extent in Hi. split; [lia|].
        apply (gaps_cover o l e); [done|lia|eauto].
      * destruct (Z.ltb_spec (last_end o l) e); [|by apply elem_of_nil in Hh].
        apply list_elem_of_singleton in Hh as ->. unfold in_extent in Hi. simpl in Hi. lia.
    + intros (Hb & Hn). apply (gaps_cover o l e) in Hn as (h & Hh & Hi); [|done|lia].
      exists h. split; [apply elem_of_app; by left|done].
  - split.
    + intros (h & [Hh|Hh]%elem_of_app & Hi).
      * pose proof (gaps_bounds _ _ _ _ Hw Hh). unfold in_extent in Hi. lia.
      * destruct (Z.ltb_spec (last_end o l) e); [|by apply elem_of_nil in Hh].
        apply list_elem_of_singleton in Hh as ->. unfold in_extent in Hi. simpl in Hi. split; [lia|].
        apply lookup_byte_None. intros s Hs Hc.
        destruct (within_before _ _ _ _ Hw Hs). unfold covers in Hc. lia.
    + intros (Hb & _). exists (mkSliceSize (last_end o l) (e - last_end o l)).
      split; [|unfold in_extent; simpl; lia]. apply elem_of_app. right.
      destruct (Z.ltb_spec (last_end o l) e); [by left|lia].
Qed.
(** Between two holes there is a slice. *)
Definition hole_before (h1 h2 : FSSliceSize) : Prop := ss_offset h1 + ss_length h1 < ss_offset h2.
Lemma all_gaps_sorted o l e : within o l e →
  StronglySorted hole_before (all_gaps o e l) ∧ Forall (λ h, 0 < ss_length h) (all_gaps o e l).
Proof.
  intros Hw. unfold all_gaps. set (tl := if last_end o l <? e then _ else []).
  assert (Htl : ∀ h, h ∈ tl → ss_offset h = last_end o l ∧ 0 < ss_length h).
  { intros h. unfold tl. destruct (Z.ltb_spec (last_end o l) e); [|by intros ?%elem_of_nil].
    intros ->%list_elem_of_singleton. simpl. lia. }
  split.
  - apply StronglySorted_app. split_and!.
    + intros h1 h2 H1 H2. destruct (gaps_bounds _ _ _ _ Hw H1) as (_ & _ & ?).
      destruct (Htl _ H2) as [E _]. unfold hole_before. lia.
    + clear tl Htl. induction Hw as [|o s l e Ho Hs Hw IH]; [constructor|]. simpl.
      destruct (Z.ltb_spec 0 (soff s - o)); [|done]. constructor; [done|].
      apply Forall_forall. intros h Hh. destruct (gaps_bounds _ _ _ _ Hw Hh).
      unfold hole_before, send in *. simpl. lia.
    + unfold tl. case_match; repeat constructor.
  - apply Forall_app. split; apply Forall_forall; intros h Hh; [by apply (gaps_bounds _ _ _ _ Hw)|by apply Htl].
Qed.
(** Holes are determined by their bytes. *)
Lemma holes_unique l1 l2 :
  StronglySorted hole_before l1 → Forall (λ h, 0 < ss_length h) l1 →
  StronglySorted hole_before l2 → Forall (λ h, 0 < ss_length h) l2 →
  (∀ b, (∃ h, h ∈ l1 ∧ in_extent h b) ↔ (∃ h, h ∈ l2 ∧ in_extent h b)) → l1 = l2.
Proof.
  assert (Hnil : ∀ h (l : list FSSliceSize), Forall (λ h, 0 < ss_length h) (h :: l) →
    ¬ ∀ b, (∃ h', h' ∈ h :: l ∧ in_extent h' b) ↔ ∃ h', h' ∈ [] ∧ in_extent h' b).
  { intros h l [Hp _]%Forall_cons Hb. destruct (proj1 (Hb (ss_offset h))) as (x & ?%elem_of_nil & _); [|done].
    exists h. split; [by left|]. unfold in_extent. lia. }
  revert l2. induction l1 as [|h1 l1 IH]; intros [|h2 l2] S1 P1 S2 P2 Hb; [done|..].
  { exfalso. apply (Hnil _ _ P2). intros b. symmetry. apply Hb. }
  { by apply Hnil in Hb. }
  inversion S1 as [|? ? S1' B1]; subst. inversion S2 as [|? ? S2' B2]; subst.
  apply Forall_cons in P1 as [P1 P1'], P2 as [P2 P2']. rewrite Forall_forall in B1, B2.
  unfold hole_before, in_extent in *.
  assert (Hmin : ∀ b h1 l1 h2 l2, (∀ x, x ∈ l1 → ss_offset h1 + ss_length h1 < ss_offset x) → 0 < ss_length h1 →
    (∃ h, h ∈ h2 :: l2 ∧ ss_offset h <= b < ss_offset h + ss_length h) →
    (∀ b, (∃ h, h ∈ h1 :: l1 ∧ ss_offset h <= b < ss_offset h + ss_length h) ↔
      ∃ h, h ∈ h2 :: l2 ∧ ss_offset h <= b < ss_offset h + ss_length h) → ss_offset h1 <= b).
  { intros b g1 k1 g2 k2 Hk Hp Hin Hc. apply Hc in Hin as (x & [->|Hx]%elem_of_cons & Hi); [lia|].
    specialize (Hk x Hx). lia. }
  assert (Ho : ss_offset h1 = ss_offset h2).
  { apply Z.le_antisymm.
    - apply (Hmin (ss_offset h2) h1 l1 h2 l2 B1 P1); [|exact Hb]. exists h2. split; [by left|lia].
    - apply (Hmin (ss_offset h1) h2 l2 h1 l1 B2 P2); [|intros b; symmetry; apply Hb]. exists h1. split; [by left|lia]. }
  assert (Hmax : ∀ h1 l1 h2 l2, (∀ x, x ∈ l1 → ss_offset h1 + ss_length h1 < ss_offset x) → 0 < ss_length h1 →
    ss_offset h1 = ss_offset h2 →
    (∀ b, (∃ h, h ∈ h1 :: l1 ∧ ss_offset h <= b < ss_offset h + ss_length h) ↔
      ∃ h, h ∈ h2 :: l2 ∧ ss_offset h <= b < ss_offset h + ss_length h) → ss_length h2 <= ss_length h1).
  { intros g1 k1 g2 k2 Hk Hp Heq Hc. destruct (decide (ss_length g2 <= ss_length g1)) as [|Hgt]; [done|].
    destruct (proj2 (Hc (ss_offset g1 + ss_length g1))) as (x & [->|Hx]%elem_of_cons & Hi).
    - exists g2. split; [by left|lia].
    - lia.
    - specialize (Hk x Hx). lia. }
  assert (Hlen : ss_length h1 = ss_length h2).
  { apply Z.le_antisymm.
    - apply (Hmax h2 l2 h1 l1 B2 P2); [done|]. intros b. symmetry. apply Hb.
    - by apply (Hmax h1 l1 h2 l2 B1 P1). }
  assert (E : h1 = h2) by (destruct h1, h2; simpl in *; congruence). subst h2. f_equal. apply IH; try done.
  intros b. split; intros (x & Hx & Hi).
  - destruct (proj1 (Hb b)) as (y & [->|Hy]%elem_of_cons & Hj); [by exists x; split; [right|]| |by exists y].
    specialize (B1 x Hx). lia.
  - destruct (proj2 (Hb b)) as (y & [->|Hy]%elem_of_cons & Hj); [by exists x; split; [right|]| |by exists y].
    specialize (B2 x Hx). lia.
Qed.

Section Read.
Context {T : Type} `{!UniqSkiplist OBSliceEntry T} `{!UniqSkiplistSpec slice_compare}.
Implicit Types (s : OpState T) (ix : Index T Mgr) (k : FSBlockKey) (b : Z) (sl : OBSliceEntry)
  (base : Z → Z → Z) (ext : Z → Z) (R : list OBSliceEntry).

(** ** The slices of an extent *)

(** The slices [l], which the caller holds references of, are those of the extent [bs]. *)
Record slices_of ix bs (l : list OBSliceEntry) : Prop := {
  so_wf : slices_wf l;
  so_bytes : ∀ b d, lookup_byte l b = Some d ↔ in_extent (bs_slice bs) b ∧ maps ix (bs_block bs) b d;
}.
Lemma slices_of_within ix bs l :
  slices_of ix bs l → 0 < ss_length (bs_slice bs) →
  within (ss_offset (bs_slice bs)) l (ss_offset (bs_slice bs) + ss_length (bs_slice bs)).
Proof using.
  intros [Hw Hb] Hl. apply within_of_wf; [done| |lia]. intros sl Hs.
  assert (Hin : ∀ b, covers sl b → in_extent (bs_slice bs) b).
  { intros b Hc. apply (Hb b (loc_at sl b)). apply lookup_byte_Some; [done|]. by exists sl. }
  destruct Hw as [_ Hv]. rewrite Forall_forall in Hv. destruct (Hv sl Hs) as (_ & Hp & _).
  pose proof (Hin (soff sl)) as H1. pose proof (Hin (send sl - 1)) as H2.
  unfold covers, in_extent, send in *. lia.
Qed.
Lemma slices_of_none ix bs l b :
  slices_of ix bs l → in_extent (bs_slice bs) b → lookup_byte l b = None ↔ ∀ d, ¬ maps ix (bs_block bs) b d.
Proof using.
  intros [Hw Hb] Hi. split.
  - intros Hn d Hm. assert (lookup_byte l b = Some d) by (by apply Hb). congruence.
  - intros Hn. destruct (lookup_byte l b) as [d|] eqn:E; [|done]. apply Hb in E as [_ Hm]. by apply Hn in Hm.
Qed.

(** A step that only changes references and memory. *)
Definition reads_only s ix' arr s' : Prop :=
  s' = upd_op (op_set_slices arr) (set_index ix' s) ∧ kept (os_index s) ix' ∧ same_maps (os_index s) ix'.

Lemma get_slice_array_run base ext R s :
  store_ok base ext R (os_index s) → key_ok (bs_block (op_bs_key (os_op s))) →
  0 < ss_length (bs_slice (op_bs_key (os_op s))) →
  match get_slice_array s with
  | Crash => False
  | Hang => is_reclaim (os_op s) = false ∧
      ∃ p c t, lives (os_index s) p (bs_block (op_bs_key (os_op s))) c t ∧ 0 < c
  | Ret (inl _) _ => False
  | Ret (inr out) s' => ∃ ix' arr, reads_only s ix' arr s' ∧
      match out with
      | inr _ => store_ok base (λ id, ext id + occ id (sa_slices arr)) R ix' ∧
          slices_of (os_index s) (op_bs_key (os_op s)) (sa_slices arr)
      | inl err => sa_slices arr = [] ∧
          (err = ENOMEM ∧ (∃ ext', (∀ id, ext id <= ext' id) ∧ store_ok base ext' R ix') ∨
           err = ENOENT ∧ store_ok base ext R ix' ∧
             ∀ b d, in_extent (bs_slice (op_bs_key (os_op s))) b →
               ¬ maps (os_index s) (bs_block (op_bs_key (os_op s))) b d)
      end
  end.
Proof using UniqSkiplistSpec0.
  intros S Hk Hl. set (bs := op_bs_key (os_op s)) in *.
  destruct (ob_index_get_slices_ex_run base ext (os_index s) bs (op_slices (os_op s)) (is_reclaim (os_op s))
    (so_index _ _ _ _ S) Hk Hl) as (out & arr & ix' & E & Hu & Hw & H).
  pose proof (frames_get_slices _ _ _ _ _ _ E) as Hf.
  assert (Hok : ∀ ext', index_ok base ext' ix' → store_ok base ext' R ix').
  { intros ext' I. eapply store_ok_maps; [exact S|by apply framed_space|exact I|].
    intros k b d. apply (unchanged_maps _ _ Hu). }
  unfold get_slice_array. rewrite ofield_run. change (op_bs_key (id (os_op s))) with bs.
  change (op_slices (id (os_op s))) with (op_slices (os_op s)).
  change (is_reclaim (id (os_op s))) with (is_reclaim (os_op s)).
  rewrite (obind_ret _ _ _ _ _ (oindex_run _ _ _ _ E)). cbn beta iota. rewrite omod_run.
  destruct out as [|r]; [by apply Hw|]. change (mret r) with (λ s : OpState T, @Ret (OpState T) (Z + unit) (inr r) s).
  cbn beta iota. exists ix', arr.
  split; [split_and!; [done|by apply unchanged_kept|by apply unchanged_maps]|].
  destruct r as [err|[]].
  - destruct H as [Ha [(-> & _ & ext' & I & He)|(-> & I & Hn)]]; (split; [done|]); [left|right].
    + split; [done|]. exists ext'. auto.
    + split; [done|]. split; [auto|]. intros b d Hb (p & c & t & L & Hm).
      rewrite (Hn p c t b) in Hm; [done|exact L|exact Hb].
  - destruct H as (I & Hwf & p & c & t & L & Hm). split; [auto|]. split; [done|]. intros b d.
    rewrite Hm. rewrite (maps_lives _ p _ c t) by (done || apply (so_index _ _ _ _ S)).
    unfold in_extent, extent_start, extent_end. case_decide; [|split; [done|by intros [? _]]].
    split; [done|by intros [_ ?]].
Qed.

(** ** [get_slice_index_holes] *)
Lemma free_one_run base ext R s sl :
  store_ok base ext R (os_index s) → 0 < ext (se_id sl) →
  ∃ ix', ob_index_free sl s = Ret (inr tt) (set_index ix' s) ∧ kept (os_index s) ix' ∧
    same_maps (os_index s) ix' ∧ store_ok base (λ id, ext id - occ id [sl]) R ix'.
Proof using UniqSkiplistSpec0.
  intros S Hx. eexists. split; [done|]. split_and!; [|done|by apply free_ref_store].
  split; [|intros q k c t L; by exists t]. apply same_space_mono.
  change (same_space (mgr_of (os_index s)) (w_acct (slice_free_func sl (ix_world (os_index s))))).
  by rewrite free_acct.
Qed.
Lemma scan_holes_run base ext R l o holes s :
  store_ok base ext R (os_index s) → (∀ id, occ id l <= ext id) →
  ∃ ix', scan_holes l o holes s = Ret (inr (last_end o l, holes ++ gaps o l)) (set_index ix' s) ∧
    kept (os_index s) ix' ∧ same_maps (os_index s) ix' ∧ store_ok base (λ id, ext id - occ id l) R ix'.
Proof using UniqSkiplistSpec0.
  revert ext o holes s. induction l as [|sl l IH]; intros ext o holes s S Hx.
  { exists (os_index s). simpl. rewrite app_nil_r. split_and!; [by destruct s|done|done|].
    eapply store_ok_ext; [|exact S]. intros id. simpl. rewrite occ_nil. lia. }
  cbn [scan_holes]. destruct (free_one_run base ext R s sl S) as (ix1 & E1 & K1 & M1 & S1).
  { specialize (Hx (se_id sl)). rewrite occ_cons, Z.eqb_refl in Hx. pose proof (occ_nonneg (se_id sl) l). lia. }
  rewrite (obind_ret _ _ _ _ _ E1).
  destruct (IH (λ id, ext id - occ id [sl]) (send sl)
    (if 0 <? soff sl - o then holes ++ [mkSliceSize o (soff sl - o)] else holes) (set_index ix1 s) S1)
    as (ix2 & E2 & K2 & M2 & S2).
  { intros id. specialize (Hx id). rewrite occ_cons in *. rewrite occ_nil. lia. }
  exists ix2. rewrite E2. split_and!.
  - simpl. do 3 f_equal. destruct (0 <? soff sl - o); [by rewrite <- app_assoc|done].
  - by etransitivity.
  - intros k b d. by rewrite (M2 k b d), (M1 k b d).
  - eapply store_ok_ext; [|exact S2]. intros id. simpl. rewrite !occ_cons, occ_nil. lia.
Qed.

(** The unmapped parts of the extent [bs]: in order, not empty, and exactly its unmapped
    bytes. *)
Record holes_of ix bs (l : list FSSliceSize) : Prop := {
  ho_sorted : StronglySorted hole_before l;
  ho_pos : Forall (λ h, 0 < ss_length h) l;
  ho_bytes : ∀ b, (∃ h, h ∈ l ∧ in_extent h b) ↔
    in_extent (bs_slice bs) b ∧ ∀ d, ¬ maps ix (bs_block bs) b d;
}.
Lemma holes_of_all ix bs :
  0 < ss_length (bs_slice bs) → (∀ b d, in_extent (bs_slice bs) b → ¬ maps ix (bs_block bs) b d) →
  holes_of ix bs [bs_slice bs].
Proof using.
  intros Hl Hn. split; [repeat constructor|by repeat constructor|]. intros b. split.
  - intros (h & ->%list_elem_of_singleton & Hi). split; [done|]. intros d. by apply Hn.
  - intros [Hi _]. exists (bs_slice bs). split; [by left|done].
Qed.
Lemma holes_of_gaps ix bs l :
  slices_of ix bs l → 0 < ss_length (bs_slice bs) →
  holes_of ix bs (all_gaps (ss_offset (bs_slice bs)) (ss_offset (bs_slice bs) + ss_length (bs_slice bs)) l).
Proof using.
  intros Hs Hl. pose proof (slices_of_within _ _ _ Hs Hl) as Hw.
  destruct (all_gaps_sorted _ _ _ Hw) as [H1 H2]. split; [done|done|]. intros b.
  rewrite (all_gaps_cover _ _ _ b Hw). split; intros [Hb Hn]; (split; [done|]).
  - by apply (slices_of_none ix bs l b).
  - by apply (slices_of_none ix bs l b).
Qed.

Definition holes_outcome base ext R s (max_size : Z) (res : Z) (holes : list FSSliceSize) (count : Z) s' : Prop :=
  (∃ ix' arr, reads_only s ix' arr s') ∧
  (∃ ext', (∀ id, ext id <= ext' id) ∧ store_ok base ext' R (os_index s')) ∧
  (res = ENOMEM ∧ holes = [] ∧ count = 0 ∨
   ∃ all, holes_of (os_index s) (op_bs_key (os_op s)) all ∧ holes = take (Z.to_nat max_size) all ∧
     count = Z.of_nat (length all) ∧ res = if count <=? max_size then 0 else - ENOSPC).

Lemma get_slice_index_holes_run base ext R s max_size :
  store_ok base ext R (os_index s) → key_ok (bs_block (op_bs_key (os_op s))) →
  0 < ss_length (bs_slice (op_bs_key (os_op s))) → 0 < max_size →
  match get_slice_index_holes max_size s with
  | Crash => False
  | Hang => is_reclaim (os_op s) = false ∧
      ∃ p c t, lives (os_index s) p (bs_block (op_bs_key (os_op s))) c t ∧ 0 < c
  | Ret (inl _) _ => False
  | Ret (inr (res, (holes, count))) s' => holes_outcome base ext R s max_size res holes count s'
  end.
Proof using UniqSkiplistSpec0.
  intros S Hk Hl Hmax. pose proof (get_slice_array_run base ext R s S Hk Hl) as H.
  unfold get_slice_index_holes. unfold mbind at 1, OM_bind at 1.
  destruct (get_slice_array s) as [| |[?|out] s1]; [done..|].
  destruct H as (ix1 & arr & (-> & K & M) & H). rewrite ofield_run.
  match goal with |- context [upd_op ?f (set_index ix1 s)] => set (s1 := upd_op f (set_index ix1 s)) end.
  change (bs_slice (op_bs_key (id (os_op s1)))) with (bs_slice (op_bs_key (os_op s))).
  change (op_slices (id (os_op s1))) with arr.
  destruct out as [err|[]].
  - destruct H as [Ha [(-> & ext' & He & S')|(-> & S' & Hn)]].
    + split; [by exists ix1, arr|]. split; [by exists ext'|]. by left.
    + split; [by exists ix1, arr|]. split; [by exists ext|]. right.
      exists [bs_slice (op_bs_key (os_op s))]. split; [by apply holes_of_all|].
      rewrite take_ge by (simpl; lia). split_and!; [done|done|].
      destruct (Z.leb_spec 1 max_size); [done|lia].
  - destruct H as [S1 Hs].
    destruct (scan_holes_run base _ R (sa_slices arr) (ss_offset (bs_slice (op_bs_key (os_op s)))) [] s1 S1)
      as (ix2 & E2 & K2 & M2 & S2).
    { intros id. pose proof (io_ext _ _ _ (so_index _ _ _ _ S) id). simpl. lia. }
    rewrite (obind_ret _ _ _ _ _ E2). cbn beta iota. rewrite app_nil_l.
    rewrite if_snoc.
    match goal with |- context [length (gaps ?o ?l ++ ?x)] => change (gaps o l ++ x) with
      (all_gaps o (o + ss_length (bs_slice (op_bs_key (os_op s)))) l) end.
    split.
    { exists ix2, arr. split; [done|]. split; [by etransitivity|].
      intros k b d. etransitivity; [apply (M2 k b d)|apply (M k b d)]. }
    split.
    { exists ext. split; [done|]. eapply store_ok_ext; [|exact S2]. intros id. simpl. lia. }
    right. eexists. split; [by apply (holes_of_gaps _ _ _ Hs Hl)|]. by split_and!.
Qed.

(** the holes of an extent are found exactly: in order, not empty, and together the
    bytes of the extent that are not mapped; they are counted even if the array cannot
    hold them all, and no reference is kept. *)
Theorem get_slice_index_holes_ok base ext R s max_size :
  store_ok base ext R (os_index s) → key_ok (bs_block (op_bs_key (os_op s))) →
  0 < ss_length (bs_slice (op_bs_key (os_op s))) → 0 < max_size →
  match get_slice_index_holes max_size s with
  | Crash => False
  | Hang => is_reclaim (os_op s) = false ∧
      ∃ p c t, lives (os_index s) p (bs_block (op_bs_key (os_op s))) c t ∧ 0 < c
  | Ret (inl _) _ => False
  | Ret (inr (res, (holes, count))) s' => holes_outcome base ext R s max_size res holes count s'
  end.
Proof using UniqSkiplistSpec0. apply get_slice_index_holes_run. Qed.
End Read.
