(* ===== verification/StoreAllocate.v ===== *)
(** * Allocating an extent

    [fs_slice_allocate]: the holes of the extent are found, space is allocated for each and
    entered into the index as allocated slices, whose bytes read as zeros. *)
From stdpp Require Import sorting.
From S2P Require Import Prelude Types Skiplist ObSlices ObSlicesRun.
From S2P Require Import ObSlicesThms ObSlicesMain ObSlicesGet ObIndex ObIndexSpec ObIndexOps.
From S2P Require Import ObIndexThms ObIndexMain TrunkAllocator StorageAllocator StorageAllocSpec.
From S2P Require Import StorageAllocThms StorageAllocUsed StoreAlloc Binlog SliceOp StoreWrite.
From S2P Require Import StoreWrite StoreRead.

Section Allocate.
Context {T : Type} `{!UniqSkiplist OBSliceEntry T} `{!UniqSkiplistSpec slice_compare}.
Implicit Types (s : OpState T) (ix : Index T Mgr) (k : FSBlockKey) (b : Z) (sl : OBSliceEntry)
  (base : Z → Z → Z) (ext : Z → Z) (R : list OBSliceEntry) (bs : FSBlockSliceKeyInfo).

(** ** Slices an operation holds *)

(** Slices of block [k], in order, with space and references of their own. *)
Record held k (ty : OBSliceType) ext0 ext ix (l : list OBSliceEntry) : Prop := {
  hd_sorted : StronglySorted before l;
  hd_usable : Forall (usable ix k) l;
  hd_fits : Forall (λ sl, slen sl <= sp_size (se_space sl)) l;
  hd_type : Forall (λ sl, se_type sl = ty) l;
  hd_ext : ∀ id, ext0 id + occ id l <= ext id;
}.
Lemma reserved_held k ty o e ext0 ext ix l : reserved k ty o e ext0 ext ix l → held k ty ext0 ext ix l.
Proof using. intros [R1 R2 R3 R4 R5]. split; try done. by eapply tiles_sorted. Qed.
Lemma held_nil k ty ext ix : held k ty ext ext ix [].
Proof using. split; try constructor. intros id. rewrite occ_nil. lia. Qed.
Lemma held_kept k ty ext0 ext ix ix' l : kept ix ix' → held k ty ext0 ext ix l → held k ty ext0 ext ix' l.
Proof using.
  intros K [H1 H2 H3 H4 H5]. split; try done. eapply Forall_impl; [exact H2|]. intros sl. by apply usable_kept.
Qed.
Lemma held_app k ty ext0 ext1 ext2 ix l1 l2 :
  held k ty ext0 ext1 ix l1 → held k ty ext1 ext2 ix l2 →
  (∀ x y, x ∈ l1 → y ∈ l2 → before x y) → held k ty ext0 ext2 ix (l1 ++ l2).
Proof using.
  intros [A1 A2 A3 A4 A5] [B1 B2 B3 B4 B5] Hb. split.
  - apply StronglySorted_app. by split_and!.
  - by apply Forall_app.
  - by apply Forall_app.
  - by apply Forall_app.
  - intros id. rewrite occ_app. specialize (A5 id). specialize (B5 id). lia.
Qed.

(** ** Finding the holes *)
Lemma holes_of_unique ix bs l1 l2 : holes_of ix bs l1 → holes_of ix bs l2 → l1 = l2.
Proof using.
  intros [A1 A2 A3] [B1 B2 B3]. apply holes_unique; try done. intros b. by rewrite A3, B3.
Qed.
Lemma holes_of_same_maps ix ix' bs l : same_maps ix ix' → holes_of ix bs l → holes_of ix' bs l.
Proof using.
  intros M [A1 A2 A3]. split; try done. intros b. rewrite A3. by setoid_rewrite (λ d, M (bs_block bs) b d).
Qed.

Lemma obind_assoc {B C D} (m : OM T B) (f : B → OM T C) (g : C → OM T D) s :
  (m ≫= λ x, f x ≫= g) s = ((m ≫= f) ≫= g) s.
Proof using. unfold mbind, OM_bind. by destruct (m s) as [| |[|] ]. Qed.

Variable retries : nat.
(** The search for the holes of [fs_slice_allocate]. *)
Definition find_holes : OM T (list FSSliceSize) :=
  '(result, (holes, count)) ← get_slice_index_holes FS_SLICE_HOLES_FIXED_COUNT;
  if result =? 0 then mret holes
  else if negb (result =? - ENOSPC) then ofail result
  else holes_loop (S retries) count.

Definition find_outcome ext R s (r : Z + list FSSliceSize) s' : Prop :=
  (∃ ix' arr, reads_only s ix' arr s') ∧
  (∃ base ext', (∀ id, ext id <= ext' id) ∧ store_ok base ext' R (os_index s')) ∧
  match r with
  | inl e => e = ENOMEM
  | inr holes => holes_of (os_index s) (op_bs_key (os_op s)) holes
  end.
Lemma reads_only_trans s1 ix2 a2 s2 ix3 a3 s3 :
  reads_only s1 ix2 a2 s2 → reads_only s2 ix3 a3 s3 → reads_only s1 ix3 a3 s3.
Proof using.
  intros (-> & K2 & M2) (-> & K3 & M3). split; [done|]. split; [by etransitivity|].
  intros k b d. etransitivity; [apply (M3 k b d)|apply (M2 k b d)].
Qed.
Lemma find_holes_run base ext R s :
  store_ok base ext R (os_index s) → key_ok (bs_block (op_bs_key (os_op s))) →
  0 < ss_length (bs_slice (op_bs_key (os_op s))) →
  match find_holes s with
  | Crash => False
  | Hang => is_reclaim (os_op s) = false
  | Ret r s' => find_outcome ext R s r s'
  end.
Proof using UniqSkiplistSpec0.
  intros S Hk Hl. pose proof (get_slice_index_holes_run base ext R s FS_SLICE_HOLES_FIXED_COUNT S Hk Hl eq_refl) as H.
  unfold find_holes, mbind at 1, OM_bind at 1.
  destruct (get_slice_index_holes _ s) as [| |[?|[res [holes count]]] s1]; [done|by destruct H|done|].
  destruct H as ((ix1 & a1 & R1) & (ext1 & He1 & S1) & H).
  destruct H as [(-> & -> & ->)|(all & Hall & -> & Hc & Hres)].
  { change (ENOMEM =? 0) with false. change (ENOMEM =? - ENOSPC) with false. cbn [negb].
    split_and!; [by exists ix1, a1|by exists base, ext1|done]. }
  destruct (Z.leb_spec count FS_SLICE_HOLES_FIXED_COUNT) as [Hle|Hgt]; subst res.
  { cbn [Z.eqb]. split_and!; [by exists ix1, a1|by exists base, ext1|].
    rewrite take_ge; [done|]. subst count. unfold FS_SLICE_HOLES_FIXED_COUNT in *. lia. }
  change (- ENOSPC =? 0) with false. change (- ENOSPC =? - ENOSPC) with true. cbn [negb holes_loop].
  destruct (oalloc_run s1) as (ok & ix2 & E2 & Q2 & _). rewrite (obind_ret _ _ _ _ _ E2).
  destruct (mem_only_kept _ _ Q2) as [K2 M2]. pose proof (mem_only_store _ _ _ _ _ Q2 S1) as S2.
  assert (R2 : reads_only s ix2 a1 (set_index ix2 s1)).
  { pose proof R1 as (-> & K1 & M1). split; [done|]. split; [by etransitivity|].
    intros k b d. etransitivity; [apply (M2 k b d)|apply (M1 k b d)]. }
  destruct ok; cbn [negb].
  2:{ split_and!; [by exists ix2, a1|by exists base, ext1|done]. }
  set (s2 := set_index ix2 s1) in *. pose proof R2 as (Es2 & K12 & M12).
  assert (Hbs : op_bs_key (os_op s2) = op_bs_key (os_op s)) by (by rewrite Es2).
  pose proof (get_slice_index_holes_run base ext1 R s2 (count + FS_SLICE_SN_PARRAY_INIT_ALLOC_COUNT) S2) as H.
  rewrite Hbs in H. assert (Hpos : 0 < count + FS_SLICE_SN_PARRAY_INIT_ALLOC_COUNT).
  { unfold FS_SLICE_HOLES_FIXED_COUNT, FS_SLICE_SN_PARRAY_INIT_ALLOC_COUNT in *. lia. }
  specialize (H Hk Hl Hpos). unfold mbind at 1, OM_bind at 1.
  destruct (get_slice_index_holes _ s2) as [| |[?|[res [holes count2]]] s3]; [done| |done|].
  { destruct H as (Hr & _). by rewrite Es2 in Hr. }
  destruct H as ((ix3 & a3 & R3) & (ext3 & He3 & S3) & H).
  pose proof (reads_only_trans _ _ _ _ _ _ _ R2 R3) as R13.
  assert (He13 : ∀ id, ext id <= ext3 id) by (intros id; specialize (He1 id); specialize (He3 id); lia).
  destruct H as [(-> & -> & ->)|(all2 & Hall2 & -> & Hc2 & Hres)].
  { change (ENOMEM =? 0) with false. change (ENOMEM =? - ENOSPC) with false. cbn [negb].
    split_and!; [by exists ix3, a3|by exists base, ext3|done]. }
  rewrite Hbs in Hall2. assert (all2 = all) as ->.
  { eapply holes_of_unique; [exact Hall2|]. eapply holes_of_same_maps; [exact M12|exact Hall]. }
  assert (Hcc : count2 = count) by congruence. rewrite Hcc in *.
  destruct (Z.leb_spec count (count + FS_SLICE_SN_PARRAY_INIT_ALLOC_COUNT)) as [_|Hbad]; cycle 1.
  { unfold FS_SLICE_SN_PARRAY_INIT_ALLOC_COUNT in Hbad. lia. }
  subst res. cbn [Z.eqb]. split_and!; [by exists ix3, a3|by exists base, ext3|].
  rewrite take_ge; [done|]. subst count. unfold FS_SLICE_SN_PARRAY_INIT_ALLOC_COUNT. lia.
Qed.

(** ** Space for the holes *)
Context (now : Z) (continue_flag : bool) (discard_remain_space_size : Z).
Context (blocked : Z → Mgr → Mgr).
Context (Hused : ∀ i m, used_kept m (blocked i m)).
Context (Haligned : ∀ i m, aligned8 m → aligned8 (blocked i m)).
Context (Hdiscard : 0 < discard_remain_space_size).
Context (Hspace : ∀ i m, alloc_safe m → alloc_safe (blocked i m) ∧ space_mono m (blocked i m)).
Abbreviation slice_alloc := (fs_slice_alloc now continue_flag discard_remain_space_size blocked retries).
Abbreviation alloc_all := (alloc_holes now continue_flag discard_remain_space_size blocked retries).

(** The slices [l] fill exactly the holes. *)
Definition fills (l : list OBSliceEntry) (holes : list FSSliceSize) : Prop :=
  ∀ b, (∃ sl, sl ∈ l ∧ covers sl b) ↔ ∃ h, h ∈ holes ∧ in_extent h b.
Definition hole_ok k (h : FSSliceSize) : Prop := extent_ok (mkBlockSliceKey k h).

Definition alloc_holes_outcome k ext0 R s holes (r : Z + unit) s' : Prop :=
  kept (os_index s) (os_index s') ∧ same_maps (os_index s) (os_index s') ∧
  ∃ base' ext', (∀ id, ext0 id <= ext' id) ∧
    match r with
    | inl e => e ≠ 0 ∧ store_ok base' ext' R (os_index s')
    | inr _ => ∃ new, s' = upd_op (λ o, op_set_update (op_sn o) (op_space_changed o) (op_sarray_alloc o)
                                 (op_sarray (os_op s) ++ new) o) (set_index (os_index s') s) ∧
        store_ok base' ext' (spaces_of (op_sarray (os_op s) ++ new) ++ R) (os_index s') ∧
        held k OB_SLICE_TYPE_ALLOC ext0 ext' (os_index s') (pr_slice <$> op_sarray (os_op s) ++ new) ∧
        fills (pr_slice <$> new) holes
    end.
Lemma alloc_holes_run base ext0 ext R s k holes :
  store_ok base ext (spaces_of (op_sarray (os_op s)) ++ R) (os_index s) →
  held k OB_SLICE_TYPE_ALLOC ext0 ext (os_index s) (pr_slice <$> op_sarray (os_op s)) →
  Forall (hole_ok k) holes → StronglySorted hole_before holes →
  (∀ sl h, sl ∈ pr_slice <$> op_sarray (os_op s) → h ∈ holes → send sl <= ss_offset h) →
  match alloc_all k holes s with
  | Crash => False
  | Hang => ∃ ss s', slice_alloc (mkBlockSliceKey k ss) OB_SLICE_TYPE_ALLOC false s' = Hang
  | Ret r s' => alloc_holes_outcome k ext0 R s holes r s'
  end.
Proof using All.
  revert base ext s. induction holes as [|h holes IH]; intros base ext s S H Hok Hs Hb; cbn [alloc_holes].
  { split; [done|]. split; [done|]. exists base, ext. split.
    { intros id. pose proof (hd_ext _ _ _ _ _ _ H id). pose proof (occ_nonneg id (pr_slice <$> op_sarray (os_op s))). lia. }
    exists []. rewrite app_nil_r. split_and!; [|done|done|].
    - by destruct s as [[] ? ? ? ? ? ? ?].
    - intros b. split; intros (x & ?%elem_of_nil & _); done. }
  apply Forall_cons in Hok as [Hh Hok]. inversion Hs as [|? ? Hs' Hbef]; subst. rewrite Forall_forall in Hbef.
  pose proof (fs_slice_alloc_run now continue_flag discard_remain_space_size blocked retries Hused Haligned Hdiscard
    Hspace base ext _ s (mkBlockSliceKey k h) OB_SLICE_TYPE_ALLOC false S Hh) as HA.
  unfold mbind at 1, OM_bind at 1.
  destruct (slice_alloc (mkBlockSliceKey k h) OB_SLICE_TYPE_ALLOC false s) as [| |r s1] eqn:E; [done|by eauto|].
  destruct HA as (base1 & ix1 & ext1 & -> & K1 & M1 & He1 & HA). destruct r as [e|pairs].
  { destruct HA as [Hne HA]. split; [done|]. split; [done|]. exists base1, ext1. split.
    - intros id. specialize (He1 id). pose proof (hd_ext _ _ _ _ _ _ H id).
      pose proof (occ_nonneg id (pr_slice <$> op_sarray (os_op s))). lia.
    - split; [lia|]. by eapply store_ok_drops. }
  destruct HA as (S1 & Rs & _). rewrite ofield_run. unfold set_sarray. rewrite omod_run.
  set (s2 := upd_op _ _). change (op_sarray (id (os_op (set_index ix1 s)))) with (op_sarray (os_op s)) in s2.
  pose proof (rs_tiles _ _ _ _ _ _ _ _ Rs) as Ht.
  assert (Hin : ∀ sl, sl ∈ pr_slice <$> pairs → ss_offset h <= soff sl ∧ send sl <= ss_offset h + ss_length h).
  { intros sl Hsl. pose proof (tiles_bounds _ _ _ _ Ht Hsl). unfold extent_start, extent_end in *. simpl in *. lia. }
  assert (H2 : held k OB_SLICE_TYPE_ALLOC ext0 ext1 (os_index s2) (pr_slice <$> op_sarray (os_op s2))).
  { change (op_sarray (os_op s2)) with (op_sarray (os_op s) ++ pairs). rewrite fmap_app.
    eapply held_app; [eapply held_kept; [exact K1|exact H]|eapply reserved_held; exact Rs|].
    intros x y Hx Hy. unfold before. specialize (Hb x h Hx). destruct (Hin y Hy). assert (send x <= ss_offset h) by (apply Hb; by left). lia. }
  assert (S2 : store_ok base1 ext1 (spaces_of (op_sarray (os_op s2)) ++ R) (os_index s2)).
  { change (op_sarray (os_op s2)) with (op_sarray (os_op s) ++ pairs). unfold spaces_of in *. rewrite fmap_app.
    eapply store_ok_perm; [|exact S1]. rewrite <- app_assoc. by rewrite !app_assoc, (Permutation_app_comm (_ <$> pairs)). }
  assert (Hb2 : ∀ sl h', sl ∈ pr_slice <$> op_sarray (os_op s2) → h' ∈ holes → send sl <= ss_offset h').
  { intros sl h' Hsl Hh'. change (op_sarray (os_op s2)) with (op_sarray (os_op s) ++ pairs) in Hsl.
    rewrite fmap_app in Hsl. apply elem_of_app in Hsl as [Hsl|Hsl]; [apply Hb; [done|by right]|].
    specialize (Hbef h' Hh'). destruct (Hin sl Hsl). unfold hole_before in Hbef. lia. }
  specialize (IH base1 ext1 s2 S2 H2 Hok Hs' Hb2).
  destruct (alloc_all k holes s2) as [| |r s3]; [done|done|].
  destruct IH as (K3 & M3 & base3 & ext3 & He3 & IH).
  split; [by etransitivity|]. split; [intros k' b d; etransitivity; [apply (M3 k' b d)|apply (M1 k' b d)]|].
  exists base3, ext3. split; [done|]. destruct r as [e|[]]; [done|].
  destruct IH as (new & E3 & S3 & H3 & F3). exists (pairs ++ new).
  change (op_sarray (os_op s2)) with (op_sarray (os_op s) ++ pairs) in *. rewrite <- app_assoc in *.
  split_and!; [|done|done|].
  - rewrite E3. unfold s2, upd_op, set_op, set_index, op_set_update. simpl. done.
  - intros b. rewrite fmap_app. setoid_rewrite elem_of_app. setoid_rewrite elem_of_cons.
    pose proof (tiles_cover _ _ _ b Ht) as Hc. unfold extent_start, extent_end in Hc. simpl in Hc. split.
    + intros (sl & [Hsl|Hsl] & Hcov).
      * exists h. split; [by left|]. unfold in_extent. apply Hc. eauto.
      * destruct (proj1 (F3 b)) as (h' & Hh' & Hi); [eauto|]. exists h'. split; [by right|done].
    + intros (h' & [->|Hh'] & Hi).
      * destruct (proj1 Hc Hi) as (sl & Hsl & Hcov). exists sl. split; [by left|done].
      * destruct (proj2 (F3 b)) as (sl & Hsl & Hcov); [eauto|]. exists sl. split; [by right|done].
Qed.

(** ** The whole call *)

(** The bytes of the store after an allocation: those of before, and zeros for bytes of the
    extent that were not mapped. *)
Definition only_zeros ix ix' bs : Prop := ∀ k b d, maps ix' k b d ↔
  maps ix k b d ∨ (maps ix' k b d ∧ k = bs_block bs ∧ in_extent (bs_slice bs) b ∧ dl_type d = OB_SLICE_TYPE_ALLOC ∧
    ∀ d', ¬ maps ix k b d').
Definition allocate_outcome ext R s (r : Z + unit) s' : Prop :=
  let bs := op_bs_key (os_op s) in
  (∃ base' ext', (∀ id, ext id <= ext' id) ∧ store_ok base' ext' R (os_index s')) ∧
  only_zeros (os_index s) (os_index s') bs ∧
  match r with
  | inl e => e ≠ 0
  | inr _ => ∀ b, in_extent (bs_slice bs) b → ∃ d, maps (os_index s') (bs_block bs) b d
  end.

Lemma only_zeros_refl ix ix' bs : same_maps ix ix' → only_zeros ix ix' bs.
Proof using. intros M k b d. rewrite (M k b d). split; [by left|]. by intros [?|[? _]]. Qed.
(** Slices in the unmapped bytes of the extent. *)
Lemma only_zeros_overlaid ix1 ix ix' bs l :
  same_maps ix1 ix → overlaid_all ix ix' (bs_block bs) l → Forall (λ sl, se_type sl = OB_SLICE_TYPE_ALLOC) l →
  (∀ b, (∃ sl, sl ∈ l ∧ covers sl b) → in_extent (bs_slice bs) b ∧ ∀ d, ¬ maps ix1 (bs_block bs) b d) →
  only_zeros ix1 ix' bs.
Proof using.
  intros M O Ht Hl k b d. rewrite (O k b d), (M k b d). split.
  - intros [(-> & sl & Hsl & Hc & ->)|[_ Hm]]; [|by left]. right.
    destruct (Hl b) as [Hi Hn]; [eauto|]. split_and!; [|done|done| |done].
    + left. split; [done|]. by exists sl.
    + rewrite Forall_forall in Ht. by apply Ht.
  - intros [Hm|[H _]]; [|done]. right. split; [|done]. intros (-> & Hc). destruct (Hl b Hc) as [_ Hn]. by apply Hn in Hm.
Qed.
Lemma holes_of_ok ix bs holes : extent_ok bs → holes_of ix bs holes → Forall (hole_ok (bs_block bs)) holes.
Proof using.
  intros (Hk & Ho & Hl & He) [_ Hp Hb]. apply Forall_forall. intros h Hh. rewrite Forall_forall in Hp. specialize (Hp h Hh).
  simpl in Hp. destruct (proj1 (Hb (ss_offset h))) as [B1 _]; [exists h; split; [done|unfold in_extent; lia]|].
  destruct (proj1 (Hb (ss_offset h + ss_length h - 1))) as [B2 _]; [exists h; split; [done|unfold in_extent; lia]|].
  unfold in_extent in *. unfold hole_ok, extent_ok. simpl. split_and!; [done|lia..].
Qed.

Lemma mapped_or_not base ext ix k b :
  index_ok base ext ix → key_ok k → (∃ d, maps ix k b d) ∨ ∀ d, ¬ maps ix k b d.
Proof using UniqSkiplistSpec0.
  intros I Hk. destruct (get_ob_search_run base ext ix k I Hk) as (pre & post & r & _ & _ & _ & Hr & Hno).
  destruct r as [p|].
  - destruct (proj1 (Hr p) eq_refl) as (c & t & L). destruct (lookup_byte (sl_level0 t) b) as [d|] eqn:E.
    + left. exists d. by apply (maps_lives _ _ _ _ _ _ _ (io_wf _ _ _ I) L).
    + right. intros d Hd. apply (maps_lives _ _ _ _ _ _ _ (io_wf _ _ _ I) L) in Hd. congruence.
  - right. intros d (p & c & t & L & _). by apply Hno in L.
Qed.

(** Entering the slices into the index, or giving them back. *)
Definition enter_slices : OM T unit :=
  l ← op_field op_sarray;
  r ← otry (add_slices_to_index [] l);
  match r with
  | inl e => free_slice_array;; ofail e
  | inr _ => set_data_version
  end.
Lemma enter_slices_run base ext0 ext R s ix0 bs holes :
  same_maps ix0 (os_index s) → holes_of ix0 bs holes → (∀ id, 0 <= ext0 id) → key_ok (bs_block bs) →
  store_ok base ext (spaces_of (op_sarray (os_op s)) ++ R) (os_index s) →
  held (bs_block bs) OB_SLICE_TYPE_ALLOC ext0 ext (os_index s) (pr_slice <$> op_sarray (os_op s)) →
  fills (pr_slice <$> op_sarray (os_op s)) holes →
  match enter_slices s with
  | Crash => False
  | Hang => is_reclaim (os_op s) = false
  | Ret r s' => (∃ ext', (∀ id, ext0 id <= ext' id) ∧ store_ok base ext' R (os_index s')) ∧
      only_zeros ix0 (os_index s') bs ∧
      match r with
      | inl e => e ≠ 0
      | inr _ => ∀ b, in_extent (bs_slice bs) b → ∃ d, maps (os_index s') (bs_block bs) b d
      end
  end.
Proof using UniqSkiplistSpec0.
  intros M0 Hho H0 Hk S H F. apply (store_ok_take_all _ _ _ _ _ (hd_fits _ _ _ _ _ _ H)) in S.
  unfold enter_slices. rewrite ofield_run.
  assert (Hpos : Forall (λ sl, 0 < ext (se_id sl)) (pr_slice <$> op_sarray (os_op s))).
  { apply Forall_forall. intros sl Hsl. pose proof (hd_ext _ _ _ _ _ _ H (se_id sl)).
    specialize (H0 (se_id sl)). pose proof (occ_elem _ _ Hsl). lia. }
  pose proof (add_slices_run base ext (bs_block bs) [] (op_sarray (os_op s)) R s S (hd_sorted _ _ _ _ _ _ H)
    (hd_usable _ _ _ _ _ _ H) Hpos eq_refl) as HA.
  destruct (add_slices_to_index [] (op_sarray (os_op s)) s) as [| |r s1] eqn:E; [done|..].
  { unfold mbind at 1, OM_bind at 1. unfold otry. rewrite E. apply HA. }
  rewrite (otry_run _ _ _ _ _ E).
  destruct HA as (ix' & ext' & fin & fin' & rest & ch & Hl & Hs1 & F1 & F2 & F3 & K & O & S' & He & HA).
  assert (Hsl : pr_slice <$> op_sarray (os_op s1) = pr_slice <$> op_sarray (os_op s)).
  { rewrite Hs1, Hl. simpl. by rewrite !fmap_app, F1. }
  assert (Hext : ∀ id, ext0 id + occ id (pr_slice <$> op_sarray (os_op s)) <= ext' id).
  { intros id. pose proof (hd_ext _ _ _ _ _ _ H id). specialize (He id). lia. }
  assert (Hz : only_zeros ix0 ix' bs).
  { eapply only_zeros_overlaid; [exact M0|exact O| |].
    - pose proof (hd_type _ _ _ _ _ _ H) as Hty. rewrite Hl, fmap_app in Hty. by apply Forall_app in Hty as [? _].
    - intros b (sl & Hsl' & Hc). apply (ho_bytes _ _ _ Hho), F. exists sl. split; [|done].
      rewrite Hl, fmap_app. apply elem_of_app. by left. }
  destruct r as [err|[]].
  - destruct HA as [-> Hne]. destruct (free_slice_array_run base ext' R s1) as (ix2 & E2 & K2 & M2 & S2).
    { apply (store_ok_drops _ _ (pr_slice <$> rest)). by rewrite Hs1. }
    { intros id. rewrite Hsl. specialize (Hext id). specialize (H0 id). lia. }
    rewrite (obind_ret _ _ _ _ _ E2). unfold ofail. rewrite Hsl in S2. split_and!; [| |done].
    + eexists. split; [|exact S2]. intros id. specialize (Hext id). simpl. lia.
    + intros k b d. rewrite Hs1 in M2. rewrite (M2 k b d). simpl. apply Hz.
  - destruct HA as [-> Hsn]. rewrite app_nil_r in *. subst fin.
    destruct (set_data_version_run s1) as (s2 & E2 & _ & _ & V3). rewrite E2.
    assert (Hix : os_index s2 = ix') by (by rewrite V3, Hs1). rewrite Hix. split_and!.
    + exists ext'. split; [|done]. intros id. specialize (Hext id). pose proof (occ_nonneg id (pr_slice <$> op_sarray (os_op s))). lia.
    + exact Hz.
    + intros b Hb. destruct (mapped_or_not base ext (os_index s) (bs_block bs) b (so_index _ _ _ _ S) Hk) as [(d & Hd)|Hn].
      * exists d. apply Hz. left. by apply M0.
      * destruct (proj2 (F b)) as (sl & Hin & Hc).
        { apply (ho_bytes _ _ _ Hho). split; [done|]. intros d Hd. apply (Hn d). by apply M0. }
        exists (loc_at sl b). apply O. left. split; [done|]. by exists sl.
Qed.

(** C23: an allocation fills the holes of its extent and nothing else: every byte that was
    mapped keeps its place, bytes outside the extent stay as they are, and after a success
    every byte of the extent is mapped, the new ones to allocated space that reads as
    zeros. After an error only zeros may have been added, and the store is consistent in
    any case. *)
Theorem fs_slice_allocate_ok base ext R s :
  store_ok base ext R (os_index s) → extent_ok (op_bs_key (os_op s)) →
  match fs_slice_allocate now continue_flag discard_remain_space_size blocked retries s with
  | Crash => False
  | Hang => is_reclaim (os_op s) = false ∨
      ∃ ss s', slice_alloc (mkBlockSliceKey (bs_block (op_bs_key (os_op s))) ss) OB_SLICE_TYPE_ALLOC false s' = Hang
  | Ret r s' => allocate_outcome ext R s r s'
  end.
Proof using All.
  intros S Hx. unfold fs_slice_allocate. rewrite omod_run.
  match goal with |- context [upd_op ?f s] => set (s0 := upd_op f s) end.
  match goal with |- match (get_slice_index_holes _ ≫= ?f) s0 with _ => _ end =>
    set (body := f) end.
  set (rest := λ holes : list FSSliceSize,
    (o ← op_field id;
     let capacity := Z.of_nat (length holes) * FS_MAX_SPLIT_COUNT_PER_SPACE_ALLOC in
     (if op_sarray_alloc o <? capacity then realloc_slice_sn_pairs capacity else mret tt);;
     alloc_all (bs_block (op_bs_key o)) holes;; enter_slices) : OM T unit).
  assert (Hf : (get_slice_index_holes FS_SLICE_HOLES_FIXED_COUNT ≫= body) s0 = (find_holes ≫= rest) s0).
  { unfold find_holes, body, rest, mbind, OM_bind.
    destruct (get_slice_index_holes _ s0) as [| |[|[? [? ?]]] s1]; reflexivity. }
  rewrite Hf. clear Hf body. set (bs := op_bs_key (os_op s)).
  pose proof (find_holes_run base ext R s0 S (proj1 Hx) (proj1 (proj2 (proj2 Hx)))) as H.
  unfold mbind at 1, OM_bind at 1. destruct (find_holes s0) as [| |r s1]; [done|by left|].
  destruct H as ((ix1 & arr & -> & K1 & M1) & (base1 & ext1 & He1 & S1) & H). destruct r as [e|holes].
  { subst e. split; [by exists base1, ext1|]. split; [by apply only_zeros_refl|done]. }
  change (op_bs_key (os_op s0)) with bs in H. change (os_index s0) with (os_index s) in *.
  set (s1 := upd_op (op_set_slices arr) (set_index ix1 s0)) in *. unfold rest. rewrite ofield_run.
  change (bs_block (op_bs_key (id (os_op s1)))) with (bs_block bs). cbv zeta.
  assert (Hre : ∃ r2 ix2 al, mem_only ix1 ix2 ∧
    (if op_sarray_alloc (id (os_op s1)) <? Z.of_nat (length holes) * FS_MAX_SPLIT_COUNT_PER_SPACE_ALLOC
     then realloc_slice_sn_pairs (Z.of_nat (length holes) * FS_MAX_SPLIT_COUNT_PER_SPACE_ALLOC) else mret tt) s1
    = Ret r2 (upd_op (λ o, op_set_update (op_sn o) (op_space_changed o) al (op_sarray o) o) (set_index ix2 s1)) ∧
    (r2 = inr tt ∨ r2 = inl ENOMEM)).
  { destruct (_ <? _).
    - unfold realloc_slice_sn_pairs. destruct (oalloc_run s1) as (ok & ix2 & E2 & Q2 & _).
      rewrite (obind_ret _ _ _ _ _ E2). destruct ok; cbn [negb].
      + eexists (inr tt), ix2, _. split; [exact Q2|]. split; [done|by left].
      + exists (inl ENOMEM), ix2, (op_sarray_alloc (os_op s1)). split; [exact Q2|]. split; [done|by right].
    - exists (inr tt), ix1, (op_sarray_alloc (os_op s1)). split; [done|]. split; [done|by left]. }
  destruct Hre as (r2 & ix2 & al & Q2 & E2 & Hr2). destruct (mem_only_kept _ _ Q2) as [K2 M2].
  pose proof (mem_only_store _ _ _ _ _ Q2 S1) as S2.
  assert (M12 : same_maps (os_index s) ix2).
  { intros k b d. etransitivity; [apply (M2 k b d)|apply (M1 k b d)]. }
  destruct Hr2 as [-> | ->]; cycle 1.
  { rewrite (obind_fail _ _ _ _ _ E2). split; [by exists base1, ext1|]. split; [by apply only_zeros_refl|done]. }
  rewrite (obind_ret _ _ _ _ _ E2). set (s2 := upd_op _ (set_index ix2 s1)).
  pose proof (alloc_holes_run base1 ext1 ext1 R s2 (bs_block bs) holes S2 (held_nil _ _ _ _)
    (holes_of_ok _ _ _ Hx H) (ho_sorted _ _ _ H) ltac:(by intros sl h ?%elem_of_nil)) as HA.
  unfold mbind at 1, OM_bind at 1. destruct (alloc_all (bs_block bs) holes s2) as [| |r s3]; [done|by right|].
  destruct HA as (K3 & M3 & base3 & ext3 & He3 & HA).
  assert (M13 : same_maps (os_index s) (os_index s3)).
  { intros k b d. etransitivity; [apply (M3 k b d)|apply (M12 k b d)]. }
  assert (He : ∀ id, ext id <= ext3 id) by (intros id; specialize (He1 id); specialize (He3 id); lia).
  destruct r as [e|[]].
  { destruct HA as [Hne S3]. split; [by exists base3, ext3|]. split; [by apply only_zeros_refl|done]. }
  destruct HA as (new & E3 & S3 & H3 & F3).
  assert (Hsa : op_sarray (os_op s3) = [] ++ new) by (by rewrite E3).
  change (op_sarray (os_op s2)) with (@nil FSSliceSNPair) in S3, H3.
  rewrite <- Hsa in S3, H3. simpl in Hsa. rewrite <- Hsa in F3.
  pose proof (enter_slices_run base3 ext1 ext3 R s3 (os_index s) bs holes M13 H
    (io_ext _ _ _ (so_index _ _ _ _ S1)) (proj1 Hx) S3 H3 F3) as HB.
  destruct (enter_slices s3) as [| |r s4]; [done| |].
  { left. by rewrite E3 in HB. }
  destruct HB as ((ext4 & He4 & S4) & Hz & HB). split; [|done]. exists base3, ext4. split; [|done].
  intros id. specialize (He1 id). specialize (He4 id). lia.
Qed.
End Allocate.
