(* ===== verification/StoreReadData.v ===== *)
(** * The bytes of a read

    [fs_slice_read] builds the list of buffers of an extent: zeros for the holes and for the
    slices that were allocated but never written, and one buffer for each slice that a read
    thread fills from its trunk file. Whatever the disk holds, the bytes of the buffers are
    the bytes of the store. *)
From stdpp Require Import sorting.
From S2P Require Import Prelude Types Skiplist ObSlices ObSlicesRun.
From S2P Require Import ObSlicesThms ObSlicesMain ObSlicesGet ObIndex ObIndexSpec ObIndexOps.
From S2P Require Import ObIndexThms ObIndexMain TrunkAllocator StorageAllocator StorageAllocSpec.
From S2P Require Import StorageAllocThms StorageAllocUsed StoreAlloc Binlog SliceOp StoreWrite.
From S2P Require Import StoreWrite StoreRead DataThread DataThreadThms.

(** ** The plan of a read *)
Definition is_file (sl : OBSliceEntry) : bool := bool_decide (se_type sl = OB_SLICE_TYPE_FILE).
Definition files (l : list OBSliceEntry) : list OBSliceEntry := filter is_file l.
Definition slice_buffer (sl : OBSliceEntry) : ReadBuffer :=
  match se_type sl with
  | OB_SLICE_TYPE_ALLOC => ZeroBuffer (sp_store (se_space sl)) (slen sl)
  | OB_SLICE_TYPE_FILE => FileBuffer sl
  end.
Definition hole_buffer (o : Z) (sl : OBSliceEntry) : list ReadBuffer :=
  if 0 <? soff sl - o then [ZeroBuffer (sp_store (se_space sl)) (soff sl - o)] else [].
Fixpoint read_plan (o : Z) (l : list OBSliceEntry) : list ReadBuffer :=
  match l with
  | [] => []
  | sl :: l => hole_buffer o sl ++ slice_buffer sl :: read_plan (send sl) l
  end.

(** The bytes of a buffer: those that are in it, or will be when it is filled from the disk. *)
Definition slice_bytes (d : Disk) (sl : OBSliceEntry) : list Z :=
  (λ i, disk_at d (loc_at sl (soff sl + Z.of_nat i))) <$> seq 0 (Z.to_nat (slen sl)).
Definition buffer_bytes (d : Disk) (b : ReadBuffer) : list Z :=
  match b with
  | ZeroBuffer _ n => replicate (Z.to_nat n) 0
  | FileBuffer sl => slice_bytes d sl
  | DataBuffer b => iovec b (ab_length b)
  end.
Definition bytes_of (d : Disk) (l : list ReadBuffer) : list Z := concat (buffer_bytes d <$> l).
(** A byte of the store: an unmapped one reads as zero. *)
Definition stored (d : Disk) (loc : option DiskLoc) : Z :=
  match loc with
  | None => 0
  | Some loc => match dl_type loc with OB_SLICE_TYPE_ALLOC => 0 | OB_SLICE_TYPE_FILE => disk_at d loc end
  end.
(** The bytes of the holes and of the allocated slices. *)
Definition zero_bytes (o : Z) (l : list OBSliceEntry) : Z := last_end o l - o - sumZ slen (files l).

Lemma files_cons sl l : files (sl :: l) = (if is_file sl then [sl] else []) ++ files l.
Proof. unfold files. rewrite filter_cons. destruct (is_file sl); [by rewrite decide_True|by rewrite decide_False by auto]. Qed.
Lemma zero_bytes_cons o sl l :
  zero_bytes o (sl :: l) = soff sl - o + (if is_file sl then 0 else slen sl) + zero_bytes (send sl) l.
Proof.
  unfold zero_bytes. rewrite files_cons. cbn [last_end].
  destruct (is_file sl); simpl; rewrite ?sumZ_cons; unfold send; lia.
Qed.
Lemma length_slice_buffer d sl : length (buffer_bytes d (slice_buffer sl)) = Z.to_nat (slen sl).
Proof.
  unfold slice_buffer. destruct (se_type sl); simpl; [|by rewrite length_replicate].
  unfold slice_bytes. by rewrite length_fmap, length_seq.
Qed.
Lemma slice_buffer_lookup d sl b :
  covers sl b → buffer_bytes d (slice_buffer sl) !! Z.to_nat (b - soff sl) = Some (stored d (Some (loc_at sl b))).
Proof.
  intros Hc. unfold covers, send in Hc. unfold slice_buffer, stored. simpl.
  destruct (se_type sl); simpl.
  - unfold slice_bytes. rewrite list_lookup_fmap, lookup_seq_lt by lia. simpl. do 3 f_equal. lia.
  - apply lookup_replicate_2. lia.
Qed.
Lemma length_hole_buffer d o sl : o <= soff sl → length (bytes_of d (hole_buffer o sl)) = Z.to_nat (soff sl - o).
Proof.
  intros Ho. unfold hole_buffer. destruct (Z.ltb_spec 0 (soff sl - o)).
  - unfold bytes_of. simpl. by rewrite app_nil_r, length_replicate.
  - simpl. lia.
Qed.
Lemma hole_buffer_lookup d o sl i :
  0 <= i < soff sl - o → bytes_of d (hole_buffer o sl) !! Z.to_nat i = Some 0.
Proof.
  intros Hi. unfold hole_buffer. destruct (Z.ltb_spec 0 (soff sl - o)); [|lia].
  unfold bytes_of. simpl. rewrite app_nil_r. apply lookup_replicate_2. lia.
Qed.
Lemma bytes_of_app d l1 l2 : bytes_of d (l1 ++ l2) = bytes_of d l1 ++ bytes_of d l2.
Proof. unfold bytes_of. by rewrite fmap_app, concat_app. Qed.

Lemma length_read_plan d o l e : within o l e → Z.of_nat (length (bytes_of d (read_plan o l))) = last_end o l - o.
Proof.
  induction 1 as [|o sl l e Ho Hs Hw IH]; [simpl; lia|]. cbn [read_plan last_end].
  rewrite bytes_of_app. change (bytes_of d (slice_buffer sl :: ?x)) with
    (buffer_bytes d (slice_buffer sl) ++ bytes_of d x).
  rewrite !length_app, length_hole_buffer, length_slice_buffer by done. unfold send in *. lia.
Qed.
(** No buffer is empty. *)
Lemma plan_buffers d o l e :
  within o l e → Forall (λ b, 0 < Z.of_nat (length (buffer_bytes d b))) (read_plan o l).
Proof.
  induction 1 as [|o sl l e Ho Hs Hw IH]; [constructor|]. cbn [read_plan]. apply Forall_app. split.
  - unfold hole_buffer. destruct (Z.ltb_spec 0 (soff sl - o)); [|constructor]. constructor; [|constructor].
    simpl. rewrite length_replicate. lia.
  - constructor; [|done]. rewrite length_slice_buffer. lia.
Qed.
(** The bytes of the plan are the bytes of the slices. *)
Lemma read_plan_lookup d o l e b :
  within o l e → o <= b < last_end o l →
  bytes_of d (read_plan o l) !! Z.to_nat (b - o) = Some (stored d (lookup_byte l b)).
Proof.
  intros Hw. revert b. induction Hw as [|o sl l e Ho Hs Hw IH]; intros b Hb; simpl in Hb; [lia|].
  cbn [read_plan]. rewrite bytes_of_app. change (bytes_of d (slice_buffer sl :: ?x)) with
    (buffer_bytes d (slice_buffer sl) ++ bytes_of d x). cbn [lookup_byte].
  destruct (decide (b < soff sl)) as [Hlt|Hge].
  { rewrite decide_False by (unfold covers; lia).
    rewrite (lookup_byte_before (send sl) l e) by (done || (unfold send; lia)).
    rewrite lookup_app_l by (rewrite length_hole_buffer by done; lia). apply hole_buffer_lookup. lia. }
  rewrite lookup_app_r by (rewrite length_hole_buffer by done; lia). rewrite length_hole_buffer by done.
  destruct (decide (covers sl b)) as [Hc|Hc].
  - rewrite lookup_app_l; [|rewrite length_slice_buffer; unfold covers, send in Hc; lia].
    rewrite <- (slice_buffer_lookup d sl b Hc). f_equal. lia.
  - rewrite lookup_app_r; rewrite length_slice_buffer; unfold covers, send in *; [|lia].
    rewrite <- IH by lia. f_equal. lia.
Qed.
Lemma length_plan o l : (length (read_plan o l) <= 2 * length l)%nat.
Proof.
  revert o. induction l as [|sl l IH]; intros o; simpl; [lia|]. rewrite length_app. simpl.
  specialize (IH (send sl)). unfold hole_buffer. destruct (0 <? soff sl - o); simpl; lia.
Qed.

(** ** Growing the buffer array *)
Lemma double_until_ge fuel a t : 0 < a → t <= a * 2 ^ Z.of_nat fuel → t <= double_until fuel a t.
Proof.
  revert a. induction fuel as [|fuel IH]; intros a Ha Ht; cbn [double_until]; [simpl in Ht; lia|].
  destruct (Z.ltb_spec a t); [|lia]. apply IH; [lia|].
  replace (Z.of_nat (S fuel)) with (Z.of_nat fuel + 1) in Ht by lia. rewrite Z.pow_add_r in Ht by lia. lia.
Qed.
Lemma new_buffers_alloc_ge alloc t : 0 <= alloc → t <= 2 ^ 31 → t <= new_buffers_alloc alloc t.
Proof.
  intros Ha Ht. unfold new_buffers_alloc. apply double_until_ge.
  - destruct (Z.eqb_spec alloc 0); lia.
  - change (Z.of_nat 31) with 31. destruct (Z.eqb_spec alloc 0); nia.
Qed.

Section ReadData.
Context {T : Type} `{!UniqSkiplist OBSliceEntry T} `{!UniqSkiplistSpec slice_compare}.
Implicit Types (s : OpState T) (ix : Index T Mgr) (k : FSBlockKey) (b : Z) (sl : OBSliceEntry)
  (base : Z → Z → Z) (ext : Z → Z) (R : list OBSliceEntry) (d : Disk).

(** ** The loop *)

(** The state with more buffers and reads; counter, bytes done and callbacks are new. *)
Definition after_reads s ix c dn cb bufs rds : OpState T :=
  mkState (op_set_buffers (op_buffers_alloc (os_op s)) (op_buffers (os_op s) ++ bufs)
             (op_set_io c (op_result (os_op s)) dn (os_op s)))
    ix (os_version s) cb (os_writes s) (os_reads s ++ rds) (os_slice_log s) (os_replica_log s).
Lemma after_reads_nil s ix :
  set_index ix s = after_reads s ix (op_counter (os_op s)) (op_done_bytes (os_op s)) (os_callbacks s) [] [].
Proof using. destruct s as [[]]. unfold after_reads, set_index. simpl. by rewrite !app_nil_r. Qed.
Lemma after_reads_app s ix1 c1 dn1 cb1 (b1 : list ReadBuffer) r1 ix2 c2 dn2 cb2 (b2 : list ReadBuffer) r2 :
  after_reads (after_reads s ix1 c1 dn1 cb1 b1 r1) ix2 c2 dn2 cb2 b2 r2
  = after_reads s ix2 c2 dn2 cb2 (b1 ++ b2) (r1 ++ r2).
Proof using. unfold after_reads. simpl. by rewrite !app_assoc. Qed.

Lemma zero_run path n s :
  ∃ ix', mem_only (os_index s) ix' ∧
   (add_zero_aligned_buffer path n s = Ret (inl ENOMEM) (set_index ix' s) ∨
    add_zero_aligned_buffer path n s = Ret (inr tt)
     (after_reads s ix' (op_counter (os_op s)) (op_done_bytes (os_op s)) (os_callbacks s) [ZeroBuffer path n] [])).
Proof using.
  destruct (oalloc_run s) as (ok & ix' & E & M & _). exists ix'. split; [done|].
  unfold add_zero_aligned_buffer. rewrite (obind_ret _ _ _ _ _ E). destruct ok; [right|by left].
  unfold after_reads. rewrite app_nil_r. by destruct s as [[]].
Qed.
Lemma hole_run o sl s : o <= soff sl →
  ∃ r ix', mem_only (os_index s) ix' ∧
   (if 0 <? soff sl - o then
      add_zero_aligned_buffer (sp_store (se_space sl)) (soff sl - o);;
      omod (upd_op (λ o', op_set_io (op_counter o') (op_result o') (op_done_bytes o' + (soff sl - o)) o'))
    else mret tt) s =
   match r with
   | inl e => Ret (inl ENOMEM) (set_index ix' s)
   | inr _ => Ret (inr tt) (after_reads s ix' (op_counter (os_op s)) (op_done_bytes (os_op s) + (soff sl - o))
                (os_callbacks s) (hole_buffer o sl) [])
   end ∧ (r = inl () ∨ r = inr ()).
Proof using.
  intros Ho. unfold hole_buffer. destruct (Z.ltb_spec 0 (soff sl - o)) as [Hlt|Hge].
  - destruct (zero_run (sp_store (se_space sl)) (soff sl - o) s) as (ix' & M & [E|E]).
    + exists (inl ()), ix'. rewrite (obind_fail _ _ _ _ _ E). auto.
    + exists (inr ()), ix'. rewrite (obind_ret _ _ _ _ _ E). auto.
  - exists (inr ()), (os_index s). split; [done|]. split; [|by right].
    replace (op_done_bytes (os_op s) + (soff sl - o)) with (op_done_bytes (os_op s)) by lia.
    rewrite <- after_reads_nil. by destruct s.
Qed.

Lemma do_read_done_run base ext R sl result s :
  store_ok base ext R (os_index s) → 0 < ext (se_id sl) →
  ∃ ix', kept (os_index s) ix' ∧ same_maps (os_index s) ix' ∧
    store_ok base (λ id, ext id - occ id [sl]) R ix' ∧
    do_read_done sl result s = Ret (inr tt)
      (let n := cast16 (op_counter (os_op s) - 1) in
       mkState (op_set_io n (if result =? 0 then op_result (os_op s) else cast16 result)
                  (if result =? 0 then op_done_bytes (os_op s) + slen sl else op_done_bytes (os_op s)) (os_op s))
         ix' (os_version s) (if n =? 0 then os_callbacks s + 1 else os_callbacks s)
         (os_writes s) (os_reads s) (os_slice_log s) (os_replica_log s)).
Proof using UniqSkiplistSpec0.
  intros S Hx. destruct (free_one_run base ext R s sl S Hx) as (ix' & E & K & M & S').
  exists ix'. split_and!; [done..|]. unfold do_read_done, io_done, io_count_down. rewrite omod_run.
  injection E as E. destruct (result =? 0); simpl; rewrite <- E; done.
Qed.

(** The slice itself. *)
Definition one_slice sl : OM T unit :=
  match se_type sl with
  | OB_SLICE_TYPE_ALLOC =>
      add_zero_aligned_buffer (sp_store (se_space sl)) (slen sl);; do_read_done sl 0
  | OB_SLICE_TYPE_FILE =>
      omod (upd_op (λ o, op_set_buffers (op_buffers_alloc o) (op_buffers o ++ [FileBuffer sl]) o));;
      trunk_read_thread_push sl
  end.
Definition next_counter sl c : Z := if is_file sl then c else cast16 (c - 1).
Lemma one_slice_run base ext R sl s :
  store_ok base ext R (os_index s) → 0 < ext (se_id sl) →
  ∃ r s', one_slice sl s = Ret r s' ∧ kept (os_index s) (os_index s') ∧ same_maps (os_index s) (os_index s') ∧
   match r with
   | inl e => e = ENOMEM ∧ store_ok base ext R (os_index s')
   | inr _ => store_ok base (λ id, ext id - occ id [sl] + occ id (files [sl])) R (os_index s') ∧
      let c := next_counter sl (op_counter (os_op s)) in
      s' = after_reads s (os_index s') c (op_done_bytes (os_op s) + if is_file sl then 0 else slen sl)
        (if negb (is_file sl) && (c =? 0) then os_callbacks s + 1 else os_callbacks s) [slice_buffer sl] (files [sl])
   end.
Proof using UniqSkiplistSpec0.
  intros S Hx. unfold one_slice, next_counter, slice_buffer. rewrite files_cons, app_nil_r.
  destruct (se_type sl) eqn:Ety.
  - assert (Hf : is_file sl = true) by (unfold is_file; by rewrite Ety). rewrite Hf, omod_run.
    unfold trunk_read_thread_push.
    match goal with |- context [upd_op ?f s] => destruct (oalloc_run (upd_op f s)) as (ok & ix & E & M & _) end.
    rewrite (obind_ret _ _ _ _ _ E). destruct (mem_only_kept _ _ M) as [K M']. destruct ok; cbn [negb].
    + eexists _, _. split; [done|]. split_and!; [exact K|exact M'| |].
      * eapply mem_only_store; [exact M|]. eapply store_ok_ext; [|exact S]. intros id. simpl. lia.
      * unfold after_reads. simpl. rewrite Z.add_0_r. by destruct s as [[]].
    + eexists _, _. split; [done|]. split_and!; [exact K|exact M'|done|by eapply mem_only_store].
  - assert (Hf : is_file sl = false) by (unfold is_file; by rewrite Ety). rewrite Hf.
    destruct (zero_run (sp_store (se_space sl)) (slen sl) s) as (ix1 & M & [E|E]);
      destruct (mem_only_kept _ _ M) as [K M']; pose proof (mem_only_store _ _ _ _ _ M S) as S1.
    + rewrite (obind_fail _ _ _ _ _ E). eexists _, _. split; [done|]. by split_and!.
    + rewrite (obind_ret _ _ _ _ _ E). match goal with |- context [do_read_done sl 0 ?x] => set (s1 := x) end.
      destruct (do_read_done_run base ext R sl 0 s1 S1 Hx) as (ix2 & K2 & M2 & S2 & E2).
      rewrite E2. eexists _, _. split; [done|]. split_and!.
      * by etransitivity.
      * intros k b d. etransitivity; [apply (M2 k b d)|apply (M' k b d)].
      * eapply store_ok_ext; [|exact S2]. intros id. simpl. rewrite occ_nil. lia.
      * unfold after_reads. simpl. by rewrite !app_nil_r.
Qed.

Lemma read_slices_run base ext R l o e s :
  store_ok base ext R (os_index s) → (∀ id, occ id l <= ext id) → within o l e →
  ∃ r s', read_slices l o s = Ret r s' ∧ kept (os_index s) (os_index s') ∧ same_maps (os_index s) (os_index s') ∧
   match r with
   | inl err => err = ENOMEM ∧ ∃ ext', (∀ id, ext id - occ id l <= ext' id) ∧ store_ok base ext' R (os_index s')
   | inr _ => store_ok base (λ id, ext id - occ id l + occ id (files l)) R (os_index s') ∧ ∃ c cb,
      s' = after_reads s (os_index s') c (op_done_bytes (os_op s) + zero_bytes o l) cb (read_plan o l) (files l) ∧
      ∀ m, op_counter (os_op s) = Z.of_nat (length l) + m → 0 <= m → Z.of_nat (length l) + m < 2 ^ 15 →
        c = Z.of_nat (length (files l)) + m ∧
        cb = if negb (bool_decide (l = [])) && (c =? 0) then os_callbacks s + 1 else os_callbacks s
   end.
Proof using UniqSkiplistSpec0.
  intros S Hx Hw. revert s ext S Hx. induction Hw as [o e Ho|o sl l e Ho Hs Hw IH]; intros s ext S Hx.
  { exists (inr tt), s. split_and!; [done|done|done| |].
    - eapply store_ok_ext; [|exact S]. intros id. simpl. change (files []) with (@nil OBSliceEntry). rewrite occ_nil. lia.
    - exists (op_counter (os_op s)), (os_callbacks s). split; [|simpl; lia].
      unfold zero_bytes. simpl. replace (op_done_bytes (os_op s) + _) with (op_done_bytes (os_op s)) by (unfold sumZ; simpl; lia).
      rewrite <- after_reads_nil. by destruct s. }
  assert (Hx0 : 0 < ext (se_id sl)).
  { specialize (Hx (se_id sl)). rewrite occ_cons, Z.eqb_refl in Hx. pose proof (occ_nonneg (se_id sl) l). lia. }
  cbn [read_slices]. destruct (hole_run o sl s Ho) as (r & ix1 & M1 & E1 & Hr).
  destruct (mem_only_kept _ _ M1) as [K1 M1']. pose proof (mem_only_store _ _ _ _ _ M1 S) as S1.
  destruct Hr as [-> | ->].
  { rewrite (obind_fail _ _ _ _ _ E1). eexists _, _. split; [done|]. split_and!; [done|done|done|].
    exists ext. split; [|done]. intros id. pose proof (occ_nonneg id (sl :: l)). lia. }
  rewrite (obind_ret _ _ _ _ _ E1). match goal with |- context [after_reads s ix1 ?c ?dn ?cb ?h ?x] =>
    set (s1 := after_reads s ix1 c dn cb h x) end.
  destruct (one_slice_run base ext R sl s1 S1 Hx0) as (r2 & s2 & E2 & K2 & M2 & H2).
  change (match se_type sl with OB_SLICE_TYPE_FILE => ?x | OB_SLICE_TYPE_ALLOC => ?y end) with (one_slice sl).
  assert (K : kept (os_index s) (os_index s2)) by (by etransitivity).
  assert (M : same_maps (os_index s) (os_index s2)).
  { intros k b d. etransitivity; [apply (M2 k b d)|apply (M1' k b d)]. }
  destruct r2 as [err|[]].
  { destruct H2 as [-> S2]. rewrite (obind_fail _ _ _ _ _ E2). eexists _, _. split; [done|].
    split_and!; [done|done|done|]. exists ext. split; [|done]. intros id. pose proof (occ_nonneg id (sl :: l)). lia. }
  rewrite (obind_ret _ _ _ _ _ E2). destruct H2 as [S2 H2]. cbv zeta in H2.
  destruct (IH s2 _ S2) as (r3 & s3 & E3 & K3 & M3 & H3).
  { intros id. specialize (Hx id). pose proof (occ_nonneg id (files [sl])). rewrite occ_cons in *. rewrite occ_nil. lia. }
  exists r3, s3. rewrite E3. split; [done|]. split; [by etransitivity|].
  split; [intros k b d; etransitivity; [apply (M3 k b d)|apply (M k b d)]|].
  destruct r3 as [err|[]].
  { destruct H3 as (-> & ext' & He & S3). split; [done|]. exists ext'. split; [|done]. intros id. specialize (He id).
    simpl in He. pose proof (occ_nonneg id (files [sl])). rewrite !occ_cons, occ_nil in *. lia. }
  destruct H3 as (S3 & c & cb & E & Hc). split.
  { eapply store_ok_ext; [|exact S3]. intros id. simpl. rewrite (files_cons sl l), (files_cons sl []), !occ_app, !occ_cons, !occ_nil.
    lia. }
  exists c, cb. split.
  - rewrite E, H2. unfold s1. rewrite !after_reads_app. cbn [read_plan].
    rewrite zero_bytes_cons, (files_cons sl l), (files_cons sl []), app_nil_r. cbn [app os_op after_reads op_done_bytes op_set_buffers op_set_io].
    f_equal. lia.
  - intros m Hm H0 Hb. cbn [length] in Hm, Hb.
    assert (Hc0 : op_counter (os_op s2) = Z.of_nat (length l) + (m + if is_file sl then 1 else 0)).
    { rewrite H2. cbn [os_op after_reads op_counter op_set_buffers op_set_io]. unfold s1. simpl. unfold next_counter.
      destruct (is_file sl); [lia|]. unfold cast16. rewrite Z.mod_small by lia. lia. }
    destruct (Hc _ Hc0) as [-> Hcb]; [destruct (is_file sl); lia..|]. rewrite files_cons, length_app.
    split; [destruct (is_file sl); simpl; lia|]. rewrite Hcb. clear Hc Hcb E.
    assert (Hcb2 : os_callbacks s2 = if negb (is_file sl) && (op_counter (os_op s2) =? 0)
      then os_callbacks s + 1 else os_callbacks s) by (rewrite H2; unfold s1; done).
    rewrite Hcb2, Hc0. destruct l as [|sl' l]; cbn [length].
    + change (files []) with (@nil OBSliceEntry). destruct (is_file sl); cbn; [|by rewrite Z.add_0_r].
      destruct (Z.eqb_spec (Z.of_nat 0 + (m + 1)) 0); [simpl in *; lia|done].
    + rewrite (proj2 (Z.eqb_neq (Z.of_nat (Datatypes.S (length l)) + _) 0)) by (destruct (is_file sl); lia).
      rewrite andb_false_r. done.
Qed.

(** ** The whole call *)
Lemma get_slices_nonempty (t : T) bs (aw : SlicePtrArray * World Mgr) arr w :
  get_slices t bs aw = (inr tt, (arr, w)) → sa_slices arr ≠ [].
Proof using.
  unfold get_slices. set (m := match _ with Some _ => _ | None => _ end). unfold mbind, M_bind at 1.
  destruct (m aw) as [[e|[]] aw1]; [done|]. unfold M_bind at 1.
  destruct (get_slices_loop _ _ aw1) as [[e|[]] [arr2 w2]]; [done|].
  unfold M_bind, mget. cbn beta iota. destruct (Z.ltb_spec 0 (sa_count arr2)) as [H|H]; [|done].
  intros [= -> ->] E. unfold sa_count in H. rewrite E in H. simpl in H. lia.
Qed.
Lemma get_slice_array_nonempty s s' :
  get_slice_array s = Ret (inr (inr tt)) s' → sa_slices (op_slices (os_op s')) ≠ [].
Proof using.
  unfold get_slice_array. rewrite ofield_run. unfold mbind, OM_bind, oindex.
  destruct (ob_index_get_slices_ex _ _ _ _) as [[[out arr] ix]|] eqn:E; [|done]. cbn beta iota.
  destruct out as [|[e|[]]]; [done|done|]. intros [= <-]. simpl. revert E.
  unfold ob_index_get_slices_ex, get_slices_locked, mbind, IM_bind, mret, IM_ret.
  destruct (get_ob_entry_ex _ _ _) as [[[[p|] last] ix1]|]; [|done..].
  destruct (must_wait _ _ _) as [[[] ix2]|]; [done| |done].
  destruct (deref p ix2) as [[e ix3]|]; [|done]. unfold iworld.
  destruct (get_slices _ _ _) as [[e'|[]] [arr' w']] eqn:E; cbn beta iota.
  - destruct (0 <? sa_count arr'); [|done]. by destruct (free_slices arr' _).
  - intros [= <- <-]. by eapply get_slices_nonempty.
Qed.

(** The plan of the extent of [s]: what [fs_slice_read] leaves behind. *)
Definition read_outcome base ext R s (r : Z + unit) s' : Prop :=
  let bs := op_bs_key (os_op s) in
  kept (os_index s) (os_index s') ∧ same_maps (os_index s) (os_index s') ∧
  match r with
  | inl err =>
      (err = ENOMEM ∧ ∃ ext', (∀ id, ext id <= ext' id) ∧ store_ok base ext' R (os_index s')) ∨
      (err = ENOENT ∧ store_ok base ext R (os_index s') ∧
         ∀ b loc, in_extent (bs_slice bs) b → ¬ maps (os_index s) (bs_block bs) b loc)
  | inr _ => same_info (os_op s) (os_op s') ∧ let l := sa_slices (op_slices (os_op s')) in
      slices_of (os_index s) bs l ∧ l ≠ [] ∧
      store_ok base (λ id, ext id + occ id (files l)) R (os_index s') ∧
      op_buffers (os_op s') = read_plan (ss_offset (bs_slice bs)) l ∧
      os_reads s' = os_reads s ++ files l ∧ os_writes s' = os_writes s ∧
      op_result (os_op s') = 0 ∧ op_done_bytes (os_op s') = zero_bytes (ss_offset (bs_slice bs)) l ∧
      (0 <= op_buffers_alloc (os_op s) → 2 * Z.of_nat (length l) <= 2 ^ 31 →
        Z.of_nat (length (op_buffers (os_op s'))) <= op_buffers_alloc (os_op s')) ∧
      (Z.of_nat (length l) < 2 ^ 15 →
        op_counter (os_op s') = Z.of_nat (length (files l)) ∧
        os_callbacks s' = if op_counter (os_op s') =? 0 then os_callbacks s + 1 else os_callbacks s)
  end.
Lemma realloc_run n s : 
  ∃ r ix' alloc bufs, mem_only (os_index s) ix' ∧ check_realloc_buffer_ptr_array n s =
    Ret r (upd_op (op_set_buffers alloc bufs) (set_index ix' s)) ∧
    (r = inl ENOMEM ∨ r = inr tt ∧ (0 <= op_buffers_alloc (os_op s) → n <= 2 ^ 31 → n <= alloc)).
Proof using.
  unfold check_realloc_buffer_ptr_array. rewrite ofield_run. change (id (os_op s)) with (os_op s).
  destruct (Z.leb_spec n (op_buffers_alloc (os_op s))) as [Hle|Hgt].
  - exists (inr tt), (os_index s), (op_buffers_alloc (os_op s)), (op_buffers (os_op s)).
    split; [done|]. split; [by destruct s as [[]]|]. by right.
  - destruct (oalloc_run s) as (ok & ix' & E & M & _). rewrite (obind_ret _ _ _ _ _ E). destruct ok; cbn [negb].
    + eexists _, ix', _, _. split; [done|]. split; [done|]. right. split; [done|]. apply new_buffers_alloc_ge.
    + exists (inl ENOMEM), ix', (op_buffers_alloc (os_op s)), (op_buffers (os_op s)).
      split; [done|]. split; [by destruct s as [[]]|]. by left.
Qed.

Lemma fs_slice_read_run base ext R s :
  store_ok base ext R (os_index s) → key_ok (bs_block (op_bs_key (os_op s))) →
  0 < ss_length (bs_slice (op_bs_key (os_op s))) →
  match fs_slice_read s with
  | Crash => False
  | Hang => is_reclaim (os_op s) = false ∧
      ∃ p c t, lives (os_index s) p (bs_block (op_bs_key (os_op s))) c t ∧ 0 < c
  | Ret r s' => read_outcome base ext R s r s'
  end.
Proof using UniqSkiplistSpec0.
  intros S Hk Hl. pose proof (get_slice_array_run base ext R s S Hk Hl) as H.
  pose proof (get_slice_array_nonempty s) as Hne.
  unfold fs_slice_read. unfold mbind at 1, OM_bind at 1.
  destruct (get_slice_array s) as [| |[?|out] s1]; [done..|].
  destruct H as (ix1 & arr & (-> & K & M) & H). unfold read_outcome. cbv zeta.
  set (bs := op_bs_key (os_op s)) in *.
  destruct out as [err|[]].
  { destruct H as [Ha H]. split; [done|]. split; [done|].
    destruct H as [(-> & ext' & He & S')|(-> & S' & Hn)]; [left|right]; eauto. }
  destruct H as [S1 Hs]. specialize (Hne _ eq_refl). simpl in Hne. rewrite ofield_run.
  match goal with |- context [upd_op ?f (set_index ix1 s)] => set (s1 := upd_op f (set_index ix1 s)) in * end.
  change (sa_count (op_slices (id (os_op s1)))) with (sa_count arr).
  destruct (realloc_run (sa_count arr * 2) s1) as (r2 & ix2 & alloc & bufs & M2 & E2 & H2).
  destruct (mem_only_kept _ _ M2) as [K2 M2']. pose proof (mem_only_store _ _ _ _ _ M2 S1) as S2.
  assert (K12 : kept (os_index s) ix2) by (by etransitivity).
  assert (M12 : same_maps (os_index s) ix2).
  { intros k b d. etransitivity; [apply (M2' k b d)|apply (M k b d)]. }
  assert (Hxp : ∀ id, ext id <= ext id + occ id (sa_slices arr)).
  { intros id. pose proof (occ_nonneg id (sa_slices arr)). lia. }
  destruct H2 as [-> | [-> Hal]].
  { rewrite (obind_fail _ _ _ _ _ E2). split; [done|]. split; [done|]. left. split; [done|]. by exists (λ id, ext id + occ id (sa_slices arr)). }
  rewrite (obind_ret _ _ _ _ _ E2), omod_run.
  match goal with |- context [read_slices _ _ ?x] => set (s3 := x) end.
  pose proof (slices_of_within _ _ _ Hs Hl) as Hw. set (o := ss_offset (bs_slice bs)) in *.
  change (sa_slices (op_slices (id (os_op s1)))) with (sa_slices arr).
  change (ss_offset (bs_slice (op_bs_key (id (os_op s1))))) with o.
  destruct (read_slices_run base _ R (sa_slices arr) o (o + ss_length (bs_slice bs)) s3 S2) as (r & s4 & E4 & K4 & M4 & H4).
  { intros id. pose proof (io_ext _ _ _ (so_index _ _ _ _ S) id). simpl. lia. }
  { exact Hw. }
  rewrite E4. split; [by etransitivity|].
  split; [intros k b d; etransitivity; [apply (M4 k b d)|apply (M12 k b d)]|].
  destruct r as [err|[]].
  { destruct H4 as (-> & ext' & He & S4). left. split; [done|]. exists ext'. split; [|done].
    intros id. specialize (He id). simpl in He. lia. }
  destruct H4 as (S4 & c & cb & E & Hc). split; [by rewrite E|]. rewrite E.
  change (sa_slices (op_slices _)) with (sa_slices arr). cbv zeta. rewrite <- E.
  split; [done|]. split; [done|].
  split; [eapply store_ok_ext; [|exact S4]; intros id; simpl; lia|].
  rewrite E. unfold s3, s1. simpl. split_and!; try done.
  - intros Ha H31. specialize (Hal Ha). unfold sa_count in Hal. pose proof (length_plan o (sa_slices arr)). lia.
  - intros Hb. destruct (Hc 0) as [-> ->]; [|lia..|].
    + unfold s3. simpl. unfold cast16, sa_count. rewrite Z.mod_small by lia. lia.
    + rewrite Z.add_0_r. split; [done|]. by rewrite bool_decide_eq_false_2.
Qed.

(** ** What a read returns *)

(** The bytes of the extent [bs] as a read returns them: those of the store, zeros where
    nothing is mapped, and nothing after the last slice of the extent. *)
Definition read_content d ix bs (l : list Z) : Prop :=
  Z.of_nat (length l) <= ss_length (bs_slice bs) ∧
  ∀ i, 0 <= i < ss_length (bs_slice bs) →
    let b := ss_offset (bs_slice bs) + i in
    match l !! Z.to_nat i with
    | Some v => content d ix (bs_block bs) b v ∨ v = 0 ∧ ∀ loc, ¬ maps ix (bs_block bs) b loc
    | None => ∀ loc, ¬ maps ix (bs_block bs) b loc
    end.
Lemma read_plan_content d ix bs l :
  slices_of ix bs l → 0 < ss_length (bs_slice bs) →
  read_content d ix bs (bytes_of d (read_plan (ss_offset (bs_slice bs)) l)).
Proof using.
  intros Hs Hl. pose proof (slices_of_within _ _ _ Hs Hl) as Hw. set (o := ss_offset (bs_slice bs)) in *.
  pose proof (within_last _ _ _ Hw) as Hlast. pose proof (length_read_plan d _ _ _ Hw) as Hlen.
  split; [lia|]. intros i Hi. cbv zeta.
  assert (Hin : in_extent (bs_slice bs) (o + i)) by (unfold in_extent, o in *; lia).
  destruct (decide (o + i < last_end o l)) as [Hlt|Hge].
  - pose proof (read_plan_lookup d o l _ (o + i) Hw) as H. replace (o + i - o) with i in H by lia.
    rewrite H by lia. destruct (lookup_byte l (o + i)) as [loc|] eqn:E.
    + left. exists loc. split; [|done]. by apply (so_bytes _ _ _ Hs) in E as [_ ?].
    + right. split; [done|]. by apply (slices_of_none ix bs l).
  - rewrite lookup_ge_None_2 by lia. apply (slices_of_none ix bs l); [done|done|].
    apply lookup_byte_None. intros sl Hsl Hc.
    destruct (within_before _ _ _ _ Hw Hsl). unfold covers in Hc. lia.
Qed.

(** C24: a read returns the bytes of the store: the buffers of the extent, filled from the
    disk, hold for every byte its value or zero if it is not mapped, and end with the last
    slice; nothing is mapped or released on the way, an extent without any slice is
    [ENOENT], and the buffer array is large enough. *)
Theorem fs_slice_read_content base ext R s :
  store_ok base ext R (os_index s) → key_ok (bs_block (op_bs_key (os_op s))) →
  0 < ss_length (bs_slice (op_bs_key (os_op s))) → 0 <= op_buffers_alloc (os_op s) →
  let bs := op_bs_key (os_op s) in
  match fs_slice_read s with
  | Crash => False
  | Hang => is_reclaim (os_op s) = false ∧ ∃ p c t, lives (os_index s) p (bs_block bs) c t ∧ 0 < c
  | Ret (inl err) s' => same_maps (os_index s) (os_index s') ∧
      (err = ENOMEM ∨ err = ENOENT ∧ ∀ b loc, in_extent (bs_slice bs) b → ¬ maps (os_index s) (bs_block bs) b loc)
  | Ret (inr _) s' => same_maps (os_index s) (os_index s') ∧
      (∀ d, read_content d (os_index s) bs (bytes_of d (op_buffers (os_op s')))) ∧
      op_done_bytes (os_op s') + sumZ slen (files (sa_slices (op_slices (os_op s'))))
        = Z.of_nat (length (bytes_of (λ _ _ _, 0) (op_buffers (os_op s')))) ∧
      (sa_count (op_slices (os_op s')) <= 2 ^ 30 →
        Z.of_nat (length (op_buffers (os_op s'))) <= op_buffers_alloc (os_op s'))
  end.
Proof using UniqSkiplistSpec0.
  intros S Hk Hl Ha bs. pose proof (fs_slice_read_run base ext R s S Hk Hl) as H.
  destruct (fs_slice_read s) as [| |[err|u] s']; [done|done|..]; destruct H as (_ & M & H); (split; [done|]).
  - destruct H as [[-> _]|(-> & _ & Hn)]; [by left|by right].
  - destruct H as (_ & Hs & _ & _ & Hb & _ & _ & _ & Hd & Hal & _). split_and!.
    + intros d. rewrite Hb. by apply read_plan_content.
    + rewrite Hb, Hd. pose proof (slices_of_within _ _ _ Hs Hl) as Hw.
      rewrite (length_read_plan _ _ _ _ Hw). unfold zero_bytes, bs. lia.
    + intros Hc. apply Hal; [done|]. unfold sa_count in Hc. lia.
Qed.
End ReadData.
