(* ===== verification/DataThreadRead.v ===== *)
(** * A read on a data thread

    A read waits until the last of its slices was read, gives every reference back and
    changes nothing; the buffers the read threads filled hold the bytes of the store unless
    a read failed, which shows in [done_bytes] and, once the thread waits, in [result]; and
    a read that follows a write returns what was written. *)
From stdpp Require Import sorting.
From S2P Require Import Prelude Types Skiplist ObSlices ObSlicesRun.
From S2P Require Import ObSlicesThms ObSlicesMain ObSlicesGet ObIndex ObIndexSpec ObIndexOps.
From S2P Require Import ObIndexThms ObIndexMain TrunkAllocator StorageAllocator StorageAllocSpec.
From S2P Require Import StorageAllocThms StorageAllocUsed StoreAlloc Binlog SliceOp StoreWrite.
From S2P Require Import StoreWrite StoreIov StoreRead StoreReadData DataThread DataThreadThms.

(** ** The buffers a read thread fills *)

Lemma align_floor_spec x k : 0 <= k →
  MEM_ALIGN_FLOOR x (2 ^ k) <= x < MEM_ALIGN_FLOOR x (2 ^ k) + 2 ^ k.
Proof.
  intros Hk. unfold MEM_ALIGN_FLOOR. replace (2 ^ k - 1) with (Z.ones k) by (rewrite Z.ones_equiv; lia).
  rewrite <- Z.ldiff_land, Z.ldiff_ones_r, Z.shiftl_mul_pow2, Z.shiftr_div_pow2 by lia.
  pose proof (Z.pow_pos_nonneg 2 k ltac:(lia) Hk). pose proof (Z.div_mod x (2 ^ k) ltac:(lia)).
  pose proof (Z.mod_pos_bound x (2 ^ k) ltac:(lia)). lia.
Qed.
Lemma align_ceil_ge x k : 0 <= k → x <= MEM_ALIGN_CEIL x (2 ^ k).
Proof.
  intros Hk. change (MEM_ALIGN_CEIL x (2 ^ k)) with (MEM_ALIGN_FLOOR (x + (2 ^ k - 1)) (2 ^ k)).
  pose proof (align_floor_spec (x + (2 ^ k - 1)) k Hk). lia.
Qed.
(** The blocks that are read hold the slice. *)
Lemma prepare_read_slice_covers k sl : 0 <= k → 0 <= slen sl →
  let '(new_offset, offset, read_bytes) := prepare_read_slice (2 ^ k) sl in
  0 <= offset ∧ new_offset + offset = sp_offset (se_space sl) ∧ offset + slen sl <= read_bytes.
Proof.
  intros Hk Hl. unfold prepare_read_slice. cbv zeta.
  pose proof (align_floor_spec (sp_offset (se_space sl)) k Hk). pose proof (align_ceil_ge (slen sl) k Hk).
  destruct (Z.ltb_spec 0 (sp_offset (se_space sl) - MEM_ALIGN_FLOOR (sp_offset (se_space sl)) (2 ^ k))); [|lia].
  destruct (Z.ltb_spec (MEM_ALIGN_FLOOR (sp_offset (se_space sl)) (2 ^ k) + MEM_ALIGN_CEIL (slen sl) (2 ^ k))
    (sp_offset (se_space sl) + slen sl)); lia.
Qed.
Lemma read_into_bytes d sl result b : read_into d sl result b → 0 <= slen sl →
  ab_length b = slen sl ∧ (0 < slen sl → buffer_ok b) ∧ length (buffer_data b) = Z.to_nat (slen sl) ∧
  (result = 0 → buffer_data b = slice_bytes d sl).
Proof.
  intros (k & Hk & H) Hl. pose proof (prepare_read_slice_covers k sl Hk Hl) as Hc.
  destruct (prepare_read_slice (2 ^ k) sl) as [[no o] rb]. destruct H as (Ho & Hn & Hlen & Hd).
  destruct Hc as (C1 & C2 & C3). unfold buffer_data, iovec. rewrite Hn, Ho.
  assert (Hl2 : length (take (Z.to_nat (slen sl)) (drop (Z.to_nat o) (ab_buff b))) = Z.to_nat (slen sl)).
  { rewrite length_take, length_drop. lia. }
  split; [done|]. split; [intros ?; unfold buffer_ok; rewrite Hn, Ho; lia|]. split; [done|]. intros Hz.
  apply list_eq. intros i. destruct (decide (Z.of_nat i < slen sl)) as [Hi|Hi].
  - rewrite lookup_take_lt, lookup_drop by lia. specialize (Hd Hz (o + Z.of_nat i) ltac:(lia)).
    replace (Z.to_nat o + i)%nat with (Z.to_nat (o + Z.of_nat i)) by lia.
    etransitivity; [exact Hd|]. unfold slice_bytes. rewrite list_lookup_fmap, lookup_seq_lt by lia. simpl.
    unfold disk_at, loc_at. simpl. do 2 f_equal. lia.
  - rewrite !lookup_ge_None_2; [done| |lia]. unfold slice_bytes. rewrite length_fmap, length_seq. lia.
Qed.

(** What became of the buffers of a read, and the bytes of the reads that failed. *)
Inductive slots (d : Disk) : list ReadBuffer → list ReadBuffer → Z → Prop :=
  | slots_nil : slots d [] [] 0
  | slots_same p l l' n : (∀ b, p ≠ DataBuffer b) → slots d l l' n → slots d (p :: l) (p :: l') n
  | slots_read sl b l l' n result :
      0 < slen sl → read_into d sl result b → slots d l l' n →
      slots d (FileBuffer sl :: l) (DataBuffer b :: l') (if result =? 0 then n else n + slen sl).
Definition unfilled (l : list ReadBuffer) : list OBSliceEntry :=
  omap (λ p, match p with FileBuffer sl => Some sl | _ => None end) l.

Lemma slots_plan d o l : slots d (read_plan o l) (read_plan o l) 0 ∧ unfilled (read_plan o l) = files l.
Proof.
  revert o. induction l as [|sl l IH]; intros o; [by split; [constructor|]|]. destruct (IH (send sl)) as [H1 H2].
  cbn [read_plan]. rewrite files_cons. unfold unfilled in *. rewrite omap_app. cbn [omap list_omap]. rewrite H2.
  unfold hole_buffer, slice_buffer, is_file.
  destruct (0 <? soff sl - o), (se_type sl); simpl; (split; [by repeat constructor|done]).
Qed.
Lemma slots_fill d l l' n j sl b result :
  slots d l l' n → l' !! j = Some (FileBuffer sl) → 0 < slen sl → read_into d sl result b →
  slots d l (<[j := DataBuffer b]> l') (if result =? 0 then n else n + slen sl).
Proof.
  intros H. revert j. induction H as [|p l l' n Hp H IH|sl' b' l l' n r Hs Hr H IH]; intros j Hj Hl Hb; [done|..];
    destruct j as [|j]; cbn [lookup list_lookup] in Hj; cbn [insert list_insert].
  - injection Hj as ->. by constructor.
  - constructor; [done|]. by apply IH.
  - done.
  - specialize (IH j Hj Hl Hb).
    replace (if result =? 0 then _ else _) with (if r =? 0 then (if result =? 0 then n else n + slen sl)
      else (if result =? 0 then n else n + slen sl) + slen sl') by (destruct (result =? 0), (r =? 0); lia).
    by constructor.
Qed.
Lemma unfilled_fill l j sl b :
  l !! j = Some (FileBuffer sl) → unfilled l ≡ₚ sl :: unfilled (<[j := DataBuffer b]> l).
Proof.
  revert j. induction l as [|p l IH]; intros [|j] Hj; simpl in Hj |- *; [done|done|by simplify_eq|].
  destruct p as [|sl'|]; simpl; try by apply IH. rewrite (IH _ Hj). apply perm_swap.
Qed.
Lemma unfilled_slot l sl : sl ∈ unfilled l → ∃ j, l !! j = Some (FileBuffer sl).
Proof.
  unfold unfilled. intros (p & Hp & E)%list_elem_of_omap. apply list_elem_of_lookup in Hp as [j Hj].
  exists j. destruct p; by simplify_eq.
Qed.
Lemma slots_failed_nonneg d l l' n : slots d l l' n → 0 <= n.
Proof. induction 1 as [| |sl b l l' n r]; [lia|done|]. destruct (r =? 0); lia. Qed.
(** When all were read. *)
Lemma slots_filled d l l' n :
  slots d l l' n → unfilled l' = [] →
  ∃ bs, buffers_at l' = Some bs ∧ length (buffers_data bs) = length (bytes_of d l) ∧
    (n = 0 → buffers_data bs = bytes_of d l) ∧
    (Forall (λ bf, 0 < Z.of_nat (length (buffer_bytes d bf))) l → Forall buffer_ok bs).
Proof.
  induction 1 as [|p l l' n Hp H IH|sl b l l' n r Hs Hr H IH]; intros Hu; [by exists []|..]; unfold unfilled in *; simpl in Hu.
  - destruct p as [pi m|sl|b]; simpl in Hu; [|done|]; destruct (IH Hu) as (bs & E & E1 & E2 & E3);
      unfold buffers_at in *; simpl; rewrite E; simpl; eexists; (split; [done|]);
      change (buffers_data (?x :: bs)) with (buffer_data x ++ buffers_data bs);
      change (bytes_of d (?x :: l)) with (buffer_bytes d x ++ bytes_of d l); rewrite !length_app, E1.
    + assert (Ez : buffer_data (mkAligned 0 m (replicate (Z.to_nat m) 0)) = replicate (Z.to_nat m) 0).
      { unfold buffer_data, iovec. simpl. rewrite drop_0, take_ge; [done|]. by rewrite length_replicate. }
      rewrite Ez. simpl. split; [done|]. split; [intros Hn; by rewrite E2|].
      intros [H1 H2]%Forall_cons. constructor; [|by apply E3]. simpl in H1. rewrite length_replicate in H1.
      unfold buffer_ok. simpl. rewrite length_replicate. lia.
    + by destruct (Hp b).
  - destruct (IH Hu) as (bs & E & E1 & E2 & E3). destruct (read_into_bytes _ _ _ _ Hr ltac:(lia)) as (R1 & R2 & R3 & R4).
    unfold buffers_at in *. simpl. rewrite E. simpl. eexists. split; [done|].
    change (buffers_data (?x :: bs)) with (buffer_data x ++ buffers_data bs).
    change (bytes_of d (?x :: l)) with (buffer_bytes d x ++ bytes_of d l). rewrite !length_app, E1, R3.
    simpl. unfold slice_bytes at 1. rewrite length_fmap, length_seq. split; [done|]. split.
    + intros Hn. pose proof (slots_failed_nonneg _ _ _ _ H). destruct (Z.eqb_spec r 0) as [Hz|]; [|lia]. by rewrite R4, E2.
    + intros [H1 H2]%Forall_cons. constructor; [by apply R2|by apply E3].
Qed.

Section ReadThread.
Context {T : Type} `{!UniqSkiplist OBSliceEntry T} `{!UniqSkiplistSpec slice_compare}.
Implicit Types (s : OpState T) (ix : Index T Mgr) (k : FSBlockKey) (b v : Z) (th : Thread T)
  (base : Z → Z → Z) (ext : Z → Z) (R : list OBSliceEntry) (d : Disk).
Context (now : Z) (continue_flag : bool) (discard_remain_space_size : Z).
Context (blocked : Z → Mgr → Mgr) (retries : nat) (failover : bool).
Abbreviation step := (step now continue_flag discard_remain_space_size blocked retries failover).
Abbreviation steps_of := (steps_of now continue_flag discard_remain_space_size blocked retries failover).

(** ** While a read waits *)

(** [bufs] are the buffers of the read when it was issued, [total] its bytes. *)
Record read_inv base ext R ix0 d0 o0 (bufs : list ReadBuffer) (total : Z) th : Prop := {
  ri_maps : same_maps ix0 (os_index (th_state th));
  ri_store : store_ok base (λ id, ext id + occ id (os_reads (th_state th))) R (os_index (th_state th));
  ri_writes : os_writes (th_state th) = [];
  ri_counter : op_counter (os_op (th_state th)) = Z.of_nat (length (os_reads (th_state th)));
  ri_count : Z.of_nat (length (os_reads (th_state th))) < 2 ^ 15;
  ri_notify : th_notify_done th = true ↔ os_reads (th_state th) = [];
  ri_disk : th_disk th = d0;
  ri_slots : ∃ failed, slots d0 bufs (op_buffers (os_op (th_state th))) failed ∧
    op_done_bytes (os_op (th_state th)) + sumZ slen (os_reads (th_state th)) + failed = total;
  ri_unfilled : unfilled (op_buffers (os_op (th_state th))) ≡ₚ os_reads (th_state th);
  ri_lens : Forall (λ sl, 0 < slen sl) (os_reads (th_state th));
  ri_info : same_info o0 (os_op (th_state th));
  ri_kept : kept ix0 (os_index (th_state th));
}.

(** The result tells if a read failed. *)
Definition read_exact (total : Z) th : Prop :=
  0 <= op_result (os_op (th_state th)) < 2 ^ 15 ∧
  (op_result (os_op (th_state th)) = 0 →
     op_done_bytes (os_op (th_state th)) + sumZ slen (os_reads (th_state th)) = total) ∧
  (op_result (os_op (th_state th)) ≠ 0 →
     op_done_bytes (os_op (th_state th)) + sumZ slen (os_reads (th_state th)) < total).

Lemma read_inv_done base ext R ix0 d0 o0 bufs total th i j sl ab result s :
  (∀ id, 0 <= ext id) →
  read_inv base ext R ix0 d0 o0 bufs total th → os_reads (th_state th) !! i = Some sl →
  0 <= result < 2 ^ 15 → op_buffers (os_op (th_state th)) !! j = Some (FileBuffer sl) →
  read_into (th_disk th) sl result ab →
  do_read_done sl result (fill_buffer j ab (set_reads (remove_at i (os_reads (th_state th))) (th_state th)))
    = Ret (inr tt) s →
  read_inv base ext R ix0 d0 o0 bufs total (set_state s th).
Proof using UniqSkiplistSpec0.
  intros Hx [I1 I2 I3 I4 I5 I6 I7 (failed & I8 & I8') I9 I10 I11 I12] Hi Hr Hj Hb E. set (rs := os_reads (th_state th)) in *.
  pose proof (remove_at_length _ _ _ Hi) as Hlen. pose proof (remove_at_perm _ _ _ Hi) as Hperm.
  assert (Hocc : ∀ id, occ id rs = occ id [sl] + occ id (remove_at i rs)).
  { intros id. rewrite (occ_perm id _ _ Hperm), (occ_cons id sl (remove_at _ _)), occ_cons, occ_nil. lia. }
  destruct (do_read_done_run base _ R sl result (fill_buffer j ab (set_reads (remove_at i rs) (th_state th))) I2) as (ix' & K & M & S' & E').
  { simpl. rewrite Hocc, occ_cons, Z.eqb_refl, occ_nil.
    pose proof (occ_nonneg (se_id sl) (remove_at i rs)). specialize (Hx (se_id sl)). lia. }
  rewrite E' in E. cbv zeta in E. injection E as <-.
  assert (Hn : cast16 (op_counter (os_op (th_state th)) - 1) = Z.of_nat (length (remove_at i rs))).
  { unfold cast16. rewrite I4, Z.mod_small by (unfold rs in *; lia). unfold rs in *. lia. }
  assert (Hnf : th_notify_done th = false).
  { destruct (th_notify_done th); [|done]. exfalso. destruct I6 as [I6 _]. specialize (I6 eq_refl).
    by rewrite I6 in Hi. }
  assert (Hsum : sumZ slen rs = slen sl + sumZ slen (remove_at i rs)).
  { rewrite (sumZ_perm slen _ _ Hperm). apply sumZ_cons. }
  assert (Hsl : 0 < slen sl) by (rewrite Forall_forall in I10; by apply I10, (list_elem_of_lookup_2 _ i)).
  split; simpl.
  - intros k b loc. etransitivity; [apply (M k b loc)|apply (I1 k b loc)].
  - eapply store_ok_ext; [|exact S']. intros id. simpl. rewrite Hocc. lia.
  - done.
  - simpl in Hn. rewrite Hn. done.
  - unfold rs in *. lia.
  - rewrite Hnf. simpl in *. rewrite Hn. simpl.
    destruct (Z.eqb_spec (Z.of_nat (length (remove_at i rs))) 0) as [E|E]; simpl.
    + split; [intros _; by apply nil_length_inv; lia|]. intros _. apply negb_true_iff, Z.eqb_neq. lia.
    + split; [|intros E2; by rewrite E2 in E]. intros E2. apply negb_true_iff, Z.eqb_neq in E2. lia.
  - done.
  - rewrite I7 in Hb. exists (if result =? 0 then failed else failed + slen sl). split; [by eapply slots_fill|]. destruct (result =? 0); lia.
  - apply (Permutation_cons_inv (a := sl)). rewrite <- Hperm, <- I9. symmetry. by apply unfilled_fill.
  - rewrite Hperm in I10. by apply Forall_cons in I10 as [_ ?].
  - exact I11.
  - by etransitivity.
Qed.

Lemma read_exact_done base ext R ix0 d0 o0 bufs total th i j sl ab result s :
  (∀ id, 0 <= ext id) →
  read_inv base ext R ix0 d0 o0 bufs total th → read_exact total th → os_reads (th_state th) !! i = Some sl →
  0 <= result < 2 ^ 15 →
  do_read_done sl result (fill_buffer j ab (set_reads (remove_at i (os_reads (th_state th))) (th_state th)))
    = Ret (inr tt) s →
  read_exact total (set_state s th).
Proof using UniqSkiplistSpec0.
  intros Hx I (X1 & X2 & X3) Hi Hr E. pose proof (remove_at_perm _ _ _ Hi) as Hperm.
  set (rs := os_reads (th_state th)) in *.
  destruct (do_read_done_run base _ R sl result (fill_buffer j ab (set_reads (remove_at i rs) (th_state th))) (ri_store _ _ _ _ _ _ _ _ _ I))
    as (ix' & _ & _ & _ & E').
  { simpl. rewrite (occ_perm _ _ _ Hperm), occ_cons, Z.eqb_refl.
    pose proof (occ_nonneg (se_id sl) (remove_at i rs)). specialize (Hx (se_id sl)). lia. }
  rewrite E' in E. cbv zeta in E. injection E as <-.
  assert (Hsum : sumZ slen rs = slen sl + sumZ slen (remove_at i rs)).
  { rewrite (sumZ_perm slen _ _ Hperm). apply sumZ_cons. }
  assert (Hc : cast16 result = result) by (unfold cast16; rewrite Z.mod_small by lia; lia).
  assert (Hsl : 0 < slen sl).
  { pose proof (ri_lens _ _ _ _ _ _ _ _ _ I) as Hl. rewrite Forall_forall in Hl.
    by apply Hl, (list_elem_of_lookup_2 _ i). }
  unfold read_exact. simpl. rewrite ?Hc. unfold rs in *.
  destruct (Z.eqb_spec result 0) as [->|Hne]; split_and!; try done; lia.
Qed.

Lemma read_step base ext R ix0 d0 o0 bufs total op pc th pc' th' :
  (∀ id, 0 <= ext id) → do_operation op = DATA_OPERATION_SLICE_READ → busy pc op →
  read_inv base ext R ix0 d0 o0 bufs total th → step (pc, th) (pc', th') →
  busy pc' op ∧ read_inv base ext R ix0 d0 o0 bufs total th' ∨
  pc' = PcFinish op ∧ th_notify_done th = true ∧ th' = set_notify false th.
Proof using UniqSkiplistSpec0.
  intros Hx Hop Hb I Hst.
  inversion Hst as [|op' result th0|pc0 th0 i w result s d Hw|pc0 th0 i j sl ab result s Hi Hr Hj Hb0 E
    |op' th0 r s Hn E|op' op'' th0 s wait|op' th0|op' th0|op' wait th0 r s]; subst; try (by destruct Hb).
  - left. assert (op' = op ∧ result = 0) as [-> ->] by (destruct Hb as [[=]|[=]]; done).
    unfold waits, store_result. rewrite Hop. simpl. split; [by right|].
    destruct I as [I1 I2 I3 I4 I5 I6 I7 I8 I9 I10 I11 I12]. split; try done.
    simpl. by rewrite Z.eqb_refl, orb_false_r.
  - exfalso. pose proof (ri_writes _ _ _ _ _ _ _ _ _ I) as Hw'. by rewrite Hw' in Hw.
  - left. split; [done|]. eapply read_inv_done; [exact Hx|exact I|exact Hi|exact Hr|exact Hj|exact Hb0|exact E].
  - right. assert (op' = op) as -> by (destruct Hb as [[=]|[=]]; done).
    split; [done|]. split; [done|]. unfold after_wait in E. rewrite Hop in E. injection E as _ <-.
    unfold set_state. simpl. by rewrite Z.eqb_refl.
Qed.

Lemma read_trace base ext R ix0 d0 o0 bufs total op pc th pc' th' :
  (∀ id, 0 <= ext id) → do_operation op = DATA_OPERATION_SLICE_READ → busy pc op →
  read_inv base ext R ix0 d0 o0 bufs total th → rtc (steps_of op) (pc, th) (pc', th') →
  busy pc' op ∧ read_inv base ext R ix0 d0 o0 bufs total th' ∨
  pc' = PcFinish op ∧ ∃ th1, read_inv base ext R ix0 d0 o0 bufs total th1 ∧ th_notify_done th1 = true ∧
    th' = set_notify false th1.
Proof using UniqSkiplistSpec0.
  intros Hx Hop Hb Hs Hr. remember (pc, th) as x eqn:Ex. remember (pc', th') as y eqn:Ey.
  revert pc th Hb Hs Ex. induction Hr as [x|x [pc1 th1] z [Hst _] Hr IH]; intros pc th Hb Hs ->.
  - injection Ey as -> ->. by left.
  - destruct (read_step base ext R ix0 d0 o0 bufs total op pc th pc1 th1 Hx Hop Hb Hs Hst)
      as [[Hb1 Hs1]|(-> & Hn & ->)]; [by apply (IH Ey pc1 th1)|].
    right. inversion Hr as [|? ? ? [_ Hb1]]; simplify_eq; [|by destruct Hb1].
    split; [done|]. by exists th.
Qed.

(** ** The whole operation *)
Definition read_request op ctx th : Prop :=
  do_operation op = DATA_OPERATION_SLICE_READ ∧ key_ok (bs_block (op_bs_key ctx)) ∧
  0 < ss_length (bs_slice (op_bs_key ctx)) ∧
  th_notify_done th = false ∧ os_writes (th_state th) = [] ∧ os_reads (th_state th) = [].

Lemma read_started base ext R op ctx th s1 :
  read_request op ctx th → store_ok base ext R (os_index (th_state th)) →
  fs_slice_read (set_op ctx (th_state th)) = Ret (inr tt) s1 →
  sa_count (op_slices (os_op s1)) < 2 ^ 15 →
  ∃ total, read_inv base ext R (os_index (th_state th)) (th_disk th) ctx (op_buffers (os_op s1)) total (set_state s1 th) ∧
    read_exact total (set_state s1 th) ∧
    (∀ d, read_content d (os_index (th_state th)) (op_bs_key ctx) (bytes_of d (op_buffers (os_op s1)))) ∧
    (∀ d, total = Z.of_nat (length (bytes_of d (op_buffers (os_op s1))))) ∧
    ∀ d, Forall (λ bf, 0 < Z.of_nat (length (buffer_bytes d bf))) (op_buffers (os_op s1)).
Proof using UniqSkiplistSpec0.
  intros (Hop & Hk & Hl & Hn & Hw & Hr) S E Hc.
  pose proof (fs_slice_read_run base ext R (set_op ctx (th_state th)) S Hk Hl) as H. rewrite E in H.
  destruct H as (K & M & Hinfo & Hs & Hne & S1 & Hb & Hrd & Hwr & Hres & Hd & _ & Hcnt).
  change (op_bs_key (os_op (set_op ctx (th_state th)))) with (op_bs_key ctx) in *.
  change (os_index (set_op ctx (th_state th))) with (os_index (th_state th)) in *.
  change (os_reads (set_op ctx (th_state th))) with (os_reads (th_state th)) in *.
  change (os_writes (set_op ctx (th_state th))) with (os_writes (th_state th)) in *.
  change (os_callbacks (set_op ctx (th_state th))) with (os_callbacks (th_state th)) in *.
  rewrite Hr in Hrd. simpl in Hrd. rewrite Hw in Hwr. destruct (Hcnt Hc) as [C1 C2].
  set (l := sa_slices (op_slices (os_op s1))) in *.
  pose proof (slices_of_within _ _ _ Hs Hl) as Hwin.
  assert (Hfl : (length (files l) <= length l)%nat) by apply length_filter.
  exists (last_end (ss_offset (bs_slice (op_bs_key ctx))) l - ss_offset (bs_slice (op_bs_key ctx))).
  split_and!.
  - split; simpl; rewrite ?Hrd; try done.
    + unfold sa_count in Hc. fold l in Hc. lia.
    + rewrite Hn, C2, C1. simpl. destruct (Z.eqb_spec (Z.of_nat (length (files l))) 0) as [E0|E0].
      * split; [intros _; apply nil_length_inv; lia|]. intros _. apply negb_true_iff, Z.eqb_neq. lia.
      * rewrite Z.eqb_refl. simpl. split; [done|]. intros E1. by rewrite E1 in E0.
    + exists 0. rewrite Hb, Hd. split; [apply slots_plan|]. unfold zero_bytes, l. lia.
    + rewrite Hb. by rewrite (proj2 (slots_plan (th_disk th) _ _)).
    + destruct (so_wf _ _ _ Hs) as [_ Hv]. apply Forall_forall. intros sl Hsl.
      apply list_elem_of_filter in Hsl as [_ Hsl]. rewrite Forall_forall in Hv. specialize (Hv sl Hsl).
      unfold valid_slice in Hv. lia.
  - unfold read_exact. simpl. rewrite Hres, Hd, Hrd. unfold zero_bytes, l. split_and!; [lia..|done].
  - intros d. rewrite Hb. by apply read_plan_content.
  - intros d. rewrite Hb. by rewrite (length_read_plan _ _ _ _ Hwin).
  - intros d. rewrite Hb. by eapply plan_buffers.
Qed.

(** A read passes through the state [thw] in which the thread starts to wait. *)
Definition starts_to_wait op (x y : Pc * Thread T) thw : Prop :=
  ∃ tha, rtc (steps_of op) x (PcIssued op 0, tha) ∧ steps_of op (PcIssued op 0, tha) (PcWait op, thw) ∧
    op_result (os_op (th_state thw)) = 0 ∧ rtc (steps_of op) (PcWait op, thw) y.
Lemma read_waits op th th' :
  do_operation op = DATA_OPERATION_SLICE_READ → rtc (steps_of op) (PcIssued op 0, th) (PcFinish op, th') →
  ∃ thw, starts_to_wait op (PcIssued op 0, th) (PcFinish op, th') thw.
Proof using.
  intros Hop Hr. remember (PcIssued op 0, th) as x eqn:Ex. remember (PcFinish op, th') as y eqn:Ey.
  revert th Ex. induction Hr as [x|x y' z Hst Hr IH]; intros th ->; [done|].
  assert (Hc : (∃ th1, y' = (PcIssued op 0, th1)) ∨ ∃ th1, y' = (PcWait op, th1) ∧ op_result (os_op (th_state th1)) = 0).
  { destruct Hst as [Hst _]. inversion Hst; subst; [|left; eauto..]. right. unfold waits, store_result. rewrite Hop. simpl. eauto. }
  destruct Hc as [[th1 ->]|(th1 & -> & Hz)].
  - destruct (IH Ey th1 eq_refl) as (thw & tha & R1 & R2 & R3 & R4). exists thw, tha. split_and!; try done. by eapply rtc_l.
  - exists th1, th. by split_and!.
Qed.
Lemma read_exact_step base ext R ix0 d0 o0 bufs total op th pc' th' :
  (∀ id, 0 <= ext id) → do_operation op = DATA_OPERATION_SLICE_READ →
  read_inv base ext R ix0 d0 o0 bufs total th → read_exact total th → step (PcWait op, th) (pc', th') →
  read_exact total th'.
Proof using UniqSkiplistSpec0.
  intros Hx Hop I X Hst. inversion Hst as [| |pc0 th0 i w result s d Hw|pc0 th0 i j sl ab result s Hi Hr Hj Hb0 E
    |op' th0 r s Hn E| | | |]; subst.
  - exfalso. pose proof (ri_writes _ _ _ _ _ _ _ _ _ I) as Hw'. by rewrite Hw' in Hw.
  - eapply read_exact_done; [exact Hx|exact I|exact X|exact Hi|exact Hr|exact E].
  - unfold after_wait in E. rewrite Hop in E. by injection E as _ <-.
Qed.
Lemma read_exact_trace base ext R ix0 d0 o0 bufs total op th th' :
  (∀ id, 0 <= ext id) → do_operation op = DATA_OPERATION_SLICE_READ →
  read_inv base ext R ix0 d0 o0 bufs total th → read_exact total th →
  rtc (steps_of op) (PcWait op, th) (PcFinish op, th') → read_exact total th'.
Proof using UniqSkiplistSpec0.
  intros Hx Hop I X Hr. remember (PcWait op, th) as x eqn:Ex. remember (PcFinish op, th') as y eqn:Ey.
  revert th I X Ex. induction Hr as [x|x [pc1 th1] z [Hst _] Hr IH]; intros th I X ->; [by simplify_eq|].
  pose proof (read_exact_step _ _ _ _ _ _ _ _ _ _ _ _ Hx Hop I X Hst) as X1.
  destruct (read_step base ext R ix0 d0 o0 bufs total op _ th pc1 th1 Hx Hop (or_intror eq_refl) I Hst)
    as [[Hb1 I1]|(-> & _ & _)].
  - apply (IH Ey th1); [done..|]. destruct Hb1 as [->| ->]; [|done]. inversion Hst.
  - inversion Hr as [|? ? ? [_ Hb1]]; simplify_eq; [done|by destruct Hb1].
Qed.

(** No read has failed so far: [total] bytes are read or under way. *)
Definition no_read_failed (total : Z) th : Prop :=
  op_done_bytes (os_op (th_state th)) + sumZ slen (os_reads (th_state th)) = total.

(** C3: a read on a data thread: when it leaves the wait, all its I/O is done, every
    reference was given back, the notification is consumed, the store and the disk are
    those of before, and no buffer is missing. When [done_bytes] is the number of their
    bytes, what the read threads put into the buffers are the bytes of the extent; and
    unless a read failed before the thread started to wait, the result is 0 exactly then. *)
Theorem read_operation_refines base ext R op ctx th s1 th2 :
  read_request op ctx th → store_ok base ext R (os_index (th_state th)) →
  fs_slice_read (set_op ctx (th_state th)) = Ret (inr tt) s1 →
  sa_count (op_slices (os_op s1)) < 2 ^ 15 →
  rtc (steps_of op) (PcIssued op 0, set_state s1 th) (PcFinish op, th2) →
  os_reads (th_state th2) = [] ∧ os_writes (th_state th2) = [] ∧ th_notify_done th2 = false ∧
  store_ok base ext R (os_index (th_state th2)) ∧
  same_maps (os_index (th_state th)) (os_index (th_state th2)) ∧ th_disk th2 = th_disk th ∧
  ∃ bufs thw, buffers_at (op_buffers (os_op (th_state th2))) = Some bufs ∧
    starts_to_wait op (PcIssued op 0, set_state s1 th) (PcFinish op, th2) thw ∧
    let done := op_done_bytes (os_op (th_state th2)) in
    let total := Z.of_nat (length (buffers_data bufs)) in
    done <= total ∧
    (done = total → read_content (th_disk th) (os_index (th_state th)) (op_bs_key ctx) (buffers_data bufs)) ∧
    (no_read_failed total thw → op_result (os_op (th_state th2)) = 0 ↔ done = total).
Proof using UniqSkiplistSpec0.
  intros Hq S E Hc Hst. destruct (read_started base ext R op ctx th s1 Hq S E Hc) as (total & I & _ & Hcont & Ht & _).
  pose proof (io_ext _ _ _ (so_index _ _ _ _ S)) as Hx. pose proof (proj1 Hq) as Hop.
  destruct (read_waits op _ _ Hop Hst) as (thw & tha & R1 & R2 & Hz & R3).
  assert (Iw : read_inv base ext R (os_index (th_state th)) (th_disk th) ctx (op_buffers (os_op s1)) total thw).
  { destruct (read_trace _ _ _ _ _ _ _ _ op _ _ (PcWait op) thw Hx Hop (or_introl eq_refl) I) as [[_ ?]|[[=] _]]; [|done].
    by eapply rtc_r. }
  assert (Hex : no_read_failed total thw → read_exact total th2).
  { intros Hn. eapply read_exact_trace; [exact Hx|exact Hop|exact Iw| |exact R3]. unfold read_exact. rewrite Hz. by split_and!. }
  destruct (read_trace _ _ _ _ _ _ _ _ op _ _ _ _ Hx Hop (or_introl eq_refl) I Hst)
    as [[Hb _]|(_ & th1 & [I1 I2 I3 I4 I5 I6 I7 (failed & I8 & I8') I9 I10 I11 I12] & Hn1 & ->)]; [by destruct Hb|].
  apply I6 in Hn1. rewrite Hn1 in *. apply Permutation_nil_r in I9. pose proof (slots_failed_nonneg _ _ _ _ I8).
  destruct (slots_filled _ _ _ _ I8 I9) as (bs & E1 & E2 & E3 & _).
  change (sumZ slen []) with 0 in I8'. specialize (Ht (th_disk th)). rewrite <- E2 in Ht. simpl. rewrite I7.
  split_and!; try done.
  { eapply store_ok_ext; [|exact I2]. intros id. simpl. rewrite occ_nil. lia. }
  exists bs, thw. rewrite <- Ht. split; [done|]. split; [by exists tha|]. split_and!; [lia|..].
  - intros Hd. rewrite E3 by lia. apply Hcont.
  - intros Hn. destruct (Hex Hn) as (_ & X2 & X3). simpl in X2, X3. rewrite Hn1 in X2, X3. change (sumZ slen []) with 0 in *. 
    destruct (Z.eqb_spec (op_result (os_op (th_state th1))) 0) as [E0|E0]; [specialize (X2 E0)|specialize (X3 E0)]; lia.
Qed.
End ReadThread.

(** ** A read after a write *)
Section ReadAfterWrite.
Context {T : Type} `{!UniqSkiplist OBSliceEntry T} `{!UniqSkiplistSpec slice_compare}.
Context (now : Z) (continue_flag : bool) (discard_remain_space_size : Z).
Context (blocked : Z → Mgr → Mgr) (retries : nat) (failover : bool).
Context (Hused : ∀ i m, used_kept m (blocked i m)).
Context (Haligned : ∀ i m, aligned8 m → aligned8 (blocked i m)).
Context (Hdiscard : 0 < discard_remain_space_size).
Context (Hspace : ∀ i m, alloc_safe m → alloc_safe (blocked i m) ∧ space_mono m (blocked i m)).
Abbreviation write_call := (fs_slice_write now continue_flag discard_remain_space_size blocked retries None).
Abbreviation steps_of := (steps_of now continue_flag discard_remain_space_size blocked retries failover).

(** Extent [r] lies within extent [w]. *)
Definition within_extent (r w : FSBlockSliceKeyInfo) : Prop :=
  bs_block r = bs_block w ∧ extent_start w <= extent_start r ∧ extent_end r <= extent_end w ∧
  0 < ss_length (bs_slice r).

Lemma read_content_data (d : Disk) (ix : Index T Mgr) r w data l :
  within_extent r w → index_wf ix →
  (∀ b v, extent_start w <= b < extent_end w →
    content d ix (bs_block w) b v ↔ data !! Z.to_nat (b - extent_start w) = Some v) →
  Z.of_nat (length data) = ss_length (bs_slice w) →
  read_content d ix r l →
  l = take (Z.to_nat (ss_length (bs_slice r))) (drop (Z.to_nat (extent_start r - extent_start w)) data).
Proof using.
  intros (Hk & H1 & H2 & H3) W Hd Hlen [Hl Hc]. unfold extent_start, extent_end in *.
  set (ro := ss_offset (bs_slice r)) in *. set (wo := ss_offset (bs_slice w)) in *.
  assert (Hat : ∀ i, 0 <= i < ss_length (bs_slice r) → l !! Z.to_nat i = data !! Z.to_nat (ro - wo + i)).
  { intros i Hi. specialize (Hc i Hi). cbv zeta in Hc.
    destruct (lookup_lt_is_Some_2 data (Z.to_nat (ro - wo + i))) as [v Hv]; [lia|].
    assert (Hcv : content d ix (bs_block r) (ro + i) v).
    { rewrite Hk. apply Hd; [lia|]. by replace (ro + i - wo) with (ro - wo + i) by lia. }
    destruct (l !! Z.to_nat i) as [v'|] eqn:E.
    - destruct Hc as [Hc|[_ Hn]].
      + rewrite Hv. f_equal. destruct Hc as (l1 & M1 & ->), Hcv as (l2 & M2 & ->).
        by rewrite (maps_fun _ _ _ _ _ W M1 M2).
      + destruct Hcv as (l2 & M2 & _). by apply Hn in M2.
    - destruct Hcv as (l2 & M2 & _). by apply Hc in M2. }
  apply list_eq. intros i. destruct (decide (Z.of_nat i < ss_length (bs_slice r))) as [Hi|Hi].
  - rewrite lookup_take_lt by lia. rewrite lookup_drop. specialize (Hat (Z.of_nat i) ltac:(lia)).
    rewrite Nat2Z.id in Hat. rewrite Hat. f_equal. lia.
  - rewrite !lookup_ge_None_2; [done| |lia]. rewrite length_take. lia.
Qed.

(** C2: a read of any part of the extent of a write that succeeded, made when the write
    leaves its wait, returns exactly the bytes that were written there. *)
Theorem read_after_write base ext R op ctx th s1 th2 rctx s3 :
  write_request op ctx th → store_ok base ext R (os_index (th_state th)) →
  write_call (set_op ctx (th_state th)) = Ret (inr tt) s1 →
  rtc (steps_of op) (PcIssued op 0, set_state s1 th) (PcFinish op, th2) →
  op_result (os_op (th_state th2)) = 0 →
  within_extent (op_bs_key rctx) (op_bs_key ctx) →
  fs_slice_read (set_op rctx (th_state th2)) = Ret (inr tt) s3 →
  bytes_of (th_disk th2) (op_buffers (os_op s3)) =
    take (Z.to_nat (ss_length (bs_slice (op_bs_key rctx))))
      (drop (Z.to_nat (extent_start (op_bs_key rctx) - extent_start (op_bs_key ctx))) (op_buff ctx)).
Proof using All.
  intros Hq S E Hst Hz Hwe E3.
  destruct (write_operation_run _ _ _ _ _ failover Hused Haligned Hdiscard Hspace base ext R op ctx th s1 th2 Hq S E Hst)
    as (base' & [Hquiet (ext' & He & S2) Hoth Hdata]).
  destruct Hq as (Hop & (Hk & Hx) & Hlen & _).
  assert (Hk' : key_ok (bs_block (op_bs_key rctx))) by (destruct Hwe as [-> _]; done).
  pose proof (fs_slice_read_run base' ext' R (set_op rctx (th_state th2)) S2 Hk' (proj2 (proj2 (proj2 Hwe)))) as H.
  rewrite E3 in H. destruct H as (_ & _ & _ & Hs & _ & _ & Hb & _).
  eapply read_content_data; [exact Hwe|apply (io_wf _ _ _ (so_index _ _ _ _ S2))|exact (Hdata Hz)|exact Hlen|].
  rewrite Hb. apply read_plan_content; [exact Hs|apply Hwe].
Qed.
End ReadAfterWrite.
