(* ===== verification/StoreDemo.v ===== *)
(** * Reading the small store

    The witnesses of the theorems about holes and reads: on the store of [DataThreadDemo],
    empty or after its write of 16 bytes. *)
From S2P Require Import Prelude Types Skiplist ObSlices ObSlicesRun.
From S2P Require Import ObSlicesThms ObSlicesMain ObIndex ObIndexSpec ObIndexOps.
From S2P Require Import ObIndexThms ObIndexMain TrunkAllocator StorageAllocator StorageAllocSpec.
From S2P Require Import StorageAllocThms StorageAllocUsed StoreAlloc Binlog SliceOp StoreWrite.
From S2P Require Import StoreWrite StoreIov StoreRead StoreReadData DataThread DataThreadThms DataThreadRead.
From S2P Require Import ObSlicesMain DataThreadDemo.

(** ** I/O vectors *)

(** Two slices of 10 and 6 bytes, and two buffers of 4 and 12. *)
Definition part (id off len : Z) : OBSliceEntry :=
  mkSlice id 0 OB_SLICE_TYPE_FILE (mkSliceSize off len) (mkTrunkSpace 1 (mkTrunkId 7 1) off 16).
Definition two_parts : OpState (list OBSliceEntry) :=
  upd_op (λ o, op_set_update 0 0 4 [mkPair 1 0 (part 1 0 10); mkPair 2 0 (part 2 10 6)] o) (small_state []).
Definition two_buffers : list AlignedReadBuffer :=
  [mkAligned 2 4 [0; 0; 1; 2; 3; 4; 0; 0]; mkAligned 0 12 [5; 6; 7; 8; 9; 10; 11; 12; 13; 14; 15; 16]].
Lemma write_iovec_array_equiv_witness :
  concat (wr_data <$> os_writes (state_of (write_iovec_array two_buffers two_parts) two_parts)) = small_data.
Proof.
  rewrite (write_iovec_array_equiv two_buffers two_parts).
  - vm_compute. reflexivity.
  - repeat constructor; vm_compute; discriminate.
  - vm_compute. discriminate.
  - repeat constructor; vm_compute; reflexivity.
  - vm_compute. reflexivity.
Defined.

(** ** Holes *)
Lemma small_key : key_ok (bs_block (op_bs_key small_ctx)).
Proof. vm_compute. split; discriminate. Qed.
Definition small_holes := get_slice_index_holes 4 (small_state []).
Lemma get_slice_index_holes_ok_witness :
  match small_holes with
  | Ret (inr (res, (holes, count))) s' =>
      res = 0 ∧ holes = [mkSliceSize 0 16] ∧ count = 1 ∧
      holes_outcome small_base (λ _, 0) [] (small_state []) 4 res holes count s'
  | _ => False
  end.
Proof.
  pose proof (get_slice_index_holes_ok small_base (λ _, 0) [] (small_state []) 4 (small_store_ok []) small_key
    eq_refl eq_refl) as H.
  assert (E : ∃ s', small_holes = Ret (inr (0, ([mkSliceSize 0 16], 1))) s') by (eexists; vm_compute; reflexivity).
  fold small_holes in H. destruct E as [s' E]. rewrite E in *. split; [done|]. split; [done|]. split; [done|exact H].
Defined.

(** ** Reading what was written *)
Lemma done_store : ∃ base ext, store_ok base ext [] (os_index (th_state done_thread)).
Proof.
  destruct (write_operation_run 10 true 256 (λ _ m, m) 0 true id_blocked_used (λ _ _ H, H) eq_refl id_blocked_space
    small_base (λ _, 0) [] write_op small_ctx (small_thread []) after_call done_thread
    (small_request []) (small_store_ok []) small_call small_run) as (base & [_ (ext & _ & H) _ _]).
  by exists base, ext.
Qed.
(** Bytes 4 to 12. *)
Definition mid_ctx : FSSliceOpContext :=
  mkOp 0 0 0 false BINLOG_SOURCE_RPC_MASTER 0 0
    (mkBlockSliceKey (fs_calc_block_hashcode 1 0) (mkSliceSize 4 8)) [] 0 4 [] (mkSliceArray 0 []) 0 [].
Definition mid_state : OpState (list OBSliceEntry) := set_op mid_ctx (th_state done_thread).
Definition mid_call : OpState (list OBSliceEntry) := state_of (fs_slice_read mid_state) mid_state.
Lemma mid_run : fs_slice_read mid_state = Ret (inr tt) mid_call.
Proof. vm_compute. reflexivity. Qed.

Lemma store_ok_set_op base ext R c (s : OpState (list OBSliceEntry)) :
  store_ok base ext R (os_index s) → store_ok base ext R (os_index (set_op c s)).
Proof. done. Qed.
Lemma mid_store : ∃ base ext, store_ok base ext [] (os_index mid_state).
Proof.
  destruct done_store as (base & ext & S). exists base, ext.
  exact (store_ok_set_op base ext [] mid_ctx (th_state done_thread) S).
Qed.

Lemma fs_slice_read_content_witness :
  read_content written (os_index mid_state) (op_bs_key (os_op mid_state))
    (bytes_of written (op_buffers (os_op mid_call))).
Proof.
  destruct mid_store as (base & ext & S).
  pose proof (fs_slice_read_content base ext [] mid_state S small_key eq_refl ltac:(discriminate)) as H.
  cbv zeta in H. rewrite mid_run in H. destruct H as (_ & H & _). exact (H written).
Defined.

Lemma read_after_write_witness :
  bytes_of (th_disk done_thread) (op_buffers (os_op mid_call)) = [5; 6; 7; 8; 9; 10; 11; 12].
Proof.
  rewrite (read_after_write 10 true 256 (λ _ m, m) 0 true id_blocked_used (λ _ _ H, H) eq_refl id_blocked_space
    small_base (λ _, 0) [] write_op small_ctx (small_thread []) after_call done_thread mid_ctx mid_call
    (small_request []) (small_store_ok []) small_call small_run); [reflexivity|vm_compute; reflexivity| |apply mid_run].
  split; [reflexivity|]. vm_compute. repeat split; discriminate.
Defined.

(** ** The read on the thread *)
Definition mid_thread : Thread (list OBSliceEntry) := set_state mid_call done_thread.
Definition mid_slice : OBSliceEntry := default read_slice (head (os_reads mid_call)).
Definition mid_buffer : AlignedReadBuffer := read_buffer written mid_slice.
Definition mid_done : OpState (list OBSliceEntry) :=
  state_of (do_read_done mid_slice 0 (fill_buffer 0 mid_buffer (set_reads [] mid_call))) mid_call.
Definition mid_done_thread : Thread (list OBSliceEntry) := set_state mid_done mid_thread.
Definition mid_stored : Thread (list OBSliceEntry) :=
  set_state (store_result read_op 0 (th_state mid_done_thread)) mid_done_thread.
Definition mid_end : Thread (list OBSliceEntry) := set_state (th_state mid_stored) (set_notify false mid_stored).
Lemma mid_steps : rtc (steps_of 10 true 256 (λ _ m, m) 0 true read_op)
  (PcIssued read_op 0, set_state mid_call done_thread) (PcFinish read_op, mid_end).
Proof.
  eapply rtc_l; [split; [|by left]|eapply rtc_l; [split; [apply step_store|by left]|eapply rtc_once; split; [|by right]]].
  - apply (step_read_done _ _ _ _ _ _ (PcIssued read_op 0) mid_thread 0 0 mid_slice mid_buffer 0 mid_done).
    + vm_compute. reflexivity.
    + lia.
    + vm_compute. reflexivity.
    + apply read_buffer_into. reflexivity.
    + vm_compute. reflexivity.
  - apply (step_wake _ _ _ _ _ _ read_op mid_stored (inr tt) (th_state mid_stored)); vm_compute; reflexivity.
Qed.
(** The slice lies in the middle of a block: the whole block is read. *)
Lemma mid_bytes : buffers_at (op_buffers (os_op (th_state mid_end))) = Some [mid_buffer] ∧
  ab_offset mid_buffer = 4 ∧ length (ab_buff mid_buffer) = 512%nat ∧
  buffers_data [mid_buffer] = [5; 6; 7; 8; 9; 10; 11; 12].
Proof. vm_compute. repeat split; reflexivity. Qed.
Lemma read_operation_refines_witness :
  op_done_bytes (os_op (th_state mid_end)) = 8 ∧ os_reads (th_state mid_end) = [] ∧
  (∃ base ext, store_ok base ext [] (os_index (th_state mid_end))) ∧
  read_content (th_disk done_thread) (os_index (th_state done_thread)) (op_bs_key mid_ctx) [5; 6; 7; 8; 9; 10; 11; 12].
Proof.
  destruct done_store as (base & ext & S). destruct mid_bytes as (B1 & _ & _ & B2).
  assert (Hd : op_done_bytes (os_op (th_state mid_end)) = 8) by (vm_compute; reflexivity).
  destruct (read_operation_refines 10 true 256 (λ _ m, m) 0 true base ext [] read_op mid_ctx done_thread mid_call
    mid_end) as (H1 & _ & _ & H2 & _ & _ & bufs & thw & H3 & _ & H4).
  - split; [reflexivity|]. split; [apply small_key|]. split; [reflexivity|]. split; [|split]; vm_compute; reflexivity.
  - exact S.
  - apply mid_run.
  - vm_compute. reflexivity.
  - apply mid_steps.
  - split; [exact Hd|]. split; [exact H1|]. split; [by exists base, ext|]. rewrite H3 in B1. injection B1 as ->.
    rewrite B2 in H4. apply H4. exact Hd.
Defined.
