(* ===== verification/StoreLog.v ===== *)
(** * Loading the slice binlog

    [src/server/binlog/slice_loader.c] after the parsing (which is in [Binlog.v]): the
    records of the buffers, in the order of the file, are distributed over the data threads
    by the hash code of their block, and every data thread applies its records to the
    object block index. The threads are a step relation: the main thread distributes and
    pushes, the data threads apply in any interleaving. *)
From stdpp Require Import sorting.
From S2P Require Import Prelude Types Skiplist ObSlices ObSlicesRun ObSlicesThms TrunkAllocator StorageAllocator StorageAllocSpec StorageAllocThms StorageAllocUsed ObSlicesMain ObIndex ObIndexSpec ObIndexOps ObIndexThms ObIndexMain Binlog BinlogSpec BinlogThms SliceOp StoreAlloc StoreWrite DataThread DataThreadThms.

(** [SLICE_ADD_TO_CHAIN], for the chain of data thread [i]. *)
Definition SLICE_ADD_TO_CHAIN (i : nat) (record : SliceBinlogRecord)
    (chains : list (list SliceBinlogRecord)) : list (list SliceBinlogRecord) :=
  alter (λ c, c ++ [record]) i chains.
(** The data thread of a record, of [count] threads. *)
Definition data_thread_of (count : nat) (record : SliceBinlogRecord) : nat :=
  Z.to_nat (bk_hash_code (bs_block (sr_bs_key record)) mod Z.of_nat count).
(** The loop of [waiting_and_process_parse_result] over the records of a parse thread. *)
Definition process_parse_result (count : nat) (slices : list SliceBinlogRecord)
    (chains : list (list SliceBinlogRecord)) : list (list SliceBinlogRecord) :=
  foldl (λ chains record, SLICE_ADD_TO_CHAIN (data_thread_of count record) record chains) chains slices.

Section Loader.
Context {T A : Type} `{!UniqSkiplist OBSliceEntry T} `{!SliceAccount A}.

Definition forget {B} (out : Outcome B) : Outcome unit :=
  match out with
  | Waits => Waits
  | Done (inl e) => Done (inl e)
  | Done (inr _) => Done (inr tt)
  end.

(** [slice_loader_deal_record]. *)
Definition slice_loader_deal_record (record : SliceBinlogRecord) : IM T A (Outcome unit) :=
  let op := sr_op_type record in
  let bs_key := sr_bs_key record in
  if (op =? BINLOG_OP_TYPE_WRITE_SLICE) || (op =? BINLOG_OP_TYPE_ALLOC_SLICE) then
    r ← ob_index_alloc_slice_ex (bs_block bs_key) 1;
    match r with
    | None => mret (Done (inl ENOMEM))
    | Some (id, ob) =>
        r ← ob_index_add_slice_by_binlog
              (mkSlice id ob (sr_slice_type record) (bs_slice bs_key) (sr_space record));
        mret (forget (Done r))
    end
  else if op =? BINLOG_OP_TYPE_DEL_SLICE then
    out ← ob_index_delete_slices_by_binlog bs_key; mret (forget out)
  else if op =? BINLOG_OP_TYPE_DEL_BLOCK then
    out ← ob_index_delete_block_by_binlog (bs_block bs_key); mret (forget out)
  else mret (Done (inr tt)).

(** [SliceLoaderContext]: the outputs of the parse threads that are still to be
    distributed, for each data thread its chain and its queue, the index, and
    [SF_G_CONTINUE_FLAG]. *)
Record SliceLoaderContext := mkLoader {
  ld_outputs : list (list SliceBinlogRecord);
  ld_chains : list (list SliceBinlogRecord);
  ld_queues : list (list SliceBinlogRecord);
  ld_index : Index T A;
  ld_continue : bool;
}.

(** The steps: the output of a parse thread is distributed; the chain of a data thread is
    pushed to its queue ([waiting_and_process_parse_outputs]; the source does so after a
    round of the parse threads, the relation allows it at any time); a data thread applies
    its next record ([deal_records]), and an error stops the server. A record whose block
    is being reclaimed would have to wait. *)
Inductive loader_step : SliceLoaderContext → SliceLoaderContext → Prop :=
  | step_distribute out outputs chains queues ix :
      loader_step (mkLoader (out :: outputs) chains queues ix true)
        (mkLoader outputs (process_parse_result (length queues) out chains) queues ix true)
  | step_push i c q outputs chains queues ix :
      chains !! i = Some c → queues !! i = Some q → c ≠ [] →
      loader_step (mkLoader outputs chains queues ix true)
        (mkLoader outputs (<[i := []]> chains) (<[i := q ++ c]> queues) ix true)
  | step_deal i record q outputs chains queues ix r ix' :
      queues !! i = Some (record :: q) →
      slice_loader_deal_record record ix = Some (Done r, ix') →
      loader_step (mkLoader outputs chains queues ix true)
        (match r with
         | inr _ => mkLoader outputs chains (<[i := q]> queues) ix' true
         | inl _ => mkLoader outputs chains queues ix' false
         end).

(** What [slice_loader_load] starts from, and when it is done. *)
Definition loader_start (count : nat) (outputs : list (list SliceBinlogRecord)) (ix : Index T A)
    : SliceLoaderContext :=
  mkLoader outputs (replicate count []) (replicate count []) ix true.
Definition loader_done (s : SliceLoaderContext) : Prop :=
  ld_outputs s = [] ∧ Forall (λ c, c = []) (ld_chains s) ∧ Forall (λ q, q = []) (ld_queues s).
End Loader.
Arguments SliceLoaderContext : clear implicits.

(** ** The index after a restart

    Abstractly a record of the slice binlog overlays or removes bytes of one block. Whatever
    the interleaving of the data threads, the loader ends with the index that applying the
    records in the order of the file gives. *)

(** ** The abstract store *)
Definition Store : Type := FSBlockKey → Z → option DiskLoc.
Definition is_add (r : SliceBinlogRecord) : bool :=
  (sr_op_type r =? BINLOG_OP_TYPE_WRITE_SLICE) || (sr_op_type r =? BINLOG_OP_TYPE_ALLOC_SLICE).
Definition record_block (r : SliceBinlogRecord) : FSBlockKey := bs_block (sr_bs_key r).
Definition record_slice (r : SliceBinlogRecord) : OBSliceEntry :=
  mkSlice 0 0 (sr_slice_type r) (bs_slice (sr_bs_key r)) (sr_space r).
Definition apply_record (r : SliceBinlogRecord) (M : Store) : Store := λ k b,
  if decide (k = record_block r) then
    if is_add r then if decide (covers (record_slice r) b) then Some (loc_at (record_slice r) b) else M k b
    else if sr_op_type r =? BINLOG_OP_TYPE_DEL_SLICE then
      if decide (extent_start (sr_bs_key r) <= b < extent_end (sr_bs_key r)) then None else M k b
    else if sr_op_type r =? BINLOG_OP_TYPE_DEL_BLOCK then None
    else M k b
  else M k b.
(** The records in the order of the file. *)
Definition replay (l : list SliceBinlogRecord) (M : Store) : Store := foldl (λ M r, apply_record r M) M l.
Definition empty_store : Store := λ _ _, None.

Lemma apply_other r M k b : k ≠ record_block r → apply_record r M k b = M k b.
Proof. intros Hk. unfold apply_record. by rewrite decide_False. Qed.
Lemma replay_app l1 l2 M : replay (l1 ++ l2) M = replay l2 (replay l1 M).
Proof. apply foldl_app. Qed.
Lemma apply_at r M M' k : (∀ b, M k b = M' k b) → ∀ b, apply_record r M k b = apply_record r M' k b.
Proof. intros H b. unfold apply_record. repeat case_match; done. Qed.
Lemma replay_at l M M' k : (∀ b, M k b = M' k b) → ∀ b, replay l M k b = replay l M' k b.
Proof.
  revert M M'. induction l as [|r l IH]; intros M M' H b; [done|]. simpl. by apply IH, apply_at.
Qed.
(** Only the records of a block matter for it. *)
Lemma replay_filter (P : SliceBinlogRecord → Prop) `{∀ r, Decision (P r)} l M k b :
  (∀ r, r ∈ l → record_block r = k → P r) → replay (filter P l) M k b = replay l M k b.
Proof.
  revert M. induction l as [|r l IH]; intros M Hl; [done|].
  assert (Hl' : ∀ r, r ∈ l → record_block r = k → P r) by (intros x Hx; apply Hl; by right).
  rewrite filter_cons. case_decide as Hr; simpl; [by apply IH|].
  rewrite IH by done. symmetry. apply replay_at. intros b'. apply apply_other. intros ->.
  by apply Hr, Hl; [left|].
Qed.
Lemma replay_congr l1 l2 l1' M k b :
  (∀ M b, replay l1 M k b = replay l1' M k b) → replay (l1 ++ l2) M k b = replay (l1' ++ l2) M k b.
Proof. intros H. rewrite !replay_app. by apply replay_at. Qed.
Lemma replay_mid l1 l2 l3 l2' M k b :
  (∀ M b, replay l2 M k b = replay l2' M k b) → replay (l1 ++ l2 ++ l3) M k b = replay (l1 ++ l2' ++ l3) M k b.
Proof. intros H. rewrite !(replay_app l1). by apply replay_congr. Qed.

Lemma total_len_0 l : Forall valid_slice l → total_len l = 0 → l = [].
Proof.
  intros Hv H. destruct Hv as [|sl l (_ & Hp & _) Hv]; [done|]. exfalso. unfold total_len in H.
  rewrite sumZ_cons in H. assert (0 <= sumZ slen l); [|lia]. apply sumZ_nonneg. intros x Hx.
  rewrite Forall_forall in Hv. destruct (Hv x Hx) as (_ & ? & _). lia.
Qed.

(** ** Distributing records *)
Definition thread_of (n : nat) k : nat := Z.to_nat (bk_hash_code k mod Z.of_nat n).
Lemma process_lookup n out chains i c :
  chains !! i = Some c →
  process_parse_result n out chains !! i = Some (c ++ filter (λ r, data_thread_of n r = i) out).
Proof.
  revert chains c. induction out as [|r out IH]; intros chains c Hc; cbn [process_parse_result foldl].
  { by rewrite app_nil_r. }
  change (foldl _ ?x out) with (process_parse_result n out x). unfold SLICE_ADD_TO_CHAIN.
  rewrite filter_cons. case_decide as Hi.
  - rewrite (IH _ (c ++ [r])); [by rewrite <- app_assoc|]. by rewrite Hi, list_lookup_alter_eq, Hc.
  - apply IH. by rewrite list_lookup_alter_ne.
Qed.
Lemma process_length n out chains : length (process_parse_result n out chains) = length chains.
Proof.
  revert chains. induction out as [|r out IH]; intros chains; [done|]. cbn [process_parse_result foldl].
  change (foldl _ ?x out) with (process_parse_result n out x). rewrite IH. apply length_alter.
Qed.
Lemma process_lookup_inv n out chains i c' :
  process_parse_result n out chains !! i = Some c' →
  ∃ c, chains !! i = Some c ∧ c' = c ++ filter (λ r, data_thread_of n r = i) out.
Proof.
  intros H. destruct (chains !! i) as [c|] eqn:E.
  - exists c. split; [done|]. rewrite (process_lookup _ _ _ _ _ E) in H. congruence.
  - apply lookup_ge_None in E. apply lookup_lt_Some in H. rewrite process_length in H. lia.
Qed.

Section Replay.
Context {T : Type} `{!UniqSkiplist OBSliceEntry T} `{!UniqSkiplistSpec slice_compare}.
Implicit Types (ix : Index T Mgr) (k : FSBlockKey) (p b : Z) (t : T) (r : SliceBinlogRecord)
  (base : Z → Z → Z) (ext : Z → Z) (M : Store).

Definition represents ix M : Prop := ∀ k b d, maps ix k b d ↔ M k b = Some d.
(** The store an index represents. *)
Definition store_of ix : Store := λ k b,
  if decide (key_ok k) then
    match chain_search (ix_obs ix) (ht_buckets (ix_htable ix) !! bucket_index (ix_htable ix) k) k with
    | Some (Some p, _) => e ← ix_obs ix !! p; lookup_byte (sl_level0 (ob_slices e)) b
    | _ => None
    end
  else None.
Lemma represents_store_of base ext ix : index_ok base ext ix → represents ix (store_of ix).
Proof using UniqSkiplistSpec0.
  intros I k b d. unfold store_of. destruct (decide (key_ok k)) as [Hk|Hk]; cycle 1.
  { split; [|done]. intros (p & c & t & (e & He & Hc)%lives_entry & _). exfalso. apply Hk.
    assert (Hek : ob_bkey e = k) by (unfold core in Hc; congruence). rewrite <- Hek. by eapply (iw_keys _ (io_wf _ _ _ I)). }
  destruct (get_ob_search_run base ext ix k I Hk) as (pre & post & r & _ & _ & Hs & _ & Hr).
  change (bucket_index (ix_htable ix) k) with (bucket_index (ix_htable ix) k) in Hs. rewrite Hs.
  destruct r as [p|].
  - destruct Hr as (e & _ & _ & He & Hke). rewrite He. simpl.
    by apply (maps_lives _ p k (ob_reclaiming_count e) (ob_slices e) b d (io_wf _ _ _ I) (found_entry_lives _ _ _ _ He Hke)).
  - split; [|done]. intros (p & c & t & L & _). by apply Hr in L.
Qed.

(** A record the server logged: of a block, with an extent, in a trunk that is known. *)
Definition record_ok ix r : Prop :=
  key_ok (record_block r) ∧
  (is_add r = true → valid_slice (record_slice r) ∧ known (ix_world ix) (record_slice r)) ∧
  (sr_op_type r = BINLOG_OP_TYPE_DEL_SLICE → 0 < ss_length (bs_slice (sr_bs_key r))).
(** Nothing of the extent or the block a record deletes is mapped. *)
Definition deletes_nothing r M : Prop :=
  is_add r = false ∧ ∀ b, apply_record r M (record_block r) b = M (record_block r) b.

(** What a loader's index looks like. *)
Record loaded base ix M : Prop := {
  lo_index : index_ok base (λ _, 0) ix;
  lo_maps : represents ix M;
  lo_idle : idle ix;
}.

Lemma record_ok_kept ix ix' r : space_mono (mgr_of ix) (mgr_of ix') → record_ok ix r → record_ok ix' r.
Proof using.
  intros Hs (H1 & H2 & H3). split_and!; [done| |done]. intros Ha. destruct (H2 Ha) as [V K].
  split; [done|]. by eapply mgr_used_mono.
Qed.

(** ** One record *)
Lemma add_by_binlog_run base ext ix sl k c t :
  index_ok base ext ix → lives ix (se_ob sl) k c t → valid_slice sl → known (ix_world ix) sl →
  0 < ext (se_id sl) →
  ∃ (res : Z + Z) ix', ob_index_add_slice_by_binlog sl ix = Some (res, ix') ∧ framed ix ix' ∧ (idle ix → idle ix') ∧
    match res with
    | inl e => e = ENOMEM
    | inr _ => index_ok base (λ id, ext id - occ id [sl]) ix' ∧ overlaid ix ix' k sl
    end.
Proof using UniqSkiplistSpec0.
  intros I Hl Hv Hk Hx. unfold ob_index_add_slice_by_binlog. rewrite ibind_flags.
  destruct (lives_block _ _ _ _ _ _ _ I Hl) as (Hwf & HkL & Hc).
  destruct (add_slice (ht_flags (ix_htable ix)) sl (t, ix_world ix)) as [[e|inc] [t' w']] eqn:E.
  - pose proof (add_slice_run (ht_flags (ix_htable ix)) sl t (ix_world ix) Hwf Hv Hk HkL) as Hrun.
    rewrite E in Hrun. destruct Hrun as (Hmem & -> & -> & Hup).
    destruct (on_slices_run (add_slice (ht_flags (ix_htable ix)) sl) ix _ k c t _ _ _
      (io_wf _ _ _ I) Hl E) as (ix1 & Eq & W1 & Hb & _). exists (inl ENOMEM), ix1. split; [done|].
    assert (Hf : framed ix ix1) by (eapply (frames_on_slices _ _ (add_slice_goes _ _)); exact Eq).
    split; [done|]. split; [|done]. intros Hi q k1 c1 t1 H1. apply Hb in H1. case_decide; [|by eapply Hi].
    destruct H1 as (-> & -> & ->). by eapply Hi.
  - destruct (add_slice_changes base ext ix sl _ k c t inc t' w' I Hl eq_refl Hv Hk E)
      as (ix1 & Eq & Hok & Hp1 & _ & Hb & _ & _ & _ & Hlk & _).
    assert (I1 : index_ok base (λ id, ext id - occ id [sl]) ix1).
    { replace ix1 with (set_world (ix_world ix1) ix1) by (by destruct ix1).
      apply (index_ok_ext _ _ (λ id, ext id - occ id [sl] + 0)); [intros; lia|]. apply Hok; [done|intros; lia|done|].
      intros id. pose proof (io_ext _ _ _ I id). rewrite occ_cons, occ_nil. destruct (Z.eqb_spec (se_id sl) id) as [<-|]; lia. } exists (inr inc), ix1. split; [done|].
    assert (Hf : framed ix ix1) by (eapply (frames_on_slices _ _ (add_slice_goes _ _)); exact Eq).
    split; [done|]. split_and!; [|done|by eapply changed_overlaid; [apply I|apply I1|..]].
    intros Hi q k1 c1 t1 H1. apply Hb in H1. case_decide; [|by eapply Hi].
    destruct H1 as (-> & -> & ->). by eapply Hi.
Qed.

(** What dealing a record does. *)
Definition deal_outcome base ix r M (res : Z + unit) ix' : Prop :=
  same_space (mgr_of ix) (mgr_of ix') ∧
  match res with
  | inr _ => loaded base ix' (apply_record r M)
  | inl e => e = ENOMEM ∨ e = ENOENT ∧ deletes_nothing r M
  end.

Lemma represents_overlaid ix ix' M r sl :
  represents ix M → overlaid ix ix' (record_block r) sl → is_add r = true →
  (∀ b, covers sl b ↔ covers (record_slice r) b) → (∀ b, loc_at sl b = loc_at (record_slice r) b) →
  represents ix' (apply_record r M).
Proof using.
  intros R O Ha Hc Hl k b d. rewrite (O k b d). unfold apply_record. rewrite Ha.
  destruct (decide (k = record_block r)) as [->|Hne].
  - destruct (decide (covers (record_slice r) b)) as [Hb|Hb].
    + rewrite decide_True by (split; [done|by apply Hc]). rewrite Hl. split; [by intros ->|by intros [= ->]].
    + rewrite decide_False by (intros [_ ?]; by apply Hb, Hc). apply R.
  - rewrite decide_False by (by intros [? _]). apply R.
Qed.
Lemma deal_add_run base ix r M :
  loaded base ix M → record_ok ix r → is_add r = true →
  ∃ res ix', slice_loader_deal_record r ix = Some (Done res, ix') ∧ deal_outcome base ix r M res ix'.
Proof using UniqSkiplistSpec0.
  intros [I R Hi] (Hk & Hadd & _) Ha. destruct (Hadd Ha) as [V K].
  unfold slice_loader_deal_record. cbv zeta. fold (is_add r). rewrite Ha.
  destruct (alloc_slice_index base _ ix _ I Hk) as (o & ix1 & E1 & A1 & H1).
  change (bs_block (sr_bs_key r)) with (record_block r). rewrite (ibind_run _ _ _ _ _ E1).
  destruct o as [[id p]|].
  2:{ eexists _, ix1. split; [done|]. split; [apply A1|]. by left. }
  destruct H1 as (I1 & c & t & L1).
  set (sl := mkSlice id p (sr_slice_type r) (bs_slice (sr_bs_key r)) (sr_space r)).
  assert (Hid : ext_new id (λ _, 0) (se_id sl) = 1) by (unfold ext_new; simpl; by rewrite decide_True).
  destruct (add_by_binlog_run base _ ix1 sl (record_block r) c t I1 L1) as (res & ix2 & E2 & F2 & Hi2 & H2).
  { exact V. }
  { exact (mgr_used_mono _ _ _ _ (kp_space _ _ (al_kept _ _ A1)) K). }
  { rewrite Hid. lia. }
  rewrite (ibind_run _ _ _ _ _ E2).
  assert (Hs : same_space (mgr_of ix) (mgr_of ix2)) by (etransitivity; [apply A1|by apply framed_space]).
  destruct res as [e|inc].
  { exists (inl e), ix2. split; [done|]. split; [done|]. by left. }
  exists (inr tt), ix2. split; [done|]. split; [done|]. destruct H2 as [I2 O2]. split.
  - eapply index_ok_ext; [|exact I2]. intros i. simpl. unfold ext_new. rewrite occ_cons, occ_nil. simpl.
    case_decide as Hd; [subst i; rewrite Z.eqb_refl; lia|].
    destruct (Z.eqb_spec id i); [congruence|lia].
  - apply (represents_overlaid ix1 ix2 M r sl); try done. intros k b d. rewrite (al_maps _ _ A1 k b d). apply R.
  - by apply Hi2, A1.
Qed.


Lemma deal_delete_slices_run base ix r M :
  loaded base ix M → record_ok ix r → sr_op_type r = BINLOG_OP_TYPE_DEL_SLICE →
  ∃ res ix', slice_loader_deal_record r ix = Some (Done res, ix') ∧ deal_outcome base ix r M res ix'.
Proof using UniqSkiplistSpec0.
  intros [I R Hi] (Hk & _ & Hdel) Ho. specialize (Hdel Ho).
  assert (Ha : is_add r = false) by (unfold is_add; by rewrite Ho).
  assert (Hap : ∀ k b, apply_record r M k b = if decide (k = record_block r) then
    if decide (extent_start (sr_bs_key r) <= b < extent_end (sr_bs_key r)) then None else M k b else M k b).
  { intros k b. unfold apply_record. by rewrite Ha, Ho. }
  unfold slice_loader_deal_record. cbv zeta. fold (is_add r). rewrite Ha, Ho. cbn [Z.eqb].
  destruct (ob_index_delete_slices_ex_run base _ ix (sr_bs_key r) false false I Hk Hdel) as (out & ix1 & E & Hw & H).
  pose proof (framed_space _ _ (frames_delete_slices _ _ _ _ _ _ E)) as Hs.
  change (BINLOG_OP_TYPE_DEL_SLICE =? BINLOG_OP_TYPE_DEL_SLICE) with true. cbn iota.
  unfold ob_index_delete_slices_by_binlog. rewrite (ibind_run _ _ _ _ _ E).
  destruct out as [|[e|[dec n]]].
  { exfalso. destruct (proj1 Hw eq_refl) as (_ & p & c & t & L & Hc). rewrite (Hi _ _ _ _ L) in Hc. lia. }
  - exists (inl e), ix1. split; [done|]. split; [done|]. destruct H as (_ & He & _).
    destruct He as [[-> _]|[-> Hn]]; [by left|right]. split; [done|]. split; [done|]. intros b.
    rewrite Hap, decide_True by done. case_decide as Hb; [|done].
    destruct (M (record_block r) b) as [d|] eqn:E1; [|done]. apply R in E1 as (p & c & t & L & Hl).
    by rewrite (Hn _ _ _ _ L Hb) in Hl.
  - exists (inr tt), ix1. split; [done|]. split; [done|]. destruct H as (p & c & t & t' & L & I1 & Hb & _ & Hl & _).
    split; [done| |by eapply block_after_idle].
    intros k b d. rewrite (block_after_maps _ _ _ _ _ _ _ (io_wf _ _ _ I) L Hb), Hap.
    destruct (decide (k = record_block r)) as [->|Hne].
    + rewrite decide_True by done. rewrite Hl. case_decide; [done|].
      rewrite <- (R _ b d). by rewrite (maps_lives _ _ _ _ _ _ _ (io_wf _ _ _ I) L).
    + rewrite decide_False by done. apply R.
Qed.

Lemma deal_delete_block_run base ix r M :
  loaded base ix M → record_ok ix r → sr_op_type r = BINLOG_OP_TYPE_DEL_BLOCK →
  ∃ res ix', slice_loader_deal_record r ix = Some (Done res, ix') ∧ deal_outcome base ix r M res ix'.
Proof using UniqSkiplistSpec0.
  intros [I R Hi] (Hk & _ & _) Ho.
  assert (Ha : is_add r = false) by (unfold is_add; by rewrite Ho).
  assert (Hap : ∀ k b, apply_record r M k b = if decide (k = record_block r) then None else M k b).
  { intros k b. unfold apply_record. by rewrite Ha, Ho. }
  unfold slice_loader_deal_record. cbv zeta. fold (is_add r). rewrite Ha, Ho.
  change (BINLOG_OP_TYPE_DEL_BLOCK =? BINLOG_OP_TYPE_DEL_SLICE) with false.
  change (BINLOG_OP_TYPE_DEL_BLOCK =? BINLOG_OP_TYPE_DEL_BLOCK) with true. cbn iota.
  destruct (ob_index_delete_block_ex_run base _ ix (record_block r) false false I Hk) as (out & ix1 & E & I1 & Hw & H).
  pose proof (framed_space _ _ (frames_delete_block _ _ _ _ _ _ E)) as Hs.
  unfold ob_index_delete_block_by_binlog. change (bs_block (sr_bs_key r)) with (record_block r).
  rewrite (ibind_run _ _ _ _ _ E). destruct out as [|res].
  { exfalso. destruct (proj1 Hw eq_refl) as (_ & p & c & t & L & Hc). rewrite (Hi _ _ _ _ L) in Hc. lia. }
  destruct H as [Hlv H]. destruct res as [e|[dec n]].
  - exists (inl e), ix1. split; [done|]. split; [done|]. destruct H as [-> Hn]. right. split; [done|]. split; [done|].
    intros b. rewrite Hap, decide_True by done.
    destruct (M (record_block r) b) as [d|] eqn:E1; [|done]. apply R in E1 as (p & c & t & L & Hl).
    destruct (lives_block _ _ _ _ _ _ _ I L) as (Hwf & _ & _).
    apply lookup_byte_Some in Hl as (sl & Hsl & _ & _); [|done]. exfalso.
    rewrite (total_len_0 _ (proj2 Hwf) (Hn _ _ _ L)) in Hsl. by apply elem_of_nil in Hsl.
  - exists (inr tt), ix1. split; [done|]. split; [done|]. split; [done| |].
    + intros k b d. rewrite Hap. unfold maps. setoid_rewrite Hlv. case_decide as Hkk.
      * split; [|done]. intros (p & c & t & [? _] & _). done.
      * rewrite <- (R k b d). unfold maps. split; intros (p & c & t & Hx & Hy); exists p, c, t; tauto.
    + intros q k1 c1 t1 H1. apply Hlv in H1. by eapply Hi, H1.
Qed.

(** Every record can be dealt with, and does what it says. *)
Lemma deal_record_run base ix r M :
  loaded base ix M → record_ok ix r →
  ∃ res ix', slice_loader_deal_record r ix = Some (Done res, ix') ∧ deal_outcome base ix r M res ix'.
Proof using UniqSkiplistSpec0.
  intros L Hr. destruct (is_add r) eqn:Ha; [by apply deal_add_run|].
  destruct (Z.eq_dec (sr_op_type r) BINLOG_OP_TYPE_DEL_SLICE); [by apply deal_delete_slices_run|].
  destruct (Z.eq_dec (sr_op_type r) BINLOG_OP_TYPE_DEL_BLOCK); [by apply deal_delete_block_run|].
  exists (inr tt), ix. split.
  - unfold slice_loader_deal_record. cbv zeta. fold (is_add r). rewrite Ha.
    by rewrite !(proj2 (Z.eqb_neq _ _)) by done.
  - split; [done|]. destruct L as [I R Hi]. split; [done| |done]. intros k b d. rewrite (R k b d).
    unfold apply_record. rewrite Ha, !(proj2 (Z.eqb_neq _ _)) by done. by case_decide.
Qed.

(** ** All records *)

(** What is still to be done for the blocks of data thread [i] is the rest of the file. *)
Record loader_inv base n M0 file (s : SliceLoaderContext T Mgr) : Prop := {
  li_len : length (ld_chains s) = n ∧ length (ld_queues s) = n;
  li_outputs : ∀ r, r ∈ concat (ld_outputs s) → record_ok (ld_index s) r;
  li_chains : ∀ i c r, ld_chains s !! i = Some c → r ∈ c → data_thread_of n r = i ∧ record_ok (ld_index s) r;
  li_queues : ∀ i q r, ld_queues s !! i = Some q → r ∈ q → data_thread_of n r = i ∧ record_ok (ld_index s) r;
  li_data : ld_continue s = true → ∃ M, loaded base (ld_index s) M ∧ ∀ k b q c,
    ld_queues s !! thread_of n k = Some q → ld_chains s !! thread_of n k = Some c →
    replay (q ++ c ++ concat (ld_outputs s)) M k b = replay file M0 k b;
}.

Lemma loader_inv_start base n M0 outputs ix :
  loaded base ix M0 → (∀ r, r ∈ concat outputs → record_ok ix r) →
  loader_inv base n M0 (concat outputs) (loader_start n outputs ix).
Proof using.
  intros L Hr. split; simpl; try done.
  - by rewrite !length_replicate.
  - intros i c r [-> _]%lookup_replicate ?%elem_of_nil. done.
  - intros i c r [-> _]%lookup_replicate ?%elem_of_nil. done.
  - intros _. exists M0. split; [done|]. by intros k b q c [-> _]%lookup_replicate [-> _]%lookup_replicate.
Qed.

Lemma loader_inv_step base n M0 file s s' :
  loader_inv base n M0 file s → loader_step s s' → loader_inv base n M0 file s'.
Proof using UniqSkiplistSpec0.
  intros [[I1 I1'] I2 I3 I4 I5] Hst. destruct Hst as [out outputs chains queues ix
    |i c q outputs chains queues ix Hc Hq Hne|i r q outputs chains queues ix res ix' Hq E];
    simpl in *; destruct (I5 eq_refl) as (M & L & HM).
  - rewrite I1' in *. split; simpl.
    + by rewrite process_length.
    + intros r Hr. apply I2, elem_of_app. by right.
    + intros i c' r (c & Hc & ->)%process_lookup_inv [Hr|Hr]%elem_of_app; [by eapply I3|].
      apply list_elem_of_filter in Hr as [Hi Hr]. split; [done|]. apply I2, elem_of_app. by left.
    + done.
    + intros _. exists M. split; [done|]. intros k b q c' Hq (c & Hc & ->)%process_lookup_inv.
      rewrite <- (HM k b q c Hq Hc), <- app_assoc, !app_assoc, <- !(app_assoc (q ++ c)).
      apply (replay_mid (q ++ c)). intros M' b'. apply replay_filter.
      intros r _ Hk. unfold data_thread_of. fold (record_block r). by rewrite Hk.
  - split; simpl.
    + by rewrite !length_insert.
    + done.
    + intros j c' r Hj Hr. destruct (decide (j = i)) as [->|Hji].
      * rewrite list_lookup_insert_eq in Hj by (by eapply lookup_lt_Some). injection Hj as <-.
        by apply elem_of_nil in Hr.
      * rewrite list_lookup_insert_ne in Hj by done. by eapply I3.
    + intros j q' r Hj Hr. destruct (decide (j = i)) as [->|Hji].
      * rewrite list_lookup_insert_eq in Hj by (by eapply lookup_lt_Some). injection Hj as <-.
        apply elem_of_app in Hr as [Hr|Hr]; [by eapply I4|by eapply I3].
      * rewrite list_lookup_insert_ne in Hj by done. by eapply I4.
    + intros _. exists M. split; [done|]. intros k b q' c' Hq' Hc'. destruct (decide (thread_of n k = i)) as [Ek|Hk].
      * rewrite Ek, list_lookup_insert_eq in Hq', Hc' by (by eapply lookup_lt_Some).
        injection Hq' as <-. injection Hc' as <-. rewrite <- app_assoc. rewrite <- Ek in Hq, Hc. by apply HM.
      * rewrite list_lookup_insert_ne in Hq', Hc' by done. by apply HM.
  - assert (Hr : data_thread_of n r = i ∧ record_ok ix r) by (eapply I4; [exact Hq|by left]).
    destruct Hr as [Hi Hr]. destruct (deal_record_run base ix r M L Hr) as (res' & ix2 & E' & Hs & H).
    rewrite E in E'. injection E' as -> ->. apply same_space_mono in Hs. destruct res' as [e|[]]; split; simpl.
    + done.
    + intros r' H'. eapply record_ok_kept; [done|by apply I2].
    + intros j c r' Hj H'. destruct (I3 j c r' Hj H'). split; [done|]. by eapply record_ok_kept.
    + intros j q' r' Hj H'. destruct (I4 j q' r' Hj H'). split; [done|]. by eapply record_ok_kept.
    + done.
    + by rewrite length_insert.
    + intros r' H'. eapply record_ok_kept; [done|by apply I2].
    + intros j c r' Hj H'. destruct (I3 j c r' Hj H'). split; [done|]. by eapply record_ok_kept.
    + intros j q' r' Hj H'. assert (Hin : ∃ q0, queues !! j = Some q0 ∧ r' ∈ q0).
      { destruct (decide (j = i)) as [->|Hji].
        - rewrite list_lookup_insert_eq in Hj by (by eapply lookup_lt_Some). injection Hj as <-.
          eexists. split; [exact Hq|]. by right.
        - rewrite list_lookup_insert_ne in Hj by done. eauto. }
      destruct Hin as (q0 & Hq0 & Hr'). destruct (I4 j q0 r' Hq0 Hr'). split; [done|]. by eapply record_ok_kept.
    + intros _. exists (apply_record r M). split; [done|]. intros k b q' c' Hq' Hc'.
      destruct (decide (thread_of n k = i)) as [Ek|Hk].
      * rewrite Ek, list_lookup_insert_eq in Hq' by (by eapply lookup_lt_Some). injection Hq' as <-.
        rewrite <- Ek in Hq. by rewrite <- (HM k b _ _ Hq Hc').
      * rewrite list_lookup_insert_ne in Hq' by done. rewrite <- (HM k b _ _ Hq' Hc').
        apply replay_at. intros b'. apply apply_other. intros ->. by apply Hk.
Qed.

Lemma loader_inv_reach base n M0 outputs ix s :
  loaded base ix M0 → (∀ r, r ∈ concat outputs → record_ok ix r) →
  rtc loader_step (loader_start n outputs ix) s → loader_inv base n M0 (concat outputs) s.
Proof using UniqSkiplistSpec0.
  intros L Hr Hst. pose proof (loader_inv_start base n M0 outputs ix L Hr) as I.
  remember (loader_start n outputs ix) as s0 eqn:E0. clear E0. induction Hst as [|s0 s1 s2 H1 _ IH]; [done|].
  apply IH. by eapply loader_inv_step.
Qed.
Lemma thread_of_lt n k : (0 < n)%nat → (thread_of n k < n)%nat.
Proof using. intros Hn. unfold thread_of. pose proof (Z.mod_pos_bound (bk_hash_code k) (Z.of_nat n)). lia. Qed.

(** C11: whatever the interleaving of the data threads, a load that comes to its end has
    rebuilt the index that applying the records one after the other in the order of the
    file gives: every byte is mapped as the last record about it says, no reference is
    left over, and no block is marked as being reclaimed. *)
Theorem slice_loader_refines base n M0 outputs ix s :
  (0 < n)%nat → loaded base ix M0 → (∀ r, r ∈ concat outputs → record_ok ix r) →
  rtc loader_step (loader_start n outputs ix) s → ld_continue s = true → loader_done s →
  loaded base (ld_index s) (replay (concat outputs) M0).
Proof using UniqSkiplistSpec0.
  intros Hn L Hr Hst Hc (Ho & Hch & Hqu). destruct (loader_inv_reach _ _ _ _ _ _ L Hr Hst) as [[H1 H2] _ _ _ H5].
  destruct (H5 Hc) as (M & [I R Hi] & HM). split; [done| |done]. intros k b d. rewrite (R k b d).
  pose proof (thread_of_lt n k Hn) as Ht. rewrite Forall_lookup in Hch, Hqu.
  destruct (lookup_lt_is_Some_2 (ld_queues s) (thread_of n k)) as [q Hq]; [by rewrite H2|].
  destruct (lookup_lt_is_Some_2 (ld_chains s) (thread_of n k)) as [c Hcc]; [by rewrite H1|].
  specialize (HM k b q c Hq Hcc). rewrite (Hqu _ _ Hq), (Hch _ _ Hcc), Ho in HM. simpl in HM. by rewrite HM.
Qed.

(** How far a load is. *)
Definition load_measure (s : SliceLoaderContext T Mgr) : nat :=
  (sum_list ((λ o, 1 + 3 * length o) <$> ld_outputs s) + 2 * length (concat (ld_chains s)) +
   length (concat (ld_queues s)) + if ld_continue s then 1 else 0)%nat.
Lemma length_concat_alter i (x : SliceBinlogRecord) (l : list (list SliceBinlogRecord)) :
  (length (concat (alter (λ c, c ++ [x]) i l)) <= S (length (concat l)))%nat.
Proof using.
  revert i. induction l as [|c l IH]; intros [|i]; [simpl; lia..| |].
  - change (alter _ 0%nat (c :: l)) with ((c ++ [x]) :: l). simpl. rewrite !length_app. simpl. lia.
  - change (alter ?f (S i) (c :: l)) with (c :: alter f i l). simpl. rewrite !length_app. specialize (IH i). lia.
Qed.
Lemma length_process n out chains :
  (length (concat (process_parse_result n out chains)) <= length out + length (concat chains))%nat.
Proof using.
  revert chains. induction out as [|r out IH]; intros chains; [done|]. cbn [process_parse_result foldl length].
  change (foldl _ ?x out) with (process_parse_result n out x).
  pose proof (length_concat_alter (data_thread_of n r) r chains). specialize (IH (SLICE_ADD_TO_CHAIN (data_thread_of n r) r chains)).
  unfold SLICE_ADD_TO_CHAIN in *. lia.
Qed.
Lemma length_concat_insert i (c x : list SliceBinlogRecord) (l : list (list SliceBinlogRecord)) :
  l !! i = Some c → (length (concat (<[i := x]> l)) + length c = length (concat l) + length x)%nat.
Proof using.
  revert i. induction l as [|y l IH]; intros [|i]; simpl; try done.
  - intros [= ->]. rewrite !length_app. lia.
  - intros H. specialize (IH i H). change (<[S i := x]> (y :: l)) with (y :: <[i := x]> l). simpl.
    rewrite !length_app. lia.
Qed.
Lemma load_measure_step s s' : loader_step s s' → (load_measure s' < load_measure s)%nat.
Proof using.
  intros [out outputs chains queues ix|i c q outputs chains queues ix Hc Hq Hne|i r q outputs chains queues ix res ix' Hq E];
    unfold load_measure; cbn [ld_outputs ld_chains ld_queues ld_continue].
  - pose proof (length_process (length queues) out chains). rewrite fmap_cons. change (sum_list (?a :: ?l)) with (a + sum_list l)%nat. lia.
  - pose proof (length_concat_insert i c [] chains Hc). pose proof (length_concat_insert i q (q ++ c) queues Hq).
    rewrite length_app in *. destruct c; [done|]. simpl in *. lia.
  - pose proof (length_concat_insert i _ q queues Hq) as H. simpl in H. destruct res; simpl; lia.
Qed.

(** C37: a load always comes to an end: every step brings it nearer, as long as it is not
    done and no error occurred there is a step, and the only errors are a lack of memory and
    the deletion of what is not there. *)
Theorem slice_loader_progress base n M0 outputs ix s :
  loaded base ix M0 → (∀ r, r ∈ concat outputs → record_ok ix r) →
  rtc loader_step (loader_start n outputs ix) s →
  (ld_continue s = true → loader_done s ∨ ∃ s', loader_step s s') ∧
  ∀ s', loader_step s s' → (load_measure s' < load_measure s)%nat ∧
    (ld_continue s' = false → ∃ r e, slice_loader_deal_record r (ld_index s) = Some (Done (inl e), ld_index s') ∧
      (e = ENOMEM ∨ e = ENOENT ∧ ∃ M, represents (ld_index s) M ∧ deletes_nothing r M)).
Proof using UniqSkiplistSpec0.
  intros L Hr Hst. pose proof (loader_inv_reach _ _ _ _ _ _ L Hr Hst) as I.
  pose proof I as [[H1 H2] _ _ H4 H5]. split.
  - intros Hc. destruct (H5 Hc) as (M & LM & HM). destruct s as [outputs' chains queues ix' cont]. simpl in *. subst cont.
    destruct outputs' as [|out outputs']; [|right; eexists; apply step_distribute].
    destruct (decide (Forall (λ c, c = []) chains)) as [Hch|Hch].
    + destruct (decide (Forall (λ q, q = []) queues)) as [Hqu|Hqu]; [by left|right].
      apply not_Forall_Exists in Hqu; [|apply _]. apply Exists_exists in Hqu as (q & Hq & Hne).
      destruct q as [|r q]; [by destruct Hne|]. apply list_elem_of_lookup in Hq as [i Hq].
      destruct (H4 i _ r Hq) as [_ Hok]; [by left|].
      destruct (deal_record_run base ix' r M LM Hok) as (res & ix2 & E & _). eexists. by eapply step_deal.
    + right. apply not_Forall_Exists in Hch; [|apply _]. apply Exists_exists in Hch as (c & Hc' & Hne).
      apply list_elem_of_lookup in Hc' as [i Hi].
      destruct (lookup_lt_is_Some_2 queues i) as [q Hq]; [rewrite H2, <- H1; by eapply lookup_lt_Some|].
      eexists. by eapply step_push.
  - intros s' Hs. split; [by apply load_measure_step|]. intros Hf.
    destruct Hs as [out outputs' chains queues ix'|i c q outputs' chains queues ix' Hc Hq Hne
      |i r q outputs' chains queues ix' res ix2 Hq E]; [done..|].
    destruct res as [e|]; [|done]. simpl in *. destruct (H5 eq_refl) as (M & LM & HM).
    destruct (H4 i _ r Hq) as [_ Hok]; [by left|].
    destruct (deal_record_run base ix' r M LM Hok) as (res & ix3 & E' & _ & H).
    rewrite E in E'. injection E' as <- <-. exists r, e. split; [done|].
    destruct H as [->|[-> Hn]]; [by left|right]. split; [done|]. exists M. split; [apply LM|done].
Qed.
End Replay.

(** ** What is logged is what happened

    The records an update leaves in the slice binlog, read back by the loader, give the
    index the server has: a restart loses nothing that was logged. *)

(** The line of an event. *)
Definition logged (wb : WriterBuffer) (ev : SliceEvent) : Prop :=
  ∃ t sn dv src, log_event ev t sn dv src true = inr wb.
(** Events and the records the loader reads for them. *)
Definition read_back (evs : list SliceEvent) (records : list SliceBinlogRecord) : Prop :=
  Forall2 record_of evs records.

Lemma record_of_add k sl r :
  record_of (EvAddSlice k sl) r →
  is_add r = true ∧ record_block r = k ∧ (∀ b, covers (record_slice r) b ↔ covers sl b) ∧
  ∀ b, loc_at (record_slice r) b = loc_at sl b.
Proof. simpl. intros ->. unfold is_add. simpl. split_and!; [by destruct (se_type sl)|done|done|done]. Qed.
Lemma apply_add k sl r (M : Store) k' b :
  record_of (EvAddSlice k sl) r →
  apply_record r M k' b = if decide (k' = k ∧ covers sl b) then Some (loc_at sl b) else M k' b.
Proof.
  intros (Ha & Hk & Hc & Hl)%record_of_add. unfold apply_record. rewrite Ha, Hk.
  destruct (decide (k' = k)) as [->|Hne].
  - destruct (decide (covers sl b)) as [Hb|Hb].
    + rewrite decide_True by (by apply Hc). by rewrite decide_True, Hl.
    + rewrite decide_False by (by intros ?%Hc). by rewrite decide_False by (by intros [_ ?]).
  - by rewrite decide_False by (by intros [? _]).
Qed.

Section Log.
Context {T : Type} `{!UniqSkiplist OBSliceEntry T} `{!UniqSkiplistSpec slice_compare}.
Implicit Types (s : OpState T) (ix : Index T Mgr) (k : FSBlockKey) (b : Z) (sl : OBSliceEntry)
  (base : Z → Z → Z) (ext : Z → Z) (R : list OBSliceEntry) (M : Store) (l : list FSSliceSNPair).

(** ** Replaying the slices of a write *)
Definition add_events k l : list SliceEvent := (λ p, EvAddSlice k (pr_slice p)) <$> l.
Lemma replay_adds k l records M k' b o e :
  read_back (add_events k l) records → tiles o (pr_slice <$> l) e → ∀ d,
  replay records M k' b = Some d ↔
    (k' = k ∧ in_slices (pr_slice <$> l) b d) ∨
    ¬ (k' = k ∧ ∃ sl, sl ∈ pr_slice <$> l ∧ covers sl b) ∧ M k' b = Some d.
Proof using.
  unfold read_back, add_events. revert records M o. induction l as [|p l IH]; intros records M o Hr Ht d.
  { inversion Hr; subst. simpl. split.
    - intros Hm. right. split; [|done]. by intros [_ (sl & ?%elem_of_nil & _)].
    - intros [[_ (sl & ?%elem_of_nil & _)]|[_ ?]]; done. }
  rewrite fmap_cons in Hr. rewrite fmap_cons in Ht. apply Forall2_cons_inv_l in Hr as (r & records' & Hr & Hrs & ->).
  cbn [replay foldl]. change (foldl _ ?x records') with (replay records' x). pose proof Ht as (_ & _ & Ht').
  rewrite (IH _ _ _ Hrs Ht'), (apply_add _ _ _ _ _ _ Hr), fmap_cons. unfold in_slices. split.
  - intros [(-> & x & Hx & Hc & ->)|[Hn Hm]].
    + left. split; [done|]. exists x. split_and!; [by right|done|done].
    + case_decide as Hd.
      * destruct Hd as [-> Hd]. injection Hm as <-. left. split; [done|]. exists (pr_slice p). split_and!; [by left|done|done].
      * right. split; [|done]. intros (-> & x & [->|Hx]%elem_of_cons & Hc); [by apply Hd|].
        apply Hn. split; [done|]. by exists x.
  - intros [(-> & x & [->|Hx]%elem_of_cons & Hc & ->)|[Hn Hm]].
    + right. split; [|by rewrite decide_True].
      intros (_ & y & Hy & Hcy). pose proof (tiles_bounds _ _ _ y Ht' Hy). unfold covers, send in *. lia.
    + left. split; [done|]. by exists x.
    + right. split.
      * intros (-> & x & Hx & Hc). apply Hn. split; [done|]. exists x. split; [by right|done].
      * rewrite decide_False; [done|]. intros [-> Hc]. apply Hn. split; [done|]. exists (pr_slice p).
        split; [by left|done].
Qed.
Lemma overlaid_all_replay ix ix' k l records M o e :
  overlaid_all ix ix' k (pr_slice <$> l) → tiles o (pr_slice <$> l) e → represents ix M →
  read_back (add_events k l) records → represents ix' (replay records M).
Proof using.
  intros O Ht R Hr k' b d. rewrite (O k' b d), (replay_adds k l records M k' b o e Hr Ht d). by rewrite (R k' b d).
Qed.
Lemma same_maps_represents ix ix' M : same_maps ix ix' → represents ix M → represents ix' M.
Proof using. intros H R k b d. rewrite (H k b d). apply R. Qed.

(** ** Logging *)
Variable (now : Z).
(** Only memory was asked for and records were logged. *)
Record logs_only s s' (wbs : list WriterBuffer) : Prop := {
  lg_index : mem_only (os_index s) (os_index s');
  lg_op : os_op s' = os_op s;
  lg_log : os_slice_log s' = os_slice_log s ++ wbs;
  lg_io : os_writes s' = os_writes s ∧ os_reads s' = os_reads s ∧ os_callbacks s' = os_callbacks s;
}.
Lemma logs_only_trans s1 s2 s3 w1 w2 : logs_only s1 s2 w1 → logs_only s2 s3 w2 → logs_only s1 s3 (w1 ++ w2).
Proof using.
  intros [I1 O1 L1 (W1 & R1 & C1)] [I2 O2 L2 (W2 & R2 & C2)].
  split; [by etransitivity|congruence|by rewrite L2, L1, app_assoc|]. split_and!; congruence.
Qed.

Lemma push_slice_log_run ev t sn dv src s :
  ∃ r s', push_slice_log (log_event ev t sn dv src) s = Ret r s' ∧
    match r with
    | inr _ => ∃ wb, logged wb ev ∧ logs_only s s' [wb]
    | inl e => e = ENOMEM ∧ logs_only s s' []
    end.
Proof using.
  destruct (oalloc_run s) as (ok & ix & E & Hm & _). unfold push_slice_log. rewrite (obind_ret _ _ _ _ _ E).
  destruct ok.
  - rewrite log_event_fields. eexists _, _. split; [done|]. eexists. split; [exists t, sn, dv, src; apply log_event_fields|].
    by split.
  - assert (El : log_event ev t sn dv src false = inl ENOMEM) by (by destruct ev). rewrite El.
    eexists _, _. split; [done|]. split; [done|]. split; [done|done| |done]. simpl. by rewrite app_nil_r.
Qed.
Lemma log_replica_run op blk s :
  ∃ r s', log_replica now op blk s = Ret r s' ∧ logs_only s s' [] ∧ r ≠ inl 0.
Proof using.
  unfold log_replica. rewrite ofield_run. change (id (os_op s)) with (os_op s).
  assert (Hself : logs_only s s []) by (split; [reflexivity|done|by rewrite app_nil_r|done]).
  destruct (op_log_replica (os_op s)); [|by exists (inr tt), s].
  destruct (oalloc_run s) as (ok & ix & E & Hm & _). unfold push_replica_log. rewrite (obind_ret _ _ _ _ _ E).
  assert (Hne : ∀ m, (m = inl ENOMEM ∨ ∃ wb, m = inr wb) → ∃ r s', (match m with
      | inl e => ofail e
      | inr wb => omod (λ s, mkState (os_op s) (os_index s) (os_version s) (os_callbacks s) (os_writes s)
          (os_reads s) (os_slice_log s) (os_replica_log s ++ [wb]))
      end : OM T unit) (set_index ix s) = Ret r s' ∧ logs_only s s' [] ∧ r ≠ inl 0).
  { intros m [->|[wb ->]]; (eexists _, _; split; [done|]); (split; [split; [done|done| |done]|done]);
      simpl; by rewrite app_nil_r. }
  apply Hne. destruct blk, ok; simpl; eauto.
Qed.
Lemma ob_bkey_run sl s k c t :
  lives (os_index s) (se_ob sl) k c t → ob_bkey_of sl s = Ret (inr k) s.
Proof using.
  intros (e & He & Hc)%lives_entry. unfold ob_bkey_of, oindex, mbind, IM_bind, deref.
  rewrite He. simpl. unfold core in Hc. injection Hc as <- _ _. unfold mret, IM_ret. by destruct s.
Qed.

Definition entry_live ix k sl : Prop := ∃ c t, lives ix (se_ob sl) k c t.
Lemma entry_live_kept ix ix' k sl : kept ix ix' → entry_live ix k sl → entry_live ix' k sl.
Proof using. intros K (c & t & L). exists c. by apply (kp_lives _ _ K _ _ _ _ L). Qed.

Lemma log_add_slices_run l s k :
  Forall (λ p, entry_live (os_index s) k (pr_slice p)) l →
  ∃ r s' wbs, log_add_slices now l s = Ret r s' ∧ logs_only s s' wbs ∧
    match r with inr _ => Forall2 logged wbs (add_events k l) | inl e => e = ENOMEM end.
Proof using UniqSkiplist0.
  revert s. induction l as [|p l IH]; intros s Hl.
  { exists (inr tt), s, []. split_and!; [done| |constructor]. split; [reflexivity|done|by rewrite app_nil_r|done]. }
  apply Forall_cons in Hl as [(c & t & L) Hl]. cbn [log_add_slices]. unfold log_add_slice.
  destruct (push_slice_log_run (EvAddSlice k (pr_slice p)) now (pr_sn p) (op_data_version (os_op s)) (op_source (os_op s)) s)
    as (r & s1 & E & H).
  assert (E1 : (o ← op_field id; bkey ← ob_bkey_of (pr_slice p);
      push_slice_log (slice_binlog_log_add_slice bkey (pr_slice p) now (pr_sn p) (op_data_version o) (op_source o))) s = Ret r s1).
  { rewrite ofield_run. by rewrite (obind_ret _ _ _ _ _ (ob_bkey_run _ _ _ _ _ L)). }
  destruct r as [e|[]].
  { destruct H as [-> H]. rewrite (obind_fail _ _ _ _ _ E1). by exists (inl ENOMEM), s1, []. }
  destruct H as (wb & Hwb & H). rewrite (obind_ret _ _ _ _ _ E1).
  destruct (IH s1) as (r & s2 & wbs & E2 & H2 & Hr).
  { eapply Forall_impl; [exact Hl|]. intros x Hx. eapply entry_live_kept; [|exact Hx].
    apply mem_only_kept, (lg_index _ _ _ H). }
  exists r, s2, (wb :: wbs). split; [done|]. split; [by eapply (logs_only_trans _ _ _ [_])|].
  destruct r as [e|[]]; [done|]. by constructor.
Qed.

(** [fs_log_slice_write] of the slices of the array. *)
Lemma fs_log_slice_write_run base ext R s k :
  store_ok base ext R (os_index s) → (∀ id, occ id (pr_slice <$> op_sarray (os_op s)) <= ext id) →
  Forall (λ p, entry_live (os_index s) k (pr_slice p)) (op_sarray (os_op s)) →
  ∃ r s' ext', fs_log_slice_write now s = Ret r s' ∧
    same_maps (os_index s) (os_index s') ∧ kept (os_index s) (os_index s') ∧
    store_ok base ext' R (os_index s') ∧ op_source (os_op s') = op_source (os_op s) ∧
    (os_writes s' = os_writes s ∧ os_reads s' = os_reads s ∧ os_callbacks s' = os_callbacks s) ∧
    (r = inr tt → ∃ wbs, os_slice_log s' = os_slice_log s ++ wbs ∧
      Forall2 logged wbs (add_events k (op_sarray (os_op s)))) ∧ r ≠ inl 0.
Proof using UniqSkiplistSpec0.
  intros S Hx Hl. unfold fs_log_slice_write. rewrite ofield_run.
  change (op_sarray (id (os_op s))) with (op_sarray (os_op s)).
  destruct (log_add_slices_run (op_sarray (os_op s)) s k Hl) as (r & s1 & wbs & E1 & L1 & Hr).
  assert (H1 : ∃ r2 s2, (log_add_slices now (op_sarray (os_op s));; log_replica now BINLOG_OP_TYPE_WRITE_SLICE false) s = Ret r2 s2 ∧
    logs_only s s2 wbs ∧ (r2 = inr tt → r = inr tt) ∧ r2 ≠ inl 0).
  { destruct r as [e|[]].
    - rewrite (obind_fail _ _ _ _ _ E1). exists (inl e), s1. subst e. by split_and!.
    - rewrite (obind_ret _ _ _ _ _ E1). destruct (log_replica_run BINLOG_OP_TYPE_WRITE_SLICE false s1) as (r2 & s2 & E2 & L2 & Hne).
      exists r2, s2. split; [done|]. split; [|done]. rewrite <- (app_nil_r wbs). by eapply logs_only_trans. }
  destruct H1 as (r2 & s2 & E2 & [I2 O2 G2 IO2] & Hr2 & Hne). rewrite (otry_run _ _ _ _ _ E2).
  destruct (mem_only_kept _ _ I2) as [K2 M2].
  destruct (free_slice_array_run base ext R s2) as (ix' & E3 & K3 & M3 & S3).
  { by eapply mem_only_store. }
  { by rewrite O2. }
  rewrite (obind_ret _ _ _ _ _ E3).
  set (s3 := upd_op _ _). assert (E4 : (match r2 with inl e => ofail e | inr _ => mret tt end : OM T unit) s3 = Ret r2 s3)
    by (by destruct r2 as [|[]]).
  exists r2, s3, (λ id, ext id - occ id (pr_slice <$> op_sarray (os_op s2))). split; [exact E4|]. split_and!.
  - intros k' b d. etransitivity; [apply (M3 k' b d)|apply (M2 k' b d)].
  - by etransitivity.
  - exact S3.
  - simpl. by rewrite O2.
  - apply IO2.
  - apply IO2.
  - apply IO2.
  - intros ->. rewrite (Hr2 eq_refl) in Hr. exists wbs. split; [exact G2|done].
  - done.
Qed.

(** ** Deletions *)
Definition delete_call (block : bool) : OM T unit := if block then fs_delete_block else fs_delete_slices.
Definition delete_log (block : bool) : OM T unit :=
  if block then fs_log_delete_block now else fs_log_delete_slices now.
Definition delete_event (block : bool) bs : SliceEvent :=
  if block then EvDelBlock (bs_block bs) else EvDelSlice bs.
(** The bytes a deletion removes. *)
Definition deleted (block : bool) bs k b : Prop :=
  k = bs_block bs ∧ (block = true ∨ extent_start bs <= b < extent_end bs).
#[local] Instance deleted_dec block bs k b : Decision (deleted block bs k b).
Proof using. apply _. Defined.

Lemma replay_delete block bs records M k b :
  read_back [delete_event block bs] records →
  replay records M k b = if decide (deleted block bs k b) then None else M k b.
Proof using.
  intros Hr. apply Forall2_cons_inv_l in Hr as (r & rs & Hr & Hrs & ->). inversion Hrs; subst. simpl.
  unfold apply_record, record_block, deleted. destruct block; simpl in Hr; destruct Hr as [Ho Hb].
  - assert (Ha : is_add r = false) by (unfold is_add; by rewrite Ho). rewrite Ha, Ho, Hb.
    change (BINLOG_OP_TYPE_DEL_BLOCK =? BINLOG_OP_TYPE_DEL_SLICE) with false.
    change (BINLOG_OP_TYPE_DEL_BLOCK =? BINLOG_OP_TYPE_DEL_BLOCK) with true. cbn iota.
    destruct (decide (k = bs_block bs)) as [Hk|Hk]; [by rewrite decide_True by auto|by rewrite decide_False by tauto].
  - assert (Ha : is_add r = false) by (unfold is_add; by rewrite Ho). rewrite Ha, Ho, Hb.
    change (BINLOG_OP_TYPE_DEL_SLICE =? BINLOG_OP_TYPE_DEL_SLICE) with true. cbn iota.
    destruct (decide (k = bs_block bs)) as [Hk|Hk]; [|by rewrite decide_False by tauto].
    destruct (decide (extent_start bs <= b < extent_end bs)) as [He|He]; [by rewrite decide_True by auto|].
    rewrite decide_False; [done|]. intros [_ [?|?]]; [done|tauto].
Qed.

Lemma set_data_version_index s : ∃ s', set_data_version s = Ret (inr tt) s' ∧ os_index s' = os_index s ∧
  os_slice_log s' = os_slice_log s ∧ op_bs_key (os_op s') = op_bs_key (os_op s).
Proof using.
  unfold set_data_version, mbind, OM_bind, oget, omod, mret, OM_ret. cbn beta iota.
  repeat case_match; eauto.
Qed.

Lemma delete_call_run base ext R block s s1 :
  store_ok base ext R (os_index s) → key_ok (bs_block (op_bs_key (os_op s))) →
  0 < ss_length (bs_slice (op_bs_key (os_op s))) → delete_call block s = Ret (inr tt) s1 →
  store_ok base ext R (os_index s1) ∧ os_slice_log s1 = os_slice_log s ∧
  op_bs_key (os_op s1) = op_bs_key (os_op s) ∧
  ∀ k b d, maps (os_index s1) k b d ↔ ¬ deleted block (op_bs_key (os_op s)) k b ∧ maps (os_index s) k b d.
Proof using UniqSkiplistSpec0.
  intros S Hk Hl E. pose proof (so_index _ _ _ _ S) as I. set (bs := op_bs_key (os_op s)) in *.
  assert (H : ∃ ix1 s0, framed (os_index s) ix1 ∧ index_ok base ext ix1 ∧ set_data_version s0 = Ret (inr tt) s1 ∧
    os_index s0 = ix1 ∧ os_slice_log s0 = os_slice_log s ∧ op_bs_key (os_op s0) = bs ∧
    ∀ k b d, maps ix1 k b d ↔ ¬ deleted block bs k b ∧ maps (os_index s) k b d).
  { destruct block; unfold delete_call, fs_delete_block, fs_delete_slices in E; rewrite ofield_run in E;
      change (op_bs_key (id (os_op s))) with bs in E; change (is_reclaim (id (os_op s))) with (is_reclaim (os_op s)) in E;
      unfold mbind at 1, OM_bind at 1, owait in E.
    - destruct (ob_index_delete_block_ex_run base ext (os_index s) (bs_block bs) true (is_reclaim (os_op s)) I Hk)
        as (out & ix1 & E1 & I1 & _ & H). rewrite E1 in E.
      pose proof (frames_delete_block _ _ _ _ _ _ E1) as Hf. destruct out as [|[e|[dec n]]]; [done..|].
      destruct H as [Hlv _]. cbn beta iota in E. unfold set_deleted in E. rewrite omod_run in E.
      exists ix1. eexists. split_and!; [done|done|exact E|done|done|done|]. intros k b d. unfold maps, deleted.
      setoid_rewrite Hlv. split.
      + intros (p & c & t & [Hn L] & Hd). split; [tauto|eauto].
      + intros (Hn & p & c & t & L & Hd). exists p, c, t. split; [|done]. split; [|done]. intros ->. tauto.
    - destruct (ob_index_delete_slices_ex_run base ext (os_index s) bs true (is_reclaim (os_op s)) I Hk Hl)
        as (out & ix1 & E1 & _ & H). rewrite E1 in E.
      pose proof (frames_delete_slices _ _ _ _ _ _ E1) as Hf. destruct out as [|[e|[dec n]]]; [done..|].
      destruct H as (p & c & t & t' & L & I1 & Hb & _ & Hlk & _). cbn beta iota in E. unfold set_deleted in E.
      rewrite omod_run in E. exists ix1. eexists. split_and!; [done|done|exact E|done|done|done|]. intros k b d.
      rewrite (block_after_maps _ _ _ _ _ _ _ (io_wf _ _ _ I) L Hb). unfold deleted.
      destruct (decide (k = bs_block bs)) as [->|Hne]; [|tauto]. rewrite Hlk.
      rewrite (maps_lives _ _ _ _ _ _ _ (io_wf _ _ _ I) L). case_decide as He.
      + split; [done|]. intros [Hn _]. tauto.
      + split; [|tauto]. intros Hd. split; [|done]. intros [_ [?|?]]; done. }
  destruct H as (ix1 & s0 & Hf & I1 & E2 & Hi & Hlog & Hbs & Hm).
  destruct (set_data_version_index s0) as (s' & E3 & Hi' & Hlog' & Hbs'). rewrite E2 in E3. injection E3 as <-.
  rewrite Hi', Hi, Hlog', Hbs'. split_and!; [|done|done|done].
  eapply store_ok_maps; [exact S|by apply framed_space|done|]. intros k b d Hmd. by apply Hm in Hmd as [_ ?].
Qed.

Lemma delete_log_run block s s' :
  delete_log block s = Ret (inr tt) s' →
  mem_only (os_index s) (os_index s') ∧ ∃ wb, logged wb (delete_event block (op_bs_key (os_op s))) ∧
    os_slice_log s' = os_slice_log s ++ [wb].
Proof using.
  assert (H : ∀ ev op blk, (push_slice_log (log_event ev now (op_sn (os_op s)) (op_data_version (os_op s)) (op_source (os_op s)));;
     log_replica now op blk) s = Ret (inr tt) s' →
     mem_only (os_index s) (os_index s') ∧ ∃ wb, logged wb ev ∧ os_slice_log s' = os_slice_log s ++ [wb]).
  { intros ev op blk E. destruct (push_slice_log_run ev now (op_sn (os_op s)) (op_data_version (os_op s)) (op_source (os_op s)) s)
      as (r & s1 & E1 & H). destruct r as [e|[]]; [by rewrite (obind_fail _ _ _ _ _ E1) in E|].
    destruct H as (wb & Hwb & L1). rewrite (obind_ret _ _ _ _ _ E1) in E.
    destruct (log_replica_run op blk s1) as (r & s2 & E2 & L2 & _). rewrite E2 in E. injection E as -> <-.
    pose proof (logs_only_trans _ _ _ _ _ L1 L2) as [I O G _]. split; [done|]. by exists wb. }
  unfold delete_log, fs_log_delete_block, fs_log_delete_slices.
  destruct block; rewrite ofield_run; intros E.
  - by apply (H (EvDelBlock (bs_block (op_bs_key (os_op s)))) BINLOG_OP_TYPE_DEL_BLOCK true).
  - by apply (H (EvDelSlice (op_bs_key (os_op s))) BINLOG_OP_TYPE_DEL_SLICE false).
Qed.

(** C19: a deletion of an extent or of a block removes exactly its bytes, keeps the store's
    invariant, and logs one record that, read back after a restart, removes the same bytes. *)
Theorem logged_delete_recovers base ext R block s s1 s2 M :
  store_ok base ext R (os_index s) → key_ok (bs_block (op_bs_key (os_op s))) →
  0 < ss_length (bs_slice (op_bs_key (os_op s))) →
  delete_call block s = Ret (inr tt) s1 → delete_log block s1 = Ret (inr tt) s2 →
  represents (os_index s) M →
  store_ok base ext R (os_index s2) ∧
  (∀ k b d, maps (os_index s2) k b d ↔ ¬ deleted block (op_bs_key (os_op s)) k b ∧ maps (os_index s) k b d) ∧
  ∃ wb, logged wb (delete_event block (op_bs_key (os_op s))) ∧ os_slice_log s2 = os_slice_log s ++ [wb] ∧
    ∀ records, read_back [delete_event block (op_bs_key (os_op s))] records →
      represents (os_index s2) (replay records M).
Proof using UniqSkiplistSpec0.
  intros S Hk Hl E1 E2 RM. destruct (delete_call_run base ext R block s s1 S Hk Hl E1) as (S1 & G1 & Hb & Hm).
  destruct (delete_log_run block s1 s2 E2) as (I2 & wb & Hwb & G2). rewrite Hb in Hwb.
  assert (Hm2 : ∀ k b d, maps (os_index s2) k b d ↔ ¬ deleted block (op_bs_key (os_op s)) k b ∧ maps (os_index s) k b d).
  { intros k b d. rewrite <- (Hm k b d). by apply mem_only_kept. }
  split; [by eapply mem_only_store|]. split; [exact Hm2|]. exists wb. split_and!; [done|congruence|].
  intros records Hr k b d. rewrite (Hm2 k b d), (replay_delete _ _ _ M k b Hr), (RM k b d).
  case_decide as Hd; [|tauto]. split; [tauto|done].
Qed.

(** ** A write, from the request to the log *)
Context (continue_flag : bool) (discard_remain_space_size : Z).
Context (blocked : Z → Mgr → Mgr) (retries : nat) (failover : bool).
Context (Hused : ∀ i m, used_kept m (blocked i m)).
Context (Haligned : ∀ i m, aligned8 m → aligned8 (blocked i m)).
Context (Hdiscard : 0 < discard_remain_space_size).
Context (Hspace : ∀ i m, alloc_safe m → alloc_safe (blocked i m) ∧ space_mono m (blocked i m)).
Abbreviation write_call := (fs_slice_write now continue_flag discard_remain_space_size blocked retries None).
Abbreviation steps_of := (steps_of now continue_flag discard_remain_space_size blocked retries failover).

(** C14: what a successful write logs is what it did: the lines it adds to the slice binlog,
    read back after a restart, turn the store of before the write into the store of after
    it, byte for byte. *)
Theorem logged_write_recovers base ext R op ctx th s1 th2 s3 M :
  write_request op ctx th → store_ok base ext R (os_index (th_state th)) →
  write_call (set_op ctx (th_state th)) = Ret (inr tt) s1 →
  rtc (steps_of op) (PcIssued op 0, set_state s1 th) (PcFinish op, th2) →
  op_result (os_op (th_state th2)) = 0 →
  fs_log_slice_write now (th_state th2) = Ret (inr tt) s3 →
  represents (os_index (th_state th)) M →
  ∃ evs wbs, os_slice_log s3 = os_slice_log (th_state th) ++ wbs ∧ Forall2 logged wbs evs ∧
    ∀ records, read_back evs records → represents (os_index s3) (replay records M).
Proof using All.
  intros (Hop & Hx & Hl & Hn & Hw & Hr) S E Hst Hz E3 RM.
  pose proof (write_started_call _ _ _ _ _ failover Hused Haligned Hdiscard Hspace base ext R th ctx s1 Hn Hw Hr S Hx E) as Hs.
  destruct (write_trace _ _ _ _ _ _ ext R _ _ _ _ op _ _ _ _ Hop (or_introl eq_refl) Hs Hst)
    as [[Hb _]|(_ & th1 & r & s & Hs1 & Hn1 & E1 & ->)]; [by destruct Hb|].
  destruct Hs1 as (base' & ext' & pairs & I & S1 & Rs & M1).
  pose proof (wi_sarray _ _ _ _ _ _ I) as Hsa. rewrite <- Hsa in S1, Rs.
  pose proof (fs_write_finish_run base' ext ext' R (th_state th1) _ OB_SLICE_TYPE_FILE _ _ S1 Rs (io_ext _ _ _ (so_index _ _ _ _ S))) as H.
  rewrite E1 in H. destruct H as (-> & K & _ & _ & _ & Hlog & _ & _ & ext2 & He & S2 & H).
  change (th_state (set_state s (set_notify false th1))) with s in *.
  rewrite decide_True in H by done. destruct H as (_ & O & Hsl & _ & Hext & _).
  set (k := bs_block (op_bs_key ctx)) in *.
  destruct (fs_log_slice_write_run base' ext2 R s k S2) as (r3 & s3' & ext3 & E3' & M3 & _ & _ & _ & _ & H3 & _).
  - intros id. rewrite Hsl. specialize (Hext id). pose proof (io_ext _ _ _ (so_index _ _ _ _ S) id). lia.
  - assert (Hall : Forall (entry_live (os_index s) k) (pr_slice <$> op_sarray (os_op s))).
    { rewrite Hsl. eapply Forall_impl; [apply (rs_usable _ _ _ _ _ _ _ _ Rs)|]. intros sl (_ & _ & Hlv).
      by eapply entry_live_kept. }
    by rewrite Forall_fmap in Hall.
  - rewrite E3 in E3'. injection E3' as <- <-. destruct (H3 eq_refl) as (wbs & G & Hwb). exists (add_events k (op_sarray (os_op s))), wbs. split_and!; [|done|].
    + rewrite G, Hlog. f_equal. by destruct (wi_info _ _ _ _ _ _ I) as (_ & _ & -> & _).
    + intros records Hrec. eapply same_maps_represents; [exact M3|].
      pose proof (rs_tiles _ _ _ _ _ _ _ _ Rs) as Ht. rewrite <- Hsl in Ht, O.
      eapply overlaid_all_replay; [exact O|exact Ht| |exact Hrec]. by eapply same_maps_represents.
Qed.
End Log.
