(* ===== verification/RecoveryDemo.v ===== *)
(** * Logging, restarting and allocating on the small store

    The witnesses of the theorems about the slice binlog and about allocations. *)
From S2P Require Import Prelude Types Skiplist ObSlices ObSlicesRun.
From S2P Require Import ObSlicesThms ObSlicesMain ObIndex ObIndexSpec ObIndexOps.
From S2P Require Import ObIndexThms ObIndexMain TrunkAllocator StorageAllocator StorageAllocSpec.
From S2P Require Import StorageAllocThms StorageAllocUsed StoreAlloc Binlog BinlogSpec BinlogThms SliceOp StoreWrite.
From S2P Require Import StoreWrite StoreRead StoreAllocate DataThread DataThreadThms StoreLog.
From S2P Require Import ObSlicesMain DataThreadDemo StoreDemo.

(** ** Allocating *)
Definition small_allocate := fs_slice_allocate 10 true 256 (λ _ m, m) 0 (small_state []).
Definition allocated_state : OpState (list OBSliceEntry) := state_of small_allocate (small_state []).
Lemma small_extent : extent_ok (op_bs_key small_ctx).
Proof. split; [apply small_key|]. vm_compute. repeat split; discriminate. Qed.
Lemma fs_slice_allocate_ok_witness :
  small_allocate = Ret (inr tt) allocated_state ∧
  ∀ b, in_extent (mkSliceSize 0 16) b → ∃ d, maps (os_index allocated_state) (bs_block (op_bs_key small_ctx)) b d.
Proof.
  pose proof (fs_slice_allocate_ok 0 10 true 256 (λ _ m, m) id_blocked_used (λ _ _ H, H) eq_refl id_blocked_space
    small_base (λ _, 0) [] (small_state []) (small_store_ok []) small_extent) as H.
  assert (E : small_allocate = Ret (inr tt) allocated_state) by (vm_compute; reflexivity).
  fold small_allocate in H. rewrite E in H. destruct H as (_ & _ & H). split; [exact E|exact H].
Defined.

(** ** The log of a write *)
Lemma small_represents mem : represents (small_index mem) empty_store.
Proof. intros k b d. split; [|done]. intros (p & c & t & L & _). by apply small_empty in L. Qed.
Definition write_logged : OpState (list OBSliceEntry) :=
  state_of (fs_log_slice_write 10 (th_state done_thread)) (th_state done_thread).
Lemma logged_write_recovers_witness :
  ∃ evs wbs, os_slice_log write_logged = [] ++ wbs ∧ Forall2 logged wbs evs ∧
    ∀ records, read_back evs records → represents (os_index write_logged) (replay records empty_store).
Proof.
  apply (logged_write_recovers 10 true 256 (λ _ m, m) 0 true id_blocked_used (λ _ _ H, H) eq_refl id_blocked_space
    small_base (λ _, 0) [] write_op small_ctx (small_thread []) after_call done_thread write_logged empty_store
    (small_request []) (small_store_ok []) small_call small_run); [vm_compute; reflexivity..|].
  apply small_represents.
Defined.

(** ** The log of a deletion *)
Definition deleted_state : OpState (list OBSliceEntry) := state_of (delete_call false mid_state) mid_state.
Definition delete_logged : OpState (list OBSliceEntry) := state_of (delete_log 10 false deleted_state) deleted_state.
Lemma logged_delete_recovers_witness :
  ∃ wb, logged wb (EvDelSlice (op_bs_key mid_ctx)) ∧ os_slice_log delete_logged = os_slice_log mid_state ++ [wb].
Proof.
  destruct mid_store as (base & ext & S).
  destruct (logged_delete_recovers 10 base ext [] false mid_state deleted_state delete_logged
    (store_of (os_index mid_state)) S small_key eq_refl) as (_ & _ & wb & H1 & H2 & _);
    [vm_compute; reflexivity..|exact (represents_store_of _ _ _ (so_index _ _ _ _ S))|].
  exists wb. split; [exact H1|exact H2].
Defined.

(** ** Loading two records with two data threads *)
Definition load_space : FSTrunkSpaceInfo := mkTrunkSpace 1 (mkTrunkId 7 1) 0 16.
Definition load_add : SliceBinlogRecord :=
  mkSliceRecord BINLOG_OP_TYPE_WRITE_SLICE OB_SLICE_TYPE_FILE (op_bs_key small_ctx) load_space.
Definition load_del : SliceBinlogRecord :=
  mkSliceRecord BINLOG_OP_TYPE_DEL_SLICE OB_SLICE_TYPE_FILE (op_bs_key mid_ctx) load_space.
Abbreviation SmallLoader := (SliceLoaderContext (list OBSliceEntry) Mgr).
Definition dealt r (ix : Index (list OBSliceEntry) Mgr) : Index (list OBSliceEntry) Mgr :=
  match slice_loader_deal_record r ix with Some (_, ix') => ix' | None => ix end.
Definition load_thread : nat := data_thread_of 2 load_add.
Definition load_ix1 : Index (list OBSliceEntry) Mgr := dealt load_add (small_index []).
Definition load_ix2 : Index (list OBSliceEntry) Mgr := dealt load_del load_ix1.
Definition load_start : SmallLoader := loader_start 2 [[load_add; load_del]] (small_index []).
Definition one_queue (q : list SliceBinlogRecord) : list (list SliceBinlogRecord) :=
  <[load_thread := q]> (replicate 2 []).
Definition load_end : SmallLoader := mkLoader [] (replicate 2 []) (replicate 2 []) load_ix2 true.
Lemma small_loaded : loaded small_base (small_index []) empty_store.
Proof.
  split; [apply small_index_ok|apply small_represents|]. intros p k c t L. by apply small_empty in L.
Qed.
Lemma load_records_ok r : r ∈ concat [[load_add; load_del]] → record_ok (small_index []) r.
Proof.
  assert (Hk : known (ix_world (small_index [])) (record_slice load_add)) by (vm_compute; eauto).
  intros [-> | [-> | []%elem_of_nil]%elem_of_cons]%elem_of_cons.
  - split; [apply small_key|]. split; [|done]. intros _. split; [|exact Hk]. vm_compute. repeat split; discriminate.
  - split; [apply small_key|]. split; [done|]. reflexivity.
Qed.
Lemma load_steps : rtc loader_step load_start load_end.
Proof.
  eapply rtc_l; [apply step_distribute|].
  eapply rtc_l; [apply (step_push load_thread [load_add; load_del] []); [vm_compute; reflexivity..|done]|].
  eapply rtc_l; [apply (step_deal load_thread load_add [load_del] _ _ _ _ (inr tt) load_ix1); vm_compute; reflexivity|].
  cbn beta iota.
  eapply rtc_l; [apply (step_deal load_thread load_del [] _ _ _ _ (inr tt) load_ix2); vm_compute; reflexivity|].
  apply rtc_refl.
Qed.
Lemma slice_loader_refines_witness :
  represents load_ix2 (replay [load_add; load_del] empty_store) ∧
  replay [load_add; load_del] empty_store (bs_block (op_bs_key small_ctx)) 3
    = Some (mkLoc 1 (mkTrunkId 7 1) 3 OB_SLICE_TYPE_FILE) ∧
  replay [load_add; load_del] empty_store (bs_block (op_bs_key small_ctx)) 4 = None.
Proof.
  split; [|split; vm_compute; reflexivity].
  apply (slice_loader_refines small_base 2 empty_store [[load_add; load_del]] (small_index []) load_end);
    [lia|apply small_loaded|apply load_records_ok|apply load_steps|reflexivity|].
  split; [reflexivity|]. split; repeat constructor.
Defined.
Lemma slice_loader_progress_witness : ∃ s', loader_step load_start s'.
Proof.
  destruct (slice_loader_progress small_base 2 empty_store [[load_add; load_del]] (small_index []) load_start
    small_loaded load_records_ok (rtc_refl _ _)) as [H _].
  destruct (H eq_refl) as [(H1 & _)|H1]; [discriminate H1|exact H1].
Defined.
