(* ===== verification/Reclaim.v ===== *)
(** * Reclaiming a trunk

    [src/server/storage/trunk_reclaim.c]: the slices of a trunk are listed, grouped by block
    and combined where they are adjacent; their blocks are locked; then each extent is read
    and written again, which moves it to trunks that still have space. The trunk maker
    thread that does this and the I/O threads are a step relation, as in [DataThread.v]; the
    operations of the data threads on other blocks are left out (those on the locked blocks
    wait), and so is the end of the waits when the server terminates. *)
From S2P Require Import Prelude Types Skiplist ObSlices ObSlicesRun TrunkAllocator StorageAllocator.
From S2P Require Import ObIndex ObIndexSpec ObIndexThms Binlog SliceOp DataThread StoreReadData.

(** [TrunkReclaimBlockInfo] with its chain of slices; a [TrunkReclaimSliceInfo] is its key. *)
Record TrunkReclaimBlockInfo := mkBlockInfo {
  rb_ob : Z;
  rb_slices : list FSBlockSliceKeyInfo;
}.

(** [TrunkReclaimContext]: the sizes of the two arrays; [op_ctx], [notify.finished] and
    what they work on are a [Thread]. *)
Record TrunkReclaimContext (T : Type) := mkReclaim {
  rx_sarray_alloc : Z;
  rx_barray_alloc : Z;
  rx_thread : Thread T;
}.
Arguments mkReclaim {T}.
Arguments rx_sarray_alloc {T}.
Arguments rx_barray_alloc {T}.
Arguments rx_thread {T}.

(** Where the thread is: before the slices are listed, with the list, in [migrate_one_block]
    with the slices that are left, in the two waits of [migrate_one_slice]; [block] is
    locked, as are those of [blocks]. [ReclaimUndefined]: a buffer that was not read yet is
    written. *)
Inductive ReclaimPc :=
  | ReclaimStart (k : trunk_key)
  | ReclaimCombine (slices : list FSBlockSliceKeyInfo)
  | ReclaimSlices (slices : list FSBlockSliceKeyInfo) (block : Z) (blocks : list TrunkReclaimBlockInfo)
  | ReclaimRead (slices : list FSBlockSliceKeyInfo) (block : Z) (blocks : list TrunkReclaimBlockInfo)
  | ReclaimWrite (slices : list FSBlockSliceKeyInfo) (block : Z) (blocks : list TrunkReclaimBlockInfo)
  | ReclaimReturned (result : Z)
  | ReclaimUndefined.

Definition compare_by_block_slice_key (s1 s2 : FSBlockSliceKeyInfo) : Z :=
  let sub := cmp3 (bk_oid (bs_block s1)) (bk_oid (bs_block s2)) in
  if negb (sub =? 0) then sub else
  let sub := cmp3 (bk_offset (bs_block s1)) (bk_offset (bs_block s2)) in
  if negb (sub =? 0) then sub else
  ss_offset (bs_slice s1) - ss_offset (bs_slice s2).

(** [realloc_rs_array] and [realloc_rb_array] when there is memory. *)
Definition new_rs_alloc (alloc : Z) : Z := if 0 <? alloc then 2 * alloc else 1024.
Definition new_rb_alloc (alloc target : Z) : Z := double_until 31 (new_rs_alloc alloc) target.

Definition with_slice_length (bs : FSBlockSliceKeyInfo) (length : Z) : FSBlockSliceKeyInfo :=
  mkBlockSliceKey (bs_block bs) (mkSliceSize (ss_offset (bs_slice bs)) length).
Definition op_set_bs_key (bs : FSBlockSliceKeyInfo) (o : FSSliceOpContext) : FSSliceOpContext :=
  mkOp (op_counter o) (op_result o) (op_done_bytes o) (op_log_replica o) (op_source o)
    (op_data_version o) (op_sn o) bs (op_buff o) (op_space_changed o) (op_sarray_alloc o)
    (op_sarray o) (op_slices o) (op_buffers_alloc o) (op_buffers o).

(** The chain of a block with one more slice, appended or combined with the last one. *)
Definition chain_add (chain : list FSBlockSliceKeyInfo) (slice : FSBlockSliceKeyInfo)
    : list FSBlockSliceKeyInfo :=
  match last chain with
  | Some tail =>
      let ss := bs_slice tail in
      if ss_offset ss + ss_length ss =? ss_offset (bs_slice slice)
      then removelast chain ++ [with_slice_length tail (ss_length ss + ss_length (bs_slice slice))]
      else chain ++ [slice]
  | None => [slice]
  end.

Section Reclaim.
Context {T : Type} `{!UniqSkiplist OBSliceEntry T} `{!Qsort}.
Variables (now : Z) (continue_flag : bool) (discard_remain_space_size : Z).
Variables (blocked : Z → Mgr → Mgr) (retries : nat).

(** ** Listing and combining *)

(** The slice entry at an address of [trunk->used.slice_head]: it is in the index. *)
Definition slice_at (ix : Index T Mgr) (id : Z) : option OBSliceEntry :=
  List.find (λ s, se_id s =? id) (all_slices ix).
(** The loop of [convert_to_rs_array]. *)
Fixpoint list_slices (ids : list Z) (alloc : Z) (l : list FSBlockSliceKeyInfo)
    : OM T (Z * (Z + list FSBlockSliceKeyInfo)) :=
  match ids with
  | [] => mret (alloc, inr l)
  | id :: ids =>
      let full := alloc <=? Z.of_nat (length l) in
      ok ← (if full then oalloc else mret true);
      if negb ok then mret (alloc, inl ENOMEM) else
      let alloc := if full then new_rs_alloc alloc else alloc in
      s ← oget;
      match slice_at (os_index s) id with
      | None => ocrash
      | Some slice =>
          bkey ← ob_bkey_of slice;
          list_slices ids alloc (l ++ [mkBlockSliceKey bkey (se_ssize slice)])
      end
  end.
Definition convert_to_rs_array (k : trunk_key) (alloc : Z) : OM T (Z * (Z + list FSBlockSliceKeyInfo)) :=
  s ← oget;
  match get_trunk (w_acct (ix_world (os_index s))) k with
  | None => ocrash
  | Some trunk =>
      '(alloc, r) ← list_slices (tf_slices trunk) alloc [];
      mret (alloc, match r with
                   | inl e => inl e
                   | inr l => inr (if (1 <? length l)%nat then qsort compare_by_block_slice_key l else l)
                   end)
  end.

Fixpoint unlock_all (obs : list Z) : OM T unit :=
  match obs with
  | [] => mret tt
  | p :: obs => oindex (ob_index_reclaim_unlock p);; unlock_all obs
  end.

(** The loops of [combine_to_rb_array]: a slice of another block than the last one is the
    first of a new block. *)
Definition same_block (blocks : list TrunkReclaimBlockInfo) (slice : FSBlockSliceKeyInfo) : OM T bool :=
  match last blocks with
  | None => mret false
  | Some b =>
      bkey ← oindex (e ← deref (rb_ob b); mret (ob_bkey e));
      mret (ob_index_compare_block_key bkey (bs_block slice) =? 0)
  end.
Definition add_to_last (blocks : list TrunkReclaimBlockInfo) (slice : FSBlockSliceKeyInfo)
    : list TrunkReclaimBlockInfo :=
  match last blocks with
  | None => blocks
  | Some b => removelast blocks ++ [mkBlockInfo (rb_ob b) (chain_add (rb_slices b) slice)]
  end.
Fixpoint combine_slices (slices : list FSBlockSliceKeyInfo) (blocks : list TrunkReclaimBlockInfo)
    : OM T (list TrunkReclaimBlockInfo) :=
  match slices with
  | [] => mret blocks
  | slice :: slices =>
      same ← same_block blocks slice;
      if same : bool then combine_slices slices (add_to_last blocks slice) else
      ob ← oindex (ob_index_reclaim_lock (bs_block slice));
      match ob with
      | None => unlock_all (map rb_ob blocks);; ofail ENOENT
      | Some p => combine_slices slices (blocks ++ [mkBlockInfo p [slice]])
      end
  end.
Definition combine_to_rb_array (slices : list FSBlockSliceKeyInfo) (alloc : Z)
    : OM T (Z * (Z + list TrunkReclaimBlockInfo)) :=
  let small := alloc <? Z.of_nat (length slices) in
  ok ← (if small then oalloc else mret true);
  if negb ok then mret (alloc, inl ENOMEM) else
  let alloc := if small then new_rb_alloc alloc (Z.of_nat (length slices)) else alloc in
  r ← otry (combine_slices slices []);
  mret (alloc, r).

(** ** Moving the slices *)

(** A turn of the thread: to the next wait or return; it waits; it follows an invalid
    pointer. *)
Inductive Turn :=
  | TurnTo (pc : ReclaimPc) (th : Thread T)
  | TurnWait
  | TurnCrash.
Definition run_op {B} (m : OM T B) (th : Thread T) (k : Z + B → Thread T → Turn) : Turn :=
  match m (th_state th) with
  | Crash => TurnCrash
  | Hang => TurnWait
  | Ret r s => k r (set_state s th)
  end.

(** The rollback of [migrate_blocks]. *)
Definition migrate_fail (result block : Z) (blocks : list TrunkReclaimBlockInfo) (th : Thread T) : Turn :=
  run_op (unlock_all (block :: map rb_ob blocks)) th (λ _ th, TurnTo (ReclaimReturned result) th).

(** The end of [migrate_one_slice]: [fs_release_aio_buffers], [fs_log_slice_write]. *)
Definition migrate_log slices block blocks (th : Thread T) : Turn :=
  let th := set_state (upd_op (λ o, op_set_buffers (op_buffers_alloc o) [] o) (th_state th)) th in
  let result := op_result (os_op (th_state th)) in
  if negb (result =? 0) then migrate_fail result block blocks th else
  run_op (fs_log_slice_write now) th (λ r th,
    match r with
    | inl e => migrate_fail e block blocks th
    | inr _ => TurnTo (ReclaimSlices slices block blocks) th
    end).

(** [migrate_one_slice] up to the wait for the reads. *)
Definition migrate_read (bs : FSBlockSliceKeyInfo) slices block blocks (th : Thread T) : Turn :=
  run_op (omod (upd_op (op_set_bs_key bs));; fs_slice_read) th (λ r th,
    match r with
    | inl e => if e =? ENOENT then TurnTo (ReclaimSlices slices block blocks) th
               else migrate_fail e block blocks th
    | inr _ => TurnTo (ReclaimRead slices block blocks) th
    end).

(** From that wait to the wait for the writes. *)
Definition migrate_write slices block blocks (th : Thread T) : Turn :=
  let o := os_op (th_state th) in
  let result := op_result o in
  if negb (result =? 0) then
    if result =? ENOENT then TurnTo (ReclaimSlices slices block blocks) th
    else migrate_fail result block blocks th
  else match buffers_at (op_buffers o) with
  | None => TurnTo ReclaimUndefined th
  | Some bufs =>
      run_op (omod (upd_op (op_set_bs_key (with_slice_length (op_bs_key o) (op_done_bytes o))));;
              fs_slice_write now continue_flag discard_remain_space_size blocked retries
                (Some bufs)) th (λ r th,
        match r with
        | inl e =>
            let s := upd_op (λ o, op_set_io (op_counter o) (cast16 e) (op_done_bytes o) o) (th_state th) in
            migrate_log slices block blocks (set_state s th)
        | inr _ => TurnTo (ReclaimWrite slices block blocks) th
        end)
  end.

(** [trunk_reclaim] with [migrate_blocks] and [migrate_one_block]. *)
Definition next_block (blocks : list TrunkReclaimBlockInfo) : ReclaimPc :=
  match blocks with
  | [] => ReclaimReturned 0
  | b :: blocks => ReclaimSlices (rb_slices b) (rb_ob b) blocks
  end.
Definition reclaim_turn (pc : ReclaimPc) (c : TrunkReclaimContext T) : Turn * Z * Z :=
  let th := rx_thread c in
  let sa := rx_sarray_alloc c in
  let ba := rx_barray_alloc c in
  match pc with
  | ReclaimStart k =>
      match convert_to_rs_array k sa (th_state th) with
      | Crash | Ret (inl _) _ => (TurnCrash, sa, ba)
      | Hang => (TurnWait, sa, ba)
      | Ret (inr (sa, inl e)) s => (TurnTo (ReclaimReturned e) (set_state s th), sa, ba)
      | Ret (inr (sa, inr slices)) s => (TurnTo (ReclaimCombine slices) (set_state s th), sa, ba)
      end
  | ReclaimCombine slices =>
      match combine_to_rb_array slices ba (th_state th) with
      | Crash | Ret (inl _) _ => (TurnCrash, sa, ba)
      | Hang => (TurnWait, sa, ba)
      | Ret (inr (ba, inl e)) s => (TurnTo (ReclaimReturned e) (set_state s th), sa, ba)
      | Ret (inr (ba, inr blocks)) s => (TurnTo (next_block blocks) (set_state s th), sa, ba)
      end
  | ReclaimSlices [] block blocks =>
      (run_op (oindex (ob_index_reclaim_unlock block)) th (λ _, TurnTo (next_block blocks)), sa, ba)
  | ReclaimSlices (bs :: slices) block blocks => (migrate_read bs slices block blocks th, sa, ba)
  | ReclaimRead slices block blocks =>
      (if th_notify_done th then migrate_write slices block blocks (set_notify false th) else TurnWait, sa, ba)
  | ReclaimWrite slices block blocks =>
      (if th_notify_done th
       then run_op fs_write_finish (set_notify false th) (λ _, migrate_log slices block blocks)
       else TurnWait, sa, ba)
  | ReclaimReturned _ | ReclaimUndefined => (TurnWait, sa, ba)
  end.

(** The steps of the thread and of the I/O threads. *)
Definition on_thread (th : Thread T) (c : TrunkReclaimContext T) : TrunkReclaimContext T :=
  mkReclaim (rx_sarray_alloc c) (rx_barray_alloc c) th.
Inductive reclaim_step : ReclaimPc * TrunkReclaimContext T → ReclaimPc * TrunkReclaimContext T → Prop :=
  | reclaim_step_turn pc c pc' th sa ba :
      reclaim_turn pc c = (TurnTo pc' th, sa, ba) → reclaim_step (pc, c) (pc', mkReclaim sa ba th)
  | reclaim_step_write_done pc c i w result s d :
      let th := rx_thread c in
      os_writes (th_state th) !! i = Some w → 0 <= result < 2 ^ 15 →
      (if result =? 0 then wrote w (th_disk th) d else untouched w (th_disk th) d) →
      slice_write_done (wr_slice w) result (set_writes (remove_at i (os_writes (th_state th))) (th_state th))
        = Ret (inr tt) s →
      reclaim_step (pc, c) (pc, on_thread (set_disk d (set_state s th)) c)
  | reclaim_step_read_done pc c i j sl b result s :
      let th := rx_thread c in
      os_reads (th_state th) !! i = Some sl → 0 <= result < 2 ^ 15 →
      op_buffers (os_op (th_state th)) !! j = Some (FileBuffer sl) →
      read_into (th_disk th) sl result b →
      do_read_done sl result
        (fill_buffer j b (set_reads (remove_at i (os_reads (th_state th))) (th_state th)))
        = Ret (inr tt) s →
      reclaim_step (pc, c) (pc, on_thread (set_state s th) c).
End Reclaim.
