(* ===== verification/ReclaimThms.v ===== *)
(** * Reclaiming a trunk keeps the store

    The slices of the trunk are listed with all their bytes; the blocks are locked and
    released again. *)
From stdpp Require Import sorting.
From S2P Require Import Prelude Types Skiplist ObSlices ObSlicesRun ObSlicesThms TrunkAllocator StorageAllocator StorageAllocSpec StorageAllocThms StorageAllocUsed ObSlicesMain ObSlicesGet ObIndex ObIndexSpec ObIndexOps ObIndexThms ObIndexMain ObIndexDemo Binlog SliceOp StoreAlloc StoreWrite DataThread DataThreadThms StoreIov StoreRead StoreReadData DataThreadRead StoreLog Reclaim.

Section Lists.
Context {T : Type} `{!UniqSkiplist OBSliceEntry T} `{!UniqSkiplistSpec slice_compare} {qsort_fun : Qsort}.
Implicit Types (s : OpState T) (ix : Index T Mgr) (k : FSBlockKey) (p b v : Z) (th : Thread T) (t : T)
  (base : Z → Z → Z) (ext : Z → Z) (R : list OBSliceEntry) (d : Disk) (bs : FSBlockSliceKeyInfo).

(** ** Extents *)

(** Every byte of the extent is mapped. *)
Definition in_extent_of bs k b : Prop := k = bs_block bs ∧ extent_start bs <= b < extent_end bs.
Record extent_mapped ix bs : Prop := {
  em_key : key_ok (bs_block bs);
  em_length : 0 < ss_length (bs_slice bs);
  em_maps : ∀ k b, in_extent_of bs k b → ∃ loc, maps ix k b loc;
}.
Lemma extent_mapped_mono ix ix' bs :
  (∀ k b loc, maps ix k b loc → ∃ loc', maps ix' k b loc') → extent_mapped ix bs → extent_mapped ix' bs.
Proof using.
  intros H [E1 E2 E3]. split; [done|done|]. intros k b Hb. destruct (E3 k b Hb) as [loc Hl]. by eapply H.
Qed.
Lemma same_maps_mono ix ix' : same_maps ix ix' → ∀ k b loc, maps ix k b loc → ∃ loc', maps ix' k b loc'.
Proof using. intros H k b loc Hm. exists loc. by apply H. Qed.

Lemma maps_in_block base ext ix k b loc :
  index_ok base ext ix → maps ix k b loc → 0 <= b < FS_FILE_BLOCK_SIZE.
Proof using.
  intros I (p & c & t & L & Hl). destruct (io_block _ _ _ I _ _ _ _ L) as [[Hw _] _].
  apply lookup_byte_Some in Hl as (sl & Hs & Hc & _); [|done]. destruct Hw as [_ Hv].
  rewrite Forall_forall in Hv. specialize (Hv sl Hs). unfold valid_slice, covers in *. lia.
Qed.
Lemma extent_mapped_ok base ext ix bs : index_ok base ext ix → extent_mapped ix bs → extent_ok bs.
Proof using.
  intros I [E1 E2 E3]. unfold extent_start, extent_end, in_extent_of in *.
  destruct (E3 (bs_block bs) (extent_start bs)) as [l1 M1]; [unfold extent_start, extent_end in *; split; [done|lia]|].
  destruct (E3 (bs_block bs) (extent_end bs - 1)) as [l2 M2]; [unfold extent_start, extent_end in *; split; [done|lia]|].
  apply (maps_in_block _ _ _ _ _ _ I) in M1, M2. unfold extent_start, extent_end in *.
  split_and!; [done|lia|done|lia].
Qed.

(** ** The slices of the trunk *)
Lemma all_slices_lives base ext ix sl :
  index_ok base ext ix → sl ∈ all_slices ix →
  ∃ k c t, lives ix (se_ob sl) k c t ∧ sl ∈ sl_level0 t.
Proof using.
  intros I Hs. unfold all_slices, obs_slices in Hs. apply list_elem_of_bind in Hs as (e & Hs & He).
  apply list_elem_of_fmap in He as ([p e'] & -> & He). apply elem_of_map_to_list in He. simpl in Hs.
  assert (L : lives ix p (ob_bkey e') (ob_reclaiming_count e') (ob_slices e')) by (by apply found_entry_lives).
  destruct (io_block _ _ _ I _ _ _ _ L) as [[_ Hb] _]. destruct (Hb sl Hs) as [-> _]. eauto.
Qed.
Lemma lives_all_slices ix p k c t sl : lives ix p k c t → sl ∈ sl_level0 t → sl ∈ all_slices ix.
Proof using.
  intros (e & He & Hc)%lives_entry Hs. unfold core in Hc. injection Hc as _ _ <-.
  unfold all_slices, obs_slices. apply list_elem_of_bind. exists e. split; [done|].
  apply list_elem_of_fmap. exists (p, e). split; [done|]. by apply elem_of_map_to_list.
Qed.
Lemma lives_key base ext ix p k c t : index_ok base ext ix → lives ix p k c t → key_ok k.
Proof using.
  intros I (e & He & Hc)%lives_entry. unfold core in Hc. injection Hc as <- _ _.
  by eapply (iw_keys _ (io_wf _ _ _ I)).
Qed.

(** The key of a listed slice; its bytes are mapped to its places. *)
Definition key_of ix (sl : OBSliceEntry) bs : Prop :=
  bs_slice bs = se_ssize sl ∧ ∃ c t, lives ix (se_ob sl) (bs_block bs) c t ∧ sl ∈ sl_level0 t.
Lemma key_of_mapped base ext ix sl bs : index_ok base ext ix → key_of ix sl bs → extent_mapped ix bs.
Proof using.
  intros I (Hbs & c & t & L & Hs). destruct (io_block _ _ _ I _ _ _ _ L) as [[Hw _] _].
  pose proof Hw as [_ Hv]. rewrite Forall_forall in Hv. specialize (Hv sl Hs).
  split; rewrite ?Hbs.
  - by eapply lives_key.
  - apply Hv.
  - intros k b (-> & Hb). exists (loc_at sl b), (se_ob sl), c, t. split; [done|].
    apply lookup_byte_Some; [done|]. exists sl. split_and!; [done| |done].
    unfold extent_start, extent_end in Hb. rewrite Hbs in Hb. exact Hb.
Qed.

(** What the list is for: every slice in the trunk is in [used.slice_head], and what is
    there is in the index. *)
Definition in_trunk (st id : Z) (sl : OBSliceEntry) : Prop :=
  sp_store (se_space sl) = st ∧ ti_id (sp_id_info (se_space sl)) = id.
Definition listed ix (tk : trunk_key) : Prop :=
  ∃ f, get_trunk (mgr_of ix) tk = Some f ∧ Forall (λ id, is_Some (slice_at ix id)) (tf_slices f) ∧
    ∀ sl, sl ∈ all_slices ix → in_trunk tk.1 tk.2 sl → ∃ id, id ∈ tf_slices f ∧ slice_at ix id = Some sl.
Lemma slice_at_elem ix id sl : slice_at ix id = Some sl → sl ∈ all_slices ix.
Proof using. intros H%find_some. apply list_elem_of_In, H. Qed.

Lemma oalloc_only s : ∃ ok ix', oalloc s = Ret (inr ok) (set_index ix' s) ∧ mem_only (os_index s) ix'.
Proof using. destruct (oalloc_run s) as (ok & ix' & E & M & _). eauto. Qed.
Lemma mem_only_slice_at ix ix' id : mem_only ix ix' → slice_at ix' id = slice_at ix id.
Proof using. by intros (m & -> & _). Qed.
Lemma mem_only_key_of ix ix' sl bs : mem_only ix ix' → key_of ix' sl bs ↔ key_of ix sl bs.
Proof using. by intros (m & -> & _). Qed.
Lemma mem_only_mgr ix ix' : mem_only ix ix' → mgr_of ix' = mgr_of ix.
Proof using. by intros (m & -> & _). Qed.

Lemma list_slices_run base ext R ids alloc l s :
  store_ok base ext R (os_index s) → Forall (λ id, is_Some (slice_at (os_index s) id)) ids →
  ∃ alloc' r ix', list_slices ids alloc l s = Ret (inr (alloc', r)) (set_index ix' s) ∧
    mem_only (os_index s) ix' ∧
    match r with
    | inl e => e = ENOMEM
    | inr l' => ∃ keys, l' = l ++ keys ∧
        Forall2 (λ id bs, ∃ sl, slice_at (os_index s) id = Some sl ∧ key_of (os_index s) sl bs) ids keys
    end.
Proof using UniqSkiplistSpec0.
  revert alloc l s. induction ids as [|id ids IH]; intros alloc l s S Hids; cbn [list_slices].
  { exists alloc, (inr l), (os_index s). split_and!; [by destruct s|done|]. exists []. by rewrite app_nil_r. }
  apply Forall_cons in Hids as [[sl Hsl] Hids]. cbv zeta.
  assert (Hok : ∃ ok ix1, (if alloc <=? Z.of_nat (length l) then oalloc else mret true) s
      = Ret (inr ok) (set_index ix1 s) ∧ mem_only (os_index s) ix1).
  { case_match; [apply oalloc_only|]. exists true, (os_index s). split; [by destruct s|done]. }
  destruct Hok as (ok & ix1 & E1 & M1). rewrite (obind_ret _ _ _ _ _ E1). destruct ok; cbn [negb]; cycle 1.
  { exists alloc, (inl ENOMEM), ix1. by split_and!. }
  set (s1 := set_index ix1 s) in *. rewrite (obind_ret _ _ s1 s1 s1) by done.
  change (os_index s1) with ix1. rewrite (mem_only_slice_at _ _ _ M1), Hsl.
  destruct (all_slices_lives base ext (os_index s) sl) as (k & c & t & L & Hst); [apply S|by eapply slice_at_elem|].
  assert (L1 : lives (os_index s1) (se_ob sl) k c t) by (by destruct M1 as (m & -> & _)).
  rewrite (obind_ret _ _ _ _ _ (ob_bkey_run sl s1 k c t L1)).
  match goal with |- context [list_slices ids ?a ?l' s1] => destruct (IH a l' s1) as (alloc' & r & ix2 & E2 & M2 & Hr) end.
  { by eapply mem_only_store. }
  { change (os_index s1) with ix1. eapply Forall_impl; [exact Hids|]. intros id'. by rewrite (mem_only_slice_at _ _ id' M1). }
  exists alloc', r, ix2. split; [exact E2|]. split; [by etransitivity|]. destruct r as [e|l']; [done|].
  destruct Hr as (keys & -> & Hf). exists (mkBlockSliceKey k (se_ssize sl) :: keys). split; [by rewrite <- app_assoc|].
  constructor; [exists sl; split; [done|]; split; [done|]; by exists c, t|].
  eapply Forall2_impl; [exact Hf|]. intros id' bs (sl' & H1 & H2). exists sl'.
  change (os_index s1) with ix1 in *. rewrite (mem_only_slice_at _ _ _ M1) in H1.
  by apply (mem_only_key_of _ _ _ _ M1) in H2.
Qed.

(** The places in the trunk of what is mapped are those of the listed extents. *)
Definition covered (l : list FSBlockSliceKeyInfo) k b : Prop := ∃ bs, bs ∈ l ∧ in_extent_of bs k b.
Definition in_trunk_loc (tk : trunk_key) (loc : DiskLoc) : Prop := dl_store loc = tk.1 ∧ ti_id (dl_trunk loc) = tk.2.
Lemma convert_run base ext R tk alloc s :
  store_ok base ext R (os_index s) → listed (os_index s) tk →
  ∃ alloc' r ix', convert_to_rs_array tk alloc s = Ret (inr (alloc', r)) (set_index ix' s) ∧
    mem_only (os_index s) ix' ∧
    match r with
    | inl e => e = ENOMEM
    | inr l => Forall (extent_mapped (os_index s)) l ∧
        ∀ k b loc, maps (os_index s) k b loc → in_trunk_loc tk loc → covered l k b
    end.
Proof using UniqSkiplistSpec0.
  intros S (f & Hf & Hids & Hall). pose proof (so_index _ _ _ _ S) as I. unfold convert_to_rs_array.
  rewrite (obind_ret _ _ s s s) by done. change (w_acct (ix_world (os_index s))) with (mgr_of (os_index s)).
  rewrite Hf. destruct (list_slices_run base ext R (tf_slices f) alloc [] s S Hids) as (alloc' & r & ix' & E & M & H).
  rewrite (obind_ret _ _ _ _ _ E). destruct r as [e|l]; [by exists alloc', (inl e), ix'|].
  destruct H as (keys & -> & H2). simpl app. eexists alloc', (inr _), ix'. split; [done|]. split; [done|].
  set (l' := if _ : bool then _ else _).
  assert (Hp : l' ≡ₚ keys) by (unfold l'; case_match; [apply qsort_permutation|done]).
  split.
  - rewrite Hp. apply Forall_forall. intros bs Hbs. apply list_elem_of_lookup in Hbs as [i Hi].
    destruct (Forall2_lookup_r _ _ _ _ _ H2 Hi) as (id & _ & sl & _ & Hk). by eapply key_of_mapped.
  - intros k b loc (p & c & t & L & Hl) [Hs1 Hs2]. destruct (io_block _ _ _ I _ _ _ _ L) as [[Hw Hb] _].
    apply lookup_byte_Some in Hl as (sl & Hsl & Hc & ->); [|done].
    destruct (Hall sl) as (id & Hid & Hat); [by eapply lives_all_slices|done|].
    apply list_elem_of_lookup in Hid as [i Hi].
    destruct (Forall2_lookup_l _ _ _ _ _ H2 Hi) as (bs & Hbs & sl' & Hat' & (Hss & c' & t' & L' & _)).
    assert (sl' = sl) as -> by congruence. exists bs. split; [rewrite Hp; by eapply list_elem_of_lookup_2|].
    destruct (Hb sl Hsl) as [Hob _]. rewrite Hob in L'. destruct (lives_fun _ _ _ _ _ _ _ _ L L') as (-> & _ & _).
    split; [done|]. unfold extent_start, extent_end. rewrite Hss. exact Hc.
Qed.
End Lists.

(** ** Locks *)
Section Locks.
Context {T : Type} `{!UniqSkiplist OBSliceEntry T} `{!UniqSkiplistSpec slice_compare} {qsort_fun : Qsort}.
Implicit Types (s : OpState T) (ix : Index T Mgr) (k : FSBlockKey) (p b v : Z) (t : T)
  (base : Z → Z → Z) (ext : Z → Z) (R : list OBSliceEntry) (bs : FSBlockSliceKeyInfo) (obs : list Z).

(** The blocks [obs] are locked, once for every time they are in the list; the others have
    the count they had in [ix0]. *)
Definition locks_of p obs : Z := Z.of_nat (count_occ Z.eq_dec obs p).
Record locks ix0 ix obs : Prop := {
  lk_count : ∀ p k c t, lives ix0 p k c t → ∃ t', lives ix p k (c + locks_of p obs) t';
  lk_lives : ∀ p, p ∈ obs → ∃ k c t, lives ix0 p k c t;
}.
Lemma locks_kept ix0 ix ix' obs : kept ix ix' → locks ix0 ix obs → locks ix0 ix' obs.
Proof using.
  intros K [L1 L2]. split; [|done]. intros p k c t L. destruct (L1 p k c t L) as [t' L'].
  by eapply (kp_lives _ _ K).
Qed.
Lemma locks_refl ix : locks ix ix [].
Proof using. split; [|by intros p ?%elem_of_nil]. intros p k c t L. exists t. by rewrite Z.add_0_r. Qed.
Lemma locks_of_cons p q obs : locks_of p (q :: obs) = (if decide (q = p) then 1 else 0) + locks_of p obs.
Proof using. unfold locks_of. simpl. destruct (Z.eq_dec q p), (decide (q = p)); try done; lia. Qed.
Lemma locks_of_snoc p q obs : locks_of p (obs ++ [q]) = locks_of p obs + if decide (q = p) then 1 else 0.
Proof using. unfold locks_of. rewrite count_occ_app. simpl. destruct (Z.eq_dec q p), (decide (q = p)); try done; lia. Qed.
Lemma locks_of_nonneg p obs : 0 <= locks_of p obs.
Proof using. unfold locks_of. lia. Qed.

Lemma count_changed_maps ix ix' p k c c' t : lives ix p k c t → block_changed ix ix' p k c' t → same_maps ix ix'.
Proof using.
  intros L Hb k' b loc. split; intros (q & c1 & t1 & L1 & Hl).
  - apply Hb in L1. case_decide as Hq; [|by exists q, c1, t1]. destruct L1 as (-> & -> & ->). by exists p, c, t.
  - destruct (decide (q = p)) as [->|Hq].
    + destruct (lives_fun _ _ _ _ _ _ _ _ L1 L) as (-> & -> & ->). exists p, c', t. split; [|done].
      apply Hb. by rewrite decide_True.
    + exists q, c1, t1. split; [|done]. apply Hb. by rewrite decide_False.
Qed.
Lemma count_changed_locks ix0 ix ix' p k c t obs obs' n :
  locks ix0 ix obs → lives ix p k c t → block_changed ix ix' p k (c + n) t →
  (∀ q, locks_of q obs' = locks_of q obs + if decide (p = q) then n else 0) →
  (∀ q, q ∈ obs' → ∃ k c t, lives ix0 q k c t) → locks ix0 ix' obs'.
Proof using.
  intros [L1 L2] L Hb Hn Hl. split; [|done]. intros q k1 c1 t1 Lq. destruct (L1 q k1 c1 t1 Lq) as [t' L'].
  rewrite Hn. exists t'. apply Hb. destruct (decide (q = p)) as [->|Hq].
  - rewrite decide_True by done. destruct (lives_fun _ _ _ _ _ _ _ _ L' L) as (-> & <- & ->). split_and!; [done|lia|done].
  - rewrite decide_False by done. by rewrite Z.add_0_r.
Qed.

Lemma frames_lock k : frames (ob_index_reclaim_lock (T := T) (A := Mgr) k).
Proof using.
  unfold ob_index_reclaim_lock. apply frames_bind; [apply frames_get_ob_entry|]. intros [[p|] ?].
  - apply frames_bind; [|intros ?; apply frames_ret]. apply frames_bind; [apply frames_deref|]. intros e. apply frames_store.
  - apply frames_bind; [apply frames_ret|]. intros ?. apply frames_ret.
Qed.
Lemma frames_unlock p : frames (ob_index_reclaim_unlock (T := T) (A := Mgr) p).
Proof using.
  unfold ob_index_reclaim_unlock. apply frames_bind; [apply frames_deref|]. intros e. cbv zeta.
  apply frames_bind; [apply frames_store|]. intros ?. apply frames_ret.
Qed.

(** The space and the bytes are those of before. *)
Record undisturbed ix ix' : Prop := {
  ud_maps : same_maps ix ix';
  ud_space : same_space (mgr_of ix) (mgr_of ix');
}.
#[export] Instance undisturbed_preorder : PreOrder undisturbed.
Proof using.
  split; [by split|]. intros ix1 ix2 ix3 [M1 S1] [M2 S2]. split; [|by etransitivity].
  intros k b d. etransitivity; [apply (M2 k b d)|apply (M1 k b d)].
Qed.
Lemma mem_only_undisturbed ix ix' : mem_only ix ix' → undisturbed ix ix'.
Proof using. intros M. split; [by apply mem_only_kept|]. by rewrite (mem_only_mgr _ _ M). Qed.
Lemma undisturbed_store base ext R ix ix' :
  store_ok base ext R ix → index_ok base ext ix' → undisturbed ix ix' → store_ok base ext R ix'.
Proof using. intros S I [M Hs]. eapply store_ok_maps; [exact S|done|done|]. intros k b d Hm. by apply M. Qed.

Lemma lock_run base ext R ix k :
  store_ok base ext R ix → key_ok k →
  ∃ ob ix', ob_index_reclaim_lock k ix = Some (ob, ix') ∧ store_ok base ext R ix' ∧ undisturbed ix ix' ∧
    match ob with
    | None => ix' = ix
    | Some p => ∃ c t, lives ix p k c t ∧ block_changed ix ix' p k (c + 1) t
    end.
Proof using UniqSkiplistSpec0.
  intros S Hk. destruct (ob_index_reclaim_lock_ok base ext ix k (so_index _ _ _ _ S) Hk) as (ob & ix' & E & I' & H).
  exists ob, ix'. split; [done|]. pose proof (framed_space _ _ (frames_lock k _ _ _ E)) as Hs.
  destruct ob as [p|]; [|by destruct H as [-> _]; split_and!]. destruct H as (c & t & L & Hb & _).
  assert (U : undisturbed ix ix') by (split; [by eapply count_changed_maps|done]).
  split; [by eapply undisturbed_store|]. split; [done|]. by exists c, t.
Qed.

Lemma unlock_run base ext R ix0 p obs ix :
  (∀ p k c t, lives ix0 p k c t → 0 <= c) → store_ok base ext R ix → locks ix0 ix (p :: obs) →
  ∃ w ix', ob_index_reclaim_unlock p ix = Some (w, ix') ∧ store_ok base ext R ix' ∧ undisturbed ix ix' ∧
    locks ix0 ix' obs.
Proof using UniqSkiplistSpec0.
  intros H0 S Lk. destruct (lk_lives _ _ _ Lk p) as (k & c & t & L); [by left|].
  destruct (lk_count _ _ _ Lk p k c t L) as [t' L']. rewrite locks_of_cons, decide_True in L' by done.
  pose proof (locks_of_nonneg p obs) as Hn. pose proof (H0 _ _ _ _ L) as Hc.
  destruct (ob_index_reclaim_unlock_ok base ext ix p k _ t' (so_index _ _ _ _ S) L') as (w & ix1 & E & I1 & Hb & _); [lia|].
  assert (U : undisturbed ix ix1).
  { split; [by eapply count_changed_maps|]. apply framed_space. by eapply frames_unlock. }
  exists w, ix1. split; [done|]. split; [by eapply undisturbed_store|]. split; [done|].
  replace (_ - 1) with (c + (1 + locks_of p obs) + (-1)) in Hb by lia.
  eapply (count_changed_locks ix0 ix ix1 p k _ t' (p :: obs) obs (-1)); [exact Lk|exact L'|exact Hb| |].
  - intros q. rewrite locks_of_cons. case_decide; lia.
  - intros q Hq. apply (lk_lives _ _ _ Lk). by right.
Qed.
(** Unlocking all of [obs]. *)
Lemma unlock_all_run base ext R ix0 obs rest s :
  (∀ p k c t, lives ix0 p k c t → 0 <= c) →
  store_ok base ext R (os_index s) → locks ix0 (os_index s) (obs ++ rest) →
  ∃ ix', unlock_all obs s = Ret (inr tt) (set_index ix' s) ∧ store_ok base ext R ix' ∧
    undisturbed (os_index s) ix' ∧ locks ix0 ix' rest.
Proof using UniqSkiplistSpec0.
  intros H0. revert s. induction obs as [|p obs IH]; intros s S Lk; cbn [unlock_all].
  { exists (os_index s). split_and!; [by destruct s|done|done|exact Lk]. }
  destruct (unlock_run base ext R ix0 p (obs ++ rest) (os_index s) H0 S Lk) as (w & ix1 & E & S1 & U & Lk1).
  rewrite (obind_ret _ _ _ _ _ (oindex_run _ s _ _ E)).
  destruct (IH (set_index ix1 s) S1 Lk1) as (ix2 & E2 & S2 & U2 & Lk2).
  exists ix2. split; [exact E2|]. split; [done|]. split; [by etransitivity|done].
Qed.
End Locks.

(** ** Combining *)
Section Combine.
Context {T : Type} `{!UniqSkiplist OBSliceEntry T} `{!UniqSkiplistSpec slice_compare} {qsort_fun : Qsort}.
Implicit Types (s : OpState T) (ix : Index T Mgr) (k : FSBlockKey) (p b v : Z) (t : T)
  (base : Z → Z → Z) (ext : Z → Z) (R : list OBSliceEntry) (bs : FSBlockSliceKeyInfo) (obs : list Z)
  (blk : TrunkReclaimBlockInfo) (blks : list TrunkReclaimBlockInfo).

Lemma covered_app l1 l2 k b : covered (l1 ++ l2) k b ↔ covered l1 k b ∨ covered l2 k b.
Proof using.
  unfold covered. split.
  - intros (bs & [Hl|Hl]%elem_of_app & Hb); [left|right]; eauto.
  - intros [(bs & Hl & Hb)|(bs & Hl & Hb)]; exists bs; (split; [apply elem_of_app; tauto|done]).
Qed.
Lemma covered_cons bs l k b : covered (bs :: l) k b ↔ in_extent_of bs k b ∨ covered l k b.
Proof using.
  change (bs :: l) with ([bs] ++ l). rewrite covered_app. split; (intros [H|H]; [left|by right]).
  - by destruct H as (x & ->%list_elem_of_singleton & Hx).
  - exists bs. split; [by left|done].
Qed.

(** The extents of a chain are of one block, and mapped. *)
Definition chain_ok ix k (l : list FSBlockSliceKeyInfo) : Prop := Forall (λ bs, bs_block bs = k ∧ extent_mapped ix bs) l.
Lemma chain_add_ok ix k l bs :
  chain_ok ix k l → bs_block bs = k → extent_mapped ix bs →
  chain_ok ix k (chain_add l bs) ∧ ∀ k' b, covered (l ++ [bs]) k' b → covered (chain_add l bs) k' b.
Proof using.
  intros Hl Hk Hm. unfold chain_add. destruct (last l) as [tail|] eqn:El; cycle 1.
  { apply last_None in El as ->. split; [by constructor|done]. }
  apply last_Some in El as [l' ->]. cbv zeta. destruct (Z.eqb_spec (ss_offset (bs_slice tail) + ss_length (bs_slice tail))
    (ss_offset (bs_slice bs))) as [He|He]; cycle 1.
  { split; [|done]. apply Forall_app. split; [done|]. by constructor. }
  rewrite removelast_last. unfold chain_ok in *. rewrite Forall_app, Forall_cons in Hl.
  destruct Hl as (Hl & (Hkt & Et) & _).
  assert (Hin : ∀ k' b, in_extent_of (with_slice_length tail (ss_length (bs_slice tail) + ss_length (bs_slice bs))) k' b ↔
    in_extent_of tail k' b ∨ in_extent_of bs k' b).
  { intros k' b. unfold in_extent_of, extent_start, extent_end. simpl.
    pose proof (em_length _ _ Et). pose proof (em_length _ _ Hm). rewrite Hkt, Hk. split.
    - intros [-> Hb]. destruct (decide (b < ss_offset (bs_slice bs))); [left|right]; split; try done; lia.
    - intros [[-> Hb]|[-> Hb]]; (split; [done|]); lia. }
  split.
  - apply Forall_app. split; [done|]. constructor; [|constructor]. split; [done|]. split.
    + apply Et.
    + simpl. pose proof (em_length _ _ Et). pose proof (em_length _ _ Hm). lia.
    + intros k' b [H|H]%Hin; [by apply Et|by apply Hm].
  - intros k' b. rewrite !covered_app, !covered_cons, Hin. tauto.
Qed.

Definition block_ok_of ix blk : Prop := ∃ k c t, lives ix (rb_ob blk) k c t ∧ chain_ok ix k (rb_slices blk).
Definition extents blks : list FSBlockSliceKeyInfo := blks ≫= rb_slices.
Lemma extents_app l1 l2 : extents (l1 ++ l2) = extents l1 ++ extents l2.
Proof using. apply bind_app. Qed.
Lemma extents_one blk : extents [blk] = rb_slices blk.
Proof using. unfold extents. simpl. by rewrite app_nil_r. Qed.

Lemma chain_ok_mono ix ix' k l :
  (∀ k b loc, maps ix k b loc → ∃ loc', maps ix' k b loc') → chain_ok ix k l → chain_ok ix' k l.
Proof using. intros H Hl. eapply Forall_impl; [exact Hl|]. intros bs [? ?]. split; [done|by eapply extent_mapped_mono]. Qed.
(** Counting a lock leaves the blocks as they are. *)
Lemma block_ok_count ix ix' p k c c' t blk :
  lives ix p k c t → block_changed ix ix' p k c' t → block_ok_of ix blk → block_ok_of ix' blk.
Proof using.
  intros L Hb (k1 & c1 & t1 & L1 & Hc). pose proof (count_changed_maps _ _ _ _ _ _ _ L Hb) as M.
  destruct (decide (rb_ob blk = p)) as [Hp|Hp].
  - rewrite Hp in L1. destruct (lives_fun _ _ _ _ _ _ _ _ L1 L) as (-> & -> & ->). exists k, c', t. split.
    + apply Hb. by rewrite decide_True.
    + eapply chain_ok_mono; [|exact Hc]. by apply same_maps_mono.
  - exists k1, c1, t1. split; [|eapply chain_ok_mono; [|exact Hc]; by apply same_maps_mono].
    apply Hb. by rewrite decide_False.
Qed.

Lemma same_block_run base ext ix s blks bs :
  index_ok base ext (os_index s) → Forall (block_ok_of (os_index s)) blks → key_ok (bs_block bs) →
  ∃ same, same_block blks bs s = Ret (inr same) s ∧
    (same = true → ∃ l blk, blks = l ++ [blk] ∧ ∃ c t, lives (os_index s) (rb_ob blk) (bs_block bs) c t).
Proof using.
  intros I Hb Hk. unfold same_block. destruct (last blks) as [blk|] eqn:El; [|by exists false].
  apply last_Some in El as [l ->]. apply Forall_app in Hb as [_ Hb]. apply Forall_cons in Hb as [(k & c & t & L & _) _].
  pose proof L as (e & He & Hc)%lives_entry.
  assert (E : oindex (e ← deref (rb_ob blk); mret (ob_bkey e)) s = Ret (inr k) s).
  { unfold oindex, mbind, IM_bind, deref. rewrite He. simpl. unfold core in Hc. injection Hc as <- _ _.
    unfold mret, IM_ret. by destruct s. }
  rewrite (obind_ret _ _ _ _ _ E). eexists. split; [done|]. intros Hz%Z.eqb_eq.
  exists l, blk. split; [done|]. exists c, t. by rewrite <- (key_ok_eq k (bs_block bs)) by (done || by eapply lives_key).
Qed.

(** Live blocks were live before. *)
Definition lives_back ix0 ix : Prop := ∀ p k c t, lives ix p k c t → ∃ c0 t0, lives ix0 p k c0 t0.
Lemma lives_back_count ix0 ix ix' p k c c' t :
  lives_back ix0 ix → lives ix p k c t → block_changed ix ix' p k c' t → lives_back ix0 ix'.
Proof using.
  intros H L Hb q k1 c1 t1 L1%Hb. case_decide; [|by eapply H]. destruct L1 as (-> & _ & _). subst. by eapply H.
Qed.

Lemma combine_slices_run base ext R ix0 slices blks s :
  (∀ p k c t, lives ix0 p k c t → 0 <= c) → store_ok base ext R (os_index s) →
  Forall (extent_mapped (os_index s)) slices → Forall (block_ok_of (os_index s)) blks →
  locks ix0 (os_index s) (map rb_ob blks) → lives_back ix0 (os_index s) →
  ∃ r ix', combine_slices slices blks s = Ret r (set_index ix' s) ∧ store_ok base ext R ix' ∧
    undisturbed (os_index s) ix' ∧
    match r with
    | inl e => e = ENOENT ∧ locks ix0 ix' []
    | inr blks' => Forall (block_ok_of ix') blks' ∧ locks ix0 ix' (map rb_ob blks') ∧
        ∀ k b, covered (extents blks ++ slices) k b → covered (extents blks') k b
    end.
Proof using UniqSkiplistSpec0.
  intros H0. revert blks s. induction slices as [|bs slices IH]; intros blks s S Hsl Hb Lk Bk; cbn [combine_slices].
  { exists (inr blks), (os_index s). split_and!; [by destruct s|done|done|done|done|]. by rewrite app_nil_r. }
  apply Forall_cons in Hsl as [Hbs Hsl]. pose proof (so_index _ _ _ _ S) as I.
  destruct (same_block_run base ext (os_index s) s blks bs I Hb (em_key _ _ Hbs)) as (same & E & Hsame).
  rewrite (obind_ret _ _ _ _ _ E). destruct same.
  - destruct (Hsame eq_refl) as (l & blk & -> & c & t & L). unfold add_to_last. rewrite last_snoc, removelast_last.
    apply Forall_app in Hb as [Hl Hb]. apply Forall_cons in Hb as [(k & c' & t' & L' & Hc) _].
    destruct (lives_fun _ _ _ _ _ _ _ _ L L') as (<- & _ & _).
    destruct (chain_add_ok (os_index s) _ _ bs Hc eq_refl Hbs) as [Hc' Hcov].
    set (blk' := mkBlockInfo (rb_ob blk) (chain_add (rb_slices blk) bs)).
    destruct (IH (l ++ [blk']) s) as (r & ix' & E' & S' & U' & H'); try done.
    + apply Forall_app. split; [done|]. constructor; [|constructor]. by exists (bs_block bs), c', t'.
    + rewrite map_app in *. exact Lk.
    + exists r, ix'. split; [exact E'|]. split; [done|]. split; [done|]. destruct r as [e|blks']; [done|].
      destruct H' as (H1 & H2 & H3). split_and!; [done|done|]. intros k b Hkb. apply H3.
      rewrite extents_app, !extents_one in *. specialize (Hcov k b). simpl.
      rewrite !covered_app, ?covered_cons in *. tauto.
  - destruct (lock_run base ext R (os_index s) (bs_block bs) S (em_key _ _ Hbs)) as (ob & ix1 & E1 & S1 & U1 & H1).
    assert (E1' : oindex (ob_index_reclaim_lock (bs_block bs)) s = Ret (inr ob) (set_index ix1 s)) by (by apply oindex_run).
    rewrite (obind_ret _ _ _ _ _ E1'). destruct ob as [p|].
    + destruct H1 as (c & t & L & Hch). set (blk' := mkBlockInfo p [bs]).
      assert (Hmono : ∀ k b loc, maps (os_index s) k b loc → ∃ loc', maps ix1 k b loc') by (apply same_maps_mono, U1).
      destruct (IH (blks ++ [blk']) (set_index ix1 s)) as (r & ix' & E' & S' & U' & H').
      * exact S1.
      * eapply Forall_impl; [exact Hsl|]. intros x. by apply extent_mapped_mono.
      * apply Forall_app. split.
        { eapply Forall_impl; [exact Hb|]. intros x. by eapply block_ok_count. }
        constructor; [|constructor]. exists (bs_block bs), (c + 1), t. split; [apply Hch; by rewrite decide_True|].
        constructor; [|constructor]. split; [done|]. by eapply extent_mapped_mono.
      * rewrite map_app. eapply (count_changed_locks ix0 (os_index s) ix1 p _ c t (map rb_ob blks)); [done|done|done| |].
        -- intros q. simpl. by rewrite locks_of_snoc.
        -- intros q [Hq|Hq]%elem_of_app; [by apply (lk_lives _ _ _ Lk)|]. simpl in Hq.
           apply list_elem_of_singleton in Hq as ->. destruct (Bk _ _ _ _ L) as (c0 & t0 & L0). eauto.
      * by eapply lives_back_count.
      * exists r, ix'. split; [exact E'|]. split; [done|]. split; [by etransitivity|]. destruct r as [e|blks']; [done|].
        destruct H' as (H1' & H2 & H3). split_and!; [done|done|]. intros k b Hkb. apply H3.
        rewrite extents_app, extents_one. simpl. by rewrite <- app_assoc.
    + subst ix1. destruct (unlock_all_run base ext R ix0 (map rb_ob blks) [] (set_index (os_index s) s) H0 S1)
        as (ix2 & E2 & S2 & U2 & Lk2); [by rewrite app_nil_r|].
      rewrite (obind_ret _ _ _ _ _ E2). by exists (inl ENOENT), ix2.
Qed.

Lemma combine_run base ext R ix0 slices alloc s :
  (∀ p k c t, lives ix0 p k c t → 0 <= c) → store_ok base ext R (os_index s) →
  Forall (extent_mapped (os_index s)) slices → locks ix0 (os_index s) [] → lives_back ix0 (os_index s) →
  ∃ alloc' r ix', combine_to_rb_array slices alloc s = Ret (inr (alloc', r)) (set_index ix' s) ∧
    store_ok base ext R ix' ∧ undisturbed (os_index s) ix' ∧
    match r with
    | inl e => e ≠ 0 ∧ locks ix0 ix' []
    | inr blks => Forall (block_ok_of ix') blks ∧ locks ix0 ix' (map rb_ob blks) ∧
        ∀ k b, covered slices k b → covered (extents blks) k b
    end.
Proof using UniqSkiplistSpec0.
  intros H0 S Hsl Lk Bk. unfold combine_to_rb_array. cbv zeta.
  assert (Hok : ∃ ok ix1, (if alloc <? Z.of_nat (length slices) then oalloc else mret true) s
      = Ret (inr ok) (set_index ix1 s) ∧ mem_only (os_index s) ix1).
  { case_match; [apply oalloc_only|]. exists true, (os_index s). split; [by destruct s|done]. }
  destruct Hok as (ok & ix1 & E1 & M1). rewrite (obind_ret _ _ _ _ _ E1).
  pose proof (mem_only_undisturbed _ _ M1) as U1. pose proof (mem_only_store _ _ _ _ _ M1 S) as S1.
  assert (Hlv : ∀ p k c t, lives ix1 p k c t ↔ lives (os_index s) p k c t) by (by destruct M1 as (m & -> & _)).
  assert (Lk1 : locks ix0 ix1 []).
  { eapply locks_kept; [|exact Lk]. by apply mem_only_kept. }
  destruct ok; cbn [negb]; cycle 1.
  { exists alloc, (inl ENOMEM), ix1. by split_and!. }
  destruct (combine_slices_run base ext R ix0 slices [] (set_index ix1 s)) as (r & ix2 & E2 & S2 & U2 & H2); try done.
  - eapply Forall_impl; [exact Hsl|]. intros x. apply extent_mapped_mono, same_maps_mono, U1.
  - intros p k c t L%Hlv. by eapply Bk.
  - rewrite (otry_run _ _ _ _ _ E2). eexists _, r, ix2. split; [done|]. split; [done|]. split; [by etransitivity|].
    destruct r as [e|blks]; [by destruct H2 as [-> ?]|done].
Qed.
End Combine.

(** ** Reclaiming a trunk moves its slices

    The invariant of a reclaim, through its two waits: in every state the bytes of the store
    are those of before, and what is still mapped into the trunk is in the extents that are
    left. *)

Section Invariant.
Context {T : Type} `{!UniqSkiplist OBSliceEntry T} `{!UniqSkiplistSpec slice_compare} {qsort_fun : Qsort}.
Context (now : Z) (cont : bool) (discard : Z) (blocked : Z → Mgr → Mgr) (retries : nat).
Implicit Types (s : OpState T) (ix : Index T Mgr) (k : FSBlockKey) (p b v sa ba : Z) (t : T) (th : Thread T)
  (base : Z → Z → Z) (ext : Z → Z) (d : Disk) (bs : FSBlockSliceKeyInfo) (obs : list Z)
  (l slices : list FSBlockSliceKeyInfo) (blocks : list TrunkReclaimBlockInfo).

Context (Hused : ∀ i m, used_kept m (blocked i m)).
Context (Haligned : ∀ i m, aligned8 m → aligned8 (blocked i m)).
Context (Hdiscard : 0 < discard).
Context (Hspace : ∀ i m, alloc_safe m → alloc_safe (blocked i m) ∧ space_mono m (blocked i m)).

(** ** The bytes of the store *)
Definition same_bytes d ix d' ix' : Prop := ∀ k b v, content d' ix' k b v ↔ content d ix k b v.
Lemma same_bytes_trans d1 ix1 d2 ix2 d3 ix3 :
  same_bytes d1 ix1 d2 ix2 → same_bytes d2 ix2 d3 ix3 → same_bytes d1 ix1 d3 ix3.
Proof using. intros H1 H2 k b v. rewrite (H2 k b v). apply H1. Qed.
Lemma same_bytes_maps d ix ix' : same_maps ix ix' → same_bytes d ix d ix'.
Proof using. intros H k b v. by apply content_same_maps. Qed.
Lemma same_bytes_mono d ix d' ix' :
  same_bytes d ix d' ix' → ∀ k b loc, maps ix k b loc → ∃ loc', maps ix' k b loc'.
Proof using.
  intros H k b loc Hm. assert (Hc : ∃ v, content d ix k b v) by (eexists; by exists loc).
  destruct Hc as [v (loc' & Hm' & _)%H]. eauto.
Qed.

(** ** What is left in the trunk *)
Definition old_place ix0 (tk : trunk_key) (loc : DiskLoc) : Prop := placed (mgr_of ix0) loc ∧ in_trunk_loc tk loc.
Definition left_in ix0 tk ix l : Prop := ∀ k b loc, maps ix k b loc → old_place ix0 tk loc → covered l k b.
Lemma left_in_maps ix0 tk ix ix' l : same_maps ix ix' → left_in ix0 tk ix l → left_in ix0 tk ix' l.
Proof using. intros H Hl k b loc Hm. apply Hl with (k := k). by apply H. Qed.

(** ** What was read is what is written *)
Lemma read_data base ext d ix bs (l : list Z) :
  index_ok base ext ix → extent_mapped ix bs → read_content d ix bs l →
  Z.of_nat (length l) = ss_length (bs_slice bs) ∧
  ∀ k b v, in_extent_of bs k b → content d ix k b v ↔ l !! Z.to_nat (b - extent_start bs) = Some v.
Proof using.
  intros I [Hk Hl Hm] [Hlen Hc].
  assert (Hat : ∀ b, extent_start bs <= b < extent_end bs → ∃ v, l !! Z.to_nat (b - extent_start bs) = Some v ∧
    content d ix (bs_block bs) b v).
  { intros b Hb. destruct (Hm (bs_block bs) b) as [loc Hloc]; [by split|].
    specialize (Hc (b - extent_start bs)). cbv zeta in Hc. unfold extent_start, extent_end in *.
    replace (ss_offset (bs_slice bs) + (b - ss_offset (bs_slice bs))) with b in Hc by lia.
    specialize (Hc ltac:(lia)). destruct (l !! _) as [v|]; [|by apply Hc in Hloc].
    exists v. split; [done|]. destruct Hc as [Hc|[_ Hn]]; [done|]. by apply Hn in Hloc. }
  split.
  - destruct (Hat (extent_end bs - 1)) as (v & Hv & _); [unfold extent_start, extent_end; lia|].
    apply lookup_lt_Some in Hv. unfold extent_start, extent_end in Hv. lia.
  - intros k b v [-> Hb]. destruct (Hat b Hb) as (v' & Hv' & (loc' & M' & ->)). rewrite Hv'. split.
    + intros (loc & M & ->). by rewrite (maps_fun _ _ _ _ _ (io_wf _ _ _ I) M M').
    + intros [= <-]. by exists loc'.
Qed.

(** The space of a write is new: nothing in it was handed out before. *)
Definition fresh_slices ix (l : list OBSliceEntry) : Prop :=
  ∀ sl loc, sl ∈ l → holds sl loc → ¬ placed (mgr_of ix) loc.
Definition cell (loc : DiskLoc) : OBSliceEntry := whole (mkTrunkSpace (dl_store loc) (dl_trunk loc) (dl_pos loc) 1).
Lemma cell_place loc loc' : holds (cell loc) loc' → same_place loc' loc.
Proof using. intros (b & Hb & ->). apply covers_whole in Hb. simpl in Hb. assert (b = 0) as -> by lia. split_and!; [done|done|]. simpl. change (soff (cell loc)) with 0. lia. Qed.
Lemma cell_holds loc : ∃ loc', holds (cell loc) loc' ∧ same_place loc' loc.
Proof using.
  exists (loc_at (cell loc) 0). assert (H : holds (cell loc) (loc_at (cell loc) 0)) by (exists 0; split; [apply covers_whole; simpl; lia|done]).
  split; [done|by apply cell_place].
Qed.
Lemma same_place_trans loc1 loc2 loc3 : same_place loc1 loc2 → same_place loc2 loc3 → same_place loc1 loc3.
Proof using. intros (E1 & E2 & E3) (F1 & F2 & F3). split_and!; congruence. Qed.
Lemma placed_same_place m loc loc' : same_place loc' loc → placed m loc → placed m loc'.
Proof using. intros (E1 & E2 & E3) (f & sz & Hv & Hb). exists f, sz. rewrite E1, E2, E3. done. Qed.

(** The space of a write is new: no place in it was handed out before. *)
Lemma write_fresh base ext R s buffers data s' :
  store_ok base ext R (os_index s) → extent_ok (op_bs_key (os_op s)) →
  (∀ pairs s', tiles (extent_start (op_bs_key (os_op s))) (pr_slice <$> pairs) (extent_end (op_bs_key (os_op s))) →
     op_sarray (os_op s') = pairs → pushes data pairs (push_data buffers pairs (op_buff (os_op s))) s') →
  fs_slice_write now cont discard blocked retries buffers s = Ret (inr tt) s' →
  fresh_slices (os_index s) (pr_slice <$> op_sarray (os_op s')).
Proof using All.
  intros S Hx Hpush E sl loc Hsl Hh Hpl.
  assert (Hrun : ∀ R, store_ok base ext R (os_index s) → ∃ base' ext',
    store_ok base' ext' (spaces_of (op_sarray (os_op s')) ++ R) (os_index s') ∧
    Forall (λ sl, slen sl <= sp_size (se_space sl)) (pr_slice <$> op_sarray (os_op s')) ∧
    same_maps (os_index s) (os_index s')).
  { intros R' S'. pose proof (fs_slice_write_any_run now cont discard blocked retries Hused Haligned Hdiscard Hspace
      base ext R' s buffers data S' Hx Hpush) as H. rewrite E in H.
    destruct H as (_ & M & _ & _ & _ & _ & _ & base' & ext' & _ & (S1 & Rs & _) & _).
    exists base', ext'. split_and!; [done|apply Rs|done]. }
  destruct (Hrun R S) as (base1 & ext1 & S1 & Hfit & M). rewrite Forall_forall in Hfit.
  destruct (holds_whole sl loc (Hfit sl Hsl) Hh) as (loc' & Hh' & Hp).
  assert (Hin : whole (se_space sl) ∈ spaces_of (op_sarray (os_op s'))).
  { apply list_elem_of_fmap in Hsl as (p & -> & Hp'). apply list_elem_of_fmap. by exists p. }
  assert (Hcell : store_ok base ext (cell loc :: R) (os_index s)).
  { destruct S as [A1 A2 A3 A4 A5 A6 A7]. split; try done.
    - intros x d [->|Hx']%elem_of_cons Hd; [|by apply (A6 x)]. apply cell_place in Hd.
      split; [by eapply placed_same_place|]. intros k b d' Hm Hs.
      destruct (so_reserved _ _ _ _ S1 (whole (se_space sl)) loc') as [_ Hn]; [apply elem_of_app; by left|done|].
      apply (Hn k b d'); [by apply M|]. eapply same_place_trans; [symmetry; exact Hp|].
      eapply same_place_trans; [symmetry; exact Hd|done].
    - constructor; [done|]. apply Forall_forall. intros x Hx' d1 d2 Hd1 Hd2 Hs.
      pose proof (StronglySorted_app_1_elem_of _ _ _ _ _ (so_apart _ _ _ _ S1) Hin Hx') as Hap.
      apply (Hap loc' d2 Hh' Hd2). apply cell_place in Hd1. eapply same_place_trans; [symmetry; exact Hp|].
      eapply same_place_trans; [symmetry; exact Hd1|done]. }
  destruct (Hrun _ Hcell) as (base2 & ext2 & S2 & _).
  destruct (cell_holds loc) as (loc2 & Hh2 & Hs2).
  pose proof (StronglySorted_app_1_elem_of _ _ _ _ (cell loc) (so_apart _ _ _ _ S2) Hin) as Hap.
  apply (Hap ltac:(by left) loc' loc2 Hh' Hh2). eapply same_place_trans; [symmetry; exact Hp|by symmetry].
Qed.
(** ** The source of an operation stays *)
Definition keeps_source {B} (m : OM T B) : Prop :=
  ∀ s r s', m s = Ret r s' → op_source (os_op s') = op_source (os_op s).
Lemma source_bind {B C} (m : OM T B) (f : B → OM T C) :
  keeps_source m → (∀ y, keeps_source (f y)) → keeps_source (m ≫= f).
Proof using.
  intros Hm Hf s r s'. unfold mbind, OM_bind. destruct (m s) as [| |[e|y] s1] eqn:E; [done|done|..].
  - intros [= <- <-]. by eapply Hm.
  - intros E2. rewrite (Hf y _ _ _ E2). by eapply Hm.
Qed.
Lemma source_ret {B} (y : B) : keeps_source (mret y).
Proof using. by intros s r s' [= <- <-]. Qed.
Lemma source_field {B} (f : FSSliceOpContext → B) : keeps_source (op_field f).
Proof using. by intros s r s' [= <- <-]. Qed.
Lemma source_get : keeps_source oget.
Proof using. by intros s r s' [= <- <-]. Qed.
Lemma source_mod f : (∀ s, op_source (os_op (f s)) = op_source (os_op s)) → keeps_source (omod f).
Proof using. by intros H s r s' [= <- <-]. Qed.
Lemma source_index {B} (m : IM T Mgr B) : keeps_source (oindex m).
Proof using. intros s r s'. unfold oindex. case_match; [|done]. case_match. by intros [= <- <-]. Qed.
Lemma source_wait {B} (m : IM T Mgr (Outcome B)) : keeps_source (owait m).
Proof using. intros s r s'. unfold owait. repeat case_match; try done; by intros [= <- <-]. Qed.
Lemma source_try {B} (m : OM T B) : keeps_source m → keeps_source (otry m).
Proof using. intros Hm s r s'. unfold otry. destruct (m s) eqn:E; [done|done|]. intros [= <- <-]. by eapply Hm. Qed.
Create HintDb source.
Hint Resolve source_ret source_field source_get source_index source_wait source_try : source.
Ltac keep := repeat (first
  [ solve [auto with source] | apply source_bind; [|intros ?] | apply source_mod; by intros ?
  | match goal with |- keeps_source (if ?x then _ else _) => destruct x end
  | match goal with |- keeps_source (let '(_, _) := ?x in _) => destruct x end
  | match goal with |- keeps_source (match ?x with _ => _ end) => destruct x end ]).

Lemma keeps_add_slices before pairs : keeps_source (add_slices_to_index before pairs).
Proof using. revert before. induction pairs as [|pr pairs IH]; intros before; cbn [add_slices_to_index]; unfold add_space_changed, set_sarray; keep. Qed.
Lemma keeps_free_pairs pairs : keeps_source (free_pairs pairs).
Proof using. induction pairs as [|pr pairs IH]; cbn [free_pairs]; unfold ob_index_free; keep. Qed.
Hint Resolve keeps_add_slices keeps_free_pairs : source.
Lemma keeps_write_finish : keeps_source fs_write_finish.
Proof using. unfold fs_write_finish, set_data_version, free_slice_array, set_sarray. keep. Qed.

(** ** What a write of the same bytes changes *)
Lemma overlaid_same_bytes ix ix' d bs fin pairs data :
  overlaid_all ix ix' (bs_block bs) fin → fin ⊆ pr_slice <$> pairs →
  tiles (extent_start bs) (pr_slice <$> pairs) (extent_end bs) →
  Forall (λ sl, se_type sl = OB_SLICE_TYPE_FILE) (pr_slice <$> pairs) →
  (fin ≠ [] → Forall (λ w, data_placed w d) (chunks pairs data)) →
  (∀ k b v, in_extent_of bs k b → content d ix k b v ↔ data !! Z.to_nat (b - extent_start bs) = Some v) →
  same_bytes d ix d ix'.
Proof using.
  intros O Hfin Ht Hty Hd Hc k b v. destruct (decide (k = bs_block bs ∧ Exists (λ sl, covers sl b) fin)) as [[-> Hex]|Hno].
  - apply Exists_exists in Hex as (sl & Hsl & Hcov). pose proof (Hfin _ Hsl) as Hin.
    apply list_elem_of_fmap in Hin as (p & -> & Hp).
    assert (Hne : fin ≠ []) by (intros ->; by apply elem_of_nil in Hsl).
    rewrite (overlaid_covered ix ix' _ fin pairs data _ _ d p b v O Hfin Ht Hty (Hd Hne) Hp Hsl Hcov).
    symmetry. apply Hc. split; [done|].
    apply (tiles_cover _ _ _ b Ht). exists (pr_slice p). split; [by apply Hfin|done].
  - unfold content. assert (Hm : ∀ loc, maps ix' k b loc ↔ maps ix k b loc); [|by setoid_rewrite Hm].
    assert (Hno' : ¬ (k = bs_block bs ∧ ∃ sl, sl ∈ fin ∧ covers sl b)).
    { intros [-> Hex]. apply Hno. split; [done|]. by apply Exists_exists. }
    intros loc. rewrite (O k b loc). split; [|by right]. intros [(-> & sl & Hsl & Hcov & _)|[_ ?]]; [|done].
    exfalso. apply Hno'. eauto.
Qed.

(** ** The invariant *)
Section Inv.
Variables (ix0 : Index T Mgr) (d0 : Disk) (R : list OBSliceEntry) (tk : trunk_key) (strict : Prop).

(** Between two operations; [obs] are the locked blocks, [l] the extents that are left.
    [strict]: no read failed with [ENOENT]. *)
Record settled obs l th : Prop := {
  sd_store : ∃ base ext, store_ok base ext R (os_index (th_state th));
  sd_bytes : same_bytes d0 ix0 (th_disk th) (os_index (th_state th));
  sd_space : space_mono (mgr_of ix0) (mgr_of (os_index (th_state th)));
  sd_locks : locks ix0 (os_index (th_state th)) obs;
  sd_source : op_source (os_op (th_state th)) = BINLOG_SOURCE_RECLAIM;
  sd_extents : Forall (extent_mapped (os_index (th_state th))) l;
  sd_left : strict → left_in ix0 tk (os_index (th_state th)) l;
}.
(** Before the slices are listed. *)
Record ready th : Prop := {
  re_store : ∃ base ext, store_ok base ext R (os_index (th_state th));
  re_index : os_index (th_state th) = ix0;
  re_disk : th_disk th = d0;
  re_source : op_source (os_op (th_state th)) = BINLOG_SOURCE_RECLAIM;
  re_listed : listed ix0 tk;
}.
Definition quiet th : Prop := os_reads (th_state th) = [] ∧ os_writes (th_state th) = [] ∧ th_notify_done th = false.

Definition locked block blocks : list Z := block :: map rb_ob blocks.
Definition left_of slices blocks : list FSBlockSliceKeyInfo := slices ++ extents blocks.

(** A read of [bs], which was started in [th1]. *)
Record reading obs bs l th : Prop := mkReading {
  rd_start : ∃ th1 base ext o0 bufs total,
    settled obs (bs :: l) th1 ∧ op_bs_key o0 = bs ∧ op_source o0 = BINLOG_SOURCE_RECLAIM ∧ (∀ id, 0 <= ext id) ∧
    read_inv base ext R (os_index (th_state th1)) (th_disk th1) o0 bufs total th ∧ read_exact total th ∧
    (∀ d, read_content d (os_index (th_state th1)) bs (bytes_of d bufs)) ∧
    (∀ d, total = Z.of_nat (length (bytes_of d bufs))) ∧
    ∀ d, Forall (λ bf, 0 < Z.of_nat (length (buffer_bytes d bf))) bufs;
}.

(** A write of [bs]: the data are its bytes, the slices of the array lie in new space. *)
Record writing obs bs l th : Prop := mkWriting {
  wt_start : ∃ th1 base ext0 ext s0 pairs data,
    settled obs (bs :: l) th1 ∧ op_source (os_op s0) = BINLOG_SOURCE_RECLAIM ∧ (∀ id, 0 <= ext0 id) ∧
    write_inv s0 (os_index (th_state th)) (th_disk th1) pairs (chunks pairs data) th ∧
    store_ok base ext (spaces_of pairs ++ R) (os_index (th_state th)) ∧
    reserved (bs_block bs) OB_SLICE_TYPE_FILE (extent_start bs) (extent_end bs) ext0 ext
      (os_index (th_state th)) (pr_slice <$> pairs) ∧
    kept (os_index (th_state th1)) (os_index (th_state th)) ∧
    same_maps (os_index (th_state th1)) (os_index (th_state th)) ∧
    (∀ k b v, in_extent_of bs k b → content (th_disk th1) (os_index (th_state th1)) k b v ↔
      data !! Z.to_nat (b - extent_start bs) = Some v) ∧
    fresh_slices (os_index (th_state th1)) (pr_slice <$> pairs);
}.

Definition reclaim_inv (pc : ReclaimPc) th : Prop :=
  match pc with
  | ReclaimStart k => k = tk ∧ ready th ∧ quiet th
  | ReclaimCombine slices => settled [] slices th ∧ quiet th ∧ lives_back ix0 (os_index (th_state th))
  | ReclaimSlices slices block blocks => settled (locked block blocks) (left_of slices blocks) th ∧ quiet th
  | ReclaimRead slices block blocks =>
      ∃ bs, reading (locked block blocks) bs (left_of slices blocks) th ∧
        (strict → op_result (os_op (th_state th)) ≠ ENOENT)
  | ReclaimWrite slices block blocks => ∃ bs, writing (locked block blocks) bs (left_of slices blocks) th
  | ReclaimReturned result =>
      (∃ base ext, store_ok base ext R (os_index (th_state th))) ∧
      same_bytes d0 ix0 (th_disk th) (os_index (th_state th)) ∧
      space_mono (mgr_of ix0) (mgr_of (os_index (th_state th))) ∧
      locks ix0 (os_index (th_state th)) [] ∧
      (result = 0 → quiet th ∧ (strict → left_in ix0 tk (os_index (th_state th)) []))
  | ReclaimUndefined => False
  end.

(** ** Steps that leave the store alone *)
Context (Hcount : ∀ p k c t, lives ix0 p k c t → 0 <= c).

Lemma settled_index obs obs' l th ix' :
  settled obs l th → (∃ base ext, store_ok base ext R ix') → undisturbed (os_index (th_state th)) ix' →
  locks ix0 ix' obs' → settled obs' l (set_state (set_index ix' (th_state th)) th).
Proof using.
  intros [S B Sp Lk So E L] S' [M Hs] Lk'. split; simpl; try done.
  - eapply same_bytes_trans; [exact B|by apply same_bytes_maps].
  - etransitivity; [exact Sp|by apply same_space_mono].
  - eapply Forall_impl; [exact E|]. intros bs. by apply extent_mapped_mono, same_maps_mono.
  - intros St. eapply left_in_maps; [exact M|by apply L].
Qed.
Lemma quiet_index th ix' : quiet th → quiet (set_state (set_index ix' (th_state th)) th).
Proof using. intros (H1 & H2 & H3). unfold quiet, set_state. simpl. by rewrite H3, Z.eqb_refl. Qed.

(** A failure gives all locks back. *)
Lemma migrate_fail_run result block blocks th :
  (∃ base ext, store_ok base ext R (os_index (th_state th))) →
  same_bytes d0 ix0 (th_disk th) (os_index (th_state th)) →
  space_mono (mgr_of ix0) (mgr_of (os_index (th_state th))) →
  locks ix0 (os_index (th_state th)) (locked block blocks) → result ≠ 0 →
  ∃ th', migrate_fail result block blocks th = TurnTo (ReclaimReturned result) th' ∧
    reclaim_inv (ReclaimReturned result) th'.
Proof using UniqSkiplistSpec0 Hcount.
  intros (base & ext & S) B Sp Lk Hne. unfold migrate_fail, run_op.
  destruct (unlock_all_run base ext R ix0 (block :: map rb_ob blocks) [] (th_state th) Hcount S)
    as (ix' & E & S' & [M Hs] & Lk'); [by rewrite app_nil_r|].
  rewrite E. eexists. split; [done|]. split_and!; simpl; try done.
  - by exists base, ext.
  - eapply same_bytes_trans; [exact B|by apply same_bytes_maps].
  - etransitivity; [exact Sp|by apply same_space_mono].
Qed.

(** The next block. *)
Lemma next_block_inv blocks th :
  settled (map rb_ob blocks) (extents blocks) th → quiet th → reclaim_inv (next_block blocks) th.
Proof using.
  intros St Q. destruct blocks as [|blk blocks]; [|by split].
  destruct St as [S B Sp Lk So E L]. by split_and!.
Qed.

(** ** The turns without I/O *)
Lemma start_turn (key : trunk_key) sa ba th :
  reclaim_inv (ReclaimStart key) th →
  ∃ pc' th' sa', reclaim_turn now cont discard blocked retries (ReclaimStart key) (mkReclaim sa ba th) = (TurnTo pc' th', sa', ba) ∧ reclaim_inv pc' th'.
Proof using UniqSkiplistSpec0 Hcount.
  intros (-> & [(base & ext & S) Hi Hd So Hl] & Q). unfold reclaim_turn. cbn [rx_thread rx_sarray_alloc rx_barray_alloc].
  rewrite <- Hi in Hl.
  destruct (convert_run base ext R tk sa (th_state th) S Hl) as (sa' & r & ix' & E & M & H). rewrite E.
  pose proof (mem_only_store _ _ _ _ _ M S) as S'. pose proof (mem_only_undisturbed _ _ M) as [Mm Ms].
  assert (Lk : locks ix0 ix' []).
  { eapply locks_kept; [by apply mem_only_kept|]. rewrite Hi. apply locks_refl. }
  assert (B : same_bytes d0 ix0 (th_disk th) ix') by (rewrite Hd, <- Hi; by apply same_bytes_maps).
  assert (Sp : space_mono (mgr_of ix0) (mgr_of ix')) by (rewrite <- Hi; by apply same_space_mono).
  destruct r as [e|l]; eexists _, _, sa'; (split; [done|]).
  - split_and!; simpl; try done; [by exists base, ext|by subst e].
  - destruct H as [H1 H2]. split; [|split; [by apply quiet_index|]].
    + split; simpl; try done.
      * by exists base, ext.
      * eapply Forall_impl; [exact H1|]. intros bs. by apply extent_mapped_mono, same_maps_mono.
      * intros _ k b loc Hm%Mm [_ Hp]. by eapply H2.
    + intros p k c t L. destruct M as (m & Hm & _). simpl in L. rewrite Hm in L.
      exists c, t. rewrite <- Hi. exact L.
Qed.

Lemma combine_turn slices sa ba th :
  reclaim_inv (ReclaimCombine slices) th →
  ∃ pc' th' ba', reclaim_turn now cont discard blocked retries (ReclaimCombine slices) (mkReclaim sa ba th) = (TurnTo pc' th', sa, ba') ∧ reclaim_inv pc' th'.
Proof using UniqSkiplistSpec0 Hcount.
  intros (St & Q & Bk). unfold reclaim_turn. cbn [rx_thread rx_sarray_alloc rx_barray_alloc].
  pose proof St as [(base & ext & S) B Sp Lk So E L].
  destruct (combine_run base ext R ix0 slices ba (th_state th) Hcount S E Lk Bk) as (ba' & r & ix' & E' & S' & U & H).
  rewrite E'. destruct r as [e|blks]; eexists _, _, ba'; (split; [done|]).
  - destruct H as [Hne Lk']. destruct U as [M Hs]. split_and!; simpl; try done; [by exists base, ext| |].
    + eapply same_bytes_trans; [exact B|by apply same_bytes_maps].
    + etransitivity; [exact Sp|by apply same_space_mono].
  - destruct H as (Hb & Lk' & Hcov). apply next_block_inv; [|by apply quiet_index].
    assert (St' : settled (map rb_ob blks) slices (set_state (set_index ix' (th_state th)) th))
      by (eapply settled_index; eauto).
    destruct St' as [S2 B2 Sp2 Lk2 So2 E2 L2]. split; try done.
    + apply Forall_forall. intros bs (blk & Hbs & Hblk)%list_elem_of_bind. rewrite Forall_forall in Hb.
      destruct (Hb blk Hblk) as (k & c & t & _ & Hc). unfold chain_ok in Hc. rewrite Forall_forall in Hc. by apply Hc.
    + intros St' k b loc Hm Hp. apply Hcov. by eapply L2.
Qed.

Lemma unlock_turn block blocks sa ba th :
  reclaim_inv (ReclaimSlices [] block blocks) th →
  ∃ pc' th', reclaim_turn now cont discard blocked retries (ReclaimSlices [] block blocks) (mkReclaim sa ba th) = (TurnTo pc' th', sa, ba) ∧ reclaim_inv pc' th'.
Proof using UniqSkiplistSpec0 Hcount.
  intros (St & Q). unfold reclaim_turn, run_op. cbn [rx_thread rx_sarray_alloc rx_barray_alloc].
  pose proof St as [(base & ext & S) B Sp Lk So E L].
  destruct (unlock_run base ext R ix0 block (map rb_ob blocks) _ Hcount S Lk) as (w & ix' & E' & S' & U & Lk').
  rewrite (oindex_run _ _ _ _ E'). eexists _, _. split; [done|]. apply next_block_inv; [|by apply quiet_index].
  eapply settled_index; eauto.
Qed.

(** ** From an extent to the wait for its reads *)

(** The reads of one operation are at most what the counter of the context holds, and
    none failed with [ENOENT] if [strict]. *)
Definition fine (pc : ReclaimPc) th : Prop :=
  match pc with
  | ReclaimRead _ _ _ => sa_count (op_slices (os_op (th_state th))) < 2 ^ 15 ∧
      (strict → op_result (os_op (th_state th)) ≠ ENOENT)
  | _ => True
  end.

Lemma settled_kept obs l th s :
  settled obs l th → kept (os_index (th_state th)) (os_index s) → same_maps (os_index (th_state th)) (os_index s) →
  same_bytes d0 ix0 (th_disk th) (os_index s) ∧ space_mono (mgr_of ix0) (mgr_of (os_index s)) ∧
  locks ix0 (os_index s) obs.
Proof using.
  intros [S B Sp Lk So E L] K M. split_and!.
  - eapply same_bytes_trans; [exact B|by apply same_bytes_maps].
  - etransitivity; [exact Sp|apply K].
  - by eapply locks_kept.
Qed.

Lemma read_turn bs slices block blocks sa ba th :
  reclaim_inv (ReclaimSlices (bs :: slices) block blocks) th →
  ∃ pc' th', reclaim_turn now cont discard blocked retries (ReclaimSlices (bs :: slices) block blocks)
      (mkReclaim sa ba th) = (TurnTo pc' th', sa, ba) ∧ (fine pc' th' → reclaim_inv pc' th').
Proof using UniqSkiplistSpec0 Hcount.
  intros (St & Q1 & Q2 & Q3). unfold reclaim_turn. cbn [rx_thread rx_sarray_alloc rx_barray_alloc].
  pose proof St as [(base & ext & S) B Sp Lk So E L]. pose proof E as E0.
  apply Forall_cons in E as [[Hk Hlen Hmap] E].
  set (ctx := op_set_bs_key bs (os_op (th_state th))). unfold migrate_read, run_op. rewrite omod_run.
  change (upd_op (op_set_bs_key bs) (th_state th)) with (set_op ctx (th_state th)).
  pose proof (fs_slice_read_run base ext R (set_op ctx (th_state th)) S Hk Hlen) as H.
  destruct (fs_slice_read (set_op ctx (th_state th))) as [| |r s1] eqn:E1; [done| |].
  { destruct H as [H _]. unfold is_reclaim in H. simpl in H. by rewrite So, Z.eqb_refl in H. }
  destruct r as [e|[]].
  - destruct H as (K & M & H). change (os_index (set_op ctx (th_state th))) with (os_index (th_state th)) in *.
    destruct H as [(-> & ext' & _ & S1)|(_ & _ & Hn)].
    + change (ENOMEM =? ENOENT) with false. cbn iota.
      destruct (settled_kept _ _ _ s1 St K M) as (B1 & Sp1 & Lk1).
      destruct (migrate_fail_run ENOMEM block blocks (set_state s1 th)) as (th' & E2 & I2); try done.
      { by exists base, ext'. }
      exists (ReclaimReturned ENOMEM), th'. by rewrite E2.
    + exfalso. destruct (Hmap (bs_block bs) (extent_start bs)) as [loc Hm].
      { split; [done|]. unfold extent_start, extent_end. lia. }
      eapply Hn; [|exact Hm]. unfold in_extent, extent_start. simpl. lia.
  - eexists _, _. split; [done|]. intros [Hc Hno].
    destruct (read_started base ext R (mkDataOp DATA_OPERATION_SLICE_READ DATA_SOURCE_MASTER_SERVICE false) ctx th s1)
      as (total & I & X & C1 & C2 & C3); [|done|done|done|].
    { by split_and!. }
    exists bs. split; [|exact Hno]. constructor.
    exists th, base, ext, ctx, (op_buffers (os_op s1)), total. split_and!; try done.
    apply (io_ext _ _ _ (so_index _ _ _ _ S)).
Qed.

(** ** From the reads to the wait for the writes *)

(** When the reads are done, nothing has changed. *)
Lemma reading_done obs bs l th :
  reading obs bs l th → th_notify_done th = true →
  let th' := set_notify false th in
  settled obs (bs :: l) th' ∧ quiet th' ∧ 0 <= op_result (os_op (th_state th')) < 2 ^ 15 ∧
  op_bs_key (os_op (th_state th')) = bs ∧
  (op_result (os_op (th_state th')) = 0 → ∃ base ext bufs, store_ok base ext R (os_index (th_state th')) ∧
    buffers_at (op_buffers (os_op (th_state th'))) = Some bufs ∧
    Forall buffer_ok bufs ∧ op_done_bytes (os_op (th_state th')) = ss_length (bs_slice bs) ∧
    Z.of_nat (length (buffers_data bufs)) = ss_length (bs_slice bs) ∧
    ∀ k b v, in_extent_of bs k b → content (th_disk th') (os_index (th_state th')) k b v ↔
      buffers_data bufs !! Z.to_nat (b - extent_start bs) = Some v).
Proof using UniqSkiplistSpec0.
  intros [(th1 & base & ext & o0 & bufs & total & St & Hbs & Hso & Hext & I & (X1 & X2 & _) & C1 & C2 & C3)] Hn.
  destruct I as [I1 I2 I3 I4 I5 I6 I7 (failed & I8 & I8') I9 I10 I11 I12]. apply I6 in Hn. cbn zeta.
  pose proof St as [(b1 & e1 & S) B Sp Lk So E L]. destruct I11 as (_ & Hso' & _ & Hbs' & _).
  assert (S2 : store_ok base ext R (os_index (th_state th))).
  { eapply store_ok_ext; [|exact I2]. intros id. simpl. rewrite Hn, occ_nil. lia. }
  split_and!.
  - split; simpl.
    + by exists base, ext.
    + rewrite I7. eapply same_bytes_trans; [exact B|by apply same_bytes_maps].
    + etransitivity; [exact Sp|apply I12].
    + by eapply locks_kept.
    + congruence.
    + eapply Forall_impl; [exact E|]. intros x. by apply extent_mapped_mono, same_maps_mono.
    + intros St'. eapply left_in_maps; [exact I1|by apply L].
  - unfold quiet. by split_and!.
  - apply X1.
  - apply X1.
  - simpl. congruence.
  - intros Hz. specialize (X2 Hz). rewrite Hn in I8', I9, X2. change (sumZ slen []) with 0 in *.
    apply Permutation_nil_r in I9. destruct (slots_filled _ _ _ _ I8 I9) as (bs' & E1 & _ & E3 & E4).
    specialize (E3 ltac:(lia)). exists base, ext, bs'. split; [done|]. split; [done|]. simpl. rewrite E3, I7.
    apply Forall_cons in E as [E _]. destruct (read_data b1 e1 (th_disk th1) _ bs _ (so_index _ _ _ _ S) E (C1 _)) as [D1 D2].
    split_and!; [by apply E4| |done|].
    + rewrite <- D1, <- (C2 (th_disk th1)). lia.
    + intros k b v Hb. rewrite <- (D2 k b v Hb). by apply content_same_maps.
Qed.

(** An operation that failed in between. *)
Lemma migrate_log_fails slices block blocks th :
  (∃ base ext, store_ok base ext R (os_index (th_state th))) →
  same_bytes d0 ix0 (th_disk th) (os_index (th_state th)) →
  space_mono (mgr_of ix0) (mgr_of (os_index (th_state th))) →
  locks ix0 (os_index (th_state th)) (locked block blocks) → op_result (os_op (th_state th)) ≠ 0 →
  ∃ pc' th', migrate_log now slices block blocks th = TurnTo pc' th' ∧ reclaim_inv pc' th'.
Proof using UniqSkiplistSpec0 Hcount.
  intros S B Sp Lk Hne. unfold migrate_log. set (th1 := set_state _ th). cbv zeta.
  assert (Hr : op_result (os_op (th_state th1)) = op_result (os_op (th_state th))) by done.
  rewrite Hr, (proj2 (Z.eqb_neq _ _) Hne). cbn [negb].
  destruct (migrate_fail_run (op_result (os_op (th_state th))) block blocks th1) as (th' & E & I); try done.
  eauto.
Qed.

Lemma write_turn slices block blocks th :
  reclaim_inv (ReclaimRead slices block blocks) th → th_notify_done th = true →
  ∃ pc' th', migrate_write now cont discard blocked retries slices block blocks (set_notify false th) = TurnTo pc' th' ∧
    reclaim_inv pc' th'.
Proof using All.
  intros (bs & Rd & Hno) Hn. destruct (reading_done _ _ _ _ Rd Hn) as (St & Q & Hres & Hbs & Hdata). cbn zeta in *.
  set (th1 := set_notify false th) in *. unfold migrate_write.
  change (op_result (os_op (th_state th))) with (op_result (os_op (th_state th1))) in Hno.
  pose proof St as [S B Sp Lk So E L].
  destruct (Z.eqb_spec (op_result (os_op (th_state th1))) 0) as [Hz|Hz]; cbn [negb]; cycle 1.
  { destruct (Z.eqb_spec (op_result (os_op (th_state th1))) ENOENT) as [He|He].
    - eexists _, _. split; [done|]. split; [|done]. apply Forall_cons in E as [_ E]. split; try done.
      intros Hs. by apply Hno in Hs.
    - edestruct migrate_fail_run as (th' & E' & I'); [exact S|exact B|exact Sp|exact Lk|exact Hz|]. eauto. }
  pose proof Q as (Q1 & Q2 & Q3).
  destruct (Hdata Hz) as (base & ext & bufs & S0 & Hbufs & Hok & Hdone & Hlen & Hc). rewrite Hbufs, Hbs, Hdone.
  assert (Hwl : with_slice_length bs (ss_length (bs_slice bs)) = bs) by (by destruct bs as [? []]). rewrite Hwl.
  set (s := upd_op (op_set_bs_key bs) (th_state th1)). unfold run_op. rewrite omod_run. fold s.
  apply Forall_cons in E as [Eb E].
  pose proof (extent_mapped_ok _ _ _ _ (so_index _ _ _ _ S0) Eb) as Hx.
  assert (Hpush : ∀ pairs s', tiles (extent_start bs) (pr_slice <$> pairs) (extent_end bs) →
    op_sarray (os_op s') = pairs → pushes (buffers_data bufs) pairs (push_data (Some bufs) pairs (op_buff (os_op s))) s').
  { intros pairs s' Ht Hp. eapply write_iovec_array_pushes; [exact Hok|exact Ht| |..|exact Hp].
    - pose proof (em_length _ _ Eb). unfold extent_start, extent_end. lia.
    - rewrite <- buffers_data_length, Hlen by done. unfold extent_start, extent_end. lia. }
  pose proof (fs_slice_write_any_run now cont discard blocked retries Hused Haligned Hdiscard Hspace base ext R s
    (Some bufs) (buffers_data bufs) S0 Hx Hpush) as H.
  destruct (fs_slice_write now cont discard blocked retries (Some bufs) s) as [| |r s1] eqn:E1; [done| |].
  { unfold is_reclaim in H. change (op_source (os_op s)) with (op_source (os_op (th_state th1))) in H.
    by rewrite So, Z.eqb_refl in H. }
  destruct H as (K & M & V & L1 & L2 & Rds & Info & base' & ext' & He & H). cbn zeta in H.
  destruct (settled_kept _ _ _ s1 St K M) as (B1 & Sp1 & Lk1). destruct r as [err|[]].
  - destruct H as [Herr H]. apply migrate_log_fails; try done.
    + simpl. destruct H as [(S1 & _)|((S1 & _) & _)]; exists base', ext'; [done|by apply store_ok_drops in S1].
    + simpl. unfold cast16. rewrite Z.mod_small by lia. lia.
  - destruct H as ((S1 & Rs & C1 & C2 & C3 & C4 & C5 & Cb) & W). eexists _, _. split; [done|].
    change (os_writes s) with (os_writes (th_state th1)) in W. rewrite Q2 in W. simpl in W.
    exists bs. constructor.
    exists th1, base', ext, ext', s, (op_sarray (os_op s1)), (buffers_data bufs). split_and!; try done.
    + apply (io_ext _ _ _ (so_index _ _ _ _ S0)).
    + set (chs := chunks (op_sarray (os_op s1)) (buffers_data bufs)) in *.
      assert (Hlen' : length chs = length (op_sarray (os_op s1))).
      { unfold chs. rewrite <- (length_fmap wr_slice), chunks_slices. apply length_fmap. }
      split; simpl; try done.
      * rewrite Rds. exact Q1.
      * exists []. split; [by rewrite W|constructor].
      * by rewrite W, Hlen'.
      * rewrite W, Hlen'. lia.
      * rewrite Cb. change (os_callbacks s) with (os_callbacks (th_state th)). rewrite Z.eqb_refl. simpl. rewrite W.
        split; [done|]. intros E2. rewrite E2 in Hlen'. simpl in Hlen'. lia.
      * rewrite C3. lia.
    + by eapply (write_fresh base ext R s (Some bufs) (buffers_data bufs)).
Qed.

(** ** From the writes to the next extent *)

Lemma log_turn base ext k slices block blocks th :
  settled (locked block blocks) (left_of slices blocks) th → quiet th → op_result (os_op (th_state th)) = 0 →
  store_ok base ext R (os_index (th_state th)) →
  (∀ id, occ id (pr_slice <$> op_sarray (os_op (th_state th))) <= ext id) →
  Forall (λ pr, entry_live (os_index (th_state th)) k (pr_slice pr)) (op_sarray (os_op (th_state th))) →
  ∃ pc' th', migrate_log now slices block blocks th = TurnTo pc' th' ∧ reclaim_inv pc' th'.
Proof using UniqSkiplistSpec0 Hcount.
  intros St (Q1 & Q2 & Q3) Hz S Hocc Hl. unfold migrate_log. set (th1 := set_state _ th). cbv zeta.
  change (op_result (os_op (th_state th1))) with (op_result (os_op (th_state th))). rewrite Hz. cbn [Z.eqb negb].
  unfold run_op.
  destruct (fs_log_slice_write_run now base ext R (th_state th1) k S Hocc Hl)
    as (r & s' & ext' & E & M & K & S' & So' & (W1 & W2 & W3) & _ & Hne).
  rewrite E. destruct (settled_kept _ _ _ s' St K M) as (B1 & Sp1 & Lk1). pose proof St as [_ B Sp Lk So Ex L].
  destruct r as [e|[]].
  - edestruct (migrate_fail_run e block blocks (set_state s' th1)) as (th' & E' & I'); simpl; try done.
    { by exists base, ext'. }
    { by intros ->. }
    eauto.
  - eexists _, _. split; [done|]. split.
    + split; simpl; try done.
      * by exists base, ext'.
      * simpl in So'. congruence.
      * eapply Forall_impl; [exact Ex|]. intros x. by apply extent_mapped_mono, same_maps_mono.
      * intros Hs. eapply left_in_maps; [exact M|by apply L].
    + unfold quiet, set_state. simpl. simpl in W1, W2, W3. rewrite W1, W2, W3, Q3, !Z.eqb_refl. by split_and!.
Qed.

Lemma finish_turn slices block blocks th :
  reclaim_inv (ReclaimWrite slices block blocks) th → th_notify_done th = true →
  ∃ pc' th', run_op fs_write_finish (set_notify false th) (λ _, migrate_log now slices block blocks) = TurnTo pc' th' ∧
    reclaim_inv pc' th'.
Proof using All.
  intros (bs & [(th1 & base & ext0 & ext & s0 & pairs & data & St & Hs0 & H0 & I & S & Rs & K & M & Hc & Hf)]) Hn.
  pose proof (wi_sarray _ _ _ _ _ _ I) as Hsa. apply (wi_notify _ _ _ _ _ _ I) in Hn as Hw.
  set (bl := bs_block bs) in *. unfold run_op. change (th_state (set_notify false th)) with (th_state th).
  assert (Hsrc : op_source (os_op (th_state th)) = BINLOG_SOURCE_RECLAIM).
  { destruct (wi_info _ _ _ _ _ _ I) as ((_ & -> & _) & _). done. }
  pose proof S as S'. rewrite <- Hsa in S, Rs.
  pose proof (fs_write_finish_run base ext0 ext R (th_state th) bl OB_SLICE_TYPE_FILE _ _ S Rs H0) as H.
  destruct (fs_write_finish (th_state th)) as [| |r s2] eqn:E; [done| |].
  { destruct H as (_ & H & _). unfold is_reclaim in H. by rewrite Hsrc, Z.eqb_refl in H. }
  pose proof (keeps_write_finish _ _ _ E) as Hsrc2. rewrite Hsrc in Hsrc2.
  destruct H as (-> & K2 & W2 & R2 & C2 & _ & _ & _ & ext2 & He2 & S2 & H).
  pose proof St as [_ B Sp Lk So Ex L]. rewrite Hsa in *.
  assert (Hbytes : same_bytes (th_disk th1) (os_index (th_state th1)) (th_disk th) (os_index (th_state th))).
  { intros k b v. rewrite (content_kept base ext R s0 _ (th_disk th1) pairs data) by done. by apply content_same_maps. }
  assert (Hdata : ∀ k b v, in_extent_of bs k b → content (th_disk th) (os_index (th_state th)) k b v ↔
    data !! Z.to_nat (b - extent_start bs) = Some v).
  { intros k b v Hb. rewrite <- (Hc k b v Hb). apply Hbytes. }
  assert (Hfin : ∃ fin, overlaid_all (os_index (th_state th)) (os_index s2) bl fin ∧ fin ⊆ pr_slice <$> pairs ∧
    (fin ≠ [] → op_result (os_op (th_state th)) = 0)).
  { case_decide.
    - destruct H as (? & O & _). exists (pr_slice <$> pairs). by split_and!.
    - destruct H as (_ & _ & fin & rest & Hl & O & Hz). exists fin. split_and!; [done| |].
      + intros x Hx. rewrite Hl. apply elem_of_app. by left.
      + intros Hne. destruct (decide (op_result (os_op (th_state th)) = 0)); [done|]. by apply Hz in n. }
  destruct Hfin as (fin & O & Hsub & Hok).
  assert (Hb2 : same_bytes d0 ix0 (th_disk th) (os_index s2)).
  { eapply same_bytes_trans; [exact B|]. eapply same_bytes_trans; [exact Hbytes|].
    eapply (overlaid_same_bytes _ _ _ bs fin pairs data); [exact O|exact Hsub|apply Rs|apply Rs| |exact Hdata].
    intros Hne. destruct (wi_done _ _ _ _ _ _ I) as (f & Hp & Hpl). rewrite Hw, app_nil_r in Hp. rewrite Hp. auto. }
  assert (Hsp2 : space_mono (mgr_of ix0) (mgr_of (os_index s2))).
  { etransitivity; [exact Sp|]. etransitivity; [apply K|apply K2]. }
  assert (Hlk2 : locks ix0 (os_index s2) (locked block blocks)).
  { eapply locks_kept; [|exact Lk]. by etransitivity. }
  destruct (decide (op_result (os_op s2) = 0)) as [Hz|Hz]; cycle 1.
  { apply migrate_log_fails; try done. by exists base, ext2. }
  destruct H as (_ & O2 & Hsl & _ & Hext & _). apply Forall_cons in Ex as [_ Ex].
  apply (log_turn base ext2 bl); try done.
  - split; simpl; try done.
    + by exists base, ext2.
    + eapply Forall_impl; [exact Ex|]. intros x. apply extent_mapped_mono. intros k b loc Hm.
      eapply same_bytes_mono; [|exact Hm]. intros k' b' v'. rewrite (Hb2 k' b' v'). symmetry. apply B.
    + intros Hs k b loc Hm [Hp Ht]. apply O2 in Hm as [(-> & sl & Hsl' & Hcov & ->)|[Hno Hm]].
      * exfalso. eapply Hf; [exact Hsl'|by exists b|]. by eapply placed_mono.
      * apply M in Hm. destruct (L Hs k b loc Hm) as (x & [->|Hx]%elem_of_cons & Hin); [by split| |by exists x].
        exfalso. apply Hno. destruct Hin as [-> Hb]. split; [done|].
        by apply (tiles_cover _ _ _ b (rs_tiles _ _ _ _ _ _ _ _ Rs)).
  - unfold quiet, set_state. simpl. rewrite W2, R2, C2, Z.eqb_refl, Hw, (wi_reads _ _ _ _ _ _ I). by split_and!.
  - intros id. simpl. rewrite Hsl. specialize (Hext id). specialize (H0 id). lia.
  - simpl. assert (Hall : Forall (entry_live (os_index s2) bl) (pr_slice <$> op_sarray (os_op s2))); [|by rewrite Forall_fmap in Hall].
    rewrite Hsl. eapply Forall_impl; [apply (rs_usable _ _ _ _ _ _ _ _ Rs)|]. intros sl (_ & _ & Hlv).
    by eapply entry_live_kept.
Qed.

(** ** The steps *)
Definition running (pc : ReclaimPc) : Prop :=
  match pc with ReclaimReturned _ | ReclaimUndefined => False | _ => True end.
Abbreviation turn := (reclaim_turn now cont discard blocked retries).
Abbreviation step := (reclaim_step now cont discard blocked retries).

(** A turn follows no invalid pointer, waits only for I/O, and keeps the invariant. *)
Lemma reclaim_turn_inv pc (c : TrunkReclaimContext T) :
  reclaim_inv pc (rx_thread c) → running pc →
  match turn pc c with
  | (TurnTo pc' th', _, _) => fine pc' th' → reclaim_inv pc' th'
  | (TurnWait, _, _) => th_notify_done (rx_thread c) = false ∧
      ((∃ sl blk blks, pc = ReclaimRead sl blk blks) ∨ ∃ sl blk blks, pc = ReclaimWrite sl blk blks)
  | (TurnCrash, _, _) => False
  end.
Proof using All.
  destruct c as [sa ba th]. intros I Hr.
  destruct pc as [key|slices|[|x slices] blk blks|slices blk blks|slices blk blks|r|]; cbn [rx_thread] in *; try done.
  - destruct (start_turn key sa ba th I) as (pc' & th' & sa' & E & I'). by rewrite E.
  - destruct (combine_turn slices sa ba th I) as (pc' & th' & ba' & E & I'). by rewrite E.
  - destruct (unlock_turn blk blks sa ba th I) as (pc' & th' & E & I'). by rewrite E.
  - destruct (read_turn x slices blk blks sa ba th I) as (pc' & th' & E & I'). by rewrite E.
  - unfold reclaim_turn. cbn [rx_thread rx_sarray_alloc rx_barray_alloc].
    destruct (th_notify_done th) eqn:Hn; [|split; [done|left; eauto]].
    destruct (write_turn slices blk blks th I Hn) as (pc' & th' & E & I'). by rewrite E.
  - unfold reclaim_turn. cbn [rx_thread rx_sarray_alloc rx_barray_alloc].
    destruct (th_notify_done th) eqn:Hn; [|split; [done|right; eauto]].
    destruct (finish_turn slices blk blks th I Hn) as (pc' & th' & E & I'). by rewrite E.
Qed.

(** While nothing is in flight. *)
Lemma inv_idle pc th :
  reclaim_inv pc th → running pc →
  quiet th ∨ (∃ sl blk blks, pc = ReclaimRead sl blk blks) ∨ ∃ sl blk blks, pc = ReclaimWrite sl blk blks.
Proof using. destruct pc; simpl; try done; try (intros (? & ? & ?) _; by left); try (intros (? & ?) _; by left); eauto 10. Qed.

Lemma reclaim_write_done pc th i w result s d :
  reclaim_inv pc th → running pc → os_writes (th_state th) !! i = Some w → 0 <= result < 2 ^ 15 →
  (if result =? 0 then wrote w (th_disk th) d else untouched w (th_disk th) d) →
  slice_write_done (wr_slice w) result (set_writes (remove_at i (os_writes (th_state th))) (th_state th))
    = Ret (inr tt) s → reclaim_inv pc (set_disk d (set_state s th)).
Proof using.
  intros I Hr Hw Hres Hd E. destruct (inv_idle _ _ I Hr) as [(_ & Hq & _)|[(sl & bl & bs & ->)|(sl & bl & bs & ->)]].
  - by rewrite Hq in Hw.
  - destruct I as (x & [(th1 & base & ext & o0 & bufs & total & _ & _ & _ & _ & I & _)] & _).
    by rewrite (ri_writes _ _ _ _ _ _ _ _ _ I) in Hw.
  - destruct I as (x & [(th1 & base & ext0 & ext & s0 & pairs & data & St & Hs0 & H0 & I & S & Rs & K & M & Hc & Hf)]).
    assert (I' : write_inv s0 (os_index (th_state th)) (th_disk th1) pairs (chunks pairs data) (set_disk d (set_state s th))).
    { eapply write_inv_done; [| |exact I|exact Hw|exact Hres|exact Hd|exact E].
      - rewrite chunks_spaces. pose proof (so_apart _ _ _ _ S) as Ha. by apply StronglySorted_app_1_l in Ha.
      - pose proof (rs_fits _ _ _ _ _ _ _ _ Rs) as Hfit. rewrite <- (chunks_slices _ data) in Hfit.
        by rewrite Forall_fmap in Hfit. }
    pose proof (wi_index _ _ _ _ _ _ I') as Hix. exists x. constructor.
    exists th1, base, ext0, ext, s0, pairs, data. rewrite Hix. by split_and!.
Qed.

Lemma read_done_inv pc th i j sl ab result s :
  reclaim_inv pc th → running pc → os_reads (th_state th) !! i = Some sl → 0 <= result < 2 ^ 15 →
  op_buffers (os_op (th_state th)) !! j = Some (FileBuffer sl) → read_into (th_disk th) sl result ab →
  do_read_done sl result (fill_buffer j ab (set_reads (remove_at i (os_reads (th_state th))) (th_state th)))
    = Ret (inr tt) s →
  fine pc (set_state s th) → reclaim_inv pc (set_state s th).
Proof using UniqSkiplistSpec0.
  intros I Hr Hi Hres Hj Hab E Hfine. destruct (inv_idle _ _ I Hr) as [(Hq & _)|[(sls & bl & bs & ->)|(sls & bl & bs & ->)]].
  - by rewrite Hq in Hi.
  - destruct I as (x & [(th1 & base & ext & o0 & bufs & total & St & H1 & H2 & Hx & I & X & C)] & _).
    exists x. split; [|apply Hfine]. constructor.
    exists th1, base, ext, o0, bufs, total. split_and!; try done; try apply C.
    + by eapply read_inv_done.
    + by eapply read_exact_done.
  - destruct I as (x & [(th1 & base & ext0 & ext & s0 & pairs & data & _ & _ & _ & I & _)]).
    by rewrite (wi_reads _ _ _ _ _ _ I) in Hi.
Qed.

(** The run until the reclaim returns. *)
Definition runs : relation (ReclaimPc * TrunkReclaimContext T) := λ x y,
  step x y ∧ running x.1 ∧ fine y.1 (rx_thread y.2).
Lemma runs_inv x y : reclaim_inv x.1 (rx_thread x.2) → runs x y → reclaim_inv y.1 (rx_thread y.2).
Proof using All.
  intros I (Hst & Hr & Hfine). destruct Hst as [pc c pc' th' sa ba E|pc c i w result s d th Hw Hres Hd E|pc c i j sl ab result s th Hi Hres Hj Hab E];
    cbn [fst snd rx_thread on_thread] in *.
  - pose proof (reclaim_turn_inv pc c I Hr) as H. rewrite E in H. by apply H.
  - by eapply reclaim_write_done.
  - by eapply read_done_inv.
Qed.
Lemma run_inv x y : rtc runs x y → reclaim_inv x.1 (rx_thread x.2) → reclaim_inv y.1 (rx_thread y.2).
Proof using All. induction 1 as [|x y z Hxy _ IH]; [done|]. intros I. by apply IH, (runs_inv x). Qed.
End Inv.
End Invariant.
