(* ===== verification/ReclaimDemo.v ===== *)
(** * What reclaiming a trunk promises

    The bytes of the store stay, the locks are given back, the part of the trunk that was
    in use is empty afterwards, and the thread does not wait for ever; and the reclaim of the
    trunk of [DataThreadDemo.v], step by step. *)
From Stdlib Require Import Lexicographic_Product Relation_Operators Wf_nat.
From S2P Require Import Prelude Types Skiplist ObSlices ObSlicesRun.
From S2P Require Import ObSlicesThms ObSlicesMain ObSlicesGet ObIndex ObIndexSpec ObIndexOps.
From S2P Require Import ObIndexThms ObIndexMain TrunkAllocator StorageAllocator StorageAllocSpec.
From S2P Require Import StorageAllocThms StorageAllocUsed StoreAlloc Binlog SliceOp StoreWrite.
From S2P Require Import DataThread DataThreadThms DataThreadDemo StoreRead StoreReadData DataThreadRead StoreDemo StoreLog.
From S2P Require Import Reclaim ReclaimThms.

Section Promise.
Context {T : Type} `{!UniqSkiplist OBSliceEntry T} `{!UniqSkiplistSpec slice_compare} {qsort_fun : Qsort}.
Context (now : Z) (cont : bool) (discard : Z) (blocked : Z → Mgr → Mgr) (retries : nat).
Context (Hused : ∀ i m, used_kept m (blocked i m)).
Context (Haligned : ∀ i m, aligned8 m → aligned8 (blocked i m)).
Context (Hdiscard : 0 < discard).
Context (Hspace : ∀ i m, alloc_safe m → alloc_safe (blocked i m) ∧ space_mono m (blocked i m)).
Abbreviation turn := (reclaim_turn now cont discard blocked retries).
Abbreviation step := (reclaim_step now cont discard blocked retries).
Abbreviation runs := (runs now cont discard blocked retries).
Implicit Types (k : FSBlockKey) (p b v : Z) (c : TrunkReclaimContext T) (R : list OBSliceEntry)
  (base : Z → Z → Z) (ext : Z → Z).

Definition index_of c : Index T Mgr := os_index (th_state (rx_thread c)).
Definition disk_of c : Disk := th_disk (rx_thread c).
(** A reclaim can start: no I/O is in flight, and the list of the trunk is that of its
    slices in the index. *)
Definition reclaim_ready base ext R (key : trunk_key) c : Prop :=
  store_ok base ext R (index_of c) ∧ quiet (rx_thread c) ∧
  op_source (os_op (th_state (rx_thread c))) = BINLOG_SOURCE_RECLAIM ∧ listed (index_of c) key.

Lemma ready_inv base ext R key strict c :
  reclaim_ready base ext R key c →
  reclaim_inv (index_of c) (disk_of c) R key strict (ReclaimStart key) (rx_thread c) ∧
  ∀ p k n t, lives (index_of c) p k n t → 0 <= n.
Proof using.
  intros (S & Q & So & L). split.
  - split; [done|]. split; [|done]. split; try done. by exists base, ext.
  - intros p k n t Hl. by destruct (io_block _ _ _ (so_index _ _ _ _ S) _ _ _ _ Hl).
Qed.
Lemma reached_inv base ext R key strict c pc c' :
  reclaim_ready base ext R key c → rtc (runs strict) (ReclaimStart key, c) (pc, c') →
  reclaim_inv (index_of c) (disk_of c) R key strict pc (rx_thread c') ∧
  ∀ p k n t, lives (index_of c) p k n t → 0 <= n.
Proof using All.
  intros Hr Hst. destruct (ready_inv _ _ _ _ strict _ Hr) as [I Hn]. split; [|done].
  by apply (run_inv now cont discard blocked retries Hused Haligned Hdiscard Hspace _ _ _ _ _ Hn (ReclaimStart key, c) (pc, c') Hst).
Qed.

(** The store in every state. *)
Lemma inv_store (ix0 : Index T Mgr) d0 R key strict pc (th : Thread T) :
  reclaim_inv ix0 d0 R key strict pc th →
  (∃ base ext, store_ok base ext R (os_index (th_state th))) ∧
  same_bytes d0 ix0 (th_disk th) (os_index (th_state th)).
Proof using UniqSkiplistSpec0.
  destruct pc as [k|sl|sl blk blks|sl blk blks|sl blk blks|r|]; cbn [reclaim_inv]; try done.
  - intros (_ & [S Hi Hd _ _] & _). split; [done|]. by rewrite Hi, Hd.
  - by intros ([S B _ _ _ _ _] & _).
  - by intros ([S B _ _ _ _ _] & _).
  - intros (bs & [(th1 & base & ext & o0 & bufs & total & [_ B _ _ _ _ _] & _ & _ & _ & I & _)] & _). split.
    + exists base. eexists. exact (ri_store _ _ _ _ _ _ _ _ _ I).
    + rewrite (ri_disk _ _ _ _ _ _ _ _ _ I). eapply same_bytes_trans; [exact B|].
      apply same_bytes_maps, (ri_maps _ _ _ _ _ _ _ _ _ I).
  - intros (bs & [(th1 & base & ext0 & ext & s0 & pairs & data & [_ B _ _ _ _ _] & _ & _ & I & S & _ & _ & M & _)]).
    split; [exists base, ext; by apply store_ok_drops in S|]. eapply same_bytes_trans; [exact B|].
    intros k b v. rewrite (content_kept base ext R s0 _ (th_disk th1) pairs data) by done. by apply content_same_maps.
  - by intros (S & B & _).
Qed.

(** C6: reclaiming a trunk keeps the store: in every state until the reclaim returns, with
    an error or not, whatever order the disk I/O completes in and whether it succeeds, every
    byte of every block has the value it had, the invariant of the store holds, and the
    thread never follows an invalid pointer nor writes buffers that were not read; it waits
    only for the I/O of its own read or write; and when it returns, every lock is given
    back. *)
Theorem reclaim_keeps_store base ext R key c pc c' :
  reclaim_ready base ext R key c → rtc (runs False) (ReclaimStart key, c) (pc, c') →
  (∃ base' ext', store_ok base' ext' R (index_of c')) ∧
  (∀ k b v, content (disk_of c') (index_of c') k b v ↔ content (disk_of c) (index_of c) k b v) ∧
  pc ≠ ReclaimUndefined ∧ (turn pc c').1.1 ≠ TurnCrash ∧
  (running pc → (turn pc c').1.1 = TurnWait →
    os_reads (th_state (rx_thread c')) ≠ [] ∨ os_writes (th_state (rx_thread c')) ≠ []) ∧
  ∀ result, pc = ReclaimReturned result →
    ∀ p k n t, lives (index_of c) p k n t → ∃ t', lives (index_of c') p k n t'.
Proof using All.
  intros Hr Hst. destruct (reached_inv _ _ _ _ _ _ _ _ Hr Hst) as [I Hn].
  destruct (inv_store _ _ _ _ _ _ _ I) as [S B]. split; [done|]. split; [done|]. split; [by destruct pc|].
  pose proof (reclaim_turn_inv now cont discard blocked retries Hused Haligned Hdiscard Hspace _ _ _ _ _ Hn pc c' I) as Ht.
  split; [|split].
  - destruct pc; try done; by destruct (turn _ c') as [[[] ?] ?]; try (specialize (Ht Logic.I)).
  - intros Hrun Hw. specialize (Ht Hrun). destruct (turn pc c') as [[tt' sa] ba]. simpl in Hw. subst tt'.
    destruct Ht as [Hnf [(sl & blk & blks & ->)|(sl & blk & blks & ->)]].
    + left. destruct I as (bs & [(th1 & b1 & e1 & o0 & bufs & total & _ & _ & _ & _ & I & _)] & _).
      intros Hz. apply (ri_notify _ _ _ _ _ _ _ _ _ I) in Hz. congruence.
    + right. destruct I as (bs & [(th1 & b1 & e0 & e1 & s0 & pairs & data & _ & _ & _ & I & _)]).
      intros Hz. apply (wi_notify _ _ _ _ _ _ I) in Hz. congruence.
  - intros result -> p k n t L. destruct I as (_ & _ & _ & Lk & _).
    destruct (lk_count _ _ _ Lk p k n t L) as [t' L']. exists t'. by rewrite Z.add_0_r in L'.
Qed.

(** A trunk into which nothing is mapped can start afresh. *)
Definition recycled (key : trunk_key) (ix : Index T Mgr) : Index T Mgr :=
  set_world (set_acct (recycle_trunk key (mgr_of ix)) (ix_world ix)) ix.
Lemma recycled_store base ext key (ix : Index T Mgr) f sz :
  store_ok base ext [] ix → view (mgr_of ix) key = Some (f, sz) → 0 < sz → (∀ sel, key ∉ lists (mgr_of ix) sel) →
  (∀ k b loc, maps ix k b loc → ¬ in_trunk_loc key loc) → store_ok base ext [] (recycled key ix).
Proof using.
  intros [[I1 I2 I3 I4 I5 I6] W A P Al _ _] Hv Hs Hno Hm. split.
  - split; try done.
    + by apply wf_world.
    + intros p k n t L. destruct (I2 p k n t L) as [[Hw Hb] Hn]. split; [|done]. split; [done|].
      intros sl Hsl. destruct (Hb sl Hsl) as [Ho Hk]. split; [done|]. unfold known in *.
      change (w_acct (ix_world (recycled key ix))) with (recycle_trunk key (mgr_of ix)). by rewrite recycle_trunk_used.
    + intros Hf st id u. change (w_acct (ix_world (recycled key ix))) with (recycle_trunk key (mgr_of ix)).
      rewrite recycle_trunk_used. by apply I6.
  - by apply (recycle_trunk_wf key (mgr_of ix) f sz).
  - intros k f' s'. change (mgr_of (recycled key ix)) with (recycle_trunk key (mgr_of ix)). rewrite recycle_trunk_view.
    destruct (view (mgr_of ix) k) as [[f0 s0]|] eqn:E; [|done]. simpl. destruct (A _ _ _ E). intros [= <- <-].
    split; [|done]. case_decide; [by exists 0|done].
  - intros k b loc Hl. destruct (P k b loc Hl) as (f0 & s0 & E & Hp). exists f0, s0.
    change (mgr_of (recycled key ix)) with (recycle_trunk key (mgr_of ix)). rewrite recycle_trunk_view, E. split; [|done].
    simpl. rewrite decide_False; [done|]. intros ->. by apply (Hm k b loc Hl).
  - exact Al.
  - by intros s d ?%elem_of_nil.
  - constructor.
Qed.

(** C10: when a reclaim returns 0, the trunk is empty: unless a read failed with [ENOENT],
    nothing is mapped into the part of the trunk that was in use when the reclaim started,
    and no I/O is in flight. If nobody allocated from the trunk meanwhile, the end of
    [do_reclaim_trunk], which starts it afresh in a free list, keeps the store's invariant
    and, touching neither the index nor the disk, its bytes. *)
Theorem reclaim_empties_trunk base ext R key c c' f sz :
  reclaim_ready base ext R key c → rtc (runs True) (ReclaimStart key, c) (ReclaimReturned 0, c') →
  view (mgr_of (index_of c)) key = Some (f, sz) →
  quiet (rx_thread c') ∧
  (∀ k b loc, maps (index_of c') k b loc → in_trunk_loc key loc → f <= dl_pos loc) ∧
  (0 < sz → view (mgr_of (index_of c')) key = Some (f, sz) → (∀ sel, key ∉ lists (mgr_of (index_of c')) sel) →
    (∃ base' ext', store_ok base' ext' [] (recycled key (index_of c'))) ∧
    ∀ k b v, content (disk_of c') (recycled key (index_of c')) k b v ↔ content (disk_of c) (index_of c) k b v).
Proof using All.
  intros Hr Hst Hv. destruct (reached_inv _ _ _ _ _ _ _ _ Hr Hst) as [((b' & e' & S) & B & _ & _ & H) _].
  destruct (H eq_refl) as [Q L]. split; [done|].
  assert (Hlow : ∀ k b loc, maps (index_of c') k b loc → in_trunk_loc key loc → f <= dl_pos loc).
  { intros k b loc Hm [H1 H2]. destruct (so_placed _ _ _ _ S k b loc Hm) as (f' & sz' & _ & Hpos & _).
    destruct (decide (f <= dl_pos loc)) as [|Hlt]; [done|]. exfalso.
    destruct (L Logic.I k b loc Hm) as (bs & Hbs & _); [|by apply elem_of_nil in Hbs].
    split; [|by split]. exists f, sz. rewrite H1, H2. destruct key. split; [done|]. lia. }
  split; [done|]. intros Hs Hv' Hno. split; [|exact B]. exists b', e'.
  apply (recycled_store _ _ _ _ f sz); try done.
  - apply (store_ok_drops _ _ R). by rewrite app_nil_r.
  - intros k b loc Hm Hin. pose proof (Hlow k b loc Hm Hin) as Hle.
    destruct (so_placed _ _ _ _ S k b loc Hm) as (f' & sz' & Ev & Hpos). destruct Hin as [H1 H2]. rewrite H1, H2 in Ev.
    assert (Ev' : view (mgr_of (index_of c')) key = Some (f', sz')) by (rewrite <- Ev; by destruct key).
    rewrite Hv' in Ev'. injection Ev' as <- <-. lia.
Qed.

(** ** Termination

    Every step brings the reclaim nearer to its return: a turn is one of the next phase or
    leaves fewer blocks and extents, and a completion of I/O leaves less in flight. *)
Definition phase (pc : ReclaimPc) : nat :=
  match pc with ReclaimStart _ => 2 | ReclaimCombine _ => 1 | _ => 0 end.
Definition work (pc : ReclaimPc) : nat :=
  match pc with
  | ReclaimSlices slices _ blocks => 3 * length (left_of slices blocks) + S (length blocks)
  | ReclaimRead slices _ blocks => 3 * length (left_of slices blocks) + S (length blocks) + 2
  | ReclaimWrite slices _ blocks => 3 * length (left_of slices blocks) + S (length blocks) + 1
  | _ => 0
  end%nat.
Definition in_flight c : nat := (length (os_reads (th_state (rx_thread c))) + length (os_writes (th_state (rx_thread c))))%nat.
Definition nearer : (nat * nat * nat) → (nat * nat * nat) → Prop := slexprod _ _ (slexprod _ _ lt lt) lt.
Definition measure (x : ReclaimPc * TrunkReclaimContext T) : nat * nat * nat := (phase x.1, work x.1, in_flight x.2).
Lemma nearer_wf : well_founded nearer.
Proof using. apply wf_slexprod; [apply wf_slexprod|]; apply lt_wf. Qed.
Definition pc_nearer (pc' pc : ReclaimPc) : Prop := (phase pc' < phase pc ∨ phase pc' = phase pc ∧ work pc' < work pc)%nat.
Lemma pc_nearer_measure pc pc' c c' : pc_nearer pc' pc → nearer (measure (pc', c')) (measure (pc, c)).
Proof using.
  intros [H|[H1 H2]]; apply left_slex; [by apply left_slex|]. simpl. rewrite H1. by apply right_slex.
Qed.

Definition leads_to (tt' : Turn (T := T)) (Q : ReclaimPc → Prop) : Prop := match tt' with TurnTo pc _ => Q pc | _ => True end.
Lemma leads_run_op {B} (m : OM T B) th (f : Z + B → Thread T → Turn) (Q : ReclaimPc → Prop) :
  (∀ r th', leads_to (f r th') Q) → leads_to (run_op m th f) Q.
Proof using. intros H. unfold run_op. destruct (m _); [done|done|apply H]. Qed.
Lemma leads_fail result blk blks th (Q : ReclaimPc → Prop) :
  Q (ReclaimReturned result) → leads_to (migrate_fail result blk blks th) Q.
Proof using. intros H. by apply leads_run_op. Qed.
Lemma leads_log sl blk blks th (Q : ReclaimPc → Prop) :
  (∀ r, Q (ReclaimReturned r)) → Q (ReclaimSlices sl blk blks) → leads_to (migrate_log now sl blk blks th) Q.
Proof using.
  intros H1 H2. unfold migrate_log. cbv zeta. case_match; [by apply leads_fail|].
  apply leads_run_op. intros [e|[]] th'; [by apply leads_fail|done].
Qed.
Lemma next_block_nearer blk blks : pc_nearer (next_block blks) (ReclaimSlices [] blk blks).
Proof using.
  destruct blks as [|b blks]; right; simpl; (split; [done|]); [lia|].
  unfold left_of, extents. rewrite bind_cons. simpl. rewrite !length_app. lia.
Qed.
Lemma turn_nearer pc c pc' th sa ba : turn pc c = (TurnTo pc' th, sa, ba) → pc_nearer pc' pc.
Proof using.
  intros E. assert (H : leads_to (turn pc c).1.1 (λ pc', pc_nearer pc' pc)); [|by rewrite E in H]. clear E.
  unfold reclaim_turn. destruct pc as [key|sl|[|x sl] blk blks|sl blk blks|sl blk blks|r|]; cbn [fst snd].
  - destruct (convert_to_rs_array _ _ _) as [| |[e|[a [e|l]]] s]; simpl; try done; left; simpl; lia.
  - destruct (combine_to_rb_array _ _ _) as [| |[e|[a [e|[|b l]]]] s]; simpl; try done; left; simpl; lia.
  - apply leads_run_op. intros _ th'. apply next_block_nearer.
  - unfold migrate_read. apply leads_run_op. intros [e|[]] th'; [|right; simpl; split; [done|unfold left_of; simpl; lia]].
    case_match; [right; simpl; split; [done|unfold left_of; simpl; lia]|]. apply leads_fail. right. simpl. lia.
  - case_match; [|done]. unfold migrate_write. cbv zeta. case_match.
    + case_match; [right; simpl; split; [done|lia]|apply leads_fail; right; simpl; lia].
    + destruct (buffers_at _); [|right; simpl; split; [done|lia]]. apply leads_run_op. intros [e|[]] th'.
      * apply leads_log; intros; right; simpl; split; (done || lia).
      * right. simpl. split; [done|lia].
  - case_match; [|done]. apply leads_run_op. intros _ th'. apply leads_log; intros; right; simpl; split; (done || lia).
  - done.
  - done.
Qed.

Lemma write_done_flight i w result (s s' : OpState T) :
  os_writes s !! i = Some w → slice_write_done (wr_slice w) result (set_writes (remove_at i (os_writes s)) s) = Ret (inr tt) s' →
  (length (os_reads s') + length (os_writes s') < length (os_reads s) + length (os_writes s))%nat.
Proof using.
  intros Hi. rewrite slice_write_done_run. cbv zeta. intros [= <-]. simpl. pose proof (remove_at_length _ _ _ Hi). lia.
Qed.
Lemma read_done_flight i j sl ab result (s s' : OpState T) :
  os_reads s !! i = Some sl →
  do_read_done sl result (fill_buffer j ab (set_reads (remove_at i (os_reads s)) s)) = Ret (inr tt) s' →
  (length (os_reads s') + length (os_writes s') < length (os_reads s) + length (os_writes s))%nat.
Proof using.
  intros Hi. unfold do_read_done, io_done, io_count_down, ob_index_free. rewrite omod_run.
  unfold mbind, OM_bind, oindex, iworld, omod. simpl. intros [= <-].
  pose proof (remove_at_length _ _ _ Hi). destruct (result =? 0); simpl; lia.
Qed.
Lemma step_nearer x y : step x y → nearer (measure y) (measure x).
Proof using.
  intros Hst. destruct Hst as [pc c pc' th sa ba E|pc c i w result s d th Hw Hres Hd E|pc c i j sl ab result s th Hi Hres Hj Hab E].
  - apply pc_nearer_measure. by eapply turn_nearer.
  - apply right_slex. exact (write_done_flight _ _ _ _ _ Hw E).
  - apply right_slex. exact (read_done_flight _ _ _ _ _ _ _ Hi E).
Qed.
Lemma steps_finite x : Acc (λ y x, step x y) x.
Proof using.
  remember (measure x) as n eqn:En. revert x En. induction (nearer_wf n) as [n _ IH]. intros x ->.
  constructor. intros y Hst. eapply IH; [by apply step_nearer|done].
Qed.

(** C21: a reclaim returns: no run of it is infinite, and as long as it has not returned, a
    step is possible: the thread goes on, or I/O is in flight that can complete. *)
Theorem reclaim_returns base ext R key c pc c' :
  reclaim_ready base ext R key c → rtc (runs False) (ReclaimStart key, c) (pc, c') →
  Acc (λ y x, step x y) (pc, c') ∧ (running pc → ∃ y, step (pc, c') y).
Proof using All.
  intros Hr Hst. split; [apply steps_finite|]. intros Hrun.
  destruct (reached_inv _ _ _ _ _ _ _ _ Hr Hst) as [I Hn].
  pose proof (reclaim_turn_inv now cont discard blocked retries Hused Haligned Hdiscard Hspace _ _ _ _ _ Hn pc c' I Hrun) as Ht.
  destruct (turn pc c') as [[tt' sa] ba] eqn:E. destruct tt' as [pc' th'| |]; [eexists; by apply (reclaim_step_turn _ _ _ _ _ pc c' pc' th' sa ba)| |done].
  destruct Ht as [Hnf [(sl & blk & blks & ->)|(sl & blk & blks & ->)]].
  - destruct I as (bs & [(th1 & b1 & e1 & o0 & bufs & total & _ & _ & _ & Hx & I & _)] & _).
    destruct (os_reads (th_state (rx_thread c'))) as [|x rs] eqn:Er.
    { pose proof (proj2 (ri_notify _ _ _ _ _ _ _ _ _ I) Er). congruence. }
    destruct (unfilled_slot (op_buffers (os_op (th_state (rx_thread c')))) x) as [j Hj].
    { rewrite (ri_unfilled _ _ _ _ _ _ _ _ _ I), Er. by left. }
    set (ab := read_buffer (th_disk (rx_thread c')) x).
    destruct (do_read_done_run b1 _ R x 0 (fill_buffer j ab (set_reads rs (th_state (rx_thread c')))) (ri_store _ _ _ _ _ _ _ _ _ I))
      as (ix' & _ & _ & _ & E').
    { rewrite Er, occ_cons, Z.eqb_refl. pose proof (occ_nonneg (se_id x) rs). specialize (Hx (se_id x)). lia. }
    eexists. eapply (reclaim_step_read_done _ _ _ _ _ _ c' 0 j x ab 0);
      [by rewrite Er|lia|exact Hj|by apply read_buffer_into|]. rewrite Er. exact E'.
  - destruct I as (bs & [(th1 & b1 & e0 & e1 & s0 & pairs & data & _ & _ & _ & I & _)]).
    destruct (os_writes (th_state (rx_thread c'))) as [|x ws] eqn:Ew.
    { pose proof (proj2 (wi_notify _ _ _ _ _ _ I) Ew). congruence. }
    eexists. eapply (reclaim_step_write_done _ _ _ _ _ _ c' 0 x 1 _ (th_disk (rx_thread c'))); [by rewrite Ew|lia|done|].
    apply slice_write_done_run.
Qed.
End Promise.

(** ** The trunk of the small store

    A second trunk takes the place of the trunk with the 16 bytes of [DataThreadDemo.v] in the
    free list; the bytes are moved there. *)
Module ReclaimDemo.
#[local] Existing Instance merge_qsort.
Abbreviation Ctx := (TrunkReclaimContext (list OBSliceEntry)).
Abbreviation demo_turn := (reclaim_turn 10 true 256 (λ _ m, m) 0).
Abbreviation demo_step := (reclaim_step 10 true 256 (λ _ m, m) 0).
Abbreviation demo_runs := (runs 10 true 256 (λ _ m, m) 0).
Abbreviation State := (ReclaimPc * Ctx)%type.

Definition reclaim_ctx : FSSliceOpContext :=
  mkOp 0 0 0 false BINLOG_SOURCE_RECLAIM 0 0 (mkBlockSliceKey (fs_calc_block_hashcode 0 0) (mkSliceSize 0 0))
    [] 0 4 [] (mkSliceArray 0 []) 0 [].
Definition done_index : Index (list OBSliceEntry) Mgr := os_index (th_state done_thread).
Definition done_mgr : Mgr := mgr_of done_index.
Definition drained_mgr : Mgr := trunk_freelist_remove (NormalFreelist 1) done_mgr.
Definition added_mgr : Mgr := (trunk_allocator_add 1 (mkTrunkId 8 1) 4096 drained_mgr).2.
Definition two_trunks : Mgr := trunk_freelist_add (NormalFreelist 1) (1, 8) added_mgr.
Definition with_mem (mem : list bool) (s : OpState (list OBSliceEntry)) : OpState (list OBSliceEntry) :=
  set_index (set_world (set_mem mem (set_acct two_trunks (ix_world (os_index s)))) (os_index s)) s.
Definition demo_start (mem : list bool) : State :=
  (ReclaimStart (1, 7), mkReclaim 0 0 (mkThread false (set_op reclaim_ctx (with_mem mem (th_state done_thread))) written)).

(** One turn, and the completion of the first read or write. *)
Definition go (x : State) : State :=
  match demo_turn x.1 x.2 with (TurnTo pc th, sa, ba) => (pc, mkReclaim sa ba th) | _ => x end.
Definition goes_on (x : State) : bool := match demo_turn x.1 x.2 with (TurnTo _ _, _, _) => true | _ => false end.
Definition state_in (x : State) : OpState (list OBSliceEntry) := th_state (rx_thread x.2).
Definition read_one (result : Z) (x : State) : State :=
  match os_reads (state_in x) with
  | [] => x
  | sl :: rs => match do_read_done sl result
                        (fill_buffer 0 (read_buffer (th_disk (rx_thread x.2)) sl) (set_reads rs (state_in x))) with
                | Ret _ s => (x.1, on_thread (set_state s (rx_thread x.2)) x.2)
                | _ => x
                end
  end.
Definition write_one (x : State) : State :=
  match os_writes (state_in x) with
  | [] => x
  | w :: ws => match slice_write_done (wr_slice w) 0 (set_writes ws (state_in x)) with
               | Ret _ s => (x.1, on_thread (set_disk (write_bytes w (disk_of x.2)) (set_state s (rx_thread x.2))) x.2)
               | _ => x
               end
  end.
Definition first_write (x : State) : WriteRequest :=
  default (mkWrite 0 read_slice []) (head (os_writes (state_in x))).

Lemma go_step x : goes_on x = true → demo_step x (go x).
Proof.
  unfold goes_on, go. destruct x as [pc c]. cbn [fst snd]. destruct (demo_turn pc c) as [[[pc' th| |] sa] ba] eqn:E; [|done..].
  intros _. by apply (reclaim_step_turn _ _ _ _ _ pc c pc' th sa ba).
Qed.
Definition readable (result : Z) (x : State) : bool :=
  match os_reads (state_in x) with
  | [] => false
  | sl :: rs =>
      bool_decide (op_buffers (os_op (state_in x)) = [FileBuffer sl]) &&
      match do_read_done sl result
        (fill_buffer 0 (read_buffer (th_disk (rx_thread x.2)) sl) (set_reads rs (state_in x))) with
      | Ret (inr tt) _ => true | _ => false end
  end.
Lemma read_one_step result x : 0 <= result < 2 ^ 15 → readable result x = true → demo_step x (read_one result x).
Proof.
  intros Hr. unfold readable, read_one, state_in. destruct x as [pc c]. cbn [fst snd].
  destruct (os_reads (th_state (rx_thread c))) as [|sl rs] eqn:E; [done|].
  intros [Hj%bool_decide_eq_true H2]%andb_true_iff. revert H2.
  destruct (do_read_done sl result _) as [| |[e|[]] s] eqn:E2; [done..|]. intros _.
  apply (reclaim_step_read_done _ _ _ _ _ pc c 0 0 sl (read_buffer (th_disk (rx_thread c)) sl) result s);
    [by rewrite E|done|by rewrite Hj|by apply read_buffer_into|by rewrite E].
Qed.
Lemma write_one_step x w : os_writes (state_in x) = [w] →
  Z.of_nat (length (wr_data w)) = slen (wr_slice w) → slen (wr_slice w) <= sp_size (se_space (wr_slice w)) →
  demo_step x (write_one x).
Proof.
  unfold state_in, write_one, state_in. destruct x as [pc c]. cbn [fst snd]. intros E H1 H2. rewrite E, slice_write_done_run.
  apply (reclaim_step_write_done _ _ _ _ _ pc c 0 w 0); [by rewrite E|lia|by apply wrote_write_bytes|].
  rewrite E. apply slice_write_done_run.
Qed.

(** *** The run *)
Definition m1 : State := go (demo_start []).
Definition m2 : State := go m1.
Definition m3 : State := go m2.
Definition m4 : State := read_one 0 m3.
Definition m5 : State := go m4.
Definition m6 : State := write_one m5.
Definition m7 : State := go m6.
Definition m8 : State := go m7.
Definition fine_now (x : State) : bool :=
  match x.1 with
  | ReclaimRead _ _ _ => (sa_count (op_slices (os_op (state_in x))) <? 2 ^ 15) && negb (op_result (os_op (state_in x)) =? ENOENT)
  | _ => true
  end.
Definition running_now (x : State) : bool :=
  match x.1 with ReclaimReturned _ | ReclaimUndefined => false | _ => true end.
Lemma hop x y : demo_step x y → running_now x = true → fine_now y = true → demo_runs True x y.
Proof.
  intros H1 H2 H3. split; [done|]. destruct x as [pc c], y as [pc' c']. unfold running_now, fine_now in *. cbn [fst snd] in *.
  split; [by destruct pc|]. destruct pc'; try done. apply andb_true_iff in H3 as [H3 H4]. zbool.
  split; [unfold state_in in H3; cbn [snd] in H3; lia|]. intros _ E. unfold state_in in H4. cbn [snd] in H4. lia.
Qed.
Lemma demo_run : rtc (demo_runs True) (demo_start []) m8.
Proof.
  apply (rtc_l _ _ m1); [apply hop; [apply go_step|..]; vm_compute; reflexivity|].
  apply (rtc_l _ _ m2); [apply hop; [apply go_step|..]; vm_compute; reflexivity|].
  apply (rtc_l _ _ m3); [apply hop; [apply go_step|..]; vm_compute; reflexivity|].
  apply (rtc_l _ _ m4); [apply hop; [apply (read_one_step 0); [lia|]|..]; vm_compute; reflexivity|].
  apply (rtc_l _ _ m5); [apply hop; [apply go_step|..]; vm_compute; reflexivity|].
  apply (rtc_l _ _ m6); [apply hop; [apply (write_one_step m5 (first_write m5))|..]|];
    [vm_compute; reflexivity|vm_compute; reflexivity|vm_compute; discriminate|vm_compute; reflexivity..|].
  apply (rtc_l _ _ m7); [apply hop; [apply go_step|..]; vm_compute; reflexivity|].
  apply rtc_once, hop; [apply go_step|..]; vm_compute; reflexivity.
Qed.
Lemma demo_returned : m8 = (ReclaimReturned 0, m8.2).
Proof. rewrite (surjective_pairing m8) at 1. f_equal. Qed.

Definition demo_file : FSTrunkFileInfo :=
  default small_trunk (get_trunk (mgr_of (index_of (demo_start []).2)) (1, 7)).
Definition demo_slice : OBSliceEntry := default read_slice (head (all_slices (index_of (demo_start []).2))).
Lemma demo_listed : listed (index_of (demo_start []).2) (1, 7).
Proof.
  exists demo_file. split; [vm_compute; reflexivity|].
  assert (E1 : tf_slices demo_file = [se_id demo_slice]) by (vm_compute; reflexivity).
  assert (E2 : all_slices (index_of (demo_start []).2) = [demo_slice]) by (vm_compute; reflexivity).
  assert (E3 : slice_at (index_of (demo_start []).2) (se_id demo_slice) = Some demo_slice) by (vm_compute; reflexivity).
  rewrite E1, E2. split.
  - constructor; [by rewrite E3|constructor].
  - intros sl ->%list_elem_of_singleton _. exists (se_id demo_slice). split; [by left|done].
Qed.
(** A manager with one path, by its allocator. *)
Definition allocator_of (m : Mgr) : FSTrunkAllocator := default small_allocator (mg_allocators m !! 1).
Lemma one_path_lists m sel k :
  mg_allocators m = {[ 1 := allocator_of m ]} → k ∈ lists m sel →
  sel = NormalFreelist 1 ∧ k ∈ fl_trunks (ta_freelist (allocator_of m)) ∨ sel = ReclaimFreelist ∧ k ∈ fl_trunks (mg_reclaim_freelist m).
Proof.
  intros E. unfold lists, get_freelist. destruct sel as [j|]; [|by right]. rewrite E. intros Hk. left.
  destruct (decide (j = 1)) as [->|Hj]; [by rewrite lookup_singleton_eq in Hk|].
  rewrite lookup_singleton_ne in Hk by done. by apply elem_of_nil in Hk.
Qed.
Lemma one_path_get m k : mg_allocators m = {[ 1 := allocator_of m ]} →
  get_trunk m k = if decide (k.1 = 1) then ta_trunks (allocator_of m) !! k.2 else None.
Proof.
  intros E. unfold get_trunk. rewrite E. case_decide as Hk; [by rewrite Hk, lookup_singleton_eq|].
  by rewrite lookup_singleton_ne.
Qed.
Lemma done_view k f sz : view done_mgr k = Some (f, sz) → k = (1, 7) ∧ f = 16 ∧ sz = 4096.
Proof.
  assert (E1 : mg_allocators done_mgr = {[ 1 := allocator_of done_mgr ]}) by (vm_compute; reflexivity).
  assert (E2 : ∃ t, ta_trunks (allocator_of done_mgr) = {[ 7 := t ]} ∧ tf_free_start t = 16 ∧ tf_size t = 4096)
    by (eexists; vm_compute; repeat split; reflexivity).
  destruct E2 as (t & E2 & Hf & Hs). destruct k as [i id]. unfold view. rewrite (one_path_get _ _ E1), E2. cbn [fst snd].
  case_decide as Hi; [|done]. destruct (decide (id = 7)) as [->|Hd]; [|by rewrite lookup_singleton_ne].
  rewrite lookup_singleton_eq. simpl. rewrite Hf, Hs. intros [= <- <-]. by subst i.
Qed.
Lemma two_trunks_view k f sz : view two_trunks k = Some (f, sz) → (f = 16 ∨ f = 0) ∧ sz = 4096.
Proof.
  assert (E1 : mg_allocators two_trunks = {[ 1 := allocator_of two_trunks ]}) by (vm_compute; reflexivity).
  assert (E2 : ∃ t u, ta_trunks (allocator_of two_trunks) = <[ 7 := t ]> {[ 8 := u ]} ∧
    tf_free_start t = 16 ∧ tf_size t = 4096 ∧ tf_free_start u = 0 ∧ tf_size u = 4096)
    by (eexists _, _; vm_compute; repeat split; reflexivity).
  destruct E2 as (t & u & E2 & F1 & S1 & F2 & S2). destruct k as [i id]. unfold view. rewrite (one_path_get _ _ E1), E2.
  cbn [fst snd]. case_decide; [|done]. destruct (decide (id = 7)) as [->|H7].
  - rewrite lookup_insert_eq. simpl. rewrite F1, S1. intros [= <- <-]. auto.
  - rewrite lookup_insert_ne by done. destruct (decide (id = 8)) as [->|H8]; [|by rewrite lookup_singleton_ne].
    rewrite lookup_singleton_eq. simpl. rewrite F2, S2. intros [= <- <-]. auto.
Qed.
Lemma two_trunks_wf : alloc_safe done_mgr → alloc_safe two_trunks.
Proof.
  intros W. assert (W1 : alloc_safe drained_mgr) by (by apply (mgr_wf_remove_any done_mgr)).
  assert (W2 : alloc_safe added_mgr) by (by apply mgr_wf_trunk_allocator_add; [|lia|lia]).
  assert (E1 : mg_allocators added_mgr = {[ 1 := allocator_of added_mgr ]}) by (vm_compute; reflexivity).
  eapply mgr_wf_freelist_add; [done|vm_compute; reflexivity|vm_compute; reflexivity|].
  intros sel [[_ Hk]|[_ Hk]]%(one_path_lists _ _ _ E1).
  - assert (E2 : fl_trunks (ta_freelist (allocator_of added_mgr)) = []) by (vm_compute; reflexivity).
    rewrite E2 in Hk. by apply elem_of_nil in Hk.
  - assert (E2 : fl_trunks (mg_reclaim_freelist added_mgr) = []) by (vm_compute; reflexivity).
    rewrite E2 in Hk. by apply elem_of_nil in Hk.
Qed.

(** The store with another manager that has the trunks of the first. *)
Lemma store_with_mgr base ext (ix : Index (list OBSliceEntry) Mgr) m mem :
  store_ok base ext [] ix → alloc_safe m → aligned8 m →
  (∀ k f sz, view (mgr_of ix) k = Some (f, sz) → view m k = Some (f, sz)) →
  ∃ base', store_ok base' ext [] (set_world (set_mem mem (set_acct m (ix_world ix))) ix).
Proof.
  intros [[I1 I2 I3 I4 I5 I6] W A P Al _ _] W' A' Hv.
  exists (λ st id, default 0 (acct_used m st id) - sizes_in st id (all_slices ix)). split.
  - split; try done.
    + by apply wf_world.
    + intros p k n t L. destruct (I2 p k n t L) as [[Hw Hb] Hn]. split; [|done]. split; [done|].
      intros sl Hsl. destruct (Hb sl Hsl) as [Ho Hk]. split; [done|]. unfold known in *.
      apply mgr_used_some in Hk as [[f sz] Hk]. apply mgr_used_some. exists (f, sz). by apply Hv.
    + intros _ st id u Hu. change (acct_used m st id = Some u) in Hu. rewrite Hu. simpl.
      change (all_slices (set_world _ ix)) with (all_slices ix). lia.
  - exact W'.
  - exact A'.
  - intros k b loc Hl. destruct (P k b loc Hl) as (f & sz & E & Hp). exists f, sz. split; [by apply Hv|done].
  - exact Al.
  - by intros s d ?%elem_of_nil.
  - constructor.
Qed.
Lemma demo_ready : ∃ base ext, reclaim_ready base ext [] (1, 7) (demo_start []).2.
Proof.
  destruct done_store as (base & ext & S).
  destruct (store_with_mgr base ext done_index two_trunks [] S) as [base' S'].
  - apply two_trunks_wf, S.
  - intros k f sz [[->| ->] ->]%two_trunks_view; split; first [by exists 512 | by exists 2 | by exists 0].
  - intros k f sz (-> & -> & ->)%done_view. vm_compute. reflexivity.
  - exists base', ext. split; [exact S'|]. split; [|split].
    + vm_compute. by split_and!.
    + vm_compute. reflexivity.
    + exact demo_listed.
Qed.
Lemma demo_view : view (mgr_of (index_of (demo_start []).2)) (1, 7) = Some (16, 4096).
Proof. vm_compute. reflexivity. Qed.

(** Nobody allocated from the trunk, and it is in no free list. *)
Lemma demo_view_after : view (mgr_of (index_of m8.2)) (1, 7) = Some (16, 4096).
Proof. vm_compute. reflexivity. Qed.
Lemma demo_lists_after sel : (1, 7) ∉ lists (mgr_of (index_of m8.2)) sel.
Proof.
  set (m := mgr_of (index_of m8.2)).
  assert (E1 : mg_allocators m = {[ 1 := allocator_of m ]}) by (vm_compute; reflexivity).
  intros [[_ Hk]|[_ Hk]]%(one_path_lists _ _ _ E1).
  - assert (E2 : fl_trunks (ta_freelist (allocator_of m)) = [(1, 8)]) by (vm_compute; reflexivity).
    rewrite E2 in Hk. apply list_elem_of_singleton in Hk. by injection Hk.
  - assert (E2 : fl_trunks (mg_reclaim_freelist m) = []) by (vm_compute; reflexivity).
    rewrite E2 in Hk. by apply elem_of_nil in Hk.
Qed.
Lemma reclaim_empties_trunk_witness :
  (∀ k b loc, maps (index_of m8.2) k b loc → in_trunk_loc (1, 7) loc → 16 <= dl_pos loc) ∧
  ∃ base ext, store_ok base ext [] (recycled (1, 7) (index_of m8.2)).
Proof.
  destruct demo_ready as (base & ext & Hr).
  destruct (reclaim_empties_trunk 10 true 256 (λ _ m, m) 0 id_blocked_used (λ _ _ H, H) eq_refl id_blocked_space
    base ext [] (1, 7) (demo_start []).2 m8.2 16 4096 Hr) as (_ & H2 & H3).
  - rewrite <- demo_returned. exact demo_run.
  - exact demo_view.
  - split; [exact H2|]. exact (proj1 (H3 eq_refl demo_view_after demo_lists_after)).
Defined.

Lemma runs_weaken x y : demo_runs True x y → demo_runs False x y.
Proof. intros (H1 & H2 & H3). split; [done|]. split; [done|]. destruct (y.1); try done. by destruct H3. Qed.
Lemma demo_run_any : rtc (demo_runs False) (demo_start []) (ReclaimReturned 0, m8.2).
Proof. rewrite <- demo_returned. eapply rtc_subrel; [|exact demo_run]. intros x y. apply runs_weaken. Qed.
Lemma reclaim_keeps_store_witness :
  (∃ base ext, store_ok base ext [] (index_of m8.2)) ∧
  ∀ k b v, content (disk_of m8.2) (index_of m8.2) k b v ↔ content written (index_of (demo_start []).2) k b v.
Proof.
  destruct demo_ready as (base & ext & Hr).
  destruct (reclaim_keeps_store 10 true 256 (λ _ m, m) 0 id_blocked_used (λ _ _ H, H) eq_refl id_blocked_space
    base ext [] (1, 7) (demo_start []).2 (ReclaimReturned 0) m8.2 Hr demo_run_any) as (H1 & H2 & _).
  split; [exact H1|exact H2].
Defined.
(** While the read is in flight. *)
Lemma reclaim_returns_witness : ∃ y, demo_step m3 y.
Proof.
  destruct demo_ready as (base & ext & Hr). rewrite (surjective_pairing m3).
  apply (reclaim_returns 10 true 256 (λ _ m, m) 0 id_blocked_used (λ _ _ H, H) eq_refl id_blocked_space
    base ext [] (1, 7) (demo_start []).2 m3.1 m3.2 Hr).
  - rewrite <- surjective_pairing. apply (rtc_l _ _ m1); [apply runs_weaken, hop; [apply go_step|..]; vm_compute; reflexivity|].
    apply (rtc_l _ _ m2); [apply runs_weaken, hop; [apply go_step|..]; vm_compute; reflexivity|].
    apply rtc_once, runs_weaken, hop; [apply go_step|..]; vm_compute; reflexivity.
  - vm_compute. exact Logic.I.
Defined.

(** *** A trunk file that is missing

    a read that fails with [ENOENT] in the read thread is taken for an extent that was
    deleted meanwhile: the reclaim returns 0, and the bytes are still mapped into the
    trunk. Read threads without libaio report an open that failed so; with it, the server
    terminates then. *)
Definition e4 : State := read_one ENOENT m3.
Definition e5 : State := go e4.
Definition e6 : State := go e5.
Theorem missing_file_stays :
  rtc demo_step (demo_start []) e6 ∧ e6.1 = ReclaimReturned 0 ∧
  ∃ k b loc, maps (index_of e6.2) k b loc ∧ in_trunk_loc (1, 7) loc ∧ dl_pos loc < 16.
Proof.
  split; [|split].
  - apply (rtc_l _ _ m1); [apply go_step; vm_compute; reflexivity|].
    apply (rtc_l _ _ m2); [apply go_step; vm_compute; reflexivity|].
    apply (rtc_l _ _ m3); [apply go_step; vm_compute; reflexivity|].
    apply (rtc_l _ _ e4); [apply read_one_step; [unfold ENOENT; lia|vm_compute; reflexivity]|].
    apply (rtc_l _ _ e5); [apply go_step; vm_compute; reflexivity|].
    apply rtc_once, go_step. vm_compute. reflexivity.
  - vm_compute. reflexivity.
  - eexists (bs_block (op_bs_key small_ctx)), 0, (mkLoc 1 (mkTrunkId 7 1) _ OB_SLICE_TYPE_FILE). split.
    + exists 1, 0. eexists. split; vm_compute; reflexivity.
    + split; [split; reflexivity|]. reflexivity.
Qed.

(** *** A notification that was not reset

    when the slice entry of a write cannot be allocated, [fs_slice_write] has called
    [rw_done_callback] already; [migrate_one_slice] does not wait and does not reset
    [finished]. The next reclaim does not wait for its first read: it goes on with buffers
    that were not read. *)
Definition s0 : State := demo_start [true; true; true; true; true; false].
Definition s1 : State := go s0.
Definition s2 : State := go s1.
Definition s3 : State := go s2.
Definition s4 : State := read_one 0 s3.
Definition s5 : State := go s4.
Definition t0 : State := (ReclaimStart (1, 7), s5.2).
Definition t1 : State := go t0.
Definition t2 : State := go t1.
Definition t3 : State := go t2.
Definition t4 : State := go t3.
Theorem unread_buffers_written :
  rtc demo_step s0 s5 ∧ s5.1 = ReclaimReturned ENOMEM ∧ th_notify_done (rx_thread s5.2) = true ∧
  rtc demo_step t0 t4 ∧ t4.1 = ReclaimUndefined ∧ os_reads (state_in t4) ≠ [].
Proof.
  split; [|split; [|split; [|split; [|split]]]].
  - apply (rtc_l _ _ s1); [apply go_step; vm_compute; reflexivity|].
    apply (rtc_l _ _ s2); [apply go_step; vm_compute; reflexivity|].
    apply (rtc_l _ _ s3); [apply go_step; vm_compute; reflexivity|].
    apply (rtc_l _ _ s4); [apply read_one_step; [lia|vm_compute; reflexivity]|].
    apply rtc_once, go_step. vm_compute. reflexivity.
  - vm_compute. reflexivity.
  - vm_compute. reflexivity.
  - apply (rtc_l _ _ t1); [apply go_step; vm_compute; reflexivity|].
    apply (rtc_l _ _ t2); [apply go_step; vm_compute; reflexivity|].
    apply (rtc_l _ _ t3); [apply go_step; vm_compute; reflexivity|].
    apply rtc_once, go_step. vm_compute. reflexivity.
  - vm_compute. reflexivity.
  - vm_compute. discriminate.
Qed.
End ReclaimDemo.
