(* ===== verification/RpcResultRing.v ===== *)
(** * The results a master waits for

    [src/server/replication/rpc_result_ring.c]: for each data group a replication keeps the
    updates that were sent to the slave and not acknowledged yet, in a ring indexed by the
    data version, or in a sorted list when the ring has no place for them. An entry that goes
    away counts down the slaves its task waits for; at zero the data thread is notified. *)
From S2P Require Import Prelude.

(** [FSReplicaRPCResultEntry]; a [waiting_task] is the identity of the task. *)
Record RPCResultEntry := mkEntry {
  re_version : Z;
  re_task : option Z;
  re_expires : Z;
}.
Definition zero_entry : RPCResultEntry := mkEntry 0 None 0.

(** [FSReplicaRPCResultInstance]. The pointers [start] and [end] are positions in the array;
    of the list [queue] the nodes are given in order, and [tail] is the position of the node
    the tail pointer points to (of no account when the list is empty). *)
Record RPCResultInstance := mkInstance {
  ri_entries : list RPCResultEntry;
  ri_start : nat;
  ri_end : nat;
  ri_queue : list RPCResultEntry;
  ri_tail : nat;
}.

(** [service.waiting_rpc_count] of the tasks, and the tasks whose data thread was notified. *)
Record Tasks := mkTasks {
  tk_waiting : Z → Z;
  tk_notified : list Z;
}.

(** [init_rpc_result_instance]. *)
Definition init_rpc_result_instance (alloc_size : nat) : RPCResultInstance :=
  mkInstance (replicate alloc_size zero_entry) 0 0 [] 0.

Definition set_ring entries start end_ (x : RPCResultInstance) : RPCResultInstance :=
  mkInstance entries start end_ (ri_queue x) (ri_tail x).
Definition set_queue queue tail (x : RPCResultInstance) : RPCResultInstance :=
  mkInstance (ri_entries x) (ri_start x) (ri_end x) queue tail.
Definition ring_size (x : RPCResultInstance) : nat := length (ri_entries x).
Definition ring_next (x : RPCResultInstance) (i : nat) : nat := ((i + 1) mod ring_size x)%nat.
Definition ring_at (x : RPCResultInstance) (i : nat) : RPCResultEntry :=
  default zero_entry (ri_entries x !! i).
(** [data_version % instance->ring.size]. *)
Definition ring_index (x : RPCResultInstance) (data_version : Z) : nat :=
  Z.to_nat (data_version mod Z.of_nat (ring_size x)).

(** [desc_task_waiting_rpc_count]. *)
Definition desc_task_waiting_rpc_count (entry : RPCResultEntry) (tk : Tasks) : Tasks :=
  match re_task entry with
  | None => tk
  | Some t =>
      let n := tk_waiting tk t - 1 in
      mkTasks (λ u, if u =? t then n else tk_waiting tk u)
        (if n =? 0 then tk_notified tk ++ [t] else tk_notified tk)
  end.

(** ** Clearing *)

(** [rpc_result_instance_clear_queue_all]. *)
Definition rpc_result_instance_clear_queue_all (x : RPCResultInstance) (tk : Tasks)
    : RPCResultInstance * Tasks :=
  (set_queue [] 0 x, fold_left (λ tk entry, desc_task_waiting_rpc_count entry tk) (ri_queue x) tk).

(** The entry at [start] is counted down and cleared, and [start] moves on. *)
Definition clear_start (x : RPCResultInstance) (tk : Tasks) : RPCResultInstance * Tasks :=
  let entry := ring_at x (ri_start x) in
  (set_ring (<[ri_start x := mkEntry 0 None (re_expires entry)]> (ri_entries x))
     (ring_next x (ri_start x)) (ri_end x) x,
   desc_task_waiting_rpc_count entry tk).
(** The loop of [rpc_result_instance_clear_all]; the fuel is the size of the ring. *)
Fixpoint clear_ring_all (fuel : nat) (x : RPCResultInstance) (tk : Tasks) : RPCResultInstance * Tasks :=
  if (ri_start x =? ri_end x)%nat then (x, tk) else
  match fuel with
  | O => (x, tk)
  | S fuel => let '(x, tk) := clear_start x tk in clear_ring_all fuel x tk
  end.
(** [rpc_result_instance_clear_all]. *)
Definition rpc_result_instance_clear_all (x : RPCResultInstance) (tk : Tasks) : RPCResultInstance * Tasks :=
  let '(x, tk) := clear_ring_all (ring_size x) x tk in
  rpc_result_instance_clear_queue_all x tk.

(** ** Timeouts *)
Section Time.
(** [g_current_time] and [SF_G_NETWORK_TIMEOUT]. *)
Variables (g_current_time network_timeout : Z).

(** [rpc_result_instance_clear_queue_timeouts]. *)
Fixpoint drop_expired (queue : list RPCResultEntry) (tail : nat) (tk : Tasks) (count : Z)
    : list RPCResultEntry * nat * Tasks * Z :=
  match queue with
  | [] => ([], O, tk, count)
  | entry :: queue' =>
      if re_expires entry <? g_current_time
      then drop_expired queue' (tail - 1) (desc_task_waiting_rpc_count entry tk) (count + 1)
      else (queue, tail, tk, count)
  end.
Definition rpc_result_instance_clear_queue_timeouts (x : RPCResultInstance) (tk : Tasks)
    : Z * RPCResultInstance * Tasks :=
  let '(queue, tail, tk, count) := drop_expired (ri_queue x) (ri_tail x) tk 0 in
  (count, set_queue queue tail x, tk).
Fixpoint clear_ring_timeouts (fuel : nat) (x : RPCResultInstance) (tk : Tasks) (count : Z)
    : Z * RPCResultInstance * Tasks :=
  if (ri_start x =? ri_end x)%nat || negb (re_expires (ring_at x (ri_start x)) <? g_current_time)
  then (count, x, tk) else
  match fuel with
  | O => (count, x, tk)
  | S fuel => let '(x, tk) := clear_start x tk in clear_ring_timeouts fuel x tk (count + 1)
  end.
(** [rpc_result_instance_clear_timeouts]. *)
Definition rpc_result_instance_clear_timeouts (x : RPCResultInstance) (tk : Tasks)
    : Z * RPCResultInstance * Tasks :=
  let '(count, x, tk) := clear_ring_timeouts (ring_size x) x tk 0 in
  let '(n, x, tk) := rpc_result_instance_clear_queue_timeouts x tk in
  (count + n, x, tk).

(** ** Adding and removing *)

(** The walk of [add_to_queue] and [remove_from_queue] over the nodes after the head: the
    position of the first one whose version is not smaller, or the length. *)
Fixpoint queue_position (data_version : Z) (queue : list RPCResultEntry) : nat :=
  match queue with
  | [] => O
  | entry :: queue => if re_version entry <? data_version then S (queue_position data_version queue) else O
  end.
(** [add_to_queue]; [ok]: is there memory for the entry? Appending behind a tail pointer that
    is not at the last node cuts off the nodes after it. *)
Definition add_to_queue (ok : bool) (data_version : Z) (task : Z) (x : RPCResultInstance)
    : Z * RPCResultInstance :=
  if negb ok then (ENOMEM, x) else
  let entry := mkEntry data_version (Some task) (g_current_time + network_timeout) in
  match ri_queue x with
  | [] => (0, set_queue [entry] 0 x)
  | head :: rest =>
      let tail := default head (ri_queue x !! ri_tail x) in
      if re_version tail <? data_version then
        (0, set_queue (take (S (ri_tail x)) (ri_queue x) ++ [entry]) (S (ri_tail x)) x)
      else if data_version <? re_version head then
        (0, set_queue (entry :: ri_queue x) (S (ri_tail x)) x)
      else
        let i := S (queue_position data_version rest) in
        (0, set_queue (take i (ri_queue x) ++ entry :: drop i (ri_queue x))
              (if (i <=? ri_tail x)%nat then S (ri_tail x) else ri_tail x) x)
  end.
(** [rpc_result_ring_add], in the instance of the data group. *)
Definition rpc_result_add (ok : bool) (data_version : Z) (task : Z) (x : RPCResultInstance)
    : Z * RPCResultInstance :=
  let index := ring_index x data_version in
  let entry := mkEntry data_version (Some task) (g_current_time + network_timeout) in
  if (ri_end x =? ri_start x)%nat then
    (0, set_ring (<[index := entry]> (ri_entries x)) index (ring_next x index) x)
  else
    let previous := ((index + ring_size x - 1) mod ring_size x)%nat in
    let next := ring_next x index in
    if (index =? ri_end x)%nat && negb (next =? ri_start x)%nat
       && (data_version =? re_version (ring_at x previous) + 1) then
      (0, set_ring (<[index := entry]> (ri_entries x)) (ri_start x) next x)
    else add_to_queue ok data_version task x.

(** [remove_from_queue]. *)
Definition remove_from_queue (data_version : Z) (x : RPCResultInstance) (tk : Tasks)
    : Z * RPCResultInstance * Tasks :=
  match ri_queue x with
  | [] => (ENOENT, x, tk)
  | head :: rest =>
      if data_version =? re_version head then
        (0, set_queue rest (ri_tail x - 1) x, desc_task_waiting_rpc_count head tk)
      else
        let i := queue_position data_version rest in
        match rest !! i with
        | Some current =>
            if data_version =? re_version current then
              (0, set_queue (delete (S i) (ri_queue x))
                    (if (S i <=? ri_tail x)%nat then (ri_tail x - 1)%nat else ri_tail x) x,
               desc_task_waiting_rpc_count current tk)
            else (ENOENT, x, tk)
        | None => (ENOENT, x, tk)
        end
  end.
(** The loop of [rpc_result_ring_remove] over the cleared entries at the start. *)
Fixpoint skip_cleared (fuel : nat) (x : RPCResultInstance) (start : nat) : nat :=
  match fuel with
  | O => start
  | S fuel =>
      if negb (start =? ri_end x)%nat && (re_version (ring_at x start) =? 0)
      then skip_cleared fuel x (ring_next x start) else start
  end.
(** [rpc_result_ring_remove], in the instance of the data group. *)
Definition rpc_result_remove (data_version : Z) (x : RPCResultInstance) (tk : Tasks)
    : Z * RPCResultInstance * Tasks :=
  let index := ring_index x data_version in
  let entry := ring_at x index in
  if negb (ri_end x =? ri_start x)%nat && (re_version entry =? data_version) then
    let start := if (ri_start x =? index)%nat
                 then skip_cleared (ring_size x) x (ring_next x index) else ri_start x in
    (0, set_ring (<[index := mkEntry 0 None (re_expires entry)]> (ri_entries x)) start (ri_end x) x,
     desc_task_waiting_rpc_count entry tk)
  else remove_from_queue data_version x tk.
End Time.

(** ** The instances of a replication *)

(** [FSReplicaRPCResultContext]: an instance for each of the data groups of the server, whose
    numbers are consecutive from [dg_base_id]. A group that is none of them is out of the
    bounds of the array ([None]). *)
Record RPCResultContext := mkResultCtx {
  rc_last_check_timeout_time : Z;
  rc_dg_base_id : Z;
  rc_instances : list RPCResultInstance;
}.
(** [rpc_result_ring_check_init]. *)
Definition rpc_result_ring_check_init (base_id : Z) (count alloc_size : nat) : RPCResultContext :=
  mkResultCtx 0 base_id (replicate count (init_rpc_result_instance alloc_size)).
Definition group_index (data_group_id : Z) (ctx : RPCResultContext) : option nat :=
  let i := data_group_id - rc_dg_base_id ctx in
  if (0 <=? i) && (i <? Z.of_nat (length (rc_instances ctx))) then Some (Z.to_nat i) else None.
Definition set_instance i x (ctx : RPCResultContext) : RPCResultContext :=
  mkResultCtx (rc_last_check_timeout_time ctx) (rc_dg_base_id ctx) (<[i := x]> (rc_instances ctx)).

Definition rpc_result_ring_add (now timeout : Z) (ok : bool) (data_group_id data_version task : Z)
    (ctx : RPCResultContext) : option (Z * RPCResultContext) :=
  i ← group_index data_group_id ctx;
  x ← rc_instances ctx !! i;
  let '(r, x) := rpc_result_add now timeout ok data_version task x in
  Some (r, set_instance i x ctx).
Definition rpc_result_ring_remove (data_group_id data_version : Z) (ctx : RPCResultContext) (tk : Tasks)
    : option (Z * RPCResultContext * Tasks) :=
  i ← group_index data_group_id ctx;
  x ← rc_instances ctx !! i;
  let '(r, x, tk) := rpc_result_remove data_version x tk in
  Some (r, set_instance i x ctx, tk).
(** [rpc_result_ring_clear_all], [rpc_result_ring_clear_timeouts]. *)
Fixpoint clear_instances (l : list RPCResultInstance) (tk : Tasks) : list RPCResultInstance * Tasks :=
  match l with
  | [] => ([], tk)
  | x :: l =>
      let '(x, tk) := rpc_result_instance_clear_all x tk in
      let '(l, tk) := clear_instances l tk in
      (x :: l, tk)
  end.
Definition rpc_result_ring_clear_all (ctx : RPCResultContext) (tk : Tasks) : RPCResultContext * Tasks :=
  let '(l, tk) := clear_instances (rc_instances ctx) tk in
  (mkResultCtx (rc_last_check_timeout_time ctx) (rc_dg_base_id ctx) l, tk).
Fixpoint clear_instances_timeouts (now : Z) (l : list RPCResultInstance) (tk : Tasks)
    : Z * list RPCResultInstance * Tasks :=
  match l with
  | [] => (0, [], tk)
  | x :: l =>
      let '(n, x, tk) := rpc_result_instance_clear_timeouts now x tk in
      let '(m, l, tk) := clear_instances_timeouts now l tk in
      (n + m, x :: l, tk)
  end.
Definition rpc_result_ring_clear_timeouts (now : Z) (ctx : RPCResultContext) (tk : Tasks)
    : Z * RPCResultContext * Tasks :=
  if rc_last_check_timeout_time ctx =? now then (0, ctx, tk) else
  let '(n, l, tk) := clear_instances_timeouts now (rc_instances ctx) tk in
  (n, mkResultCtx now (rc_dg_base_id ctx) l, tk).

(** ** The ring of results as a set of waiting updates

    Whatever lies in the ring and whatever in the list, an instance represents the entries
    that were added and have neither been removed nor cleared. *)

(** ** Positions of a ring *)
Definition dist (n a b : nat) : nat := if (a <=? b)%nat then (b - a)%nat else (b + n - a)%nat.
Lemma next_eq x i : (i < ring_size x)%nat → ring_next x i = if (i + 1 =? ring_size x)%nat then 0%nat else (i + 1)%nat.
Proof.
  intros H. unfold ring_next. destruct (Nat.eqb_spec (i + 1) (ring_size x)) as [->|].
  - apply Nat.Div0.mod_same.
  - apply Nat.mod_small. lia.
Qed.
Ltac ring_lia := unfold dist in *;
  repeat match goal with
  | |- context [(?a <=? ?b)%nat] => destruct (Nat.leb_spec a b)
  | H : context [(?a <=? ?b)%nat] |- _ => destruct (Nat.leb_spec a b)
  | |- context [(?a =? ?b)%nat] => destruct (Nat.eqb_spec a b)
  | H : context [(?a =? ?b)%nat] |- _ => destruct (Nat.eqb_spec a b)
  end; try lia.
Lemma dist_next x s e i :
  (s < ring_size x)%nat → (e < ring_size x)%nat → (i < ring_size x)%nat → s ≠ e → i ≠ s →
  (dist (ring_size x) s i < dist (ring_size x) s e)%nat →
  (dist (ring_size x) (ring_next x s) i < dist (ring_size x) (ring_next x s) e)%nat.
Proof. intros Hs He Hi Hse His H. rewrite next_eq by done. ring_lia. Qed.
Lemma dist_next_end x s e : (s < ring_size x)%nat → (e < ring_size x)%nat → s ≠ e →
  dist (ring_size x) s e = S (dist (ring_size x) (ring_next x s) e).
Proof. intros Hs He Hse. rewrite next_eq by done. ring_lia. Qed.
Lemma next_lt x i : (i < ring_size x)%nat → (ring_next x i < ring_size x)%nat.
Proof. intros H. rewrite next_eq by done. ring_lia. Qed.

(** ** The entries an instance represents *)
Definition live (e : RPCResultEntry) : Prop := re_version e ≠ 0.
#[export] Instance live_dec e : Decision (live e).
Proof. unfold live. apply _. Defined.
Definition contents (x : RPCResultInstance) : list RPCResultEntry := filter live (ri_entries x) ++ ri_queue x.
Definition entry_lt (a b : RPCResultEntry) : Prop := re_version a < re_version b.

(** The live entries of the ring lie between [start] and [end], each at the place of its
    version; the list is sorted and its tail pointer is at its last node. *)
Record instance_ok (x : RPCResultInstance) : Prop := {
  io_size : (2 <= ring_size x)%nat;
  io_start : (ri_start x < ring_size x)%nat;
  io_end : (ri_end x < ring_size x)%nat;
  io_live : ∀ i e, ri_entries x !! i = Some e → live e →
    (dist (ring_size x) (ri_start x) i < dist (ring_size x) (ri_start x) (ri_end x))%nat ∧ ring_index x (re_version e) = i;
  io_dead : ∀ e, e ∈ ri_entries x → ¬ live e → re_task e = None;
  io_sorted : StronglySorted entry_lt (ri_queue x);
  io_tail : S (ri_tail x) = length (ri_queue x) ∨ ri_queue x = [];
}.

Lemma init_ok n : (2 <= n)%nat → instance_ok (init_rpc_result_instance n) ∧ contents (init_rpc_result_instance n) = [].
Proof.
  intros Hn. unfold init_rpc_result_instance.
  assert (Hz : ∀ e, e ∈ replicate n zero_entry → e = zero_entry).
  { intros e He. by apply elem_of_replicate in He as [-> _]. }
  split.
  - split; unfold ring_size; simpl; rewrite ?length_replicate; try lia; [| |constructor|by right].
    + intros i e He. apply list_elem_of_lookup_2, Hz in He as ->. by intros [].
    + intros e ->%Hz _. done.
  - unfold contents; simpl. rewrite app_nil_r. clear Hn Hz. by induction n.
Qed.

(** Writing and clearing a place. *)
Lemma filter_insert_live (l : list RPCResultEntry) i e0 e :
  l !! i = Some e0 → ¬ live e0 → live e → filter live (<[i := e]> l) ≡ₚ e :: filter live l.
Proof.
  intros Hi H0 He. rewrite insert_take_drop by (by eapply lookup_lt_Some).
  rewrite <- (take_drop_middle l i e0 Hi) at 3. rewrite !filter_app, filter_cons_True by done.
  rewrite (filter_cons_False _ e0) by done. by rewrite Permutation_middle.
Qed.
Lemma filter_insert_dead (l : list RPCResultEntry) i e0 e :
  l !! i = Some e0 → live e0 → ¬ live e → filter live l ≡ₚ e0 :: filter live (<[i := e]> l).
Proof.
  intros Hi H0 He. rewrite insert_take_drop by (by eapply lookup_lt_Some).
  rewrite <- (take_drop_middle l i e0 Hi) at 1. rewrite !filter_app, filter_cons_True by done.
  rewrite (filter_cons_False _ e) by done. by rewrite Permutation_middle.
Qed.
Lemma filter_insert_same (l : list RPCResultEntry) i e0 e :
  l !! i = Some e0 → ¬ live e0 → ¬ live e → filter live l = filter live (<[i := e]> l).
Proof.
  intros Hi H0 He. rewrite insert_take_drop by (by eapply lookup_lt_Some).
  rewrite <- (take_drop_middle l i e0 Hi) at 1. rewrite !filter_app.
  by rewrite (filter_cons_False _ e), (filter_cons_False _ e0).
Qed.

Lemma ring_index_lt x v : (0 < ring_size x)%nat → (ring_index x v < ring_size x)%nat.
Proof. intros H. unfold ring_index. pose proof (Z.mod_pos_bound v (Z.of_nat (ring_size x))). lia. Qed.
Lemma ring_at_lookup x i : (i < ring_size x)%nat → ri_entries x !! i = Some (ring_at x i).
Proof. intros H. unfold ring_at. destruct (lookup_lt_is_Some_2 (ri_entries x) i H) as [e ->]. done. Qed.
Lemma dead_outside x i : instance_ok x → (i < ring_size x)%nat →
  ¬ (dist (ring_size x) (ri_start x) i < dist (ring_size x) (ri_start x) (ri_end x))%nat → ¬ live (ring_at x i).
Proof. intros I Hi Hn Hl. apply Hn. by apply (io_live _ I _ _ (ring_at_lookup x i Hi)). Qed.

(** ** The queue *)
Lemma queue_position_spec v l : StronglySorted entry_lt l →
  Forall (λ e, re_version e < v) (take (queue_position v l) l) ∧
  Forall (λ e, v <= re_version e) (drop (queue_position v l) l).
Proof.
  induction 1 as [|e l Hs IH He]; simpl; [by split|].
  destruct (Z.ltb_spec (re_version e) v) as [H|H]; simpl.
  - split; [constructor; [done|apply IH]|apply IH].
  - split; [constructor|]. constructor; [done|]. eapply Forall_impl; [exact He|]. unfold entry_lt. intros y. lia.
Qed.
Lemma queue_position_le v l : (queue_position v l <= length l)%nat.
Proof. induction l as [|e l IH]; simpl; [done|]. destruct (_ <? _); lia. Qed.

Lemma sorted_insert_between e l i : StronglySorted entry_lt l →
  Forall (λ y, re_version y < re_version e) (take i l) → Forall (λ y, re_version e < re_version y) (drop i l) →
  StronglySorted entry_lt (take i l ++ e :: drop i l).
Proof.
  revert i. induction l as [|y l IH]; intros i Hs H1 H2.
  { rewrite take_nil, drop_nil. repeat constructor. }
  destruct i as [|i]; simpl in *; [by constructor|].
  inversion Hs as [|? ? Hs' Hy]; subst. apply Forall_cons in H1 as [Hye H1]. constructor; [by apply IH|].
  rewrite <- (take_drop i l) in Hy. apply Forall_app in Hy as [Hy1 Hy2]. apply Forall_app. split; [done|].
  by constructor.
Qed.

Lemma add_to_queue_run now timeout v t x : instance_ok x → (∀ e, e ∈ ri_queue x → re_version e ≠ v) →
  ∃ q tail, add_to_queue now timeout true v t x = (0, set_queue q tail x) ∧
    q ≡ₚ mkEntry v (Some t) (now + timeout) :: ri_queue x ∧ StronglySorted entry_lt q ∧ S tail = length q.
Proof.
  intros I Hne. unfold add_to_queue. cbn [negb]. set (entry := mkEntry v (Some t) (now + timeout)).
  pose proof (io_sorted _ I) as Hs. pose proof (io_tail _ I) as Ht.
  destruct (ri_queue x) as [|head rest] eqn:Eq.
  { exists [entry], 0%nat. split_and!; [done|done|repeat constructor|done]. }
  destruct Ht as [Ht|Ht]; [|done]. set (q := head :: rest) in *.
  destruct (lookup_lt_is_Some_2 q (ri_tail x)) as [last Hlast]; [lia|]. rewrite Hlast. change (default head (Some last)) with last.
  assert (Hmax : Forall (λ e, re_version e <= re_version last) q).
  { apply Forall_forall. intros e He. apply list_elem_of_lookup_1 in He as [i Hi].
    destruct (decide (i = ri_tail x)) as [->|Hit]; [replace e with last by congruence; lia|].
    pose proof (lookup_lt_Some _ _ _ Hi). 
    assert (entry_lt e last); [|unfold entry_lt in *; lia].
    apply (sorted_lookup _ q i (ri_tail x)); [exact Hs|exact Hi|exact Hlast|lia]. }
  destruct (Z.ltb_spec (re_version last) v) as [Hl|Hl].
  { exists (q ++ [entry]), (S (ri_tail x)). rewrite take_ge by lia. split_and!; [done| | |].
    - by rewrite Permutation_app_comm.
    - pose proof (sorted_insert_between entry q (length q) Hs) as H. rewrite take_ge, drop_ge in H by done.
      apply H; [|constructor]. eapply Forall_impl; [exact Hmax|]. simpl. intros e He. lia.
    - rewrite length_app. change (length [entry]) with 1%nat. lia. }
  destruct (Z.ltb_spec v (re_version head)) as [Hh|Hh].
  { exists (entry :: q), (S (ri_tail x)). split_and!; [done|done| |simpl in *; lia].
    constructor; [done|]. inversion Hs as [|? ? _ Hrest]; subst. constructor; [done|].
    eapply Forall_impl; [exact Hrest|]. unfold entry_lt. simpl. intros e He. lia. }
  set (i := S (queue_position v rest)).
  assert (Hi : (i <= ri_tail x)%nat).
  { destruct (decide (i <= ri_tail x)%nat) as [|Hn]; [done|exfalso].
    assert (Hin : last ∈ take i q).
    { rewrite take_ge by lia. by eapply list_elem_of_lookup_2. }
    inversion Hs as [|? ? Hsr _]; subst. destruct (queue_position_spec v rest Hsr) as [H1 _].
    assert (Hall : Forall (λ e, re_version e <= v) (take i q)).
    { unfold i. simpl. constructor; [done|]. eapply Forall_impl; [exact H1|]. simpl. intros e He. lia. }
    rewrite Forall_forall in Hall. specialize (Hall last Hin). apply (Hne last); [by eapply list_elem_of_lookup_2|lia]. }
  destruct (Nat.leb_spec i (ri_tail x)); [|lia].
  exists (take i q ++ entry :: drop i q), (S (ri_tail x)). split_and!; [done| | |].
  - rewrite <- Permutation_middle. by rewrite take_drop.
  - inversion Hs as [|? ? Hsr _]; subst. destruct (queue_position_spec v rest Hsr) as [H1 H2].
    apply sorted_insert_between; [done| |].
    + unfold i. simpl. constructor; [|exact H1]. simpl. specialize (Hne head). assert (re_version head ≠ v) by (apply Hne; by left). lia.
    + unfold i. simpl. apply Forall_forall. intros e He. rewrite Forall_forall in H2. specialize (H2 e He).
      assert (re_version e ≠ v); [|simpl; lia]. apply Hne. right. rewrite <- (take_drop (queue_position v rest) rest).
      apply elem_of_app. by right.
  - rewrite length_app, length_take. simpl. rewrite length_drop. simpl in *. lia.
Qed.

Lemma sorted_delete (q : list RPCResultEntry) i : StronglySorted entry_lt q → StronglySorted entry_lt (delete i q).
Proof.
  revert i. induction q as [|y q IH]; intros i Hs; [done|]. inversion Hs as [|? ? Hs' Hy]; subst.
  destruct i as [|i]; [done|]. simpl. constructor; [by apply IH|].
  rewrite delete_take_drop. rewrite <- (take_drop i q) in Hy. apply Forall_app in Hy as [H1 H2].
  apply Forall_app. split; [done|]. change (S i) with (1 + i)%nat. rewrite Nat.add_comm, <- drop_drop.
  by apply Forall_drop.
Qed.
Lemma delete_entry (q : list RPCResultEntry) i e : q !! i = Some e → q ≡ₚ e :: delete i q.
Proof.
  intros H. rewrite delete_take_drop. rewrite <- (take_drop_middle q i e H) at 1. by rewrite Permutation_middle.
Qed.

(** [remove_from_queue] finds an entry by its version. *)
Lemma remove_from_queue_run v x tk : instance_ok x →
  (∃ e i, ri_queue x !! i = Some e ∧ re_version e = v ∧ ∃ tail,
     remove_from_queue v x tk = (0, set_queue (delete i (ri_queue x)) tail x, desc_task_waiting_rpc_count e tk) ∧
     (S tail = length (delete i (ri_queue x)) ∨ delete i (ri_queue x) = [])) ∨
  (∀ e, e ∈ ri_queue x → re_version e ≠ v) ∧ remove_from_queue v x tk = (ENOENT, x, tk).
Proof.
  intros I. pose proof (io_sorted _ I) as Hs. pose proof (io_tail _ I) as Ht. unfold remove_from_queue.
  destruct (ri_queue x) as [|head rest] eqn:Eq; [right; split; [by intros e ?%elem_of_nil|done]|].
  destruct Ht as [Ht|Ht]; [|done]. simpl in Ht.
  inversion Hs as [|? ? Hsr Hhead]; subst. destruct (Z.eqb_spec v (re_version head)) as [->|Hne].
  { left. exists head, 0%nat. split_and!; [done|done|]. exists (ri_tail x - 1)%nat. split; [done|]. simpl.
    destruct rest as [|y rest]; [by right|left; simpl in *; lia]. }
  destruct (queue_position_spec v rest Hsr) as [H1 H2]. set (i := queue_position v rest) in *.
  destruct (rest !! i) as [e|] eqn:Ei; [destruct (Z.eqb_spec v (re_version e)) as [->|Hne2]|].
  - left. exists e, (S i). split_and!; [done|done|].
    pose proof (lookup_lt_Some _ _ _ Ei). destruct (Nat.leb_spec (S i) (ri_tail x)); [|lia].
    eexists. split; [done|]. left. change (delete (S i) (head :: rest)) with (head :: delete i rest).
    cbn [length]. rewrite length_delete by done. lia.
  - right. split; [|done]. intros y [->|Hy]%elem_of_cons; [done|].
    rewrite <- (take_drop_middle rest i e Ei) in Hy. apply elem_of_app in Hy as [Hy|Hy].
    + rewrite Forall_forall in H1. specialize (H1 y Hy). simpl in H1. lia.
    + rewrite (drop_S _ _ _ Ei) in H2. inversion H2 as [|? ? He _]; subst. simpl in He.
      apply elem_of_cons in Hy as [->|Hy]; [done|].
      assert (entry_lt e y); [|unfold entry_lt in *; lia].
      rewrite <- (take_drop_middle rest i e Ei) in Hsr. apply sorted_app_r in Hsr. inversion Hsr as [|? ? _ HF]; subst.
      rewrite Forall_forall in HF. by apply HF.
  - right. split; [|done]. intros y [->|Hy]%elem_of_cons; [done|]. apply lookup_ge_None in Ei.
    rewrite take_ge in H1 by done. rewrite Forall_forall in H1. specialize (H1 y Hy). simpl in H1. lia.
Qed.

(** ** The ring *)
Lemma with_queue x q tail : instance_ok x → StronglySorted entry_lt q → (S tail = length q ∨ q = []) →
  instance_ok (set_queue q tail x).
Proof. intros [H1 H2 H3 H4 H5 _ _] Hs Ht. by split. Qed.

Lemma ring_write x i e s' e' : instance_ok x → (i < ring_size x)%nat → live e → ring_index x (re_version e) = i →
  (s' < ring_size x)%nat → (e' < ring_size x)%nat → ¬ live (ring_at x i) →
  (dist (ring_size x) s' i < dist (ring_size x) s' e')%nat →
  (∀ j, (j < ring_size x)%nat → live (ring_at x j) →
     (dist (ring_size x) s' j < dist (ring_size x) s' e')%nat) →
  instance_ok (set_ring (<[i := e]> (ri_entries x)) s' e' x) ∧
  contents (set_ring (<[i := e]> (ri_entries x)) s' e' x) ≡ₚ e :: contents x.
Proof.
  intros I Hi He Hix Hs' He' Hd Hin Hold. assert (En : length (<[i := e]> (ri_entries x)) = ring_size x) by apply length_insert.
  split.
  - destruct I as [H1 H2 H3 H4 H5 H6 H7]. split; unfold ring_index, ring_size in *; simpl; rewrite ?En; try done.
    + intros j y Hj Hy. destruct (decide (j = i)) as [->|Hne].
      * rewrite list_lookup_insert_eq in Hj by done. injection Hj as <-. done.
      * rewrite list_lookup_insert_ne in Hj by done. pose proof (lookup_lt_Some _ _ _ Hj).
        split; [|by apply (H4 j y)]. apply Hold; [done|]. unfold ring_at. by rewrite Hj.
    + intros y Hy Hd'. apply list_elem_of_lookup in Hy as [j Hj]. destruct (decide (j = i)) as [->|Hne].
      * rewrite list_lookup_insert_eq in Hj by done. by injection Hj as <-.
      * rewrite list_lookup_insert_ne in Hj by done. apply H5; [by eapply list_elem_of_lookup_2|done].
  - unfold contents. simpl. rewrite (filter_insert_live _ i (ring_at x i) e); [done|by apply ring_at_lookup|done|done].
Qed.

(** Adding: whatever place the entry finds, it is represented afterwards. *)
Lemma rpc_result_add_run now timeout v t x :
  instance_ok x → v ≠ 0 → (∀ e, e ∈ contents x → re_version e ≠ v) →
  ∃ x', rpc_result_add now timeout true v t x = (0, x') ∧ instance_ok x' ∧ ring_size x' = ring_size x ∧
    contents x' ≡ₚ mkEntry v (Some t) (now + timeout) :: contents x.
Proof.
  intros I Hv Hne. unfold rpc_result_add. set (entry := mkEntry v (Some t) (now + timeout)).
  pose proof (io_size _ I) as Hn. pose proof (ring_index_lt x v ltac:(lia)) as Hi. set (i := ring_index x v) in *.
  assert (Hsize : ∀ s e, ring_size (set_ring (<[i := entry]> (ri_entries x)) s e x) = ring_size x)
    by (intros; apply length_insert).
  destruct (Nat.eqb_spec (ri_end x) (ri_start x)) as [Hempty|Hne2].
  { assert (Hall : ∀ j, (j < ring_size x)%nat → ¬ live (ring_at x j)).
    { intros j Hj. apply (dead_outside x j I Hj). rewrite Hempty. ring_lia. }
    destruct (ring_write x i entry i (ring_next x i) I Hi) as [H1 H2]; try done.
    - by apply next_lt.
    - by apply Hall.
    - rewrite next_eq by done. ring_lia.
    - intros j Hj Hl. by destruct (Hall j Hj).
    - eexists. split_and!; [done|done|apply Hsize|done]. }
  destruct (Nat.eqb_spec i (ri_end x)) as [Hie|]; [destruct (Nat.eqb_spec (ring_next x i) (ri_start x)) as [|Hns];
    [|destruct (Z.eqb_spec v (re_version (ring_at x ((i + ring_size x - 1) mod ring_size x)) + 1))]|]; simpl.
  2:{ pose proof (io_start _ I) as Hst.
      destruct (ring_write x i entry (ri_start x) (ring_next x i) I Hi) as [H1 H2]; try done.
      - by apply next_lt.
      - apply (dead_outside x i I Hi). rewrite <- Hie. lia.
      - rewrite next_eq in * by done. ring_lia.
      - intros j Hj Hl. pose proof (io_live _ I j _ (ring_at_lookup x j Hj) Hl) as [H _].
        rewrite next_eq in * by done. rewrite <- Hie in *. ring_lia.
      - eexists. split_and!; [done|done|apply Hsize|done]. }
  all: destruct (add_to_queue_run now timeout v t x I) as (q & tail & E & Hp & Hs & Ht);
    [intros y Hy; apply Hne, elem_of_app; by right|].
  all: exists (set_queue q tail x); split_and!; [exact E|by apply with_queue; [| |left]|done|].
  all: unfold contents; simpl; rewrite Hp; by rewrite Permutation_middle.
Qed.

(** Without memory for a node of the list nothing changes; the ring itself needs none. *)
Lemma rpc_result_add_nomem now timeout v t x :
  rpc_result_add now timeout false v t x = (ENOMEM, x) ∨
  rpc_result_add now timeout false v t x = rpc_result_add now timeout true v t x.
Proof. unfold rpc_result_add. destruct (_ =? _)%nat; [by right|]. destruct (_ && _); [by right|by left]. Qed.

(** The tasks of the entries are counted down, one after the other. *)
Definition desc_all (l : list RPCResultEntry) (tk : Tasks) : Tasks :=
  fold_left (λ tk e, desc_task_waiting_rpc_count e tk) l tk.
Lemma desc_all_app l k tk : desc_all (l ++ k) tk = desc_all k (desc_all l tk).
Proof. apply fold_left_app. Qed.

Lemma ring_clear x i s' : instance_ok x → (i < ring_size x)%nat → (s' < ring_size x)%nat →
  (∀ j, (j < ring_size x)%nat → j ≠ i → live (ring_at x j) →
     (dist (ring_size x) s' j < dist (ring_size x) s' (ri_end x))%nat) →
  let e := ring_at x i in
  let x' := set_ring (<[i := mkEntry 0 None (re_expires e)]> (ri_entries x)) s' (ri_end x) x in
  instance_ok x' ∧ ring_size x' = ring_size x ∧
  if decide (live e) then contents x ≡ₚ e :: contents x' else contents x = contents x' ∧ re_task e = None.
Proof.
  intros I Hi Hs' Hold e x'. assert (En : ring_size x' = ring_size x) by apply length_insert.
  pose proof (ring_at_lookup x i Hi) as Hl. split_and!; [|done|].
  - destruct I as [H1 H2 H3 H4 H5 H6 H7]. split; unfold ring_index; rewrite ?En; simpl; try done.
    + intros j y Hj Hy. destruct (decide (j = i)) as [->|Hne].
      * rewrite list_lookup_insert_eq in Hj by done. injection Hj as <-. by destruct Hy.
      * rewrite list_lookup_insert_ne in Hj by done. pose proof (lookup_lt_Some _ _ _ Hj).
        split; [|by apply (H4 j y)]. apply Hold; [done|done|]. unfold ring_at. by rewrite Hj.
    + intros y Hy Hd'. apply list_elem_of_lookup in Hy as [j Hj]. destruct (decide (j = i)) as [->|Hne].
      * rewrite list_lookup_insert_eq in Hj by done. by injection Hj as <-.
      * rewrite list_lookup_insert_ne in Hj by done. apply H5; [by eapply list_elem_of_lookup_2|done].
  - unfold contents. simpl. assert (Hd : ¬ live (mkEntry 0 None (re_expires e))) by by intros [].
    destruct (decide (live e)) as [He|He].
    + by rewrite (filter_insert_dead _ i e _ Hl He Hd).
    + split; [by rewrite (filter_insert_same _ i e _ Hl He Hd)|]. apply (io_dead _ I); [by eapply list_elem_of_lookup_2|done].
Qed.

Lemma skip_cleared_run x fuel : ∀ s, instance_ok x → (s < ring_size x)%nat →
  (skip_cleared fuel x s < ring_size x)%nat ∧
  ∀ j, (j < ring_size x)%nat → live (ring_at x j) →
    (dist (ring_size x) s j < dist (ring_size x) s (ri_end x))%nat →
    (dist (ring_size x) (skip_cleared fuel x s) j < dist (ring_size x) (skip_cleared fuel x s) (ri_end x))%nat.
Proof.
  induction fuel as [|fuel IH]; intros s I Hs; [done|]. cbn [skip_cleared].
  destruct (Nat.eqb_spec s (ri_end x)) as [|Hne]; [done|]. simpl.
  destruct (Z.eqb_spec (re_version (ring_at x s)) 0) as [Hz|]; [|done].
  destruct (IH (ring_next x s) I) as [H1 H2]; [by apply next_lt|]. split; [done|].
  intros j Hj Hl Hd. apply H2; [done|done|]. apply dist_next; try done; [apply I|]. intros ->. by apply Hl.
Qed.

(** Where the start goes when the place [i] is cleared. *)
Lemma start_moves x i : instance_ok x → ri_end x ≠ ri_start x →
  let s' := if (ri_start x =? i)%nat then skip_cleared (ring_size x) x (ring_next x i) else ri_start x in
  (s' < ring_size x)%nat ∧ ∀ j, (j < ring_size x)%nat → j ≠ i → live (ring_at x j) →
    (dist (ring_size x) s' j < dist (ring_size x) s' (ri_end x))%nat.
Proof.
  intros I Hne s'. subst s'. destruct (Nat.eqb_spec (ri_start x) i) as [<-|Hsi].
  - destruct (skip_cleared_run x (ring_size x) (ring_next x (ri_start x)) I) as [H1 H2]; [apply next_lt, I|].
    split; [done|]. intros j Hj Hji Hlj. apply H2; [done|done|]. apply dist_next; try done; [apply I|apply I|].
    by apply (io_live _ I j _ (ring_at_lookup x j Hj)).
  - split; [apply I|]. intros j Hj _ Hlj. by apply (io_live _ I j _ (ring_at_lookup x j Hj)).
Qed.

(** Removing: the entry of the version goes, its task is counted down; without one [ENOENT]. *)
Lemma rpc_result_remove_run v x tk : instance_ok x → v ≠ 0 →
  (∃ e x', rpc_result_remove v x tk = (0, x', desc_task_waiting_rpc_count e tk) ∧ instance_ok x' ∧
     ring_size x' = ring_size x ∧ re_version e = v ∧ contents x ≡ₚ e :: contents x') ∨
  (∀ e, e ∈ contents x → re_version e ≠ v) ∧ rpc_result_remove v x tk = (ENOENT, x, tk).
Proof.
  intros I Hv. unfold rpc_result_remove. pose proof (io_size _ I) as Hn.
  pose proof (ring_index_lt x v ltac:(lia)) as Hi. set (i := ring_index x v) in *.
  destruct (Nat.eqb_spec (ri_end x) (ri_start x)) as [Hempty|Hne];
    [|destruct (Z.eqb_spec (re_version (ring_at x i)) v) as [Hf|Hf]]; cbn [negb andb].
  2:{ left. assert (Hl : live (ring_at x i)) by (unfold live; congruence).
      set (s' := if (ri_start x =? i)%nat then skip_cleared (ring_size x) x (ring_next x i) else ri_start x).
      assert (Hs := start_moves x i I Hne). fold s' in Hs.
      destruct Hs as [Hs1 Hs2]. destruct (ring_clear x i s' I Hi Hs1 Hs2) as (H1 & H2 & H3).
      rewrite decide_True in H3 by done. eexists _, _. by split_and!. }
  all: assert (Hring : ∀ e, e ∈ filter live (ri_entries x) → re_version e ≠ v);
    [intros e [Hl He]%list_elem_of_filter Hev; apply list_elem_of_lookup in He as [j Hj];
     destruct (io_live _ I j e Hj Hl) as [Hd Hx]|].
  1: { rewrite Hempty in Hd. ring_lia. }
  2: { apply Hf. unfold i. rewrite <- Hev, Hx. unfold ring_at. by rewrite Hj. }
  all: destruct (remove_from_queue_run v x tk I) as [(e & j & Hj & He & tail & E & Ht)|[Hno E]]; [left|right].
  1,3: exists e, (set_queue (delete j (ri_queue x)) tail x); split_and!; [exact E|apply with_queue; [done|apply sorted_delete, I|done]|done|done|];
    unfold contents; simpl; rewrite (delete_entry _ _ _ Hj) at 1; by rewrite Permutation_middle.
  all: split; [|exact E]; intros e [He|He]%elem_of_app; [by apply Hring|by apply Hno].
Qed.

(** ** Clearing *)
Lemma clear_start_run x tk : instance_ok x → ri_start x ≠ ri_end x →
  ∃ x' l, clear_start x tk = (x', desc_all l tk) ∧ instance_ok x' ∧ ring_size x' = ring_size x ∧
    contents x ≡ₚ l ++ contents x' ∧ ri_queue x' = ri_queue x ∧ ri_tail x' = ri_tail x ∧ ri_end x' = ri_end x ∧
    ri_start x' = ring_next x (ri_start x) ∧ (∀ e, e ∈ l → e = ring_at x (ri_start x)).
Proof.
  intros I Hne. pose proof (io_start _ I) as Hs.
  destruct (ring_clear x (ri_start x) (ring_next x (ri_start x)) I Hs) as (H1 & H2 & H3).
  - by apply next_lt.
  - intros j Hj Hji Hl. apply dist_next; try done; [apply I|].
    by apply (io_live _ I j _ (ring_at_lookup x j Hj)).
  - unfold clear_start. destruct (decide (live (ring_at x (ri_start x)))) as [Hl|Hl].
    + eexists _, [ring_at x (ri_start x)]. split_and!; try done. by intros e ->%list_elem_of_singleton.
    + destruct H3 as [H3 H4]. eexists _, []. split_and!; try done; [|by rewrite H3|by intros e ?%elem_of_nil].
      unfold desc_task_waiting_rpc_count. by rewrite H4.
Qed.

Lemma clear_ring_all_run fuel : ∀ x tk, instance_ok x →
  (dist (ring_size x) (ri_start x) (ri_end x) <= fuel)%nat →
  ∃ x' l, clear_ring_all fuel x tk = (x', desc_all l tk) ∧ instance_ok x' ∧ ring_size x' = ring_size x ∧
    contents x ≡ₚ l ++ contents x' ∧ ri_queue x' = ri_queue x ∧ ri_start x' = ri_end x'.
Proof.
  induction fuel as [|fuel IH]; intros x tk I Hd; cbn [clear_ring_all];
    destruct (Nat.eqb_spec (ri_start x) (ri_end x)) as [E|E]; try (by exists x, []).
  - pose proof (dist_next_end x _ _ (io_start _ I) (io_end _ I) E). lia.
  - destruct (clear_start_run x tk I E) as (x1 & l1 & E1 & I1 & N1 & P1 & Q1 & _ & En & Es & _). rewrite E1.
    destruct (IH x1 (desc_all l1 tk) I1) as (x' & l & E2 & I2 & N2 & P2 & Q2 & S2).
    { rewrite N1, En, Es. pose proof (dist_next_end x _ _ (io_start _ I) (io_end _ I) E). lia. }
    exists x', (l1 ++ l). split_and!; [by rewrite E2, desc_all_app|done|congruence| |congruence|done].
    by rewrite P1, P2, app_assoc.
Qed.
Lemma dist_size x : instance_ok x → (dist (ring_size x) (ri_start x) (ri_end x) <= ring_size x)%nat.
Proof. intros I. pose proof (io_start _ I). pose proof (io_end _ I). ring_lia. Qed.
Lemma empty_ring x : instance_ok x → ri_start x = ri_end x → filter live (ri_entries x) = [].
Proof.
  intros I E. apply filter_nil_iff. intros e He Hl. apply list_elem_of_lookup in He as [j Hj].
  destruct (io_live _ I j e Hj Hl) as [Hd _]. rewrite E in Hd. ring_lia.
Qed.

(** Clearing an instance counts every waiting task down and leaves nothing. *)
Lemma clear_all_run x tk : instance_ok x →
  ∃ x' l, rpc_result_instance_clear_all x tk = (x', desc_all l tk) ∧ instance_ok x' ∧
    ring_size x' = ring_size x ∧ l ≡ₚ contents x ∧ contents x' = [].
Proof.
  intros I. unfold rpc_result_instance_clear_all.
  destruct (clear_ring_all_run (ring_size x) x tk I (dist_size x I)) as (x1 & l & E & I1 & N1 & P1 & Q1 & S1).
  rewrite E. unfold rpc_result_instance_clear_queue_all. fold (desc_all (ri_queue x1) (desc_all l tk)).
  rewrite <- desc_all_app. exists (set_queue [] 0 x1), (l ++ ri_queue x1).
  split_and!; [done|apply with_queue; [done|constructor|by right]|done| |].
  - rewrite P1. unfold contents. by rewrite (empty_ring x1 I1 S1).
  - unfold contents. simpl. by rewrite (empty_ring x1 I1 S1).
Qed.

(** ** Timeouts *)
Definition expired (now : Z) (e : RPCResultEntry) : Prop := re_expires e < now.

Lemma drop_expired_run now q : ∀ tail tk count, (S tail = length q ∨ q = []) →
  ∃ l q' tail' n, drop_expired now q tail tk count = (q', tail', desc_all l tk, count + n) ∧
    q = l ++ q' ∧ Forall (expired now) l ∧ (∀ e, head q' = Some e → ¬ expired now e) ∧
    (S tail' = length q' ∨ q' = []) ∧ n = Z.of_nat (length l).
Proof.
  induction q as [|e q IH]; intros tail tk count Ht; cbn [drop_expired].
  { exists [], [], 0%nat, 0. rewrite Z.add_0_r. split_and!; try done. by right. }
  destruct Ht as [Ht|Ht]; [|done]. simpl in Ht. destruct (Z.ltb_spec (re_expires e) now) as [He|He].
  - destruct (IH (tail - 1)%nat (desc_task_waiting_rpc_count e tk) (count + 1)) as (l & q' & tail' & n & E & -> & Hl & Hh & Ht' & Hn).
    { destruct q as [|y q]; [by right|left; simpl in *; lia]. }
    exists (e :: l), q', tail', (1 + n). rewrite E, Z.add_assoc. split_and!; [done|done|by constructor|done|done|simpl; lia].
  - exists [], (e :: q), tail, 0. rewrite Z.add_0_r. split_and!; try done; [|left; simpl; lia].
    intros y [= <-]. unfold expired. lia.
Qed.
Lemma clear_ring_timeouts_run now fuel : ∀ x tk count, instance_ok x →
  (dist (ring_size x) (ri_start x) (ri_end x) <= fuel)%nat →
  ∃ x' l n, clear_ring_timeouts now fuel x tk count = (count + n, x', desc_all l tk) ∧ instance_ok x' ∧
    ring_size x' = ring_size x ∧ contents x ≡ₚ l ++ contents x' ∧ ri_queue x' = ri_queue x ∧ ri_tail x' = ri_tail x ∧
    Forall (expired now) l ∧ (ri_start x' = ri_end x' ∨ ¬ expired now (ring_at x' (ri_start x'))) ∧
    0 <= n ∧ (n = 0 → x' = x ∧ l = []).
Proof.
  induction fuel as [|fuel IH]; intros x tk count I Hd; cbn [clear_ring_timeouts].
  all: destruct (Nat.eqb_spec (ri_start x) (ri_end x)) as [E|E]; cbn [orb];
    [exists x, [], 0; rewrite Z.add_0_r; split_and!; try done; by left|].
  all: destruct (Z.ltb_spec (re_expires (ring_at x (ri_start x))) now) as [He|He]; cbn [negb];
    [|exists x, [], 0; rewrite Z.add_0_r; split_and!; try done; right; unfold expired; lia].
  - pose proof (dist_next_end x _ _ (io_start _ I) (io_end _ I) E). lia.
  - destruct (clear_start_run x tk I E) as (x1 & l1 & E1 & I1 & N1 & P1 & Q1 & T1 & En & Es & Hl1). rewrite E1.
    destruct (IH x1 (desc_all l1 tk) (count + 1) I1) as (x' & l & n & E2 & I2 & N2 & P2 & Q2 & T2 & Hl & Hs & Hn & _).
    { rewrite N1, En, Es. pose proof (dist_next_end x _ _ (io_start _ I) (io_end _ I) E). lia. }
    exists x', (l1 ++ l), (1 + n). rewrite E2, desc_all_app, Z.add_assoc.
    split_and!; [done|done|congruence|by rewrite P1, P2, app_assoc|congruence|congruence| |done|lia|lia].
    apply Forall_app. split; [|done]. apply Forall_forall. by intros e ->%Hl1.
Qed.
(** Only expired entries are dropped; the ring and the list then start with one that has not
    expired, and an answer of 0 means that nothing was done. *)
Lemma clear_timeouts_run now x tk : instance_ok x →
  ∃ n x' l, rpc_result_instance_clear_timeouts now x tk = (n, x', desc_all l tk) ∧ instance_ok x' ∧
    ring_size x' = ring_size x ∧ contents x ≡ₚ l ++ contents x' ∧ Forall (expired now) l ∧
    (ri_start x' = ri_end x' ∨ ¬ expired now (ring_at x' (ri_start x'))) ∧
    (∀ e, head (ri_queue x') = Some e → ¬ expired now e) ∧ 0 <= n ∧ (n = 0 → contents x' = contents x ∧ l = []).
Proof.
  intros I. unfold rpc_result_instance_clear_timeouts.
  destruct (clear_ring_timeouts_run now (ring_size x) x tk 0 I (dist_size x I))
    as (x1 & l1 & n1 & E1 & I1 & N1 & P1 & Q1 & T1 & H1 & S1 & Hn1 & Z1). rewrite E1.
  unfold rpc_result_instance_clear_queue_timeouts.
  destruct (drop_expired_run now (ri_queue x1) (ri_tail x1) (desc_all l1 tk) 0 (io_tail _ I1))
    as (l2 & q' & tail' & n2 & E2 & Eq & H2 & Hh & Ht & Hn2). rewrite E2, <- desc_all_app.
  eexists _, _, _. split; [done|]. split_and!; [|done| |by apply Forall_app|done|done|lia|].
  - apply with_queue; [done| |done]. pose proof (io_sorted _ I1) as Hs. rewrite Eq in Hs. by apply sorted_app_r in Hs.
  - rewrite P1. unfold contents. simpl. rewrite Eq. rewrite <- app_assoc. apply Permutation_app_head.
    rewrite !app_assoc. apply Permutation_app_tail, Permutation_app_comm.
  - intros Hn. destruct (Z1 ltac:(lia)) as [-> ->]. assert (l2 = []) as -> by (destruct l2; [done|cbn [length] in Hn2; lia]).
    split; [|done]. unfold contents. simpl. by rewrite Eq.
Qed.

(** Data version 0 belongs to no update: an answer with it changes nothing that is waited for. *)
Lemma rpc_result_remove_zero x tk : instance_ok x → (∀ e, e ∈ ri_queue x → live e) →
  ∃ r x', rpc_result_remove 0 x tk = (r, x', tk) ∧ instance_ok x' ∧ ring_size x' = ring_size x ∧
    contents x' = contents x ∧ ri_queue x' = ri_queue x.
Proof.
  intros I Hq. unfold rpc_result_remove. pose proof (io_size _ I) as Hn.
  pose proof (ring_index_lt x 0 ltac:(lia)) as Hi. set (i := ring_index x 0) in *.
  destruct (negb _ && _) eqn:Ec.
  - apply andb_true_iff in Ec as [Hne%negb_true_iff Hz%Z.eqb_eq]. apply Nat.eqb_neq in Hne.
    set (s' := if (ri_start x =? i)%nat then skip_cleared (ring_size x) x (ring_next x i) else ri_start x).
    assert (Hs := start_moves x i I Hne). fold s' in Hs.
    destruct Hs as [Hs1 Hs2]. destruct (ring_clear x i s' I Hi Hs1 Hs2) as (H1 & H2 & H3).
    rewrite decide_False in H3 by (unfold live; lia). destruct H3 as [H3 H4]. eexists _, _.
    split_and!; [by unfold desc_task_waiting_rpc_count; rewrite H4|done|done|done|done].
  - destruct (remove_from_queue_run 0 x tk I) as [(e & j & Hj & He & _)|[_ E]].
    + exfalso. apply (Hq e); [by eapply list_elem_of_lookup_2|done].
    + exists ENOENT, x. by split_and!.
Qed.

(** ** The ring of results is a finite map

    From the data version of an update to its task and the time its answer expires. *)

Record represents (x : RPCResultInstance) (m : gmap Z (Z * Z)) : Prop := {
  rep_ok : instance_ok x;
  rep_nodup : NoDup (re_version <$> contents x);
  rep_zero : m !! 0 = None;
  rep_in : ∀ e, e ∈ contents x ↔ live e ∧ ∃ t, re_task e = Some t ∧ m !! re_version e = Some (t, re_expires e);
}.

Lemma represents_init n : (2 <= n)%nat → represents (init_rpc_result_instance n) ∅.
Proof.
  intros Hn. destruct (init_ok n Hn) as [I E]. split; [done|by rewrite E; constructor|done|]. intros e. rewrite E. split.
  - by intros ?%elem_of_nil.
  - by intros (_ & t & _ & H).
Qed.
Lemma represents_add x m x' v t ex : represents x m → m !! v = None → v ≠ 0 → instance_ok x' →
  contents x' ≡ₚ mkEntry v (Some t) ex :: contents x → represents x' (<[v := (t, ex)]> m).
Proof.
  intros [I N Z H] Hv Hv0 I' P. assert (Hne : ∀ e, e ∈ contents x → re_version e ≠ v).
  { intros e (_ & u & _ & Hm)%H Hev. congruence. }
  split; [done| |by rewrite lookup_insert_ne|].
  - rewrite P. simpl. constructor; [|done]. intros (e & He & Hin)%list_elem_of_fmap. by apply (Hne e).
  - intros e. rewrite P, elem_of_cons. split.
    + intros [->|He]; [split; [done|]; exists t; simpl; by rewrite lookup_insert_eq|].
      pose proof (Hne e He) as Hev. apply H in He as (Hl & u & Hu & Hm). split; [done|]. exists u.
      by rewrite lookup_insert_ne.
    + intros (Hl & u & Hu & Hm). destruct (decide (re_version e = v)) as [E|E].
      * left. rewrite E, lookup_insert_eq in Hm. injection Hm as <- ->. destruct e; simpl in *; congruence.
      * right. rewrite lookup_insert_ne in Hm by done. apply H. by eauto.
Qed.
Lemma represents_drop x m x' ds m' : represents x m → instance_ok x' → contents x ≡ₚ ds ++ contents x' →
  (∀ v y, m' !! v = Some y ↔ m !! v = Some y ∧ ∀ e, e ∈ ds → re_version e ≠ v) → represents x' m'.
Proof.
  intros [I N Z H] I' P Hm. rewrite P, fmap_app in N. apply NoDup_app in N as (_ & Hd & N). split; [done|done| |].
  { destruct (m' !! 0) as [y|] eqn:E; [|done]. apply Hm in E as [E _]. congruence. }
  intros e. split.
  - intros He. assert (He' : e ∈ contents x) by (rewrite P; apply elem_of_app; by right).
    apply H in He' as (Hl & t & Ht & Hv). split; [done|]. exists t. split; [done|]. apply Hm. split; [done|].
    intros d Hin Heq. apply (Hd (re_version d)); [by apply list_elem_of_fmap_2|]. rewrite Heq. by apply list_elem_of_fmap_2.
  - intros (Hl & t & Ht & [Hv Hno]%Hm). assert (He : e ∈ contents x) by (apply H; by eauto).
    rewrite P in He. apply elem_of_app in He as [He|He]; [|done]. by destruct (Hno e He).
Qed.
Lemma represents_version x m e : represents x m → e ∈ contents x → ∃ t, re_task e = Some t ∧ m !! re_version e = Some (t, re_expires e).
Proof. intros R He. by apply (rep_in _ _ R) in He as [_ ?]. Qed.

(** C40: Adding enters a version that is not waited for (without memory for a node of the list it
    may leave things as they are); removing takes exactly the entry of the version out and
    counts its task down once; clearing empties the map; a timeout takes only expired entries. *)
Theorem rpc_result_ring_refines x m now timeout tk (R : represents x m) :
  (∀ v t ok, v ≠ 0 → m !! v = None →
     (∃ x', rpc_result_add now timeout ok v t x = (0, x') ∧ represents x' (<[v := (t, now + timeout)]> m)) ∨
     (ok = false ∧ rpc_result_add now timeout ok v t x = (ENOMEM, x))) ∧
  (∀ v, v ≠ 0 →
     match m !! v with
     | Some (t, ex) => ∃ x', rpc_result_remove v x tk = (0, x', desc_task_waiting_rpc_count (mkEntry v (Some t) ex) tk) ∧
                             represents x' (delete v m)
     | None => rpc_result_remove v x tk = (ENOENT, x, tk)
     end) ∧
  (∃ x' l, rpc_result_instance_clear_all x tk = (x', desc_all l tk) ∧ l ≡ₚ contents x ∧ represents x' ∅) ∧
  (∃ n x' l m', rpc_result_instance_clear_timeouts now x tk = (n, x', desc_all l tk) ∧ Forall (expired now) l ∧
     represents x' m' ∧ (∀ v y, m' !! v = Some y ↔ m !! v = Some y ∧ v ∉ re_version <$> l) ∧ (n = 0 → m' = m)).
Proof.
  pose proof (rep_ok _ _ R) as I. split_and!.
  - intros v t ok Hv Hm.
    destruct (rpc_result_add_run now timeout v t x I Hv) as (x' & E & I' & _ & P).
    { intros e He Hev. destruct (represents_version x m e R He) as (u & _ & Hu). congruence. }
    assert (Hx' : represents x' (<[v := (t, now + timeout)]> m)) by (by eapply represents_add).
    destruct ok; [left; by eauto|]. destruct (rpc_result_add_nomem now timeout v t x) as [->|E2]; [by right|].
    left. exists x'. by rewrite E2.
  - intros v Hv. destruct (rpc_result_remove_run v x tk I Hv) as [(e & x' & E & I' & _ & He & P)|[Hno E]].
    + destruct (represents_version x m e R) as (t & Ht & Hm); [rewrite P; by left|]. rewrite He in Hm. rewrite Hm.
      exists x'. split; [rewrite E; destruct e; simpl in *; by subst|].
      apply (represents_drop x m x' [e]); [done|done|done|]. intros w y. rewrite lookup_delete_Some. split.
      * intros [Hw ->]. split; [done|]. intros d ->%list_elem_of_singleton. congruence.
      * intros [-> Hd]. split; [|done]. rewrite <- He. apply Hd. by left.
    + destruct (m !! v) as [[t ex]|] eqn:Hm; [|done]. exfalso.
      apply (Hno (mkEntry v (Some t) ex)); [|done]. apply (rep_in _ _ R). split; [done|]. by exists t.
  - destruct (clear_all_run x tk I) as (x' & l & E & I' & _ & P & Z). exists x', l. split_and!; [done|done|].
    apply (represents_drop x m x' l); [done|done|by rewrite Z, app_nil_r|]. intros v y. split; [done|]. intros [Hy Hno].
    destruct y as [t ex]. exfalso. assert (v ≠ 0) by (intros ->; rewrite (rep_zero _ _ R) in Hy; done).
    apply (Hno (mkEntry v (Some t) ex)); [|done]. rewrite P. apply (rep_in _ _ R). split; [done|]. by exists t.
  - destruct (clear_timeouts_run now x tk I) as (n & x' & l & E & I' & _ & P & F & _ & _ & _ & Hn).
    assert (Hm' : ∀ v y, filter (λ p, p.1 ∉ re_version <$> l) m !! v = Some y ↔ m !! v = Some y ∧ v ∉ re_version <$> l)
      by (intros v y; by rewrite map_lookup_filter_Some).
    eexists n, x', l, _. split_and!; [done|done| |exact Hm'|].
    + apply (represents_drop x m x' l); [done|done|done|]. intros v y. rewrite Hm'. apply and_iff_compat_l. split.
      * intros Hv e He <-. apply Hv. by apply list_elem_of_fmap_2.
      * intros Hv (e & -> & He)%list_elem_of_fmap. by apply (Hv e).
    + intros Hz. destruct (Hn Hz) as [_ ->]. apply map_filter_id. intros v y _. apply not_elem_of_nil.
Qed.
