(* ===== verification/Replication.v ===== *)
(** * Replication of the updates of a master

    [src/server/replication/replication_caller.c] and [replication_processor.c]: the data
    thread of a master puts an update into the queue of each slave's replication and waits;
    the network threads send the queued updates, keep them in the ring of results until the
    slave answers, and drop what a lost connection or a timeout leaves. Data threads and
    network threads run concurrently: their steps are the relation [replication_step]. A task is the
    request of an update; its data group and data version are fixed. *)
From S2P Require Import Prelude RpcResultRing.

(** [FS_REPLICATION_STAGE_...], [FS_DS_STATUS_...] as far as they are told apart here. *)
Inductive Stage :=
  | FS_REPLICATION_STAGE_NONE
  | FS_REPLICATION_STAGE_INITED
  | FS_REPLICATION_STAGE_CONNECTING
  | FS_REPLICATION_STAGE_WAITING_JOIN_RESP
  | FS_REPLICATION_STAGE_SYNCING.
Inductive DSStatus :=
  | FS_DS_STATUS_INIT
  | FS_DS_STATUS_REBUILDING
  | FS_DS_STATUS_OFFLINE
  | FS_DS_STATUS_RECOVERING
  | FS_DS_STATUS_ONLINE
  | FS_DS_STATUS_ACTIVE.
#[export] Instance Stage_eq_dec : EqDecision Stage.
Proof. solve_decision. Defined.
#[export] Instance DSStatus_eq_dec : EqDecision DSStatus.
Proof. solve_decision. Defined.

(** [FSReplication]: its queue holds the tasks of the [ReplicationRPCEntry]s. *)
Record FSReplication := mkReplication {
  rp_stage : Stage;
  rp_rpc_queue : list Z;
  rp_result_ctx : RPCResultContext;
}.
Definition set_stage s (r : FSReplication) : FSReplication := mkReplication s (rp_rpc_queue r) (rp_result_ctx r).
Definition set_rpc_queue q (r : FSReplication) : FSReplication := mkReplication (rp_stage r) q (rp_result_ctx r).
Definition set_result_ctx c (r : FSReplication) : FSReplication := mkReplication (rp_stage r) (rp_rpc_queue r) c.

(** [replication_channel_is_ready]. *)
Definition replication_channel_is_ready (r : FSReplication) : bool :=
  bool_decide (rp_stage r = FS_REPLICATION_STAGE_SYNCING).

(** What the functions of the data thread return: the request is not finished yet, or a
    result. ([TASK_STATUS_CONTINUE] is a value of the framework that is no error number.) *)
Inductive TaskStatus := TASK_STATUS_CONTINUE | TASK_STATUS (result : Z).

(** Where the data thread is with the update of a task: not there yet; in the loop of
    [push_to_slave_queues], with the slaves left and [inactive_count]; returned. *)
Inductive Pusher :=
  | NotPushed
  | Pushing (slaves : list nat) (inactive_count : Z)
  | Pushed (result : TaskStatus).

(** The replications of the server (each slave of a group is the peer of one of them) and the
    tasks. *)
Record Master := mkMaster {
  ms_replications : list FSReplication;
  ms_tasks : Tasks;
  ms_pushers : Z → Pusher;
}.
Definition set_replication i r (m : Master) : Master :=
  mkMaster (<[i := r]> (ms_replications m)) (ms_tasks m) (ms_pushers m).
Definition set_tasks tk (m : Master) : Master := mkMaster (ms_replications m) tk (ms_pushers m).
Definition set_pusher t p (m : Master) : Master :=
  mkMaster (ms_replications m) (ms_tasks m) (λ u, if u =? t then p else ms_pushers m u).
(** [__sync_add_and_fetch(&waiting_rpc_count, n)]. *)
Definition add_waiting t n (tk : Tasks) : Tasks :=
  mkTasks (λ u, if u =? t then tk_waiting tk u + n else tk_waiting tk u) (tk_notified tk).

Section Replication.
(** [data_group_id] and [data_version] of a task; [SF_G_NETWORK_TIMEOUT]. *)
Variables (group_of version_of : Z → Z) (network_timeout : Z).

(** ** The data thread *)

(** [push_to_slave_queues]: the counting before the loop, one slave in the loop, and the end.
    The status of the slave and the stage of its replication are what is read there: a network
    thread may change the stage between the reading and the push. *)
Definition push_start (t : Z) (slaves : list nat) (m : Master) : Master :=
  set_pusher t (Pushing slaves 0) (set_tasks (add_waiting t (Z.of_nat (length slaves)) (ms_tasks m)) m).
Definition push_slave (t : Z) (status : DSStatus) (stage : Stage) (m : Master) : option Master :=
  match ms_pushers m t with
  | Pushing (i :: rest) inactive_count =>
      r ← ms_replications m !! i;
      let active := bool_decide (status = FS_DS_STATUS_ONLINE) || bool_decide (status = FS_DS_STATUS_ACTIVE) in
      if active && replication_channel_is_ready (set_stage stage r) then
        Some (set_pusher t (Pushing rest inactive_count)
                (set_replication i (set_rpc_queue (rp_rpc_queue r ++ [t]) r) m))
      else Some (set_pusher t (Pushing rest (inactive_count + 1)) m)
  | _ => None
  end.
Definition push_end (t : Z) (m : Master) : option Master :=
  match ms_pushers m t with
  | Pushing [] inactive_count =>
      if 0 <? inactive_count then
        let tk := add_waiting t (- inactive_count) (ms_tasks m) in
        Some (set_pusher t (Pushed (if tk_waiting tk t =? 0 then TASK_STATUS 0 else TASK_STATUS_CONTINUE)) (set_tasks tk m))
      else Some (set_pusher t (Pushed TASK_STATUS_CONTINUE) m)
  | _ => None
  end.
(** [replication_caller_push_to_slave_queues] for the slaves of a known group: nothing to do
    without slaves, an error without memory for the entry. *)
Definition push_begin (t : Z) (slaves : list nat) (ok : bool) (m : Master) : Master :=
  match slaves with
  | [] => set_pusher t (Pushed (TASK_STATUS 0)) m
  | _ => if ok then push_start t slaves m else set_pusher t (Pushed (TASK_STATUS ENOMEM)) m
  end.

(** ** The network threads *)

(** [decrease_task_waiting_rpc_count], [discard_queue]. *)
Definition decrease_task_waiting_rpc_count (t : Z) (tk : Tasks) : Tasks :=
  let n := tk_waiting tk t - 1 in
  mkTasks (λ u, if u =? t then n else tk_waiting tk u)
    (if n =? 0 then tk_notified tk ++ [t] else tk_notified tk).
(** [replication_queue_discard_all]. *)
Definition replication_queue_discard_all (r : FSReplication) (tk : Tasks) : FSReplication * Tasks :=
  (set_rpc_queue [] r, fold_left (λ tk t, decrease_task_waiting_rpc_count t tk) (rp_rpc_queue r) tk).

(** The loop of [replication_rpc_from_queue]: the entries that fit into the buffer of the task
    ([sent]) are entered into the ring. [mem]: the answers of the allocator. *)
Fixpoint rpc_from_queue (now : Z) (sent : list Z) (mem : list bool) (c : RPCResultContext)
    : option (Z * RPCResultContext) :=
  match sent with
  | [] => Some (0, c)
  | t :: sent =>
      let '(ok, mem) := match mem with [] => (true, []) | b :: mem => (b, mem) end in
      '(result, c) ← rpc_result_ring_add now network_timeout ok (group_of t) (version_of t) t c;
      if negb (result =? 0) then Some (result, c) else rpc_from_queue now sent mem c
  end.

(** [replication_processors_deal_rpc_response], and the loop of [replica_deal_rpc_resp] over
    the parts of a response: data group, version and error number of each. *)
Definition replication_processors_deal_rpc_response (r : FSReplication) (group version : Z) (tk : Tasks)
    : option (Z * FSReplication * Tasks) :=
  if replication_channel_is_ready r then
    '(result, c, tk) ← rpc_result_ring_remove group version (rp_result_ctx r) tk;
    Some (result, set_result_ctx c r, tk)
  else Some (0, r, tk).
Fixpoint replica_deal_rpc_resp (parts : list (Z * Z * Z)) (r : FSReplication) (tk : Tasks)
    : option (Z * FSReplication * Tasks) :=
  match parts with
  | [] => Some (0, r, tk)
  | (group, version, err_no) :: parts =>
      if negb (err_no =? 0) then Some (err_no, r, tk) else
      '(result, r, tk) ← replication_processors_deal_rpc_response r group version tk;
      if negb (result =? 0) then Some (result, r, tk) else replica_deal_rpc_resp parts r tk
  end.

(** [deal_connected_replication]; [busy]: the task is being sent or received; [n]: how many
    of the queued updates fit into its buffer. The result and the tasks that were sent. *)
Definition deal_connected_replication (now : Z) (busy : bool) (n : nat) (mem : list bool)
    (r : FSReplication) (tk : Tasks) : option (Z * FSReplication * Tasks) :=
  let '(r, tk) := if replication_channel_is_ready r then (r, tk) else replication_queue_discard_all r tk in
  if bool_decide (rp_stage r = FS_REPLICATION_STAGE_WAITING_JOIN_RESP) then Some (0, r, tk) else
  if busy then Some (0, r, tk) else
  if replication_channel_is_ready r then
    let '(count, c, tk) := rpc_result_ring_clear_timeouts now (rp_result_ctx r) tk in
    let r := set_result_ctx c r in
    if 0 <? count then Some (ETIMEDOUT, r, tk) else
    '(result, c) ← rpc_from_queue now (take n (rp_rpc_queue r)) mem (rp_result_ctx r);
    Some (result, set_result_ctx c (set_rpc_queue (drop n (rp_rpc_queue r)) r), tk)
  else Some (0, r, tk).

(** [replication_processor_unbind]: the connection is lost. *)
Definition replication_processor_unbind (is_client : bool) (r : FSReplication) (tk : Tasks)
    : FSReplication * Tasks :=
  let '(r, tk) := replication_queue_discard_all r tk in
  let '(c, tk) := rpc_result_ring_clear_all (rp_result_ctx r) tk in
  (set_stage (if is_client then FS_REPLICATION_STAGE_INITED else FS_REPLICATION_STAGE_NONE)
     (set_result_ctx c r), tk).

(** The steps. A replication changes its stage by itself only before it is synchronising. An
    update that cannot be entered into the ring for lack of memory terminates the server:
    there is no step for it. *)
Inductive replication_step : Master → Master → Prop :=
  | step_begin t slaves ok m :
      ms_pushers m t = NotPushed → NoDup slaves →
      Forall (λ i, (i < length (ms_replications m))%nat) slaves →
      replication_step m (push_begin t slaves ok m)
  | step_slave t status stage m m' : push_slave t status stage m = Some m' → replication_step m m'
  | step_end t m m' : push_end t m = Some m' → replication_step m m'
  | step_network i now busy n mem r m result r' tk :
      ms_replications m !! i = Some r →
      deal_connected_replication now busy n mem r (ms_tasks m) = Some (result, r', tk) → result ≠ ENOMEM →
      replication_step m (set_tasks tk (set_replication i r' m))
  | step_response i parts r m result r' tk :
      ms_replications m !! i = Some r →
      replica_deal_rpc_resp parts r (ms_tasks m) = Some (result, r', tk) →
      replication_step m (set_tasks tk (set_replication i r' m))
  | step_unbind i is_client r m r' tk :
      ms_replications m !! i = Some r →
      replication_processor_unbind is_client r (ms_tasks m) = (r', tk) →
      replication_step m (set_tasks tk (set_replication i r' m))
  | step_stage i s r m :
      ms_replications m !! i = Some r → rp_stage r ≠ FS_REPLICATION_STAGE_SYNCING →
      replication_step m (set_replication i (set_stage s r) m).
End Replication.
