(* ===== verification/ReplicationThms.v ===== *)
(** * What the replications of a master wait for

    Queue and ring of a replication together represent the updates that one slave has not
    answered for. Every operation of the network threads drops some of them, and counts down
    exactly the tasks it drops. *)
From S2P Require Import Prelude RpcResultRing Replication.

(** ** Counting down *)
Definition cnt (u : Z) (l : list Z) : Z := Z.of_nat (count_occ Z.eq_dec l u).
Lemma cnt_app u l k : cnt u (l ++ k) = cnt u l + cnt u k.
Proof. unfold cnt. rewrite count_occ_app. lia. Qed.
Lemma cnt_perm u l k : l ≡ₚ k → cnt u l = cnt u k.
Proof. intros H. unfold cnt. by rewrite (proj1 (Permutation_count_occ Z.eq_dec l k) H). Qed.
Lemma cnt_cons u t l : cnt u (t :: l) = (if u =? t then 1 else 0) + cnt u l.
Proof. unfold cnt. simpl. destruct (Z.eq_dec t u), (Z.eqb_spec u t); try congruence; lia. Qed.
Lemma cnt_nonneg u l : 0 <= cnt u l.
Proof. unfold cnt. lia. Qed.
Lemma cnt_in u l : u ∈ l ↔ 0 < cnt u l.
Proof. unfold cnt. rewrite list_elem_of_In, (count_occ_In Z.eq_dec). lia. Qed.

Definition dec_all (ts : list Z) (tk : Tasks) : Tasks :=
  fold_left (λ tk t, decrease_task_waiting_rpc_count t tk) ts tk.
Lemma dec_all_app l k tk : dec_all (l ++ k) tk = dec_all k (dec_all l tk).
Proof. apply fold_left_app. Qed.
(** The count of a task falls by its occurrences; it is notified when that is all it had. *)
Lemma dec_all_count ts : ∀ tk u, cnt u ts <= tk_waiting tk u →
  tk_waiting (dec_all ts tk) u = tk_waiting tk u - cnt u ts ∧
  cnt u (tk_notified (dec_all ts tk)) =
    cnt u (tk_notified tk) + (if (tk_waiting tk u =? cnt u ts) && (0 <? cnt u ts) then 1 else 0).
Proof.
  induction ts as [|t ts IH]; intros tk u H.
  { change (cnt u []) with 0 in *. simpl. rewrite andb_false_r. lia. }
  pose proof (cnt_nonneg u ts). rewrite cnt_cons in *. simpl.
  destruct (IH (decrease_task_waiting_rpc_count t tk) u) as [E1 E2].
  { simpl. destruct (Z.eqb_spec u t); subst; lia. }
  rewrite E1, E2. clear E1 E2 IH. simpl. destruct (Z.eqb_spec u t); [subst u|].
  - replace (0 <? 1 + cnt t ts) with true by (symmetry; apply Z.ltb_lt; lia).
    destruct (Z.eqb_spec (tk_waiting tk t - 1) 0); rewrite ?cnt_app, ?cnt_cons, ?Z.eqb_refl;
      change (cnt t []) with 0;
      destruct (Z.eqb_spec (tk_waiting tk t - 1) (cnt t ts)), (Z.eqb_spec (tk_waiting tk t) (1 + cnt t ts)), (Z.ltb_spec 0 (cnt t ts));
      cbn [andb]; lia.
  - destruct (_ =? 0); rewrite ?cnt_app, ?cnt_cons; change (cnt u []) with 0; destruct (Z.eqb_spec u t); [done|split; [lia|]..].
    all: rewrite ?Z.add_0_l, ?Z.add_0_r; done.
Qed.

Definition tasks_of (l : list RPCResultEntry) : list Z := omap re_task l.
Lemma desc_all_dec l : ∀ tk, desc_all l tk = dec_all (tasks_of l) tk.
Proof.
  induction l as [|e l IH]; intros tk; [done|]. unfold desc_all, tasks_of in *. simpl.
  unfold desc_task_waiting_rpc_count. destruct (re_task e); simpl; apply IH.
Qed.
Lemma tasks_of_app l k : tasks_of (l ++ k) = tasks_of l ++ tasks_of k.
Proof. apply omap_app. Qed.
#[export] Instance tasks_of_perm : Proper ((≡ₚ) ==> (≡ₚ)) tasks_of.
Proof. intros l k H. unfold tasks_of. by rewrite H. Qed.

(** ** The instances of a replication *)
Definition instances_contents (l : list RPCResultInstance) : list RPCResultEntry := concat (map contents l).
Definition ctx_tasks (c : RPCResultContext) : list Z := tasks_of (instances_contents (rc_instances c)).

(** One list of instances is another after dropping the entries [ds]. *)
Definition drops (l l' : list RPCResultInstance) (ds : list RPCResultEntry) : Prop :=
  Forall2 (λ x x', instance_ok x' ∧ ∃ d, contents x ≡ₚ d ++ contents x') l l' ∧
  instances_contents l ≡ₚ ds ++ instances_contents l'.
Lemma drops_cons x x' d l l' ds : instance_ok x' → contents x ≡ₚ d ++ contents x' → drops l l' ds →
  drops (x :: l) (x' :: l') (d ++ ds).
Proof.
  intros I P [F Q]. split; [constructor; [by eauto|done]|]. unfold instances_contents in *. simpl. rewrite P, Q.
  rewrite <- !app_assoc. apply Permutation_app_head. rewrite !app_assoc. apply Permutation_app_tail, Permutation_app_comm.
Qed.
Lemma drops_refl l : Forall instance_ok l → drops l l [].
Proof. intros H. split; [|done]. apply Forall_Forall2_diag. eapply Forall_impl; [exact H|]. intros x Hx. split; [done|by exists []]. Qed.
Lemma drops_insert l : ∀ k x x' d, Forall instance_ok l → l !! k = Some x → instance_ok x' → contents x ≡ₚ d ++ contents x' →
  drops l (<[k := x']> l) d.
Proof.
  induction l as [|y l IH]; intros k x x' d Hl Hk I P; [done|]. apply Forall_cons in Hl as [Hy Hl].
  destruct k as [|k]; simpl in *.
  - injection Hk as ->. rewrite <- (app_nil_r d). by apply drops_cons; [| |apply drops_refl].
  - change d with ([] ++ d). apply drops_cons; [done|done|by apply (IH k x)].
Qed.

Lemma clear_instances_run l : ∀ tk, Forall instance_ok l →
  ∃ l' ds, clear_instances l tk = (l', desc_all ds tk) ∧ drops l l' ds ∧ instances_contents l' = [].
Proof.
  induction l as [|x l IH]; intros tk Hl; [by exists [], []|]. apply Forall_cons in Hl as [Hx Hl].
  cbn [clear_instances]. destruct (clear_all_run x tk Hx) as (x' & d & E & I & _ & P & Z). rewrite E.
  destruct (IH (desc_all d tk) Hl) as (l' & ds & E2 & D & Z2). rewrite E2, <- desc_all_app.
  eexists _, (d ++ ds). split_and!; [done| |].
  - apply drops_cons; [done| |done]. by rewrite Z, P, app_nil_r.
  - unfold instances_contents in *. simpl. by rewrite Z, Z2.
Qed.
Lemma clear_instances_timeouts_run now l : ∀ tk, Forall instance_ok l →
  ∃ n l' ds, clear_instances_timeouts now l tk = (n, l', desc_all ds tk) ∧ drops l l' ds ∧
    Forall (expired now) ds ∧ 0 <= n ∧ (n = 0 → ds = []).
Proof.
  induction l as [|x l IH]; intros tk Hl; [by exists 0, [], []|]. apply Forall_cons in Hl as [Hx Hl].
  cbn [clear_instances_timeouts].
  destruct (clear_timeouts_run now x tk Hx) as (n & x' & d & E & I & _ & P & F & _ & _ & Hn & Z). rewrite E.
  destruct (IH (desc_all d tk) Hl) as (m & l' & ds & E2 & D & F2 & Hm & Z2). rewrite E2, <- desc_all_app.
  eexists (n + m), _, (d ++ ds). split_and!; [done|by apply drops_cons|by apply Forall_app|lia|].
  intros H. destruct (Z ltac:(lia)) as [_ ->]. by rewrite Z2 by lia.
Qed.

Section Spec.
Context (group_of version_of : Z → Z) (network_timeout : Z).

(** Every entry is that of a task, under the version of the task and in the instance of its
    data group. *)
Definition entry_ok (base : Z) (k : nat) (e : RPCResultEntry) : Prop :=
  live e ∧ ∃ t, re_task e = Some t ∧ version_of t = re_version e ∧ group_of t = base + Z.of_nat k.
Definition ctx_ok (c : RPCResultContext) : Prop :=
  ∀ k x, rc_instances c !! k = Some x → instance_ok x ∧ Forall (entry_ok (rc_dg_base_id c) k) (contents x).
Lemma ctx_instances c : ctx_ok c → Forall instance_ok (rc_instances c).
Proof. intros H. apply Forall_lookup. intros k x Hk. by apply (H k x). Qed.
Lemma ctx_drops c l' ds time : ctx_ok c → drops (rc_instances c) l' ds →
  ctx_ok (mkResultCtx time (rc_dg_base_id c) l') ∧
  ctx_tasks c ≡ₚ tasks_of ds ++ ctx_tasks (mkResultCtx time (rc_dg_base_id c) l').
Proof.
  intros H [F P]. split.
  - intros k x' Hk. simpl in *. destruct (Forall2_lookup_r _ _ _ _ _ F Hk) as (x & Hx & I & d & Pd).
    split; [done|]. destruct (H k x Hx) as [_ Hc]. rewrite Pd in Hc. by apply Forall_app in Hc as [_ Hc].
  - unfold ctx_tasks. by rewrite P, tasks_of_app.
Qed.
Lemma set_instance_eq k x c : set_instance k x c = mkResultCtx (rc_last_check_timeout_time c) (rc_dg_base_id c) (<[k := x]> (rc_instances c)).
Proof. done. Qed.

Lemma group_index_spec g c k : group_index g c = Some k → g = rc_dg_base_id c + Z.of_nat k.
Proof.
  unfold group_index. destruct (_ && _) eqn:E; [|done]. apply andb_true_iff in E as [?%Z.leb_le ?%Z.ltb_lt].
  intros [= <-]. lia.
Qed.

Lemma init_ctx_ok base count n : (2 <= n)%nat →
  ctx_ok (rpc_result_ring_check_init base count n) ∧ ctx_tasks (rpc_result_ring_check_init base count n) = [].
Proof.
  intros Hn. destruct (init_ok n Hn) as [I E]. split.
  - intros k x Hk. simpl in Hk. apply lookup_replicate in Hk as [-> _]. split; [done|]. by rewrite E.
  - unfold ctx_tasks, instances_contents. simpl. clear I Hn. induction count as [|count IH]; [done|]. simpl.
    rewrite E. exact IH.
Qed.

(** The tasks in the contexts: data group and data version tell them apart. *)
Context (Hinj : ∀ t u, group_of t = group_of u → version_of t = version_of u → t = u).

Lemma in_ctx k x e c : rc_instances c !! k = Some x → e ∈ contents x → ∀ t, re_task e = Some t → t ∈ ctx_tasks c.
Proof.
  intros Hk He t Ht. apply list_elem_of_omap. exists e. split; [|done]. unfold instances_contents.
  apply list_elem_of_In, in_concat. exists (contents x). split; [|by apply list_elem_of_In].
  apply in_map, list_elem_of_In. by eapply list_elem_of_lookup_2.
Qed.
Lemma contents_insert l : ∀ k x x' d, l !! k = Some x → contents x' ≡ₚ d :: contents x →
  instances_contents (<[k := x']> l) ≡ₚ d :: instances_contents l.
Proof.
  induction l as [|y l IH]; intros k x x' d Hk P; [done|]. unfold instances_contents in *.
  destruct k as [|k]; simpl in *.
  - injection Hk as ->. by rewrite P.
  - rewrite (IH k x x' d Hk P). by rewrite Permutation_middle.
Qed.

(** Sending: the task is waited for in the ring from now on; without memory nothing changes. *)
Lemma ring_add_run now ok t c r c' : ctx_ok c → version_of t ≠ 0 → t ∉ ctx_tasks c →
  rpc_result_ring_add now network_timeout ok (group_of t) (version_of t) t c = Some (r, c') →
  (r = 0 ∧ ctx_ok c' ∧ ctx_tasks c' ≡ₚ t :: ctx_tasks c) ∨ (r = ENOMEM ∧ ok = false).
Proof using Hinj.
  intros C Hv Ht. unfold rpc_result_ring_add. destruct (group_index _ c) as [k|] eqn:Ek; [simpl|done].
  destruct (rc_instances c !! k) as [x|] eqn:Hx; [simpl|done]. apply group_index_spec in Ek.
  destruct (C k x Hx) as [I Hc].
  assert (Hnew : ∀ e, e ∈ contents x → re_version e ≠ version_of t).
  { intros e He Hev. rewrite Forall_forall in Hc. destruct (Hc e He) as (_ & u & Hu & Hvu & Hg).
    apply Ht. assert (t = u) as -> by (apply Hinj; congruence). by apply (in_ctx k x e c). }
  destruct (rpc_result_add_run now network_timeout (version_of t) t x I Hv Hnew) as (x' & E & I' & _ & P).
  assert (Hadd : rpc_result_add now network_timeout ok (version_of t) t x = (ENOMEM, x) ∧ ok = false ∨
                 rpc_result_add now network_timeout ok (version_of t) t x = (0, x')).
  { destruct ok; [by right|]. destruct (rpc_result_add_nomem now network_timeout (version_of t) t x) as [-> | ->]; [by left|by right]. }
  destruct Hadd as [[-> ->] | ->]; intros [= <- <-]; [by right|left]. split_and!; [done| |].
  - intros j y Hj. simpl in *. destruct (decide (j = k)) as [->|Hne].
    + rewrite list_lookup_insert_eq in Hj by (by eapply lookup_lt_Some). injection Hj as <-. split; [done|].
      rewrite P. constructor; [|done]. split; [done|]. by exists t.
    + rewrite list_lookup_insert_ne in Hj by done. by apply C.
  - unfold ctx_tasks. simpl. by rewrite (contents_insert _ k x x' _ Hx P).
Qed.

(** An answer takes at most one task out, that of its group and version. *)
Lemma ring_remove_run group version c tk r c' tk' : ctx_ok c →
  rpc_result_ring_remove group version c tk = Some (r, c', tk') →
  ctx_ok c' ∧ ∃ ts, tk' = dec_all ts tk ∧ ctx_tasks c ≡ₚ ts ++ ctx_tasks c' ∧
    (version ≠ 0 → (r = 0 ∧ ∃ t, ts = [t] ∧ group_of t = group ∧ version_of t = version) ∨
       (r = ENOENT ∧ ts = [] ∧ ∀ t, t ∈ ctx_tasks c → group_of t = group → version_of t ≠ version)).
Proof using group_of version_of.
  intros C. unfold rpc_result_ring_remove. destruct (group_index _ c) as [k|] eqn:Ek; [simpl|done].
  destruct (rc_instances c !! k) as [x|] eqn:Hx; [simpl|done]. apply group_index_spec in Ek.
  destruct (C k x Hx) as [I Hc]. pose proof (ctx_instances c C) as HF.
  destruct (decide (version = 0)) as [->|Hv].
  { destruct (rpc_result_remove_zero x tk I) as (r1 & x' & E & I' & _ & P & _).
    { intros e He. rewrite Forall_forall in Hc. apply (Hc e). apply elem_of_app. by right. }
    rewrite E. intros [= <- <- <-]. rewrite set_instance_eq.
    destruct (ctx_drops c (<[k := x']> (rc_instances c)) [] (rc_last_check_timeout_time c) C) as [H1 H2].
    { apply (drops_insert _ k x); [done|done|done|]. by rewrite P. }
    split; [done|]. exists []. by split_and!. }
  destruct (rpc_result_remove_run version x tk I Hv) as [(e & x' & E & I' & _ & He & P)|[Hno E]]; rewrite E; intros [= <- <- <-];
    rewrite set_instance_eq.
  - destruct (ctx_drops c (<[k := x']> (rc_instances c)) [e] (rc_last_check_timeout_time c) C) as [H1 H2].
    { by apply (drops_insert _ k x). }
    split; [done|]. assert (Hin : e ∈ contents x) by (rewrite P; by left).
    rewrite Forall_forall in Hc. destruct (Hc e Hin) as (_ & t & Ht & Hvt & Hg).
    exists [t]. unfold tasks_of in H2. simpl in H2. rewrite Ht in H2. split_and!; [|done|].
    + unfold desc_task_waiting_rpc_count. by rewrite Ht.
    + intros _. left. split; [done|]. exists t. split_and!; [done|congruence|congruence].
  - destruct (ctx_drops c (<[k := x]> (rc_instances c)) [] (rc_last_check_timeout_time c) C) as [H1 H2].
    { by apply (drops_insert _ k x). }
    split; [done|]. exists []. split_and!; [done|done|]. intros _. right. split_and!; [done|done|].
    intros t Ht Hg Hvt. unfold ctx_tasks in Ht. apply list_elem_of_omap in Ht as (e & He & Het).
    unfold instances_contents in He. apply list_elem_of_In, in_concat in He as (l & Hl & Hel).
    apply in_map_iff in Hl as (y & <- & Hy). apply list_elem_of_In, list_elem_of_lookup in Hy as [j Hj].
    apply list_elem_of_In in Hel. destruct (C j y Hj) as [_ Hcy]. rewrite Forall_forall in Hcy.
    destruct (Hcy e Hel) as (_ & u & Hu & Hvu & Hgu). assert (u = t) as -> by congruence.
    assert (j = k) as -> by lia. assert (y = x) as -> by congruence. apply (Hno e Hel). congruence.
Qed.
End Spec.

(** ** Every update is notified once, when its last slave is done

    The invariant of the concurrent data and network threads of a master, and what follows
    from it: no update is answered early or twice, and none is forgotten when the connections
    of its slaves are lost. *)

(** ** The operations on one replication *)
Definition rp_tasks (r : FSReplication) : list Z := rp_rpc_queue r ++ ctx_tasks (rp_result_ctx r).

Lemma sumZ_update {A} (f : A → Z) l : ∀ i x y, l !! i = Some x → sumZ f (<[i := y]> l) = sumZ f l - f x + f y.
Proof.
  induction l as [|z l IH]; intros i x y H; [done|]. destruct i as [|i].
  - injection H as ->. change (<[0%nat:=y]> (x :: l)) with (y :: l). rewrite !sumZ_cons. lia.
  - change (<[S i:=y]> (z :: l)) with (z :: <[i:=y]> l). rewrite !sumZ_cons, (IH i x y H). lia.
Qed.
Lemma sumZ_at {A} (f : A → Z) l i x : (∀ y, 0 <= f y) → l !! i = Some x → f x <= sumZ f l.
Proof.
  intros Hf H. rewrite <- (take_drop_middle l i x H), sumZ_app, sumZ_cons.
  pose proof (sumZ_nonneg f (take i l) ltac:(done)). pose proof (sumZ_nonneg f (drop (S i) l) ltac:(done)). lia.
Qed.

Section Thms.
Context (group_of version_of : Z → Z) (network_timeout : Z).
Context (Hinj : ∀ t u, group_of t = group_of u → version_of t = version_of u → t = u).
Context (Hver : ∀ t, version_of t ≠ 0).
Notation ctx_ok := (ctx_ok group_of version_of).
Notation step := (replication_step group_of version_of network_timeout).

Definition repl_ok (r : FSReplication) : Prop := ctx_ok (rp_result_ctx r) ∧ NoDup (rp_tasks r).
(** What a network thread does with a replication: it drops tasks and counts them down. *)
Definition net (r : FSReplication) (tk : Tasks) (r' : FSReplication) (tk' : Tasks) : Prop :=
  repl_ok r' ∧ ∃ ts, tk' = dec_all ts tk ∧ rp_tasks r ≡ₚ ts ++ rp_tasks r'.
Lemma net_intro r tk r' ts : repl_ok r → ctx_ok (rp_result_ctx r') → rp_tasks r ≡ₚ ts ++ rp_tasks r' → net r tk r' (dec_all ts tk).
Proof using group_of version_of.
  intros [C N] C' P. split; [|by exists ts]. split; [done|]. rewrite P in N. by apply NoDup_app in N as (_ & _ & N).
Qed.
Lemma net_refl r tk : repl_ok r → net r tk r tk.
Proof. intros H. split; [done|]. by exists []. Qed.
Lemma net_trans r1 tk1 r2 tk2 r3 tk3 : net r1 tk1 r2 tk2 → net r2 tk2 r3 tk3 → net r1 tk1 r3 tk3.
Proof.
  intros [_ (ts & -> & P1)] [I (us & -> & P2)]. split; [done|]. exists (ts ++ us).
  split; [by rewrite dec_all_app|]. by rewrite P1, P2, app_assoc.
Qed.

Lemma discard_net r tk : repl_ok r →
  net r tk (replication_queue_discard_all r tk).1 (replication_queue_discard_all r tk).2.
Proof. intros I. unfold replication_queue_discard_all. simpl. by apply net_intro; [|apply I|]. Qed.

Lemma rpc_from_queue_run now sent : ∀ mem c result c', ctx_ok c → NoDup (sent ++ ctx_tasks c) →
  rpc_from_queue group_of version_of network_timeout now sent mem c = Some (result, c') → result ≠ ENOMEM →
  result = 0 ∧ ctx_ok c' ∧ ctx_tasks c' ≡ₚ sent ++ ctx_tasks c.
Proof using Hinj Hver.
  induction sent as [|t sent IH]; intros mem c result c' C N; cbn [rpc_from_queue]; [by intros [= <- <-]|].
  destruct (match mem with [] => (true, []) | b :: mem => (b, mem) end) as [ok mem'].
  destruct (rpc_result_ring_add _ _ _ _ _ _ _) as [[r1 c1]|] eqn:E; [simpl|done].
  cbn [app] in N. apply NoDup_cons in N as [Ht N].
  destruct (ring_add_run group_of version_of network_timeout Hinj now ok t c r1 c1 C) as [(-> & C1 & P1)|[-> _]];
    [done|intros ?; apply Ht, elem_of_app; by right|exact E| |].
  - simpl. intros E2 Hr. destruct (IH mem' c1 result c' C1) as (-> & C2 & P2); [|done|done|].
    + rewrite P1, <- Permutation_middle. by constructor.
    + split_and!; [done|done|]. by rewrite P2, P1, Permutation_middle.
  - simpl. intros [= <- <-] Hr. by destruct Hr.
Qed.

Lemma timeouts_net now r tk n c tk' : repl_ok r →
  rpc_result_ring_clear_timeouts now (rp_result_ctx r) tk = (n, c, tk') → net r tk (set_result_ctx c r) tk'.
Proof using group_of version_of.
  intros I. unfold rpc_result_ring_clear_timeouts. destruct (_ =? _).
  { intros [= <- <- <-]. by destruct r; apply net_refl. }
  destruct (clear_instances_timeouts_run now (rc_instances (rp_result_ctx r)) tk (ctx_instances _ _ _ (proj1 I)))
    as (m & l' & ds & E & D & _). rewrite E. intros [= <- <- <-].
  destruct (ctx_drops group_of version_of (rp_result_ctx r) l' ds now (proj1 I) D) as [C P].
  rewrite desc_all_dec. apply net_intro; [done|done|]. unfold rp_tasks. simpl. rewrite P.
  rewrite !app_assoc. apply Permutation_app_tail, Permutation_app_comm.
Qed.

Lemma deal_connected_net now busy n mem r tk result r' tk' : repl_ok r →
  deal_connected_replication group_of version_of network_timeout now busy n mem r tk = Some (result, r', tk') →
  result ≠ ENOMEM → net r tk r' tk'.
Proof using Hinj Hver.
  intros I. unfold deal_connected_replication.
  destruct (if replication_channel_is_ready r then (r, tk) else replication_queue_discard_all r tk) as [r1 tk1] eqn:E1.
  assert (H1 : net r tk r1 tk1).
  { destruct (replication_channel_is_ready r); [injection E1 as <- <-; by apply net_refl|].
    pose proof (discard_net r tk I) as H. by rewrite E1 in H. }
  destruct (bool_decide _); [by intros [= <- <- <-]|]. destruct busy; [by intros [= <- <- <-]|].
  destruct (replication_channel_is_ready r1); [|by intros [= <- <- <-]].
  destruct (rpc_result_ring_clear_timeouts _ _ _) as [[count c] tk2] eqn:E2.
  pose proof (timeouts_net now r1 tk1 count c tk2 (proj1 H1) E2) as H2.
  destruct (0 <? count); [intros [= <- <- <-] _; by eapply net_trans|].
  destruct (rpc_from_queue _ _ _ _ _ _ _) as [[res c2]|] eqn:E3; [simpl|done]. intros [= <- <- <-] Hr.
  eapply net_trans; [exact H1|]. eapply net_trans; [exact H2|]. destruct H2 as [[C2 N2] _].
  set (q := rp_rpc_queue r1) in *.
  assert (Pq : rp_tasks (set_result_ctx c r1) ≡ₚ drop n q ++ take n q ++ ctx_tasks c).
  { unfold rp_tasks. simpl. fold q. rewrite app_assoc, (Permutation_app_comm (drop n q)), take_drop. done. }
  destruct (rpc_from_queue_run now (take n q) mem c res c2 C2) as (_ & C3 & P3); [|exact E3|exact Hr|].
  { rewrite Pq in N2. by apply NoDup_app in N2 as (_ & _ & N2). }
  change tk2 with (dec_all [] tk2). apply net_intro; [done|done|].
  rewrite Pq. unfold rp_tasks. simpl. fold q. by rewrite P3.
Qed.

Lemma response_net group version r tk result r' tk' : repl_ok r →
  replication_processors_deal_rpc_response r group version tk = Some (result, r', tk') → net r tk r' tk'.
Proof using group_of version_of.
  intros I. unfold replication_processors_deal_rpc_response.
  destruct (replication_channel_is_ready r); [|intros [= <- <- <-]; by apply net_refl].
  destruct (rpc_result_ring_remove _ _ _ _) as [[[res c] tk1]|] eqn:E; [simpl|done]. intros [= <- <- <-].
  destruct (ring_remove_run group_of version_of _ _ _ _ _ _ _ (proj1 I) E) as (C & ts & -> & P & _).
  apply net_intro; [done|done|]. unfold rp_tasks. simpl. rewrite P.
  rewrite !app_assoc. apply Permutation_app_tail, Permutation_app_comm.
Qed.
Lemma deal_rpc_resp_net parts : ∀ r tk result r' tk', repl_ok r →
  replica_deal_rpc_resp parts r tk = Some (result, r', tk') → net r tk r' tk'.
Proof using group_of version_of.
  induction parts as [|[[group version] err_no] parts IH]; intros r tk result r' tk' I; cbn [replica_deal_rpc_resp].
  { intros [= <- <- <-]. by apply net_refl. }
  destruct (negb (err_no =? 0)); [intros [= <- <- <-]; by apply net_refl|].
  destruct (replication_processors_deal_rpc_response _ _ _ _) as [[[res r1] tk1]|] eqn:E; [simpl|done].
  pose proof (response_net _ _ _ _ _ _ _ I E) as H.
  destruct (negb (res =? 0)); [by intros [= <- <- <-]|]. intros E2.
  eapply net_trans; [exact H|]. by apply (IH _ _ _ _ _ (proj1 H) E2).
Qed.
Lemma unbind_net is_client r tk r' tk' : repl_ok r →
  replication_processor_unbind is_client r tk = (r', tk') → net r tk r' tk' ∧ rp_tasks r' = [].
Proof using group_of version_of.
  intros I. unfold replication_processor_unbind. unfold replication_queue_discard_all.
  fold (dec_all (rp_rpc_queue r) tk). unfold rpc_result_ring_clear_all. simpl.
  destruct (clear_instances_run (rc_instances (rp_result_ctx r)) (dec_all (rp_rpc_queue r) tk) (ctx_instances _ _ _ (proj1 I)))
    as (l' & ds & E & D & Z). rewrite E. intros [= <- <-].
  destruct (ctx_drops group_of version_of (rp_result_ctx r) l' ds (rc_last_check_timeout_time (rp_result_ctx r)) (proj1 I) D) as [C P].
  assert (Hz : ctx_tasks (mkResultCtx (rc_last_check_timeout_time (rp_result_ctx r)) (rc_dg_base_id (rp_result_ctx r)) l') = [])
    by (unfold ctx_tasks; simpl; by rewrite Z).
  rewrite desc_all_dec, <- dec_all_app. split; [apply net_intro; [done|done|]|]; unfold rp_tasks; simpl; rewrite Hz; [|done].
  by rewrite P, Hz, !app_nil_r.
Qed.

(** ** The invariant of the master *)

(** The slaves that still have the update of the task: queued or sent, not answered for. *)
Definition outstanding (m : Master) (t : Z) : Z := sumZ (λ r, cnt t (rp_tasks r)) (ms_replications m).
Definition notified (m : Master) (t : Z) : Z := cnt t (tk_notified (ms_tasks m)).
Definition waiting (m : Master) (t : Z) : Z := tk_waiting (ms_tasks m) t.
Definition once (b : bool) : Z := if b then 1 else 0.
Definition task_ok (m : Master) (t : Z) : Prop :=
  match ms_pushers m t with
  | NotPushed => waiting m t = 0 ∧ outstanding m t = 0 ∧ notified m t = 0
  | Pushing rest inactive_count =>
      waiting m t = outstanding m t + Z.of_nat (length rest) + inactive_count ∧ 0 <= inactive_count ∧
      notified m t = once (waiting m t =? 0) ∧ NoDup rest ∧
      ∀ i, i ∈ rest → ∃ r, ms_replications m !! i = Some r ∧ t ∉ rp_tasks r
  | Pushed TASK_STATUS_CONTINUE => waiting m t = outstanding m t ∧ notified m t = once (waiting m t =? 0)
  | Pushed (TASK_STATUS _) => waiting m t = 0 ∧ outstanding m t = 0 ∧ notified m t = 0
  end.
Definition master_ok (m : Master) : Prop :=
  (∀ i r, ms_replications m !! i = Some r → repl_ok r) ∧ ∀ t, task_ok m t.

(** A master at the start: nothing is queued, sent or waited for. *)
Definition master_init (m : Master) : Prop :=
  (∀ i r, ms_replications m !! i = Some r → ctx_ok (rp_result_ctx r) ∧ rp_tasks r = []) ∧
  (∀ t, ms_pushers m t = NotPushed ∧ waiting m t = 0) ∧ tk_notified (ms_tasks m) = [].

Lemma outstanding_nonneg m t : 0 <= outstanding m t.
Proof. apply sumZ_nonneg. intros r _. apply cnt_nonneg. Qed.
Lemma init_master_ok m : master_init m → master_ok m.
Proof using group_of version_of.
  intros (H1 & H2 & H3). split.
  - intros i r Hr. destruct (H1 i r Hr) as [C E]. split; [done|]. by rewrite E; constructor.
  - intros t. destruct (H2 t) as [Hp Hw]. unfold task_ok. rewrite Hp. split_and!; [done| |].
    + unfold outstanding. rewrite (sumZ_ext _ (λ _, 0)).
      * clear. by induction (ms_replications m) as [|r l IH].
      * intros r Hr. apply list_elem_of_lookup in Hr as [i Hi]. destruct (H1 i r Hi) as [_ E]. by rewrite E.
    + unfold notified. by rewrite H3.
Qed.

(** A network thread. *)
Lemma net_step m i r r' tk' : master_ok m → ms_replications m !! i = Some r → net r (ms_tasks m) r' tk' →
  master_ok (set_tasks tk' (set_replication i r' m)).
Proof using group_of version_of.
  intros [HR HT] Hr [I (ts & -> & P)]. pose proof (lookup_lt_Some _ _ _ Hr) as Hi. split.
  { intros j x Hj. simpl in Hj. destruct (decide (j = i)) as [->|Hne].
    - rewrite list_lookup_insert_eq in Hj by done. by injection Hj as <-.
    - rewrite list_lookup_insert_ne in Hj by done. by apply (HR j). }
  intros t. specialize (HT t). set (m' := set_tasks _ _).
  assert (Hc : cnt t (rp_tasks r) = cnt t ts + cnt t (rp_tasks r')) by (by rewrite (cnt_perm t _ _ P), cnt_app).
  assert (Ho : outstanding m' t = outstanding m t - cnt t ts).
  { unfold outstanding. simpl. rewrite (sumZ_update _ _ i r r' Hr). lia. }
  pose proof (outstanding_nonneg m' t) as Hn. pose proof (cnt_nonneg t ts) as Hts.
  assert (Hle : cnt t ts <= waiting m t).
  { unfold task_ok in HT. destruct (ms_pushers m t) as [| |[|]]; lia. }
  destruct (dec_all_count ts (ms_tasks m) t Hle) as [Hw Hk].
  change (waiting m' t = waiting m t - cnt t ts) in Hw.
  change (notified m' t = notified m t + once ((waiting m t =? cnt t ts) && (0 <? cnt t ts))) in Hk.
  unfold task_ok in *. change (ms_pushers m' t) with (ms_pushers m t).
  assert (Honce : notified m t = once (waiting m t =? 0) → notified m' t = once (waiting m' t =? 0)).
  { intros E. rewrite Hk, E, Hw.
    destruct (Z.eqb_spec (waiting m t) 0), (Z.eqb_spec (waiting m t) (cnt t ts)), (Z.ltb_spec 0 (cnt t ts)), (Z.eqb_spec (waiting m t - cnt t ts) 0);
      simpl; lia. }
  assert (Hnone : outstanding m t = 0 → notified m t = 0 → notified m' t = 0).
  { intros E E2. rewrite Hk, E2. replace (cnt t ts) with 0 by lia. by rewrite andb_false_r. }
  destruct (ms_pushers m t) as [|rest ina|[|result]].
  - split_and!; [lia|lia|apply Hnone; lia].
  - destruct HT as (H1 & H2 & H3 & H4 & H5). split_and!; [lia|done|by apply Honce|done|].
    intros j Hj. destruct (H5 j Hj) as (x & Hx & Ht). destruct (decide (j = i)) as [->|Hne].
    + exists r'. simpl. rewrite list_lookup_insert_eq by done. split; [done|]. assert (x = r) as -> by congruence.
      intros Ht'. apply Ht. rewrite P. apply elem_of_app. by right.
    + exists x. simpl. by rewrite list_lookup_insert_ne.
  - split; [lia|apply Honce, HT].
  - split_and!; [lia|lia|apply Hnone; lia].
Qed.

(** The data thread: the other tasks are not concerned. *)
Lemma other_task m m' t u : u ≠ t → task_ok m u → ms_pushers m' u = ms_pushers m u →
  waiting m' u = waiting m u → notified m' u = notified m u → outstanding m' u = outstanding m u →
  (∀ i r, ms_replications m !! i = Some r → u ∉ rp_tasks r → ∃ r', ms_replications m' !! i = Some r' ∧ u ∉ rp_tasks r') →
  task_ok m' u.
Proof.
  intros Hu HT Hp Hw Hk Ho Hr. unfold task_ok in *. rewrite Hp, Hw, Hk, Ho. destruct (ms_pushers m u) as [|rest ina|[|]]; [done| |done..].
  destruct HT as (H1 & H2 & H3 & H4 & H5). split_and!; [done|done|done|done|].
  intros i Hi. destruct (H5 i Hi) as (r & E & Hnin). by apply (Hr i r).
Qed.

Lemma begin_step m t slaves ok : master_ok m → ms_pushers m t = NotPushed → NoDup slaves →
  Forall (λ i, (i < length (ms_replications m))%nat) slaves → master_ok (push_begin t slaves ok m).
Proof using group_of version_of.
  intros [HR HT] Hp Hnd Hlt. pose proof (HT t) as Ht. unfold task_ok in Ht. rewrite Hp in Ht. destruct Ht as (Hw & Ho & Hk).
  split; [by unfold push_begin; destruct slaves, ok|].
  intros u. destruct (decide (u = t)) as [->|Hu].
  2:{ apply (other_task m _ t u Hu (HT u)); unfold push_begin, waiting; destruct slaves, ok; simpl; try done;
        destruct (Z.eqb_spec u t); try done; by eauto. }
  unfold push_begin. destruct slaves as [|i slaves]; [|destruct ok]; unfold task_ok; simpl; rewrite Z.eqb_refl; simpl; try done.
  unfold waiting, notified, outstanding in *. simpl. rewrite Z.eqb_refl. split_and!; [lia|lia| |done|].
  - destruct (Z.eqb_spec (tk_waiting (ms_tasks m) t + Z.of_nat (S (length slaves))) 0); [lia|]. done.
  - intros j Hj. rewrite Forall_forall in Hlt. specialize (Hlt j Hj). apply lookup_lt_is_Some_2 in Hlt as [r Hr].
    exists r. split; [done|]. rewrite cnt_in. intros Hc.
    pose proof (sumZ_at (λ r, cnt t (rp_tasks r)) (ms_replications m) j r (λ r, cnt_nonneg t _) Hr). simpl in *. lia.
Qed.

Lemma slave_step m t status stage m' : master_ok m → push_slave t status stage m = Some m' → master_ok m'.
Proof using group_of version_of.
  intros [HR HT]. pose proof (HT t) as Ht. unfold push_slave, task_ok in *.
  destruct (ms_pushers m t) as [|[|i rest] ina|] eqn:Ep; try done.
  destruct Ht as (Hw & Hina & Hk & Hnd & Hin). apply NoDup_cons in Hnd as [Hi Hnd].
  destruct (Hin i ltac:(by left)) as (r & Hr & Hnin). rewrite Hr. simpl. pose proof (outstanding_nonneg m t) as Ho.
  assert (Hrest : ∀ j, j ∈ rest → ∃ r, ms_replications m !! j = Some r ∧ t ∉ rp_tasks r) by (intros j Hj; apply Hin; by right).
  destruct (_ && _); intros [= <-].
  2:{ split; [done|]. intros u. destruct (decide (u = t)) as [->|Hu].
      - unfold task_ok. simpl. rewrite Z.eqb_refl. simpl in *. split_and!; [|lia|done|done|done].
        change (waiting m t = outstanding m t + Z.of_nat (length rest) + (ina + 1)). lia.
      - apply (other_task m _ t u Hu (HT u)); simpl; try done; [by destruct (Z.eqb_spec u t)|by eauto]. }
  set (r' := set_rpc_queue _ r). pose proof (lookup_lt_Some _ _ _ Hr) as Hlt.
  assert (Hperm : rp_tasks r' ≡ₚ t :: rp_tasks r).
  { unfold rp_tasks, r'. simpl. rewrite <- app_assoc. symmetry. apply Permutation_middle. }
  assert (Hout : ∀ u, outstanding (set_pusher t (Pushing rest ina) (set_replication i r' m)) u = outstanding m u + (if u =? t then 1 else 0)).
  { intros u. unfold outstanding. simpl. rewrite (sumZ_update _ _ i r r' Hr), (cnt_perm u _ _ Hperm), cnt_cons. lia. }
  split.
  { intros j x Hj. simpl in Hj. destruct (decide (j = i)) as [->|Hne].
    - rewrite list_lookup_insert_eq in Hj by done. injection Hj as <-. destruct (HR i r Hr) as [C N]. split; [done|].
      rewrite Hperm. by constructor.
    - rewrite list_lookup_insert_ne in Hj by done. by apply (HR j). }
  intros u. destruct (decide (u = t)) as [->|Hu].
  - unfold task_ok. rewrite Hout. simpl. rewrite Z.eqb_refl. simpl in *. split_and!; [|lia|done|done|].
    + change (waiting m t = outstanding m t + 1 + Z.of_nat (length rest) + ina). lia.
    + intros j Hj. destruct (Hrest j Hj) as (x & Hx & Hxn). exists x. split; [|done].
      rewrite list_lookup_insert_ne; [done|]. by intros ->.
  - apply (other_task m _ t u Hu (HT u)); try done.
    + simpl. by destruct (Z.eqb_spec u t).
    + rewrite Hout. destruct (Z.eqb_spec u t); [done|lia].
    + intros j x Hx Hxn. simpl. destruct (decide (j = i)) as [->|Hne].
      * exists r'. rewrite list_lookup_insert_eq by done. split; [done|]. rewrite Hperm. assert (x = r) as -> by congruence.
        by intros [?|?]%elem_of_cons.
      * exists x. by rewrite list_lookup_insert_ne.
Qed.

Lemma end_step m t m' : master_ok m → push_end t m = Some m' → master_ok m'.
Proof using group_of version_of.
  intros [HR HT]. pose proof (HT t) as Ht. unfold push_end, task_ok in *.
  destruct (ms_pushers m t) as [|[|i rest] ina|] eqn:Ep; try done.
  destruct Ht as (Hw & Hina & Hk & _). pose proof (outstanding_nonneg m t) as Ho. simpl in Hw.
  destruct (Z.ltb_spec 0 ina) as [Hpos|Hz]; intros [= <-]; (split; [done|]).
  all: intros u; destruct (decide (u = t)) as [->|Hu];
    [|apply (other_task m _ t u Hu (HT u)); unfold waiting; simpl; try done; [by destruct (Z.eqb_spec u t)|try by destruct (Z.eqb_spec u t)..|by eauto]].
  - destruct (Z.eqb_spec (waiting m t) 0); [lia|]. simpl in Hk.
    unfold task_ok, waiting, notified, outstanding in *. simpl. rewrite !Z.eqb_refl. simpl.
    destruct (Z.eqb_spec (tk_waiting (ms_tasks m) t + - ina) 0) as [E|E]; simpl.
    + split_and!; [done|lia|done].
    + split; [lia|]. by rewrite Hk; destruct (Z.eqb_spec (tk_waiting (ms_tasks m) t + - ina) 0).
  - unfold task_ok, waiting, notified, outstanding in *. simpl. rewrite !Z.eqb_refl. simpl. split; [lia|done].
Qed.
End Thms.

(** ** What the replication of updates guarantees *)

Section Main.
Context (group_of version_of : Z → Z) (network_timeout : Z).
Context (Hinj : ∀ t u, group_of t = group_of u → version_of t = version_of u → t = u).
Context (Hver : ∀ t, version_of t ≠ 0).
Notation ctx_ok := (ctx_ok group_of version_of).
Notation step := (replication_step group_of version_of network_timeout).
Notation master_ok := (master_ok group_of version_of).
Notation master_init := (master_init group_of version_of).

Lemma step_ok m m' : master_ok m → step m m' → master_ok m'.
Proof using Hinj Hver.
  intros I H. destruct H as [t slaves ok m Hp Hn Hl|t status stage m m' H|t m m' H|i now busy n mem r m result r' tk Hr H Hres
                            |i parts r m result r' tk Hr H|i is_client r m r' tk Hr H|i s r m Hr Hs].
  - by apply begin_step.
  - by eapply slave_step.
  - by eapply end_step.
  - eapply net_step; [done|done|]. eapply deal_connected_net; [exact Hinj|exact Hver| |exact H|exact Hres].
    by apply (proj1 I i r).
  - eapply net_step; [done|done|]. eapply deal_rpc_resp_net; [|exact H]. by apply (proj1 I i r).
  - eapply net_step; [done|done|]. eapply unbind_net; [|exact H]. by apply (proj1 I i r).
  - change (set_replication i (set_stage s r) m) with (set_tasks (dec_all [] (ms_tasks m)) (set_replication i (set_stage s r) m)).
    eapply net_step; [done|done|]. split; [|by exists []]. by apply (proj1 I i r).
Qed.
Lemma reachable_ok m m' : master_init m → rtc step m m' → master_ok m'.
Proof using Hinj Hver.
  intros H0%init_master_ok H. induction H as [m|m m1 m2 H _ IH]; [done|]. apply IH. by eapply step_ok.
Qed.
End Main.

(** ** No early, no second and no missing notification *)

(** C39: In every state that data threads and network threads reach, a task is notified at most
    once, and not before every slave is done with its update; when the data thread was told to
    wait it is notified exactly when no queue and no ring holds the update any more; when it
    was told not to wait nothing is outstanding and no notification is left behind. *)
Theorem replication_notifies_once group_of version_of network_timeout m0 m t
  (Hinj : ∀ t u, group_of t = group_of u → version_of t = version_of u → t = u)
  (Hver : ∀ t, version_of t ≠ 0)
  (Hinit : master_init group_of version_of m0)
  (Hreach : rtc (replication_step group_of version_of network_timeout) m0 m) :
  0 <= notified m t <= 1 ∧
  (notified m t = 1 → waiting m t = 0 ∧ outstanding m t = 0 ∧
     (ms_pushers m t = Pushing [] 0 ∨ ms_pushers m t = Pushed TASK_STATUS_CONTINUE)) ∧
  (ms_pushers m t = Pushed TASK_STATUS_CONTINUE → (notified m t = 1 ↔ outstanding m t = 0)) ∧
  (∀ result, ms_pushers m t = Pushed (TASK_STATUS result) → outstanding m t = 0 ∧ notified m t = 0).
Proof.
  destruct (reachable_ok _ _ _ Hinj Hver m0 m Hinit Hreach) as [_ HT]. specialize (HT t). unfold task_ok in HT.
  pose proof (outstanding_nonneg m t) as Ho.
  assert (Hb : ∀ b, 0 <= once b <= 1) by (intros []; simpl; lia).
  destruct (ms_pushers m t) as [|rest ina|[|result]].
  - destruct HT as (_ & _ & ->). split_and!; try done; lia.
  - destruct HT as (Hw & Hina & Hk & _). rewrite Hk. split_and!; try done; try apply Hb.
    destruct (Z.eqb_spec (waiting m t) 0); [|done]. intros _. split_and!; [done|lia|left].
    assert (ina = 0) as -> by lia. destruct rest; [done|simpl in *; lia].
  - destruct HT as (Hw & Hk). rewrite Hk, Hw. split_and!; try done; try apply Hb.
    + destruct (Z.eqb_spec (outstanding m t) 0) as [->|]; [|done]. intros _. split_and!; [done|done|by right].
    + intros _. destruct (Z.eqb_spec (outstanding m t) 0); simpl; lia.
  - destruct HT as (_ & -> & ->). split_and!; try done; lia.
Qed.

(** ** A lost connection *)
Definition unbind_one (is_client : bool) (m : Master) (i : nat) : Master :=
  match ms_replications m !! i with
  | Some r => let '(r', tk) := replication_processor_unbind is_client r (ms_tasks m) in set_tasks tk (set_replication i r' m)
  | None => m
  end.
Section Unbind.
Context (group_of version_of : Z → Z) (network_timeout : Z) (is_client : bool).
Notation step := (replication_step group_of version_of network_timeout).
Notation master_ok := (master_ok group_of version_of).

Lemma unbind_one_run m i : master_ok m → master_ok (unbind_one is_client m i) ∧ rtc step m (unbind_one is_client m i) ∧
  ms_pushers (unbind_one is_client m i) = ms_pushers m ∧
  length (ms_replications (unbind_one is_client m i)) = length (ms_replications m) ∧
  (∀ r, ms_replications (unbind_one is_client m i) !! i = Some r → rp_tasks r = []) ∧
  (∀ j, j ≠ i → ms_replications (unbind_one is_client m i) !! j = ms_replications m !! j).
Proof using group_of version_of.
  intros I. unfold unbind_one. destruct (ms_replications m !! i) as [r|] eqn:Hr.
  2:{ split_and!; try done. intros r Hr2. congruence. }
  destruct (replication_processor_unbind is_client r (ms_tasks m)) as [r' tk] eqn:E.
  destruct (unbind_net group_of version_of is_client r (ms_tasks m) r' tk) as [Hn Hz]; [by apply (proj1 I i r)|exact E|].
  split_and!.
  - by eapply net_step.
  - apply rtc_once. by eapply step_unbind.
  - done.
  - simpl. by rewrite length_insert.
  - simpl. rewrite list_lookup_insert_eq by (by eapply lookup_lt_Some). by intros ? [= <-].
  - intros j Hj. simpl. by rewrite list_lookup_insert_ne.
Qed.
Lemma unbind_all_run order : ∀ m, master_ok m →
  let m' := fold_left (unbind_one is_client) order m in
  master_ok m' ∧ rtc step m m' ∧ ms_pushers m' = ms_pushers m ∧ length (ms_replications m') = length (ms_replications m) ∧
  (∀ i r, i ∈ order ∨ (∀ r0, ms_replications m !! i = Some r0 → rp_tasks r0 = []) →
     ms_replications m' !! i = Some r → rp_tasks r = []).
Proof using group_of version_of.
  induction order as [|i order IH]; intros m I; simpl.
  { split_and!; try done. intros i r [?%elem_of_nil|H] Hr; [done|by apply H]. }
  destruct (unbind_one_run m i I) as (I1 & S1 & P1 & L1 & Z1 & O1).
  destruct (IH _ I1) as (I2 & S2 & P2 & L2 & Z2).
  split_and!; [done|by etransitivity|congruence|congruence|].
  intros j r H. apply Z2. destruct (decide (j = i)) as [->|Hne]; [right; exact Z1|].
  destruct H as [[?|?]%elem_of_cons|H]; [done|by left|right]. rewrite O1; done.
Qed.
End Unbind.

(** Whatever the slaves do: once every connection is lost, in whatever order, every data
    thread that waits is notified, and exactly once. *)
Theorem replication_unbind_notifies group_of version_of network_timeout m0 m is_client order m'
  (Hinj : ∀ t u, group_of t = group_of u → version_of t = version_of u → t = u)
  (Hver : ∀ t, version_of t ≠ 0)
  (Hinit : master_init group_of version_of m0)
  (Hreach : rtc (replication_step group_of version_of network_timeout) m0 m)
  (Horder : ∀ i, (i < length (ms_replications m))%nat → i ∈ order)
  (Hm' : fold_left (unbind_one is_client) order m = m') :
  rtc (replication_step group_of version_of network_timeout) m m' ∧
  (∀ i r, ms_replications m' !! i = Some r → rp_tasks r = []) ∧
  (∀ t, ms_pushers m t = Pushed TASK_STATUS_CONTINUE → notified m' t = 1) ∧
  (∀ t result, ms_pushers m t = Pushed (TASK_STATUS result) → notified m' t = 0).
Proof.
  pose proof (reachable_ok _ _ _ Hinj Hver m0 m Hinit Hreach) as I.
  destruct (unbind_all_run group_of version_of network_timeout is_client order m I) as ([_ HT] & S & P & L & Z). rewrite Hm' in *.
  assert (Hz : ∀ i r, ms_replications m' !! i = Some r → rp_tasks r = []).
  { intros i r Hr. apply (Z i r); [|done]. left. apply Horder. rewrite <- L. by eapply lookup_lt_Some. }
  assert (Ho : ∀ t, outstanding m' t = 0).
  { intros t. unfold outstanding. assert (∀ r, r ∈ ms_replications m' → rp_tasks r = []) as H.
    { intros r Hr. apply list_elem_of_lookup in Hr as [i Hi]. by apply (Hz i). }
    clear -H. induction (ms_replications m') as [|r l IH]; [done|]. rewrite sumZ_cons, (H r) by left.
    rewrite IH; [done|]. intros x Hx. apply H. by right. }
  split_and!; [done|done| |].
  - intros t Ht. specialize (HT t). unfold task_ok in HT. rewrite P, Ht in HT. destruct HT as [Hw ->].
    by rewrite Hw, Ho.
  - intros t res Ht. specialize (HT t). unfold task_ok in HT. rewrite P, Ht in HT. apply HT.
Qed.

(** ** The answer of a slave *)

(** The answer for an update that was sent and is not answered counts that update down and no
    other; an answer for anything else changes nothing and is an error. *)
Theorem replica_answer_counts group_of version_of network_timeout m0 m i r group version result r' tk
  (Hinj : ∀ t u, group_of t = group_of u → version_of t = version_of u → t = u)
  (Hver : ∀ t, version_of t ≠ 0)
  (Hinit : master_init group_of version_of m0)
  (Hreach : rtc (replication_step group_of version_of network_timeout) m0 m)
  (Hr : ms_replications m !! i = Some r) (Hready : replication_channel_is_ready r = true) (Hversion : version ≠ 0)
  (Hanswer : replication_processors_deal_rpc_response r group version (ms_tasks m) = Some (result, r', tk)) :
  rp_rpc_queue r' = rp_rpc_queue r ∧
  ((∃ t, result = 0 ∧ group_of t = group ∧ version_of t = version ∧
      ctx_tasks (rp_result_ctx r) ≡ₚ t :: ctx_tasks (rp_result_ctx r') ∧
      tk_waiting tk t = waiting m t - 1 ∧ (∀ u, u ≠ t → tk_waiting tk u = waiting m u) ∧
      tk_notified tk = tk_notified (ms_tasks m) ++ (if waiting m t =? 1 then [t] else [])) ∨
   (result = ENOENT ∧ tk = ms_tasks m ∧ ctx_tasks (rp_result_ctx r) ≡ₚ ctx_tasks (rp_result_ctx r') ∧
      ∀ t, t ∈ ctx_tasks (rp_result_ctx r) → ¬ (group_of t = group ∧ version_of t = version))).
Proof.
  destruct (reachable_ok _ _ _ Hinj Hver m0 m Hinit Hreach) as [HR _]. destruct (HR i r Hr) as [C _].
  unfold replication_processors_deal_rpc_response in Hanswer. rewrite Hready in Hanswer.
  destruct (rpc_result_ring_remove _ _ _ _) as [[[res c] tk1]|] eqn:E; [simpl in Hanswer|done]. injection Hanswer as <- <- <-.
  destruct (ring_remove_run group_of version_of _ _ _ _ _ _ _ C E) as (C' & ts & -> & P & Hcase). split; [done|].
  destruct (Hcase Hversion) as [(-> & t & -> & Hg & Hv)|(-> & -> & Hno)]; [left|right].
  - exists t. unfold waiting. simpl. rewrite Z.eqb_refl. split_and!; try done.
    + intros u Hu. by destruct (Z.eqb_spec u t).
    + destruct (Z.eqb_spec (tk_waiting (ms_tasks m) t - 1) 0), (Z.eqb_spec (tk_waiting (ms_tasks m) t) 1); try lia; [done|by rewrite app_nil_r].
  - split_and!; try done. intros t Ht [Hg Hv]. by apply (Hno t Ht).
Qed.
