(* ===== verification/ReplicationDemo.v ===== *)
(** * The replication on a concrete run

    Two slaves; one answers, the other loses its connection. *)
From S2P Require Import Prelude RpcResultRing Replication ReplicationThms.

Module RingDemo.
(** Versions 5 and 6 go to the ring, 8 to the list; 5 is answered. *)
Definition x0 := init_rpc_result_instance 4.
Definition x1 := (rpc_result_add 0 10 true 5 50 x0).2.
Definition x2 := (rpc_result_add 0 10 true 6 60 x1).2.
Definition x3 := (rpc_result_add 0 10 true 8 80 x2).2.
Example x3_eq : ri_start x3 = 1%nat ∧ ri_end x3 = 3%nat ∧ map re_version (ri_queue x3) = [8].
Proof. by vm_compute. Qed.
Definition m3 : gmap Z (Z * Z) := <[8 := (80, 10)]> (<[6 := (60, 10)]> (<[5 := (50, 10)]> ∅)).
Lemma x3_represents : represents x3 m3.
Proof.
  assert (I : ∀ n, (2 <= n)%nat → instance_ok (init_rpc_result_instance n)) by (intros n Hn; by apply init_ok).
  pose proof (represents_init 4 ltac:(lia)) as R0.
  assert (add : ∀ x m v t, represents x m → v ≠ 0 → m !! v = None →
    represents (rpc_result_add 0 10 true v t x).2 (<[v := (t, 10)]> m)).
  { intros x m v t R Hv Hm. destruct (rpc_result_add_run 0 10 v t x (rep_ok _ _ R) Hv) as (x' & E & I' & _ & P).
    - intros e He Hev. destruct (represents_version x m e R He) as (u & _ & Hu). congruence.
    - rewrite E. by eapply represents_add. }
  apply add; [apply add; [apply add|..]|..]; done.
Qed.
Definition tk0 : Tasks := mkTasks (λ _, 1) [].
Lemma rpc_result_ring_refines_witness :
  represents x3 m3 ∧
  ∃ x', rpc_result_remove 5 x3 tk0 = (0, x', desc_task_waiting_rpc_count (mkEntry 5 (Some 50) 10) tk0) ∧
        represents x' (delete 5 m3).
Proof.
  split; [exact x3_represents|].
  exact (proj1 (proj2 (rpc_result_ring_refines x3 m3 0 10 tk0 x3_represents)) 5 ltac:(done)).
Defined.

(** When the version of the only node of the list is added again, the tail pointer stays at
    the first of the two nodes; the next one is appended behind it and the second is lost: its
    task would never be counted down. *)
Example duplicate_version_lost :
  let q0 := (add_to_queue 0 10 true 5 50 x0).2 in
  let q1 := (add_to_queue 0 10 true 5 51 q0).2 in
  let q2 := (add_to_queue 0 10 true 6 60 q1).2 in
  map re_task (ri_queue q1) = [Some 50; Some 51] ∧ map re_task (ri_queue q2) = [Some 50; Some 60].
Proof. by vm_compute. Qed.
End RingDemo.

Module MasterDemo.
Definition group_of (t : Z) : Z := 1.
Definition version_of (t : Z) : Z := 2 * t + 1.
Lemma keys_inj t u : group_of t = group_of u → version_of t = version_of u → t = u.
Proof. unfold version_of. lia. Qed.
Lemma version_nonzero t : version_of t ≠ 0.
Proof. unfold version_of. lia. Qed.

Definition r0 := mkReplication FS_REPLICATION_STAGE_SYNCING [] (rpc_result_ring_check_init 1 1 4).
Definition m0 := mkMaster [r0; r0] (mkTasks (λ _, 0) []) (λ _, NotPushed).
Notation step := (replication_step group_of version_of 10).
Definition network (i : nat) (m : Master) : Master :=
  match ms_replications m !! i with
  | Some r => match deal_connected_replication group_of version_of 10 0 false 5 [] r (ms_tasks m) with
              | Some (_, r', tk) => set_tasks tk (set_replication i r' m)
              | None => m
              end
  | None => m
  end.
Definition answer (i : nat) (t : Z) (m : Master) : Master :=
  match ms_replications m !! i with
  | Some r => match replica_deal_rpc_resp [(group_of t, version_of t, 0)] r (ms_tasks m) with
              | Some (_, r', tk) => set_tasks tk (set_replication i r' m)
              | None => m
              end
  | None => m
  end.
Definition slave (t : Z) (m : Master) : Master :=
  default m (push_slave t FS_DS_STATUS_ACTIVE FS_REPLICATION_STAGE_SYNCING m).
(** Update 7 is queued for both slaves and sent to the first. *)
Definition m1 := network 0 (slave 7 (slave 7 (push_begin 7 [0%nat; 1%nat] true m0))).
Definition m2 := default m1 (push_end 7 m1).
(** The first slave answers; the connection of the second is lost. *)
Definition m3 := answer 0 7 m2.
Definition m4 := unbind_one true m3 1.

Lemma m0_init : master_init group_of version_of m0.
Proof.
  split_and!; [|done|done]. intros i r Hr. assert (r = r0) as ->.
  { change (ms_replications m0) with [r0; r0] in Hr. apply list_elem_of_lookup_2 in Hr. apply elem_of_cons in Hr as [Hr|Hr]; [done|]. by apply list_elem_of_singleton in Hr. }
  destruct (init_ctx_ok group_of version_of 1 1 4 ltac:(lia)) as [C E]. split; [exact C|]. unfold rp_tasks. simpl. exact E.
Qed.
Lemma m2_reachable : rtc step m0 m2.
Proof.
  eapply rtc_l; [apply (step_begin _ _ _ 7 [0%nat; 1%nat] true); [done| |]|].
  - apply NoDup_cons. split; [by intros ?%list_elem_of_singleton|apply NoDup_singleton].
  - repeat constructor.
  - eapply rtc_l; [by apply (step_slave _ _ _ 7 FS_DS_STATUS_ACTIVE FS_REPLICATION_STAGE_SYNCING)|].
    eapply rtc_l; [by apply (step_slave _ _ _ 7 FS_DS_STATUS_ACTIVE FS_REPLICATION_STAGE_SYNCING)|].
    eapply rtc_l; [by eapply (step_network _ _ _ 0 0 false 5 [])|].
    apply rtc_once. by apply (step_end _ _ _ 7).
Qed.
Lemma m3_reachable : rtc step m0 m3.
Proof.
  eapply rtc_r; [exact m2_reachable|]. by eapply (step_response _ _ _ 0 [(1, 15, 0)]).
Qed.
Lemma m4_reachable : rtc step m0 m4.
Proof. eapply rtc_r; [exact m3_reachable|]. by eapply (step_unbind _ _ _ 1 true). Qed.

(** Notified with the loss of the second connection, not with the first answer. *)
Example run : map (λ m, (waiting m 7, notified m 7, outstanding m 7)) [m2; m3; m4] = [(2, 0, 2); (1, 0, 1); (0, 1, 0)].
Proof. by vm_compute. Qed.

Lemma replication_notifies_once_witness :
  ms_pushers m4 7 = Pushed TASK_STATUS_CONTINUE ∧ (notified m4 7 = 1 ↔ outstanding m4 7 = 0) ∧ outstanding m4 7 = 0.
Proof.
  split_and!; [done| |by vm_compute].
  apply (replication_notifies_once group_of version_of 10 m0 m4 7 keys_inj version_nonzero m0_init m4_reachable). done.
Defined.
Lemma replication_unbind_notifies_witness : notified (fold_left (unbind_one false) [1%nat; 0%nat] m2) 7 = 1.
Proof.
  apply (replication_unbind_notifies group_of version_of 10 m0 m2 false [1%nat; 0%nat] _ keys_inj version_nonzero m0_init m2_reachable).
  - intros i Hi. change (length (ms_replications m2)) with 2%nat in Hi.
    destruct i as [|[|i]]; [right; left|left|lia].
  - done.
  - done.
Defined.
Definition r2 : FSReplication := default r0 (ms_replications m2 !! 0%nat).
Definition a2 := replication_processors_deal_rpc_response r2 1 15 (ms_tasks m2).
Lemma replica_answer_counts_witness :
  match a2 with
  | Some (result, r', tk) => (∃ t, result = 0 ∧ version_of t = 15 ∧ tk_waiting tk t = waiting m2 t - 1) ∨ result = ENOENT
  | None => False
  end.
Proof.
  destruct a2 as [[[result r'] tk]|] eqn:E; [|by vm_compute in E].
  destruct (replica_answer_counts group_of version_of 10 m0 m2 0%nat r2 1 15 result r' tk keys_inj version_nonzero
              m0_init m2_reachable eq_refl eq_refl ltac:(done) E) as [_ [(t & H1 & _ & H2 & _ & H3 & _)|(H & _)]].
  - left. exists t. by split_and!.
  - by right.
Defined.
End MasterDemo.
