(* ===== verification/Cluster.v ===== *)
(** * The state of the cluster as a server sees it

    [FSClusterServerInfo], [FSClusterDataServerInfo] and [FSClusterDataGroupInfo] of
    [src/server/server_types.h], the contexts of [cluster_relationship.c] and
    [master_election.c], and the changes of status every part of the server goes through.
    A server is known by its id; a data server (a server in a data group) by the ids of the
    group and of the server; the arrays that are built from the configuration at the start
    never change and are the class [ClusterConfig]. Atomic operations compare with a value
    that was just read: a function runs without interference, and the interleaving of the
    threads is that of whole functions. *)
From stdpp Require Import functions.
From S2P Require Import Prelude RpcResultRing Replication.

(** [FS_SERVER_STATUS_...]. *)
Inductive ServerStatus :=
  | FS_SERVER_STATUS_OFFLINE
  | FS_SERVER_STATUS_ONLINE
  | FS_SERVER_STATUS_ACTIVE.
#[export] Instance ServerStatus_eq_dec : EqDecision ServerStatus.
Proof. solve_decision. Defined.
Definition server_status_num (s : ServerStatus) : Z :=
  match s with
  | FS_SERVER_STATUS_OFFLINE => 0
  | FS_SERVER_STATUS_ONLINE => 1
  | FS_SERVER_STATUS_ACTIVE => 2
  end.

(** [FS_MASTER_ELECTION_POLICY_...]. *)
Inductive ElectionPolicy := FS_MASTER_ELECTION_POLICY_STRICT | FS_MASTER_ELECTION_POLICY_TIMEOUT.
#[export] Instance ElectionPolicy_eq_dec : EqDecision ElectionPolicy.
Proof. solve_decision. Defined.

(** A data server: the ids of [dg] and of [cs]. *)
Definition DataServer : Type := Z * Z.

Class ClusterConfig := {
  CLUSTER_SERVER_ARRAY : list Z;
  CLUSTER_DATA_RGOUP_ARRAY : list Z;
  data_server_array : Z → list Z;      (* the servers of a data group *)
  hash_code : Z → Z;                   (* of a data group *)
  MASTER_ELECTION_FAILOVER : bool;
  MASTER_ELECTION_POLICY : ElectionPolicy;
  MASTER_ELECTION_TIMEOUTS : Z;
  max_events_per_pkg : nat;
}.

(** [FSClusterServerInfo]; of [notify_ctx] the connection [task], the queue and the
    [in_queue] flags of its events, one for each data server. *)
Record FSClusterServerInfo := mkClusterServer {
  cs_is_leader : bool;
  cs_status : ServerStatus;
  cs_status_changed_time : Z;
  cs_last_ping_time : Z;
  cs_leader_version : Z;
  cs_task : option Z;
  cs_queue : list DataServer;
  cs_in_queue : DataServer → bool;
}.
(** [FSClusterDataServerInfo]. *)
Record FSClusterDataServerInfo := mkDataServer {
  ds_is_master : bool;
  ds_status : DSStatus;
  ds_version : Z;
  ds_last_report_version : Z;
}.
(** [FSClusterDataGroupInfo]. *)
Record FSClusterDataGroupInfo := mkDataGroup {
  dg_master : option DataServer;
  dg_ds_ptr_array : list DataServer;
  dg_in_queue : bool;
  dg_in_delay_queue : bool;
  dg_retry_count : Z;
  dg_start_time_ms : Z;
}.
(** [FSMasterElectionContext]. *)
Record FSMasterElectionContext := mkMasterElection {
  me_is_running : bool;
  me_waiting_count : Z;
  me_queue : list Z;
  me_delay_queue : list Z;
}.
(** [FSClusterRelationshipContext], with the queue of the recovery thread, the status reports
    sent to the leader (to whom, which data server, which status) and the results of sending
    them. *)
Record FSClusterRelationshipContext := mkRelationship {
  rc_retry_count : Z;
  rc_start_time_ms : Z;
  rc_next_leader : option Z;
  rc_inactive : list (Z * Z);          (* [INACTIVE_SERVER_ARRAY]: server and [next_time] *)
  rc_immediate_report : bool;
  rc_recovery : list DataServer;
  rc_reports : list (Z * DataServer * DSStatus);
  rc_answers : list Z;
}.
Record Cluster := mkCluster {
  c_cs : Z → FSClusterServerInfo;
  c_ds : DataServer → FSClusterDataServerInfo;
  c_dg : Z → FSClusterDataGroupInfo;
  CLUSTER_LEADER_PTR : option Z;
  CLUSTER_CURRENT_VERSION : Z;
  c_election : FSMasterElectionContext;
  c_relationship : FSClusterRelationshipContext;
}.

(** ** Setting fields *)
Definition set_is_leader b (x : FSClusterServerInfo) : FSClusterServerInfo :=
  mkClusterServer b (cs_status x) (cs_status_changed_time x) (cs_last_ping_time x) (cs_leader_version x)
    (cs_task x) (cs_queue x) (cs_in_queue x).
Definition set_cs_status s now (x : FSClusterServerInfo) : FSClusterServerInfo :=
  mkClusterServer (cs_is_leader x) s now (cs_last_ping_time x) (cs_leader_version x) (cs_task x)
    (cs_queue x) (cs_in_queue x).
Definition set_last_ping_time t (x : FSClusterServerInfo) : FSClusterServerInfo :=
  mkClusterServer (cs_is_leader x) (cs_status x) (cs_status_changed_time x) t (cs_leader_version x)
    (cs_task x) (cs_queue x) (cs_in_queue x).
Definition set_leader_version v (x : FSClusterServerInfo) : FSClusterServerInfo :=
  mkClusterServer (cs_is_leader x) (cs_status x) (cs_status_changed_time x) (cs_last_ping_time x) v
    (cs_task x) (cs_queue x) (cs_in_queue x).
Definition set_task t (x : FSClusterServerInfo) : FSClusterServerInfo :=
  mkClusterServer (cs_is_leader x) (cs_status x) (cs_status_changed_time x) (cs_last_ping_time x)
    (cs_leader_version x) t (cs_queue x) (cs_in_queue x).
Definition set_events q flags (x : FSClusterServerInfo) : FSClusterServerInfo :=
  mkClusterServer (cs_is_leader x) (cs_status x) (cs_status_changed_time x) (cs_last_ping_time x)
    (cs_leader_version x) (cs_task x) q flags.
Definition set_is_master b (x : FSClusterDataServerInfo) : FSClusterDataServerInfo :=
  mkDataServer b (ds_status x) (ds_version x) (ds_last_report_version x).
Definition set_ds_status s (x : FSClusterDataServerInfo) : FSClusterDataServerInfo :=
  mkDataServer (ds_is_master x) s (ds_version x) (ds_last_report_version x).
Definition set_ds_version v (x : FSClusterDataServerInfo) : FSClusterDataServerInfo :=
  mkDataServer (ds_is_master x) (ds_status x) v (ds_last_report_version x).
Definition set_last_report_version v (x : FSClusterDataServerInfo) : FSClusterDataServerInfo :=
  mkDataServer (ds_is_master x) (ds_status x) (ds_version x) v.
Definition set_master m (x : FSClusterDataGroupInfo) : FSClusterDataGroupInfo :=
  mkDataGroup m (dg_ds_ptr_array x) (dg_in_queue x) (dg_in_delay_queue x) (dg_retry_count x) (dg_start_time_ms x).
Definition set_ds_ptr_array l (x : FSClusterDataGroupInfo) : FSClusterDataGroupInfo :=
  mkDataGroup (dg_master x) l (dg_in_queue x) (dg_in_delay_queue x) (dg_retry_count x) (dg_start_time_ms x).
Definition set_in_queue b (x : FSClusterDataGroupInfo) : FSClusterDataGroupInfo :=
  mkDataGroup (dg_master x) (dg_ds_ptr_array x) b (dg_in_delay_queue x) (dg_retry_count x) (dg_start_time_ms x).
Definition set_in_delay_queue b (x : FSClusterDataGroupInfo) : FSClusterDataGroupInfo :=
  mkDataGroup (dg_master x) (dg_ds_ptr_array x) (dg_in_queue x) b (dg_retry_count x) (dg_start_time_ms x).
Definition set_election retry start (x : FSClusterDataGroupInfo) : FSClusterDataGroupInfo :=
  mkDataGroup (dg_master x) (dg_ds_ptr_array x) (dg_in_queue x) (dg_in_delay_queue x) retry start.
Definition set_inactive l (x : FSClusterRelationshipContext) : FSClusterRelationshipContext :=
  mkRelationship (rc_retry_count x) (rc_start_time_ms x) (rc_next_leader x) l (rc_immediate_report x)
    (rc_recovery x) (rc_reports x) (rc_answers x).
Definition set_next_leader l (x : FSClusterRelationshipContext) : FSClusterRelationshipContext :=
  mkRelationship (rc_retry_count x) (rc_start_time_ms x) l (rc_inactive x) (rc_immediate_report x)
    (rc_recovery x) (rc_reports x) (rc_answers x).
Definition set_leader_election retry start (x : FSClusterRelationshipContext) : FSClusterRelationshipContext :=
  mkRelationship retry start (rc_next_leader x) (rc_inactive x) (rc_immediate_report x)
    (rc_recovery x) (rc_reports x) (rc_answers x).
Definition set_immediate_report b (x : FSClusterRelationshipContext) : FSClusterRelationshipContext :=
  mkRelationship (rc_retry_count x) (rc_start_time_ms x) (rc_next_leader x) (rc_inactive x) b
    (rc_recovery x) (rc_reports x) (rc_answers x).
Definition add_recovery d (x : FSClusterRelationshipContext) : FSClusterRelationshipContext :=
  mkRelationship (rc_retry_count x) (rc_start_time_ms x) (rc_next_leader x) (rc_inactive x)
    (rc_immediate_report x) (rc_recovery x ++ [d]) (rc_reports x) (rc_answers x).
Definition add_report r answers (x : FSClusterRelationshipContext) : FSClusterRelationshipContext :=
  mkRelationship (rc_retry_count x) (rc_start_time_ms x) (rc_next_leader x) (rc_inactive x)
    (rc_immediate_report x) (rc_recovery x) (rc_reports x ++ [r]) answers.

(** ** Programs: functions of the state that return a value *)
Definition CM (A : Type) : Type := Cluster → A * Cluster.
#[export] Instance CM_ret : MRet CM := λ A a c, (a, c).
#[export] Instance CM_bind : MBind CM := λ A B f m c, let '(a, c) := m c in f a c.
Definition cget {A} (f : Cluster → A) : CM A := λ c, (f c, c).
Definition cmod (f : Cluster → Cluster) : CM unit := λ c, (tt, f c).
Definition on_cs (s : Z) f : CM unit := cmod (λ c,
  mkCluster (alter f s (c_cs c)) (c_ds c) (c_dg c) (CLUSTER_LEADER_PTR c) (CLUSTER_CURRENT_VERSION c)
    (c_election c) (c_relationship c)).
Definition on_ds (d : DataServer) f : CM unit := cmod (λ c,
  mkCluster (c_cs c) (alter f d (c_ds c)) (c_dg c) (CLUSTER_LEADER_PTR c) (CLUSTER_CURRENT_VERSION c)
    (c_election c) (c_relationship c)).
Definition on_dg (g : Z) f : CM unit := cmod (λ c,
  mkCluster (c_cs c) (c_ds c) (alter f g (c_dg c)) (CLUSTER_LEADER_PTR c) (CLUSTER_CURRENT_VERSION c)
    (c_election c) (c_relationship c)).
Definition put_leader l : CM unit := cmod (λ c,
  mkCluster (c_cs c) (c_ds c) (c_dg c) l (CLUSTER_CURRENT_VERSION c) (c_election c) (c_relationship c)).
Definition put_version v : CM unit := cmod (λ c,
  mkCluster (c_cs c) (c_ds c) (c_dg c) (CLUSTER_LEADER_PTR c) v (c_election c) (c_relationship c)).
Definition put_election e : CM unit := cmod (λ c,
  mkCluster (c_cs c) (c_ds c) (c_dg c) (CLUSTER_LEADER_PTR c) (CLUSTER_CURRENT_VERSION c) e (c_relationship c)).
Definition on_relationship f : CM unit := cmod (λ c,
  mkCluster (c_cs c) (c_ds c) (c_dg c) (CLUSTER_LEADER_PTR c) (CLUSTER_CURRENT_VERSION c) (c_election c)
    (f (c_relationship c))).
Fixpoint for_each {A} (l : list A) (f : A → CM unit) : CM unit :=
  match l with
  | [] => mret tt
  | x :: l => f x;; for_each l f
  end.

(** ** The configuration *)
Section Config.
Context `{ClusterConfig}.

(** [data_server_array] of a group, as data servers. *)
Definition group_servers (g : Z) : list DataServer := map (pair g) (data_server_array g).
(** [ds_ptr_array] of a server: its data servers. *)
Definition server_data_servers (s : Z) : list DataServer :=
  g ← CLUSTER_DATA_RGOUP_ARRAY; if bool_decide (s ∈ data_server_array g) then [(g, s)] else [].
(** [is_preseted]: the server at the index that the hash code gives. *)
Definition is_preseted (d : DataServer) : bool :=
  match data_server_array d.1 !! Z.to_nat (hash_code d.1 mod Z.of_nat (length (data_server_array d.1))) with
  | Some s => s =? d.2
  | None => false
  end.
(** [fs_get_server_by_id]. *)
Definition fs_get_server_by_id (server_id : Z) : option Z :=
  if bool_decide (server_id ∈ CLUSTER_SERVER_ARRAY) then Some server_id else None.
(** [fs_get_data_server]: [fs_get_data_group] does not find a group that is not in the
    configuration; an id between those of other groups has no servers. *)
Definition fs_get_data_server (data_group_id server_id : Z) : option DataServer :=
  if bool_decide (data_group_id ∈ CLUSTER_DATA_RGOUP_ARRAY) &&
     bool_decide (server_id ∈ data_server_array data_group_id)
  then Some (data_group_id, server_id) else None.
(** [group->myself]. *)
Definition group_myself (me g : Z) : option DataServer :=
  if bool_decide (me ∈ data_server_array g) then Some (g, me) else None.
End Config.

(** [fs_downgrade_data_server_status]. *)
Definition fs_downgrade_data_server_status (old_status : DSStatus) : DSStatus :=
  match old_status with
  | FS_DS_STATUS_INIT | FS_DS_STATUS_OFFLINE => old_status
  | FS_DS_STATUS_REBUILDING => FS_DS_STATUS_INIT
  | FS_DS_STATUS_RECOVERING | FS_DS_STATUS_ONLINE | FS_DS_STATUS_ACTIVE => FS_DS_STATUS_OFFLINE
  end.
