(* ===== verification/Topology.v ===== *)
(** * Statuses, masters and their publication

    [src/server/cluster_relationship.c]: the status of the data servers, what a server does
    when the master of one of its groups changes, what it takes over from the leader; and
    [src/server/cluster_topology.c]: the events by which the leader publishes changes, the
    activation and the loss of a server. [me] is [CLUSTER_MYSELF_PTR], [now]
    [g_current_time]. The field [source] and [type] of an event are only written to the log
    and are left out. Pushing to a queue succeeds. *)
From stdpp Require Import functions.
From S2P Require Import Prelude RpcResultRing Replication Cluster.

Section Relationship.
Context `{ClusterConfig} (me now : Z).

Definition am_leader (c : Cluster) : bool := bool_decide (CLUSTER_LEADER_PTR c = Some me).

(** [cluster_relationship_swap_server_status], [cluster_relationship_set_server_status]. *)
Definition cluster_relationship_swap_server_status (cs : Z) (old_status new_status : ServerStatus) : CM bool :=
  status ← cget (λ c, cs_status (c_cs c cs));
  if decide (status = old_status) then on_cs cs (set_cs_status new_status now);; mret true
  else mret false.
Definition cluster_relationship_set_server_status (cs : Z) (new_status : ServerStatus) : CM bool :=
  old_status ← cget (λ c, cs_status (c_cs c cs));
  if decide (new_status = old_status) then mret false
  else cluster_relationship_swap_server_status cs old_status new_status.

(** ** The servers that are not active: [INACTIVE_SERVER_ARRAY] *)
Definition inactive_entry (cs : Z) : Z * Z := (cs, now + 1).
Definition init_inactive_server_array : CM unit :=
  on_relationship (set_inactive (inactive_entry <$> filter (λ cs, cs ≠ me) CLUSTER_SERVER_ARRAY)).
Definition cluster_relationship_add_to_inactive_sarray (cs : Z) : CM unit :=
  entries ← cget (λ c, rc_inactive (c_relationship c));
  if bool_decide (cs ∈ entries.*1) then mret tt
  else if (length entries <? length CLUSTER_SERVER_ARRAY)%nat
  then on_relationship (set_inactive (entries ++ [inactive_entry cs]))
  else mret tt.
(** The first entry of the server is taken out. *)
Fixpoint remove_entry (cs : Z) (entries : list (Z * Z)) : list (Z * Z) :=
  match entries with
  | [] => []
  | entry :: entries => if entry.1 =? cs then entries else entry :: remove_entry cs entries
  end.
Definition cluster_relationship_remove_from_inactive_sarray (cs : Z) : CM unit :=
  on_relationship (λ r, set_inactive (remove_entry cs (rc_inactive r)) r).

(** ** Events *)

(** An event is put into the queue of [cs] unless it is there. *)
Definition push_event (cs : Z) (ds : DataServer) : CM unit :=
  on_cs cs (λ x, if cs_in_queue x ds then x
                 else set_events (cs_queue x ++ [ds]) (<[ds := true]> (cs_in_queue x)) x).
Definition cluster_topology_data_server_chg_notify (ds : DataServer) (notify_self : bool) : CM unit :=
  for_each CLUSTER_SERVER_ARRAY (λ cs,
    if (cs =? me) || (negb notify_self && (ds.2 =? cs)) then mret tt else
    x ← cget (λ c, c_cs c cs);
    if decide (cs_status x ≠ FS_SERVER_STATUS_ACTIVE) then mret tt else
    if decide (cs_task x = None) then mret tt else push_event cs ds).
Definition cluster_topology_sync_all_data_servers (cs : Z) : CM unit :=
  for_each CLUSTER_DATA_RGOUP_ARRAY (λ g, for_each (group_servers g) (push_event cs)).

(** [FSProtoPushDataServerStatusBodyPart]. *)
Record PushPart := mkPart {
  pp_ds : DataServer;
  pp_is_master : bool;
  pp_status : DSStatus;
  pp_data_version : Z;
}.
Definition push_part (c : Cluster) (ds : DataServer) : PushPart :=
  mkPart ds (ds_is_master (c_ds c ds)) (ds_status (c_ds c ds)) (ds_version (c_ds c ds)).
Definition release_events (l : list DataServer) (flags : DataServer → bool) : DataServer → bool :=
  fold_left (λ flags ds, <[ds := false]> flags) l flags.
(** [process_notify_events]: the message for [cs], if there is one: the parts and
    [current_version]. [busy]: there is something in the buffer of the task already. *)
Definition process_notify_events (busy : bool) (cs : Z) : CM (Z * option (list PushPart * Z)) :=
  if busy then mret (EBUSY, None) else
  c ← cget id;
  let x := c_cs c cs in
  if decide (cs_status x ≠ FS_SERVER_STATUS_ACTIVE) then mret (EAGAIN, None) else
  match cs_queue x with
  | [] => mret (0, None)
  | queue =>
      let events := take max_events_per_pkg queue in
      on_cs cs (set_events (drop max_events_per_pkg queue) (release_events events (cs_in_queue x)));;
      mret (0, Some (push_part c <$> events, CLUSTER_CURRENT_VERSION c))
  end.

(** ** The status of a data server *)

(** [recovery_thread_push_to_queue], [recovery_thread_check_push_to_queue]. *)
Definition recovery_thread_push_to_queue (ds : DataServer) : CM Z :=
  on_relationship (add_recovery ds);; mret 0.
Definition EALREADY : Z := 114.
Definition recovery_thread_check_push_to_queue (ds : DataServer) : CM Z :=
  c ← cget id;
  let status := ds_status (c_ds c ds) in
  if negb (bool_decide (status = FS_DS_STATUS_INIT) || bool_decide (status = FS_DS_STATUS_OFFLINE))
  then mret EALREADY
  else if decide (dg_master (c_dg c ds.1) = None) then mret ENOENT
  else recovery_thread_push_to_queue ds.

(** [cluster_relationship_on_status_change]. *)
Definition cluster_relationship_on_status_change (ds : DataServer) (new_status : DSStatus) : CM unit :=
  master ← cget (λ c, dg_master (c_dg c ds.1));
  match master with
  | None => mret tt
  | Some master =>
      if ds.2 =? me then
        if (bool_decide (new_status = FS_DS_STATUS_INIT) || bool_decide (new_status = FS_DS_STATUS_OFFLINE))
           && negb (master.2 =? me)
        then recovery_thread_push_to_queue ds;; mret tt
        else mret tt
      else mret tt
  end.
Definition cluster_relationship_set_ds_status_ex (ds : DataServer) (old_status new_status : DSStatus) : CM bool :=
  if decide (new_status = old_status) then mret false else
  status ← cget (λ c, ds_status (c_ds c ds));
  if decide (status = old_status) then
    on_ds ds (set_ds_status new_status);;
    cluster_relationship_on_status_change ds new_status;;
    mret true
  else mret false.
Definition cluster_relationship_set_ds_status (ds : DataServer) (new_status : DSStatus) : CM bool :=
  old_status ← cget (λ c, ds_status (c_ds c ds));
  cluster_relationship_set_ds_status_ex ds old_status new_status.
Definition FS_EVENT_TYPE_STATUS_CHANGE : Z := 1.
Definition FS_EVENT_TYPE_DV_CHANGE : Z := 2.
Definition cluster_relationship_set_ds_status_and_dv (ds : DataServer) (status : DSStatus) (data_version : Z) : CM Z :=
  changed ← cluster_relationship_set_ds_status ds status;
  let flags := if (changed : bool) then FS_EVENT_TYPE_STATUS_CHANGE else 0 in
  old_dv ← cget (λ c, ds_version (c_ds c ds));
  if negb (data_version =? old_dv) then
    on_ds ds (set_ds_version data_version);; mret (Z.lor flags FS_EVENT_TYPE_DV_CHANGE)
  else mret flags.

(** [report_ds_status_to_leader]: without an answer left the report arrives. *)
Definition report_ds_status_to_leader (ds : DataServer) (status : DSStatus) : CM Z :=
  c ← cget id;
  match CLUSTER_LEADER_PTR c with
  | None => mret ENOENT
  | Some leader =>
      let answers := rc_answers (c_relationship c) in
      on_relationship (add_report (leader, ds, status) (tail answers));;
      mret (default 0 (head answers))
  end.
Definition cluster_relationship_trigger_report_ds_status (ds : DataServer) : CM unit :=
  on_ds ds (set_last_report_version (-1));; on_relationship (set_immediate_report true).
Definition cluster_relationship_report_ds_status (ds : DataServer) (old_status new_status : DSStatus) : CM Z :=
  leading ← cget am_leader;
  if (leading : bool) then
    (if decide (new_status ≠ old_status) then
       status ← cget (λ c, ds_status (c_ds c ds));
       if decide (status = old_status) then on_ds ds (set_ds_status new_status) else mret tt
     else mret tt);;
    cluster_topology_data_server_chg_notify ds (negb (ds.2 =? me));;
    mret 0
  else
    result ← report_ds_status_to_leader ds new_status;
    (if ds.2 =? me then cluster_relationship_trigger_report_ds_status ds else mret tt);;
    mret result.
Definition cluster_relationship_swap_report_ds_status (ds : DataServer) (old_status new_status : DSStatus) : CM bool :=
  changed ← cluster_relationship_set_ds_status_ex ds old_status new_status;
  if negb changed then mret changed
  else cluster_relationship_report_ds_status ds old_status new_status;; mret changed.

(** [cluster_relationship_on_master_change]; both data servers belong to the same group. *)
Definition cluster_relationship_on_master_change (old_master new_master : option DataServer) : CM Z :=
  match (match old_master with Some _ => old_master | None => new_master end) with
  | None => mret EINVAL
  | Some group =>
      if decide (new_master = old_master) then mret 0 else
      match group_myself me group.1 with
      | None => mret 0
      | Some myself =>
          old_status ← cget (λ c, ds_status (c_ds c myself));
          (if decide (new_master = Some myself) then
             cluster_relationship_swap_report_ds_status myself old_status FS_DS_STATUS_ACTIVE;; mret tt
           else if decide (old_master = Some myself ∧ old_status = FS_DS_STATUS_ACTIVE) then
             cluster_relationship_swap_report_ds_status myself old_status FS_DS_STATUS_OFFLINE;; mret tt
           else mret tt);;
          (if decide (new_master ≠ None ∧ new_master ≠ Some myself) then
             recovery_thread_check_push_to_queue myself;; mret tt
           else mret tt);;
          mret 0
      end
  end.

(** ** A follower takes over what the leader pushes *)
Definition cluster_process_push_entry (part : PushPart) : CM unit :=
  let ds := pp_ds part in
  is_master ← cget (λ c, ds_is_master (c_ds c ds));
  (if ds.2 =? me then
     if decide (pp_status part = FS_DS_STATUS_OFFLINE) then
       old_status ← cget (λ c, ds_status (c_ds c ds));
       if bool_decide (old_status = FS_DS_STATUS_ACTIVE) && negb (pp_is_master part) then
         cluster_relationship_set_ds_status_ex ds old_status FS_DS_STATUS_OFFLINE;; mret tt
       else mret tt
     else mret tt
   else
     cluster_relationship_set_ds_status ds (pp_status part);;
     on_ds ds (set_ds_version (pp_data_version part)));;
  if Bool.eqb is_master (pp_is_master part) then mret tt else
  old_master ← cget (λ c, dg_master (c_dg c ds.1));
  on_ds ds (set_is_master (pp_is_master part));;
  if pp_is_master part then
    (if decide (old_master ≠ Some ds) then
       (match old_master with
        | Some old => on_ds old (set_is_master false)
        | None => mret tt
        end);;
       on_dg ds.1 (set_master (Some ds))
     else mret tt);;
    cluster_relationship_on_master_change old_master (Some ds);; mret tt
  else if decide (old_master = Some ds) then
    on_dg ds.1 (set_master None);;
    cluster_relationship_on_master_change old_master None;; mret tt
  else mret tt.
(** [cluster_process_leader_push]; data servers that are not in the configuration are passed
    over. *)
Definition cluster_process_leader_push (parts : list PushPart) (current_version : Z) : CM unit :=
  for_each parts (λ part,
    match fs_get_data_server (pp_ds part).1 (pp_ds part).2 with
    | Some _ => cluster_process_push_entry part
    | None => mret tt
    end);;
  put_version current_version.
End Relationship.
