(* ===== verification/MasterElection.v ===== *)
(** * The election of the masters

    [src/server/master_election.c]: the leader selects a master for each data group that has
    none; and the functions of [cluster_topology.c] that ask for an election: activation and
    loss of a server. [now_ms] is [get_current_time_ms()]. *)
From stdpp Require Import functions.
From S2P Require Import Prelude RpcResultRing Replication Cluster Topology.

(** What [select_master] returns: a master, an error, or nothing sensible: it follows a null
    pointer, or reads [timeout] before it was set. *)
Inductive SelectResult :=
  | Selected (ds : DataServer)
  | NotSelected (result : Z)
  | Undefined.

Definition OFFLINE_WAIT_TIMEOUT : Z := 5.
Definition ONLINE_WAIT_TIMEOUT : Z := 30.
(** The counters of the first loop of [select_master], and [timeout]. *)
Record Counts := mkCounts {
  active_count : Z;
  waiting_report_count : Z;
  waiting_online_count : Z;
  waiting_offline_count : Z;
  last_timeout : option Z;
}.

Section Election.
Context `{ClusterConfig} `{Qsort} (me now now_ms : Z).

(** [compare_ds_by_data_version]. *)
Definition bool_num (b : bool) : Z := if b then 1 else 0.
Definition compare_ds_by_data_version (c : Cluster) (ds1 ds2 : DataServer) : Z :=
  let sub := cmp3 (ds_version (c_ds c ds1)) (ds_version (c_ds c ds2)) in
  if negb (sub =? 0) then sub else
  let sub := server_status_num (cs_status (c_cs c ds1.2)) - server_status_num (cs_status (c_cs c ds2.2)) in
  if negb (sub =? 0) then sub else
  let sub := bool_num (is_preseted ds1) - bool_num (is_preseted ds2) in
  if negb (sub =? 0) then sub else
  bool_num (ds_is_master (c_ds c ds1)) - bool_num (ds_is_master (c_ds c ds2)).

(** [get_preseted_master]; a group without servers has none to return. *)
Definition get_preseted_master (g : Z) : option DataServer :=
  match List.find is_preseted (group_servers g) with
  | Some ds => Some ds
  | None => head (group_servers g)
  end.

(** [IS_SERVER_TIMEDOUT]. *)
Definition IS_SERVER_TIMEDOUT (c : Cluster) (cs election_start_time timeout : Z) : bool :=
  let changed := cs_status_changed_time (c_cs c cs) in
  timeout <=? now - (if 0 <? changed then Z.min changed election_start_time else election_start_time).

Definition is_active (c : Cluster) (ds : DataServer) : bool :=
  bool_decide (cs_status (c_cs c ds.2) = FS_SERVER_STATUS_ACTIVE).

(** The first loop of [select_master]; [None] for the [return] in it. *)
Fixpoint count_servers (c : Cluster) (election_start_time : Z) (l : list DataServer) (n : Counts) : option Counts :=
  match l with
  | [] => Some n
  | ds :: l =>
      let cs := c_cs c ds.2 in
      match cs_status cs with
      | FS_SERVER_STATUS_ACTIVE =>
          if election_start_time <=? cs_last_ping_time cs then
            count_servers c election_start_time l
              (mkCounts (active_count n + 1) (waiting_report_count n) (waiting_online_count n)
                 (waiting_offline_count n) (last_timeout n))
          else if now - cs_last_ping_time cs <=? ONLINE_WAIT_TIMEOUT + 5 then
            count_servers c election_start_time l
              (mkCounts (active_count n) (waiting_report_count n + 1) (waiting_online_count n)
                 (waiting_offline_count n) (last_timeout n))
          else None
      | FS_SERVER_STATUS_ONLINE =>
          let waiting := negb (IS_SERVER_TIMEDOUT c ds.2 election_start_time ONLINE_WAIT_TIMEOUT) in
          count_servers c election_start_time l
            (mkCounts (active_count n) (waiting_report_count n)
               (waiting_online_count n + bool_num waiting) (waiting_offline_count n) (Some ONLINE_WAIT_TIMEOUT))
      | FS_SERVER_STATUS_OFFLINE =>
          let waiting := negb (IS_SERVER_TIMEDOUT c ds.2 election_start_time OFFLINE_WAIT_TIMEOUT) in
          count_servers c election_start_time l
            (mkCounts (active_count n) (waiting_report_count n)
               (waiting_online_count n) (waiting_offline_count n + bool_num waiting) (Some OFFLINE_WAIT_TIMEOUT))
      end
  end.

(** [for (ds=last; ds>=servers; ds--)]: from [last] down to the start of the array. *)
Fixpoint array_up_to (last : DataServer) (l : list DataServer) : list DataServer :=
  match l with
  | [] => []
  | ds :: l => if decide (ds = last) then [ds] else ds :: array_up_to last l
  end.
Definition downward_from (last : DataServer) (l : list DataServer) : list DataServer := rev (array_up_to last l).

(** The last part of [select_master]: [last] is not taken at once. *)
Definition select_candidate (c : Cluster) (g election_start_time : Z) (last : DataServer) : SelectResult :=
  let servers := group_servers g in
  match List.find (is_active c) (downward_from last servers) with
  | None => NotSelected ENOENT
  | Some ds =>
      let max_data_version := ds_version (c_ds c ds) in
      if max_data_version =? -1 then NotSelected ENOENT else
      if (max_data_version <? ds_version (c_ds c last)) &&
         (bool_decide (MASTER_ELECTION_POLICY = FS_MASTER_ELECTION_POLICY_STRICT) ||
          negb (IS_SERVER_TIMEDOUT c last.2 election_start_time MASTER_ELECTION_TIMEOUTS))
      then NotSelected EAGAIN else
      let online_data_servers :=
        filter (λ ds, is_active c ds ∧ max_data_version <= ds_version (c_ds c ds)) servers in
      let active_count := Z.of_nat (length online_data_servers) in
      if active_count =? 0 then NotSelected ENOENT else
      if active_count =? Z.of_nat (length servers) then Selected last else
      match online_data_servers !! Z.to_nat (hash_code g mod active_count) with
      | Some ds => if is_active c ds then Selected ds else NotSelected EAGAIN
      | None => Undefined
      end
  end.
(** After the servers are sorted: is [last] taken, has it to be waited for? *)
Definition select_last (c : Cluster) (g election_start_time : Z) (n : Counts) (sorted : list DataServer) : SelectResult :=
  match last sorted with
  | None => Undefined
  | Some last =>
      let status := cs_status (c_cs c last.2) in
      if bool_decide (status = FS_SERVER_STATUS_ACTIVE) &&
         (is_preseted last || (active_count n =? Z.of_nat (length sorted)))
      then Selected last else
      let timeout :=
        match status with
        | FS_SERVER_STATUS_ACTIVE => last_timeout n
        | FS_SERVER_STATUS_ONLINE => Some (ONLINE_WAIT_TIMEOUT * 3)
        | FS_SERVER_STATUS_OFFLINE => Some (OFFLINE_WAIT_TIMEOUT * 3)
        end in
      match timeout with
      | None => Undefined
      | Some timeout =>
          if negb (IS_SERVER_TIMEDOUT c last.2 election_start_time timeout) then NotSelected EAGAIN
          else select_candidate c g election_start_time last
      end
  end.

(** [select_master]. *)
Definition start_election (g : Z) : CM unit :=
  group ← cget (λ c, c_dg c g);
  if dg_start_time_ms group =? 0 then
    on_dg g (set_election 1 now_ms);;
    leading ← cget (am_leader me);
    if (leading : bool) && negb (bool_decide (group_myself me g = None))
    then on_cs me (set_last_ping_time (now + 1)) else mret tt
  else on_dg g (set_election (dg_retry_count group + 1) (dg_start_time_ms group)).
Definition select_master (g : Z) : CM SelectResult :=
  start_election g;;
  c ← cget id;
  let election_start_time := cast32 (Z.quot (dg_start_time_ms (c_dg c g)) 1000) in
  if negb MASTER_ELECTION_FAILOVER then
    match get_preseted_master g with
    | None => mret Undefined
    | Some ds => if is_active c ds then mret (Selected ds) else mret (NotSelected EAGAIN)
    end
  else
    match count_servers c election_start_time (group_servers g) (mkCounts 0 0 0 0 None) with
    | None => on_dg g (set_election 0 0);; mret (NotSelected EAGAIN)
    | Some n =>
        if (active_count n =? 0) ||
           (0 <? waiting_report_count n + waiting_online_count n + waiting_offline_count n)
        then mret (NotSelected EAGAIN)
        else
          let servers := dg_ds_ptr_array (c_dg c g) in
          let sorted := if 1 <? Z.of_nat (length servers)
                        then qsort (compare_ds_by_data_version c) servers else servers in
          on_dg g (set_ds_ptr_array sorted);;
          mret (select_last c g election_start_time n sorted)
    end.

(** [master_election_select_master]; [None] when [select_master] returns nothing sensible. *)
Definition master_election_select_master (g : Z) : CM (option Z) :=
  master ← cget (λ c, dg_master (c_dg c g));
  if decide (master ≠ None) then mret (Some 0) else
  selected ← select_master g;
  match selected with
  | Undefined => mret None
  | NotSelected result => mret (Some result)
  | Selected master =>
      on_dg g (set_master (Some master));;
      on_ds master (set_is_master true);;
      cluster_relationship_on_master_change me None (Some master);;
      cluster_topology_data_server_chg_notify me master true;;
      on_dg g (set_election 0 0);;
      mret (Some 0)
  end.

(** ** The queues of the groups that need a master *)
Definition on_election f : CM unit := e ← cget c_election; put_election (f e).
Definition master_election_thread_start : CM unit :=
  on_election (λ e, mkMasterElection true (me_waiting_count e) (me_queue e) (me_delay_queue e)).
Definition master_election_queue_push (g : Z) : CM unit :=
  running ← cget (λ c, me_is_running (c_election c));
  (if (running : bool) then mret tt else master_election_thread_start);;
  in_queue ← cget (λ c, dg_in_queue (c_dg c g));
  if (in_queue : bool) then mret tt else
    on_dg g (set_in_queue true);;
    on_election (λ e, mkMasterElection (me_is_running e) (me_waiting_count e + 1) (me_queue e ++ [g]) (me_delay_queue e)).
Definition master_election_push_to_delay_queue (g : Z) : CM unit :=
  in_queue ← cget (λ c, dg_in_delay_queue (c_dg c g));
  if (in_queue : bool) then mret tt else
    on_dg g (set_in_delay_queue true);;
    on_election (λ e, mkMasterElection (me_is_running e) (me_waiting_count e) (me_queue e) (me_delay_queue e ++ [g])).
(** [master_election_deal_delay_queue]. *)
Definition deal_delayed (g : Z) : CM unit :=
  master ← cget (λ c, dg_master (c_dg c g));
  (if decide (master = None) then master_election_queue_push g else mret tt);;
  on_dg g (set_in_delay_queue false).
Definition master_election_deal_delay_queue : CM unit :=
  groups ← cget (λ c, me_delay_queue (c_election c));
  on_election (λ e, mkMasterElection (me_is_running e) (me_waiting_count e) (me_queue e) []);;
  for_each groups deal_delayed;;
  e ← cget c_election;
  if (0 <? me_waiting_count e) && negb (me_is_running e) then master_election_thread_start else mret tt.

(** A turn of the loop of [select_master_thread_run] that gets a group, with the result of its
    election; and the end of the thread. *)
Definition select_master_turn : CM (option (Z * option Z)) :=
  e ← cget c_election;
  match me_queue e with
  | [] => mret None
  | g :: queue =>
      put_election (mkMasterElection (me_is_running e) (me_waiting_count e - 1) queue (me_delay_queue e));;
      on_dg g (set_in_queue false);;
      result ← master_election_select_master g;
      (if decide (result = Some EAGAIN) then master_election_push_to_delay_queue g else mret tt);;
      mret (Some (g, result))
  end.
Definition select_master_thread_exit : CM unit :=
  on_election (λ e, mkMasterElection false (me_waiting_count e) (me_queue e) (me_delay_queue e)).

(** [master_election_unset_all_masters]. *)
Definition unset_master (g : Z) : CM unit :=
  master ← cget (λ c, dg_master (c_dg c g));
  (match master with
   | None => mret tt
   | Some master =>
       on_dg g (set_master None);;
       on_ds master (set_is_master false);;
       cluster_relationship_on_master_change me (Some master) None;;
       cluster_topology_data_server_chg_notify me master true
   end);;
  if (length (group_servers g) =? 1)%nat then master_election_queue_push g
  else master_election_push_to_delay_queue g.
Definition master_election_unset_all_masters : CM unit :=
  for_each CLUSTER_DATA_RGOUP_ARRAY unset_master.

(** ** Servers come and go ([cluster_topology.c]) *)
Definition downgrade_data_server_status (ds : DataServer) (remove_recovery_flag : bool) : CM bool :=
  old_status ← cget (λ c, ds_status (c_ds c ds));
  let new_status :=
    if decide (old_status = FS_DS_STATUS_ACTIVE) then FS_DS_STATUS_OFFLINE
    else if remove_recovery_flag then fs_downgrade_data_server_status old_status
    else old_status in
  cluster_relationship_set_ds_status_ex me ds old_status new_status.
Definition cluster_topology_offline_data_server (ds : DataServer) (unset_master : bool) : CM unit :=
  notify ← downgrade_data_server_status ds unset_master;
  is_master ← cget (λ c, ds_is_master (c_ds c ds));
  notify ←
    (if unset_master && is_master then
       on_ds ds (set_is_master false);;
       master ← cget (λ c, dg_master (c_dg c ds.1));
       (if decide (master = Some ds) then
          on_dg ds.1 (set_master None);;
          cluster_relationship_on_master_change me (Some ds) None;;
          for_each (group_servers ds.1) (λ cur,
            if decide (cur = ds) then mret tt else
            changed ← downgrade_data_server_status cur false;
            if (changed : bool) then cluster_topology_data_server_chg_notify me cur true else mret tt);;
          master_election_queue_push ds.1
        else mret tt);;
       mret true
     else mret notify);
  if (notify : bool) then cluster_topology_data_server_chg_notify me ds true else mret tt.
Definition cluster_topology_activate_server (cs : Z) : CM bool :=
  leading ← cget (am_leader me);
  if negb leading then mret false else
  cluster_relationship_set_server_status now cs FS_SERVER_STATUS_ACTIVE;;
  cluster_relationship_remove_from_inactive_sarray cs;;
  for_each (server_data_servers cs) (λ ds,
    master ← cget (λ c, dg_master (c_dg c ds.1));
    if decide (master = None) then master_election_queue_push ds.1 else mret tt);;
  mret true.
Definition cluster_topology_deactivate_server (cs : Z) : CM bool :=
  swapped ← cluster_relationship_swap_server_status now cs FS_SERVER_STATUS_ACTIVE FS_SERVER_STATUS_OFFLINE;
  if negb swapped then mret true else
  leading ← cget (am_leader me);
  if negb leading then mret false else
  for_each (server_data_servers cs) (λ ds, cluster_topology_offline_data_server ds true);;
  cluster_relationship_add_to_inactive_sarray now cs;;
  mret true.
Definition cluster_topology_offline_all_data_servers : CM unit :=
  for_each CLUSTER_DATA_RGOUP_ARRAY (λ g,
    on_dg g (set_election 0 0);;
    for_each (group_servers g) (λ ds, cluster_topology_offline_data_server ds false)).
(** [cluster_topology_offline_slave_data_servers]: the result and the count. *)
Definition offline_slave (peer : Z) (ds : DataServer) (master : DataServer) : CM bool :=
  old_status ← cget (λ c, ds_status (c_ds c ds));
  if decide (old_status = FS_DS_STATUS_ACTIVE) then
    if master.2 =? me then
      result ← cluster_relationship_report_ds_status me ds old_status FS_DS_STATUS_OFFLINE;
      mret (result =? 0)
    else cluster_relationship_swap_report_ds_status me ds old_status FS_DS_STATUS_OFFLINE
  else mret false.
Fixpoint offline_slaves (peer : Z) (l : list DataServer) (count : Z) : CM Z :=
  match l with
  | [] => mret count
  | ds :: l =>
      master ← cget (λ c, dg_master (c_dg c ds.1));
      match master with
      | None => offline_slaves peer l count
      | Some master =>
          let target := if master.2 =? me then Some ds
                        else if master.2 =? peer then group_myself me ds.1 else None in
          match target with
          | None => offline_slaves peer l count
          | Some ds =>
              changed ← offline_slave peer ds master;
              offline_slaves peer l (if (changed : bool) then count + 1 else count)
          end
      end
  end.
Definition cluster_topology_offline_slave_data_servers (peer : Z) : CM (Z * Z) :=
  if peer =? me then mret (EINVAL, 0)
  else count ← offline_slaves peer (server_data_servers peer) 0; mret (0, count).
End Election.
