(* ===== verification/Leader.v ===== *)
(** * The election of the leader

    [src/server/cluster_relationship.c]: the choice of the candidate among the statuses of the
    servers, the two phases in which a candidate makes itself the leader (every server is told
    the next leader, then every server is told to commit it), and what a server does when it
    gets a leader; with the handlers of [cluster_handler.c] for these requests. *)
From stdpp Require Import functions.
From S2P Require Import Prelude RpcResultRing Replication Cluster Topology MasterElection.

(** [FSClusterServerStatus]; [cs] is the server the status was asked from. *)
Record FSClusterServerStatus := mkServerStatus {
  st_cs : Z;
  st_is_leader : bool;
  st_leader_hint : bool;
  st_force_election : bool;
  st_server_id : Z;
  st_up_time : Z;
  st_last_shutdown_time : Z;
  st_version : Z;
}.

(** [ALIGN_TIME], [cluster_cmp_server_status]. *)
Definition ALIGN_TIME (interval : Z) : Z := Z.quot interval 60 * 60.
Definition restart_interval (s : FSClusterServerStatus) : Z := st_up_time s - st_last_shutdown_time s.
Definition cluster_cmp_server_status (status1 status2 : FSClusterServerStatus) : Z :=
  let sub := bool_num (st_is_leader status1) - bool_num (st_is_leader status2) in
  if negb (sub =? 0) then sub else
  let sub := cmp3 (st_version status1) (st_version status2) in
  if negb (sub =? 0) then sub else
  let sub := bool_num (st_leader_hint status1) - bool_num (st_leader_hint status2) in
  if negb (sub =? 0) then sub else
  let sub := bool_num (st_force_election status1) - bool_num (st_force_election status2) in
  if negb (sub =? 0) then sub else
  let sub := ALIGN_TIME (st_up_time status2) - ALIGN_TIME (st_up_time status1) in
  if negb (sub =? 0) then sub else
  let sub := ALIGN_TIME (restart_interval status2) - ALIGN_TIME (restart_interval status1) in
  if negb (sub =? 0) then sub else
  st_server_id status1 - st_server_id status2.

Section Leader.
Context `{ClusterConfig} `{Qsort} (me now now_ms : Z).

(** [g_sf_global_vars.up_time], [fs_get_last_shutdown_time()], [FORCE_LEADER_ELECTION]. *)
Variables (up_time last_shutdown_time : Z) (FORCE_LEADER_ELECTION : bool) (LEADER_ELECTION_MAX_WAIT_TIME : Z).

(** ** Statuses *)

(** The answer of a server to [FS_CLUSTER_PROTO_GET_SERVER_STATUS_REQ]
    ([cluster_deal_get_server_status]): a leader that is asked by another leader gives up its
    office. *)
Definition cluster_unset_leader : CM unit :=
  old_leader ← cget CLUSTER_LEADER_PTR;
  match old_leader with
  | None => mret tt
  | Some old => on_cs old (set_is_leader false);; put_leader None
  end.
Definition my_status (c : Cluster) (is_leader : bool) : FSClusterServerStatus :=
  mkServerStatus me is_leader (cs_is_leader (c_cs c me)) FORCE_LEADER_ELECTION me up_time
    last_shutdown_time (CLUSTER_CURRENT_VERSION c).
Definition cluster_deal_get_server_status (server_id : Z) (is_leader : bool) : CM (Z + FSClusterServerStatus) :=
  leading ← cget (am_leader me);
  if (leading : bool) then
    if is_leader then
      match fs_get_server_by_id server_id with
      | None => mret (inl ENOENT)
      | Some _ => cluster_unset_leader;; cget (λ c, inr (my_status c true))
      end
    else cget (λ c, inr (my_status c true))
  else cget (λ c, inr (my_status c false)).

(** [cluster_get_leader]; [answers]: what asking each of the other servers returns; [mem]: is
    there memory for the array of eight statuses and more? The result is the status of the
    candidate and the number of servers that answered. *)
Definition get_server_status (answers : Z → Z + FSClusterServerStatus) (c : Cluster) (cs : Z) : Z + FSClusterServerStatus :=
  if cs =? me then inr (my_status c (am_leader me c)) else answers cs.
Definition active_statuses (answers : list (Z + FSClusterServerStatus)) : list FSClusterServerStatus :=
  omap (λ r, match r with inr s => Some s | inl _ => None end) answers.
Definition last_error (answers : list (Z + FSClusterServerStatus)) : Z :=
  fold_left (λ result r, match r with inl e => if e =? ENOENT then result else e | inr _ => result end) answers 0.
Definition cluster_get_leader (answers : Z → Z + FSClusterServerStatus) (mem : bool) (c : Cluster)
    : Z + (FSClusterServerStatus * Z) :=
  if negb (Z.of_nat (length CLUSTER_SERVER_ARRAY) <? 8) && negb mem then inl ENOMEM else
  let results := get_server_status answers c <$> CLUSTER_SERVER_ARRAY in
  let cs_status := active_statuses results in
  match last (qsort cluster_cmp_server_status cs_status) with
  | None => let result := last_error results in inl (if result =? 0 then ENOENT else result)
  | Some status => inr (status, Z.of_nat (length cs_status))
  end.

(** ** Getting a leader *)
Definition cluster_relationship_deactivate_all_servers : CM unit :=
  for_each CLUSTER_SERVER_ARRAY (λ cs,
    if cs =? me then mret tt
    else cluster_relationship_set_server_status now cs FS_SERVER_STATUS_OFFLINE;; mret tt).
Definition cluster_relationship_clear_old_leader (new_leader : Z) : CM unit :=
  for_each CLUSTER_SERVER_ARRAY (λ cs,
    if cs =? new_leader then mret tt else on_cs cs (set_is_leader false)).
(** [cluster_relationship_set_leader]. *)
Definition become_leader : CM unit :=
  cluster_relationship_deactivate_all_servers;;
  cluster_relationship_set_server_status now me FS_SERVER_STATUS_ACTIVE;;
  on_cs me (set_last_ping_time (now + 1));;
  version ← cget CLUSTER_CURRENT_VERSION;
  put_version (version + 1);;
  on_cs me (set_leader_version (version + 1));;
  init_inactive_server_array me now;;
  cluster_topology_offline_all_data_servers me.
Definition flag_leader (old_leader : option Z) (new_leader : Z) : CM unit :=
  on_cs new_leader (set_is_leader true);;
  if new_leader =? me then
    if decide (old_leader ≠ Some new_leader) then become_leader else mret tt
  else on_cs me (set_is_leader false).
Definition change_leader (old_leader : option Z) (new_leader : Z) : CM unit :=
  if decide (old_leader ≠ Some new_leader) then
    put_leader (Some new_leader);;
    cluster_relationship_clear_old_leader new_leader;;
    if new_leader =? me then master_election_unset_all_masters me else mret tt
  else mret tt.
Definition cluster_relationship_set_leader (new_leader : Z) : CM Z :=
  old_leader ← cget CLUSTER_LEADER_PTR;
  flag_leader old_leader new_leader;;
  change_leader old_leader new_leader;;
  on_relationship (set_leader_election 0 0);;
  mret 0.

(** The two phases at a server. *)
Definition cluster_relationship_pre_set_leader (leader : Z) : CM Z :=
  next_leader ← cget (λ c, rc_next_leader (c_relationship c));
  match next_leader with
  | None => on_relationship (set_next_leader (Some leader));; mret 0
  | Some next =>
      if next =? leader then mret 0
      else on_relationship (set_next_leader None);; mret EEXIST
  end.
Definition cluster_relationship_commit_leader (leader : Z) : CM Z :=
  next_leader ← cget (λ c, rc_next_leader (c_relationship c));
  match next_leader with
  | None => mret EBUSY
  | Some next =>
      if next =? leader then
        result ← cluster_relationship_set_leader leader;
        on_relationship (set_next_leader None);; mret result
      else on_relationship (set_next_leader None);; mret EBUSY
  end.
(** [cluster_deal_next_leader]. *)
Inductive NextLeaderCmd := FS_CLUSTER_PROTO_PRE_SET_NEXT_LEADER | FS_CLUSTER_PROTO_COMMIT_NEXT_LEADER.
Definition next_leader_cmd (cmd : NextLeaderCmd) (leader : Z) : CM Z :=
  match cmd with
  | FS_CLUSTER_PROTO_PRE_SET_NEXT_LEADER => cluster_relationship_pre_set_leader leader
  | FS_CLUSTER_PROTO_COMMIT_NEXT_LEADER => cluster_relationship_commit_leader leader
  end.
Definition cluster_deal_next_leader (cmd : NextLeaderCmd) (leader_id : Z) : CM Z :=
  leading ← cget (am_leader me);
  if (leading : bool) then cluster_unset_leader;; mret EEXIST else
  match fs_get_server_by_id leader_id with
  | None => mret ENOENT
  | Some leader => next_leader_cmd cmd leader
  end.

(** What [cluster_select_leader] does with the candidate it found: [None] when it is this
    server itself, which then notifies the others. *)
Definition select_finish (status : FSClusterServerStatus) : CM (option Z) :=
  next_leader ← cget CLUSTER_LEADER_PTR;
  match next_leader with
  | Some _ => mret (Some 0)
  | None =>
      if st_cs status =? me then mret None
      else if st_is_leader status then
        cluster_relationship_set_leader (st_cs status);; mret (Some 0)
      else mret (Some ENOENT)
  end.
End Leader.

(** ** The candidate *)

(** What notifying a server comes to: the connection fails, or there is an answer; the call of
    the own function has no connection. *)
Inductive Reply :=
  | ConnectFailed (result : Z)
  | Answered (result : Z)
  | OwnCall (result : Z).
(** Where [cluster_notify_leader_changed] is: in the loop of a phase with the servers left,
    [result], [success_count] and [bConnectFail] (unset at first); returned; or it has read
    [bConnectFail] before it was set. *)
Inductive Notifying :=
  | InPhase (phase : NextLeaderCmd) (servers : list Z) (result success_count : Z) (bConnectFail : option bool)
  | NotifyReturned (result : Z)
  | NotifyUndefined.
Definition notify_start (servers : list Z) : Notifying :=
  InPhase FS_CLUSTER_PROTO_PRE_SET_NEXT_LEADER servers ENOENT 0 None.
(** The end of a loop. *)
Definition end_of_phase (servers : list Z) (phase : NextLeaderCmd) (result success_count : Z)
    (bConnectFail : option bool) : Notifying :=
  if success_count =? 0 then NotifyReturned result else
  match phase with
  | FS_CLUSTER_PROTO_PRE_SET_NEXT_LEADER =>
      InPhase FS_CLUSTER_PROTO_COMMIT_NEXT_LEADER servers ENOENT 0 bConnectFail
  | FS_CLUSTER_PROTO_COMMIT_NEXT_LEADER => NotifyReturned 0
  end.
(** A turn of the loop for the first server left, with the reply from it. [all]: the server
    array. *)
Definition notify_turn (all : list Z) (reply : Reply) (n : Notifying) : Notifying :=
  match n with
  | InPhase phase (_ :: servers) _ success_count bConnectFail =>
      let '(result, bConnectFail) :=
        match reply with
        | ConnectFailed result => (result, Some true)
        | Answered result => (result, Some false)
        | OwnCall result => (result, bConnectFail)
        end in
      let continue success_count :=
        match servers with
        | [] => end_of_phase all phase result success_count bConnectFail
        | _ => InPhase phase servers result success_count bConnectFail
        end in
      if negb (result =? 0) then
        match bConnectFail with
        | Some false => NotifyReturned result
        | Some true => continue success_count
        | None => NotifyUndefined
        end
      else continue (success_count + 1)
  | n => n
  end.

(** The loop of [cluster_select_leader]: one turn, with the leader pointer it reads, the time
    and what [cluster_get_leader] returns. It ends with an error or a candidate, or sleeps and
    doubles [max_sleep_secs]. *)
Inductive SelectTurn :=
  | SelectFails (result : Z)
  | SelectEnds                               (* there is a leader *)
  | SelectCandidate (status : FSClusterServerStatus)
  | SelectAgain (sleep_secs max_sleep_secs : Z).
Section Select.
Context `{ClusterConfig} (FORCE_LEADER_ELECTION : bool) (LEADER_ELECTION_MAX_WAIT_TIME start_time : Z).
Definition select_turn (leader : option Z) (now : Z) (found : Z + (FSClusterServerStatus * Z))
    (max_sleep_secs : Z) : SelectTurn :=
  match leader with
  | Some _ => SelectEnds
  | None =>
      match found with
      | inl result => SelectFails result
      | inr (status, active_count) =>
          if (active_count =? Z.of_nat (length CLUSTER_SERVER_ARRAY)) ||
             ((2 <=? active_count) && (st_is_leader status || st_leader_hint status))
          then SelectCandidate status else
          let force_sleep := (3600 <? restart_interval status) && (now - st_up_time status <? 600)
                             && negb FORCE_LEADER_ELECTION in
          if negb force_sleep && (LEADER_ELECTION_MAX_WAIT_TIME <? now - start_time)
          then SelectCandidate status else
          let remain_time := LEADER_ELECTION_MAX_WAIT_TIME - (now - start_time) in
          let sleep_secs :=
            if 0 <? remain_time then Z.min remain_time max_sleep_secs
            else if force_sleep then max_sleep_secs else 0 in
          SelectAgain sleep_secs (if max_sleep_secs <? 32 then max_sleep_secs * 2 else max_sleep_secs)
      end
  end.
End Select.
