(* ===== verification/ClusterHandler.v ===== *)
(** * The requests among the servers

    [src/server/cluster_handler.c]: what the leader does with the requests of a follower, the
    end of a connection, and the loops of [cluster_relationship.c] that report changes. A
    request comes over a connection, a task; [peer] is [CLUSTER_PEER] of the task, the server
    that joined over it. The checks of the length of a body and of the signs of the
    configuration are left out. The numbers of two errors are those of libserverframe. *)
From stdpp Require Import functions.
From S2P Require Import Prelude RpcResultRing Replication Cluster Topology MasterElection Leader.

Definition EPERM : Z := 1.

Section Handler.
Context `{ClusterConfig} `{Qsort} (me now : Z).
Variables SF_CLUSTER_ERROR_NOT_LEADER SF_CLUSTER_ERROR_LEADER_VERSION_INCONSISTENT : Z.

(** [cluster_deal_join_leader]: an error, or the peer of the task and the version of the
    leader. *)
Definition cluster_deal_join_leader (task : Z) (peer : option Z) (server_id : Z) : CM (Z + (Z * Z)) :=
  match fs_get_server_by_id server_id with
  | None => mret (inl ENOENT)
  | Some cs =>
      if cs =? me then mret (inl EINVAL) else
      leading ← cget (am_leader me);
      if negb leading then mret (inl SF_CLUSTER_ERROR_NOT_LEADER) else
      if decide (peer ≠ None) then mret (inl EEXIST) else
      x ← cget (λ c, c_cs c cs);
      if decide (cs_task x ≠ None) then mret (inl EEXIST) else
      on_cs cs (set_task (Some task));;
      (if decide (cs_status x = FS_SERVER_STATUS_ACTIVE) then
         cluster_relationship_set_server_status now cs FS_SERVER_STATUS_OFFLINE;; mret tt
       else mret tt);;
      cluster_topology_sync_all_data_servers cs;;
      cget (λ c, inr (cs, cs_leader_version (c_cs c me)))
  end.

(** [set_ds_status_and_data_version], [process_ping_leader_req], [cluster_deal_ping_leader];
    [parts]: group, status and data version. *)
Definition set_ds_status_and_data_version (ds : DataServer) (status : DSStatus) (data_version : Z)
    (notify_self : bool) : CM bool :=
  event_type ← cluster_relationship_set_ds_status_and_dv me ds status data_version;
  if negb (event_type =? 0) then
    cluster_topology_data_server_chg_notify me ds notify_self;; mret true
  else mret false.
Fixpoint process_ping_parts (peer : Z) (parts : list (Z * DSStatus * Z)) (change_count : Z) : CM Z :=
  match parts with
  | [] => mret change_count
  | (data_group_id, status, data_version) :: parts =>
      match fs_get_data_server data_group_id peer with
      | None => process_ping_parts peer parts change_count
      | Some ds =>
          changed ← set_ds_status_and_data_version ds status data_version false;
          process_ping_parts peer parts (if (changed : bool) then change_count + 1 else change_count)
      end
  end.
Definition add_version (n : Z) : CM unit := v ← cget CLUSTER_CURRENT_VERSION; put_version (v + n).
Definition process_ping_leader_req (peer leader_version : Z) (parts : list (Z * DSStatus * Z)) : CM Z :=
  mine ← cget (λ c, cs_leader_version (c_cs c me));
  if negb (leader_version =? mine) then mret SF_CLUSTER_ERROR_LEADER_VERSION_INCONSISTENT else
  change_count ← process_ping_parts peer parts 0;
  (if 0 <? change_count then add_version 1 else mret tt);;
  mret 0.
Definition cluster_deal_ping_leader (peer : option Z) (leader_version : Z) (parts : list (Z * DSStatus * Z)) : CM Z :=
  match peer with
  | None => mret EINVAL
  | Some peer =>
      leading ← cget (am_leader me);
      if negb leading then mret SF_CLUSTER_ERROR_NOT_LEADER else
      result ← process_ping_leader_req peer leader_version parts;
      (if result =? 0 then on_cs peer (set_last_ping_time now) else mret tt);;
      mret result
  end.
(** [cluster_deal_active_server]. *)
Definition cluster_deal_active_server (peer : option Z) (leader_version : Z) (parts : list (Z * DSStatus * Z)) : CM Z :=
  result ← cluster_deal_ping_leader peer leader_version parts;
  match peer with
  | Some peer =>
      if result =? 0 then
        activated ← cluster_topology_activate_server me now peer;
        mret (if (activated : bool) then result else EINVAL)
      else mret result
  | None => mret result
  end.

(** [cluster_deal_report_ds_status]. *)
Definition report_by_master (data_group_id my_server_id : Z) (old_status status : DSStatus) : CM (option Z) :=
  match fs_get_data_server data_group_id my_server_id with
  | None => mret (Some ENOENT)
  | Some master =>
      is_master ← cget (λ c, ds_is_master (c_ds c master));
      if negb is_master then mret (Some EPERM) else
      if decide (old_status ≠ FS_DS_STATUS_ACTIVE) then
        mret (Some (if decide (old_status = status) then 0 else EINVAL))
      else if decide (status ≠ FS_DS_STATUS_OFFLINE) then mret (Some EINVAL) else mret None
  end.
Definition cluster_deal_report_ds_status (my_server_id ds_server_id data_group_id : Z) (status : DSStatus) : CM Z :=
  leading ← cget (am_leader me);
  if negb leading then mret EINVAL else
  match fs_get_data_server data_group_id ds_server_id with
  | None => mret ENOENT
  | Some ds =>
      old_status ← cget (λ c, ds_status (c_ds c ds));
      refused ← (if my_server_id =? ds_server_id then mret None
                 else report_by_master data_group_id my_server_id old_status status);
      match refused with
      | Some result => mret result
      | None =>
          changed ← cluster_relationship_set_ds_status_ex me ds old_status status;
          (if (changed : bool) then
             cluster_topology_data_server_chg_notify me ds (negb (my_server_id =? ds_server_id));;
             add_version 1
           else mret tt);;
          mret 0
      end
  end.

(** [cluster_task_finish_cleanup] for a connection over which [peer] joined. *)
Definition cluster_task_finish_cleanup (task peer : Z) : CM unit :=
  x ← cget (λ c, c_cs c peer);
  if decide (cs_task x = Some task) then
    cluster_topology_deactivate_server me now peer;;
    on_cs peer (set_task None)
  else mret tt.

(** [MY_DATA_GROUP_ARRAY]; [leader_deal_data_version_changes] and, on a follower,
    [pack_changed_data_versions]. *)
Definition my_data_servers : list DataServer := server_data_servers me.
Definition leader_deal_data_version_changes : CM unit :=
  for_each my_data_servers (λ ds,
    x ← cget (λ c, c_ds c ds);
    if negb (ds_last_report_version x =? ds_version x) then
      on_ds ds (set_last_report_version (ds_version x));;
      cluster_topology_data_server_chg_notify me ds false
    else mret tt).
Fixpoint pack_changed_data_versions (report_all : bool) (l : list DataServer) : CM (list (Z * DSStatus * Z)) :=
  match l with
  | [] => mret []
  | ds :: l =>
      x ← cget (λ c, c_ds c ds);
      if report_all || negb (ds_last_report_version x =? ds_version x) then
        on_ds ds (set_last_report_version (ds_version x));;
        rest ← pack_changed_data_versions report_all l;
        mret ((ds.1, ds_status x, ds_version x) :: rest)
      else pack_changed_data_versions report_all l
  end.

(** [do_check_brainsplit] and [cluster_check_brainsplit]; [answers] as in
    [cluster_get_leader]. *)
Definition EOPNOTSUPP : Z := 95.
Definition do_check_brainsplit (answer : Z + FSClusterServerStatus) : CM Z :=
  match answer with
  | inl result => mret result
  | inr status => if st_is_leader status then cluster_unset_leader;; mret EEXIST else mret 0
  end.
Fixpoint check_inactive (answers : Z → Z + FSClusterServerStatus) (entries : list (Z * Z)) : CM Z :=
  match entries with
  | [] => mret 0
  | (cs, next_time) :: entries =>
      if now <? next_time then check_inactive answers entries else
      result ← do_check_brainsplit (answers cs);
      if result =? EEXIST then mret result else
      (if (result =? 0) || (result =? EOPNOTSUPP)
       then cluster_relationship_swap_server_status now cs FS_SERVER_STATUS_OFFLINE FS_SERVER_STATUS_ONLINE;; mret tt
       else mret tt);;
      on_relationship (λ r, set_inactive ((λ e, if e.1 =? cs then (cs, now + 1) else e) <$> rc_inactive r) r);;
      check_inactive answers entries
  end.
(** [leader_check]. *)
Definition leader_check (answers : Z → Z + FSClusterServerStatus) : CM Z :=
  entries ← cget (λ c, rc_inactive (c_relationship c));
  result ← check_inactive answers entries;
  if negb (result =? 0) then mret result else
  leader_deal_data_version_changes;;
  master_election_deal_delay_queue;;
  mret 0.
End Handler.
