(* ===== verification/ClusterInv.v ===== *)
(** * What the functions of the cluster leave alone

    A program is described by a relation between the state before and after it that every part
    of it keeps ([keeps]); [quiet] is that of the functions that only change the status of data
    servers, publish it and report it. *)
From stdpp Require Import functions.
From S2P Require Import Prelude RpcResultRing Replication Cluster Topology MasterElection Leader ClusterHandler.

Definition keeps {A} (R : Cluster → Cluster → Prop) (m : CM A) : Prop := ∀ c, R c (m c).2.

Section Keeps.
Context (R : Cluster → Cluster → Prop) `{!PreOrder R}.

Lemma keeps_ret {A} (a : A) : keeps R (mret a).
Proof. intros c. simpl. reflexivity. Qed.
Lemma keeps_get {A} (f : Cluster → A) : keeps R (cget f).
Proof. intros c. simpl. reflexivity. Qed.
Lemma keeps_bind {A B} (m : CM A) (f : A → CM B) : keeps R m → (∀ a, keeps R (f a)) → keeps R (m ≫= f).
Proof.
  intros Hm Hf c. unfold mbind, CM_bind. specialize (Hm c). destruct (m c) as [a c']. simpl in Hm.
  etrans; [exact Hm|apply Hf].
Qed.
Lemma keeps_for_each {A} (l : list A) (f : A → CM unit) : (∀ x, x ∈ l → keeps R (f x)) → keeps R (for_each l f).
Proof.
  induction l as [|x l IH]; intros Hf; simpl; [apply keeps_ret|].
  apply keeps_bind; [apply Hf; by left|]. intros _. apply IH. intros y Hy. apply Hf. by right.
Qed.
End Keeps.

(** Take a program apart; what is left are its primitive steps and calls, for the hints. *)
Create HintDb keeps discriminated.
Ltac keeps_step :=
  match goal with
  | |- keeps _ (mret _) => refine (keeps_ret _ _)
  | |- keeps _ (cget _) => refine (keeps_get _ _)
  | |- keeps _ (_ ≫= _) => refine (keeps_bind _ _ _ _ _); [|intros ?]
  | |- keeps _ (for_each _ _) => refine (keeps_for_each _ _ _ _); intros ? ?
  | |- keeps _ (let '(_, _) := ?x in _) => destruct x
  | |- keeps _ (if ?x then _ else _) => destruct x
  | |- keeps _ (match ?x with _ => _ end) => destruct x
  | |- keeps _ _ => solve [eauto with keeps typeclass_instances]
  end.
Ltac keeps := repeat keeps_step.

(** The events of a server: queued once, and exactly when the flag says so. *)
Definition events_ok (c : Cluster) : Prop :=
  ∀ s, NoDup (cs_queue (c_cs c s)) ∧ ∀ d, d ∈ cs_queue (c_cs c s) ↔ cs_in_queue (c_cs c s) d = true.

Record quiet (c c' : Cluster) : Prop := {
  q_dg : c_dg c' = c_dg c;
  q_leader : CLUSTER_LEADER_PTR c' = CLUSTER_LEADER_PTR c;
  q_version : CLUSTER_CURRENT_VERSION c' = CLUSTER_CURRENT_VERSION c;
  q_election : c_election c' = c_election c;
  q_next : rc_next_leader (c_relationship c') = rc_next_leader (c_relationship c);
  q_inactive : rc_inactive (c_relationship c') = rc_inactive (c_relationship c);
  q_is_master d : ds_is_master (c_ds c' d) = ds_is_master (c_ds c d);
  q_ds_version d : ds_version (c_ds c' d) = ds_version (c_ds c d);
  q_is_leader s : cs_is_leader (c_cs c' s) = cs_is_leader (c_cs c s);
  q_status s : cs_status (c_cs c' s) = cs_status (c_cs c s);
  q_task s : cs_task (c_cs c' s) = cs_task (c_cs c s);
  q_leader_version s : cs_leader_version (c_cs c' s) = cs_leader_version (c_cs c s);
  q_in_queue s d : cs_in_queue (c_cs c s) d = true → cs_in_queue (c_cs c' s) d = true;
  q_events : events_ok c → events_ok c';
}.
#[export] Instance quiet_preorder : PreOrder quiet.
Proof.
  split.
  - intros c. by split.
  - intros c1 c2 c3 [] []. split; try congruence; try (intros; etransitivity; [eauto|eauto]); auto.
Qed.

(** Alter at one place: what it does to a projection that the function does not change. *)
Lemma alter_proj {K A B} `{EqDecision K} (p : A → B) f (k : K) (m : K → A) i :
  (∀ x, p (f x) = p x) → p (alter f k m i) = p (m i).
Proof.
  intros Hf. destruct (decide (k = i)) as [->|]; [by rewrite fn_lookup_alter|by rewrite fn_lookup_alter_ne].
Qed.

Section Quiet.
Context `{ClusterConfig} (me : Z).

Lemma quiet_on_ds d f :
  (∀ x, ds_is_master (f x) = ds_is_master x) → (∀ x, ds_version (f x) = ds_version x) →
  keeps quiet (on_ds d f).
Proof. intros H1 H2 c. split; simpl; try done; intros; by apply alter_proj. Qed.
Lemma quiet_set_ds_status d s : keeps quiet (on_ds d (set_ds_status s)).
Proof. by apply quiet_on_ds. Qed.
Lemma quiet_set_last_report d v : keeps quiet (on_ds d (set_last_report_version v)).
Proof. by apply quiet_on_ds. Qed.
Lemma quiet_on_relationship f :
  (∀ r, rc_next_leader (f r) = rc_next_leader r) → (∀ r, rc_inactive (f r) = rc_inactive r) →
  keeps quiet (on_relationship f).
Proof. intros H1 H2 c. split; simpl; auto. Qed.
Lemma quiet_add_recovery d : keeps quiet (on_relationship (add_recovery d)).
Proof. by apply quiet_on_relationship. Qed.
Lemma quiet_add_report r a : keeps quiet (on_relationship (add_report r a)).
Proof. by apply quiet_on_relationship. Qed.
Lemma quiet_immediate b : keeps quiet (on_relationship (set_immediate_report b)).
Proof. by apply quiet_on_relationship. Qed.
Hint Resolve quiet_set_ds_status quiet_set_last_report quiet_add_recovery quiet_add_report quiet_immediate : keeps.

Lemma quiet_push_event cs d : keeps quiet (push_event cs d).
Proof.
  intros c. split; simpl; try done; try (intros s; apply alter_proj; intros x; by destruct (cs_in_queue x d)).
  - intros s d' Hd. destruct (decide (cs = s)) as [->|]; [|by rewrite fn_lookup_alter_ne].
    rewrite fn_lookup_alter. destruct (cs_in_queue (c_cs c s) d); [done|]. simpl.
    destruct (decide (d = d')) as [->|]; [by rewrite fn_lookup_insert|by rewrite fn_lookup_insert_ne].
  - intros He s. simpl. destruct (decide (cs = s)) as [->|]; [|by rewrite fn_lookup_alter_ne].
    rewrite fn_lookup_alter. destruct (He s) as [Hn Hq]. destruct (cs_in_queue (c_cs c s) d) eqn:E; [by split|].
    simpl. assert (d ∉ cs_queue (c_cs c s)) as Hd by (rewrite Hq, E; done). split.
    + apply NoDup_app. split_and!; [done| |apply NoDup_singleton].
      intros x Hx ->%list_elem_of_singleton. done.
    + intros x. rewrite elem_of_app, list_elem_of_singleton, Hq.
      destruct (decide (d = x)) as [->|]; [rewrite fn_lookup_insert|rewrite fn_lookup_insert_ne by done];
        split; [done|by right|intros [?| ->]; done|by left].
Qed.
Hint Resolve quiet_push_event : keeps.
Lemma quiet_chg_notify d b : keeps quiet (cluster_topology_data_server_chg_notify me d b).
Proof. unfold cluster_topology_data_server_chg_notify. keeps.
Qed.
Lemma quiet_sync_all s : keeps quiet (cluster_topology_sync_all_data_servers s).
Proof. unfold cluster_topology_sync_all_data_servers. keeps. Qed.
Hint Resolve quiet_chg_notify : keeps.
Lemma quiet_recovery_push d : keeps quiet (recovery_thread_push_to_queue d).
Proof. unfold recovery_thread_push_to_queue. keeps. Qed.
Hint Resolve quiet_recovery_push : keeps.
Lemma quiet_recovery_check d : keeps quiet (recovery_thread_check_push_to_queue d).
Proof. unfold recovery_thread_check_push_to_queue. keeps. Qed.
Lemma quiet_on_status_change d s : keeps quiet (cluster_relationship_on_status_change me d s).
Proof. unfold cluster_relationship_on_status_change. keeps. Qed.
Hint Resolve quiet_recovery_check quiet_on_status_change : keeps.
Lemma quiet_set_status_ex d s s' : keeps quiet (cluster_relationship_set_ds_status_ex me d s s').
Proof. unfold cluster_relationship_set_ds_status_ex. keeps. Qed.
Hint Resolve quiet_set_status_ex : keeps.
Lemma quiet_set_status d s : keeps quiet (cluster_relationship_set_ds_status me d s).
Proof. unfold cluster_relationship_set_ds_status. keeps. Qed.
Lemma quiet_report d s s' : keeps quiet (cluster_relationship_report_ds_status me d s s').
Proof.
  unfold cluster_relationship_report_ds_status, report_ds_status_to_leader,
    cluster_relationship_trigger_report_ds_status. keeps.
Qed.
Hint Resolve quiet_report : keeps.
Lemma quiet_swap_report d s s' : keeps quiet (cluster_relationship_swap_report_ds_status me d s s').
Proof. unfold cluster_relationship_swap_report_ds_status. keeps. Qed.
Hint Resolve quiet_swap_report : keeps.
Lemma quiet_on_master_change o n : keeps quiet (cluster_relationship_on_master_change me o n).
Proof. unfold cluster_relationship_on_master_change. keeps. Qed.
Lemma quiet_downgrade d b : keeps quiet (downgrade_data_server_status me d b).
Proof. unfold downgrade_data_server_status. keeps. Qed.
End Quiet.
#[export] Hint Resolve quiet_set_ds_status quiet_set_last_report quiet_add_recovery quiet_add_report quiet_immediate
  quiet_push_event quiet_chg_notify quiet_sync_all quiet_recovery_push quiet_recovery_check quiet_on_status_change
  quiet_set_status_ex quiet_set_status quiet_report quiet_swap_report quiet_on_master_change quiet_downgrade : keeps.

(** ** The invariant of the cluster state

    [cluster_ok] says how the redundant parts of the state agree: the masters of the groups and
    the flags of the data servers, the queues and the flags of what is in them, the array of the
    inactive servers. Every function of the cluster part keeps it. *)

Section Inv.
Context `{ClusterConfig}.

Definition masters_ok (c : Cluster) : Prop :=
  (∀ g d, dg_master (c_dg c g) = Some d → d ∈ group_servers g) ∧
  (∀ d, ds_is_master (c_ds c d) = true ↔ dg_master (c_dg c d.1) = Some d).
Definition queue_ok (queue : list Z) (flag : Z → bool) : Prop :=
  NoDup queue ∧ ∀ g, g ∈ queue ↔ flag g = true.
Definition inactive_ok (c : Cluster) : Prop :=
  NoDup (rc_inactive (c_relationship c)).*1 ∧
  (∀ s, s ∈ (rc_inactive (c_relationship c)).*1 → s ∈ CLUSTER_SERVER_ARRAY).
Record cluster_ok (c : Cluster) : Prop := {
  ok_masters : masters_ok c;
  ok_queue : queue_ok (me_queue (c_election c)) (λ g, dg_in_queue (c_dg c g));
  ok_waiting : me_waiting_count (c_election c) = Z.of_nat (length (me_queue (c_election c)));
  ok_delay : queue_ok (me_delay_queue (c_election c)) (λ g, dg_in_delay_queue (c_dg c g));
  ok_events : events_ok c;
  ok_inactive : inactive_ok c;
  ok_ptr g : dg_ds_ptr_array (c_dg c g) ≡ₚ group_servers g;
}.
Definition safe (c c' : Cluster) : Prop := cluster_ok c → cluster_ok c'.
#[local] Instance safe_preorder : PreOrder safe.
Proof. split; unfold safe; [by intros ?|intros ???; eauto]. Qed.

(** The functions that leave all of this alone. *)
Record core (c c' : Cluster) : Prop := {
  k_master g : dg_master (c_dg c' g) = dg_master (c_dg c g);
  k_is_master d : ds_is_master (c_ds c' d) = ds_is_master (c_ds c d);
  k_in_queue g : dg_in_queue (c_dg c' g) = dg_in_queue (c_dg c g);
  k_in_delay g : dg_in_delay_queue (c_dg c' g) = dg_in_delay_queue (c_dg c g);
  k_ptr g : dg_ds_ptr_array (c_dg c' g) ≡ₚ dg_ds_ptr_array (c_dg c g);
  k_waiting : me_waiting_count (c_election c') = me_waiting_count (c_election c);
  k_queue : me_queue (c_election c') = me_queue (c_election c);
  k_delay : me_delay_queue (c_election c') = me_delay_queue (c_election c);
  k_inactive : rc_inactive (c_relationship c') = rc_inactive (c_relationship c);
  k_events : events_ok c → events_ok c';
}.
#[local] Instance core_preorder : PreOrder core.
Proof.
  split.
  - intros c. by split.
  - intros c1 c2 c3 [] []. split; try (intros; congruence); auto. intros g. etrans; eauto.
Qed.
Lemma quiet_core c c' : quiet c c' → core c c'.
Proof. intros []. split; auto; intros; first [by rewrite q_dg0|by rewrite q_election0]. Qed.
Lemma keeps_quiet_core {A} (m : CM A) : keeps quiet m → keeps core m.
Proof. intros Hm c. apply quiet_core, Hm. Qed.

Lemma masters_ok_ext c c' :
  (∀ g, dg_master (c_dg c' g) = dg_master (c_dg c g)) → (∀ d, ds_is_master (c_ds c' d) = ds_is_master (c_ds c d)) →
  masters_ok c → masters_ok c'.
Proof.
  intros Hg Hd [H1 H2]. split; [intros g d; rewrite Hg; auto|]. intros d. rewrite Hd, Hg. auto.
Qed.
Lemma queue_ok_ext q f f' : (∀ g, f' g = f g) → queue_ok q f → queue_ok q f'.
Proof. intros Hf [H1 H2]. split; [done|]. intros g. by rewrite Hf. Qed.
Lemma events_ok_ext c c' :
  (∀ s, cs_queue (c_cs c' s) = cs_queue (c_cs c s)) → (∀ s, cs_in_queue (c_cs c' s) = cs_in_queue (c_cs c s)) →
  events_ok c → events_ok c'.
Proof. intros H1 H2 He s. rewrite H1, H2. apply He. Qed.

Lemma core_ok c c' : core c c' → safe c c'.
Proof.
  intros [] []. split.
  - eapply masters_ok_ext; eauto.
  - rewrite k_queue0. eapply queue_ok_ext; [|done]. intros g. apply k_in_queue0.
  - rewrite k_queue0. congruence.
  - rewrite k_delay0. eapply queue_ok_ext; [|done]. intros g. apply k_in_delay0.
  - auto.
  - unfold inactive_ok. rewrite k_inactive0. done.
  - intros g. by rewrite k_ptr0.
Qed.
Lemma keeps_core_safe {A} (m : CM A) : keeps core m → keeps safe m.
Proof. intros Hm c. apply core_ok, Hm. Qed.
Lemma keeps_quiet_safe {A} (m : CM A) : keeps quiet m → keeps safe m.
Proof. intros Hm c. apply core_ok, quiet_core, Hm. Qed.

(** ** Simple steps *)
Lemma core_on_cs s f :
  (∀ x, cs_queue (f x) = cs_queue x) →
  (∀ x, cs_in_queue (f x) = cs_in_queue x) → keeps core (on_cs s f).
Proof.
  intros H1 H2 c. split; simpl; try done.
  apply events_ok_ext; intros; simpl; by apply alter_proj.
Qed.
Lemma core_set_cs_status s st now : keeps core (on_cs s (set_cs_status st now)).
Proof. by apply core_on_cs. Qed.
Lemma core_set_last_ping s t : keeps core (on_cs s (set_last_ping_time t)).
Proof. by apply core_on_cs. Qed.
Lemma core_set_leader_version s v : keeps core (on_cs s (set_leader_version v)).
Proof. by apply core_on_cs. Qed.
Lemma core_set_task s t : keeps core (on_cs s (set_task t)).
Proof. by apply core_on_cs. Qed.
Lemma core_set_ds_version d v : keeps core (on_ds d (set_ds_version v)).
Proof. intros c. split; simpl; try done. intros. by apply alter_proj. Qed.
Lemma core_set_election g r s : keeps core (on_dg g (set_election r s)).
Proof. intros c. split; simpl; try done; intros; by (apply alter_proj || rewrite (alter_proj dg_ds_ptr_array)). Qed.
Lemma core_put_version v : keeps core (put_version v).
Proof. by intros c; split. Qed.
Lemma core_set_next_leader l : keeps core (on_relationship (set_next_leader l)).
Proof. by intros c; split. Qed.
Lemma core_set_leader_election r s : keeps core (on_relationship (set_leader_election r s)).
Proof. by intros c; split. Qed.
Lemma core_put_running (b : bool) :
  keeps core (on_election (λ e, mkMasterElection b (me_waiting_count e) (me_queue e) (me_delay_queue e))).
Proof. by intros c; split. Qed.
Lemma safe_inactive f :
  (∀ c, inactive_ok c → NoDup (rc_inactive (f (c_relationship c))).*1 ∧
    ∀ s, s ∈ (rc_inactive (f (c_relationship c))).*1 → s ∈ CLUSTER_SERVER_ARRAY) →
  keeps safe (on_relationship f).
Proof. intros Hf c [? ? ? ? ? Hi ?]. split; try done. by apply Hf in Hi. Qed.
Lemma queue_ok_push q f f' g :
  queue_ok q f → f g = false → f' g = true → (∀ x, x ≠ g → f' x = f x) → queue_ok (q ++ [g]) f'.
Proof.
  intros [Hn Hq] E E' Hf. split.
  - apply NoDup_app. split_and!; [done| |apply NoDup_singleton]. intros x Hx ->%list_elem_of_singleton.
    apply Hq in Hx. congruence.
  - intros x. rewrite elem_of_app, list_elem_of_singleton, Hq.
    destruct (decide (x = g)) as [->|]; [split; [done|by right]|].
    rewrite Hf by done. split; [intros [?|?]; congruence|by left].
Qed.
Lemma queue_ok_pop q f f' g :
  queue_ok (g :: q) f → f' g = false → (∀ x, x ≠ g → f' x = f x) → queue_ok q f'.
Proof.
  intros [[Hg Hn]%NoDup_cons Hq] E Hf. split; [done|]. intros x.
  destruct (decide (x = g)) as [->|]; [rewrite E; split; [done|congruence]|].
  rewrite Hf, <- Hq by done. rewrite elem_of_cons. split; [by right|by intros [?|?]].
Qed.
(** A flag of a group and the queues of the election change; nothing else does. *)
Lemma safe_election c c' :
  (∀ s, c_cs c' s = c_cs c s) → (∀ d, c_ds c' d = c_ds c d) →
  c_relationship c' = c_relationship c → (∀ g, dg_master (c_dg c' g) = dg_master (c_dg c g)) →
  (∀ g, dg_ds_ptr_array (c_dg c' g) ≡ₚ dg_ds_ptr_array (c_dg c g)) →
  queue_ok (me_queue (c_election c')) (λ g, dg_in_queue (c_dg c' g)) →
  me_waiting_count (c_election c') = Z.of_nat (length (me_queue (c_election c'))) →
  queue_ok (me_delay_queue (c_election c')) (λ g, dg_in_delay_queue (c_dg c' g)) → safe c c'.
Proof.
  intros Hs Hd Hr Hm Hp Hq Hw Hdq [Hm0 Hq0 Hw0 Hd0 He0 Hi0 Hp0]. split; try done.
  - eapply masters_ok_ext; [done| |done]. intros. by rewrite Hd.
  - eapply events_ok_ext; [..|done]; intros; by rewrite Hs.
  - unfold inactive_ok. by rewrite Hr.
  - intros g. by rewrite Hp.
Qed.
Lemma safe_put_queue g :
  keeps safe (in_queue ← cget (λ c, dg_in_queue (c_dg c g));
    if (in_queue : bool) then mret tt else
      on_dg g (set_in_queue true);;
      on_election (λ e, mkMasterElection (me_is_running e) (me_waiting_count e + 1) (me_queue e ++ [g]) (me_delay_queue e))).
Proof.
  intros c Hc. unfold mbind, CM_bind. simpl. destruct (dg_in_queue (c_dg c g)) eqn:E; [done|]. simpl.
  apply (safe_election c); simpl; try done.
  - intros x. by apply alter_proj.
  - intros x. by rewrite (alter_proj dg_ds_ptr_array).
  - eapply queue_ok_push; [apply Hc|done|by rewrite fn_lookup_alter|].
    intros x ?. by rewrite fn_lookup_alter_ne.
  - rewrite length_app, (ok_waiting _ Hc). simpl. lia.
  - eapply queue_ok_ext; [|apply Hc]. intros x. by apply alter_proj.
Qed.
Lemma safe_push_delay g : keeps safe (master_election_push_to_delay_queue g).
Proof.
  intros c Hc. unfold master_election_push_to_delay_queue, mbind, CM_bind. simpl.
  destruct (dg_in_delay_queue (c_dg c g)) eqn:E; [done|]. simpl.
  apply (safe_election c); simpl; try done.
  - intros x. by apply alter_proj.
  - intros x. by rewrite (alter_proj dg_ds_ptr_array).
  - eapply queue_ok_ext; [|apply Hc]. intros x. by apply alter_proj.
  - apply Hc.
  - eapply queue_ok_push; [apply Hc|done|by rewrite fn_lookup_alter|].
    intros x ?. by rewrite fn_lookup_alter_ne.
Qed.
End Inv.
