(* ===== verification/ClusterThms.v ===== *)
(** * The functions of the cluster keep its invariant *)
From stdpp Require Import functions.
From S2P Require Import Prelude RpcResultRing Replication Cluster Topology MasterElection Leader ClusterHandler ClusterInv.

Section Thms.
Context `{ClusterConfig} `{Qsort} (me : Z).
#[local] Existing Instance safe_preorder.
#[local] Existing Instance core_preorder.
#[local] Hint Resolve core_set_cs_status core_set_last_ping core_set_leader_version core_set_task
  core_set_ds_version core_set_election core_put_version core_set_next_leader core_set_leader_election core_put_running : keeps.
#[local] Hint Extern 5 (keeps core _) => (apply keeps_quiet_core; solve [eauto with keeps]) : keeps.

Lemma keeps_run {A} R (m : CM A) c a c' : keeps R m → m c = (a, c') → R c c'.
Proof. intros Hm E. specialize (Hm c). by rewrite E in Hm. Qed.
Lemma elem_of_group_servers g (d : DataServer) : d ∈ group_servers g ↔ d.1 = g ∧ d.2 ∈ data_server_array g.
Proof.
  unfold group_servers. rewrite list_elem_of_fmap. split; [by intros (s & -> & ?)|].
  intros [<- ?]. exists d.2. by destruct d.
Qed.

(** ** Masters *)
Lemma masters_ok_change c c' g :
  masters_ok c →
  (∀ x, x ≠ g → dg_master (c_dg c' x) = dg_master (c_dg c x)) →
  (∀ d, d.1 ≠ g → ds_is_master (c_ds c' d) = ds_is_master (c_ds c d)) →
  (∀ d, dg_master (c_dg c' g) = Some d → d ∈ group_servers g) →
  (∀ d, d.1 = g → ds_is_master (c_ds c' d) = true ↔ dg_master (c_dg c' g) = Some d) →
  masters_ok c'.
Proof.
  intros [Hi Hm] Hg Hd Hin Hf. split.
  - intros x d. destruct (decide (x = g)) as [->|]; [auto|]. rewrite Hg by done. auto.
  - intros d. destruct (decide (d.1 = g)) as [<-|]; [auto|]. rewrite Hg, Hd by done. auto.
Qed.
(** Only masters change, as [masters_ok_change] says. *)
Lemma safe_masters c c' :
  (∀ s, c_cs c' s = c_cs c s) →
  c_relationship c' = c_relationship c → c_election c' = c_election c →
  (∀ g, dg_in_queue (c_dg c' g) = dg_in_queue (c_dg c g)) →
  (∀ g, dg_in_delay_queue (c_dg c' g) = dg_in_delay_queue (c_dg c g)) →
  (∀ g, dg_ds_ptr_array (c_dg c' g) = dg_ds_ptr_array (c_dg c g)) →
  (masters_ok c → masters_ok c') → safe c c'.
Proof.
  intros Hs Hr He Hq Hd Hp Hm [Hm0 Hq0 Hw0 Hd0 He0 Hi0 Hp0]. split; try by rewrite ?He; auto.
  - rewrite He. eapply queue_ok_ext; [|done]. done.
  - rewrite He. eapply queue_ok_ext; [|done]. done.
  - eapply events_ok_ext; [..|done]; intros; by rewrite Hs.
  - unfold inactive_ok. by rewrite Hr.
  - intros g. by rewrite Hp.
Qed.
Definition master_change (g : Z) (m : option DataServer) (f : (DataServer → FSClusterDataServerInfo) → DataServer → FSClusterDataServerInfo)
    (c : Cluster) : Cluster :=
  mkCluster (c_cs c) (f (c_ds c)) (alter (set_master m) g (c_dg c)) (CLUSTER_LEADER_PTR c)
    (CLUSTER_CURRENT_VERSION c) (c_election c) (c_relationship c).
Lemma safe_master_change c g m f :
  (masters_ok c → (∀ d, d.1 ≠ g → ds_is_master (f (c_ds c) d) = ds_is_master (c_ds c d)) ∧
    (∀ d, m = Some d → d ∈ group_servers g) ∧
    (∀ d, d.1 = g → ds_is_master (f (c_ds c) d) = true ↔ m = Some d)) →
  safe c (master_change g m f c).
Proof.
  intros Hf. apply safe_masters; try done; simpl.
  - intros x. by apply alter_proj.
  - intros x. by apply alter_proj.
  - intros x. by rewrite (alter_proj dg_ds_ptr_array).
  - intros Hm. destruct (Hf Hm) as (H1 & H2 & H3). apply (masters_ok_change c _ g); try done; simpl.
    + intros x ?. by rewrite fn_lookup_alter_ne.
    + intros d. rewrite fn_lookup_alter. simpl. auto.
    + intros d. rewrite fn_lookup_alter. simpl. auto.
Qed.
(** A group without a master gets [d]. *)
Lemma safe_set_master c d :
  dg_master (c_dg c d.1) = None → d ∈ group_servers d.1 →
  safe c (master_change d.1 (Some d) (alter (set_is_master true) d) c).
Proof.
  intros E Hd. apply safe_master_change. intros [_ Hm]. split_and!.
  - intros x Hx. rewrite fn_lookup_alter_ne; [done|]. by intros <-.
  - by intros x [= <-].
  - intros x Hx. destruct (decide (d = x)) as [->|].
    + by rewrite fn_lookup_alter.
    + rewrite fn_lookup_alter_ne by done. rewrite Hm, Hx, E. split; [done|congruence].
Qed.
(** The master [d] of a group is unset. *)
Lemma safe_unset_master c g d :
  dg_master (c_dg c g) = Some d → safe c (master_change g None (alter (set_is_master false) d) c).
Proof.
  intros E. apply safe_master_change. intros [Hi Hm]. pose proof (Hi _ _ E) as Hd. apply elem_of_group_servers in Hd. split_and!; [|done|].
  - intros x Hx. rewrite fn_lookup_alter_ne; [done|]. intros <-. destruct Hd. congruence.
  - intros x Hx. split; [|done]. destruct (decide (d = x)) as [->|].
    + by rewrite fn_lookup_alter.
    + rewrite fn_lookup_alter_ne by done. intros Hx2%Hm. congruence.
Qed.

(** ** The election of a master *)
Lemma core_start_election now now_ms g : keeps core (start_election me now now_ms g).
Proof. unfold start_election. keeps. Qed.
Lemma core_set_ds_ptr g l c : l ≡ₚ dg_ds_ptr_array (c_dg c g) → core c (on_dg g (set_ds_ptr_array l) c).2.
Proof.
  intros Hl. split; simpl; try done; try (intros; by apply alter_proj).
  intros x. destruct (decide (g = x)) as [->|]; [by rewrite fn_lookup_alter|by rewrite fn_lookup_alter_ne].
Qed.
Lemma core_select_master now now_ms g : keeps core (select_master me now now_ms g).
Proof.
  unfold select_master. apply keeps_bind; [apply _|apply core_start_election|]. intros _ c.
  unfold mbind, CM_bind. simpl. destruct (negb _); [destruct (get_preseted_master g); [case_match|]; reflexivity|].
  destruct (count_servers _ _ _ _ _); [|apply core_set_election].
  destruct (_ || _); [reflexivity|]. simpl. apply core_set_ds_ptr. case_match; [apply qsort_permutation|done].
Qed.
Lemma find_elem {A} (f : A → bool) l x : List.find f l = Some x → x ∈ l.
Proof. intros [Hx _]%find_some. by apply list_elem_of_In. Qed.
Lemma get_preseted_master_in g d : get_preseted_master g = Some d → d ∈ group_servers g.
Proof.
  unfold get_preseted_master. destruct (List.find _ _) eqn:E; [intros [= <-]; by apply find_elem in E|].
  destruct (group_servers g); [done|]. intros [= ->]. by left.
Qed.
Lemma select_candidate_in now c g t l d :
  l ∈ group_servers g → select_candidate now c g t l = Selected d → d ∈ group_servers g.
Proof.
  intros Hl. unfold select_candidate. destruct (List.find _ _); [|done].
  destruct (_ =? -1); [done|]. destruct (_ && _); [done|].
  destruct (_ =? 0); [done|]. destruct (_ =? _); [by intros [= <-]|].
  destruct (filter _ _ !! _) eqn:E; [|done]. destruct (is_active c d1); [|done]. intros [= <-].
  apply list_elem_of_lookup_2, list_elem_of_filter in E. by destruct E.
Qed.
Lemma select_last_in now c g t n sorted d :
  sorted ≡ₚ group_servers g → select_last now c g t n sorted = Selected d → d ∈ group_servers g.
Proof.
  intros Hp. unfold select_last. destruct (last sorted) as [l|] eqn:El; [|done].
  assert (l ∈ group_servers g) as Hl by (rewrite <- Hp; by apply last_Some_elem_of).
  destruct (_ && _); [by intros [= <-]|]. repeat case_match; try done; by apply select_candidate_in.
Qed.
Lemma select_master_in now now_ms g c d c' :
  cluster_ok c → select_master me now now_ms g c = (Selected d, c') → d ∈ group_servers g.
Proof.
  intros Hc. unfold select_master, mbind, CM_bind.
  destruct (start_election me now now_ms g c) as [u c1] eqn:E1. apply (keeps_run _ _ _ _ _ (core_start_election _ _ _)) in E1.
  simpl. destruct (negb _).
  - destruct (get_preseted_master g) eqn:E; [|done]. case_match; [|done]. intros [= <- _]. by apply get_preseted_master_in.
  - destruct (count_servers _ _ _ _ _); [|done]. destruct (_ || _); [done|]. simpl. intros [= Es _].
    eapply select_last_in; [|exact Es]. assert (dg_ds_ptr_array (c_dg c1 g) ≡ₚ group_servers g) as Hp.
    { rewrite (k_ptr _ _ E1). apply Hc. }
    case_match; [by rewrite qsort_permutation|done].
Qed.
Lemma safe_select_master now now_ms g : keeps safe (master_election_select_master me now now_ms g).
Proof.
  intros c Hc. unfold master_election_select_master, mbind at 1, CM_bind at 1. simpl.
  destruct (decide _) as [|Hn]; [done|]. apply dec_stable in Hn.
  unfold mbind at 1, CM_bind at 1. destruct (select_master me now now_ms g c) as [r c1] eqn:E.
  pose proof (keeps_run _ _ _ _ _ (core_select_master _ _ _) E) as Hk.
  destruct r as [d| |]; [|by eapply core_ok..].
  apply (select_master_in _ _ _ _ _ _ Hc) in E. apply elem_of_group_servers in E as Hd. destruct Hd as [<- _].
  assert (cluster_ok (master_change d.1 (Some d) (alter (set_is_master true) d) c1)) as Hc1.
  { apply safe_set_master; [by rewrite (k_master _ _ Hk)|done|]. by eapply core_ok. }
  revert Hc1. change (safe (master_change d.1 (Some d) (alter (set_is_master true) d) c1)
    ((cluster_relationship_on_master_change me None (Some d);; cluster_topology_data_server_chg_notify me d true;;
     on_dg d.1 (set_election 0 0);; mret (Some 0)) (master_change d.1 (Some d) (alter (set_is_master true) d) c1)).2).
  match goal with |- safe ?c1 (?m ?c1).2 => enough (keeps safe m) as Hm by apply Hm end.
  apply keeps_core_safe. keeps.
Qed.

(** ** The queues *)
Lemma safe_queue_push g : keeps safe (master_election_queue_push g).
Proof.
  unfold master_election_queue_push, master_election_thread_start. keeps_step; [keeps_step|].
  keeps_step; [destruct a; [keeps|apply keeps_core_safe; keeps]|]. apply safe_put_queue.
Qed.
(** The delay queue is emptied at once, the flags one by one: [with_delay l c] is the state that
    still has the groups [l] in the queue. *)
Definition with_delay (l : list Z) (c : Cluster) : Cluster :=
  let e := c_election c in
  mkCluster (c_cs c) (c_ds c) (c_dg c) (CLUSTER_LEADER_PTR c) (CLUSTER_CURRENT_VERSION c)
    (mkMasterElection (me_is_running e) (me_waiting_count e) (me_queue e) l) (c_relationship c).
Lemma queue_push_delay g l c :
  (master_election_queue_push g (with_delay l c)).2 = with_delay l (master_election_queue_push g c).2 ∧
  me_delay_queue (c_election (master_election_queue_push g c).2) = me_delay_queue (c_election c).
Proof.
  unfold master_election_queue_push, mbind, CM_bind. simpl.
  destruct (me_is_running (c_election c)); simpl; by destruct (dg_in_queue (c_dg c g)).
Qed.
Lemma deal_delayed_ok g l c :
  cluster_ok (with_delay (g :: l) c) → me_delay_queue (c_election c) = [] →
  cluster_ok (with_delay l (deal_delayed g c).2) ∧ me_delay_queue (c_election (deal_delayed g c).2) = [].
Proof.
  intros Hc E.
  assert (∃ c1, cluster_ok (with_delay (g :: l) c1) ∧ me_delay_queue (c_election c1) = [] ∧
    deal_delayed g c = on_dg g (set_in_delay_queue false) c1) as (c1 & Hc1 & E1 & ->).
  { unfold deal_delayed, mbind at 1, CM_bind at 1. simpl.
    destruct (decide _); [|by exists c]. exists (master_election_queue_push g c).2.
    destruct (queue_push_delay g (g :: l) c) as [<- ->]. split_and!; [by apply safe_queue_push|done|].
    unfold mbind, CM_bind. by destruct (master_election_queue_push g c) as [[] ?]. }
  split; [|done]. apply (safe_election (with_delay (g :: l) c1)); simpl; try done.
  - intros x. by apply alter_proj.
  - intros x. by rewrite (alter_proj dg_ds_ptr_array).
  - eapply queue_ok_ext; [|apply Hc1]. intros x. by apply alter_proj.
  - apply Hc1.
  - eapply queue_ok_pop; [apply Hc1|by rewrite fn_lookup_alter|]. intros x ?. by rewrite fn_lookup_alter_ne.
Qed.
Lemma deal_all_delayed_ok l c :
  cluster_ok (with_delay l c) → me_delay_queue (c_election c) = [] → cluster_ok (for_each l deal_delayed c).2.
Proof.
  revert c. induction l as [|g l IH]; intros c Hc E; simpl.
  - destruct c as [? ? ? ? ? [] ?]. simpl in E. by subst.
  - destruct (deal_delayed_ok g l c Hc E) as [Hc1 E1]. unfold mbind, CM_bind.
    destruct (deal_delayed g c) as [? c1]. by apply IH.
Qed.
Lemma safe_deal_delay_queue : keeps safe master_election_deal_delay_queue.
Proof.
  intros c Hc. unfold master_election_deal_delay_queue, mbind at 1 2, CM_bind at 1 2. simpl.
  set (c1 := mkCluster _ _ _ _ _ _ _). assert (cluster_ok (for_each (me_delay_queue (c_election c)) deal_delayed c1).2) as Hc1.
  { apply deal_all_delayed_ok; [|done]. by destruct c as [? ? ? ? ? [] ?]. }
  unfold mbind at 1, CM_bind at 1. destruct (for_each _ _ c1) as [u c2]. simpl in Hc1.
  revert Hc1. apply keeps_core_safe. unfold master_election_thread_start. keeps.
Qed.
Lemma safe_select_turn now now_ms : keeps safe (select_master_turn me now now_ms).
Proof.
  intros c Hc. unfold select_master_turn, mbind at 1, CM_bind at 1. simpl.
  destruct (me_queue (c_election c)) as [|g q] eqn:E; [done|].
  unfold mbind at 1 2, CM_bind at 1 2. simpl.
  match goal with |- cluster_ok (?m ?c1).2 => enough (keeps safe m ∧ cluster_ok c1) as [Hm Hc1] by by apply Hm end.
  split.
  - keeps_step; [apply safe_select_master|]. keeps_step; [|keeps].
    destruct (decide _); [apply safe_push_delay|keeps].
  - apply (safe_election c); simpl; try done.
    + intros x. by apply alter_proj.
    + intros x. by rewrite (alter_proj dg_ds_ptr_array).
    + eapply queue_ok_pop; [rewrite <- E; apply Hc|by rewrite fn_lookup_alter|]. intros x ?. by rewrite fn_lookup_alter_ne.
    + rewrite (ok_waiting _ Hc), E. simpl. lia.
    + eapply queue_ok_ext; [|apply Hc]. intros x. by apply alter_proj.
Qed.
Lemma safe_thread_exit : keeps safe select_master_thread_exit.
Proof. apply keeps_core_safe. unfold select_master_thread_exit. keeps. Qed.

(** ** Masters are unset *)
#[local] Hint Resolve safe_queue_push safe_push_delay : keeps.
#[local] Hint Extern 5 (keeps safe _) => (apply keeps_core_safe; solve [eauto with keeps]) : keeps.

Lemma bind_at {A B} (m : CM A) (f : A → CM B) c :
  safe c (m c).2 → (∀ a, keeps safe (f a)) → safe c ((m ≫= f) c).2.
Proof.
  intros Hm Hf. unfold mbind, CM_bind. destruct (m c) as [a c1]. simpl in Hm. etrans; [exact Hm|apply Hf].
Qed.
Lemma bind_ret_state {A B} (m : CM A) (b : B) c : ((m;; mret b) c).2 = (m c).2.
Proof. unfold mbind, CM_bind. by destruct (m c). Qed.
(** [m] after the master [d] of [g] is unset, in either order. *)
Lemma safe_unset_run {A} g d (m : CM A) c :
  dg_master (c_dg c g) = Some d → keeps safe m →
  safe c ((on_dg g (set_master None);; on_ds d (set_is_master false);; m) c).2.
Proof.
  intros E Hm. etrans; [by apply (safe_unset_master c g d)|]. apply Hm.
Qed.
Lemma safe_unset_run' {A} g d (m : CM A) c :
  dg_master (c_dg c g) = Some d → keeps safe m →
  safe c ((on_ds d (set_is_master false);; on_dg g (set_master None);; m) c).2.
Proof.
  intros E Hm. etrans; [by apply (safe_unset_master c g d)|]. apply Hm.
Qed.
Lemma safe_unset g : keeps safe (unset_master me g).
Proof.
  unfold unset_master. intros c. unfold mbind at 1, CM_bind at 1. simpl.
  destruct (dg_master (c_dg c g)) as [d|] eqn:E.
  - apply bind_at; [|intros _; keeps]. apply safe_unset_run; [done|]. keeps.
  - match goal with |- safe ?c (?m ?c).2 => enough (keeps safe m) as Hm by apply Hm end. keeps.
Qed.
Lemma safe_unset_all : keeps safe (master_election_unset_all_masters me).
Proof. unfold master_election_unset_all_masters. keeps_step. apply safe_unset. Qed.
Lemma safe_offline d b : keeps safe (cluster_topology_offline_data_server me d b).
Proof.
  unfold cluster_topology_offline_data_server. keeps_step; [keeps|].
  intros c. unfold mbind at 1, CM_bind at 1. simpl.
  apply bind_at; [|intros x; destruct x; keeps].
  destruct (b && ds_is_master (c_ds c d)) eqn:E; [|done]. apply andb_prop in E as [_ E].
  intros Hc. pose proof Hc as [[_ Hm] _ _ _ _ _ _]. apply Hm in E. clear Hm.
  unfold mbind at 1 2, CM_bind at 1 2. simpl. rewrite E, decide_True by done. rewrite bind_ret_state.
  revert Hc. apply (safe_unset_run' d.1 d _ c E). keeps.
Qed.
#[local] Hint Resolve safe_offline safe_unset_all : keeps.

(** ** Servers *)
Lemma remove_entry_sub cs l x : x ∈ (remove_entry cs l).*1 → x ∈ l.*1.
Proof.
  induction l as [|e l IH]; simpl; [done|]. destruct (_ =? _); simpl; rewrite !elem_of_cons; [by right|].
  intros [?|?]; [by left|right; auto].
Qed.
Lemma remove_entry_nodup cs l : NoDup l.*1 → NoDup (remove_entry cs l).*1.
Proof.
  induction l as [|e l IH]; simpl; [done|]. intros [Hn Hl]%NoDup_cons. destruct (_ =? _); simpl; [done|].
  apply NoDup_cons. split; [|auto]. by intros ?%remove_entry_sub.
Qed.
Lemma safe_remove_inactive cs : keeps safe (cluster_relationship_remove_from_inactive_sarray cs).
Proof.
  apply safe_inactive. intros c [Hn Hi]. split; simpl; [by apply remove_entry_nodup|].
  intros s ?%remove_entry_sub. auto.
Qed.
Lemma safe_add_inactive now cs : cs ∈ CLUSTER_SERVER_ARRAY → keeps safe (cluster_relationship_add_to_inactive_sarray now cs).
Proof.
  intros Hcs c. unfold cluster_relationship_add_to_inactive_sarray, mbind, CM_bind. simpl.
  destruct (bool_decide _) eqn:E; [done|]. apply bool_decide_eq_false in E. destruct (_ <? _)%nat; [|done].
  intros Hc. pose proof (ok_inactive _ Hc) as [Hn Hi].
  revert Hc. apply (safe_inactive (set_inactive _) ). intros c' _. simpl. rewrite fmap_app. simpl. split.
  - apply NoDup_app. split_and!; [done| |apply NoDup_singleton]. by intros x Hx ->%list_elem_of_singleton.
  - intros s. rewrite elem_of_app, list_elem_of_singleton. intros [?| ->]; auto.
Qed.
Lemma safe_activate now cs : keeps safe (cluster_topology_activate_server me now cs).
Proof.
  unfold cluster_topology_activate_server, cluster_relationship_set_server_status,
    cluster_relationship_swap_server_status. pose proof (safe_remove_inactive cs). keeps.
Qed.
Lemma safe_deactivate now cs : cs ∈ CLUSTER_SERVER_ARRAY → keeps safe (cluster_topology_deactivate_server me now cs).
Proof.
  intros Hcs. unfold cluster_topology_deactivate_server, cluster_relationship_swap_server_status.
  pose proof (safe_add_inactive now cs Hcs). keeps.
Qed.
Lemma quiet_offline_slaves peer l n : keeps quiet (offline_slaves me peer l n).
Proof. revert n. induction l; intros; simpl; unfold offline_slave; keeps. Qed.
Lemma safe_offline_slaves peer : keeps safe (cluster_topology_offline_slave_data_servers me peer).
Proof.
  apply keeps_quiet_safe. unfold cluster_topology_offline_slave_data_servers.
  pose proof (quiet_offline_slaves peer). keeps.
Qed.

(** ** What the leader pushes *)
Lemma safe_master_moves c d m : d ∈ group_servers d.1 → dg_master (c_dg c d.1) = m → m ≠ Some d →
  safe c (master_change d.1 (Some d) (λ ds,
    match m with Some o => alter (set_is_master false) o | None => id end (alter (set_is_master true) d ds)) c).
Proof.
  intros Hd Em Hne. apply safe_master_change. intros [Hi Hm]. split_and!.
  - intros x Hx. destruct m as [o|]; simpl.
    + pose proof (Hi _ _ Em) as [Eo _]%elem_of_group_servers. rewrite !fn_lookup_alter_ne; congruence.
    + rewrite fn_lookup_alter_ne; congruence.
  - by intros x [= <-].
  - intros x Hx. destruct (decide (d = x)) as [->|Hdx].
    + destruct m as [o|]; simpl; [rewrite fn_lookup_alter_ne by (by intros ->)|]; by rewrite fn_lookup_alter.
    + split; [|congruence]. destruct m as [o|]; simpl.
      * destruct (decide (o = x)) as [->|]; [by rewrite fn_lookup_alter|].
        rewrite !fn_lookup_alter_ne by done. intros Hx2%Hm. congruence.
      * rewrite fn_lookup_alter_ne by done. intros Hx2%Hm. congruence.
Qed.
Lemma safe_push_entry p : pp_ds p ∈ group_servers (pp_ds p).1 → keeps safe (cluster_process_push_entry me p).
Proof.
  intros Hp c Hc. unfold cluster_process_push_entry, mbind at 1, CM_bind at 1. simpl.
  set (d := pp_ds p) in *. set (b := ds_is_master (c_ds c d)).
  match goal with |- cluster_ok ((?m ≫= ?f) c).2 => set (first := m); set (rest := f) end.
  assert (keeps core first) as Hf by (subst first; keeps).
  unfold mbind at 1, CM_bind at 1. destruct (first c) as [u c1] eqn:E1. apply (keeps_run _ _ _ _ _ Hf) in E1.
  assert (cluster_ok c1) as Hc1 by by eapply core_ok. assert (ds_is_master (c_ds c1 d) = b) as Eb by apply E1.
  clear Hf first E1 Hc. clearbody b. subst rest b. simpl. pose proof (ok_masters _ Hc1) as [_ Hm].
  destruct (Bool.eqb _ _) eqn:Ee; [done|]. apply Bool.eqb_false_iff in Ee.
  unfold mbind at 1, CM_bind at 1. simpl. destruct (pp_is_master p) eqn:Ep.
  - assert (dg_master (c_dg c1 d.1) ≠ Some d) as Hne by (intros Hx%Hm; congruence).
    rewrite decide_True by done. pose proof (safe_master_moves c1 d _ Hp eq_refl Hne Hc1) as Hs.
    revert Hs. unfold mbind, CM_bind. simpl. destruct (dg_master (c_dg c1 d.1)) as [o|]; simpl;
      (match goal with |- cluster_ok ?a → _ => set (c2 := a) end; intros Hs;
       match goal with |- context [cluster_relationship_on_master_change me ?o ?n ?x] =>
         change x with c2; pose proof (keeps_quiet_safe _ (quiet_on_master_change me o n) c2 Hs) as Hq;
         by destruct (cluster_relationship_on_master_change me o n c2) end).
  - assert (dg_master (c_dg c1 d.1) = Some d) as E by (apply Hm; by destruct (ds_is_master (c_ds c1 d))).
    rewrite E, decide_True by done. revert Hc1. apply (safe_unset_run' d.1 d _ c1 E). keeps.
Qed.
Lemma safe_leader_push parts v : keeps safe (cluster_process_leader_push me parts v).
Proof.
  unfold cluster_process_leader_push. keeps_step; [|keeps]. keeps_step.
  destruct (fs_get_data_server _ _) as [d|] eqn:E; [|keeps]. apply safe_push_entry.
  unfold fs_get_data_server in E. destruct (bool_decide (_ ∈ CLUSTER_DATA_RGOUP_ARRAY)); [|done].
  destruct (bool_decide_reflect ((pp_ds x).2 ∈ data_server_array (pp_ds x).1)); [|done].
  by apply elem_of_group_servers.
Qed.
End Thms.
