(* ===== verification/LeaderThms.v ===== *)
(** * What a server does with a leader

    The flags of the servers follow the leader pointer ([leader_ok]); only the two phases of
    the election and the loss of the leader touch the leader and the next leader; and the
    functions of the election and the handlers keep [cluster_ok]. *)
From stdpp Require Import functions.
From S2P Require Import Prelude RpcResultRing Replication Cluster Topology MasterElection Leader ClusterHandler ClusterInv ClusterThms.

Section Leaders.
Context `{ClusterConfig} `{Qsort} (me : Z).
#[local] Existing Instance safe_preorder.
#[local] Existing Instance core_preorder.

(** Nobody but the leader is flagged as the leader; a server without a leader may still have
    the hint of its last run. *)
Definition leader_ok (c : Cluster) : Prop :=
  match CLUSTER_LEADER_PTR c with
  | Some l => l ∈ CLUSTER_SERVER_ARRAY ∧ ∀ s, cs_is_leader (c_cs c s) = bool_decide (s = l)
  | None => ∀ s, s ≠ me → cs_is_leader (c_cs c s) = false
  end.

(** ** The functions that do not touch the leader *)
Record same_leader (c c' : Cluster) : Prop := {
  s_leader : CLUSTER_LEADER_PTR c' = CLUSTER_LEADER_PTR c;
  s_next : rc_next_leader (c_relationship c') = rc_next_leader (c_relationship c);
  s_is_leader s : cs_is_leader (c_cs c' s) = cs_is_leader (c_cs c s);
}.
#[local] Instance same_leader_preorder : PreOrder same_leader.
Proof. split; [by intros c; split|]. intros c1 c2 c3 [] []. split; intros; congruence. Qed.
Lemma same_leader_ok c c' : same_leader c c' → leader_ok c → leader_ok c'.
Proof.
  intros [E _ Hs]. unfold leader_ok. rewrite E. destruct (CLUSTER_LEADER_PTR c).
  - intros [? Hl]. split; [done|]. intros s. by rewrite Hs.
  - intros Hl s ?. rewrite Hs. auto.
Qed.
Lemma keeps_quiet_leader {A} (m : CM A) : keeps quiet m → keeps same_leader m.
Proof. intros Hm c. destruct (Hm c). by split. Qed.
Lemma leader_on_cs s f : (∀ x, cs_is_leader (f x) = cs_is_leader x) → keeps same_leader (on_cs s f).
Proof. intros Hf c. split; simpl; try done. intros. by apply alter_proj. Qed.
Lemma leader_on_ds d f : keeps same_leader (on_ds d f).
Proof. by intros c; split. Qed.
Lemma leader_on_dg g f : keeps same_leader (on_dg g f).
Proof. by intros c; split. Qed.
Lemma leader_put_version v : keeps same_leader (put_version v).
Proof. by intros c; split. Qed.
Lemma leader_put_election e : keeps same_leader (put_election e).
Proof. by intros c; split. Qed.
Lemma leader_on_relationship f :
  (∀ r, rc_next_leader (f r) = rc_next_leader r) → keeps same_leader (on_relationship f).
Proof. intros Hf c; split; simpl; auto. Qed.
#[local] Hint Resolve leader_on_ds leader_on_dg leader_put_version leader_put_election : keeps.
#[local] Hint Extern 3 (keeps same_leader (on_cs _ _)) => (by apply leader_on_cs) : keeps.
#[local] Hint Extern 3 (keeps same_leader (on_relationship _)) => (by apply leader_on_relationship) : keeps.
#[local] Hint Extern 5 (keeps same_leader _) => (apply keeps_quiet_leader; solve [eauto with keeps]) : keeps.

Lemma leader_set_cs_status now s st : keeps same_leader (cluster_relationship_set_server_status now s st).
Proof. unfold cluster_relationship_set_server_status, cluster_relationship_swap_server_status. keeps. Qed.
#[local] Hint Resolve leader_set_cs_status : keeps.
Lemma leader_queue_push g : keeps same_leader (master_election_queue_push g).
Proof. unfold master_election_queue_push, master_election_thread_start, on_election. keeps. Qed.
Lemma leader_push_delay g : keeps same_leader (master_election_push_to_delay_queue g).
Proof. unfold master_election_push_to_delay_queue, on_election. keeps. Qed.
#[local] Hint Resolve leader_queue_push leader_push_delay : keeps.
Lemma leader_offline d b : keeps same_leader (cluster_topology_offline_data_server me d b).
Proof. unfold cluster_topology_offline_data_server. keeps. Qed.
Lemma leader_unset_all : keeps same_leader (master_election_unset_all_masters me).
Proof. unfold master_election_unset_all_masters, unset_master. keeps. Qed.
#[local] Hint Resolve leader_offline leader_unset_all : keeps.
Lemma leader_become now : keeps same_leader (become_leader me now).
Proof.
  unfold become_leader, cluster_relationship_deactivate_all_servers, init_inactive_server_array,
    cluster_topology_offline_all_data_servers. keeps.
Qed.
Lemma leader_select_turn now now_ms : keeps same_leader (select_master_turn me now now_ms).
Proof. unfold select_master_turn, master_election_select_master, select_master, start_election. keeps. Qed.

(** ** The leader is set and unset *)
Lemma clear_old_leader_run l c :
  let c' := (cluster_relationship_clear_old_leader l c).2 in
  CLUSTER_LEADER_PTR c' = CLUSTER_LEADER_PTR c ∧
  rc_next_leader (c_relationship c') = rc_next_leader (c_relationship c) ∧
  (∀ s, cs_is_leader (c_cs c s) = false → cs_is_leader (c_cs c' s) = false) ∧
  (∀ s, s ∈ CLUSTER_SERVER_ARRAY → s ≠ l → cs_is_leader (c_cs c' s) = false) ∧
  cs_is_leader (c_cs c' l) = cs_is_leader (c_cs c l).
Proof.
  unfold cluster_relationship_clear_old_leader. revert c. induction CLUSTER_SERVER_ARRAY as [|x L IH]; intros c; simpl.
  - split_and!; try done. intros s Hs. by apply not_elem_of_nil in Hs.
  - unfold mbind, CM_bind. simpl. destruct (Z.eqb_spec x l) as [->|Hx]; simpl.
    + destruct (IH c) as (-> & -> & H1 & H2 & ->). split_and!; try done.
      intros s [->|Hs]%elem_of_cons Hsl; [done|auto].
    + set (c1 := mkCluster _ _ _ _ _ _ _). destruct (IH c1) as (-> & -> & H1 & H2 & ->).
      assert (∀ s, s ≠ x → cs_is_leader (c_cs c1 s) = cs_is_leader (c_cs c s)) as E1
        by (intros s ?; subst c1; simpl; by rewrite fn_lookup_alter_ne).
      assert (cs_is_leader (c_cs c1 x) = false) as E2 by (subst c1; simpl; by rewrite fn_lookup_alter).
      split_and!; try done.
      * intros s Hs. apply H1. destruct (decide (s = x)) as [->|]; [done|by rewrite E1].
      * intros s [->|Hs]%elem_of_cons Hsl; auto.
      * by rewrite E1.
Qed.
(** The first half: the flag of the new leader is set. *)
Lemma flag_leader_run now l c c' u :
  flag_leader me now (CLUSTER_LEADER_PTR c) l c = (u, c') →
  CLUSTER_LEADER_PTR c' = CLUSTER_LEADER_PTR c ∧
  rc_next_leader (c_relationship c') = rc_next_leader (c_relationship c) ∧
  cs_is_leader (c_cs c' l) = true ∧
  (l ≠ me → cs_is_leader (c_cs c' me) = false) ∧
  ∀ s, s ≠ l → s ≠ me → cs_is_leader (c_cs c' s) = cs_is_leader (c_cs c s).
Proof.
  intros E. assert (c' = (flag_leader me now (CLUSTER_LEADER_PTR c) l c).2) as -> by by rewrite E.
  unfold flag_leader, mbind, CM_bind. clear E.
  assert (∀ s, s ≠ l → cs_is_leader (c_cs (on_cs l (set_is_leader true) c).2 s) = cs_is_leader (c_cs c s)) as H1
    by (intros s ?; simpl; by rewrite fn_lookup_alter_ne).
  assert (cs_is_leader (c_cs (on_cs l (set_is_leader true) c).2 l) = true) as H2 by (simpl; by rewrite fn_lookup_alter).
  change (on_cs l (set_is_leader true) c) with (tt, (on_cs l (set_is_leader true) c).2). cbv iota beta.
  set (c1 := (on_cs l (set_is_leader true) c).2) in *.
  assert (CLUSTER_LEADER_PTR c1 = CLUSTER_LEADER_PTR c) as H3 by done.
  assert (rc_next_leader (c_relationship c1) = rc_next_leader (c_relationship c)) as H4 by done. clearbody c1.
  destruct (Z.eqb_spec l me) as [->|Hl].
  - destruct (decide _).
    + destruct (leader_become now c1) as [-> -> Hs]. rewrite Hs. split_and!; try done. intros s ? ?. by rewrite Hs, H1.
    + split_and!; try done. intros. auto.
  - simpl. split_and!; try done.
    + by rewrite fn_lookup_alter_ne.
    + intros _. by rewrite fn_lookup_alter.
    + intros s ? ?. rewrite fn_lookup_alter_ne by done. auto.
Qed.
Lemma leader_ok_others c l s : leader_ok c → s ∉ CLUSTER_SERVER_ARRAY → l ∈ CLUSTER_SERVER_ARRAY → me ∈ CLUSTER_SERVER_ARRAY →
  cs_is_leader (c_cs c s) = false.
Proof.
  unfold leader_ok. intros Hc Hs Hl Hm. destruct (CLUSTER_LEADER_PTR c).
  - destruct Hc as [? ->]. apply bool_decide_eq_false. by intros ->.
  - apply Hc. by intros ->.
Qed.
(** The second half, when the leader changes. *)
Lemma change_leader_run l c c' u old :
  change_leader me old l c = (u, c') → old ≠ Some l →
  CLUSTER_LEADER_PTR c' = Some l ∧
  rc_next_leader (c_relationship c') = rc_next_leader (c_relationship c) ∧
  cs_is_leader (c_cs c' l) = cs_is_leader (c_cs c l) ∧
  (∀ s, cs_is_leader (c_cs c s) = false → cs_is_leader (c_cs c' s) = false) ∧
  (∀ s, s ∈ CLUSTER_SERVER_ARRAY → s ≠ l → cs_is_leader (c_cs c' s) = false).
Proof.
  unfold change_leader. intros E Hne. rewrite decide_True in E by done. revert E.
  unfold mbind at 1 2, CM_bind at 1 2. simpl. set (c3 := mkCluster _ _ _ (Some l) _ _ _).
  pose proof (clear_old_leader_run l c3) as Hr. cbv zeta in Hr.
  destruct (cluster_relationship_clear_old_leader l c3) as [u3 c4]. simpl in Hr. destruct Hr as (R1 & R2 & R3 & R4 & R5).
  assert (keeps same_leader (if l =? me then master_election_unset_all_masters me else mret tt)) as Hk by keeps.
  specialize (Hk c4). intros E. rewrite E in Hk. destruct Hk as [K1 K2 Hs]. simpl in K1, K2, Hs.
  split_and!; [by rewrite K1|by rewrite K2|by rewrite Hs| |]; intros s; rewrite Hs; auto.
Qed.
Lemma set_leader_run now l c r c' :
  cluster_relationship_set_leader me now l c = (r, c') →
  leader_ok c → me ∈ CLUSTER_SERVER_ARRAY → l ∈ CLUSTER_SERVER_ARRAY →
  r = 0 ∧ leader_ok c' ∧ CLUSTER_LEADER_PTR c' = Some l ∧
  rc_next_leader (c_relationship c') = rc_next_leader (c_relationship c).
Proof.
  unfold cluster_relationship_set_leader, mbind, CM_bind. simpl.
  destruct (flag_leader me now (CLUSTER_LEADER_PTR c) l c) as [u c2] eqn:E.
  apply flag_leader_run in E as (H1 & H2 & H3 & H4 & H5).
  destruct (change_leader me (CLUSTER_LEADER_PTR c) l c2) as [u3 c4] eqn:E4.
  intros [= <- <-] Hc Hm Hl. split; [done|]. unfold leader_ok. simpl.
  destruct (decide (CLUSTER_LEADER_PTR c = Some l)) as [He|Hne].
  - unfold change_leader in E4. rewrite decide_False in E4 by (intros ?; done). injection E4 as <- <-.
    rewrite H1, He. split_and!; try done. intros s. unfold leader_ok in Hc. rewrite He in Hc. destruct Hc as [_ Hc].
    destruct (decide (s = l)) as [->|Hs]; [by rewrite bool_decide_eq_true_2|]. rewrite bool_decide_eq_false_2 by done.
    destruct (decide (s = me)) as [->|]; [apply H4; by intros ->|]. by rewrite H5, Hc, bool_decide_eq_false_2.
  - apply change_leader_run in E4 as (R1 & R2 & R3 & R4 & R5); [|done]. rewrite R1. split_and!; try done.
    + intros s. destruct (decide (s = l)) as [->|Hs]; [by rewrite R3, bool_decide_eq_true_2|].
      rewrite bool_decide_eq_false_2 by done. destruct (decide (s ∈ CLUSTER_SERVER_ARRAY)); [auto|].
      apply R4. rewrite H5; [by eapply leader_ok_others|done|by intros ->].
    + congruence.
Qed.
Lemma unset_leader_run c : leader_ok c →
  let c' := (cluster_unset_leader c).2 in
  leader_ok c' ∧ CLUSTER_LEADER_PTR c' = None ∧ rc_next_leader (c_relationship c') = rc_next_leader (c_relationship c).
Proof.
  unfold cluster_unset_leader, mbind, CM_bind, leader_ok. simpl.
  destruct (CLUSTER_LEADER_PTR c) as [l|] eqn:E; simpl; [|by rewrite E]. intros [_ Hs]. split_and!; [|done..].
  intros s Hs'. destruct (decide (l = s)) as [->|]; [by rewrite fn_lookup_alter|].
  rewrite fn_lookup_alter_ne by done. by rewrite Hs, bool_decide_eq_false_2.
Qed.

(** ** The two phases at a server *)
Definition next_leader (c : Cluster) : option Z := rc_next_leader (c_relationship c).
Lemma pre_set_leader_run l c r c' :
  cluster_relationship_pre_set_leader l c = (r, c') →
  (leader_ok c → leader_ok c') ∧ CLUSTER_LEADER_PTR c' = CLUSTER_LEADER_PTR c ∧
  (r = 0 ∧ (next_leader c = None ∨ next_leader c = Some l) ∧ next_leader c' = Some l ∨
   r = EEXIST ∧ (∃ n, next_leader c = Some n ∧ n ≠ l) ∧ next_leader c' = None).
Proof.
  unfold cluster_relationship_pre_set_leader, mbind, CM_bind, next_leader. simpl.
  destruct (rc_next_leader (c_relationship c)) as [n|] eqn:E; simpl; [|intros [= <- <-]; by intuition].
  destruct (Z.eqb_spec n l) as [->|Hn]; simpl; intros [= <- <-]; (split_and!; [done..|]); [left; auto|right].
  split_and!; [done| |done]. by exists n.
Qed.
Lemma commit_leader_run now l c r c' :
  cluster_relationship_commit_leader me now l c = (r, c') →
  leader_ok c → me ∈ CLUSTER_SERVER_ARRAY → l ∈ CLUSTER_SERVER_ARRAY →
  leader_ok c' ∧ next_leader c' = None ∧
  (r = 0 ∧ next_leader c = Some l ∧ CLUSTER_LEADER_PTR c' = Some l ∨
   r = EBUSY ∧ next_leader c ≠ Some l ∧ CLUSTER_LEADER_PTR c' = CLUSTER_LEADER_PTR c).
Proof.
  unfold cluster_relationship_commit_leader, mbind, CM_bind, next_leader. simpl. intros Hr Hc Hm Hl. revert Hr.
  destruct (rc_next_leader (c_relationship c)) as [n|] eqn:E; simpl; [|intros [= <- <-]; split_and!; [done|congruence|]; right; split_and!; congruence].
  destruct (Z.eqb_spec n l) as [->|Hn]; simpl.
  - destruct (cluster_relationship_set_leader me now l c) as [r1 c1] eqn:E1.
    apply set_leader_run in E1 as (-> & H1 & H2 & _); [|done..]. intros [= <- <-].
    split_and!; [exact H1|done|by left].
  - intros [= <- <-]. split_and!; [exact Hc|done|]. right. split_and!; [done|congruence|done].
Qed.
Lemma deal_next_leader_run now cmd l c r c' :
  cluster_deal_next_leader me now cmd l c = (r, c') →
  leader_ok c → me ∈ CLUSTER_SERVER_ARRAY →
  leader_ok c' ∧
  (r ≠ 0 ∧ (next_leader c' = next_leader c ∨ next_leader c' = None) ∨
   r = 0 ∧ l ∈ CLUSTER_SERVER_ARRAY ∧ next_leader_cmd me now cmd l c = (r, c')).
Proof.
  unfold cluster_deal_next_leader. intros Hr Hc Hm. revert Hr. unfold mbind at 1, CM_bind at 1. simpl.
  destruct (am_leader me c).
  - destruct (unset_leader_run c Hc) as (H1 & H2 & H3). unfold mbind, CM_bind.
    destruct (cluster_unset_leader c) as [u c1]. intros [= <- <-]. simpl in H1, H3. auto.
  - unfold fs_get_server_by_id. case_bool_decide as Hl; [|intros [= <- <-]; auto].
    destruct cmd; simpl; intros E; pose proof E as E'.
    + apply pre_set_leader_run in E as (H1 & H2 & [(-> & H3)|(-> & _ & H3)]); auto.
    + apply commit_leader_run in E as (H1 & H2 & [(-> & H3)|(-> & H3)]); auto.
Qed.

(** ** The functions of the election and the handlers keep [cluster_ok] *)
#[local] Hint Resolve core_set_cs_status core_set_last_ping core_set_leader_version core_set_task
  core_set_ds_version core_set_election core_put_version core_set_next_leader core_set_leader_election core_put_running : keeps.
#[local] Hint Extern 5 (keeps core _) => (apply keeps_quiet_core; solve [eauto with keeps]) : keeps.
#[local] Hint Resolve safe_offline safe_unset_all safe_queue_push safe_push_delay : keeps.
#[local] Hint Extern 5 (keeps safe _) => (apply keeps_core_safe; solve [eauto with keeps]) : keeps.
Lemma core_set_is_leader s b : keeps core (on_cs s (set_is_leader b)).
Proof. by apply core_on_cs. Qed.
Lemma core_put_leader l : keeps core (put_leader l).
Proof. by intros c; split. Qed.
#[local] Hint Resolve core_set_is_leader core_put_leader : keeps.
Lemma safe_init_inactive now : NoDup CLUSTER_SERVER_ARRAY → keeps safe (init_inactive_server_array me now).
Proof.
  intros Hn. apply safe_inactive. intros c _. simpl.
  rewrite <- list_fmap_compose. change (fst ∘ inactive_entry now) with (@id Z). rewrite list_fmap_id. split.
  - by apply NoDup_filter.
  - intros s [_ ?]%list_elem_of_filter. done.
Qed.
Lemma safe_set_leader now l : NoDup CLUSTER_SERVER_ARRAY → keeps safe (cluster_relationship_set_leader me now l).
Proof.
  intros Hn. unfold cluster_relationship_set_leader, flag_leader, change_leader, become_leader,
    cluster_relationship_deactivate_all_servers, cluster_relationship_clear_old_leader,
    cluster_topology_offline_all_data_servers, cluster_relationship_set_server_status,
    cluster_relationship_swap_server_status. pose proof (safe_init_inactive now Hn). keeps.
Qed.
Lemma core_unset_leader : keeps core cluster_unset_leader.
Proof. unfold cluster_unset_leader. keeps. Qed.
#[local] Hint Resolve core_unset_leader safe_set_leader : keeps.
Lemma safe_deal_next_leader now cmd l : NoDup CLUSTER_SERVER_ARRAY → keeps safe (cluster_deal_next_leader me now cmd l).
Proof.
  intros Hn. unfold cluster_deal_next_leader, next_leader_cmd, cluster_relationship_pre_set_leader,
    cluster_relationship_commit_leader. keeps.
Qed.
Lemma safe_get_server_status up down force id b :
  keeps safe (cluster_deal_get_server_status me up down force id b).
Proof. unfold cluster_deal_get_server_status. keeps. Qed.

Variables not_leader inconsistent : Z.
Lemma safe_join now task peer id : keeps safe (cluster_deal_join_leader me now not_leader task peer id).
Proof.
  unfold cluster_deal_join_leader, cluster_relationship_set_server_status, cluster_relationship_swap_server_status. keeps.
Qed.
Lemma core_ping_parts peer parts n : keeps core (process_ping_parts me peer parts n).
Proof.
  revert n. induction parts as [|[[? ?] ?] parts IH]; intros n; simpl;
    unfold set_ds_status_and_data_version, cluster_relationship_set_ds_status_and_dv; keeps.
Qed.
#[local] Hint Resolve core_ping_parts : keeps.
Lemma core_ping now peer v parts : keeps core (cluster_deal_ping_leader me now not_leader inconsistent peer v parts).
Proof. unfold cluster_deal_ping_leader, process_ping_leader_req, add_version. keeps. Qed.
#[local] Hint Resolve core_ping safe_activate safe_deactivate : keeps.
Lemma safe_active now peer v parts : keeps safe (cluster_deal_active_server me now not_leader inconsistent peer v parts).
Proof. unfold cluster_deal_active_server. keeps. Qed.
Lemma safe_report_status mine ds g st : keeps safe (cluster_deal_report_ds_status me mine ds g st).
Proof. unfold cluster_deal_report_ds_status, report_by_master, add_version. keeps. Qed.
Lemma safe_cleanup now task peer : peer ∈ CLUSTER_SERVER_ARRAY → keeps safe (cluster_task_finish_cleanup me now task peer).
Proof. intros Hp. unfold cluster_task_finish_cleanup. keeps. Qed.
Lemma safe_check_inactive now answers l : keeps safe (check_inactive now answers l).
Proof.
  induction l as [|[cs t] l IH]; simpl; [keeps|]. unfold do_check_brainsplit, cluster_relationship_swap_server_status.
  assert (keeps safe (on_relationship (λ r, set_inactive
    ((λ e : Z * Z, if e.1 =? cs then (cs, now + 1) else e) <$> rc_inactive r) r))) as Hs.
  { apply safe_inactive. intros c. simpl. rewrite <- list_fmap_compose.
    rewrite (list_fmap_ext _ fst); [done|]. intros i [x y] _. simpl. by destruct (Z.eqb_spec x cs) as [->|]. }
  keeps.
Qed.
Lemma safe_leader_check now answers : keeps safe (leader_check me now answers).
Proof.
  unfold leader_check, leader_deal_data_version_changes.
  pose proof (safe_check_inactive now answers). pose proof safe_deal_delay_queue. keeps.
Qed.
Lemma core_pack_versions b l : keeps core (pack_changed_data_versions b l).
Proof. induction l; simpl; keeps. Qed.
End Leaders.
