(* ===== verification/LeaderElection.v ===== *)
(** * Agreement on a leader

    All the servers of the cluster and the candidates that run [cluster_notify_leader_changed]
    concurrently; a step is one request of a candidate, with the handler at the server and the
    reply, or anything else a server does. A request or a reply may be lost (the candidate gets
    an error); what the theorem does not cover are refused connections, which the candidate
    passes over. *)
From stdpp Require Import functions.
From S2P Require Import Prelude RpcResultRing Replication Cluster Topology MasterElection Leader ClusterHandler ClusterInv ClusterThms LeaderThms.

Section System.
Context `{ClusterConfig} `{Qsort}.

(** The state of every server, what every server is doing as a candidate, and for the
    statement the leaders committed at every server so far. *)
Record Election := mkElection {
  es_server : Z → Cluster;
  es_notify : Z → option Notifying;
  es_commits : Z → list Z;
}.
(** A request of the candidate [r] that [s] has processed with result [res]. *)
Definition processed (cmd : NextLeaderCmd) (r s res : Z) (c' : Cluster) (reply : Reply) (e : Election) (n : Notifying) : Election :=
  mkElection (<[s := c']> (es_server e)) (<[r := Some (notify_turn CLUSTER_SERVER_ARRAY reply n)]> (es_notify e))
    (match cmd with
     | FS_CLUSTER_PROTO_COMMIT_NEXT_LEADER =>
         if res =? 0 then <[s := es_commits e s ++ [r]]> (es_commits e) else es_commits e
     | FS_CLUSTER_PROTO_PRE_SET_NEXT_LEADER => es_commits e
     end).
Definition notify_done (n : option Notifying) : Prop :=
  match n with None | Some (NotifyReturned _) => True | _ => False end.
Inductive election_step : Election → Election → Prop :=
  | step_start e r :
      notify_done (es_notify e r) →
      election_step e (mkElection (es_server e) (<[r := Some (notify_start CLUSTER_SERVER_ARRAY)]> (es_notify e)) (es_commits e))
  | step_own e r now cmd l res count flag res' c' :
      es_notify e r = Some (InPhase cmd (r :: l) res count flag) →
      next_leader_cmd r now cmd r (es_server e r) = (res', c') →
      election_step e (processed cmd r r res' c' (OwnCall res') e (InPhase cmd (r :: l) res count flag))
  | step_request e r s now cmd l res count flag res' c' answer :
      s ≠ r →
      es_notify e r = Some (InPhase cmd (s :: l) res count flag) →
      cluster_deal_next_leader s now cmd r (es_server e s) = (res', c') →
      answer = res' ∨ answer ≠ 0 →
      election_step e (processed cmd r s res' c' (Answered answer) e (InPhase cmd (s :: l) res count flag))
  | step_request_lost e r s cmd l res count flag answer :
      s ≠ r →
      es_notify e r = Some (InPhase cmd (s :: l) res count flag) →
      answer ≠ 0 →
      election_step e (mkElection (es_server e)
        (<[r := Some (notify_turn CLUSTER_SERVER_ARRAY (Answered answer) (InPhase cmd (s :: l) res count flag))]> (es_notify e))
        (es_commits e))
  | step_other e s c' :
      next_leader c' = next_leader (es_server e s) → leader_ok s c' →
      election_step e (mkElection (<[s := c']> (es_server e)) (es_notify e) (es_commits e)).
(** No candidate is at work at the start; the next leaders may be left from before. *)
Definition election_init (e : Election) : Prop :=
  (∀ r, es_notify e r = None) ∧ ∀ s, leader_ok s (es_server e s).
Inductive election_reachable : Election → Prop :=
  | reachable_init e : election_init e → election_reachable e
  | reachable_step e e' : election_reachable e → election_step e e' → election_reachable e'.

(** ** The invariant *)

(** A candidate cannot succeed any more: a server it has still to commit has another next
    leader. *)
Definition doomed (e : Election) (r : Z) (rest : list Z) : Prop :=
  ∃ u, u ∈ rest ∧ next_leader (es_server e u) ≠ Some r.
Definition committing (e : Election) (r : Z) (done rest : list Z) : Prop :=
  CLUSTER_SERVER_ARRAY = done ++ rest ∧ rest ≠ [] ∧
  ∃ res count flag, es_notify e r = Some (InPhase FS_CLUSTER_PROTO_COMMIT_NEXT_LEADER rest res count flag).
Record election_inv (e : Election) : Prop := {
  (* the candidates are where the loops can be; no connection has failed *)
  v_phase r cmd rest res count flag : es_notify e r = Some (InPhase cmd rest res count flag) →
    rest ≠ [] ∧ flag ≠ Some true ∧ 0 <= count ∧ ∃ done, CLUSTER_SERVER_ARRAY = done ++ rest;
  v_leader s : leader_ok s (es_server e s);
  (* what a candidate that can still succeed has committed is the last that was committed *)
  v_commits r done rest t : committing e r done rest → ¬ doomed e r rest → t ∈ done →
    last (es_commits e t) = Some r;
  (* and no other candidate in the second phase holds a server it has committed *)
  v_locks r r' done rest done' rest' t : committing e r done rest → ¬ doomed e r rest →
    committing e r' done' rest' → r' ≠ r → t ∈ done → next_leader (es_server e t) ≠ Some r';
}.

Lemma election_init_inv e : CLUSTER_SERVER_ARRAY ≠ [] → election_init e → election_inv e.
Proof.
  intros Hne [Hn Hl]. split; [|done|..].
  - intros r *. by rewrite Hn.
  - intros r done rest t (_ & _ & ? & ? & ? & E). by rewrite Hn in E.
  - intros r r' done rest done' rest' t (_ & _ & ? & ? & ? & E). by rewrite Hn in E.
Qed.

(** What a turn of the loop makes of a candidate, without failing connections. *)
Lemma notify_turn_cases cmd s l res count flag reply :
  flag ≠ Some true → 0 <= count → (∀ x, reply ≠ ConnectFailed x) →
  let n := notify_turn CLUSTER_SERVER_ARRAY reply (InPhase cmd (s :: l) res count flag) in
  (* an error *)
  (n = NotifyUndefined ∨ ∃ x, n = NotifyReturned x ∧ x ≠ 0) ∨
  (* success *)
  (reply = Answered 0 ∨ reply = OwnCall 0) ∧
  ∃ flag', flag' ≠ Some true ∧
  match l with
  | _ :: _ => n = InPhase cmd l 0 (count + 1) flag'
  | [] =>
      match cmd with
      | FS_CLUSTER_PROTO_PRE_SET_NEXT_LEADER =>
          n = InPhase FS_CLUSTER_PROTO_COMMIT_NEXT_LEADER CLUSTER_SERVER_ARRAY ENOENT 0 flag'
      | FS_CLUSTER_PROTO_COMMIT_NEXT_LEADER => n = NotifyReturned 0
      end
  end.
Proof.
  intros Hf Hc Hr. simpl. destruct reply as [x|x|x]; [by destruct (Hr x)|..];
    destruct (Z.eqb_spec x 0) as [->|Hx]; simpl.
  - right. split; [by left|]. exists (Some false). split; [done|]. destruct l; [|done].
    unfold end_of_phase. destruct (Z.eqb_spec (count + 1) 0); [lia|]. by destruct cmd.
  - left. right. by exists x.
  - right. split; [by right|]. exists flag. split; [done|]. destruct l; [|done].
    unfold end_of_phase. destruct (Z.eqb_spec (count + 1) 0); [lia|]. by destruct cmd.
  - left. destruct flag as [[]|]; [done|right; by exists x|by left].
Qed.

(** ** What a step does to the next leaders and the commits *)

(** At the server [s], for a request of [r]. *)
Inductive effect (cmd : NextLeaderCmd) (r s : Z) (e e' : Election) : Prop :=
  | effect_none :
      next_leader (es_server e' s) = next_leader (es_server e s) ∨ next_leader (es_server e' s) = None →
      es_commits e' s = es_commits e s → effect cmd r s e e'
  | effect_pre_set :
      cmd = FS_CLUSTER_PROTO_PRE_SET_NEXT_LEADER → next_leader (es_server e' s) = Some r →
      es_commits e' s = es_commits e s → effect cmd r s e e'
  | effect_commit :
      cmd = FS_CLUSTER_PROTO_COMMIT_NEXT_LEADER → next_leader (es_server e s) = Some r →
      next_leader (es_server e' s) = None → es_commits e' s = es_commits e s ++ [r] → effect cmd r s e e'.
(** The turn of a candidate: an error, or success with the effect that belongs to it. *)
Record turn (r : Z) (cmd : NextLeaderCmd) (s : Z) (l : list Z) (e e' : Election) : Prop := {
  t_others u : u ≠ s → next_leader (es_server e' u) = next_leader (es_server e u) ∧ es_commits e' u = es_commits e u;
  t_notify a : a ≠ r → es_notify e' a = es_notify e a;
  t_effect : effect cmd r s e e';
  t_result :
    (∀ cmd rest res count flag, es_notify e' r ≠ Some (InPhase cmd rest res count flag)) ∧ es_notify e' r ≠ Some (NotifyReturned 0) ∨
    (match cmd with
     | FS_CLUSTER_PROTO_PRE_SET_NEXT_LEADER => next_leader (es_server e' s) = Some r
     | FS_CLUSTER_PROTO_COMMIT_NEXT_LEADER => next_leader (es_server e s) = Some r ∧ es_commits e' s = es_commits e s ++ [r]
     end ∧
     match l, cmd with
     | _ :: _, _ => ∃ count flag, es_notify e' r = Some (InPhase cmd l 0 count flag) ∧ flag ≠ Some true ∧ 0 <= count
     | [], FS_CLUSTER_PROTO_PRE_SET_NEXT_LEADER =>
         ∃ flag, es_notify e' r = Some (InPhase FS_CLUSTER_PROTO_COMMIT_NEXT_LEADER CLUSTER_SERVER_ARRAY ENOENT 0 flag) ∧ flag ≠ Some true
     | [], FS_CLUSTER_PROTO_COMMIT_NEXT_LEADER => es_notify e' r = Some (NotifyReturned 0)
     end);
}.
(** The turn, when the server processed the request. *)
Lemma processed_turn cmd r s now l res count flag res' c' reply e :
  election_inv e → es_notify e r = Some (InPhase cmd (s :: l) res count flag) →
  leader_ok s c' →
  (res' ≠ 0 ∧ (next_leader c' = next_leader (es_server e s) ∨ next_leader c' = None) ∨
   res' = 0 ∧ r ∈ CLUSTER_SERVER_ARRAY ∧ next_leader_cmd s now cmd r (es_server e s) = (res', c')) →
  (∀ x, reply ≠ ConnectFailed x) → (reply = Answered 0 ∨ reply = OwnCall 0 → res' = 0) →
  turn r cmd s l e (processed cmd r s res' c' reply e (InPhase cmd (s :: l) res count flag)).
Proof.
  intros Hi Hn Hl Hres Hr Hzero. destruct (v_phase _ Hi _ _ _ _ _ _ Hn) as (_ & Hf & Hc & done & Ha).
  assert (s ∈ CLUSTER_SERVER_ARRAY) as Hs by (rewrite Ha, elem_of_app; right; by left).
  set (e' := processed _ _ _ _ _ _ _ _).
  assert (next_leader (es_server e' s) = next_leader c') as En by (simpl; by rewrite fn_lookup_insert).
  assert (res' = 0 → match cmd with
    | FS_CLUSTER_PROTO_PRE_SET_NEXT_LEADER => next_leader (es_server e' s) = Some r ∧ es_commits e' s = es_commits e s
    | FS_CLUSTER_PROTO_COMMIT_NEXT_LEADER => next_leader (es_server e s) = Some r ∧ next_leader (es_server e' s) = None ∧
        es_commits e' s = es_commits e s ++ [r] end) as Hok.
  { intros ->. destruct Hres as [[? _]|(_ & Hra & Hcmd)]; [done|]. rewrite En. destruct cmd; simpl in Hcmd.
    - destruct (pre_set_leader_run s _ _ _ _ Hcmd) as (_ & _ & [(_ & _ & ?)|(? & _)]); [done|discriminate].
    - apply commit_leader_run in Hcmd as (_ & ? & [(_ & ? & _)|(? & _)]); [|discriminate|apply Hi|done|done].
      split_and!; [done..|]. simpl. by rewrite fn_lookup_insert. }
  split.
  - intros u Hu. simpl. rewrite fn_lookup_insert_ne by done. split; [done|]. destruct cmd; [done|].
    destruct (_ =? 0); [by rewrite fn_lookup_insert_ne|done].
  - intros a Ha'. simpl. by rewrite fn_lookup_insert_ne.
  - destruct (decide (res' = 0)) as [E0|Hne].
    + destruct cmd; destruct (Hok E0); [by apply effect_pre_set|]. apply effect_commit; tauto.
    + apply effect_none; [rewrite En; destruct Hres as [[_ ?]|[? _]]; done|]. simpl. destruct cmd; [done|].
      by destruct (Z.eqb_spec res' 0).
  - assert (es_notify e' r = Some (notify_turn CLUSTER_SERVER_ARRAY reply (InPhase cmd (s :: l) res count flag))) as Er
      by (subst e'; unfold processed; cbn [es_notify]; by rewrite fn_lookup_insert). clearbody e'.
    destruct (notify_turn_cases cmd s l res count flag reply Hf Hc Hr) as [Hfail|(Hrep & flag' & Hf' & Hn')].
    + left. rewrite Er. destruct Hfail as [->|(x & -> & Hx)]; split; congruence.
    + right. specialize (Hok (Hzero Hrep)). split; [by destruct cmd; intuition|].
      rewrite Er. destruct l; [destruct cmd|]; [by exists flag'; rewrite Hn'|by rewrite Hn'|].
      exists (count + 1), flag'. rewrite Hn'. split_and!; [done..|lia].
Qed.
Lemma lost_turn cmd r s l res count flag answer e :
  election_inv e → es_notify e r = Some (InPhase cmd (s :: l) res count flag) → answer ≠ 0 →
  turn r cmd s l e (mkElection (es_server e)
    (<[r := Some (notify_turn CLUSTER_SERVER_ARRAY (Answered answer) (InPhase cmd (s :: l) res count flag))]> (es_notify e))
    (es_commits e)).
Proof.
  intros Hi Hn Ha. destruct (v_phase _ Hi _ _ _ _ _ _ Hn) as (_ & Hf & Hc & _). split.
  - done.
  - intros a Hne. simpl. by rewrite fn_lookup_insert_ne.
  - apply effect_none; [by left|done].
  - left. cbn [es_notify]. rewrite fn_lookup_insert.
    destruct (notify_turn_cases cmd s l res count flag (Answered answer) Hf Hc) as [[->|(x & -> & ?)]|([?|?] & _)]; [done|split; congruence..].
Qed.

(** ** The invariant is kept *)
Hypothesis servers_nodup : NoDup CLUSTER_SERVER_ARRAY.

Lemma committing_other e e' a done rest :
  es_notify e' a = es_notify e a → committing e' a done rest → committing e a done rest.
Proof. unfold committing. by intros ->. Qed.
Lemma effect_next cmd r s e e' : effect cmd r s e e' →
  next_leader (es_server e' s) = next_leader (es_server e s) ∨ next_leader (es_server e' s) = None ∨
  next_leader (es_server e' s) = Some r.
Proof. intros []; tauto. Qed.
Lemma turn_next r cmd s l e e' u : turn r cmd s l e e' →
  next_leader (es_server e' u) = next_leader (es_server e u) ∨ next_leader (es_server e' u) = None ∨
  next_leader (es_server e' u) = Some r.
Proof.
  intros Ht. destruct (decide (u = s)) as [->|Hu]; [eapply effect_next; apply Ht|]. left. by apply Ht.
Qed.
(** Another candidate stays doomed. *)
Lemma turn_doomed r cmd s l e e' a rest : turn r cmd s l e e' → a ≠ r → doomed e a rest → doomed e' a rest.
Proof.
  intros Ht Ha (u & Hu & Hn). exists u. split; [done|].
  destruct (turn_next _ _ _ _ _ _ u Ht) as [->|[->| ->]]; congruence.
Qed.
(** A candidate in the second phase after its own turn: it has just entered it, or it has
    committed one server more. *)
Lemma turn_committing r cmd s l e e' done rest :
  election_inv e → turn r cmd s l e e' → (∃ res count flag, es_notify e r = Some (InPhase cmd (s :: l) res count flag)) →
  committing e' r done rest →
  (done = [] ∧ rest = CLUSTER_SERVER_ARRAY ∧ cmd = FS_CLUSTER_PROTO_PRE_SET_NEXT_LEADER ∧
   last CLUSTER_SERVER_ARRAY = Some s ∧ next_leader (es_server e' s) = Some r) ∨
  (∃ done0, done = done0 ++ [s] ∧ rest = l ∧ cmd = FS_CLUSTER_PROTO_COMMIT_NEXT_LEADER ∧
   committing e r done0 (s :: l) ∧ next_leader (es_server e s) = Some r ∧ es_commits e' s = es_commits e s ++ [r]).
Proof.
  intros Hi [_ _ _ Hr] (res & count & flag & En) (Ha & Hne & res' & count' & flag' & En').
  destruct Hr as [[Hr _]|[Hs Hr]]; [by apply Hr in En'|].
  destruct (v_phase _ Hi _ _ _ _ _ _ En) as (_ & _ & _ & done0 & Ha0).
  destruct l as [|x l]; [destruct cmd|].
  - left. destruct Hr as (flag0 & Hr & _). rewrite En' in Hr. injection Hr as -> _ _ _.
    split_and!; [|done..| |done].
    + apply (f_equal length) in Ha. rewrite length_app in Ha. destruct done; [done|simpl in Ha; lia].
    + by rewrite Ha0, last_snoc.
  - congruence.
  - destruct Hr as (c0 & f0 & Hr & _). rewrite En' in Hr. injection Hr as <- -> _ _ _. right. exists done0.
    destruct Hs as [Hs1 Hs2]. split_and!; try done.
    + rewrite Ha0 in Ha. rewrite cons_middle, app_assoc in Ha. by apply app_inj_2 in Ha as [-> _].
    + split_and!; [done..|]. by exists res, count, flag.
Qed.
Lemma turn_inv r cmd s l e e' :
  election_inv e → turn r cmd s l e e' → (∃ res count flag, es_notify e r = Some (InPhase cmd (s :: l) res count flag)) →
  (∀ a, leader_ok a (es_server e' a)) → election_inv e'.
Proof.
  intros Hi Ht Hn Hl. split; [|done|..].
  - intros a cmd' rest res count flag En'. destruct (decide (a = r)) as [->|Ha].
    + destruct Hn as (res0 & count0 & flag0 & En). destruct (v_phase _ Hi _ _ _ _ _ _ En) as (_ & _ & _ & done & Ha).
      destruct (t_result _ _ _ _ _ _ Ht) as [[Hr _]|[_ Hr]]; [by apply Hr in En'|].
      destruct l as [|x l]; [destruct cmd|].
      * destruct Hr as (f & Hr & Hf). rewrite En' in Hr. injection Hr as -> -> -> -> ->.
        split_and!; [|done..|by exists []]. rewrite Ha. by destruct done.
      * congruence.
      * destruct Hr as (c0 & f0 & Hr & Hf & Hc). rewrite En' in Hr. injection Hr as -> -> -> -> ->.
        split_and!; [done..|]. exists (done ++ [s]). by rewrite <- app_assoc.
    + rewrite (t_notify _ _ _ _ _ _ Ht a Ha) in En'. by eapply v_phase.
  - intros a done rest t Hc Hd Hin. destruct (decide (a = r)) as [->|Ha].
    + destruct (turn_committing _ _ _ _ _ _ _ _ Hi Ht Hn Hc) as [(-> & _)|(done0 & -> & -> & -> & Hc0 & Hs & Ec)].
      { by apply not_elem_of_nil in Hin. }
      destruct (decide (t = s)) as [->|Hts]; [by rewrite Ec, last_snoc|].
      destruct (t_others _ _ _ _ _ _ Ht t Hts) as [_ ->]. apply elem_of_app in Hin as [Hin|Hin].
      2:{ by apply list_elem_of_singleton in Hin. }
      eapply (v_commits _ Hi); [exact Hc0| |exact Hin]. intros (u & Hu & Hun). apply elem_of_cons in Hu as [->|Hu]; [done|].
      apply Hd. exists u. split; [done|]. destruct (t_others _ _ _ _ _ _ Ht u) as [-> _]; [|done].
      intros ->. destruct Hc0 as (Ha0 & _). rewrite Ha0 in servers_nodup.
      apply NoDup_app in servers_nodup as (_ & _ & [? _]%NoDup_cons). done.
    + apply (committing_other e e') in Hc; [|by apply Ht]. assert (¬ doomed e a rest) as Hd0 by (by intros ?%(turn_doomed _ _ _ _ _ _ _ _ Ht)).
      destruct (decide (t = s)) as [->|Hts].
      2:{ destruct (t_others _ _ _ _ _ _ Ht t Hts) as [_ ->]. by eapply (v_commits _ Hi). }
      destruct (t_effect _ _ _ _ _ _ Ht) as [_ -> | _ _ -> | -> Hsr _ _]; [by eapply (v_commits _ Hi)..|].
      destruct Hn as (res & count & flag & En). destruct (v_phase _ Hi _ _ _ _ _ _ En) as (Hne & _ & _ & done' & Ha').
      exfalso. eapply (v_locks _ Hi a r); [done..| | |done|done]; [|done].
      split_and!; [done..|]. by exists res, count, flag.
  - intros a b done rest done' rest' t Hca Hd Hcb Hba Hin. destruct (decide (a = r)) as [->|Ha].
    + apply (committing_other e e') in Hcb; [|by apply Ht].
      destruct (turn_committing _ _ _ _ _ _ _ _ Hi Ht Hn Hca) as [(-> & _)|(done0 & -> & -> & -> & Hc0 & Hs & Ec)].
      { by apply not_elem_of_nil in Hin. }
      destruct (t_effect _ _ _ _ _ _ Ht) as [Hx Hy|Hx|_ _ Hnone _]; [|done|].
      { rewrite Hy in Ec. apply (f_equal length) in Ec. rewrite length_app in Ec. simpl in Ec. lia. }
      destruct (decide (t = s)) as [->|Hts]; [by rewrite Hnone|].
      destruct (t_others _ _ _ _ _ _ Ht t Hts) as [-> _]. apply elem_of_app in Hin as [Hin|Hin].
      2:{ by apply list_elem_of_singleton in Hin. }
      eapply (v_locks _ Hi r b); [exact Hc0| |exact Hcb|done|exact Hin]. intros (u & Hu & Hun). apply elem_of_cons in Hu as [->|Hu]; [done|].
      apply Hd. exists u. split; [done|]. destruct (t_others _ _ _ _ _ _ Ht u) as [-> _]; [|done].
      intros ->. destruct Hc0 as (Ha0 & _). rewrite Ha0 in servers_nodup.
      apply NoDup_app in servers_nodup as (_ & _ & [? _]%NoDup_cons). done.
    + apply (committing_other e e') in Hca; [|by apply Ht]. assert (¬ doomed e a rest) as Hd0 by (by intros ?%(turn_doomed _ _ _ _ _ _ _ _ Ht)).
      destruct (decide (b = r)) as [->|Hb].
      * destruct (turn_committing _ _ _ _ _ _ _ _ Hi Ht Hn Hcb) as [(-> & -> & -> & Hlast & Hs)|(done0 & -> & -> & -> & Hc0 & Hs & Ec)].
        -- destruct Hd. exists s. split; [|rewrite Hs; congruence]. destruct Hca as (Ha0 & Hne & _).
           rewrite Ha0, last_app in Hlast. destruct (last rest) eqn:El; [|by apply last_None in El].
           injection Hlast as ->. by apply last_Some_elem_of.
        -- pose proof (v_locks _ Hi a r _ _ _ _ t Hca Hd0 Hc0 Hba Hin) as Hl0.
           destruct (decide (t = s)) as [->|Hts]; [done|]. by destruct (t_others _ _ _ _ _ _ Ht t Hts) as [-> _].
      * apply (committing_other e e') in Hcb; [|by apply Ht].
        pose proof (v_locks _ Hi a b _ _ _ _ t Hca Hd0 Hcb Hba Hin).
        destruct (turn_next _ _ _ _ _ _ t Ht) as [->|[->| ->]]; congruence.
Qed.
(** The own function of a candidate. *)
Lemma own_cmd_run now cmd r c res c' :
  next_leader_cmd r now cmd r c = (res, c') → leader_ok r c → r ∈ CLUSTER_SERVER_ARRAY →
  leader_ok r c' ∧
  (res ≠ 0 ∧ (next_leader c' = next_leader c ∨ next_leader c' = None) ∨
   res = 0 ∧ r ∈ CLUSTER_SERVER_ARRAY ∧ next_leader_cmd r now cmd r c = (res, c')).
Proof.
  intros E Hc Hr. destruct cmd; simpl in E |- *; pose proof E as E'.
  - destruct (pre_set_leader_run r _ _ _ _ E') as (H1 & _ & [(-> & _)|(-> & _ & H3)]); (split; [by apply H1|]); [by right|left].
    split; [done|by right].
  - apply commit_leader_run in E' as (H1 & H2 & [(-> & _)|(-> & _)]); try done; (split; [done|]); [by right|left].
    split; [done|by right].
Qed.
Lemma other_inv e e' :
  election_inv e → (∀ s, next_leader (es_server e' s) = next_leader (es_server e s)) →
  (∀ s, es_commits e' s = es_commits e s) → (∀ a, leader_ok a (es_server e' a)) →
  (∀ a l res count flag, es_notify e' a = Some (InPhase FS_CLUSTER_PROTO_COMMIT_NEXT_LEADER l res count flag) →
    es_notify e a = es_notify e' a) →
  (∀ a cmd l res count flag, es_notify e' a = Some (InPhase cmd l res count flag) →
    l ≠ [] ∧ flag ≠ Some true ∧ 0 <= count ∧ ∃ done, CLUSTER_SERVER_ARRAY = done ++ l) →
  election_inv e'.
Proof.
  intros Hi Hn Hc Hl Hp Hph.
  assert (∀ a done rest, committing e' a done rest → committing e a done rest) as Hcm.
  { intros a done rest (Ha & Hne & res & count & flag & E). split_and!; [done..|]. exists res, count, flag.
    by rewrite (Hp _ _ _ _ _ E). }
  assert (∀ a rest, doomed e a rest → doomed e' a rest) as Hd.
  { intros a rest (u & Hu & Hx). exists u. by rewrite Hn. }
  split; [done..| |].
  - intros a done rest t Ha Hnd Ht. rewrite Hc. eapply (v_commits _ Hi); [by apply Hcm| |done]. by intros ?%Hd.
  - intros a b done rest done' rest' t Ha Hnd Hb Hab Ht. rewrite Hn.
    eapply (v_locks _ Hi a b); [by apply Hcm| |by apply Hcm|done|done]. by intros ?%Hd.
Qed.
Lemma leader_ok_insert e s c' a : (∀ a, leader_ok a (es_server e a)) → leader_ok s c' → leader_ok a (<[s := c']> (es_server e) a).
Proof.
  intros He Hc. destruct (decide (s = a)) as [->|]; [by rewrite fn_lookup_insert|by rewrite fn_lookup_insert_ne].
Qed.

(** A step of a candidate is a turn; the others leave next leaders and commits alone. *)
Lemma step_cases e e' : election_inv e → election_step e e' →
  (∃ r cmd s l, turn r cmd s l e e' ∧ (∃ res count flag, es_notify e r = Some (InPhase cmd (s :: l) res count flag)) ∧
     ∀ a, leader_ok a (es_server e' a)) ∨
  (∀ s, next_leader (es_server e' s) = next_leader (es_server e s)) ∧ (∀ s, es_commits e' s = es_commits e s) ∧
  (∀ a, leader_ok a (es_server e' a)) ∧
  (∀ a, es_notify e' a = es_notify e a ∨ es_notify e' a = Some (notify_start CLUSTER_SERVER_ARRAY)).
Proof.
  intros Hi Hs. pose proof (v_leader _ Hi) as Hl. destruct Hs.
  - right. split_and!; try done. intros a. simpl.
    destruct (decide (r = a)) as [->|]; [rewrite fn_lookup_insert; by right|rewrite fn_lookup_insert_ne by done; by left].
  - left. exists r, cmd, r, l. destruct (v_phase _ Hi _ _ _ _ _ _ H1) as (_ & _ & _ & done & Ha).
    assert (r ∈ CLUSTER_SERVER_ARRAY) as Hr by (rewrite Ha, elem_of_app; right; by left).
    apply own_cmd_run in H2 as [Hl' Hres]; [|done..]. split_and!; [|by exists res, count, flag|].
    + eapply processed_turn; try done. by intros [?|[= ->]].
    + intros a. by apply leader_ok_insert.
  - left. exists r, cmd, s, l. destruct (v_phase _ Hi _ _ _ _ _ _ H2) as (_ & _ & _ & done & Ha).
    assert (s ∈ CLUSTER_SERVER_ARRAY) as Hr by (rewrite Ha, elem_of_app; right; by left).
    apply deal_next_leader_run in H3 as [Hl' Hres]; [|done..]. split_and!; [|by exists res, count, flag|].
    + eapply processed_turn; try done. intros [[= ->]|?]; [|done]. by destruct H4.
    + intros a. by apply leader_ok_insert.
  - left. exists r, cmd, s, l. split_and!; [by eapply lost_turn|by exists res, count, flag|done].
  - right. split_and!; simpl; [|done|intros a; by apply leader_ok_insert|by left].
    intros a. destruct (decide (s = a)) as [->|]; [by rewrite fn_lookup_insert|by rewrite fn_lookup_insert_ne].
Qed.
Lemma step_inv e e' : CLUSTER_SERVER_ARRAY ≠ [] → election_inv e → election_step e e' → election_inv e'.
Proof.
  intros Hne Hi Hs. apply step_cases in Hs as [(r & cmd & s & l & Ht & Hn & Hl)|(Hn & Hc & Hl & Hp)]; [by eapply turn_inv| |done].
  eapply (other_inv e); try done.
  - intros a l res count flag E0. destruct (Hp a) as [E|E]; [done|]. rewrite E in E0. discriminate.
  - intros a cmd l res count flag E. destruct (Hp a) as [E'|E']; [rewrite E' in E; by eapply v_phase|].
    rewrite E' in E. injection E as <- <- <- <- <-. split_and!; try done. by exists [].
Qed.
Lemma reachable_inv e : CLUSTER_SERVER_ARRAY ≠ [] → election_reachable e → election_inv e.
Proof. intros Hne. induction 1; [by apply election_init_inv|by eapply step_inv]. Qed.

(** C7: as long as no connection is refused, and whatever else the servers do and however the
    requests of several candidates interleave or get lost: when the notification of a
    candidate returns 0, the last leader that was committed at every server of the cluster is
    this candidate. *)
Theorem election_agreement e e' r :
  CLUSTER_SERVER_ARRAY ≠ [] → election_reachable e → election_step e e' →
  es_notify e r ≠ Some (NotifyReturned 0) → es_notify e' r = Some (NotifyReturned 0) →
  ∀ s, s ∈ CLUSTER_SERVER_ARRAY → last (es_commits e' s) = Some r.
Proof.
  intros Hne Hr Hs Hn0 Hn1. apply reachable_inv in Hr as Hi; [|done].
  apply step_cases in Hs as [(r0 & cmd & s & l & Ht & Hn & _)|(_ & _ & _ & Hp)]; [| |done].
  2:{ destruct (Hp r) as [E|E]; rewrite E in Hn1; (done || discriminate). }
  assert (r0 = r) as ->.
  { destruct (decide (r = r0)) as [|Hr0]; [done|]. rewrite (t_notify _ _ _ _ _ _ Ht r Hr0) in Hn1. done. }
  destruct (t_result _ _ _ _ _ _ Ht) as [[_ ?]|[Hc Hres]]; [done|].
  destruct l as [|x l]; [|destruct Hres as (? & ? & ? & _); congruence].
  destruct cmd; [destruct Hres as (? & ? & _); congruence|]. destruct Hc as [Hnext Hc].
  destruct Hn as (res & count & flag & En). destruct (v_phase _ Hi _ _ _ _ _ _ En) as (_ & _ & _ & done & Ha).
  intros t Hin. destruct (decide (t = s)) as [->|Hts]; [by rewrite Hc, last_snoc|].
  destruct (t_others _ _ _ _ _ _ Ht t Hts) as [_ ->]. eapply (v_commits _ Hi r done [s]).
  - split_and!; [done..|]. by exists res, count, flag.
  - intros (u & ->%list_elem_of_singleton & ?). done.
  - rewrite Ha, elem_of_app, list_elem_of_singleton in Hin. by destruct Hin.
Qed.
End System.
