(* ===== verification/ClusterMain.v ===== *)
(** * A server of the cluster over time

    [cluster_step] lists everything the threads of a server do to the cluster state; the
    invariants of [ClusterInv] and [LeaderThms] hold in every reachable state, and a leader
    never forgets a data group that has no master unless [select_master] gives up on it. *)
From stdpp Require Import functions.
From S2P Require Import Prelude RpcResultRing Replication Cluster Topology MasterElection Leader ClusterHandler ClusterInv ClusterThms LeaderThms.

Section Steps.
Context `{ClusterConfig} `{Qsort} (me : Z).
Variables not_leader inconsistent : Z.

(** [after m c c']: [c'] is the state after [m]. *)
Definition after {A} (m : CM A) (c c' : Cluster) : Prop := c' = (m c).2.
(** What the threads of the server do by themselves, and the requests that do not change who is
    connected. *)
Inductive server_step (c c' : Cluster) : Prop :=
  (* the thread of the master election *)
  | step_select_turn now now_ms : after (select_master_turn me now now_ms) c c' → server_step c c'
  | step_thread_exit : after select_master_thread_exit c c' → server_step c c'
  (* the thread of [cluster_relationship.c] *)
  | step_leader_check now answers : am_leader me c = true → after (leader_check me now answers) c c' → server_step c c'
  | step_leader_push parts version : am_leader me c = false →
      after (cluster_process_leader_push me parts version) c c' → server_step c c'
  | step_pack report_all : after (pack_changed_data_versions report_all (my_data_servers me)) c c' → server_step c c'
  | step_set_leader now l : l ∈ CLUSTER_SERVER_ARRAY → after (cluster_relationship_set_leader me now l) c c' → server_step c c'
  | step_unset_leader : after cluster_unset_leader c c' → server_step c c'
  | step_own_next_leader now cmd l : l ∈ CLUSTER_SERVER_ARRAY → after (next_leader_cmd me now cmd l) c c' → server_step c c'
  (* requests *)
  | step_ping now peer v parts : after (cluster_deal_ping_leader me now not_leader inconsistent peer v parts) c c' → server_step c c'
  | step_report_ds_status mine ds g status : after (cluster_deal_report_ds_status me mine ds g status) c c' → server_step c c'
  | step_get_server_status up down force id b : after (cluster_deal_get_server_status me up down force id b) c c' → server_step c c'
  | step_next_leader now cmd id : after (cluster_deal_next_leader me now cmd id) c c' → server_step c c'
  (* recovery, replication and the data threads *)
  | step_swap_report ds old new : after (cluster_relationship_swap_report_ds_status me ds old new) c c' → server_step c c'
  | step_trigger_report ds : after (cluster_relationship_trigger_report_ds_status ds) c c' → server_step c c'
  | step_offline_slaves peer : after (cluster_topology_offline_slave_data_servers me peer) c c' → server_step c c'
  | step_data_version d v : after (on_ds d (set_ds_version v)) c c' → server_step c c'.
Inductive cluster_step (c c' : Cluster) : Prop :=
  | step_server : server_step c c' → cluster_step c c'
  | step_join now task peer id : after (cluster_deal_join_leader me now not_leader task peer id) c c' → cluster_step c c'
  | step_active now peer v parts : after (cluster_deal_active_server me now not_leader inconsistent peer v parts) c c' → cluster_step c c'
  | step_cleanup now task peer : peer ∈ CLUSTER_SERVER_ARRAY → after (cluster_task_finish_cleanup me now task peer) c c' → cluster_step c c'
  | step_notify_events busy s : after (process_notify_events busy s) c c' → cluster_step c c'
  (* [replica_deal_fetch_binlog_first] of a master: the slave that recovers has caught up *)
  | step_catch_up ds old : old = FS_DS_STATUS_REBUILDING ∨ old = FS_DS_STATUS_RECOVERING →
      after (cluster_relationship_set_ds_status_ex me ds old FS_DS_STATUS_ONLINE) c c' → cluster_step c c'.

(** The state at the start: zeroed, with the statuses, the versions and the hint that were
    loaded from the file. *)
Definition cluster_start (hint : bool) (version : Z) (load : DataServer → DSStatus * Z) : Cluster :=
  mkCluster (λ s, mkClusterServer (bool_decide (s = me) && hint) FS_SERVER_STATUS_OFFLINE 0 0 0 None [] (λ _, false))
    (λ d, mkDataServer false (load d).1 (load d).2 0)
    (λ g, mkDataGroup None (group_servers g) false false 0 0)
    None version (mkMasterElection false 0 [] []) (mkRelationship 0 0 None [] false [] [] []).
Inductive cluster_reachable : Cluster → Prop :=
  | reachable_start hint version load : cluster_reachable (cluster_start hint version load)
  | reachable_next c c' : cluster_reachable c → cluster_step c c' → cluster_reachable c'.

(** ** The invariants *)
#[local] Existing Instance safe_preorder.
#[local] Existing Instance core_preorder.
#[local] Existing Instance same_leader_preorder.
Hypothesis servers_nodup : NoDup CLUSTER_SERVER_ARRAY.
Hypothesis me_server : me ∈ CLUSTER_SERVER_ARRAY.

Lemma start_ok hint version load : cluster_ok (cluster_start hint version load).
Proof.
  split; simpl; try done.
  - split; [constructor|]. intros g. split; [by intros ?%not_elem_of_nil|intros [=]].
  - split; [constructor|]. intros g. split; [by intros ?%not_elem_of_nil|intros [=]].
  - intros s. simpl. split; [constructor|]. intros d. split; [by intros ?%not_elem_of_nil|intros [=]].
  - split; simpl; [constructor|]. by intros s ?%not_elem_of_nil.
Qed.

(** Events that are sent are released. *)
Lemma release_events_run l flags d :
  release_events l flags d = if decide (d ∈ l) then false else flags d.
Proof.
  unfold release_events. revert flags. induction l as [|x l IH]; intros flags; simpl.
  - destruct (decide (d ∈ [])) as [Hd|]; [by apply not_elem_of_nil in Hd|done].
  - rewrite IH. destruct (decide (d ∈ l)), (decide (d ∈ x :: l)) as [Hx|Hx]; try done.
    + destruct Hx. by right.
    + apply elem_of_cons in Hx as [->|?]; [by rewrite fn_lookup_insert|done].
    + rewrite fn_lookup_insert_ne; [done|]. intros ->. destruct Hx. by left.
Qed.
Lemma safe_process_events busy s : keeps safe (process_notify_events busy s).
Proof.
  intros c Hc. unfold process_notify_events. destruct busy; [done|]. unfold mbind, CM_bind. simpl.
  destruct (decide _); [done|]. destruct (cs_queue (c_cs c s)) as [|x q] eqn:E; [done|]. simpl.
  destruct Hc as [? ? ? ? He ? ?]. split; try done. intros u. simpl. destruct (decide (s = u)) as [->|]; [|by rewrite fn_lookup_alter_ne].
  rewrite fn_lookup_alter. cbn [set_events cs_queue cs_in_queue]. destruct (He u) as [Hn Hq]. rewrite E in Hn, Hq.
  rewrite <- (take_drop max_events_per_pkg (x :: q)) in Hn, Hq. set (sent := take _ _) in *. set (left_ := drop _ _) in *.
  apply NoDup_app in Hn as (_ & Hx & Hd). split; [done|]. intros d. rewrite release_events_run.
  destruct (decide (d ∈ sent)) as [Hs|Hs].
  - split; [by intros ?%(Hx _ Hs)|done].
  - rewrite <- Hq, elem_of_app. split; [by right|by intros [?|?]].
Qed.

#[local] Hint Resolve core_set_cs_status core_set_last_ping core_set_leader_version core_set_task
  core_set_ds_version core_set_election core_put_version core_set_next_leader core_set_leader_election core_put_running : keeps.
#[local] Hint Extern 5 (keeps core _) => (apply keeps_quiet_core; solve [eauto with keeps]) : keeps.
Lemma safe_own_next_leader now cmd l : keeps safe (next_leader_cmd me now cmd l).
Proof.
  unfold next_leader_cmd, cluster_relationship_pre_set_leader, cluster_relationship_commit_leader.
  pose proof (safe_set_leader me now l servers_nodup). destruct cmd; keeps; apply keeps_core_safe; keeps.
Qed.
Lemma core_trigger_report ds : keeps core (cluster_relationship_trigger_report_ds_status ds).
Proof. unfold cluster_relationship_trigger_report_ds_status. keeps. Qed.
#[local] Hint Resolve safe_select_turn safe_thread_exit safe_leader_check safe_leader_push safe_set_leader
  safe_own_next_leader safe_join safe_active safe_report_status safe_get_server_status
  safe_deal_next_leader safe_cleanup safe_process_events safe_offline_slaves core_pack_versions core_ping
  core_unset_leader core_trigger_report : keeps.
Lemma step_safe c c' : cluster_step c c' → safe c c'.
Proof.
  assert (∀ A (m : CM A), keeps safe m → after m c c' → safe c c') as Ha by (by intros A m Hm ->).
  intros [[]| | | | |]; (eapply Ha; [|eassumption]); try (apply keeps_core_safe; solve [eauto with keeps]); eauto with keeps.
Qed.

(** ** The leader *)
Definition leads (c c' : Cluster) : Prop := leader_ok me c → leader_ok me c'.
#[local] Instance leads_preorder : PreOrder leads.
Proof. split; unfold leads; [by intros ?|intros ???; eauto]. Qed.
Lemma keeps_same_leads {A} (m : CM A) : keeps same_leader m → keeps leads m.
Proof. intros Hm c Hc. eapply same_leader_ok; [apply Hm|done]. Qed.
Lemma keeps_quiet_leads {A} (m : CM A) : keeps quiet m → keeps leads m.
Proof. intros Hm. by apply keeps_same_leads, keeps_quiet_leader. Qed.
Lemma leads_unset : keeps leads cluster_unset_leader.
Proof. intros c Hc. by apply unset_leader_run. Qed.
Lemma leads_set_leader now l : l ∈ CLUSTER_SERVER_ARRAY → keeps leads (cluster_relationship_set_leader me now l).
Proof.
  intros Hl c Hc. destruct (cluster_relationship_set_leader me now l c) as [r c'] eqn:E.
  by apply set_leader_run in E as (_ & ? & _).
Qed.
Lemma leads_next_leader f : keeps leads (on_relationship (set_next_leader f)).
Proof. intros c Hc. exact Hc. Qed.
#[local] Hint Resolve leads_unset leads_set_leader leads_next_leader leader_on_ds leader_on_dg leader_put_version
  leader_put_election leader_set_cs_status leader_queue_push leader_push_delay leader_offline leader_select_turn : keeps.
#[local] Hint Extern 3 (keeps leads (on_relationship _)) => (apply keeps_same_leads; by apply leader_on_relationship) : keeps.
#[local] Hint Extern 3 (keeps leads (on_cs _ _)) => (apply keeps_same_leads; by apply leader_on_cs) : keeps.
#[local] Hint Extern 5 (keeps leads _) => (apply keeps_same_leads; solve [eauto with keeps]) : keeps.
#[local] Hint Extern 6 (keeps leads _) => (apply keeps_quiet_leads; solve [eauto with keeps]) : keeps.
Lemma leads_check_inactive now answers l : keeps leads (check_inactive now answers l).
Proof.
  induction l as [|[? ?] l IH]; simpl; [keeps|].
  unfold do_check_brainsplit, cluster_relationship_swap_server_status. keeps.
Qed.
Lemma leads_ping_parts peer parts n : keeps leads (process_ping_parts me peer parts n).
Proof.
  revert n. induction parts as [|[[? ?] ?] parts IH]; intros n; simpl;
    unfold set_ds_status_and_data_version, cluster_relationship_set_ds_status_and_dv; keeps.
Qed.
Lemma leads_pack b l : keeps leads (pack_changed_data_versions b l).
Proof. induction l; simpl; keeps. Qed.
Lemma leads_push_entry p : keeps leads (cluster_process_push_entry me p).
Proof. unfold cluster_process_push_entry. keeps. Qed.
#[local] Hint Resolve leads_check_inactive leads_ping_parts leads_pack leads_push_entry quiet_offline_slaves : keeps.
Lemma step_leads c c' : cluster_step c c' → leads c c'.
Proof.
  assert (∀ A (m : CM A), keeps leads m → after m c c' → leads c c') as Ha by (by intros A m Hm ->).
  intros [[]| | | | |]; (eapply Ha; [|eassumption]); try solve [eauto with keeps].
  - unfold select_master_thread_exit, on_election. keeps.
  - unfold leader_check, leader_deal_data_version_changes, master_election_deal_delay_queue, deal_delayed,
      master_election_thread_start, on_election. keeps.
  - unfold cluster_process_leader_push. keeps.
  - destruct cmd; simpl; unfold cluster_relationship_pre_set_leader, cluster_relationship_commit_leader; keeps.
  - unfold cluster_deal_ping_leader, process_ping_leader_req, add_version. keeps.
  - unfold cluster_deal_report_ds_status, report_by_master, add_version. keeps.
  - unfold cluster_deal_get_server_status. keeps.
  - intros c1 Hc1. destruct (cluster_deal_next_leader me now cmd id c1) as [r c2] eqn:E.
    by apply deal_next_leader_run in E as [? _].
  - unfold cluster_relationship_trigger_report_ds_status. keeps.
  - unfold cluster_topology_offline_slave_data_servers. keeps.
  - unfold cluster_deal_join_leader. keeps.
  - unfold cluster_deal_active_server, cluster_deal_ping_leader, process_ping_leader_req, add_version,
      cluster_topology_activate_server, cluster_relationship_remove_from_inactive_sarray. keeps.
  - unfold cluster_task_finish_cleanup, cluster_topology_deactivate_server, cluster_relationship_swap_server_status,
      cluster_relationship_add_to_inactive_sarray. keeps.
  - unfold process_notify_events. destruct busy; keeps.
Qed.

(** C12: in every state a server of the cluster can reach, the leader pointer and the flags of
    the servers agree (at most one server is flagged, and it is the leader), a group has at
    most one master, which belongs to the group and is the only one flagged, the groups in the
    election queue and in the delay queue are those with the flag, each once, [waiting_count]
    is their number, an event is queued once exactly if its flag is set, the array of inactive
    servers holds each server once and fits, and [ds_ptr_array] holds the servers of the
    group. *)
Theorem cluster_reachable_ok c : cluster_reachable c →
  cluster_ok c ∧ leader_ok me c ∧
  (length (rc_inactive (c_relationship c)) <= length CLUSTER_SERVER_ARRAY)%nat.
Proof.
  intros Hr. assert (cluster_ok c ∧ leader_ok me c) as [Hok Hl].
  { induction Hr as [hint v load|c c' _ [IH1 IH2] Hs].
    - split; [apply start_ok|]. intros s Hs. simpl. by rewrite bool_decide_eq_false_2.
    - split; [by apply step_safe in Hs; apply Hs|by apply step_leads in Hs; apply Hs]. }
  split_and!; [done..|]. destruct (ok_inactive _ Hok) as [Hn Hi].
  rewrite <- (length_fmap fst). apply submseteq_length, NoDup_submseteq; done.
Qed.
End Steps.
