(* ===== verification/ClusterWaiting.v ===== *)
(** * Groups that wait for a master

    While a server is the leader, every data group without a master is in the election queue
    or in the delay queue, except those [select_master] has given up. *)
From stdpp Require Import functions.
From S2P Require Import Prelude RpcResultRing Replication Cluster Topology MasterElection Leader ClusterHandler ClusterInv ClusterThms LeaderThms ClusterMain.

Section Waiting.
Context `{ClusterConfig} `{Qsort} (me : Z).
#[local] Existing Instance same_leader_preorder.

Definition waits (g : Z) (c : Cluster) : Prop :=
  dg_master (c_dg c g) ≠ None ∨ dg_in_queue (c_dg c g) = true ∨ dg_in_delay_queue (c_dg c g) = true.
Record mono (c c' : Cluster) : Prop := {
  m_leader : CLUSTER_LEADER_PTR c' = CLUSTER_LEADER_PTR c;
  m_waits g : waits g c → waits g c';
}.
#[local] Instance mono_preorder : PreOrder mono.
Proof. split; [by intros c; split|]. intros c1 c2 c3 [] []. split; [congruence|auto]. Qed.
(** Groups outside [F] wait while this server is the leader. *)
Definition all_wait (F : list Z) (c : Cluster) : Prop :=
  am_leader me c = true → ∀ g, g ∈ CLUSTER_DATA_RGOUP_ARRAY → g ∉ F → waits g c.
Definition keeps_waiting (F : list Z) (c c' : Cluster) : Prop := all_wait F c → all_wait F c'.
#[local] Instance keeps_waiting_preorder F : PreOrder (keeps_waiting F).
Proof. split; unfold keeps_waiting; [by intros ?|intros ???; eauto]. Qed.
Lemma keeps_mono_waiting {A} F (m : CM A) : keeps mono m → keeps (keeps_waiting F) m.
Proof. intros Hm c Hc Hl g Hg HF. destruct (Hm c) as [E Hw]. apply Hw, Hc; [|done..]. unfold am_leader in *. by rewrite <- E. Qed.

(** ** Steps that keep every group waiting *)
Lemma mono_same c c' : CLUSTER_LEADER_PTR c' = CLUSTER_LEADER_PTR c → c_dg c' = c_dg c → mono c c'.
Proof. intros E1 E2. split; [done|]. intros g. unfold waits. by rewrite E2. Qed.
Lemma keeps_quiet_mono {A} (m : CM A) : keeps quiet m → keeps mono m.
Proof. intros Hm c. destruct (Hm c). by apply mono_same. Qed.
Lemma mono_on_cs s f : keeps mono (on_cs s f). Proof. by intros c; apply mono_same. Qed.
Lemma mono_on_ds d f : keeps mono (on_ds d f). Proof. by intros c; apply mono_same. Qed.
Lemma mono_put_version v : keeps mono (put_version v). Proof. by intros c; apply mono_same. Qed.
Lemma mono_put_election e : keeps mono (put_election e). Proof. by intros c; apply mono_same. Qed.
Lemma mono_on_relationship f : keeps mono (on_relationship f). Proof. by intros c; apply mono_same. Qed.
Lemma mono_on_dg g f :
  (∀ x, dg_master x ≠ None → dg_master (f x) ≠ None) → (∀ x, dg_in_queue x = true → dg_in_queue (f x) = true) →
  (∀ x, dg_in_delay_queue x = true → dg_in_delay_queue (f x) = true) → keeps mono (on_dg g f).
Proof.
  intros H1 H2 H3 c. split; [done|]. intros x. unfold waits. simpl.
  destruct (decide (g = x)) as [->|]; [rewrite fn_lookup_alter|by rewrite fn_lookup_alter_ne].
  intros [?|[?|?]]; auto.
Qed.
Lemma mono_set_election g r s : keeps mono (on_dg g (set_election r s)). Proof. by apply mono_on_dg. Qed.
Lemma mono_set_ptr g l : keeps mono (on_dg g (set_ds_ptr_array l)). Proof. by apply mono_on_dg. Qed.
Lemma mono_in_queue g : keeps mono (on_dg g (set_in_queue true)). Proof. by apply mono_on_dg. Qed.
Lemma mono_in_delay g : keeps mono (on_dg g (set_in_delay_queue true)). Proof. by apply mono_on_dg. Qed.
#[local] Hint Resolve mono_on_cs mono_on_ds mono_put_version mono_put_election mono_on_relationship
  mono_set_election mono_set_ptr mono_in_queue mono_in_delay : keeps.
#[local] Hint Extern 5 (keeps mono _) => (apply keeps_quiet_mono; solve [eauto with keeps]) : keeps.

Lemma mono_queue_push g : keeps mono (master_election_queue_push g).
Proof. unfold master_election_queue_push, master_election_thread_start, on_election. keeps. Qed.
Lemma mono_push_delay g : keeps mono (master_election_push_to_delay_queue g).
Proof. unfold master_election_push_to_delay_queue, on_election. keeps. Qed.
Lemma queue_push_waits g c : dg_in_queue (c_dg (master_election_queue_push g c).2 g) = true.
Proof.
  unfold master_election_queue_push, mbind, CM_bind. simpl.
  destruct (me_is_running (c_election c)); simpl; destruct (dg_in_queue (c_dg c g)) eqn:E; simpl;
    by rewrite ?fn_lookup_alter.
Qed.
Lemma push_delay_waits g c : dg_in_delay_queue (c_dg (master_election_push_to_delay_queue g c).2 g) = true.
Proof.
  unfold master_election_push_to_delay_queue, mbind, CM_bind. simpl.
  destruct (dg_in_delay_queue (c_dg c g)) eqn:E; simpl; by rewrite ?fn_lookup_alter.
Qed.

(** All groups but [g]. *)
Record mono_but (g : Z) (c c' : Cluster) : Prop := {
  b_leader : CLUSTER_LEADER_PTR c' = CLUSTER_LEADER_PTR c;
  b_waits x : x ≠ g → waits x c → waits x c';
}.
Lemma mono_but_then g c c1 c2 : mono_but g c c1 → mono c1 c2 → waits g c2 → mono c c2.
Proof.
  intros [] [] Hg. split; [congruence|]. intros x Hx. destruct (decide (x = g)) as [->|]; auto.
Qed.
Lemma mono_but_on_dg g f c : mono_but g c (on_dg g f c).2.
Proof. split; [done|]. intros x Hx. unfold waits. simpl. by rewrite fn_lookup_alter_ne. Qed.
(** A group that is dealt with and pushed at the end. *)
Lemma mono_pushed {A} g f (m1 : CM A) (m2 : CM unit) :
  keeps mono m1 → keeps mono m2 → keeps mono (on_dg g f;; m1;; m2;; master_election_queue_push g).
Proof.
  intros H1 H2 c. unfold mbind, CM_bind. specialize (H1 (on_dg g f c).2). simpl in H1 |- *.
  destruct (m1 _) as [x c1]. simpl in H1. specialize (H2 c1). destruct (m2 c1) as [u c2]. simpl in H2.
  eapply mono_but_then; [apply (mono_but_on_dg g f)| |right; left; apply queue_push_waits].
  etrans; [exact H1|]. etrans; [exact H2|]. apply mono_queue_push.
Qed.
#[local] Hint Resolve mono_queue_push mono_push_delay : keeps.
Lemma mono_offline d b : keeps mono (cluster_topology_offline_data_server me d b).
Proof.
  unfold cluster_topology_offline_data_server. keeps_step; [keeps|]. keeps_step; [keeps|].
  keeps_step; [|keeps]. destruct (_ && _); [|keeps]. keeps_step; [keeps|]. keeps_step; [keeps|].
  keeps_step; [|keeps]. destruct (decide _); [|keeps]. apply mono_pushed; keeps.
Qed.
#[local] Hint Resolve mono_offline : keeps.

(** ** The queues *)
Lemma mono_deal_delayed g : keeps mono (deal_delayed g).
Proof.
  intros c. unfold deal_delayed, mbind, CM_bind. simpl.
  destruct (decide (dg_master (c_dg c g) = None)) as [E|E].
  - pose proof (mono_queue_push g c) as Hp. pose proof (queue_push_waits g c) as Hw.
    destruct (master_election_queue_push g c) as [u c1]. simpl in Hp, Hw. etrans; [exact Hp|].
    eapply mono_but_then; [apply (mono_but_on_dg g (set_in_delay_queue false))|reflexivity|].
    right. left. simpl. by rewrite fn_lookup_alter.
  - simpl. eapply mono_but_then; [apply (mono_but_on_dg g (set_in_delay_queue false))|reflexivity|].
    left. simpl. by rewrite fn_lookup_alter.
Qed.
Lemma mono_deal_delay_queue : keeps mono master_election_deal_delay_queue.
Proof.
  pose proof mono_deal_delayed.
  unfold master_election_deal_delay_queue, master_election_thread_start, on_election. keeps.
Qed.
Lemma mono_select_master now now_ms g : keeps mono (select_master me now now_ms g).
Proof. unfold select_master, start_election. keeps. Qed.
#[local] Existing Instance core_preorder.
#[local] Hint Resolve core_set_election : keeps.
#[local] Hint Extern 5 (keeps core _) => (apply keeps_quiet_core; solve [eauto with keeps]) : keeps.
Lemma select_master_error now now_ms g c e c' :
  select_master me now now_ms g c = (NotSelected e, c') → e = EAGAIN ∨ e = ENOENT.
Proof.
  unfold select_master, mbind, CM_bind. destruct (start_election me now now_ms g c) as [u c1]. simpl.
  assert (∀ c t l, select_candidate now c g t l = NotSelected e → e = EAGAIN ∨ e = ENOENT) as Hc.
  { intros c0 t l. unfold select_candidate. repeat case_match; intros [=]; auto. }
  destruct (negb _); [destruct (get_preseted_master g); [destruct (is_active c1 d)|]; intros [=]; auto|].
  destruct (count_servers _ _ _ _ _); [|intros [=]; auto]. destruct (_ || _); [intros [=]; auto|].
  simpl. unfold select_last. destruct (last _) as [l|]; [|intros [=]]. destruct (_ && _); [intros [=]|].
  destruct (match cs_status _ with FS_SERVER_STATUS_ACTIVE => _ | _ => _ end); [|intros [=]].
  destruct (negb _); [intros [=]; auto|]. intros [= E _]. eauto.
Qed.
(** After an election the group has a master, or the result says so. *)
Lemma elect_mono now now_ms g c r c' :
  master_election_select_master me now now_ms g c = (r, c') →
  mono c c' ∧ (r = Some 0 → dg_master (c_dg c' g) ≠ None).
Proof.
  unfold master_election_select_master. unfold mbind at 1, CM_bind at 1. simpl.
  destruct (decide _) as [Hn|Hn]; [intros [= <- <-]; split; [reflexivity|done]|].
  unfold mbind at 1, CM_bind at 1. pose proof (mono_select_master now now_ms g c) as Hs.
  destruct (select_master me now now_ms g c) as [[d|e|] c1] eqn:E; simpl in Hs.
  - unfold mbind at 1 2, CM_bind at 1 2. simpl. set (c2 := mkCluster _ _ _ _ _ _ _). intros Er.
    assert (mono c c2) as H2.
    { etrans; [exact Hs|]. assert (keeps mono (on_dg g (set_master (Some d)))) as Hk by by apply mono_on_dg.
      destruct (Hk c1) as [_ Hw]. by split. }
    match type of Er with ?m c2 = _ => assert (keeps mono m) as H3 by keeps; assert (keeps core m) as H4 by keeps end.
    specialize (H3 c2). specialize (H4 c2). rewrite Er in H3, H4. simpl in H3, H4. split; [by etrans|].
    intros _. rewrite (k_master _ _ H4). subst c2. simpl. by rewrite fn_lookup_alter.
  - intros [= <- <-]. split; [done|]. intros [= ->]. by apply select_master_error in E as [|].
  - intros [= <- <-]. by split.
Qed.
Lemma select_turn_mono now now_ms c r c' :
  select_master_turn me now now_ms c = (r, c') →
  match r with
  | Some (g, e) => mono_but g c c' ∧ (e = Some 0 ∨ e = Some EAGAIN → mono c c')
  | None => c' = c
  end.
Proof.
  unfold select_master_turn. unfold mbind at 1, CM_bind at 1. simpl.
  destruct (me_queue (c_election c)) as [|g q]; [by intros [= <- <-]|].
  unfold mbind at 1 2 3, CM_bind at 1 2 3. simpl. set (c1 := mkCluster _ _ _ _ _ _ _).
  destruct (master_election_select_master me now now_ms g c1) as [e c2] eqn:E. apply elect_mono in E as [Hm He].
  assert (mono_but g c c1) as H1.
  { split; [done|]. intros x Hx. unfold waits. subst c1. simpl. by rewrite fn_lookup_alter_ne. }
  unfold mbind, CM_bind. destruct (decide (e = Some EAGAIN)) as [->|Hne].
  - pose proof (mono_push_delay g c2) as H2. pose proof (push_delay_waits g c2) as H3.
    destruct (master_election_push_to_delay_queue g c2) as [u c3]. simpl in H2, H3. intros [= <- <-].
    assert (mono c c3) as Hc3 by (eapply mono_but_then; [exact H1|by etrans|right; by right]).
    split; [|done]. destruct Hc3. split; auto.
  - intros [= <- <-]. split; [destruct H1, Hm; split; [congruence|auto]|]. intros [E| ->]; [|done].
    eapply mono_but_then; [exact H1|done|left; auto].
Qed.

(** ** A leader starts *)
Lemma unset_master_run g c u c' : unset_master me g c = (u, c') → mono c c' ∧ waits g c'.
Proof.
  unfold unset_master. unfold mbind at 1, CM_bind at 1. simpl.
  set (push := if (length (group_servers g) =? 1)%nat then _ else _).
  assert (∀ c1 u c', push c1 = (u, c') → mono c1 c' ∧ waits g c') as Hp.
  { intros c1 u1 c2 Ec. replace c2 with (push c1).2 by (by rewrite Ec). clear Ec. subst push. destruct (_ =? 1)%nat.
    - split; [apply mono_queue_push|right; left; apply queue_push_waits].
    - split; [apply mono_push_delay|right; right; apply push_delay_waits]. }
  clearbody push. destruct (dg_master (c_dg c g)) as [d|].
  - unfold mbind at 1 2, CM_bind at 1 2. simpl. set (c1 := mkCluster _ _ _ _ _ _ _).
    match goal with |- context [(?m c1)] => assert (keeps mono m) as Hm by keeps; specialize (Hm c1); destruct (m c1) as [u1 c2] end.
    simpl in Hm. intros Ec. apply Hp in Ec as [H1 H2]. split; [|exact H2].
    eapply mono_but_then; [apply (mono_but_on_dg g (set_master None))| |done].
    etrans; [|exact H1]. etrans; [|exact Hm]. by apply mono_same.
  - unfold mbind, CM_bind. simpl. apply Hp.
Qed.
Lemma unset_all_run c :
  mono c (master_election_unset_all_masters me c).2 ∧
  ∀ g, g ∈ CLUSTER_DATA_RGOUP_ARRAY → waits g (master_election_unset_all_masters me c).2.
Proof.
  unfold master_election_unset_all_masters. revert c. induction CLUSTER_DATA_RGOUP_ARRAY as [|g l IH]; intros c; simpl.
  - split; [done|]. intros g ?%not_elem_of_nil. done.
  - unfold mbind, CM_bind. destruct (unset_master me g c) as [u c1] eqn:E. apply unset_master_run in E as [H1 H2].
    destruct (IH c1) as [H3 H4]. simpl in *. split; [by etrans|]. intros x [->|?]%elem_of_cons; [|auto]. by apply H3.
Qed.
Lemma clear_old_leader_mono l : keeps mono (cluster_relationship_clear_old_leader l).
Proof. unfold cluster_relationship_clear_old_leader. keeps. Qed.
Lemma become_leader_mono now : keeps mono (become_leader me now).
Proof.
  unfold become_leader, cluster_relationship_deactivate_all_servers, init_inactive_server_array,
    cluster_relationship_set_server_status, cluster_relationship_swap_server_status,
    cluster_topology_offline_all_data_servers. keeps.
Qed.
Lemma set_leader_waiting now l F : keeps (keeps_waiting F) (cluster_relationship_set_leader me now l).
Proof.
  intros c Hc. unfold cluster_relationship_set_leader, mbind, CM_bind. simpl.
  assert (keeps mono (flag_leader me now (CLUSTER_LEADER_PTR c) l)) as Hm.
  { pose proof (become_leader_mono now). unfold flag_leader. keeps. }
  specialize (Hm c). destruct (flag_leader me now (CLUSTER_LEADER_PTR c) l c) as [u c2]. simpl in Hm.
  unfold change_leader. destruct (decide _) as [Hne|He].
  - unfold mbind, CM_bind. simpl. set (c3 := mkCluster _ _ _ (Some l) _ _ _).
    pose proof (clear_old_leader_mono l c3) as H1.
    destruct (cluster_relationship_clear_old_leader l c3) as [u4 c4]. simpl in H1.
    destruct (Z.eqb_spec l me) as [->|Hl].
    + destruct (unset_all_run c4) as [_ Hw]. destruct (master_election_unset_all_masters me c4) as [u5 c5].
      intros _ g Hg _. by apply Hw.
    + intros Hl'. unfold am_leader in Hl'. simpl in Hl'. rewrite (m_leader _ _ H1) in Hl'.
      apply bool_decide_eq_true in Hl'. simpl in Hl'. congruence.
  - simpl. intros Hl g Hg HF. apply (m_waits _ _ Hm), Hc; [|done..]. unfold am_leader in *. simpl in Hl.
    by rewrite <- (m_leader _ _ Hm).
Qed.
Lemma unset_leader_waiting F : keeps (keeps_waiting F) cluster_unset_leader.
Proof.
  intros c Hc. unfold cluster_unset_leader, mbind, CM_bind. simpl.
  destruct (CLUSTER_LEADER_PTR c) eqn:E; [|exact Hc]. intros Hl. discriminate Hl.
Qed.

(** ** Every step *)
Variables not_leader inconsistent : Z.
#[local] Hint Resolve mono_deal_delay_queue set_leader_waiting unset_leader_waiting quiet_offline_slaves : keeps.
#[local] Hint Extern 6 (keeps (keeps_waiting _) _) => (apply keeps_mono_waiting; solve [eauto with keeps]) : keeps.
Lemma check_inactive_waiting F now answers l : keeps (keeps_waiting F) (check_inactive now answers l).
Proof.
  induction l as [|[? ?] l IH]; simpl; [keeps|].
  unfold do_check_brainsplit, cluster_relationship_swap_server_status. keeps.
Qed.
Lemma mono_ping_parts peer parts n : keeps mono (process_ping_parts me peer parts n).
Proof.
  revert n. induction parts as [|[[? ?] ?] parts IH]; intros n; simpl;
    unfold set_ds_status_and_data_version, cluster_relationship_set_ds_status_and_dv; keeps.
Qed.
Lemma mono_pack b l : keeps mono (pack_changed_data_versions b l).
Proof. induction l; simpl; keeps. Qed.
#[local] Hint Resolve leader_on_ds leader_on_dg leader_put_version : keeps.
#[local] Hint Extern 5 (keeps same_leader _) => (apply keeps_quiet_leader; solve [eauto with keeps]) : keeps.
Lemma leader_push_same parts v : keeps same_leader (cluster_process_leader_push me parts v).
Proof. unfold cluster_process_leader_push, cluster_process_push_entry. keeps. Qed.
#[local] Hint Resolve check_inactive_waiting mono_ping_parts mono_pack : keeps.
Lemma next_leader_waiting F now cmd l : keeps (keeps_waiting F) (next_leader_cmd me now cmd l).
Proof. destruct cmd; simpl; unfold cluster_relationship_pre_set_leader, cluster_relationship_commit_leader; keeps. Qed.
#[local] Hint Resolve next_leader_waiting : keeps.

(** [select_master] gives the group [g] up: the thread of the election does not queue it
    again. *)
Definition gives_up (g : Z) (c c' : Cluster) : Prop :=
  ∃ now now_ms e, select_master_turn me now now_ms c = (Some (g, e), c') ∧ e ≠ Some 0 ∧ e ≠ Some EAGAIN.
Lemma step_waiting F c c' :
  cluster_step me not_leader inconsistent c c' → (∀ g, ¬ gives_up g c c') → keeps_waiting F c c'.
Proof.
  assert (∀ A (m : CM A), keeps (keeps_waiting F) m → after m c c' → keeps_waiting F c c') as Ha by (by intros A m Hm ->).
  intros [[]| | | | |] Hg;
    try lazymatch goal with
    | _ : after (select_master_turn _ _ _) _ _ |- _ => idtac
    | _ : after (cluster_process_leader_push _ _ _) _ _ |- _ => idtac
    | _ => eapply Ha; [|eassumption]
    end; try solve [eauto with keeps].
  - unfold after in *. destruct (select_master_turn me now now_ms c) as [r c1] eqn:E. simpl in *. subst c'.
    pose proof E as E'. apply select_turn_mono in E'. destruct r as [[g e]|]; [|subst; by intros ?].
    destruct E' as [_ Hm]. assert (keeps_waiting F c c1); [|done].
    assert (mono c c1) as [El Hw].
    { apply Hm. destruct (decide (e = Some 0)) as [|H1]; [by left|]. destruct (decide (e = Some EAGAIN)) as [|H2]; [by right|].
      destruct (Hg g). by exists now, now_ms, e. }
    intros Hc Hl x Hx HF. apply Hw, Hc; [|done..]. unfold am_leader in *. by rewrite <- El.
  - unfold select_master_thread_exit, on_election. keeps.
  - unfold leader_check, leader_deal_data_version_changes. keeps.
  - unfold after in *. intros _ Hl. subst c'. exfalso. unfold am_leader in *.
    rewrite (s_leader _ _ (leader_push_same parts version c)) in Hl. congruence.
  - unfold cluster_deal_ping_leader, process_ping_leader_req, add_version. keeps.
  - unfold cluster_deal_report_ds_status, report_by_master, add_version. keeps.
  - unfold cluster_deal_get_server_status. keeps.
  - unfold cluster_deal_next_leader. keeps.
  - unfold cluster_relationship_trigger_report_ds_status. keeps.
  - unfold cluster_topology_offline_slave_data_servers. keeps.
  - unfold cluster_deal_join_leader, cluster_relationship_set_server_status, cluster_relationship_swap_server_status. keeps.
  - unfold cluster_deal_active_server, cluster_deal_ping_leader, process_ping_leader_req, add_version,
      cluster_topology_activate_server, cluster_relationship_remove_from_inactive_sarray,
      cluster_relationship_set_server_status, cluster_relationship_swap_server_status. keeps.
  - unfold cluster_task_finish_cleanup, cluster_topology_deactivate_server, cluster_relationship_swap_server_status,
      cluster_relationship_add_to_inactive_sarray. keeps.
  - unfold process_notify_events. destruct busy; keeps.
Qed.

(** A run of the server with the groups that were given up so far. *)
Inductive cluster_run : list Z → Cluster → Prop :=
  | run_start hint version load : cluster_run [] (cluster_start me hint version load)
  | run_step F c c' : cluster_run F c → cluster_step me not_leader inconsistent c c' → (∀ g, ¬ gives_up g c c') → cluster_run F c'
  | run_gives_up F g c c' : cluster_run F c → gives_up g c c' → cluster_run (g :: F) c'.

(** C15: while a server is the leader of the cluster, every data group without a master is in
    the queue of the election or in the delay queue, whatever events come in which order;
    the only exception are groups for which [select_master] returned another error than
    [EAGAIN]. *)
Theorem leader_keeps_groups_waiting F c g :
  cluster_run F c → CLUSTER_LEADER_PTR c = Some me → g ∈ CLUSTER_DATA_RGOUP_ARRAY → g ∉ F →
  dg_master (c_dg c g) ≠ None ∨ dg_in_queue (c_dg c g) = true ∨ dg_in_delay_queue (c_dg c g) = true.
Proof.
  intros Hr Hl Hg HF. assert (all_wait F c) as Hw.
  { clear Hl Hg HF g. induction Hr as [|F c c' _ IH Hs Hn|F g c c' _ IH Hup].
    - intros Hl. discriminate Hl.
    - by apply (step_waiting F) in Hs; [apply Hs|].
    - destruct Hup as (now & now_ms & e & E & _). apply select_turn_mono in E as [[El Hw] _].
      intros Hl g' Hg' HF. apply not_elem_of_cons in HF as [Hne HF]. apply Hw; [done|].
      apply IH; [|done..]. unfold am_leader in *. by rewrite <- El. }
  apply Hw; [|done..]. by apply bool_decide_eq_true.
Qed.
End Waiting.
