(* ===== verification/MasterElectionThms.v ===== *)
(** * Which master is elected *)
From stdpp Require Import functions.
From S2P Require Import Prelude RpcResultRing Replication Cluster Topology MasterElection Leader ClusterHandler ClusterInv ClusterThms.

Section Select.
Context `{ClusterConfig} `{Qsort} (me now now_ms : Z).
#[local] Existing Instance core_preorder.

(** ** The order of the servers *)
Definition version_of (c : Cluster) (d : DataServer) : Z := ds_version (c_ds c d).
Definition status_of (c : Cluster) (d : DataServer) : Z := server_status_num (cs_status (c_cs c d.2)).
Lemma compare_ds_spec c d1 d2 :
  compare_ds_by_data_version c d1 d2 <= 0 ↔
  version_of c d1 < version_of c d2 ∨ version_of c d1 = version_of c d2 ∧
  (status_of c d1 < status_of c d2 ∨ status_of c d1 = status_of c d2 ∧
   (bool_num (is_preseted d1) < bool_num (is_preseted d2) ∨ bool_num (is_preseted d1) = bool_num (is_preseted d2) ∧
    bool_num (ds_is_master (c_ds c d1)) <= bool_num (ds_is_master (c_ds c d2)))).
Proof.
  unfold compare_ds_by_data_version, version_of, status_of. cbv zeta.
  pose proof (cmp3_zero (ds_version (c_ds c d1)) (ds_version (c_ds c d2))).
  pose proof (cmp3_neg (ds_version (c_ds c d1)) (ds_version (c_ds c d2))).
  repeat match goal with |- context [negb (?a =? 0)] => destruct (Z.eqb_spec a 0); simpl end; lia.
Qed.
Lemma sorted_last {A} (R : A → A → Prop) (l : list A) m x : StronglySorted R l → last l = Some m → x ∈ l → x = m ∨ R x m.
Proof.
  induction 1 as [|a l Hs IH Hf]; [done|]. intros Hl Hx. destruct l as [|b l].
  - injection Hl as ->. apply list_elem_of_singleton in Hx. by left.
  - change (last (b :: l) = Some m) in Hl. apply elem_of_cons in Hx as [->|Hx]; [|auto]. right.
    rewrite Forall_forall in Hf. apply Hf. by apply last_Some_elem_of.
Qed.
(** The last of the sorted servers has the highest version; when an active server has it as
    well, the last is active. *)
Lemma sorted_last_highest c g servers l :
  servers ≡ₚ group_servers g →
  last (if 1 <? Z.of_nat (length servers) then qsort (compare_ds_by_data_version c) servers else servers) = Some l →
  ∀ d, d ∈ group_servers g → version_of c d < version_of c l ∨ version_of c d = version_of c l ∧ status_of c d <= status_of c l.
Proof.
  intros Hp Hl d Hd. rewrite <- Hp in Hd. destruct (Z.ltb_spec 1 (Z.of_nat (length servers))) as [Hlen|Hlen].
  - rewrite <- (qsort_permutation (compare_ds_by_data_version c)) in Hd.
    eapply (sorted_last (λ x y, compare_ds_by_data_version c x y <= 0)) in Hd as [->|Hd];
      [|apply compare_ds_spec in Hd|apply qsort_sorted|exact Hl]; [lia|lia|..].
    + intros x y. rewrite !compare_ds_spec. lia.
    + intros x y z. rewrite !compare_ds_spec. lia.
  - destruct servers as [|x [|y servers]]; [done| |simpl in Hlen; lia].
    injection Hl as ->. apply list_elem_of_singleton in Hd as ->. lia.
Qed.

(** ** The counters *)
Lemma count_servers_run c t l n n' : count_servers now c t l n = Some n' →
  (waiting_report_count n <= waiting_report_count n' ∧ waiting_online_count n <= waiting_online_count n' ∧
   waiting_offline_count n <= waiting_offline_count n') ∧
  (last_timeout n' = None → last_timeout n = None ∧
   active_count n' + waiting_report_count n' = active_count n + waiting_report_count n + Z.of_nat (length l)) ∧
  (waiting_report_count n' = waiting_report_count n →
   ∀ d, d ∈ l → is_active c d = true → t <= cs_last_ping_time (c_cs c d.2)).
Proof.
  assert (∀ b, 0 <= bool_num b) as Hb by (by intros []).
  revert n. induction l as [|d l IH]; intros n; cbn [count_servers].
  - intros [= <-]. split_and!; [lia..|split; [done|simpl; lia]|]. intros _ d ?%not_elem_of_nil. done.
  - unfold is_active in *. destruct (cs_status (c_cs c d.2)) eqn:Es.
    + intros (H1 & H2 & H3)%IH. cbn [waiting_report_count waiting_online_count waiting_offline_count active_count last_timeout] in *.
      specialize (Hb (negb (IS_SERVER_TIMEDOUT now c d.2 t OFFLINE_WAIT_TIMEOUT))).
      split_and!; [lia..|by intros E; apply H2 in E as [? _]|].
      intros E x [->|Hx]%elem_of_cons Ha; [by rewrite Es in Ha|auto].
    + intros (H1 & H2 & H3)%IH. cbn [waiting_report_count waiting_online_count waiting_offline_count active_count last_timeout] in *.
      specialize (Hb (negb (IS_SERVER_TIMEDOUT now c d.2 t ONLINE_WAIT_TIMEOUT))).
      split_and!; [lia..|by intros E; apply H2 in E as [? _]|].
      intros E x [->|Hx]%elem_of_cons Ha; [by rewrite Es in Ha|auto].
    + destruct (Z.leb_spec t (cs_last_ping_time (c_cs c d.2))) as [Ht|Ht].
      * intros (H1 & H2 & H3)%IH. cbn [waiting_report_count waiting_online_count waiting_offline_count active_count last_timeout length] in *.
        split_and!; [lia..|intros E; apply H2 in E; split; [apply E|lia]|].
        intros E x [->|Hx]%elem_of_cons Ha; [done|auto].
      * destruct (_ <=? _); [|done]. intros (H1 & H2 & H3)%IH.
        cbn [waiting_report_count waiting_online_count waiting_offline_count active_count last_timeout length] in *.
        split_and!; [lia..|intros E; apply H2 in E; split; [apply E|lia]|]. lia.
Qed.

(** ** The candidates *)
Lemma downward_from_head l d : d ∈ l → ∃ rest, downward_from d l = d :: rest.
Proof.
  unfold downward_from. induction l as [|x l IH]; [by intros ?%not_elem_of_nil|]. simpl.
  destruct (decide (x = d)) as [->|Hne]; [by exists []|]. intros [->|Hd]%elem_of_cons; [done|].
  destruct (IH Hd) as [rest E]. simpl. rewrite E. by exists (rest ++ [x]).
Qed.
Lemma find_active c l d : List.find (is_active c) l = Some d → d ∈ l ∧ is_active c d = true.
Proof. intros [Hx Ha]%find_some. split; [by apply list_elem_of_In|done]. Qed.
Lemma filter_all {A} (P : A → Prop) `{∀ x, Decision (P x)} l x : length (filter P l) = length l → x ∈ l → P x.
Proof.
  intros E Hx. destruct (decide (P x)) as [|Hn]; [done|]. pose proof (length_filter_lt P l x Hx Hn). lia.
Qed.
(** What the last part of [select_master] selects is active and has at least the version of the
    active server that comes first from the last downwards. *)
Lemma select_candidate_run c g t l r :
  0 <= hash_code g → l ∈ group_servers g → select_candidate now c g t l = r →
  r ≠ Undefined ∧
  ∀ d, r = Selected d → d ∈ group_servers g ∧ is_active c d = true ∧
    ∃ a, List.find (is_active c) (downward_from l (group_servers g)) = Some a ∧ version_of c a <= version_of c d ∧
      (MASTER_ELECTION_POLICY = FS_MASTER_ELECTION_POLICY_STRICT → version_of c l <= version_of c a).
Proof.
  intros Hh Hl. unfold select_candidate. set (servers := group_servers g) in *.
  destruct (List.find _ _) as [a|] eqn:Ef; [|by intros <-]. apply find_active in Ef as Ha.
  destruct (_ =? -1); [by intros <-|]. destruct (_ && _) eqn:Est; [by intros <-|].
  set (online := filter _ servers). destruct (Z.eqb_spec (Z.of_nat (length online)) 0) as [|Hne]; [by intros <-|].
  assert (MASTER_ELECTION_POLICY = FS_MASTER_ELECTION_POLICY_STRICT → version_of c l <= version_of c a) as Hst.
  { intros E. rewrite E, bool_decide_eq_true_2, andb_true_r in Est by done. apply Z.ltb_ge in Est. exact Est. }
  assert (∀ d, d ∈ online → d ∈ servers ∧ is_active c d = true ∧ version_of c a <= version_of c d) as Hon.
  { intros d [[H1 H2] H3]%list_elem_of_filter. split_and!; [done| |done]. by apply Is_true_true. }
  destruct (Z.eqb_spec (Z.of_nat (length online)) (Z.of_nat (length servers))) as [Hall|Hall].
  - intros <-. split; [done|]. intros d [= <-].
    destruct (Hon l) as (H1 & H2 & H3).
    { apply list_elem_of_filter. split; [|done].
      apply (filter_all (λ ds, is_active c ds ∧ ds_version (c_ds c a) <= ds_version (c_ds c ds)) servers l); [|done].
      subst online. lia. }
    split_and!; [done..|]. by exists a.
  - destruct (online !! _) as [d|] eqn:Ed.
    + apply list_elem_of_lookup_2, Hon in Ed as (H1 & H2 & H3). rewrite H2. intros <-. split; [done|].
      intros x [= <-]. split_and!; [done..|]. by exists a.
    + apply lookup_ge_None in Ed. pose proof (Z.mod_pos_bound (hash_code g) (Z.of_nat (length online))). lia.
Qed.

(** ** [select_master] *)

(** [d] has the highest data version of its group. *)
Definition highest (c : Cluster) (g : Z) (d : DataServer) : Prop :=
  ∀ x, x ∈ group_servers g → version_of c x <= version_of c d.
(** The last of the sorted servers decides. *)
Lemma select_last_run c g t n n0 servers sorted r :
  0 <= hash_code g → group_servers g ≠ [] → servers ≡ₚ group_servers g →
  count_servers now c t (group_servers g) n0 = Some n → n0 = mkCounts 0 0 0 0 None → waiting_report_count n <= 0 →
  sorted = (if 1 <? Z.of_nat (length servers) then qsort (compare_ds_by_data_version c) servers else servers) →
  select_last now c g t n sorted = r →
  r ≠ Undefined ∧
  ∀ d, r = Selected d → d ∈ group_servers g ∧ is_active c d = true ∧
    ((MASTER_ELECTION_POLICY = FS_MASTER_ELECTION_POLICY_STRICT ∨
      ∃ a, a ∈ group_servers g ∧ is_active c a = true ∧ highest c g a) → highest c g d).
Proof.
  intros Hh Hne Hp Hn -> Hw Hs. apply count_servers_run in Hn as ((Hr & _) & Ht & _). simpl in Hr, Ht.
  assert (sorted ≡ₚ group_servers g) as Hps by (rewrite Hs; case_match; [by rewrite qsort_permutation|done]).
  unfold select_last. destruct (last sorted) as [l|] eqn:El.
  2:{ apply last_None in El. rewrite El in Hps. by apply Permutation_nil in Hps. }
  assert (l ∈ group_servers g) as Hl by (rewrite <- Hps; by apply last_Some_elem_of). rewrite Hs in El.
  pose proof (sorted_last_highest c g servers l Hp El) as Hhi.
  assert (highest c g l) as Hmax by (intros x Hx; destruct (Hhi x Hx); lia).
  destruct (_ && _) eqn:Eb.
  { apply andb_prop in Eb as [Ea _]. intros <-. split; [done|]. intros d [= <-]. split_and!; [done..|auto]. }
  destruct (match cs_status _ with FS_SERVER_STATUS_ACTIVE => _ | _ => _ end) as [timeout|] eqn:Et.
  2:{ exfalso. destruct (cs_status (c_cs c l.2)) eqn:Ea; try discriminate Et. apply Ht in Et as [_ E].
      rewrite bool_decide_eq_true_2 in Eb by done. simpl in Eb. apply orb_false_iff in Eb as [_ Eb].
      apply Z.eqb_neq in Eb. apply Permutation_length in Hps. simpl in E. lia. }
  destruct (negb _); [by intros <-|]. intros Er.
  destruct (select_candidate_run c g t l r Hh Hl Er) as [H1 H2]. split; [done|]. intros d Hd.
  destruct (H2 d Hd) as (Hd1 & Hd2 & a & Hf & Hv & Hstrict). split_and!; [done..|]. intros Hc x Hx.
  assert (version_of c l <= version_of c a) as Hla; [|specialize (Hmax x Hx); lia].
  destruct Hc as [Hc|(m & Hm & Hma & Hmh)]; [auto|].
  assert (is_active c l = true) as Hal.
  { destruct (Hhi m Hm) as [Hlt|[_ Hst]]; [specialize (Hmh l Hl); lia|]. unfold is_active, status_of in *.
    apply bool_decide_eq_true in Hma. rewrite Hma in Hst. apply bool_decide_eq_true.
    destruct (cs_status (c_cs c l.2)); simpl in Hst; [lia..|done]. }
  destruct (downward_from_head (group_servers g) l Hl) as [rest E]. rewrite E in Hf. simpl in Hf.
  rewrite Hal in Hf. by injection Hf as ->.
Qed.
Lemma start_election_run g c u c' : start_election me now now_ms g c = (u, c') →
  c_ds c' = c_ds c ∧ ∀ s, cs_status (c_cs c' s) = cs_status (c_cs c s).
Proof.
  unfold start_election, mbind, CM_bind. simpl. destruct (_ =? 0); simpl; [|by intros [= <- <-]].
  destruct (_ && _); simpl; intros [= <- <-]; (split; [done|]); intros s; [|done]. simpl. by apply alter_proj.
Qed.

(** C18: [select_master] always comes to a sensible end; the master it selects is an active
    server of the group, and it has the highest data version of the group if the policy is
    strict or an active server has that version (with the failover of masters; without it the
    preset master is selected whatever its version is). *)
Theorem select_master_ok g c r c' :
  cluster_ok c → 0 <= hash_code g → group_servers g ≠ [] →
  select_master me now now_ms g c = (r, c') →
  r ≠ Undefined ∧
  ∀ d, r = Selected d → d ∈ group_servers g ∧ is_active c d = true ∧
    (MASTER_ELECTION_FAILOVER = true →
     MASTER_ELECTION_POLICY = FS_MASTER_ELECTION_POLICY_STRICT ∨
     (∃ a, a ∈ group_servers g ∧ is_active c a = true ∧ highest c g a) → highest c g d).
Proof.
  intros Hok Hh Hne. unfold select_master. unfold mbind at 1, CM_bind at 1.
  destruct (start_election me now now_ms g c) as [u c1] eqn:E.
  pose proof (keeps_run _ _ _ _ _ (core_start_election me now now_ms g) E) as Hk.
  apply start_election_run in E as [Ed Es].
  assert (∀ d, is_active c1 d = is_active c d) as Ha by (intros d; unfold is_active; by rewrite Es).
  assert (∀ d, highest c1 g d ↔ highest c g d) as Hhi by (intros d; unfold highest, version_of; by rewrite Ed).
  unfold mbind at 1, CM_bind at 1. simpl. destruct MASTER_ELECTION_FAILOVER; simpl.
  - destruct (count_servers _ _ _ _ _) as [n|] eqn:En; [|by intros [= <- <-]].
    destruct (_ || _) eqn:Eb; [by intros [= <- <-]|]. apply orb_false_iff in Eb as [_ Eb]. apply Z.ltb_ge in Eb.
    unfold mbind, CM_bind. simpl. intros [= Er _].
    assert (dg_ds_ptr_array (c_dg c1 g) ≡ₚ group_servers g) as Hp by (rewrite (k_ptr _ _ Hk); apply Hok).
    pose proof (count_servers_run _ _ _ _ _ En) as ((H1 & H2 & H3) & _). simpl in H1, H2, H3.
    eapply select_last_run in Er as [Hu Hs]; [|done|done|exact Hp|exact En|done|lia|done].
    split; [done|]. intros d Hd. destruct (Hs d Hd) as (Hd1 & Hd2 & Hd3). rewrite Ha in Hd2. split_and!; [done..|].
    intros _ Hc. apply Hhi, Hd3. destruct Hc as [?|(a & Ha1 & Ha2 & Ha3)]; [by left|right].
    exists a. rewrite Ha, Hhi. done.
  - destruct (get_preseted_master g) as [d|] eqn:Eg.
    + apply get_preseted_master_in in Eg. rewrite Ha. destruct (is_active c d) eqn:Ead; intros [= <- _]; (split; [done|]).
      * intros x [= <-]. split_and!; [done..|discriminate].
      * done.
    + exfalso. unfold get_preseted_master in Eg. destruct (List.find _ _); [done|]. by destruct (group_servers g).
Qed.
End Select.
