(* ===== verification/ClusterPublish.v ===== *)
(** * What the leader publishes

    When the leader changes the status of a data server or its mastership, it queues an event
    for every active follower: [pub] says so of a function that ends with this server as the
    leader, [pub] with data servers [Xm] and [Xs] that for those the event is still to be
    queued. *)
From stdpp Require Import functions.
From S2P Require Import Prelude RpcResultRing Replication Cluster Topology MasterElection Leader ClusterHandler ClusterInv ClusterThms.

Section Publish.
Context `{ClusterConfig} `{Qsort} (me : Z).

Definition queued (c : Cluster) (s : Z) (d : DataServer) : Prop := cs_in_queue (c_cs c s) d = true.
(** A server that is told about changes. *)
Definition told (c : Cluster) (s : Z) : Prop :=
  s ∈ CLUSTER_SERVER_ARRAY ∧ s ≠ me ∧ cs_status (c_cs c s) = FS_SERVER_STATUS_ACTIVE ∧ cs_task (c_cs c s) ≠ None.
Record pub_while (Xm Xs : DataServer → Prop) (c c' : Cluster) : Prop := {
  p_status s : cs_status (c_cs c' s) = FS_SERVER_STATUS_ACTIVE ↔ cs_status (c_cs c s) = FS_SERVER_STATUS_ACTIVE;
  p_task s : cs_task (c_cs c' s) = cs_task (c_cs c s);
  p_leader_version s : cs_leader_version (c_cs c' s) = cs_leader_version (c_cs c s);
  p_queued s d : queued c s d → queued c' s d;
  p_master d : Xm d ∨ ds_is_master (c_ds c' d) = ds_is_master (c_ds c d) ∨ ∀ s, told c s → queued c' s d;
  p_ds_status d : Xs d ∨ ds_status (c_ds c' d) = ds_status (c_ds c d) ∨ ∀ s, told c s → s ≠ d.2 → queued c' s d;
}.
(** Nobody becomes the leader, and the leader publishes. *)
Definition pub Xm Xs (c c' : Cluster) : Prop := am_leader me c' = true → am_leader me c = true ∧ pub_while Xm Xs c c'.
Definition none (d : DataServer) : Prop := False.

Lemma told_same c c' s :
  (cs_status (c_cs c' s) = FS_SERVER_STATUS_ACTIVE ↔ cs_status (c_cs c s) = FS_SERVER_STATUS_ACTIVE) →
  cs_task (c_cs c' s) = cs_task (c_cs c s) → told c' s ↔ told c s.
Proof. unfold told. by intros -> ->. Qed.
#[export] Instance pub_preorder Xm Xs : PreOrder (pub Xm Xs).
Proof.
  split.
  - intros c ?. split; [done|]. split; auto.
  - intros c1 c2 c3 H12 H23 Hl. destruct (H23 Hl) as [Hl2 [S2 T2 V2 Q2 M2 D2]].
    destruct (H12 Hl2) as [Hl1 [S1 T1 V1 Q1 M1 D1]]. split; [done|].
    split; [intros s; by rewrite S2|intros s; by rewrite T2|intros s; by rewrite V2|auto|intros d|intros d].
    + destruct (M1 d) as [?|[E1|E1]]; [by left| |right; right; auto].
      destruct (M2 d) as [?|[E2|E2]]; [by left|right; left; congruence|right; right].
      intros s Hs. apply E2. by rewrite (told_same c1).
    + destruct (D1 d) as [?|[E1|E1]]; [by left| |right; right; auto].
      destruct (D2 d) as [?|[E2|E2]]; [by left|right; left; congruence|right; right].
      intros s Hs. apply E2. by rewrite (told_same c1).
Qed.
Lemma pub_weaken Xm Xs Ym Ys c c' : (∀ d, Xm d → Ym d) → (∀ d, Xs d → Ys d) → pub Xm Xs c c' → pub Ym Ys c c'.
Proof.
  intros Hm Hs Hp Hl. destruct (Hp Hl) as [? []]. split; [done|].
  split; auto; intros d; [destruct (p_master0 d)|destruct (p_ds_status0 d)]; auto.
Qed.

(** ** Events *)
Record only_events (c c' : Cluster) : Prop := {
  e_ds : c_ds c' = c_ds c;
  e_quiet : quiet c c';
}.
#[local] Instance only_events_preorder : PreOrder only_events.
Proof.
  split; [by intros c; split|]. intros c1 c2 c3 [] []. split; [congruence|by etransitivity].
Qed.
Lemma push_event_only s d : keeps only_events (push_event s d).
Proof. intros c. split; [done|apply quiet_push_event]. Qed.
#[local] Hint Resolve push_event_only : keeps.
Lemma chg_notify_only d b : keeps only_events (cluster_topology_data_server_chg_notify me d b).
Proof. unfold cluster_topology_data_server_chg_notify. keeps. Qed.
Lemma push_event_queued s d c : queued (push_event s d c).2 s d.
Proof.
  unfold queued. simpl. rewrite fn_lookup_alter. destruct (cs_in_queue (c_cs c s) d) eqn:E; [done|].
  simpl. by rewrite fn_lookup_insert.
Qed.
Lemma chg_notify_queues d b c s :
  told c s → b = true ∨ s ≠ d.2 → queued (cluster_topology_data_server_chg_notify me d b c).2 s d.
Proof.
  intros Ht Hb. unfold cluster_topology_data_server_chg_notify.
  match goal with |- context [for_each _ ?f] => set (body := f) end.
  assert (∀ x, keeps only_events (body x)) as Hk by (intros x; subst body; cbv beta; keeps).
  assert (∀ L c, s ∈ L → told c s → queued (for_each L body c).2 s d) as Hloop; [|by apply Hloop; [exact (proj1 Ht)|]].
  induction L as [|x L IH]; intros c1 Hin Ht1; [by apply not_elem_of_nil in Hin|].
  simpl. unfold mbind, CM_bind. pose proof (Hk x c1) as Hx.
  destruct (decide (s = x)) as [<-|Hne].
  - assert (queued (body s c1).2 s d) as Hq.
    { subst body. destruct Ht1 as (_ & Hme & Hst & Htk). simpl.
      assert ((s =? me) || negb b && (d.2 =? s) = false) as ->.
      { apply orb_false_iff. split; [by apply Z.eqb_neq|]. destruct Hb as [->|Hb]; [done|].
        apply andb_false_iff. right. apply Z.eqb_neq. congruence. }
      unfold mbind, CM_bind. simpl. rewrite decide_False by (intros ?; done). rewrite decide_False by done.
      apply push_event_queued. }
    destruct (body s c1) as [u c2]. simpl in Hq.
    assert (keeps only_events (for_each L body)) as HL by keeps. apply (q_in_queue _ _ (e_quiet _ _ (HL c2))), Hq.
  - destruct (body x c1) as [u c2]. simpl in Hx. apply IH; [by apply elem_of_cons in Hin as [?|?]|].
    eapply told_same; [by rewrite (q_status _ _ (e_quiet _ _ Hx))|apply (e_quiet _ _ Hx)|done].
Qed.
(** The event that was missing. *)
Lemma pub_notify d b Xm Xs c c1 :
  pub (λ x, Xm x ∨ b = true ∧ x = d) (λ x, Xs x ∨ x = d) c c1 →
  pub Xm Xs c (cluster_topology_data_server_chg_notify me d b c1).2.
Proof.
  intros Hp Hl. destruct (chg_notify_only d b c1) as [E []].
  destruct Hp as [? [S1 T1 V1 Q1 M1 D1]]; [unfold am_leader in *; by rewrite <- q_leader|]. split; [done|].
  split; [intros s; by rewrite q_status|intros; congruence..| | |].
  - unfold queued in *. auto.
  - intros x. rewrite E. destruct (M1 x) as [[?|[-> ->]]|[?|Hq]]; [by left| |by right; left|right; right].
    + right. right. intros s Hs. apply chg_notify_queues; [by rewrite (told_same c)|by left].
    + intros s Hs. unfold queued in *. auto.
  - intros x. rewrite E. destruct (D1 x) as [[?| ->]|[?|Hq]]; [by left| |by right; left|right; right].
    + right. right. intros s Hs Hne. apply chg_notify_queues; [by rewrite (told_same c)|by right].
    + intros s Hs Hne. unfold queued in *. auto.
Qed.

(** ** Programs *)
Abbreviation published := (pub none none).
(** [d] is still to be published. *)
Abbreviation pending d := (pub (λ x, x = d) (λ x, x = d)).
(** [m] publishes what was pending. *)
Definition closes {A} (d : DataServer) (m : CM A) : Prop :=
  ∀ c c1, pending d c c1 → published c (m c1).2.

Lemma keeps_published_pending {A} d (m : CM A) : keeps published m → keeps (pending d) m.
Proof. intros Hm c. eapply pub_weaken; [..|apply Hm]; by intros ?. Qed.
Lemma closes_first {A B} d (m : CM A) (f : A → CM B) :
  keeps (pending d) m → (∀ a, closes d (f a)) → closes d (m ≫= f).
Proof.
  intros Hm Hf c c1 Hp. unfold mbind, CM_bind. specialize (Hm c1). destruct (m c1) as [a c2]. apply Hf. by etransitivity.
Qed.
Lemma closes_then {A B} d (m : CM A) (f : A → CM B) :
  closes d m → (∀ a, keeps published (f a)) → closes d (m ≫= f).
Proof.
  intros Hm Hf c c1 Hp. unfold mbind, CM_bind. specialize (Hm c c1 Hp). destruct (m c1) as [a c2].
  etransitivity; [exact Hm|apply Hf].
Qed.
Lemma closes_notify d : closes d (cluster_topology_data_server_chg_notify me d true).
Proof.
  intros c c1 Hp. apply pub_notify. eapply pub_weaken; [..|exact Hp]; intros x ->; by right.
Qed.
Lemma closes_keeps {A} d (m : CM A) : closes d m → keeps published m.
Proof. intros Hm c. apply Hm. reflexivity. Qed.

Lemma pub_same Xm Xs c c' :
  CLUSTER_LEADER_PTR c' = CLUSTER_LEADER_PTR c →
  (∀ s, cs_status (c_cs c' s) = FS_SERVER_STATUS_ACTIVE ↔ cs_status (c_cs c s) = FS_SERVER_STATUS_ACTIVE) →
  (∀ s, cs_task (c_cs c' s) = cs_task (c_cs c s)) →
  (∀ s, cs_leader_version (c_cs c' s) = cs_leader_version (c_cs c s)) →
  (∀ s d, queued c s d → queued c' s d) →
  (∀ d, Xm d ∨ ds_is_master (c_ds c' d) = ds_is_master (c_ds c d)) →
  (∀ d, Xs d ∨ ds_status (c_ds c' d) = ds_status (c_ds c d)) → pub Xm Xs c c'.
Proof.
  intros El ? ? ? ? Hm Hs Hl. split; [unfold am_leader in *; by rewrite <- El|].
  split; try done; intros d; [destruct (Hm d)|destruct (Hs d)]; auto.
Qed.
Lemma pub_on_relationship Xm Xs f : keeps (pub Xm Xs) (on_relationship f).
Proof. intros c. apply pub_same; auto. Qed.
Lemma pub_on_dg Xm Xs g f : keeps (pub Xm Xs) (on_dg g f).
Proof. intros c. apply pub_same; auto. Qed.
Lemma pub_put_version Xm Xs v : keeps (pub Xm Xs) (put_version v).
Proof. intros c. apply pub_same; auto. Qed.
Lemma pub_put_election Xm Xs e : keeps (pub Xm Xs) (put_election e).
Proof. intros c. apply pub_same; auto. Qed.
Lemma pub_last_ping Xm Xs s t : keeps (pub Xm Xs) (on_cs s (set_last_ping_time t)).
Proof.
  intros c. apply pub_same; auto; intros; simpl; try (by apply alter_proj); [by rewrite alter_proj|].
  unfold queued. simpl. by rewrite (alter_proj cs_in_queue).
Qed.
Lemma pub_on_ds Xm Xs d f :
  Xm d ∨ (∀ x, ds_is_master (f x) = ds_is_master x) → Xs d ∨ (∀ x, ds_status (f x) = ds_status x) →
  keeps (pub Xm Xs) (on_ds d f).
Proof.
  intros Hm Hs c. apply pub_same; auto; intros x; simpl; destruct (decide (d = x)) as [->|];
    rewrite ?fn_lookup_alter_ne by done; auto; rewrite fn_lookup_alter; [destruct Hm|destruct Hs]; auto.
Qed.
Lemma pub_version d v : keeps published (on_ds d (set_ds_version v)).
Proof. apply pub_on_ds; by right. Qed.
Lemma pub_last_report d v : keeps published (on_ds d (set_last_report_version v)).
Proof. apply pub_on_ds; by right. Qed.
Lemma pub_chg_notify d b : keeps published (cluster_topology_data_server_chg_notify me d b).
Proof. intros c. apply pub_notify. apply pub_same; auto. Qed.
Lemma pub_is_master d b : keeps (pending d) (on_ds d (set_is_master b)).
Proof. apply pub_on_ds; [by left|by right]. Qed.
#[local] Hint Resolve pub_on_relationship pub_on_dg pub_put_version pub_put_election pub_last_ping pub_version
  pub_last_report pub_chg_notify pub_is_master : keeps.
#[local] Hint Extern 7 (keeps (pending _) _) => (apply keeps_published_pending; solve [eauto with keeps]) : keeps.

(** ** The status of a data server *)
Lemma set_status_pub Xm d s s' c r c' :
  cluster_relationship_set_ds_status_ex me d s s' c = (r, c') →
  pub Xm (λ x, x = d) c c' ∧ (r = false → c' = c).
Proof.
  unfold cluster_relationship_set_ds_status_ex. destruct (decide (s' = s)); [intros [= <- <-]; split; [reflexivity|done]|].
  unfold mbind at 1, CM_bind at 1. simpl. destruct (decide _); [|intros [= <- <-]; split; [reflexivity|done]].
  intros E. split.
  - assert (keeps (pub Xm (λ x, x = d)) (on_ds d (set_ds_status s');; cluster_relationship_on_status_change me d s';; mret true)) as Hk.
    { apply keeps_bind; [apply _|apply pub_on_ds; [by right|by left]|intros _].
      unfold cluster_relationship_on_status_change, recovery_thread_push_to_queue. keeps. }
    specialize (Hk c). by rewrite E in Hk.
  - intros ->. exfalso. revert E. unfold mbind, CM_bind. simpl.
    by destruct (cluster_relationship_on_status_change me d s' _).
Qed.
Lemma report_closes d s s' c c1 : pub none (λ x, x = d) c c1 →
  published c (cluster_relationship_report_ds_status me d s s' c1).2.
Proof.
  intros Hp. destruct (am_leader me c1) eqn:El.
  2:{ intros Hl. exfalso. unfold am_leader in *. rewrite (q_leader _ _ (quiet_report me d s s' c1)) in Hl. congruence. }
  unfold cluster_relationship_report_ds_status, mbind at 1, CM_bind at 1. simpl. rewrite El.
  match goal with |- published c ((?m ≫= ?f) c1).2 => set (first := m) end.
  assert (keeps (pub none (λ x, x = d)) first) as Hm.
  { subst first. destruct (decide _); [|keeps]. keeps_step; [keeps|]. destruct (decide _); [|keeps].
    apply pub_on_ds; [by right|by left]. }
  unfold mbind at 1, CM_bind at 1. specialize (Hm c1). destruct (first c1) as [u c2]. simpl in Hm.
  unfold mbind, CM_bind.
  assert (published c (cluster_topology_data_server_chg_notify me d (negb (d.2 =? me)) c2).2) as Hn.
  { apply pub_notify. eapply pub_weaken; [..|etransitivity; [exact Hp|exact Hm]]; [by left|by right]. }
  by destruct (cluster_topology_data_server_chg_notify me d (negb (d.2 =? me)) c2).
Qed.
Lemma pub_swap_report d s s' : keeps published (cluster_relationship_swap_report_ds_status me d s s').
Proof.
  intros c. unfold cluster_relationship_swap_report_ds_status, mbind at 1, CM_bind at 1.
  destruct (cluster_relationship_set_ds_status_ex me d s s' c) as [r c1] eqn:E. apply (set_status_pub none) in E as [Hp Hr].
  destruct r; simpl; [|rewrite Hr by done; reflexivity].
  pose proof (report_closes d s s' c c1 Hp) as Hc. unfold mbind, CM_bind.
  by destruct (cluster_relationship_report_ds_status me d s s' c1).
Qed.
#[local] Hint Resolve pub_swap_report : keeps.
Lemma pub_on_master_change o n : keeps published (cluster_relationship_on_master_change me o n).
Proof.
  unfold cluster_relationship_on_master_change, recovery_thread_check_push_to_queue, recovery_thread_push_to_queue. keeps.
Qed.
#[local] Hint Resolve pub_on_master_change : keeps.
Lemma pub_queue_push g : keeps published (master_election_queue_push g).
Proof. unfold master_election_queue_push, master_election_thread_start, on_election. keeps. Qed.
Lemma pub_push_delay g : keeps published (master_election_push_to_delay_queue g).
Proof. unfold master_election_push_to_delay_queue, on_election. keeps. Qed.
#[local] Hint Resolve pub_queue_push pub_push_delay : keeps.

(** ** Servers come and go, masters are elected *)
Lemma downgrade_run d b c r c' : downgrade_data_server_status me d b c = (r, c') →
  pending d c c' ∧ (r = false → c' = c).
Proof.
  unfold downgrade_data_server_status, mbind, CM_bind. simpl. intros E. apply (set_status_pub (λ x, x = d)) in E. done.
Qed.
(** [m] has changed [d] if it says so. *)
Lemma pub_if_changed d (m : CM bool) :
  (∀ c r c', m c = (r, c') → pending d c c' ∧ (r = false → published c c')) →
  keeps published (changed ← m; if (changed : bool) then cluster_topology_data_server_chg_notify me d true else mret tt).
Proof.
  intros Hm c. unfold mbind, CM_bind. destruct (m c) as [r c1] eqn:E. apply Hm in E as [H1 H2].
  destruct r; [by apply closes_notify|auto].
Qed.
Lemma pub_offline d b : keeps published (cluster_topology_offline_data_server me d b).
Proof.
  unfold cluster_topology_offline_data_server. intros c. unfold mbind at 1, CM_bind at 1.
  destruct (downgrade_data_server_status me d b c) as [r c1] eqn:E. apply downgrade_run in E as [H1 H2].
  unfold mbind at 1, CM_bind at 1. simpl. destruct (b && ds_is_master (c_ds c1 d)).
  - match goal with |- published c ((?m ≫= ?f) c1).2 =>
      assert (keeps (pending d) m) as Hm; [|assert (∀ c, (m c).1 = true) as Hr; [|set (prog := m) in *]] end.
    + assert (keeps published (for_each (group_servers d.1) (λ cur,
            if decide (cur = d) then mret tt else
            changed ← downgrade_data_server_status me cur false;
            if (changed : bool) then cluster_topology_data_server_chg_notify me cur true else mret tt))).
      { keeps_step. destruct (decide _); [keeps|]. apply pub_if_changed. intros c0 r0 c0' E0.
        apply downgrade_run in E0 as [Hd1 Hd2]. split; [done|]. intros ->%Hd2. reflexivity. }
      match goal with Hk : keeps published ?m |- _ => set (rest := m) in *; clearbody rest end. keeps.
    + intros c0. unfold mbind, CM_bind. simpl. by destruct (if decide (_ = Some d) then _ else _).
    + unfold mbind, CM_bind. specialize (Hm c1). specialize (Hr c1). destruct (prog c1) as [r2 c2]. simpl in Hm, Hr.
      subst r2. apply closes_notify. by etransitivity.
  - unfold mbind, CM_bind. simpl. destruct r; [by apply closes_notify|]. rewrite H2 by done. reflexivity.
Qed.
#[local] Hint Resolve pub_offline : keeps.
Lemma pub_deal_delay_queue : keeps published master_election_deal_delay_queue.
Proof.
  unfold master_election_deal_delay_queue, deal_delayed, master_election_thread_start, on_election. keeps.
Qed.
Lemma pub_select_master now now_ms g : keeps published (select_master me now now_ms g).
Proof. unfold select_master, start_election. keeps. Qed.
Lemma pub_elect now now_ms g : keeps published (master_election_select_master me now now_ms g).
Proof.
  pose proof (pub_select_master now now_ms g). unfold master_election_select_master.
  keeps_step; [keeps|]. destruct (decide _); [keeps|]. keeps_step; [done|].
  destruct a0 as [d|e|]; [|keeps..]. apply (closes_keeps d).
  apply closes_first; [keeps|intros _]. apply closes_first; [keeps|intros _]. apply closes_first; [keeps|intros _].
  apply closes_then; [apply closes_notify|intros _]. keeps.
Qed.
#[local] Hint Resolve pub_elect : keeps.
Lemma pub_select_turn now now_ms : keeps published (select_master_turn me now now_ms).
Proof. unfold select_master_turn. keeps. Qed.

(** ** Requests *)
Lemma dv_run d st v c r c' : cluster_relationship_set_ds_status_and_dv me d st v c = (r, c') →
  pub none (λ x, x = d) c c' ∧ (r = 0 → c' = c).
Proof.
  unfold cluster_relationship_set_ds_status_and_dv, cluster_relationship_set_ds_status.
  unfold mbind, CM_bind. cbn [cget fst snd].
  destruct (cluster_relationship_set_ds_status_ex me d (ds_status (c_ds c d)) st c) as [ch c1] eqn:E. apply (set_status_pub none) in E as [H1 H2].
  cbn.
  destruct (negb (v =? ds_version (c_ds c1 d))); intros E; apply pair_equal_spec in E as [<- <-].
  - split; [|by destruct ch]. etransitivity; [exact H1|]. apply pub_on_ds; by right.
  - split; [done|]. destruct ch; [discriminate|auto].
Qed.
Lemma pub_ping_part d st v : keeps published (set_ds_status_and_data_version me d st v false).
Proof.
  intros c. unfold set_ds_status_and_data_version, mbind at 1, CM_bind at 1.
  destruct (cluster_relationship_set_ds_status_and_dv me d st v c) as [r c1] eqn:E. apply dv_run in E as [H1 H2].
  destruct (Z.eqb_spec r 0) as [->|Hr]; simpl; [rewrite H2 by done; reflexivity|].
  assert (published c (cluster_topology_data_server_chg_notify me d false c1).2) as Hn.
  { apply pub_notify. eapply pub_weaken; [..|exact H1]; [by left|intros x ->; by right]. }
  unfold mbind, CM_bind. by destruct (cluster_topology_data_server_chg_notify me d false c1).
Qed.
#[local] Hint Resolve pub_ping_part : keeps.
Lemma pub_ping_parts peer parts n : keeps published (process_ping_parts me peer parts n).
Proof. revert n. induction parts as [|[[? ?] ?] parts IH]; intros n; simpl; keeps. Qed.
#[local] Hint Resolve pub_ping_parts : keeps.
Lemma pub_ping now e1 e2 peer v parts : keeps published (cluster_deal_ping_leader me now e1 e2 peer v parts).
Proof. unfold cluster_deal_ping_leader, process_ping_leader_req, add_version. keeps. Qed.
Lemma pub_report_status mine id g st : keeps published (cluster_deal_report_ds_status me mine id g st).
Proof.
  unfold cluster_deal_report_ds_status. keeps_step; [keeps|]. destruct (negb _); [keeps|].
  destruct (fs_get_data_server g id) as [d|] eqn:Ed; [|keeps]. keeps_step; [keeps|].
  keeps_step; [unfold report_by_master; keeps|]. destruct a1; [keeps|].
  assert (d.2 = id) as Hd.
  { unfold fs_get_data_server in Ed. destruct (_ && _); [|done]. by injection Ed as <-. }
  intros c. unfold mbind at 1, CM_bind at 1.
  destruct (cluster_relationship_set_ds_status_ex me d a0 st c) as [r c1] eqn:E. apply (set_status_pub none) in E as [H1 H2].
  destruct r; [|rewrite H2 by done; reflexivity].
  set (b := negb (mine =? id)).
  assert (published c (cluster_topology_data_server_chg_notify me d b c1).2) as Hn.
  { apply pub_notify. eapply pub_weaken; [..|exact H1]; [by left|intros x ->; by right]. }
  unfold mbind, CM_bind. destruct (cluster_topology_data_server_chg_notify me d b c1) as [u c2].
  etransitivity; [exact Hn|]. apply (pub_put_version none none).
Qed.
Lemma pub_offline_slaves peer l n : keeps published (offline_slaves me peer l n).
Proof.
  revert n. induction l as [|d l IH]; intros n; simpl; [keeps|]. unfold offline_slave.
  assert (∀ d s s', keeps published (cluster_relationship_report_ds_status me d s s')) as Hr.
  { intros x s s' c. apply report_closes. apply (pub_weaken none none); [done|by intros ? []|reflexivity]. }
  keeps.
Qed.
Lemma pub_pack b l : keeps published (pack_changed_data_versions b l).
Proof. induction l; simpl; keeps. Qed.
Lemma pub_version_changes : keeps published (leader_deal_data_version_changes me).
Proof. unfold leader_deal_data_version_changes. keeps. Qed.
End Publish.
