(* ===== verification/ClusterView.v ===== *)
(** * What the followers see

    The leader, the connections to its followers and what a follower makes of the messages:
    when nothing is queued or on its way for a data server, an active follower has the leader's
    view of it. *)
From stdpp Require Import functions.
From S2P Require Import Prelude RpcResultRing Replication Cluster Topology MasterElection Leader ClusterHandler ClusterInv ClusterThms LeaderThms ClusterMain ClusterWaiting ClusterPublish.

Section Steps.
Context `{ClusterConfig} `{Qsort} (me : Z).
Variables not_leader inconsistent : Z.
Abbreviation published := (pub me none none).

(** ** What the leader does without its connections *)
#[local] Hint Resolve pub_on_relationship pub_on_dg pub_put_version pub_put_election pub_last_ping pub_version
  pub_last_report pub_chg_notify pub_swap_report pub_on_master_change pub_queue_push pub_push_delay pub_offline
  pub_deal_delay_queue pub_elect pub_select_turn pub_ping pub_report_status pub_offline_slaves pub_pack
  pub_version_changes : keeps.
Lemma pub_gone c c' : am_leader me c' = false → published c c'.
Proof. intros E Hl. congruence. Qed.
Lemma pub_unset_leader : keeps published cluster_unset_leader.
Proof.
  intros c. apply pub_gone. unfold cluster_unset_leader, mbind, CM_bind, am_leader. simpl.
  destruct (CLUSTER_LEADER_PTR c) eqn:E; simpl; [done|]. by rewrite E.
Qed.
Lemma pub_is_leader s b : keeps published (on_cs s (set_is_leader b)).
Proof.
  intros c. apply pub_same; auto; intros; simpl; try (by apply alter_proj); [by rewrite alter_proj|].
  unfold queued. simpl. by rewrite (alter_proj cs_in_queue).
Qed.
Lemma pub_seen_online now s :
  keeps published (cluster_relationship_swap_server_status now s FS_SERVER_STATUS_OFFLINE FS_SERVER_STATUS_ONLINE).
Proof.
  intros c. unfold cluster_relationship_swap_server_status, mbind, CM_bind. simpl.
  destruct (decide _) as [E|]; [|reflexivity]. apply pub_same; simpl; auto; intros; try (by apply alter_proj).
  - destruct (decide (s = s0)) as [->|]; [|by rewrite fn_lookup_alter_ne]. rewrite fn_lookup_alter. simpl. by rewrite E.
  - unfold queued. simpl. by rewrite (alter_proj cs_in_queue).
Qed.
#[local] Hint Resolve pub_unset_leader pub_is_leader pub_seen_online : keeps.
Lemma pub_check_inactive now answers l : keeps published (check_inactive now answers l).
Proof. induction l as [|[? ?] l IH]; simpl; [keeps|]. unfold do_check_brainsplit. keeps. Qed.
#[local] Hint Resolve pub_check_inactive : keeps.

(** Becoming the leader: all others are offline. *)
Definition alone (c : Cluster) : Prop :=
  ∀ s, s ∈ CLUSTER_SERVER_ARRAY → s ≠ me → cs_status (c_cs c s) ≠ FS_SERVER_STATUS_ACTIVE.
Definition pub_or_new (c c' : Cluster) : Prop := published c c' ∨ am_leader me c = false ∧ alone c'.
Lemma pub_or_new_then c c1 c2 : pub_or_new c c1 → published c1 c2 → pub_or_new c c2.
Proof.
  intros [Hp|[Hl Ha]] H2; [left; by etrans|]. destruct (am_leader me c2) eqn:E2; [|left; by apply pub_gone].
  right. split; [done|]. destruct (H2 E2) as [_ [Hs _ _ _ _ _]]. intros s Hin Hne. rewrite Hs. auto.
Qed.
Record same_status (c c' : Cluster) : Prop := {
  y_status s : cs_status (c_cs c' s) = cs_status (c_cs c s);
}.
#[local] Instance same_status_preorder : PreOrder same_status.
Proof. split; [by intros c; split|]. intros c1 c2 c3 [] []. split. intros; congruence. Qed.
Lemma keeps_quiet_status {A} (m : CM A) : keeps quiet m → keeps same_status m.
Proof. intros Hm c. destruct (Hm c). by split. Qed.
Lemma status_on_cs s f : (∀ x, cs_status (f x) = cs_status x) → keeps same_status (on_cs s f).
Proof. intros Hf c. split. intros x. simpl. by apply alter_proj. Qed.
Lemma status_on_ds d f : keeps same_status (on_ds d f). Proof. by intros c; split. Qed.
Lemma status_on_dg g f : keeps same_status (on_dg g f). Proof. by intros c; split. Qed.
Lemma status_put_leader l : keeps same_status (put_leader l). Proof. by intros c; split. Qed.
Lemma status_put_version v : keeps same_status (put_version v). Proof. by intros c; split. Qed.
Lemma status_put_election e : keeps same_status (put_election e). Proof. by intros c; split. Qed.
Lemma status_on_relationship f : keeps same_status (on_relationship f). Proof. by intros c; split. Qed.
#[local] Hint Resolve status_on_ds status_on_dg status_put_leader status_put_version status_put_election status_on_relationship : keeps.
#[local] Hint Extern 4 (keeps same_status (on_cs _ _)) => (by apply status_on_cs) : keeps.
#[local] Hint Extern 5 (keeps same_status _) => (apply keeps_quiet_status; solve [eauto with keeps]) : keeps.
Lemma status_queue_push g : keeps same_status (master_election_queue_push g).
Proof. unfold master_election_queue_push, master_election_thread_start, on_election. keeps. Qed.
Lemma status_push_delay g : keeps same_status (master_election_push_to_delay_queue g).
Proof. unfold master_election_push_to_delay_queue, on_election. keeps. Qed.
#[local] Hint Resolve status_queue_push status_push_delay : keeps.
Lemma status_offline d b : keeps same_status (cluster_topology_offline_data_server me d b).
Proof. unfold cluster_topology_offline_data_server. keeps. Qed.
#[local] Hint Resolve status_offline : keeps.
Lemma set_status_run now s st c :
  let c' := (cluster_relationship_set_server_status now s st c).2 in
  cs_status (c_cs c' s) = st ∧ ∀ x, x ≠ s → cs_status (c_cs c' x) = cs_status (c_cs c x).
Proof.
  unfold cluster_relationship_set_server_status, cluster_relationship_swap_server_status, mbind, CM_bind. simpl.
  destruct (decide (st = _)) as [->|]; simpl; [done|]. rewrite decide_True by done. simpl. rewrite fn_lookup_alter.
  split; [done|]. intros x Hx. by rewrite fn_lookup_alter_ne.
Qed.
Lemma deactivate_all_run now c : alone (cluster_relationship_deactivate_all_servers me now c).2.
Proof.
  unfold cluster_relationship_deactivate_all_servers.
  match goal with |- context [for_each _ ?f] => set (body := f) end.
  assert (∀ L c, ∀ s, s ≠ me → s ∈ L ∨ cs_status (c_cs c s) ≠ FS_SERVER_STATUS_ACTIVE →
    cs_status (c_cs (for_each L body c).2 s) ≠ FS_SERVER_STATUS_ACTIVE) as Hl; [|intros s Hs Hne; apply Hl; auto].
  induction L as [|x L IH]; intros c1 s Hne Hs; simpl.
  - destruct Hs as [?%not_elem_of_nil|?]; done.
  - unfold mbind, CM_bind. destruct (body x c1) as [u c2] eqn:E. apply IH; [done|].
    subst body. cbv beta in E. destruct (Z.eqb_spec x me) as [->|Hx].
    + injection E as _ <-. destruct Hs as [[->|?]%elem_of_cons|?]; auto.
    + unfold mbind, CM_bind in E. pose proof (set_status_run now x FS_SERVER_STATUS_OFFLINE c1) as [H1 H2].
      destruct (cluster_relationship_set_server_status now x FS_SERVER_STATUS_OFFLINE c1) as [r c3].
      simpl in H1, H2. injection E as _ <-. destruct (decide (s = x)) as [->|Hsx]; [right; by rewrite H1|].
      rewrite H2 by done. destruct Hs as [[->|?]%elem_of_cons|?]; auto.
Qed.
Lemma become_leader_alone now c : alone (become_leader me now c).2.
Proof.
  unfold become_leader. pose proof (deactivate_all_run now c) as H1. unfold mbind at 1, CM_bind at 1.
  destruct (cluster_relationship_deactivate_all_servers me now c) as [u c1]. simpl in H1.
  unfold mbind at 1, CM_bind at 1. pose proof (set_status_run now me FS_SERVER_STATUS_ACTIVE c1) as [_ H2].
  destruct (cluster_relationship_set_server_status now me FS_SERVER_STATUS_ACTIVE c1) as [r c2]. simpl in H2.
  match goal with |- alone (?m c2).2 => assert (keeps same_status m) as Hm end.
  { unfold init_inactive_server_array, cluster_topology_offline_all_data_servers. keeps. }
  intros s Hs Hne. rewrite (y_status _ _ (Hm c2)), H2 by done. by apply H1.
Qed.
Lemma alone_same c c' : same_status c c' → alone c → alone c'.
Proof. intros [E] Ha s Hs Hne. rewrite E. by apply Ha. Qed.
#[local] Existing Instance mono_preorder.
Lemma pub_or_new_set_leader now l c : pub_or_new c (cluster_relationship_set_leader me now l c).2.
Proof.
  unfold cluster_relationship_set_leader. unfold mbind at 1, CM_bind at 1. simpl.
  unfold mbind at 1, CM_bind at 1. destruct (flag_leader me now (CLUSTER_LEADER_PTR c) l c) as [u c1] eqn:Ef.
  match goal with |- pub_or_new c (?m c1).2 => set (rest := m) end.
  assert (keeps same_status rest) as Hst.
  { subst rest. unfold change_leader, cluster_relationship_clear_old_leader, master_election_unset_all_masters, unset_master. keeps. }
  unfold flag_leader in Ef. destruct (decide (l = me)) as [->|Hl].
  - destruct (am_leader me c) eqn:Em.
    + left. apply bool_decide_eq_true in Em. rewrite Em in Ef.
      assert (keeps published (on_cs me (set_is_leader true);;
        (if me =? me then if decide (Some me ≠ Some me) then become_leader me now else mret tt
         else on_cs me (set_is_leader false)))) as H1.
      { rewrite Z.eqb_refl, decide_False by (intros ?; done). keeps. }
      specialize (H1 c). rewrite Ef in H1. simpl in H1. etrans; [exact H1|].
      subst rest. rewrite Em. unfold change_leader. rewrite decide_False by (intros ?; done).
      assert (keeps published (mret tt;; on_relationship (set_leader_election 0 0);; mret 0)) as Hk by keeps. apply Hk.
    + right. split; [done|]. apply (alone_same c1); [apply Hst|]. rewrite Z.eqb_refl, decide_True in Ef.
      * change (become_leader me now (on_cs me (set_is_leader true) c).2 = (u, c1)) in Ef.
        pose proof (become_leader_alone now (on_cs me (set_is_leader true) c).2) as Ha. by rewrite Ef in Ha.
      * intros E. unfold am_leader in Em. by rewrite E, bool_decide_eq_true_2 in Em.
  - left. apply pub_gone. apply Z.eqb_neq in Hl as Hl'. rewrite Hl' in Ef.
    assert (CLUSTER_LEADER_PTR c1 = CLUSTER_LEADER_PTR c) as E1 by (injection Ef as _ <-; done).
    assert (keeps mono (cluster_relationship_clear_old_leader l;; if l =? me then master_election_unset_all_masters me else mret tt)) as Hm.
    { pose proof (clear_old_leader_mono l). rewrite Hl'. keeps. }
    subst rest. unfold change_leader. clear Hst.
    match type of Hm with keeps mono ?m => set (rest := m) in *; clearbody rest end.
    destruct (decide _) as [Hne|He].
    + unfold mbind, CM_bind. simpl. set (c2 := mkCluster _ _ _ (Some l) _ _ _). specialize (Hm c2).
      destruct (rest c2) as [u2 c3]. simpl in Hm |- *.
      unfold am_leader. simpl. rewrite (m_leader _ _ Hm). simpl. apply bool_decide_eq_false. congruence.
    + apply dec_stable in He. unfold am_leader, mbind, CM_bind. simpl. rewrite E1, He. apply bool_decide_eq_false. congruence.
Qed.
Lemma pub_or_new_next_leader now cmd l c : pub_or_new c (next_leader_cmd me now cmd l c).2.
Proof.
  destruct cmd; simpl.
  - left. assert (keeps published (cluster_relationship_pre_set_leader l)) as Hk; [|apply Hk].
    unfold cluster_relationship_pre_set_leader. keeps.
  - unfold cluster_relationship_commit_leader. unfold mbind at 1, CM_bind at 1. simpl.
    destruct (rc_next_leader (c_relationship c)) as [n|]; [|left; reflexivity].
    destruct (n =? l).
    + unfold mbind, CM_bind. pose proof (pub_or_new_set_leader now l c) as Hp.
      destruct (cluster_relationship_set_leader me now l c) as [r c1]. eapply pub_or_new_then; [exact Hp|].
      apply (pub_on_relationship me none none).
    + left. assert (keeps published (on_relationship (set_next_leader None);; mret EBUSY)) as Hk by keeps. apply Hk.
Qed.
(** Whatever the leader does is published; a new leader starts alone. *)
Lemma server_step_pub c c' : server_step me not_leader inconsistent c c' → pub_or_new c c'.
Proof.
  assert (∀ A (m : CM A), keeps published m → after m c c' → pub_or_new c c') as Ha by (by intros A m Hm ->; left).
  intros [];
    try lazymatch goal with
    | _ : after (cluster_process_leader_push _ _ _) _ _ |- _ => idtac
    | _ : after (cluster_relationship_set_leader _ _ _) _ _ |- _ => idtac
    | _ : after (next_leader_cmd _ _ _ _) _ _ |- _ => idtac
    | _ : after (cluster_deal_next_leader _ _ _ _) _ _ |- _ => idtac
    | _ => eapply Ha; [|eassumption]
    end; try solve [eauto with keeps].
  - unfold select_master_thread_exit, on_election. keeps.
  - unfold leader_check. keeps.
  - unfold after in *. subst c'. left. apply pub_gone. unfold am_leader in *.
    by rewrite (s_leader _ _ (leader_push_same me parts version c)).
  - unfold after in *. subst c'. apply pub_or_new_set_leader.
  - unfold after in *. subst c'. apply pub_or_new_next_leader.
  - unfold cluster_deal_get_server_status. keeps.
  - unfold after in *. subst c'. unfold cluster_deal_next_leader. unfold mbind at 1, CM_bind at 1. simpl.
    destruct (am_leader me c) eqn:E; [|destruct (fs_get_server_by_id id); [apply pub_or_new_next_leader|left; reflexivity]].
    left. assert (keeps published (cluster_unset_leader;; mret EEXIST)) as Hk by keeps. apply Hk.
  - unfold cluster_relationship_trigger_report_ds_status. keeps.
  - unfold cluster_topology_offline_slave_data_servers. keeps.
Qed.

(** ** What a message does to the view of a follower *)
Definition part_master (p : PushPart) (f : DataServer → bool) (x : DataServer) : bool :=
  if decide (x = pp_ds p) then pp_is_master p
  else if pp_is_master p && (x.1 =? (pp_ds p).1) then false else f x.
Definition part_status (p : PushPart) (f : DataServer → DSStatus) (x : DataServer) : DSStatus :=
  if decide (x = pp_ds p) then pp_status p else f x.
Definition masters_of (v : Cluster) (x : DataServer) : bool := ds_is_master (c_ds v x).
Definition statuses_of (v : Cluster) (x : DataServer) : DSStatus := ds_status (c_ds v x).

Record own_status (s : Z) (c c' : Cluster) : Prop := {
  o_status x : x.2 ≠ s → ds_status (c_ds c' x) = ds_status (c_ds c x);
}.
#[local] Instance own_status_preorder s : PreOrder (own_status s).
Proof. split; [by intros c; split|]. intros c1 c2 c3 [E1] [E2]. split. intros x Hx. by rewrite E2, E1. Qed.
Lemma own_on_ds s d f : d.2 = s ∨ (∀ x, ds_status (f x) = ds_status x) → keeps (own_status s) (on_ds d f).
Proof.
  intros Hf c. split. intros x Hx. simpl. destruct Hf as [Hd|Hf]; [|by apply alter_proj].
  rewrite fn_lookup_alter_ne; [done|]. congruence.
Qed.
Lemma own_on_cs s x f : keeps (own_status s) (on_cs x f). Proof. by intros c; split. Qed.
Lemma own_on_dg s g f : keeps (own_status s) (on_dg g f). Proof. by intros c; split. Qed.
Lemma own_on_relationship s f : keeps (own_status s) (on_relationship f). Proof. by intros c; split. Qed.
Lemma own_put_version s v : keeps (own_status s) (put_version v). Proof. by intros c; split. Qed.
#[local] Hint Resolve own_on_cs own_on_dg own_on_relationship own_put_version : keeps.
#[local] Hint Extern 4 (keeps (own_status _) (on_ds _ _)) => (apply own_on_ds; by first [left; done|right]) : keeps.
Lemma own_set_status s d st st' : d.2 = s → keeps (own_status s) (cluster_relationship_set_ds_status_ex s d st st').
Proof.
  intros Hd. unfold cluster_relationship_set_ds_status_ex, cluster_relationship_on_status_change, recovery_thread_push_to_queue. keeps.
Qed.
Lemma own_master_change s o n : keeps (own_status s) (cluster_relationship_on_master_change s o n).
Proof.
  assert (∀ d st st', d.2 = s → keeps (own_status s) (cluster_relationship_swap_report_ds_status s d st st')) as Hr.
  { intros d st st' Hd. pose proof (own_set_status s d st st' Hd).
    unfold cluster_relationship_swap_report_ds_status, cluster_relationship_report_ds_status, report_ds_status_to_leader,
      cluster_relationship_trigger_report_ds_status, cluster_topology_data_server_chg_notify, push_event. keeps. }
  unfold cluster_relationship_on_master_change, recovery_thread_check_push_to_queue, recovery_thread_push_to_queue.
  destruct (match o with Some _ => _ | None => _ end) as [g|]; [|keeps].
  destruct (decide _); [keeps|]. destruct (group_myself s g.1) as [d|] eqn:E; [|keeps].
  assert (d.2 = s) as Hd by (unfold group_myself in E; destruct (bool_decide _); [by injection E as <-|done]).
  pose proof (λ st st', Hr d st st' Hd). keeps.
Qed.
#[local] Hint Resolve own_master_change own_set_status : keeps.

(** The first part of [cluster_process_push_entry] is about the status, the second about the
    master. *)
Definition push_status (s : Z) (p : PushPart) : CM unit :=
  let ds := pp_ds p in
  if ds.2 =? s then
    if decide (pp_status p = FS_DS_STATUS_OFFLINE) then
      old_status ← cget (λ c, ds_status (c_ds c ds));
      if bool_decide (old_status = FS_DS_STATUS_ACTIVE) && negb (pp_is_master p) then
        cluster_relationship_set_ds_status_ex s ds old_status FS_DS_STATUS_OFFLINE;; mret tt
      else mret tt
    else mret tt
  else
    cluster_relationship_set_ds_status s ds (pp_status p);;
    on_ds ds (set_ds_version (pp_data_version p)).
Lemma set_ds_status_run s d st c r c' : cluster_relationship_set_ds_status s d st c = (r, c') →
  ds_status (c_ds c' d) = st ∧ ∀ x, x ≠ d → ds_status (c_ds c' x) = ds_status (c_ds c x).
Proof.
  unfold cluster_relationship_set_ds_status, cluster_relationship_set_ds_status_ex. unfold mbind at 1, CM_bind at 1. simpl.
  destruct (decide (st = _)) as [->|]; [by intros [= <- <-]|].
  unfold mbind at 1 2, CM_bind at 1 2. simpl. rewrite decide_True by done.
  set (c1 := mkCluster _ _ _ _ _ _ _).
  assert (∀ m : CM unit, (∀ c, c_ds (m c).2 = c_ds c) → (m;; mret true) c1 = (r, c') → c_ds c' = c_ds c1) as Hm.
  { intros m Hm. unfold mbind, CM_bind. specialize (Hm c1). destruct (m c1). by intros [= <- <-]. }
  intros E. apply Hm in E as ->.
  - subst c1. simpl. rewrite fn_lookup_alter. split; [done|]. intros x Hx. by rewrite fn_lookup_alter_ne.
  - intros c0. unfold cluster_relationship_on_status_change, recovery_thread_push_to_queue, mbind, CM_bind. simpl.
    destruct (dg_master _) as [[? ?]|]; [|done]. destruct (_ =? _); [|done]. by destruct (_ && _).
Qed.
Lemma push_status_run s p c (x : DataServer) : x.2 ≠ s →
  ds_status (c_ds (push_status s p c).2 x) = part_status p (statuses_of c) x.
Proof.
  unfold push_status, part_status, statuses_of. set (d := pp_ds p). intros Hx.
  destruct (Z.eqb_spec d.2 s) as [Hd|Hd].
  - destruct (decide (x = d)) as [Ex|_]; [by rewrite Ex in Hx|].
    match goal with |- ds_status (c_ds (?m c).2 x) = _ => assert (keeps (own_status s) m) as Hm by keeps; by apply (Hm c) end.
  - unfold mbind, CM_bind. destruct (cluster_relationship_set_ds_status s d (pp_status p) c) as [r c1] eqn:E.
    apply set_ds_status_run in E as [H1 H2]. simpl.
    rewrite (alter_proj ds_status) by done. destruct (decide (x = d)) as [->|]; auto.
Qed.
Definition push_master (s : Z) (p : PushPart) (is_master : bool) : CM unit :=
  let ds := pp_ds p in
  if Bool.eqb is_master (pp_is_master p) then mret tt else
  old_master ← cget (λ c, dg_master (c_dg c ds.1));
  on_ds ds (set_is_master (pp_is_master p));;
  if pp_is_master p then
    (if decide (old_master ≠ Some ds) then
       (match old_master with
        | Some old => on_ds old (set_is_master false)
        | None => mret tt
        end);;
       on_dg ds.1 (set_master (Some ds))
     else mret tt);;
    cluster_relationship_on_master_change s old_master (Some ds);; mret tt
  else if decide (old_master = Some ds) then
    on_dg ds.1 (set_master None);;
    cluster_relationship_on_master_change s old_master None;; mret tt
  else mret tt.
Lemma push_entry_parts s p :
  cluster_process_push_entry s p = (is_master ← cget (λ c, ds_is_master (c_ds c (pp_ds p))); push_status s p;; push_master s p is_master).
Proof. reflexivity. Qed.
(** The master of the group as a push leaves it. *)
Definition pushed_master (p : PushPart) (c : Cluster) (g : Z) : option DataServer :=
  if decide (g = (pp_ds p).1) then
    if pp_is_master p then Some (pp_ds p)
    else if decide (dg_master (c_dg c g) = Some (pp_ds p)) then None else dg_master (c_dg c g)
  else dg_master (c_dg c g).
Lemma master_change_dg s o n c : c_dg (cluster_relationship_on_master_change s o n c).2 = c_dg c.
Proof. apply (q_dg _ _ (quiet_on_master_change s o n c)). Qed.
Lemma push_master_run s p c g : cluster_ok c →
  dg_master (c_dg (push_master s p (ds_is_master (c_ds c (pp_ds p))) c).2 g) = pushed_master p c g.
Proof.
  intros Hc. unfold push_master, pushed_master. set (d := pp_ds p). destruct (ok_masters _ Hc) as [_ Hm]. specialize (Hm d).
  destruct (Bool.eqb _ _) eqn:Ee.
  - apply Bool.eqb_prop in Ee. rewrite <- Ee. destruct (decide (g = d.1)) as [->|]; [|done].
    destruct (ds_is_master (c_ds c d)); [by apply Hm|]. rewrite decide_False; [done|]. by intros ?%Hm.
  - apply Bool.eqb_false_iff in Ee. unfold mbind at 1 2, CM_bind at 1 2. simpl.
    destruct (pp_is_master p) eqn:Ep.
    + rewrite decide_True by (intros Hd%Hm; congruence). unfold mbind, CM_bind. simpl.
      destruct (dg_master (c_dg c d.1)) as [o|]; simpl;
        match goal with |- context [cluster_relationship_on_master_change s ?o ?n ?c1] =>
          pose proof (master_change_dg s o n c1) as Hq; destruct (cluster_relationship_on_master_change s o n c1) as [r c2] end;
        simpl in Hq |- *; rewrite Hq; (destruct (decide (g = d.1)) as [->|]; [by rewrite fn_lookup_alter|by rewrite fn_lookup_alter_ne]).
    + assert (dg_master (c_dg c d.1) = Some d) as Hd by (apply Hm; by destruct (ds_is_master (c_ds c d))).
      rewrite Hd, decide_True by done. unfold mbind, CM_bind. simpl.
      match goal with |- context [cluster_relationship_on_master_change s ?o ?n ?c1] =>
        pose proof (master_change_dg s o n c1) as Hq; destruct (cluster_relationship_on_master_change s o n c1) as [r c2] end.
      simpl in Hq |- *. rewrite Hq. destruct (decide (g = d.1)) as [->|]; [|by rewrite fn_lookup_alter_ne].
      by rewrite fn_lookup_alter, decide_True.
Qed.
Lemma own_push_master s p b : keeps (own_status s) (push_master s p b).
Proof. unfold push_master. keeps. Qed.
Lemma masters_of_dg c (x : DataServer) : cluster_ok c → masters_of c x = bool_decide (dg_master (c_dg c x.1) = Some x).
Proof.
  intros Hc. destruct (ok_masters _ Hc) as [_ Hm]. specialize (Hm x). unfold masters_of.
  case_bool_decide as Hd; [by apply Hm|]. destruct (ds_is_master (c_ds c x)); [|done]. by destruct Hd; apply Hm.
Qed.
#[local] Existing Instance core_preorder.
#[local] Hint Resolve core_set_ds_version : keeps.
#[local] Hint Extern 5 (keeps core _) => (apply keeps_quiet_core; solve [eauto with keeps]) : keeps.
(** A message entry: the view has the leader's mastership and, but for the own data servers,
    the leader's status. *)
Lemma push_entry_run s p c :
  cluster_ok c → pp_ds p ∈ group_servers (pp_ds p).1 →
  cluster_ok (cluster_process_push_entry s p c).2 ∧
  ∀ x : DataServer, masters_of (cluster_process_push_entry s p c).2 x = part_master p (masters_of c) x ∧
    (x.2 ≠ s → statuses_of (cluster_process_push_entry s p c).2 x = part_status p (statuses_of c) x).
Proof.
  intros Hc Hp. assert (cluster_ok (cluster_process_push_entry s p c).2) as Hc' by by apply (safe_push_entry s p Hp).
  split; [done|]. set (c1 := (push_status s p c).2).
  assert (keeps core (push_status s p)) as Hk by (unfold push_status; keeps). specialize (Hk c). fold c1 in Hk.
  assert ((cluster_process_push_entry s p c).2 = (push_master s p (ds_is_master (c_ds c (pp_ds p))) c1).2) as E.
  { rewrite push_entry_parts. subst c1. unfold mbind, CM_bind. simpl. by destruct (push_status s p c). }
  rewrite E in Hc' |- *. clear E. intros x. rewrite (masters_of_dg _ x Hc'). clear Hc'.
  pose proof (push_status_run s p c x) as H1. fold c1 in H1. clearbody c1.
  assert (cluster_ok c1) as Hc1 by by eapply core_ok.
  assert (ds_is_master (c_ds c (pp_ds p)) = ds_is_master (c_ds c1 (pp_ds p))) as Eb by by rewrite (k_is_master _ _ Hk).
  rewrite Eb. split.
  - rewrite push_master_run by done. unfold pushed_master, part_master. rewrite !(k_master _ _ Hk).
    destruct (decide (x = pp_ds p)) as [->|Hx].
    + rewrite decide_True by done. destruct (pp_is_master p); [by apply bool_decide_eq_true|].
      apply bool_decide_eq_false. by case_decide.
    + rewrite (masters_of_dg _ x Hc). destruct (Z.eqb_spec x.1 (pp_ds p).1) as [Eg|Eg].
      * rewrite decide_True by done. destruct (pp_is_master p); simpl; [apply bool_decide_eq_false; congruence|].
        apply bool_decide_ext. case_decide as Ed; [|done]. rewrite Ed. split; [done|congruence].
      * rewrite decide_False by done. by rewrite andb_false_r.
  - intros Hx. unfold statuses_of. rewrite (o_status _ _ _ (own_push_master s p _ c1) x Hx). by apply H1.
Qed.

(** ** Messages *)
Definition in_config (d : DataServer) : Prop := fs_get_data_server d.1 d.2 ≠ None.
(** The view [v] of the server [s] is that of the leader [c]; the status of the own data servers
    is the server's own affair, and that of a data server that is marked may differ. *)
Definition agree (s : Z) (marked : bool) (c v : Cluster) (d : DataServer) : Prop :=
  masters_of v d = masters_of c d ∧ (d.2 ≠ s → marked = false → statuses_of v d = statuses_of c d).
Definition message : Type := list PushPart * Z.
Definition deliver (s : Z) (m : message) (v : Cluster) : Cluster := (cluster_process_leader_push s m.1 m.2 v).2.
Definition delivered (s : Z) (l : list message) (v : Cluster) : Cluster := fold_left (λ v m, deliver s m v) l v.
Definition take_part (s : Z) (p : PushPart) : CM unit :=
  match fs_get_data_server (pp_ds p).1 (pp_ds p).2 with
  | Some _ => cluster_process_push_entry s p
  | None => mret tt
  end.
Lemma in_config_group d : in_config d → d ∈ group_servers d.1.
Proof.
  unfold in_config, fs_get_data_server. destruct (bool_decide (_ ∈ CLUSTER_DATA_RGOUP_ARRAY)); [|done]. simpl.
  case_bool_decide; [|done]. intros _. by apply elem_of_group_servers.
Qed.
Lemma take_part_run s p c :
  cluster_ok c →
  cluster_ok (take_part s p c).2 ∧
  ∀ x : DataServer,
    masters_of (take_part s p c).2 x =
      (if decide (in_config (pp_ds p)) then part_master p (masters_of c) x else masters_of c x) ∧
    (x.2 ≠ s → statuses_of (take_part s p c).2 x =
      if decide (in_config (pp_ds p)) then part_status p (statuses_of c) x else statuses_of c x).
Proof.
  intros Hc. unfold take_part. destruct (decide (in_config (pp_ds p))) as [Hp|Hp].
  - pose proof Hp as Hp'. unfold in_config in Hp'. destruct (fs_get_data_server _ _); [|done].
    apply push_entry_run; [done|]. by apply in_config_group.
  - unfold in_config in Hp. destruct (fs_get_data_server _ _); [by destruct Hp|]. by split.
Qed.
Lemma deliver_parts s parts version v :
  deliver s (parts, version) v = (put_version version (for_each parts (take_part s) v).2).2.
Proof.
  unfold deliver, cluster_process_leader_push, mbind, CM_bind. simpl.
  change (for_each parts (λ part, match fs_get_data_server (pp_ds part).1 (pp_ds part).2 with
    | Some _ => cluster_process_push_entry s part | None => mret tt end)) with (for_each parts (take_part s)).
  by destruct (for_each parts (take_part s) v).
Qed.
Lemma for_each_parts s parts (P : Cluster → Prop) v :
  (∀ p v, p ∈ parts → P v → P (take_part s p v).2) → P v → P (for_each parts (take_part s) v).2.
Proof.
  revert v. induction parts as [|p parts IH]; intros v Hp Hv; simpl; [done|].
  unfold mbind, CM_bind. specialize (Hp p v ltac:(by left) Hv) as H1. destruct (take_part s p v) as [u v1].
  apply IH; [|done]. intros q w Hq. apply Hp. by right.
Qed.
Lemma deliver_ok s m v : cluster_ok v → cluster_ok (deliver s m v).
Proof. intros Hv. unfold deliver. by apply (safe_leader_push s). Qed.

(** What is sent is the leader's view at that time. *)
Lemma part_agrees s b c v d p :
  cluster_ok c → cluster_ok v → in_config d → p = push_part c (pp_ds p) →
  pp_ds p = d ∨ agree s b c v d → agree s b c (take_part s p v).2 d.
Proof.
  intros Hc Hv Hd Ep Ha. destruct (take_part_run s p v Hv) as [_ Hr]. destruct (Hr d) as [H1 H2].
  split; [rewrite H1|intros Hs Hb; rewrite H2 by done]; clear H1 H2 Hr.
  - destruct (decide (in_config (pp_ds p))) as [Hp|Hp]; [|destruct Ha as [Ea|Ha]; [by rewrite Ea in Hp|apply Ha]].
    unfold part_master. destruct (decide (d = pp_ds p)) as [->|Hne]; [by rewrite Ep|].
    destruct Ha as [?|Ha]; [congruence|]. destruct (pp_is_master p && (d.1 =? (pp_ds p).1)) eqn:E; [|apply Ha].
    apply andb_prop in E as [E1 E2]. apply Z.eqb_eq in E2. rewrite Ep in E1. simpl in E1.
    symmetry. rewrite masters_of_dg by done. apply bool_decide_eq_false. rewrite E2.
    change (masters_of c (pp_ds p) = true) in E1. rewrite masters_of_dg in E1 by done.
    apply bool_decide_eq_true in E1. rewrite E1. congruence.
  - destruct (decide (in_config (pp_ds p))) as [Hp|Hp]; [|destruct Ha as [Ea|Ha]; [by rewrite Ea in Hp|by apply Ha]].
    unfold part_status. destruct (decide (d = pp_ds p)) as [->|Hne]; [by rewrite Ep|].
    destruct Ha as [?|Ha]; [congruence|by apply Ha].
Qed.
Lemma deliver_agree s b c v events version d :
  cluster_ok c → cluster_ok v → in_config d → d ∈ events ∨ agree s b c v d →
  agree s b c (deliver s (push_part c <$> events, version) v) d.
Proof.
  intros Hc Hv Hd. rewrite deliver_parts. revert v Hv. induction events as [|e events IH]; intros v Hv Ha.
  - destruct Ha as [?%not_elem_of_nil|Ha]; [done|exact Ha].
  - rewrite fmap_cons. simpl for_each. unfold mbind, CM_bind.
    destruct (take_part_run s (push_part c e) v Hv) as [H1 _].
    assert (d ∈ events ∨ agree s b c (take_part s (push_part c e) v).2 d) as H2.
    { destruct (decide (d ∈ events)) as [|Hn]; [by left|right]. apply part_agrees; try done. simpl.
      destruct Ha as [[->|?]%elem_of_cons|?]; [by left|done|by right]. }
    destruct (take_part s (push_part c e) v) as [u v1]. by apply IH.
Qed.
(** The data servers whose status the server changed itself since it took over a message about
    them. *)
Definition told_about (m : message) (x : DataServer) : Prop := in_config x ∧ x ∈ (pp_ds <$> m.1).
#[export] Instance told_about_dec m x : Decision (told_about m x).
Proof. unfold told_about, in_config. apply _. Defined.
Definition clear_marks (m : message) (marks : DataServer → bool) : DataServer → bool :=
  λ x, marks x && negb (bool_decide (told_about m x)).
Definition marks_after (l : list message) (marks : DataServer → bool) : DataServer → bool :=
  fold_left (λ marks m, clear_marks m marks) l marks.
(** What a follower changes by itself, with the marks [marks] afterwards. *)
Definition same_view (s : Z) (marks : DataServer → bool) (v w : Cluster) : Prop :=
  ∀ x : DataServer, masters_of w x = masters_of v x ∧
    (x.2 ≠ s → marks x = false → statuses_of w x = statuses_of v x).
Lemma deliver_same s m marks v w :
  cluster_ok v → cluster_ok w → same_view s marks v w →
  same_view s (clear_marks m marks) (deliver s m v) (deliver s m w).
Proof.
  destruct m as [parts version]. rewrite !deliver_parts.
  assert (Hgen : ∀ parts v w (P : DataServer → Prop), cluster_ok v → cluster_ok w →
    (∀ x : DataServer, masters_of w x = masters_of v x ∧ (x.2 ≠ s → P x → statuses_of w x = statuses_of v x)) →
    ∀ x : DataServer, masters_of (for_each parts (take_part s) w).2 x = masters_of (for_each parts (take_part s) v).2 x ∧
      (x.2 ≠ s → P x ∨ (in_config x ∧ x ∈ (pp_ds <$> parts)) →
       statuses_of (for_each parts (take_part s) w).2 x = statuses_of (for_each parts (take_part s) v).2 x)).
  { clear. induction parts as [|p parts IH]; intros v w P Hv Hw Hs x.
    - destruct (Hs x) as [H1 H2]. split; [done|]. intros Hx [?|[_ ?%elem_of_nil]]; [by apply H2|done].
    - simpl for_each. unfold mbind, CM_bind. destruct (take_part_run s p v Hv) as [Hv1 Rv].
      destruct (take_part_run s p w Hw) as [Hw1 Rw].
      destruct (take_part s p v) as [u1 v1], (take_part s p w) as [u2 w1]. simpl in *.
      destruct (IH v1 w1 (λ y, P y ∨ (in_config y ∧ y = pp_ds p)) Hv1 Hw1) with (x := x) as [H1 H2].
      { intros y. destruct (Rv y) as [-> Sv], (Rw y) as [-> Sw], (Hs y) as [Em Es]. unfold part_master, part_status in *. split.
        + by rewrite Em.
        + intros Hy HP. rewrite Sv, Sw by done. destruct (decide (in_config (pp_ds p))) as [Hp|Hp].
          * destruct (decide (y = pp_ds p)); [done|]. apply Es; [done|]. by destruct HP as [?|[_ ?]].
          * apply Es; [done|]. destruct HP as [?|[Hy' ->]]; done. }
      split; [done|]. intros Hx HP. apply H2; [done|]. rewrite elem_of_cons in HP. tauto. }
  intros Hv Hw Hs x.
  destruct (Hgen parts v w (λ x, marks x = false) Hv Hw Hs x) as [H1 H2]. split; [exact H1|].
  intros Hx Hm. apply H2; [done|]. unfold clear_marks in Hm. simpl in Hm.
  destruct (marks x); [right|by left]. simpl in Hm. apply negb_false_iff, bool_decide_eq_true in Hm. exact Hm.
Qed.
Lemma delivered_same s l marks v w : cluster_ok v → cluster_ok w → same_view s marks v w →
  same_view s (marks_after l marks) (delivered s l v) (delivered s l w).
Proof.
  unfold delivered, marks_after. revert marks v w. induction l as [|m l IH]; intros marks v w Hv Hw Hs; simpl; [done|].
  apply IH; [by apply deliver_ok..|]. by apply deliver_same.
Qed.
Lemma delivered_ok s l v : cluster_ok v → cluster_ok (delivered s l v).
Proof. unfold delivered. revert v. induction l as [|m l IH]; intros v Hv; simpl; [done|]. by apply IH, deliver_ok. Qed.
End Steps.
