(* ===== verification/ClusterSystem.v ===== *)
(** * A leader and its followers

    The leader with the connections of its followers, the messages on their way and what the
    followers make of them. *)
From stdpp Require Import functions.
From S2P Require Import Prelude RpcResultRing Replication Cluster Topology MasterElection Leader ClusterHandler ClusterInv ClusterThms LeaderThms ClusterMain ClusterWaiting ClusterPublish ClusterView.

Section System.
Context `{ClusterConfig} `{Qsort} (me : Z).
Variables not_leader inconsistent : Z.

(** The leader; for every server the version of the leader it was told when it joined, the
    messages sent to it that it has not processed, and its own cluster state. Ghosts:
    [sy_marks] are the data servers whose status the server may have changed itself since it
    took over a message about them, [sy_unsent] those whose status the leader changed without
    an event, and has not sent to the server since. *)
Record System := mkSystem {
  sy_leader : Cluster;
  sy_joined : Z → option Z;
  sy_sent : Z → list message;
  sy_view : Z → Cluster;
  sy_marks : Z → DataServer → bool;
  sy_unsent : Z → DataServer → bool;
}.
Definition leader_version (c : Cluster) : Z := cs_leader_version (c_cs c me).
(** A server that becomes the leader does so under a version that no open connection was
    opened under. *)
Definition new_term (c c' : Cluster) (joined : Z → option Z) : Prop :=
  am_leader me c = false → am_leader me c' = true →
  ∀ s, cs_task (c_cs c' s) ≠ None → joined s ≠ Some (leader_version c').
Inductive system_step : System → System → Prop :=
  | sys_server c joined sent view marks unsent c' :
      server_step me not_leader inconsistent c c' → new_term c c' joined →
      system_step (mkSystem c joined sent view marks unsent) (mkSystem c' joined sent view marks unsent)
  | sys_join c joined sent view marks unsent now task peer id r c' :
      cluster_deal_join_leader me now not_leader task peer id c = (r, c') →
      system_step (mkSystem c joined sent view marks unsent)
        (mkSystem c' (match r with inr (s, version) => <[s := Some version]> joined | inl _ => joined end) sent view marks unsent)
  | sys_active c joined sent view marks unsent now peer v parts r c' :
      (* the request comes over the connection the peer joined with and holds the version told then *)
      cs_task (c_cs c peer) ≠ None → joined peer = Some v →
      cluster_deal_active_server me now not_leader inconsistent (Some peer) v parts c = (r, c') →
      system_step (mkSystem c joined sent view marks unsent) (mkSystem c' joined sent view marks unsent)
  | sys_cleanup c joined sent view marks unsent now task peer c' :
      peer ∈ CLUSTER_SERVER_ARRAY →
      joined peer ≠ None →
      (cluster_task_finish_cleanup me now task peer c).2 = c' →
      system_step (mkSystem c joined sent view marks unsent)
        (mkSystem c' joined (if decide (cs_task (c_cs c peer) = Some task) then <[peer := []]> sent else sent) view marks unsent)
  | sys_notify c joined sent view marks unsent busy s r message c' :
      process_notify_events busy s c = ((r, message), c') →
      system_step (mkSystem c joined sent view marks unsent)
        (mkSystem c' joined (match message with Some m => <[s := sent s ++ [m]]> sent | None => sent end) view
           marks (match message with Some m => <[s := clear_marks m (unsent s)]> unsent | None => unsent end))
  | sys_deliver c joined sent view marks unsent s m l :
      sent s = m :: l →
      system_step (mkSystem c joined sent view marks unsent)
        (mkSystem c joined (<[s := l]> sent) (<[s := deliver s m (view s)]> view)
           (<[s := clear_marks m (marks s)]> marks) unsent)
  | sys_follower c joined sent view marks unsent s v marks' :
      (* whatever else the follower does: it does not change the masters, and it marks the data
         servers of others whose status it changes *)
      cluster_ok v → same_view s marks' (view s) v → (∀ x, marks s x = true → marks' x = true) →
      system_step (mkSystem c joined sent view marks unsent) (mkSystem c joined sent (<[s := v]> view) (<[s := marks']> marks) unsent)
  | sys_catch_up c joined sent view marks unsent ds old c' :
      (* as the master of a group the leader finds that a slave has caught up: no event *)
      old = FS_DS_STATUS_REBUILDING ∨ old = FS_DS_STATUS_RECOVERING →
      after (cluster_relationship_set_ds_status_ex me ds old FS_DS_STATUS_ONLINE) c c' →
      system_step (mkSystem c joined sent view marks unsent)
        (mkSystem c' joined sent view marks (λ s x, unsent s x || bool_decide (x = ds))).
Inductive system_reachable : System → Prop :=
  | sys_init hint version load view :
      (∀ s, cluster_ok (view s)) →
      system_reachable (mkSystem (cluster_start me hint version load) (λ _, None) (λ _, []) view
        (λ _ _, false) (λ _ _, false))
  | sys_next y y' : system_reachable y → system_step y y' → system_reachable y'.

(** ** The invariant *)
Record follows (c : Cluster) (joined : option Z) (v : Cluster) (marked : DataServer → bool) (s : Z) : Prop := {
  f_active : cs_status (c_cs c s) = FS_SERVER_STATUS_ACTIVE → cs_task (c_cs c s) ≠ None ∧ joined = Some (leader_version c);
  f_view d : cs_task (c_cs c s) ≠ None → joined = Some (leader_version c) → in_config d →
    queued c s d ∨ cs_status (c_cs c s) = FS_SERVER_STATUS_ACTIVE ∧ agree s (marked d) c v d;
}.
(** The marks of [s] once it has taken over the messages on their way, and what was not sent. *)
Definition blurred (sent : Z → list message) (marks unsent : Z → DataServer → bool) (s : Z) (d : DataServer) : bool :=
  unsent s d || marks_after (sent s) (marks s) d.
Definition followed (c : Cluster) (joined : Z → option Z) (sent : Z → list message) (view : Z → Cluster)
    (marks unsent : Z → DataServer → bool) : Prop :=
  am_leader me c = true →
  ∀ s, s ∈ CLUSTER_SERVER_ARRAY → s ≠ me →
  follows c (joined s) (delivered s (sent s) (view s)) (blurred sent marks unsent s) s.
Lemma blurred_ext sent sent' marks marks' unsent unsent' s :
  sent' s = sent s → marks' s = marks s → unsent' s = unsent s →
  blurred sent' marks' unsent' s = blurred sent marks unsent s.
Proof. unfold blurred. by intros -> -> ->. Qed.
Lemma agree_blur s b b' c v d : (b = true → b' = true) → agree s b c v d → agree s b' c v d.
Proof. intros Hb [H1 H2]. split; [done|]. intros Hs E. apply H2; [done|]. destruct b; [by rewrite Hb in E|done]. Qed.
Lemma marks_after_mono l marks marks' x :
  (∀ x, marks x = true → marks' x = true) → marks_after l marks x = true → marks_after l marks' x = true.
Proof.
  unfold marks_after. revert marks marks'. induction l as [|m l IH]; intros marks marks' Hm; simpl; [apply Hm|].
  apply IH. intros y. unfold clear_marks. intros [H1 H2]%andb_prop. by rewrite Hm, H2.
Qed.
Lemma clear_marks_other (events : list DataServer) (f : DataServer → PushPart) version marks d :
  (∀ x, pp_ds (f x) = x) → d ∉ events → clear_marks (f <$> events, version) marks d = marks d.
Proof.
  intros Hf Hd. unfold clear_marks. rewrite bool_decide_eq_false_2; [by destruct (marks d)|].
  intros [_ Hin]. apply Hd. simpl in Hin. rewrite <- list_fmap_compose in Hin.
  apply list_elem_of_fmap in Hin as (y & -> & Hy). simpl. by rewrite Hf.
Qed.
Lemma follows_pub c c' j v mk s :
  pub_while me none none c c' → s ∈ CLUSTER_SERVER_ARRAY → s ≠ me → follows c j v mk s → follows c' j v mk s.
Proof.
  intros [S T V Q M D] Hin Hne [Fa Fv]. unfold leader_version in *. split; unfold leader_version.
  - rewrite S, T, V. exact Fa.
  - intros d. rewrite S, T, V. intros Ht Hj Hd. destruct (Fv d Ht Hj Hd) as [Hq|[Ha [A1 A2]]]; [left; auto|].
    assert (told me c s) as Htold by by split_and!.
    destruct (M d) as [[]|[M1|M1]]; [|left; auto].
    destruct (D d) as [[]|[D1|D1]].
    + right. split; [done|]. unfold agree, masters_of, statuses_of in *. by rewrite M1, D1.
    + destruct (decide (s = d.2)) as [Hs|Hs]; [|left; auto]. right. split; [done|]. split; [|congruence].
      unfold masters_of in *. by rewrite M1.
Qed.
(** Only the server [p] changes. *)
Record touches (p : Z) (c c' : Cluster) : Prop := {
  t_leader : CLUSTER_LEADER_PTR c' = CLUSTER_LEADER_PTR c;
  t_ds : c_ds c' = c_ds c;
  t_others s : s ≠ p → c_cs c' s = c_cs c s;
}.
#[local] Instance touches_preorder p : PreOrder (touches p).
Proof. split; [by intros c; split|]. intros c1 c2 c3 [] []. split; try congruence. intros s Hs. rewrite t_others1; auto. Qed.
Lemma touches_on_cs p f : keeps (touches p) (on_cs p f).
Proof. intros c. split; [done..|]. intros s Hs. simpl. by rewrite fn_lookup_alter_ne. Qed.
Lemma touches_on_relationship p f : keeps (touches p) (on_relationship f). Proof. by intros c; split. Qed.
#[local] Hint Resolve touches_on_cs touches_on_relationship : keeps.
Lemma touches_other p c c' j v mk s :
  touches p c c' → leader_version c' = leader_version c → s ≠ p → follows c j v mk s → follows c' j v mk s.
Proof.
  intros [_ Eds Ecs] El Hs [Fa Fv]. unfold queued, agree, masters_of, statuses_of in *.
  split; unfold queued, agree, masters_of, statuses_of; [|intros d]; rewrite ?Eds, (Ecs s Hs), El; [exact Fa|apply Fv].
Qed.
Lemma touches_version p c c' : touches p c c' → p ≠ me → leader_version c' = leader_version c.
Proof. intros Ht Hp. unfold leader_version. by rewrite (t_others _ _ _ Ht) by congruence. Qed.

(** ** Steps *)
Lemma followed_server c c' joined sent view marks unsent :
  server_step me not_leader inconsistent c c' → new_term c c' joined →
  followed c joined sent view marks unsent → followed c' joined sent view marks unsent.
Proof.
  intros Hs Hn Hf Hl s Hin Hne. apply server_step_pub in Hs as [Hp|[Hc Ha]].
  - destruct (Hp Hl) as [Hc Hw]. by eapply follows_pub; [|done..|apply Hf].
  - split.
    + intros Hst. by destruct (Ha s Hin Hne).
    + intros d Ht Hj. by destruct (Hn Hc Hl s Ht).
Qed.
Lemma touches_push_event s d : keeps (touches s) (push_event s d).
Proof. unfold push_event. keeps. Qed.
#[local] Hint Resolve touches_push_event : keeps.
Lemma queued_kept {A} s d (m : CM A) c : keeps quiet m → queued c s d → queued (m c).2 s d.
Proof. intros Hm. apply (Hm c). Qed.
Lemma sync_queues s d c : in_config d → queued (cluster_topology_sync_all_data_servers s c).2 s d.
Proof.
  intros Hd. pose proof (in_config_group d Hd) as Hg. unfold in_config, fs_get_data_server in Hd.
  destruct (bool_decide_reflect (d.1 ∈ CLUSTER_DATA_RGOUP_ARRAY)) as [Hin|]; [|done]. clear Hd.
  unfold cluster_topology_sync_all_data_servers. revert c.
  induction CLUSTER_DATA_RGOUP_ARRAY as [|g gs IH]; intros c; [by apply not_elem_of_nil in Hin|].
  simpl. unfold mbind, CM_bind.
  destruct (decide (g = d.1)) as [->|Hne].
  - assert (queued (for_each (group_servers d.1) (push_event s) c).2 s d) as Hq.
    { clear IH Hin. revert c. induction (group_servers d.1) as [|x l IH]; intros c; [by apply not_elem_of_nil in Hg|].
      simpl. unfold mbind, CM_bind. apply elem_of_cons in Hg as [<-|Hg].
      - pose proof (push_event_queued s d c) as Hq. destruct (push_event s d c) as [u c1].
        apply queued_kept; [|done]. keeps.
      - destruct (push_event s x c) as [u c1]. by apply IH. }
    destruct (for_each (group_servers d.1) (push_event s) c) as [u c1]. apply queued_kept; [|done]. keeps.
  - destruct (for_each (group_servers g) (push_event s) c) as [u c1]. apply IH.
    apply elem_of_cons in Hin as [?|?]; [congruence|done].
Qed.
Lemma join_run now task peer id c r c' :
  cluster_deal_join_leader me now not_leader task peer id c = (r, c') →
  match r with
  | inl _ => c' = c
  | inr (s, version) =>
      s ≠ me ∧ version = leader_version c ∧ touches s c c' ∧
      cs_status (c_cs c' s) ≠ FS_SERVER_STATUS_ACTIVE ∧ ∀ d, in_config d → queued c' s d
  end.
Proof.
  unfold cluster_deal_join_leader. destruct (fs_get_server_by_id id) as [s|]; [|by intros [= <- <-]].
  destruct (Z.eqb_spec s me) as [|Hs]; [by intros [= <- <-]|]. unfold mbind at 1, CM_bind at 1. simpl.
  destruct (am_leader me c); simpl; [|by intros [= <- <-]]. destruct (decide _); [by intros [= <- <-]|].
  unfold mbind at 1, CM_bind at 1. simpl. destruct (decide _); [by intros [= <- <-]|].
  unfold mbind at 1, CM_bind at 1. simpl. set (c1 := mkCluster (alter (set_task (Some task)) s (c_cs c)) _ _ _ _ _ _).
  assert (touches s c c1) as H1 by apply (touches_on_cs s (set_task (Some task)) c).
  unfold mbind at 1, CM_bind at 1.
  destruct ((if decide (cs_status (c_cs c s) = FS_SERVER_STATUS_ACTIVE)
      then cluster_relationship_set_server_status now s FS_SERVER_STATUS_OFFLINE;; mret tt else mret tt) c1) as [u c2] eqn:E2.
  assert (touches s c1 c2 ∧ cs_status (c_cs c2 s) ≠ FS_SERVER_STATUS_ACTIVE) as [H2 Hst].
  { destruct (decide _) as [Ha|Ha].
    - unfold mbind, CM_bind in E2. pose proof (set_status_run now s FS_SERVER_STATUS_OFFLINE c1) as [H3 _].
      assert (keeps (touches s) (cluster_relationship_set_server_status now s FS_SERVER_STATUS_OFFLINE)) as Hk.
      { unfold cluster_relationship_set_server_status, cluster_relationship_swap_server_status. keeps. }
      specialize (Hk c1). destruct (cluster_relationship_set_server_status now s FS_SERVER_STATUS_OFFLINE c1) as [r1 c3].
      injection E2 as _ <-. simpl in H3, Hk. by rewrite H3.
    - injection E2 as _ <-. split; [reflexivity|]. subst c1. simpl. by rewrite (alter_proj cs_status). }
  clear E2. unfold mbind, CM_bind.
  assert (keeps (touches s) (cluster_topology_sync_all_data_servers s)) as Hk.
  { unfold cluster_topology_sync_all_data_servers. keeps. }
  specialize (Hk c2). pose proof (λ d, sync_queues s d c2) as Hq. pose proof (quiet_sync_all s c2) as Hqu.
  destruct (cluster_topology_sync_all_data_servers s c2) as [u3 c3]. simpl in Hk, Hq, Hqu. intros [= <- <-].
  assert (touches s c c3) as Ht by (etrans; [exact H1|]; by etrans).
  split_and!; [done| |done|by rewrite (q_status _ _ Hqu)|done].
  by eapply touches_version.
Qed.
Lemma touches_leads p c c' : touches p c c' → am_leader me c' = am_leader me c.
Proof. intros Ht. unfold am_leader. by rewrite (t_leader _ _ _ Ht). Qed.
Lemma followed_join c joined sent view marks unsent now task peer id r c' :
  cluster_deal_join_leader me now not_leader task peer id c = (r, c') →
  followed c joined sent view marks unsent →
  followed c' (match r with inr (s, version) => <[s := Some version]> joined | inl _ => joined end) sent view marks unsent.
Proof.
  intros E Hf. apply join_run in E. destruct r as [e|[p version]]; [by subst|].
  destruct E as (Hp & -> & Ht & Hst & Hq). intros Hl s Hin Hne. rewrite (touches_leads _ _ _ Ht) in Hl.
  destruct (decide (s = p)) as [->|Hs].
  - split; [done|]. intros d _ _ Hd. left. auto.
  - rewrite fn_lookup_insert_ne by done. apply (touches_other p c); [done|by eapply touches_version|done|]. by apply Hf.
Qed.

(** A request of a follower. *)
Hypothesis not_leader_error : not_leader ≠ 0.
Hypothesis inconsistent_error : inconsistent ≠ 0.
Lemma ping_zero now p v parts c c' :
  cluster_deal_ping_leader me now not_leader inconsistent (Some p) v parts c = (0, c') → v = leader_version c.
Proof.
  unfold cluster_deal_ping_leader. unfold mbind at 1, CM_bind at 1. simpl.
  destruct (am_leader me c); simpl; [|by intros [= ?]]. unfold process_ping_leader_req.
  unfold mbind, CM_bind. simpl. destruct (Z.eqb_spec v (cs_leader_version (c_cs c me))) as [->|Hv]; [done|].
  simpl. destruct (Z.eqb_spec inconsistent 0); simpl; [done|]. intros E. injection E as E _. done.
Qed.
(** [c'] is [c] with the server [p] active. *)
Lemma follows_active c c' j v mk p :
  touches p c c' → p ≠ me → cs_task (c_cs c' p) = cs_task (c_cs c p) →
  cs_in_queue (c_cs c' p) = cs_in_queue (c_cs c p) → cs_status (c_cs c' p) = FS_SERVER_STATUS_ACTIVE →
  cs_task (c_cs c p) ≠ None → j = Some (leader_version c) → follows c j v mk p → follows c' j v mk p.
Proof.
  intros Ht Hp Et Eq Es Hc Hj [Fa Fv]. pose proof (touches_version p c c' Ht Hp) as El.
  split; unfold queued, agree, masters_of, statuses_of; [|intros d]; rewrite ?(t_ds _ _ _ Ht), ?Et, ?Eq, ?Es, ?El; [done|].
  intros _ _ Hd. destruct (Fv d Hc Hj Hd) as [Hq|[_ Ha]]; auto.
Qed.
#[local] Hint Resolve pub_queue_push : keeps.
Lemma activate_run now p c r c' :
  cluster_topology_activate_server me now p c = (r, c') →
  pub me none none c c' ∨
  ∃ c1, touches p c c1 ∧ pub me none none c1 c' ∧ cs_task (c_cs c1 p) = cs_task (c_cs c p) ∧
    cs_in_queue (c_cs c1 p) = cs_in_queue (c_cs c p) ∧ cs_status (c_cs c1 p) = FS_SERVER_STATUS_ACTIVE.
Proof.
  unfold cluster_topology_activate_server. unfold mbind at 1, CM_bind at 1. simpl.
  destruct (am_leader me c); simpl; [|intros [= <- <-]; left; reflexivity].
  unfold mbind at 1, CM_bind at 1. pose proof (set_status_run now p FS_SERVER_STATUS_ACTIVE c) as [H1 _].
  assert (touches p c (cluster_relationship_set_server_status now p FS_SERVER_STATUS_ACTIVE c).2 ∧
    cs_task (c_cs (cluster_relationship_set_server_status now p FS_SERVER_STATUS_ACTIVE c).2 p) = cs_task (c_cs c p) ∧
    cs_in_queue (c_cs (cluster_relationship_set_server_status now p FS_SERVER_STATUS_ACTIVE c).2 p) = cs_in_queue (c_cs c p))
    as (H2 & H3 & H4).
  { unfold cluster_relationship_set_server_status, cluster_relationship_swap_server_status, mbind, CM_bind. simpl.
    destruct (decide _); simpl; [done|]. rewrite decide_True by done. simpl. rewrite fn_lookup_alter.
    split; [|done]. apply (touches_on_cs p _ c). }
  destruct (cluster_relationship_set_server_status now p FS_SERVER_STATUS_ACTIVE c) as [b c1]. simpl in H1, H2, H3, H4.
  match goal with |- ?m c1 = _ → _ => assert (keeps (pub me none none) m) as Hk end.
  { unfold cluster_relationship_remove_from_inactive_sarray. pose proof (pub_on_relationship me none none). keeps. }
  intros E. specialize (Hk c1). rewrite E in Hk. right. by exists c1.
Qed.
Lemma followed_active c joined sent view marks unsent now p v parts r c' :
  p ≠ me → cs_task (c_cs c p) ≠ None → joined p = Some v →
  cluster_deal_active_server me now not_leader inconsistent (Some p) v parts c = (r, c') →
  followed c joined sent view marks unsent → followed c' joined sent view marks unsent.
Proof.
  intros Hp Ht Hj E Hf. unfold cluster_deal_active_server, mbind, CM_bind in E.
  pose proof (pub_ping me now not_leader inconsistent (Some p) v parts c) as H1.
  destruct (cluster_deal_ping_leader me now not_leader inconsistent (Some p) v parts c) as [r1 c1] eqn:E1. simpl in H1.
  assert (∀ c2, pub me none none c c2 → followed c2 joined sent view marks unsent) as Hpub.
  { intros c2 H2 Hl s Hin Hne. destruct (H2 Hl) as [Hc Hw]. by eapply follows_pub; [|done..|apply Hf]. }
  destruct (Z.eqb_spec r1 0) as [->|Hr1]; [|injection E as _ <-; by apply Hpub].
  apply ping_zero in E1 as Ev. destruct (cluster_topology_activate_server me now p c1) as [b c2] eqn:E2.
  assert (c2 = c') as -> by (by injection E). clear E.
  apply activate_run in E2 as [H2|(c2 & H2 & H3 & Et & Eq & Es)]; [apply Hpub; by etrans|].
  intros Hl s Hin Hne. destruct (H3 Hl) as [Hl2 Hw3]. eapply follows_pub; [exact Hw3|done..|].
  rewrite (touches_leads _ _ _ H2) in Hl2. destruct (H1 Hl2) as [Hlc Hw1].
  assert (follows c1 (joined s) (delivered s (sent s) (view s)) (blurred sent marks unsent s) s) as Hf1 by (by eapply follows_pub; [|done..|apply Hf]).
  destruct (decide (s = p)) as [->|Hs].
  - eapply follows_active; [exact H2|done|done|done|done| | |].
    + by rewrite (p_task _ _ _ _ _ Hw1).
    + unfold leader_version in *. rewrite (p_leader_version _ _ _ _ _ Hw1). congruence.
    + exact Hf1.
  - eapply touches_other; [exact H2|by eapply touches_version|done|exact Hf1].
Qed.

(** The end of a connection. *)
#[local] Hint Resolve pub_offline pub_on_relationship : keeps.
Lemma swap_status_run now p st st' c b c' : cluster_relationship_swap_server_status now p st st' c = (b, c') →
  b = false ∧ c' = c ∧ cs_status (c_cs c p) ≠ st ∨ b = true ∧ touches p c c' ∧ cs_status (c_cs c' p) = st'.
Proof.
  unfold cluster_relationship_swap_server_status, mbind, CM_bind. simpl. destruct (decide _); simpl; intros [= <- <-]; [right|by left].
  simpl. rewrite fn_lookup_alter. split_and!; [done| |done]. apply (touches_on_cs p _ c).
Qed.
Lemma deactivate_run now p c r c' :
  cluster_topology_deactivate_server me now p c = (r, c') → am_leader me c' = true →
  ∃ c1, touches p c c1 ∧ pub me none none c1 c' ∧ cs_status (c_cs c' p) ≠ FS_SERVER_STATUS_ACTIVE.
Proof.
  unfold cluster_topology_deactivate_server. unfold mbind at 1, CM_bind at 1.
  destruct (cluster_relationship_swap_server_status now p FS_SERVER_STATUS_ACTIVE FS_SERVER_STATUS_OFFLINE c) as [b c1] eqn:Es.
  apply swap_status_run in Es as [(-> & -> & Ha)|(-> & H1 & H2)]; simpl.
  { intros [= <- <-] _. exists c. by split_and!. }
  unfold mbind at 1, CM_bind at 1. simpl. destruct (am_leader me c1) eqn:E1; simpl; [|intros [= <- <-]; congruence].
  match goal with |- ?m c1 = _ → _ => assert (keeps (pub me none none) m) as Hk end.
  { unfold cluster_relationship_add_to_inactive_sarray. keeps. }
  intros E Hl. specialize (Hk c1). rewrite E in Hk. simpl in Hk. exists c1. split_and!; [done..|].
  destruct (Hk Hl) as [_ Hw]. rewrite (p_status _ _ _ _ _ Hw), H2. done.
Qed.
Lemma followed_cleanup c joined sent view marks unsent now task p :
  p ≠ me →
  followed c joined sent view marks unsent →
  followed (cluster_task_finish_cleanup me now task p c).2 joined
    (if decide (cs_task (c_cs c p) = Some task) then <[p := []]> sent else sent) view marks unsent.
Proof.
  intros Hp Hf. unfold cluster_task_finish_cleanup. unfold mbind at 1, CM_bind at 1. simpl.
  destruct (decide _) as [Ht|Ht]; [|exact Hf]. unfold mbind, CM_bind.
  destruct (cluster_topology_deactivate_server me now p c) as [r c2] eqn:E. intros Hl s Hin Hne.
  pose proof (touches_on_cs p (set_task None) c2) as H3. set (c3 := (on_cs p (set_task None) c2).2) in *.
  rewrite (touches_leads _ _ _ H3) in Hl. apply deactivate_run in E as (c1 & H1 & H2 & Hst); [|done].
  destruct (decide (s = p)) as [->|Hs].
  - split.
    + subst c3. simpl. rewrite fn_lookup_alter. simpl. by intros ?%Hst.
    + intros d []. subst c3. simpl. by rewrite fn_lookup_alter.
  - rewrite (blurred_ext sent _ marks marks unsent unsent s) by (done || by rewrite fn_lookup_insert_ne).
    rewrite fn_lookup_insert_ne by done. eapply touches_other; [exact H3|by eapply touches_version|done|].
    destruct (H2 Hl) as [Hl1 Hw]. eapply follows_pub; [exact Hw|done..|].
    eapply touches_other; [exact H1|by eapply touches_version|done|]. apply Hf; [|done..].
    by rewrite <- (touches_leads _ _ _ H1).
Qed.

(** Messages. *)
Lemma delivered_snoc s l m v : delivered s (l ++ [m]) v = deliver s m (delivered s l v).
Proof. unfold delivered. by rewrite fold_left_app. Qed.
Lemma followed_notify c joined sent view marks unsent busy s r m c' :
  cluster_ok c → (∀ s, cluster_ok (view s)) →
  process_notify_events busy s c = ((r, m), c') → followed c joined sent view marks unsent →
  followed c' joined (match m with Some m => <[s := sent s ++ [m]]> sent | None => sent end) view
    marks (match m with Some m => <[s := clear_marks m (unsent s)]> unsent | None => unsent end).
Proof.
  intros Hc Hv E Hf. unfold process_notify_events in E. destruct busy; [by injection E as _ <- <-|].
  unfold mbind at 1, CM_bind at 1 in E. simpl in E. destruct (decide _) as [|Ha]; [by injection E as _ <- <-|].
  apply dec_stable in Ha. destruct (cs_queue (c_cs c s)) as [|q0 q] eqn:Eq; [by injection E as _ <- <-|]. rewrite <- Eq in E.
  set (events := take max_events_per_pkg (cs_queue (c_cs c s))) in E.
  unfold mbind, CM_bind in E.
  match type of E with (let '(_, _) := on_cs s ?f c in _) = _ =>
    pose proof (touches_on_cs s f c) as Ht; set (c1 := (on_cs s f c).2) in Ht;
    assert (c1 = c') as <- by (by injection E as _ _ <-) end.
  assert (m = Some (push_part c <$> events, CLUSTER_CURRENT_VERSION c)) as -> by (by injection E as _ <-). clear E.
  assert (leader_version c1 = leader_version c) as El.
  { unfold leader_version. subst c1. simpl. by rewrite (alter_proj cs_leader_version). }
  intros Hl x Hin Hne. rewrite (touches_leads _ _ _ Ht) in Hl. specialize (Hf Hl x Hin Hne).
  destruct (decide (x = s)) as [->|Hx].
  2:{ rewrite (blurred_ext sent _ marks marks unsent _ x) by (done || by rewrite fn_lookup_insert_ne).
      rewrite fn_lookup_insert_ne by done. by eapply touches_other. }
  rewrite fn_lookup_insert, delivered_snoc. destruct Hf as [Fa Fv].
  assert (cs_status (c_cs c1 s) = cs_status (c_cs c s) ∧ cs_task (c_cs c1 s) = cs_task (c_cs c s)) as [Es Et].
  { subst c1. simpl. by rewrite fn_lookup_alter. }
  assert (∀ d, d ∉ events → queued c s d → queued c1 s d) as Hq.
  { intros d Hd. unfold queued. subst c1. simpl. rewrite fn_lookup_alter. simpl. by rewrite release_events_run, decide_False. }
  assert (∀ b v d, agree s b c v d → agree s b c1 v d) as Hag.
  { intros b v d. unfold agree, masters_of, statuses_of. by rewrite (t_ds _ _ _ Ht). }
  split; rewrite Es, Et, El; [exact Fa|]. intros d Htask Hj Hd. clear Fa.
  pose proof (delivered_ok s (sent s) (view s) (Hv s)) as Hok.
  destruct (decide (d ∈ events)) as [He|He].
  - right. split; [done|]. apply Hag, deliver_agree; [done..|by left].
  - destruct (Fv d Htask Hj Hd) as [Hqd|[_ Hagd]]; [left; auto|]. right. split; [done|].
    apply Hag, deliver_agree; [done..|right]. revert Hagd. apply agree_blur. unfold blurred, marks_after.
    rewrite !fn_lookup_insert, fold_left_app. simpl. by rewrite !clear_marks_other.
Qed.
Lemma followed_deliver c joined sent view marks unsent s m l :
  sent s = m :: l → followed c joined sent view marks unsent →
  followed c joined (<[s := l]> sent) (<[s := deliver s m (view s)]> view)
    (<[s := clear_marks m (marks s)]> marks) unsent.
Proof.
  intros E Hf Hl x Hin Hne. specialize (Hf Hl x Hin Hne). destruct (decide (x = s)) as [->|Hx].
  - assert (blurred (<[s := l]> sent) (<[s := clear_marks m (marks s)]> marks) unsent s = blurred sent marks unsent s) as ->.
    { unfold blurred. by rewrite !fn_lookup_insert, E. }
    rewrite !fn_lookup_insert. by rewrite E in Hf.
  - rewrite (blurred_ext sent _ marks _ unsent unsent x) by (done || by rewrite fn_lookup_insert_ne).
    by rewrite !fn_lookup_insert_ne.
Qed.
Lemma followed_follower c joined sent view marks unsent s v marks' :
  (∀ s, cluster_ok (view s)) → cluster_ok v → same_view s marks' (view s) v →
  (∀ x, marks s x = true → marks' x = true) →
  followed c joined sent view marks unsent →
  followed c joined sent (<[s := v]> view) (<[s := marks']> marks) unsent.
Proof.
  intros Hv Hok Hs Hm Hf Hl x Hin Hne. specialize (Hf Hl x Hin Hne). destruct (decide (x = s)) as [->|Hx].
  - rewrite fn_lookup_insert. pose proof (delivered_same s (sent s) marks' (view s) v (Hv s) Hok Hs) as Hd.
    destruct Hf as [Fa Fv]. split; [done|]. intros d Ht Hj Hc. destruct (Fv d Ht Hj Hc) as [?|[? [A1 A2]]]; [by left|right].
    split; [done|]. destruct (Hd d) as [D1 D2]. split; [by rewrite D1|]. intros Hne' Hb. unfold blurred in *.
    rewrite fn_lookup_insert in Hb. apply orb_false_elim in Hb as [Hu Hb]. rewrite D2 by done. apply A2; [done|].
    rewrite Hu. simpl. destruct (marks_after (sent s) (marks s) d) eqn:E; [|done].
    by rewrite (marks_after_mono _ _ _ _ Hm E) in Hb.
  - rewrite (blurred_ext sent sent marks _ unsent unsent x) by (done || by rewrite fn_lookup_insert_ne).
    by rewrite fn_lookup_insert_ne.
Qed.
(** A slave of the leader has caught up. *)
Lemma status_change_run ds new c :
  let c' := (cluster_relationship_on_status_change me ds new c).2 in
  c_cs c' = c_cs c ∧ CLUSTER_LEADER_PTR c' = CLUSTER_LEADER_PTR c ∧ c_ds c' = c_ds c.
Proof.
  unfold cluster_relationship_on_status_change, mbind, CM_bind, cget. destruct (dg_master _); [|done].
  destruct (_ =? _); [|done]. by destruct (_ && _).
Qed.
Lemma set_status_ex_run ds old new c :
  let c' := (cluster_relationship_set_ds_status_ex me ds old new c).2 in
  c_cs c' = c_cs c ∧ CLUSTER_LEADER_PTR c' = CLUSTER_LEADER_PTR c ∧
  ∀ x, masters_of c' x = masters_of c x ∧ (x ≠ ds → statuses_of c' x = statuses_of c x).
Proof.
  assert (Hid : ∀ c : Cluster, c_cs c = c_cs c ∧ CLUSTER_LEADER_PTR c = CLUSTER_LEADER_PTR c ∧
    ∀ x, masters_of c x = masters_of c x ∧ (x ≠ ds → statuses_of c x = statuses_of c x)) by done.
  unfold cluster_relationship_set_ds_status_ex. destruct (decide (new = old)); [apply Hid|].
  unfold mbind, CM_bind, cget. destruct (decide (ds_status (c_ds c ds) = old)); [|apply Hid]. clear Hid.
  unfold on_ds, cmod. set (c1 := mkCluster _ _ _ _ _ _ _).
  assert (∀ x, masters_of c1 x = masters_of c x ∧ (x ≠ ds → statuses_of c1 x = statuses_of c x)) as H1.
  { intros x. unfold masters_of, statuses_of, c1. simpl. split; [by apply (alter_proj ds_is_master)|].
    intros Hx. by rewrite fn_lookup_alter_ne. }
  destruct (status_change_run ds new c1) as (E1 & E2 & E3).
  destruct (cluster_relationship_on_status_change me ds new c1) as [u c2]. simpl in *. split_and!; [done|done|].
  unfold masters_of, statuses_of in *. by rewrite E3.
Qed.
Lemma followed_catch_up c joined sent view marks unsent ds old new c' :
  after (cluster_relationship_set_ds_status_ex me ds old new) c c' →
  followed c joined sent view marks unsent →
  followed c' joined sent view marks (λ s x, unsent s x || bool_decide (x = ds)).
Proof.
  intros -> Hf Hl s Hin Hne. destruct (set_status_ex_run ds old new c) as (E1 & E2 & H3).
  set (c' := (cluster_relationship_set_ds_status_ex me ds old new c).2) in *.
  assert (am_leader me c = true) as Hl0 by (unfold am_leader in *; by rewrite <- E2).
  destruct (Hf Hl0 s Hin Hne) as [Fa Fv]. split.
  - unfold leader_version. by rewrite E1.
  - intros d. unfold leader_version, queued. rewrite E1. intros Ht Hj Hd.
    destruct (Fv d Ht Hj Hd) as [?|[? [A1 A2]]]; [by left|right]. split; [done|]. destruct (H3 d) as [M1 M2].
    split; [by rewrite M1|]. intros Hs Hb. unfold blurred in *.
    destruct (bool_decide_reflect (d = ds)) as [|Hn]; [by rewrite orb_true_r in Hb|]. rewrite orb_false_r in Hb.
    rewrite M2 by done. by apply A2.
Qed.

(** ** Every reachable system *)
Hypothesis servers_nodup : NoDup CLUSTER_SERVER_ARRAY.
Record system_ok (y : System) : Prop := {
  sy_ok : cluster_ok (sy_leader y);
  sy_views_ok s : cluster_ok (sy_view y s);
  sy_me : sy_joined y me = None;
  sy_followed : followed (sy_leader y) (sy_joined y) (sy_sent y) (sy_view y) (sy_marks y) (sy_unsent y);
}.
Lemma system_step_ok y y' : system_step y y' → system_ok y → system_ok y'.
Proof.
  assert (∀ c c', cluster_step me not_leader inconsistent c c' → cluster_ok c → cluster_ok c') as step.
  { intros c c' Hs. by apply (step_safe me not_leader inconsistent servers_nodup) in Hs. }
  intros Hs [Hc Hv Hm Hf]. destruct Hs; simpl in *.
  - split; simpl; [eapply step; [|exact Hc]; by apply step_server|done..|by eapply followed_server].
  - assert (c' = (cluster_deal_join_leader me now not_leader task peer id c).2) as Ec by by rewrite H1.
    split; simpl; [eapply step; [|exact Hc]; by eapply step_join|done| |by eapply followed_join].
    apply join_run in H1. destruct r as [|[s version]]; [done|]. destruct H1 as [Hne _]. by rewrite fn_lookup_insert_ne.
  - assert (peer ≠ me) as Hp by congruence.
    assert (c' = (cluster_deal_active_server me now not_leader inconsistent (Some peer) v parts c).2) as Ec by by rewrite H3.
    split; simpl; [eapply step; [|exact Hc]; by eapply step_active|done..|by eapply followed_active].
  - assert (peer ≠ me) as Hp by congruence. subst c'.
    split; simpl; [eapply step; [|exact Hc]; by eapply step_cleanup|done..|by apply followed_cleanup].
  - assert (c' = (process_notify_events busy s c).2) as Ec by by rewrite H1.
    split; simpl; [eapply step; [|exact Hc]; by eapply step_notify_events|done..|by eapply followed_notify].
  - split; simpl; [done| |done|by apply followed_deliver]. intros x. destruct (decide (x = s)) as [->|].
    + rewrite fn_lookup_insert. by apply deliver_ok.
    + by rewrite fn_lookup_insert_ne.
  - split; simpl; [done| |done|by apply followed_follower]. intros x. destruct (decide (x = s)) as [->|].
    + by rewrite fn_lookup_insert.
    + by rewrite fn_lookup_insert_ne.
  - split; simpl; [eapply step; [|exact Hc]; by eapply step_catch_up|done..|by eapply followed_catch_up].
Qed.
Lemma system_reachable_ok y : system_reachable y → system_ok y.
Proof.
  induction 1 as [hint version load view Hv|y y' _ IH Hs]; [|by eapply system_step_ok].
  split; simpl; [by apply start_ok|done..|]. intros Hl. discriminate Hl.
Qed.

(** What the leader does not publish: a slave that it sets to [ONLINE] as the master of the group
    gives no event, and when the slave then reports the status itself, nothing changes any more,
    so there is none either. *)
Theorem caught_up_unpublished ds old c :
  am_leader me c = true → in_config ds → ds_status (c_ds c ds) = old →
  old = FS_DS_STATUS_REBUILDING ∨ old = FS_DS_STATUS_RECOVERING →
  let c1 := (cluster_relationship_set_ds_status_ex me ds old FS_DS_STATUS_ONLINE c).2 in
  ds_status (c_ds c1 ds) = FS_DS_STATUS_ONLINE ∧ c_cs c1 = c_cs c ∧
  (cluster_deal_report_ds_status me ds.2 ds.2 ds.1 FS_DS_STATUS_ONLINE c1).2 = c1.
Proof.
  intros Hl Hd Hs Ho c1. destruct (set_status_ex_run ds old FS_DS_STATUS_ONLINE c) as (E1 & E2 & _). fold c1 in E1, E2.
  assert (Hon : ds_status (c_ds c1 ds) = FS_DS_STATUS_ONLINE).
  { unfold c1, cluster_relationship_set_ds_status_ex. rewrite decide_False by (by destruct Ho as [->| ->]).
    unfold mbind, CM_bind, cget. rewrite decide_True by done. unfold on_ds, cmod. set (c2 := mkCluster _ _ _ _ _ _ _).
    destruct (status_change_run ds FS_DS_STATUS_ONLINE c2) as (_ & _ & E3).
    destruct (cluster_relationship_on_status_change me ds FS_DS_STATUS_ONLINE c2) as [u c3]. simpl in *.
    by rewrite E3, fn_lookup_alter. }
  split_and!; [done|done|]. unfold cluster_deal_report_ds_status, mbind, CM_bind, cget.
  assert (am_leader me c1 = true) as -> by (unfold am_leader in *; by rewrite E2).
  unfold in_config, fs_get_data_server in *. destruct (_ && _); [|done]. rewrite Z.eqb_refl. simpl.
  destruct ds as [g d]. simpl in *. rewrite Hon. unfold cluster_relationship_set_ds_status_ex. by rewrite decide_True.
Qed.

(** C8: whatever the leader does and in whichever order requests, messages and losses of
    connections come: when the event of a data server is not queued for an active follower and
    no message to it is on its way, the follower knows who is the master as the leader does. It
    has the leader's status of the data server as well, unless this is its own, or it has
    changed the status itself since it took over a message about the data server (a master does
    when its slave is lost), or the leader, as the master of the group, has set a slave that
    caught up to [ONLINE] (this it does not publish) and has sent nothing about it since. *)
Theorem followers_see_the_leader y s d :
  system_reachable y → CLUSTER_LEADER_PTR (sy_leader y) = Some me →
  s ∈ CLUSTER_SERVER_ARRAY → s ≠ me → cs_status (c_cs (sy_leader y) s) = FS_SERVER_STATUS_ACTIVE →
  fs_get_data_server d.1 d.2 ≠ None → cs_in_queue (c_cs (sy_leader y) s) d = false → sy_sent y s = [] →
  ds_is_master (c_ds (sy_view y s) d) = ds_is_master (c_ds (sy_leader y) d) ∧
  (d.2 ≠ s → sy_marks y s d = false → sy_unsent y s d = false →
   ds_status (c_ds (sy_view y s) d) = ds_status (c_ds (sy_leader y) d)).
Proof.
  intros Hr Hl Hin Hne Ha Hd Hq Hs. apply system_reachable_ok in Hr as [_ _ _ Hf].
  destruct (Hf ltac:(by apply bool_decide_eq_true) s Hin Hne) as [Fa Fv]. destruct (Fa Ha) as [Ht Hj].
  destruct (Fv d Ht Hj Hd) as [Hq'|[_ Hag]]; [unfold queued in Hq'; congruence|]. unfold blurred in Hag.
  rewrite Hs in Hag. destruct Hag as [H1 H2]. split; [exact H1|]. intros Hds Hm Hu. apply H2; [done|].
  unfold marks_after. simpl. by rewrite Hm, Hu.
Qed.
End System.

(** ** What the code of a follower does to the status of others

    A master that finds no connection to a slave (or loses it) takes it for offline and reports
    it to the leader; a master whose slave has caught up takes it for online. *)
Section Follower.
Context `{ClusterConfig} `{Qsort} (s : Z).
Hypothesis servers_nodup : NoDup CLUSTER_SERVER_ARRAY.
Implicit Types (ds : DataServer) (v : Cluster) (marks : DataServer → bool).

Lemma follower_catch_up ds old v marks :
  cluster_ok v → old = FS_DS_STATUS_REBUILDING ∨ old = FS_DS_STATUS_RECOVERING →
  let v' := (cluster_relationship_set_ds_status_ex s ds old FS_DS_STATUS_ONLINE v).2 in
  cluster_ok v' ∧ same_view s (λ x, marks x || bool_decide (x = ds)) v v'.
Proof.
  intros Hv Ho v'. split.
  - eapply (step_safe s 1 1 servers_nodup); [|exact Hv]. by eapply step_catch_up.
  - destruct (set_status_ex_run s ds old FS_DS_STATUS_ONLINE v) as (_ & _ & Hx). intros x. destruct (Hx x) as [H1 H2].
    split; [done|]. intros _ Hm. apply H2. intros ->. by rewrite bool_decide_eq_true_2, orb_true_r in Hm.
Qed.
Lemma follower_swap_report ds v marks :
  cluster_ok v → am_leader s v = false →
  let v' := (cluster_relationship_swap_report_ds_status s ds FS_DS_STATUS_ACTIVE FS_DS_STATUS_OFFLINE v).2 in
  cluster_ok v' ∧ same_view s (λ x, marks x || bool_decide (x = ds)) v v'.
Proof.
  intros Hv Hl v'. split.
  - eapply (step_safe s 1 1 servers_nodup); [|exact Hv]. by eapply step_server, step_swap_report.
  - destruct (set_status_ex_run s ds FS_DS_STATUS_ACTIVE FS_DS_STATUS_OFFLINE v) as (_ & El & Hx). unfold v'.
    unfold cluster_relationship_swap_report_ds_status, mbind at 1, CM_bind at 1.
    destruct (cluster_relationship_set_ds_status_ex s ds _ _ v) as [changed v1]. simpl in El, Hx.
    assert (Hview : ∀ v2, c_ds v2 = c_ds v1 ∨ c_ds v2 = alter (set_last_report_version (-1)) ds (c_ds v1) →
      same_view s (λ x, marks x || bool_decide (x = ds)) v v2).
    { intros v2 E x. destruct (Hx x) as [H1 H2].
      assert (masters_of v2 x = masters_of v1 x ∧ statuses_of v2 x = statuses_of v1 x) as [-> ->].
      { unfold masters_of, statuses_of. destruct E as [->| ->]; [done|].
        by rewrite (alter_proj ds_is_master), (alter_proj ds_status). }
      split; [done|]. intros _ Hm. apply H2. intros ->. by rewrite bool_decide_eq_true_2, orb_true_r in Hm. }
    destruct changed; [|apply Hview; by left]. simpl.
    assert (am_leader s v1 = false) as Hl1 by (unfold am_leader in *; by rewrite El).
    unfold cluster_relationship_report_ds_status, report_ds_status_to_leader, mbind, CM_bind, cget.
    rewrite Hl1. unfold id. destruct (CLUSTER_LEADER_PTR v1); (destruct (ds.2 =? s); apply Hview; first [by left|by right]).
Qed.
End Follower.
