(* ===== verification/ClusterDemo.v ===== *)
(** * The cluster on concrete runs

    Three servers; group 1 is on all of them, group 2 on the first two. *)
From stdpp Require Import functions sorting.
From S2P Require Import Prelude RpcResultRing Replication Cluster Topology MasterElection Leader ClusterHandler ClusterInv ClusterThms LeaderThms LeaderElection ClusterMain ClusterWaiting MasterElectionThms ClusterView ClusterSystem.

#[local] Existing Instance merge_qsort.

Definition demo_config (failover : bool) (policy : ElectionPolicy) (hash : Z → Z) : ClusterConfig := {|
  CLUSTER_SERVER_ARRAY := [1; 2; 3];
  CLUSTER_DATA_RGOUP_ARRAY := [1; 2];
  data_server_array g := if g =? 1 then [1; 2; 3] else if g =? 2 then [1; 2] else [];
  hash_code := hash;
  MASTER_ELECTION_FAILOVER := failover;
  MASTER_ELECTION_POLICY := policy;
  MASTER_ELECTION_TIMEOUTS := 60;
  max_events_per_pkg := 100;
|}.

Lemma nodup : NoDup [1; 2; 3].
Proof. by apply (bool_decide_unpack _). Qed.

Module LeaderDemo.
#[local] Instance config : ClusterConfig := demo_config true FS_MASTER_ELECTION_POLICY_STRICT (λ g, g).
Definition load (d : DataServer) : DSStatus * Z := (FS_DS_STATUS_ACTIVE, d.2).
Definition start : Cluster := cluster_start 1 false 5 load.
(** Server 1 becomes the leader at 1000; 2 joins over the task 7 and is active. *)
Definition c1 : Cluster := (cluster_relationship_set_leader 1 1000 1 start).2.
Definition c2 : Cluster := (cluster_deal_join_leader 1 1001 90 7 None 2 c1).2.
Definition c3 : Cluster := (cluster_deal_active_server 1 1002 90 91 (Some 2) 6 [(1, FS_DS_STATUS_ACTIVE, 2); (2, FS_DS_STATUS_ACTIVE, 2)] c2).2.
Example c3_eq : cs_status (c_cs c3 2) = FS_SERVER_STATUS_ACTIVE ∧ cs_queue (c_cs c3 2) ≠ [] ∧
  me_queue (c_election c3) = [1; 2] ∧ me_delay_queue (c_election c3) = [1; 2].
Proof. vm_compute. split_and!; (done || discriminate). Qed.
(** The election of group 1 waits for the server 3 ([EAGAIN]) and elects 2 in the end. *)
Definition c4 : Cluster := (select_master_turn 1 1003 1003000 c3).2.
Definition c5 : Cluster := (on_cs 2 (set_last_ping_time 1040) (on_cs 1 (set_last_ping_time 1040) c4).2).2.

Lemma in_array s : bool_decide (s ∈ CLUSTER_SERVER_ARRAY) = true → s ∈ CLUSTER_SERVER_ARRAY.
Proof. by intros ?%bool_decide_eq_true. Qed.
Lemma c3_reachable : cluster_reachable 1 90 91 c3.
Proof.
  apply (reachable_next _ _ _ c2); [apply (reachable_next _ _ _ c1); [apply (reachable_next _ _ _ start)|]|].
  - apply reachable_start.
  - apply step_server, (step_set_leader _ _ _ _ _ 1000 1); [by apply in_array|done].
  - by apply (step_join _ _ _ _ _ 1001 7 None 2).
  - by apply (step_active _ _ _ _ _ 1002 (Some 2) 6 [(1, FS_DS_STATUS_ACTIVE, 2); (2, FS_DS_STATUS_ACTIVE, 2)]).
Qed.
Lemma cluster_reachable_ok_witness :
  cluster_ok c3 ∧ leader_ok 1 c3 ∧ (length (rc_inactive (c_relationship c3)) <= 3)%nat.
Proof. exact (cluster_reachable_ok (H:=config) 1 90 91 nodup (in_array 1 eq_refl) c3 c3_reachable). Defined.

Lemma no_turn c c' g : me_queue (c_election c) = [] → ¬ gives_up 1 g c c'.
Proof.
  intros E (now & now_ms & e & Et & _). unfold select_master_turn in Et. cbn in Et. unfold mbind, CM_bind in Et. cbn in Et.
  rewrite E in Et. discriminate.
Qed.
Lemma c1_run : cluster_run 1 90 91 [] c1.
Proof.
  apply (run_step _ _ _ _ start); [apply run_start| |intros g; by apply no_turn].
  apply step_server, (step_set_leader _ _ _ _ _ 1000 1); [by apply in_array|done].
Qed.
Lemma leader_keeps_groups_waiting_witness :
  dg_master (c_dg c1 2) ≠ None ∨ dg_in_queue (c_dg c1 2) = true ∨ dg_in_delay_queue (c_dg c1 2) = true.
Proof.
  refine (leader_keeps_groups_waiting 1 90 91 [] c1 2 c1_run _ _ _); [by vm_compute|by apply (bool_decide_unpack _)|].
  by apply not_elem_of_nil.
Defined.
Lemma c3_ok : cluster_ok c3.
Proof.
  assert (∀ c c', cluster_step 1 90 91 c c' → cluster_ok c → cluster_ok c') as step.
  { intros c c' Hs. by apply (step_safe (H:=config) 1 90 91 nodup) in Hs. }
  apply (step c2); [by apply (step_active _ _ _ _ _ 1002 (Some 2) 6 [(1, FS_DS_STATUS_ACTIVE, 2); (2, FS_DS_STATUS_ACTIVE, 2)])|].
  apply (step c1); [by apply (step_join _ _ _ _ _ 1001 7 None 2)|].
  apply (step start); [by apply step_server, (step_set_leader _ _ _ _ _ 1000 1); [apply in_array|]|]. by apply start_ok.
Qed.
(** In the second in which it became active, 2 is elected the master of its group: its data
    version is higher. *)
Definition elected : SelectResult * Cluster := select_master 1 1002 1002000 2 c3.
Example elected_eq : elected.1 = Selected (2, 2).
Proof. by vm_compute. Qed.
Lemma select_master_ok_witness :
  elected.1 ≠ Undefined ∧ is_active c3 (2, 2) = true ∧ highest c3 2 (2, 2).
Proof.
  assert (select_master 1 1002 1002000 2 c3 = (elected.1, elected.2)) as E by (unfold elected; apply surjective_pairing).
  pose proof (select_master_ok 1 1002 1002000 2 c3 elected.1 elected.2 c3_ok ltac:(done) ltac:(done) E) as [H1 H2].
  destruct (H2 (2, 2) elected_eq) as (_ & H3 & H4). split_and!; [exact H1|exact H3|].
  apply H4; [done|by left].
Defined.

(** The leader with its follower 2: after the events are sent and processed, the follower knows
    that the leader has put the data server (1, 1) offline. *)
Definition views (s : Z) : Cluster := cluster_start s false 5 load.
Definition no_messages (s : Z) : list message := [].
Definition joined2 : Z → option Z := <[2 := Some 6]> (λ _, None).
Definition notified := process_notify_events false 2 c3.
Definition sent2 : Z → list message :=
  match notified.1.2 with Some m => <[2 := no_messages 2 ++ [m]]> no_messages | None => no_messages end.
Definition no_marks (_ : Z) (_ : DataServer) : bool := false.
Definition unsent2 : Z → DataServer → bool :=
  match notified.1.2 with Some m => <[2 := clear_marks m (no_marks 2)]> no_marks | None => no_marks end.
Definition y3 : System := mkSystem notified.2 joined2 sent2 views no_marks unsent2.
Definition y4 : System :=
  match sent2 2 with
  | m :: l => mkSystem notified.2 joined2 (<[2 := l]> sent2) (<[2 := deliver 2 m (views 2)]> views)
                (<[2 := clear_marks m (no_marks 2)]> no_marks) unsent2
  | [] => y3
  end.
Lemma y4_reachable : system_reachable 1 90 91 y4.
Proof.
  assert (system_reachable 1 90 91 (mkSystem c1 (λ _, None) no_messages views no_marks no_marks)) as H1.
  { apply (sys_next _ _ _ (mkSystem start (λ _, None) no_messages views no_marks no_marks)).
    - apply (sys_init 1 90 91 false 5 load views). intros s. apply start_ok.
    - apply sys_server; [by apply (step_set_leader _ _ _ _ _ 1000 1); [apply in_array|]|by intros _ _ s _]. }
  assert (system_reachable 1 90 91 (mkSystem c2 joined2 no_messages views no_marks no_marks)) as H2.
  { eapply sys_next; [exact H1|]. apply (sys_join 1 90 91 c1 (λ _, None) no_messages views no_marks no_marks 1001 7 None 2 (inr (2, 6)) c2).
    unfold c2. rewrite (surjective_pairing (cluster_deal_join_leader 1 1001 90 7 None 2 c1)). f_equal. }
  assert (system_reachable 1 90 91 (mkSystem c3 joined2 no_messages views no_marks no_marks)) as H3.
  { eapply sys_next; [exact H2|]. eapply (sys_active 1 90 91 c2 joined2 no_messages views no_marks no_marks 1002 2 6); [by vm_compute|done|].
    unfold c3. apply surjective_pairing. }
  assert (system_reachable 1 90 91 y3) as H4.
  { apply (sys_next _ _ _ (mkSystem c3 joined2 no_messages views no_marks no_marks)); [exact H3|]. unfold y3, sent2, unsent2.
    refine (sys_notify 1 90 91 c3 joined2 no_messages views no_marks no_marks false 2 notified.1.1 notified.1.2 notified.2 _).
    rewrite <- (surjective_pairing notified.1), <- (surjective_pairing notified). by unfold notified. }
  clear H1 H2 H3.
  eapply sys_next; [exact H4|]. unfold y4, y3. destruct (sent2 2) as [|m l] eqn:E; [by vm_compute in E|].
  by apply sys_deliver.
Qed.
Lemma followers_see_the_leader_witness :
  ds_status (c_ds (views 2) (1, 1)) = FS_DS_STATUS_ACTIVE ∧
  ds_status (c_ds (sy_view y4 2) (1, 1)) = FS_DS_STATUS_OFFLINE.
Proof.
  split; [by vm_compute|].
  pose proof (followers_see_the_leader (H:=config) 1 90 91 ltac:(done) ltac:(done) nodup y4 2 (1, 1) y4_reachable
    ltac:(by vm_compute) (in_array 2 eq_refl) ltac:(done) ltac:(by vm_compute) ltac:(done) ltac:(by vm_compute)
    ltac:(by vm_compute)) as [_ Hs].
  rewrite Hs by (done || by vm_compute). by vm_compute.
Defined.
End LeaderDemo.

Module AgreementDemo.
#[local] Instance config : ClusterConfig := demo_config true FS_MASTER_ELECTION_POLICY_STRICT (λ g, g).
Definition load (d : DataServer) : DSStatus * Z := (FS_DS_STATUS_ACTIVE, 1).
(** Server 2 makes itself the leader. *)
Definition e0 : Election := mkElection (λ s, cluster_start s false 5 load) (λ _, None) (λ _, []).
Definition e1 : Election := mkElection (es_server e0) (<[2 := Some (notify_start [1; 2; 3])]> (es_notify e0)) (es_commits e0).
(** The next request of the candidate 2. *)
Definition turn (e : Election) : Election :=
  match es_notify e 2 with
  | Some (InPhase cmd (s :: l) res count flag) =>
      if s =? 2 then
        let '(res', c') := next_leader_cmd 2 1000 cmd 2 (es_server e 2) in
        processed cmd 2 2 res' c' (OwnCall res') e (InPhase cmd (s :: l) res count flag)
      else
        let '(res', c') := cluster_deal_next_leader s 1000 cmd 2 (es_server e s) in
        processed cmd 2 s res' c' (Answered res') e (InPhase cmd (s :: l) res count flag)
  | _ => e
  end.
Definition at_work (e : Election) : bool :=
  match es_notify e 2 with Some (InPhase _ (_ :: _) _ _ _) => true | _ => false end.
Lemma turn_step e : at_work e = true → election_step e (turn e).
Proof.
  unfold turn, at_work. destruct (es_notify e 2) as [[cmd [|s l] res count flag| |]|] eqn:E; try done. intros _.
  destruct (Z.eqb_spec s 2) as [->|Hs].
  - destruct (next_leader_cmd _ _ _ _ _) as [res' c'] eqn:Ec. by eapply step_own.
  - destruct (cluster_deal_next_leader _ _ _ _ _) as [res' c'] eqn:Ec. eapply step_request; [done..|by left].
Qed.
Definition e6 : Election := Nat.iter 5 turn e1.
Lemma e1_reachable : election_reachable e1.
Proof.
  apply (reachable_step e0); [|]. 2:{ exact (step_start e0 2 I). } apply reachable_init. split; [done|].
  intros s x Hx. simpl. rewrite bool_decide_eq_false_2 by done. done.
Qed.
Lemma turns_reachable n : forallb (λ k, at_work (Nat.iter k turn e1)) (seq 0 n) = true → election_reachable (Nat.iter n turn e1).
Proof.
  induction n as [|n IH]; [intros _; exact e1_reachable|]. rewrite seq_S, forallb_app. intros [H1 H2]%andb_prop.
  eapply reachable_step; [by apply IH|]. apply turn_step. simpl in H2. by destruct (andb_prop _ _ H2).
Qed.
Lemma e6_reachable : election_reachable e6.
Proof. apply turns_reachable. by vm_compute. Qed.
Lemma election_agreement_witness :
  es_notify (turn e6) 2 = Some (NotifyReturned 0) ∧ ∀ s, s ∈ [1; 2; 3] → last (es_commits (turn e6) s) = Some 2.
Proof.
  assert (es_notify (turn e6) 2 = Some (NotifyReturned 0)) as Hr by by vm_compute.
  split; [exact Hr|]. refine (election_agreement (H:=config) nodup e6 (turn e6) 2 _ e6_reachable _ _ Hr); [done| |by vm_compute].
  apply turn_step. by vm_compute.
Defined.
End AgreementDemo.

(** States of group 1 for the elections below: servers as (status, time of the change, last
    ping, data version). *)
Module ElectionDemo.
Definition server (s : ServerStatus) (changed ping : Z) : FSClusterServerInfo :=
  mkClusterServer false s changed ping 0 None [] (λ _, false).
Definition group_state (s1 s2 s3 : ServerStatus) (v1 v2 v3 : Z) : Cluster :=
  mkCluster (λ s, server (if s =? 1 then s1 else if s =? 2 then s2 else s3) 500 2000)
    (λ d, mkDataServer false FS_DS_STATUS_OFFLINE (if d.2 =? 1 then v1 else if d.2 =? 2 then v2 else v3) 0)
    (λ g, mkDataGroup None [(1, 1); (1, 2); (1, 3)] false false 1 1000000)
    None 1 (mkMasterElection false 0 [] []) (mkRelationship 0 0 None [] false [] [] []).
Notation A := FS_SERVER_STATUS_ACTIVE.
Notation O := FS_SERVER_STATUS_OFFLINE.
Notation strict := FS_MASTER_ELECTION_POLICY_STRICT.
Notation by_timeout := FS_MASTER_ELECTION_POLICY_TIMEOUT.
Definition elect (failover : bool) (policy : ElectionPolicy) (c : Cluster) : SelectResult :=
  let _ := demo_config failover policy (λ g, g) in (select_master 1 3000 3000000 1 c).1.

(** The search for an active server goes down from [last] in the array of the group, which is
    not sorted: when the server with the highest version is offline for a long time and comes
    first in the array, the active servers behind it are not seen, and the group is given up
    ([ENOENT]); when it comes last, the same state elects a master. *)
Example first_server_offline_gives_up : elect true by_timeout (group_state O A A 9 5 5) = NotSelected ENOENT.
Proof. by vm_compute. Qed.
Example last_server_offline_elects : elect true by_timeout (group_state A A O 5 5 9) = Selected (1, 2).
Proof. by vm_compute. Qed.
(** For the same reason the version to start from is that of the first active server in that
    direction, not the highest: 2 has version 8 and is active, but 3 is elected with 5 after
    the timeout of the policy. *)
Example active_highest_passed_over :
  let _ := demo_config true by_timeout (λ g, 1) in
  (select_master 1 3000 3000000 1 (group_state A O A 5 9 8)).1 = Selected (1, 3) ∧
  (select_master 1 3000 3000000 1 (group_state A A O 5 8 9)).1 = Selected (1, 2).
Proof. by vm_compute. Qed.
Example lower_version_elected :
  let _ := demo_config true by_timeout (λ g, 0) in
  (select_master 1 3000 3000000 1 (group_state A O A 5 9 8)).1 = Selected (1, 1).
Proof. by vm_compute. Qed.
(** Without failover a group without servers follows a null pointer. *)
Example no_servers_undefined :
  let _ := demo_config false strict (λ g, g) in
  (select_master 1 3000 3000000 7 (group_state A A A 1 1 1)).1 = Undefined.
Proof. by vm_compute. Qed.
End ElectionDemo.

Module NotifyDemo.
(** When the own call is the first one and fails, [bConnectFail] is read before it is set. *)
Example own_call_first : notify_turn [1; 2] (OwnCall EEXIST) (notify_start [1; 2]) = NotifyUndefined.
Proof. reflexivity. Qed.
(** After a refused connection it still is true when the own call fails: the failure of the own
    commit is passed over, and the notification succeeds. *)
Example own_failure_passed_over :
  notify_turn [1; 2; 3] (Answered 0) (notify_turn [1; 2; 3] (OwnCall EBUSY)
    (notify_turn [1; 2; 3] (ConnectFailed 111) (InPhase FS_CLUSTER_PROTO_COMMIT_NEXT_LEADER [1; 2; 3] ENOENT 0 (Some true))))
  = NotifyReturned 0.
Proof. reflexivity. Qed.
(** With refused connections two candidates can both succeed: 1 and 2 do not reach each
    other. *)
Example refused_connections :
  let turns := λ own, fold_left (λ n r, notify_turn [1; 2] r n)
    (own ++ own) (notify_start [1; 2]) in
  turns [OwnCall 0; ConnectFailed 111] = NotifyReturned 0 ∧
  turns [ConnectFailed 111; OwnCall 0] = NotifyReturned 0.
Proof. by vm_compute. Qed.
End NotifyDemo.
