(* ===== verification/WriteCombine.v ===== *)
(** * Combining the writes of a client

    [src/api/write_combine] and the calls of [src/api/fs_api.c]: a client keeps successive small
    writes of a thread to a file in a slice buffer, and sends them to the servers as one write
    when the buffer is full, when it has waited long enough, or when another call touches the
    same bytes. Everything that runs under a lock is one step; the calls of the user threads,
    the timer thread, the handler thread and its pool interleave. What a call to the servers
    answers, which free object an allocator gives, and whether memory is left is part of the
    step. A sharding hash table is a map, a [fc_queue] a list, a [LockedTimer] a map from the
    entries in it to their expiry; [read_ahead.enabled] is false. Bytes carry, as a ghost, the
    operation that wrote them; 0 is the operation that wrote the zeros at the beginning. *)
From S2P Require Import Prelude Types.

(** [api_ctx->write_combine] and [g_timer_ms_ctx.precision_ms]. *)
Class WriteCombineConfig := {
  buffer_size : Z;
  min_wait_time_ms : Z;
  max_wait_time_ms : Z;
  skip_combine_on_slice_size : Z;
  skip_combine_on_last_merged_slices : Z;
  shared_allocator_count : Z;
  precision_ms : Z;
}.

(** A byte and the operation that wrote it. *)
Definition TByte : Type := Z * Z.
(** [SFTwoIdsHashKey]. *)
Definition TwoIds : Type := Z * Z.

(** [FS_API_COMBINED_WRITER_STAGE_xxx]. *)
Inductive CombineStage := STAGE_NONE | STAGE_MERGING | STAGE_PROCESSING | STAGE_CLEANUP.
#[export] Instance CombineStage_eq_dec : EqDecision CombineStage.
Proof. solve_decision. Defined.

(** [FS_NOT_COMBINED_REASON_xxx]. *)
Definition REASON_SLICE_SIZE : Z := 1001.
Definition REASON_REACH_BUFF_SIZE : Z := 1002.
Definition REASON_LAST_MERGED_SLICES : Z := 1003.
Definition REASON_SLICE_POSITION : Z := 1004.
Definition REASON_WAITING_TIMEOUT : Z := 1005.
Definition REASON_DIFFERENT_OID : Z := 1099.

(** [FSAPISliceEntry]: [as_buff] is the part of [buff] that was written; [as_waitings] are the
    operations whose waiting task has a pair in [waitings]; [as_allocator] is the number of
    [allocator_ctx]. The block entry is the one of [as_key]. *)
Record FSAPISliceEntry := mkAPISlice {
  as_otid : TwoIds;
  as_version : Z;
  as_stage : CombineStage;
  as_merged_slices : Z;
  as_start_time : Z;
  as_key : FSBlockSliceKeyInfo;
  as_buff : list TByte;
  as_waitings : list Z;
  as_allocator : Z;
}.

(** [FSWCombineOTIDEntry]. *)
Record OTIDEntry := mkOTID {
  oe_successive_count : Z;
  oe_last_write_offset : Z;
  oe_slice : option Z;
}.

(** The calls of [fs_api.h]. *)
Inductive APICall :=
| SliceWrite (data : list Z)
| SliceRead
| SliceAllocate
| SliceDelete
| BlockDelete.

(** Where a call is. The numbers are the locals [conflict_count], [count] and [old_version],
    the identifiers [otid.old_slice]. *)
Inductive CallPc :=
| CheckConflict
| WaitConflict (conflict_count : Z)
| InsertOtid
| FetchSlice (count : Z)
| FetchVersion (count old_slice : Z)
| TryCombine (count old_slice old_version : Z)
| CreateSlice (old_slice : option Z)
| WaitSlice (count : Z)
| CallServer
| Returning (result : Z)
| Returned (result : Z).

(** [FSAPIOperationContext] with the [FSAPIWriteBuffer] and the [FSAPIInsertSliceContext];
    [op_waits] are the slices of the waiting task. Ghosts: [op_read] is what a read returned,
    [op_before] the operations that had succeeded when the call began. *)
Record APIOp := mkOp {
  op_call : APICall;
  op_tid : Z;
  op_key : FSBlockSliceKeyInfo;
  op_pc : CallPc;
  op_combined : bool;
  op_reason : Z;
  op_successive_count : Z;
  op_waits : list Z;
  op_read : list TByte;
  op_before : gset Z;
}.

(** Where a thread of the pool is with its slice: before the call to the servers, before the
    entry of the file and thread forgets the slice, before it is released. *)
Inductive RunPc := RunWrite | RunUnlink | RunRelease (old_version new_version : Z).

(** All the threads of a client. [cl_versions] are the [current_version]s of the allocators,
    [cl_expired] the list [deal_timeouts] works on, [cl_dealing] that of [deal_slices],
    [cl_db] what the servers hold. Ghosts: [cl_done] are the operations that succeeded,
    [cl_fault] tells that a waiting task could not be allocated or that the write of a combined
    slice failed (after which the client terminates itself). *)
Record Client := mkClient {
  cl_slices : gmap Z FSAPISliceEntry;
  cl_free : gset Z;
  cl_versions : gmap Z Z;
  cl_blocks : gmap TwoIds (list Z);
  cl_otids : gmap TwoIds OTIDEntry;
  cl_timer : gmap Z Z;
  cl_expired : list Z;
  cl_queue : list Z;
  cl_dealing : list Z;
  cl_running : gmap Z RunPc;
  cl_waiting_slice_count : Z;
  cl_time : Z;
  cl_db : TwoIds → Z → TByte;
  cl_ops : gmap Z APIOp;
  cl_done : gset Z;
  cl_fault : bool;
}.

(** ** Changes of single fields *)
Definition set_stage x (sl : FSAPISliceEntry) : FSAPISliceEntry :=
  mkAPISlice (as_otid sl)
    (as_version sl) x (as_merged_slices sl) (as_start_time sl) (as_key sl) (as_buff sl)
    (as_waitings sl) (as_allocator sl).
Definition set_waitings x (sl : FSAPISliceEntry) : FSAPISliceEntry :=
  mkAPISlice (as_otid sl)
    (as_version sl) (as_stage sl) (as_merged_slices sl) (as_start_time sl) (as_key sl) (as_buff sl)
    x (as_allocator sl).
Definition set_version x (sl : FSAPISliceEntry) : FSAPISliceEntry :=
  mkAPISlice (as_otid sl) x
    (as_stage sl) (as_merged_slices sl) (as_start_time sl) (as_key sl) (as_buff sl) (as_waitings
    sl) (as_allocator sl).
Definition set_pc x (op : APIOp) : APIOp :=
  mkOp (op_call op) (op_tid op) (op_key op) x
    (op_combined op) (op_reason op) (op_successive_count op) (op_waits op) (op_read op) (op_before
    op).
Definition set_combined x0 x1 (op : APIOp) : APIOp :=
  mkOp (op_call op) (op_tid op) (op_key op)
    (op_pc op) x0 x1 (op_successive_count op) (op_waits op) (op_read op) (op_before op).
Definition set_successive_count x (op : APIOp) : APIOp :=
  mkOp (op_call op) (op_tid op) (op_key
    op) (op_pc op) (op_combined op) (op_reason op) x (op_waits op) (op_read op) (op_before op).
Definition set_waits x (op : APIOp) : APIOp :=
  mkOp (op_call op) (op_tid op) (op_key op) (op_pc
    op) (op_combined op) (op_reason op) (op_successive_count op) x (op_read op) (op_before op).
Definition set_read x (op : APIOp) : APIOp :=
  mkOp (op_call op) (op_tid op) (op_key op) (op_pc
    op) (op_combined op) (op_reason op) (op_successive_count op) (op_waits op) x (op_before op).
Definition set_slices x (c : Client) : Client :=
  mkClient x (cl_free c) (cl_versions c)
    (cl_blocks c) (cl_otids c) (cl_timer c) (cl_expired c) (cl_queue c) (cl_dealing c) (cl_running
    c) (cl_waiting_slice_count c) (cl_time c) (cl_db c) (cl_ops c) (cl_done c) (cl_fault c).
Definition set_free x (c : Client) : Client :=
  mkClient (cl_slices c) x (cl_versions c)
    (cl_blocks c) (cl_otids c) (cl_timer c) (cl_expired c) (cl_queue c) (cl_dealing c) (cl_running
    c) (cl_waiting_slice_count c) (cl_time c) (cl_db c) (cl_ops c) (cl_done c) (cl_fault c).
Definition set_versions x (c : Client) : Client :=
  mkClient (cl_slices c) (cl_free c) x
    (cl_blocks c) (cl_otids c) (cl_timer c) (cl_expired c) (cl_queue c) (cl_dealing c) (cl_running
    c) (cl_waiting_slice_count c) (cl_time c) (cl_db c) (cl_ops c) (cl_done c) (cl_fault c).
Definition set_blocks x (c : Client) : Client :=
  mkClient (cl_slices c) (cl_free c) (cl_versions
    c) x (cl_otids c) (cl_timer c) (cl_expired c) (cl_queue c) (cl_dealing c) (cl_running c)
    (cl_waiting_slice_count c) (cl_time c) (cl_db c) (cl_ops c) (cl_done c) (cl_fault c).
Definition set_otids x (c : Client) : Client :=
  mkClient (cl_slices c) (cl_free c) (cl_versions
    c) (cl_blocks c) x (cl_timer c) (cl_expired c) (cl_queue c) (cl_dealing c) (cl_running c)
    (cl_waiting_slice_count c) (cl_time c) (cl_db c) (cl_ops c) (cl_done c) (cl_fault c).
Definition set_timer x (c : Client) : Client :=
  mkClient (cl_slices c) (cl_free c) (cl_versions
    c) (cl_blocks c) (cl_otids c) x (cl_expired c) (cl_queue c) (cl_dealing c) (cl_running c)
    (cl_waiting_slice_count c) (cl_time c) (cl_db c) (cl_ops c) (cl_done c) (cl_fault c).
Definition set_expired x (c : Client) : Client :=
  mkClient (cl_slices c) (cl_free c) (cl_versions
    c) (cl_blocks c) (cl_otids c) (cl_timer c) x (cl_queue c) (cl_dealing c) (cl_running c)
    (cl_waiting_slice_count c) (cl_time c) (cl_db c) (cl_ops c) (cl_done c) (cl_fault c).
Definition set_queue x (c : Client) : Client :=
  mkClient (cl_slices c) (cl_free c) (cl_versions
    c) (cl_blocks c) (cl_otids c) (cl_timer c) (cl_expired c) x (cl_dealing c) (cl_running c)
    (cl_waiting_slice_count c) (cl_time c) (cl_db c) (cl_ops c) (cl_done c) (cl_fault c).
Definition set_dealing x (c : Client) : Client :=
  mkClient (cl_slices c) (cl_free c) (cl_versions
    c) (cl_blocks c) (cl_otids c) (cl_timer c) (cl_expired c) (cl_queue c) x (cl_running c)
    (cl_waiting_slice_count c) (cl_time c) (cl_db c) (cl_ops c) (cl_done c) (cl_fault c).
Definition set_running x (c : Client) : Client :=
  mkClient (cl_slices c) (cl_free c) (cl_versions
    c) (cl_blocks c) (cl_otids c) (cl_timer c) (cl_expired c) (cl_queue c) (cl_dealing c) x
    (cl_waiting_slice_count c) (cl_time c) (cl_db c) (cl_ops c) (cl_done c) (cl_fault c).
Definition set_waiting_slice_count x (c : Client) : Client :=
  mkClient (cl_slices c) (cl_free c)
    (cl_versions c) (cl_blocks c) (cl_otids c) (cl_timer c) (cl_expired c) (cl_queue c) (cl_dealing
    c) (cl_running c) x (cl_time c) (cl_db c) (cl_ops c) (cl_done c) (cl_fault c).
Definition set_time x (c : Client) : Client :=
  mkClient (cl_slices c) (cl_free c) (cl_versions c)
    (cl_blocks c) (cl_otids c) (cl_timer c) (cl_expired c) (cl_queue c) (cl_dealing c) (cl_running
    c) (cl_waiting_slice_count c) x (cl_db c) (cl_ops c) (cl_done c) (cl_fault c).
Definition set_db x (c : Client) : Client :=
  mkClient (cl_slices c) (cl_free c) (cl_versions c)
    (cl_blocks c) (cl_otids c) (cl_timer c) (cl_expired c) (cl_queue c) (cl_dealing c) (cl_running
    c) (cl_waiting_slice_count c) (cl_time c) x (cl_ops c) (cl_done c) (cl_fault c).
Definition set_ops x (c : Client) : Client :=
  mkClient (cl_slices c) (cl_free c) (cl_versions c)
    (cl_blocks c) (cl_otids c) (cl_timer c) (cl_expired c) (cl_queue c) (cl_dealing c) (cl_running
    c) (cl_waiting_slice_count c) (cl_time c) (cl_db c) x (cl_done c) (cl_fault c).
Definition set_done x (c : Client) : Client :=
  mkClient (cl_slices c) (cl_free c) (cl_versions c)
    (cl_blocks c) (cl_otids c) (cl_timer c) (cl_expired c) (cl_queue c) (cl_dealing c) (cl_running
    c) (cl_waiting_slice_count c) (cl_time c) (cl_db c) (cl_ops c) x (cl_fault c).
Definition set_fault x (c : Client) : Client :=
  mkClient (cl_slices c) (cl_free c) (cl_versions
    c) (cl_blocks c) (cl_otids c) (cl_timer c) (cl_expired c) (cl_queue c) (cl_dealing c)
    (cl_running c) (cl_waiting_slice_count c) (cl_time c) (cl_db c) (cl_ops c) (cl_done c) x.

Definition upd_slice (s : Z) (f : FSAPISliceEntry → FSAPISliceEntry) (c : Client) : Client :=
  set_slices (alter f s (cl_slices c)) c.
Definition upd_op (o : Z) (f : APIOp → APIOp) (c : Client) : Client := set_ops (alter f o (cl_ops c)) c.

(** [key.oid = bs_key.block.oid; key.bid = bid], where [bid] is the offset of the block. *)
Definition block_id (k : FSBlockSliceKeyInfo) : TwoIds := (bk_oid (bs_block k), bk_offset (bs_block k)).
Definition koff (k : FSBlockSliceKeyInfo) : Z := ss_offset (bs_slice k).
Definition klen (k : FSBlockSliceKeyInfo) : Z := ss_length (bs_slice k).
Definition kend (k : FSBlockSliceKeyInfo) : Z := koff k + klen k.
(** [block->slices]. *)
Definition block_slices (c : Client) (k : TwoIds) : list Z := default [] (cl_blocks c !! k).

Section WriteCombine.
Context `{cfg : WriteCombineConfig}.
Implicit Types (c : Client) (op : APIOp) (sl : FSAPISliceEntry) (o s : Z).

(** [current_time_ticks] of [SET_CURRENT_TIME_TICKS]. *)
Definition current_time_ticks c : Z := Z.quot (cl_time c) precision_ms.
Definition TIMEOUT_TO_EXPIRES c (timeout : Z) : Z := current_time_ticks c + Z.quot timeout precision_ms.
Definition timeout_handler_add s (timeout : Z) c : Client :=
  set_timer (<[s := TIMEOUT_TO_EXPIRES c timeout]> (cl_timer c)) c.
Definition timeout_handler_remove s c : Client := set_timer (delete s (cl_timer c)) c.
(** An entry that is not in the timer (any more) is not put back. *)
Definition timeout_handler_modify s (new_timeout : Z) c : Client :=
  set_timer (alter (λ _, TIMEOUT_TO_EXPIRES c new_timeout) s (cl_timer c)) c.

(** [fs_api_next_slice_version]: the new version, with the counter moved on. *)
Definition version_mask (a : Z) : Z := Z.shiftl (a + 1) 48.
Definition fs_api_next_slice_version (a : Z) c : Z * Client :=
  let cur := default 0 (cl_versions c !! a) + 1 in
  (Z.lor (version_mask a) cur, set_versions (<[a := cur]> (cl_versions c)) c).

Definition fs_api_allocator_get (tid : Z) : Z := tid mod shared_allocator_count.

(** [combine_handler_push_within_lock]. *)
Definition combine_handler_push_within_lock s c : Client :=
  let c := timeout_handler_remove s (upd_slice s (set_stage STAGE_PROCESSING) c) in
  let c := set_waiting_slice_count (cl_waiting_slice_count c + 1) c in
  set_queue (cl_queue c ++ [s]) c.

(** [combine_handler_push], with [fs_api_swap_slice_stage]: for an entry that is not merging any
    more it does nothing. *)
Definition combine_handler_push s c : Client :=
  match cl_slices c !! s with
  | Some sl =>
      if decide (as_stage sl = STAGE_MERGING) then
        let c := upd_slice s (set_stage STAGE_PROCESSING) c in
        let c := set_waiting_slice_count (cl_waiting_slice_count c + 1) c in
        set_queue (cl_queue c ++ [s]) c
      else c
  | None => c
  end.

(** [fs_api_add_to_slice_waiting_list]. *)
Definition fs_api_add_to_slice_waiting_list o s c : Client :=
  upd_slice s (λ sl, set_waitings (o :: as_waitings sl) sl)
    (upd_op o (λ op, set_waits (op_waits op ++ [s]) op) c).

Definition FS_API_CALC_TIMEOUT_BY_SUCCESSIVE (successive_count : Z) : Z :=
  cast32 (successive_count * min_wait_time_ms).

(** [IF_COMBINE_BY_SLICE_SIZE], [IF_COMBINE_BY_SLICE_MERGED], [IF_COMBINE_BY_SLICE_POSITION]. *)
Definition IF_COMBINE_BY_SLICE_SIZE op : bool := klen (op_key op) <? skip_combine_on_slice_size.
Definition IF_COMBINE_BY_SLICE_MERGED sl : bool :=
  skip_combine_on_last_merged_slices <? as_merged_slices sl.
Definition IF_COMBINE_BY_SLICE_POSITION (k : FSBlockSliceKeyInfo) : bool :=
  4096 <=? FS_FILE_BLOCK_SIZE - kend k.

(** The bytes of [wbuffer->buff], written by the operation [o]. *)
Definition wbuffer_bytes o op : list TByte :=
  match op_call op with SliceWrite data => map (λ v, (v, o)) data | _ => [] end.

(** The [memcpy] behind the data of the slice, and the new length. *)
Definition merge_data (data : list TByte) (len : Z) sl : FSAPISliceEntry :=
  let k := as_key sl in
  mkAPISlice (as_otid sl) (as_version sl) (as_stage sl) (as_merged_slices sl + 1) (as_start_time sl)
    (mkBlockSliceKey (bs_block k) (mkSliceSize (koff k) (klen k + len)))
    (as_buff sl ++ data) (as_waitings sl) (as_allocator sl).

(** [do_combine_slice]. *)
Definition do_combine_slice o op s sl c : Client :=
  if negb (IF_COMBINE_BY_SLICE_SIZE op) then
    upd_op o (set_combined (op_combined op) REASON_SLICE_SIZE) (combine_handler_push_within_lock s c)
  else
    let len := klen (as_key sl) + klen (op_key op) in
    let c := upd_slice s (merge_data (wbuffer_bytes o op) (klen (op_key op))) c in
    let c := upd_op o (set_combined true (op_reason op)) c in
    if buffer_size - len <? 4096 then combine_handler_push_within_lock s c
    else
      let current_timeout := FS_API_CALC_TIMEOUT_BY_SUCCESSIVE (op_successive_count op) in
      let remain_timeout := cast32 (as_start_time sl + max_wait_time_ms - cl_time c) in
      if precision_ms <=? remain_timeout
      then timeout_handler_modify s (Z.min current_timeout remain_timeout) c
      else c.

(** The second half of [try_combine_slice]: the slice takes no more data. [mem] tells whether
    the waiting task can be allocated; the result is [is_new_slice]. *)
Definition combine_with_new o op s sl (is_jump mem : bool) c : bool * Client :=
  if negb (IF_COMBINE_BY_SLICE_SIZE op) then
    (false, upd_op o (set_combined (op_combined op) REASON_SLICE_SIZE) c)
  else
    let combined := is_jump || IF_COMBINE_BY_SLICE_MERGED sl in
    let c := upd_op o (set_combined combined
               (if combined then op_reason op else REASON_LAST_MERGED_SLICES)) c in
    if combined && bool_decide (as_stage sl = STAGE_PROCESSING) && (0 <? cl_waiting_slice_count c)
    then (false, if mem then fs_api_add_to_slice_waiting_list o s c else set_fault true c)
    else (true, c).

(** [try_combine_slice]; the [stage] of the slice is read again after it was pushed. *)
Definition try_combine_slice o op s sl (mem : bool) c : bool * Client :=
  if negb (bk_oid (bs_block (op_key op)) =? bk_oid (bs_block (as_key sl))) then
    (false, upd_op o (set_combined (op_combined op) REASON_DIFFERENT_OID) c)
  else
    let merging := bool_decide (as_stage sl = STAGE_MERGING) in
    let pushed := combine_handler_push_within_lock s c in
    let sl' := set_stage STAGE_PROCESSING sl in
    if (bk_offset (bs_block (op_key op)) =? bk_offset (bs_block (as_key sl)))
       && (koff (op_key op) =? kend (as_key sl))
    then
      if merging then
        if buffer_size <? klen (as_key sl) + klen (op_key op)
        then combine_with_new o op s sl' false mem pushed
        else (false, do_combine_slice o op s sl c)
      else combine_with_new o op s sl false mem c
    else
      if merging then combine_with_new o op s sl' true mem pushed
      else combine_with_new o op s sl true mem c.

(** [obid_htable_find_position]: [None] is [EEXIST], else the number of slices up to
    [previous]. *)
Fixpoint obid_htable_find_position (k : FSBlockSliceKeyInfo) c (l : list Z) (n : nat) : option nat :=
  match l with
  | [] => Some n
  | s :: l =>
      match cl_slices c !! s with
      | None => None
      | Some sl =>
          if kend k <=? koff (as_key sl) then Some n
          else if fs_slice_is_overlap (bs_slice k) (bs_slice (as_key sl)) then None
          else obid_htable_find_position k c l (S n)
      end
  end.

(** The assignments of [obid_htable_insert_callback] to the new slice. *)
Definition init_slice o op (now : Z) sl : FSAPISliceEntry :=
  mkAPISlice (bk_oid (bs_block (op_key op)), op_tid op) (as_version sl) STAGE_MERGING 1 now (op_key op)
    (wbuffer_bytes o op) (as_waitings sl) (as_allocator sl).

(** [obid_htable_insert_callback] once the position is known. *)
Definition obid_htable_insert_at o op s (old_slice : option Z) (n : nat) c : Client :=
  let otid := (bk_oid (bs_block (op_key op)), op_tid op) in
  let l := block_slices c (block_id (op_key op)) in
  let c := upd_slice s (init_slice o op (cl_time c)) c in
  let c := set_blocks (<[block_id (op_key op) := take n l ++ s :: drop n l]> (cl_blocks c)) c in
  let current_timeout := FS_API_CALC_TIMEOUT_BY_SUCCESSIVE (op_successive_count op) in
  let c := timeout_handler_add s (Z.min current_timeout max_wait_time_ms) c in
  match cl_otids c !! otid with
  | Some e =>
      if decide (oe_slice e = old_slice)
      then set_otids (<[otid := mkOTID (oe_successive_count e) (oe_last_write_offset e) (Some s)]>
                        (cl_otids c)) c
      else combine_handler_push_within_lock s c
  | None => combine_handler_push_within_lock s c
  end.

(** [create_slice]; [mem] is the slice [fast_mblock_alloc_object] gives ([None] when one of the
    allocations fails; the slice is then freed again). The result is [combined] afterwards. *)
Definition create_slice o op (old_slice mem : option Z) c : bool * Client :=
  if buffer_size <=? klen (op_key op) + 4096 then
    (false, upd_op o (set_combined false REASON_REACH_BUFF_SIZE) c)
  else if negb (IF_COMBINE_BY_SLICE_POSITION (op_key op)) then
    (false, upd_op o (set_combined false REASON_SLICE_POSITION) c)
  else
    match mem with
    | None => (false, upd_op o (set_combined false ENOMEM) c)
    | Some s =>
        match obid_htable_find_position (op_key op) c (block_slices c (block_id (op_key op))) 0 with
        | None => (false, upd_op o (set_combined false EEXIST) c)
        | Some n => (true, obid_htable_insert_at o op s old_slice n (set_free (cl_free c ∖ {[s]}) c))
        end
    end.

(** [deal_confilct_slice]; [mem] is the number of allocations that still succeed, if any fails. *)
Definition deal_confilct_slice o s (mem : option nat) c : Z * Client :=
  match mem with
  | Some O => (ENOMEM, set_fault true c)
  | _ => (0, fs_api_add_to_slice_waiting_list o s c)
  end.

(** The loop of [obid_htable_find_callback]. *)
Fixpoint obid_htable_find_callback o (k : FSBlockSliceKeyInfo) (mem : option nat) (l : list Z)
    (conflict_count : Z) c : Z * Client :=
  match l with
  | [] => (conflict_count, c)
  | s :: l =>
      match cl_slices c !! s with
      | None => (conflict_count, c)
      | Some sl =>
          if kend k <=? koff (as_key sl) then (conflict_count, c)
          else if fs_slice_is_overlap (bs_slice k) (bs_slice (as_key sl))
                  && bool_decide (as_stage sl = STAGE_MERGING ∨ as_stage sl = STAGE_PROCESSING) then
            let c := if decide (as_stage sl = STAGE_MERGING)
                     then combine_handler_push_within_lock s c else c in
            let '(result, c) := deal_confilct_slice o s mem c in
            if result =? 0
            then obid_htable_find_callback o k (Nat.pred <$> mem) l (conflict_count + 1) c
            else (conflict_count + 1, c)
          else obid_htable_find_callback o k mem l conflict_count c
      end
  end.

(** [wcombine_obid_htable_check_conflict_and_wait], up to the waiting. *)
Definition check_conflict o op (mem : option nat) c : Client :=
  let '(conflict_count, c) :=
    obid_htable_find_callback o (op_key op) mem (block_slices c (block_id (op_key op))) 0 c in
  upd_op o (set_pc (WaitConflict conflict_count)) c.

(** What follows the check: only a write without conflicts goes on to [wcombine_otid_htable_insert]. *)
Definition after_conflict op (conflict_count : Z) : CallPc :=
  match op_call op with
  | SliceWrite _ => if 0 <? conflict_count then CallServer else InsertOtid
  | _ => CallServer
  end.

(** [wcombine_otid_htable_insert] with [otid_htable_insert_callback]; [mem] is false when the
    table has no memory for a new entry. *)
Definition otid_htable_insert o op (mem : bool) c : Client :=
  let otid := (bk_oid (bs_block (op_key op)), op_tid op) in
  let offset := bk_offset (bs_block (op_key op)) + koff (op_key op) in
  let old := cl_otids c !! otid in
  if negb mem && bool_decide (old = None) then upd_op o (λ op, set_pc CallServer (set_combined false 0 op)) c
  else
    let count := match old with
                 | None => 0
                 | Some e => if offset =? oe_last_write_offset e
                             then cast32 (oe_successive_count e + 1) else 0
                 end in
    let e := mkOTID count (offset + klen (op_key op)) (match old with Some e => oe_slice e | None => None end) in
    let c := set_otids (<[otid := e]> (cl_otids c)) c in
    upd_op o (λ op, set_pc (if 0 <? count then FetchSlice 0 else CallServer)
                      (set_successive_count count (set_combined false 0 op))) c.

(** The rest of [check_combine_slice] after the loop: a new slice or not. *)
Definition after_combine o (old_slice : option Z) (is_new_slice : bool) (count : Z) c : Client :=
  upd_op o (λ op,
    if bool_decide (op_waits op ≠ []) then set_pc (WaitSlice count) (set_combined false REASON_WAITING_TIMEOUT op)
    else if is_new_slice && op_combined op then set_pc (CreateSlice old_slice) op
    else if op_combined op then set_pc (Returning 0) op
    else set_pc CallServer op) c.

(** [check_combine_slice]: the entry of the slice is fetched. *)
Definition fetch_slice o op (count : Z) c : Client :=
  let otid := (bk_oid (bs_block (op_key op)), op_tid op) in
  match cl_otids c !! otid ≫= oe_slice with
  | None =>
      let combined := IF_COMBINE_BY_SLICE_SIZE op in
      after_combine o None true count
        (upd_op o (set_combined combined (if combined then op_reason op else REASON_SLICE_SIZE)) c)
  | Some s => upd_op o (set_pc (FetchVersion count s)) c
  end.

(** Its locked part: nothing is done to a slice that was released since its version was read. *)
Definition locked_combine o op (count s old_version : Z) (mem : bool) c : Client :=
  match cl_slices c !! s with
  | None => c
  | Some sl =>
      if as_version sl =? old_version then
        let '(is_new_slice, c) := try_combine_slice o op s sl mem c in
        after_combine o (Some s) is_new_slice count c
      else upd_op o (set_pc (FetchSlice count)) c
  end.

(** Storing bytes on the servers: [mask] is the part a failed call has written. *)
Definition db_write (k : FSBlockSliceKeyInfo) (data : list TByte) (result : Z) (mask : list bool) c : Client :=
  set_db (λ b i,
    if decide (b = block_id k) then
      match data !! Z.to_nat (i - koff k) with
      | Some v => if (koff k <=? i) && ((result =? 0) || default false (mask !! Z.to_nat (i - koff k)))
                  then v else cl_db c b i
      | None => cl_db c b i
      end
    else cl_db c b i) c.

(** The bytes of an extent. *)
Definition db_read (k : FSBlockSliceKeyInfo) c : list TByte :=
  map (λ n, cl_db c (block_id k) (koff k + Z.of_nat n)) (seq 0 (Z.to_nat (klen k))).

(** What a call writes: a deletion leaves zeros, an allocation changes no byte. *)
Definition call_bytes o op : option (list TByte) :=
  match op_call op with
  | SliceWrite _ => Some (wbuffer_bytes o op)
  | SliceDelete | BlockDelete => Some (replicate (Z.to_nat (klen (op_key op))) (0, o))
  | SliceRead | SliceAllocate => None
  end.

(** [fs_client_slice_write] and the like: the servers deal with the request, the answer is
    [result]. *)
Definition call_server o op (result : Z) (mask : list bool) c : Client :=
  let c := match call_bytes o op with
           | Some data => db_write (op_key op) data result mask c
           | None => c
           end in
  let data := match op_call op with
              | SliceRead => if result =? 0 then db_read (op_key op) c else []
              | _ => []
              end in
  upd_op o (λ op, set_pc (Returning result) (set_read data op)) c.

(** The requests the API is used with: extents within a block, all of a block for its deletion. *)
Definition valid_request (call : APICall) (k : FSBlockSliceKeyInfo) : bool :=
  (0 <=? koff k) && (0 <? klen k) && (kend k <=? FS_FILE_BLOCK_SIZE)
  && match call with
     | SliceWrite data => Z.of_nat (length data) =? klen k
     | BlockDelete => (koff k =? 0) && (klen k =? FS_FILE_BLOCK_SIZE)
     | _ => true
     end.

(** [fs_api_slice_write], [fs_api_slice_read], ... are entered. *)
Definition start_call o (call : APICall) (tid : Z) (k : FSBlockSliceKeyInfo) c : option Client :=
  if valid_request call k && (0 <? o) && bool_decide (cl_ops c !! o = None) then
    Some (set_ops (<[o := mkOp call tid k CheckConflict false 0 0 [] [] (cl_done c)]> (cl_ops c)) c)
  else None.

(** The call returns to its user. *)
Definition finish_call o (result : Z) c : Client :=
  let c := upd_op o (set_pc (Returned result)) c in
  if result =? 0 then set_done ({[o]} ∪ cl_done c) c else c.

(** [wcmb_slice_entry_alloc_init]: an allocator makes a new entry; what its memory holds is [sl]. *)
Definition wcmb_slice_entry_alloc_init s (a : Z) c : option Client :=
  if bool_decide (cl_slices c !! s = None) then
    let '(version, c) := fs_api_next_slice_version a c in
    let sl := mkAPISlice (0, 0) version STAGE_NONE 0 0
                (mkBlockSliceKey (mkBlockKey 0 0 0) (mkSliceSize 0 0)) [] [] a in
    Some (set_free ({[s]} ∪ cl_free c) (set_slices (<[s := sl]> (cl_slices c)) c))
  else None.

(** [combine_handler_run], the write; when it fails the client terminates itself after the slice
    was released. *)
Definition run_write s sl (result : Z) (mask : list bool) c : Client :=
  let c := db_write (as_key sl) (take (Z.to_nat (klen (as_key sl))) (as_buff sl)) result mask c in
  let c := if result =? 0 then c else set_fault true c in
  set_running (<[s := RunUnlink]> (cl_running c)) c.

(** [notify_and_release_slice], before the lock: the entry of the file and thread forgets the
    slice, and the new version is made. *)
Definition run_unlink s sl c : Client :=
  let c := match cl_otids c !! as_otid sl with
           | Some e => if decide (oe_slice e = Some s)
                       then set_otids (<[as_otid sl := mkOTID (oe_successive_count e)
                                           (oe_last_write_offset e) None]> (cl_otids c)) c
                       else c
           | None => c
           end in
  let '(new_version, c) := fs_api_next_slice_version (as_allocator sl) c in
  set_running (<[s := RunRelease (as_version sl) new_version]> (cl_running c)) c.

(** [fs_api_notify_waiting_tasks]. *)
Definition fs_api_notify_waiting_tasks s (waitings : list Z) c : Client :=
  foldr (λ o c, upd_op o (λ op, set_waits (filter (λ s', s' ≠ s) (op_waits op)) op) c) c waitings.

(** [notify_and_release_slice], under the lock, and the release of the entry. *)
Definition run_release s sl (old_version new_version : Z) c : Client :=
  let c := fs_api_notify_waiting_tasks s (as_waitings sl) c in
  let c := upd_slice s (λ sl, set_version (if as_version sl =? old_version then new_version else as_version sl)
                          (set_waitings [] (set_stage STAGE_CLEANUP sl))) c in
  let b := block_id (as_key sl) in
  let c := set_blocks (<[b := filter (λ s', s' ≠ s) (block_slices c b)]> (cl_blocks c)) c in
  set_free ({[s]} ∪ cl_free c) (set_running (delete s (cl_running c)) c).

(** ** The steps

    [StepCall] continues a call; [mem], [avail], [slot], [result] and [mask] are what the
    allocators and the servers answer to it. *)
Inductive Step :=
| StepStart (o : Z) (call : APICall) (tid : Z) (k : FSBlockSliceKeyInfo)
| StepCall (o : Z) (mem : bool) (avail : option nat) (slot : option Z) (result : Z) (mask : list bool)
| StepAllocInit (s a : Z)
| StepTick (now : Z)
| StepTimeout (s : Z)
| StepDealTimeouts
| StepPopAll
| StepDealSlices
| StepRun (s result : Z) (mask : list bool).

(** A slice that [slot] may name: a free entry of the allocator of the thread. *)
Definition slot_ok op (slot : option Z) c : bool :=
  match slot with
  | None => true
  | Some s => bool_decide (s ∈ cl_free c) &&
              bool_decide ((as_allocator <$> cl_slices c !! s) = Some (fs_api_allocator_get (op_tid op)))
  end.

Definition step_call o op (mem : bool) (avail : option nat) (slot : option Z) (result : Z)
    (mask : list bool) c : option Client :=
  match op_pc op with
  | CheckConflict => Some (check_conflict o op avail c)
  | WaitConflict n =>
      if decide (op_waits op = []) then Some (upd_op o (set_pc (after_conflict op n)) c) else None
  | InsertOtid => Some (otid_htable_insert o op mem c)
  | FetchSlice count => Some (fetch_slice o op count c)
  | FetchVersion count s =>
      match cl_slices c !! s with
      | Some sl => Some (upd_op o (set_pc (TryCombine count s (as_version sl))) c)
      | None => None
      end
  | TryCombine count s version => Some (locked_combine o op count s version mem c)
  | CreateSlice old =>
      if slot_ok op slot c then
        let '(combined, c) := create_slice o op old slot c in
        Some (upd_op o (set_pc (if combined then Returning 0 else CallServer)) c)
      else None
  | WaitSlice count =>
      if decide (op_waits op = [])
      then Some (upd_op o (set_pc (if count <? 3 then FetchSlice (count + 1) else CallServer)) c)
      else None
  | CallServer => Some (call_server o op result mask c)
  | Returning r => Some (finish_call o r c)
  | Returned _ => None
  end.

Definition step_run s sl (pc : RunPc) (result : Z) (mask : list bool) c : Client :=
  match pc with
  | RunWrite => run_write s sl result mask c
  | RunUnlink => run_unlink s sl c
  | RunRelease old_version new_version => run_release s sl old_version new_version c
  end.

(** [timeout_handler_timeouts_get]: the timer gives the entries that have expired one at a time. *)
Definition timeout_handler_timeouts_get s c : option Client :=
  expires ← cl_timer c !! s;
  if expires <=? current_time_ticks c
  then Some (set_expired (cl_expired c ++ [s]) (timeout_handler_remove s c)) else None.

(** A round of the loop of [deal_timeouts]. *)
Definition deal_timeouts c : option Client :=
  match cl_expired c with
  | [] => None
  | s :: l => Some (combine_handler_push s (set_expired l c))
  end.

(** [combine_handler_thread_func] takes the queue when [deal_slices] is done with the last one. *)
Definition combine_handler_pop_all c : option Client :=
  match cl_dealing c with
  | [] => Some (set_queue [] (set_dealing (cl_queue c) c))
  | _ => None
  end.

(** A round of the loop of [deal_slices]. *)
Definition deal_slices c : option Client :=
  match cl_dealing c with
  | [] => None
  | s :: l =>
      let c := set_waiting_slice_count (cl_waiting_slice_count c - 1) (set_dealing l c) in
      Some (set_running (<[s := RunWrite]> (cl_running c)) c)
  end.

Definition step (st : Step) c : option Client :=
  match st with
  | StepStart o call tid k => start_call o call tid k c
  | StepCall o mem avail slot result mask =>
      op ← cl_ops c !! o; step_call o op mem avail slot result mask c
  | StepAllocInit s a => wcmb_slice_entry_alloc_init s a c
  | StepTick now => if cl_time c <=? now then Some (set_time now c) else None
  | StepTimeout s => timeout_handler_timeouts_get s c
  | StepDealTimeouts => deal_timeouts c
  | StepPopAll => combine_handler_pop_all c
  | StepDealSlices => deal_slices c
  | StepRun s result mask =>
      sl ← cl_slices c !! s; pc ← cl_running c !! s; Some (step_run s sl pc result mask c)
  end.

(** A client that has just been started at the time [t]. *)
Definition client_init (t : Z) : Client :=
  mkClient ∅ ∅ ∅ ∅ ∅ ∅ [] [] [] ∅ 0 t (λ _ _, (0, 0)) ∅ {[0]} false.

(** The states of a client that was started at the time [t]. *)
Inductive reachable (t : Z) : Client → Prop :=
| reachable_init : reachable t (client_init t)
| reachable_step st c c' : reachable t c → step st c = Some c' → reachable t c'.

(** A schedule. *)
Fixpoint run_steps (l : list Step) c : option Client :=
  match l with
  | [] => Some c
  | st :: l => c' ← step st c; run_steps l c'
  end.
End WriteCombine.
