(* ===== verification/WCombineThms.v ===== *)
(** * A store with write buffers

    What the write combining client is to its users: buffers [bufs] that hold bytes not yet
    stored, the contents [db] of the servers, the operations, and those that succeeded. The
    invariant [hist] says which bytes may be where; every event of the client keeps it. It is
    what makes a read regular: a byte that is read was written by an operation that no
    operation completed before the read has overwritten. *)
From S2P Require Import Prelude Types WriteCombine.

Definition Bufs : Type := Z → option (FSBlockSliceKeyInfo * list TByte).

(** Byte [i] of the block [b] is in the extent. *)
Definition covers (k : FSBlockSliceKeyInfo) (b : TwoIds) (i : Z) : Prop :=
  b = block_id k ∧ koff k <= i < kend k.

Definition modifies (op : APIOp) : Prop :=
  match op_call op with SliceRead | SliceAllocate => False | _ => True end.

(** The byte the operation writes at [i]. *)
Definition byte_of (o : Z) (op : APIOp) (i : Z) : option TByte :=
  data ← call_bytes o op; data !! Z.to_nat (i - koff (op_key op)).

(** The call has had its answer; it has had the answer 0. *)
Definition asked (op : APIOp) : Prop := ∃ r, op_pc op = Returning r ∨ op_pc op = Returned r.
Definition effected (op : APIOp) : Prop := op_pc op = Returning 0 ∨ op_pc op = Returned 0.

(** The value [v] is what the operation [w] (or nobody: 0) wrote there. *)
Definition written (ops : gmap Z APIOp) (b : TwoIds) (i v w : Z) : Prop :=
  (w = 0 ∧ v = 0) ∨
  ∃ op, ops !! w = Some op ∧ covers (op_key op) b i ∧ byte_of w op i = Some (v, w).

(** Before [op] began, an operation had succeeded that writes the byte and began when [w] had
    succeeded. *)
Definition overwritten (ops : gmap Z APIOp) (op : APIOp) (b : TwoIds) (i w : Z) : Prop :=
  ∃ o' op', o' ∈ op_before op ∧ ops !! o' = Some op' ∧ modifies op' ∧ covers (op_key op') b i
            ∧ w ∈ op_before op'.

(** A read is regular: every byte it returned was written there by an operation that was not
    overwritten before the read began, and did not begin after it returned. *)
Definition regular (ops : gmap Z APIOp) (o : Z) (op : APIOp) : Prop :=
  length (op_read op) = Z.to_nat (klen (op_key op)) ∧
  ∀ n v w, op_read op !! n = Some (v, w) →
    let b := block_id (op_key op) in let i := koff (op_key op) + Z.of_nat n in
    written ops b i v w ∧ ¬ overwritten ops op b i w ∧
    (∀ opw, ops !! w = Some opw → o ∉ op_before opw).

Definition buffered (bufs : Bufs) (b : TwoIds) (i : Z) : Prop :=
  ∃ s k buf, bufs s = Some (k, buf) ∧ covers k b i.

(** What holds of each operation: it knows of nothing that has not succeeded; when a buffer has
    a byte of its extent written by an operation it began after, it has not checked for
    conflicts or waits for the buffer; after its success the stored byte is not older than it,
    unless a buffer has a newer one; a reader that checked for conflicts will not find an
    overwritten byte. *)
Record op_hist (bufs : Bufs) (db : TwoIds → Z → TByte) (ops : gmap Z APIOp) (dn : gset Z)
    (o : Z) (op : APIOp) : Prop := {
  oh_before : op_before op ⊆ dn;
  oh_order s k buf b i v w : bufs s = Some (k, buf) → covers k b i → covers (op_key op) b i →
    buf !! Z.to_nat (i - koff k) = Some (v, w) → w ∈ op_before op →
    op_pc op = CheckConflict ∨ s ∈ op_waits op;
  oh_effect b i : modifies op → effected op → covers (op_key op) b i →
    (db b i).2 ∈ op_before op → buffered bufs b i;
  oh_reader b i : op_call op = SliceRead → op_pc op ≠ CheckConflict → ¬ asked op →
    covers (op_key op) b i → overwritten ops op b i (db b i).2 →
    ∃ s k buf, bufs s = Some (k, buf) ∧ covers k b i ∧ s ∈ op_waits op;
  oh_read : op_call op = SliceRead → effected op → regular ops o op;
}.

Record hist (bufs : Bufs) (db : TwoIds → Z → TByte) (ops : gmap Z APIOp) (dn : gset Z) : Prop := {
  hi_ops o op : ops !! o = Some op → op_hist bufs db ops dn o op;
  hi_done o : o ∈ dn → o = 0 ∨ ∃ op, ops !! o = Some op ∧ op_pc op = Returned 0;
  hi_zero : ops !! 0 = None ∧ 0 ∈ dn;
  hi_db b i : written ops b i (db b i).1 (db b i).2;
  hi_full s k buf : bufs s = Some (k, buf) → length buf = Z.to_nat (klen k);
  hi_buf s k buf b i v w : bufs s = Some (k, buf) → covers k b i →
    buf !! Z.to_nat (i - koff k) = Some (v, w) → written ops b i v w;
}.

(** What a call never changes of its operation. *)
Definition same_op (op op' : APIOp) : Prop :=
  op_call op' = op_call op ∧ op_key op' = op_key op ∧ op_before op' = op_before op.

Lemma covers_lookup k b i (buf : list TByte) :
  covers k b i → length buf = Z.to_nat (klen k) → ∃ v w, buf !! Z.to_nat (i - koff k) = Some (v, w).
Proof.
  intros [_ Hi] Hl. destruct (lookup_lt_is_Some_2 buf (Z.to_nat (i - koff k))) as [[v w] Hb].
  - rewrite Hl. unfold kend in Hi. lia.
  - by exists v, w.
Qed.

Lemma same_byte o op op' i : same_op op op' → byte_of o op' i = byte_of o op i.
Proof. intros (Hc & Hk & _). unfold byte_of, call_bytes, wbuffer_bytes. by rewrite Hc, Hk. Qed.
Lemma same_modifies op op' : same_op op op' → modifies op' → modifies op.
Proof. intros (Hc & _). unfold modifies. by rewrite Hc. Qed.

Section Grow.
Context (bufs : Bufs) (db : TwoIds → Z → TByte) (ops ops' : gmap Z APIOp) (dn : gset Z).
(** The operations may change, except for what [same_op] keeps, and new ones may come. *)
Hypothesis grow : ∀ o op, ops !! o = Some op → ∃ op', ops' !! o = Some op' ∧ same_op op op'.

Lemma written_grow b i v w : written ops b i v w → written ops' b i v w.
Proof.
  intros [?|(op & Hop & Hc & Hb)]; [by left|right]. destruct (grow _ _ Hop) as (op' & Hop' & Hs).
  exists op'. rewrite (same_byte _ _ _ _ Hs). destruct Hs as (_ & -> & _). done.
Qed.

Lemma overwritten_grow op b i w :
  (∀ o, o ∈ op_before op → o = 0 ∨ is_Some (ops !! o)) → ops' !! 0 = None →
  overwritten ops' op b i w → overwritten ops op b i w.
Proof.
  intros Hb Hz (o & op1 & Ho & Hop1 & Hm & Hc & Hw).
  destruct (Hb _ Ho) as [->|[op0 Hop0]]; [congruence|].
  destruct (grow _ _ Hop0) as (op2 & Hop2 & Hs). simplify_eq.
  exists o, op0. split_and!; [done|done|by eapply same_modifies| |].
  - by destruct Hs as (_ & <- & _).
  - by destruct Hs as (_ & _ & <-).
Qed.
End Grow.

Section Events.
Context {bufs : Bufs} {db : TwoIds → Z → TByte} {ops : gmap Z APIOp} {dn : gset Z}.
Context (H : hist bufs db ops dn).

Lemma done_known o op o' : ops !! o = Some op → o' ∈ op_before op → o' = 0 ∨ is_Some (ops !! o').
Proof.
  intros Hop Ho'. apply (oh_before _ _ _ _ _ _ (hi_ops _ _ _ _ H _ _ Hop)) in Ho'.
  destruct (hi_done _ _ _ _ H _ Ho') as [?|(op' & -> & _)]; eauto.
Qed.

(** An operation that has not returned was not known to any other. *)
Lemma running_unknown o op o' op' :
  ops !! o = Some op → op_pc op ≠ Returned 0 → ops !! o' = Some op' → o ∉ op_before op'.
Proof.
  intros Hop Hpc Hop' Hin. apply (oh_before _ _ _ _ _ _ (hi_ops _ _ _ _ H _ _ Hop')) in Hin.
  destruct (hi_done _ _ _ _ H _ Hin) as [->|(op1 & Hop1 & Hr)].
  - rewrite (proj1 (hi_zero _ _ _ _ H)) in Hop. done.
  - simplify_eq. 
Qed.

Lemma insert_grow o op op' :
  ops !! o = Some op → same_op op op' →
  ∀ o1 op1, ops !! o1 = Some op1 → ∃ op2, <[o := op']> ops !! o1 = Some op2 ∧ same_op op1 op2.
Proof.
  intros Hop Hs o1 op1 H1. destruct (decide (o1 = o)) as [->|].
  - rewrite lookup_insert_eq. simplify_eq. eauto.
  - rewrite lookup_insert_ne by done. exists op1. repeat split; done.
Qed.

Lemma insert_zero o op op' : ops !! o = Some op → <[o := op']> ops !! 0 = None.
Proof.
  intros Hop. destruct (hi_zero _ _ _ _ H) as [Hz _].
  destruct (decide (o = 0)) as [->|]; [congruence|]. by rewrite lookup_insert_ne.
Qed.

Lemma overwritten_update o op op' o1 op1 op1' b i w :
  ops !! o = Some op → same_op op op' → ops !! o1 = Some op1 → op_before op1' = op_before op1 →
  overwritten (<[o := op']> ops) op1' b i w → overwritten ops op1 b i w.
Proof.
  intros Hop Hs Hop1 Hb Hov. eapply overwritten_grow; [by eapply (insert_grow o op op')| | |].
  - intros o' Ho'. by eapply done_known.
  - by eapply insert_zero.
  - destruct Hov as (o' & op2 & ? & ?). exists o', op2. by rewrite <- Hb.
Qed.

(** The invariant of an operation that did not change, when another one did. *)
Lemma op_hist_other bufs' db' o op op' o1 op1 :
  ops !! o = Some op → same_op op op' → ops !! o1 = Some op1 →
  op_hist bufs' db' ops dn o1 op1 → op_hist bufs' db' (<[o := op']> ops) dn o1 op1.
Proof.
  intros Hop Hs H1 [Hb Ho He Hr Hd].
  assert (Hov : ∀ b i w, overwritten (<[o := op']> ops) op1 b i w → overwritten ops op1 b i w)
    by (intros b i w; by eapply overwritten_update).
  constructor; [done|done|done| |].
  - intros b i Hc Hpc Ha Hco Ho'. by apply Hr, Hov.
  - intros Hc Hef. destruct (Hd Hc Hef) as [Hl Hn]. split; [done|].
    intros n v w Hv. destruct (Hn n v w Hv) as (Hw & Hnov & Hnew). split_and!.
    + eapply written_grow; [|done]. by eapply insert_grow.
    + intros Hx. by apply Hnov, Hov.
    + intros opw Hopw. destruct (decide (w = o)) as [->|].
      * rewrite lookup_insert_eq in Hopw. simplify_eq. destruct Hs as (_ & _ & ->). by apply Hnew.
      * rewrite lookup_insert_ne in Hopw by done. by apply Hnew.
Qed.

(** [op] becomes [op'], and maybe the buffers and the stored bytes change. *)
Lemma hist_update bufs' db' o op op' :
  ops !! o = Some op → same_op op op' →
  (op_pc op = Returned 0 → op_pc op' = Returned 0) →
  op_hist bufs' db' (<[o := op']> ops) dn o op' →
  (∀ o1 op1, o1 ≠ o → ops !! o1 = Some op1 → op_hist bufs' db' ops dn o1 op1) →
  (∀ b i, written ops b i (db' b i).1 (db' b i).2) →
  (∀ s k buf, bufs' s = Some (k, buf) → length buf = Z.to_nat (klen k)) →
  (∀ s k buf b i v w, bufs' s = Some (k, buf) → covers k b i →
     buf !! Z.to_nat (i - koff k) = Some (v, w) → written ops b i v w) →
  hist bufs' db' (<[o := op']> ops) dn.
Proof.
  intros Hop Hs Hret Hnew Hoth Hdb Hfull Hbuf.
  assert (Hg := insert_grow _ _ _ Hop Hs).
  constructor.
  - intros o1 op1 Ho1. destruct (decide (o1 = o)) as [->|].
    + rewrite lookup_insert_eq in Ho1. by simplify_eq.
    + rewrite lookup_insert_ne in Ho1 by done. eapply op_hist_other; eauto.
  - intros o1 Ho1. destruct (hi_done _ _ _ _ H _ Ho1) as [?|(op1 & H1 & Hpc)]; [by left|right].
    destruct (decide (o1 = o)) as [->|].
    + rewrite lookup_insert_eq. simplify_eq. eauto.
    + rewrite lookup_insert_ne by done. eauto.
  - split; [by eapply insert_zero|]. by apply H.
  - intros b i. by eapply written_grow.
  - done.
  - intros. eapply written_grow; [done|by eapply Hbuf].
Qed.

(** A call goes on; it may wait for more. *)
Lemma ev_move o op op' :
  ops !! o = Some op → same_op op op' → op_pc op ≠ CheckConflict → ¬ asked op → ¬ asked op' →
  op_waits op ⊆ op_waits op' → hist bufs db (<[o := op']> ops) dn.
Proof.
  intros Hop Hs Hpc Ha Ha' Hw.
  eapply hist_update; eauto using hi_ops, hi_db, hi_full, hi_buf.
  { intros Hr. destruct Ha. exists 0. by right. }
  assert (Heff : ¬ effected op') by (intros [?|?]; apply Ha'; exists 0; auto).
  destruct (hi_ops _ _ _ _ H _ _ Hop) as [Hb Ho _ Hr _]. destruct Hs as (Hc & Hk & Hbf).
  constructor; rewrite ?Hc, ?Hk, ?Hbf; try done.
  - intros s k buf b i v w H1 H2 H3 H4 H5. right. apply Hw.
    by destruct (Ho s k buf b i v w H1 H2 H3 H4 H5).
  - intros b i Hcall _ _ Hcov Hov.
    destruct (Hr b i Hcall Hpc Ha Hcov) as (s & k & buf & ? & ? & ?); [by eapply overwritten_update|].
    exists s, k, buf. auto.
Qed.

(** A call in the same phase as before; a buffer it no longer waits for is gone. *)
Lemma ev_same_phase o op op' :
  ops !! o = Some op → same_op op op' → op_read op' = op_read op →
  (op_pc op = CheckConflict ↔ op_pc op' = CheckConflict) → (asked op ↔ asked op') →
  (effected op ↔ effected op') → (op_pc op = Returned 0 → op_pc op' = Returned 0) →
  (∀ s, is_Some (bufs s) → s ∈ op_waits op → s ∈ op_waits op') →
  hist bufs db (<[o := op']> ops) dn.
Proof.
  intros Hop Hs Hrd Hck Has Hef Hret Hw.
  eapply hist_update; eauto using hi_ops, hi_db, hi_full, hi_buf.
  destruct (hi_ops _ _ _ _ H _ _ Hop) as [Hb Ho He Hr Hd]. pose proof Hs as (Hc & Hk & Hbf).
  constructor; rewrite ?Hc, ?Hk, ?Hbf; try done.
  - intros s1 k buf b i v w H1 H2 H3 H4 H5.
    destruct (Ho s1 k buf b i v w H1 H2 H3 H4 H5) as [?|?]; [left; tauto|right]. apply Hw; eauto.
  - intros b i Hm Hef' Hco. apply He; [by eapply same_modifies|tauto|done].
  - intros b i Hcall Hn Ha Hcov Hov.
    destruct (Hr b i Hcall) as (s1 & k & buf & ? & ? & ?); [tauto|tauto|done|by eapply overwritten_update|].
    exists s1, k, buf. eauto 10.
  - intros Hcall Hef'. destruct (Hd Hcall) as [Hl Hreg]; [tauto|]. split; [by rewrite Hrd, Hk|].
    rewrite Hrd, Hk. intros n v w Hv. destruct (Hreg n v w Hv) as (H1 & H2 & H3). split_and!.
    + eapply written_grow; [|done]. by eapply insert_grow.
    + intros Hov. apply H2. by eapply overwritten_update.
    + intros opw Hopw. destruct (decide (w = o)) as [->|].
      * rewrite lookup_insert_eq in Hopw. simplify_eq. rewrite Hbf. by apply H3.
      * rewrite lookup_insert_ne in Hopw by done. by apply H3.
Qed.

(** A call that has found every buffer that has a byte of its extent. *)
Lemma ev_check o op op' :
  ops !! o = Some op → same_op op op' → ¬ asked op → ¬ asked op' →
  (∀ s k buf b i, bufs s = Some (k, buf) → covers k b i → covers (op_key op) b i → s ∈ op_waits op') →
  hist bufs db (<[o := op']> ops) dn.
Proof.
  intros Hop Hs Ha Ha' Hall.
  eapply hist_update; eauto using hi_ops, hi_db, hi_full, hi_buf.
  { intros Hr. destruct Ha. exists 0. by right. }
  assert (Heff : ¬ effected op') by (intros [?|?]; apply Ha'; exists 0; auto).
  destruct (hi_ops _ _ _ _ H _ _ Hop) as [Hb _ _ _ _]. pose proof Hs as (Hc & Hk & Hbf).
  constructor; rewrite ?Hc, ?Hk, ?Hbf; try done.
  - eauto.
  - intros b i Hcall _ _ Hcov Hov. apply (overwritten_update o op op' o op) in Hov; [|done..].
    destruct Hov as (o' & op1 & Ho' & Hop1 & Hm & Hc1 & Hw). apply Hb in Ho'.
    destruct (hi_done _ _ _ _ H _ Ho') as [->|(op2 & Hop2 & Hpc2)].
    { by rewrite (proj1 (hi_zero _ _ _ _ H)) in Hop1. }
    simplify_eq. destruct (oh_effect _ _ _ _ _ _ (hi_ops _ _ _ _ H _ _ Hop1) b i Hm) as (s & k & buf & Hb1 & Hb2).
    { by right. } { done. } { done. }
    exists s, k, buf. eauto.
Qed.

(** The servers have answered; what the call wrote is stored. *)
Lemma ev_answer db' r o op op' :
  ops !! o = Some op → same_op op op' → op_pc op ≠ CheckConflict → ¬ asked op →
  op_pc op' = Returning r → op_waits op' = op_waits op →
  (∀ b i, db' b i = db b i ∨
     ((db' b i).2 = o ∧ covers (op_key op) b i ∧ byte_of o op i = Some (db' b i))) →
  (r = 0 → modifies op → ∀ b i, covers (op_key op) b i → (db' b i).2 = o) →
  (r = 0 → op_call op = SliceRead → regular (<[o := op']> ops) o op') →
  hist bufs db' (<[o := op']> ops) dn.
Proof.
  intros Hop Hs Hpc Ha Hpc' Hw Hdb Hst Hrd.
  assert (Hne : op_pc op ≠ Returned 0) by (intros Hr; apply Ha; exists 0; by right).
  assert (Hun : ∀ o1 op1, ops !! o1 = Some op1 → o ∉ op_before op1)
    by (intros; by eapply running_unknown).
  eapply hist_update; eauto using hi_full, hi_buf; try done.
  - destruct (hi_ops _ _ _ _ H _ _ Hop) as [Hb Ho _ _ _]. pose proof Hs as (Hc & Hk & Hbf).
    constructor; rewrite ?Hc, ?Hk, ?Hbf, ?Hw; try done.
    + intros s k buf b i v w H1 H2 H3 H4 H5. right. by destruct (Ho s k buf b i v w H1 H2 H3 H4 H5).
    + intros b i Hm Hef Hcov Hin. assert (r = 0) as -> by (destruct Hef; congruence).
      rewrite (Hst eq_refl) in Hin; [|by eapply same_modifies|done]. by apply (Hun o op) in Hin.
    + intros b i _ _ Ha'. destruct Ha'. exists r. by left.
    + intros Hcall [?|?]; [|congruence]. apply Hrd; congruence.
  - intros o1 op1 _ Hop1. destruct (hi_ops _ _ _ _ H _ _ Hop1) as [Hb Ho He Hr Hd].
    constructor; try done.
    + intros b i Hm Hef Hcov Hin. destruct (Hdb b i) as [Heq|(Heq & _)]; rewrite Heq in Hin.
      * by apply He.
      * (exfalso; by eapply Hun).
    + intros b i Hcall Hck Has Hcov Hov. destruct (Hdb b i) as [Heq|(Heq & _)]; rewrite Heq in Hov.
      * by apply Hr.
      * destruct Hov as (o2 & op2 & _ & Hop2 & _ & _ & Hin). (exfalso; by eapply Hun).
  - intros b i. destruct (Hdb b i) as [->|(Heq & Hcov & Hby)]; [apply H|].
    right. destruct (db' b i) as [v w]. simpl in *. subst w. by exists op.
Qed.

(** Bytes of a call that has not returned are put into a buffer. *)
Lemma ev_put bufs' s k' buf' o op :
  ops !! o = Some op → op_pc op ≠ Returned 0 →
  (∀ s', s' ≠ s → bufs' s' = bufs s') → bufs' s = Some (k', buf') → length buf' = Z.to_nat (klen k') →
  (∀ b i v w, covers k' b i → buf' !! Z.to_nat (i - koff k') = Some (v, w) →
     (∃ k buf, bufs s = Some (k, buf) ∧ covers k b i ∧ buf !! Z.to_nat (i - koff k) = Some (v, w)) ∨
     (w = o ∧ covers (op_key op) b i ∧ byte_of o op i = Some (v, w))) →
  (∀ k buf b i, bufs s = Some (k, buf) → covers k b i → covers k' b i) →
  hist bufs' db ops dn.
Proof.
  intros Hop Hne Hoth Hnew Hlen Hcell Hold.
  assert (Hun : ∀ o1 op1, ops !! o1 = Some op1 → o ∉ op_before op1)
    by (intros; by eapply running_unknown).
  assert (Hbuf : ∀ s1 k buf b i, bufs s1 = Some (k, buf) → covers k b i →
    ∃ k1 buf1, bufs' s1 = Some (k1, buf1) ∧ covers k1 b i).
  { intros s1 k buf b i Hb1 Hb2. destruct (decide (s1 = s)) as [->|]; [eauto|].
    rewrite Hoth by done. eauto. }
  constructor; try apply H.
  - intros o1 op1 Hop1. destruct (hi_ops _ _ _ _ H _ _ Hop1) as [Hb Ho He Hr Hd]. constructor; try done.
    + intros s1 k buf b i v w H1 H2 H3 H4 H5.
      destruct (decide (s1 = s)) as [->|]; [|rewrite Hoth in H1 by done; eauto].
      rewrite Hnew in H1. simplify_eq.
      destruct (Hcell b i v w H2 H4) as [(k0 & buf0 & ? & ? & ?)|(-> & _)]; [eauto|].
      exfalso. by eapply Hun.
    + intros b i Hm Hef Hc1 Hin. destruct (He b i Hm Hef Hc1 Hin) as (s1 & k & buf & Hb1 & Hb2).
      destruct (Hbuf _ _ _ _ _ Hb1 Hb2) as (? & ? & ? & ?). do 3 eexists. eauto.
    + intros b i Hcall Hck Has Hc1 Hov. destruct (Hr b i Hcall Hck Has Hc1 Hov) as (s1 & k & buf & Hb1 & Hb2 & ?).
      destruct (Hbuf _ _ _ _ _ Hb1 Hb2) as (? & ? & ? & ?). do 3 eexists. eauto.
  - intros s1 k buf Hb1. destruct (decide (s1 = s)) as [->|].
    + rewrite Hnew in Hb1. by simplify_eq.
    + rewrite Hoth in Hb1 by done. by eapply hi_full.
  - intros s1 k buf b i v w Hb1 Hb2 Hb3. destruct (decide (s1 = s)) as [->|].
    + rewrite Hnew in Hb1. simplify_eq. destruct (Hcell b i v w Hb2 Hb3) as [(k0 & buf0 & ? & ? & ?)|(-> & Hc1 & Hby)].
      * by eapply hi_buf.
      * right. eauto.
    + rewrite Hoth in Hb1 by done. by eapply hi_buf.
Qed.

(** A call returns because all its bytes are in buffers. *)
Lemma ev_combined o op op' :
  ops !! o = Some op → same_op op op' → op_pc op ≠ CheckConflict → ¬ asked op →
  op_pc op' = Returning 0 → op_waits op' = op_waits op → op_call op ≠ SliceRead →
  (∀ b i, covers (op_key op) b i → buffered bufs b i) →
  hist bufs db (<[o := op']> ops) dn.
Proof.
  intros Hop Hs Hpc Ha Hpc' Hw Hcl Hall.
  eapply hist_update; eauto using hi_ops, hi_db, hi_full, hi_buf.
  { intros Hr. destruct Ha. exists 0. by right. }
  destruct (hi_ops _ _ _ _ H _ _ Hop) as [Hb Ho _ _ _]. pose proof Hs as (Hc & Hk & Hbf).
  constructor; rewrite ?Hc, ?Hk, ?Hbf, ?Hw; try done; eauto.
  - intros s1 k buf b i v w H1 H2 H3 H4 H5. right. by destruct (Ho s1 k buf b i v w H1 H2 H3 H4 H5).
Qed.
End Events.

Section MoreEvents.
Context {bufs : Bufs} {db : TwoIds → Z → TByte} {ops : gmap Z APIOp} {dn : gset Z}.
Context (H : hist bufs db ops dn).

Lemma effected_asked op : effected op → asked op.
Proof. intros [?|?]; exists 0; auto. Qed.
Lemma effected_checked op : effected op → op_pc op ≠ CheckConflict.
Proof. intros [?|?]; congruence. Qed.

(** A buffer is stored and gone; only calls that have not had their answer wait. *)
Lemma ev_flush bufs' db' s k buf :
  (∀ o op, ops !! o = Some op → asked op → op_waits op = []) →
  bufs s = Some (k, buf) → bufs' s = None → (∀ s', s' ≠ s → bufs' s' = bufs s') →
  (∀ b i, covers k b i → buf !! Z.to_nat (i - koff k) = Some (db' b i)) →
  (∀ b i, ¬ covers k b i → db' b i = db b i) →
  hist bufs' db' ops dn.
Proof.
  intros waits_ok Hs Hnone Hoth Hin Hout.
  assert (Hsub : ∀ s1 k1 buf1, bufs' s1 = Some (k1, buf1) → s1 ≠ s ∧ bufs s1 = Some (k1, buf1)).
  { intros s1 k1 buf1 Hb1. destruct (decide (s1 = s)) as [->|]; [congruence|]. by rewrite <- Hoth. }
  assert (Hkeep : ∀ s1 k1 buf1 b i, ¬ covers k b i → bufs s1 = Some (k1, buf1) → covers k1 b i →
    bufs' s1 = Some (k1, buf1)).
  { intros s1 k1 buf1 b i Hn Hb1 Hc1. rewrite Hoth; [done|]. intros ->. congruence. }
  assert (Hfresh : ∀ o op b i, ops !! o = Some op → op_pc op ≠ CheckConflict → op_waits op = [] →
    covers (op_key op) b i → covers k b i → (db' b i).2 ∉ op_before op).
  { intros o op b i Hop Hck Hw Hc1 Hc Hb.
    destruct (oh_order _ _ _ _ _ _ (hi_ops _ _ _ _ H _ _ Hop) s k buf b i (db' b i).1 (db' b i).2) as [?|Hx]; try done.
    { rewrite <- surjective_pairing. by apply Hin. }
    rewrite Hw in Hx. by apply elem_of_nil in Hx. }
  assert (Hdec : ∀ b i, covers k b i ∨ ¬ covers k b i).
  { intros b i. by destruct (decide (b = block_id k ∧ koff k <= i < kend k)); [left|right]. }
  constructor; try apply H.
  - intros o op Hop. destruct (hi_ops _ _ _ _ H _ _ Hop) as [Hb Ho He Hr Hd]. constructor; try done.
    + intros s1 k1 buf1 b i v w Hb1. apply Hsub in Hb1 as [_ Hb1]. eauto.
    + intros b i Hm Hef Hc1 Hx. destruct (Hdec b i) as [Hc|Hc].
      * exfalso. eapply Hfresh; eauto using effected_asked, effected_checked.
      * rewrite Hout in Hx by done. destruct (He b i Hm Hef Hc1 Hx) as (s1 & k1 & buf1 & ? & ?).
        exists s1, k1, buf1. eauto.
    + intros b i Hcall Hck Has Hc1 Hov. destruct (Hdec b i) as [Hc|Hc].
      * exfalso. destruct Hov as (o2 & op2 & Ho2 & Hop2 & Hm2 & Hc2 & Hw2).
        assert (Hpc2 : op_pc op2 = Returned 0).
        { apply Hb in Ho2. destruct (hi_done _ _ _ _ H _ Ho2) as [->|(op3 & ? & ?)]; [|congruence].
          by rewrite (proj1 (hi_zero _ _ _ _ H)) in Hop2. }
        assert (effected op2) by by right.
        by eapply (Hfresh o2 op2 b i); eauto using effected_asked, effected_checked.
      * rewrite Hout in Hov by done. destruct (Hr b i Hcall Hck Has Hc1 Hov) as (s1 & k1 & buf1 & ? & ? & ?).
        exists s1, k1, buf1. eauto.
  - intros b i. destruct (Hdec b i) as [Hc|Hc].
    + apply Hin in Hc as Hb1. rewrite (surjective_pairing (db' b i)) in Hb1. by eapply hi_buf.
    + rewrite Hout by done. apply H.
  - intros s1 k1 buf1 Hb1. apply Hsub in Hb1 as [_ Hb1]. by eapply hi_full.
  - intros s1 k1 buf1 b i v w Hb1. apply Hsub in Hb1 as [_ Hb1]. by eapply hi_buf.
Qed.

(** A call begins. *)
Lemma ev_start o op :
  ops !! o = None → o ≠ 0 → op_pc op = CheckConflict → op_before op = dn →
  hist bufs db (<[o := op]> ops) dn.
Proof.
  intros Hop Hz Hpc Hb0.
  assert (Hg : ∀ o1 op1, ops !! o1 = Some op1 → ∃ op2, <[o := op]> ops !! o1 = Some op2 ∧ same_op op1 op2).
  { intros o1 op1 H1. exists op1. rewrite lookup_insert_ne by congruence. by repeat split. }
  assert (Hz' : <[o := op]> ops !! 0 = None).
  { rewrite lookup_insert_ne by done. apply H. }
  assert (Hnef : ∀ r, op_pc op ≠ Returning r ∧ op_pc op ≠ Returned r) by (rewrite Hpc; done).
  constructor; try apply H; try done.
  - intros o1 op1 Hop1. destruct (decide (o1 = o)) as [->|Hne1].
    { rewrite lookup_insert_eq in Hop1. simplify_eq. constructor; auto.
      - intros b i _ [Hx|Hx]; by destruct (Hnef 0).
      - done.
      - intros _ [Hx|Hx]; by destruct (Hnef 0). }
    rewrite lookup_insert_ne in Hop1 by done.
    destruct (hi_ops _ _ _ _ H _ _ Hop1) as [Hb Ho He Hr Hd].
    assert (Hov : ∀ b i w, overwritten (<[o:=op]> ops) op1 b i w → overwritten ops op1 b i w).
    { intros b i w. apply overwritten_grow; [done| |done]. intros o' Ho'. by eapply (done_known H). }
    constructor; try done; eauto.
    intros Hcall Hef. destruct (Hd Hcall Hef) as [Hl Hreg]. split; [done|].
    intros n v w Hv. destruct (Hreg n v w Hv) as (Hw & Hnov & Hnew). split_and!.
    + by eapply written_grow.
    + eauto.
    + intros opw Hopw. destruct (decide (w = o)) as [->|].
      * exfalso. destruct Hw as [[? _]|(op2 & ? & _)]; congruence.
      * rewrite lookup_insert_ne in Hopw by done. eauto.
  - intros o1 Ho1. destruct (hi_done _ _ _ _ H _ Ho1) as [?|(op1 & H1 & H2)]; [by left|right].
    exists op1. by rewrite lookup_insert_ne by congruence.
  - split; [done|]. apply H.
  - intros b i. eapply written_grow; [done|apply H].
  - intros. eapply written_grow; [done|by eapply hi_buf].
Qed.

(** An operation that has returned 0 has succeeded. *)
Lemma ev_done o op :
  ops !! o = Some op → op_pc op = Returned 0 → hist bufs db ops ({[o]} ∪ dn).
Proof.
  intros Hop Hpc. constructor; try apply H.
  - intros o1 op1 Hop1. destruct (hi_ops _ _ _ _ H _ _ Hop1) as [Hb Ho He Hr Hd].
    constructor; try done. set_solver.
  - intros o1 [->%elem_of_singleton|Ho1]%elem_of_union; [eauto|by apply H].
  - split; [apply H|]. apply elem_of_union_r, H.
Qed.

(** A reader that waits for no buffer reads what is stored. *)
Lemma ev_read o op op' :
  ops !! o = Some op → same_op op op' → op_call op = SliceRead → op_pc op ≠ CheckConflict →
  ¬ asked op → op_waits op = [] → 0 <= koff (op_key op) → 0 <= klen (op_key op) →
  op_read op' = map (λ n, db (block_id (op_key op)) (koff (op_key op) + Z.of_nat n))
                  (seq 0 (Z.to_nat (klen (op_key op)))) →
  regular (<[o := op']> ops) o op'.
Proof.
  intros Hop Hs Hcall Hck Ha Hw Hk0 Hk1 Hrd. pose proof Hs as (Hc & Hk & Hbf).
  split; [by rewrite Hrd, Hk, length_map, length_seq|].
  rewrite Hrd, Hk. intros n v w Hv. rewrite list_lookup_fmap in Hv.
  apply fmap_Some in Hv as (n' & [-> Hn]%lookup_seq & Hv). simpl in Hv.
  set (b := block_id (op_key op)) in *. set (i := koff (op_key op) + Z.of_nat n) in *.
  assert (Hcov : covers (op_key op) b i) by (split; [done|]; unfold kend, i; lia).
  pose proof (hi_db _ _ _ _ H b i) as Hwr. rewrite <- Hv in Hwr. simpl in Hwr.
  split_and!.
  - eapply written_grow; [|done]. by eapply (insert_grow o op).
  - intros Hov. apply (overwritten_update H o op op' o op) in Hov; [|done..].
    destruct (oh_reader _ _ _ _ _ _ (hi_ops _ _ _ _ H _ _ Hop) b i Hcall Hck Ha Hcov) as (s & k & buf & _ & _ & Hin).
    { by rewrite <- Hv. }
    rewrite Hw in Hin. by apply elem_of_nil in Hin.
  - assert (Hne : op_pc op ≠ Returned 0) by (intros Hr; apply Ha; exists 0; by right).
    intros opw Hopw. destruct (decide (w = o)) as [->|].
    + rewrite lookup_insert_eq in Hopw. simplify_eq. rewrite Hbf. by eapply (running_unknown H o op o op).
    + rewrite lookup_insert_ne in Hopw by done. by eapply (running_unknown H o op w opw).
Qed.
End MoreEvents.

(** Nothing depends on how the buffers and the stored bytes are represented. *)
Lemma hist_ext bufs bufs' db db' ops dn :
  (∀ s, bufs' s = bufs s) → (∀ b i, db' b i = db b i) → hist bufs db ops dn → hist bufs' db' ops dn.
Proof.
  intros Hb Hd [H1 H2 H3 H4 H5 H6].
  assert (Hbb : ∀ b i, buffered bufs b i → buffered bufs' b i).
  { intros b i (s & k & buf & ? & ?). exists s, k, buf. by rewrite Hb. }
  constructor; try done.
  - intros o op Hop. destruct (H1 o op Hop) as [Ha Ho He Hr Hx]. constructor; try done.
    + intros s. rewrite Hb. apply Ho.
    + intros b i. rewrite Hd. eauto.
    + intros b i. rewrite Hd. intros Hcall Hck Has Hc Hov.
      destruct (Hr b i Hcall Hck Has Hc Hov) as (s & k & buf & ? & ? & ?). exists s, k, buf. by rewrite Hb.
  - intros b i. rewrite Hd. apply H4.
  - intros s. rewrite Hb. apply H5.
  - intros s. rewrite Hb. apply H6.
Qed.

Lemma hist_init : hist (λ _, None) (λ _ _, (0, 0)) ∅ {[0]}.
Proof.
  constructor; try done.
  - intros o ->%elem_of_singleton. by left.
  - intros b i. by left.
Qed.

(** ** The invariant of a write combining client

    Which slices are where: the lists of the blocks, the queue, the threads and the free
    objects agree with the stages of the slices, a buffer holds what its slice says and never
    more than its size, and a call waits for a slice exactly when the slice will notify it. *)

Lemma alter_insert_eq {A} (f : A → A) (i : Z) (m : gmap Z A) x :
  m !! i = Some x → alter f i m = <[i := f x]> m.
Proof.
  intros Hx. apply map_eq. intros j. destruct (decide (j = i)) as [->|].
  - by rewrite lookup_alter_eq, lookup_insert_eq, Hx.
  - by rewrite lookup_alter_ne, lookup_insert_ne.
Qed.

(** The slice takes data or waits to be written: it is in the list of its block. *)
Definition live (sl : FSAPISliceEntry) : Prop :=
  as_stage sl = STAGE_MERGING ∨ as_stage sl = STAGE_PROCESSING.
#[export] Instance live_dec sl : Decision (live sl).
Proof. unfold live. apply _. Defined.

Definition aoff (sls : gmap Z FSAPISliceEntry) (s : Z) : Z :=
  match sls !! s with Some sl => koff (as_key sl) | None => 0 end.

(** A call only waits for slices in these places, and only writes are combined. *)
Definition waiting_pc (pc : CallPc) : Prop :=
  match pc with WaitConflict _ | WaitSlice _ => True | _ => False end.
Definition write_pc (pc : CallPc) : Prop :=
  match pc with
  | InsertOtid | FetchSlice _ | FetchVersion _ _ | TryCombine _ _ _ | CreateSlice _ | WaitSlice _ => True
  | _ => False
  end.
Definition trying_pc (pc : CallPc) : Prop :=
  match pc with FetchSlice _ | FetchVersion _ _ | TryCombine _ _ _ | WaitSlice _ => True | _ => False end.
(** Between two steps. *)
Definition pc_ok (op : APIOp) : Prop :=
  (op_waits op ≠ [] → waiting_pc (op_pc op)) ∧ (trying_pc (op_pc op) → op_combined op = false).
Definition op_ok (op : APIOp) : Prop :=
  valid_request (op_call op) (op_key op) = true ∧
  (write_pc (op_pc op) → ∃ data, op_call op = SliceWrite data).

Lemma sorted_ext_in {A} (R R' : A → A → Prop) l :
  StronglySorted R l → (∀ x y, x ∈ l → y ∈ l → R x y → R' x y) → StronglySorted R' l.
Proof.
  induction 1 as [|x l Hs IH Hx]; intros HR; constructor.
  - apply IH. intros y z Hy Hz. apply HR; by right.
  - rewrite Forall_forall in *. intros y Hy. apply HR; [by left|by right|by apply Hx].
Qed.

Section Inv.
Context `{cfg : WriteCombineConfig}.

(** The extent of a slice lies in its block and its bytes in its buffer. *)
Definition slice_ok (sl : FSAPISliceEntry) : Prop :=
  0 <= koff (as_key sl) ∧ 0 < klen (as_key sl) ∧ kend (as_key sl) <= FS_FILE_BLOCK_SIZE ∧
  length (as_buff sl) = Z.to_nat (klen (as_key sl)) ∧ klen (as_key sl) <= buffer_size.

Record ok_core (sls : gmap Z FSAPISliceEntry) (free : gset Z) (blocks : gmap TwoIds (list Z))
    (queue : list Z) (running : gmap Z RunPc) (count : Z) (ops : gmap Z APIOp) : Prop := {
  ok_listed b s : s ∈ default [] (blocks !! b) ↔
    ∃ sl, sls !! s = Some sl ∧ live sl ∧ block_id (as_key sl) = b;
  ok_sorted b : StronglySorted (λ s1 s2, aoff sls s1 <= aoff sls s2) (default [] (blocks !! b));
  ok_nodup b : NoDup (default [] (blocks !! b));
  ok_handler s : (s ∈ queue ∨ is_Some (running !! s)) ↔
    ∃ sl, sls !! s = Some sl ∧ as_stage sl = STAGE_PROCESSING;
  ok_once : NoDup queue;
  ok_running s : s ∈ queue → running !! s = None;
  ok_free s : s ∈ free → ∃ sl, sls !! s = Some sl ∧ ¬ live sl;
  ok_slice s sl : sls !! s = Some sl → live sl → slice_ok sl;
  ok_waits s o : (∃ sl, sls !! s = Some sl ∧ o ∈ as_waitings sl) ↔
    (∃ op, ops !! o = Some op ∧ s ∈ op_waits op);
  ok_waitings s sl o : sls !! s = Some sl → o ∈ as_waitings sl → as_stage sl = STAGE_PROCESSING;
  ok_op o op : ops !! o = Some op → op_ok op;
  ok_count : count = Z.of_nat (length queue);
}.

(** [cl_dealing] and [cl_queue] together, in the order in which they are dealt. *)
Definition wc_ok (c : Client) : Prop :=
  ok_core (cl_slices c) (cl_free c) (cl_blocks c) (cl_dealing c ++ cl_queue c) (cl_running c)
    (cl_waiting_slice_count c) (cl_ops c).

Implicit Types (sls : gmap Z FSAPISliceEntry) (ops : gmap Z APIOp) (queue : list Z).

(** A slice in a list of a block changes and stays in its place. *)
Lemma ok_touch sls free blocks queue running count ops s sl sl' queue' running' count' ops' :
  ok_core sls free blocks queue running count ops →
  sls !! s = Some sl → live sl → live sl' → block_id (as_key sl') = block_id (as_key sl) →
  koff (as_key sl') = koff (as_key sl) → slice_ok sl' →
  (∀ s', s' ∈ queue' ∨ is_Some (running' !! s') ↔
     ∃ y, <[s := sl']> sls !! s' = Some y ∧ as_stage y = STAGE_PROCESSING) →
  NoDup queue' → (∀ s', s' ∈ queue' → running' !! s' = None) →
  (∀ s' o, (∃ y, <[s := sl']> sls !! s' = Some y ∧ o ∈ as_waitings y) ↔
     (∃ op, ops' !! o = Some op ∧ s' ∈ op_waits op)) →
  (∀ s' y o, <[s := sl']> sls !! s' = Some y → o ∈ as_waitings y → as_stage y = STAGE_PROCESSING) →
  (∀ o op, ops' !! o = Some op → op_ok op) → count' = Z.of_nat (length queue') →
  ok_core (<[s := sl']> sls) free blocks queue' running' count' ops'.
Proof.
  intros [L S N _ _ _ F K _ _ _ _] Hs Hl Hl' Hb Ho Hk Hq1 Hq2 Hq3 Hq4 Hq5 Hq6 Hq7. constructor; try done.
  - intros b s'. rewrite L. destruct (decide (s' = s)) as [->|].
    + rewrite lookup_insert_eq. split; intros (y & ? & ? & ?); simplify_eq; eexists; split_and!; eauto; unfold block_id; congruence.
    + by rewrite lookup_insert_ne.
  - intros b. eapply sorted_ext_in; [apply S|]. intros x y _ _.
    unfold aoff. destruct (decide (x = s)) as [->|], (decide (y = s)) as [->|];
      rewrite ?lookup_insert_eq, ?lookup_insert_ne, ?Hs by done; lia.
  - intros s' Hf. destruct (F s' Hf) as (y & Hy & Hn). exists y.
    rewrite lookup_insert_ne; [done|]. intros ->. assert (y = sl) by congruence. by subst.
  - intros s' y. destruct (decide (s' = s)) as [->|].
    + rewrite lookup_insert_eq. by intros [= ->].
    + rewrite lookup_insert_ne by done. apply K.
Qed.

(** What [combine_handler_push] does to a slice that is merging. *)
Lemma ok_push sls free blocks queue running count ops s sl :
  ok_core sls free blocks queue running count ops →
  sls !! s = Some sl → as_stage sl = STAGE_MERGING →
  ok_core (<[s := set_stage STAGE_PROCESSING sl]> sls) free blocks (queue ++ [s]) running (count + 1) ops.
Proof.
  intros H Hs Hm. assert (Hl : live sl) by by left.
  assert (Hnot : s ∉ queue ∧ running !! s = None).
  { destruct (ok_handler _ _ _ _ _ _ _ H s) as [Hh _]. split.
    - intros Hq. destruct Hh as (y & ? & ?); [by left|]. congruence.
    - destruct (running !! s) eqn:E; [|done]. destruct Hh as (y & ? & ?); [right; eauto|]. congruence. }
  eapply (ok_touch _ _ _ _ _ _ _ s sl); try done.
  - by right.
  - exact (ok_slice _ _ _ _ _ _ _ H s sl Hs Hl).
  - intros s'. rewrite elem_of_app, list_elem_of_singleton. pose proof (ok_handler _ _ _ _ _ _ _ H s') as Hh.
    destruct (decide (s' = s)) as [->|Hne].
    + rewrite lookup_insert_eq. split; [eauto|]. intros _. left. by right.
    + rewrite lookup_insert_ne by done. rewrite <- Hh. tauto.
  - apply NoDup_app. split_and!; [apply H| |apply NoDup_singleton].
    intros x Hx ->%list_elem_of_singleton. tauto.
  - intros s' [Hq| ->%list_elem_of_singleton]%elem_of_app; [by eapply ok_running|tauto].
  - intros s' o. rewrite <- (ok_waits _ _ _ _ _ _ _ H). destruct (decide (s' = s)) as [->|].
    + rewrite lookup_insert_eq. split; intros (y & ? & ?); simplify_eq; eauto.
    + by rewrite lookup_insert_ne.
  - intros s' y o. destruct (decide (s' = s)) as [->|].
    + rewrite lookup_insert_eq. by intros [= <-].
    + rewrite lookup_insert_ne by done. apply H.
  - apply H.
  - rewrite length_app, Nat2Z.inj_add. simpl. by rewrite <- (ok_count _ _ _ _ _ _ _ H).
Qed.

(** [fs_api_add_to_slice_waiting_list]. *)
Lemma ok_waiter sls free blocks queue running count ops s sl o op :
  ok_core sls free blocks queue running count ops →
  sls !! s = Some sl → as_stage sl = STAGE_PROCESSING → ops !! o = Some op →
  ok_core (<[s := set_waitings (o :: as_waitings sl) sl]> sls) free blocks queue running count
    (<[o := set_waits (op_waits op ++ [s]) op]> ops).
Proof.
  intros H Hs Hp Hop. assert (Hl : live sl) by by right.
  eapply (ok_touch _ _ _ _ _ _ _ s sl); try done; try apply H.
  - exact (ok_slice _ _ _ _ _ _ _ H s sl Hs Hl).
  - intros s'. pose proof (ok_handler _ _ _ _ _ _ _ H s') as Hh. rewrite Hh.
    destruct (decide (s' = s)) as [->|Hne].
    + rewrite lookup_insert_eq. split; intros (y & ? & ?); simplify_eq; eauto.
    + by rewrite lookup_insert_ne.
  - intros s' o'. pose proof (ok_waits _ _ _ _ _ _ _ H s' o') as Hw.
    assert (Hold : o' ∈ as_waitings sl ↔ ∃ op1, ops !! o' = Some op1 ∧ s ∈ op_waits op1).
    { rewrite <- (ok_waits _ _ _ _ _ _ _ H). split; [eauto|]. intros (y & ? & ?). by simplify_eq. }
    assert (Hs' : (∃ y, <[s := set_waitings (o :: as_waitings sl) sl]> sls !! s' = Some y ∧ o' ∈ as_waitings y)
      ↔ (s' = s ∧ o' = o) ∨ ∃ y, sls !! s' = Some y ∧ o' ∈ as_waitings y).
    { destruct (decide (s' = s)) as [->|Hne].
      - rewrite lookup_insert_eq. split.
        + intros (y & [= <-] & [->|?]%elem_of_cons); [by left|right; eauto].
        + intros [[_ ->]|(y & ? & ?)]; eexists; (split; [done|]); simplify_eq; simpl; [by left|by right].
      - rewrite lookup_insert_ne by done. split; [by right|]. intros [[? _]|?]; done. }
    rewrite Hs', Hw. destruct (decide (o' = o)) as [->|Hne].
    + rewrite lookup_insert_eq. split.
      * intros [[-> _]|(op1 & ? & ?)]; eexists; (split; [done|]); simplify_eq; simpl;
          rewrite elem_of_app; [right; by left|by left].
      * intros (op1 & [= <-] & [?| ->%list_elem_of_singleton]%elem_of_app); eauto.
    + rewrite lookup_insert_ne by done. split; [by intros [[_ ?]|?]|by right].
  - intros s' y o'. destruct (decide (s' = s)) as [->|].
    + rewrite lookup_insert_eq. by intros [= <-].
    + rewrite lookup_insert_ne by done. apply H.
  - intros o' op'. destruct (decide (o' = o)) as [->|].
    + rewrite lookup_insert_eq. intros [= <-]. exact (ok_op _ _ _ _ _ _ _ H o op Hop).
    + rewrite lookup_insert_ne by done. apply H.
Qed.

(** An operation changes and waits for the same slices. *)
Lemma ok_upd_op sls free blocks queue running count ops o op op' :
  ok_core sls free blocks queue running count ops → ops !! o = Some op → op_waits op' = op_waits op →
  op_ok op' → ok_core sls free blocks queue running count (<[o := op']> ops).
Proof.
  intros H Hop Hw Hok. constructor; try apply H.
  - intros s o'. rewrite (ok_waits _ _ _ _ _ _ _ H). destruct (decide (o' = o)) as [->|].
    + rewrite lookup_insert_eq. split; intros (y & ? & ?); simplify_eq; eexists; (split; [done|]); congruence.
    + by rewrite lookup_insert_ne.
  - intros o' op1. destruct (decide (o' = o)) as [->|].
    + rewrite lookup_insert_eq. by intros [= <-].
    + rewrite lookup_insert_ne by done. apply H.
Qed.

(** A new operation. *)
Lemma ok_new_op sls free blocks queue running count ops o op :
  ok_core sls free blocks queue running count ops → ops !! o = None → op_waits op = [] →
  op_ok op → ok_core sls free blocks queue running count (<[o := op]> ops).
Proof.
  intros H Hop Hw Hok. constructor; try apply H.
  - intros s o'. rewrite (ok_waits _ _ _ _ _ _ _ H). destruct (decide (o' = o)) as [->|].
    + rewrite lookup_insert_eq. split; intros (y & ? & Hin); simplify_eq. rewrite Hw in Hin.
      by apply elem_of_nil in Hin.
    + by rewrite lookup_insert_ne.
  - intros o' op1. destruct (decide (o' = o)) as [->|].
    + rewrite lookup_insert_eq. by intros [= <-].
    + rewrite lookup_insert_ne by done. apply H.
Qed.

(** [do_combine_slice] puts its data behind the data of the slice. *)
Lemma ok_merge sls free blocks queue running count ops s sl data len :
  ok_core sls free blocks queue running count ops →
  sls !! s = Some sl → as_stage sl = STAGE_MERGING → 0 <= len → length data = Z.to_nat len →
  kend (as_key sl) + len <= FS_FILE_BLOCK_SIZE → klen (as_key sl) + len <= buffer_size →
  ok_core (<[s := merge_data data len sl]> sls) free blocks queue running count ops.
Proof.
  intros H Hs Hm Hlen Hd Hb Hbuf. assert (Hl : live sl) by by left.
  destruct (ok_slice _ _ _ _ _ _ _ H s sl Hs Hl) as (? & ? & ? & Hbl & ?).
  eapply (ok_touch _ _ _ _ _ _ _ s sl); try done; try apply H.
  - unfold slice_ok, merge_data. unfold kend, klen, koff in *. simpl. rewrite length_app, Hbl, Hd. split_and!; lia.
  - intros s'. pose proof (ok_handler _ _ _ _ _ _ _ H s') as Hh. rewrite Hh.
    destruct (decide (s' = s)) as [->|Hne].
    + rewrite lookup_insert_eq. split; intros (y & ? & ?); simplify_eq; eauto.
    + by rewrite lookup_insert_ne.
  - intros s' o'. rewrite <- (ok_waits _ _ _ _ _ _ _ H). destruct (decide (s' = s)) as [->|Hne].
    + rewrite lookup_insert_eq. split; intros (y & ? & ?); simplify_eq; eexists; split; done.
    + by rewrite lookup_insert_ne.
  - intros s' y o'. destruct (decide (s' = s)) as [->|].
    + rewrite lookup_insert_eq. intros [= <-]. simpl. intros Ho. by eapply ok_waitings in Ho; [|done..].
    + rewrite lookup_insert_ne by done. apply H.
Qed.

(** A slice the handler thread takes from its list goes to a thread of the pool. *)
Lemma ok_deal sls free blocks queue running count ops s :
  ok_core sls free blocks (s :: queue) running count ops →
  ok_core sls free blocks queue (<[s := RunWrite]> running) (count - 1) ops.
Proof.
  intros H. pose proof (ok_once _ _ _ _ _ _ _ H) as Hq. apply NoDup_cons in Hq as [Hn Hd].
  constructor; try apply H.
  - intros s'. rewrite <- (ok_handler _ _ _ _ _ _ _ H), elem_of_cons.
    destruct (decide (s' = s)) as [->|Hne].
    + rewrite lookup_insert_eq. split; intros _; [by left; left|]. right. eauto.
    + rewrite lookup_insert_ne by done. tauto.
  - done.
  - intros s' Hs'. rewrite lookup_insert_ne by (by intros ->). eapply ok_running; [done|by right].
  - rewrite (ok_count _ _ _ _ _ _ _ H). simpl length. lia.
Qed.

Lemma ok_run sls free blocks queue running count ops s pc :
  ok_core sls free blocks queue running count ops → is_Some (running !! s) →
  ok_core sls free blocks queue (<[s := pc]> running) count ops.
Proof.
  intros H Hs. constructor; try apply H.
  - intros s'. rewrite <- (ok_handler _ _ _ _ _ _ _ H). destruct (decide (s' = s)) as [->|Hne].
    + rewrite lookup_insert_eq. split; intros _; right; eauto.
    + by rewrite lookup_insert_ne.
  - intros s' Hs'. rewrite lookup_insert_ne; [by eapply ok_running|]. intros <-.
    eapply ok_running in Hs'; [|done]. rewrite Hs' in Hs. by destruct Hs.
Qed.

(** A slice without a list of a block has no calls that wait for it. *)
Lemma no_waitings sls free blocks queue running count ops s sl :
  ok_core sls free blocks queue running count ops → sls !! s = Some sl → ¬ live sl → as_waitings sl = [].
Proof.
  intros H Hs Hn. destruct (as_waitings sl) as [|o l] eqn:E; [done|]. destruct Hn. right.
  eapply (ok_waitings _ _ _ _ _ _ _ H s sl o); [done|]. rewrite E. by left.
Qed.

Lemma ok_alloc_init sls free blocks queue running count ops s sl :
  ok_core sls free blocks queue running count ops → sls !! s = None → ¬ live sl → as_waitings sl = [] →
  ok_core (<[s := sl]> sls) ({[s]} ∪ free) blocks queue running count ops.
Proof.
  intros H Hs Hl Hw.
  assert (Hne : ∀ s' y, sls !! s' = Some y → s' ≠ s) by congruence.
  assert (Hlk : ∀ P : FSAPISliceEntry → Prop, ¬ P sl → ∀ s',
    (∃ y, <[s := sl]> sls !! s' = Some y ∧ P y) ↔ ∃ y, sls !! s' = Some y ∧ P y).
  { intros P HP s'. destruct (decide (s' = s)) as [->|].
    - rewrite lookup_insert_eq, Hs. split; intros (y & ? & ?); by simplify_eq.
    - by rewrite lookup_insert_ne. }
  assert (Hst : as_stage sl ≠ STAGE_PROCESSING) by (intros E; by apply Hl; right).
  constructor; try apply H.
  - intros b s'. rewrite (ok_listed _ _ _ _ _ _ _ H). symmetry.
    apply (Hlk (λ y, live y ∧ block_id (as_key y) = b)). tauto.
  - intros b. pose proof (ok_sorted _ _ _ _ _ _ _ H b) as Hsrt.
    assert (Hin : ∀ x, x ∈ default [] (blocks !! b) → aoff (<[s := sl]> sls) x = aoff sls x).
    { intros x (y & Hy & _)%(ok_listed _ _ _ _ _ _ _ H). unfold aoff.
      rewrite lookup_insert_ne; [done|]. intros ->. congruence. }
    eapply sorted_ext_in; [done|]. intros x y Hx Hy. by rewrite !Hin.
  - intros s'. rewrite (ok_handler _ _ _ _ _ _ _ H). symmetry. by apply Hlk.
  - intros s' [->%elem_of_singleton|Hf]%elem_of_union.
    + exists sl. by rewrite lookup_insert_eq.
    + destruct (ok_free _ _ _ _ _ _ _ H s' Hf) as (y & Hy & ?). exists y.
      rewrite lookup_insert_ne; [done|]. apply not_eq_sym. eauto.
  - intros s' y. destruct (decide (s' = s)) as [->|].
    + rewrite lookup_insert_eq. intros [= <-]. by intros ?.
    + rewrite lookup_insert_ne by done. apply H.
  - intros s' o. rewrite <- (ok_waits _ _ _ _ _ _ _ H). apply (Hlk (λ y, o ∈ as_waitings y)).
    rewrite Hw. apply not_elem_of_nil.
  - intros s' y o. destruct (decide (s' = s)) as [->|].
    + rewrite lookup_insert_eq. intros [= <-]. rewrite Hw. by intros ?%elem_of_nil.
    + rewrite lookup_insert_ne by done. apply H.
Qed.

(** Where the new slice goes in the list of its block. *)
Lemma find_position_spec k c l m n :
  (∀ x, x ∈ l → is_Some (cl_slices c !! x)) →
  obid_htable_find_position k c l m = Some n →
  ∃ l1 l2, l = l1 ++ l2 ∧ n = (m + length l1)%nat ∧
    (∀ x, x ∈ l1 → aoff (cl_slices c) x <= koff k) ∧
    (∀ x l', l2 = x :: l' → kend k <= aoff (cl_slices c) x).
Proof.
  revert m. induction l as [|x l IH]; intros m Hl; simpl.
  - intros [= <-]. exists [], []. split_and!; [done|simpl; lia| |done]. by intros ? ?%elem_of_nil.
  - destruct (Hl x) as [sl Hx]; [by left|]. rewrite Hx.
    destruct (Z.leb_spec (kend k) (koff (as_key sl))).
    + intros [= <-]. exists [], (x :: l). split_and!; [done|simpl; lia|by intros ? ?%elem_of_nil|].
      intros ? ? [= <- <-]. unfold aoff. by rewrite Hx.
    + destruct (fs_slice_is_overlap _ _) eqn:Hov; [done|]. intros Hf.
      destruct (IH (S m)) as (l1 & l2 & -> & -> & H1 & H2); [|done|].
      { intros y Hy. apply Hl. by right. }
      exists (x :: l1), l2. split_and!; [done|simpl; lia| |done].
      intros y [->|Hy]%elem_of_cons; [|by apply H1]. unfold aoff. rewrite Hx.
      unfold fs_slice_is_overlap, kend, koff, klen in *.
      destruct (Z.ltb_spec (ss_offset (bs_slice k)) (ss_offset (bs_slice (as_key sl)))); [|lia].
      apply Z.ltb_ge in Hov. lia.
Qed.

Lemma sorted_put {A} (R : A → A → Prop) l1 x l2 :
  StronglySorted R (l1 ++ l2) → (∀ y, y ∈ l1 → R y x) → (∀ y, y ∈ l2 → R x y) →
  StronglySorted R (l1 ++ x :: l2).
Proof.
  induction l1 as [|a l1 IH]; simpl; intros Hs H1 H2.
  - constructor; [done|]. by apply Forall_forall.
  - inversion Hs as [|? ? Hs1 Hs2]; subst. constructor.
    + apply IH; [done|intros y Hy; apply H1; by right|done].
    + rewrite Forall_app, Forall_cons in *. split_and!; [tauto|apply H1; by left|tauto].
Qed.

(** A free entry becomes a slice of a block. *)
Lemma ok_insert sls free blocks queue running count ops s sl0 sl b l1 l2 :
  ok_core sls free blocks queue running count ops → s ∈ free → sls !! s = Some sl0 →
  default [] (blocks !! b) = l1 ++ l2 → as_stage sl = STAGE_MERGING → block_id (as_key sl) = b →
  as_waitings sl = as_waitings sl0 → slice_ok sl → (∀ x, x ∈ l1 → aoff sls x <= koff (as_key sl)) →
  (∀ x, x ∈ l2 → koff (as_key sl) <= aoff sls x) →
  ok_core (<[s := sl]> sls) (free ∖ {[s]}) (<[b := l1 ++ s :: l2]> blocks) queue running count ops.
Proof.
  intros H Hf Hs Hb Hm Hk Hw Hok H1 H2.
  assert (Hnl : ¬ live sl0).
  { destruct (ok_free _ _ _ _ _ _ _ H s Hf) as (y & ? & ?). by replace sl0 with y by congruence. }
  assert (Hnot : ∀ b', s ∉ default [] (blocks !! b')).
  { intros b' (y & ? & ? & _)%(ok_listed _ _ _ _ _ _ _ H). apply Hnl. by replace sl0 with y by congruence. }
  assert (Hwn : as_waitings sl = []).
  { rewrite Hw. by eapply no_waitings. }
  assert (Hwn0 : as_waitings sl0 = []) by (by rewrite <- Hw).
  assert (Hne : ∀ b' x, x ∈ default [] (blocks !! b') → x ≠ s) by (intros b' x Hx ->; by eapply Hnot).
  assert (Hoff : ∀ b' x, x ∈ default [] (blocks !! b') → aoff (<[s := sl]> sls) x = aoff sls x).
  { intros b' x Hx. unfold aoff. rewrite lookup_insert_ne; [done|]. apply not_eq_sym. eauto. }
  assert (Hself : aoff (<[s := sl]> sls) s = koff (as_key sl)) by (unfold aoff; by rewrite lookup_insert_eq).
  constructor; try apply H.
  - intros b' s'. destruct (decide (s' = s)) as [->|Hns].
    + rewrite (lookup_insert_eq sls). split.
      * intros Hin. exists sl. split_and!; [done|by left|]. rewrite Hk.
        destruct (decide (b' = b)) as [->|]; [done|]. rewrite lookup_insert_ne in Hin by done. by apply Hnot in Hin.
      * intros (y & [= <-] & _ & <-). rewrite Hk, lookup_insert_eq. simpl. rewrite elem_of_app, elem_of_cons. tauto.
    + rewrite (lookup_insert_ne sls) by done. rewrite <- (ok_listed _ _ _ _ _ _ _ H).
      destruct (decide (b' = b)) as [->|]; [|by rewrite lookup_insert_ne].
      rewrite lookup_insert_eq, Hb. simpl. rewrite !elem_of_app, elem_of_cons. tauto.
  - intros b'. pose proof (ok_sorted _ _ _ _ _ _ _ H b') as Hsrt.
    apply (sorted_ext_in _ (λ s1 s2, aoff (<[s := sl]> sls) s1 <= aoff (<[s := sl]> sls) s2)) in Hsrt;
      [|intros x y Hx Hy; by rewrite !(Hoff b')].
    destruct (decide (b' = b)) as [->|]; [|by rewrite lookup_insert_ne].
    rewrite lookup_insert_eq. simpl. rewrite Hb in Hsrt. apply sorted_put; [done| |].
    + intros y Hy. rewrite Hself, (Hoff b); [by apply H1|]. rewrite Hb, elem_of_app. by left.
    + intros y Hy. rewrite Hself, (Hoff b); [by apply H2|]. rewrite Hb, elem_of_app. by right.
  - intros b'. destruct (decide (b' = b)) as [->|]; [|rewrite lookup_insert_ne by done; apply H].
    rewrite lookup_insert_eq. simpl. pose proof (ok_nodup _ _ _ _ _ _ _ H b) as Hd. specialize (Hnot b).
    rewrite Hb in Hd, Hnot. rewrite <- Permutation_middle. by constructor.
  - intros s'. rewrite (ok_handler _ _ _ _ _ _ _ H). destruct (decide (s' = s)) as [->|].
    + rewrite lookup_insert_eq. split; intros (y & Hy & Hp); simplify_eq; [destruct Hnl; by right|congruence].
    + by rewrite lookup_insert_ne.
  - intros s' [Hs' Hn]%elem_of_difference. rewrite not_elem_of_singleton in Hn. rewrite lookup_insert_ne by done.
    by eapply ok_free.
  - intros s' y. destruct (decide (s' = s)) as [->|].
    + rewrite lookup_insert_eq. by intros [= <-].
    + rewrite lookup_insert_ne by done. apply H.
  - intros s' o. rewrite <- (ok_waits _ _ _ _ _ _ _ H). destruct (decide (s' = s)) as [->|].
    + rewrite lookup_insert_eq. split; intros (y & Hy & Hin); simplify_eq; eexists; (split; [done|]); congruence.
    + by rewrite lookup_insert_ne.
  - intros s' y o. destruct (decide (s' = s)) as [->|].
    + rewrite lookup_insert_eq. intros [= <-]. rewrite Hwn. by intros ?%elem_of_nil.
    + rewrite lookup_insert_ne by done. apply H.
Qed.

Definition stop_waiting (s : Z) (op : APIOp) : APIOp :=
  set_waits (filter (λ s', s' ≠ s) (op_waits op)) op.

Lemma stop_waiting_id s op : s ∉ op_waits op → stop_waiting s op = op.
Proof.
  intros Hs. unfold stop_waiting. rewrite filter_true_in by (intros x Hx ->; done). by destruct op.
Qed.

(** [fs_api_notify_waiting_tasks]: nothing but the waits of the calls changes. *)
Lemma notify_ops s ws c :
  ∃ ops', fs_api_notify_waiting_tasks s ws c = set_ops ops' c ∧
    ∀ o, ops' !! o = (if decide (o ∈ ws) then stop_waiting s <$> cl_ops c !! o else cl_ops c !! o).
Proof.
  induction ws as [|o ws (ops' & Heq & Hops)]; simpl.
  - exists (cl_ops c). split; [by destruct c|]. intros o. destruct (decide (o ∈ [])) as [Hi|_]; [by apply elem_of_nil in Hi|done].
  - rewrite Heq. exists (alter (stop_waiting s) o ops'). split; [by destruct c|].
    intros o'. destruct (decide (o' = o)) as [->|Hne].
    + rewrite lookup_alter_eq, Hops. destruct (decide (o ∈ o :: ws)) as [_|Hn]; [|destruct Hn; by left].
      destruct (decide (o ∈ ws)); [|done]. destruct (cl_ops c !! o) as [op|]; [|done]. simpl. f_equal.
      apply stop_waiting_id. simpl. rewrite list_elem_of_filter. by intros [? _].
    + rewrite lookup_alter_ne, Hops by done.
      destruct (decide (o' ∈ ws)) as [Hi|Hi], (decide (o' ∈ o :: ws)) as [Hj|Hj]; try done.
      * destruct Hj. by right.
      * by apply elem_of_cons in Hj as [?|?].
Qed.

(** [notify_and_release_slice]: the slice leaves its block and is free again. *)
Lemma ok_release sls free blocks queue running count ops ops' s sl sl' :
  ok_core sls free blocks queue running count ops → sls !! s = Some sl → is_Some (running !! s) →
  ¬ live sl' → as_waitings sl' = [] →
  (∀ o, ops' !! o = if decide (o ∈ as_waitings sl) then stop_waiting s <$> ops !! o else ops !! o) →
  ok_core (<[s := sl']> sls) ({[s]} ∪ free)
    (<[block_id (as_key sl) := filter (λ x, x ≠ s) (default [] (blocks !! block_id (as_key sl)))]> blocks)
    queue (delete s running) count ops'.
Proof.
  intros H Hs Hr Hnl Hwn Hops0.
  assert (Hops : ∀ o, ops' !! o = stop_waiting s <$> ops !! o).
  { intros o. rewrite Hops0. case_decide as Hin; [done|]. destruct (ops !! o) as [op|] eqn:Hop; [|done].
    simpl. f_equal. symmetry. apply stop_waiting_id. intros Hso. destruct Hin.
    assert (Hx : ∃ y, sls !! s = Some y ∧ o ∈ as_waitings y) by (rewrite (ok_waits _ _ _ _ _ _ _ H); eauto).
    destruct Hx as (y & ? & ?). by replace sl with y by congruence. }
  assert (Hq : s ∉ queue).
  { intros Hin. eapply ok_running in Hin; [|done]. rewrite Hin in Hr. by destruct Hr. }
  assert (Hb' : ∀ b, default [] (<[block_id (as_key sl) :=
      filter (λ x, x ≠ s) (default [] (blocks !! block_id (as_key sl)))]> blocks !! b)
    = filter (λ x, x ≠ s) (default [] (blocks !! b))).
  { intros b. destruct (decide (b = block_id (as_key sl))) as [->|Hne]; [by rewrite lookup_insert_eq|].
    rewrite lookup_insert_ne by done. symmetry. apply filter_true_in.
    intros x (y & Hy & _ & Hyb)%(ok_listed _ _ _ _ _ _ _ H) ->. apply Hne. congruence. }
  assert (Hst : as_stage sl' ≠ STAGE_PROCESSING) by (intros E; by apply Hnl; right).
  constructor.
  - intros b x. rewrite Hb', list_elem_of_filter, (ok_listed _ _ _ _ _ _ _ H).
    destruct (decide (x = s)) as [->|].
    + rewrite lookup_insert_eq. split; [by intros [? _]|]. intros (y & [= <-] & ? & _). done.
    + rewrite lookup_insert_ne by done. tauto.
  - intros b. rewrite Hb'. eapply sorted_ext_in; [apply sorted_filter, H|].
    intros x y [Hx _]%list_elem_of_filter [Hy _]%list_elem_of_filter.
    unfold aoff. by rewrite !lookup_insert_ne.
  - intros b. rewrite Hb'. apply NoDup_filter, H.
  - intros x. destruct (decide (x = s)) as [->|Hne].
    + rewrite lookup_insert_eq, lookup_delete_eq. split; [intros [?|[? ?]]; done|].
      by intros (y & [= <-] & ?).
    + rewrite lookup_insert_ne, lookup_delete_ne by done. apply H.
  - apply H.
  - intros x Hx. rewrite lookup_delete_ne by (by intros ->). by eapply ok_running.
  - intros x [->%elem_of_singleton|Hf]%elem_of_union.
    + exists sl'. by rewrite lookup_insert_eq.
    + destruct (decide (x = s)) as [->|]; [exists sl'; by rewrite lookup_insert_eq|].
      rewrite lookup_insert_ne by done. by eapply ok_free.
  - intros x y. destruct (decide (x = s)) as [->|].
    + rewrite lookup_insert_eq. by intros [= <-].
    + rewrite lookup_insert_ne by done. apply H.
  - intros x o. rewrite Hops. destruct (decide (x = s)) as [->|Hne].
    + rewrite lookup_insert_eq. split.
      * intros (y & [= <-] & Hin). rewrite Hwn in Hin. by apply elem_of_nil in Hin.
      * intros (op & (op0 & _ & ->)%fmap_Some & Hin). simpl in Hin.
        by apply list_elem_of_filter in Hin as [? _].
    + rewrite lookup_insert_ne by done. rewrite (ok_waits _ _ _ _ _ _ _ H). split.
      * intros (op & Hop & Hin). rewrite Hop. eexists; split; [done|]. simpl. by rewrite list_elem_of_filter.
      * intros (op & (op0 & Hop0 & ->)%fmap_Some & Hin). exists op0. split; [done|].
        simpl in Hin. by apply list_elem_of_filter in Hin as [_ ?].
  - intros x y o. destruct (decide (x = s)) as [->|].
    + rewrite lookup_insert_eq. intros [= <-]. rewrite Hwn. by intros ?%elem_of_nil.
    + rewrite lookup_insert_ne by done. apply H.
  - intros o op. rewrite Hops. intros (op0 & Hop0 & ->)%fmap_Some. exact (ok_op _ _ _ _ _ _ _ H o op0 Hop0).
  - apply H.
Qed.
End Inv.
