(* ===== verification/WCombineMain.v ===== *)
(** * What the users of a write combining client see

    Every step of the threads keeps the invariant of [WCombineThms.v] and is an event of the
    store with write buffers of [WCombineThms.v]. *)
From S2P Require Import Prelude Types WriteCombine WCombineThms.

(** The buffers that are not stored yet. *)
Definition buf_at (sls : gmap Z FSAPISliceEntry) (running : gmap Z RunPc) : Bufs := λ s,
  match sls !! s with
  | Some sl =>
      if decide (live sl) then
        match running !! s with
        | None | Some RunWrite => Some (as_key sl, as_buff sl)
        | _ => None
        end
      else None
  | None => None
  end.
Definition buf_of (c : Client) : Bufs := buf_at (cl_slices c) (cl_running c).

Section Main.
Context `{cfg : WriteCombineConfig}.
Implicit Types (c : Client) (op : APIOp) (sl : FSAPISliceEntry) (o s : Z).

Definition hist_of c : Prop := cl_fault c = false → hist (buf_of c) (cl_db c) (cl_ops c) (cl_done c).
(** Between two steps a call only waits where it waits; [inv_but o] allows the call [o] not to. *)
Definition inv_but o c : Prop :=
  wc_ok c ∧ hist_of c ∧
  ∀ o' op, o' ≠ o → cl_ops c !! o' = Some op → pc_ok op.
Definition client_inv c : Prop :=
  wc_ok c ∧ hist_of c ∧ ∀ o op, cl_ops c !! o = Some op → pc_ok op.

Lemma inv_but_intro o c : client_inv c → inv_but o c.
Proof. intros (? & ? & ?). split_and!; eauto. Qed.
Lemma inv_but_elim o c :
  inv_but o c → (∀ op, cl_ops c !! o = Some op → pc_ok op) → client_inv c.
Proof.
  intros (? & ? & Hw) Ho. split_and!; [done|done|]. intros o' op.
  destruct (decide (o' = o)) as [->|]; eauto.
Qed.

Lemma buf_at_other sls running s s' sl :
  s' ≠ s → buf_at (<[s := sl]> sls) running s' = buf_at sls running s'.
Proof. intros Hn. unfold buf_at. by rewrite lookup_insert_ne. Qed.

(** Steps that change neither what is in the buffers nor the calls. *)
Record quiet_step c c' : Prop := {
  qs_ok : wc_ok c → wc_ok c';
  qs_buf s : buf_of c' s = buf_of c s;
  qs_db : cl_db c' = cl_db c;
  qs_ops : cl_ops c' = cl_ops c;
  qs_done : cl_done c' = cl_done c;
  qs_fault : cl_fault c' = cl_fault c;
}.
Lemma quiet_refl c : quiet_step c c.
Proof. by constructor. Qed.
Lemma quiet_trans c1 c2 c3 : quiet_step c1 c2 → quiet_step c2 c3 → quiet_step c1 c3.
Proof. intros [H1 H2 H3 H4 H5 H6] [K1 K2 K3 K4 K5 K6]. constructor; try congruence; auto. Qed.

Lemma quiet_but o c c' : quiet_step c c' → inv_but o c → inv_but o c'.
Proof.
  intros [H1 H2 H3 H4 H5 H6] (Ha & Hb & Hc). split_and!; [auto| |by rewrite H4].
  intros Hf. rewrite H4, H5. rewrite H6 in Hf. eapply hist_ext; [exact H2| |by apply Hb]. by rewrite H3.
Qed.
Lemma quiet_inv c c' : quiet_step c c' → client_inv c → client_inv c'.
Proof.
  intros H Hi. apply (inv_but_elim 0); [by eapply quiet_but, inv_but_intro|].
  intros op. rewrite (qs_ops _ _ H). apply Hi.
Qed.

(** Only the timer, the expired entries, the entries of the files and threads, the versions
    and the clock differ. *)
Lemma quiet_frame c c' :
  cl_slices c' = cl_slices c → cl_free c' = cl_free c → cl_blocks c' = cl_blocks c →
  cl_dealing c' ++ cl_queue c' = cl_dealing c ++ cl_queue c → cl_running c' = cl_running c →
  cl_waiting_slice_count c' = cl_waiting_slice_count c → cl_ops c' = cl_ops c →
  cl_db c' = cl_db c → cl_done c' = cl_done c → cl_fault c' = cl_fault c → quiet_step c c'.
Proof.
  intros H1 H2 H3 H4 H5 H6 H7 H8 H9 H10. constructor; try done.
  - unfold wc_ok. by rewrite H1, H2, H3, H4, H5, H6, H7.
  - intros s. unfold buf_of. by rewrite H1, H5.
Qed.
Lemma quiet_pop c : cl_dealing c = [] → quiet_step c (set_queue [] (set_dealing (cl_queue c) c)).
Proof. intros Hd. apply quiet_frame; try done. simpl. by rewrite Hd, app_nil_r. Qed.

Lemma slice_running_none c s sl :
  wc_ok c → cl_slices c !! s = Some sl → as_stage sl ≠ STAGE_PROCESSING → cl_running c !! s = None.
Proof.
  intros H Hs Hp. destruct (cl_running c !! s) eqn:E; [|done].
  destruct (ok_handler _ _ _ _ _ _ _ H s) as [Hh _].
  destruct Hh as (y & ? & ?); [right; eauto|]. congruence.
Qed.

Lemma quiet_push c s sl (timer : gmap Z Z) :
  wc_ok c → cl_slices c !! s = Some sl → as_stage sl = STAGE_MERGING →
  quiet_step c (set_queue (cl_queue c ++ [s]) (set_waiting_slice_count (cl_waiting_slice_count c + 1)
    (set_timer timer (upd_slice s (set_stage STAGE_PROCESSING) c)))).
Proof.
  intros H Hs Hm.
  assert (Hsl : alter (set_stage STAGE_PROCESSING) s (cl_slices c) = <[s := set_stage STAGE_PROCESSING sl]> (cl_slices c))
    by by apply alter_insert_eq.
  constructor; try done.
  - intros _. unfold wc_ok. simpl. rewrite Hsl, app_assoc. by apply ok_push.
  - intros s'. unfold buf_of. simpl. rewrite Hsl. destruct (decide (s' = s)) as [->|]; [|by apply buf_at_other].
    unfold buf_at. rewrite lookup_insert_eq, Hs. destruct (decide _) as [_|Hn]; [|destruct Hn; by right].
    destruct (decide (live sl)) as [_|Hn]; [done|destruct Hn; by left].
Qed.
Lemma quiet_push_locked c s sl :
  wc_ok c → cl_slices c !! s = Some sl → as_stage sl = STAGE_MERGING →
  quiet_step c (combine_handler_push_within_lock s c).
Proof. intros. by eapply (quiet_push c s sl (delete s (cl_timer c))). Qed.
Lemma quiet_handler_push c s : wc_ok c → quiet_step c (combine_handler_push s c).
Proof.
  intros H. unfold combine_handler_push. destruct (cl_slices c !! s) as [sl|] eqn:Hs; [|apply quiet_refl].
  case_decide; [|apply quiet_refl]. pose proof (quiet_push c s sl (cl_timer c)) as Hq.
  by destruct c; apply Hq.
Qed.

Lemma upd_op_eq o (f : APIOp → APIOp) c op :
  cl_ops c !! o = Some op → upd_op o f c = set_ops (<[o := f op]> (cl_ops c)) c.
Proof. intros Hop. unfold upd_op. by rewrite (alter_insert_eq _ _ _ op). Qed.

Lemma inv_op_ok o op c : inv_but o c → cl_ops c !! o = Some op → op_ok op.
Proof. intros (H & _) Hop. exact (ok_op _ _ _ _ _ _ _ H o op Hop). Qed.

(** Any change of one operation that is an event. *)
Lemma inv_upd_op o op op' c :
  inv_but o c → cl_ops c !! o = Some op → op_waits op' = op_waits op → op_ok op' →
  (cl_fault c = false → hist (buf_of c) (cl_db c) (<[o := op']> (cl_ops c)) (cl_done c)) →
  inv_but o (set_ops (<[o := op']> (cl_ops c)) c).
Proof.
  intros (Ha & Hb & Hc) Hop Hw Hok He. split_and!.
  - by eapply (ok_upd_op _ _ _ _ _ _ _ o op).
  - intros Hf. by apply He.
  - intros o' op1 Hne. simpl. rewrite lookup_insert_ne by done. eauto.
Qed.

Lemma inv_move o op op' c :
  inv_but o c → cl_ops c !! o = Some op → same_op op op' → op_pc op ≠ CheckConflict →
  ¬ asked op → ¬ asked op' → op_waits op' = op_waits op → op_ok op' →
  inv_but o (set_ops (<[o := op']> (cl_ops c)) c).
Proof.
  intros Hi Hop Hs Hpc Ha Ha' Hw Hok. eapply inv_upd_op; [done|done|done|done|].
  intros Hf. eapply (ev_move (proj1 (proj2 Hi) Hf)); try done. by rewrite Hw.
Qed.

Lemma inv_combined o op c b r :
  inv_but o c → cl_ops c !! o = Some op → inv_but o (upd_op o (set_combined b r) c).
Proof.
  intros Hi Hop. rewrite (upd_op_eq _ _ _ _ Hop). pose proof (inv_op_ok _ _ _ Hi Hop) as Hok.
  eapply inv_upd_op; [done|done|done|done|].
  intros Hf. by apply (ev_same_phase (proj1 (proj2 Hi) Hf) o op).
Qed.

(** The call waits for one more slice. *)
Lemma inv_wait o op c s sl :
  inv_but o c → cl_ops c !! o = Some op → cl_slices c !! s = Some sl → as_stage sl = STAGE_PROCESSING →
  inv_but o (fs_api_add_to_slice_waiting_list o s c).
Proof.
  intros (Ha & Hb & Hc) Hop Hs Hp. unfold fs_api_add_to_slice_waiting_list.
  rewrite (upd_op_eq _ _ _ _ Hop). unfold upd_slice. simpl. rewrite (alter_insert_eq _ _ _ sl) by done.
  split_and!.
  - by apply ok_waiter.
  - intros Hf. simpl. eapply (hist_ext (buf_of c) _ (cl_db c)); [|done|].
    + intros s'. unfold buf_of. simpl. destruct (decide (s' = s)) as [->|]; [|by apply buf_at_other].
      unfold buf_at. by rewrite lookup_insert_eq, Hs.
    + apply (ev_same_phase (Hb Hf) o op); try done. intros s' _ Hin. simpl. apply elem_of_app. by left.
  - intros o' op1 Hne. simpl. rewrite lookup_insert_ne by done. eauto.
Qed.

(** ** Checking for conflicts *)

(** What the loop over the slices of the block keeps. *)
Record checked o (op : APIOp) c c' : Prop := {
  ch_inv : inv_but o c';
  ch_op : ∃ ws, cl_ops c' !! o = Some (set_waits ws op) ∧ op_waits op ⊆ ws;
  ch_slices s : (λ sl, (as_key sl, bool_decide (live sl))) <$> cl_slices c' !! s
                = (λ sl, (as_key sl, bool_decide (live sl))) <$> cl_slices c !! s;
  ch_fault : cl_fault c' = false → cl_fault c = false;
}.

Lemma find_callback_step o op mem c s sl n c' :
  inv_but o c → cl_ops c !! o = Some op → cl_slices c !! s = Some sl → live sl →
  deal_confilct_slice o s mem (if decide (as_stage sl = STAGE_MERGING)
    then combine_handler_push_within_lock s c else c) = (n, c') →
  checked o op c c' ∧ (cl_fault c' = false → ∃ op', cl_ops c' !! o = Some op' ∧ s ∈ op_waits op') ∧
  (n ≠ 0 → cl_fault c' = true).
Proof.
  intros Hi Hop Hs Hl Heq.
  set (c1 := if decide (as_stage sl = STAGE_MERGING) then combine_handler_push_within_lock s c else c) in *.
  assert (H1 : inv_but o c1 ∧ cl_ops c1 = cl_ops c ∧ cl_fault c1 = cl_fault c ∧
    cl_slices c1 = <[s := set_stage STAGE_PROCESSING sl]> (cl_slices c)).
  { unfold c1. case_decide as Hm.
    - pose proof (quiet_push_locked c s sl (proj1 Hi) Hs Hm) as Hq. split_and!; [by eapply quiet_but|done|done|].
      unfold combine_handler_push_within_lock, timeout_handler_remove, upd_slice. simpl. by apply alter_insert_eq.
    - split_and!; [done|done|done|]. destruct Hl as [?|Hp]; [done|]. symmetry. apply insert_id. rewrite Hs. f_equal.
      rewrite <- Hp. by destruct sl. }
  destruct H1 as (Hi1 & Ho1 & Hf1 & Hs1). clearbody c1.
  assert (Hsl1 : cl_slices c1 !! s = Some (set_stage STAGE_PROCESSING sl)) by (by rewrite Hs1, lookup_insert_eq).
  assert (Hkeep : ∀ s', (λ sl, (as_key sl, bool_decide (live sl))) <$> cl_slices c1 !! s'
                = (λ sl, (as_key sl, bool_decide (live sl))) <$> cl_slices c !! s').
  { intros s'. rewrite Hs1. destruct (decide (s' = s)) as [->|]; [|by rewrite lookup_insert_ne].
    rewrite lookup_insert_eq, Hs. simpl. by rewrite (bool_decide_true (live sl)). }
  assert (Hadd : checked o op c (fs_api_add_to_slice_waiting_list o s c1) ∧
    ∃ op', cl_ops (fs_api_add_to_slice_waiting_list o s c1) !! o = Some op' ∧ s ∈ op_waits op').
  { assert (Hop' : cl_ops (fs_api_add_to_slice_waiting_list o s c1) !! o
      = Some (set_waits (op_waits op ++ [s]) op)).
    { unfold fs_api_add_to_slice_waiting_list, upd_slice, upd_op. simpl. by rewrite lookup_alter_eq, Ho1, Hop. }
    split.
    - constructor.
      + eapply inv_wait; [done|by rewrite Ho1|done|done].
      + eexists. split; [done|]. set_solver.
      + intros s'. rewrite <- Hkeep. unfold fs_api_add_to_slice_waiting_list, upd_slice. simpl.
        destruct (decide (s' = s)) as [->|]; [|by rewrite lookup_alter_ne].
        by rewrite lookup_alter_eq, Hsl1.
      + simpl. congruence.
    - eexists. split; [done|]. simpl. apply elem_of_app. right. by left. }
  assert (Hfault : checked o op c (set_fault true c1)).
  { constructor; [| |done|done].
    - destruct Hi1 as (? & ? & ?). by split_and!.
    - exists (op_waits op). split; [|done]. simpl. rewrite Ho1, Hop. by destruct op. }
  destruct Hadd as [Hadd Hin]. unfold deal_confilct_slice in Heq.
  destruct mem as [[|m]|]; injection Heq as <- <-; split_and!; done.
Qed.

Lemma checked_refl o op c : inv_but o c → cl_ops c !! o = Some op → checked o op c c.
Proof. intros Hi Hop. constructor; [done| |done|done]. exists (op_waits op). split; [|done]. by destruct op. Qed.

Lemma checked_trans o op ws c1 c2 c3 :
  cl_ops c2 !! o = Some (set_waits ws op) → checked o op c1 c2 → checked o (set_waits ws op) c2 c3 →
  checked o op c1 c3.
Proof.
  intros H2 [_ (ws' & Hws' & Hsub) Hk1 Hf1] [Hi (ws3 & Hop3 & Hsub3) Hk2 Hf2]. constructor; [done| | |auto].
  - exists ws3. split; [done|]. simpl in Hsub3. rewrite H2 in Hws'. injection Hws' as ->. set_solver.
  - intros s. by rewrite Hk2.
Qed.

Lemma overlap_true k1 k2 : koff k2 < kend k1 → koff k1 < kend k2 → fs_slice_is_overlap (bs_slice k1) (bs_slice k2) = true.
Proof. unfold fs_slice_is_overlap, kend, koff, klen. zcase; lia. Qed.

Lemma find_callback_spec o k l : ∀ mem n c op n' c',
  inv_but o c → cl_ops c !! o = Some op →
  StronglySorted (λ s1 s2, aoff (cl_slices c) s1 <= aoff (cl_slices c) s2) l →
  (∀ s, s ∈ l → ∃ sl, cl_slices c !! s = Some sl ∧ live sl) →
  obid_htable_find_callback o k mem l n c = (n', c') →
  checked o op c c' ∧
  (cl_fault c' = false → ∀ s sl, s ∈ l → cl_slices c !! s = Some sl → koff (as_key sl) < kend k →
     koff k < kend (as_key sl) → ∃ op', cl_ops c' !! o = Some op' ∧ s ∈ op_waits op').
Proof.
  induction l as [|x l IH]; intros mem n c op n' c' Hi Hop Hsrt Hl; simpl.
  { intros [= <- <-]. split; [by apply checked_refl|]. by intros _ s sl ?%elem_of_nil. }
  apply StronglySorted_inv in Hsrt as [Hsrt Hx].
  destruct (Hl x) as (sl & Hs & Hlv); [by left|]. rewrite Hs.
  assert (Hoffx : aoff (cl_slices c) x = koff (as_key sl)) by (unfold aoff; by rewrite Hs).
  destruct (Z.leb_spec (kend k) (koff (as_key sl))) as [Hend|Hend].
  { intros [= <- <-]. split; [by apply checked_refl|]. intros _ s sl' [->|Hin]%elem_of_cons Hs' Hb1 Hb2.
    - simplify_eq. lia.
    - rewrite Forall_forall in Hx. specialize (Hx s Hin). unfold aoff in Hx at 2. rewrite Hs', Hoffx in Hx. lia. }
  rewrite bool_decide_true, andb_true_r by exact Hlv.
  destruct (fs_slice_is_overlap (bs_slice k) (bs_slice (as_key sl))) eqn:Hov.
  - destruct (deal_confilct_slice o x mem _) as [r c1] eqn:Hd.
    destruct (find_callback_step _ _ _ _ _ _ _ _ Hi Hop Hs Hlv Hd) as (Hck & Hin & Hr).
    pose proof Hck as [Hi1 (ws & Hop1 & Hsub) Hk1 Hf1].
    destruct (Z.eqb_spec r 0) as [->|Hr0].
    2:{ intros [= <- <-]. split; [done|]. rewrite (Hr Hr0). done. }
    assert (Hk : ∀ y, aoff (cl_slices c1) y = aoff (cl_slices c) y).
    { intros y. unfold aoff. specialize (Hk1 y).
      destruct (cl_slices c1 !! y), (cl_slices c !! y); simplify_eq/=; congruence. }
    intros Heq. destruct (IH (Nat.pred <$> mem) (n + 1) c1 (set_waits ws op) n' c' Hi1 Hop1) as [Hck2 Hall]; [| |exact Heq|].
    { eapply sorted_ext_in; [done|]. intros y z _ _. by rewrite !Hk. }
    { intros y Hy. destruct (Hl y) as (sly & Hsy & Hly); [by right|]. specialize (Hk1 y). rewrite Hsy in Hk1.
      apply fmap_Some in Hk1 as (sly' & -> & Hk1). exists sly'. split; [done|].
      injection Hk1 as _ Hb. rewrite (bool_decide_true (live sly)) in Hb by done.
      symmetry in Hb. by apply bool_decide_eq_true in Hb. }
    pose proof (checked_trans _ _ _ _ _ _ Hop1 Hck Hck2) as Hck3. split; [done|].
    intros Hf s sl' [->|Hy]%elem_of_cons Hs' Hb1 Hb2.
    + destruct (Hin (ch_fault _ _ _ _ Hck2 Hf)) as (op' & Hop' & Hx').
      destruct (ch_op _ _ _ _ Hck2) as (ws2 & Hop2 & Hsub2). eexists. split; [done|]. simpl.
      rewrite Hop1 in Hop'. injection Hop' as <-. by apply Hsub2.
    + specialize (Hk1 s). rewrite Hs' in Hk1. apply fmap_Some in Hk1 as (sl2 & Hs2 & Hk1).
      injection Hk1 as Hk2 _. rewrite Hk2 in Hb1, Hb2. eapply Hall; eauto.
  - intros Heq. destruct (IH mem n c op n' c' Hi Hop Hsrt) as [Hck Hall]; [|exact Heq|].
    { intros y Hy. apply Hl. by right. }
    split; [done|]. intros Hf s sl' [->|Hy]%elem_of_cons Hs' Hb1 Hb2; [|by eapply Hall].
    simplify_eq. rewrite overlap_true in Hov by done. done.
Qed.

(** The check for conflicts is an event of the store with write buffers. *)
Lemma check_conflict_inv o op mem c :
  client_inv c → cl_ops c !! o = Some op → op_pc op = CheckConflict →
  client_inv (check_conflict o op mem c).
Proof.
  intros Hi Hop Hpc. unfold check_conflict.
  destruct (obid_htable_find_callback _ _ _ _ _ _) as [n c1] eqn:Heq.
  pose proof (inv_but_intro o c Hi) as Hb. pose proof (proj1 Hi) as Hok.
  set (b := block_id (op_key op)) in *.
  apply (find_callback_spec o (op_key op) (block_slices c b) _ _ _ op) in Heq as [[Hi1 (ws & Hop1 & Hsub) Hk Hf1] Hall];
    [|done|done|apply Hok|].
  2:{ intros s (sl & ? & ? & _)%(ok_listed _ _ _ _ _ _ _ Hok). eauto. }
  assert (Hno : ∀ pc, ¬ asked (set_pc (WaitConflict pc) (set_waits ws op))) by (intros pc [r [?|?]]; done).
  rewrite (upd_op_eq _ _ _ _ Hop1). eapply (inv_but_elim o).
  - eapply inv_upd_op; [done|done|done| |].
    + destruct (inv_op_ok _ _ _ Hb Hop) as [Hv _]. by split.
    + intros Hf. eapply (ev_check (proj1 (proj2 Hi1) Hf)); [done|done| |done|].
      { intros [r [Hr|Hr]]; simpl in Hr; congruence. }
      intros s k buf b' i Hbuf [-> Hc1] [Hbk Hc2].
      assert (Hsl : ∃ sl, cl_slices c1 !! s = Some sl ∧ live sl ∧ as_key sl = k).
      { unfold buf_of, buf_at in Hbuf. destruct (cl_slices c1 !! s) as [sl|]; [|done].
        case_decide; [|done]. exists sl. split_and!; [done|done|].
        destruct (cl_running c1 !! s) as [[]|]; by simplify_eq. }
      destruct Hsl as (sl1 & Hs1 & Hl1 & <-).
      pose proof (Hk s) as Hks. rewrite Hs1 in Hks. symmetry in Hks.
      apply fmap_Some in Hks as (sl & Hs & Hkl). injection Hkl as Hkey Hlv.
      rewrite (bool_decide_true (live sl1)) in Hlv by done. symmetry in Hlv. apply bool_decide_eq_true in Hlv.
      destruct (Hall Hf s sl) as (op' & Hop' & Hin).
      * apply (ok_listed _ _ _ _ _ _ _ Hok). exists sl. split_and!; [done|done|]. rewrite <- Hkey. by rewrite Hbk.
      * done.
      * rewrite <- Hkey. simpl in Hc2. lia.
      * rewrite <- Hkey. simpl in Hc2. lia.
      * rewrite Hop1 in Hop'. injection Hop' as <-. done.
  - intros op'. simpl. rewrite lookup_insert_eq. intros [= <-]. done.
Qed.
End Main.
