(* ===== verification/WCombineSteps.v ===== *)
(** * The steps of the calls and of the handler threads *)
From S2P Require Import Prelude Types WriteCombine WCombineThms WCombineMain.

Section Steps.
Context `{cfg : WriteCombineConfig}.
Implicit Types (c : Client) (op : APIOp) (sl : FSAPISliceEntry) (o s : Z).

Lemma valid_write op data :
  op_ok op → op_call op = SliceWrite data →
  0 <= koff (op_key op) ∧ 0 < klen (op_key op) ∧ kend (op_key op) <= FS_FILE_BLOCK_SIZE ∧
  length data = Z.to_nat (klen (op_key op)).
Proof. intros [Hv _] Hc. unfold valid_request in Hv. rewrite Hc in Hv. zbool. lia. Qed.

Lemma wbuffer_length o op data : op_call op = SliceWrite data → length (wbuffer_bytes o op) = length data.
Proof. intros Hc. unfold wbuffer_bytes. by rewrite Hc, length_map. Qed.

Lemma call_bytes_write o op data : op_call op = SliceWrite data → call_bytes o op = Some (wbuffer_bytes o op).
Proof. intros Hc. unfold call_bytes. by rewrite Hc. Qed.

Lemma wbuffer_tag o op n v w : wbuffer_bytes o op !! n = Some (v, w) → w = o.
Proof.
  unfold wbuffer_bytes. destruct (op_call op); try done.
  rewrite list_lookup_fmap. intros (x & ? & ?)%fmap_Some. congruence.
Qed.

Lemma buf_of_some c s k buf :
  buf_of c s = Some (k, buf) →
  ∃ sl, cl_slices c !! s = Some sl ∧ live sl ∧ as_key sl = k ∧ as_buff sl = buf.
Proof.
  unfold buf_of, buf_at. destruct (cl_slices c !! s) as [sl|]; [|done]. case_decide; [|done].
  intros Hb. exists sl. destruct (cl_running c !! s) as [[]|]; by simplify_eq.
Qed.

Lemma buf_of_merging c s sl :
  wc_ok c → cl_slices c !! s = Some sl → as_stage sl = STAGE_MERGING → buf_of c s = Some (as_key sl, as_buff sl).
Proof.
  intros H Hs Hm. unfold buf_of, buf_at. rewrite Hs, decide_True by by left.
  by rewrite (slice_running_none c s sl) by (done || congruence).
Qed.

(** The bytes of a successive write are put behind those of the slice. *)
Lemma inv_merge o op c s sl data :
  inv_but o c → cl_ops c !! o = Some op → op_call op = SliceWrite data → op_pc op ≠ Returned 0 →
  cl_slices c !! s = Some sl → as_stage sl = STAGE_MERGING →
  block_id (op_key op) = block_id (as_key sl) → koff (op_key op) = kend (as_key sl) →
  klen (as_key sl) + klen (op_key op) <= buffer_size →
  let c' := upd_slice s (merge_data (wbuffer_bytes o op) (klen (op_key op))) c in
  inv_but o c' ∧ ∀ b i, covers (op_key op) b i → buffered (buf_of c') b i.
Proof.
  intros Hi Hop Hcall Hret Hs Hm Hb Hk Hbuf c'.
  pose proof (inv_op_ok _ _ _ Hi Hop) as Hok. destruct (valid_write _ _ Hok Hcall) as (? & ? & ? & Hd).
  rewrite <- (wbuffer_length o op data) in Hd by done.
  assert (Hc' : c' = set_slices (<[s := merge_data (wbuffer_bytes o op) (klen (op_key op)) sl]> (cl_slices c)) c)
    by (unfold c', upd_slice; by rewrite (alter_insert_eq _ _ _ sl)).
  destruct Hi as (Ha & Hh & Hw).
  destruct (ok_slice _ _ _ _ _ _ _ Ha s sl Hs) as (Hk0 & Hk1 & Hk2 & Hbl & _); [by left|].
  assert (Hwc : wc_ok c').
  { rewrite Hc'. eapply ok_merge; try done; [lia|]. unfold kend in *. lia. }
  set (sl' := merge_data (wbuffer_bytes o op) (klen (op_key op)) sl) in *.
  assert (Hs' : cl_slices c' !! s = Some sl') by (rewrite Hc'; apply lookup_insert_eq).
  assert (Hbuf' : buf_of c' s = Some (as_key sl', as_buff sl ++ wbuffer_bytes o op))
    by by apply buf_of_merging.
  assert (Hkl : klen (as_key sl') = klen (as_key sl) + klen (op_key op)) by done.
  assert (Hko : koff (as_key sl') = koff (as_key sl)) by done.
  split.
  - split_and!; [done| |by rewrite Hc'].
    intros Hf. rewrite Hc' in Hf.
    assert (Hput : hist (buf_of c') (cl_db c) (cl_ops c) (cl_done c)); [|by rewrite Hc' in *].
    eapply (ev_put (Hh Hf) _ s _ _ o op Hop Hret); [|exact Hbuf'| | |].
    + intros s' Hne. rewrite Hc'. by apply buf_at_other.
    + rewrite Hkl, length_app, Hbl, Hd. lia.
    + intros b i v w [-> Hc] Hlk. rewrite Hko in Hlk.
      destruct (decide (i < kend (as_key sl))) as [Hlt|Hge].
      * left. exists (as_key sl), (as_buff sl).
        assert (Hlen : (Z.to_nat (i - koff (as_key sl)) < length (as_buff sl))%nat) by (unfold kend in *; lia).
        rewrite lookup_app_l in Hlk by exact Hlen.
        split_and!; [by apply buf_of_merging| |done]. split; [done|]. rewrite Hko in Hc. lia.
      * right.
        assert (Hlen : (length (as_buff sl) <= Z.to_nat (i - koff (as_key sl)))%nat) by (unfold kend in *; lia).
        assert (Hn : (Z.to_nat (i - koff (as_key sl)) - length (as_buff sl))%nat = Z.to_nat (i - koff (op_key op)))
          by (unfold kend in *; lia).
        rewrite lookup_app_r in Hlk by exact Hlen.
        apply wbuffer_tag in Hlk as Hwo. split_and!; [done|split; [by rewrite Hb|unfold kend in *; lia]|].
        unfold byte_of. rewrite (call_bytes_write _ _ _ Hcall). simpl. rewrite <- Hlk. f_equal.
        symmetry. exact Hn.
    + intros k buf b i Hkb [-> Hc]. rewrite (buf_of_merging _ _ _ Ha Hs Hm) in Hkb. injection Hkb as <- <-.
      split; [done|]. unfold kend in *. lia.
  - intros b i [-> Hc]. do 3 eexists. split; [exact Hbuf'|]. split; [by rewrite Hb|]. unfold kend in *. lia.
Qed.

(** ** Combining *)

(** What [try_combine_slice] leaves for [after_combine]. *)
Definition tried o op (is_new : bool) c : Prop :=
  inv_but o c ∧ ∃ op', cl_ops c !! o = Some op' ∧ same_op op op' ∧ op_pc op' = op_pc op ∧
    (op_waits op' = [] → is_new = false → op_combined op' = true →
     cl_fault c = true ∨ ∀ b i, covers (op_key op) b i → buffered (buf_of c) b i).

Lemma after_combine_inv o op old is_new count c data :
  tried o op is_new c → op_call op = SliceWrite data → op_pc op ≠ CheckConflict → ¬ asked op →
  client_inv (after_combine o old is_new count c).
Proof.
  intros (Hi & op' & Hop & Hs & Hpc' & Hall) Hcall Hpc Ha. unfold after_combine.
  rewrite (upd_op_eq _ _ _ _ Hop). pose proof (inv_op_ok _ _ _ Hi Hop) as [Hv _].
  assert (Hcall' : op_call op' = SliceWrite data) by (destruct Hs as (-> & _); done).
  assert (Ha' : ¬ asked op') by (intros [r Hr]; apply Ha; exists r; by rewrite <- Hpc').
  eapply (inv_but_elim o).
  - case_bool_decide as Hw.
    { eapply inv_move; [done|done|done|by rewrite Hpc'|done|by intros [r [?|?]]|done|by split; eauto]. }
    destruct (is_new && op_combined op') eqn:Hn.
    { eapply inv_move; [done|done|done|by rewrite Hpc'|done|by intros [r [?|?]]|done|by split; eauto]. }
    destruct (op_combined op') eqn:Hco.
    2:{ eapply inv_move; [done|done|done|by rewrite Hpc'|done|by intros [r [?|?]]|done|by split; eauto]. }
    rewrite andb_true_r in Hn. eapply inv_upd_op; [done|done|done|by split; eauto|].
    intros Hf. destruct (Hall Hw Hn eq_refl) as [?|Hb]; [congruence|].
    eapply (ev_combined (proj1 (proj2 Hi) Hf)); [done|done|by rewrite Hpc'|done|done|done|by rewrite Hcall'|].
    intros b i. destruct Hs as (_ & -> & _). apply Hb.
  - intros op1. simpl. rewrite lookup_insert_eq. intros [= <-].
    case_bool_decide as Hw; [by split|].
    destruct (is_new && op_combined op'), (op_combined op'); split; simpl; done.
Qed.

Lemma buffered_quiet c c' b i : quiet_step c c' → buffered (buf_of c) b i → buffered (buf_of c') b i.
Proof. intros Hq (s & k & buf & ? & ?). exists s, k, buf. by rewrite (qs_buf _ _ Hq). Qed.

Lemma upd_op_lookup o (f : APIOp → APIOp) c op :
  cl_ops c !! o = Some op → cl_ops (upd_op o f c) !! o = Some (f op).
Proof. intros Hop. unfold upd_op. simpl. by rewrite lookup_alter_eq, Hop. Qed.

Lemma combine_with_new_tried o op s sl is_jump mem c is_new c' :
  inv_but o c → cl_ops c !! o = Some op → op_waits op = [] → op_combined op = false →
  cl_slices c !! s = Some sl → combine_with_new o op s sl is_jump mem c = (is_new, c') → tried o op is_new c'.
Proof.
  intros Hi Hop Hw Hco Hs. unfold combine_with_new. rewrite Hco.
  assert (Hi' : ∀ b r, inv_but o (upd_op o (set_combined b r) c)) by (intros b r; by eapply inv_combined).
  assert (Hl : ∀ b r, cl_ops (upd_op o (set_combined b r) c) !! o = Some (set_combined b r op))
    by (intros b r; by apply (upd_op_lookup o (set_combined b r))).
  assert (Hsame : ∀ b r, same_op op (set_combined b r op)) by done.
  destruct (negb (IF_COMBINE_BY_SLICE_SIZE op)).
  { intros [= <- <-]. split; [done|]. eexists. by split_and!. }
  set (combined := is_jump || IF_COMBINE_BY_SLICE_MERGED sl).
  set (r := if combined then op_reason op else REASON_LAST_MERGED_SLICES).
  destruct (combined && _ && _) eqn:Hc; intros [= <- <-].
  2:{ split; [done|]. eexists. by split_and!. }
  apply andb_prop in Hc as [[_ Hst]%andb_prop _]. apply bool_decide_eq_true in Hst.
  destruct mem.
  - split; [by eapply inv_wait|]. exists (set_waits (op_waits op ++ [s]) (set_combined combined r op)).
    split; [|split; [done|split; [done|]]].
    + unfold fs_api_add_to_slice_waiting_list, upd_slice.
      exact (upd_op_lookup o (λ op, set_waits (op_waits op ++ [s]) op) _ _ (Hl combined r)).
    + simpl. rewrite Hw. done.
  - split.
    + destruct (Hi' combined r) as (? & ? & ?). by split_and!.
    + exists (set_combined combined r op). split; [exact (Hl combined r)|split; [done|split; [done|]]]. by left.
Qed.

Lemma do_combine_tried o op s sl c data :
  inv_but o c → cl_ops c !! o = Some op → op_call op = SliceWrite data → op_pc op ≠ Returned 0 →
  op_combined op = false → cl_slices c !! s = Some sl → as_stage sl = STAGE_MERGING →
  block_id (op_key op) = block_id (as_key sl) → koff (op_key op) = kend (as_key sl) →
  klen (as_key sl) + klen (op_key op) <= buffer_size →
  tried o op false (do_combine_slice o op s sl c).
Proof.
  intros Hi Hop Hcall Hret Hco Hs Hm Hb Hk Hbuf. unfold do_combine_slice.
  destruct (negb (IF_COMBINE_BY_SLICE_SIZE op)).
  { pose proof (quiet_push_locked c s sl (proj1 Hi) Hs Hm) as Hq. pose proof (quiet_but o _ _ Hq Hi) as Hi1.
    assert (Hop1 : cl_ops (combine_handler_push_within_lock s c) !! o = Some op) by (by rewrite (qs_ops _ _ Hq)).
    split; [by eapply inv_combined|]. exists (set_combined (op_combined op) REASON_SLICE_SIZE op).
    split_and!; [by apply upd_op_lookup|done|done|]. simpl. rewrite Hco. done. }
  destruct (inv_merge o op c s sl data Hi Hop Hcall Hret Hs Hm Hb Hk Hbuf) as [Hi1 Hbf].
  set (c1 := upd_slice s _ c) in *.
  assert (Hop1 : cl_ops c1 !! o = Some op) by done.
  pose proof (inv_combined o op c1 true (op_reason op) Hi1 Hop1) as Hi2.
  set (c2 := upd_op o (set_combined true (op_reason op)) c1) in *.
  assert (Hop2 : cl_ops c2 !! o = Some (set_combined true (op_reason op) op)) by by apply upd_op_lookup.
  assert (Hfin : ∀ c3, quiet_step c2 c3 → tried o op false c3).
  { intros c3 Hq. split; [by eapply quiet_but|]. eexists. rewrite (qs_ops _ _ Hq). split_and!; [done|done|done|].
    intros _ _ _. right. intros b i Hc. eapply buffered_quiet; [exact Hq|]. by apply Hbf. }
  assert (Hs2 : cl_slices c2 !! s = Some (merge_data (wbuffer_bytes o op) (klen (op_key op)) sl)).
  { unfold c2, c1, upd_op, upd_slice. simpl. by rewrite lookup_alter_eq, Hs. }
  destruct (_ <? 4096).
  - apply Hfin. eapply quiet_push_locked; [apply Hi2|done|done].
  - destruct (_ <=? _); apply Hfin; by apply quiet_frame.
Qed.

Lemma try_combine_tried o op s sl mem c is_new c' data :
  inv_but o c → cl_ops c !! o = Some op → op_call op = SliceWrite data → op_pc op ≠ Returned 0 →
  op_waits op = [] → op_combined op = false → cl_slices c !! s = Some sl →
  try_combine_slice o op s sl mem c = (is_new, c') → tried o op is_new c'.
Proof.
  intros Hi Hop Hcall Hret Hw Hco Hs. unfold try_combine_slice.
  destruct (Z.eqb_spec (bk_oid (bs_block (op_key op))) (bk_oid (bs_block (as_key sl)))) as [Hoid|]; simpl.
  2:{ intros [= <- <-]. split; [by eapply inv_combined|]. exists (set_combined (op_combined op) REASON_DIFFERENT_OID op).
      split_and!; [by apply upd_op_lookup|done|done|]. simpl. rewrite Hco. done. }
  assert (Hpush : as_stage sl = STAGE_MERGING → ∀ jump,
    combine_with_new o op s (set_stage STAGE_PROCESSING sl) jump mem (combine_handler_push_within_lock s c) = (is_new, c') →
    tried o op is_new c').
  { intros Hm jump. pose proof (quiet_push_locked c s sl (proj1 Hi) Hs Hm) as Hq.
    apply combine_with_new_tried; [by eapply quiet_but|by rewrite (qs_ops _ _ Hq)|done|done|].
    unfold combine_handler_push_within_lock, upd_slice. simpl. by rewrite lookup_alter_eq, Hs. }
  destruct (_ && _) eqn:Hsucc; case_bool_decide as Hm; try by eauto using combine_with_new_tried.
  apply andb_prop in Hsucc as [Hboff%Z.eqb_eq Hoff%Z.eqb_eq].
  destruct (Z.ltb_spec buffer_size (klen (as_key sl) + klen (op_key op))); [by apply Hpush|].
  intros [= <- <-]. eapply do_combine_tried; try done. unfold block_id. congruence.
Qed.

(** The call goes on from a place where it neither has its answer nor will check again. *)
Lemma inv_goto o op c pc :
  inv_but o c → cl_ops c !! o = Some op → op_pc op ≠ CheckConflict → ¬ asked op →
  (∀ r, pc ≠ Returning r ∧ pc ≠ Returned r) → (op_waits op ≠ [] → waiting_pc pc) →
  (trying_pc pc → op_combined op = false) → (write_pc pc → ∃ data, op_call op = SliceWrite data) →
  client_inv (upd_op o (set_pc pc) c).
Proof.
  intros Hb Hop Hpc Ha Hr Hw Ht Hwr. rewrite (upd_op_eq _ _ _ _ Hop).
  pose proof (inv_op_ok _ _ _ Hb Hop) as [Hv _].
  eapply (inv_but_elim o).
  - eapply inv_move; [done|done|done|done|done| |done|by split].
    intros [r [?|?]]; by destruct (Hr r).
  - intros op1. simpl. rewrite lookup_insert_eq. by intros [= <-].
Qed.

Lemma locked_combine_inv o op count s version mem c :
  client_inv c → cl_ops c !! o = Some op → op_pc op = TryCombine count s version →
  client_inv (locked_combine o op count s version mem c).
Proof.
  intros Hi Hop Hpc. unfold locked_combine. destruct (cl_slices c !! s) as [sl|] eqn:Hs; [|done].
  pose proof (inv_but_intro o c Hi) as Hb. destruct (inv_op_ok _ _ _ Hb Hop) as [_ Hwr].
  destruct Hwr as [data Hcall]; [by rewrite Hpc|].
  assert (Ha : ¬ asked op) by (intros [r [Hr|Hr]]; congruence).
  destruct (proj2 (proj2 Hi) o op Hop) as [Hw Hco]. rewrite Hpc in Hw, Hco. simpl in Hw, Hco.
  assert (Hw' : op_waits op = []) by (destruct (op_waits op); [done|by destruct Hw]).
  destruct (as_version sl =? version).
  - destruct (try_combine_slice _ _ _ _ _ _) as [is_new c1] eqn:Heq.
    eapply after_combine_inv; [|done|congruence|done]. eapply try_combine_tried; eauto. by rewrite Hpc.
  - apply (inv_goto o op); [done|done|congruence|done|done| |done|eauto]. by rewrite Hw'.
Qed.

(** A free entry gets the bytes of the call. *)
Lemma inv_insert o op c s old data n :
  inv_but o c → cl_ops c !! o = Some op → op_call op = SliceWrite data → op_pc op ≠ Returned 0 →
  s ∈ cl_free c → klen (op_key op) <= buffer_size →
  obid_htable_find_position (op_key op) c (block_slices c (block_id (op_key op))) 0 = Some n →
  let c' := obid_htable_insert_at o op s old n (set_free (cl_free c ∖ {[s]}) c) in
  inv_but o c' ∧ cl_ops c' = cl_ops c ∧ ∀ b i, covers (op_key op) b i → buffered (buf_of c') b i.
Proof.
  intros Hi Hop Hcall Hret Hfree Hbuf Hfp c'.
  pose proof (inv_op_ok _ _ _ Hi Hop) as Hok. destruct (valid_write _ _ Hok Hcall) as (Hk0 & Hk1 & Hk2 & Hd).
  rewrite <- (wbuffer_length o op data) in Hd by done.
  destruct Hi as (Ha & Hh & Hw). set (b := block_id (op_key op)) in *.
  destruct (ok_free _ _ _ _ _ _ _ Ha s Hfree) as (sl0 & Hs0 & Hnl).
  destruct (find_position_spec _ _ _ _ _ (λ x Hx, match proj1 (ok_listed _ _ _ _ _ _ _ Ha b x) Hx with
    ex_intro _ sl (conj H _) => mk_is_Some _ sl H end) Hfp) as (l1 & l2 & Hl & Hn & H1 & H2).
  change (block_slices c b = l1 ++ l2) in Hl. simpl in Hn. subst n.
  set (sl := init_slice o op (cl_time c) sl0).
  set (c1 := set_blocks (<[b := l1 ++ s :: l2]> (cl_blocks c))
    (set_slices (<[s := sl]> (cl_slices c)) (set_free (cl_free c ∖ {[s]}) c))).
  assert (Hwc : wc_ok c1).
  { eapply ok_insert; [exact Ha|done|exact Hs0|exact Hl|done|done|done| |done|].
    - unfold slice_ok. simpl. split_and!; try done.
    - intros x Hx. destruct l2 as [|y l2]; [by apply elem_of_nil in Hx|].
      assert (Hy : koff (op_key op) <= aoff (cl_slices c) y).
      { specialize (H2 y l2 eq_refl). unfold kend in H2. lia. }
      apply elem_of_cons in Hx as [->|Hx]; [done|].
      assert (Hsrt : StronglySorted (λ s1 s2, aoff (cl_slices c) s1 <= aoff (cl_slices c) s2) (block_slices c b))
        by exact (ok_sorted _ _ _ _ _ _ _ Ha b).
      rewrite Hl in Hsrt. apply sorted_app_r, StronglySorted_inv in Hsrt as [_ Hsrt].
      rewrite Forall_forall in Hsrt. specialize (Hsrt x Hx). simpl in *. lia. }
  assert (Hs1 : cl_slices c1 !! s = Some sl) by apply lookup_insert_eq.
  assert (Hbuf1 : buf_of c1 s = Some (op_key op, wbuffer_bytes o op)) by (by apply (buf_of_merging c1 s sl)).
  assert (Hnone : buf_of c s = None).
  { unfold buf_of, buf_at. by rewrite Hs0, decide_False. }
  assert (Hi1 : inv_but o c1).
  { split_and!; [done| |done]. intros Hf.
    eapply (ev_put (Hh Hf) _ s _ _ o op Hop Hret); [|exact Hbuf1|done| |].
    - intros s' Hne. by apply buf_at_other.
    - intros b' i v w Hc Hlk. right. apply wbuffer_tag in Hlk as Hwo. split; [done|split; [exact Hc|]].
      unfold byte_of. by rewrite (call_bytes_write _ _ _ Hcall).
    - intros k buf b' i Hkb. by rewrite Hnone in Hkb. }
  assert (Hq : quiet_step c1 c').
  { unfold c', obid_htable_insert_at. fold b.
    change (block_slices (set_free (cl_free c ∖ {[s]}) c) b) with (block_slices c b).
    rewrite Hl, take_app_length, drop_app_length.
    set (c2 := set_blocks _ (upd_slice _ _ _)).
    assert (Hc2 : c2 = c1).
    { unfold c2, upd_slice, c1. simpl. by rewrite (alter_insert_eq _ _ _ sl0). }
    clearbody c2. subst c2.
    set (c3 := timeout_handler_add s _ c1).
    assert (Hq3 : quiet_step c1 c3) by by apply quiet_frame.
    assert (Hqp : quiet_step c1 (combine_handler_push_within_lock s c3)).
    { eapply quiet_trans; [exact Hq3|]. eapply quiet_push_locked; [|exact Hs1|done]. by apply (qs_ok _ _ Hq3). }
    destruct (cl_otids c3 !! _) as [e|]; [|done]. case_decide; [|done].
    eapply quiet_trans; [exact Hq3|]. by apply quiet_frame. }
  split_and!; [by eapply quiet_but|by rewrite (qs_ops _ _ Hq)|].
  intros b' i Hc. eapply buffered_quiet; [exact Hq|]. do 3 eexists. by split.
Qed.

Lemma create_slice_inv o op old slot c combined c' :
  client_inv c → cl_ops c !! o = Some op → op_pc op = CreateSlice old → slot_ok op slot c = true →
  create_slice o op old slot c = (combined, c') →
  client_inv (upd_op o (set_pc (if combined then Returning 0 else CallServer)) c').
Proof.
  intros Hi Hop Hpc Hslot. pose proof (inv_but_intro o c Hi) as Hb.
  destruct (inv_op_ok _ _ _ Hb Hop) as [Hv Hwr]. destruct Hwr as [data Hcall]; [by rewrite Hpc|].
  destruct (proj2 (proj2 Hi) o op Hop) as [Hw _]. rewrite Hpc in Hw. simpl in Hw.
  assert (Hw' : op_waits op = []) by (destruct (op_waits op); [done|by destruct Hw]).
  assert (Hno : ∀ r, client_inv (upd_op o (set_pc CallServer) (upd_op o (set_combined false r) c))).
  { intros r.
    assert (Hi1 : inv_but o (upd_op o (set_combined false r) c)) by by eapply inv_combined.
    pose proof (upd_op_lookup o (set_combined false r) c op Hop) as Hop1.
    apply (inv_goto o _ _ CallServer Hi1 Hop1); simpl; [congruence| |done|by rewrite Hw'|done|done].
    intros [x [Hx|Hx]]; simpl in Hx; congruence. }
  unfold create_slice. destruct (Z.leb_spec buffer_size (klen (op_key op) + 4096)); [by intros [= <- <-]|].
  destruct (negb _); [by intros [= <- <-]|]. destruct slot as [s|]; [|by intros [= <- <-]].
  destruct (obid_htable_find_position _ _ _ _) as [n|] eqn:Hfp; [|by intros [= <- <-]].
  intros [= <- <-]. apply andb_prop in Hslot as [Hfree _]. apply bool_decide_eq_true in Hfree.
  edestruct (inv_insert o op c s old data n) as (Hi1 & Hops & Hbf); [done..|by rewrite Hpc|done|lia|done|].
  set (c1 := obid_htable_insert_at _ _ _ _ _ _) in *.
  assert (Hop1 : cl_ops c1 !! o = Some op) by (by rewrite Hops).
  rewrite (upd_op_eq _ _ _ _ Hop1). eapply (inv_but_elim o).
  - eapply inv_upd_op; [done|done|done|by split|].
    intros Hf. eapply (ev_combined (proj1 (proj2 Hi1) Hf)); [done|done|congruence| |done|done|by rewrite Hcall|done].
    intros [x [Hx|Hx]]; congruence.
  - intros op1. simpl. rewrite lookup_insert_eq. intros [= <-]. split; simpl; [by rewrite Hw'|done].
Qed.

Lemma inv_replace o op op' c :
  inv_but o c → cl_ops c !! o = Some op → same_op op op' → op_waits op' = op_waits op →
  op_pc op ≠ CheckConflict → ¬ asked op → ¬ asked op' → op_ok op' → pc_ok op' →
  client_inv (set_ops (<[o := op']> (cl_ops c)) c).
Proof.
  intros Hb Hop Hs Hw Hpc Ha Ha' Hok Hpo. apply (inv_but_elim o); [by eapply inv_move|].
  intros op1. simpl. rewrite lookup_insert_eq. by intros [= <-].
Qed.

Lemma no_waits_ok o op c : client_inv c → cl_ops c !! o = Some op → ¬ waiting_pc (op_pc op) → op_waits op = [].
Proof.
  intros Hi Hop Hn. destruct (proj2 (proj2 Hi) o op Hop) as [Hw _].
  destruct (op_waits op); [done|]. exfalso. by apply Hn, Hw.
Qed.

Lemma otid_insert_inv o op mem c :
  client_inv c → cl_ops c !! o = Some op → op_pc op = InsertOtid → client_inv (otid_htable_insert o op mem c).
Proof.
  intros Hi Hop Hpc. pose proof (inv_but_intro o c Hi) as Hb.
  destruct (inv_op_ok _ _ _ Hb Hop) as [Hv Hwr]. destruct Hwr as [data Hcall]; [by rewrite Hpc|].
  assert (Hw : op_waits op = []) by (apply (no_waits_ok o op c); [done|done|by rewrite Hpc; intros ?]).
  assert (Ha : ¬ asked op) by (intros [x [Hx|Hx]]; congruence).
  unfold otid_htable_insert. destruct (negb mem && _).
  { rewrite (upd_op_eq _ _ _ _ Hop). eapply (inv_replace o op); [done|done|done|done|congruence|done| |by split|].
    - by intros [x [Hx|Hx]].
    - split; simpl; [by rewrite Hw|done]. }
  set (c1 := set_otids _ c). set (n := match cl_otids c !! _ with Some _ => _ | None => 0 end).
  assert (Hop1 : cl_ops c1 !! o = Some op) by done.
  rewrite (upd_op_eq _ _ _ _ Hop1). eapply (inv_replace o op); [done|done|done|done|congruence|done| | |].
  - by destruct (0 <? n); intros [x [Hx|Hx]].
  - split; [done|]. intros _. by exists data.
  - split; simpl; [by rewrite Hw|by destruct (0 <? n)].
Qed.

Lemma fetch_slice_inv o op count c :
  client_inv c → cl_ops c !! o = Some op → op_pc op = FetchSlice count → client_inv (fetch_slice o op count c).
Proof.
  intros Hi Hop Hpc. pose proof (inv_but_intro o c Hi) as Hb.
  destruct (inv_op_ok _ _ _ Hb Hop) as [Hv Hwr]. destruct Hwr as [data Hcall]; [by rewrite Hpc|].
  assert (Hw : op_waits op = []) by (apply (no_waits_ok o op c); [done|done|by rewrite Hpc; intros ?]).
  assert (Ha : ¬ asked op) by (intros [x [Hx|Hx]]; congruence).
  destruct (proj2 (proj2 Hi) o op Hop) as [_ Hco]. rewrite Hpc in Hco. simpl in Hco.
  unfold fetch_slice. destruct (cl_otids c !! _ ≫= oe_slice) as [s|].
  - apply (inv_goto o op); [done|done|congruence|done|done|by rewrite Hw|by intros _; apply Hco|eauto].
  - eapply (after_combine_inv o op); [|done|congruence|done]. split; [by eapply inv_combined|].
    eexists. split; [by apply upd_op_lookup|]. split; [done|]. by split.
Qed.

(** ** The servers *)

Lemma db_write_cases k data r mask c b i :
  cl_db (db_write k data r mask c) b i = cl_db c b i ∨
  (b = block_id k ∧ koff k <= i ∧ data !! Z.to_nat (i - koff k) = Some (cl_db (db_write k data r mask c) b i)).
Proof.
  unfold db_write. simpl. case_decide; [|by left]. destruct (data !! _) as [v|] eqn:E; [|by left].
  destruct (Z.leb_spec (koff k) i); simpl; [|by left]. destruct (_ || _); [|by left]. by right.
Qed.
Lemma db_write_in k data mask c i v :
  koff k <= i → data !! Z.to_nat (i - koff k) = Some v →
  cl_db (db_write k data 0 mask c) (block_id k) i = v.
Proof.
  intros Hi Hv. unfold db_write. simpl. rewrite decide_True by done. rewrite Hv.
  by rewrite (proj2 (Z.leb_le _ _) Hi).
Qed.
Lemma db_write_out k data r mask c b i :
  length data = Z.to_nat (klen k) → ¬ covers k b i → cl_db (db_write k data r mask c) b i = cl_db c b i.
Proof.
  intros Hl Hn. destruct (db_write_cases k data r mask c b i) as [?|(-> & Hi & Hlk)]; [done|].
  destruct Hn. apply lookup_lt_Some in Hlk. split; [done|]. unfold kend. lia.
Qed.

Lemma call_bytes_length o op data :
  op_ok op → call_bytes o op = Some data → length data = Z.to_nat (klen (op_key op)).
Proof.
  intros [Hv _]. unfold call_bytes, wbuffer_bytes, valid_request in *.
  destruct (op_call op); intros [= <-]; rewrite ?length_map, ?length_replicate; [|done..].
  zbool. lia.
Qed.
Lemma call_bytes_tag o op data n v w : call_bytes o op = Some data → data !! n = Some (v, w) → w = o.
Proof.
  intros Hc Hlk. destruct (op_call op) eqn:Hcall; unfold call_bytes in Hc; rewrite Hcall in Hc; simplify_eq.
  - by eapply wbuffer_tag.
  - apply lookup_replicate_1 in Hlk as [? _]. congruence.
  - apply lookup_replicate_1 in Hlk as [? _]. congruence.
Qed.
Lemma valid_key op : op_ok op → 0 <= koff (op_key op) ∧ 0 < klen (op_key op).
Proof. intros [Hv _]. unfold valid_request in Hv. zbool. done. Qed.

Lemma call_server_inv o op result mask c :
  client_inv c → cl_ops c !! o = Some op → op_pc op = CallServer → client_inv (call_server o op result mask c).
Proof.
  intros Hi Hop Hpc. pose proof (inv_but_intro o c Hi) as Hb. pose proof (inv_op_ok _ _ _ Hb Hop) as Hok.
  destruct (valid_key _ Hok) as [Hk0 Hk1].
  assert (Hw : op_waits op = []) by (apply (no_waits_ok o op c); [done|done|by rewrite Hpc; intros ?]).
  assert (Ha : ¬ asked op) by (intros [x [Hx|Hx]]; congruence).
  unfold call_server. set (c1 := match call_bytes o op with Some _ => _ | None => _ end).
  set (data := match op_call op with SliceRead => _ | _ => [] end).
  assert (H1 : cl_slices c1 = cl_slices c ∧ cl_free c1 = cl_free c ∧ cl_blocks c1 = cl_blocks c ∧
    cl_dealing c1 ++ cl_queue c1 = cl_dealing c ++ cl_queue c ∧ cl_running c1 = cl_running c ∧
    cl_waiting_slice_count c1 = cl_waiting_slice_count c ∧ cl_ops c1 = cl_ops c ∧ cl_done c1 = cl_done c ∧
    cl_fault c1 = cl_fault c) by (unfold c1; by destruct (call_bytes o op)).
  destruct H1 as (Hsl & Hfr & Hbl & Hdq & Hru & Hct & Hops & Hdn & Hft).
  assert (Hop1 : cl_ops c1 !! o = Some op) by (by rewrite Hops).
  rewrite (upd_op_eq _ _ _ _ Hop1).
  assert (Hwc : wc_ok c1) by (unfold wc_ok; rewrite Hsl, Hfr, Hbl, Hdq, Hru, Hct, Hops; apply Hi).
  apply (inv_but_elim o).
  2:{ intros op1. simpl. rewrite lookup_insert_eq. intros [= <-]. split; simpl; [by rewrite Hw|done]. }
  split_and!.
  - simpl. eapply (ok_upd_op _ _ _ _ _ _ _ o op); [exact Hwc|done|done|]. by split; [apply Hok|].
  - intros Hf. simpl in Hf. rewrite Hft in Hf. simpl. rewrite Hops, Hdn.
    assert (Hbuf : buf_of (set_ops (<[o := set_pc (Returning result) (set_read data op)]> (cl_ops c)) c1) = buf_of c).
    { unfold buf_of. simpl. by rewrite Hsl, Hru. }
    rewrite Hbuf. pose proof (proj1 (proj2 Hi) Hf) as Hh.
    eapply (ev_answer Hh (cl_db c1) result); [done|done|congruence|done|done|done| | |].
    + intros b i. unfold c1. destruct (call_bytes o op) as [bytes|] eqn:Hby; [|by left].
      pose proof (call_bytes_length _ _ _ Hok Hby) as Hlen.
      destruct (db_write_cases (op_key op) bytes result mask c b i) as [?|(-> & Hik & Hlk)]; [by left|right].
      split; [|split; [split; [done|split; [done|]]|]].
      * destruct (cl_db _ _ _) as [v w]. simpl. by eapply call_bytes_tag.
      * apply lookup_lt_Some in Hlk. unfold kend. lia.
      * unfold byte_of. by rewrite Hby.
    + intros -> Hm b i Hc. destruct (call_bytes o op) as [bytes|] eqn:Hby.
      2:{ unfold call_bytes, modifies in *. by destruct (op_call op). }
      destruct (covers_lookup _ _ _ bytes Hc (call_bytes_length _ _ _ Hok Hby)) as (v & w & Hlk).
      destruct Hc as [-> Hc]. unfold c1. rewrite (db_write_in _ _ _ _ _ (v, w)) by (done || lia).
      by eapply call_bytes_tag.
    + intros -> Hcall. eapply (ev_read Hh); [done|done|done|congruence|done|done|done|lia|].
      simpl. unfold data, c1. rewrite Hcall. unfold call_bytes. rewrite Hcall. done.
  - intros o' op1 Hne. simpl. rewrite lookup_insert_ne, Hops by done. apply Hi.
Qed.

Lemma finish_call_inv o op r c :
  client_inv c → cl_ops c !! o = Some op → op_pc op = Returning r → client_inv (finish_call o r c).
Proof.
  intros Hi Hop Hpc. pose proof (inv_but_intro o c Hi) as Hb. pose proof (inv_op_ok _ _ _ Hb Hop) as Hok.
  assert (Hw : op_waits op = []) by (apply (no_waits_ok o op c); [done|done|by rewrite Hpc; intros ?]).
  unfold finish_call. rewrite (upd_op_eq _ _ _ _ Hop). set (op' := set_pc (Returned r) op).
  assert (Hh : cl_fault c = false → hist (buf_of c) (cl_db c) (<[o := op']> (cl_ops c)) (cl_done c)).
  { intros Hf. eapply (ev_same_phase (proj1 (proj2 Hi) Hf) o op); try done.
    - rewrite Hpc. done.
    - split; intros _; exists r; [by right|by left].
    - unfold effected. rewrite Hpc. simpl. split; intros [E|E]; try discriminate E; injection E as ->; auto.
    - by rewrite Hpc. }
  assert (Hi1 : client_inv (set_ops (<[o := op']> (cl_ops c)) c)).
  { apply (inv_but_elim o).
    - eapply inv_upd_op; [done|done|done|by split; [apply Hok|]|done].
    - intros op1. simpl. rewrite lookup_insert_eq. intros [= <-]. split; simpl; [by rewrite Hw|done]. }
  destruct (Z.eqb_spec r 0) as [->|]; [|done].
  destruct Hi1 as (Ha & Hh1 & Hp). split_and!; [done| |done].
  intros Hf. eapply (ev_done (Hh1 Hf) o op'); [|done]. simpl. apply lookup_insert_eq.
Qed.

Lemma start_call_inv o call tid k c c' : client_inv c → start_call o call tid k c = Some c' → client_inv c'.
Proof.
  intros Hi. unfold start_call. destruct (_ && _) eqn:Hg; [|done]. intros [= <-].
  apply andb_prop in Hg as [[Hv Ho]%andb_prop Hn]. apply Z.ltb_lt in Ho. apply bool_decide_eq_true in Hn.
  destruct Hi as (Ha & Hh & Hp). split_and!.
  - eapply (ok_new_op _ _ _ _ _ _ _ o); [exact Ha|done|done|]. by split.
  - intros Hf. by eapply (ev_start (Hh Hf)); [|lia|..].
  - intros o' op. simpl. destruct (decide (o' = o)) as [->|].
    + rewrite lookup_insert_eq. by intros [= <-].
    + rewrite lookup_insert_ne by done. apply Hp.
Qed.

Lemma alloc_init_inv s a c c' : client_inv c → wcmb_slice_entry_alloc_init s a c = Some c' → client_inv c'.
Proof.
  intros Hi. unfold wcmb_slice_entry_alloc_init, fs_api_next_slice_version.
  case_bool_decide as Hs; [|done]. simpl. intros [= <-]. destruct Hi as (Ha & Hh & Hp).
  set (sl := mkAPISlice _ _ _ _ _ _ _ _ _).
  assert (Hnl : ¬ live sl) by (by intros [?|?]).
  split_and!; [|intros Hf|done].
  - by apply ok_alloc_init.
  - eapply (hist_ext (buf_of c) _ (cl_db c)); [|done|by apply Hh].
    intros s'. unfold buf_of. simpl. destruct (decide (s' = s)) as [->|]; [|by apply buf_at_other].
    unfold buf_at. by rewrite lookup_insert_eq, Hs, decide_False.
Qed.

(** ** The handler threads *)

Lemma buf_at_running sls running s pc s' :
  s' ≠ s → buf_at sls (<[s := pc]> running) s' = buf_at sls running s'.
Proof. intros Hn. unfold buf_at. by rewrite (lookup_insert_ne running). Qed.

Lemma deal_inv s l c :
  client_inv c → cl_dealing c = s :: l →
  client_inv (set_running (<[s := RunWrite]> (cl_running c))
    (set_waiting_slice_count (cl_waiting_slice_count c - 1) (set_dealing l c))).
Proof.
  intros (Ha & Hh & Hp) Hd. split_and!; [|intros Hf|done].
  - apply ok_deal. unfold wc_ok in Ha. by rewrite Hd in Ha.
  - eapply (hist_ext (buf_of c) _ (cl_db c)); [|done|by apply Hh].
    intros s'. unfold buf_of. simpl. destruct (decide (s' = s)) as [->|]; [|by apply buf_at_running].
    assert (Hr : cl_running c !! s = None).
    { eapply ok_running; [exact Ha|]. rewrite Hd. by left. }
    unfold buf_at. by rewrite lookup_insert_eq, Hr.
Qed.

Lemma running_processing c s pc :
  wc_ok c → cl_running c !! s = Some pc → ∃ sl, cl_slices c !! s = Some sl ∧ as_stage sl = STAGE_PROCESSING.
Proof. intros Ha Hr. apply (ok_handler _ _ _ _ _ _ _ Ha s). right. by exists pc. Qed.

Lemma waits_asked c : client_inv c → ∀ o op, cl_ops c !! o = Some op → asked op → op_waits op = [].
Proof. intros Hi o op Hop [r [Hr|Hr]]; (apply (no_waits_ok o op c); [done|done|by rewrite Hr; intros ?]). Qed.

Lemma run_write_inv s sl result mask c :
  client_inv c → cl_slices c !! s = Some sl → cl_running c !! s = Some RunWrite →
  client_inv (run_write s sl result mask c).
Proof.
  intros Hi Hs Hr. pose proof (waits_asked c Hi) as Hwa. destruct Hi as (Ha & Hh & Hp).
  destruct (running_processing _ _ _ Ha Hr) as (sl0 & Hs0 & Hst). simplify_eq.
  destruct (ok_slice _ _ _ _ _ _ _ Ha s sl Hs) as (Hk0 & Hk1 & Hk2 & Hbl & _); [by right|].
  unfold run_write. rewrite <- Hbl, firstn_all.
  set (c1 := db_write _ _ _ _ c).
  assert (Hc1 : wc_ok (if result =? 0 then c1 else set_fault true c1)) by (by destruct (result =? 0)).
  split_and!.
  - assert (Hgo : ok_core (cl_slices c) (cl_free c) (cl_blocks c) (cl_dealing c ++ cl_queue c)
      (<[s := RunUnlink]> (cl_running c)) (cl_waiting_slice_count c) (cl_ops c)) by (apply ok_run; eauto).
    by destruct (result =? 0).
  - destruct (Z.eqb_spec result 0) as [->|]; intros Hf; [|done]. simpl in Hf.
    assert (Hb : buf_of c s = Some (as_key sl, as_buff sl)).
    { unfold buf_of, buf_at. by rewrite Hs, decide_True, Hr by by right. }
    eapply (ev_flush (Hh Hf) _ _ s _ _ Hwa Hb).
    + unfold buf_of, buf_at. simpl. by rewrite Hs, lookup_insert_eq, decide_True by by right.
    + intros s' Hne. by apply buf_at_running.
    + intros b i Hc. destruct (covers_lookup _ _ _ _ Hc Hbl) as (v & w & Hlk). destruct Hc as [-> Hc].
      etrans; [exact Hlk|]. f_equal. symmetry. apply db_write_in; [lia|exact Hlk].
    + intros b i Hn. by apply db_write_out.
  - by destruct (result =? 0).
Qed.

Lemma run_unlink_inv s sl c :
  client_inv c → cl_slices c !! s = Some sl → cl_running c !! s = Some RunUnlink → client_inv (run_unlink s sl c).
Proof.
  intros (Ha & Hh & Hp) Hs Hr. unfold run_unlink, fs_api_next_slice_version.
  set (c1 := match cl_otids c !! as_otid sl with Some _ => _ | None => _ end).
  assert (Hq : quiet_step c c1).
  { unfold c1. destruct (cl_otids c !! _); [|apply quiet_refl]. case_decide; [by apply quiet_frame|apply quiet_refl]. }
  assert (Hr1 : cl_running c1 = cl_running c ∧ cl_slices c1 = cl_slices c).
  { unfold c1. destruct (cl_otids c !! _); [|done]. by case_decide. }
  destruct Hr1 as [Hr1 Hs1]. clearbody c1.
  destruct (quiet_inv _ _ Hq (conj Ha (conj Hh Hp))) as (Ha1 & Hh1 & Hp1). split_and!; [|intros Hf|done].
  - apply ok_run; [exact Ha1|]. simpl. rewrite Hr1. eauto.
  - eapply (hist_ext (buf_of c1) _ (cl_db c1)); [|done|by apply Hh1].
    intros s'. unfold buf_of. simpl. destruct (decide (s' = s)) as [->|]; [|by apply buf_at_running].
    unfold buf_at. rewrite lookup_insert_eq, Hs1, Hr1, Hs, Hr. by case_decide.
Qed.

(** The notifications, one after the other. *)
Lemma notify_hist bufs db s dn ws : ∀ c,
  bufs s = None → hist bufs db (cl_ops c) dn →
  hist bufs db (cl_ops (fs_api_notify_waiting_tasks s ws c)) dn.
Proof.
  intros c Hb Hh. induction ws as [|o ws IH]; [done|]. simpl.
  set (c1 := fs_api_notify_waiting_tasks s ws c) in *.
  change (foldr _ c ws) with c1. unfold upd_op. simpl.
  destruct (cl_ops c1 !! o) as [op|] eqn:Hop.
  - rewrite (alter_insert_eq _ _ _ op) by done. eapply (ev_same_phase IH o op); try done.
    intros s' [x Hx] Hin. simpl. apply list_elem_of_filter. split; [|done]. intros ->. congruence.
  - assert (Hid : alter (λ op, set_waits (filter (λ s', s' ≠ s) (op_waits op)) op) o (cl_ops c1) = cl_ops c1).
    { apply map_eq. intros o'. destruct (decide (o' = o)) as [->|].
      - by rewrite lookup_alter_eq, Hop.
      - by rewrite lookup_alter_ne. }
    by rewrite Hid.
Qed.

Lemma run_release_inv s sl v1 v2 c :
  client_inv c → cl_slices c !! s = Some sl → cl_running c !! s = Some (RunRelease v1 v2) →
  client_inv (run_release s sl v1 v2 c).
Proof.
  intros (Ha & Hh & Hp) Hs Hr. unfold run_release.
  pose proof (notify_hist (buf_of c) (cl_db c) s (cl_done c) (as_waitings sl) c) as Hnh.
  destruct (notify_ops s (as_waitings sl) c) as (ops' & Heq & Hops). rewrite Heq in Hnh |- *. simpl in Hnh.
  set (f := λ sl0 : FSAPISliceEntry, _ : FSAPISliceEntry). set (sl' := f sl).
  assert (Hnl : ¬ live sl') by (by intros [?|?]).
  assert (Hsl : alter f s (cl_slices c) = <[s := sl']> (cl_slices c)) by by apply alter_insert_eq.
  unfold upd_slice. simpl. rewrite Hsl. split_and!.
  - by eapply (ok_release _ _ _ _ _ _ _ ops' s sl sl'); [exact Ha|..].
  - intros Hf. simpl. eapply (hist_ext (buf_of c) _ (cl_db c)); [|done|].
    + intros s'. unfold buf_of. simpl. destruct (decide (s' = s)) as [->|].
      * unfold buf_at. rewrite lookup_insert_eq, decide_False by done. rewrite Hs, Hr. by case_decide.
      * rewrite buf_at_other by done. unfold buf_at. by rewrite lookup_delete_ne.
    + apply Hnh; [|by apply Hh]. unfold buf_of, buf_at. rewrite Hs, Hr. by case_decide.
  - intros o op. simpl. rewrite Hops. case_decide; [|apply Hp].
    intros (op0 & Hop0 & ->)%fmap_Some. destruct (Hp o op0 Hop0) as [Hw Ht]. split; [|done].
    simpl. intros Hn. apply Hw. intros E. by rewrite E in Hn.
Qed.

Lemma step_call_inv o op mem avail slot result mask c c' :
  client_inv c → cl_ops c !! o = Some op → step_call o op mem avail slot result mask c = Some c' → client_inv c'.
Proof.
  intros Hi Hop. pose proof (inv_but_intro o c Hi) as Hb. destruct (inv_op_ok _ _ _ Hb Hop) as [_ Hwr].
  destruct (proj2 (proj2 Hi) o op Hop) as [Hw Hco]. unfold step_call.
  destruct (op_pc op) as [|n| |n|n s|n s v|old|n| |r|r] eqn:Hpc; simpl in Hw, Hco, Hwr;
    try (assert (Ha : ¬ asked op) by (intros [x [Hx|Hx]]; congruence)).
  - intros [= <-]. by apply check_conflict_inv.
  - case_decide as Hno; [|done]. intros [= <-].
    apply (inv_goto o op); [done|done|congruence|done| |by rewrite Hno| |];
      unfold after_conflict; destruct (op_call op); try destruct (0 <? n); try done; eauto.
  - intros [= <-]. by apply otid_insert_inv.
  - intros [= <-]. by eapply fetch_slice_inv.
  - destruct (cl_slices c !! s) as [sl|]; [|done]. intros [= <-].
    apply (inv_goto o op); [done|done|congruence|done|done|done|by intros _; apply Hco|by intros _; apply Hwr].
  - intros [= <-]. by eapply locked_combine_inv.
  - destruct (slot_ok op slot c) eqn:Hsl; [|done]. destruct (create_slice _ _ _ _ _) as [b c1] eqn:Hcr.
    intros [= <-]. by eapply create_slice_inv.
  - case_decide as Hno; [|done]. intros [= <-].
    apply (inv_goto o op); [done|done|congruence|done| |by rewrite Hno|by intros _; apply Hco|by intros _; apply Hwr].
    by destruct (n <? 3).
  - intros [= <-]. by apply call_server_inv.
  - intros [= <-]. by eapply finish_call_inv.
  - done.
Qed.

(** Every step of every thread keeps the invariant. *)
Lemma client_step_inv st c c' : client_inv c → step st c = Some c' → client_inv c'.
Proof.
  intros Hi. destruct st as [o call tid k|o mem avail slot r mask|s a|now|s| | | |s r mask]; simpl.
  - by apply start_call_inv.
  - destruct (cl_ops c !! o) as [op|] eqn:Hop; [|done]. by apply step_call_inv.
  - by apply alloc_init_inv.
  - destruct (_ <=? now); [|done]. intros [= <-]. eapply quiet_inv; [|exact Hi]. by apply quiet_frame.
  - unfold timeout_handler_timeouts_get. destruct (cl_timer c !! s) as [e|]; [|done]. simpl. destruct (e <=? _); [|done]. intros [= <-].
    eapply quiet_inv; [|exact Hi]. by apply quiet_frame.
  - unfold deal_timeouts. destruct (cl_expired c) as [|s l]; [done|]. intros [= <-].
    assert (Hi1 : client_inv (set_expired l c)) by (eapply quiet_inv; [|exact Hi]; by apply quiet_frame).
    eapply quiet_inv; [|exact Hi1]. apply quiet_handler_push, Hi1.
  - unfold combine_handler_pop_all. destruct (cl_dealing c) as [|s l] eqn:Hd; [|done]. intros [= <-].
    eapply quiet_inv; [|exact Hi]. by apply quiet_pop.
  - unfold deal_slices. destruct (cl_dealing c) as [|s l] eqn:Hd; [done|]. intros [= <-]. by apply deal_inv.
  - destruct (cl_slices c !! s) as [sl|] eqn:Hs; [|done]. destruct (cl_running c !! s) as [pc|] eqn:Hr; [|done].
    intros [= <-]. destruct pc; [by apply run_write_inv|by apply run_unlink_inv|by apply run_release_inv].
Qed.

Lemma client_init_inv t : client_inv (client_init t).
Proof.
  split_and!; [|intros _; apply (hist_ext (λ _, None) _ (λ _ _, (0, 0))); [done|done|apply hist_init]|done].
  constructor; try done.
  - intros b s. split; [by intros ?%elem_of_nil|]. by intros (? & ? & _).
  - intros b. constructor.
  - intros b. constructor.
  - intros s. split; [intros [?%elem_of_nil|[? ?]]; done|]. by intros (? & ? & _).
  - constructor.
  - intros s o. by split; intros (? & ? & _).
Qed.

Lemma client_reachable_inv t c : reachable t c → client_inv c.
Proof. induction 1; [apply client_init_inv|by eapply client_step_inv]. Qed.

(** C9: for every interleaving of the calls with the timer and the handler threads, as long as
    no waiting task could not be allocated and no combined slice failed to be written: every
    byte a successful read returned was written there by an operation (or is the initial zero)
    that was not overwritten before the read began, and that did not begin after the read had
    returned. Combined writes are therefore visible to every read that begins after they
    return, although they are not stored yet. *)
Theorem reads_are_regular t c o op :
  reachable t c → cl_fault c = false → cl_ops c !! o = Some op → op_call op = SliceRead → effected op →
  regular (cl_ops c) o op.
Proof.
  intros Hr Hf Hop Hcall He. destruct (client_reachable_inv _ _ Hr) as (_ & Hh & _).
  exact (oh_read _ _ _ _ _ _ (hi_ops _ _ _ _ (Hh Hf) o op Hop) Hcall He).
Qed.

(** C22: in every reachable state the lists of the blocks, the queue, the threads and the free
    objects agree with the stages of the slices; the list of a block is sorted by offset (two
    of its slices overlap when two threads write the same bytes at the same time); a slice lies
    in its block, its bytes fill its length and never more than the buffer has; a call waits for a slice exactly when the slice
    has its waiting task. *)
Theorem reachable_client_ok t c : reachable t c → wc_ok c.
Proof. intros Hr. apply (client_reachable_inv _ _ Hr). Qed.
End Steps.
