(* ===== verification/WCombineLive.v ===== *)
(** * Every call can return, and no data is kept for too long

    No call waits for a notification that does not come: from every reachable state the
    handler threads alone end every wait, and every call can go on to its end. A slice that
    still takes data is in the timer, or on the list the timer thread works on, and expires
    within the configured time. *)
From S2P Require Import Prelude Types WriteCombine WCombineThms WCombineMain WCombineSteps.

Section Live.
Context `{cfg : WriteCombineConfig}.
Implicit Types (c : Client) (op : APIOp) (sl : FSAPISliceEntry) (o s : Z).

Lemma run_steps_app l1 l2 c c1 c2 :
  run_steps l1 c = Some c1 → run_steps l2 c1 = Some c2 → run_steps (l1 ++ l2) c = Some c2.
Proof.
  revert c. induction l1 as [|st l1 IH]; intros c; simpl; [by intros [= ->]|].
  destruct (step st c) as [c0|]; [|done]. simpl. apply IH.
Qed.
Lemma run_steps_reachable t l c c' : reachable t c → run_steps l c = Some c' → reachable t c'.
Proof.
  revert c. induction l as [|st l IH]; intros c Hr; simpl; [by intros [= <-]|].
  destruct (step st c) as [c0|] eqn:Hs; [|done]. simpl. apply IH. by eapply reachable_step.
Qed.

(** ** The slices the pointers lead to exist *)

Definition pc_refs c (pc : CallPc) : Prop :=
  match pc with FetchVersion _ s | TryCombine _ s _ => is_Some (cl_slices c !! s) | _ => True end.
Definition wc_refs c : Prop :=
  (∀ k e s, cl_otids c !! k = Some e → oe_slice e = Some s → is_Some (cl_slices c !! s)) ∧
  (∀ o op, cl_ops c !! o = Some op → pc_refs c (op_pc op)).

Record frame c c' : Prop := {
  fr_otids : cl_otids c' = cl_otids c;
  fr_slices s : is_Some (cl_slices c !! s) → is_Some (cl_slices c' !! s);
  fr_pcs o : op_pc <$> cl_ops c' !! o = op_pc <$> cl_ops c !! o;
}.
Lemma frame_refl c : frame c c.
Proof. by constructor. Qed.
Lemma frame_trans c1 c2 c3 : frame c1 c2 → frame c2 c3 → frame c1 c3.
Proof. intros [H1 H2 H3] [K1 K2 K3]. constructor; [congruence|auto|congruence]. Qed.

Lemma pc_refs_frame c c' pc :
  (∀ s, is_Some (cl_slices c !! s) → is_Some (cl_slices c' !! s)) → pc_refs c pc → pc_refs c' pc.
Proof. destruct pc; simpl; auto. Qed.
Lemma frame_refs c c' : frame c c' → wc_refs c → wc_refs c'.
Proof.
  intros [H1 H2 H3] [K1 K2]. split.
  - intros k e s. rewrite H1. eauto.
  - intros o op Hop. specialize (H3 o). rewrite Hop in H3. symmetry in H3.
    apply fmap_Some in H3 as (op0 & Hop0 & ->). eapply pc_refs_frame; eauto.
Qed.

Lemma frame_upd_slice s (f : FSAPISliceEntry → FSAPISliceEntry) c : frame c (upd_slice s f c).
Proof.
  constructor; [done| |done]. intros s' Hs'. unfold upd_slice. simpl.
  destruct (decide (s' = s)) as [->|]; [|by rewrite lookup_alter_ne].
  rewrite lookup_alter_eq. by apply fmap_is_Some.
Qed.
Lemma frame_upd_op o (f : APIOp → APIOp) c : (∀ op, op_pc (f op) = op_pc op) → frame c (upd_op o f c).
Proof.
  intros Hf. constructor; [done|done|]. intros o'. unfold upd_op. simpl.
  destruct (decide (o' = o)) as [->|]; [|by rewrite lookup_alter_ne].
  rewrite lookup_alter_eq. destruct (cl_ops c !! o); simpl; by rewrite ?Hf.
Qed.
Lemma frame_push s c : frame c (combine_handler_push_within_lock s c).
Proof. eapply frame_trans; [apply (frame_upd_slice s (set_stage STAGE_PROCESSING))|]. by constructor. Qed.
Lemma frame_wait o s c : frame c (fs_api_add_to_slice_waiting_list o s c).
Proof. eapply frame_trans; [|apply frame_upd_slice]. by apply frame_upd_op. Qed.

Lemma frame_find o k l : ∀ mem n c n' c', obid_htable_find_callback o k mem l n c = (n', c') → frame c c'.
Proof.
  induction l as [|s l IH]; intros mem n c n' c'; simpl; [intros [= <- <-]; apply frame_refl|].
  destruct (cl_slices c !! s) as [sl|]; [|intros [= <- <-]; apply frame_refl].
  destruct (_ <=? _); [intros [= <- <-]; apply frame_refl|].
  destruct (_ && _); [|apply IH].
  set (c1 := if decide (as_stage sl = STAGE_MERGING) then _ else c).
  assert (H1 : frame c c1) by (unfold c1; case_decide; [apply frame_push|apply frame_refl]).
  destruct (deal_confilct_slice o s mem c1) as [r c2] eqn:Hd.
  assert (H2 : frame c1 c2).
  { unfold deal_confilct_slice in Hd. destruct mem as [[]|]; injection Hd as <- <-; [by constructor| |]; apply frame_wait. }
  pose proof (frame_trans _ _ _ H1 H2) as H3. destruct (r =? 0).
  - intros Heq. eapply frame_trans; [exact H3|]. by eapply IH.
  - by intros [= <- <-].
Qed.

Lemma frame_with_new o op s sl j mem c b c' : combine_with_new o op s sl j mem c = (b, c') → frame c c'.
Proof.
  unfold combine_with_new. destruct (negb _); [intros [= <- <-]; by apply frame_upd_op|].
  assert (H1 : ∀ b' r, frame c (upd_op o (set_combined b' r) c)) by (intros; by apply frame_upd_op).
  destruct (_ && _); intros [= <- <-]; [|apply H1].
  eapply frame_trans; [apply H1|]. destruct mem; [apply frame_wait|by constructor].
Qed.
Lemma frame_try o op s sl mem c b c' : try_combine_slice o op s sl mem c = (b, c') → frame c c'.
Proof.
  assert (Hp : ∀ j, combine_with_new o op s (set_stage STAGE_PROCESSING sl) j mem
      (combine_handler_push_within_lock s c) = (b, c') → frame c c').
  { intros j Hc. eapply frame_trans; [apply frame_push|by eapply frame_with_new]. }
  unfold try_combine_slice. destruct (negb _); [intros [= <- <-]; by apply frame_upd_op|].
  destruct (_ && _); case_bool_decide; try (by apply Hp); try (by apply frame_with_new).
  destruct (_ <? _); [by apply Hp|]. intros [= <- <-]. unfold do_combine_slice.
  destruct (negb _); [eapply frame_trans; [apply frame_push|by apply frame_upd_op]|].
  set (c1 := upd_op _ _ _).
  assert (H1 : frame c c1) by (eapply frame_trans; [apply (frame_upd_slice s)|by apply frame_upd_op]).
  destruct (_ <? 4096); [eapply frame_trans; [exact H1|apply frame_push]|].
  destruct (_ <=? _); [|done]. eapply frame_trans; [exact H1|by constructor].
Qed.

Lemma refs_upd_op o (f : APIOp → APIOp) c :
  wc_refs c → (∀ op, cl_ops c !! o = Some op → pc_refs c (op_pc (f op))) → wc_refs (upd_op o f c).
Proof.
  intros [H1 H2] Hf. split; [done|]. intros o' op. unfold upd_op. simpl.
  destruct (decide (o' = o)) as [->|]; [|rewrite lookup_alter_ne by done; apply H2].
  rewrite lookup_alter_eq. intros (op0 & Hop0 & ->)%fmap_Some. by apply Hf.
Qed.

Lemma refs_after o old b n c : wc_refs c → wc_refs (after_combine o old b n c).
Proof.
  intros H. apply refs_upd_op; [done|]. intros op _. case_bool_decide; [done|].
  destruct (_ && _); [done|]. by destruct (op_combined op).
Qed.

Lemma refs_insert_at o op s old n c :
  wc_refs c → is_Some (cl_slices c !! s) → wc_refs (obid_htable_insert_at o op s old n c).
Proof.
  intros H Hs. unfold obid_htable_insert_at.
  set (c1 := timeout_handler_add _ _ _).
  assert (H1 : frame c c1) by (eapply frame_trans; [apply (frame_upd_slice s (init_slice o op (cl_time c)))|by constructor]).
  pose proof (frame_refs _ _ H1 H) as H2. pose proof (fr_slices _ _ H1 s Hs) as Hs1. clearbody c1.
  destruct (cl_otids c1 !! _) as [e|] eqn:He; [case_decide|]; try (eapply frame_refs; [apply frame_push|done]).
  destruct H2 as [H2 H3]. split; [|done]. intros k e' s'. simpl.
  destruct (decide (k = (bk_oid (bs_block (op_key op)), op_tid op))) as [->|].
  - rewrite lookup_insert_eq. intros [= <-]. simpl. by intros [= <-].
  - rewrite lookup_insert_ne by done. apply H2.
Qed.

Lemma refs_create o op old slot c b c' pc :
  wc_refs c → wc_ok c → create_slice o op old slot c = (b, c') → slot_ok op slot c = true →
  (∀ c1, pc_refs c1 pc) → wc_refs (upd_op o (set_pc pc) c').
Proof.
  intros H Hok Hcr Hslot Hpc. apply refs_upd_op; [|done]. revert Hcr. unfold create_slice.
  assert (Hf : ∀ r, wc_refs (upd_op o (set_combined false r) c)).
  { intros r. eapply frame_refs; [|exact H]. by apply frame_upd_op. }
  destruct (_ <=? _); [intros [= <- <-]; apply Hf|]. destruct (negb _); [intros [= <- <-]; apply Hf|].
  destruct slot as [s|]; [|intros [= <- <-]; apply Hf].
  destruct (obid_htable_find_position _ _ _ _); [|intros [= <- <-]; apply Hf]. intros [= <- <-].
  apply andb_prop in Hslot as [Hin _]. apply bool_decide_eq_true in Hin.
  apply refs_insert_at; [eapply frame_refs; [|exact H]; by constructor|].
  destruct (ok_free _ _ _ _ _ _ _ Hok s Hin) as (sl & Hs & _). by exists sl.
Qed.

Lemma refs_call o op mem avail slot r mask c c' :
  wc_refs c → wc_ok c → cl_ops c !! o = Some op → step_call o op mem avail slot r mask c = Some c' → wc_refs c'.
Proof.
  intros H Hok Hop. pose proof (proj2 H o op Hop) as Hpc0.
  assert (Hmove : ∀ f : APIOp → APIOp, pc_refs c (op_pc (f op)) → wc_refs (upd_op o f c)).
  { intros f Hf. apply refs_upd_op; [done|]. intros op1 H1. by replace op1 with op by congruence. }
  unfold step_call. destruct (op_pc op) as [|n| |n|n s|n s v|old|n| |x|x] eqn:Hpc.
  - intros [= <-]. unfold check_conflict. destruct (obid_htable_find_callback _ _ _ _ _ _) as [n c1] eqn:Hf.
    apply refs_upd_op; [|done]. eapply frame_refs; [by eapply frame_find|done].
  - case_decide; [|done]. intros [= <-]. apply Hmove. simpl. unfold after_conflict.
    destruct (op_call op); try destruct (0 <? n); done.
  - intros [= <-]. unfold otid_htable_insert. destruct (negb mem && _); [by apply Hmove|].
    set (e := mkOTID _ _ _). apply refs_upd_op.
    + destruct H as [H1 H2]. split; [|done]. intros k e' s'. simpl.
      destruct (decide (k = (bk_oid (bs_block (op_key op)), op_tid op))) as [->|].
      * rewrite lookup_insert_eq. intros [= <-]. simpl.
        destruct (cl_otids c !! _) as [e0|] eqn:He; [|done]. intros Hx. by eapply H1.
      * rewrite lookup_insert_ne by done. apply H1.
    + intros op1 _. simpl. by destruct (0 <? _).
  - intros [= <-]. unfold fetch_slice. destruct (cl_otids c !! _) as [e|] eqn:He; simpl.
    2:{ apply refs_after. eapply frame_refs; [|exact H]. by apply frame_upd_op. }
    destruct (oe_slice e) as [s|] eqn:Hs.
    + apply Hmove. simpl. by eapply (proj1 H).
    + apply refs_after. eapply frame_refs; [|exact H]. by apply frame_upd_op.
  - destruct (cl_slices c !! s) as [sl|] eqn:Hs; [|done]. intros [= <-]. apply Hmove. simpl. rewrite Hs. eauto.
  - intros [= <-]. unfold locked_combine. destruct (cl_slices c !! s) as [sl|]; [|done].
    destruct (_ =? v); [|by apply Hmove]. destruct (try_combine_slice _ _ _ _ _ _) as [b c1] eqn:Ht.
    apply refs_after. eapply frame_refs; [by eapply frame_try|done].
  - destruct (slot_ok op slot c) eqn:Hsl; [|done]. destruct (create_slice _ _ _ _ _) as [b c1] eqn:Hcr.
    intros [= <-]. eapply refs_create; eauto. by destruct b.
  - case_decide; [|done]. intros [= <-]. apply Hmove. simpl. by destruct (n <? 3).
  - intros [= <-]. unfold call_server. apply refs_upd_op; [|done]. by destruct (call_bytes o op).
  - intros [= <-]. unfold finish_call.
    assert (H1 : wc_refs (upd_op o (set_pc (Returned x)) c)) by by apply Hmove.
    by destruct (x =? 0).
  - done.
Qed.

Lemma refs_run s sl pc r mask c : wc_refs c → wc_refs (step_run s sl pc r mask c).
Proof.
  intros H. destruct pc as [| |v1 v2]; simpl.
  - unfold run_write. by destruct (r =? 0).
  - unfold run_unlink. destruct (cl_otids c !! as_otid sl) as [e|] eqn:He; [case_decide|]; try done.
    simpl. destruct H as [H1 H2]. split; [|done]. intros k e' s'. simpl.
    destruct (decide (k = as_otid sl)) as [->|]; [rewrite lookup_insert_eq; by intros [= <-]|].
    rewrite lookup_insert_ne by done. apply H1.
  - unfold run_release. destruct (notify_ops s (as_waitings sl) c) as (ops' & -> & Hops).
    eapply (frame_refs c); [|exact H]. eapply (frame_trans _ (set_ops ops' c)).
    + constructor; [done|done|]. intros o. simpl. rewrite Hops. case_decide; [|done]. by destruct (cl_ops c !! o).
    + set (c1 := upd_slice _ _ _). apply (frame_trans _ c1); [apply frame_upd_slice|by constructor].
Qed.

Lemma step_refs st c c' : wc_refs c → wc_ok c → step st c = Some c' → wc_refs c'.
Proof.
  intros H Hok. destruct st as [o call tid k|o mem avail slot r mask|s a|now|s| | | |s r mask]; simpl.
  - unfold start_call. destruct (_ && _); [|done]. intros [= <-]. destruct H as [H1 H2]. split; [done|].
    intros o' op. simpl. destruct (decide (o' = o)) as [->|].
    + rewrite lookup_insert_eq. by intros [= <-].
    + rewrite lookup_insert_ne by done. apply H2.
  - destruct (cl_ops c !! o) as [op|] eqn:Hop; [|done]. by apply refs_call.
  - unfold wcmb_slice_entry_alloc_init. case_bool_decide as Hs; [|done]. simpl. intros [= <-].
    eapply frame_refs; [|exact H]. constructor; [done| |done]. intros s' Hs'. simpl.
    rewrite lookup_insert_ne; [done|]. intros ->. rewrite Hs in Hs'. by destruct Hs'.
  - destruct (_ <=? now); [|done]. by intros [= <-].
  - unfold timeout_handler_timeouts_get. destruct (cl_timer c !! s) as [e|]; [|done]. simpl. destruct (e <=? _); [|done]. by intros [= <-].
  - unfold deal_timeouts. destruct (cl_expired c) as [|s l]; [done|]. intros [= <-]. unfold combine_handler_push. simpl.
    destruct (cl_slices c !! s); [|done]. case_decide; [|done].
    eapply frame_refs; [|exact H]. eapply frame_trans; [apply (frame_upd_slice s (set_stage STAGE_PROCESSING))|by constructor].
  - unfold combine_handler_pop_all. destruct (cl_dealing c) as [|s l]; [|done]. by intros [= <-].
  - unfold deal_slices. destruct (cl_dealing c) as [|s l]; [done|]. by intros [= <-].
  - destruct (cl_slices c !! s) as [sl|]; [|done]. destruct (cl_running c !! s) as [pc|]; [|done].
    intros [= <-]. by apply refs_run.
Qed.

Lemma reachable_refs t c : reachable t c → wc_refs c.
Proof.
  induction 1 as [|st c c' Hr IH Hs]; [split; intros; by simplify_eq|].
  eapply step_refs; [done|apply (client_reachable_inv _ _ Hr)|done].
Qed.

(** ** The handler threads end every wait *)

Definition leads c (P : Client → Prop) : Prop := ∃ l c', run_steps l c = Some c' ∧ P c'.
Lemma leads_now c (P : Client → Prop) : P c → leads c P.
Proof. intros H. by exists [], c. Qed.
Lemma leads_step st c c1 P : step st c = Some c1 → leads c1 P → leads c P.
Proof. intros Hs (l & c' & Hl & HP). exists (st :: l), c'. split; [|done]. simpl. by rewrite Hs. Qed.
Lemma leads_bind t c (P Q : Client → Prop) :
  reachable t c → leads c P → (∀ c', reachable t c' → P c' → leads c' Q) → leads c Q.
Proof.
  intros Hr (l & c' & Hl & HP) HQ. destruct (HQ c') as (l2 & c2 & Hl2 & HQ2); [by eapply run_steps_reachable|done|].
  exists (l ++ l2), c2. split; [by eapply run_steps_app|done].
Qed.

(** No call has moved. *)
Definition same_pcs c c' : Prop := ∀ o, op_pc <$> cl_ops c' !! o = op_pc <$> cl_ops c !! o.

Lemma notify_pcs s ws c : same_pcs c (fs_api_notify_waiting_tasks s ws c).
Proof.
  destruct (notify_ops s ws c) as (ops' & -> & Hops). intros o. simpl. rewrite Hops.
  case_decide; [|done]. by destruct (cl_ops c !! o).
Qed.

Definition ran s c c' : Prop :=
  cl_running c' = delete s (cl_running c) ∧ cl_queue c' = cl_queue c ∧ cl_dealing c' = cl_dealing c ∧ same_pcs c c'.

Lemma leads_release t s v1 v2 c :
  reachable t c → cl_running c !! s = Some (RunRelease v1 v2) → leads c (ran s c).
Proof.
  intros Hr Hs. destruct (running_processing c s _ (proj1 (client_reachable_inv _ _ Hr)) Hs) as (sl & Hsl & _).
  eapply (leads_step (StepRun s 0 [])); [simpl; rewrite Hsl; simpl; by rewrite Hs|]. apply leads_now. simpl.
  unfold run_release. pose proof (notify_pcs s (as_waitings sl) c) as Hp.
  destruct (notify_ops s (as_waitings sl) c) as (ops' & Heq & _). rewrite Heq in Hp |- *. by split_and!.
Qed.

Lemma leads_ran t s c : reachable t c → is_Some (cl_running c !! s) → leads c (ran s c).
Proof.
  intros Hr [pc Hs].
  assert (Hstep : ∀ c0 pc0, reachable t c0 → cl_running c0 !! s = Some pc0 →
    ∃ sl, step (StepRun s 0 []) c0 = Some (step_run s sl pc0 0 [] c0)).
  { intros c0 pc0 Hr0 Hs0. destruct (running_processing c0 s _ (proj1 (client_reachable_inv _ _ Hr0)) Hs0) as (sl & Hsl & _).
    exists sl. simpl. rewrite Hsl. simpl. by rewrite Hs0. }
  assert (Hun : ∀ c0, reachable t c0 → cl_running c0 !! s = Some RunUnlink → leads c0 (ran s c0)).
  { intros c0 Hr0 Hs0. destruct (Hstep c0 _ Hr0 Hs0) as (sl & Hst).
    pose proof (reachable_step _ _ _ _ Hr0 Hst) as Hr1. eapply leads_step; [exact Hst|]. revert Hr1.
    set (c1 := step_run s sl RunUnlink 0 [] c0). intros Hr1.
    assert (Hc1 : ∃ v1 v2, cl_running c1 = <[s := RunRelease v1 v2]> (cl_running c0) ∧
      cl_queue c1 = cl_queue c0 ∧ cl_dealing c1 = cl_dealing c0 ∧ cl_ops c1 = cl_ops c0).
    { unfold c1. simpl. unfold run_unlink. destruct (cl_otids c0 !! as_otid sl); [case_decide|]; do 2 eexists; by split_and!. }
    destruct Hc1 as (v1 & v2 & Hru & Hq & Hd & Ho).
    destruct (leads_release t s v1 v2 c1 Hr1) as (l & c' & Hl & H1 & H2 & H3 & H4); [by rewrite Hru, lookup_insert_eq|].
    exists l, c'. split; [done|]. split_and!; [|congruence|congruence|].
    - by rewrite H1, Hru, delete_insert_eq.
    - intros o. by rewrite (H4 o), Ho. }
  destruct pc as [| |v1 v2]; [|by apply Hun|by eapply leads_release].
  destruct (Hstep c _ Hr Hs) as (sl & Hst). pose proof (reachable_step _ _ _ _ Hr Hst) as Hr1.
  eapply leads_step; [exact Hst|]. simpl in *.
  destruct (Hun (run_write s sl 0 [] c) Hr1) as (l & c' & Hl & H1 & H2 & H3 & H4); [simpl; by rewrite lookup_insert_eq|].
  exists l, c'. split; [done|]. split_and!; [|done|done|done]. rewrite H1. simpl. by rewrite delete_insert_eq.
Qed.

Definition drained_from c c' : Prop :=
  cl_running c' = ∅ ∧ cl_queue c' = cl_queue c ∧ cl_dealing c' = cl_dealing c ∧ same_pcs c c'.

Lemma leads_drained t c : reachable t c → leads c (drained_from c).
Proof.
  remember (size (cl_running c)) as n eqn:Hn. revert c Hn. induction n as [|n IH]; intros c Hn Hr.
  - apply leads_now. symmetry in Hn. apply map_size_empty_inv in Hn. by split_and!.
  - destruct (map_choose (cl_running c)) as (s & pc & Hs).
    { intros E. by rewrite E, map_size_empty in Hn. }
    eapply (leads_bind t _ (ran s c)); [done|by eapply leads_ran; eauto|].
    intros c1 Hr1 (H1 & H2 & H3 & H4). destruct (IH c1) as (l & c' & Hl & K1 & K2 & K3 & K4); [|done|].
    { rewrite H1, map_size_delete_Some by eauto. lia. }
    exists l, c'. split; [done|]. split_and!; [done|congruence|congruence|]. intros o. by rewrite K4, H4.
Qed.

(** Nothing is left to do for the handler threads. *)
Definition idle_from c c' : Prop :=
  cl_running c' = ∅ ∧ cl_dealing c' = [] ∧ cl_queue c' = cl_queue c ∧ same_pcs c c'.

Lemma leads_dealt t c : reachable t c → leads c (idle_from c).
Proof.
  remember (cl_dealing c) as l eqn:Hl. revert c Hl. induction l as [|s l IH]; intros c Hl Hr.
  - destruct (leads_drained t c Hr) as (k & c' & Hk & H1 & H2 & H3 & H4).
    exists k, c'. split; [done|]. by split_and!; [|congruence| |].
  - eapply (leads_step StepDealSlices); [simpl; unfold deal_slices; by rewrite <- Hl|]. set (c1 := set_running _ _).
    assert (Hst : step StepDealSlices c = Some c1) by (simpl; unfold deal_slices; by rewrite <- Hl).
    destruct (IH c1) as (k & c' & Hk & H1 & H2 & H3 & H4); [done|by eapply reachable_step|].
    exists k, c'. by split_and!.
Qed.

Definition all_idle c c' : Prop := cl_running c' = ∅ ∧ cl_dealing c' ++ cl_queue c' = [] ∧ same_pcs c c'.

Lemma leads_idle t c : reachable t c → leads c (all_idle c).
Proof.
  intros Hr. eapply (leads_bind t _ (idle_from c)); [done|by eapply leads_dealt|].
  intros c1 Hr1 (H1 & H2 & H3 & H4).
  eapply (leads_step StepPopAll); [simpl; unfold combine_handler_pop_all; by rewrite H2|]. set (c2 := set_queue _ _).
  assert (Hst : step StepPopAll c1 = Some c2) by (simpl; unfold combine_handler_pop_all; by rewrite H2).
  destruct (leads_dealt t c2) as (k & c' & Hk & K1 & K2 & K3 & K4); [by eapply reachable_step|].
  exists k, c'. split; [done|]. split_and!; [done|by rewrite K2, K3|]. intros o. etrans; [apply K4|]. apply H4.
Qed.

(** A call does not wait when the handler threads are idle. *)
Lemma idle_no_waits c o op :
  wc_ok c → cl_running c = ∅ → cl_dealing c ++ cl_queue c = [] → cl_ops c !! o = Some op → op_waits op = [].
Proof.
  intros Hok Hr Hq Hop. destruct (op_waits op) as [|s l] eqn:E; [done|]. exfalso.
  assert (Hw : ∃ op', cl_ops c !! o = Some op' ∧ s ∈ op_waits op') by (exists op; rewrite E; split; [done|by left]).
  apply (ok_waits _ _ _ _ _ _ _ Hok) in Hw as (sl & Hs & Hin).
  pose proof (ok_waitings _ _ _ _ _ _ _ Hok s sl o Hs Hin) as Hst.
  destruct (proj2 (ok_handler _ _ _ _ _ _ _ Hok s)) as [Hx|[? Hx]]; [by exists sl| |].
  - rewrite Hq in Hx. by apply elem_of_nil in Hx.
  - by rewrite Hr in Hx.
Qed.

(** ** Every call can return *)

Definition returns o c : Prop := leads c (λ c', ∃ op r, cl_ops c' !! o = Some op ∧ op_pc op = Returned r).

(** The call [o] is at [pc]. *)
Definition at_pc o c (pc : CallPc) : Prop := ∃ op, cl_ops c !! o = Some op ∧ op_pc op = pc.

Lemma at_pc_upd o (f : APIOp → APIOp) c pc :
  is_Some (cl_ops c !! o) → (∀ op, op_pc (f op) = pc) → at_pc o (upd_op o f c) pc.
Proof. intros [op Hop] Hf. exists (f op). split; [by apply upd_op_lookup|done]. Qed.

Lemma returning_returns o c r : at_pc o c (Returning r) → returns o c.
Proof.
  intros (op & Hop & Hpc). eapply (leads_step (StepCall o true None None 0 [])).
  { simpl. rewrite Hop. simpl. unfold step_call. by rewrite Hpc. }
  apply leads_now. unfold finish_call.
  destruct (at_pc_upd o (set_pc (Returned r)) c (Returned r)) as (op' & H1 & H2); [by eexists|done|].
  exists op', r. by destruct (r =? 0).
Qed.

Lemma server_returns o c : at_pc o c CallServer → returns o c.
Proof.
  intros (op & Hop & Hpc). eapply (leads_step (StepCall o true None None 0 [])).
  { simpl. rewrite Hop. simpl. unfold step_call. by rewrite Hpc. }
  apply (returning_returns _ _ 0). unfold call_server. apply at_pc_upd; [|done].
  destruct (call_bytes o op); simpl; by eexists.
Qed.

Lemma create_returns o c old : at_pc o c (CreateSlice old) → returns o c.
Proof.
  intros (op & Hop & Hpc). destruct (create_slice o op old None c) as [b c1] eqn:Hcr.
  eapply (leads_step (StepCall o true None None 0 [])).
  { simpl. rewrite Hop. simpl. unfold step_call. rewrite Hpc. simpl. by rewrite Hcr. }
  assert (Hc1 : b = false ∧ is_Some (cl_ops c1 !! o)).
  { revert Hcr. unfold create_slice. destruct (_ <=? _); [|destruct (negb _)]; intros [= <- <-];
      (split; [done|]); eexists; by apply upd_op_lookup. }
  destruct Hc1 as [-> Hs]. apply server_returns. by apply at_pc_upd.
Qed.

Lemma wait_ends t o c pc :
  reachable t c → at_pc o c pc →
  leads c (λ c', at_pc o c' pc ∧ ∀ op, cl_ops c' !! o = Some op → op_waits op = []).
Proof.
  intros Hr (op & Hop & Hpc). eapply (leads_bind t _ (all_idle c)); [done|by eapply leads_idle|].
  intros c1 Hr1 (H1 & H2 & H3). apply leads_now. specialize (H3 o). rewrite Hop in H3. split.
  - apply fmap_Some in H3 as (op1 & Hop1 & Heq). exists op1. split; [done|]. by rewrite <- Heq.
  - intros op1 Hop1. eapply idle_no_waits; eauto. apply (client_reachable_inv _ _ Hr1).
Qed.

Lemma after_combine_pc o old b n c :
  is_Some (cl_ops c !! o) →
  ∃ pc, at_pc o (after_combine o old b n c) pc ∧
    (pc = WaitSlice n ∨ pc = CreateSlice old ∨ pc = Returning 0 ∨ pc = CallServer).
Proof.
  intros [op Hop]. unfold after_combine. eexists. split.
  - eexists. split; [by apply upd_op_lookup|done].
  - case_bool_decide; [by left|]. destruct (_ && _); [by right; left|]. destruct (op_combined op); simpl; auto.
Qed.

(** What comes after [check_combine_slice] for the [n]-th time returns. *)
Definition after_ok t o n : Prop := ∀ c old b,
  reachable t (after_combine o old b n c) → is_Some (cl_ops c !! o) → returns o (after_combine o old b n c).

Lemma call_step t o c op c' :
  reachable t c → cl_ops c !! o = Some op → step_call o op true None None 0 [] c = Some c' →
  step (StepCall o true None None 0 []) c = Some c' ∧ reachable t c'.
Proof.
  intros Hr Hop Hs. assert (Hst : step (StepCall o true None None 0 []) c = Some c') by (simpl; by rewrite Hop).
  split; [done|by eapply reachable_step].
Qed.

Lemma fresh_returns t o n c s sl :
  after_ok t o n → reachable t c → cl_slices c !! s = Some sl → at_pc o c (TryCombine n s (as_version sl)) →
  returns o c.
Proof.
  intros Haf Hr Hsl (op & Hop & Hpc).
  destruct (call_step t o c op (locked_combine o op n s (as_version sl) true c)) as [Hst Hr1]; [done|done| |].
  { unfold step_call. by rewrite Hpc. }
  eapply leads_step; [exact Hst|]. revert Hr1. unfold locked_combine. rewrite Hsl, Z.eqb_refl.
  destruct (try_combine_slice o op s sl true c) as [b c1] eqn:Ht. intros Hr1. apply Haf; [done|].
  pose proof (fr_pcs _ _ (frame_try _ _ _ _ _ _ _ _ Ht) o) as Hf. rewrite Hop in Hf.
  apply fmap_Some in Hf as (op1 & Hop1 & _). by exists op1.
Qed.

Lemma version_returns t o n c s : after_ok t o n → reachable t c → at_pc o c (FetchVersion n s) → returns o c.
Proof.
  intros Haf Hr (op & Hop & Hpc).
  pose proof (proj2 (reachable_refs _ _ Hr) o op Hop) as Href. rewrite Hpc in Href. destruct Href as [sl Hsl].
  destruct (call_step t o c op (upd_op o (set_pc (TryCombine n s (as_version sl))) c)) as [Hst Hr1]; [done|done| |].
  { unfold step_call. by rewrite Hpc, Hsl. }
  eapply leads_step; [exact Hst|]. eapply fresh_returns; [done|done|exact Hsl|]. apply at_pc_upd; [by exists op|done].
Qed.

Lemma fetch_returns t o n c : after_ok t o n → reachable t c → at_pc o c (FetchSlice n) → returns o c.
Proof.
  intros Haf Hr (op & Hop & Hpc).
  destruct (call_step t o c op (fetch_slice o op n c)) as [Hst Hr1]; [done|done|unfold step_call; by rewrite Hpc|].
  eapply leads_step; [exact Hst|]. revert Hr1. unfold fetch_slice.
  destruct (cl_otids c !! _ ≫= oe_slice) as [s|]; intros Hr1.
  - eapply version_returns; [done|done|]. apply at_pc_upd; [by exists op|done].
  - apply Haf; [done|]. eexists. by apply upd_op_lookup.
Qed.

Lemma try_returns t o n c s v : after_ok t o n → reachable t c → at_pc o c (TryCombine n s v) → returns o c.
Proof.
  intros Haf Hr (op & Hop & Hpc).
  pose proof (proj2 (reachable_refs _ _ Hr) o op Hop) as Href. rewrite Hpc in Href. destruct Href as [sl Hsl].
  destruct (Z.eqb_spec (as_version sl) v) as [<-|Hv]; [eapply fresh_returns; eauto; by exists op|].
  destruct (call_step t o c op (upd_op o (set_pc (FetchSlice n)) c)) as [Hst Hr1]; [done|done| |].
  { unfold step_call. rewrite Hpc. unfold locked_combine. rewrite Hsl. by rewrite (proj2 (Z.eqb_neq _ _) Hv). }
  eapply leads_step; [exact Hst|]. eapply fetch_returns; [done|done|]. apply at_pc_upd; [by exists op|done].
Qed.

Lemma wait_returns t o n c :
  (n < 3 → after_ok t o (n + 1)) → reachable t c → at_pc o c (WaitSlice n) → returns o c.
Proof.
  intros Haf Hr Hat. eapply (leads_bind t); [done|by apply (wait_ends t o c (WaitSlice n))|].
  intros c1 Hr1 [(op1 & Hop1 & Hpc1) Hw1].
  destruct (call_step t o c1 op1 (upd_op o (set_pc (if n <? 3 then FetchSlice (n + 1) else CallServer)) c1))
    as [Hst Hr2]; [done|done| |].
  { unfold step_call. rewrite Hpc1. by rewrite decide_True by eauto. }
  eapply leads_step; [exact Hst|].
  assert (Hat1 : is_Some (cl_ops c1 !! o)) by by exists op1.
  revert Hr2. destruct (Z.ltb_spec n 3); intros Hr2.
  - apply (fetch_returns t o (n + 1)); [auto|done|]. by apply at_pc_upd.
  - apply server_returns. by apply at_pc_upd.
Qed.

(** The loop of [wcombine_obid_htable_check_combine_slice] ends: it waits at most four times. *)
Lemma after_returns t o : ∀ k n, (Z.to_nat (3 - n) <= k)%nat → after_ok t o n.
Proof.
  induction k as [k IH] using lt_wf_ind. intros n Hk c old b Hr Hs.
  destruct (after_combine_pc o old b n c Hs) as (pc & Hat & [->|[->|[->| ->]]]).
  - eapply (wait_returns t o n); [|done|done]. intros Hn. apply (IH (Z.to_nat (3 - (n + 1)))); lia.
  - by eapply create_returns.
  - by eapply returning_returns.
  - by apply server_returns.
Qed.
Lemma after_ok_all t o n : after_ok t o n.
Proof. by eapply (after_returns t o (Z.to_nat (3 - n))). Qed.

Lemma otid_returns t o c : reachable t c → at_pc o c InsertOtid → returns o c.
Proof.
  intros Hr (op & Hop & Hpc).
  destruct (call_step t o c op (otid_htable_insert o op true c)) as [Hst Hr1]; [done|done|unfold step_call; by rewrite Hpc|].
  eapply leads_step; [exact Hst|]. revert Hr1. unfold otid_htable_insert. simpl.
  set (c1 := set_otids _ c). set (n := match cl_otids c !! _ with Some _ => _ | None => 0 end). intros Hr1.
  assert (Hs : is_Some (cl_ops c1 !! o)) by by exists op.
  destruct (0 <? n).
  - apply (fetch_returns t o 0); [apply after_ok_all|done|by apply at_pc_upd].
  - apply server_returns. by apply at_pc_upd.
Qed.

Lemma conflict_returns t o n c : reachable t c → at_pc o c (WaitConflict n) → returns o c.
Proof.
  intros Hr Hat. eapply (leads_bind t); [done|by apply (wait_ends t o c (WaitConflict n))|].
  intros c1 Hr1 [(op & Hop & Hpc) Hw].
  destruct (call_step t o c1 op (upd_op o (set_pc (after_conflict op n)) c1)) as [Hst Hr2]; [done|done| |].
  { unfold step_call. rewrite Hpc. by rewrite decide_True by eauto. }
  eapply leads_step; [exact Hst|].
  assert (Hat1 : at_pc o (upd_op o (set_pc (after_conflict op n)) c1) (after_conflict op n))
    by (apply at_pc_upd; [by exists op|done]).
  revert Hat1 Hr2. unfold after_conflict.
  destruct (op_call op); try destruct (0 <? n); intros; (by apply server_returns) || by eapply otid_returns.
Qed.

Lemma check_returns t o c : reachable t c → at_pc o c CheckConflict → returns o c.
Proof.
  intros Hr (op & Hop & Hpc).
  destruct (call_step t o c op (check_conflict o op None c)) as [Hst Hr1]; [done|done|unfold step_call; by rewrite Hpc|].
  eapply leads_step; [exact Hst|]. revert Hr1. unfold check_conflict.
  destruct (obid_htable_find_callback _ _ _ _ _ _) as [n c1] eqn:Hf. intros Hr1. apply (conflict_returns t o n); [done|].
  apply at_pc_upd; [|done]. pose proof (fr_pcs _ _ (frame_find _ _ _ _ _ _ _ _ Hf) o) as Hp. rewrite Hop in Hp.
  apply fmap_Some in Hp as (op1 & Hop1 & _). by exists op1.
Qed.

(** C16: no call of the API is ever stuck: from every reachable state there is a way on in which
    it returns, and the waits are ended by the handler threads alone. *)
Theorem calls_return t c o :
  reachable t c → is_Some (cl_ops c !! o) →
  leads c (λ c', all_idle c c' ∧ ∀ o' op, cl_ops c' !! o' = Some op → op_waits op = []) ∧
  leads c (λ c', ∃ op r, cl_ops c' !! o = Some op ∧ op_pc op = Returned r).
Proof.
  intros Hr [op Hop]. split.
  { eapply (leads_bind t _ (all_idle c)); [done|by eapply leads_idle|].
    intros c1 Hr1 Hid. apply leads_now. split; [done|]. destruct Hid as (H1 & H2 & _). intros o' op' Hop'.
    eapply idle_no_waits; eauto. apply (client_reachable_inv _ _ Hr1). }
  change (returns o c). assert (Hat : at_pc o c (op_pc op)) by by exists op.
  destruct (op_pc op) as [|n| |n|n s|n s v|old|n| |r|r] eqn:Hpc.
  - by eapply check_returns.
  - by eapply conflict_returns.
  - by eapply otid_returns.
  - eapply fetch_returns; eauto using after_ok_all.
  - eapply version_returns; eauto using after_ok_all.
  - eapply try_returns; eauto using after_ok_all.
  - by eapply create_returns.
  - eapply wait_returns; eauto using after_ok_all.
  - by apply server_returns.
  - by eapply returning_returns.
  - apply leads_now. by exists op, r.
Qed.

(** ** Data is not kept for too long *)

Section Timer.
Hypothesis precision_pos : 0 < precision_ms.
Hypothesis max_wait_range : 0 <= max_wait_time_ms < 2 ^ 31.

(** The latest expiry of a slice. *)
Definition deadline sl : Z := Z.quot (as_start_time sl + max_wait_time_ms) precision_ms.

Definition timed t c : Prop :=
  t <= cl_time c ∧
  ∀ s sl, cl_slices c !! s = Some sl → as_stage sl = STAGE_MERGING →
    t <= as_start_time sl <= cl_time c ∧
    ((∃ e, cl_timer c !! s = Some e ∧ e <= deadline sl) ∨ s ∈ cl_expired c).

(** No slice starts merging, and those that go on keep their time. *)
Record timer_frame c c' : Prop := {
  tf_time : cl_time c' = cl_time c;
  tf_expired : cl_expired c' = cl_expired c;
  tf_merging s sl' : cl_slices c' !! s = Some sl' → as_stage sl' = STAGE_MERGING →
    ∃ sl, cl_slices c !! s = Some sl ∧ as_stage sl = STAGE_MERGING ∧
      as_start_time sl = as_start_time sl' ∧ cl_timer c' !! s = cl_timer c !! s;
}.
Lemma timer_frame_refl c : timer_frame c c.
Proof. constructor; [done|done|]. intros s sl ? ?. by exists sl. Qed.
Lemma timer_frame_trans c1 c2 c3 : timer_frame c1 c2 → timer_frame c2 c3 → timer_frame c1 c3.
Proof.
  intros [H1 H2 H3] [K1 K2 K3]. constructor; [congruence|congruence|]. intros s sl Hs Hm.
  destruct (K3 s sl Hs Hm) as (sl2 & Hs2 & Hm2 & Hst2 & Ht2).
  destruct (H3 s sl2 Hs2 Hm2) as (sl1 & Hs1 & Hm1 & Hst1 & Ht1). exists sl1. split_and!; [done|done|congruence|congruence].
Qed.
Lemma timer_frame_timed t c c' : timer_frame c c' → timed t c → timed t c'.
Proof.
  intros [H1 H2 H3] [K1 K2]. split; [by rewrite H1|]. intros s sl Hs Hm.
  destruct (H3 s sl Hs Hm) as (sl0 & Hs0 & Hm0 & Hst & Ht). destruct (K2 s sl0 Hs0 Hm0) as [Hr Hd].
  unfold deadline in *. rewrite H1, H2, Ht, <- Hst. done.
Qed.

Lemma tf_same c c' :
  cl_slices c' = cl_slices c → cl_timer c' = cl_timer c → cl_expired c' = cl_expired c → cl_time c' = cl_time c →
  timer_frame c c'.
Proof. intros H1 H2 H3 H4. constructor; [done|done|]. intros s sl. rewrite H1, H2. eauto. Qed.

(** A change of a slice that does not leave it merging, or keeps stage and start. *)
Lemma tf_upd_slice s (f : FSAPISliceEntry → FSAPISliceEntry) timer c :
  (∀ s', s' ≠ s → timer !! s' = cl_timer c !! s') →
  (∀ sl, cl_slices c !! s = Some sl → as_stage (f sl) = STAGE_MERGING →
     as_stage sl = STAGE_MERGING ∧ as_start_time sl = as_start_time (f sl) ∧ timer !! s = cl_timer c !! s) →
  timer_frame c (set_timer timer (upd_slice s f c)).
Proof.
  intros Ht Hf. constructor; [done|done|]. intros s' sl'. unfold upd_slice. simpl.
  destruct (decide (s' = s)) as [->|Hne].
  - rewrite lookup_alter_eq. intros (sl & Hs & ->)%fmap_Some Hm. exists sl. destruct (Hf sl Hs Hm) as (? & ? & ?). done.
  - rewrite lookup_alter_ne by done. intros Hs Hm. exists sl'. rewrite Ht by done. done.
Qed.
Lemma tf_push s c : timer_frame c (combine_handler_push_within_lock s c).
Proof.
  apply (timer_frame_trans _ (set_timer (delete s (cl_timer c)) (upd_slice s (set_stage STAGE_PROCESSING) c))).
  - apply tf_upd_slice; [|done]. intros s' Hne. by rewrite lookup_delete_ne.
  - by apply tf_same.
Qed.
Lemma tf_wait o s c : timer_frame c (fs_api_add_to_slice_waiting_list o s c).
Proof.
  set (c1 := upd_op o (λ op, set_waits (op_waits op ++ [s]) op) c).
  apply (timer_frame_trans _ c1); [by apply tf_same|].
  pose proof (tf_upd_slice s (λ sl, set_waitings (o :: as_waitings sl) sl) (cl_timer c1) c1) as Hu.
  by apply Hu.
Qed.

Lemma tf_find o k l : ∀ mem n c n' c', obid_htable_find_callback o k mem l n c = (n', c') → timer_frame c c'.
Proof.
  induction l as [|s l IH]; intros mem n c n' c'; simpl; [intros [= <- <-]; apply timer_frame_refl|].
  destruct (cl_slices c !! s) as [sl|]; [|intros [= <- <-]; apply timer_frame_refl].
  destruct (_ <=? _); [intros [= <- <-]; apply timer_frame_refl|].
  destruct (_ && _); [|apply IH].
  set (c1 := if decide (as_stage sl = STAGE_MERGING) then _ else c).
  assert (H1 : timer_frame c c1) by (unfold c1; case_decide; [apply tf_push|apply timer_frame_refl]).
  destruct (deal_confilct_slice o s mem c1) as [r c2] eqn:Hd.
  assert (H2 : timer_frame c1 c2).
  { unfold deal_confilct_slice in Hd. destruct mem as [[]|]; injection Hd as <- <-; [by apply tf_same| |]; apply tf_wait. }
  pose proof (timer_frame_trans _ _ _ H1 H2) as H3. destruct (r =? 0).
  - intros Heq. eapply timer_frame_trans; [exact H3|]. by eapply IH.
  - by intros [= <- <-].
Qed.

Lemma tf_with_new o op s sl j mem c b c' : combine_with_new o op s sl j mem c = (b, c') → timer_frame c c'.
Proof.
  unfold combine_with_new. destruct (negb _); [intros [= <- <-]; by apply tf_same|].
  assert (H1 : ∀ b' r, timer_frame c (upd_op o (set_combined b' r) c)) by (intros; by apply tf_same).
  destruct (_ && _); intros [= <- <-]; [|apply H1].
  eapply timer_frame_trans; [apply H1|]. destruct mem; [apply tf_wait|by apply tf_same].
Qed.

(** The time a slice is given in [do_combine_slice] or at its creation. *)
Lemma expires_bound c (cur rest start : Z) :
  0 <= cl_time c → 0 <= rest → cl_time c + rest <= start + max_wait_time_ms →
  TIMEOUT_TO_EXPIRES c (Z.min cur rest) <= Z.quot (start + max_wait_time_ms) precision_ms.
Proof.
  intros Ht Hr Hle. unfold TIMEOUT_TO_EXPIRES, current_time_ticks.
  assert (Hq : Z.quot (Z.min cur rest) precision_ms <= Z.quot rest precision_ms) by (apply Z.quot_le_mono; lia).
  rewrite (Z.quot_div_nonneg (cl_time c)), (Z.quot_div_nonneg (start + _)) by lia.
  rewrite (Z.quot_div_nonneg rest) in Hq by lia.
  assert (Hd : cl_time c / precision_ms + rest / precision_ms <= (cl_time c + rest) / precision_ms).
  { apply Z.div_le_lower_bound; [done|]. pose proof (Z.mul_div_le (cl_time c) precision_ms precision_pos).
    pose proof (Z.mul_div_le rest precision_ms precision_pos). lia. }
  pose proof (Z.div_le_mono (cl_time c + rest) (start + max_wait_time_ms) precision_ms). lia.
Qed.

Lemma timed_modify t c o op s sl :
  0 <= t → cl_time c < t + 2 ^ 31 → timed t c → cl_slices c !! s = Some sl → as_stage sl = STAGE_MERGING →
  timed t (do_combine_slice o op s sl c).
Proof.
  intros Ht Hnow [H1 H2] Hs Hm. unfold do_combine_slice.
  assert (Hp : ∀ c0, timed t c0 → timed t (combine_handler_push_within_lock s c0)).
  { intros c0 Hc0. eapply timer_frame_timed; [apply tf_push|done]. }
  destruct (negb _).
  { apply (timer_frame_timed t (combine_handler_push_within_lock s c)); [by apply tf_same|by apply Hp]. }
  set (c1 := upd_slice s (merge_data (wbuffer_bytes o op) (klen (op_key op))) c).
  set (c2 := upd_op o (set_combined true (op_reason op)) c1).
  assert (Hc2 : timed t c2).
  { apply (timer_frame_timed t c); [|done]. apply (timer_frame_trans _ c1); [|by apply tf_same].
    apply (tf_upd_slice s _ (cl_timer c)); [done|]. intros sl0 ? ?. done. }
  destruct (_ <? 4096); [by apply Hp|].
  set (remain := cast32 (as_start_time sl + max_wait_time_ms - cl_time c2)).
  destruct (Z.leb_spec precision_ms remain) as [Hrem|]; [|done].
  destruct (H2 s sl Hs Hm) as [Hst _].
  assert (Hre : remain = as_start_time sl + max_wait_time_ms - cl_time c).
  { unfold remain. simpl. apply cast32_id. unfold in_int32. lia. }
  destruct Hc2 as [K1 K2]. split; [done|]. intros s' sl' Hs' Hm'.
  destruct (K2 s' sl' Hs' Hm') as [Hr Hd]. split; [done|]. simpl.
  destruct Hd as [(e & He & Hle)|Hx]; [left|by right].
  destruct (decide (s' = s)) as [->|Hne]; [|exists e; by rewrite lookup_alter_ne].
  rewrite lookup_alter_eq. change (cl_timer c2) with (cl_timer c) in He. rewrite He. simpl. eexists. split; [done|].
  assert (Hsl' : as_start_time sl' = as_start_time sl).
  { simpl in Hs'. rewrite lookup_alter_eq, Hs in Hs'. simpl in Hs'. by simplify_eq. }
  unfold deadline. rewrite Hsl'. apply expires_bound; simpl; lia.
Qed.

Lemma timed_try t o op s sl mem c b c' :
  0 <= t → cl_time c < t + 2 ^ 31 → timed t c → cl_slices c !! s = Some sl →
  try_combine_slice o op s sl mem c = (b, c') → timed t c'.
Proof.
  intros Ht Hnow H Hs. unfold try_combine_slice.
  destruct (negb _); [intros [= <- <-]; apply (timer_frame_timed t c); [by apply tf_same|done]|].
  assert (Hp : ∀ sl' j, combine_with_new o op s sl' j mem (combine_handler_push_within_lock s c) = (b, c') → timed t c').
  { intros sl' j Hw. eapply timer_frame_timed; [|exact H]. eapply timer_frame_trans; [apply (tf_push s)|by eapply tf_with_new]. }
  assert (Hn : ∀ j, combine_with_new o op s sl j mem c = (b, c') → timed t c').
  { intros j Hw. eapply timer_frame_timed; [by eapply tf_with_new|done]. }
  destruct (_ && _); case_bool_decide as Hm; try (by apply Hp); try (by apply Hn).
  destruct (_ <? _); [by apply Hp|]. intros [= <- <-]. by apply timed_modify.
Qed.

Lemma timed_insert t o op s old n c :
  0 <= t → timed t c → timed t (obid_htable_insert_at o op s old n c).
Proof.
  intros Ht [H1 H2]. unfold obid_htable_insert_at.
  set (c1 := timeout_handler_add _ _ _).
  assert (Hc1 : timed t c1).
  { split; [done|]. intros s' sl'. unfold c1, upd_slice. simpl. destruct (decide (s' = s)) as [->|Hne].
    - rewrite lookup_alter_eq, lookup_insert_eq. intros (sl & Hs & ->)%fmap_Some _. simpl.
      split; [lia|]. left. eexists. split; [done|]. apply expires_bound; simpl; lia.
    - rewrite lookup_alter_ne, lookup_insert_ne by done. apply H2. }
  clearbody c1.
  assert (Hp : timed t (combine_handler_push_within_lock s c1)) by (eapply timer_frame_timed; [apply tf_push|done]).
  destruct (cl_otids c1 !! _); [case_decide|]; [|done|done].
  apply (timer_frame_timed t c1); [by apply tf_same|done].
Qed.

Lemma timed_call t o op mem avail slot r mask c c' :
  0 <= t → cl_time c < t + 2 ^ 31 → timed t c → step_call o op mem avail slot r mask c = Some c' → timed t c'.
Proof.
  intros Ht Hnow H. assert (Hsame : ∀ c1, cl_slices c1 = cl_slices c → cl_timer c1 = cl_timer c →
    cl_expired c1 = cl_expired c → cl_time c1 = cl_time c → timed t c1).
  { intros c1 K1 K2 K3 K4. eapply timer_frame_timed; [|exact H]. by apply tf_same. }
  assert (Hafter : ∀ old b n c1, timed t c1 → timed t (after_combine o old b n c1)).
  { intros old b n c1 Hc1. eapply timer_frame_timed; [|exact Hc1]. by apply tf_same. }
  unfold step_call. destruct (op_pc op) as [|n| |n|n s|n s v|old|n| |x|x].
  - intros [= <-]. unfold check_conflict. destruct (obid_htable_find_callback _ _ _ _ _ _) as [n c1] eqn:Hf.
    eapply timer_frame_timed; [|exact H]. eapply timer_frame_trans; [by eapply tf_find|by apply tf_same].
  - case_decide; [|done]. intros [= <-]. by apply Hsame.
  - intros [= <-]. unfold otid_htable_insert. destruct (negb mem && _); by apply Hsame.
  - intros [= <-]. unfold fetch_slice. destruct (cl_otids c !! _ ≫= oe_slice); [by apply Hsame|].
    apply Hafter. by apply Hsame.
  - destruct (cl_slices c !! s); [|done]. intros [= <-]. by apply Hsame.
  - intros [= <-]. unfold locked_combine. destruct (cl_slices c !! s) as [sl|] eqn:Hs; [|done].
    destruct (_ =? v); [|by apply Hsame]. destruct (try_combine_slice _ _ _ _ _ _) as [b c1] eqn:Htr.
    apply Hafter. by eapply timed_try.
  - destruct (slot_ok op slot c); [|done]. destruct (create_slice _ _ _ _ _) as [b c1] eqn:Hcr. intros [= <-].
    assert (Hc1 : timed t c1).
    { revert Hcr. unfold create_slice. destruct (_ <=? _); [|destruct (negb _)]; [by intros [= <- <-]; apply Hsame..|].
      destruct slot as [s|]; [|by intros [= <- <-]; apply Hsame].
      destruct (obid_htable_find_position _ _ _ _); [|by intros [= <- <-]; apply Hsame].
      intros [= <- <-]. apply timed_insert; [done|by apply Hsame]. }
    eapply timer_frame_timed; [|exact Hc1]. by apply tf_same.
  - case_decide; [|done]. intros [= <-]. by apply Hsame.
  - intros [= <-]. unfold call_server. destruct (call_bytes o op); by apply Hsame.
  - intros [= <-]. unfold finish_call. destruct (x =? 0); by apply Hsame.
  - done.
Qed.

Lemma insert_time o op s old n c : cl_time (obid_htable_insert_at o op s old n c) = cl_time c.
Proof. unfold obid_htable_insert_at. destruct (cl_otids _ !! _); [case_decide|]; done. Qed.
Lemma try_time o op s sl mem c b c' : try_combine_slice o op s sl mem c = (b, c') → cl_time c' = cl_time c.
Proof.
  assert (Hw : ∀ sl' j c0, combine_with_new o op s sl' j mem c0 = (b, c') → cl_time c' = cl_time c0).
  { intros sl' j c0 Hw. by apply tf_with_new, tf_time in Hw. }
  unfold try_combine_slice. destruct (negb _); [by intros [= <- <-]|].
  destruct (_ && _); case_bool_decide; try (by intros ->%Hw); try (by apply Hw).
  destruct (_ <? _); [by intros ->%Hw|]. intros [= <- <-]. unfold do_combine_slice.
  destruct (negb _); [done|]. destruct (_ <? 4096); [done|]. by destruct (_ <=? _).
Qed.
Lemma call_time o op mem avail slot r mask c c' :
  step_call o op mem avail slot r mask c = Some c' → cl_time c' = cl_time c.
Proof.
  unfold step_call. destruct (op_pc op) as [|n| |n|n s|n s v|old|n| |x|x].
  - intros [= <-]. unfold check_conflict. destruct (obid_htable_find_callback _ _ _ _ _ _) as [n c1] eqn:Hf.
    by apply tf_find, tf_time in Hf.
  - case_decide; [|done]. by intros [= <-].
  - intros [= <-]. unfold otid_htable_insert. by destruct (negb mem && _).
  - intros [= <-]. unfold fetch_slice. by destruct (cl_otids c !! _ ≫= oe_slice).
  - destruct (cl_slices c !! s); [|done]. by intros [= <-].
  - intros [= <-]. unfold locked_combine. destruct (cl_slices c !! s) as [sl|]; [|done].
    destruct (_ =? v); [|done]. destruct (try_combine_slice _ _ _ _ _ _) as [b c1] eqn:Htr. by apply try_time in Htr.
  - destruct (slot_ok op slot c); [|done]. destruct (create_slice _ _ _ _ _) as [b c1] eqn:Hcr. intros [= <-].
    simpl. revert Hcr. unfold create_slice. destruct (_ <=? _); [|destruct (negb _)]; [by intros [= <- <-]..|].
    destruct slot as [s|]; [|by intros [= <- <-]].
    destruct (obid_htable_find_position _ _ _ _); intros [= <- <-]; [|done]. by rewrite insert_time.
  - case_decide; [|done]. by intros [= <-].
  - intros [= <-]. unfold call_server. by destruct (call_bytes o op).
  - intros [= <-]. unfold finish_call. by destruct (x =? 0).
  - done.
Qed.

Lemma timed_run t s sl pc r mask c : timed t c → timed t (step_run s sl pc r mask c).
Proof.
  intros H. destruct pc as [| |v1 v2]; simpl; (eapply timer_frame_timed; [|exact H]).
  - unfold run_write. destruct (r =? 0); by apply tf_same.
  - unfold run_unlink. destruct (cl_otids c !! as_otid sl); [case_decide|]; by apply tf_same.
  - unfold run_release. destruct (notify_ops s (as_waitings sl) c) as (ops' & -> & _).
    set (f := λ sl0 : FSAPISliceEntry, _ : FSAPISliceEntry). set (c1 := set_ops ops' c).
    apply (timer_frame_trans _ c1); [by apply tf_same|].
    apply (timer_frame_trans _ (set_timer (cl_timer c1) (upd_slice s f c1))); [by apply tf_upd_slice|by apply tf_same].
Qed.

Lemma timed_step t st c c' :
  0 <= t → cl_time c' < t + 2 ^ 31 → (cl_time c < t + 2 ^ 31 → timed t c) → step st c = Some c' → timed t c'.
Proof.
  intros Ht Hnow Hc. assert (Hsame : cl_time c < t + 2 ^ 31 → ∀ c1, cl_slices c1 = cl_slices c → cl_timer c1 = cl_timer c →
    cl_expired c1 = cl_expired c → cl_time c1 = cl_time c → timed t c1).
  { intros Hx c1 K1 K2 K3 K4. eapply timer_frame_timed; [|by apply Hc]. by apply tf_same. }
  destruct st as [o call tid k|o mem avail slot r mask|s a|now|s| | | |s r mask]; simpl.
  - unfold start_call. destruct (_ && _); [|done]. intros [= <-]. by apply Hsame.
  - destruct (cl_ops c !! o) as [op|]; [|done]. simpl. intros Hs.
    assert (Hnow' : cl_time c < t + 2 ^ 31) by (by rewrite <- (call_time _ _ _ _ _ _ _ _ _ Hs)).
    eapply timed_call; eauto.
  - unfold wcmb_slice_entry_alloc_init. case_bool_decide as Hs; [|done]. simpl. intros [= <-]. simpl in Hnow.
    destruct (Hc Hnow) as [H1 H2]. split; [done|]. intros s' sl'. simpl. destruct (decide (s' = s)) as [->|].
    + rewrite lookup_insert_eq. by intros [= <-].
    + rewrite lookup_insert_ne by done. apply H2.
  - destruct (Z.leb_spec (cl_time c) now); [|done]. intros [= <-]. simpl in Hnow.
    destruct (Hc ltac:(lia)) as [H1 H2]. split; [simpl; lia|]. intros s sl Hs Hm. simpl in *.
    destruct (H2 s sl Hs Hm) as [? ?]. split; [lia|done].
  - unfold timeout_handler_timeouts_get. destruct (cl_timer c !! s) as [e|]; [|done]. simpl. destruct (e <=? _); [|done]. intros [= <-]. simpl in Hnow.
    destruct (Hc Hnow) as [H1 H2]. split; [done|]. intros s' sl' Hs' Hm. simpl in *.
    destruct (H2 s' sl' Hs' Hm) as [Hr Hd]. split; [done|]. destruct (decide (s' = s)) as [->|].
    + right. apply elem_of_app. right. by left.
    + destruct Hd as [(e' & He' & Hle)|Hx]; [left|right; apply elem_of_app; by left].
      exists e'. by rewrite lookup_delete_ne.
  - unfold deal_timeouts. destruct (cl_expired c) as [|s l] eqn:He; [done|]. intros [= <-]. unfold combine_handler_push in *. simpl in *.
    assert (Hpop : cl_time c < t + 2 ^ 31 → ∀ c1, cl_time c1 = cl_time c → cl_timer c1 = cl_timer c → cl_expired c1 = l →
      (∀ s' sl', cl_slices c1 !! s' = Some sl' → as_stage sl' = STAGE_MERGING → s' ≠ s ∧ cl_slices c !! s' = Some sl') →
      timed t c1).
    { intros Hx c1 K1 K2 K3 K4. destruct (Hc Hx) as [H1 H2]. split; [by rewrite K1|]. intros s' sl' Hs' Hm.
      destruct (K4 s' sl' Hs' Hm) as [Hne Hs0]. destruct (H2 s' sl' Hs0 Hm) as [Hr Hd]. rewrite K1, K2, K3.
      split; [done|]. rewrite He in Hd. destruct Hd as [?|[?|?]%elem_of_cons]; [by left|done|by right]. }
    destruct (cl_slices c !! s) as [sl|] eqn:Hs; [case_decide as Hm|].
    + apply Hpop; [done|done|done|done|]. intros s' sl'. unfold upd_slice. simpl. destruct (decide (s' = s)) as [->|].
      * rewrite lookup_alter_eq, Hs. by intros [= <-].
      * by rewrite lookup_alter_ne.
    + apply Hpop; [done|done|done|done|]. simpl. intros s' sl' Hs' Hm'. split; [|done]. intros ->. congruence.
    + apply Hpop; [done|done|done|done|]. simpl. intros s' sl' Hs' Hm'. split; [|done]. intros ->. congruence.
  - unfold combine_handler_pop_all. destruct (cl_dealing c) as [|s l]; [|done]. intros [= <-]. by apply Hsame.
  - unfold deal_slices. destruct (cl_dealing c) as [|s l]; [done|]. intros [= <-]. by apply Hsame.
  - destruct (cl_slices c !! s) as [sl|]; [|done]. destruct (cl_running c !! s) as [pc|]; [|done]. simpl.
    intros [= <-]. apply timed_run, Hc. destruct pc; simpl in Hnow.
    + unfold run_write in Hnow. by destruct (r =? 0).
    + unfold run_unlink in Hnow. destruct (cl_otids c !! as_otid sl); [case_decide|]; done.
    + unfold run_release in Hnow. by destruct (notify_ops s (as_waitings sl) c) as (ops' & Heq & _); rewrite Heq in Hnow.
Qed.

(** C31: a slice that takes data lies in the timer and expires at the latest when [max_wait_time_ms]
    have passed since it was created, whatever is combined into it and however often its timer
    is set anew; at that time the timer thread finds it due. Otherwise the timer thread has it
    already. ([remain_timeout] is an [int]: the clock must not have run 2^31 ms.) *)
Theorem merging_expires t c s sl :
  0 <= t → reachable t c → cl_time c < t + 2 ^ 31 → cl_slices c !! s = Some sl → as_stage sl = STAGE_MERGING →
  s ∈ cl_expired c ∨
  ∃ e, cl_timer c !! s = Some e ∧ e <= deadline sl ∧
    (as_start_time sl + max_wait_time_ms <= cl_time c → is_Some (step (StepTimeout s) c)).
Proof.
  intros Ht Hr Hnow Hs Hm.
  assert (H : cl_time c < t + 2 ^ 31 → timed t c).
  { clear Hnow Hs Hm. induction Hr as [|st c c' Hr IH Hst]; intros Hx; [split; [done|]; intros; by simplify_eq|].
    by eapply timed_step. }
  destruct (H Hnow) as [_ H2]. destruct (H2 s sl Hs Hm) as [Hst [(e & He & Hle)|?]]; [right|by left].
  exists e. split_and!; [done|done|]. intros Hdue. simpl. unfold timeout_handler_timeouts_get. rewrite He. simpl.
  rewrite (proj2 (Z.leb_le _ _)); [by eexists|]. unfold current_time_ticks, deadline in *.
  etrans; [exact Hle|]. apply Z.quot_le_mono; [done|done].
Qed.
End Timer.
End Live.
