(* ===== verification/WCombineDemo.v ===== *)
(** * A client that combines three writes

    A thread writes 4 bytes three times; the second write opens a slice, the third is put
    behind it, and another thread reads all 12 bytes. *)
From S2P Require Import Prelude Types WriteCombine WCombineThms WCombineMain WCombineSteps WCombineLive.

Module CombineDemo.
#[export] Instance demo_config : WriteCombineConfig := {|
  buffer_size := 65536; min_wait_time_ms := 20; max_wait_time_ms := 1000;
  skip_combine_on_slice_size := 65536; skip_combine_on_last_merged_slices := 1;
  shared_allocator_count := 1; precision_ms := 10 |}.

Definition key (offset length : Z) : FSBlockSliceKeyInfo :=
  mkBlockSliceKey (mkBlockKey 9 0 9) (mkSliceSize offset length).
(** A call goes one step on; memory is there, slice 7 is free, the servers answer 0. *)
Definition go (o : Z) : Step := StepCall o true None (Some 7) 0 [].
Definition write (o offset : Z) (data : list Z) (n : nat) : list Step :=
  StepStart o (SliceWrite data) 5 (key offset (Z.of_nat (length data))) :: replicate n (go o).

(** Two writes that have returned; the second is in slice 7. *)
Definition two_writes : list Step := StepAllocInit 7 0 :: write 1 0 [1; 2; 3; 4] 5 ++ write 2 4 [5; 6; 7; 8] 6.
Definition three_writes : list Step := two_writes ++ write 3 8 [9; 10; 11; 12] 7.
(** The reader finds the conflict and waits; the handler threads write the slice; it reads. *)
Definition read_waits : list Step := [StepStart 4 SliceRead 6 (key 0 12); go 4].
Definition handler : list Step := [StepPopAll; StepDealSlices; StepRun 7 0 []; StepRun 7 0 []; StepRun 7 0 []].
Definition whole_run : list Step := three_writes ++ read_waits ++ handler ++ [go 4; go 4; go 4].

(** Slice 7 waits for the handler thread; a fourth write that would have to wait for it gets no
    memory for its waiting task. *)
Definition no_memory : Step := StepCall 5 false None (Some 7) 0 [].
Definition lost_run : list Step :=
  three_writes ++ read_waits ++ StepStart 5 (SliceWrite [13; 14; 15; 16]) 5 (key 12 4) ::
  replicate 5 (go 5) ++ [no_memory; go 5] ++ handler ++ [go 4; go 4; go 4].

Definition state (l : list Step) : Client := default (client_init 0) (run_steps l (client_init 100000)).
Definition runs (l : list Step) : bool :=
  match run_steps l (client_init 100000) with Some _ => true | None => false end.

Lemma state_reachable l : runs l = true → reachable 100000 (state l).
Proof.
  unfold runs, state. destruct (run_steps l _) as [c|] eqn:E; [|done]. intros _.
  eapply run_steps_reachable; [apply reachable_init|exact E].
Qed.

Definition op_of (o : Z) (c : Client) : APIOp :=
  default (mkOp SliceRead 0 (key 0 0) CheckConflict false 0 0 [] [] ∅) (cl_ops c !! o).

(** Two threads write the same 4 bytes at the same time: both find no conflict; then one opens
    slice 9 for them, and the other puts them behind the data of slice 7. The list of a block is
    sorted, but its slices can overlap. *)
Definition go9 (o : Z) : Step := StepCall o true None (Some 9) 0 [].
Definition write6 (o offset : Z) (data : list Z) : Step :=
  StepStart o (SliceWrite data) 6 (key offset (Z.of_nat (length data))).
Definition overlapping_run : list Step :=
  StepAllocInit 9 0 :: write6 10 4 [5; 5; 5; 5] :: replicate 5 (go 10) ++ two_writes ++
  [write6 11 8 [6; 6; 6; 6]; go9 11] ++ write 3 8 [9; 10; 11; 12] 1 ++
  replicate 5 (go9 11) ++ replicate 6 (go 3).
Example slices_overlap : runs overlapping_run = true ∧
  map (λ s, (as_stage <$> cl_slices (state overlapping_run) !! s,
             (λ sl, (koff (as_key sl), kend (as_key sl))) <$> cl_slices (state overlapping_run) !! s))
    (block_slices (state overlapping_run) (block_id (key 8 4))) =
  [(Some STAGE_MERGING, Some (4, 12)); (Some STAGE_MERGING, Some (8, 12))].
Proof. vm_compute. done. Qed.

(** The read returns the bytes of all three writes. *)
Lemma reads_are_regular_witness :
  op_read (op_of 4 (state whole_run)) =
    [(1, 1); (2, 1); (3, 1); (4, 1); (5, 2); (6, 2); (7, 2); (8, 2); (9, 3); (10, 3); (11, 3); (12, 3)] ∧
  regular (cl_ops (state whole_run)) 4 (op_of 4 (state whole_run)).
Proof.
  split; [vm_compute; reflexivity|].
  apply (reads_are_regular 100000 (state whole_run) 4 (op_of 4 (state whole_run))).
  - apply state_reachable. vm_compute. reflexivity.
  - vm_compute. reflexivity.
  - vm_compute. reflexivity.
  - vm_compute. reflexivity.
  - right. vm_compute. reflexivity.
Defined.

Lemma reachable_client_ok_witness : cl_waiting_slice_count (state (three_writes ++ read_waits)) = 1
  ∧ wc_ok (state (three_writes ++ read_waits)).
Proof.
  split; [vm_compute; reflexivity|]. apply (reachable_client_ok 100000). apply state_reachable.
  vm_compute. reflexivity.
Defined.

(** The reader waits for slice 7, and can return all the same. *)
Lemma calls_return_witness :
  op_waits (op_of 4 (state (three_writes ++ read_waits))) = [7] ∧
  leads (state (three_writes ++ read_waits))
    (λ c', ∃ op r, cl_ops c' !! 4 = Some op ∧ op_pc op = Returned r).
Proof.
  split; [vm_compute; reflexivity|].
  apply (calls_return 100000 (state (three_writes ++ read_waits)) 4).
  - apply state_reachable. vm_compute. reflexivity.
  - exists (op_of 4 (state (three_writes ++ read_waits))). vm_compute. reflexivity.
Defined.

(** The third write was the second in a row: it sets the timer to 40 ms. *)
Lemma merging_expires_witness : cl_timer (state three_writes) !! 7 = Some 10004 ∧
  (7 ∈ cl_expired (state three_writes) ∨
   ∃ e, cl_timer (state three_writes) !! 7 = Some e ∧ e <= 10100 ∧
     (101000 <= cl_time (state three_writes) → is_Some (step (StepTimeout 7) (state three_writes)))).
Proof.
  split; [vm_compute; reflexivity|].
  refine (merging_expires _ _ 100000 (state three_writes) 7
    (default (mkAPISlice (0, 0) 0 STAGE_NONE 0 0 (key 0 0) [] [] 0) (cl_slices (state three_writes) !! 7)) _ _ _ _ _).
  - done.
  - done.
  - lia.
  - apply state_reachable. vm_compute. reflexivity.
  - vm_compute. reflexivity.
  - vm_compute. reflexivity.
  - vm_compute. reflexivity.
Defined.

(** That write returns 0, although nothing has its data: nothing merges or waits any more, and
    the servers still hold the zeros. *)
Example lost_write : runs lost_run = true ∧ op_pc (op_of 5 (state lost_run)) = Returned 0 ∧
  cl_fault (state lost_run) = true ∧ cl_blocks (state lost_run) !! block_id (key 12 4) = Some [] ∧
  db_read (key 12 4) (state lost_run) = [(0, 0); (0, 0); (0, 0); (0, 0)].
Proof. vm_compute. done. Qed.
End CombineDemo.
