(* ===== verification/BinlogDedup.v ===== *)
(** * Compacting the binlog a recovering slave fetched

    [src/server/recovery/binlog_dedup.c]: the fetched replica binlog is applied to two fresh
    hash tables of the object block index, one of what it creates and one of what it removes;
    what is left in them is written out as a shorter binlog, which is then replayed. *)
From stdpp Require Import sorting.
From S2P Require Import Prelude Types Skiplist ObSlices ObIndex Binlog.

(** [dedup_ctx->rstat]. *)
Record RecordStat := mkRecordStat {
  create_total : Z;
  create_success : Z;
  remove_total : Z;
  remove_success : Z;
  remove_ignore : Z;
  partial_deletes : Z;
}.
Definition count_create (result : Z) (s : RecordStat) : RecordStat :=
  mkRecordStat (create_total s + 1) (if result =? 0 then create_success s + 1 else create_success s)
    (remove_total s) (remove_success s) (remove_ignore s) (partial_deletes s).
Definition count_partial (s : RecordStat) : RecordStat :=
  mkRecordStat (create_total s) (create_success s) (remove_total s) (remove_success s) (remove_ignore s)
    (partial_deletes s + 1).
Definition count_remove (result : Z) (s : RecordStat) : RecordStat :=
  mkRecordStat (create_total s) (create_success s) (remove_total s + 1)
    (if result =? 0 then remove_success s + 1 else remove_success s)
    (if result =? ENOENT then remove_ignore s + 1 else remove_ignore s) (partial_deletes s).

(** [BinlogDedupContext], while the records are read; [dd_key] is the key of
    [dedup_ctx->record], which the next record may take over in part. *)
Record DedupContext (T A : Type) := mkDedup {
  dd_create : Index T A;
  dd_remove : Index T A;
  dd_stat : RecordStat;
  dd_key : FSBlockSliceKeyInfo;
}.
Arguments mkDedup {T A}.
Arguments dd_create {T A}.
Arguments dd_remove {T A}.
Arguments dd_stat {T A}.
Arguments dd_key {T A}.

Section Dedup.
Context {T A : Type} `{!UniqSkiplist OBSliceEntry T} `{!SliceAccount A}.
(** What the memory of a new slice entry holds: its [space] is never set here. *)
Variable space_of : Z → FSTrunkSpaceInfo.
Implicit Types (c : DedupContext T A) (ix : Index T A).

(** [add_slice]. A table of its own is never being reclaimed: nobody would end a wait. *)
Definition dedup_add_slice (bs_key : FSBlockSliceKeyInfo) (stype : OBSliceType) : IM T A Z :=
  r ← ob_index_alloc_slice_ex (bs_block bs_key) 0;
  match r return IM T A Z with
  | None => mret ENOMEM
  | Some (id, p) =>
      out ← ob_index_add_slice_ex (mkSlice id p stype (bs_slice bs_key) (space_of id)) false false;
      match out return IM T A Z with
      | Waits => λ _, None
      | Done (inl e) => mret e
      | Done (inr _) => mret 0
      end
  end.

(** The value of a deletion and [dec_alloc], which stays 0 when nothing was found. *)
Definition deleted_size (out : Outcome (Z * option Z)) : option (Z * Z) :=
  match out with
  | Waits => None
  | Done (inl e) => Some (e, 0)
  | Done (inr (dec, _)) => Some (0, dec)
  end.

(** The [switch] of [deal_binlog_buffer] and the counting. *)
Definition deal_create (bs_key : FSBlockSliceKeyInfo) (stype : OBSliceType) c
    : option (Z * DedupContext T A) :=
  '(result, ix) ← dedup_add_slice bs_key stype (dd_create c);
  Some (result, mkDedup ix (dd_remove c) (count_create result (dd_stat c)) bs_key).
Definition deal_remove (block : bool) (bs_key : FSBlockSliceKeyInfo) c : option (Z * DedupContext T A) :=
  '(out, ix) ← (if block then ob_index_delete_block_ex (bs_block bs_key) false false
                else ob_index_delete_slices_ex bs_key false false) (dd_create c);
  '(result, dec_alloc) ← deleted_size out;
  let target_len := if block then FS_FILE_BLOCK_SIZE else ss_length (bs_slice bs_key) in
  '(result, key, remove, stat) ←
    (if negb (dec_alloc =? target_len) then
       let key := if block then mkBlockSliceKey (bs_block bs_key) (mkSliceSize 0 FS_FILE_BLOCK_SIZE) else bs_key in
       '(r, remove) ← dedup_add_slice key OB_SLICE_TYPE_FILE (dd_remove c);
       if r =? 0 then Some (result, key, remove, count_partial (dd_stat c))
       else Some (r, key, remove, dd_stat c)
     else Some (result, bs_key, dd_remove c, dd_stat c));
  Some (if result =? ENOENT then 0 else result, mkDedup ix remove (count_remove result stat) key).
Definition deal_record (record : ReplicaBinlogRecord) c : option (Z * DedupContext T A) :=
  let key := rr_bs_key record in
  let op_type := rr_op_type record in
  if op_type =? BINLOG_OP_TYPE_WRITE_SLICE then deal_create key OB_SLICE_TYPE_FILE c
  else if op_type =? BINLOG_OP_TYPE_ALLOC_SLICE then deal_create key OB_SLICE_TYPE_ALLOC c
  else if op_type =? BINLOG_OP_TYPE_DEL_SLICE then deal_remove false key c
  else if op_type =? BINLOG_OP_TYPE_DEL_BLOCK then deal_remove true key c
  else Some (0, mkDedup (dd_create c) (dd_remove c) (dd_stat c) key).

(** [fs_calc_block_hashcode] of the key of a record. *)
Definition rehash (record : ReplicaBinlogRecord) : ReplicaBinlogRecord :=
  let k := bs_block (rr_bs_key record) in
  mkReplicaRecord (rr_op_type record) (rr_source record)
    (mkBlockSliceKey (fs_calc_block_hashcode (bk_oid k) (bk_offset k)) (bs_slice (rr_bs_key record)))
    (rr_data_version record).

Section Read.
Variable split_string_ex : bytes → nat → Z → nat → bool → Cols.

(** [deal_binlog_buffer]; every line takes at least one byte of the buffer: the fuel is its
    length. *)
Fixpoint deal_lines (fuel : nat) (p : bytes) c : option (Z * DedupContext T A) :=
  match p, fuel with
  | [], _ => Some (0, c)
  | _, O => None
  | _, S fuel =>
      match memchr NEWLINE p with
      | None => Some (EINVAL, c)
      | Some n =>
          match replica_binlog_record_unpack split_string_ex p (S n) (dd_key c) with
          | inl e => Some (e, c)
          | inr record =>
              '(result, c) ← deal_record (rehash record) c;
              if negb (result =? 0) then Some (result, c) else deal_lines fuel (drop (S n) p) c
          end
      end
  end.
Definition deal_binlog_buffer (buffer : bytes) c : option (Z * DedupContext T A) :=
  deal_lines (length buffer) buffer c.

(** What [binlog_read_thread_fetch_result] hands over. *)
Inductive FetchResult := NoResult | ReadError (err_no : Z) | ReadBuffer (buffer : bytes).
(** The loop of [do_dedup_binlog]; without a result [SF_G_CONTINUE_FLAG] was found cleared. *)
Fixpoint do_dedup_binlog (results : list FetchResult) c : option (Z * DedupContext T A) :=
  match results with
  | [] => Some (0, c)
  | NoResult :: _ => Some (EINTR, c)
  | ReadError err_no :: _ => Some (if err_no =? ENOENT then 0 else err_no, c)
  | ReadBuffer buffer :: results =>
      '(result, c) ← deal_binlog_buffer buffer c;
      if negb (result =? 0) then Some (result, c) else do_dedup_binlog results c
  end.
End Read.

(** ** Walking over a table *)

(** The entries of a bucket in the order of the chain, and of all buckets. *)
Fixpoint chain_obs (fuel : nat) (obs : gmap Z (OBEntry T)) (p : option Z) : option (list (OBEntry T)) :=
  match p, fuel with
  | None, _ => Some []
  | Some _, O => None
  | Some p, S fuel =>
      ob ← obs !! p;
      rest ← chain_obs fuel obs (ob_next ob);
      Some (ob :: rest)
  end.
Definition htable_obs ix : option (list (OBEntry T)) :=
  l ← mapM (λ b, chain_obs (S (size (ix_obs ix))) (ix_obs ix) (ht_buckets (ix_htable ix) !! b))
        (seqZ 0 (ht_capacity (ix_htable ix)));
  Some (concat l).

(** [htable_reverse_remove]: what was created again is not removed. The results of the
    deletions are not looked at. *)
Fixpoint remove_slices (key : FSBlockKey) (slices : list OBSliceEntry) (remove : Index T A) : option (Index T A) :=
  match slices with
  | [] => Some remove
  | slice :: slices =>
      '(_, remove) ← ob_index_delete_slices_ex (mkBlockSliceKey key (se_ssize slice)) false false remove;
      remove_slices key slices remove
  end.
Fixpoint reverse_remove (obs : list (OBEntry T)) (remove : Index T A) : option (Index T A) :=
  match obs with
  | [] => Some remove
  | ob :: obs =>
      if uniq_skiplist_empty (ob_slices ob) then reverse_remove obs remove else
      '(found, remove) ← ob_index_get_ob_entry_ex (ob_bkey ob) remove;
      match found with
      | None => reverse_remove obs remove
      | Some _ =>
          remove ← remove_slices (ob_bkey ob) (sl_level0 (ob_slices ob)) remove;
          reverse_remove obs remove
      end
  end.
Definition htable_reverse_remove (create remove : Index T A) : option (Index T A) :=
  obs ← htable_obs create; reverse_remove obs remove.

(** ** Writing the tables out *)

(** An element of [out.slice_array], with the key of its block. *)
Definition KeyedSlice : Type := FSBlockKey * OBSliceEntry.
(** [out.slice_array]; [ar_mem]: the answers of the allocator. *)
Record SliceArray := mkArray {
  ar_alloc : Z;
  ar_slices : list KeyedSlice;
  ar_mem : list bool;
}.
(** [realloc_slice_ptr_array]. *)
Definition realloc_slice_ptr_array (a : SliceArray) : Z * SliceArray :=
  match ar_mem a with
  | false :: mem => (ENOMEM, mkArray (ar_alloc a) (ar_slices a) mem)
  | mem => (0, mkArray (2 * ar_alloc a) (ar_slices a) (tail mem))
  end.
(** [add_to_sarray]: a run of adjacent slices becomes one, in the entry of its first. *)
Definition set_length (s : OBSliceEntry) (length : Z) : OBSliceEntry :=
  mkSlice (se_id s) (se_ob s) (se_type s) (mkSliceSize (soff s) length) (se_space s).
Definition add_to_sarray (key : FSBlockKey) (first last : OBSliceEntry) (a : SliceArray) : Z * SliceArray :=
  let first := if decide (first = last) then first else set_length first ((soff last - soff first) + slen last) in
  let '(result, a) := if ar_alloc a <=? Z.of_nat (length (ar_slices a)) then realloc_slice_ptr_array a else (0, a) in
  if negb (result =? 0) then (result, a)
  else (0, mkArray (ar_alloc a) (ar_slices a ++ [(key, first)]) (ar_mem a)).
(** [dump_to_array]. *)
Fixpoint dump_slices (key : FSBlockKey) (first previous : OBSliceEntry) (slices : list OBSliceEntry) (a : SliceArray)
    : Z * SliceArray :=
  match slices with
  | [] => add_to_sarray key first previous a
  | slice :: slices =>
      if (send previous =? soff slice) && bool_decide (se_type previous = se_type slice)
      then dump_slices key first slice slices a
      else
        let '(result, a) := add_to_sarray key first previous a in
        if negb (result =? 0) then (result, a) else dump_slices key slice slice slices a
  end.
Definition dump_to_array (ob : OBEntry T) (a : SliceArray) : Z * SliceArray :=
  match sl_level0 (ob_slices ob) with
  | [] => (0, a)
  | first :: slices => dump_slices (ob_bkey ob) first first slices a
  end.
Fixpoint dump_obs (obs : list (OBEntry T)) (a : SliceArray) : Z * SliceArray :=
  match obs with
  | [] => (0, a)
  | ob :: obs =>
      if uniq_skiplist_empty (ob_slices ob) then dump_obs obs a else
      let '(result, a) := dump_to_array ob a in
      if negb (result =? 0) then (result, a) else dump_obs obs a
  end.

(** [compare_slice]; [qsort] puts the elements in its order. *)
Definition compare_slice (s1 s2 : KeyedSlice) : Z :=
  let sub := cmp3 (bk_oid s1.1) (bk_oid s2.1) in
  if negb (sub =? 0) then sub else
  let sub := cmp3 (bk_offset s1.1) (bk_offset s2.1) in
  if negb (sub =? 0) then sub else
  soff s1.2 - soff s2.2.
Definition slice_le (s1 s2 : KeyedSlice) : Prop := compare_slice s1 s2 <= 0.
#[export] Instance slice_le_dec : RelDecision slice_le.
Proof. unfold slice_le. intros s1 s2. apply _. Defined.

(** The output file: its content, [out.current_version], and the errors of [fprintf]. *)
Record Output := mkOutput {
  out_content : bytes;
  out_current_version : Z;
  out_errors : list Z;
}.
(** [slice_array_to_file]; [removing]: is [out.current_op_type] that of a deletion? *)
Definition out_op_type (removing : bool) (slice : OBSliceEntry) : Z :=
  if removing then BINLOG_OP_TYPE_DEL_SLICE else
  match se_type slice with
  | OB_SLICE_TYPE_FILE => BINLOG_OP_TYPE_WRITE_SLICE
  | OB_SLICE_TYPE_ALLOC => BINLOG_OP_TYPE_ALLOC_SLICE
  end.
Section Write.
Variables (g_current_time : Z) (removing : bool).
Definition out_line (data_version : Z) (s : KeyedSlice) : bytes :=
  sprintf_line [dec g_current_time; dec data_version; [BINLOG_SOURCE_REPLAY]; [out_op_type removing s.2];
    dec (bk_oid s.1); dec (bk_offset s.1); dec (soff s.2); dec (slen s.2)].
Fixpoint slice_array_to_file (slices : list KeyedSlice) (o : Output) : Z * Output :=
  match slices with
  | [] => (0, o)
  | s :: slices =>
      let data_version := out_current_version o + 1 in
      match out_errors o with
      | e :: errors =>
          if negb (e =? 0) then (e, mkOutput (out_content o) data_version errors)
          else slice_array_to_file slices (mkOutput (out_content o ++ out_line data_version s) data_version errors)
      | [] => slice_array_to_file slices (mkOutput (out_content o ++ out_line data_version s) data_version [])
      end
  end.
(** [htable_dump]: the value, the number of records, the array and the output. *)
Definition htable_dump ix (a : SliceArray) (o : Output) : option (Z * Z * SliceArray * Output) :=
  obs ← htable_obs ix;
  let '(result, a) := dump_obs obs (mkArray (ar_alloc a) [] (ar_mem a)) in
  if negb (result =? 0) then Some (result, 0, a, o) else
  let slices := merge_sort slice_le (ar_slices a) in
  let '(result, o) := slice_array_to_file slices o in
  Some (result, Z.of_nat (length (ar_slices a)), mkArray (ar_alloc a) slices (ar_mem a), o).
End Write.

(** [init_slice_ptr_array]. *)
Definition init_array_alloc (count : Z) : Z :=
  if count <=? 8 then 8
  else if count <=? 64 then 64
  else if count <=? 512 then 512
  else if count <=? 4 * 1024 then 1024
  else let n := count / 4 in
    if n <=? 2 * 1024 then 2 * 1024
    else if n <=? 8 * 1024 then 8 * 1024
    else if n <=? 64 * 1024 then 64 * 1024
    else if n <=? 512 * 1024 then 512 * 1024
    else 1024 * 1024.
Definition init_slice_ptr_array (count : Z) (mem : list bool) : Z * SliceArray :=
  match mem with
  | false :: mem => (ENOMEM, mkArray (init_array_alloc count) [] mem)
  | _ => (0, mkArray (init_array_alloc count) [] (tail mem))
  end.

Definition zero_key : FSBlockSliceKeyInfo := mkBlockSliceKey (mkBlockKey 0 0 0) (mkSliceSize 0 0).
Definition zero_stat : RecordStat := mkRecordStat 0 0 0 0 0 0.

(** [dedup_binlog]; [open_error]: the error of [open_output_files]; the output is [None] when
    no file was opened. The error of the first dump is overwritten by the value of the
    second. *)
Definition dedup_binlog (split_string_ex : bytes → nat → Z → nat → bool → Cols) (g_current_time : Z)
    (results : list FetchResult) (open_error : Z) (mem : list bool) (o : Output) (create remove : Index T A)
    : option (Z * option Output) :=
  '(result, c) ← do_dedup_binlog split_string_ex results (mkDedup create remove zero_stat zero_key);
  if negb (result =? 0) then Some (result, None) else
  let stat := dd_stat c in
  if (create_success stat =? 0) && (partial_deletes stat =? 0) then Some (0, None) else
  if negb (open_error =? 0) then Some (open_error, None) else
  let '(result, a) := init_slice_ptr_array (Z.max (partial_deletes stat) (create_success stat)) mem in
  if negb (result =? 0) then Some (result, Some o) else
  '(result, a, o) ←
    (if 0 <? partial_deletes stat then
       remove ← (if 0 <? create_success stat then htable_reverse_remove (dd_create c) (dd_remove c)
                 else Some (dd_remove c));
       '(result, _, a, o) ← htable_dump g_current_time true remove a o;
       Some (result, a, o)
     else Some (0, a, o));
  '(result, o) ←
    (if 0 <? create_success stat then
       '(result, _, _, o) ← htable_dump g_current_time false (dd_create c) a o;
       Some (result, o)
     else Some (result, o));
  Some (result, Some o).
End Dedup.

(** [init_htables]: the capacities. *)
Definition init_htables (fc_ceil_prime : Z → Z) (master_version my_version hashtable_capacity : Z) : OBHashtable * OBHashtable :=
  let slice_capacity := master_version - my_version in
  let slice_capacity :=
    if slice_capacity <? 256 then 256
    else if hashtable_capacity <? slice_capacity then hashtable_capacity else slice_capacity in
  let deleted_capacity := slice_capacity / 4 in
  let deleted_capacity := if 10240 <? deleted_capacity then 10240 else deleted_capacity in
  (ob_index_init_htable_ex fc_ceil_prime slice_capacity, ob_index_init_htable_ex fc_ceil_prime deleted_capacity).
