(* ===== verification/BinlogDedupThms.v ===== *)
(** * The tables of a compaction as contents

    A table of [BinlogDedup.v] is a partial map from the bytes of the blocks to the type of
    the slice that has them: what its operations do to that map, and that [dec_alloc] is the
    size of a deleted extent only when all of it was mapped. *)
From stdpp Require Import sorting.
From S2P Require Import Prelude Types Skiplist ObSlices ObSlicesRun ObSlicesThms ObSlicesMain ObIndex ObIndexSpec ObIndexOps ObIndexThms ObIndexMain Binlog BinlogSpec BinlogThms BinlogDedup.

(** ** Counting the bytes of a list of slices *)
Definition count_bytes (P : Z → Prop) `{∀ b, Decision (P b)} : Z :=
  Z.of_nat (length (filter P (seqZ 0 FS_FILE_BLOCK_SIZE))).
Lemma count_ext (P Q : Z → Prop) `{∀ b, Decision (P b), ∀ b, Decision (Q b)} :
  (∀ b, 0 <= b < FS_FILE_BLOCK_SIZE → P b ↔ Q b) → count_bytes P = count_bytes Q.
Proof.
  intros Hpq. unfold count_bytes. do 2 f_equal. apply filter_ext_in.
  intros b Hb%elem_of_seqZ. apply Hpq. lia.
Qed.
Lemma count_split (P Q : Z → Prop) `{∀ b, Decision (P b), ∀ b, Decision (Q b)} :
  count_bytes P = count_bytes (λ b, P b ∧ Q b) + count_bytes (λ b, P b ∧ ¬ Q b).
Proof.
  unfold count_bytes. generalize (seqZ 0 FS_FILE_BLOCK_SIZE) as l.
  induction l as [|b l IH]; [done|]. rewrite !filter_cons.
  destruct (decide (P b)), (decide (Q b)); repeat case_decide; try tauto; cbn [length]; lia.
Qed.
Lemma count_none (P : Z → Prop) `{∀ b, Decision (P b)} :
  count_bytes P = 0 → ∀ b, 0 <= b < FS_FILE_BLOCK_SIZE → ¬ P b.
Proof.
  unfold count_bytes. intros Hc b Hb HP.
  assert (Hin : b ∈ filter P (seqZ 0 FS_FILE_BLOCK_SIZE)) by (apply list_elem_of_filter; split; [done|apply elem_of_seqZ; lia]).
  destruct (filter P _); [by apply elem_of_nil in Hin|discriminate].
Qed.
Lemma filter_length_range lo n : ∀ m a, a <= lo → lo + Z.of_nat n <= a + Z.of_nat m →
  length (filter (λ b, lo <= b < lo + Z.of_nat n) (seqZ a (Z.of_nat m))) = n.
Proof.
  intros m. revert lo n. induction m as [|m IH]; intros lo n a Ha Hn; [simpl; lia|].
  rewrite Nat2Z.inj_succ, seqZ_cons by lia. rewrite filter_cons.
  replace (Z.pred (Z.succ (Z.of_nat m))) with (Z.of_nat m) by lia.
  destruct (decide (lo <= a < lo + Z.of_nat n)) as [Hd|Hd].
  - destruct n as [|n]; [lia|]. assert (lo = a) as -> by lia. cbn [length]. f_equal.
    transitivity (length (filter (λ b, Z.succ a <= b < Z.succ a + Z.of_nat n) (seqZ (Z.succ a) (Z.of_nat m))));
      [|apply IH; lia]. f_equal. apply filter_ext_in.
    intros b Hb%elem_of_seqZ. lia.
  - destruct (decide (n = 0%nat)) as [->|Hn0].
    + destruct (filter _ _) as [|b l] eqn:E; [done|]. exfalso.
      assert (Hin : b ∈ filter (λ b, lo <= b < lo + Z.of_nat 0) (seqZ (Z.succ a) (Z.of_nat m))) by (rewrite E; by left).
      apply list_elem_of_filter in Hin as [? _]. lia.
    + apply IH; lia.
Qed.
Lemma count_range lo hi : 0 <= lo → lo <= hi → hi <= FS_FILE_BLOCK_SIZE → count_bytes (λ b, lo <= b < hi) = hi - lo.
Proof.
  intros H1 H2 H3. unfold count_bytes.
  pose proof (filter_length_range lo (Z.to_nat (hi - lo)) (Z.to_nat FS_FILE_BLOCK_SIZE) 0) as H.
  rewrite !Z2Nat.id in H by (unfold FS_FILE_BLOCK_SIZE in *; lia).
  replace (lo + (hi - lo)) with hi in H by lia. rewrite H by lia. lia.
Qed.

Definition mapped (l : list OBSliceEntry) (b : Z) : Prop := lookup_byte l b ≠ None.
#[export] Instance mapped_dec l b : Decision (mapped l b).
Proof. unfold mapped. apply _. Defined.
Lemma total_len_count l : slices_wf l → total_len l = count_bytes (mapped l).
Proof.
  induction l as [|s l IH]; intros Hwf.
  { unfold total_len, count_bytes. symmetry. change (sumZ slen []) with 0.
    induction (seqZ 0 FS_FILE_BLOCK_SIZE) as [|b k IHk]; [done|]. rewrite filter_cons.
    case_decide as Hm; [by destruct Hm|done]. }
  assert (Hwf' : slices_wf l) by (apply (slices_wf_app_r [s]); exact Hwf).
  pose proof (slices_wf_valid _ s Hwf ltac:(by left)) as Hv. unfold valid_slice in Hv.
  change (total_len (s :: l)) with (slen s + total_len l). rewrite IH by done.
  rewrite (count_split (mapped (s :: l)) (covers s)).
  rewrite (count_ext (λ b, mapped (s :: l) b ∧ covers s b) (λ b, soff s <= b < send s)).
  2:{ intros b Hb. unfold mapped. simpl. unfold covers. case_decide; [|tauto]. split; [tauto|]. done. }
  rewrite count_range by (unfold send in *; lia).
  rewrite (count_ext (λ b, mapped (s :: l) b ∧ ¬ covers s b) (mapped l)); [unfold send; lia|].
  intros b Hb. unfold mapped. simpl. case_decide as Hc; [|tauto]. split; [tauto|]. intros Hm. exfalso.
  destruct (lookup_byte l b) as [d|] eqn:E; [|done]. apply lookup_byte_Some in E as (x & Hx & Hxb & _); [|done].
  destruct Hwf as [Hs _]. inversion Hs as [|? ? _ HF]; subst. rewrite Forall_forall in HF. specialize (HF x Hx).
  unfold before, covers in *. lia.
Qed.

(** An extent of which as many bytes were mapped as it has was mapped completely. *)
Lemma deleted_all (l l' : list OBSliceEntry) lo hi : slices_wf l → slices_wf l' →
  0 <= lo → lo <= hi → hi <= FS_FILE_BLOCK_SIZE →
  (∀ b, lookup_byte l' b = if decide (lo <= b < hi) then None else lookup_byte l b) →
  total_len l - total_len l' = hi - lo → ∀ b, lo <= b < hi → lookup_byte l b ≠ None.
Proof.
  intros Hwf Hwf' H1 H2 H3 Hl Hd b Hb Hn. rewrite !total_len_count in Hd by done.
  rewrite (count_split (mapped l) (λ b, lo <= b < hi)) in Hd.
  rewrite (count_ext (λ b, mapped l b ∧ ¬ lo <= b < hi) (mapped l')) in Hd.
  2:{ intros x _. unfold mapped. rewrite Hl. case_decide; tauto. }
  pose proof (count_range lo hi H1 H2 H3) as Hr. rewrite (count_split _ (mapped l)) in Hr.
  rewrite (count_ext (λ b, lo <= b < hi ∧ mapped l b) (λ b, mapped l b ∧ lo <= b < hi)) in Hr by tauto.
  assert (Hz : count_bytes (λ b, lo <= b < hi ∧ ¬ mapped l b) = 0) by lia.
  apply (count_none _ Hz b); [lia|]. split; [done|]. intros Hm. by apply Hm.
Qed.

(** ** The content of a table *)

(** Bytes of blocks to the type of the slice that has them. *)
Definition Content : Type := FSBlockKey → Z → option OBSliceType.
Definition in_slice (ss : FSSliceSize) (b : Z) : Prop := ss_offset ss <= b < ss_offset ss + ss_length ss.
#[export] Instance in_slice_dec ss b : Decision (in_slice ss b).
Proof. unfold in_slice. apply _. Defined.
Definition overlay (bs : FSBlockSliceKeyInfo) (v : option OBSliceType) (C : Content) : Content := λ k b,
  if decide (k = bs_block bs ∧ in_slice (bs_slice bs) b) then v else C k b.
Definition whole_block (k : FSBlockKey) : FSBlockSliceKeyInfo := mkBlockSliceKey k (mkSliceSize 0 FS_FILE_BLOCK_SIZE).
Definition extent_ok (bs : FSBlockSliceKeyInfo) : Prop :=
  key_ok (bs_block bs) ∧ 0 <= ss_offset (bs_slice bs) ∧ 0 < ss_length (bs_slice bs) ∧
  ss_offset (bs_slice bs) + ss_length (bs_slice bs) <= FS_FILE_BLOCK_SIZE.

Section Table.
Context {T A : Type} `{!UniqSkiplist OBSliceEntry T} `{!SliceAccount A}.
Context `{!UniqSkiplistSpec slice_compare} `{!SliceAccountSpec A}.
Context (space_of : Z → FSTrunkSpaceInfo).
(** Nothing is accounted: every space will do. *)
Context (all_known : ∀ (w : World A) s, known w s).
Implicit Types (ix : Index T A) (k : FSBlockKey) (p b : Z) (t : T) (C : Content).

Definition has_content ix C : Prop := ∀ k b ty,
  C k b = Some ty ↔ ∃ d, maps ix k b d ∧ dl_type d = ty.
Record table_ok ix C : Prop := {
  tb_index : ∃ base ext, index_ok base ext ix;
  tb_idle : idle ix;
  tb_content : has_content ix C;
  tb_capacity : 0 < ht_capacity (ix_htable ix);
}.
Lemma framed_capacity ix ix' : framed ix ix' → 0 < ht_capacity (ix_htable ix) → 0 < ht_capacity (ix_htable ix').
Proof using. intros H. by rewrite (fr_capacity _ _ H). Qed.

Lemma has_content_same ix ix' C : same_maps ix ix' → has_content ix C → has_content ix' C.
Proof using.
  intros Hs H k b ty. rewrite (H k b ty). split; intros (d & Hd & Ht); exists d; (split; [|done]); by apply (Hs k b d).
Qed.
Lemma content_lives base ext ix C p k c t : index_ok base ext ix → has_content ix C → lives ix p k c t →
  ∀ b, C k b = dl_type <$> lookup_byte (sl_level0 t) b.
Proof using.
  intros I H L b. pose proof (H k b) as Hb. destruct (lookup_byte (sl_level0 t) b) as [d|] eqn:E; simpl.
  - apply Hb. exists d. split; [|done]. by exists p, c, t.
  - destruct (C k b) as [ty|] eqn:Ec; [|done]. destruct (proj1 (Hb ty) eq_refl) as (d & Hd & _).
    apply (maps_lives _ _ _ _ _ _ _ (io_wf _ _ _ I) L) in Hd. congruence.
Qed.
Lemma content_no_block ix C k : has_content ix C → (∀ p c t, ¬ lives ix p k c t) → ∀ b, C k b = None.
Proof using.
  intros H Hno b. destruct (C k b) as [ty|] eqn:E; [|done]. apply H in E as (d & (p & c & t & L & _) & _).
  by destruct (Hno p c t).
Qed.

(** Making the entry of a block maps nothing. *)
Lemma get_ob_content base ext ix C k : index_ok base ext ix → idle ix → has_content ix C → key_ok k →
  ∃ ob pprev ix1, get_ob_entry_ex k true ix = Some ((ob, pprev), ix1) ∧ index_ok base ext ix1 ∧ idle ix1 ∧
    has_content ix1 C ∧ (∀ p, ob = Some p ↔ ∃ c t, lives ix1 p k c t).
Proof using UniqSkiplistSpec0.
  intros I Hi Hc Hk. destruct (get_ob_entry_ex_run base ext ix k true I Hk) as (ob & pprev & ix1 & E & Hp).
  destruct Hp as (I1 & Hother & Hob & Hsame & _ & Hnew). exists ob, pprev, ix1.
  destruct (get_ob_search_run base ext ix k I Hk) as (pre & post & r & _ & _ & _ & Hr & Hno).
  destruct r as [p|].
  { rewrite Hsame in * by (left; exists p; by apply Hr). by split_and!. }
  assert (Hone : ∀ q c t, lives ix1 q k c t → c = 0 ∧ t = uniq_skiplist_new).
  { intros q c t H. assert (Hq : ob = Some q) by (apply Hob; eauto). specialize (Hnew Hno q Hq).
    by destruct (lives_fun _ _ _ _ _ _ _ _ H Hnew) as (_ & -> & ->). }
  split_and!; [done|done| | |done].
  - intros q k' c t H. destruct (decide (k' = k)) as [->|Hne]; [by apply (Hone _ _ _ H)|].
    apply Hother in H; [|done]. by eapply Hi.
  - eapply has_content_same; [|exact Hc]. intros k' b d. unfold maps. destruct (decide (k' = k)) as [->|Hne].
    + split; [|by intros (q & c & t & H & _); apply Hno in H].
      intros (q & c & t & H & Hb). destruct (Hone _ _ _ H) as [_ ->]. by rewrite sl_new_level0 in Hb.
    + by setoid_rewrite (λ q c t, Hother q k' c t Hne).
Qed.
Lemma alloc_slice_content base ext ix C k : index_ok base ext ix → idle ix → has_content ix C → key_ok k →
  ∃ r ix', ob_index_alloc_slice_ex k 0 ix = Some (r, ix') ∧ index_ok base ext ix' ∧ idle ix' ∧ has_content ix' C ∧
    ∀ id p, r = Some (id, p) → ∃ c t, lives ix' p k c t.
Proof using UniqSkiplistSpec0.
  intros I Hi Hc Hk. destruct (get_ob_content base ext ix C k I Hi Hc Hk) as (ob & pprev & ix1 & E & I1 & Hi1 & Hc1 & Hob).
  unfold ob_index_alloc_slice_ex. rewrite (ibind_run _ _ _ _ _ E). cbn beta iota.
  destruct ob as [p|]; [|by eexists _, _].
  destruct (proj1 (Hob p) eq_refl) as (c & t & Hl).
  rewrite ibind_world, alloc_ok_take. destruct (take_mem_up (ix_world ix1)) as [U1 R1].
  destruct (take_mem (ix_world ix1)) as [ok w1]. simpl in U1, R1. cbn [fst snd].
  assert (I2 : index_ok base ext (set_world w1 ix1)).
  { apply (index_ok_ext base ext (λ id, ext id + 0)); [intros; lia|].
    apply index_ok_world; [done|apply (ru_acct _ _ U1)| |by apply (ru_pos _ _ U1), I1|].
    - intros id. rewrite R1. lia.
    - intros id. pose proof (io_ext _ _ _ I id). lia. }
  destruct ok; cbn [negb]; cycle 1.
  { eexists _, _. by split_and!. }
  rewrite ibind_world. cbn [fresh_id fst snd]. change (0 <? 0) with false. cbn iota.
  eexists _, _. split; [done|]. split_and!; [|done|done|].
  - apply (index_ok_ext _ _ (λ i, ext i + 0)); [intros; lia|]. apply (index_ok_world base ext (set_world w1 ix1)).
    + done.
    + done.
    + intros id. unfold ref_count. simpl. lia.
    + apply (io_pos _ _ _ I2).
    + intros id. pose proof (io_ext _ _ _ I id). lia.
  - intros id q [= <- <-]. by exists c, t.
Qed.

(** [add_slice] of the compaction: the extent has the type, the rest is as before. *)
Lemma dedup_add_run ix C bs ty : table_ok ix C → extent_ok bs →
  ∃ r ix', dedup_add_slice space_of bs ty ix = Some (r, ix') ∧
    ((r = 0 ∧ table_ok ix' (overlay bs (Some ty) C)) ∨ r = ENOMEM).
Proof using all_known UniqSkiplistSpec0 SliceAccountSpec0.
  intros [(base & ext & I) Hi Hc Hcap] (Hk & H0 & Hl & He). unfold dedup_add_slice.
  destruct (alloc_slice_content base ext ix C _ I Hi Hc Hk) as (r & ix1 & E & I1 & Hi1 & Hc1 & Hr).
  rewrite (ibind_run _ _ _ _ _ E). destruct r as [[id p]|]; [|by eexists _, _; split; [done|right]].
  destruct (Hr id p eq_refl) as (c & t & L). set (sl := mkSlice id p ty (bs_slice bs) (space_of id)).
  assert (V : valid_slice sl) by (unfold valid_slice, send, soff, slen; simpl; lia).
  destruct (ob_index_add_slice_ex_run base ext ix1 sl false false _ c t I1 L V (all_known _ _)) as (out & ix2 & E2 & Hw & _ & H).
  rewrite (ibind_run _ _ _ _ _ E2). destruct out as [|[e|[inc n]]].
  - exfalso. destruct (proj1 Hw eq_refl) as [_ Hpos]. rewrite (Hi1 _ _ _ _ L) in Hpos. lia.
  - destruct H as (-> & _). eexists _, _. split; [done|by right].
  - destruct H as (t' & I2 & Hb & _ & Hlk & _). eexists _, _. split; [done|left]. split; [done|].
    assert (O : overlaid ix1 ix2 (bs_block bs) sl).
    { by eapply changed_overlaid; [apply I1|apply I2|..]. }
    split; [by exists base, ext| | |eapply framed_capacity; [|exact Hcap]; etransitivity; [by eapply frames_alloc_slice|by eapply frames_add_slice]].
    + intros q k1 c1 t1 H1. apply Hb in H1. case_decide; [|by eapply Hi1]. destruct H1 as (-> & -> & ->). by eapply Hi1.
    + intros k b ty'. unfold overlay. assert (Hcov : covers sl b ↔ in_slice (bs_slice bs) b) by done.
      destruct (decide (k = bs_block bs ∧ in_slice (bs_slice bs) b)) as [[-> Hin]|Hn].
      * split.
        -- intros [= <-]. exists (loc_at sl b). split; [|done]. apply (O _ b). by rewrite decide_True by (split; [done|by apply Hcov]).
        -- intros (d & Hd & <-). apply (O _ b) in Hd. rewrite decide_True in Hd by (split; [done|by apply Hcov]). by subst d.
      * rewrite (Hc1 k b ty'). split; intros (d & Hd & Ht); exists d; (split; [|done]); revert Hd;
          rewrite (O k b d), decide_False by (by rewrite Hcov); done.
Qed.

(** A deletion: the extent has nothing; nothing was found, or the size tells whether all of
    the extent was there. *)
Definition deletes C bs (target : Z) (out : Outcome (Z * option Z)) ix' : Prop :=
  match out with
  | Done (inl e) => table_ok ix' C ∧
      (e = ENOMEM ∨ e = ENOENT ∧ ∀ b, in_slice (bs_slice bs) b → C (bs_block bs) b = None)
  | Done (inr (dec, _)) => table_ok ix' (overlay bs None C) ∧
      (dec = target → ∀ b, in_slice (bs_slice bs) b → C (bs_block bs) b ≠ None)
  | Waits => False
  end.
Lemma content_erased ix ix' C bs p c t t' : index_wf ix → lives ix p (bs_block bs) c t →
  block_after ix ix' p (bs_block bs) c t' → has_content ix C →
  (∀ b, lookup_byte (sl_level0 t') b = if decide (in_slice (bs_slice bs) b) then None else lookup_byte (sl_level0 t) b) →
  has_content ix' (overlay bs None C).
Proof using.
  intros W L Hb Hc Hl k b ty. unfold overlay.
  assert (Hm : ∀ d, maps ix' k b d ↔ if decide (k = bs_block bs ∧ in_slice (bs_slice bs) b) then False else maps ix k b d).
  { intros d. rewrite (block_after_maps ix ix' p (bs_block bs) c t t' W L Hb k b d).
    destruct (decide (k = bs_block bs)) as [->|Hne].
    - rewrite Hl. destruct (decide (in_slice (bs_slice bs) b)).
      + rewrite decide_True by done. done.
      + rewrite decide_False by (by intros [_ ?]). by rewrite (maps_lives _ _ _ _ _ _ _ W L).
    - rewrite decide_False by (by intros [? _]). done. }
  destruct (decide (k = bs_block bs ∧ in_slice (bs_slice bs) b)) as [Hd|Hn].
  - split; [done|]. intros (d & Hd' & _). by apply Hm in Hd'.
  - rewrite (Hc k b ty). split; intros (d & Hd & Ht); exists d; (split; [by apply Hm|done]).
Qed.

Lemma dedup_delete_slices_run ix C bs : table_ok ix C → extent_ok bs →
  ∃ out ix', ob_index_delete_slices_ex bs false false ix = Some (out, ix') ∧
    deletes C bs (ss_length (bs_slice bs)) out ix'.
Proof using UniqSkiplistSpec0 SliceAccountSpec0.
  intros [(base & ext & I) Hi Hc Hcap] (Hk & H0 & Hl & He).
  destruct (ob_index_delete_slices_ex_run base ext ix bs false false I Hk Hl) as (out & ix1 & E & Hw & H).
  assert (Hcap' : 0 < ht_capacity (ix_htable ix1)) by (eapply framed_capacity; [by eapply frames_delete_slices|done]).
  exists out, ix1. split; [done|]. destruct out as [|[e|[dec n]]]; simpl.
  - destruct (proj1 Hw eq_refl) as (_ & p & c & t & L & Hpos). rewrite (Hi _ _ _ _ L) in Hpos. lia.
  - destruct H as (Hu & He' & ext' & I1 & _). split.
    + split; [by exists base, ext'| | |done].
      * intros q k1 c1 t1 H1. apply Hu in H1. by eapply Hi.
      * eapply has_content_same; [|exact Hc]. by apply unchanged_maps.
    + destruct He' as [[-> _]|[-> Hn]]; [by left|right]. split; [done|]. intros b Hb. destruct (C (bs_block bs) b) as [ty|] eqn:Ec; [|done].
      apply Hc in Ec as (d & (p & c & t & L & Hlk) & _). rewrite (Hn _ _ _ _ L) in Hlk; [done|exact Hb].
  - destruct H as (p & c & t & t' & L & I1 & Hb & _ & Hlk & Hdec). split.
    + split; [by exists base, ext|by eapply block_after_idle| |done]. by apply (content_erased ix ix1 C bs p c t t' (io_wf _ _ _ I)).
    + intros -> b Hin. rewrite (content_lives _ _ _ _ _ _ _ _ I Hc L b).
      destruct (lives_block _ _ _ _ _ _ _ I L) as (Hwf & _ & _).
      assert (Hwf' : slices_wf (sl_level0 t')).
      { unfold block_after in Hb. destruct (uniq_skiplist_empty t') eqn:Et.
        - unfold uniq_skiplist_empty in Et. destruct (sl_level0 t'); [apply slices_wf_nil|done].
        - apply (lives_block base ext ix1 p (bs_block bs) c t' I1). apply Hb. by rewrite decide_True. }
      assert (Hm : lookup_byte (sl_level0 t) b ≠ None).
      { apply (deleted_all (sl_level0 t) (sl_level0 t') _ (ss_offset (bs_slice bs) + ss_length (bs_slice bs)) Hwf Hwf' H0); [lia|done|exact Hlk|lia|exact Hin]. }
      by destruct (lookup_byte (sl_level0 t) b).
Qed.

Lemma dedup_delete_block_run ix C k : table_ok ix C → key_ok k →
  ∃ out ix', ob_index_delete_block_ex k false false ix = Some (out, ix') ∧
    deletes C (whole_block k) FS_FILE_BLOCK_SIZE out ix'.
Proof using UniqSkiplistSpec0 SliceAccountSpec0.
  intros [(base & ext & I) Hi Hc Hcap] Hk.
  destruct (ob_index_delete_block_ex_run base ext ix k false false I Hk) as (out & ix1 & E & I1 & Hw & H).
  assert (Hcap' : 0 < ht_capacity (ix_htable ix1)) by (eapply framed_capacity; [by eapply frames_delete_block|done]).
  exists out, ix1. split; [done|]. destruct out as [|r].
  { destruct (proj1 Hw eq_refl) as (_ & p & c & t & L & Hpos). rewrite (Hi _ _ _ _ L) in Hpos. lia. }
  destruct H as [Hlv H].
  assert (Hid : idle ix1) by (intros q k1 c1 t1 [_ H1]%Hlv; by eapply Hi).
  assert (Hout : ∀ p c t b, lives ix p k c t → ¬ in_slice (mkSliceSize 0 FS_FILE_BLOCK_SIZE) b → lookup_byte (sl_level0 t) b = None).
  { intros p c t b L Hb. destruct (lives_block _ _ _ _ _ _ _ I L) as (Hwf & _ & _). apply lookup_byte_None.
    intros s Hs Hcov. pose proof (slices_wf_valid _ s Hwf Hs) as Hv. unfold valid_slice, covers, in_slice in *. simpl in *. lia. }
  assert (Hct : has_content ix1 (overlay (whole_block k) None C)).
  { intros k' b ty. unfold overlay. simpl. destruct (decide (k' = k)) as [->|Hne].
    - assert (Hnone : ∀ d, ¬ maps ix1 k b d) by (intros d (p & c & t & [? _]%Hlv & _); done).
      assert (Hz : (if decide (k = k ∧ in_slice (mkSliceSize 0 FS_FILE_BLOCK_SIZE) b) then None else C k b) = None).
      { case_decide as Hd; [done|]. destruct (C k b) as [ty'|] eqn:Ec; [|done].
        apply Hc in Ec as (d & (p & c & t & L & Hlk) & _). rewrite (Hout _ _ _ _ L) in Hlk; [done|]. intros ?. by apply Hd. }
      rewrite Hz. split; [done|]. intros (d & Hd & _). by destruct (Hnone d).
    - rewrite decide_False by (by intros [? _]). rewrite (Hc k' b ty). unfold maps.
      split; intros (d & (p & c & t & L & Hlk) & Ht); exists d; (split; [|done]); exists p, c, t; (split; [|done]).
      + apply Hlv. by split.
      + by apply Hlv in L as [_ L]. }
  destruct r as [e|[dec n]]; simpl.
  - destruct H as [-> Hz].
    assert (Hn : ∀ b, C k b = None).
    { intros b. destruct (C k b) as [ty|] eqn:Ec; [|done]. apply Hc in Ec as (d & (p & c & t & L & Hlk) & _).
      destruct (lives_block _ _ _ _ _ _ _ I L) as (Hwf & _ & _). specialize (Hz _ _ _ L).
      rewrite total_len_count in Hz by done. exfalso. assert (Hm : mapped (sl_level0 t) b) by (unfold mapped; by rewrite Hlk).
      destruct (decide (in_slice (mkSliceSize 0 FS_FILE_BLOCK_SIZE) b)) as [Hin|Hin].
      - unfold in_slice in Hin. simpl in Hin. apply (count_none _ Hz b); [lia|done].
      - by rewrite (Hout _ _ _ _ L Hin) in Hlk. }
    split; [|right; by split].
    split; [by exists base, ext|done| |done]. intros k' b ty. rewrite <- (Hct k' b ty). unfold overlay. simpl.
    case_decide as Hd; [|done]. destruct Hd as [-> _]. by rewrite Hn.
  - split; [by split; [exists base, ext| | |]|]. destruct H as (_ & Hpos & p & c & t & L & ->).
    intros Ht b Hin. rewrite (content_lives _ _ _ _ _ _ _ _ I Hc L b).
    destruct (lives_block _ _ _ _ _ _ _ I L) as (Hwf & _ & _).
    assert (Hm : lookup_byte (sl_level0 t) b ≠ None).
    { apply (deleted_all (sl_level0 t) [] 0 FS_FILE_BLOCK_SIZE Hwf slices_wf_nil); try (unfold FS_FILE_BLOCK_SIZE; lia);
        [|change (total_len []) with 0; lia|exact Hin].
      intros x. simpl. case_decide as Hd; [done|]. symmetry. by apply (Hout _ _ _ _ L). }
    by destruct (lookup_byte (sl_level0 t) b).
Qed.
End Table.

(** ** The tables hold the log

    While the records are read, the create table holds what they created last, and the remove
    table every byte that was deleted when the log had not created it. *)

(** ** What the records of a log do to one byte *)
Inductive ByteOp := ByteWrite | ByteAlloc | ByteDelete.
Definition record_op (r : ReplicaBinlogRecord) : option ByteOp :=
  let op := rr_op_type r in
  if op =? BINLOG_OP_TYPE_WRITE_SLICE then Some ByteWrite
  else if op =? BINLOG_OP_TYPE_ALLOC_SLICE then Some ByteAlloc
  else if (op =? BINLOG_OP_TYPE_DEL_SLICE) || (op =? BINLOG_OP_TYPE_DEL_BLOCK) then Some ByteDelete
  else None.
(** The extent a record is about. *)
Definition record_extent (r : ReplicaBinlogRecord) : FSBlockSliceKeyInfo :=
  if rr_op_type r =? BINLOG_OP_TYPE_DEL_BLOCK then whole_block (bs_block (rr_bs_key r)) else rr_bs_key r.
Definition touches (r : ReplicaBinlogRecord) (k : FSBlockKey) (b : Z) : Prop :=
  k = bs_block (record_extent r) ∧ in_slice (bs_slice (record_extent r)) b.
#[export] Instance touches_dec r k b : Decision (touches r k b).
Proof. unfold touches. apply _. Defined.
Definition op_at (k : FSBlockKey) (b : Z) (r : ReplicaBinlogRecord) : option ByteOp :=
  if decide (touches r k b) then record_op r else None.
Definition ops_at (l : list ReplicaBinlogRecord) (k : FSBlockKey) (b : Z) : list ByteOp := omap (op_at k b) l.

(** Applying an operation of a data server: allocating gives only bytes that are not there
    space, and leaves the others alone. *)
Definition apply_op (v : option OBSliceType) (o : ByteOp) : option OBSliceType :=
  match o with
  | ByteWrite => Some OB_SLICE_TYPE_FILE
  | ByteAlloc => match v with None => Some OB_SLICE_TYPE_ALLOC | _ => v end
  | ByteDelete => None
  end.
Definition apply_ops (h : list ByteOp) (v : option OBSliceType) : option OBSliceType := foldl apply_op v h.
(** In the create table the last operation counts. *)
Definition create_op (v : option OBSliceType) (o : ByteOp) : option OBSliceType :=
  match o with
  | ByteWrite => Some OB_SLICE_TYPE_FILE
  | ByteAlloc => Some OB_SLICE_TYPE_ALLOC
  | ByteDelete => None
  end.
Definition created (h : list ByteOp) : option OBSliceType := foldl create_op None h.
(** Deleted at a time when the log had not created it. *)
Definition deleted_before (h : list ByteOp) : Prop := ∃ h1 h2, h = h1 ++ ByteDelete :: h2 ∧ created h1 = None.

Lemma ops_at_app l1 l2 k b : ops_at (l1 ++ l2) k b = ops_at l1 k b ++ ops_at l2 k b.
Proof. apply omap_app. Qed.
Lemma created_app h o : created (h ++ [o]) = create_op (created h) o.
Proof. unfold created. by rewrite foldl_app. Qed.
Lemma deleted_before_snoc h o : deleted_before (h ++ [o]) ↔ deleted_before h ∨ (o = ByteDelete ∧ created h = None).
Proof.
  split.
  - intros (h1 & h2 & E & Hc). destruct (exists_last_or_nil h2) as [->|(h3 & x & ->)].
    + apply app_inj_tail in E as [-> ->]. by right.
    + left. exists h1, h3. split; [|done].
      change (h1 ++ ByteDelete :: h3 ++ [x]) with (h1 ++ (ByteDelete :: h3) ++ [x]) in E. rewrite app_assoc in E.
      by apply app_inj_tail in E as [-> _].
  - intros [(h1 & h2 & -> & Hc)|[-> Hc]].
    + exists h1, (h2 ++ [o]). by rewrite <- app_assoc.
    + by exists h, [].
Qed.

Section Thms.
Context {T A : Type} `{!UniqSkiplist OBSliceEntry T} `{!SliceAccount A}.
Context `{!UniqSkiplistSpec slice_compare} `{!SliceAccountSpec A}.
Context (space_of : Z → FSTrunkSpaceInfo).
Context (all_known : ∀ (w : World A) s, known w s).
Implicit Types (c : DedupContext T A) (ix : Index T A) (k : FSBlockKey) (b : Z) (r : ReplicaBinlogRecord)
  (l : list ReplicaBinlogRecord).

(** A record with a key of its own, of an extent within its block. *)
Definition dedup_record_ok r : Prop := is_Some (record_op r) → extent_ok (record_extent r).

Record dedup_inv c l : Prop := {
  di_create : table_ok (dd_create c) (λ k b, created (ops_at l k b));
  di_remove : ∃ R, table_ok (dd_remove c) R ∧
    (∀ k b, R k b ≠ None → ByteDelete ∈ ops_at l k b) ∧
    (∀ k b, deleted_before (ops_at l k b) → R k b ≠ None) ∧
    (partial_deletes (dd_stat c) = 0 → ∀ k b, R k b = None);
  di_created : create_success (dd_stat c) = 0 → ∀ k b, created (ops_at l k b) = None;
  di_counts : 0 <= create_success (dd_stat c) ∧ 0 <= partial_deletes (dd_stat c);
}.

Lemma table_ok_ext ix (C C' : Content) : (∀ k b, C k b = C' k b) → table_ok ix C → table_ok ix C'.
Proof using. intros H [H1 H2 H3 H4]. split; [done|done| |done]. intros k b ty. rewrite <- H. apply H3. Qed.
Lemma ops_at_one r k b : ops_at [r] k b = if decide (touches r k b) then option_list (record_op r) else [].
Proof using. unfold ops_at. simpl. unfold op_at. case_decide; [|done]. by destruct (record_op r). Qed.

(** The operation [o] on the extent. *)
Lemma overlay_created l r o k b : record_op r = Some o →
  overlay (record_extent r) (create_op None o) (λ k b, created (ops_at l k b)) k b = created (ops_at (l ++ [r]) k b).
Proof using.
  intros Ho. rewrite ops_at_app, ops_at_one. unfold overlay.
  destruct (decide (touches r k b)) as [Ht|Ht].
  - rewrite decide_True by exact Ht. rewrite Ho. simpl. rewrite created_app. by destruct o.
  - rewrite decide_False by exact Ht. by rewrite app_nil_r.
Qed.
Lemma ops_snoc_in l r k b : ByteDelete ∈ ops_at l k b → ByteDelete ∈ ops_at (l ++ [r]) k b.
Proof using. intros H. rewrite ops_at_app. apply elem_of_app. by left. Qed.

Lemma deal_create_run c l r o ty : dedup_inv c l → dedup_record_ok r → record_op r = Some o →
  create_op None o = Some ty → record_extent r = rr_bs_key r →
  ∃ res c', deal_create space_of (rr_bs_key r) ty c = Some (res, c') ∧
    (res = 0 ∧ dedup_inv c' (l ++ [r]) ∨ res = ENOMEM).
Proof using all_known UniqSkiplistSpec0 SliceAccountSpec0.
  intros [HC (R & HR & R1 & R2 & R3) Hz Hn] Hr Ho Hty He. unfold deal_create.
  specialize (Hr ltac:(by rewrite Ho)). rewrite He in Hr.
  destruct (dedup_add_run space_of all_known _ _ _ ty HC Hr) as (res & ix & E & H). rewrite E. simpl.
  eexists _, _. split; [done|]. destruct H as [[-> H] | ->]; [left|by right]. split; [done|].
  split; simpl.
  - eapply table_ok_ext; [|exact H]. intros k b. rewrite <- (overlay_created l r o k b Ho). by rewrite Hty, He.
  - exists R. split_and!; [done| | |done].
    + intros k b Hk. by apply ops_snoc_in, R1.
    + intros k b. rewrite ops_at_app, ops_at_one. case_decide; [|rewrite app_nil_r; apply R2].
      rewrite Ho. simpl. rewrite deleted_before_snoc. intros [Hd|[-> _]]; [by apply R2|done].
  - lia.
  - lia.
Qed.

Lemma deal_remove_run c l r : dedup_inv c l → dedup_record_ok r → record_op r = Some ByteDelete →
  ∃ res c', deal_remove space_of (rr_op_type r =? BINLOG_OP_TYPE_DEL_BLOCK) (rr_bs_key r) c = Some (res, c') ∧
    (res = 0 ∧ dedup_inv c' (l ++ [r]) ∨ res = ENOMEM).
Proof using all_known UniqSkiplistSpec0 SliceAccountSpec0.
  intros [HC (R & HR & R1 & R2 & R3) Hz Hn] Hr Ho. unfold deal_remove.
  specialize (Hr ltac:(by rewrite Ho)). set (block := rr_op_type r =? BINLOG_OP_TYPE_DEL_BLOCK).
  set (key := rr_bs_key r). set (target := if block then FS_FILE_BLOCK_SIZE else ss_length (bs_slice key)).
  assert (Hext : record_extent r = if block then whole_block (bs_block key) else key) by done.
  assert (Hout : ∃ out ix, (if block then ob_index_delete_block_ex (bs_block key) false false
      else ob_index_delete_slices_ex key false false) (dd_create c) = Some (out, ix) ∧
    deletes (λ k b, created (ops_at l k b)) (record_extent r) target out ix).
  { rewrite Hext in *. unfold target. destruct block.
    - apply (dedup_delete_block_run _ _ _ HC). apply Hr.
    - by apply dedup_delete_slices_run. }
  destruct Hout as (out & ix & -> & Hdel). simpl.
  assert (Hcreate : ∀ e, out = Done (inl e) → e ≠ ENOMEM → table_ok ix (λ k b, created (ops_at (l ++ [r]) k b))).
  { intros e -> He. simpl in Hdel. destruct Hdel as [Hok [->|[-> Hnone]]]; [done|].
    eapply table_ok_ext; [|exact Hok]. intros k b. simpl. rewrite <- (overlay_created l r _ k b Ho). unfold overlay.
    case_decide as Hd; [|done]. destruct Hd as [-> Hin]. by apply Hnone. }
  assert (Hz' : ∀ k b, created (ops_at l k b) = None → created (ops_at (l ++ [r]) k b) = None).
  { intros k b H. rewrite <- (overlay_created l r _ k b Ho). unfold overlay. by case_decide. }
  assert (Htar : 0 < target).
  { unfold target. destruct Hr as (_ & _ & Hl & _). rewrite Hext in Hl. destruct block; [done|exact Hl]. }
  destruct out as [|[e|[dec n]]]; cbn -[Z.eqb target]; [done| |].
  - rewrite (proj2 (Z.eqb_neq 0 target)) by lia. cbn -[Z.eqb].
    change (if block then mkBlockSliceKey (bs_block key) (mkSliceSize 0 FS_FILE_BLOCK_SIZE) else key)
      with (if block then whole_block (bs_block key) else key). rewrite <- Hext.
    destruct (dedup_add_run space_of all_known _ _ (record_extent r) OB_SLICE_TYPE_FILE HR Hr) as (res & remove & E & H).
    rewrite E. simpl. destruct H as [[-> H]| ->].
    2:{ simpl. eexists _, _. split; [done|]. by right. }
    simpl. destruct Hdel as [_ He]. destruct He as [->|[-> Hnone]]; [eexists _, _; split; [done|by right]|].
    eexists _, _. split; [done|]. left. split; [done|]. split; simpl.
    + by apply (Hcreate ENOENT).
    + eexists. split; [exact H|]. split_and!.
      * intros k b. unfold overlay. case_decide as Hd.
        -- intros _. rewrite ops_at_app, ops_at_one. fold (touches r k b) in Hd. rewrite decide_True by exact Hd.
           rewrite Ho. apply elem_of_app. right. by left.
        -- intros Hk. by apply ops_snoc_in, R1.
      * intros k b. unfold overlay. case_decide as Hd; [done|]. rewrite ops_at_app, ops_at_one.
        rewrite decide_False by exact Hd. rewrite app_nil_r. apply R2.
      * lia.
    + intros Hs k b. by apply Hz', Hz.
    + lia.
  - destruct Hdel as [Hok Hfull].
    assert (Hok' : table_ok ix (λ k b, created (ops_at (l ++ [r]) k b))).
    { eapply table_ok_ext; [|exact Hok]. intros k b. simpl. by rewrite <- (overlay_created l r _ k b Ho). }
    destruct (Z.eqb_spec dec target) as [->|Hne]; simpl.
    + eexists _, _. split; [done|]. left. split; [done|]. split; simpl; [done| | |done].
      * exists R. split_and!; [done| | |done].
        -- intros k b Hk. by apply ops_snoc_in, R1.
        -- intros k b. rewrite ops_at_app, ops_at_one. case_decide as Hd; [|rewrite app_nil_r; apply R2].
           rewrite Ho. simpl. rewrite deleted_before_snoc. intros [Hb|[_ Hb]]; [by apply R2|].
           destruct Hd as [-> Hin]. by destruct (Hfull eq_refl b Hin).
      * intros Hs k b. by apply Hz', Hz.
    + change (if block then mkBlockSliceKey (bs_block key) (mkSliceSize 0 FS_FILE_BLOCK_SIZE) else key)
        with (if block then whole_block (bs_block key) else key). rewrite <- Hext.
      destruct (dedup_add_run space_of all_known _ _ (record_extent r) OB_SLICE_TYPE_FILE HR Hr) as (res & remove & E & H).
      rewrite E. simpl. destruct H as [[-> H]| ->].
      2:{ simpl. eexists _, _. split; [done|]. by right. }
      eexists _, _. split; [done|]. left. split; [done|]. split; simpl; [done| | |lia].
      * eexists. split; [exact H|]. split_and!.
        -- intros k b. unfold overlay. case_decide as Hd.
           ++ intros _. rewrite ops_at_app, ops_at_one. rewrite decide_True by exact Hd.
              rewrite Ho. apply elem_of_app. right. by left.
           ++ intros Hk. by apply ops_snoc_in, R1.
        -- intros k b. unfold overlay. case_decide as Hd; [done|]. rewrite ops_at_app, ops_at_one.
           rewrite decide_False by exact Hd. rewrite app_nil_r. apply R2.
        -- lia.
      * intros Hs k b. by apply Hz', Hz.
Qed.

Lemma ops_at_none l r : record_op r = None → ∀ k b, ops_at (l ++ [r]) k b = ops_at l k b.
Proof using. intros Ho k b. rewrite ops_at_app, ops_at_one, Ho. case_decide; by rewrite app_nil_r. Qed.

Lemma dedup_record_run c l r : dedup_inv c l → dedup_record_ok r →
  ∃ res c', deal_record space_of r c = Some (res, c') ∧ (res = 0 ∧ dedup_inv c' (l ++ [r]) ∨ res = ENOMEM).
Proof using all_known UniqSkiplistSpec0 SliceAccountSpec0.
  intros Hc Hr. unfold deal_record.
  destruct (Z.eqb_spec (rr_op_type r) BINLOG_OP_TYPE_WRITE_SLICE) as [Hw|Hw].
  { apply (deal_create_run c l r ByteWrite); try done; [unfold record_op|unfold record_extent]; by rewrite Hw. }
  destruct (Z.eqb_spec (rr_op_type r) BINLOG_OP_TYPE_ALLOC_SLICE) as [Ha|Ha].
  { apply (deal_create_run c l r ByteAlloc); try done; [unfold record_op|unfold record_extent]; by rewrite Ha. }
  destruct (Z.eqb_spec (rr_op_type r) BINLOG_OP_TYPE_DEL_SLICE) as [Hd|Hd].
  { pose proof (deal_remove_run c l r Hc Hr) as H. rewrite Hd in H. apply H. unfold record_op. by rewrite Hd. }
  destruct (Z.eqb_spec (rr_op_type r) BINLOG_OP_TYPE_DEL_BLOCK) as [Hb|Hb].
  { pose proof (deal_remove_run c l r Hc Hr) as H. rewrite Hb in H. apply H. unfold record_op. by rewrite Hb. }
  eexists _, _. split; [done|]. left. split; [done|].
  assert (Ho : record_op r = None).
  { unfold record_op. by rewrite !(proj2 (Z.eqb_neq _ _)) by done. }
  destruct Hc as [HC (R & HR & R1 & R2 & R3) Hz Hn]. split; simpl.
  - eapply table_ok_ext; [|exact HC]. intros k b. by rewrite ops_at_none.
  - exists R. split_and!; [done| | |done]; intros k b; rewrite ops_at_none by done; auto.
  - intros Hs k b. rewrite ops_at_none by done. auto.
  - done.
Qed.
Lemma dedup_inv_same c l l' : dedup_inv c l → (∀ k b, ops_at l k b = ops_at l' k b) → dedup_inv c l'.
Proof using.
  intros [HC (R & HR & R1 & R2 & R3) Hz Hn] H. split.
  - eapply table_ok_ext; [|exact HC]. intros k b. cbn beta. by rewrite H.
  - exists R. split_and!; [done| | |done]; intros k b; rewrite <- H; auto.
  - intros Hs k b. rewrite <- H. auto.
  - done.
Qed.

(** ** From the lines to the records *)

(** The record of a logged operation, with the hash code of its block. *)
Definition event_record (e : ReplicaEvent) : ReplicaBinlogRecord :=
  rehash (mkReplicaRecord (re_op e) (re_source e) (re_bs_key e) (re_dv e)).
Definition events_ok (events : list ReplicaEvent) : Prop :=
  Forall (λ e, replica_logged e ∧ dedup_record_ok (event_record e)) events.

Context (split_string_ex : bytes → nat → Z → nat → bool → Cols) (Hsplit : split_spec split_string_ex).

Lemma slice_op_ext e r : replica_record_of e r → is_slice_op (re_op e) || is_block_op (re_op e) = true →
  record_op (rehash r) = record_op (event_record e) ∧
  (is_Some (record_op (event_record e)) → record_extent (rehash r) = record_extent (event_record e)).
Proof using.
  intros (Ho & _ & _ & Hoid & Hoff & Hs) Hop. split; [unfold record_op; simpl; by rewrite Ho|].
  unfold record_op, record_extent. simpl. rewrite Ho. intros His.
  destruct (Z.eqb_spec (re_op e) BINLOG_OP_TYPE_DEL_BLOCK) as [E|E]; [by rewrite Hoid, Hoff|].
  rewrite Hoid, Hoff, Hs; [done|]. revert His. unfold is_slice_op.
  destruct (re_op e =? BINLOG_OP_TYPE_WRITE_SLICE), (re_op e =? BINLOG_OP_TYPE_ALLOC_SLICE), (re_op e =? BINLOG_OP_TYPE_DEL_SLICE);
    simpl; try done.
Qed.
Lemma ops_event e r l k b : replica_record_of e r → is_slice_op (re_op e) || is_block_op (re_op e) = true →
  ops_at (l ++ [rehash r]) k b = ops_at (l ++ [event_record e]) k b.
Proof using.
  intros Hr Hop. destruct (slice_op_ext e r Hr Hop) as [Ho He]. rewrite !ops_at_app, !ops_at_one, Ho. f_equal.
  destruct (record_op (event_record e)) as [o|] eqn:E; [|by repeat case_decide].
  assert (Ht : touches (rehash r) k b ↔ touches (event_record e) k b) by (unfold touches; by rewrite (He ltac:(done))).
  destruct (decide (touches (rehash r) k b)) as [H1|H1], (decide (touches (event_record e) k b)) as [H2|H2];
    [done|by apply Ht in H1|by apply Ht in H2|done].
Qed.

Lemma deal_lines_run events : ∀ l c fuel, dedup_inv c l → events_ok events →
  (length (concat (replica_line <$> events)) <= fuel)%nat →
  ∃ res c', deal_lines space_of split_string_ex fuel (concat (replica_line <$> events)) c = Some (res, c') ∧
    (res = 0 ∧ dedup_inv c' (l ++ (event_record <$> events)) ∨ res = ENOMEM).
Proof using all_known UniqSkiplistSpec0 SliceAccountSpec0 Hsplit.
  induction events as [|e events IH]; intros l c fuel Hc He Hf.
  { simpl. exists 0, c. split; [by destruct fuel|]. left. by rewrite app_nil_r. }
  apply Forall_cons in He as [[He Hext] Hes]. rewrite fmap_cons in *. cbn [concat] in *.
  set (rest := concat (replica_line <$> events)) in *. rewrite length_app in Hf.
  destruct (replica_unpack_ok split_string_ex Hsplit e rest (dd_key c) He) as (r & Hr & Hrr).
  rewrite replica_line_eq, <- app_assoc, length_app, Nat.add_comm in Hr.
  rewrite replica_line_eq, length_app in Hf. cbn [length] in Hf.
  rewrite replica_line_eq, <- app_assoc. change ([NEWLINE] ++ rest) with (NEWLINE :: rest) in *. cbn [length Nat.add] in Hr.
  pose proof (memchr_app NEWLINE _ rest (join_no_newline _ (replica_fields_clean e He))) as Hm.
  pose proof (drop_line (join SPACE (replica_fields e)) NEWLINE rest) as Hd.
  revert Hr Hm Hd Hf. generalize (length (join SPACE (replica_fields e))).
  destruct (join SPACE (replica_fields e) ++ NEWLINE :: rest) as [|x s] eqn:E.
  { by destruct (join SPACE (replica_fields e)). }
  intros n Hr Hm Hd Hf. destruct fuel as [|fuel]; [lia|]. cbn [deal_lines]. rewrite Hm, Hr, Hd.
  destruct He as (Hop & _). destruct (slice_op_ext e r Hrr Hop) as [Ho Hex].
  destruct (dedup_record_run c l (rehash r) Hc) as (res & c1 & E1 & H1).
  { intros His. rewrite Ho in His. rewrite (Hex His). by apply Hext. }
  rewrite E1. simpl. destruct H1 as [[-> Hc1]| ->]; simpl.
  2:{ eexists _, _. split; [done|]. by right. }
  assert (Hc2 : dedup_inv c1 (l ++ [event_record e])).
  { eapply dedup_inv_same; [exact Hc1|]. intros k b. by apply ops_event. }
  destruct (IH (l ++ [event_record e]) c1 fuel Hc2 Hes ltac:(lia)) as (res & c2 & E2 & H2).
  exists res, c2. split; [done|]. by rewrite <- app_assoc in H2.
Qed.

(** The whole log, in the pieces the reader thread hands over. *)
Definition log_results (pieces : list (list ReplicaEvent)) : list FetchResult :=
  ((λ events, ReadBuffer (concat (replica_line <$> events))) <$> pieces) ++ [ReadError ENOENT].
Lemma do_dedup_run pieces : ∀ l c, dedup_inv c l → Forall events_ok pieces →
  ∃ res c', do_dedup_binlog space_of split_string_ex (log_results pieces) c = Some (res, c') ∧
    (res = 0 ∧ dedup_inv c' (l ++ (event_record <$> concat pieces)) ∨ res = ENOMEM).
Proof using all_known UniqSkiplistSpec0 SliceAccountSpec0 Hsplit.
  induction pieces as [|events pieces IH]; intros l c Hc Hp.
  { exists 0, c. split; [done|]. left. by rewrite app_nil_r. }
  apply Forall_cons in Hp as [He Hp]. unfold log_results. rewrite fmap_cons. cbn [app do_dedup_binlog].
  unfold deal_binlog_buffer. destruct (deal_lines_run events l c _ Hc He (Nat.le_refl _)) as (res & c1 & E1 & H1).
  rewrite E1. simpl. destruct H1 as [[-> Hc1]| ->]; simpl.
  2:{ eexists _, _. split; [done|]. by right. }
  destruct (IH _ c1 Hc1 Hp) as (res & c2 & E2 & H2). unfold log_results in E2. exists res, c2. split; [done|].
  by rewrite fmap_app, app_assoc.
Qed.
End Thms.
