(* ===== verification/BinlogDedupMain.v ===== *)
(** * Writing the tables of a compaction out

    Walking over a table meets every entry once; merging adjacent slices and sorting them
    keeps what is covered; the lines are those of a replica binlog. *)
From stdpp Require Import sorting.
From S2P Require Import Prelude Types Skiplist ObSlices ObSlicesRun ObSlicesThms ObSlicesMain ObIndex ObIndexSpec ObIndexOps ObIndexThms ObIndexMain Binlog BinlogSpec BinlogThms BinlogDedup BinlogDedupThms.

Section Dump.
Context {T A : Type} `{!UniqSkiplist OBSliceEntry T} `{!SliceAccount A}.
Context `{!UniqSkiplistSpec slice_compare} `{!SliceAccountSpec A}.
Implicit Types (ix : Index T A) (k : FSBlockKey) (b : Z) (s : OBSliceEntry) (C R : Content) (ty : OBSliceType).

(** ** Walking *)
Lemma chain_obs_run (obs : gmap Z (OBEntry T)) l : ∀ h fuel, is_seg obs h l None → (length l < fuel)%nat →
  chain_obs fuel obs h = Some (snd <$> l).
Proof using.
  induction l as [|[p e] l IH]; intros h fuel Hs Hf; simpl in *.
  - subst h. by destruct fuel.
  - destruct Hs as (-> & He & Hs). destruct fuel as [|fuel]; [lia|]. simpl. rewrite He. simpl.
    by rewrite (IH _ fuel Hs) by lia.
Qed.
Lemma htable_obs_run ix : index_wf ix → 0 < ht_capacity (ix_htable ix) →
  ∃ obs, htable_obs ix = Some obs ∧ ∀ e, e ∈ obs ↔ ∃ p, ix_obs ix !! p = Some e.
Proof using.
  intros W Hcap. set (walk := λ b, chain_obs (S (size (ix_obs ix))) (ix_obs ix) (ht_buckets (ix_htable ix) !! b)).
  assert (Hw : ∀ b l, bucket_chain ix b l → walk b = Some (snd <$> l)).
  { intros b l [Hs Ho _]. apply chain_obs_run; [done|].
    pose proof (NoDup_length_size _ _ _ _ Hs (seg_NoDup _ _ _ _ Hs Ho)). lia. }
  assert (Hall : ∀ bs, ∃ ls, mapM walk bs = Some ls ∧ Forall2 (λ b l, walk b = Some l) bs ls).
  { induction bs as [|b bs (ls & E & F)]; [by exists []|]. destruct (iw_chain _ W b) as [l Hl].
    exists ((snd <$> l) :: ls). simpl. rewrite (Hw b l Hl). simpl. rewrite E. simpl. split; [done|]. constructor; [by apply Hw|done]. }
  destruct (Hall (seqZ 0 (ht_capacity (ix_htable ix)))) as (ls & E & F).
  exists (concat ls). unfold htable_obs. fold walk. rewrite E. split; [done|]. intros e. rewrite list_elem_of_In, in_concat. split.
  - intros (l & Hl%list_elem_of_In & He%list_elem_of_In). apply list_elem_of_lookup in Hl as [i Hi].
    destruct (Forall2_lookup_r _ _ _ _ _ F Hi) as (b & _ & Hb). destruct (iw_chain _ W b) as [l' Hl'].
    rewrite (Hw b l' Hl') in Hb. injection Hb as <-. apply list_elem_of_fmap in He as ([p e'] & -> & He).
    exists p. by apply (is_seg_elem _ _ _ _ p e' (bc_seg _ _ _ Hl')).
  - intros (p & He). destruct (iw_all _ W p e He) as (l & Hl & Hin).
    set (b := bucket_index (ix_htable ix) (ob_bkey e)) in *.
    assert (Hb : b ∈ seqZ 0 (ht_capacity (ix_htable ix))).
    { apply elem_of_seqZ. unfold b, bucket_index.
      pose proof (Z.mod_pos_bound (bk_hash_code (ob_bkey e)) (ht_capacity (ix_htable ix))). lia. }
    apply list_elem_of_lookup in Hb as [i Hi]. destruct (Forall2_lookup_l _ _ _ _ _ F Hi) as (l' & Hl' & Hwl).
    rewrite (Hw b l Hl) in Hwl. injection Hwl as <-. exists (snd <$> l). split.
    + apply list_elem_of_In. by eapply list_elem_of_lookup_2.
    + apply list_elem_of_In, list_elem_of_fmap. by exists (p, e).
Qed.

(** What a list of entries covers. *)
Definition obs_cover (obs : list (OBEntry T)) k b ty : Prop :=
  ∃ ob s, ob ∈ obs ∧ ob_bkey ob = k ∧ s ∈ sl_level0 (ob_slices ob) ∧ covers s b ∧ se_type s = ty.
Definition obs_wf (obs : list (OBEntry T)) : Prop :=
  Forall (λ ob, key_ok (ob_bkey ob) ∧ slices_wf (sl_level0 (ob_slices ob))) obs.
Lemma table_obs ix C : table_ok ix C →
  ∃ obs, htable_obs ix = Some obs ∧ obs_wf obs ∧ ∀ k b ty, C k b = Some ty ↔ obs_cover obs k b ty.
Proof using.
  intros [(base & ext & I) Hi Hc Hcap]. destruct (htable_obs_run ix (io_wf _ _ _ I) Hcap) as (obs & E & Ho).
  exists obs. split; [done|].
  assert (Hl : ∀ ob, ob ∈ obs → ∃ p, lives ix p (ob_bkey ob) (ob_reclaiming_count ob) (ob_slices ob)).
  { intros ob [p Hp]%Ho. exists p. apply lives_entry. by exists ob. }
  split.
  - apply Forall_forall. intros ob Hob. split.
    + apply Ho in Hob as [p Hp]. by eapply (iw_keys _ (io_wf _ _ _ I)).
    + destruct (Hl ob Hob) as [p L]. apply (lives_block _ _ _ _ _ _ _ I L).
  - intros k b ty. rewrite (Hc k b ty). split.
    + intros (d & (p & c & t & L & Hb) & <-). destruct (lives_block _ _ _ _ _ _ _ I L) as (Hwf & _).
      apply lookup_byte_Some in Hb as (s & Hs & Hcov & ->); [|done].
      apply lives_entry in L as (e & He & Hce). unfold core in Hce. injection Hce as H1 H2 H3.
      exists e, s. split_and!; [apply Ho; by exists p|done|by rewrite H3|done|done].
    + intros (ob & s & Hob & <- & Hs & Hcov & <-). destruct (Hl ob Hob) as [p L].
      exists (loc_at s b). split; [|done]. eexists p, _, _. split; [exact L|].
      apply lookup_byte_Some; [apply (lives_block _ _ _ _ _ _ _ I L)|]. by exists s.
Qed.

(** ** Taking out of the remove table what was created again *)
Lemma remove_slices_run key slices : ∀ remove R, table_ok remove R → key_ok key → Forall valid_slice slices →
  ∃ remove' R', remove_slices key slices remove = Some remove' ∧ table_ok remove' R' ∧
    (∀ k b, R' k b ≠ None → R k b ≠ None) ∧
    (∀ k b, R k b ≠ None → (∀ s, s ∈ slices → k = key → ¬ covers s b) → R' k b ≠ None).
Proof using UniqSkiplistSpec0 SliceAccountSpec0.
  induction slices as [|s slices IH]; intros remove R HR Hk Hv; [by exists remove, R|].
  apply Forall_cons in Hv as [Hs Hv]. cbn [remove_slices].
  set (bs := mkBlockSliceKey key (se_ssize s)).
  assert (He : extent_ok bs) by (unfold valid_slice, send, soff, slen in Hs; split_and!; simpl; [done|lia..]).
  destruct (dedup_delete_slices_run remove R bs HR He) as (out & remove1 & E & Hd). rewrite E. simpl.
  assert (H1 : ∃ R1, table_ok remove1 R1 ∧ (∀ k b, R1 k b ≠ None → R k b ≠ None) ∧
    (∀ k b, R k b ≠ None → (k = key → ¬ covers s b) → R1 k b ≠ None)).
  { destruct out as [|[e|[dec n]]]; simpl in Hd; [done| |].
    - exists R. destruct Hd as [Hd _]. by split_and!.
    - exists (overlay bs None R). destruct Hd as [Hd _]. split_and!; [done| |].
      + intros k b. unfold overlay. by case_decide.
      + intros k b Hk1 Hc. unfold overlay. case_decide as Hin; [|done]. destruct Hin as [-> Hin]. by destruct (Hc eq_refl). }
  destruct H1 as (R1 & HR1 & H1 & H2). destruct (IH remove1 R1 HR1 Hk Hv) as (remove' & R' & E2 & HR' & H3 & H4).
  exists remove', R'. split_and!; [done|done|auto|]. intros k b Hk1 Hc. apply H4.
  - apply H2; [done|]. intros ->. apply Hc; [by left|done].
  - intros s' Hs'. apply Hc. by right.
Qed.
Lemma reverse_remove_run obs : ∀ remove R, table_ok remove R → obs_wf obs →
  ∃ remove' R', reverse_remove obs remove = Some remove' ∧ table_ok remove' R' ∧
    (∀ k b, R' k b ≠ None → R k b ≠ None) ∧
    (∀ k b, R k b ≠ None → (∀ ty, ¬ obs_cover obs k b ty) → R' k b ≠ None).
Proof using UniqSkiplistSpec0 SliceAccountSpec0.
  induction obs as [|ob obs IH]; intros remove R HR Hwf; [by exists remove, R|].
  apply Forall_cons in Hwf as [[Hk Hs] Hwf]. cbn [reverse_remove].
  assert (Hskip : ∀ remove' R', (∀ k b, R k b ≠ None → (∀ ty, ¬ obs_cover obs k b ty) → R' k b ≠ None) →
    table_ok remove' R' → ∀ k b, R k b ≠ None → (∀ ty, ¬ obs_cover (ob :: obs) k b ty) → R' k b ≠ None).
  { intros _ R' H _ k b Hk1 Hc. apply H; [done|]. intros ty (o & s & Ho & Hr). apply (Hc ty). exists o, s. split; [by right|done]. }
  destruct (uniq_skiplist_empty (ob_slices ob)).
  { destruct (IH remove R HR Hwf) as (remove' & R' & E & HR' & H1 & H2). exists remove', R'. split_and!; eauto. }
  destruct HR as [(base & ext & I) Hi Hc Hcap].
  destruct (get_ob_search_run base ext remove (ob_bkey ob) I Hk) as (pre & post & r & _ & _ & Hsr & _).
  unfold ob_index_get_ob_entry_ex. assert (E0 : get_ob_entry_ex (ob_bkey ob) false remove = Some ((r, last_ptr pre), remove))
    by (by rewrite get_ob_entry_search, Hsr).
  rewrite (ibind_run _ _ _ _ _ E0). cbn beta iota. unfold mret, IM_ret. cbn [mbind option_bind].
  assert (HR : table_ok remove R) by (split; [by exists base, ext|done..]).
  destruct r as [p|].
  2:{ destruct (IH remove R HR Hwf) as (remove' & R' & E & HR' & H1 & H2). exists remove', R'. split_and!; eauto. }
  destruct (remove_slices_run (ob_bkey ob) (sl_level0 (ob_slices ob)) remove R HR Hk (proj2 Hs)) as (remove1 & R1 & E1 & HR1 & A1 & A2).
  rewrite E1. simpl. destruct (IH remove1 R1 HR1 Hwf) as (remove' & R' & E2 & HR' & B1 & B2).
  exists remove', R'. split_and!; [done|done|auto|]. intros k b Hk1 Hno. apply B2.
  - apply A2; [done|]. intros s Hs' -> Hcov. apply (Hno (se_type s)). exists ob, s. split_and!; try done. by left.
  - intros ty (o & s & Ho & Hr). apply (Hno ty). exists o, s. split; [by right|done].
Qed.

(** ** Merging *)
Definition keyed_cover (l : list KeyedSlice) k b ty : Prop := ∃ s, (k, s) ∈ l ∧ covers s b ∧ se_type s = ty.
Definition keyed_wf (l : list KeyedSlice) : Prop := Forall (λ x, key_ok x.1 ∧ valid_slice x.2) l.

Lemma add_to_sarray_run key first last (a : SliceArray) : ar_mem a = [] → key_ok key →
  valid_slice first → valid_slice last → soff first <= soff last → se_type first = se_type last →
  ∃ s alloc, add_to_sarray key first last a = (0, mkArray alloc (ar_slices a ++ [(key, s)]) []) ∧
    valid_slice s ∧ ∀ b ty, covers s b ∧ se_type s = ty ↔ soff first <= b < send last ∧ se_type first = ty.
Proof using.
  intros Hm Hk Hf Hl Ho Ht. unfold add_to_sarray.
  set (s := if decide (first = last) then first else _).
  assert (Hs : soff s = soff first ∧ send s = send last ∧ se_type s = se_type first).
  { unfold s. case_decide as Hd; [by subst|]. unfold set_length, send, soff, slen. simpl. split_and!; [done|lia|done]. }
  destruct Hs as (H1 & H2 & H3). exists s.
  assert (Hok : valid_slice s ∧ ∀ b ty, covers s b ∧ se_type s = ty ↔ soff first <= b < send last ∧ se_type first = ty).
  { split.
    - unfold valid_slice in *. assert (send s = soff s + slen s) by done. assert (send last = soff last + slen last) by done. lia.
    - intros b ty. unfold covers. by rewrite H1, H2, H3. }
  destruct a as [al sl mem]. simpl in Hm. subst mem. cbn [ar_alloc ar_slices].
  destruct (_ <=? _); simpl; eexists; (split; [done|exact Hok]).
Qed.
Lemma dump_slices_run key slices : ∀ first previous (a : SliceArray), ar_mem a = [] → key_ok key →
  slices_wf (previous :: slices) → valid_slice first → soff first <= soff previous → se_type first = se_type previous →
  ∃ runs alloc, dump_slices key first previous slices a = (0, mkArray alloc (ar_slices a ++ ((λ s, (key, s)) <$> runs)) []) ∧
    Forall valid_slice runs ∧
    ∀ b ty, (∃ s, s ∈ runs ∧ covers s b ∧ se_type s = ty) ↔
      (soff first <= b < send previous ∧ se_type first = ty) ∨ ∃ s, s ∈ slices ∧ covers s b ∧ se_type s = ty.
Proof using.
  induction slices as [|s slices IH]; intros first previous a Hm Hk Hwf Hf Ho Ht; cbn [dump_slices].
  { pose proof (slices_wf_valid _ previous Hwf ltac:(by left)) as Hp.
    destruct (add_to_sarray_run key first previous a Hm Hk Hf Hp Ho Ht) as (x & alloc & E & Hx & Hc).
    exists [x], alloc. split_and!; [done|by apply Forall_singleton|]. intros b ty. split.
    - intros (y & ->%list_elem_of_singleton & Hy). left. by apply Hc.
    - intros [Hy|(y & Hy & _)]; [|by apply elem_of_nil in Hy]. exists x. split; [by left|by apply Hc]. }
  pose proof (slices_wf_valid _ previous Hwf ltac:(by left)) as Hp.
  pose proof (slices_wf_valid _ s Hwf ltac:(by right; left)) as Hsv.
  assert (Hwf' : slices_wf (s :: slices)) by (apply (slices_wf_app_r [previous]); exact Hwf).
  assert (Hps : send previous <= soff s).
  { destruct Hwf as [Hs _]. inversion Hs as [|? ? _ HF]; subst. rewrite Forall_forall in HF. apply (HF s). by left. }
  unfold valid_slice in Hp, Hsv. assert (Hsp : send previous = soff previous + slen previous) by done.
  destruct ((send previous =? soff s) && bool_decide (se_type previous = se_type s)) eqn:Em.
  - apply andb_true_iff in Em as [Em%Z.eqb_eq Et%bool_decide_eq_true].
    destruct (IH first s a Hm Hk Hwf' Hf ltac:(lia) ltac:(congruence)) as (runs & alloc & E & Hr & Hc).
    exists runs, alloc. split_and!; [done|done|]. intros b ty. rewrite Hc. split.
    + intros [[Hb Hty]|(y & Hy & Hcov)]; [|right; exists y; split; [by right|done]].
      destruct (decide (b < send previous)) as [Hlt|Hge]; [left; split; [lia|done]|right]. exists s. split_and!; [by left| |congruence].
      unfold covers. lia.
    + intros [[Hb Hty]|(y & [->|Hy]%elem_of_cons & Hcov & Hty)].
      * left. split; [|done]. assert (send s = soff s + slen s) by done. lia.
      * left. unfold covers in Hcov. split; [lia|congruence].
      * right. by exists y.
  - destruct (add_to_sarray_run key first previous a Hm Hk Hf Hp Ho Ht) as (x & alloc & E & Hx & Hcx). rewrite E. simpl.
    destruct (IH s s (mkArray alloc (ar_slices a ++ [(key, x)]) []) eq_refl Hk Hwf' Hsv ltac:(lia) eq_refl) as (runs & alloc2 & E2 & Hr & Hc).
    exists (x :: runs), alloc2. rewrite E2. simpl. split_and!; [by rewrite <- app_assoc|by constructor|]. intros b ty. split.
    + intros (y & [->|Hy]%elem_of_cons & Hcov); [left; by apply Hcx|].
      right. destruct (proj1 (Hc b ty) ltac:(by exists y)) as [[Hb Hty]|(z & Hz & Hcz)].
      * exists s. split_and!; [by left|exact Hb|done].
      * exists z. split; [by right|done].
    + intros [Hb|(y & [->|Hy]%elem_of_cons & Hcov)].
      * exists x. split; [by left|by apply Hcx].
      * destruct (proj2 (Hc b ty) ltac:(by left)) as (z & Hz & Hcz). exists z. split; [by right|done].
      * destruct (proj2 (Hc b ty)) as (z & Hz & Hcz); [right; by exists y|]. exists z. split; [by right|done].
Qed.
Lemma dump_to_array_run (ob : OBEntry T) a : ar_mem a = [] → key_ok (ob_bkey ob) → slices_wf (sl_level0 (ob_slices ob)) →
  ∃ runs alloc, dump_to_array ob a = (0, mkArray alloc (ar_slices a ++ runs) []) ∧ keyed_wf runs ∧
    ∀ k b ty, keyed_cover runs k b ty ↔ obs_cover [ob] k b ty.
Proof using.
  intros Hm Hk Hwf. unfold dump_to_array. destruct (sl_level0 (ob_slices ob)) as [|first slices] eqn:El.
  { exists [], (ar_alloc a). rewrite app_nil_r. split_and!; [by destruct a; simpl in *; subst|constructor|].
    intros k b ty. split; [by intros (s & ?%elem_of_nil & _)|].
    intros (o & s & ->%list_elem_of_singleton & _ & Hs & _). rewrite El in Hs. by apply elem_of_nil in Hs. }
  pose proof (slices_wf_valid _ first Hwf ltac:(by left)) as Hf.
  destruct (dump_slices_run (ob_bkey ob) slices first first a Hm Hk Hwf Hf (Z.le_refl _) eq_refl) as (runs & alloc & E & Hr & Hc).
  exists ((λ s, (ob_bkey ob, s)) <$> runs), alloc. split_and!; [done| |].
  - apply Forall_fmap. eapply Forall_impl; [exact Hr|]. intros s Hs. done.
  - intros k b ty. unfold keyed_cover, obs_cover. split.
    + intros (s & (s' & [= -> ->] & Hs)%list_elem_of_fmap & Hcov).
      destruct (proj1 (Hc b ty) ltac:(by exists s')) as [[Hb Hty]|(z & Hz & Hcz)].
      * exists ob, first. split_and!; [by left|done|rewrite El; by left|exact Hb|done].
      * exists ob, z. split_and!; [by left|done|rewrite El; by right|apply Hcz..].
    + intros (o & s & ->%list_elem_of_singleton & <- & Hs & Hcov). rewrite El in Hs.
      assert (Hex : ∃ z, z ∈ runs ∧ covers z b ∧ se_type z = ty).
      { apply Hc. apply elem_of_cons in Hs as [->|Hs]; [by left|right; by exists s]. }
      destruct Hex as (z & Hz & Hcz). exists z. split; [|done]. apply list_elem_of_fmap. by exists z.
Qed.
Lemma obs_cover_cons (ob : OBEntry T) obs k b ty : obs_cover (ob :: obs) k b ty ↔ obs_cover [ob] k b ty ∨ obs_cover obs k b ty.
Proof using.
  unfold obs_cover. split.
  - intros (o & s & [->|Ho]%elem_of_cons & Hr); [left; exists ob, s; split; [by left|done]|right; by exists o, s].
  - intros [(o & s & ->%list_elem_of_singleton & Hr)|(o & s & Ho & Hr)]; [exists ob, s; split; [by left|done]|exists o, s; split; [by right|done]].
Qed.
Lemma dump_obs_run obs : ∀ a, ar_mem a = [] → obs_wf obs →
  ∃ runs alloc, dump_obs obs a = (0, mkArray alloc (ar_slices a ++ runs) []) ∧ keyed_wf runs ∧
    ∀ k b ty, keyed_cover runs k b ty ↔ obs_cover obs k b ty.
Proof using.
  induction obs as [|ob obs IH]; intros a Hm Hwf.
  { exists [], (ar_alloc a). rewrite app_nil_r. split_and!; [by destruct a; simpl in *; subst|constructor|].
    intros k b ty. split; [by intros (s & ?%elem_of_nil & _)|by intros (o & s & ?%elem_of_nil & _)]. }
  apply Forall_cons in Hwf as [[Hk Hs] Hwf]. cbn [dump_obs].
  destruct (uniq_skiplist_empty (ob_slices ob)) eqn:Ee.
  { destruct (IH a Hm Hwf) as (runs & alloc & E & Hr & Hc). exists runs, alloc. split_and!; [done|done|].
    intros k b ty. rewrite Hc, obs_cover_cons. split; [by right|]. intros [(o & s & ->%list_elem_of_singleton & _ & Hin & _)|H]; [|done].
    unfold uniq_skiplist_empty in Ee. destruct (sl_level0 (ob_slices ob)); [by apply elem_of_nil in Hin|done]. }
  destruct (dump_to_array_run ob a Hm Hk Hs) as (r1 & a1 & E1 & W1 & C1). rewrite E1. simpl.
  destruct (IH (mkArray a1 (ar_slices a ++ r1) []) eq_refl Hwf) as (r2 & a2 & E2 & W2 & C2). rewrite E2. simpl.
  exists (r1 ++ r2), a2. split_and!; [by rewrite app_assoc|by apply Forall_app|]. intros k b ty.
  rewrite obs_cover_cons, <- C1, <- C2. unfold keyed_cover. split.
  - intros (s & [Hs'|Hs']%elem_of_app & Hr); [left|right]; by exists s.
  - intros [(s & Hs' & Hr)|(s & Hs' & Hr)]; exists s; (split; [|done]); apply elem_of_app; [by left|by right].
Qed.
End Dump.

(** ** Replaying the compacted binlog instead of the fetched one *)

(** The tables do no accounting: a ledger that knows every trunk will do. *)
Definition Ledger : Type := Z → Z → Z.
Definition enter_ledger (sign : Z) (a : Ledger) (s : OBSliceEntry) : Ledger := λ st id, a st id + sign * size_in st id s.
#[export] Instance ledger_account : SliceAccount Ledger := {|
  acct_add_slice a s _ := (0, enter_ledger 1 a s);
  acct_delete_slice a s _ := (0, enter_ledger (-1) a s);
  acct_used a st id := Some (a st id);
|}.
#[export] Instance ledger_spec : SliceAccountSpec Ledger.
Proof.
  split.
  - intros a s f _. split; [done|]. intros st id. simpl. unfold enter_ledger. f_equal; lia.
  - by intros a s f H.
  - intros a s f _ st id. simpl. unfold enter_ledger. f_equal; lia.
Qed.
Lemma ledger_known (w : World Ledger) s : known w s.
Proof. by eexists. Qed.

(** ** The lines of the output *)
Section Lines.
Variables (g_current_time : Z) (removing : bool).
Definition out_event (v : Z) (s : KeyedSlice) : ReplicaEvent :=
  mkReplicaEvent g_current_time v BINLOG_SOURCE_REPLAY (out_op_type removing s.2) (mkBlockSliceKey s.1 (se_ssize s.2)).
Fixpoint out_events (v : Z) (slices : list KeyedSlice) : list ReplicaEvent :=
  match slices with
  | [] => []
  | s :: slices => out_event (v + 1) s :: out_events (v + 1) slices
  end.
Lemma out_line_event v s : out_line g_current_time removing v s = replica_line (out_event v s).
Proof.
  unfold replica_line, replica_log, out_event, out_line, out_op_type. simpl.
  destruct removing; [|destruct (se_type s.2)]; reflexivity.
Qed.
Lemma to_file_run slices : ∀ o, out_errors o = [] →
  slice_array_to_file g_current_time removing slices o =
    (0, mkOutput (out_content o ++ concat (replica_line <$> out_events (out_current_version o) slices))
          (out_current_version o + Z.of_nat (length slices)) []).
Proof.
  induction slices as [|s slices IH]; intros [content v errors] He; simpl in *; subst.
  - by rewrite app_nil_r, Z.add_0_r.
  - rewrite IH by done. simpl. rewrite out_line_event, <- app_assoc. do 2 f_equal. lia.
Qed.

Definition out_op (ty : OBSliceType) : ByteOp :=
  if removing then ByteDelete else match ty with OB_SLICE_TYPE_FILE => ByteWrite | OB_SLICE_TYPE_ALLOC => ByteAlloc end.
Lemma out_event_op v s : record_op (event_record (out_event v s)) = Some (out_op (se_type s.2)).
Proof. unfold record_op, event_record, out_event, out_op, out_op_type. simpl. by destruct removing; [|destruct (se_type s.2)]. Qed.
Lemma out_event_extent v s : key_ok s.1 →
  record_extent (event_record (out_event v s)) = mkBlockSliceKey s.1 (se_ssize s.2).
Proof.
  intros Hk. unfold record_extent, event_record, out_event, out_op_type. simpl. unfold key_ok in Hk.
  destruct removing; [|destruct (se_type s.2)]; simpl; by rewrite <- Hk.
Qed.
Lemma out_events_ops slices : ∀ v, keyed_wf slices → ∀ k b o,
  o ∈ ops_at (event_record <$> out_events v slices) k b ↔ ∃ ty, keyed_cover slices k b ty ∧ o = out_op ty.
Proof.
  induction slices as [|s slices IH]; intros v Hwf k b o.
  { split; [by intros ?%elem_of_nil|by intros (ty & (s & ?%elem_of_nil & _) & _)]. }
  apply Forall_cons in Hwf as [[Hk Hv] Hwf]. cbn [out_events]. rewrite fmap_cons.
  change (event_record (out_event (v + 1) s) :: (event_record <$> out_events (v + 1) slices))
    with ([event_record (out_event (v + 1) s)] ++ (event_record <$> out_events (v + 1) slices)).
  rewrite ops_at_app, elem_of_app, (IH (v + 1) Hwf k b o), ops_at_one, out_event_op.
  assert (Ht : touches (event_record (out_event (v + 1) s)) k b ↔ k = s.1 ∧ covers s.2 b).
  { unfold touches. rewrite out_event_extent by done. done. }
  split.
  - intros [H|(ty & (s' & Hs' & Hc) & ->)].
    + case_decide as Hd; [|by apply elem_of_nil in H]. apply list_elem_of_singleton in H as ->.
      apply Ht in Hd as [-> Hd]. exists (se_type s.2). split; [|done]. exists s.2. split; [|done].
      destruct s. by left.
    + exists ty. split; [|done]. exists s'. split; [by right|done].
  - intros (ty & (s' & [Hs'|Hs']%elem_of_cons & Hc & <-) & ->).
    + left. destruct s as [k0 s0]. injection Hs' as -> ->. rewrite decide_True by by apply Ht. by left.
    + right. exists (se_type s'). split; [|done]. by exists s'.
Qed.
End Lines.

(** ** The effect on a byte *)
Lemma apply_deletes h v : (∀ o, o ∈ h → o = ByteDelete) → apply_ops h v = if decide (h = []) then v else None.
Proof.
  revert v. induction h as [|o h IH]; intros v Hh; [done|]. simpl. rewrite IH by (intros x Hx; apply Hh; by right).
  rewrite (Hh o) by left. simpl. by case_decide.
Qed.
Lemma apply_writes h v : (∀ o, o ∈ h → o = ByteWrite) → apply_ops h v = if decide (h = []) then v else Some OB_SLICE_TYPE_FILE.
Proof.
  revert v. induction h as [|o h IH]; intros v Hh; [done|]. simpl. rewrite IH by (intros x Hx; apply Hh; by right).
  rewrite (Hh o) by left. simpl. by case_decide.
Qed.
Lemma apply_allocs h v : (∀ o, o ∈ h → o = ByteAlloc) →
  apply_ops h v = match v with Some _ => v | None => if decide (h = []) then None else Some OB_SLICE_TYPE_ALLOC end.
Proof.
  revert v. induction h as [|o h IH]; intros v Hh; [by destruct v|]. simpl. rewrite IH by (intros x Hx; apply Hh; by right).
  rewrite (Hh o) by left. simpl. destruct v; [done|]. done.
Qed.
Lemma apply_app h1 h2 v : apply_ops (h1 ++ h2) v = apply_ops h2 (apply_ops h1 v).
Proof. apply foldl_app. Qed.

(** Bytes for which the compacted log does: nothing is allocated over what the log wrote, and
    what the slave had before is neither allocated nor deleted after it was written again. *)
Definition no_alloc_over_write (h : list ByteOp) : Prop :=
  ∀ h1 h2, h = h1 ++ ByteAlloc :: h2 → created h1 ≠ Some OB_SLICE_TYPE_FILE.
Definition kept_or_replaced (h : list ByteOp) : Prop :=
  ByteAlloc ∉ h ∧ ∀ h1 h2, h = h1 ++ ByteDelete :: h2 → ByteWrite ∉ h1.
Definition dedup_safe (h : list ByteOp) (v : option OBSliceType) : Prop :=
  no_alloc_over_write h ∧ (v = None ∨ kept_or_replaced h).

(** For a byte the slave did not have the create table is what replaying gives. *)
Lemma created_apply h : no_alloc_over_write h → apply_ops h None = created h.
Proof.
  induction h as [|o h IH] using rev_ind; intros Hs; [done|]. unfold apply_ops. rewrite foldl_app. fold (apply_ops h None).
  rewrite IH, created_app.
  - destruct o; try done. simpl. specialize (Hs h [] eq_refl). by destruct (created h) as [[]|].
  - intros h1 h2 ->. apply (Hs h1 (h2 ++ [o])). by rewrite <- app_assoc.
Qed.
(** For one it had: deletions, then writes. *)
Lemma kept_cases h : kept_or_replaced h →
  (created h = Some OB_SLICE_TYPE_FILE ∧ ∀ v, apply_ops h v = Some OB_SLICE_TYPE_FILE) ∨
  (created h = None ∧ ∀ v, apply_ops h v = if decide (h = []) then v else None) ∧ (h ≠ [] → deleted_before h).
Proof.
  induction h as [|o h IH] using rev_ind; intros [Ha Hd].
  { right. by split_and!. }
  assert (Hk : kept_or_replaced h).
  { split; [intros ?; apply Ha, elem_of_app; by left|]. intros h1 h2 ->. apply (Hd h1 (h2 ++ [o])). by rewrite <- app_assoc. }
  destruct o.
  - left. split; [by rewrite created_app|]. intros v. by rewrite apply_app.
  - exfalso. apply Ha, elem_of_app. right. by left.
  - right. assert (Hw : ByteWrite ∉ h) by by apply (Hd h []).
    assert (Hall : ∀ o, o ∈ h → o = ByteDelete).
    { intros [] Ho; [done| |done]. exfalso. apply Ha, elem_of_app. by left. }
    assert (Hc : created h = None).
    { destruct (IH Hk) as [[Hc _]|[Hc _]]; [|apply Hc]. exfalso. clear -Hc Hall.
      destruct h as [|o h _] using rev_ind; [done|]. rewrite created_app, (Hall o) in Hc; [done|]. apply elem_of_app. right. by left. }
    split_and!; [by rewrite created_app| |].
    + intros v. rewrite apply_app. rewrite decide_False by (by destruct h). done.
    + intros _. by exists h, [].
Qed.

Section Main.
Context {T : Type} `{!UniqSkiplist OBSliceEntry T} `{!UniqSkiplistSpec slice_compare}.
Context (space_of : Z → FSTrunkSpaceInfo).
Implicit Types (ix : Index T Ledger) (k : FSBlockKey) (b : Z).

(** A table as [init_htables] makes it. *)
Definition fresh_table ix : Prop :=
  ix_obs ix = ∅ ∧ ht_buckets (ix_htable ix) = ∅ ∧ w_refs (ix_world ix) = ∅ ∧
  ht_flags (ix_htable ix) = mkOBFlags false false ∧ 0 < ht_capacity (ix_htable ix).
Lemma fresh_table_ok ix : fresh_table ix → table_ok ix (λ _ _, None).
Proof using.
  intros (Ho & Hb & Hr & Hf & Hc).
  assert (Hno : ∀ p k c t, ¬ lives ix p k c t) by (intros p k c t; unfold lives; by rewrite Ho, lookup_empty).
  split; [|by intros p k c t H; destruct (Hno _ _ _ _ H)| |done].
  - exists (λ _ _, 0), (λ _, 0). split.
    + split.
      * intros b. exists []. split; [by rewrite Hb|constructor|by intros p e ?%elem_of_nil].
      * intros p e. by rewrite Ho, lookup_empty.
      * intros p e. by rewrite Ho, lookup_empty.
      * intros p e. by rewrite Ho, lookup_empty.
    + intros p k c t H. by destruct (Hno _ _ _ _ H).
    + intros id. unfold ref_count, all_slices, obs_slices. rewrite Hr, Ho, lookup_empty, map_to_list_empty. done.
    + unfold refs_pos. rewrite Hr. intros id n. by rewrite lookup_empty.
    + done.
    + rewrite Hf. done.
  - intros k b ty. split; [done|]. intros (d & (p & c & t & H & _) & _). by destruct (Hno _ _ _ _ H).
Qed.
Lemma dedup_start create remove : fresh_table create → fresh_table remove →
  dedup_inv (mkDedup create remove zero_stat zero_key) [].
Proof using.
  intros Hc Hr. split; simpl; [by apply fresh_table_ok| |done|done].
  exists (λ _ _, None). split_and!; [by apply fresh_table_ok|done| |done].
  intros k b (h1 & h2 & E & _). by destruct h1.
Qed.

Lemma dump_table_run time removing ix C a o : table_ok ix C → ar_mem a = [] → out_errors o = [] →
  ∃ n a' slices, htable_dump time removing ix a o = Some (0, n, a',
      mkOutput (out_content o ++ concat (replica_line <$> out_events time removing (out_current_version o) slices))
        (out_current_version o + Z.of_nat (length slices)) []) ∧
    ar_mem a' = [] ∧ keyed_wf slices ∧ StronglySorted slice_le slices ∧ ∀ k b ty, keyed_cover slices k b ty ↔ C k b = Some ty.
Proof using.
  intros HT Hm He. unfold htable_dump. destruct (table_obs ix C HT) as (obs & E & Hwf & Hc). rewrite E. simpl.
  destruct (dump_obs_run obs (mkArray (ar_alloc a) [] (ar_mem a)) Hm Hwf) as (runs & alloc & E2 & Hr & Hk). rewrite E2. simpl.
  assert (P : merge_sort slice_le runs ≡ₚ runs) by apply merge_sort_Permutation.
  rewrite (to_file_run time removing (merge_sort slice_le runs) o He). eexists _, _, (merge_sort slice_le runs).
  split; [done|]. split_and!; [done| | |].
  - unfold keyed_wf. by rewrite P.
  - apply StronglySorted_merge_sort.
    + intros x y z. unfold slice_le, compare_slice, cmp3. zcase; simpl; lia.
    + intros x y. unfold slice_le, compare_slice, cmp3. zcase; simpl; lia.
  - intros k b ty. rewrite (Hc k b ty), <- (Hk k b ty). unfold keyed_cover. setoid_rewrite P. done.
Qed.

(** The two parts of the output: removals of bytes of [R], creations of the bytes of [C]. *)
Lemma output_effect time v1 v2 (dels creates : list KeyedSlice) (C R : Content) h v k b :
  keyed_wf dels → keyed_wf creates →
  (∀ ty, keyed_cover dels k b ty ↔ R k b = Some ty) → (∀ ty, keyed_cover creates k b ty ↔ C k b = Some ty) →
  C k b = created h → (R k b ≠ None → ByteDelete ∈ h) → (created h = None → deleted_before h → R k b ≠ None) →
  dedup_safe h v →
  apply_ops (ops_at (event_record <$> (out_events time true v1 dels ++ out_events time false v2 creates)) k b) v = apply_ops h v.
Proof using.
  intros Wd Wc Hd Hc HC HR1 HR2 [Hs Hv]. rewrite fmap_app, ops_at_app, apply_app.
  set (hd := ops_at (event_record <$> out_events time true v1 dels) k b).
  set (hc := ops_at (event_record <$> out_events time false v2 creates) k b).
  assert (Hhd : ∀ o, o ∈ hd → o = ByteDelete).
  { intros o (ty & _ & ->)%(out_events_ops time true dels v1 Wd). done. }
  assert (Hhd0 : hd = [] ↔ R k b = None).
  { split.
    - intros E. destruct (R k b) as [ty|] eqn:ER; [|done]. exfalso.
      assert (Hin : ByteDelete ∈ hd) by (apply (out_events_ops time true dels v1 Wd); exists ty; split; [by apply Hd|done]).
      rewrite E in Hin. by apply elem_of_nil in Hin.
    - intros E. destruct hd as [|o l] eqn:Eh; [done|]. exfalso.
      assert (Hin : o ∈ hd) by (rewrite Eh; by left). apply (out_events_ops time true dels v1 Wd) in Hin as (ty & Hty & _).
      apply Hd in Hty. congruence. }
  rewrite (apply_deletes hd) by done.
  assert (Hhc : ∀ o, o ∈ hc ↔ ∃ ty, C k b = Some ty ∧ o = out_op false ty).
  { intros o. unfold hc. rewrite (out_events_ops time false creates v2 Wc). split; intros (ty & Hty & ->); exists ty; (split; [by apply Hc|done]). }
  destruct (C k b) as [[]|] eqn:EC.
  - (* written *)
    rewrite (apply_writes hc).
    2:{ intros o (ty & [= <-] & ->)%Hhc. done. }
    rewrite decide_False.
    2:{ intros E. assert (Hin : ByteWrite ∈ hc) by (apply Hhc; by exists OB_SLICE_TYPE_FILE). rewrite E in Hin. by apply elem_of_nil in Hin. }
    destruct Hv as [->|Hv]; [by rewrite created_apply|].
    destruct (kept_cases h Hv) as [[_ Ha]|[[Hn _] _]]; [by rewrite Ha|congruence].
  - (* allocated *)
    destruct Hv as [->|Hv].
    2:{ exfalso. destruct (kept_cases h Hv) as [[Hn _]|[[Hn _] _]]; congruence. }
    rewrite (apply_allocs hc).
    2:{ intros o (ty & [= <-] & ->)%Hhc. done. }
    assert (Hne : hc ≠ []).
    { intros E. assert (Hin : ByteAlloc ∈ hc) by (apply Hhc; by exists OB_SLICE_TYPE_ALLOC). rewrite E in Hin. by apply elem_of_nil in Hin. }
    rewrite created_apply, <- HC by done. rewrite (decide_False (P := hc = [])) by done. by case_decide.
  - (* neither *)
    assert (E : hc = []).
    { destruct hc as [|o l] eqn:Eh; [done|]. exfalso. assert (Hin : o ∈ o :: l) by by left.
      by apply Hhc in Hin as (ty & ? & _). }
    rewrite E. simpl. destruct Hv as [->|Hv].
    { rewrite created_apply, <- HC by done. by case_decide. }
    destruct (kept_cases h Hv) as [[Hn _]|[[_ Ha] Hb]]; [congruence|]. rewrite Ha.
    destruct (decide (h = [])) as [->|Hne].
    + rewrite decide_True; [done|]. apply Hhd0. destruct (R k b) as [ty|]; [|done]. exfalso.
      assert (Hin : ByteDelete ∈ []) by (by apply HR1). by apply elem_of_nil in Hin.
    + rewrite decide_False; [done|]. rewrite Hhd0. apply HR2; [congruence|by apply Hb].
Qed.

Context (split_string_ex : bytes → nat → Z → nat → bool → Cols).

Lemma dedup_binlog_run time pieces o create remove :
  split_spec split_string_ex → fresh_table create → fresh_table remove → Forall events_ok pieces → out_errors o = [] →
  ∃ result out, dedup_binlog space_of split_string_ex time (log_results pieces) 0 [] o create remove = Some (result, out) ∧
    (result = ENOMEM ∨ result = 0 ∧ ∃ events,
       out_content (default o out) = out_content o ++ concat (replica_line <$> events) ∧
       ∀ k b v, dedup_safe (ops_at (event_record <$> concat pieces) k b) v →
         apply_ops (ops_at (event_record <$> events) k b) v = apply_ops (ops_at (event_record <$> concat pieces) k b) v).
Proof using UniqSkiplistSpec0.
  intros Hsplit Hc Hr Hp Ho. unfold dedup_binlog.
  destruct (do_dedup_run space_of ledger_known split_string_ex Hsplit pieces [] _ (dedup_start create remove Hc Hr) Hp)
    as (res & c & E & H). rewrite E. simpl. destruct H as [[-> [HC (R & HR & R1 & R2 & R3) Hz [Hn1 Hn2]]]| ->]; simpl.
  2:{ eexists _, _. split; [done|]. by left. }
  cbn [app] in *. set (log := event_record <$> concat pieces) in *.
  set (C := λ k b, created (ops_at log k b)) in *.
  destruct (Z.eqb_spec (create_success (dd_stat c)) 0) as [Hs|Hs];
    destruct (Z.eqb_spec (partial_deletes (dd_stat c)) 0) as [Hd|Hd]; simpl.
  - (* nothing to do *)
    eexists _, _. split; [done|]. right. split; [done|]. exists []. split; [simpl; by rewrite app_nil_r|].
    intros k b v Hsafe. symmetry. change (apply_ops (ops_at (event_record <$> []) k b) v) with v.
    pose proof (output_effect 0 0 0 [] [] C R (ops_at log k b) v k b) as H. simpl in H. symmetry. apply H; try done.
    + constructor.
    + constructor.
    + intros ty. rewrite (R3 Hd k b). split; [by intros (s & ?%elem_of_nil & _)|done].
    + intros ty. unfold C. rewrite (Hz Hs k b). split; [by intros (s & ?%elem_of_nil & _)|done].
    + intros HRk. by apply R1.
    + intros _ Hdb. by apply R2.
  - (* removals only *)
    destruct (Z.ltb_spec 0 (partial_deletes (dd_stat c))); [|lia]. destruct (Z.ltb_spec 0 (create_success (dd_stat c))); [lia|]. simpl.
    destruct (dump_table_run time true (dd_remove c) R (mkArray (init_array_alloc (Z.max (partial_deletes (dd_stat c)) (create_success (dd_stat c)))) [] []) o HR eq_refl Ho)
      as (n & a' & dels & E1 & _ & Wd & _ & Hcd). rewrite E1. simpl.
    eexists _, _. split; [done|]. right. split; [done|]. exists (out_events time true (out_current_version o) dels ++ out_events time false 0 []).
    split; [simpl; by rewrite app_nil_r|]. intros k b v Hsafe. apply (output_effect _ _ _ _ _ C R); try done; try apply Hcd.
    + constructor.
    + intros ty. unfold C. rewrite (Hz Hs k b). split; [by intros (s & ?%elem_of_nil & _)|done].
    + intros HRk. by apply R1.
    + intros _ Hdb. by apply R2.
  - (* creations only *)
    destruct (Z.ltb_spec 0 (partial_deletes (dd_stat c))); [lia|]. destruct (Z.ltb_spec 0 (create_success (dd_stat c))); [|lia]. simpl.
    destruct (dump_table_run time false (dd_create c) C (mkArray (init_array_alloc (Z.max (partial_deletes (dd_stat c)) (create_success (dd_stat c)))) [] []) o HC eq_refl Ho)
      as (n & a' & creates & E1 & _ & Wc & _ & Hcc). rewrite E1. simpl.
    eexists _, _. split; [done|]. right. split; [done|]. exists (out_events time true 0 [] ++ out_events time false (out_current_version o) creates).
    split; [done|]. intros k b v Hsafe. apply (output_effect _ _ _ _ _ C R); try done; try apply Hcc.
    + constructor.
    + intros ty. rewrite (R3 Hd k b). split; [by intros (s & ?%elem_of_nil & _)|done].
    + intros HRk. by apply R1.
    + intros _ Hdb. by apply R2.
  - (* both *)
    destruct (Z.ltb_spec 0 (partial_deletes (dd_stat c))); [|lia]. destruct (Z.ltb_spec 0 (create_success (dd_stat c))); [|lia]. simpl.
    unfold htable_reverse_remove. destruct (table_obs (dd_create c) C HC) as (obs & E0 & Hwf & Hobs). rewrite E0. simpl.
    destruct (reverse_remove_run obs (dd_remove c) R HR Hwf) as (remove' & R' & E1 & HR' & H1 & H2). rewrite E1. simpl.
    destruct (dump_table_run time true remove' R' (mkArray (init_array_alloc (Z.max (partial_deletes (dd_stat c)) (create_success (dd_stat c)))) [] []) o HR' eq_refl Ho)
      as (n & a' & dels & E2 & Hm' & Wd & _ & Hcd). rewrite E2. simpl.
    destruct (dump_table_run time false (dd_create c) C a' (mkOutput (out_content o ++ concat (replica_line <$> out_events time true (out_current_version o) dels))
        (out_current_version o + Z.of_nat (length dels)) []) HC Hm' eq_refl) as (n2 & a2 & creates & E3 & _ & Wc & _ & Hcc). rewrite E3. simpl.
    eexists _, _. split; [done|]. right. split; [done|].
    exists (out_events time true (out_current_version o) dels ++ out_events time false (out_current_version o + Z.of_nat (length dels)) creates).
    split; [by rewrite fmap_app, concat_app, app_assoc|]. intros k b v Hsafe. apply (output_effect _ _ _ _ _ C R'); try done; try apply Hcd; try apply Hcc.
    + intros HRk. apply R1. by apply H1.
    + intros Hcn Hdb. apply H2; [by apply R2|]. intros ty Hty. apply Hobs in Hty. unfold C in Hty. congruence.
Qed.
End Main.

(** C20: A compaction of a log, fetched in any pieces, always comes to an end; unless memory runs
    out while the log is read, replaying the records it writes does to every byte of a slave
    what replaying the fetched log does, whatever the slave had there — as long as the log
    does not allocate over what it wrote, and neither allocates nor, after writing it again,
    deletes what the slave had ([dedup_safe]). *)
Theorem dedup_binlog_refines {T : Type} `{!UniqSkiplist OBSliceEntry T} `{!UniqSkiplistSpec slice_compare}
  (space_of : Z → FSTrunkSpaceInfo) split_string_ex time pieces o (create remove : Index T Ledger)
  (Hsplit : split_spec split_string_ex) (Hcreate : fresh_table create) (Hremove : fresh_table remove)
  (Hlog : Forall events_ok pieces) (Ho : out_errors o = []) :
  ∃ result out, dedup_binlog space_of split_string_ex time (log_results pieces) 0 [] o create remove = Some (result, out) ∧
    (result = ENOMEM ∨ result = 0 ∧ ∃ events,
       out_content (default o out) = out_content o ++ concat (replica_line <$> events) ∧
       ∀ k b v, dedup_safe (ops_at (event_record <$> concat pieces) k b) v →
         apply_ops (ops_at (event_record <$> events) k b) v = apply_ops (ops_at (event_record <$> concat pieces) k b) v).
Proof. by apply dedup_binlog_run. Qed.
