(* ===== verification/BinlogDedupDemo.v ===== *)
(** * Compactions of concrete logs

    One where the compacted log does what the log does, and logs for which it does not. *)
From S2P Require Import Prelude Types Skiplist ObSlices ObSlicesMain ObIndex Binlog BinlogSpec BinlogThms BinlogDemo.
From S2P Require Import BinlogDedup BinlogDedupThms BinlogDedupMain.

Module DedupDemo.
Definition table : Index (list OBSliceEntry) Ledger :=
  mkIndex (mkHtable 7 ∅ (mkOBFlags false false)) ∅ 0 (mkWorld [] 0 ∅ (λ _ _, 0) 0).
Lemma table_fresh : fresh_table table.
Proof. by split_and!. Qed.
Definition space_of (id : Z) : FSTrunkSpaceInfo := mkTrunkSpace 0 (mkTrunkId 0 0) 0 0.
Definition block : FSBlockKey := fs_calc_block_hashcode 5 0.
Definition event (v op off len : Z) : ReplicaEvent :=
  mkReplicaEvent 100 v BINLOG_SOURCE_RPC_MASTER op (mkBlockSliceKey block (mkSliceSize off len)).
Definition write := event 1 BINLOG_OP_TYPE_WRITE_SLICE.
Definition out0 (errors : list Z) : Output := mkOutput [] 10 errors.
Definition dedup (pieces : list (list ReplicaEvent)) (errors : list Z) : option (Z * option Output) :=
  dedup_binlog space_of demo_split 200 (log_results pieces) 0 [] (out0 errors) table table.
(** The lines of the output. *)
Definition replayed (v op off len : Z) : ReplicaEvent :=
  mkReplicaEvent 200 v BINLOG_SOURCE_REPLAY op (mkBlockSliceKey block (mkSliceSize off len)).
Definition writes_out (r : option (Z * option Output)) (events : list ReplicaEvent) : Prop :=
  ∃ v, r = Some (0, Some (mkOutput (concat (replica_line <$> events)) v [])).
Definition log_ops (events : list ReplicaEvent) (b : Z) : list ByteOp := ops_at (event_record <$> events) block b.

(** Two writes that meet become one; what was there before is deleted first. *)
Definition log : list ReplicaEvent :=
  [event 1 BINLOG_OP_TYPE_DEL_SLICE 0 64; event 2 BINLOG_OP_TYPE_WRITE_SLICE 16 8;
   event 3 BINLOG_OP_TYPE_WRITE_SLICE 24 8].
Example log_out : writes_out (dedup [log] [])
  [replayed 11 BINLOG_OP_TYPE_DEL_SLICE 0 16; replayed 12 BINLOG_OP_TYPE_DEL_SLICE 32 32;
   replayed 13 BINLOG_OP_TYPE_WRITE_SLICE 16 16].
Proof. exists 13. by vm_compute. Qed.
Lemma log_ok : Forall events_ok [log].
Proof.
  apply Forall_singleton. repeat (apply Forall_cons; split); try apply Forall_nil_2.
  all: split; [split_and!; [done|split_and!; [done| |]; by intros ?%list_elem_of_singleton|done..|]|].
  all: try (intros _; split_and!; done).
Qed.
Lemma log_safe : dedup_safe (log_ops log 20) (Some OB_SLICE_TYPE_FILE).
Proof.
  change (log_ops log 20) with [ByteDelete; ByteWrite]. split.
  - intros [|? [|? [|? h1]]] h2 [=].
  - right. split; [by intros [? |[?|?%elem_of_nil]%elem_of_cons]%elem_of_cons|].
    intros [|? [|? [|? h1]]] h2 [=]. by intros ?%elem_of_nil.
Qed.
Lemma dedup_binlog_refines_witness :
  ∃ result out, dedup [log] [] = Some (result, out) ∧
    (result = ENOMEM ∨ result = 0 ∧ ∃ events,
       out_content (default (out0 []) out) = concat (replica_line <$> events) ∧
       apply_ops (ops_at (event_record <$> events) block 20) (Some OB_SLICE_TYPE_FILE) = Some OB_SLICE_TYPE_FILE).
Proof.
  destruct (dedup_binlog_refines space_of demo_split 200 [log] (out0 []) table table demo_split_spec table_fresh table_fresh
              log_ok eq_refl) as (result & out & E & [->|(-> & events & Hc & H)]).
  - exists ENOMEM, out. split; [exact E|by left].
  - exists 0, out. split; [exact E|]. right. split; [done|]. exists events. split; [exact Hc|].
    exact (H block 20 (Some OB_SLICE_TYPE_FILE) log_safe).
Defined.

(** ** Where the compacted log is not the log *)

(** Written and deleted again: nothing is left to replay, and a byte the slave had stays. *)
Definition log1 : list ReplicaEvent := [event 1 BINLOG_OP_TYPE_WRITE_SLICE 0 8; event 2 BINLOG_OP_TYPE_DEL_SLICE 0 8].
Example deleted_byte_survives :
  writes_out (dedup [log1] []) [] ∧ apply_ops (log_ops log1 0) (Some OB_SLICE_TYPE_FILE) = None.
Proof. split; [exists 10; by vm_compute|done]. Qed.
(** Allocated after it was written: only the allocation is replayed, the data is not fetched. *)
Definition log2 : list ReplicaEvent := [event 1 BINLOG_OP_TYPE_WRITE_SLICE 0 8; event 2 BINLOG_OP_TYPE_ALLOC_SLICE 0 16].
Example written_byte_lost :
  writes_out (dedup [log2] []) [replayed 11 BINLOG_OP_TYPE_ALLOC_SLICE 0 16] ∧
  apply_ops (log_ops [replayed 11 BINLOG_OP_TYPE_ALLOC_SLICE 0 16] 0) None = Some OB_SLICE_TYPE_ALLOC ∧
  apply_ops (log_ops log2 0) None = Some OB_SLICE_TYPE_FILE.
Proof. split_and!; [exists 11; by vm_compute|done|done]. Qed.
(** Deleted and allocated: the deletion is dropped, and what the slave had stays. *)
Definition log3 : list ReplicaEvent := [event 1 BINLOG_OP_TYPE_DEL_SLICE 0 8; event 2 BINLOG_OP_TYPE_ALLOC_SLICE 0 8].
Example stale_byte_survives :
  writes_out (dedup [log3] []) [replayed 11 BINLOG_OP_TYPE_ALLOC_SLICE 0 8] ∧
  apply_ops (log_ops [replayed 11 BINLOG_OP_TYPE_ALLOC_SLICE 0 8] 0) (Some OB_SLICE_TYPE_FILE) = Some OB_SLICE_TYPE_FILE ∧
  apply_ops (log_ops log3 0) (Some OB_SLICE_TYPE_FILE) = Some OB_SLICE_TYPE_ALLOC.
Proof. split_and!; [exists 11; by vm_compute|done|done]. Qed.
(** An error while the removals are written is lost when the creations are written. *)
Definition log4 : list ReplicaEvent := [event 1 BINLOG_OP_TYPE_DEL_SLICE 0 8; event 2 BINLOG_OP_TYPE_WRITE_SLICE 16 8].
Example dump_error_lost : ∃ content v, dedup [log4] [ENOSPC] = Some (0, Some (mkOutput content v [])) ∧
  content = replica_line (replayed 12 BINLOG_OP_TYPE_WRITE_SLICE 16 8).
Proof. do 2 eexists. split; [vm_compute; reflexivity|by vm_compute]. Qed.
End DedupDemo.
