(* ===== verification/BinlogReplay.v ===== *)
(** * Replaying the fetched binlog on a recovering slave

    [src/server/recovery/binlog_replay.c]: the recovery thread reads the compacted binlog line
    by line and queues a task for each record; the dispatch thread takes up to
    [RECOVERY_THREADS_PER_DATA_GROUP] tasks at a time, has the fetch threads read the data of
    the writes from the master, and hands the tasks on to the replay thread, which executes
    them one after the other on a data thread. The threads interleave at every access of
    something they share. What the read thread of the binlog hands over, what the master and
    the data thread answer and whether memory is left is part of the step. A task is known by
    its number; tasks are used again. [fc_queue_pop] on an empty queue waits, and gives nothing
    when it is woken without an element. Statistics of time and the log are left out, and so
    are the failures to start a thread. *)
From S2P Require Import Prelude Types Binlog Skiplist ObSlices TrunkAllocator StorageAllocator.
From S2P Require Import ObIndex SliceOp DataThread BinlogDedup.

Definition ENODATA : Z := 61.

(** [RECOVERY_THREADS_PER_DATA_GROUP] and the library function that splits a line. *)
Class ReplayConfig := {
  RECOVERY_THREADS_PER_DATA_GROUP : nat;
  split_string_ex : bytes → nat → Z → nat → bool → Cols;
}.

(** [FS_THREAD_STAGE_xxx]. *)
Inductive ThreadStage := STAGE_RUNNING | STAGE_CLEANUP | STAGE_FINISHED.
#[export] Instance ThreadStage_eq_dec : EqDecision ThreadStage.
Proof. solve_decision. Defined.

(** [ReplayTaskInfo]: operation type, version and key are those of [rt_record]; [rt_buff] is the
    part of the buffer that holds data. *)
Record ReplayTaskInfo := mkTask {
  rt_record : ReplicaBinlogRecord;
  rt_result : Z;
  rt_buff : bytes;
}.

(** [FSCounterTripple] and [ReplayStatInfo]. *)
Record Counter := mkCounter { ct_total : Z; ct_success : Z; ct_ignore : Z }.
Record ReplayStatInfo := mkStat { rs_write : Counter; rs_allocate : Counter; rs_remove : Counter }.

(** What the replay thread has caused: an operation of a data thread with its result, and a
    record logged in place of an operation, with the data version of the server set to it. *)
Inductive ReplayEvent :=
| DataOp (operation : DataOperation) (record : ReplicaBinlogRecord) (data : bytes) (result : Z)
| NoOpLogged (data_version : Z) (block : FSBlockKey).

(** Where the recovery thread is: in [do_replay_binlog], in [deal_binlog_buffer] with the rest
    of the buffer, in [replay_finish], in [waiting_work_threads_exit]. *)
Inductive MainPc :=
| MainStart
| MainLoop
| MainFetch
| MainBuffer (p : bytes)
| MainAlloc (p : bytes)
| MainPush (task : Z) (p : bytes)
| MainEnd (result : Z)
| MainWaitDispatch (result : Z)
| MainWaitReplay (result replay_total_count : Z)
| MainExit (result : Z)
| MainExitDispatch (result : Z)
| MainExitReplay (result : Z)
| MainReturned (result : Z).

(** The dispatch thread, in [task_dispatch_run] and [task_dispatch] with the array of tasks. *)
Inductive DispatchPc :=
| DispatchLoop
| DispatchGather (tasks : list Z)
| DispatchCheck (tasks : list Z)
| DispatchWait (tasks : list Z)
| DispatchRecheck (tasks : list Z)
| DispatchPush (tasks : list Z)
| DispatchCount (count : Z)
| DispatchTotal (count : Z)
| DispatchClear
| DispatchWaitExit
| DispatchFinished.

(** A fetch thread, in [fetch_data_run]. *)
Inductive FetchPc := FetchLoop | FetchPop | FetchRead (task : Z) | FetchNotify | FetchExited.
Record FetchDataThreadContext := mkFetch { ft_queue : list Z; ft_pc : FetchPc }.

(** The replay thread, in [binlog_replay_run] and [deal_task]. *)
Inductive ReplayPc :=
| ReplayLoop
| ReplayPop
| ReplayDeal (task : Z)
| ReplayWaiting (task : Z) (operation : DataOperation)
| ReplayWaitDispatch
| ReplayClear
| ReplayFinished.

(** [BinlogReplayContext]. [rc_sf_continue] is [SF_G_CONTINUE_FLAG]; [rc_free] are the tasks
    the allocator can give; [rc_queue] to [rc_dispatch] belong to the dispatch thread,
    [rc_replay_queue] to [rc_replay] to the replay thread. Ghosts: [rc_buffers] are the buffers
    the read thread handed over, [rc_pushed] the records of the tasks that were queued,
    [rc_answers] the records of writes for which the master was asked for the data, each with
    the result and the data it answered. *)
Record BinlogReplayContext := mkReplay {
  rc_sf_continue : bool;
  rc_continue : bool;
  rc_start_data_version : Z;
  rc_total_count : Z;
  rc_fail_count : Z;
  rc_record : ReplicaBinlogRecord;
  rc_main : MainPc;
  rc_tasks : gmap Z ReplayTaskInfo;
  rc_free : list Z;
  rc_queue : list Z;
  rc_dispatched : Z;
  rc_dispatch_stage : ThreadStage;
  rc_fetch_data_count : Z;
  rc_replay_total_count : Z;
  rc_dispatch : DispatchPc;
  rc_fetch : list FetchDataThreadContext;
  rc_replay_queue : list Z;
  rc_replay_count : Z;
  rc_replay_stage : ThreadStage;
  rc_stat : ReplayStatInfo;
  rc_replay : ReplayPc;
  rc_events : list ReplayEvent;
  rc_buffers : list bytes;
  rc_pushed : list ReplicaBinlogRecord;
  rc_answers : list (ReplicaBinlogRecord * Z * bytes);
}.

(** ** Changes of single fields *)
Definition set_sf_continue x (c : BinlogReplayContext) : BinlogReplayContext :=
  mkReplay
    x (rc_continue c) (rc_start_data_version c) (rc_total_count c) (rc_fail_count c) (rc_record c)
    (rc_main c) (rc_tasks c) (rc_free c) (rc_queue c) (rc_dispatched c) (rc_dispatch_stage c)
    (rc_fetch_data_count c) (rc_replay_total_count c) (rc_dispatch c) (rc_fetch c) (rc_replay_queue
    c) (rc_replay_count c) (rc_replay_stage c) (rc_stat c) (rc_replay c) (rc_events c) (rc_buffers c)
    (rc_pushed c) (rc_answers c).
Definition set_continue x (c : BinlogReplayContext) : BinlogReplayContext :=
  mkReplay
    (rc_sf_continue c) x (rc_start_data_version c) (rc_total_count c) (rc_fail_count c) (rc_record
    c) (rc_main c) (rc_tasks c) (rc_free c) (rc_queue c) (rc_dispatched c) (rc_dispatch_stage c)
    (rc_fetch_data_count c) (rc_replay_total_count c) (rc_dispatch c) (rc_fetch c) (rc_replay_queue
    c) (rc_replay_count c) (rc_replay_stage c) (rc_stat c) (rc_replay c) (rc_events c) (rc_buffers c)
    (rc_pushed c) (rc_answers c).
Definition set_start_data_version x (c : BinlogReplayContext) : BinlogReplayContext :=
  mkReplay
    (rc_sf_continue c) (rc_continue c) x (rc_total_count c) (rc_fail_count c) (rc_record c) (rc_main
    c) (rc_tasks c) (rc_free c) (rc_queue c) (rc_dispatched c) (rc_dispatch_stage c)
    (rc_fetch_data_count c) (rc_replay_total_count c) (rc_dispatch c) (rc_fetch c) (rc_replay_queue
    c) (rc_replay_count c) (rc_replay_stage c) (rc_stat c) (rc_replay c) (rc_events c) (rc_buffers c)
    (rc_pushed c) (rc_answers c).
Definition set_total_count x (c : BinlogReplayContext) : BinlogReplayContext :=
  mkReplay
    (rc_sf_continue c) (rc_continue c) (rc_start_data_version c) x (rc_fail_count c) (rc_record c)
    (rc_main c) (rc_tasks c) (rc_free c) (rc_queue c) (rc_dispatched c) (rc_dispatch_stage c)
    (rc_fetch_data_count c) (rc_replay_total_count c) (rc_dispatch c) (rc_fetch c) (rc_replay_queue
    c) (rc_replay_count c) (rc_replay_stage c) (rc_stat c) (rc_replay c) (rc_events c) (rc_buffers c)
    (rc_pushed c) (rc_answers c).
Definition set_fail_count x (c : BinlogReplayContext) : BinlogReplayContext :=
  mkReplay
    (rc_sf_continue c) (rc_continue c) (rc_start_data_version c) (rc_total_count c) x (rc_record c)
    (rc_main c) (rc_tasks c) (rc_free c) (rc_queue c) (rc_dispatched c) (rc_dispatch_stage c)
    (rc_fetch_data_count c) (rc_replay_total_count c) (rc_dispatch c) (rc_fetch c) (rc_replay_queue
    c) (rc_replay_count c) (rc_replay_stage c) (rc_stat c) (rc_replay c) (rc_events c) (rc_buffers c)
    (rc_pushed c) (rc_answers c).
Definition set_record x (c : BinlogReplayContext) : BinlogReplayContext :=
  mkReplay
    (rc_sf_continue c) (rc_continue c) (rc_start_data_version c) (rc_total_count c) (rc_fail_count
    c) x (rc_main c) (rc_tasks c) (rc_free c) (rc_queue c) (rc_dispatched c) (rc_dispatch_stage c)
    (rc_fetch_data_count c) (rc_replay_total_count c) (rc_dispatch c) (rc_fetch c) (rc_replay_queue
    c) (rc_replay_count c) (rc_replay_stage c) (rc_stat c) (rc_replay c) (rc_events c) (rc_buffers c)
    (rc_pushed c) (rc_answers c).
Definition set_main x (c : BinlogReplayContext) : BinlogReplayContext :=
  mkReplay
    (rc_sf_continue c) (rc_continue c) (rc_start_data_version c) (rc_total_count c) (rc_fail_count
    c) (rc_record c) x (rc_tasks c) (rc_free c) (rc_queue c) (rc_dispatched c) (rc_dispatch_stage c)
    (rc_fetch_data_count c) (rc_replay_total_count c) (rc_dispatch c) (rc_fetch c) (rc_replay_queue
    c) (rc_replay_count c) (rc_replay_stage c) (rc_stat c) (rc_replay c) (rc_events c) (rc_buffers c)
    (rc_pushed c) (rc_answers c).
Definition set_tasks x (c : BinlogReplayContext) : BinlogReplayContext :=
  mkReplay
    (rc_sf_continue c) (rc_continue c) (rc_start_data_version c) (rc_total_count c) (rc_fail_count
    c) (rc_record c) (rc_main c) x (rc_free c) (rc_queue c) (rc_dispatched c) (rc_dispatch_stage c)
    (rc_fetch_data_count c) (rc_replay_total_count c) (rc_dispatch c) (rc_fetch c) (rc_replay_queue
    c) (rc_replay_count c) (rc_replay_stage c) (rc_stat c) (rc_replay c) (rc_events c) (rc_buffers c)
    (rc_pushed c) (rc_answers c).
Definition set_free x (c : BinlogReplayContext) : BinlogReplayContext :=
  mkReplay
    (rc_sf_continue c) (rc_continue c) (rc_start_data_version c) (rc_total_count c) (rc_fail_count
    c) (rc_record c) (rc_main c) (rc_tasks c) x (rc_queue c) (rc_dispatched c) (rc_dispatch_stage c)
    (rc_fetch_data_count c) (rc_replay_total_count c) (rc_dispatch c) (rc_fetch c) (rc_replay_queue
    c) (rc_replay_count c) (rc_replay_stage c) (rc_stat c) (rc_replay c) (rc_events c) (rc_buffers c)
    (rc_pushed c) (rc_answers c).
Definition set_queue x (c : BinlogReplayContext) : BinlogReplayContext :=
  mkReplay
    (rc_sf_continue c) (rc_continue c) (rc_start_data_version c) (rc_total_count c) (rc_fail_count
    c) (rc_record c) (rc_main c) (rc_tasks c) (rc_free c) x (rc_dispatched c) (rc_dispatch_stage c)
    (rc_fetch_data_count c) (rc_replay_total_count c) (rc_dispatch c) (rc_fetch c) (rc_replay_queue
    c) (rc_replay_count c) (rc_replay_stage c) (rc_stat c) (rc_replay c) (rc_events c) (rc_buffers c)
    (rc_pushed c) (rc_answers c).
Definition set_dispatched x (c : BinlogReplayContext) : BinlogReplayContext :=
  mkReplay
    (rc_sf_continue c) (rc_continue c) (rc_start_data_version c) (rc_total_count c) (rc_fail_count
    c) (rc_record c) (rc_main c) (rc_tasks c) (rc_free c) (rc_queue c) x (rc_dispatch_stage c)
    (rc_fetch_data_count c) (rc_replay_total_count c) (rc_dispatch c) (rc_fetch c) (rc_replay_queue
    c) (rc_replay_count c) (rc_replay_stage c) (rc_stat c) (rc_replay c) (rc_events c) (rc_buffers c)
    (rc_pushed c) (rc_answers c).
Definition set_dispatch_stage x (c : BinlogReplayContext) : BinlogReplayContext :=
  mkReplay
    (rc_sf_continue c) (rc_continue c) (rc_start_data_version c) (rc_total_count c) (rc_fail_count
    c) (rc_record c) (rc_main c) (rc_tasks c) (rc_free c) (rc_queue c) (rc_dispatched c) x
    (rc_fetch_data_count c) (rc_replay_total_count c) (rc_dispatch c) (rc_fetch c) (rc_replay_queue
    c) (rc_replay_count c) (rc_replay_stage c) (rc_stat c) (rc_replay c) (rc_events c) (rc_buffers c)
    (rc_pushed c) (rc_answers c).
Definition set_fetch_data_count x (c : BinlogReplayContext) : BinlogReplayContext :=
  mkReplay
    (rc_sf_continue c) (rc_continue c) (rc_start_data_version c) (rc_total_count c) (rc_fail_count
    c) (rc_record c) (rc_main c) (rc_tasks c) (rc_free c) (rc_queue c) (rc_dispatched c)
    (rc_dispatch_stage c) x (rc_replay_total_count c) (rc_dispatch c) (rc_fetch c) (rc_replay_queue
    c) (rc_replay_count c) (rc_replay_stage c) (rc_stat c) (rc_replay c) (rc_events c) (rc_buffers c)
    (rc_pushed c) (rc_answers c).
Definition set_replay_total_count x (c : BinlogReplayContext) : BinlogReplayContext :=
  mkReplay
    (rc_sf_continue c) (rc_continue c) (rc_start_data_version c) (rc_total_count c) (rc_fail_count
    c) (rc_record c) (rc_main c) (rc_tasks c) (rc_free c) (rc_queue c) (rc_dispatched c)
    (rc_dispatch_stage c) (rc_fetch_data_count c) x (rc_dispatch c) (rc_fetch c) (rc_replay_queue c)
    (rc_replay_count c) (rc_replay_stage c) (rc_stat c) (rc_replay c) (rc_events c) (rc_buffers c)
    (rc_pushed c) (rc_answers c).
Definition set_dispatch x (c : BinlogReplayContext) : BinlogReplayContext :=
  mkReplay
    (rc_sf_continue c) (rc_continue c) (rc_start_data_version c) (rc_total_count c) (rc_fail_count
    c) (rc_record c) (rc_main c) (rc_tasks c) (rc_free c) (rc_queue c) (rc_dispatched c)
    (rc_dispatch_stage c) (rc_fetch_data_count c) (rc_replay_total_count c) x (rc_fetch c)
    (rc_replay_queue c) (rc_replay_count c) (rc_replay_stage c) (rc_stat c) (rc_replay c) (rc_events
    c) (rc_buffers c)
    (rc_pushed c) (rc_answers c).
Definition set_fetch x (c : BinlogReplayContext) : BinlogReplayContext :=
  mkReplay
    (rc_sf_continue c) (rc_continue c) (rc_start_data_version c) (rc_total_count c) (rc_fail_count
    c) (rc_record c) (rc_main c) (rc_tasks c) (rc_free c) (rc_queue c) (rc_dispatched c)
    (rc_dispatch_stage c) (rc_fetch_data_count c) (rc_replay_total_count c) (rc_dispatch c) x
    (rc_replay_queue c) (rc_replay_count c) (rc_replay_stage c) (rc_stat c) (rc_replay c) (rc_events
    c) (rc_buffers c)
    (rc_pushed c) (rc_answers c).
Definition set_replay_queue x (c : BinlogReplayContext) : BinlogReplayContext :=
  mkReplay
    (rc_sf_continue c) (rc_continue c) (rc_start_data_version c) (rc_total_count c) (rc_fail_count
    c) (rc_record c) (rc_main c) (rc_tasks c) (rc_free c) (rc_queue c) (rc_dispatched c)
    (rc_dispatch_stage c) (rc_fetch_data_count c) (rc_replay_total_count c) (rc_dispatch c)
    (rc_fetch c) x (rc_replay_count c) (rc_replay_stage c) (rc_stat c) (rc_replay c) (rc_events c)
    (rc_buffers c)
    (rc_pushed c) (rc_answers c).
Definition set_replay_count x (c : BinlogReplayContext) : BinlogReplayContext :=
  mkReplay
    (rc_sf_continue c) (rc_continue c) (rc_start_data_version c) (rc_total_count c) (rc_fail_count
    c) (rc_record c) (rc_main c) (rc_tasks c) (rc_free c) (rc_queue c) (rc_dispatched c)
    (rc_dispatch_stage c) (rc_fetch_data_count c) (rc_replay_total_count c) (rc_dispatch c)
    (rc_fetch c) (rc_replay_queue c) x (rc_replay_stage c) (rc_stat c) (rc_replay c) (rc_events c)
    (rc_buffers c)
    (rc_pushed c) (rc_answers c).
Definition set_replay_stage x (c : BinlogReplayContext) : BinlogReplayContext :=
  mkReplay
    (rc_sf_continue c) (rc_continue c) (rc_start_data_version c) (rc_total_count c) (rc_fail_count
    c) (rc_record c) (rc_main c) (rc_tasks c) (rc_free c) (rc_queue c) (rc_dispatched c)
    (rc_dispatch_stage c) (rc_fetch_data_count c) (rc_replay_total_count c) (rc_dispatch c)
    (rc_fetch c) (rc_replay_queue c) (rc_replay_count c) x (rc_stat c) (rc_replay c) (rc_events c)
    (rc_buffers c)
    (rc_pushed c) (rc_answers c).
Definition set_stat x (c : BinlogReplayContext) : BinlogReplayContext :=
  mkReplay
    (rc_sf_continue c) (rc_continue c) (rc_start_data_version c) (rc_total_count c) (rc_fail_count
    c) (rc_record c) (rc_main c) (rc_tasks c) (rc_free c) (rc_queue c) (rc_dispatched c)
    (rc_dispatch_stage c) (rc_fetch_data_count c) (rc_replay_total_count c) (rc_dispatch c)
    (rc_fetch c) (rc_replay_queue c) (rc_replay_count c) (rc_replay_stage c) x (rc_replay c)
    (rc_events c) (rc_buffers c)
    (rc_pushed c) (rc_answers c).
Definition set_replay x (c : BinlogReplayContext) : BinlogReplayContext :=
  mkReplay
    (rc_sf_continue c) (rc_continue c) (rc_start_data_version c) (rc_total_count c) (rc_fail_count
    c) (rc_record c) (rc_main c) (rc_tasks c) (rc_free c) (rc_queue c) (rc_dispatched c)
    (rc_dispatch_stage c) (rc_fetch_data_count c) (rc_replay_total_count c) (rc_dispatch c)
    (rc_fetch c) (rc_replay_queue c) (rc_replay_count c) (rc_replay_stage c) (rc_stat c) x
    (rc_events c) (rc_buffers c)
    (rc_pushed c) (rc_answers c).
Definition set_events x (c : BinlogReplayContext) : BinlogReplayContext :=
  mkReplay
    (rc_sf_continue c) (rc_continue c) (rc_start_data_version c) (rc_total_count c) (rc_fail_count
    c) (rc_record c) (rc_main c) (rc_tasks c) (rc_free c) (rc_queue c) (rc_dispatched c)
    (rc_dispatch_stage c) (rc_fetch_data_count c) (rc_replay_total_count c) (rc_dispatch c)
    (rc_fetch c) (rc_replay_queue c) (rc_replay_count c) (rc_replay_stage c) (rc_stat c) (rc_replay
    c) x (rc_buffers c)
    (rc_pushed c) (rc_answers c).
Definition set_buffers x (c : BinlogReplayContext) : BinlogReplayContext :=
  mkReplay
    (rc_sf_continue c) (rc_continue c) (rc_start_data_version c) (rc_total_count c) (rc_fail_count
    c) (rc_record c) (rc_main c) (rc_tasks c) (rc_free c) (rc_queue c) (rc_dispatched c)
    (rc_dispatch_stage c) (rc_fetch_data_count c) (rc_replay_total_count c) (rc_dispatch c)
    (rc_fetch c) (rc_replay_queue c) (rc_replay_count c) (rc_replay_stage c) (rc_stat c) (rc_replay
    c) (rc_events c) x (rc_pushed c) (rc_answers c).
Definition set_pushed x (c : BinlogReplayContext) : BinlogReplayContext :=
  mkReplay
    (rc_sf_continue c) (rc_continue c) (rc_start_data_version c) (rc_total_count c) (rc_fail_count
    c) (rc_record c) (rc_main c) (rc_tasks c) (rc_free c) (rc_queue c) (rc_dispatched c)
    (rc_dispatch_stage c) (rc_fetch_data_count c) (rc_replay_total_count c) (rc_dispatch c)
    (rc_fetch c) (rc_replay_queue c) (rc_replay_count c) (rc_replay_stage c) (rc_stat c) (rc_replay
    c) (rc_events c) (rc_buffers c) x (rc_answers c).
Definition set_answers x (c : BinlogReplayContext) : BinlogReplayContext :=
  mkReplay
    (rc_sf_continue c) (rc_continue c) (rc_start_data_version c) (rc_total_count c) (rc_fail_count
    c) (rc_record c) (rc_main c) (rc_tasks c) (rc_free c) (rc_queue c) (rc_dispatched c)
    (rc_dispatch_stage c) (rc_fetch_data_count c) (rc_replay_total_count c) (rc_dispatch c)
    (rc_fetch c) (rc_replay_queue c) (rc_replay_count c) (rc_replay_stage c) (rc_stat c) (rc_replay
    c) (rc_events c) (rc_buffers c) (rc_pushed c) x.

Section Replay.
Context `{cfg : ReplayConfig}.
Implicit Types (c : BinlogReplayContext) (t : Z) (tasks : list Z).

(** [binlog_replay_fail]. *)
Definition binlog_replay_fail c : BinlogReplayContext :=
  set_continue false (set_fail_count (rc_fail_count c + 1) c).

Definition free_tasks tasks c : BinlogReplayContext := set_free (rc_free c ++ tasks) c.
Definition upd_task t (f : ReplayTaskInfo → ReplayTaskInfo) c : BinlogReplayContext :=
  set_tasks (alter f t (rc_tasks c)) c.
Definition is_write t c : bool :=
  match rc_tasks c !! t with
  | Some task => rr_op_type (rt_record task) =? BINLOG_OP_TYPE_WRITE_SLICE
  | None => false
  end.

(** ** The recovery thread *)

(** A round of the loop of [deal_binlog_buffer] up to the allocation of the task. *)
Definition next_record (p : bytes) c : BinlogReplayContext :=
  match memchr NEWLINE p with
  | None => set_main (MainEnd EINVAL) c
  | Some n =>
      match replica_binlog_record_unpack split_string_ex p (S n) (rr_bs_key (rc_record c)) with
      | inl e => set_main (MainEnd e) c
      | inr record =>
          let c := set_record record c in
          let c := if rc_start_data_version c =? 0
                   then set_start_data_version (rr_data_version record) c else c in
          if FS_FILE_BLOCK_SIZE <? ss_length (bs_slice (rr_bs_key record))
          then set_main (MainEnd EINVAL) c
          else set_main (MainAlloc (drop (S n) p)) c
      end
  end.
Definition deal_binlog_buffer (p : bytes) c : BinlogReplayContext :=
  match p with
  | [] => set_main MainLoop c
  | _ => if rc_sf_continue c && rc_continue c then next_record p c else set_main MainLoop c
  end.

(** [fast_mblock_alloc_object], with the place of the task in the chain of the allocator;
    waiting for a free task ends without one when the server terminates. *)
Definition alloc_task (p : bytes) (slot : option nat) c : option BinlogReplayContext :=
  match slot with
  | None => Some (set_main (MainEnd EINTR) c)
  | Some n =>
      match rc_free c !! n with
      | None => None
      | Some t =>
          if rc_sf_continue c && rc_continue c
          then Some (set_main (MainPush t p) (set_free (delete n (rc_free c)) c))
          else Some (set_main (MainEnd EINTR) c)
      end
  end.

(** The rest of the round: the task is filled and queued. *)
Definition push_task t (p : bytes) c : BinlogReplayContext :=
  let record := rehash (rc_record c) in
  let c := upd_task t (λ task, mkTask record (rt_result task) (rt_buff task)) (set_record record c) in
  let c := set_pushed (rc_pushed c ++ [record]) (set_total_count (rc_total_count c + 1) c) in
  set_main (MainBuffer p) (set_queue (rc_queue c ++ [t]) c).

(** The loop of [do_replay_binlog] gets a result of the read thread. *)
Definition fetch_result (r : FetchResult) c : BinlogReplayContext :=
  match r with
  | NoResult => set_main (MainEnd EINTR) c
  | ReadError err_no => set_main (MainEnd (if err_no =? ENOENT then 0 else err_no)) c
  | ReadBuffer buffer => set_main (MainBuffer buffer) (set_buffers (rc_buffers c ++ [buffer]) c)
  end.

(** [do_replay_binlog] with [replay_finish]; [init] is the result of looking up the position
    and starting the read thread. *)
Definition do_replay_binlog (init : Z) (r : FetchResult) (slot : option nat) c
    : option BinlogReplayContext :=
  match rc_main c with
  | MainStart => Some (set_main (if init =? 0 then MainLoop else MainExit init) c)
  | MainLoop => Some (set_main (if rc_sf_continue c && rc_continue c then MainFetch else MainEnd 0) c)
  | MainFetch => Some (fetch_result r c)
  | MainBuffer p => Some (deal_binlog_buffer p c)
  | MainAlloc p => alloc_task p slot c
  | MainPush t p => Some (push_task t p c)
  | MainEnd result =>
      Some (set_main (MainWaitDispatch result) (if result =? 0 then c else binlog_replay_fail c))
  | MainWaitDispatch result =>
      let sub := cast32 (rc_total_count c - rc_dispatched c) in
      if 0 <? sub then None
      else Some (set_main (MainWaitReplay result (rc_replay_total_count c)) c)
  | MainWaitReplay result replay_total_count =>
      if rc_replay_count c <? replay_total_count then None else Some (set_main (MainExit result) c)
  | MainExit result => Some (set_main (MainExitDispatch result) (set_continue false c))
  | MainExitDispatch result =>
      if decide (rc_dispatch_stage c = STAGE_FINISHED)
      then Some (set_main (MainExitReplay result) c) else None
  | MainExitReplay result =>
      if decide (rc_replay_stage c = STAGE_FINISHED)
      then Some (set_main (MainReturned (if (result =? 0) && (0 <? rc_fail_count c) then EBUSY else result)) c)
      else None
  | MainReturned _ => None
  end.

(** ** The dispatch thread *)

(** The tasks are given back when the replay has been given up. *)
Definition drop_tasks tasks c : BinlogReplayContext :=
  set_dispatch (DispatchTotal (Z.of_nat (length tasks))) (free_tasks tasks c).

(** The first half of [task_dispatch]: a write goes to the fetch thread of its place. *)
Definition push_writes tasks c : list FetchDataThreadContext :=
  imap (λ i ft, match tasks !! i with
                | Some t => if is_write t c then mkFetch (ft_queue ft ++ [t]) (ft_pc ft) else ft
                | None => ft
                end) (rc_fetch c).
Definition fetch_writes tasks c : BinlogReplayContext :=
  let write_count := Z.of_nat (length (filter (λ t, is_write t c = true) tasks)) in
  if 0 <? write_count then
    set_dispatch (DispatchWait tasks)
      (set_fetch (push_writes tasks c) (set_fetch_data_count (rc_fetch_data_count c + write_count) c))
  else set_dispatch (DispatchRecheck tasks) c.

(** [clear_task_queue] of the queue of the dispatch thread, once it has left its loop. *)
Definition dispatch_clear c : option BinlogReplayContext :=
  if rc_continue c then None
  else
    let c1 := set_dispatched (rc_dispatched c + Z.of_nat (length (rc_queue c)))
                (free_tasks (rc_queue c) (set_queue [] c)) in
    Some (set_dispatch DispatchWaitExit c1).

Definition is_running (ft : FetchDataThreadContext) : bool :=
  match ft_pc ft with FetchExited => false | _ => true end.

(** [task_dispatch_run] with [task_dispatch]; [woken] tells whether the wait for the queue was
    ended without an element. *)
Definition task_dispatch_run (woken : bool) c : option BinlogReplayContext :=
  match rc_dispatch c with
  | DispatchLoop =>
      Some (if rc_continue c then set_dispatch (DispatchGather []) c
            else set_dispatch DispatchClear (set_dispatch_stage STAGE_CLEANUP c))
  | DispatchGather tasks =>
      match rc_queue c with
      | t :: queue =>
          let tasks := tasks ++ [t] in
          Some (set_dispatch (if (length tasks =? RECOVERY_THREADS_PER_DATA_GROUP)%nat
                              then DispatchCheck tasks else DispatchGather tasks) (set_queue queue c))
      | [] =>
          if woken then Some (set_dispatch (match tasks with
                                            | [] => DispatchLoop
                                            | _ => DispatchCheck tasks
                                            end) c)
          else None
      end
  | DispatchCheck tasks =>
      Some (if rc_continue c then fetch_writes tasks c else drop_tasks tasks c)
  | DispatchWait tasks =>
      if 0 <? rc_fetch_data_count c then None else Some (set_dispatch (DispatchRecheck tasks) c)
  | DispatchRecheck tasks =>
      Some (if rc_continue c then set_dispatch (DispatchPush tasks) c else drop_tasks tasks c)
  | DispatchPush tasks =>
      Some (set_dispatch (DispatchCount (Z.of_nat (length tasks)))
              (set_replay_queue (rc_replay_queue c ++ tasks) c))
  | DispatchCount count =>
      Some (set_dispatch (DispatchTotal count)
              (set_replay_total_count (rc_replay_total_count c + count) c))
  | DispatchTotal count =>
      Some (set_dispatch DispatchLoop (set_dispatched (rc_dispatched c + count) c))
  | DispatchClear => dispatch_clear c
  | DispatchWaitExit =>
      if existsb is_running (rc_fetch c) then None
      else Some (set_dispatch DispatchFinished (set_dispatch_stage STAGE_FINISHED c))
  | DispatchFinished => None
  end.

(** ** The fetch threads *)

Definition set_fetch_thread (i : nat) (ft : FetchDataThreadContext) c : BinlogReplayContext :=
  set_fetch (<[i := ft]> (rc_fetch c)) c.

(** [task->op_ctx.info.bs_key.slice.length = read_bytes]. *)
Definition with_length (record : ReplicaBinlogRecord) (length : Z) : ReplicaBinlogRecord :=
  let k := rr_bs_key record in
  mkReplicaRecord (rr_op_type record) (rr_source record)
    (mkBlockSliceKey (bs_block k) (mkSliceSize (ss_offset (bs_slice k)) length)) (rr_data_version record).

(** The answer of [fs_client_slice_read_by_slave] to a task. *)
Definition fetched (result : Z) (data : bytes) (task : ReplayTaskInfo) : ReplayTaskInfo :=
  if result =? 0
  then mkTask (with_length (rt_record task) (Z.of_nat (length data))) 0 data
  else mkTask (rt_record task) result (rt_buff task).
(** No more is read than was asked for. *)
Definition answer_ok t (result : Z) (data : bytes) c : bool :=
  negb (result =? 0) ||
  match rc_tasks c !! t with
  | Some task => Z.of_nat (length data) <=? ss_length (bs_slice (rr_bs_key (rt_record task)))
  | None => false
  end.

(** The ghost of the answer. *)
Definition log_answer t (result : Z) (data : bytes) c : BinlogReplayContext :=
  match rc_tasks c !! t with
  | Some task => set_answers (rc_answers c ++ [(rt_record task, result, data)]) c
  | None => c
  end.

(** [fetch_data_run]. *)
Definition fetch_data_run (i : nat) (woken : bool) (result : Z) (data : bytes) c
    : option BinlogReplayContext :=
  ft ← rc_fetch c !! i;
  match ft_pc ft with
  | FetchLoop =>
      Some (set_fetch_thread i (mkFetch (ft_queue ft)
        (if decide (rc_dispatch_stage c = STAGE_RUNNING) then FetchPop else FetchExited)) c)
  | FetchPop =>
      match ft_queue ft with
      | t :: queue => Some (set_fetch_thread i (mkFetch queue (FetchRead t)) c)
      | [] => if woken then Some (set_fetch_thread i (mkFetch [] FetchLoop) c) else None
      end
  | FetchRead t =>
      if answer_ok t result data c then
        let c := upd_task t (fetched result data) (log_answer t result data c) in
        let c := if (result =? 0) || (result =? ENODATA) then c else binlog_replay_fail c in
        Some (set_fetch_thread i (mkFetch (ft_queue ft) FetchNotify) c)
      else None
  | FetchNotify =>
      Some (set_fetch_thread i (mkFetch (ft_queue ft) FetchLoop)
              (set_fetch_data_count (rc_fetch_data_count c - 1) c))
  | FetchExited => None
  end.

(** ** The replay thread *)

Definition count_total (n : Counter) : Counter := mkCounter (ct_total n + 1) (ct_success n) (ct_ignore n).
Definition count_success (n : Counter) : Counter := mkCounter (ct_total n) (ct_success n + 1) (ct_ignore n).
Definition count_ignore (n : Counter) : Counter := mkCounter (ct_total n) (ct_success n) (ct_ignore n + 1).
Definition on_write f (s : ReplayStatInfo) := mkStat (f (rs_write s)) (rs_allocate s) (rs_remove s).
Definition on_allocate f (s : ReplayStatInfo) := mkStat (rs_write s) (f (rs_allocate s)) (rs_remove s).
Definition on_remove f (s : ReplayStatInfo) := mkStat (rs_write s) (rs_allocate s) (f (rs_remove s)).
(** [success_ptr]. *)
Definition stat_success (operation : DataOperation) (s : ReplayStatInfo) : ReplayStatInfo :=
  match operation with
  | DATA_OPERATION_SLICE_WRITE => on_write count_success s
  | DATA_OPERATION_SLICE_ALLOCATE => on_allocate count_success s
  | DATA_OPERATION_SLICE_DELETE => on_remove count_success s
  | _ => s
  end.

(** The [switch] of [deal_task]: the result, the operation, whether a record is logged in its
    place, and the statistics. *)
Definition select_operation (task : ReplayTaskInfo) (s : ReplayStatInfo)
    : Z * DataOperation * bool * ReplayStatInfo :=
  let op_type := rr_op_type (rt_record task) in
  if op_type =? BINLOG_OP_TYPE_WRITE_SLICE then
    let s := on_write count_total s in
    if rt_result task =? 0 then (0, DATA_OPERATION_SLICE_WRITE, false, s)
    else if rt_result task =? ENODATA then (0, DATA_OPERATION_NONE, true, on_write count_ignore s)
    else (0, DATA_OPERATION_NONE, false, s)
  else if op_type =? BINLOG_OP_TYPE_ALLOC_SLICE then
    (0, DATA_OPERATION_SLICE_ALLOCATE, false, on_allocate count_total s)
  else if op_type =? BINLOG_OP_TYPE_DEL_SLICE then
    (0, DATA_OPERATION_SLICE_DELETE, false, on_remove count_total s)
  else (EINVAL, DATA_OPERATION_NONE, false, s).

(** The end of [deal_task]: [log_result] is the result of [replica_binlog_log_no_op]. *)
Definition log_padding t (task : ReplayTaskInfo) (log_result : Z) c : Z * BinlogReplayContext :=
  if log_result =? 0
  then (0, set_events (rc_events c ++ [NoOpLogged (rr_data_version (rt_record task))
                                         (bs_block (rr_bs_key (rt_record task)))]) c)
  else (log_result, c).
Definition finish_task t (task : ReplayTaskInfo) (operation : DataOperation) (padding : bool)
    (result log_result : Z) c : Z * BinlogReplayContext :=
  match operation with
  | DATA_OPERATION_NONE => if (result =? 0) && padding then log_padding t task log_result c else (result, c)
  | _ =>
      if result =? 0 then (0, set_stat (stat_success operation (rc_stat c)) c)
      else if (result =? ENOENT) && bool_decide (operation = DATA_OPERATION_SLICE_DELETE) then
        log_padding t task log_result (set_stat (on_remove count_ignore (rc_stat c)) c)
      else (result, c)
  end.

(** The rest of the round of [binlog_replay_run]. *)
Definition end_task t (out : Z * BinlogReplayContext) : BinlogReplayContext :=
  let '(result, c) := out in
  set_replay ReplayLoop (free_tasks [t] (if result =? 0 then c else binlog_replay_fail c)).

(** [deal_task] up to the wait for the data thread; [mem] tells whether
    [push_to_data_thread_queue] has memory for the operation. *)
Definition deal_task t (mem : bool) (log_result : Z) c : option BinlogReplayContext :=
  task ← rc_tasks c !! t;
  let '(result, operation, padding, s) := select_operation task (rc_stat c) in
  let c := set_stat s c in
  match operation with
  | DATA_OPERATION_NONE => Some (end_task t (finish_task t task operation padding result log_result c))
  | _ =>
      if mem then Some (set_replay (ReplayWaiting t operation) c)
      else Some (end_task t (finish_task t task operation padding ENOMEM log_result c))
  end.

(** The data thread has executed the operation with [result] and called
    [slice_write_done_notify]. *)
Definition slice_write_done t (operation : DataOperation) (result log_result : Z) c
    : option BinlogReplayContext :=
  task ← rc_tasks c !! t;
  let data := if decide (operation = DATA_OPERATION_SLICE_WRITE) then rt_buff task else [] in
  let c := upd_task t (λ task, mkTask (rt_record task) result (rt_buff task)) c in
  let c := set_events (rc_events c ++ [DataOp operation (rt_record task) data result]) c in
  Some (end_task t (finish_task t task operation false result log_result c)).

(** [clear_task_queue] of the queue of the replay thread. *)
Definition replay_clear c : option BinlogReplayContext :=
  if rc_continue c then None
  else
    let c1 := set_replay_count (rc_replay_count c + Z.of_nat (length (rc_replay_queue c)))
                (free_tasks (rc_replay_queue c) (set_replay_queue [] c)) in
    Some (set_replay ReplayFinished (set_replay_stage STAGE_FINISHED c1)).

(** [binlog_replay_run]; [result] and [log_result] are the answers of the data thread and of the
    binlog writer. *)
Definition binlog_replay_run (woken mem : bool) (result log_result : Z) c
    : option BinlogReplayContext :=
  match rc_replay c with
  | ReplayLoop =>
      Some (if rc_continue c then set_replay ReplayPop c
            else set_replay ReplayWaitDispatch (set_replay_stage STAGE_CLEANUP c))
  | ReplayPop =>
      match rc_replay_queue c with
      | t :: queue =>
          Some (set_replay (ReplayDeal t) (set_replay_queue queue (set_replay_count (rc_replay_count c + 1) c)))
      | [] => if woken then Some (set_replay ReplayLoop c) else None
      end
  | ReplayDeal t => deal_task t mem log_result c
  | ReplayWaiting t operation => slice_write_done t operation result log_result c
  | ReplayWaitDispatch =>
      if decide (rc_dispatch_stage c = STAGE_RUNNING) then None else Some (set_replay ReplayClear c)
  | ReplayClear => replay_clear c
  | ReplayFinished => None
  end.

(** ** The steps of all threads *)
Inductive Step :=
| StepMain (init : Z) (r : FetchResult) (slot : option nat)
| StepDispatch (woken : bool)
| StepFetch (i : nat) (woken : bool) (result : Z) (data : bytes)
| StepReplay (woken mem : bool) (result log_result : Z)
| StepTerminate.

Definition step (st : Step) c : option BinlogReplayContext :=
  match st with
  | StepMain init r slot => do_replay_binlog init r slot c
  | StepDispatch woken => task_dispatch_run woken c
  | StepFetch i woken result data => fetch_data_run i woken result data c
  | StepReplay woken mem result log_result => binlog_replay_run woken mem result log_result c
  | StepTerminate => Some (set_sf_continue false c)
  end.

(** [int_replay_context] has started the threads; [ids] are the tasks of the allocator, with
    whatever they held before. *)
Definition int_replay_context (ids : list Z) (old : Z → ReplayTaskInfo) : BinlogReplayContext :=
  let n := mkCounter 0 0 0 in
  let record := mkReplicaRecord 0 0 (mkBlockSliceKey (mkBlockKey 0 0 0) (mkSliceSize 0 0)) 0 in
  mkReplay true true 0 0 0 record MainStart (list_to_map (map (λ t, (t, old t)) ids)) ids
    [] 0 STAGE_RUNNING 0 0 DispatchLoop
    (replicate RECOVERY_THREADS_PER_DATA_GROUP (mkFetch [] FetchLoop))
    [] 0 STAGE_RUNNING (mkStat n n n) ReplayLoop [] [] [] [].

Inductive reachable ids old : BinlogReplayContext → Prop :=
| reachable_init : reachable ids old (int_replay_context ids old)
| reachable_step st c c' : reachable ids old c → step st c = Some c' → reachable ids old c'.

(** A schedule. *)
Fixpoint run_steps (l : list Step) c : option BinlogReplayContext :=
  match l with
  | [] => Some c
  | st :: l => c' ← step st c; run_steps l c'
  end.
End Replay.
