(* ===== verification/BinlogReplaySpec.v ===== *)
(** * What a replay does with the records of the binlog

    [replayed] says what has become of a record; [reads_all] which records the buffers hold.
    The invariant [replay_inv] follows every task from the recovery thread to the replay
    thread: the queues hold, in the order of the log, the records that are not dealt with
    yet, and a write reaches the replay thread with its data. *)
From S2P Require Import Prelude Types Binlog Skiplist ObSlices TrunkAllocator StorageAllocator.
From S2P Require Import ObIndex SliceOp DataThread BinlogDedup BinlogReplay.

Section Spec.
Context `{cfg : ReplayConfig}.
Implicit Types (c : BinlogReplayContext) (t : Z) (r : ReplicaBinlogRecord).

(** ** The records of the buffers *)

(** The lines read so far from [buf]: what is left, the records, the key of the last one. *)
Inductive reads (buf : bytes) (k : FSBlockSliceKeyInfo) : bytes → list ReplicaBinlogRecord → FSBlockSliceKeyInfo → Prop :=
| reads_start : reads buf k buf [] k
| reads_line p rs k1 n record :
    reads buf k p rs k1 → memchr NEWLINE p = Some n →
    replica_binlog_record_unpack split_string_ex p (S n) k1 = inr record →
    ss_length (bs_slice (rr_bs_key record)) <= FS_FILE_BLOCK_SIZE →
    reads buf k (drop (S n) p) (rs ++ [rehash record]) (rr_bs_key (rehash record)).
Inductive reads_all (k : FSBlockSliceKeyInfo) : list bytes → list ReplicaBinlogRecord → FSBlockSliceKeyInfo → Prop :=
| reads_none : reads_all k [] [] k
| reads_buffer bufs buf rs rs' k1 k2 :
    reads_all k bufs rs k1 → reads buf k1 [] rs' k2 → reads_all k (bufs ++ [buf]) (rs ++ rs') k2.

(** ** What becomes of a record *)

(** What the master answered: to which record of a write, with which result and data. *)
Definition Answers : Type := list (ReplicaBinlogRecord * Z * bytes).

Definition op_is r (op_type : Z) : bool := rr_op_type r =? op_type.
Definition operation_of r : DataOperation :=
  if op_is r BINLOG_OP_TYPE_WRITE_SLICE then DATA_OPERATION_SLICE_WRITE
  else if op_is r BINLOG_OP_TYPE_ALLOC_SLICE then DATA_OPERATION_SLICE_ALLOCATE
  else if op_is r BINLOG_OP_TYPE_DEL_SLICE then DATA_OPERATION_SLICE_DELETE
  else DATA_OPERATION_NONE.
Definition slice_length r : Z := ss_length (bs_slice (rr_bs_key r)).

(** The operation for a record: a write has the data that the master answered for this record,
    and is cut to their length. *)
Definition executes (answers : Answers) r (record : ReplicaBinlogRecord) (data : bytes) : Prop :=
  operation_of r ≠ DATA_OPERATION_NONE ∧
  if op_is r BINLOG_OP_TYPE_WRITE_SLICE
  then (r, 0, data) ∈ answers ∧
    record = with_length r (Z.of_nat (length data)) ∧ Z.of_nat (length data) <= slice_length r
  else record = r ∧ data = [].
Definition padded r : ReplayEvent := NoOpLogged (rr_data_version r) (bs_block (rr_bs_key r)).

(** Executed; or nothing there any more to write (the master answered [ENODATA] for the record)
    or to delete, and logged as such. *)
Definition replayed (answers : Answers) r (evs : list ReplayEvent) : Prop :=
  (∃ record data, executes answers r record data ∧ evs = [DataOp (operation_of r) record data 0]) ∨
  (operation_of r = DATA_OPERATION_SLICE_WRITE ∧ (∃ data, (r, ENODATA, data) ∈ answers) ∧ evs = [padded r]) ∨
  (operation_of r = DATA_OPERATION_SLICE_DELETE ∧
   evs = [DataOp DATA_OPERATION_SLICE_DELETE r [] ENOENT; padded r]).
(** The record at which the replay was given up: nothing was done, or its operation failed. *)
Definition attempted (answers : Answers) r (evs : list ReplayEvent) : Prop :=
  evs = [] ∨ ∃ record data result,
    executes answers r record data ∧ result ≠ 0 ∧ evs = [DataOp (operation_of r) record data result].

(** ** The tasks *)

Definition holds c r t : Prop := ∃ task, rc_tasks c !! t = Some task ∧ rt_record task = r.
(** The answer to a write is there. *)
Definition ready (answers : Answers) r (task : ReplayTaskInfo) : Prop :=
  if op_is r BINLOG_OP_TYPE_WRITE_SLICE then
    (rt_result task = 0 ∧ (r, 0, rt_buff task) ∈ answers ∧ rt_record task = with_length r (Z.of_nat (length (rt_buff task))) ∧
     Z.of_nat (length (rt_buff task)) <= slice_length r) ∨
    (rt_result task = ENODATA ∧ (∃ data, (r, ENODATA, data) ∈ answers) ∧ rt_record task = r)
  else rt_record task = r.
Definition prepared c r t : Prop := ∃ task, rc_tasks c !! t = Some task ∧ ready (rc_answers c) r task.
Definition settled c r t : Prop := 0 < rc_fail_count c ∨ prepared c r t.

Definition main_tasks c : list Z := match rc_main c with MainPush t _ => [t] | _ => [] end.
Definition dispatch_tasks c : list Z :=
  match rc_dispatch c with
  | DispatchGather l | DispatchCheck l | DispatchWait l | DispatchRecheck l | DispatchPush l => l
  | _ => []
  end.
Definition replay_tasks c : list Z :=
  match rc_replay c with ReplayDeal t | ReplayWaiting t _ => [t] | _ => [] end.
Definition all_tasks c : list Z :=
  rc_free c ++ main_tasks c ++ rc_queue c ++ dispatch_tasks c ++ rc_replay_queue c ++ replay_tasks c.

(** ** The fetch threads *)

Definition busy (ft : FetchDataThreadContext) : bool :=
  match ft_queue ft, ft_pc ft with
  | [], (FetchLoop | FetchPop | FetchExited) => false
  | _, _ => true
  end.
Definition at_loop (ft : FetchDataThreadContext) : Prop := ft_pc ft = FetchLoop ∨ ft_pc ft = FetchPop.
(** The thread at the place of a task the dispatch thread waits for. *)
Definition fetch_slot c (o : option (ReplicaBinlogRecord * Z)) (ft : FetchDataThreadContext) : Prop :=
  match o with
  | Some (r, t) =>
      if op_is r BINLOG_OP_TYPE_WRITE_SLICE then
        (ft_queue ft = [t] ∧ at_loop ft ∧ holds c r t) ∨
        (ft_queue ft = [] ∧ ft_pc ft = FetchRead t ∧ holds c r t) ∨
        (ft_queue ft = [] ∧ (ft_pc ft = FetchNotify ∨ at_loop ft) ∧ settled c r t)
      else ft_queue ft = [] ∧ at_loop ft ∧ prepared c r t
  | None => ft_queue ft = [] ∧ at_loop ft
  end.

(** ** The order of the records *)

(** The records of the array of the dispatch thread. *)
Definition array_ok c (arr : list ReplicaBinlogRecord) : Prop :=
  match rc_dispatch c with
  | DispatchGather l | DispatchCheck l => Forall2 (holds c) arr l
  | DispatchWait l =>
      length arr = length l ∧
      (∀ i ft, rc_fetch c !! i = Some ft → fetch_slot c (zip arr l !! i) ft)
  | DispatchRecheck l => Forall2 (settled c) arr l
  | DispatchPush l => Forall2 (prepared c) arr l
  | _ => arr = []
  end.
Definition tail_ok c (rest : list ReplicaBinlogRecord) : Prop :=
  ∃ arr dq, rest = arr ++ dq ∧ array_ok c arr ∧ Forall2 (holds c) dq (rc_queue c).
(** The dispatch thread has taken tasks out of its queue that it can still hand on. *)
Definition handing_on c : Prop :=
  match rc_dispatch c with
  | DispatchGather _ | DispatchCheck _ | DispatchWait _ | DispatchRecheck _ | DispatchPush _ => True
  | _ => False
  end.
Definition current_ok c (cur : list ReplicaBinlogRecord) (evs : list ReplayEvent) : Prop :=
  match rc_replay c with
  | ReplayDeal t => ∃ r, cur = [r] ∧ evs = [] ∧ prepared c r t
  | ReplayWaiting t operation =>
      ∃ r, cur = [r] ∧ evs = [] ∧ operation = operation_of r ∧ operation ≠ DATA_OPERATION_NONE ∧
        ∃ task, rc_tasks c !! t = Some task ∧ ready (rc_answers c) r task ∧
          (op_is r BINLOG_OP_TYPE_WRITE_SLICE = true → rt_result task = 0)
  | ReplayPop => cur = [] ∧ evs = []
  | _ => (cur = [] ∧ evs = []) ∨ (0 < rc_fail_count c ∧ ∃ r, cur = [r] ∧ attempted (rc_answers c) r evs)
  end.

(** What has been dealt with, what is dealt with now, what waits for the replay thread, and
    the rest. *)
Record Flow := mkFlow {
  f_done : list ReplicaBinlogRecord;
  f_events : list (list ReplayEvent);
  f_cur : list ReplicaBinlogRecord;
  f_cur_events : list ReplayEvent;
  f_waiting : list ReplicaBinlogRecord;
  f_rest : list ReplicaBinlogRecord;
}.
Record flow_ok c (f : Flow) : Prop := {
  fo_pushed : rc_pushed c = f_done f ++ f_cur f ++ f_waiting f ++ f_rest f;
  fo_events : rc_events c = concat (f_events f) ++ f_cur_events f;
  fo_done : Forall2 (replayed (rc_answers c)) (f_done f) (f_events f);
  fo_cur : current_ok c (f_cur f) (f_cur_events f);
  fo_waiting : Forall2 (prepared c) (f_waiting f) (rc_replay_queue c);
  fo_rest : handing_on c ∨ rc_fail_count c = 0 → tail_ok c (f_rest f);
}.

(** ** Counters *)

Definition uncounted c : Z := match rc_dispatch c with DispatchCount n => n | _ => 0 end.
Definition unadded c : Z :=
  match rc_dispatch c with DispatchCount n | DispatchTotal n => n | _ => 0 end.
Definition handed f : Z := Z.of_nat (length (f_done f ++ f_cur f ++ f_waiting f)).
Record counts_ok c (f : Flow) : Prop := {
  co_total : rc_total_count c = Z.of_nat (length (rc_pushed c));
  co_replay : rc_replay c ≠ ReplayFinished → rc_replay_count c = Z.of_nat (length (f_done f ++ f_cur f));
  co_replay_total : rc_fail_count c = 0 → rc_replay_total_count c + uncounted c = handed f;
  co_dispatched : rc_fail_count c = 0 → rc_dispatched c + unadded c = handed f;
  co_unadded : 0 <= unadded c <= Z.of_nat RECOVERY_THREADS_PER_DATA_GROUP;
  co_nonneg : 0 <= rc_dispatched c;
}.

(** ** Flags and stages *)

Definition exiting c : Prop :=
  match rc_main c with MainExitDispatch _ | MainExitReplay _ | MainReturned _ => True | _ => False end.
Definition array_bound c : Prop :=
  match rc_dispatch c with
  | DispatchGather l => (length l < RECOVERY_THREADS_PER_DATA_GROUP)%nat
  | _ => (length (dispatch_tasks c) <= RECOVERY_THREADS_PER_DATA_GROUP)%nat
  end.
Record flags_ok c : Prop := {
  fg_fail : 0 < rc_fail_count c → rc_continue c = false;
  fg_nonneg : 0 <= rc_fail_count c;
  fg_continue : rc_continue c = false → 0 < rc_fail_count c ∨ exiting c;
  fg_dispatch : rc_dispatch_stage c = STAGE_RUNNING ↔
    match rc_dispatch c with DispatchClear | DispatchWaitExit | DispatchFinished => False | _ => True end;
  fg_dispatch_cleared : rc_dispatch_stage c ≠ STAGE_RUNNING → rc_continue c = false;
  fg_replay : rc_replay_stage c = STAGE_FINISHED ↔ rc_replay c = ReplayFinished;
  fg_replay_left : (match rc_replay c with ReplayWaitDispatch | ReplayClear | ReplayFinished => True | _ => False end) →
    rc_continue c = false;
  fg_replay_clear : (match rc_replay c with ReplayClear | ReplayFinished => True | _ => False end) →
    rc_dispatch_stage c ≠ STAGE_RUNNING;
  fg_fetch_count : rc_fetch_data_count c = Z.of_nat (length (filter (λ ft, busy ft = true) (rc_fetch c)));
  fg_fetch_idle : (∀ l, rc_dispatch c ≠ DispatchWait l) → Forall (λ ft, busy ft = false) (rc_fetch c);
  fg_fetch_exited : ∀ ft, ft ∈ rc_fetch c → ft_pc ft = FetchExited → rc_dispatch_stage c ≠ STAGE_RUNNING;
  fg_fetch_length : length (rc_fetch c) = RECOVERY_THREADS_PER_DATA_GROUP;
  fg_array : array_bound c;
}.

(** ** The recovery thread *)

Definition gave_up c : Prop := rc_sf_continue c = false ∨ 0 < rc_fail_count c.
Definition start_key : FSBlockSliceKeyInfo := mkBlockSliceKey (mkBlockKey 0 0 0) (mkSliceSize 0 0).
Definition all_read c : Prop := reads_all start_key (rc_buffers c) (rc_pushed c) (rr_bs_key (rc_record c)).
(** In a buffer, with the record that is not queued yet. *)
Definition in_buffer c (p : bytes) (next : list ReplicaBinlogRecord) (k : FSBlockSliceKeyInfo) : Prop :=
  ∃ bufs buf rs rs' k1, rc_buffers c = bufs ++ [buf] ∧ rc_pushed c = rs ++ rs' ∧
    reads_all start_key bufs rs k1 ∧ reads buf k1 p (rs' ++ next) k.
Definition main_read c : Prop :=
  match rc_main c with
  | MainStart => all_read c ∧ rc_pushed c = []
  | MainLoop | MainFetch => all_read c ∨ gave_up c
  | MainBuffer p => in_buffer c p [] (rr_bs_key (rc_record c)) ∨ gave_up c
  | MainAlloc p | MainPush _ p =>
      in_buffer c p [rehash (rc_record c)] (rr_bs_key (rehash (rc_record c))) ∨ gave_up c
  | MainEnd result => result = 0 → all_read c ∨ gave_up c
  | MainWaitDispatch result | MainWaitReplay result _ | MainExit result | MainExitDispatch result
  | MainExitReplay result => result = 0 → all_read c ∨ gave_up c
  | MainReturned result => result = 0 → rc_fail_count c = 0 ∧ (all_read c ∨ gave_up c)
  end.

(** Once the recovery thread has waited for the dispatch thread, and for the replay thread,
    nothing is left, unless the replay was given up. *)
Definition drained c : Prop := rc_queue c = [] ∧ dispatch_tasks c = [] ∧ unadded c = 0.
Definition main_waits c : Prop :=
  rc_fail_count c = 0 →
  match rc_main c with
  | MainWaitReplay _ n => drained c ∧ n = Z.of_nat (length (rc_pushed c))
  | MainExit _ | MainExitDispatch _ | MainExitReplay _ => drained c ∧ rc_replay_queue c = []
  | MainReturned _ => drained c ∧ rc_replay_queue c = [] ∧ rc_replay c = ReplayFinished
  | _ => True
  end.

Record replay_inv (ids : list Z) c (f : Flow) : Prop := {
  ri_tasks : all_tasks c ≡ₚ ids;
  ri_dom : ∀ t, t ∈ ids → is_Some (rc_tasks c !! t);
  ri_flow : flow_ok c f;
  ri_counts : counts_ok c f;
  ri_flags : flags_ok c;
  ri_read : main_read c;
  ri_waits : main_waits c;
}.
End Spec.
