(* ===== verification/BinlogReplayThms.v ===== *)
(** * The replay follows the log

    Every step of every thread keeps [replay_inv]. *)
From S2P Require Import Prelude Types Skiplist ObSlices TrunkAllocator StorageAllocator ObIndex Binlog SliceOp DataThread BinlogDedup BinlogReplay BinlogReplaySpec.

(** What a step does not touch is the same up to computation. *)
Ltac same H :=
  let H' := fresh in pose proof H as H'; destruct H'; constructor; try assumption.

(** Answers are never forgotten; mostly they stay the same up to computation. *)
Class AnswersKept (c c' : BinlogReplayContext) : Prop := answers_kept : rc_answers c ⊆ rc_answers c'.
#[export] Hint Extern 0 (AnswersKept _ _) => exact (λ x H, H) : typeclass_instances.

Section Thms.
Context `{cfg : ReplayConfig}.
Implicit Types (c : BinlogReplayContext) (t : Z) (r : ReplicaBinlogRecord) (f : Flow).

(** ** Changes that keep the order of the records *)

Lemma holds_ext c c' r t : rc_tasks c' !! t = rc_tasks c !! t → holds c r t → holds c' r t.
Proof. unfold holds. by intros ->. Qed.
Lemma ready_sub (A A' : Answers) r task : A ⊆ A' → ready A r task → ready A' r task.
Proof.
  intros HA. unfold ready. destruct (op_is r _); [|done].
  intros [(?&?&?)|(?&[d ?]&?)]; [left|right; split_and!; [done|exists d|done]]; auto.
Qed.
Lemma executes_sub (A A' : Answers) r record data : A ⊆ A' → executes A r record data → executes A' r record data.
Proof. intros HA [H1 H2]. split; [done|]. destruct (op_is r _); [|done]. destruct H2 as (?&?&?). auto. Qed.
Lemma attempted_sub (A A' : Answers) r evs : A ⊆ A' → attempted A r evs → attempted A' r evs.
Proof.
  intros HA [?|(record & data & result & H & ?)]; [by left|right]. exists record, data, result.
  split; [by eapply executes_sub|done].
Qed.
Lemma replayed_sub (A A' : Answers) r evs : A ⊆ A' → replayed A r evs → replayed A' r evs.
Proof.
  intros HA [(record & data & H & ?)|[(?&[d ?]&?)|?]]; [left|right; left|by right; right].
  - exists record, data. split; [by eapply executes_sub|done].
  - split_and!; [done|exists d; auto|done].
Qed.

Lemma prepared_ext c c' `{K : !AnswersKept c c'} r t :
  rc_tasks c' !! t = rc_tasks c !! t → prepared c r t → prepared c' r t.
Proof. unfold prepared. intros -> (task & ? & ?). exists task. split; [done|]. by eapply ready_sub. Qed.
Lemma settled_ext c c' `{K : !AnswersKept c c'} r t :
  rc_tasks c' !! t = rc_tasks c !! t → rc_fail_count c <= rc_fail_count c' → settled c r t → settled c' r t.
Proof. intros E Hf [?|?]; [left; lia|right]. by eapply prepared_ext. Qed.
Lemma slot_ext c c' `{K : !AnswersKept c c'} o ft :
  (∀ r t, o = Some (r, t) → rc_tasks c' !! t = rc_tasks c !! t) → rc_fail_count c <= rc_fail_count c' →
  fetch_slot c o ft → fetch_slot c' o ft.
Proof.
  intros E Hf. unfold fetch_slot. destruct o as [[r t]|]; [|done]. specialize (E r t eq_refl).
  destruct (op_is r _).
  - intros [(?&?&?)|[(?&?&?)|(?&?&?)]]; [left|right; left|right; right]; split_and!; try done.
    + by eapply holds_ext.
    + by eapply holds_ext.
    + by eapply settled_ext.
  - intros (?&?&?). split_and!; try done. by eapply prepared_ext.
Qed.
Lemma Forall2_ext_in {A} (P Q : A → Z → Prop) l k :
  (∀ x t, t ∈ k → P x t → Q x t) → Forall2 P l k → Forall2 Q l k.
Proof.
  intros HPQ H. induction H as [|x t l k Hx H IH]; constructor.
  - by apply HPQ; [left|].
  - apply IH. intros y u Hu. apply HPQ. by right.
Qed.
Lemma array_ext c c' `{K : !AnswersKept c c'} arr :
  rc_dispatch c' = rc_dispatch c → rc_fetch c' = rc_fetch c → rc_fail_count c <= rc_fail_count c' →
  (∀ t, t ∈ dispatch_tasks c → rc_tasks c' !! t = rc_tasks c !! t) → array_ok c arr → array_ok c' arr.
Proof.
  unfold array_ok, dispatch_tasks. intros -> -> Hf Ht. destruct (rc_dispatch c) as [|l|l|l|l|l| | | | |]; try done.
  - apply Forall2_ext_in. intros r t Hin. apply holds_ext, Ht, Hin.
  - apply Forall2_ext_in. intros r t Hin. apply holds_ext, Ht, Hin.
  - intros [Hl Hs]. split; [done|]. intros i ft Hi. eapply (slot_ext c c'); [|done|by apply Hs].
    intros r t Hrt%list_elem_of_lookup_2%elem_of_zip_r. by apply Ht.
  - apply Forall2_ext_in. intros r t Hin. apply (settled_ext c c'); [apply Ht, Hin|done].
  - apply Forall2_ext_in. intros r t Hin. apply (prepared_ext c c'), Ht, Hin.
Qed.
Definition flowing c : list Z := rc_queue c ++ dispatch_tasks c ++ rc_replay_queue c ++ replay_tasks c.
Lemma current_ext c c' `{K : !AnswersKept c c'} cur evs :
  rc_replay c' = rc_replay c → rc_fail_count c <= rc_fail_count c' →
  (∀ t, t ∈ replay_tasks c → rc_tasks c' !! t = rc_tasks c !! t) → current_ok c cur evs → current_ok c' cur evs.
Proof.
  assert (idle : rc_fail_count c <= rc_fail_count c' →
    (cur = [] ∧ evs = []) ∨ (0 < rc_fail_count c ∧ ∃ r, cur = [r] ∧ attempted (rc_answers c) r evs) →
    (cur = [] ∧ evs = []) ∨ (0 < rc_fail_count c' ∧ ∃ r, cur = [r] ∧ attempted (rc_answers c') r evs)).
  { intros Hf [?|(? & r & ? & ?)]; [by left|right]. split; [lia|]. exists r. split; [done|]. by eapply attempted_sub. }
  unfold current_ok, replay_tasks. intros -> Hf Ht. destruct (rc_replay c) as [| |t|t op| | |]; try done.
  - by apply idle.
  - intros (r & ? & ? & ?). exists r. split_and!; try done. eapply (prepared_ext c c'); [apply Ht; by left|done].
  - rewrite (Ht t) by by left. intros (r & ? & ? & ? & ? & task & ? & ? & ?). exists r. split_and!; try done.
    exists task. split_and!; [done|by eapply ready_sub|done].
  - by apply idle.
  - by apply idle.
  - by apply idle.
Qed.
Lemma flow_ext c c' `{K : !AnswersKept c c'} f :
  rc_pushed c' = rc_pushed c → rc_events c' = rc_events c → rc_replay c' = rc_replay c →
  rc_replay_queue c' = rc_replay_queue c → rc_dispatch c' = rc_dispatch c → rc_queue c' = rc_queue c →
  rc_fetch c' = rc_fetch c → 0 <= rc_fail_count c <= rc_fail_count c' →
  (∀ t, t ∈ flowing c → rc_tasks c' !! t = rc_tasks c !! t) → flow_ok c f → flow_ok c' f.
Proof.
  intros E1 E2 E3 E4 E5 E6 E7 Hf Ht [H1 H2 H3 H4 H5 H6]. unfold flowing in Ht. constructor.
  - by rewrite E1.
  - by rewrite E2.
  - eapply Forall2_impl; [exact H3|]. intros r evs. by apply replayed_sub.
  - eapply (current_ext c c'); [done|lia| |done]. intros t Hin. apply Ht. rewrite !elem_of_app. auto.
  - rewrite E4. eapply Forall2_ext_in; [|done]. intros r t Hin. apply (prepared_ext c c'), Ht. rewrite !elem_of_app. auto.
  - intros Hh. destruct H6 as (arr & dq & Hr & Ha & Hd).
    { destruct Hh as [Hh|Hh]; [left|right; lia]. unfold handing_on in *. by rewrite E5 in Hh. }
    exists arr, dq. split_and!; [done| |].
    + eapply (array_ext c c'); [done|done|lia| |done]. intros t Hin. apply Ht. rewrite !elem_of_app. auto.
    + rewrite E6. eapply Forall2_ext_in; [|done]. intros r t Hin. apply holds_ext, Ht. rewrite !elem_of_app. auto.
Qed.

Lemma not_continue c : flags_ok c → rc_fail_count c = 0 → ¬ exiting c → rc_continue c = true.
Proof.
  intros H Hf He. destruct (rc_continue c) eqn:E; [done|]. destruct (fg_continue _ H E); [lia|done].
Qed.
Lemma continue_not_failed c : flags_ok c → rc_continue c = true → rc_fail_count c = 0.
Proof.
  intros H Hc. pose proof (fg_nonneg _ H). destruct (Z.eq_dec (rc_fail_count c) 0); [done|].
  rewrite (fg_fail _ H) in Hc; [done|lia].
Qed.

(** Steps that only move the recovery thread on. *)
Definition moved (m : MainPc) (r : ReplicaBinlogRecord) (b : list bytes) (v : Z) c : BinlogReplayContext :=
  set_main m (set_record r (set_buffers b (set_start_data_version v c))).
Lemma moved_main m c : set_main m c = moved m (rc_record c) (rc_buffers c) (rc_start_data_version c) c.
Proof. by destruct c. Qed.
Lemma main_moved ids c f m r b v :
  replay_inv ids c f → main_tasks c = [] → ¬ exiting c →
  main_tasks (set_main m c) = [] → main_read (moved m r b v c) → main_waits (moved m r b v c) →
  replay_inv ids (moved m r b v c) f.
Proof.
  intros H Hm He Hm' Hr Hw. destruct H as [H1 H2 H3 H4 H5 H6 H7]. constructor; try done.
  - unfold all_tasks in *. rewrite Hm in H1. unfold main_tasks in *. simpl in *. by rewrite Hm'.
  - by same H3.
  - by same H4.
  - same H5. intros E. simpl in E. destruct (fg_continue E); [by left|done].
Qed.
Ltac moving Hm := unfold main_tasks, exiting; first [by rewrite Hm|rewrite Hm; tauto|done].

(** The numbers say that the dispatch thread has nothing left. *)
Lemma waits_drained ids c f :
  replay_inv ids c f → rc_fail_count c = 0 → rc_total_count c <= rc_dispatched c →
  drained c ∧ rc_replay_total_count c = Z.of_nat (length (rc_pushed c)) ∧ f_rest f = [].
Proof.
  intros H Hf Hle. destruct (ri_flow _ _ _ H) as [Hp _ _ _ _ Ht]. destruct (ri_counts _ _ _ H) as [H1 _ H3 H4 H5 _].
  specialize (H3 Hf). specialize (H4 Hf). rewrite H1 in Hle.
  assert (Hh : Z.of_nat (length (rc_pushed c)) = handed f + Z.of_nat (length (f_rest f))).
  { rewrite Hp. unfold handed. rewrite !length_app. lia. }
  assert (Hr : f_rest f = []) by (apply length_zero_iff_nil; lia).
  assert (Hu : uncounted c = unadded c ∨ uncounted c = 0) by (unfold uncounted, unadded; destruct (rc_dispatch c); auto).
  destruct Ht as (arr & dq & Heq & Ha & Hd); [by right|]. rewrite Hr in Heq. symmetry in Heq.
  apply app_eq_nil in Heq as [-> ->]. apply Forall2_nil_inv_l in Hd. rewrite Hr in Hh. simpl in Hh.
  split_and!; [|lia|done]. split_and!; [done| |lia]. unfold array_ok, dispatch_tasks in *.
  destruct (rc_dispatch c); try done; try by apply Forall2_nil_inv_l in Ha.
  destruct Ha as [Hl _]. symmetry in Hl. by apply length_zero_iff_nil in Hl.
Qed.

Lemma tasks_nodup ids c f : NoDup ids → replay_inv ids c f → NoDup (all_tasks c).
Proof. intros Hn H. by rewrite (ri_tasks _ _ _ H). Qed.
Lemma tasks_known ids c f t : replay_inv ids c f → t ∈ all_tasks c → is_Some (rc_tasks c !! t).
Proof. intros H Ht. apply (ri_dom _ _ _ H). by rewrite <- (ri_tasks _ _ _ H). Qed.

(** The difference that [replay_finish] computes as an [int] is small. *)
Lemma sub_exact ids c f :
  replay_inv ids c f → rc_fail_count c = 0 →
  Z.of_nat (length ids) + Z.of_nat RECOVERY_THREADS_PER_DATA_GROUP < 2 ^ 31 →
  cast32 (rc_total_count c - rc_dispatched c) = rc_total_count c - rc_dispatched c.
Proof.
  intros H Hf Hids. apply cast32_id. destruct (ri_flow _ _ _ H) as [Hp _ _ _ _ Ht].
  destruct (ri_counts _ _ _ H) as [H1 _ H3 H4 H5 _]. specialize (H4 Hf).
  assert (Hh : Z.of_nat (length (rc_pushed c)) = handed f + Z.of_nat (length (f_rest f))).
  { rewrite Hp. unfold handed. rewrite !length_app. lia. }
  destruct Ht as (arr & dq & Heq & Ha & Hd); [by right|]. apply Forall2_length in Hd.
  assert (Hal : length arr = length (dispatch_tasks c)).
  { unfold array_ok, dispatch_tasks in *. destruct (rc_dispatch c); try (by subst arr); try by apply Forall2_length in Ha.
    by destruct Ha. }
  assert (Hl : length (all_tasks c) = length ids) by by rewrite (ri_tasks _ _ _ H).
  unfold all_tasks in Hl. rewrite !length_app in Hl. rewrite Heq, length_app in Hh.
  unfold in_int32. lia.
Qed.

(** The replay is given up. *)
Lemma fail_inv ids c f :
  replay_inv ids c f → rc_main c ≠ MainReturned 0 → replay_inv ids (binlog_replay_fail c) f.
Proof.
  intros H Hm. destruct H as [H1 H2 H3 H4 H5 H6 H7]. pose proof (fg_nonneg _ H5) as Hf.
  assert (Hg : gave_up (binlog_replay_fail c)) by (right; simpl; lia).
  constructor; try done.
  - apply (flow_ext c (binlog_replay_fail c)); [..|exact H3]; try done; simpl; lia.
  - same H4; simpl; intros; lia.
  - same H5; try done; simpl; intros; [lia|left; lia].
  - unfold main_read in *. simpl. destruct (rc_main c) as [| | | | | | | | | | | |r]; try done; try by right.
    intros ->. done.
  - intros E. simpl in E. lia.
Qed.

(** ** The recovery thread *)

Lemma start_inv ids c f init :
  replay_inv ids c f → rc_main c = MainStart →
  replay_inv ids (set_main (if init =? 0 then MainLoop else MainExit init) c) f.
Proof.
  intros H Hm. pose proof (ri_read _ _ _ H) as Hr. unfold main_read in Hr. rewrite Hm in Hr. destruct Hr as [Hr Hp].
  rewrite moved_main. apply main_moved; [done|moving Hm|moving Hm|by destruct (init =? 0)| |].
  - unfold main_read. destruct (Z.eqb_spec init 0); simpl; [by left|done].
  - intros Hf. simpl in Hf. destruct (Z.eqb_spec init 0); simpl; [done|].
    destruct (waits_drained _ _ _ H Hf) as (Hd & _ & Hrest).
    { rewrite (co_total _ _ (ri_counts _ _ _ H)), Hp.
      exact (co_nonneg _ _ (ri_counts _ _ _ H)). }
    split; [done|]. destruct (ri_flow _ _ _ H) as [Hp' _ _ _ Hw _]. rewrite Hp in Hp'. symmetry in Hp'.
    apply app_eq_nil in Hp' as [_ Hp']. apply app_eq_nil in Hp' as [_ Hp']. apply app_eq_nil in Hp' as [Hz _].
    rewrite Hz in Hw. by apply Forall2_nil_inv_l in Hw.
Qed.

Lemma loop_inv ids c f :
  replay_inv ids c f → rc_main c = MainLoop →
  replay_inv ids (set_main (if rc_sf_continue c && rc_continue c then MainFetch else MainEnd 0) c) f.
Proof.
  intros H Hm. pose proof (ri_read _ _ _ H) as Hr. unfold main_read in Hr. rewrite Hm in Hr.
  rewrite moved_main. apply main_moved; [done|moving Hm|moving Hm|by destruct (_ && _)| |].
  - unfold main_read. simpl. by destruct (_ && _).
  - intros _. simpl. by destruct (_ && _).
Qed.

Lemma fetch_result_inv ids c f (res : FetchResult) :
  replay_inv ids c f → rc_main c = MainFetch → replay_inv ids (fetch_result res c) f.
Proof.
  intros H Hm. pose proof (ri_read _ _ _ H) as Hr. unfold main_read in Hr. rewrite Hm in Hr.
  destruct res as [|e|buf]; simpl.
  - rewrite moved_main. by apply main_moved; [done|moving Hm|moving Hm|..].
  - rewrite moved_main. apply main_moved; [done|moving Hm|moving Hm|done|by intros _; exact Hr|done].
  - apply (main_moved _ _ _ (MainBuffer buf) (rc_record c) (rc_buffers c ++ [buf]) (rc_start_data_version c));
      [done|moving Hm|moving Hm|done| |done].
    unfold main_read. simpl. destruct Hr as [Hr|Hr]; [left|by right].
    exists (rc_buffers c), buf, (rc_pushed c), [], (rr_bs_key (rc_record c)). simpl.
    split_and!; [done|by rewrite app_nil_r|done|apply reads_start].
Qed.

(** A parser never fails with the error 0. *)
Definition nonzero_errors {A} (m : Err A) : Prop := ∀ e, m = inl e → e ≠ 0.
Lemma bind_errors {A B} (m : Err A) (k : A → Err B) :
  nonzero_errors m → (∀ a, nonzero_errors (k a)) → nonzero_errors (m ≫= k).
Proof.
  intros Hm Hk e. destruct m as [x|a]; [|by apply Hk]. intros [= <-]. by apply Hm.
Qed.
Lemma parse_errors cast mem cols i z m : nonzero_errors (BINLOG_PARSE_INT cast mem cols i z m).
Proof. intros e. unfold BINLOG_PARSE_INT. destruct (strtol _). destruct (_ || _); [|done]. by intros [= <-]. Qed.
Lemma check_errors b : nonzero_errors (check b EINVAL).
Proof. intros e. destruct b; [done|]. by intros [= <-]. Qed.
Lemma unpack_error p n k : nonzero_errors (replica_binlog_record_unpack split_string_ex p n k).
Proof.
  unfold replica_binlog_record_unpack, unpack_slice_record, unpack_block_record.
  repeat first [apply bind_errors; [first [apply check_errors|apply parse_errors]|intros ?]
               |case_match|done|intros e [= <-]; done].
Qed.

Lemma flags_off c : flags_ok c → ¬ exiting c → rc_sf_continue c && rc_continue c = false → gave_up c.
Proof.
  intros H He Hf. apply andb_false_iff in Hf as [Hf|Hf]; [by left|].
  destruct (fg_continue _ H Hf); [by right|done].
Qed.

Lemma in_buffer_end c k : in_buffer c [] [] k → reads_all start_key (rc_buffers c) (rc_pushed c) k.
Proof.
  intros (bufs & buf & rs & rs' & k1 & -> & -> & Ha & Hr). rewrite app_nil_r in Hr. by eapply reads_buffer.
Qed.

Lemma deal_buffer_inv ids c f p :
  replay_inv ids c f → rc_main c = MainBuffer p → replay_inv ids (deal_binlog_buffer p c) f.
Proof.
  intros H Hm. pose proof (ri_read _ _ _ H) as Hr. unfold main_read in Hr. rewrite Hm in Hr.
  assert (He : ¬ exiting c) by moving Hm. assert (Ht : main_tasks c = []) by moving Hm.
  unfold deal_binlog_buffer. destruct p as [|b p].
  { rewrite moved_main. apply main_moved; try done. destruct Hr as [Hr|Hr]; [left|by right].
    by apply in_buffer_end. }
  destruct (_ && _) eqn:Hf.
  2:{ rewrite moved_main. apply main_moved; try done. right.
      by apply (flags_off c); [apply (ri_flags _ _ _ H)|..]. }
  unfold next_record. set (p0 := b :: p) in *. destruct (memchr NEWLINE p0) as [n|] eqn:Hn.
  2:{ rewrite moved_main. by apply main_moved. }
  destruct (replica_binlog_record_unpack _ _ _ _) as [e|record] eqn:Hu.
  { rewrite moved_main. apply main_moved; try done. intros ->. by apply unpack_error in Hu. }
  set (v := if rc_start_data_version c =? 0 then rr_data_version record else rc_start_data_version c).
  assert (Hc : (if rc_start_data_version (set_record record c) =? 0
                then set_start_data_version (rr_data_version record) (set_record record c)
                else set_record record c) = set_record record (set_start_data_version v c)).
  { unfold v. simpl. destruct c. simpl. by destruct (_ =? 0). }
  rewrite Hc. destruct (Z.ltb_spec FS_FILE_BLOCK_SIZE (ss_length (bs_slice (rr_bs_key record)))) as [|Hlen].
  { apply (main_moved _ _ _ (MainEnd EINVAL) record (rc_buffers c) v); try done. }
  apply (main_moved _ _ _ (MainAlloc (drop (S n) p0)) record (rc_buffers c) v); try done.
  destruct Hr as [Hr|Hr]; [left|by right]. destruct Hr as (bufs & buf & rs & rs' & k1 & Hb & Hp & Ha & Hr).
  exists bufs, buf, rs, rs', k1. split_and!; [done|done|done|]. rewrite app_nil_r in Hr.
  eapply reads_line; eauto.
Qed.

Lemma alloc_inv ids c f p slot c' :
  replay_inv ids c f → rc_main c = MainAlloc p → alloc_task p slot c = Some c' → replay_inv ids c' f.
Proof.
  intros H Hm. pose proof (ri_read _ _ _ H) as Hr. unfold main_read in Hr. rewrite Hm in Hr.
  assert (He : ¬ exiting c) by moving Hm. assert (Ht : main_tasks c = []) by moving Hm.
  assert (Hend : replay_inv ids (set_main (MainEnd EINTR) c) f) by (rewrite moved_main; by apply main_moved).
  unfold alloc_task. destruct slot as [n|]; [|by intros [= <-]].
  destruct (rc_free c !! n) as [t|] eqn:Hn; [|done]. destruct (_ && _); [|by intros [= <-]].
  intros [= <-]. destruct H as [H1 H2 H3 H4 H5 H6 H7]. constructor; try done.
  - unfold all_tasks in H1. rewrite Ht, (delete_Permutation (rc_free c) n t Hn) in H1. rewrite <- H1.
    change (delete n (rc_free c) ++ [t] ++ flowing c ≡ₚ (t :: delete n (rc_free c)) ++ [] ++ flowing c).
    generalize (flowing c). intros l. solve_Permutation.
  - by same H3.
  - by same H4.
  - same H5. intros E. simpl in E. destruct (fg_continue E); [by left|done].
Qed.

(** A task that no queue holds is changed. *)
Lemma flow_upd c f t g :
  0 <= rc_fail_count c → t ∉ flowing c → flow_ok c f → flow_ok (upd_task t g c) f.
Proof.
  intros Hf Ht H. apply (flow_ext c (upd_task t g c)); [..|exact H]; try done.
  intros t' Ht'. simpl. apply lookup_alter_ne. intros ->. done.
Qed.

Lemma push_inv ids c f t p :
  NoDup ids → replay_inv ids c f → rc_main c = MainPush t p → ∃ f', replay_inv ids (push_task t p c) f'.
Proof.
  intros Hn H Hm. pose proof (tasks_nodup _ _ _ Hn H) as Hd. pose proof (ri_read _ _ _ H) as Hr.
  unfold main_read in Hr. rewrite Hm in Hr. set (record := rehash (rc_record c)) in *.
  set (g := λ task, mkTask record (rt_result task) (rt_buff task)).
  assert (Hmt : main_tasks c = [t]) by (unfold main_tasks; by rewrite Hm).
  assert (Hnf : t ∉ flowing c).
  { unfold all_tasks in Hd. rewrite Hmt in Hd. apply NoDup_app in Hd as (_ & _ & Hd). by apply NoDup_cons in Hd as [? _]. }
  destruct (tasks_known ids c f t H) as [task Htask].
  { unfold all_tasks. rewrite Hmt, !elem_of_app. right. left. by left. }
  destruct H as [H1 H2 H3 H4 H5 H6 H7].
  apply (flow_upd c f t g (fg_nonneg _ H5) Hnf) in H3. set (c1 := upd_task t g c) in *.
  assert (Ht : rc_tasks c1 !! t = Some (g task)) by (simpl; by rewrite lookup_alter_eq, Htask).
  exists (mkFlow (f_done f) (f_events f) (f_cur f) (f_cur_events f) (f_waiting f) (f_rest f ++ [record])).
  constructor.
  - rewrite <- H1. unfold all_tasks at 2. rewrite Hmt.
    change (rc_free c ++ [] ++ (rc_queue c ++ [t]) ++ dispatch_tasks c ++ rc_replay_queue c ++ replay_tasks c
      ≡ₚ rc_free c ++ [t] ++ rc_queue c ++ dispatch_tasks c ++ rc_replay_queue c ++ replay_tasks c).
    solve_Permutation.
  - intros t' Ht'. simpl. rewrite lookup_alter_is_Some. by apply H2.
  - destruct H3 as [K1 K2 K3 K4 K5 K6]. constructor; try assumption.
    + simpl. change (rc_pushed c1) with (rc_pushed c) in K1. rewrite K1. by rewrite <- !app_assoc.
    + intros Hh. destruct (K6 Hh) as (arr & dq & Heq & Ha & Hq). exists arr, (dq ++ [record]). split_and!.
      * simpl. by rewrite Heq, app_assoc.
      * exact Ha.
      * apply Forall2_app; [exact Hq|]. constructor; [|constructor]. by exists (g task).
  - destruct H4 as [K1 K2 K3 K4 K5 K6]. constructor; try assumption.
    simpl. rewrite K1, length_app. simpl. lia.
  - same H5. intros E. simpl in E. destruct (fg_continue E) as [|Hx]; [by left|].
    unfold exiting in Hx. by rewrite Hm in Hx.
  - unfold main_read. simpl. destruct Hr as [Hr|Hr]; [left|by right].
    destruct Hr as (bufs & buf & rs & rs' & k1 & Hb & Hp & Ha & Hr).
    exists bufs, buf, rs, (rs' ++ [record]), k1. simpl. rewrite Hp, app_nil_r. by rewrite app_assoc.
  - done.
Qed.

Lemma end_inv ids c f result :
  replay_inv ids c f → rc_main c = MainEnd result →
  replay_inv ids (set_main (MainWaitDispatch result) (if result =? 0 then c else binlog_replay_fail c)) f.
Proof.
  intros H Hm. destruct (Z.eqb_spec result 0) as [->|Hz].
  - pose proof (ri_read _ _ _ H) as Hr. unfold main_read in Hr. rewrite Hm in Hr.
    rewrite moved_main. by apply main_moved; [done|moving Hm|moving Hm|done|..].
  - assert (H' : replay_inv ids (binlog_replay_fail c) f) by (apply fail_inv; [done|by rewrite Hm]).
    rewrite moved_main. apply main_moved; [done|unfold main_tasks; simpl; by rewrite Hm|
      unfold exiting; simpl; rewrite Hm; tauto|done|by intros ->|done].
Qed.

Lemma wait_dispatch_inv ids c f result :
  Z.of_nat (length ids) + Z.of_nat RECOVERY_THREADS_PER_DATA_GROUP < 2 ^ 31 →
  replay_inv ids c f → rc_main c = MainWaitDispatch result →
  cast32 (rc_total_count c - rc_dispatched c) <= 0 →
  replay_inv ids (set_main (MainWaitReplay result (rc_replay_total_count c)) c) f.
Proof.
  intros Hids H Hm Hsub. pose proof (ri_read _ _ _ H) as Hr. unfold main_read in Hr. rewrite Hm in Hr.
  rewrite moved_main. apply main_moved; [done|moving Hm|moving Hm|done|done|].
  intros Hf. simpl in Hf. rewrite (sub_exact ids c f H Hf Hids) in Hsub.
  destruct (waits_drained _ _ _ H Hf) as (Hd & Hn & _); [lia|]. done.
Qed.

Lemma wait_replay_inv ids c f result n :
  replay_inv ids c f → rc_main c = MainWaitReplay result n → n <= rc_replay_count c →
  replay_inv ids (set_main (MainExit result) c) f.
Proof.
  intros H Hm Hn. pose proof (ri_read _ _ _ H) as Hr. unfold main_read in Hr. rewrite Hm in Hr.
  assert (He : ¬ exiting c) by moving Hm.
  rewrite moved_main. apply main_moved; [done|moving Hm|done|done|done|].
  intros Hf. simpl in Hf. pose proof (ri_waits _ _ _ H Hf) as Hw. rewrite Hm in Hw. destruct Hw as [Hd ->].
  split; [exact Hd|]. destruct (ri_flow _ _ _ H) as [Hp _ _ _ Hq _].
  pose proof (co_replay _ _ (ri_counts _ _ _ H)) as Hc. rewrite Hc, Hp in Hn.
  - rewrite !length_app in Hn. assert (Hw : f_waiting f = []) by (apply length_zero_iff_nil; lia).
    rewrite Hw in Hq. by apply Forall2_nil_inv_l in Hq.
  - intros Hx. assert (Hcont : rc_continue c = false) by (apply (fg_replay_left _ (ri_flags _ _ _ H)); by rewrite Hx).
    rewrite (not_continue c) in Hcont; [done|apply (ri_flags _ _ _ H)|done|done].
Qed.

Lemma exit_inv ids c f result :
  replay_inv ids c f → rc_main c = MainExit result →
  replay_inv ids (set_main (MainExitDispatch result) (set_continue false c)) f.
Proof.
  intros H Hm. destruct H as [H1 H2 H3 H4 H5 H6 H7]. constructor; try done.
  - unfold all_tasks, main_tasks in *. by rewrite Hm in H1.
  - by same H3.
  - by same H4.
  - same H5; try done. intros _. by right.
  - unfold main_read in *. by rewrite Hm in H6.
  - unfold main_waits in *. by rewrite Hm in H7.
Qed.
Lemma exit_dispatch_inv ids c f result :
  replay_inv ids c f → rc_main c = MainExitDispatch result →
  replay_inv ids (set_main (MainExitReplay result) c) f.
Proof.
  intros H Hm. destruct H as [H1 H2 H3 H4 H5 H6 H7]. constructor; try done.
  - unfold all_tasks, main_tasks in *. by rewrite Hm in H1.
  - by same H3.
  - by same H4.
  - same H5; try done. intros E. destruct (fg_continue E); [by left|by right].
  - unfold main_read in *. by rewrite Hm in H6.
  - unfold main_waits in *. by rewrite Hm in H7.
Qed.
Lemma exit_replay_inv ids c f result :
  replay_inv ids c f → rc_main c = MainExitReplay result → rc_replay_stage c = STAGE_FINISHED →
  replay_inv ids (set_main (MainReturned (if (result =? 0) && (0 <? rc_fail_count c) then EBUSY else result)) c) f.
Proof.
  intros H Hm Hs. destruct H as [H1 H2 H3 H4 H5 H6 H7]. constructor; try done.
  - unfold all_tasks, main_tasks in *. by rewrite Hm in H1.
  - by same H3.
  - by same H4.
  - same H5; try done. intros E. destruct (fg_continue E); [by left|by right].
  - unfold main_read in *. rewrite Hm in H6. simpl. pose proof (fg_nonneg _ H5).
    destruct (Z.eqb_spec result 0) as [->|]; simpl; [|done].
    destruct (Z.ltb_spec 0 (rc_fail_count c)); [done|]. intros _. split; [simpl; lia|by apply H6].
  - unfold main_waits in *. rewrite Hm in H7. intros Hf. destruct (H7 Hf) as [? ?]. split_and!; try done.
    by apply (fg_replay _ H5).
Qed.

Lemma main_inv ids c f init res slot c' :
  NoDup ids → Z.of_nat (length ids) + Z.of_nat RECOVERY_THREADS_PER_DATA_GROUP < 2 ^ 31 →
  replay_inv ids c f → do_replay_binlog init res slot c = Some c' → ∃ f', replay_inv ids c' f'.
Proof.
  intros Hn Hids H. unfold do_replay_binlog. destruct (rc_main c) eqn:Hm; try done.
  - intros [= <-]. eexists. by apply start_inv.
  - intros [= <-]. eexists. by apply loop_inv.
  - intros [= <-]. eexists. by apply fetch_result_inv.
  - intros [= <-]. eexists. by apply deal_buffer_inv.
  - intros Ha. eexists. by eapply alloc_inv.
  - intros [= <-]. by eapply push_inv.
  - intros [= <-]. eexists. by apply end_inv.
  - destruct (Z.ltb_spec 0 (cast32 (rc_total_count c - rc_dispatched c))); [done|]. intros [= <-].
    eexists. by apply wait_dispatch_inv.
  - destruct (Z.ltb_spec (rc_replay_count c) replay_total_count); [done|]. intros [= <-].
    eexists. by eapply wait_replay_inv.
  - intros [= <-]. eexists. by apply exit_inv.
  - case_decide; [|done]. intros [= <-]. eexists. by apply exit_dispatch_inv.
  - case_decide; [|done]. intros [= <-]. eexists. by apply exit_replay_inv.
Qed.
End Thms.

(** ** The dispatch, fetch and replay threads keep the order of the log *)

Section Steps.
Context `{cfg : ReplayConfig}.
Implicit Types (c : BinlogReplayContext) (t : Z) (r : ReplicaBinlogRecord) (f : Flow).

(** ** The dispatch thread *)

Definition in_loop (d : DispatchPc) : Prop :=
  match d with DispatchClear | DispatchWaitExit | DispatchFinished => False | _ => True end.

Lemma dispatch_moved ids c f d :
  let c' := set_dispatch d c in
  replay_inv ids c f → in_loop (rc_dispatch c) → in_loop d → dispatch_tasks c' = dispatch_tasks c →
  uncounted c' = uncounted c → unadded c' = unadded c → array_bound c' →
  ((∀ l, d ≠ DispatchWait l) → Forall (λ ft, busy ft = false) (rc_fetch c)) →
  (handing_on c' ∨ rc_fail_count c = 0 → tail_ok c' (f_rest f)) →
  replay_inv ids c' f.
Proof.
  intros c' H Hl Hl' Ht Hu1 Hu2 Hb Hi Hr. destruct H as [H1 H2 H3 H4 H5 H6 H7]. constructor; try done.
  - unfold all_tasks in *. by rewrite Ht.
  - by same H3.
  - same H4; simpl; [by rewrite Hu1|by rewrite Hu2|by rewrite Hu2].
  - same H5; simpl. rewrite fg_dispatch. unfold in_loop in *. tauto.
  - intros Hf. specialize (H7 Hf). simpl. unfold drained in *. rewrite Ht, Hu2. done.
Qed.

Lemma array_in_loop c arr :
  array_ok c arr → (match rc_dispatch c with DispatchLoop => True | _ => False end) → arr = [].
Proof. unfold array_ok. by destruct (rc_dispatch c). Qed.

Lemma loop_gathers ids c f :
  (0 < RECOVERY_THREADS_PER_DATA_GROUP)%nat → replay_inv ids c f → rc_dispatch c = DispatchLoop →
  rc_continue c = true → replay_inv ids (set_dispatch (DispatchGather []) c) f.
Proof.
  intros HT H Hd Hc. pose proof (continue_not_failed c (ri_flags _ _ _ H) Hc) as Hf.
  apply dispatch_moved; try done; unfold dispatch_tasks, uncounted, unadded; rewrite ?Hd; try done.
  - intros _. apply (fg_fetch_idle _ (ri_flags _ _ _ H)). intros l. by rewrite Hd.
  - intros _. destruct (fo_rest _ _ (ri_flow _ _ _ H)) as (arr & dq & Heq & Ha & Hq); [by right|].
    unfold array_ok in Ha. rewrite Hd in Ha. subst arr. exists [], dq. split_and!; try done. constructor.
Qed.

Lemma loop_leaves ids c f :
  replay_inv ids c f → rc_dispatch c = DispatchLoop → rc_continue c = false →
  replay_inv ids (set_dispatch DispatchClear (set_dispatch_stage STAGE_CLEANUP c)) f.
Proof.
  intros H Hd Hc. destruct H as [H1 H2 H3 H4 H5 H6 H7]. constructor; try done.
  - unfold all_tasks, dispatch_tasks in *. by rewrite Hd in H1.
  - same H3. intros [[]|Hf]. destruct fo_rest as (arr & dq & Heq & Ha & Hq); [by right|].
    exists arr, dq. split_and!; try done. unfold array_ok in *. by rewrite Hd in Ha.
  - same H4; simpl; unfold uncounted, unadded in *; rewrite Hd in *; done.
  - same H5; simpl; try done.
    + intros _. apply fg_fetch_idle. intros l. by rewrite Hd.
    + unfold array_bound. simpl. lia.
  - intros Hf. specialize (H7 Hf). simpl. unfold drained, dispatch_tasks, unadded in *. by rewrite Hd in H7.
Qed.

Lemma gather_inv ids c f l t queue :
  replay_inv ids c f → rc_dispatch c = DispatchGather l → rc_queue c = t :: queue →
  replay_inv ids (set_dispatch (if (length (l ++ [t]) =? RECOVERY_THREADS_PER_DATA_GROUP)%nat
    then DispatchCheck (l ++ [t]) else DispatchGather (l ++ [t])) (set_queue queue c)) f.
Proof.
  intros H Hd Hq. set (d := if _ : bool then _ else _). set (c' := set_dispatch d _).
  destruct H as [H1 H2 H3 H4 H5 H6 H7].
  assert (Hb : (length l < RECOVERY_THREADS_PER_DATA_GROUP)%nat).
  { pose proof (fg_array _ H5) as Hb. unfold array_bound in Hb. by rewrite Hd in Hb. }
  assert (Ht : dispatch_tasks c' = l ++ [t]) by (unfold dispatch_tasks, c', d; simpl; by destruct (_ =? _)%nat).
  assert (Hu : uncounted c' = 0 ∧ unadded c' = 0) by (unfold uncounted, unadded, c', d; simpl; by destruct (_ =? _)%nat).
  destruct Hu as [Hu1 Hu2].
  constructor; try done.
  - rewrite <- H1. unfold all_tasks at 2. unfold dispatch_tasks at 1. rewrite Hd, Hq. unfold all_tasks. rewrite Ht.
    change (rc_free c ++ main_tasks c ++ queue ++ (l ++ [t]) ++ rc_replay_queue c ++ replay_tasks c
      ≡ₚ rc_free c ++ main_tasks c ++ (t :: queue) ++ l ++ rc_replay_queue c ++ replay_tasks c).
    solve_Permutation.
  - same H3. intros _. destruct fo_rest as (arr & dq & Heq & Ha & Hqq).
    { left. unfold handing_on. by rewrite Hd. }
    unfold array_ok in Ha. rewrite Hd in Ha. rewrite Hq in Hqq. apply Forall2_cons_inv_r in Hqq as (r & dq' & Hr & Hqq & ->).
    exists (arr ++ [r]), dq'. split_and!; [by rewrite Heq, <- app_assoc| |exact Hqq].
    assert (Hx : Forall2 (holds c) (arr ++ [r]) (l ++ [t])) by (apply Forall2_app; [done|by constructor]).
    unfold array_ok, c', d. simpl. destruct (_ =? _)%nat; exact Hx.
  - same H4; simpl.
    + rewrite Hu1. unfold uncounted in *. by rewrite Hd in *.
    + rewrite Hu2. unfold unadded in *. by rewrite Hd in *.
    + rewrite Hu2. lia.
  - same H5; simpl.
    + rewrite fg_dispatch, Hd. unfold d. by destruct (_ =? _)%nat.
    + intros _. apply fg_fetch_idle. intros l'. by rewrite Hd.
    + unfold array_bound. rewrite Ht. unfold c', d. simpl.
      destruct (Nat.eqb_spec (length (l ++ [t])) RECOVERY_THREADS_PER_DATA_GROUP) as [->|Hne]; [done|].
      rewrite length_app in *. simpl in *. lia.
  - intros Hf. simpl. specialize (H7 Hf). unfold drained in *. rewrite Hq in H7.
    destruct (rc_main c); try done; exfalso; [destruct H7 as [[? _] _]; done..|].
    destruct H7 as [[? _] _]. done.
Qed.

Lemma gather_woken_inv ids c f l :
  replay_inv ids c f → rc_dispatch c = DispatchGather l → rc_queue c = [] →
  replay_inv ids (set_dispatch (match l with [] => DispatchLoop | _ => DispatchCheck l end) c) f.
Proof.
  intros H Hd Hq. assert (Hh : handing_on c) by (unfold handing_on; by rewrite Hd).
  destruct (fo_rest _ _ (ri_flow _ _ _ H) (or_introl Hh)) as (arr & dq & Heq & Ha & Hqq).
  unfold array_ok in Ha. rewrite Hd in Ha.
  pose proof (fg_array _ (ri_flags _ _ _ H)) as Hb. unfold array_bound in Hb. rewrite Hd in Hb.
  apply dispatch_moved; [done|by rewrite Hd|by destruct l|unfold dispatch_tasks; rewrite Hd; by destruct l|
    unfold uncounted; rewrite Hd; by destruct l|unfold unadded; rewrite Hd; by destruct l| | |].
  - destruct l; unfold array_bound; simpl in *; lia.
  - intros _. apply (fg_fetch_idle _ (ri_flags _ _ _ H)). intros l'. by rewrite Hd.
  - intros _. exists arr, dq. split_and!; [done| |done]. unfold array_ok. simpl.
    destruct l; [by apply Forall2_nil_inv_r in Ha|done].
Qed.

Lemma is_write_op c r t : holds c r t → is_write t c = op_is r BINLOG_OP_TYPE_WRITE_SLICE.
Proof. intros (task & Ht & <-). unfold is_write. by rewrite Ht. Qed.

(** One fetch thread becomes busy for each write. *)
Lemma push_busy c l fts :
  Forall (λ ft, busy ft = false) fts → (length l <= length fts)%nat →
  length (filter (λ ft, busy ft = true) (imap (λ i ft, match l !! i with
      | Some t => if is_write t c then mkFetch (ft_queue ft ++ [t]) (ft_pc ft) else ft
      | None => ft
      end) fts)) = length (filter (λ t, is_write t c = true) l).
Proof.
  revert l. induction fts as [|ft fts IH]; intros l Hi Hl; [by destruct l; simpl in *; [|lia]|].
  apply Forall_cons in Hi as [Hft Hi]. rewrite imap_cons. destruct l as [|t l]; simpl.
  - rewrite filter_cons_False by by rewrite Hft. apply (IH [] Hi). simpl. lia.
  - simpl in Hl. rewrite filter_cons. specialize (IH l Hi ltac:(lia)). destruct (is_write t c) eqn:Hw.
    + assert (Hb : busy (mkFetch (ft_queue ft ++ [t]) (ft_pc ft)) = true).
      { unfold busy. simpl. destruct (ft_queue ft ++ [t]) as [|? ?] eqn:E; [by apply app_nil in E as [_ ?]|done]. }
      rewrite decide_True by done. simpl. rewrite filter_cons_True by done. simpl. f_equal. exact IH.
    + rewrite decide_False by by rewrite Hft. rewrite filter_cons_False by by rewrite Hw. exact IH.
Qed.

(** The tasks are handed to the fetch threads. *)
Lemma fetch_writes_inv ids c f l :
  replay_inv ids c f → rc_dispatch c = DispatchCheck l → rc_continue c = true →
  replay_inv ids (fetch_writes l c) f.
Proof.
  intros H Hd Hc. assert (Hh : handing_on c) by (unfold handing_on; by rewrite Hd).
  destruct (fo_rest _ _ (ri_flow _ _ _ H) (or_introl Hh)) as (arr & dq & Heq & Ha & Hqq).
  unfold array_ok in Ha. rewrite Hd in Ha. pose proof (ri_flags _ _ _ H) as Hg.
  pose proof (fg_array _ Hg) as Hb. unfold array_bound, dispatch_tasks in Hb. rewrite Hd in Hb. simpl in Hb.
  assert (Hidle : Forall (λ ft, busy ft = false) (rc_fetch c)).
  { apply (fg_fetch_idle _ Hg). intros l'. by rewrite Hd. }
  assert (Hrun : rc_dispatch_stage c = STAGE_RUNNING) by (apply (fg_dispatch _ Hg); by rewrite Hd).
  assert (Hready : ∀ r t, holds c r t → op_is r BINLOG_OP_TYPE_WRITE_SLICE = false → prepared c r t).
  { intros r t (task & Ht & Hr) Hw. exists task. split; [done|]. unfold ready. by rewrite Hw. }
  unfold fetch_writes. set (n := Z.of_nat (length (filter _ l))). destruct (Z.ltb_spec 0 n) as [Hn|Hn].
  - set (c' := set_dispatch _ _). destruct H as [H1 H2 H3 H4 H5 H6 H7]. constructor; try done.
    + unfold all_tasks, dispatch_tasks in *. by rewrite Hd in H1.
    + same H3. intros _. exists arr, dq. split_and!; [done| |exact Hqq]. split; [by eapply Forall2_length|].
      intros i ft Hi. simpl in Hi. unfold push_writes in Hi. rewrite list_lookup_imap in Hi.
      destruct (rc_fetch c !! i) as [ft0|] eqn:Hi0; [|done]. simpl in Hi. injection Hi as <-.
      assert (Hf0 : ft_queue ft0 = [] ∧ at_loop ft0).
      { rewrite Forall_forall in Hidle. specialize (Hidle ft0 (list_elem_of_lookup_2 _ _ _ Hi0)).
        unfold busy in Hidle. destruct (ft_queue ft0); [|done]. split; [done|]. unfold at_loop.
        destruct (ft_pc ft0) eqn:Hpc; try done; auto. exfalso.
        by apply (fg_fetch_exited _ H5 ft0 (list_elem_of_lookup_2 _ _ _ Hi0) Hpc). }
      destruct Hf0 as [Hq0 Hl0].
      assert (Hz : zip arr l !! i = None ∧ l !! i = None ∨ ∃ r t, zip arr l !! i = Some (r, t) ∧ l !! i = Some t ∧ holds c r t).
      { destruct (l !! i) as [t|] eqn:Hli.
        - right. destruct (Forall2_lookup_r _ _ _ _ _ Ha Hli) as (r & Hri & Hr). exists r, t.
          split_and!; [|done|done]. apply lookup_zip_with_Some. eauto.
        - left. split; [|done]. apply lookup_zip_with_None. auto. }
      destruct Hz as [[-> ->]|(r & t & -> & -> & Hr)]; [done|]. simpl. rewrite (is_write_op c r t Hr).
      destruct (op_is r _) eqn:Hw.
      * left. simpl. by rewrite Hq0.
      * split_and!; [done|done|]. by apply (prepared_ext c c'); [|apply Hready].
    + same H4; simpl; unfold uncounted, unadded in *; rewrite Hd in *; done.
    + same H5; simpl.
      * rewrite fg_dispatch, Hd. done.
      * unfold push_writes. rewrite push_busy; [|done|lia]. rewrite fg_fetch_count.
        assert (Hz : filter (λ ft, busy ft = true) (rc_fetch c) = []).
        { apply filter_nil_iff. intros ft Hft. rewrite Forall_forall in Hidle. by rewrite (Hidle ft Hft). }
        rewrite Hz. fold n. simpl. lia.
      * intros Hx. by destruct (Hx l).
      * intros ft Hft Hpc. exfalso. apply list_elem_of_lookup in Hft as [i Hi]. unfold push_writes in Hi.
        rewrite list_lookup_imap in Hi. destruct (rc_fetch c !! i) as [ft0|] eqn:Hi0; [|done].
        simpl in Hi. injection Hi as <-. eapply (fg_fetch_exited ft0); [by eapply list_elem_of_lookup_2| |done].
        destruct (l !! i) as [t|]; [destruct (is_write t c)|]; done.
      * unfold push_writes. by rewrite length_imap.
    + intros Hf. specialize (H7 Hf). simpl. unfold drained, dispatch_tasks, unadded in *. by rewrite Hd in H7.
  - apply dispatch_moved; [done|by rewrite Hd|done|unfold dispatch_tasks; by rewrite Hd|
      unfold uncounted; by rewrite Hd|unfold unadded; by rewrite Hd|done|done|].
    intros _. exists arr, dq. split_and!; [done| |done]. unfold array_ok. simpl.
    assert (Hno : filter (λ t, is_write t c = true) l = []) by (apply length_zero_iff_nil; unfold n in Hn; lia).
    rewrite filter_nil_iff in Hno.
    eapply Forall2_ext_in; [|exact Ha]. intros r t Hin Hr. right. apply Hready; [done|].
    specialize (Hno t Hin). rewrite (is_write_op c r t Hr) in Hno. by apply not_true_is_false.
Qed.

(** No fetch thread is busy any more. *)
Lemma wait_inv ids c f l :
  replay_inv ids c f → rc_dispatch c = DispatchWait l → rc_fetch_data_count c <= 0 →
  replay_inv ids (set_dispatch (DispatchRecheck l) c) f.
Proof.
  intros H Hd Hz. assert (Hh : handing_on c) by (unfold handing_on; by rewrite Hd).
  destruct (fo_rest _ _ (ri_flow _ _ _ H) (or_introl Hh)) as (arr & dq & Heq & Ha & Hqq).
  unfold array_ok in Ha. rewrite Hd in Ha. destruct Ha as [Hlen Hs]. pose proof (ri_flags _ _ _ H) as Hg.
  pose proof (fg_array _ Hg) as Hb. unfold array_bound, dispatch_tasks in Hb. rewrite Hd in Hb. simpl in Hb.
  rewrite (fg_fetch_count _ Hg) in Hz.
  assert (Hno : filter (λ ft, busy ft = true) (rc_fetch c) = []) by (apply length_zero_iff_nil; lia).
  rewrite filter_nil_iff in Hno.
  assert (Hidle : Forall (λ ft, busy ft = false) (rc_fetch c)).
  { apply Forall_forall. intros ft Hft. by apply not_true_is_false, Hno. }
  apply dispatch_moved; [done|by rewrite Hd|done|unfold dispatch_tasks; by rewrite Hd|
    unfold uncounted; by rewrite Hd|unfold unadded; by rewrite Hd|done|done|].
  intros _. exists arr, dq. split_and!; [done| |done]. unfold array_ok. simpl.
  apply Forall2_same_length_lookup. split; [done|]. intros i r t Hr Ht.
  destruct (rc_fetch c !! i) as [ft|] eqn:Hi.
  2:{ apply lookup_ge_None in Hi. apply lookup_lt_Some in Ht. rewrite (fg_fetch_length _ Hg) in Hi. lia. }
  specialize (Hs i ft Hi). rewrite (proj2 (lookup_zip_with_Some pair arr l i (r, t))) in Hs by eauto.
  unfold fetch_slot in Hs. rewrite Forall_forall in Hidle.
  pose proof (Hidle ft (list_elem_of_lookup_2 _ _ _ Hi)) as Hbusy. unfold busy in Hbusy.
  destruct (op_is r _); [|by right; apply Hs].
  destruct Hs as [(Hq & _)|[(Hq & Hpc & _)|(_ & _ & ?)]]; [by rewrite Hq in Hbusy|by rewrite Hq, Hpc in Hbusy|done].
Qed.

Lemma recheck_inv ids c f l :
  replay_inv ids c f → rc_dispatch c = DispatchRecheck l → rc_continue c = true →
  replay_inv ids (set_dispatch (DispatchPush l) c) f.
Proof.
  intros H Hd Hc. assert (Hh : handing_on c) by (unfold handing_on; by rewrite Hd).
  destruct (fo_rest _ _ (ri_flow _ _ _ H) (or_introl Hh)) as (arr & dq & Heq & Ha & Hqq).
  unfold array_ok in Ha. rewrite Hd in Ha. pose proof (ri_flags _ _ _ H) as Hg.
  pose proof (continue_not_failed c Hg Hc) as Hf.
  pose proof (fg_array _ Hg) as Hb. unfold array_bound, dispatch_tasks in Hb. rewrite Hd in Hb. simpl in Hb.
  apply dispatch_moved; [done|by rewrite Hd|done|unfold dispatch_tasks; by rewrite Hd|
    unfold uncounted; by rewrite Hd|unfold unadded; by rewrite Hd|done| |].
  - intros _. apply (fg_fetch_idle _ Hg). intros l'. by rewrite Hd.
  - intros _. exists arr, dq. split_and!; [done| |done]. unfold array_ok. simpl.
    eapply Forall2_ext_in; [|exact Ha]. intros r t _ [?|?]; [lia|done].
Qed.

(** A replay that was given up: only then tasks are dropped. *)
Lemma drop_inv ids c f l :
  replay_inv ids c f → rc_dispatch c = DispatchCheck l ∨ rc_dispatch c = DispatchRecheck l →
  rc_continue c = false → replay_inv ids (drop_tasks l c) f.
Proof.
  intros H Hd Hc. destruct H as [H1 H2 H3 H4 H5 H6 H7].
  assert (Ht : dispatch_tasks c = l) by (unfold dispatch_tasks; destruct Hd as [-> | ->]; done).
  assert (Hb : (length l <= RECOVERY_THREADS_PER_DATA_GROUP)%nat).
  { pose proof (fg_array _ H5) as Hb. unfold array_bound in Hb. rewrite Ht in Hb. destruct Hd as [Hd|Hd]; by rewrite Hd in Hb. }
  assert (Hnil : rc_fail_count c = 0 → l = []).
  { intros Hf. destruct (fg_continue _ H5 Hc) as [|He]; [lia|]. specialize (H7 Hf). unfold exiting, drained in *.
    rewrite Ht in H7. destruct (rc_main c); try done; by destruct H7 as [(_ & ? & _) _]. }
  assert (Hu : uncounted c = 0 ∧ unadded c = 0) by (unfold uncounted, unadded; destruct Hd as [-> | ->]; done).
  destruct Hu as [Hu1 Hu2]. unfold drop_tasks. constructor; try done.
  - rewrite <- H1. unfold all_tasks at 2. rewrite Ht.
    change ((rc_free c ++ l) ++ main_tasks c ++ rc_queue c ++ [] ++ rc_replay_queue c ++ replay_tasks c
      ≡ₚ rc_free c ++ main_tasks c ++ rc_queue c ++ l ++ rc_replay_queue c ++ replay_tasks c).
    solve_Permutation.
  - same H3. intros [[]|Hf]. destruct fo_rest as (arr & dq & Heq & Ha & Hq); [by right|].
    exists arr, dq. split_and!; [done| |done]. unfold array_ok in *. simpl. rewrite (Hnil Hf) in Hd.
    destruct Hd as [Hd|Hd]; rewrite Hd in Ha; by apply Forall2_nil_inv_r in Ha.
  - same H4; simpl.
    + intros Hf. rewrite <- (co_replay_total Hf), Hu1. done.
    + intros Hf. rewrite <- (co_dispatched Hf), Hu2, (Hnil Hf). done.
    + unfold unadded. simpl. lia.
  - same H5; simpl.
    + rewrite fg_dispatch. destruct Hd as [Hd|Hd]; by rewrite Hd.
    + intros _. apply fg_fetch_idle. intros l'. destruct Hd as [Hd|Hd]; by rewrite Hd.
    + unfold array_bound. simpl. lia.
  - intros Hf. specialize (H7 Hf). simpl in *. rewrite (Hnil Hf). unfold drained in *. simpl in *.
    unfold dispatch_tasks, unadded. simpl. destruct (rc_main c); try done; by destruct H7 as [(? & _ & _) ?].
Qed.

Lemma dispatch_push_inv ids c f l :
  replay_inv ids c f → rc_dispatch c = DispatchPush l →
  ∃ f', replay_inv ids (set_dispatch (DispatchCount (Z.of_nat (length l)))
                          (set_replay_queue (rc_replay_queue c ++ l) c)) f'.
Proof.
  intros H Hd. destruct H as [H1 H2 H3 H4 H5 H6 H7].
  assert (Hh : handing_on c) by (unfold handing_on; by rewrite Hd).
  destruct (fo_rest _ _ H3 (or_introl Hh)) as (arr & dq & Heq & Ha & Hqq). unfold array_ok in Ha. rewrite Hd in Ha.
  assert (Hb : (length l <= RECOVERY_THREADS_PER_DATA_GROUP)%nat).
  { pose proof (fg_array _ H5) as Hb. unfold array_bound, dispatch_tasks in Hb. by rewrite Hd in Hb. }
  assert (Hu : uncounted c = 0 ∧ unadded c = 0) by (unfold uncounted, unadded; by rewrite Hd). destruct Hu as [Hu1 Hu2].
  exists (mkFlow (f_done f) (f_events f) (f_cur f) (f_cur_events f) (f_waiting f ++ arr) dq).
  assert (Hn : handed (mkFlow (f_done f) (f_events f) (f_cur f) (f_cur_events f) (f_waiting f ++ arr) dq)
    = handed f + Z.of_nat (length l)).
  { unfold handed. simpl. rewrite !length_app, (Forall2_length _ _ _ Ha). lia. }
  constructor; try done.
  - rewrite <- H1. unfold all_tasks at 2. unfold dispatch_tasks at 1. rewrite Hd.
    change (rc_free c ++ main_tasks c ++ rc_queue c ++ [] ++ (rc_replay_queue c ++ l) ++ replay_tasks c
      ≡ₚ rc_free c ++ main_tasks c ++ rc_queue c ++ l ++ rc_replay_queue c ++ replay_tasks c).
    solve_Permutation.
  - same H3; simpl.
    + rewrite fo_pushed, Heq. by rewrite <- !app_assoc.
    + by apply Forall2_app.
    + intros _. exists [], dq. done.
  - same H4; simpl.
    + intros Hf. rewrite Hn, <- (co_replay_total Hf), Hu1. unfold uncounted. simpl. lia.
    + intros Hf. rewrite Hn, <- (co_dispatched Hf), Hu2. unfold unadded. simpl. lia.
    + unfold unadded. simpl. lia.
  - same H5; simpl.
    + by rewrite fg_dispatch, Hd.
    + intros _. apply fg_fetch_idle. intros l'. by rewrite Hd.
    + unfold array_bound. simpl. lia.
  - intros Hf. specialize (H7 Hf). simpl in *. unfold drained, dispatch_tasks, unadded in *. rewrite Hd in *. simpl in *.
    destruct (rc_main c); try done; destruct H7 as [(? & -> & ?) ?]; rewrite ?app_nil_r; done.
Qed.

(** The numbers of the tasks that were handed on. *)
Lemma count_inv ids c f n :
  replay_inv ids c f → rc_dispatch c = DispatchCount n →
  replay_inv ids (set_dispatch (DispatchTotal n) (set_replay_total_count (rc_replay_total_count c + n) c)) f.
Proof.
  intros H Hd. destruct H as [H1 H2 H3 H4 H5 H6 H7]. constructor; try done.
  - unfold all_tasks, dispatch_tasks in *. by rewrite Hd in H1.
  - same H3. intros [[]|Hf]. destruct fo_rest as (arr & dq & Heq & Ha & Hq); [by right|].
    exists arr, dq. split_and!; try done. unfold array_ok in *. by rewrite Hd in Ha.
  - same H4; simpl; unfold uncounted, unadded in *; rewrite Hd in *; simpl; try done.
    intros Hf. rewrite <- (co_replay_total Hf). lia.
  - same H5; simpl.
    + by rewrite fg_dispatch, Hd.
    + intros _. apply fg_fetch_idle. intros l'. by rewrite Hd.
    + unfold array_bound. simpl. lia.
  - intros Hf. specialize (H7 Hf). simpl. unfold drained, dispatch_tasks, unadded in *. by rewrite Hd in H7.
Qed.

Lemma total_inv ids c f n :
  replay_inv ids c f → rc_dispatch c = DispatchTotal n →
  replay_inv ids (set_dispatch DispatchLoop (set_dispatched (rc_dispatched c + n) c)) f.
Proof.
  intros H Hd. destruct H as [H1 H2 H3 H4 H5 H6 H7]. constructor; try done.
  - unfold all_tasks, dispatch_tasks in *. by rewrite Hd in H1.
  - same H3. intros [[]|Hf]. destruct fo_rest as (arr & dq & Heq & Ha & Hq); [by right|].
    exists arr, dq. split_and!; try done. unfold array_ok in *. by rewrite Hd in Ha.
  - same H4; simpl; unfold uncounted, unadded in *; rewrite Hd in *; simpl; try done; try lia.
  - same H5; simpl.
    + by rewrite fg_dispatch, Hd.
    + intros _. apply fg_fetch_idle. intros l'. by rewrite Hd.
    + unfold array_bound. simpl. lia.
  - intros Hf. specialize (H7 Hf). simpl. unfold drained, dispatch_tasks, unadded in *. rewrite Hd in H7.
    simpl. destruct (rc_main c); try done; by destruct H7 as [(? & ? & _) ?].
Qed.

Lemma exiting_drained c :
  main_waits c → rc_fail_count c = 0 → exiting c → drained c ∧ rc_replay_queue c = [].
Proof. intros Hw Hf He. specialize (Hw Hf). unfold exiting in He. destruct (rc_main c); try done. by destruct Hw as (? & ? & _). Qed.

Lemma dispatch_clear_inv ids c f c' :
  replay_inv ids c f → rc_dispatch c = DispatchClear → dispatch_clear c = Some c' → replay_inv ids c' f.
Proof.
  intros H Hd. unfold dispatch_clear. destruct (rc_continue c) eqn:Hc; [done|]. intros [= <-].
  destruct H as [H1 H2 H3 H4 H5 H6 H7].
  assert (Hq : rc_fail_count c = 0 → rc_queue c = []).
  { intros Hf. destruct (fg_continue _ H5 Hc) as [|He]; [lia|]. by destruct (exiting_drained c H7 Hf He) as [[? _] _]. }
  constructor; try done.
  - rewrite <- H1. unfold all_tasks at 2. unfold dispatch_tasks at 1. rewrite Hd.
    change ((rc_free c ++ rc_queue c) ++ main_tasks c ++ [] ++ [] ++ rc_replay_queue c ++ replay_tasks c
      ≡ₚ rc_free c ++ main_tasks c ++ rc_queue c ++ [] ++ rc_replay_queue c ++ replay_tasks c).
    solve_Permutation.
  - same H3. intros [[]|Hf]. destruct fo_rest as (arr & dq & Heq & Ha & Hqq); [by right|].
    exists arr, dq. rewrite (Hq Hf) in Hqq. split_and!; try done. unfold array_ok in *. by rewrite Hd in Ha.
  - same H4; simpl; unfold uncounted, unadded in *; rewrite Hd in *; simpl; try done; try lia.
    intros Hf. rewrite <- (co_dispatched Hf), (Hq Hf). simpl. lia.
  - same H5; simpl.
    + by rewrite fg_dispatch, Hd.
    + intros _. apply fg_fetch_idle. intros l'. by rewrite Hd.
    + unfold array_bound. simpl. lia.
  - intros Hf. specialize (H7 Hf). simpl. unfold drained, dispatch_tasks, unadded in *. rewrite Hd in H7.
    simpl. destruct (rc_main c); try done; by destruct H7 as [(? & _ & _) ?].
Qed.

Lemma wait_exit_inv ids c f :
  replay_inv ids c f → rc_dispatch c = DispatchWaitExit →
  replay_inv ids (set_dispatch DispatchFinished (set_dispatch_stage STAGE_FINISHED c)) f.
Proof.
  intros H Hd. destruct H as [H1 H2 H3 H4 H5 H6 H7]. constructor; try done.
  - unfold all_tasks, dispatch_tasks in *. by rewrite Hd in H1.
  - same H3. intros [[]|Hf]. destruct fo_rest as (arr & dq & Heq & Ha & Hq); [by right|].
    exists arr, dq. split_and!; try done. unfold array_ok in *. by rewrite Hd in Ha.
  - same H4; simpl; unfold uncounted, unadded in *; rewrite Hd in *; done.
  - same H5; simpl; try done.
    + intros _. apply fg_dispatch_cleared. intros E. apply fg_dispatch in E. by rewrite Hd in E.
    + intros _. apply fg_fetch_idle. intros l'. by rewrite Hd.
    + unfold array_bound. simpl. lia.
  - intros Hf. specialize (H7 Hf). simpl. unfold drained, dispatch_tasks, unadded in *. by rewrite Hd in H7.
Qed.

Lemma dispatch_inv ids c f woken c' :
  (0 < RECOVERY_THREADS_PER_DATA_GROUP)%nat → replay_inv ids c f → task_dispatch_run woken c = Some c' →
  ∃ f', replay_inv ids c' f'.
Proof.
  intros HT H. unfold task_dispatch_run. destruct (rc_dispatch c) as [|l|l|l|l|l|n|n| | |] eqn:Hd; try done.
  - intros [= <-]. exists f. destruct (rc_continue c) eqn:Hc; [by apply loop_gathers|by apply loop_leaves].
  - destruct (rc_queue c) as [|t queue] eqn:Hq; [destruct woken; [|done]|]; intros [= <-]; exists f.
    + by apply gather_woken_inv.
    + by apply gather_inv.
  - intros [= <-]. exists f. destruct (rc_continue c) eqn:Hc; [by apply fetch_writes_inv|].
    apply drop_inv; auto.
  - destruct (Z.ltb_spec 0 (rc_fetch_data_count c)); [done|]. intros [= <-]. exists f. by apply wait_inv.
  - intros [= <-]. exists f. destruct (rc_continue c) eqn:Hc; [by apply recheck_inv|]. apply drop_inv; auto.
  - intros [= <-]. by eapply dispatch_push_inv.
  - intros [= <-]. exists f. by apply count_inv.
  - intros [= <-]. exists f. by apply total_inv.
  - intros Hc. exists f. by eapply dispatch_clear_inv.
  - destruct (existsb _ _); [done|]. intros [= <-]. exists f. by apply wait_exit_inv.
Qed.

(** ** The fetch threads *)

Lemma busy_insert fts i ft ft' :
  fts !! i = Some ft →
  (length (filter (λ ft, busy ft = true) (<[i := ft']> fts)) + (if busy ft then 1 else 0) =
   length (filter (λ ft, busy ft = true) fts) + (if busy ft' then 1 else 0))%nat.
Proof.
  revert i. induction fts as [|x fts IH]; intros [|i] Hi; simpl in *; try done.
  - injection Hi as ->. rewrite !filter_cons. destruct (busy ft), (busy ft'); simpl; lia.
  - rewrite !filter_cons. specialize (IH i Hi). case_decide; simpl; lia.
Qed.

Lemma busy_waits ids c f i ft :
  replay_inv ids c f → rc_fetch c !! i = Some ft → busy ft = true → ∃ l, rc_dispatch c = DispatchWait l.
Proof.
  intros H Hi Hb. destruct (rc_dispatch c) as [| | |l| | | | | | |] eqn:Hd; try (by eexists); exfalso;
    (assert (Hidle : Forall (λ ft, busy ft = false) (rc_fetch c))
      by (apply (fg_fetch_idle _ (ri_flags _ _ _ H)); intros l'; by rewrite Hd));
    rewrite Forall_forall in Hidle; by rewrite (Hidle ft (list_elem_of_lookup_2 _ _ _ Hi)) in Hb.
Qed.

Lemma fetch_moved ids c f i ft ft' n :
  replay_inv ids c f → rc_fetch c !! i = Some ft →
  n = rc_fetch_data_count c - (if busy ft then 1 else 0) + (if busy ft' then 1 else 0) →
  (busy ft' = true → busy ft = true) → (ft_pc ft' = FetchExited → rc_dispatch_stage c ≠ STAGE_RUNNING) →
  (∀ o, rc_dispatch_stage c = STAGE_RUNNING → fetch_slot c o ft → fetch_slot c o ft') →
  replay_inv ids (set_fetch_thread i ft' (set_fetch_data_count n c)) f.
Proof.
  intros H Hi Hn Hb He Hs. pose proof (busy_waits _ _ _ _ _ H Hi) as Hw.
  destruct H as [H1 H2 H3 H4 H5 H6 H7]. constructor; try done.
  - same H3. intros Hh. destruct (fo_rest Hh) as (arr & dq & Heq & Ha & Hq). exists arr, dq. split_and!; try done.
    unfold array_ok in *. simpl. destruct (rc_dispatch c) as [| | |l| | | | | | |] eqn:Hd; try done.
    destruct Ha as [Hl Ha]. split; [done|]. intros j ftj Hj.
    assert (Hrun : rc_dispatch_stage c = STAGE_RUNNING) by (apply (fg_dispatch _ H5); by rewrite Hd).
    assert (Hx : fetch_slot c (zip arr l !! j) ftj).
    { destruct (decide (i = j)) as [->|Hne].
      - rewrite list_lookup_insert_eq in Hj by by eapply lookup_lt_Some. injection Hj as <-. apply Hs; [done|by apply Ha].
      - rewrite list_lookup_insert_ne in Hj by done. by apply Ha. }
    exact Hx.
  - by same H4.
  - same H5; simpl.
    + rewrite Hn, fg_fetch_count. pose proof (busy_insert (rc_fetch c) i ft ft' Hi). destruct (busy ft), (busy ft'); lia.
    + intros Hx. specialize (fg_fetch_idle Hx). apply Forall_insert; [done|]. apply not_true_is_false. intros Hb'.
      destruct (Hw (Hb Hb')) as [l Hl]. by destruct (Hx l).
    + intros ftj Hj Hpc. apply list_elem_of_lookup in Hj as [j Hj]. destruct (decide (i = j)) as [->|Hne].
      * rewrite list_lookup_insert_eq in Hj by by eapply lookup_lt_Some. injection Hj as <-. by apply He.
      * rewrite list_lookup_insert_ne in Hj by done. eapply fg_fetch_exited; [by eapply list_elem_of_lookup_2|done].
    + by rewrite length_insert.
Qed.
Lemma fetch_thread_moved ids c f i ft ft' :
  replay_inv ids c f → rc_fetch c !! i = Some ft → busy ft' = busy ft →
  (ft_pc ft' = FetchExited → rc_dispatch_stage c ≠ STAGE_RUNNING) →
  (∀ o, rc_dispatch_stage c = STAGE_RUNNING → fetch_slot c o ft → fetch_slot c o ft') →
  replay_inv ids (set_fetch_thread i ft' c) f.
Proof.
  intros H Hi Hb He Hs. assert (Hc : set_fetch_data_count (rc_fetch_data_count c) c = c) by by destruct c.
  rewrite <- Hc at 1. apply (fetch_moved _ _ _ _ ft); try done; rewrite Hb; [destruct (busy ft); lia|done].
Qed.

(** The answer of the master. *)
Lemma log_answer_eq t result data c :
  log_answer t result data c = set_answers (rc_answers (log_answer t result data c)) c ∧
  rc_answers c ⊆ rc_answers (log_answer t result data c).
Proof.
  unfold log_answer. destruct (rc_tasks c !! t) as [task|]; simpl; [|by destruct c].
  split; [done|]. intros x Hx. apply elem_of_app. by left.
Qed.
Lemma read_inv ids c f i ft t g answers :
  NoDup ids → replay_inv ids c f → rc_fetch c !! i = Some ft → ft_pc ft = FetchRead t → rc_answers c ⊆ answers →
  (∀ task, rc_tasks c !! t = Some task → op_is (rt_record task) BINLOG_OP_TYPE_WRITE_SLICE = true →
           0 < rc_fail_count c ∨ ready answers (rt_record task) (g task)) →
  replay_inv ids (set_fetch_thread i (mkFetch (ft_queue ft) FetchNotify) (upd_task t g (set_answers answers c))) f.
Proof.
  intros Hnd H Hi Hpc HA Hg. pose proof (tasks_nodup _ _ _ Hnd H) as Hall.
  assert (Hbusy : busy ft = true) by (unfold busy; rewrite Hpc; by destruct (ft_queue ft)).
  destruct (busy_waits _ _ _ _ _ H Hi Hbusy) as [l Hd].
  destruct H as [H1 H2 H3 H4 H5 H6 H7].
  assert (Hh : handing_on c) by (unfold handing_on; by rewrite Hd).
  destruct (fo_rest _ _ H3 (or_introl Hh)) as (arr & dq & Heq & Ha & Hqq). unfold array_ok in Ha. rewrite Hd in Ha.
  destruct Ha as [Hl Ha]. pose proof (Ha i ft Hi) as Hs. unfold fetch_slot in Hs.
  assert (Hloop : ¬ at_loop ft) by (unfold at_loop; rewrite Hpc; by intros [?|?]).
  destruct (zip arr l !! i) as [[r t0]|] eqn:Hz; [|by destruct Hs]. destruct (op_is r _) eqn:Hw; [|by destruct Hs as (_&?&_)].
  assert (Hq0 : ft_queue ft = [] ∧ t0 = t ∧ holds c r t).
  { destruct Hs as [(_&?&_)|[(Hq & Hp & Ht)|(_&[Hp|?]&_)]]; [done| |congruence|done].
    rewrite Hpc in Hp. by injection Hp as ->. }
  destruct Hq0 as (Hq0 & -> & Hr). clear Hs.
  apply lookup_zip_with_Some in Hz as (r' & t' & Hrt & Har & Hlt). injection Hrt as <- <-.
  set (c' := set_fetch_thread _ _ _). assert (Kept : AnswersKept c c') by exact HA.
  assert (Hother : ∀ u, u ≠ t → rc_tasks c' !! u = rc_tasks c !! u).
  { intros u Hu. simpl. by apply lookup_alter_ne. }
  assert (Htl : t ∈ l) by by eapply list_elem_of_lookup_2.
  assert (Hdt : dispatch_tasks c = l) by (unfold dispatch_tasks; by rewrite Hd).
  assert (Hsep : NoDup l ∧ t ∉ rc_queue c ∧ t ∉ rc_replay_queue c ∧ t ∉ replay_tasks c).
  { unfold all_tasks in Hall. rewrite Hdt in Hall. apply NoDup_app in Hall as (_ & _ & Hall).
    apply NoDup_app in Hall as (_ & _ & Hall). apply NoDup_app in Hall as (_ & Hx & Hall).
    apply NoDup_app in Hall as (Hn & Hy & _). split_and!; [done|..]; intros Hin.
    - apply (Hx _ Hin). rewrite !elem_of_app. auto.
    - apply (Hy _ Htl). rewrite elem_of_app. auto.
    - apply (Hy _ Htl). rewrite elem_of_app. auto. }
  destruct Hsep as (Hln & Hs1 & Hs2 & Hs3). constructor; try done.
  - intros u Hu. simpl. rewrite lookup_alter_is_Some. by apply H2.
  - same H3.
    + eapply Forall2_impl; [exact fo_done|]. intros r1 evs. by apply replayed_sub.
    + apply (current_ext c c'); [done|done| |exact fo_cur]. intros u Hu. apply Hother. by intros ->.
    + eapply Forall2_ext_in; [|exact fo_waiting]. intros r1 u Hu. apply (prepared_ext c c'), Hother. by intros ->.
    + intros _. exists arr, dq. split_and!; [done| |].
      * unfold array_ok, c'. simpl. rewrite Hd. split; [done|]. fold c'. intros j ftj Hj.
        destruct (decide (i = j)) as [<-|Hne].
        -- rewrite list_lookup_insert_eq in Hj by by eapply lookup_lt_Some. injection Hj as <-.
           rewrite (proj2 (lookup_zip_with_Some pair arr l i (r, t))) by eauto. unfold fetch_slot. rewrite Hw.
           right. right. split_and!; [done|by left|]. destruct Hr as (task & Ht & <-).
           destruct (Hg task Ht Hw) as [?|Hready]; [by left|right]. exists (g task). split; [|done].
           simpl. by rewrite lookup_alter_eq, Ht.
        -- rewrite list_lookup_insert_ne in Hj by done. apply (slot_ext c c'); [|done|by apply Ha].
           intros r1 u Hu. apply Hother. intros ->. apply lookup_zip_with_Some in Hu as (? & ? & Hu & _ & Hju).
           injection Hu as <- <-. apply Hne. by eapply NoDup_lookup.
      * eapply Forall2_ext_in; [|exact Hqq]. intros r1 u Hu. apply (holds_ext c c'), Hother. by intros ->.
  - by same H4.
  - same H5; simpl.
    + rewrite fg_fetch_count. pose proof (busy_insert (rc_fetch c) i ft (mkFetch (ft_queue ft) FetchNotify) Hi) as Hb.
      rewrite Hbusy, Hq0 in *. simpl in Hb. lia.
    + intros Hx. by destruct (Hx l).
    + intros ftj Hj Hpj. apply list_elem_of_lookup in Hj as [j Hj]. destruct (decide (i = j)) as [->|Hne].
      * rewrite list_lookup_insert_eq in Hj by by eapply lookup_lt_Some. by injection Hj as <-.
      * rewrite list_lookup_insert_ne in Hj by done. eapply fg_fetch_exited; [by eapply list_elem_of_lookup_2|done].
    + by rewrite length_insert.
Qed.

Lemma busy_not_returned ids c f i ft t :
  replay_inv ids c f → rc_fetch c !! i = Some ft → ft_pc ft = FetchRead t → rc_main c ≠ MainReturned 0.
Proof.
  intros H Hi Hpc Hm. assert (Hbusy : busy ft = true) by (unfold busy; rewrite Hpc; by destruct (ft_queue ft)).
  destruct (busy_waits _ _ _ _ _ H Hi Hbusy) as [l Hd]. destruct H as [H1 H2 H3 H4 H5 H6 H7].
  unfold main_read in H6. rewrite Hm in H6. destruct (H6 eq_refl) as [Hf _]. specialize (H7 Hf). rewrite Hm in H7.
  destruct H7 as [(_ & Ht & _) _]. unfold dispatch_tasks in Ht. rewrite Hd in Ht. subst l.
  destruct (fo_rest _ _ H3 (or_intror Hf)) as (arr & dq & _ & Ha & _). unfold array_ok in Ha. rewrite Hd in Ha.
  destruct Ha as [Hl Ha]. specialize (Ha i ft Hi). apply length_zero_iff_nil in Hl as ->. simpl in Ha.
  destruct Ha as [_ [?|?]]; congruence.
Qed.

Lemma fetch_inv ids c f i woken result data c' :
  NoDup ids → replay_inv ids c f → fetch_data_run i woken result data c = Some c' → replay_inv ids c' f.
Proof.
  intros Hnd H. unfold fetch_data_run. destruct (rc_fetch c !! i) as [ft|] eqn:Hi; [|done]. simpl.
  destruct (ft_pc ft) as [| |t| |] eqn:Hpc; try done.
  - intros [= <-]. set (pc := if decide _ then _ else _).
    assert (Hb : busy (mkFetch (ft_queue ft) pc) = busy ft).
    { unfold busy, pc. simpl. rewrite Hpc. destruct (ft_queue ft); [|done]. by destruct (decide _). }
    apply (fetch_thread_moved _ _ _ _ ft); [done|done|done| |].
    + unfold pc. simpl. by destruct (decide _).
    + intros o Hrun. assert (Hl : at_loop ft) by by left. assert (Hl' : at_loop (mkFetch (ft_queue ft) pc)).
      { right. unfold pc. simpl. by rewrite decide_True. }
      unfold fetch_slot. simpl. destruct o as [[r u]|]; [|by intros [? _]].
      destruct (op_is r _); [|by intros (? & _ & ?)]. intros [(?&?&?)|[(?&E&?)|(?&?&?)]]; [by left|congruence|right; right; auto].
  - destruct (ft_queue ft) as [|t queue] eqn:Hq.
    + destruct woken; [|done]. intros [= <-].
      assert (Hb : busy ft = false) by (unfold busy; by rewrite Hq, Hpc).
      apply (fetch_thread_moved _ _ _ _ ft); [done|done|done|done|].
      intros o _. assert (Hl' : at_loop (mkFetch [] FetchLoop)) by by left.
      unfold fetch_slot. simpl. destruct o as [[r u]|]; [|by intros [? _]].
      destruct (op_is r _); [|by intros (? & _ & ?)]. intros [(E&?&?)|[(?&E&?)|(?&?&?)]]; [congruence|congruence|right; right; auto].
    + intros [= <-].
      assert (Hb : busy ft = true) by (unfold busy; by rewrite Hq).
      apply (fetch_thread_moved _ _ _ _ ft); [done|done|rewrite Hb; unfold busy; simpl; by destruct queue|done|].
      intros o _. unfold fetch_slot. simpl. rewrite Hq. destruct o as [[r u]|]; [|by intros [? _]].
      destruct (op_is r _); [|by intros [? _]]. intros [(E&?&?)|[(?&_)|(?&_)]]; [|done..].
      injection E as -> ->. right. by left.
  - destruct (answer_ok t result data c) eqn:Ha; [|done]. intros [= <-]. unfold answer_ok in Ha.
    assert (Hok : ∀ task, result = 0 → rc_tasks c !! t = Some task → Z.of_nat (length data) <= slice_length (rt_record task)).
    { intros task -> Ht. rewrite Ht in Ha. by apply Z.leb_le. }
    destruct (log_answer_eq t result data c) as [-> HA].
    assert (Hin : ∀ task, rc_tasks c !! t = Some task →
      (rt_record task, result, data) ∈ rc_answers (log_answer t result data c)).
    { intros task Ht. unfold log_answer. rewrite Ht. simpl. apply elem_of_app. right. by left. }
    set (answers := rc_answers (log_answer t result data c)) in *.
    destruct ((result =? 0) || (result =? ENODATA)) eqn:Hr.
    + apply (read_inv _ _ _ _ _ t); try done. intros task Ht Hw. right. unfold ready. rewrite Hw. unfold fetched.
      specialize (Hin task Ht). destruct (Z.eqb_spec result 0) as [->|]; simpl in *; [left; auto|]. right.
      apply Z.eqb_eq in Hr as ->. split_and!; [done|by exists data|done].
    + assert (H' : replay_inv ids (binlog_replay_fail c) f) by (apply fail_inv; [done|by eapply busy_not_returned]).
      change (set_fetch_thread i (mkFetch (ft_queue ft) FetchNotify) (upd_task t (fetched result data) (set_answers answers (binlog_replay_fail c))))
        with (set_fetch_thread i (mkFetch (ft_queue ft) FetchNotify) (binlog_replay_fail (upd_task t (fetched result data) (set_answers answers c)))).
      apply (read_inv _ (binlog_replay_fail c) _ _ ft t); try done. intros task _ _. left. simpl.
      pose proof (fg_nonneg _ (ri_flags _ _ _ H)). lia.
  - intros [= <-]. assert (Hb : busy ft = true) by (unfold busy; rewrite Hpc; by destruct (ft_queue ft)).
    destruct (busy_waits _ _ _ _ _ H Hi Hb) as [l Hd].
    assert (Hh : handing_on c) by (unfold handing_on; by rewrite Hd).
    destruct (fo_rest _ _ (ri_flow _ _ _ H) (or_introl Hh)) as (arr & dq & Heq & Hx & _). unfold array_ok in Hx.
    rewrite Hd in Hx. destruct Hx as [_ Hx]. specialize (Hx i ft Hi).
    assert (Hq : ft_queue ft = []).
    { unfold fetch_slot, at_loop in Hx. destruct (zip arr l !! i) as [[r u]|]; [|by destruct Hx].
      destruct (op_is r _); [|by destruct Hx]. destruct Hx as [(_&[E|E]&_)|[(E&_)|(E&_)]]; congruence. }
    apply (fetch_moved _ _ _ _ ft); [done|done|rewrite Hb; unfold busy; simpl; rewrite Hq; lia|done|done|].
    intros o _. unfold fetch_slot. simpl. assert (Hl' : at_loop (mkFetch (ft_queue ft) FetchLoop)) by by left.
    unfold at_loop in *. destruct o as [[r u]|]; [|by intros [? _]]. destruct (op_is r _); [|by intros (? & _ & ?)].
    intros [(_&[E|E]&_)|[(_&E&_)|(?&_&?)]]; [congruence..|right; right; auto].
Qed.
End Steps.
