(* ===== verification/BinlogReplayMain.v ===== *)
(** * The replay is the log

    The steps of the replay thread; what the events of a replay are in every state, and what
    has happened when a replay succeeds. *)
From S2P Require Import Prelude Types Binlog Skiplist ObSlices TrunkAllocator StorageAllocator.
From S2P Require Import ObIndex BinlogSpec BinlogThms SliceOp DataThread BinlogDedup BinlogDedupThms.
From S2P Require Import BinlogReplay BinlogReplaySpec BinlogReplayThms.

Section Main.
Context `{cfg : ReplayConfig}.
Implicit Types (c : BinlogReplayContext) (t : Z) (r : ReplicaBinlogRecord) (f : Flow).

(** ** The replay thread *)

(** The end of a task: its events, the statistics and the task itself have changed. *)
Definition after_task (tk : gmap Z ReplayTaskInfo) (s : ReplayStatInfo) (evs : list ReplayEvent) c :=
  set_events (rc_events c ++ evs) (set_stat s (set_tasks tk c)).
Definition only_task t (tk : gmap Z ReplayTaskInfo) c : Prop :=
  (∀ u, u ≠ t → tk !! u = rc_tasks c !! u) ∧ ∀ u, is_Some (rc_tasks c !! u) → is_Some (tk !! u).

Lemma not_flowing ids c f t :
  NoDup ids → replay_inv ids c f → replay_tasks c = [t] →
  t ∉ rc_queue c ∧ t ∉ dispatch_tasks c ∧ t ∉ rc_replay_queue c.
Proof.
  intros Hnd H Ht. pose proof (tasks_nodup _ _ _ Hnd H) as Hall. unfold all_tasks in Hall. rewrite Ht in Hall.
  apply NoDup_app in Hall as (_ & _ & Hall). apply NoDup_app in Hall as (_ & _ & Hall).
  apply NoDup_app in Hall as (_ & Hx & Hall). apply NoDup_app in Hall as (_ & Hy & Hall).
  apply NoDup_app in Hall as (_ & Hz & _).
  split_and!; intros Hin; [apply (Hx _ Hin)|apply (Hy _ Hin)|apply (Hz _ Hin)]; rewrite ?elem_of_app; auto using list_elem_of_here.
Qed.

Lemma current_task c f t :
  flow_ok c f → replay_tasks c = [t] → ∃ r, f_cur f = [r] ∧ f_cur_events f = [].
Proof.
  intros H Ht. pose proof (fo_cur _ _ H) as Hc. unfold current_ok, replay_tasks in *.
  destruct (rc_replay c); try done; destruct Hc as (r & -> & -> & _); eauto.
Qed.

Lemma task_done ids c f t tk s evs r :
  NoDup ids → replay_inv ids c f → replay_tasks c = [t] → only_task t tk c → f_cur f = [r] → replayed (rc_answers c) r evs →
  replay_inv ids (set_replay ReplayLoop (free_tasks [t] (after_task tk s evs c)))
    (mkFlow (f_done f ++ [r]) (f_events f ++ [evs]) [] [] (f_waiting f) (f_rest f)).
Proof.
  intros Hnd H Ht [Htk Htd] Hcur Hevs. destruct (not_flowing _ _ _ _ Hnd H Ht) as (N1 & N2 & N3).
  destruct (current_task _ _ _ (ri_flow _ _ _ H) Ht) as (r' & Hr' & He). rewrite Hcur in Hr'. injection Hr' as <-.
  set (c' := set_replay _ _). destruct H as [H1 H2 H3 H4 H5 H6 H7].
  assert (Hnf : rc_replay c ≠ ReplayFinished) by (intros E; unfold replay_tasks in Ht; by rewrite E in Ht).
  assert (Hrun : rc_replay c = ReplayDeal t ∨ ∃ op, rc_replay c = ReplayWaiting t op).
  { unfold replay_tasks in Ht. destruct (rc_replay c); try done; injection Ht as ->; eauto. }
  constructor; try done.
  - rewrite <- H1. unfold all_tasks at 2. rewrite Ht.
    change ((rc_free c ++ [t]) ++ main_tasks c ++ rc_queue c ++ dispatch_tasks c ++ rc_replay_queue c ++ []
      ≡ₚ rc_free c ++ main_tasks c ++ rc_queue c ++ dispatch_tasks c ++ rc_replay_queue c ++ [t]).
    solve_Permutation.
  - intros u Hu. by apply Htd, H2.
  - destruct H3 as [K1 K2 K3 K4 K5 K6]. constructor; simpl.
    + rewrite K1, Hcur. by rewrite <- app_assoc.
    + rewrite K2, He, concat_app. simpl. by rewrite !app_nil_r.
    + apply Forall2_app; [done|by constructor].
    + by left.
    + eapply Forall2_ext_in; [|exact K5]. intros r1 u Hu. apply (prepared_ext c c'), Htk. by intros ->.
    + intros Hh. destruct (K6 Hh) as (arr & dq & Heq & Ha & Hq). exists arr, dq. split_and!; [done| |].
      * apply (array_ext c c'); [done|done|done| |done]. intros u Hu. apply Htk. by intros ->.
      * eapply Forall2_ext_in; [|exact Hq]. intros r1 u Hu. apply (holds_ext c c'), Htk. by intros ->.
  - destruct H4 as [K1 K2 K3 K4 K5 K6].
    assert (Hh : handed (mkFlow (f_done f ++ [r]) (f_events f ++ [evs]) [] [] (f_waiting f) (f_rest f)) = handed f).
    { unfold handed. simpl. by rewrite Hcur, <- app_assoc. }
    constructor; simpl; rewrite ?Hh; try done.
    intros _. rewrite app_nil_r, <- Hcur. by apply K2.
  - same H5; simpl; try done.
    + rewrite fg_replay. split; [|done]. intros E. by destruct Hnf.
  - intros Hf. specialize (H7 Hf). simpl. destruct (rc_main c); try done. by destruct H7 as (_ & _ & ?).
Qed.

Lemma task_failed ids c f t tk s evs r :
  NoDup ids → replay_inv ids c f → replay_tasks c = [t] → only_task t tk c → f_cur f = [r] → attempted (rc_answers c) r evs →
  replay_inv ids (set_replay ReplayLoop (free_tasks [t] (binlog_replay_fail (after_task tk s evs c))))
    (mkFlow (f_done f) (f_events f) [r] evs (f_waiting f) (f_rest f)).
Proof.
  intros Hnd H Ht [Htk Htd] Hcur Hevs. destruct (not_flowing _ _ _ _ Hnd H Ht) as (N1 & N2 & N3).
  destruct (current_task _ _ _ (ri_flow _ _ _ H) Ht) as (r' & Hr' & He). rewrite Hcur in Hr'. injection Hr' as <-.
  assert (Hnf : rc_replay c ≠ ReplayFinished) by (intros E; unfold replay_tasks in Ht; by rewrite E in Ht).
  assert (Hm : rc_main c ≠ MainReturned 0).
  { intros Hm. pose proof (ri_read _ _ _ H) as Hr. unfold main_read in Hr. rewrite Hm in Hr.
    destruct (Hr eq_refl) as [Hf _]. pose proof (ri_waits _ _ _ H Hf) as Hw. rewrite Hm in Hw. by destruct Hw as (_ & _ & ?). }
  pose proof (fg_nonneg _ (ri_flags _ _ _ H)) as Hpos. apply fail_inv in H; [|done].
  set (c0 := binlog_replay_fail c) in *. set (c' := set_replay _ _). destruct H as [H1 H2 H3 H4 H5 H6 H7].
  assert (Hfail : 0 < rc_fail_count c0) by (simpl; lia).
  constructor; try done.
  - rewrite <- H1. unfold all_tasks at 2. change (replay_tasks c0) with (replay_tasks c). rewrite Ht.
    change ((rc_free c ++ [t]) ++ main_tasks c ++ rc_queue c ++ dispatch_tasks c ++ rc_replay_queue c ++ []
      ≡ₚ rc_free c ++ main_tasks c ++ rc_queue c ++ dispatch_tasks c ++ rc_replay_queue c ++ [t]).
    solve_Permutation.
  - intros u Hu. by apply Htd, H2.
  - destruct H3 as [K1 K2 K3 K4 K5 K6]. constructor; simpl.
    + simpl in K1. by rewrite K1, Hcur.
    + simpl in K2. by rewrite K2, He, app_nil_r.
    + done.
    + right. split; [exact Hfail|]. eauto.
    + eapply Forall2_ext_in; [|exact K5]. intros r1 u Hu. apply (prepared_ext c0 c'), Htk. by intros ->.
    + intros Hh. destruct (K6 Hh) as (arr & dq & Heq & Ha & Hq). exists arr, dq. split_and!; [done| |].
      * apply (array_ext c0 c'); [done|done|done| |done]. intros u Hu. apply Htk. by intros ->.
      * eapply Forall2_ext_in; [|exact Hq]. intros r1 u Hu. apply (holds_ext c0 c'), Htk. by intros ->.
  - destruct H4 as [K1 K2 K3 K4 K5 K6].
    assert (Hh : handed (mkFlow (f_done f) (f_events f) [r] evs (f_waiting f) (f_rest f)) = handed f).
    { unfold handed. simpl. by rewrite Hcur. }
    constructor; simpl; rewrite ?Hh; try done.
    intros _. rewrite <- Hcur. by apply K2.
  - same H5; simpl; try done.
    + split; [|done]. intros E. by destruct (Hnf (proj1 fg_replay E)).
  - intros Hf. simpl in *. lia.
Qed.

(** ** The cases of [deal_task] *)

Lemma only_same t c : only_task t (rc_tasks c) c.
Proof. by split. Qed.
Lemma only_result t g c : only_task t (rc_tasks (upd_task t g c)) c.
Proof. split; intros u Hu; simpl; [by apply lookup_alter_ne|by rewrite lookup_alter_is_Some]. Qed.
Lemma after_same s evs c : after_task (rc_tasks c) s evs c = set_events (rc_events c ++ evs) (set_stat s c).
Proof. by destruct c. Qed.
Lemma after_nothing s c : after_task (rc_tasks c) s [] c = set_stat s c.
Proof. rewrite after_same, app_nil_r. by destruct c. Qed.

(** What a task that is ready gives for its record. *)
Lemma ready_executes answers r task :
  ready answers r task → operation_of r ≠ DATA_OPERATION_NONE →
  (op_is r BINLOG_OP_TYPE_WRITE_SLICE = true → rt_result task = 0) →
  executes answers r (rt_record task) (if decide (operation_of r = DATA_OPERATION_SLICE_WRITE) then rt_buff task else []).
Proof.
  intros Hr Hop Hz. split; [done|]. unfold ready, operation_of in *.
  destruct (op_is r BINLOG_OP_TYPE_WRITE_SLICE).
  - rewrite decide_True by done. destruct Hr as [(_ & ? & ? & ?)|[E _]]; [done|]. by rewrite (Hz eq_refl) in E.
  - destruct (op_is r BINLOG_OP_TYPE_ALLOC_SLICE), (op_is r BINLOG_OP_TYPE_DEL_SLICE); by rewrite decide_False.
Qed.
Lemma ready_same answers r task :
  ready answers r task → rr_op_type (rt_record task) = rr_op_type r ∧
  rr_data_version (rt_record task) = rr_data_version r ∧
  bs_block (rr_bs_key (rt_record task)) = bs_block (rr_bs_key r).
Proof. unfold ready. destruct (op_is r _); [intros [(_ & _ & -> & _)|(_ & _ & ->)]|intros ->]; done. Qed.

Lemma waiting_inv ids c f t task s r op :
  replay_inv ids c f → rc_replay c = ReplayDeal t → f_cur f = [r] → rc_tasks c !! t = Some task → ready (rc_answers c) r task →
  op = operation_of r → op ≠ DATA_OPERATION_NONE →
  (op_is r BINLOG_OP_TYPE_WRITE_SLICE = true → rt_result task = 0) →
  replay_inv ids (set_replay (ReplayWaiting t op) (set_stat s c)) f.
Proof.
  intros H Hd Hcur Ht Hr Hop Hn Hz. destruct H as [H1 H2 H3 H4 H5 H6 H7]. constructor; try done.
  - unfold all_tasks, replay_tasks in *. by rewrite Hd in H1.
  - same H3. unfold current_ok in *. rewrite Hd in fo_cur. destruct fo_cur as (r' & Hr' & He & _).
    rewrite Hcur in Hr'. injection Hr' as <-. simpl. exists r. split_and!; eauto.
  - same H4; simpl; try done. intros _. apply co_replay. by rewrite Hd.
  - same H5; simpl; try done. rewrite fg_replay. by rewrite Hd.
  - intros Hf. specialize (H7 Hf). simpl. destruct (rc_main c); try done. destruct H7 as (_ & _ & E). by rewrite Hd in E.
Qed.

Lemma padding_done ids c f t task s r log_result c1 tk evs :
  NoDup ids → replay_inv ids c f → replay_tasks c = [t] → only_task t tk c → f_cur f = [r] →
  c1 = after_task tk s evs c → ready (rc_answers c) r task → attempted (rc_answers c) r evs →
  replayed (rc_answers c) r (evs ++ [padded r]) →
  ∃ f', replay_inv ids (end_task t (log_padding t task log_result c1)) f'.
Proof.
  intros Hnd H Ht Htk Hcur -> Hr Hatt Hrep. destruct (ready_same _ r task Hr) as (_ & Hv & Hb).
  unfold end_task, log_padding. destruct (Z.eqb_spec log_result 0) as [->|Hl]; simpl.
  - rewrite Hv, Hb. change (NoOpLogged _ _) with (padded r).
    assert (E : set_events ((rc_events c ++ evs) ++ [padded r]) (after_task tk s evs c) = after_task tk s (evs ++ [padded r]) c).
    { unfold after_task. rewrite <- app_assoc. by destruct c. }
    rewrite E. eexists. by eapply task_done.
  - rewrite (proj2 (Z.eqb_neq _ _) Hl). eexists. by eapply task_failed.
Qed.

Lemma deal_replay_inv ids c f t mem log_result c' :
  NoDup ids → replay_inv ids c f → rc_replay c = ReplayDeal t → deal_task t mem log_result c = Some c' →
  ∃ f', replay_inv ids c' f'.
Proof.
  intros Hnd H Hd. assert (Ht : replay_tasks c = [t]) by (unfold replay_tasks; by rewrite Hd).
  pose proof (fo_cur _ _ (ri_flow _ _ _ H)) as Hc. unfold current_ok in Hc. rewrite Hd in Hc.
  destruct Hc as (r & Hcur & _ & task & Htask & Hr). pose proof (ready_same _ r task Hr) as (Hop & _ & _).
  assert (Hfail : ∀ s, ∃ f', replay_inv ids (set_replay ReplayLoop (free_tasks [t] (binlog_replay_fail (set_stat s c)))) f').
  { intros s. rewrite <- after_nothing. eexists. eapply task_failed; try done. all: first [apply only_same|by left]. }
  assert (Hwait : ∀ s op, op = operation_of r → op ≠ DATA_OPERATION_NONE →
    (op_is r BINLOG_OP_TYPE_WRITE_SLICE = true → rt_result task = 0) →
    ∃ f', replay_inv ids (set_replay (ReplayWaiting t op) (set_stat s c)) f').
  { intros s op ???. eexists. by eapply waiting_inv. }
  unfold deal_task. rewrite Htask. simpl. unfold select_operation. rewrite Hop.
  fold (op_is r BINLOG_OP_TYPE_WRITE_SLICE) (op_is r BINLOG_OP_TYPE_ALLOC_SLICE) (op_is r BINLOG_OP_TYPE_DEL_SLICE).
  destruct (op_is r BINLOG_OP_TYPE_WRITE_SLICE) eqn:Hw.
  { pose proof Hr as Hr'. unfold ready in Hr'. rewrite Hw in Hr'. destruct Hr' as [(Hz & _)|(Hz & Hans & _)]; rewrite Hz; simpl.
    - assert (Ho : DATA_OPERATION_SLICE_WRITE = operation_of r) by (unfold operation_of; by rewrite Hw).
      destruct mem; intros [= <-]; [by apply Hwait|apply Hfail].
    - intros [= <-]. eapply (padding_done ids c f t task _ r log_result _ (rc_tasks c) []); try done.
      + by rewrite after_nothing.
      + by left.
      + right. left. split_and!; [|exact Hans|done]. unfold operation_of. by rewrite Hw. }
  destruct (op_is r BINLOG_OP_TYPE_ALLOC_SLICE) eqn:Ha; simpl.
  { assert (Ho : DATA_OPERATION_SLICE_ALLOCATE = operation_of r) by (unfold operation_of; by rewrite Hw, Ha).
    destruct mem; intros [= <-]; [by apply Hwait|apply Hfail]. }
  destruct (op_is r BINLOG_OP_TYPE_DEL_SLICE) eqn:Hl; simpl; [|intros [= <-]; apply Hfail].
  assert (Ho : DATA_OPERATION_SLICE_DELETE = operation_of r) by (unfold operation_of; by rewrite Hw, Ha, Hl).
  destruct mem; intros [= <-]; [by apply Hwait|apply Hfail].
Qed.

Lemma write_done_inv ids c f t op result log_result c' :
  NoDup ids → replay_inv ids c f → rc_replay c = ReplayWaiting t op →
  slice_write_done t op result log_result c = Some c' → ∃ f', replay_inv ids c' f'.
Proof.
  intros Hnd H Hd. assert (Ht : replay_tasks c = [t]) by (unfold replay_tasks; by rewrite Hd).
  pose proof (fo_cur _ _ (ri_flow _ _ _ H)) as Hc. unfold current_ok in Hc. rewrite Hd in Hc.
  destruct Hc as (r & Hcur & _ & Hop & Hn & task & Htask & Hr & Hz). rewrite Hop in *.
  pose proof (ready_executes _ r task Hr Hn Hz) as Hex.
  unfold slice_write_done. rewrite Htask. simpl. intros [= <-].
  set (data := if decide _ then _ else _) in *. set (g := λ task, mkTask (rt_record task) result (rt_buff task)).
  set (evs := [DataOp (operation_of r) (rt_record task) data result]).
  set (tk := alter g t (rc_tasks c)). assert (Htk : only_task t tk c) by apply (only_result t g c).
  change (set_events _ _) with (after_task tk (rc_stat c) evs c).
  assert (Hafter : ∀ s, set_stat s (after_task tk (rc_stat c) evs c) = after_task tk s evs c) by (intros s; by destruct c).
  assert (Hdone : ∀ s, result = 0 → ∃ f', replay_inv ids (set_replay ReplayLoop (free_tasks [t] (after_task tk s evs c))) f').
  { intros s ->. eexists. eapply task_done; try done. left. by exists (rt_record task), data. }
  assert (Hatt : result ≠ 0 → attempted (rc_answers c) r evs).
  { intros ?. right. by exists (rt_record task), data, result. }
  assert (Hfail : result ≠ 0 → ∃ f', replay_inv ids (set_replay ReplayLoop (free_tasks [t]
    (binlog_replay_fail (after_task tk (rc_stat c) evs c)))) f').
  { intros ?. eexists. eapply task_failed; try done. by apply Hatt. }
  unfold finish_task. destruct (Z.eqb_spec result 0) as [Hres|Hres].
  { destruct (operation_of r) eqn:Ho; try done; simpl; rewrite Hafter; by apply Hdone. }
  destruct (Z.eqb_spec result ENOENT) as [He|He]; simpl.
  2:{ destruct (operation_of r); try done; simpl; rewrite (proj2 (Z.eqb_neq _ _) Hres); by apply Hfail. }
  case_bool_decide as Hdel.
  2:{ destruct (operation_of r); try done; simpl; rewrite (proj2 (Z.eqb_neq _ _) Hres); by apply Hfail. }
  rewrite Hdel. rewrite Hafter. eapply (padding_done ids c f t task _ r log_result _ tk evs); try done.
  - by apply Hatt.
  - right. right. split; [done|]. unfold evs. rewrite Hdel. simpl. subst result.
    assert (Hw : op_is r BINLOG_OP_TYPE_WRITE_SLICE = false).
    { unfold operation_of in Hdel. by destruct (op_is r BINLOG_OP_TYPE_WRITE_SLICE). }
    destruct Hex as [_ Hex]. rewrite Hw in Hex. by destruct Hex as [-> ->].
Qed.

(** ** The loop of the replay thread *)

(** Steps between two tasks. *)
Definition between (p : ReplayPc) : Prop :=
  match p with ReplayLoop | ReplayPop | ReplayWaitDispatch | ReplayClear => True | _ => False end.
Lemma replay_moved ids c f p st :
  let c' := set_replay p (set_replay_stage st c) in
  replay_inv ids c f → between (rc_replay c) → between p →
  st ≠ STAGE_FINISHED → rc_replay_stage c ≠ STAGE_FINISHED →
  (p = ReplayPop → rc_fail_count c = 0) →
  (match p with ReplayWaitDispatch | ReplayClear => True | _ => False end → rc_continue c = false) →
  (p = ReplayClear → rc_dispatch_stage c ≠ STAGE_RUNNING) →
  replay_inv ids c' f.
Proof.
  intros c' H Hb Hp Hst Hst' Hpop Hcont Hclear. destruct H as [H1 H2 H3 H4 H5 H6 H7].
  assert (Hnf : rc_replay c ≠ ReplayFinished) by (intros E; by rewrite E in Hb).
  assert (Hnp : p ≠ ReplayFinished) by (intros ->; done).
  constructor; try done.
  - unfold all_tasks, replay_tasks in *. simpl. by destruct (rc_replay c), p.
  - same H3. unfold current_ok in *. simpl.
    assert (Hc : (f_cur f = [] ∧ f_cur_events f = []) ∨
      (0 < rc_fail_count c ∧ ∃ r, f_cur f = [r] ∧ attempted (rc_answers c) r (f_cur_events f))).
    { destruct (rc_replay c); try done; by left. }
    destruct p; try done. specialize (Hpop eq_refl). destruct Hc as [?|[? _]]; [done|lia].
  - same H4; simpl; try done. intros _. by apply co_replay.
  - same H5; simpl; try done.
    + intros Hx. destruct p; try done; by apply Hcont.
    + intros Hx. destruct p; try done; by apply Hclear.
  - intros Hf. specialize (H7 Hf). simpl. destruct (rc_main c); try done. by destruct H7 as (_ & _ & ?).
Qed.
Lemma same_stage p c : set_replay p c = set_replay p (set_replay_stage (rc_replay_stage c) c).
Proof. by destruct c. Qed.

Lemma pop_inv ids c f t queue :
  replay_inv ids c f → rc_replay c = ReplayPop → rc_replay_queue c = t :: queue →
  ∃ f', replay_inv ids (set_replay (ReplayDeal t) (set_replay_queue queue
                          (set_replay_count (rc_replay_count c + 1) c))) f'.
Proof.
  intros H Hp Hq. destruct H as [H1 H2 H3 H4 H5 H6 H7].
  pose proof (fo_waiting _ _ H3) as Hw. rewrite Hq in Hw. apply Forall2_cons_inv_r in Hw as (r & w & Hr & Hw & Hfw).
  pose proof (fo_cur _ _ H3) as Hc. unfold current_ok in Hc. rewrite Hp in Hc. destruct Hc as [Hcur He].
  set (f' := mkFlow (f_done f) (f_events f) [r] [] w (f_rest f)). exists f'.
  assert (Hh : handed f' = handed f) by (unfold handed; simpl; by rewrite Hcur, Hfw).
  constructor; try done.
  - rewrite <- H1. unfold all_tasks at 2. unfold replay_tasks at 1. rewrite Hp, Hq.
    change (rc_free c ++ main_tasks c ++ rc_queue c ++ dispatch_tasks c ++ queue ++ [t]
      ≡ₚ rc_free c ++ main_tasks c ++ rc_queue c ++ dispatch_tasks c ++ (t :: queue) ++ []).
    solve_Permutation.
  - same H3; simpl.
    + by rewrite fo_pushed, Hcur, Hfw.
    + by rewrite fo_events, He.
    + exists r. done.
  - same H4; simpl; rewrite ?Hh; try done. intros _. rewrite co_replay by by rewrite Hp.
    rewrite Hcur, !length_app. simpl. lia.
  - same H5; simpl; try done. rewrite fg_replay. by rewrite Hp.
  - intros Hf. specialize (H7 Hf). simpl. rewrite Hq, Hp in H7. destruct (rc_main c); try done; [by destruct H7..|by destruct H7 as (_ & ? & _)].
Qed.

Lemma replay_clear_inv ids c f c' :
  replay_inv ids c f → rc_replay c = ReplayClear → replay_clear c = Some c' → ∃ f', replay_inv ids c' f'.
Proof.
  intros H Hp. unfold replay_clear. destruct (rc_continue c) eqn:Hc; [done|]. intros [= <-].
  destruct H as [H1 H2 H3 H4 H5 H6 H7].
  assert (Hq : rc_fail_count c = 0 → rc_replay_queue c = []).
  { intros Hf. destruct (fg_continue _ H5 Hc) as [|He]; [lia|]. by destruct (exiting_drained c H7 Hf He). }
  assert (Hnh : ¬ handing_on c).
  { intros Hh. pose proof (fg_replay_clear _ H5) as Hx. rewrite Hp in Hx. apply (Hx I), (fg_dispatch _ H5).
    unfold handing_on in Hh. by destruct (rc_dispatch c). }
  assert (Hw : rc_fail_count c = 0 → f_waiting f = []).
  { intros Hf. pose proof (fo_waiting _ _ H3) as Hw. rewrite (Hq Hf) in Hw. by apply Forall2_nil_inv_r in Hw. }
  set (f' := mkFlow (f_done f) (f_events f) (f_cur f) (f_cur_events f) [] (f_waiting f ++ f_rest f)). exists f'.
  assert (Hh : rc_fail_count c = 0 → handed f' = handed f).
  { intros Hf. unfold handed. simpl. by rewrite (Hw Hf). }
  constructor; try done.
  - rewrite <- H1. unfold all_tasks at 2. unfold replay_tasks at 1. rewrite Hp.
    change ((rc_free c ++ rc_replay_queue c) ++ main_tasks c ++ rc_queue c ++ dispatch_tasks c ++ [] ++ []
      ≡ₚ rc_free c ++ main_tasks c ++ rc_queue c ++ dispatch_tasks c ++ rc_replay_queue c ++ []).
    solve_Permutation.
  - same H3; simpl.
    + unfold current_ok in *. simpl. by rewrite Hp in fo_cur.
    + constructor.
    + intros [?|Hf]; [done|]. rewrite (Hw Hf). simpl. apply fo_rest. by right.
  - same H4; simpl; try done; intros Hf; rewrite (Hh Hf); auto.
  - same H5; simpl; try done.
    + intros _. apply fg_replay_clear. by rewrite Hp.
  - intros Hf. specialize (H7 Hf). simpl. destruct (rc_main c); try done; [by destruct H7..|]. by destruct H7 as (? & _ & _).
Qed.

Lemma replay_thread_inv ids c f woken mem result log_result c' :
  NoDup ids → replay_inv ids c f → binlog_replay_run woken mem result log_result c = Some c' →
  ∃ f', replay_inv ids c' f'.
Proof.
  intros Hnd H. pose proof (ri_flags _ _ _ H) as Hg. unfold binlog_replay_run.
  assert (Hs : rc_replay c ≠ ReplayFinished → rc_replay_stage c ≠ STAGE_FINISHED) by (intros Hx E; by apply Hx, (fg_replay _ Hg)).
  destruct (rc_replay c) as [| |t|t op| | |] eqn:Hp; try done.
  - intros [= <-]. exists f. destruct (rc_continue c) eqn:Hc.
    + rewrite same_stage. apply replay_moved; try done; rewrite ?Hp; try exact I; auto. intros _. by apply continue_not_failed.
    + apply replay_moved; try done; rewrite ?Hp; try exact I; auto.
  - destruct (rc_replay_queue c) as [|t queue] eqn:Hq.
    + destruct woken; [|done]. intros [= <-]. exists f. rewrite same_stage. apply replay_moved; try done; rewrite ?Hp; try exact I; auto.
    + intros [= <-]. by eapply pop_inv.
  - by eapply deal_replay_inv.
  - by eapply write_done_inv.
  - case_decide as Hr; [done|]. intros [= <-]. exists f. rewrite same_stage. apply replay_moved; try done; rewrite ?Hp; try exact I; auto.
    intros _. by apply (fg_dispatch_cleared _ Hg).
  - by eapply replay_clear_inv.
Qed.

Definition config_ok (ids : list Z) : Prop :=
  NoDup ids ∧ (0 < RECOVERY_THREADS_PER_DATA_GROUP)%nat ∧
  Z.of_nat (length ids) + Z.of_nat RECOVERY_THREADS_PER_DATA_GROUP < 2 ^ 31.

Lemma terminate_inv ids c f : replay_inv ids c f → replay_inv ids (set_sf_continue false c) f.
Proof.
  intros H. destruct H as [H1 H2 H3 H4 H5 H6 H7]. constructor; try done; [by same H3|by same H4|by same H5|].
  assert (Hg : gave_up (set_sf_continue false c)) by by left.
  unfold main_read in *. simpl. destruct (rc_main c); try done; try (by right); intros E; try by right.
  destruct (H6 E) as [? _]. by split; [|right].
Qed.

Lemma replay_step_inv ids c f st c' :
  config_ok ids → replay_inv ids c f → step st c = Some c' → ∃ f', replay_inv ids c' f'.
Proof.
  intros (Hnd & HT & Hids) H. destruct st as [init r slot|woken|i woken result data|woken mem result log_result|]; simpl.
  - by eapply main_inv.
  - by eapply dispatch_inv.
  - intros Hs. exists f. by eapply fetch_inv.
  - by eapply replay_thread_inv.
  - intros [= <-]. exists f. by apply terminate_inv.
Qed.

Lemma replay_init_inv ids old :
  (0 < RECOVERY_THREADS_PER_DATA_GROUP)%nat → replay_inv ids (int_replay_context ids old) (mkFlow [] [] [] [] [] []).
Proof.
  intros HT. constructor.
  - unfold all_tasks. simpl. by rewrite app_nil_r.
  - intros t Ht. simpl. apply list_elem_of_lookup in Ht as [i Hi].
    apply not_eq_None_Some. intros E. apply not_elem_of_list_to_map in E. apply E.
    rewrite <- list_fmap_compose. simpl. rewrite list_fmap_id. by eapply list_elem_of_lookup_2.
  - constructor; simpl; [done|done|constructor|by left|constructor|].
    intros _. exists [], []. split_and!; [done|done|constructor].
  - constructor; simpl; try done. unfold unadded. simpl. lia.
  - constructor; simpl; try done.
    + assert (Hz : filter (λ ft, busy ft = true) (replicate RECOVERY_THREADS_PER_DATA_GROUP (mkFetch [] FetchLoop)) = []).
      { apply filter_nil_iff. intros ft Hft. by apply elem_of_replicate_inv in Hft as ->. }
      by rewrite Hz.
    + intros _. by apply Forall_replicate.
    + intros ft Hft. by apply elem_of_replicate_inv in Hft as ->.
    + by rewrite length_replicate.
    + unfold array_bound. simpl. lia.
  - split; [constructor|done].
  - done.
Qed.

Lemma replay_reachable_inv ids old c : config_ok ids → reachable ids old c → ∃ f, replay_inv ids c f.
Proof.
  intros Hc. induction 1 as [|st c c' Hr [f IH] Hs]; [|by eapply replay_step_inv].
  eexists. apply replay_init_inv, Hc.
Qed.

(** C17: in every state of a replay, whatever the threads interleave to and whatever the master,
    the data thread and the allocators answer: what has been executed is a prefix of the log in
    its order, each record once. A write is executed with data that the master answered to the
    request for this record, and cut to their length; only when the master answered [ENODATA]
    to it, or for a deletion of what is not there, a record of no operation is logged. At the
    first record that could not be executed the replay ends: nothing is executed behind it. *)
Theorem replay_follows_log ids old c :
  config_ok ids → reachable ids old c →
  ∃ executed evss rest cur,
    rc_pushed c = executed ++ rest ∧ Forall2 (replayed (rc_answers c)) executed evss ∧ rc_events c = concat evss ++ cur ∧
    (cur = [] ∨ ∃ r rest', rest = r :: rest' ∧ attempted (rc_answers c) r cur ∧ 0 < rc_fail_count c).
Proof.
  intros Hc Hr. destruct (replay_reachable_inv _ _ _ Hc Hr) as [f H]. destruct (ri_flow _ _ _ H) as [K1 K2 K3 K4 _ _].
  exists (f_done f), (f_events f), (f_cur f ++ f_waiting f ++ f_rest f), (f_cur_events f). split_and!; try done.
  unfold current_ok in K4. destruct (rc_replay c).
  all: try (destruct K4 as [[_ ?]|(Hf & r & Hcur & Ha)]; [by left|right]; exists r; rewrite Hcur; simpl; by eauto).
  - left. by destruct K4.
  - left. by destruct K4 as (? & _ & ? & _).
  - left. by destruct K4 as (? & _ & ? & _).
Qed.

(** When [data_recovery_replay_binlog] returns 0 and the server is not terminating, every
    record of every buffer the log was read into has been executed, successfully and in order,
    or been replaced by a record of no operation; and every task is back in the allocator. *)
Lemma replay_success ids old c :
  config_ok ids → reachable ids old c → rc_main c = MainReturned 0 → rc_sf_continue c = true →
  (∃ k, reads_all start_key (rc_buffers c) (rc_pushed c) k) ∧
  (∃ evss, Forall2 (replayed (rc_answers c)) (rc_pushed c) evss ∧ rc_events c = concat evss) ∧ rc_free c ≡ₚ ids.
Proof.
  intros Hc Hr Hm Hsf. destruct (replay_reachable_inv _ _ _ Hc Hr) as [f H].
  pose proof (ri_read _ _ _ H) as Hread. unfold main_read in Hread. rewrite Hm in Hread.
  destruct (Hread eq_refl) as [Hf Hall]. pose proof (ri_waits _ _ _ H Hf) as Hw. rewrite Hm in Hw.
  destruct Hw as ((Hq & Ht & Hu) & Hrq & Hp).
  destruct (waits_drained _ _ _ H Hf) as (_ & _ & Hrest).
  { destruct (ri_counts _ _ _ H) as [C1 _ _ C4 _ _]. specialize (C4 Hf). rewrite Hu in C4.
    destruct (ri_flow _ _ _ H) as [K1 _ _ _ _ K6]. destruct K6 as (arr & dq & Heq & Ha & Hd); [by right|].
    rewrite Hq in Hd. apply Forall2_nil_inv_r in Hd as ->. assert (arr = []) as ->.
    { unfold array_ok, dispatch_tasks in *. destruct (rc_dispatch c); try done; subst; try by apply Forall2_nil_inv_r in Ha.
      destruct Ha as [Ha _]. by apply length_zero_iff_nil. }
    rewrite C1, K1, Heq. unfold handed in C4. rewrite !length_app in *. simpl. lia. }
  destruct (ri_flow _ _ _ H) as [K1 K2 K3 K4 K5 K6].
  rewrite Hrq in K5. apply Forall2_nil_inv_r in K5. unfold current_ok in K4. rewrite Hp in K4.
  destruct K4 as [[Hcur Hev]|[? _]]; [|lia]. split_and!.
  - destruct Hall as [Hall|[E|E]]; [by eexists|by rewrite E in Hsf|lia].
  - exists (f_events f). rewrite K1, Hcur, K5, Hrest, K2, Hev, !app_nil_r. done.
  - rewrite <- (ri_tasks _ _ _ H). unfold all_tasks, main_tasks, replay_tasks. rewrite Hm, Hp, Hq, Ht, Hrq. by rewrite !app_nil_r.
Qed.

(** ** The records of the lines of a log *)

Definition slice_logged (e : ReplicaEvent) : Prop :=
  replica_logged e ∧ is_slice_op (re_op e) = true ∧ ss_length (bs_slice (re_bs_key e)) <= FS_FILE_BLOCK_SIZE.
Definition log_text (events : list ReplicaEvent) : bytes := concat (replica_line <$> events).

Lemma event_rehash e r : replica_record_of e r → is_slice_op (re_op e) = true → rehash r = event_record e.
Proof.
  intros (Ho & Hsrc & Hv & Hoid & Hoff & Hs) Hop. unfold event_record, rehash. simpl. rewrite Ho, Hsrc, Hv, Hoid, Hoff.
  by rewrite Hs.
Qed.

Lemma unpack_line e events k n :
  split_spec split_string_ex → slice_logged e → memchr NEWLINE (log_text (e :: events)) = Some n →
  drop (S n) (log_text (e :: events)) = log_text events ∧
  ∃ r, replica_binlog_record_unpack split_string_ex (log_text (e :: events)) (S n) k = inr r ∧ rehash r = event_record e.
Proof.
  intros Hsplit (He & Hop & _). unfold log_text. rewrite fmap_cons. cbn [concat]. set (rest := concat (replica_line <$> events)).
  destruct (replica_unpack_ok split_string_ex Hsplit e rest k He) as (r & Hr & Hrr).
  rewrite replica_line_eq, <- app_assoc, length_app, Nat.add_comm in Hr.
  rewrite replica_line_eq, <- app_assoc. change ([NEWLINE] ++ rest) with (NEWLINE :: rest) in *. cbn [length Nat.add] in Hr.
  rewrite (memchr_app NEWLINE _ rest (join_no_newline _ (replica_fields_clean e He))). intros [= <-].
  split; [apply (drop_line (join SPACE (replica_fields e)) NEWLINE rest)|]. exists r. split; [exact Hr|].
  by apply event_rehash.
Qed.

Lemma reads_log events k p rs k' :
  split_spec split_string_ex → Forall slice_logged events → reads (log_text events) k p rs k' →
  ∃ read left, events = read ++ left ∧ p = log_text left ∧ rs = event_record <$> read.
Proof.
  intros Hsplit He. induction 1 as [|p rs k1 n record _ (read & left & Hev & Hp & Hrs) Hn Hu _]; [by exists [], events|].
  destruct left as [|e left]; [by rewrite Hp in Hn|]. rewrite Hp in Hn, Hu.
  rewrite Hev in He. apply Forall_app in He as [_ He]. apply Forall_cons in He as [He _].
  destruct (unpack_line e left k1 n Hsplit He Hn) as (Hd & r & Hr & Hrr). rewrite Hu in Hr. injection Hr as <-.
  exists (read ++ [e]), left. rewrite Hev, Hp, Hd, Hrs, Hrr, fmap_app, <- app_assoc. done.
Qed.

Lemma log_text_nil events : Forall slice_logged events → log_text events = [] → events = [].
Proof.
  destruct events as [|e events]; [done|]. intros _ E. unfold log_text in E. rewrite fmap_cons in E. cbn [concat] in E.
  apply app_eq_nil in E as [E _]. rewrite replica_line_eq in E. by apply app_eq_nil in E as [_ E].
Qed.

Lemma reads_all_log pieces k rs k' :
  split_spec split_string_ex → Forall (Forall slice_logged) pieces → reads_all k (log_text <$> pieces) rs k' →
  rs = event_record <$> concat pieces.
Proof.
  intros Hsplit. revert rs k'. induction pieces as [|events pieces IH] using rev_ind; intros rs k' Hp Hr.
  { inversion Hr as [|bufs buf rs1 rs2 k1 k2 _ _ E]; [done|]. by apply app_nil in E as [_ ?]. }
  apply Forall_app in Hp as [Hp He]. rewrite Forall_singleton in He. rewrite fmap_app in Hr. simpl in Hr.
  inversion Hr as [E|bufs buf rs1 rs2 k1 k2 Ha Hb E]; [symmetry in E; by apply app_nil in E as [_ ?]|].
  apply app_inj_tail in E as [-> ->]. rewrite (IH _ _ Hp Ha).
  destruct (reads_log _ _ _ _ _ Hsplit He Hb) as (read & left & -> & Hl & ->).
  apply Forall_app in He as [_ He]. symmetry in Hl. apply log_text_nil in Hl as ->; [|done].
  rewrite concat_app. simpl. by rewrite !app_nil_r, fmap_app.
Qed.

(** C13: when the compacted log was read completely and [data_recovery_replay_binlog] returns 0
    (the server not terminating), then, however the threads interleaved, the data threads have
    executed exactly the operations of the log, in order and successfully: every allocation,
    every write with data that the master answered to the request for this record, unless the
    master answered [ENODATA] to it, and every deletion, with a record of no operation logged
    for such a write and for a deletion of what is not there. Every task is back in the
    allocator. *)
Theorem replay_executes_log ids old c pieces :
  config_ok ids → split_spec split_string_ex → Forall (Forall slice_logged) pieces →
  reachable ids old c → rc_buffers c = log_text <$> pieces →
  rc_main c = MainReturned 0 → rc_sf_continue c = true →
  (∃ evss, Forall2 (replayed (rc_answers c)) (event_record <$> concat pieces) evss ∧ rc_events c = concat evss) ∧ rc_free c ≡ₚ ids.
Proof.
  intros Hc Hsplit Hp Hr Hb Hm Hsf. destruct (replay_success _ _ _ Hc Hr Hm Hsf) as ((k & Hk) & Hev & Hfree).
  rewrite Hb in Hk. by rewrite <- (reads_all_log _ _ _ _ Hsplit Hp Hk).
Qed.
End Main.
