(* ===== verification/BinlogReplayDemo.v ===== *)
(** * Replays of concrete logs

    Three records, two threads to fetch data: a run that replays them, and a run in which the
    recovery thread waits forever. *)
From S2P Require Import Prelude Types Binlog BinlogSpec BinlogThms BinlogDemo ObIndex SliceOp DataThread.
From S2P Require Import BinlogDedup BinlogDedupThms BinlogReplay BinlogReplaySpec BinlogReplayThms.
From S2P Require Import BinlogReplayMain.

Module ReplayDemo.
#[export] Instance demo_config : ReplayConfig := {|
  RECOVERY_THREADS_PER_DATA_GROUP := 2;
  split_string_ex := demo_split |}.

Definition event (v op off len : Z) : ReplicaEvent :=
  mkReplicaEvent 100 v BINLOG_SOURCE_REPLAY op
    (mkBlockSliceKey (fs_calc_block_hashcode 5 0) (mkSliceSize off len)).
Definition events : list ReplicaEvent :=
  [event 1 BINLOG_OP_TYPE_WRITE_SLICE 0 2; event 2 BINLOG_OP_TYPE_DEL_SLICE 8 4;
   event 3 BINLOG_OP_TYPE_WRITE_SLICE 16 2].
Definition old (t : Z) : ReplayTaskInfo :=
  mkTask (mkReplicaRecord 0 0 (mkBlockSliceKey (mkBlockKey 0 0 0) (mkSliceSize 0 0)) 0) 5 [].
Definition ids : list Z := [1; 2; 3; 4].
Definition start : BinlogReplayContext := int_replay_context ids old.

Definition main (slot : nat) : Step := StepMain 0 (ReadBuffer (log_text events)) (Some slot).
Definition line : list Step := [main 0; main 0; main 0].
Definition dispatch (n : nat) : list Step := replicate n (StepDispatch true).
Definition fetch (i : nat) (result : Z) (data : bytes) : list Step := replicate 4 (StepFetch i true result data).
Definition replay (n : nat) (result : Z) : list Step := replicate n (StepReplay true true result 0).
Definition end_of_log : list Step := [main 0; main 0; StepMain 0 (ReadError ENOENT) None; main 0].

(** The first two records are dispatched while the third is read; the block of the second is
    not there, and of the third write the master has one byte left. *)
Definition good_run : list Step :=
  [main 0; main 0; main 0] ++ line ++ line ++ dispatch 4 ++ fetch 0 0 [7; 8] ++ dispatch 5 ++
  line ++ replay 7 0 ++ dispatch 4 ++ fetch 0 0 [9] ++ dispatch 5 ++ [StepReplay true true ENOENT 0] ++ replay 4 0 ++
  end_of_log ++ [main 0; main 0; main 0] ++
  dispatch 2 ++ [StepFetch 0 true 0 []; StepFetch 1 true 0 []] ++ dispatch 1 ++ [main 0] ++ replay 3 0 ++ [main 0].
Definition state (l : list Step) : BinlogReplayContext := default start (run_steps l start).
Definition runs (l : list Step) : bool := match run_steps l start with Some _ => true | None => false end.

(** The data of the first record cannot be fetched while the recovery thread has taken a task
    for the second: the dispatch thread gives up and clears its queue before that task comes. *)
Definition late_run : list Step :=
  [main 0; main 0; main 0] ++ line ++ [main 0; main 0] ++ dispatch 4 ++ fetch 0 5 [] ++ dispatch 5 ++
  [main 0; main 0; main 0; main 0] ++ [StepFetch 0 true 0 []; StepFetch 1 true 0 []] ++ dispatch 1 ++ replay 3 0.

Lemma run_reachable l : runs l = true → reachable ids old (state l).
Proof.
  unfold runs, state. destruct (run_steps l start) as [c|] eqn:E; [|done]. intros _. simpl.
  revert E. generalize (reachable_init ids old). fold start. generalize start.
  induction l as [|st l IH]; intros c0 H0; simpl; [by intros [= <-]|].
  destruct (step st c0) as [c1|] eqn:Hs; [|done]. simpl. apply IH. by eapply reachable_step.
Qed.
Lemma demo_ok : config_ok ids.
Proof. split_and!; [|simpl; lia|done]. repeat (constructor; [by vm_compute; set_solver|]). constructor. Qed.

Lemma replay_follows_log_witness :
  rc_events (state late_run) = [] ∧ rc_fail_count (state late_run) = 1 ∧
  ∃ executed evss rest cur,
    rc_pushed (state late_run) = executed ++ rest ∧ Forall2 (replayed (rc_answers (state late_run))) executed evss ∧
    rc_events (state late_run) = concat evss ++ cur ∧
    (cur = [] ∨ ∃ r rest', rest = r :: rest' ∧ attempted (rc_answers (state late_run)) r cur ∧ 0 < rc_fail_count (state late_run)).
Proof.
  split_and!; [vm_compute; reflexivity|vm_compute; reflexivity|].
  apply (replay_follows_log ids old (state late_run) demo_ok). apply run_reachable. vm_compute. reflexivity.
Defined.

Lemma events_logged : Forall (Forall slice_logged) [events].
Proof.
  apply Forall_singleton. repeat (apply Forall_cons; split); try apply Forall_nil_2.
  all: split; [split_and!; [done|split_and!; [done| |]; by intros ?%list_elem_of_singleton|done..]|by vm_compute].
Qed.

Lemma replay_executes_log_witness :
  length (rc_events (state good_run)) = 4%nat ∧
  (∃ evss, Forall2 (replayed (rc_answers (state good_run))) (event_record <$> concat [events]) evss ∧ rc_events (state good_run) = concat evss) ∧
  rc_free (state good_run) ≡ₚ ids.
Proof.
  split; [vm_compute; reflexivity|].
  apply (replay_executes_log ids old (state good_run) [events]).
  - exact demo_ok.
  - exact demo_split_spec.
  - exact events_logged.
  - apply run_reachable. vm_compute. reflexivity.
  - vm_compute. reflexivity.
  - vm_compute. reflexivity.
  - vm_compute. reflexivity.
Defined.

(** The task that came late stays in the queue: the recovery thread waits for the dispatch
    thread, which has ended, and no thread can do anything any more. *)
Example late_task_hangs : runs late_run = true ∧ rc_main (state late_run) = MainWaitDispatch 0 ∧
  rc_queue (state late_run) = [2] ∧ ∀ st, st ≠ StepTerminate → step st (state late_run) = None.
Proof.
  split_and!; [by vm_compute..|]. remember (state late_run) as c eqn:Hc. vm_compute in Hc. subst c.
  intros [init r slot|woken|i woken result data|woken mem result log_result|] Hst; [done| |..]; try done.
  by destruct i as [|[|i]].
Qed.
End ReplayDemo.
